(* ===== verification/_CoqProject ===== *)
-Q . S2P
Prelude.v
Def.v
Chksum.v
Ip4Addr.v
Memp.v
Timeouts.v
Mem.v
Pbuf.v
PbufData.v
PbufHeap.v
PbufSole.v
Ethernet.v
Link.v
Acd.v
Etharp.v
EtharpIo.v
Ip4.v
Icmp.v
Reass.v
ReassOk.v
ReassQueue.v
ReassIn.v
Reassembly.v
ReassSpec.v
Headers.v
Pcb.v
Raw.v
Udp.v
UdpIo.v
Ip4In.v
Rust.v
Circular.v
Avl.v
Bitmap.v
LinkedList.v
Spinlock.v
