(* ===== verification/Prelude.v ===== *)
(** * CoreX: the network stack up to UDP and the kernel's data structures

    CoreX is a kernel in Rust whose network stack is lwIP, in C.  This library models
    that stack (src/src/kernel/networking/lwip) from byte order up
    to ARP, IPv4, ICMP, raw sockets and UDP, and the data structures and locks of the kernel
    (src/src/kernel/utilities).  The C code is modelled in the configuration
    of include/lwipopts.h and the defaults of include/lwip/opt.h: no operating
    system protection ([SYS_ARCH_PROTECT] is empty), no IPv6, no VLAN tags.

    ** The parts and their files

    The network stack.
    - Prelude: machine integers, results of code, the state monad, lists.
    - Def (core/def.c): byte order, string comparison and search, [lwip_itoa].
    - Chksum (core/inet_chksum.c): the Internet checksum, its three
      implementations, and the checksums of packets with pseudo headers.
    - Ip4Addr (core/ipv4/ip4_addr.c): addresses, parsing, printing, netmasks.
    - Memp (core/memp.c): pools of fixed-size elements.  Its class [Pool] is what
      users of a pool rely on; [memp_Pool] provides it.
    - Timeouts (core/timeouts.c): the list of timers, over any [Pool].
    - Mem (core/mem.c): the heap, over the class [Heap] for the C library's
      [malloc]; the class [PbufAlloc], which pools and heap provide together.
    - Pbuf and PbufData (core/pbuf.c): packet buffers, over any [PbufAlloc]; first
      their structure, then the bytes in them.  PbufHeap: who may hold which
      references, and what the operations do to the references held.  PbufSole:
      packets that only one place refers to.
    - Ethernet (netif/ethernet.c, parts of core/ipv4/etharp.c,
      drivers/nics/nic_controller.rs): frames and ARP messages sent.  The class
      [LinkDriver] is what the stack relies on of [netif->linkoutput]; the
      kernel's [lwipOutput] provides it.
    - Acd (core/ipv4/acd.c): address conflict detection.
    - Etharp and EtharpIo (core/ipv4/etharp.c, netif/ethernet.c): the ARP cache,
      the input of frames, the output of packets.  Link: the invariant that the
      cache, the conflict detection and the packets they hold keep together.
    - Ip4 (core/ipv4/ip4.c, core/ipv4/ip4_frag.c): the state of the IP layer,
      routing, output and fragmentation.
    - Icmp (core/ipv4/icmp.c): echo requests and error messages.
    - Reass (core/ipv4/ip4_frag.c): reassembly as the code has it, with helper
      structures written over the headers in memory.  ReassOk: fragments in
      memory; ReassQueue: the invariant of the queue, giving up datagrams, the
      timer; ReassIn: enqueueing a fragment; Reassembly: making room, [ip4_reass];
      ReassSpec: an abstract account and the proof that the code refines it.
    - Headers: moving a packet past a header or cutting it to its length, as the
      protocols do with a packet that has been received.
    - Pcb (include/lwip/ip.h, core/netif.c): the control blocks of raw.c and udp.c,
      the operations on lists of them (class [Blocks]), the state [host], which is the IP layer with the
      variables of both files, and interfaces by number.
    - Raw (core/raw.c): raw sockets.
    - Udp and UdpIo (core/udp.c): the administration of UDP's control blocks; the input
      and output of datagrams.
    - Ip4In (core/ipv4/ip4.c): input of datagrams, from the driver to the application.

    A received frame runs through [ethernet_input] to [etharp_input], which updates
    the cache, tells Acd and answers; a packet to be sent runs through
    [etharp_output] to the cache and to [ethernet_output], or waits in the cache.
    A datagram to be sent runs through [ip4_output] to [etharp_output], with UDP's header
    from [udp_sendto] if an application sends it.  A datagram that has been received runs through
    [ip4_input]: a fragment goes to [ip4_reass] until its datagram is complete, a whole one
    to [raw_input] and then to [udp_input] or [icmp_input], which may answer.

    The kernel.
    - Rust: overflow-checked arithmetic, memory in blocks, copies, locks.
    - Circular (data_structures/circular.rs): the buffer protected by a lock, and
      the one filled by an interrupt handler without one.
    - Avl (data_structures/avl_tree.rs), Bitmap (data_structures/bitmap.rs),
      LinkedList (data_structures/linked_list.rs).
    - Spinlock (spinlock.rs): spinlocks, reader-writer locks, semaphores.

    ** How the code is modelled

    A definition has the name of the function it models.  Integers are [Z] with the
    wrap-around of their C type written out; in Rust code an operation that
    overflows panics.  The result of code is an [outcome]: [Ok], [Panic] (a failed
    assertion), [Fault] (an access outside an object, or to one that has been
    freed), or [Diverge].  Structures in memory are in stores indexed by address,
    so that aliasing and dangling pointers are visible.  Code
    that is not in the repository, and code that is but is not modelled, is a
    parameter: the heap, the clock, random numbers, callbacks, the functions of applications, [tcp_input], the cards.  What is relied on of it is a class or a hypothesis, and each
    theorem with one has a witness at a concrete instance.

    A loop that is not bounded by a number in the code has fuel, and is [Diverge]
    without: [chain_fuel], [acd_fuel], [avl_fuel], [ll_fuel], [rd_fuel], [blk_fuel] are one more
    than the number of structures in memory, which is enough for every chain
    without a cycle; the theorems show that the loops return.
    [udp_new_port] makes at most as many rounds as there are ports, and its theorem shows that it needs no more.  The loop of
    [sys_check_timeouts] has any fuel, and [sys_check_timeouts_terminates] gives
    the amount that is enough.

    Code that several tasks run at once (Spinlock, [CircularInt]) is a state
    machine with one state per access to shared memory; accesses take effect
    in one order that all tasks see.  Everything else runs alone.

    ** What is shown

    - Packets: allocation, release, chaining, shrinking, headers, and the
      copies do exactly what they are documented to do, to the right bytes and
      reference counts, and leave other memory alone.
    - The link layer: any sequence of its timers, received frames that are not for IP and
      transmissions keeps the references to packets accounted for, if ARP messages are complete; requests
      are answered, packets are sent, or queued while their address is asked for; cache
      entries expire; conflict detection follows RFC 5227.
    - IPv4 and ICMP: datagrams that fit the MTU are sent on the right interface with a correct
      header; echo requests are answered and errors reported.  Fragments in
      any order give their datagram back, if there is room for each, whatever arrives the queue stays consistent, and what does not
      become complete is given up in time, with all its memory.
      Every kind of datagram that arrives is followed from [ip4_input] to its end: damaged ones and those for others are dropped,
      and nothing is kept of them; the theorems about whole ones ask that no raw socket listens for the protocol and that
      the first pbuf has more than the header of IP.
    - Raw sockets and UDP: a datagram is offered to the sockets that listen for it; UDP's blocks
      never share an address and a port, as long as an interface does not get an address that one of them is bound to; a free port is found if there is one, a
      datagram reaches the block it is for, and what is sent verifies at its receiver.
    - Helpers: the checksums are those of RFC 1071, addresses survive printing
      and parsing, timers run in order and their list is worked off although handlers set timers, pools never hand out an element twice.
    - The kernel: the tree is a finite map, the buffers are queues, the bitmap
      allocates disjoint regions, the locks exclude, semaphores count.
    - Failures are tied to their cause.  That a packet was not sent means that the driver returned an error for it, that it has no room for a
      header ([head_room]), or that [pbuf_alloc] or [pbuf_clone] returned NULL in the course of the call; a frame, if it was sent, has the bytes the theorem states.
    - Behaviour that is not as intended is stated as it is: short ARP frames
      are read behind their end, a full bitmap overflows in
      [BitmapAllocatePageframe], and the like.

    ** What is not modelled

    TCP, which is a parameter of [ip4_input], DHCP, DNS, UDP-Lite and the socket interface, other link
    layers (PPP, 6LoWPAN, SLIP), the kernel's allocator behind [malloc], page
    tables, scheduler, file systems, system calls, the graphical console, and the
    drivers, which access hardware.  Weak memory orderings are not modelled.  Sending on a raw socket,
    [ip4_frag], and sending a UDP packet without room for the header, are modelled but no theorem says what they send.  The
    bodies of debugging output are left out. *)

From stdpp Require Export base list list_numbers numbers gmap.
From Stdlib Require Export ZArith Lia ZifyBool.
From Stdlib Require Export Btauto.

#[global] Open Scope Z_scope.
#[global] Arguments Z.eqb : simpl never.
#[global] Arguments Z.leb : simpl never.
#[global] Arguments Z.ltb : simpl never.

(** ** Machine integers

    A [w]-bit unsigned value is a [Z]; assignments to a C object of that
    width go through the wrap-around written here. *)
Definition u8 (z : Z) : Z := z mod 256.
Definition u16 (z : Z) : Z := z mod 65536.
Definition u32 (z : Z) : Z := z mod 4294967296.
Definition u64 (z : Z) : Z := z mod 18446744073709551616.
Definition s32 (z : Z) : Z := (z + 2147483648) mod 4294967296 - 2147483648.

Definition is_u8 (z : Z) : Prop := 0 <= z < 256.
Definition is_u16 (z : Z) : Prop := 0 <= z < 65536.
Definition is_u32 (z : Z) : Prop := 0 <= z < 4294967296.

Create HintDb lwip.

(** Linear arithmetic after exposing the wrap-arounds, divisions and
    remainders of the goal and the context. *)
Ltac unfold_words :=
  unfold u8, u16, u32, u64, s32, is_u8, is_u16, is_u32 in *.
Ltac words :=
  unfold_words; Z.to_euclidean_division_equations; lia.

Lemma u8_id z : is_u8 z -> u8 z = z.
Proof. intros. apply Z.mod_small. done. Qed.
Lemma u16_id z : is_u16 z -> u16 z = z.
Proof. intros. apply Z.mod_small. done. Qed.
Lemma u32_id z : is_u32 z -> u32 z = z.
Proof. intros. apply Z.mod_small. done. Qed.
Lemma u8_range z : is_u8 (u8 z).
Proof. by apply Z.mod_pos_bound. Qed.
Lemma u16_range z : is_u16 (u16 z).
Proof. by apply Z.mod_pos_bound. Qed.
Lemma u32_range z : is_u32 (u32 z).
Proof. by apply Z.mod_pos_bound. Qed.

#[export] Hint Resolve u8_range u16_range u32_range : lwip.

(** ** Bit operations as arithmetic *)
Lemma land_ff z : Z.land z 255 = z mod 256.
Proof. change 255 with (Z.ones 8). by rewrite Z.land_ones. Qed.
Lemma land_ffff z : Z.land z 65535 = z mod 65536.
Proof. change 65535 with (Z.ones 16). by rewrite Z.land_ones. Qed.

Lemma shiftr_div n z : 0 <= n -> Z.shiftr z n = z / 2 ^ n.
Proof. apply Z.shiftr_div_pow2. Qed.
Lemma shiftl_mul n z : 0 <= n -> Z.shiftl z n = z * 2 ^ n.
Proof. apply Z.shiftl_mul_pow2. Qed.

(** A mask of [k] ones shifted by [n] selects a field of the word. *)
Lemma land_field z n k :
  0 <= n -> 0 <= k ->
  Z.land z (Z.shiftl (Z.ones k) n) = (z / 2 ^ n) mod 2 ^ k * 2 ^ n.
Proof.
  intros. rewrite <-Z.land_ones, <-Z.shiftr_div_pow2, <-Z.shiftl_mul_pow2 by done.
  apply Z.bits_inj'. intros i Hi.
  rewrite Z.land_spec, !Z.shiftl_spec by done.
  destruct (Z.ltb_spec i n).
  - rewrite !(Z.testbit_neg_r _ (i - n)) by lia. btauto.
  - rewrite Z.land_spec, Z.shiftr_spec by lia. do 2 f_equal. lia.
Qed.

(** Or-ing a low field into a word whose low bits are clear is addition. *)
Lemma lor_low n m a b :
  m = 2 ^ n -> 0 <= n -> 0 <= b < m -> Z.lor (a * m) b = a * m + b.
Proof.
  intros ->. intros. symmetry. rewrite <-Z.lxor_lor; [apply Z.add_nocarry_lxor|];
  rewrite <-Z.shiftl_mul_pow2 by done; apply Z.bits_inj'; intros i Hi;
  rewrite Z.land_spec, Z.bits_0, Z.shiftl_spec by done;
  (destruct (Z.ltb_spec i n);
   [by rewrite Z.testbit_neg_r by lia
   |rewrite <-(Z.mod_small b (2 ^ n)), Z.mod_pow2_bits_high by lia; btauto]).
Qed.

Lemma u8_lor a b : u8 (Z.lor a b) = Z.lor (u8 a) (u8 b).
Proof.
  unfold u8. rewrite <-!land_ff. apply Z.bits_inj'. intros i Hi.
  rewrite Z.lor_spec, !Z.land_spec, Z.lor_spec. btauto.
Qed.
Lemma u8_lxor a b : u8 (Z.lxor a b) = Z.lxor (u8 a) (u8 b).
Proof.
  unfold u8. rewrite <-!land_ff. apply Z.bits_inj'. intros i Hi.
  rewrite Z.lxor_spec, !Z.land_spec, Z.lxor_spec. btauto.
Qed.

(** ** Little-endian byte strings *)
Fixpoint le_bytes (n : nat) (z : Z) : list Z :=
  match n with
  | O => []
  | S n' => z mod 256 :: le_bytes n' (z / 256)
  end.

(** The value of a little-endian byte string. *)
Fixpoint le_val (bs : list Z) : Z :=
  match bs with
  | [] => 0
  | b :: bs' => b + 256 * le_val bs'
  end.

(** A 16-bit field in network byte order. *)
Definition be16 (z : Z) : list Z := [z / 256; z mod 256].

Definition bytes (bs : list Z) : Prop := Forall is_u8 bs.

Lemma length_le_bytes n z : length (le_bytes n z) = n.
Proof. revert z. induction n; simpl; auto. Qed.

Lemma le_bytes_bytes n z : bytes (le_bytes n z).
Proof.
  revert z. induction n as [|n IH]; intros z; simpl; constructor; [|apply IH].
  by apply Z.mod_pos_bound.
Qed.

Lemma le_val_range bs : bytes bs -> 0 <= le_val bs < 256 ^ Z.of_nat (length bs).
Proof.
  induction 1 as [|b bs Hb _ IH]; simpl length; simpl le_val; [done|].
  rewrite Nat2Z.inj_succ, Z.pow_succ_r by lia. unfold is_u8 in Hb. lia.
Qed.

Lemma le_val_bytes n z : le_val (le_bytes n z) = z mod 256 ^ Z.of_nat n.
Proof.
  revert z. induction n as [|n IH]; intros z; simpl le_bytes; simpl le_val.
  - by rewrite Z.mod_1_r.
  - rewrite IH, Nat2Z.inj_succ, Z.pow_succ_r by lia.
    rewrite Z.rem_mul_r; lia.
Qed.

Lemma le_bytes_val bs : bytes bs -> le_bytes (length bs) (le_val bs) = bs.
Proof.
  induction 1 as [|b bs Hb _ IH]; simpl; [done|]. unfold is_u8 in Hb.
  rewrite (Z.mul_comm 256), Z.mod_add, Z.mod_small, Z.div_add, Z.div_small by lia.
  by rewrite Z.add_0_l, IH.
Qed.

Lemma bytes_app l1 l2 : bytes l1 -> bytes l2 -> bytes (l1 ++ l2).
Proof. intros. by apply Forall_app. Qed.

#[export] Hint Resolve le_bytes_bytes bytes_app : lwip.

(** Concrete byte strings are recognised by evaluation. *)
Definition byteb (b : Z) : bool := (0 <=? b) && (b <? 256).
Lemma bytes_eval l : forallb byteb l = true -> bytes l.
Proof.
  intros H. apply Forall_forall. intros b Hb%list_elem_of_In. rewrite forallb_forall in H.
  specialize (H b Hb). unfold byteb in H. unfold is_u8. lia.
Qed.
Ltac solve_bytes := apply bytes_eval; vm_compute; reflexivity.

(** ** Lists as arrays *)
Lemma drop_insert_same {A} (l : list A) i x :
  (i < length l)%nat -> drop i (<[i := x]> l) = x :: drop (S i) l.
Proof.
  intros H. rewrite insert_take_drop by done.
  rewrite drop_app_ge by (rewrite length_take; lia).
  rewrite length_take, Nat.min_l by lia. by rewrite Nat.sub_diag.
Qed.

(** Overwriting a prefix of an array leaves what is past it. *)
Lemma drop_overwrite {A} (P l : list A) n :
  (length P <= n)%nat -> drop n (P ++ drop (length P) l) = drop n l.
Proof.
  intros H. rewrite drop_app_ge by done. rewrite drop_drop. f_equal. lia.
Qed.

(** Induction two elements at a time. *)
Lemma list_pair_ind {A} (P : list A -> Prop) :
  P [] -> (forall a, P [a]) -> (forall a b l, P l -> P (a :: b :: l)) -> forall l, P l.
Proof.
  intros H0 H1 H2. fix IH 1. intros [|a [|b l]]; [apply H0|apply H1|apply H2, IH].
Qed.

Lemma mod2_SS n : (S (S n) mod 2 = n mod 2)%nat.
Proof.
  replace (S (S n)) with (n + 1 * 2)%nat by lia. apply Nat.Div0.mod_add.
Qed.

(** ** Outcomes

    A C function returns, fails an [LWIP_ASSERT] (the kernel panics), touches
    memory outside the objects it has, or has not returned within the fuel its
    loop was given. *)
Inductive outcome (A : Type) : Type :=
| Ok (a : A)
| Panic
| Fault
| Diverge.
Arguments Ok {A} _.
Arguments Panic {A}.
Arguments Fault {A}.
Arguments Diverge {A}.

#[export] Instance outcome_ret : MRet outcome := fun _ a => Ok a.
#[export] Instance outcome_bind : MBind outcome := fun _ _ f m =>
  match m with Ok a => f a | Panic => Panic | Fault => Fault | Diverge => Diverge end.

Definition assert_that (b : bool) : outcome unit := if b then Ok () else Panic.

(** Reading and writing one cell of an array. *)
Definition load {A} (buf : list A) (i : nat) : outcome A :=
  match buf !! i with Some x => Ok x | None => Fault end.
Definition store {A} (buf : list A) (i : nat) (x : A) : outcome (list A) :=
  if (i <? length buf)%nat then Ok (<[i := x]> buf) else Fault.

Lemma store_ok {A} (buf : list A) i x : (i < length buf)%nat -> store buf i x = Ok (<[i := x]> buf).
Proof. intros H. unfold store. by apply Nat.ltb_lt in H as ->. Qed.

Lemma outcome_bind_ok {A B} (m : outcome A) (f : A -> outcome B) b :
  m ≫= f = Ok b <-> exists a, m = Ok a /\ f a = Ok b.
Proof.
  destruct m; simpl; split; try done; [by eauto|by intros (? & [= ->] & ?)|..];
    by intros (? & ? & ?).
Qed.

(** ** State passing

    Operations on a state [S] that can fail. *)
Definition ST (S A : Type) : Type := S -> outcome (A * S).

#[export] Instance st_ret {S} : MRet (ST S) := fun _ a s => Ok (a, s).
#[export] Instance st_bind {S} : MBind (ST S) := fun _ _ f m s =>
  match m s with
  | Ok (a, s') => f a s'
  | Panic => Panic
  | Fault => Fault
  | Diverge => Diverge
  end.

Definition get {S} : ST S S := fun s => Ok (s, s).
Definition put {S} (s : S) : ST S unit := fun _ => Ok (tt, s).
Definition lift {S A} (m : outcome A) : ST S A := fun s => a ← m; Ok (a, s).
(** [LWIP_ASSERT(message, b)]. *)
Definition sassert {S} (b : bool) : ST S unit := lift (assert_that b).

Lemma st_bind_ok {S A B} (m : ST S A) (f : A -> ST S B) s a s' :
  m s = Ok (a, s') -> (m ≫= f) s = f a s'.
Proof. unfold mbind, st_bind. by intros ->. Qed.

Lemma sassert_bind {S B} (c : bool) (f : unit -> ST S B) s :
  c = true -> (sassert c ≫= f) s = f tt s.
Proof. by intros ->. Qed.
Lemma get_bind {S B} (f : S -> ST S B) s : (get ≫= f) s = f s s.
Proof. done. Qed.
Lemma mret_bind {S A B} (a : A) (f : A -> ST S B) s : (mret a ≫= f) s = f a s.
Proof. done. Qed.
