(* ===== verification/Def.v ===== *)
(** * Byte order and string helpers (core/def.c, include/lwip/def.h)

    C strings are lists of non-zero [char] values (signed, as on x86_64);
    reading at the end of the list yields the terminating NUL. *)

From S2P Require Import Prelude.

(** ** Byte order *)

Definition PP_HTONS (x : Z) : Z :=
  u16 (Z.lor (Z.shiftl (Z.land x 0x00ff) 8) (Z.shiftr (Z.land x 0xff00) 8)).

Definition PP_HTONL (x : Z) : Z :=
  u32 (Z.lor (Z.lor (Z.lor
    (Z.shiftl (Z.land x 0x000000ff) 24)
    (Z.shiftl (Z.land x 0x0000ff00) 8))
    (Z.shiftr (Z.land x 0x00ff0000) 8))
    (Z.shiftr (Z.land x 0xff000000) 24)).

Definition lwip_htons (n : Z) : Z := PP_HTONS n.
Definition lwip_htonl (n : Z) : Z := PP_HTONL n.

(** ** Character classes (include/lwip/arch.h, [LWIP_NO_CTYPE_H]) *)

Definition lwip_in_range (c lo up : Z) : bool := (lo <=? u8 c) && (u8 c <=? up).
Definition lwip_isdigit (c : Z) : bool := lwip_in_range c 48 57.
Definition lwip_isxdigit (c : Z) : bool :=
  lwip_isdigit c || lwip_in_range c 97 102 || lwip_in_range c 65 70.
Definition lwip_islower (c : Z) : bool := lwip_in_range c 97 122.
Definition lwip_isspace (c : Z) : bool :=
  (c =? 32) || (c =? 12) || (c =? 10) || (c =? 13) || (c =? 9) || (c =? 11).
Definition lwip_isupper (c : Z) : bool := lwip_in_range c 65 90.
Definition lwip_tolower (c : Z) : Z := if lwip_isupper c then c - 65 + 97 else c.

(** ** Strings *)

(** [*p] at the head of a NUL-terminated string. *)
Definition deref (s : list Z) : Z := hd 0 s.

(** The comparison both case-insensitive loops make on one pair of
    characters: [true] when the loop body returns 1. *)
Definition chars_differ (c1 c2 : Z) : bool :=
  if negb (c1 =? c2) then
    let c1_upc := Z.lor c1 0x20 in
    if (97 <=? c1_upc) && (c1_upc <=? 122) then
      let c2_upc := Z.lor c2 0x20 in
      negb (c1_upc =? c2_upc)
    else true
  else false.

Fixpoint lwip_stricmp (str1 str2 : list Z) : Z :=
  let c1 := deref str1 in
  let c2 := deref str2 in
  if chars_differ c1 c2 then 1
  else match str1 with
       | [] => 0
       | _ :: str1' => if c1 =? 0 then 0 else lwip_stricmp str1' (tail str2)
       end.

(** [len] is a [size_t] decremented before it is tested. *)
Fixpoint lwip_strnicmp (str1 str2 : list Z) (len : Z) : Z :=
  let c1 := deref str1 in
  let c2 := deref str2 in
  if chars_differ c1 c2 then 1
  else
    let len := u64 (len - 1) in
    match str1 with
    | [] => 0
    | _ :: str1' =>
        if negb (len =? 0) && negb (c1 =? 0)
        then lwip_strnicmp str1' (tail str2) len
        else 0
    end.

(** The C library's [strncmp] as the code uses it: zero or non-zero. *)
Fixpoint strncmp_eq (s1 s2 : list Z) (n : nat) : bool :=
  match n with
  | O => true
  | S n' =>
      (deref s1 =? deref s2) &&
      (if deref s1 =? 0 then true else strncmp_eq (tail s1) (tail s2) n')
  end.

(** The search loop of [lwip_strnstr]: [p] is the string at index [i] of the
    buffer; the result is the index of the match. *)
Fixpoint strnstr_loop (p token : list Z) (i n : Z) : option Z :=
  match p with
  | [] => None
  | c :: p' =>
      if negb (c =? 0) && (i + Z.of_nat (length token) <=? n) then
        if (c =? deref token) && strncmp_eq p token (length token)
        then Some i
        else strnstr_loop p' token (i + 1) n
      else None
  end.

Definition lwip_strnstr (buffer token : list Z) (n : Z) : option Z :=
  let tokenlen := Z.of_nat (length token) in
  if tokenlen =? 0 then Some 0
  else strnstr_loop buffer token 0 n.

Fixpoint strnistr_loop (p token : list Z) (i n : Z) : option Z :=
  match p with
  | [] => None
  | c :: p' =>
      if negb (c =? 0) && (i + Z.of_nat (length token) <=? n) then
        if lwip_strnicmp p token (Z.of_nat (length token)) =? 0
        then Some i
        else strnistr_loop p' token (i + 1) n
      else None
  end.

Definition lwip_strnistr (buffer token : list Z) (n : Z) : option Z :=
  let tokenlen := Z.of_nat (length token) in
  if tokenlen =? 0 then Some 0
  else strnistr_loop buffer token 0 n.

(** ** Integer printing

    The buffer is the list of its bytes; [res] and [tmp] are offsets into it. *)

(** [while ((n != 0) && (tmp > res))]: structural in [tmp]. *)
Fixpoint itoa_loop (buf : list Z) (res tmp : nat) (n : Z) : list Z * nat * Z :=
  if negb (n =? 0) && (res <? tmp)%nat then
    match tmp with
    | O => (buf, tmp, n)
    | S tmp' =>
        let val := 48 + Z.rem n 10 in
        itoa_loop (<[tmp' := val]> buf) res tmp' (Z.quot n 10)
    end
  else (buf, tmp, n).

(** [memmove] of [len] bytes inside one buffer. *)
Definition memmove (buf : list Z) (dst src len : nat) : list Z :=
  take dst buf ++ take len (drop src buf) ++ drop (dst + len) buf.

Definition lwip_itoa (buf : list Z) (bufsize : nat) (number : Z) : list Z :=
  let n := if 0 <=? number then number else s32 (- number) in
  if (bufsize <? 2)%nat then
    (if (bufsize =? 1)%nat then <[0%nat := 0]> buf else buf)
  else
    let '(buf, res) :=
      if number <? 0 then (<[0%nat := 45]> buf, 1%nat) else (buf, 0%nat) in
    let tmp := (bufsize - 1)%nat in
    let buf := <[tmp := 0]> buf in
    let '(buf, tmp, n) := itoa_loop buf res tmp n in
    if negb (n =? 0) then <[0%nat := 0]> buf
    else if (nth tmp buf 0 =? 0) then
      <[S res := 0]> (<[res := 48]> buf)
    else memmove buf res tmp (bufsize - tmp).

(** [lwip_memcmp_consttime] over two buffers of [len] bytes. *)
Fixpoint memcmp_loop (s1 s2 : list Z) (ret : Z) : Z :=
  match s1, s2 with
  | a :: s1', b :: s2' => memcmp_loop s1' s2' (u8 (Z.lor ret (Z.lxor a b)))
  | _, _ => ret
  end.
Definition lwip_memcmp_consttime (s1 s2 : list Z) (len : nat) : Z :=
  memcmp_loop (take len s1) (take len s2) 0.

(** ** Theorems: byte order *)

Lemma htonl_value x :
  is_u32 x ->
  lwip_htonl x = x mod 256 * 16777216 + x / 256 mod 256 * 65536
                 + x / 65536 mod 256 * 256 + x / 16777216.
Proof.
  intros Hx. unfold lwip_htonl, PP_HTONL.
  change 0x000000ff with (Z.shiftl (Z.ones 8) 0).
  change 0x0000ff00 with (Z.shiftl (Z.ones 8) 8).
  change 0x00ff0000 with (Z.shiftl (Z.ones 8) 16).
  change 0xff000000 with (Z.shiftl (Z.ones 8) 24).
  rewrite !land_field, !shiftl_mul, !shiftr_div by lia.
  rewrite !Z.pow_0_r, !Z.div_1_r, !Z.mul_1_r.
  change (2 ^ 8) with 256. change (2 ^ 16) with 65536. change (2 ^ 24) with 16777216.
  unfold is_u32 in Hx.
  replace (x / 16777216 mod 256) with (x / 16777216) by words.
  replace (x / 256 mod 256 * 256 * 256) with (x / 256 mod 256 * 65536) by lia.
  replace (x / 65536 mod 256 * 65536) with (x / 65536 mod 256 * 256 * 256) by lia.
  rewrite !Z.div_mul by lia.
  assert (0 <= x / 16777216 < 256) by words.
  pose proof (Z.mod_pos_bound x 256 eq_refl).
  pose proof (Z.mod_pos_bound (x / 256) 256 eq_refl).
  pose proof (Z.mod_pos_bound (x / 65536) 256 eq_refl).
  generalize dependent (x / 16777216). generalize dependent (x mod 256).
  generalize dependent (x / 256 mod 256). generalize dependent (x / 65536 mod 256).
  intros b2 ? b1 ? b0 ? b3 ?.
  rewrite (lor_low 24 16777216) by lia.
  replace (b0 * 16777216 + b1 * 65536) with ((b0 * 256 + b1) * 65536) by lia.
  rewrite (lor_low 16 65536) by lia.
  replace ((b0 * 256 + b1) * 65536 + b2 * 256)
    with ((b0 * 65536 + b1 * 256 + b2) * 256) by lia.
  rewrite (lor_low 8 256) by lia.
  rewrite u32_id; unfold is_u32; lia.
Qed.

(** A 16-bit field in network byte order. *)
Lemma htons_arith x : is_u16 x -> lwip_htons x = x mod 256 * 256 + x / 256.
Proof.
  intros Hx. unfold lwip_htons, PP_HTONS. rewrite land_ff.
  change 0xff00 with (Z.shiftl (Z.ones 8) 8). rewrite land_field, shiftl_mul, shiftr_div by done.
  change (2 ^ 8) with 256. rewrite Z.div_mul by done.
  unfold is_u16 in Hx. rewrite (Z.mod_small (x / 256)) by (split; [apply Z.div_pos|apply Z.div_lt_upper_bound]; lia).
  assert (0 <= x / 256 < 256) by (split; [apply Z.div_pos|apply Z.div_lt_upper_bound]; lia).
  rewrite (lor_low 8 256) by (done || lia). apply u16_id. words.
Qed.
Lemma htons_be16 x : is_u16 x -> le_bytes 2 (lwip_htons x) = be16 x.
Proof. intros Hx. rewrite htons_arith by done. unfold be16. simpl. f_equal; [words|]. f_equal. words. Qed.

Lemma htonl_range x : is_u32 (lwip_htonl x).
Proof. apply u32_range. Qed.
#[export] Hint Resolve htonl_range : lwip.

Lemma htonl_le_val x : is_u32 x -> lwip_htonl x = le_val (rev (le_bytes 4 x)).
Proof.
  intros Hx. rewrite htonl_value by done. unfold is_u32 in Hx.
  cbn [le_bytes rev app le_val]. rewrite !Z.div_div by lia.
  change (256 * 256) with 65536. change (65536 * 256) with 16777216.
  rewrite (Z.mod_small (x / 16777216)); [lia|].
  split; [apply Z.div_pos | apply Z.div_lt_upper_bound]; lia.
Qed.

Lemma htonl_bytes x : is_u32 x -> le_bytes 4 (lwip_htonl x) = rev (le_bytes 4 x).
Proof.
  intros Hx. rewrite htonl_le_val by done.
  apply (le_bytes_val (rev (le_bytes 4 x))), Forall_rev, le_bytes_bytes.
Qed.

Lemma le_bytes_inj x y : is_u32 x -> is_u32 y -> le_bytes 4 x = le_bytes 4 y -> x = y.
Proof.
  intros Hx Hy E%(f_equal le_val). rewrite !le_val_bytes in E.
  change (256 ^ Z.of_nat 4) with 4294967296 in E.
  by rewrite !Z.mod_small in E.
Qed.

(** On a little-endian host [lwip_htonl] reverses the bytes of its
    argument in memory, and applying it twice gives the argument back, so it
    also serves as [lwip_ntohl]. *)
Theorem lwip_htonl_reverses (x : Z) (Hx : is_u32 x) :
  le_bytes 4 (lwip_htonl x) = rev (le_bytes 4 x) /\ lwip_htonl (lwip_htonl x) = x.
Proof.
  split; [by apply htonl_bytes|]. apply le_bytes_inj; auto with lwip.
  by rewrite !htonl_bytes, rev_involutive by auto with lwip.
Qed.

Lemma lwip_htonl_reverses_witness :
  le_bytes 4 (lwip_htonl 0x7f000001) = [0x7f; 0; 0; 1] /\
  lwip_htonl (lwip_htonl 0x7f000001) = 0x7f000001.
Proof. apply (lwip_htonl_reverses 0x7f000001). unfold is_u32; lia. Defined.

(** ** Theorems: strings *)

(** A C string: no NUL inside, every element a [char]. *)
Definition char_range (c : Z) : Prop := -128 <= c < 128.
Definition cstring (s : list Z) : Prop := Forall (fun c => char_range c /\ c <> 0) s.

Lemma chars_differ_spec c1 c2 :
  char_range c1 -> char_range c2 ->
  chars_differ c1 c2 = negb (lwip_tolower c1 =? lwip_tolower c2).
Proof.
  intros H1 H2.
  assert (forallb (fun a => forallb (fun b =>
    Bool.eqb (chars_differ a b) (negb (lwip_tolower a =? lwip_tolower b)))
    (seqZ (-128) 256)) (seqZ (-128) 256) = true) as A by (vm_compute; reflexivity).
  rewrite forallb_forall in A. unfold char_range in *.
  assert (In c1 (seqZ (-128) 256)) as I1 by (apply list_elem_of_In, elem_of_seqZ; lia).
  specialize (A _ I1). rewrite forallb_forall in A.
  by apply Bool.eqb_prop, A, list_elem_of_In, elem_of_seqZ; lia.
Qed.

Lemma lower_nul c : char_range c -> (lwip_tolower c =? 0) = (c =? 0).
Proof.
  intros H. unfold lwip_tolower, lwip_isupper, lwip_in_range, char_range in *.
  case_match; [|done]. destruct (Z.eqb_spec c 0) as [->|]; [done|].
  apply andb_true_iff in H0 as [?%Z.leb_le ?%Z.leb_le]. apply Z.eqb_neq. words.
Qed.

Lemma char_range_deref s : cstring s -> char_range (deref s).
Proof. intros [|c s' [Hc _] _]; simpl; [unfold char_range; lia|done]. Qed.
Lemma cstring_tail s : cstring s -> cstring (tail s).
Proof. intros [|c s' _ Hs]; [constructor|done]. Qed.
#[export] Hint Resolve char_range_deref cstring_tail : lwip.

(** One step of the comparison loops in terms of the case-folded strings. *)
Lemma chars_differ_cons c1 s1 c2 s2 :
  cstring (c1 :: s1) -> cstring (c2 :: s2) ->
  chars_differ c1 c2 = negb (lwip_tolower c1 =? lwip_tolower c2) /\ c1 <> 0 /\ c2 <> 0 /\
  cstring s1 /\ cstring s2.
Proof.
  intros [[? ?] ?]%Forall_cons [[? ?] ?]%Forall_cons. by rewrite chars_differ_spec.
Qed.

Lemma chars_differ_nul c : chars_differ 0 c = negb (c =? 0).
Proof. unfold chars_differ. rewrite (Z.eqb_sym 0). by destruct (c =? 0). Qed.
Lemma chars_differ_nul_r c s : cstring (c :: s) -> chars_differ c 0 = true.
Proof.
  intros [[Hc Hn] _]%Forall_cons. rewrite chars_differ_spec by (unfold char_range in *; lia).
  change (lwip_tolower 0) with 0. rewrite lower_nul by done.
  by apply Z.eqb_neq in Hn as ->.
Qed.

Lemma stricmp_fold (s1 s2 : list Z) (H1 : cstring s1) (H2 : cstring s2) :
  lwip_stricmp s1 s2 =
    if decide (map lwip_tolower s1 = map lwip_tolower s2) then 0 else 1.
Proof.
  revert s2 H2. induction s1 as [|c1 s1 IH]; intros [|c2 s2] H2; simpl.
  - done.
  - rewrite chars_differ_nul. apply Forall_cons in H2 as [[_ Hn%Z.eqb_neq] _].
    by rewrite Hn.
  - by rewrite (chars_differ_nul_r _ _ H1).
  - destruct (chars_differ_cons _ _ _ _ H1 H2) as (-> & Hn%Z.eqb_neq & _ & ? & ?).
    rewrite Hn, IH by done. destruct (Z.eqb_spec (lwip_tolower c1) (lwip_tolower c2)); simpl;
    repeat case_decide; congruence.
Qed.

(** [lwip_stricmp] on two C strings returns 0 exactly when they are equal
    up to ASCII case, and 1 otherwise. *)
Theorem lwip_stricmp_correct (s1 s2 : list Z) (H1 : cstring s1) (H2 : cstring s2) :
  lwip_stricmp s1 s2 =
    if decide (map lwip_tolower s1 = map lwip_tolower s2) then 0 else 1.
Proof. by apply stricmp_fold. Qed.

Lemma lwip_stricmp_correct_witness : lwip_stricmp [72; 105] [104; 73] = 0.
Proof.
  rewrite (lwip_stricmp_correct [72; 105] [104; 73]); [reflexivity| |];
  repeat constructor; unfold char_range; lia.
Defined.

Lemma strnicmp_take (s1 s2 : list Z) (len : Z) :
  cstring s1 -> cstring s2 -> 0 < len < 2 ^ 64 ->
  lwip_strnicmp s1 s2 len =
    if decide (take (Z.to_nat len) (map lwip_tolower s1)
               = take (Z.to_nat len) (map lwip_tolower s2)) then 0 else 1.
Proof.
  revert s2 len. induction s1 as [|c1 s1 IH]; intros [|c2 s2] len H1 H2 Hl;
  replace (Z.to_nat len) with (S (Z.to_nat (len - 1))) by lia; simpl.
  - done.
  - rewrite chars_differ_nul. apply Forall_cons in H2 as [[_ Hn%Z.eqb_neq] _].
    by rewrite Hn.
  - by rewrite (chars_differ_nul_r _ _ H1).
  - destruct (chars_differ_cons _ _ _ _ H1 H2) as (-> & Hn%Z.eqb_neq & _ & ? & ?).
    rewrite Hn, andb_true_r. unfold u64. rewrite Z.mod_small by lia.
    destruct (Z.eqb_spec (lwip_tolower c1) (lwip_tolower c2)) as [->|Hd]; simpl.
    + destruct (Z.eqb_spec (len - 1) 0) as [->|]; simpl; [by rewrite decide_True|].
      rewrite IH by (done || lia). repeat case_decide; congruence.
    + case_decide; congruence.
Qed.

(** [lwip_strnicmp] with a positive length compares the first [len]
    characters up to ASCII case; with length 0 the [size_t] counter wraps and
    the whole strings are compared, as [lwip_stricmp] does. *)
Theorem lwip_strnicmp_correct (s1 s2 : list Z) (len : Z)
    (H1 : cstring s1) (H2 : cstring s2) (Hl : 0 <= len < 2 ^ 64)
    (Hs : Z.of_nat (length s1) < 2 ^ 64 - 1) (Hs2 : Z.of_nat (length s2) < 2 ^ 64 - 1) :
  lwip_strnicmp s1 s2 len =
    if decide (len = 0) then lwip_stricmp s1 s2
    else if decide (take (Z.to_nat len) (map lwip_tolower s1)
               = take (Z.to_nat len) (map lwip_tolower s2)) then 0 else 1.
Proof.
  case_decide as E; [subst len|apply strnicmp_take; done || lia].
  rewrite stricmp_fold by done.
  destruct s1 as [|c1 s1], s2 as [|c2 s2]; simpl in *.
  - done.
  - rewrite chars_differ_nul. apply Forall_cons in H2 as [[_ Hn%Z.eqb_neq] _].
    by rewrite Hn.
  - by rewrite (chars_differ_nul_r _ _ H1).
  - destruct (chars_differ_cons _ _ _ _ H1 H2) as (-> & Hn%Z.eqb_neq & _ & ? & ?).
    rewrite Hn. change (u64 (0 - 1)) with (2 ^ 64 - 1). simpl negb.
    rewrite strnicmp_take by (done || lia). simpl.
    rewrite !take_ge by (rewrite length_map; lia).
    destruct (Z.eqb_spec (lwip_tolower c1) (lwip_tolower c2)); simpl;
    repeat case_decide; congruence.
Qed.

Lemma lwip_strnicmp_correct_witness :
  lwip_strnicmp [65; 98] [97; 67] 1 = 0 /\ lwip_strnicmp [65; 98] [97; 67] 0 = 1.
Proof.
  split; (rewrite lwip_strnicmp_correct; [reflexivity| | | | |];
  try (repeat constructor; unfold char_range; lia); simpl; lia).
Defined.

(** Reference search: the first position whose suffix satisfies [m], among
    those at which [k] more characters fit below the limit. *)
Fixpoint find_from (m : list Z -> bool) (k : Z) (p : list Z) (i n : Z) : option Z :=
  match p with
  | [] => None
  | c :: p' =>
      if i + k <=? n then (if m p then Some i else find_from m k p' (i + 1) n) else None
  end.

Definition first_match (m : list Z -> bool) (k : Z) (buffer : list Z) (n : Z)
    (r : option Z) : Prop :=
  let hit j := (j < length buffer)%nat /\ m (drop j buffer) = true /\ Z.of_nat j + k <= n in
  match r with
  | Some i => exists j, i = Z.of_nat j /\ hit j /\ forall j', (j' < j)%nat -> ~ hit j'
  | None => forall j, ~ hit j
  end.

Lemma find_from_shift m k p i n :
  find_from m k p i n = (fun j => j + i) <$> find_from m k p 0 (n - i).
Proof.
  revert i n. induction p as [|c p IH]; intros i n; simpl; [done|].
  replace (0 + k <=? n - i) with (i + k <=? n) by lia.
  rewrite Z.add_0_l.
  case_match; [|done]. case_match; simpl; [f_equal; lia|].
  rewrite (IH (i + 1)), (IH 1). rewrite <-option_fmap_compose.
  replace (n - i - 1) with (n - (i + 1)) by lia.
  apply option_fmap_ext. intros; simpl; lia.
Qed.

Lemma find_from_spec m k p n : first_match m k p n (find_from m k p 0 n).
Proof.
  unfold first_match. revert n. induction p as [|c p IH]; intros n; simpl.
  - intros j (Hj & _); simpl in Hj; lia.
  - destruct (Z.leb_spec (0 + k) n).
    + destruct (m (c :: p)) eqn:E.
      * exists 0%nat. repeat split; simpl; try done; lia.
      * rewrite Z.add_0_l, find_from_shift. specialize (IH (n - 1)).
        destruct (find_from m k p 0 (n - 1)) as [i|]; csimpl in *.
        -- destruct IH as (j & -> & (? & ? & ?) & Hmin).
           exists (S j). repeat split; simpl; try lia; try done.
           intros [|j'] Hj' (? & ? & ?); simpl in *; [congruence|].
           apply (Hmin j'); [lia|]. repeat split; [lia|done|lia].
        -- intros [|j] (? & ? & ?); simpl in *; [congruence|].
           apply (IH j). repeat split; [lia|done|lia].
    + intros j (_ & _ & ?). lia.
Qed.

Lemma strncmp_eq_take s1 s2 n :
  cstring s1 -> cstring s2 ->
  strncmp_eq s1 s2 n = bool_decide (take n s1 = take n s2).
Proof.
  revert s1 s2. induction n as [|n IH]; intros s1 s2 H1 H2; simpl; [done|].
  destruct s1 as [|c1 s1], s2 as [|c2 s2]; simpl.
  - done.
  - apply Forall_cons in H2 as [[_ Hn] _]. rewrite Z.eqb_sym.
    by apply Z.eqb_neq in Hn as ->.
  - apply Forall_cons in H1 as [[_ Hn] _]. by apply Z.eqb_neq in Hn as ->.
  - apply Forall_cons in H1 as [[_ Hn%Z.eqb_neq] ?], H2 as [_ ?]. rewrite Hn, IH by done.
    destruct (Z.eqb_spec c1 c2) as [->|]; simpl.
    + apply bool_decide_ext. split; congruence.
    + symmetry. apply bool_decide_eq_false. congruence.
Qed.

(** [token] starts at the head of [p]. *)
Definition prefix_of (token p : list Z) : bool := bool_decide (take (length token) p = token).

Lemma strnstr_loop_find p token i n :
  cstring p -> cstring token -> token <> [] ->
  strnstr_loop p token i n = find_from (prefix_of token) (Z.of_nat (length token)) p i n.
Proof.
  intros Hp Ht Hne. revert i. induction p as [|c p IH]; intros i; simpl; [done|].
  assert (Hp' := Hp). apply Forall_cons in Hp' as [[_ Hn%Z.eqb_neq] Hp']. rewrite Hn. simpl.
  case_match; [|done]. rewrite strncmp_eq_take, IH, (firstn_all token) by done.
  unfold prefix_of. destruct token as [|t token]; [done|]. simpl.
  destruct (Z.eqb_spec c t) as [->|Hct]; simpl; [done|].
  rewrite bool_decide_eq_false_2; [done|congruence].
Qed.

(** [lwip_strnstr] returns the first position of the buffer at which a
    non-empty token starts and ends within the first [n] bytes, and NULL when
    there is none. *)
Theorem lwip_strnstr_first (buffer token : list Z) (n : Z)
    (Hb : cstring buffer) (Ht : cstring token) (Hne : token <> []) :
  first_match (prefix_of token) (Z.of_nat (length token)) buffer n
    (lwip_strnstr buffer token n).
Proof.
  unfold lwip_strnstr. destruct (Z.eqb_spec (Z.of_nat (length token)) 0) as [E|_].
  - destruct token; simpl in *; [done|lia].
  - rewrite strnstr_loop_find by done. apply find_from_spec.
Qed.

Lemma lwip_strnstr_first_witness :
  first_match (prefix_of [98; 99]) 2 [97; 98; 98; 99] 4
    (lwip_strnstr [97; 98; 98; 99] [98; 99] 4) /\
  lwip_strnstr [97; 98; 98; 99] [98; 99] 4 = Some 2.
Proof.
  split; [|reflexivity]. apply (lwip_strnstr_first [97; 98; 98; 99] [98; 99] 4); try done;
  repeat constructor; unfold char_range; lia.
Defined.

Definition prefix_of_nocase (token p : list Z) : bool :=
  bool_decide (take (length token) (map lwip_tolower p) = map lwip_tolower token).

Lemma strnistr_loop_find p token i n :
  cstring p -> cstring token -> token <> [] -> Z.of_nat (length token) < 2 ^ 64 ->
  strnistr_loop p token i n =
    find_from (prefix_of_nocase token) (Z.of_nat (length token)) p i n.
Proof.
  intros Hp Ht Hne Hl. revert i. induction p as [|c p IH]; intros i; [done|].
  assert (Hp' := Hp). apply Forall_cons in Hp' as [[_ Hn%Z.eqb_neq] Hp'].
  cbn [strnistr_loop find_from]. rewrite Hn, IH by done. cbn [negb andb].
  assert (length token <> 0%nat) by (destruct token; simpl; congruence).
  case_match; [|done]. rewrite strnicmp_take by (done || lia).
  rewrite Nat2Z.id, (take_ge (map lwip_tolower token)) by (by rewrite length_map).
  unfold prefix_of_nocase. case_decide as E.
  - by rewrite (bool_decide_eq_true_2 _ E).
  - by rewrite (bool_decide_eq_false_2 _ E).
Qed.

(** [lwip_strnistr] is the same search up to ASCII case. *)
Lemma lwip_strnistr_first buffer token n :
  cstring buffer -> cstring token -> token <> [] -> Z.of_nat (length token) < 2 ^ 64 ->
  first_match (prefix_of_nocase token) (Z.of_nat (length token)) buffer n
    (lwip_strnistr buffer token n).
Proof.
  intros Hb Ht Hne Hl. unfold lwip_strnistr.
  destruct (Z.eqb_spec (Z.of_nat (length token)) 0) as [E|_].
  - destruct token; simpl in *; [done|lia].
  - rewrite strnistr_loop_find by done. apply find_from_spec.
Qed.

(** ** Theorems: integer printing *)

(** The string a buffer holds. *)
Fixpoint cstr (buf : list Z) : list Z :=
  match buf with
  | [] => []
  | c :: buf' => if c =? 0 then [] else c :: cstr buf'
  end.

Definition digit (c : Z) : Prop := 48 <= c <= 57.
Definition dec_val (ds : list Z) (acc : Z) : Z := foldl (fun v c => 10 * v + (c - 48)) acc ds.

(** [ds] is the decimal notation of [n]: no leading zero, except "0". *)
Definition decimal (ds : list Z) (n : Z) : Prop :=
  Forall digit ds /\ ds <> [] /\ dec_val ds 0 = n /\ (hd 0 ds = 48 -> ds = [48]).

Lemma dec_val_acc ds acc : dec_val ds acc = acc * 10 ^ Z.of_nat (length ds) + dec_val ds 0.
Proof.
  unfold dec_val. revert acc. induction ds as [|d ds IH]; intros acc; simpl; [lia|].
  rewrite IH, (IH (10 * 0 + _)). rewrite Nat2Z.inj_succ, Z.pow_succ_r by lia. lia.
Qed.

Lemma dec_val_range ds : Forall digit ds -> 0 <= dec_val ds 0 < 10 ^ Z.of_nat (length ds).
Proof.
  induction 1 as [|d ds Hd _ IH]; [done|].
  change (dec_val (d :: ds) 0) with (dec_val ds (10 * 0 + (d - 48))).
  rewrite dec_val_acc. simpl length. rewrite Nat2Z.inj_succ, Z.pow_succ_r by lia.
  unfold digit in Hd. nia.
Qed.

Lemma decimal_snoc ds n d :
  decimal ds n -> 0 < n -> digit d -> decimal (ds ++ [d]) (10 * n + (d - 48)).
Proof.
  intros (Hd & Hne & Hv & Hz) Hn Hdig. repeat split.
  - apply Forall_app; split; [done|]. by constructor.
  - by destruct ds.
  - unfold dec_val in *. rewrite foldl_app. simpl. lia.
  - destruct ds as [|c ds]; [done|]. intros E. simpl in E.
    injection (Hz E) as -> ->. unfold dec_val in Hv. simpl in Hv. lia.
Qed.

Lemma decimal_exists n : 0 <= n -> exists ds, decimal ds n.
Proof.
  intros Hn. remember (Z.to_nat n) as k eqn:Hk. assert (n <= Z.of_nat k) as Hk' by lia.
  clear Hk. revert n Hn Hk'. induction k as [|k IH]; intros n Hn Hk.
  - exists [48]. repeat split; try done. repeat constructor; lia. simpl; lia.
  - destruct (Z.ltb_spec n 10).
    + exists [48 + n].
      repeat split; [repeat constructor; lia|done|unfold dec_val; simpl; lia|].
      simpl. intros. f_equal. lia.
    + destruct (IH (n / 10)) as [ds Hds]; [words..|].
      exists (ds ++ [48 + n mod 10]).
      replace n with (10 * (n / 10) + (48 + n mod 10 - 48)) at 2 by words.
      apply decimal_snoc; [done|words|unfold digit; words].
Qed.

(** What the digit loop leaves in the buffer: the digits it has printed, most
    significant first, in front of what was at [tmp]. *)
Lemma itoa_loop_spec buf res tmp n buf' tmp' n' :
  0 <= n -> (res <= tmp)%nat -> (tmp <= length buf)%nat ->
  itoa_loop buf res tmp n = (buf', tmp', n') ->
  exists ds, buf' = take tmp' buf ++ ds ++ drop tmp buf /\
    (tmp' + length ds = tmp)%nat /\ (res <= tmp')%nat /\ Forall digit ds /\ 0 <= n' /\
    n = n' * 10 ^ Z.of_nat (length ds) + dec_val ds 0 /\ (n' = 0 \/ tmp' = res) /\
    (n' = 0 -> hd 49 ds <> 48).
Proof.
  revert buf n. induction tmp as [|tmp IH]; intros buf n Hn Hr Hl; simpl.
  - rewrite andb_false_r. intros [= <- <- <-]. exists []. rewrite drop_0.
    repeat split; simpl; try done; try constructor; lia.
  - destruct (Z.eqb_spec n 0) as [->|Hnz]; simpl.
    { intros [= <- <- <-]. exists [].
      repeat split; simpl; try done; try lia; try constructor.
      by rewrite take_drop. }
    destruct (Nat.ltb_spec res (S tmp)) as [Hrt|Hrt]; simpl.
    + rewrite Z.quot_div_nonneg, Z.rem_mod_nonneg by lia.
      intros E. apply IH in E as (ds & -> & Hlen & Hr' & Hd & Hn' & Hval & Hstop & Hhd);
        [|words|lia|rewrite length_insert; lia].
      exists (ds ++ [48 + n mod 10]). rewrite length_app. simpl.
      repeat split; try done; try lia.
      * rewrite take_insert_ge, drop_insert_same by lia. by rewrite <-app_assoc.
      * apply Forall_app. split; [done|]. constructor; [unfold digit; words|done].
      * unfold dec_val in *. rewrite foldl_app. simpl.
        replace (length ds + 1)%nat with (S (length ds)) by lia.
        rewrite Nat2Z.inj_succ, Z.pow_succ_r by lia. words.
      * intros ->. destruct ds as [|d ds]; simpl in *; [words|auto].
    + intros [= <- <- <-]. exists [].
      repeat split; simpl; try done; try lia; try constructor.
      by rewrite take_drop.
Qed.

Lemma cstr_app s buf : Forall (fun c => c <> 0) s -> cstr (s ++ 0 :: buf) = s.
Proof.
  induction 1 as [|c s Hc _ IH]; simpl; [done|]. apply Z.eqb_neq in Hc as ->.
  by rewrite IH.
Qed.

Lemma digit_nonzero ds : Forall digit ds -> Forall (fun c => c <> 0) ds.
Proof. intros H. eapply Forall_impl; [exact H|]. unfold digit. simpl. lia. Qed.

Definition sign (number : Z) : list Z := if number <? 0 then [45] else [].

Lemma cstr_first_zero buf : (0 < length buf)%nat -> cstr (<[0%nat := 0]> buf) = [].
Proof. destruct buf; simpl; [lia|done]. Qed.

Lemma decimal_length ds n k : decimal ds n -> 10 ^ Z.of_nat k <= n -> (k < length ds)%nat.
Proof.
  intros (Hd & _ & <- & _) Hk. pose proof (dec_val_range _ Hd).
  apply Nat2Z.inj_lt, (Z.pow_lt_mono_r_iff 10); lia.
Qed.

(** The buffer when the digit loop has stopped at [tmp], having printed [ds]. *)
Section itoa_buffer.
Context (buf ds : list Z) (bufsize tmp : nat).
Context (Hb : (bufsize <= length buf)%nat) (Ht : (tmp + length ds = bufsize - 1)%nat)
  (H2 : (2 <= bufsize)%nat).

Let buf' : list Z := take tmp buf ++ ds ++ 0 :: drop bufsize buf.

Lemma itoa_buf_split : buf' = (take tmp buf ++ ds ++ [0]) ++ drop bufsize buf.
Proof. unfold buf'. by rewrite <-!app_assoc. Qed.
Lemma itoa_buf_past : drop bufsize buf' = drop bufsize buf.
Proof.
  rewrite itoa_buf_split. apply drop_app_length'.
  rewrite !length_app, length_take. simpl. lia.
Qed.
Lemma itoa_buf_length : length buf' = length buf.
Proof. unfold buf'. rewrite !length_app, length_take. simpl. rewrite length_drop. lia. Qed.
Lemma itoa_buf_tmp : drop tmp buf' = ds ++ 0 :: drop bufsize buf.
Proof. apply drop_app_length'. rewrite length_take. lia. Qed.
Lemma itoa_buf_nth : nth tmp buf' 0 = hd 0 ds.
Proof.
  rewrite <-(Nat.add_0_r tmp), <-nth_skipn. rewrite itoa_buf_tmp.
  by destruct ds.
Qed.

Context (sgn : list Z) (Hs : (length sgn <= tmp)%nat) (Hsgn : take (length sgn) buf = sgn).

Lemma itoa_buf_moved :
  memmove buf' (length sgn) tmp (bufsize - tmp)
  = (sgn ++ ds ++ [0]) ++ drop (length (sgn ++ ds ++ [0])) buf'.
Proof.
  unfold memmove. rewrite itoa_buf_tmp.
  replace (bufsize - tmp)%nat with (length (ds ++ [0])) by (rewrite length_app; simpl; lia).
  change (0 :: drop bufsize buf) with ([0] ++ drop bufsize buf).
  rewrite (app_assoc ds), take_app_length. unfold buf'.
  rewrite take_app_le by (rewrite length_take; lia).
  rewrite take_take, Nat.min_l, Hsgn by lia. by rewrite !length_app, <-!app_assoc.
Qed.
End itoa_buffer.

(** [lwip_itoa] after the sign: the buffer starts with [sgn]. *)
Lemma itoa_digits buf bufsize n sgn R :
  0 <= n -> Forall (fun c => c <> 0) sgn -> (length sgn < bufsize <= length buf)%nat ->
  (2 <= bufsize)%nat -> (n = 0 -> sgn = []) -> take (length sgn) buf = sgn ->
  (let '(buf, tmp, n) :=
     itoa_loop (<[(bufsize - 1)%nat := 0]> buf) (length sgn) (bufsize - 1) n in
   if negb (n =? 0) then <[0%nat := 0]> buf
   else if nth tmp buf 0 =? 0 then <[S (length sgn) := 0]> (<[length sgn := 48]> buf)
   else memmove buf (length sgn) tmp (bufsize - tmp)) = R ->
  exists ds, decimal ds n /\
    cstr R = (if (length (sgn ++ ds) <? bufsize)%nat then sgn ++ ds else []) /\
    drop bufsize R = drop bufsize buf.
Proof.
  intros Hn Hs Hlen Hb Hz Ht.
  destruct (itoa_loop _ _ _ _) as [[buf' tmp'] n'] eqn:E.
  apply itoa_loop_spec in E as (ds & -> & Hl & Hr & Hd & Hn' & Hval & Hstop & Hhd);
    [|lia|lia|rewrite length_insert; lia].
  rewrite take_insert_ge, drop_insert_same by lia.
  replace (S (bufsize - 1)) with bufsize by lia.
  rewrite itoa_buf_nth, itoa_buf_moved by (done || lia).
  assert (Hpast := itoa_buf_past buf ds bufsize tmp' ltac:(lia) ltac:(lia) ltac:(lia)).
  assert (Hlb := itoa_buf_length buf ds bufsize tmp' ltac:(lia) ltac:(lia) ltac:(lia)).
  set (buf' := take tmp' buf ++ ds ++ 0 :: drop bufsize buf) in *.
  destruct (Z.eqb_spec n' 0) as [->|Hn0]; simpl.
  - destruct ds as [|d ds]; simpl.
    + (* the number is 0 *)
      simpl in *. assert (n = 0) as -> by lia. rewrite Hz by done. intros <-.
      exists [48]. split; [|split].
      * repeat split; try done. repeat constructor; lia.
      * simpl. destruct (Nat.ltb_spec 1 bufsize); [|lia].
        destruct buf' as [|a [|b buf'']]; simpl in *; try lia. done.
      * by rewrite !drop_insert_lt by (simpl; lia).
    + (* digits were printed *)
      assert (d <> 0) as ->%Z.eqb_neq
        by (apply Forall_cons in Hd as [? _]; unfold digit in *; lia).
      intros <-. exists (d :: ds). split; [|split].
      * split; [done|split; [done|split; [lia|]]]. intros E. by destruct (Hhd eq_refl).
      * destruct (Nat.ltb_spec (length (sgn ++ d :: ds)) bufsize) as [?|Hbad];
          [|rewrite length_app in Hbad; simpl in *; lia].
        change (d :: ds ++ [0]) with ((d :: ds) ++ [0]). rewrite <-!app_assoc, app_assoc.
        apply cstr_app, Forall_app. auto using digit_nonzero.
      * rewrite drop_overwrite; [done|]. rewrite length_app in *. simpl.
        rewrite length_app. simpl in *. lia.
  - (* the buffer is too small *)
    intros <-. destruct Hstop as [?| ->]; [done|].
    destruct (decimal_exists n Hn) as [ds' Hds']. exists ds'. split; [done|].
    rewrite cstr_first_zero, drop_insert_lt by lia. split; [|done].
    assert (length ds < length ds')%nat by (apply (decimal_length _ _ _ Hds');
      pose proof (dec_val_range _ Hd); nia).
    destruct (Nat.ltb_spec (length (sgn ++ ds')) bufsize) as [Hbad|]; [|done].
    rewrite length_app in Hbad. lia.
Qed.

(** For every [int] but [INT_MIN], [lwip_itoa] leaves in the buffer the
    decimal notation of the number when it fits with its terminator, the empty
    string when it does not, and never writes past [bufsize]. *)
Theorem lwip_itoa_correct (buf : list Z) (bufsize : nat) (number : Z)
    (Hb : (2 <= bufsize <= length buf)%nat) (Hn : -2147483648 < number < 2147483648) :
  exists ds, decimal ds (Z.abs number) /\
    cstr (lwip_itoa buf bufsize number) =
      (if (length (sign number ++ ds) <? bufsize)%nat then sign number ++ ds else []) /\
    drop bufsize (lwip_itoa buf bufsize number) = drop bufsize buf.
Proof.
  assert (Habs : (if 0 <=? number then number else s32 (- number)) = Z.abs number)
    by (destruct (Z.leb_spec 0 number); words).
  unfold lwip_itoa, sign. rewrite Habs.
  destruct (Nat.ltb_spec bufsize 2); [lia|]. destruct (Z.ltb_spec number 0).
  - rewrite <-(drop_insert_lt buf bufsize 0 45) by lia.
    apply (itoa_digits (<[0%nat := 45]> buf) bufsize _ [45]); simpl; try lia; try done.
    + by constructor.
    + rewrite length_insert. lia.
    + destruct buf; simpl in *; [lia|done].
  - apply (itoa_digits buf bufsize _ []); simpl; try lia; try done.
Qed.

Lemma lwip_itoa_correct_witness :
  exists ds, decimal ds 305 /\
    cstr (lwip_itoa (replicate 8 7) 5 (-305)) = 
      (if (length (sign (-305) ++ ds) <? 5)%nat then 45 :: ds else []) /\
    drop 5 (lwip_itoa (replicate 8 7) 5 (-305)) = replicate 3 7.
Proof. apply (lwip_itoa_correct (replicate 8 7) 5 (-305)); simpl; lia. Defined.

(** ** Theorem: constant-time comparison *)

Lemma memcmp_loop_zero s1 s2 ret :
  bytes s1 -> bytes s2 -> length s1 = length s2 -> is_u8 ret ->
  memcmp_loop s1 s2 ret = 0 <-> ret = 0 /\ s1 = s2.
Proof.
  intros H1. revert s2 ret. induction H1 as [|a s1 Ha H1 IH]; intros [|b s2] ret H2 Hl Hr;
    simpl in *; try done; [tauto|].
  apply Forall_cons in H2 as [Hb H2].
  rewrite IH by (auto with lwip || lia). rewrite u8_lor, u8_lxor, !u8_id by done.
  rewrite Z.lor_eq_0_iff, Z.lxor_eq_0_iff. split; [intros [[-> ->] ->]|intros [-> [= -> ->]]]; done.
Qed.

(** [lwip_memcmp_consttime] is 0 exactly on equal buffers, having read all the
    [len] bytes of both. *)
Lemma lwip_memcmp_consttime_zero s1 s2 len :
  bytes s1 -> bytes s2 -> (len <= length s1)%nat -> (len <= length s2)%nat ->
  lwip_memcmp_consttime s1 s2 len = 0 <-> take len s1 = take len s2.
Proof.
  intros H1 H2 L1 L2. unfold lwip_memcmp_consttime.
  rewrite memcmp_loop_zero; [tauto|by apply Forall_take..| |done].
  rewrite !length_take. lia.
Qed.
