(* ===== verification/Chksum.v ===== *)
(** * Internet checksum (core/inet_chksum.c, include/lwip/inet_chksum.h)

    The three variants of [lwip_standard_chksum] selected by
    [LWIP_CHKSUM_ALGORITHM] (the kernel is built with 3), and the checksums
    over pbuf chains with and without pseudo header.  A chain is seen here as
    the list of its segments: the payload address and the payload bytes. *)

From S2P Require Import Prelude Def.

(** ** Macros of inet_chksum.h *)

Definition SWAP_BYTES_IN_WORD (w : Z) : Z :=
  Z.lor (Z.shiftl (Z.land w 0xff) 8) (Z.shiftr (Z.land w 0xff00) 8).

Definition FOLD_U32T (u : Z) : Z := u32 (Z.shiftr u 16 + Z.land u 0xffff).

(** ** The standard checksum *)

(** [LWIP_CHKSUM_ALGORITHM == 1]: two octets at a time, network order. *)
Fixpoint chksum1_loop (octets : list Z) (acc : Z) : Z :=
  match octets with
  | a :: b :: rest => chksum1_loop rest (u32 (acc + u16 (Z.lor (u16 (Z.shiftl a 8)) b)))
  | [a] => u32 (acc + u16 (Z.shiftl a 8))
  | [] => acc
  end.

Definition lwip_standard_chksum1 (data : list Z) : Z :=
  let acc := chksum1_loop data 0 in
  let acc := u32 (Z.shiftr acc 16 + Z.land acc 0xffff) in
  let acc := if negb (Z.land acc 0xffff0000 =? 0)
             then u32 (Z.shiftr acc 16 + Z.land acc 0xffff) else acc in
  lwip_htons (u16 acc).

(** The two-byte loop of the other two variants: what is left of the data (at
    most one byte) and the 32-bit sum of the little-endian words. *)
Fixpoint sum16_loop (ps : list Z) (sum : Z) : list Z * Z :=
  match ps with
  | b0 :: b1 :: rest => sum16_loop rest (u32 (sum + (b0 + 256 * b1)))
  | _ => (ps, sum)
  end.

(** Reading the first byte of data at an odd address into the high byte of [t]. *)
Definition align16 (odd : bool) (data : list Z) : list Z * Z :=
  match data with
  | b :: rest => if odd then (rest, 256 * b) else (data, 0)
  | [] => (data, 0)
  end.

(** The left-over byte goes to the low byte of [t]. *)
Definition tail_byte (ps : list Z) (t : Z) : Z :=
  match ps with
  | b :: _ => 256 * (t / 256) + b
  | [] => t
  end.

(** [LWIP_CHKSUM_ALGORITHM == 2]. *)
Definition lwip_standard_chksum2 (addr : Z) (data : list Z) : Z :=
  let odd := negb (Z.land addr 1 =? 0) in
  let '(ps, t) := align16 odd data in
  let '(ps, sum) := sum16_loop ps 0 in
  let t := tail_byte ps t in
  let sum := u32 (sum + t) in
  let sum := FOLD_U32T sum in
  let sum := FOLD_U32T sum in
  u16 (if odd then SWAP_BYTES_IN_WORD sum else sum).

(** 32-bit addition with the carry added back. *)
Definition add_carry (sum w : Z) : Z :=
  let tmp := u32 (sum + w) in
  if tmp <? sum then u32 (tmp + 1) else tmp.

(** The unrolled loop of variant 3: 8 bytes per iteration. *)
Fixpoint sum32_loop (pl : list Z) (sum : Z) : list Z * Z :=
  match pl with
  | b0 :: b1 :: b2 :: b3 :: b4 :: b5 :: b6 :: b7 :: rest =>
      let tmp := add_carry sum (le_val [b0; b1; b2; b3]) in   (* ping *)
      let sum := add_carry tmp (le_val [b4; b5; b6; b7]) in   (* pong *)
      sum32_loop rest sum
  | _ => (pl, sum)
  end.

(** Getting from a 2-byte aligned address to a 4-byte aligned one. *)
Definition align32 (addr : Z) (ps : list Z) (sum : Z) : list Z * Z :=
  match ps with
  | b0 :: b1 :: rest =>
      if negb (Z.land addr 3 =? 0) then (rest, u32 (sum + (b0 + 256 * b1))) else (ps, sum)
  | _ => (ps, sum)
  end.

(** [LWIP_CHKSUM_ALGORITHM == 3]. *)
Definition lwip_standard_chksum (addr : Z) (data : list Z) : Z :=
  let odd := negb (Z.land addr 1 =? 0) in
  let '(ps, t) := align16 odd data in
  let addr := addr + Z.of_nat (length data - length ps) in
  let '(pl, sum) := align32 addr ps 0 in
  let '(ps, sum) := sum32_loop pl sum in
  let sum := FOLD_U32T sum in
  let '(ps, sum) := sum16_loop ps sum in
  let t := tail_byte ps t in
  let sum := u32 (sum + t) in
  let sum := FOLD_U32T sum in
  let sum := FOLD_U32T sum in
  u16 (if odd then SWAP_BYTES_IN_WORD sum else sum).

Definition inet_chksum (addr : Z) (data : list Z) : Z :=
  u16 (Z.lnot (lwip_standard_chksum addr data)).

(** ** Checksums over pbuf chains *)

Definition segments := list (Z * list Z).
Definition seg_data (p : segments) : list Z := concat (map snd p).

(** The loop shared by [inet_chksum_pbuf] and [inet_cksum_pseudo_base]. *)
Fixpoint chksum_chain (q : segments) (acc : Z) (swapped : bool) : Z * bool :=
  match q with
  | [] => (acc, swapped)
  | (payload, data) :: next =>
      let acc := u32 (acc + lwip_standard_chksum payload data) in
      let acc := FOLD_U32T acc in
      if negb (Z.of_nat (length data) mod 2 =? 0)
      then chksum_chain next (SWAP_BYTES_IN_WORD acc) (negb swapped)
      else chksum_chain next acc swapped
  end.

Definition inet_cksum_pseudo_base (p : segments) (proto proto_len acc : Z) : Z :=
  let '(acc, swapped) := chksum_chain p acc false in
  let acc := if swapped then SWAP_BYTES_IN_WORD acc else acc in
  let acc := u32 (acc + lwip_htons (u16 proto)) in
  let acc := u32 (acc + lwip_htons proto_len) in
  let acc := FOLD_U32T acc in
  let acc := FOLD_U32T acc in
  u16 (Z.lnot (Z.land acc 0xffff)).

(** The sum of the two addresses of the pseudo header, folded to 16 bits. *)
Definition pseudo_addrs (src dest : Z) : Z :=
  let addr := src in
  let acc := Z.land addr 0xffff in
  let acc := u32 (acc + Z.land (Z.shiftr addr 16) 0xffff) in
  let addr := dest in
  let acc := u32 (acc + Z.land addr 0xffff) in
  let acc := u32 (acc + Z.land (Z.shiftr addr 16) 0xffff) in
  let acc := FOLD_U32T acc in
  FOLD_U32T acc.

Definition inet_chksum_pseudo (p : segments) (proto proto_len src dest : Z) : Z :=
  inet_cksum_pseudo_base p proto proto_len (pseudo_addrs src dest).

(** IPv4-only build. *)
Definition ip_chksum_pseudo (p : segments) (proto proto_len src dest : Z) : Z :=
  inet_chksum_pseudo p proto proto_len src dest.

(** The loop over the first [chksum_len] bytes; [None] is the failed
    [LWIP_ASSERT("delete me", chksum_len < 0x7fff)], a kernel panic. *)
Fixpoint chksum_chain_partial (q : segments) (acc : Z) (swapped : bool) (chksum_len : Z)
    : option (Z * bool) :=
  match q with
  | [] => Some (acc, swapped)
  | (payload, data) :: next =>
      if 0 <? chksum_len then
        let len := Z.of_nat (length data) in
        let chklen := if chksum_len <? len then chksum_len else len in
        let acc := u32 (acc + lwip_standard_chksum payload (take (Z.to_nat chklen) data)) in
        let chksum_len := u16 (chksum_len - chklen) in
        if chksum_len <? 0x7fff then
          let acc := FOLD_U32T acc in
          if negb (len mod 2 =? 0)
          then chksum_chain_partial next (SWAP_BYTES_IN_WORD acc) (negb swapped) chksum_len
          else chksum_chain_partial next acc swapped chksum_len
        else None
      else Some (acc, swapped)
  end.

Definition inet_cksum_pseudo_partial_base (p : segments) (proto proto_len chksum_len acc : Z)
    : option Z :=
  match chksum_chain_partial p acc false chksum_len with
  | None => None
  | Some (acc, swapped) =>
      let acc := if swapped then SWAP_BYTES_IN_WORD acc else acc in
      let acc := u32 (acc + lwip_htons (u16 proto)) in
      let acc := u32 (acc + lwip_htons proto_len) in
      let acc := FOLD_U32T acc in
      let acc := FOLD_U32T acc in
      Some (u16 (Z.lnot (Z.land acc 0xffff)))
  end.

Definition inet_chksum_pseudo_partial (p : segments) (proto proto_len chksum_len src dest : Z)
    : option Z :=
  inet_cksum_pseudo_partial_base p proto proto_len chksum_len (pseudo_addrs src dest).

Definition ip_chksum_pseudo_partial (p : segments) (proto proto_len chksum_len src dest : Z)
    : option Z :=
  inet_chksum_pseudo_partial p proto proto_len chksum_len src dest.

Definition inet_chksum_pbuf (p : segments) : Z :=
  let '(acc, swapped) := chksum_chain p 0 false in
  let acc := if swapped then SWAP_BYTES_IN_WORD acc else acc in
  u16 (Z.lnot (Z.land acc 0xffff)).

(** ** Reference: one's complement arithmetic (RFC 1071)

    16-bit addition with end-around carry, over the little-endian words of
    the data, an odd last byte padded with zero. *)

Definition oc_add (a b : Z) : Z := let s := a + b in if s <? 65536 then s else s - 65535.

Fixpoint rfc_sum (data : list Z) (acc : Z) : Z :=
  match data with
  | b0 :: b1 :: rest => rfc_sum rest (oc_add acc (b0 + 256 * b1))
  | [b] => oc_add acc b
  | [] => acc
  end.

Definition cksum_ref (data : list Z) : Z := rfc_sum data 0.

(** Two non-negative sums with the same one's complement value: congruent
    modulo 65535, and zero together. *)
Definition oc (x y : Z) : Prop :=
  0 <= x /\ 0 <= y /\ (exists k, x = y + 65535 * k) /\ (x = 0 <-> y = 0).

Lemma oc_refl x : 0 <= x -> oc x x.
Proof. intros. repeat split; try done. exists 0. lia. Qed.
Lemma oc_sym x y : oc x y -> oc y x.
Proof. intros (? & ? & [k ?] & ?). repeat split; try tauto. exists (- k). lia. Qed.
Lemma oc_trans x y z : oc x y -> oc y z -> oc x z.
Proof.
  intros (? & ? & [k ?] & ?) (? & ? & [k' ?] & ?). repeat split; try tauto.
  exists (k + k'). lia.
Qed.
Lemma oc_plus a b c d : oc a b -> oc c d -> oc (a + c) (b + d).
Proof.
  intros (? & ? & [k ?] & ?) (? & ? & [k' ?] & ?). repeat split; try lia.
  exists (k + k'). lia.
Qed.
Lemma oc_times n a b : 0 < n -> oc a b -> oc (n * a) (n * b).
Proof.
  intros Hn (? & ? & [k ?] & ?). repeat split; try nia. exists (n * k). nia.
Qed.
Lemma oc_swap_twice x : 0 <= x -> oc (256 * (256 * x)) x.
Proof. intros. repeat split; try lia. exists x. lia. Qed.
Lemma oc_eq x y : oc x y -> is_u16 x -> is_u16 y -> x = y.
Proof. unfold is_u16. intros (? & ? & [k ?] & ?) ??. lia. Qed.

#[export] Instance oc_per : RelationClasses.PER oc.
Proof. split; [intros ?? ; apply oc_sym|intros ???; apply oc_trans]. Qed.
#[export] Instance oc_plus_proper : Proper (oc ==> oc ==> oc) Z.add.
Proof. intros a b H c d H'. by apply oc_plus. Qed.

Lemma oc_nonneg_l x y : oc x y -> 0 <= x.
Proof. by intros (? & _). Qed.
Lemma oc_nonneg_r x y : oc x y -> 0 <= y.
Proof. by intros (_ & ? & _). Qed.

#[export] Hint Resolve oc_plus oc_refl oc_nonneg_l oc_nonneg_r : lwip.

Lemma oc_add_oc a b : is_u16 a -> is_u16 b -> oc (oc_add a b) (a + b) /\ is_u16 (oc_add a b).
Proof.
  unfold is_u16, oc_add. intros ??. destruct (Z.ltb_spec (a + b) 65536).
  - split; [apply oc_refl; lia|lia].
  - repeat split; try lia. exists (-1). lia.
Qed.

Lemma fold_value u : is_u32 u -> FOLD_U32T u = u / 65536 + u mod 65536.
Proof.
  intros Hu. unfold FOLD_U32T. rewrite land_ffff, shiftr_div by lia.
  change (2 ^ 16) with 65536. apply u32_id. unfold is_u32 in *. words.
Qed.
Lemma fold_oc u : is_u32 u -> oc (FOLD_U32T u) u.
Proof.
  intros Hu. rewrite fold_value by done. unfold is_u32 in Hu.
  repeat split; try words. exists (- (u / 65536)). words.
Qed.
Lemma fold_once u : is_u32 u -> 0 <= FOLD_U32T u <= 131070.
Proof. intros Hu. rewrite fold_value by done. unfold is_u32 in Hu. words. Qed.
Lemma fold_u16 u : 0 <= u <= 131070 -> is_u16 (FOLD_U32T u).
Proof. intros Hu. rewrite fold_value by (unfold is_u32; lia). unfold is_u16. words. Qed.

Lemma fold_twice u :
  is_u32 u -> oc (FOLD_U32T (FOLD_U32T u)) u /\ is_u16 (FOLD_U32T (FOLD_U32T u)).
Proof.
  intros Hu. pose proof (fold_once u Hu). split; [|apply fold_u16; lia].
  eapply oc_trans; [apply fold_oc; unfold is_u32; lia|by apply fold_oc].
Qed.

Lemma swap_value w : is_u16 w -> SWAP_BYTES_IN_WORD w = w mod 256 * 256 + w / 256.
Proof.
  intros Hw. unfold SWAP_BYTES_IN_WORD. rewrite land_ff.
  change 0xff00 with (Z.shiftl (Z.ones 8) 8).
  rewrite land_field, shiftl_mul, shiftr_div by lia.
  change (2 ^ 8) with 256. rewrite Z.div_mul by lia. unfold is_u16 in Hw.
  rewrite (Z.mod_small (w / 256)) by words. apply (lor_low 8); [done|lia|words].
Qed.
Lemma swap_oc w : is_u16 w -> oc (SWAP_BYTES_IN_WORD w) (256 * w).
Proof.
  intros Hw. rewrite swap_value by done. unfold is_u16 in Hw.
  repeat split; try words. exists (- (w / 256)). words.
Qed.
Lemma swap_u16 w : is_u16 w -> is_u16 (SWAP_BYTES_IN_WORD w).
Proof. intros Hw. rewrite swap_value by done. unfold is_u16 in *. words. Qed.

Lemma add_carry_oc s w :
  is_u32 s -> is_u32 w -> oc (add_carry s w) (s + w) /\ is_u32 (add_carry s w).
Proof.
  unfold is_u32, add_carry, u32. intros Hs Hw.
  destruct (Z.ltb_spec (s + w) 4294967296) as [Hc|Hc].
  - rewrite (Z.mod_small (s + w)) by lia. destruct (Z.ltb_spec (s + w) s); [lia|].
    split; [apply oc_refl|]; lia.
  - replace ((s + w) mod 4294967296) with (s + w - 4294967296) by words.
    destruct (Z.ltb_spec (s + w - 4294967296) s); [|lia].
    rewrite Z.mod_small by lia. repeat split; try lia. exists (-65537). lia.
Qed.

#[export] Hint Resolve fold_oc fold_u16 swap_oc swap_u16 : lwip.

(** ** Word sums of byte strings *)

Fixpoint wsum (data : list Z) : Z :=
  match data with
  | b0 :: b1 :: rest => b0 + 256 * b1 + wsum rest
  | [b] => b
  | [] => 0
  end.

Lemma wsum_bound data :
  bytes data -> 0 <= wsum data <= 65535 * ((Z.of_nat (length data) + 1) / 2).
Proof.
  induction data as [|a|a b l IH] using list_pair_ind; intros Hb; simpl.
  - words.
  - apply Forall_cons in Hb as [Ha _]. unfold is_u8 in Ha. words.
  - apply Forall_cons in Hb as [Ha [Hb Hl]%Forall_cons]. unfold is_u8 in *.
    specialize (IH Hl). words.
Qed.

Lemma wsum_cons b r : bytes (b :: r) -> oc (wsum (b :: r)) (b + 256 * wsum r).
Proof.
  revert b. induction r as [|c|c d r IH] using list_pair_ind; intros b Hb;
    pose proof (wsum_bound _ Hb) as [Hnn _]; simpl in *.
  - by rewrite Z.mul_0_r, Z.add_0_r; apply oc_refl.
  - rewrite Z.add_0_r in *. by apply oc_refl.
  - apply Forall_cons in Hb as [Hb [Hc Hd]%Forall_cons]. specialize (IH d Hd).
    apply Forall_cons in Hd as [Hd Hr]. pose proof (wsum_bound _ Hr) as [? _].
    unfold is_u8 in *. destruct IH as (? & ? & [k ?] & ?).
    repeat split; try lia. exists (k - d). lia.
Qed.

Lemma wsum_app_even l1 l2 :
  (length l1 mod 2 = 0)%nat -> wsum (l1 ++ l2) = wsum l1 + wsum l2.
Proof.
  induction l1 as [|a|a b l IH] using list_pair_ind; intros H; simpl; [done|done|].
  simpl length in H. rewrite mod2_SS in H. rewrite IH by done. lia.
Qed.

Lemma wsum_app_odd l1 l2 :
  bytes l1 -> bytes l2 -> (length l1 mod 2 = 1)%nat ->
  oc (wsum (l1 ++ l2)) (wsum l1 + 256 * wsum l2).
Proof.
  intros H1 H2. induction l1 as [|a|a b l IH] using list_pair_ind; intros H; simpl.
  - done.
  - apply wsum_cons. by apply Forall_cons in H1 as [? _]; constructor.
  - apply Forall_cons in H1 as [Ha [Hb Hl]%Forall_cons].
    rewrite <-(Z.add_assoc (a + 256 * b) (wsum l)).
    apply oc_plus; [apply oc_refl; unfold is_u8 in *; lia|].
    simpl length in H. rewrite mod2_SS in H. by apply IH.
Qed.

Lemma rfc_sum_oc data acc :
  bytes data -> is_u16 acc ->
  oc (rfc_sum data acc) (acc + wsum data) /\ is_u16 (rfc_sum data acc).
Proof.
  revert acc. induction data as [|a|a b l IH] using list_pair_ind; intros acc Hb Hacc; simpl.
  - rewrite Z.add_0_r. split; [apply oc_refl|]; unfold is_u16 in *; lia.
  - apply Forall_cons in Hb as [Ha _]. apply oc_add_oc; unfold is_u16, is_u8 in *; lia.
  - apply Forall_cons in Hb as [Ha [Hb Hl]%Forall_cons].
    destruct (oc_add_oc acc (a + 256 * b)) as [E R]; [done|unfold is_u16, is_u8 in *; lia|].
    destruct (IH _ Hl R) as [E' R']. split; [|done].
    rewrite Z.add_assoc. etrans; [exact E'|]. apply oc_plus; [done|].
    apply oc_refl. by apply wsum_bound.
Qed.

(** A 16-bit value with the one's complement value of the data is the
    reference checksum. *)
Lemma cksum_ref_unique data x : bytes data -> is_u16 x -> oc x (wsum data) -> x = cksum_ref data.
Proof.
  intros Hb Hx E. destruct (rfc_sum_oc data 0 Hb) as [E' R]; [done|].
  apply oc_eq; [|done|done]. etrans; [exact E|]. symmetry. exact E'.
Qed.

Lemma cksum_ref_oc data : bytes data -> oc (cksum_ref data) (wsum data) /\ is_u16 (cksum_ref data).
Proof. intros Hb. by apply (rfc_sum_oc data 0). Qed.

(** ** The loops compute word sums *)

Lemma sum16_loop_spec ps sum :
  bytes ps -> 0 <= sum -> sum + 65535 * (Z.of_nat (length ps) / 2) < 4294967296 ->
  exists ps' sum', sum16_loop ps sum = (ps', sum') /\ bytes ps' /\ (length ps' <= 1)%nat /\
    sum' + wsum ps' = sum + wsum ps /\
    0 <= sum' <= sum + 65535 * (Z.of_nat (length ps) / 2).
Proof.
  revert sum. induction ps as [|a|a b l IH] using list_pair_ind; intros sum Hb Hs Hlim; simpl.
  - exists [], sum. repeat split; simpl; try done; words.
  - exists [a], sum. repeat split; simpl; try done; words.
  - apply Forall_cons in Hb as [Ha [Hb Hl]%Forall_cons]. unfold is_u8 in *.
    simpl length in Hlim.
    replace (Z.of_nat (S (S (length l))) / 2) with (Z.of_nat (length l) / 2 + 1) in * by words.
    assert (0 <= Z.of_nat (length l) / 2) by words.
    unfold u32. rewrite Z.mod_small by lia.
    destruct (IH (sum + (a + 256 * b)) Hl) as (ps' & sum' & -> & ? & ? & ? & ?); [lia..|].
    exists ps', sum'. repeat split; try done; lia.
Qed.

Lemma sum32_loop_spec pl sum :
  bytes pl -> is_u32 sum ->
  exists pl' sum', sum32_loop pl sum = (pl', sum') /\ bytes pl' /\ (length pl' < 8)%nat /\
    is_u32 sum' /\ oc (sum' + wsum pl') (sum + wsum pl).
Proof.
  remember (length pl) as n eqn:Hn. revert pl sum Hn.
  induction n as [n IH] using lt_wf_ind. intros pl sum Hn Hb Hs.
  assert (Hstop : (length pl < 8)%nat -> exists pl' sum', (pl, sum) = (pl', sum') /\
    bytes pl' /\ (length pl' < 8)%nat /\ is_u32 sum' /\ oc (sum' + wsum pl') (sum + wsum pl)).
  { intros Hl. exists pl, sum. repeat split; try done; try (unfold is_u32 in *; lia).
    all: pose proof (wsum_bound _ Hb); unfold is_u32 in *; try lia. exists 0. lia. }
  destruct pl as [|b0 [|b1 [|b2 [|b3 [|b4 [|b5 [|b6 [|b7 rest]]]]]]]];
    try (apply Hstop; simpl; lia).
  clear Hstop. unfold bytes in Hb. rewrite !Forall_cons in Hb.
  destruct Hb as (H0 & H1 & H2 & H3 & H4 & H5 & H6 & H7 & Hr). unfold is_u8 in *.
  cbn [sum32_loop].
  destruct (add_carry_oc sum (le_val [b0; b1; b2; b3])) as [E1 R1];
    [done|unfold is_u32; cbn [le_val]; lia|].
  destruct (add_carry_oc (add_carry sum (le_val [b0; b1; b2; b3])) (le_val [b4; b5; b6; b7]))
    as [E2 R2]; [done|unfold is_u32; cbn [le_val]; lia|].
  destruct (IH (length rest) ltac:(simpl in Hn; lia) rest _ eq_refl Hr R2)
    as (pl' & sum' & -> & ? & ? & ? & E3).
  exists pl', sum'. do 4 (split; [done|]). etrans; [exact E3|].
  etrans; [apply oc_plus; [exact E2|apply oc_refl; by apply wsum_bound]|].
  etrans; [apply oc_plus; [apply oc_plus; [exact E1|]|]; apply oc_refl;
           [cbn [le_val]; lia|by apply wsum_bound]|].
  cbn [wsum le_val]. pose proof (wsum_bound _ Hr). unfold is_u32 in *.
  repeat split; try lia. exists (b2 + 256 * b3 + b6 + 256 * b7). lia.
Qed.

Lemma align16_spec odd data :
  bytes data ->
  let '(ps, t) := align16 odd data in
  bytes ps /\ (length ps <= length data)%nat /\ 0 <= t <= 65280 /\ t mod 256 = 0 /\
  oc (if odd then 256 * (t + wsum ps) else t + wsum ps) (wsum data).
Proof.
  intros Hb. pose proof (wsum_bound _ Hb). destruct data as [|b rest]; simpl align16.
  - do 4 (split; [done || lia|]). destruct odd; by apply oc_refl.
  - assert (Hb' := Hb). apply Forall_cons in Hb' as [H0 Hr]. unfold is_u8 in H0.
    pose proof (wsum_bound _ Hr). destruct odd.
    + split; [done|]. split; [simpl; lia|]. split; [lia|]. split; [words|].
      etrans; [|symmetry; by apply wsum_cons].
      repeat split; try lia. exists b. lia.
    + split; [done|]. split; [done|]. split; [lia|]. split; [done|]. rewrite Z.add_0_l. apply oc_refl; lia.
Qed.

Lemma tail_byte_spec ps t :
  bytes ps -> (length ps <= 1)%nat -> t mod 256 = 0 -> tail_byte ps t = t + wsum ps.
Proof.
  intros Hb Hl Ht. destruct ps as [|b [|]]; simpl in *; [lia|words|lia].
Qed.

(** The end of variants 2 and 3: folding the sum and undoing the odd start. *)
Lemma chksum_finish (odd : bool) sum t data total :
  bytes data -> 0 <= sum -> 0 <= t -> is_u32 (sum + t) -> oc (sum + t) total ->
  oc (if odd then 256 * total else total) (wsum data) ->
  u16 (if odd then SWAP_BYTES_IN_WORD (FOLD_U32T (FOLD_U32T (u32 (sum + t))))
       else FOLD_U32T (FOLD_U32T (u32 (sum + t)))) = cksum_ref data.
Proof.
  intros Hb Hs Ht Hu E Hodd. rewrite u32_id by done.
  destruct (fold_twice _ Hu) as [E' R']. set (x := FOLD_U32T (FOLD_U32T (sum + t))) in *.
  assert (oc x total) as Ex by (by etrans).
  destruct odd.
  - rewrite u16_id by auto with lwip. apply cksum_ref_unique; [done|auto with lwip|].
    etrans; [by apply swap_oc|]. etrans; [|exact Hodd]. by apply oc_times.
  - rewrite u16_id by done. apply cksum_ref_unique; [done..|]. by etrans.
Qed.

Lemma align32_spec addr ps :
  bytes ps ->
  exists pl sum, align32 addr ps 0 = (pl, sum) /\ bytes pl /\ is_u32 sum /\ sum + wsum pl = wsum ps.
Proof.
  intros Hb. assert (Hstop : exists pl sum, (ps, 0) = (pl, sum) /\ bytes pl /\ is_u32 sum /\
    sum + wsum pl = wsum ps) by (by exists ps, 0).
  destruct ps as [|a [|b rest]]; try exact Hstop. unfold align32. case_match; [|exact Hstop].
  apply Forall_cons in Hb as [Ha [Hb Hl]%Forall_cons]. unfold is_u8 in *.
  exists rest, (a + 256 * b). rewrite Z.add_0_l, u32_id by (unfold is_u32; lia).
  repeat split; try done; unfold is_u32; lia.
Qed.

(** Variant 3 computes the reference sum, at any alignment and any length. *)
Lemma chksum3_ref addr data : bytes data -> lwip_standard_chksum addr data = cksum_ref data.
Proof.
  intros Hb. unfold lwip_standard_chksum. set (odd := negb _).
  pose proof (align16_spec odd data Hb) as H.
  destruct (align16 odd data) as [ps t]. destruct H as (Hps & Hlen & Ht & Htm & E0).
  destruct (align32_spec (addr + Z.of_nat (length data - length ps)) ps Hps)
    as (pl & s1 & -> & Hpl & Hs1 & E1).
  destruct (sum32_loop_spec pl s1 Hpl Hs1) as (pl' & s2 & -> & Hpl' & Hlen' & Hs2 & E2).
  pose proof (fold_once s2 Hs2) as Hf. pose proof (fold_oc s2 Hs2) as Ef.
  destruct (sum16_loop_spec pl' (FOLD_U32T s2)) as (r & s3 & -> & Hr & Hlr & E3 & B3);
    [done|lia|words|].
  rewrite tail_byte_spec by done. pose proof (wsum_bound _ Hr) as Wr.
  assert (0 <= s3 + (t + wsum r) < 4294967296) as Hu by (destruct Wr; words).
  apply (chksum_finish odd _ _ data (t + wsum ps)); [done|lia|lia|done| |done].
  replace (s3 + (t + wsum r)) with (t + (FOLD_U32T s2 + wsum pl')) by lia.
  apply oc_plus; [apply oc_refl; lia|]. rewrite <-E1. etrans; [|exact E2].
  apply oc_plus; [done|]. apply oc_refl. by apply wsum_bound.
Qed.

(** Variant 2 computes it up to the length its comment states. *)
Lemma chksum2_ref addr data :
  bytes data -> Z.of_nat (length data) <= 0x20000 ->
  lwip_standard_chksum2 addr data = cksum_ref data.
Proof.
  intros Hb Hlim. unfold lwip_standard_chksum2. set (odd := negb _).
  pose proof (align16_spec odd data Hb) as H.
  destruct (align16 odd data) as [ps t]. destruct H as (Hps & Hlen & Ht & Htm & E0).
  destruct (sum16_loop_spec ps 0) as (r & s3 & -> & Hr & Hlr & E3 & B3); [done|lia|words|].
  rewrite tail_byte_spec by done. pose proof (wsum_bound _ Hr) as Wr.
  pose proof (wsum_bound _ Hps).
  assert (0 <= s3 + (t + wsum r) < 4294967296) as Hu by (destruct Wr; words).
  apply (chksum_finish odd _ _ data (t + wsum ps)); [done|lia|lia|done| |done].
  replace (s3 + (t + wsum r)) with (t + wsum ps) by lia. apply oc_refl. lia.
Qed.

Lemma htons_swap w : is_u16 w -> lwip_htons w = SWAP_BYTES_IN_WORD w.
Proof.
  intros Hw. unfold lwip_htons, PP_HTONS. apply u16_id. by apply swap_u16.
Qed.

Lemma chksum1_loop_spec data acc :
  bytes data -> 0 <= acc ->
  acc + 65535 * ((Z.of_nat (length data) + 1) / 2) < 4294967296 ->
  oc (chksum1_loop data acc) (acc + 256 * wsum data) /\ is_u32 (chksum1_loop data acc).
Proof.
  revert acc. induction data as [|a|a b l IH] using list_pair_ind; intros acc Hb Hacc Hlim; simpl.
  - simpl in Hlim. split; [rewrite Z.add_0_r; by apply oc_refl|unfold is_u32; words].
  - apply Forall_cons in Hb as [Ha _]. unfold is_u8 in Ha. simpl in Hlim.
    rewrite shiftl_mul by lia. rewrite u16_id by (unfold is_u16; lia).
    change (2 ^ 8) with 256. rewrite u32_id by (unfold is_u32; words).
    split; [|unfold is_u32; words]. rewrite Z.mul_comm. apply oc_refl. lia.
  - apply Forall_cons in Hb as [Ha [Hb Hl]%Forall_cons]. unfold is_u8 in *.
    simpl length in Hlim.
    replace ((Z.of_nat (S (S (length l))) + 1) / 2) with ((Z.of_nat (length l) + 1) / 2 + 1)
      in Hlim by words.
    rewrite shiftl_mul by lia. change (2 ^ 8) with 256. rewrite (u16_id (a * 256)) by words.
    rewrite (lor_low 8), u16_id by (done || words).
    assert (0 <= (Z.of_nat (length l) + 1) / 2) by words.
    rewrite u32_id by (unfold is_u32; lia).
    destruct (IH (acc + (a * 256 + b)) Hl) as [E R]; [lia|lia|]. split; [|done].
    etrans; [exact E|]. pose proof (wsum_bound _ Hl).
    repeat split; try lia. exists (- b). lia.
Qed.

(** Variant 1 computes it up to the same length. *)
Lemma chksum1_ref data :
  bytes data -> Z.of_nat (length data) <= 0x20000 ->
  lwip_standard_chksum1 data = cksum_ref data.
Proof.
  intros Hb Hlim. unfold lwip_standard_chksum1.
  destruct (chksum1_loop_spec data 0 Hb) as [E R]; [done|words|].
  set (acc := chksum1_loop data 0) in *. fold (FOLD_U32T acc). fold (FOLD_U32T (FOLD_U32T acc)).
  pose proof (fold_once acc R) as B1. pose proof (fold_oc acc R) as E1.
  pose proof (wsum_bound _ Hb).
  assert (Hx : forall x, is_u16 x -> oc x acc -> lwip_htons (u16 x) = cksum_ref data).
  { intros x Hx Ex. rewrite u16_id, htons_swap by done.
    apply cksum_ref_unique; [done|by apply swap_u16|].
    etrans; [by apply swap_oc|]. etrans; [|apply (oc_swap_twice (wsum data)); lia].
    apply oc_times; [lia|]. by etrans. }
  destruct (Z.eqb_spec (Z.land (FOLD_U32T acc) 0xffff0000) 0) as [H0|_]; simpl.
  - apply Hx; [|done]. change 0xffff0000 with (Z.shiftl (Z.ones 16) 16) in H0.
    rewrite land_field in H0 by lia. unfold is_u16. words.
  - destruct (fold_twice acc R). by apply Hx.
Qed.

(** ** Chains *)

(** What the accumulator stands for while the bytes are [swapped]. *)
Definition unswap (swapped : bool) (x : Z) : Z := if swapped then 256 * x else x.

Lemma unswap_oc b x y : oc x y -> oc (unswap b x) (unswap b y).
Proof. destruct b; [by apply oc_times|done]. Qed.
Lemma unswap_plus b x y : unswap b (x + y) = unswap b x + unswap b y.
Proof. destruct b; unfold unswap; lia. Qed.
Lemma unswap_negb b x : 0 <= x -> oc (unswap (negb b) (256 * x)) (unswap b x).
Proof. intros. destruct b; [by apply oc_times, oc_refl|by apply oc_swap_twice]. Qed.
Lemma unswap_negb' b x : 0 <= x -> oc (unswap (negb b) x) (unswap b (256 * x)).
Proof.
  intros. destruct b; simpl; [symmetry; by apply oc_swap_twice|apply oc_refl; lia].
Qed.

Definition chain_bytes (p : segments) : Prop := Forall (fun s => bytes s.2) p.

Lemma seg_data_bytes p : chain_bytes p -> bytes (seg_data p).
Proof.
  induction 1 as [|[a d] p Hd Hp IH]; [constructor|]. apply Forall_app. by split.
Qed.

(** One segment: the accumulator takes the reference sum of its data. *)
Lemma chain_step acc payload data :
  is_u16 acc -> bytes data ->
  is_u16 (FOLD_U32T (u32 (acc + lwip_standard_chksum payload data))) /\
  oc (FOLD_U32T (u32 (acc + lwip_standard_chksum payload data))) (acc + wsum data).
Proof.
  intros Ha Hd. rewrite chksum3_ref by done. destruct (cksum_ref_oc data Hd) as [E R].
  unfold is_u16 in *. rewrite u32_id by (unfold is_u32; lia). split; [apply fold_u16; lia|].
  etrans; [apply fold_oc; unfold is_u32; lia|]. apply oc_plus; [apply oc_refl; lia|done].
Qed.

Lemma odd_length {A} (l : list A) :
  negb (Z.of_nat (length l) mod 2 =? 0) = true -> (length l mod 2 = 1)%nat.
Proof. intros H%negb_true_iff%Z.eqb_neq. apply Nat2Z.inj. rewrite Nat2Z.inj_mod. words. Qed.
Lemma even_length {A} (l : list A) :
  negb (Z.of_nat (length l) mod 2 =? 0) = false -> (length l mod 2 = 0)%nat.
Proof. intros H%negb_false_iff%Z.eqb_eq. apply Nat2Z.inj. rewrite Nat2Z.inj_mod. words. Qed.

(** One iteration, with the swap that keeps the byte parity.  The parity may
    be wrong only when nothing follows. *)
Lemma chain_swap_step acc payload data rest sw (par : bool) :
  is_u16 acc -> bytes data -> bytes rest ->
  rest = [] \/ par = negb (Z.of_nat (length data) mod 2 =? 0) ->
  let acc1 := FOLD_U32T (u32 (acc + lwip_standard_chksum payload data)) in
  let acc2 := if par then SWAP_BYTES_IN_WORD acc1 else acc1 in
  is_u16 acc2 /\
  oc (unswap (if par then negb sw else sw) (acc2 + wsum rest)) (unswap sw (acc + wsum (data ++ rest))).
Proof.
  intros Ha Hd Hr Hpar acc1. destruct (chain_step acc payload data Ha Hd) as [R1 E1].
  fold acc1 in R1, E1. pose proof (wsum_bound _ Hr) as [Wr _].
  assert (0 <= acc1) by (unfold is_u16 in R1; lia).
  assert (0 <= acc) by (unfold is_u16 in Ha; lia).
  destruct par; (split; [by auto using swap_u16|]).
  - rewrite unswap_plus. etrans; [apply oc_plus; [apply unswap_oc; by apply swap_oc|
      by apply unswap_negb']|].
    etrans; [apply oc_plus; [by apply unswap_negb|apply unswap_oc, oc_refl; lia]|].
    rewrite <-unswap_plus. apply unswap_oc.
    etrans; [apply oc_plus; [exact E1|apply oc_refl; lia]|]. rewrite <-Z.add_assoc.
    apply oc_plus; [by apply oc_refl|]. destruct Hpar as [->|Hpar].
    + rewrite app_nil_r. simpl. rewrite Z.mul_0_r, Z.add_0_r. apply oc_refl. by apply wsum_bound.
    + symmetry. apply wsum_app_odd; [done|done|by apply odd_length].
  - apply unswap_oc. etrans; [apply oc_plus; [exact E1|by apply oc_refl]|]. rewrite <-Z.add_assoc.
    apply oc_plus; [by apply oc_refl|]. pose proof (wsum_bound _ Hd) as [? _].
    destruct Hpar as [->|Hpar].
    + rewrite app_nil_r. simpl. rewrite Z.add_0_r. by apply oc_refl.
    + rewrite wsum_app_even by (by apply even_length). apply oc_refl. lia.
Qed.

Lemma chksum_chain_spec q acc sw :
  chain_bytes q -> is_u16 acc ->
  exists acc' sw', chksum_chain q acc sw = (acc', sw') /\ is_u16 acc' /\
    oc (unswap sw' acc') (unswap sw (acc + wsum (seg_data q))).
Proof.
  intros Hq. revert acc sw. induction Hq as [|[payload d] q Hd Hq IH]; intros acc sw Ha.
  - exists acc, sw. do 2 (split; [done|]). unfold seg_data; simpl. rewrite Z.add_0_r.
    apply unswap_oc, oc_refl. unfold is_u16 in Ha. lia.
  - cbn [chksum_chain]. change (seg_data ((payload, d) :: q)) with (d ++ seg_data q).
    destruct (chain_swap_step acc payload d (seg_data q) sw _ Ha Hd (seg_data_bytes q Hq)
      (or_intror eq_refl)) as [R1 E1].
    set (par := negb _) in *.
    destruct (IH _ (if par then negb sw else sw) R1) as (a' & s' & E & R & E').
    exists a', s'. split; [by destruct par|]. split; [done|]. by etrans.
Qed.

(** The final un-swap. *)
Lemma final_swap acc (sw : bool) x :
  is_u16 acc -> oc (unswap sw acc) x ->
  is_u16 (if sw then SWAP_BYTES_IN_WORD acc else acc) /\
  oc (if sw then SWAP_BYTES_IN_WORD acc else acc) x.
Proof.
  intros Ha E. destruct sw; [|done]. split; [by apply swap_u16|].
  etrans; [by apply swap_oc|exact E].
Qed.

Lemma complement_u16 x : is_u16 x -> u16 (Z.lnot (Z.land x 0xffff)) = 65535 - x.
Proof.
  unfold is_u16. intros Hx. rewrite land_ffff, Z.mod_small by done. unfold Z.lnot. words.
Qed.

(** The IPv4 pseudo header of RFC 793: the addresses (already in network
    order), a zero byte, the protocol and the length in network order. *)
Definition pseudo_header (src dest proto proto_len : Z) : list Z :=
  le_bytes 4 src ++ le_bytes 4 dest ++ [0; proto; proto_len / 256; proto_len mod 256].

Lemma pseudo_header_bytes src dest proto proto_len :
  is_u8 proto -> is_u16 proto_len -> bytes (pseudo_header src dest proto proto_len).
Proof.
  intros Hp Hl. unfold pseudo_header, is_u16 in *.
  do 2 (apply Forall_app; split; [apply le_bytes_bytes|]).
  repeat constructor; unfold is_u8 in *; words.
Qed.

Lemma wsum_le4 x : is_u32 x -> wsum (le_bytes 4 x) = x mod 65536 + x / 65536.
Proof.
  intros Hx. pose proof (le_bytes_bytes 4 x) as Hb.
  assert (le_val (le_bytes 4 x) = x) as Hv by (rewrite le_val_bytes; by apply Z.mod_small).
  revert Hv.
  destruct (le_bytes 4 x) as [|a [|b [|c [|d [|]]]]] eqn:E;
    try (apply (f_equal length) in E; rewrite length_le_bytes in E; done).
  unfold bytes in Hb. rewrite !Forall_cons in Hb. unfold is_u8 in Hb. cbn [wsum le_val].
  intros <-. clear E Hx. words.
Qed.

Lemma pseudo_addrs_spec src dest :
  is_u32 src -> is_u32 dest ->
  is_u16 (pseudo_addrs src dest) /\
  oc (pseudo_addrs src dest) (wsum (le_bytes 4 src) + wsum (le_bytes 4 dest)).
Proof.
  intros Hs Hd. unfold pseudo_addrs. rewrite !wsum_le4 by done.
  rewrite !land_ffff, !shiftr_div by lia. change (2 ^ 16) with 65536. unfold is_u32 in *.
  rewrite !(Z.mod_small (_ / 65536)) by words.
  assert (0 <= src mod 65536 < 65536) by words. assert (0 <= src / 65536 < 65536) by words.
  assert (0 <= dest mod 65536 < 65536) by words. assert (0 <= dest / 65536 < 65536) by words.
  generalize dependent (src mod 65536). generalize dependent (src / 65536).
  generalize dependent (dest mod 65536). generalize dependent (dest / 65536). intros d ? c ? b ? a ?.
  rewrite (u32_id (a + b)), (u32_id (a + b + c)), u32_id, (Z.add_assoc _ c d)
    by (unfold is_u32; lia).
  destruct (fold_twice (a + b + c + d)); [unfold is_u32; lia|done].
Qed.

(** The common end of the pseudo header checksums. *)
Lemma pseudo_finish acc x src dest proto proto_len data :
  is_u8 proto -> is_u16 proto_len -> is_u16 acc -> bytes data ->
  oc x (wsum (le_bytes 4 src) + wsum (le_bytes 4 dest)) -> oc acc (x + wsum data) ->
  u16 (Z.lnot (Z.land (FOLD_U32T (FOLD_U32T (u32 (u32 (acc + lwip_htons (u16 proto))
        + lwip_htons proto_len)))) 0xffff))
  = 65535 - cksum_ref (pseudo_header src dest proto proto_len ++ data).
Proof.
  intros Hp Hl Ha Hd Ex Eacc.
  assert (is_u16 proto) by (unfold is_u8, is_u16 in *; lia).
  rewrite (u16_id proto) by done. rewrite !htons_swap, !swap_value by done.
  unfold is_u8, is_u16 in *. rewrite (u32_id (acc + _)), u32_id by (unfold is_u32; words).
  set (y := acc + _ + _). assert (is_u32 y) as Hy by (unfold is_u32, y; words).
  destruct (fold_twice y Hy) as [E R]. rewrite complement_u16 by done. f_equal.
  apply cksum_ref_unique; [apply Forall_app; split; [by apply pseudo_header_bytes|done]|done|].
  etrans; [exact E|]. pose proof (wsum_bound _ Hd).
  rewrite wsum_app_even by (unfold pseudo_header; by rewrite !length_app, !length_le_bytes).
  unfold pseudo_header. rewrite !wsum_app_even by (by rewrite length_le_bytes). cbn [wsum].
  unfold y. rewrite (Z.mod_small proto), (Z.div_small proto) by lia.
  replace (acc + (proto * 256 + 0) + (proto_len mod 256 * 256 + proto_len / 256))
    with (acc + (256 * proto + (proto_len / 256 + 256 * (proto_len mod 256)))) by lia.
  etrans; [apply oc_plus; [etrans; [exact Eacc|apply oc_plus; [exact Ex|apply oc_refl; lia]]|
           apply oc_refl; words]|].
  pose proof (oc_nonneg_r _ _ Ex). 
  match goal with |- oc ?a ?b => replace b with a by lia end. apply oc_refl. words.
Qed.

Lemma inet_chksum_ref addr data : bytes data -> inet_chksum addr data = 65535 - cksum_ref data.
Proof.
  intros Hb. unfold inet_chksum. rewrite chksum3_ref by done.
  destruct (cksum_ref_oc data Hb) as [_ R]. unfold is_u16, Z.lnot in *. words.
Qed.

(** The part of a segment that falls under [chksum_len]. *)
Lemma partial_piece n (d : list Z) :
  0 <= n ->
  let len := Z.of_nat (length d) in let chklen := if n <? len then n else len in
  take (Z.to_nat chklen) d = take (Z.to_nat n) d /\ 0 <= chklen <= n /\
  (Z.to_nat n - length d)%nat = Z.to_nat (n - chklen).
Proof.
  intros Hn len chklen. unfold chklen, len.
  destruct (Z.ltb_spec n (Z.of_nat (length d))); [split; [done|lia]|].
  rewrite !take_ge by lia. split; [done|lia].
Qed.

(** Bytes that remain to be summed after the first segment. *)
Definition after_first (q : segments) (n : Z) : Z :=
  match q with [] => 0 | (_, d) :: _ => n - Z.of_nat (length d) end.

(** The chain loop cut off after [chksum_len] bytes. *)
Lemma chksum_chain_partial_spec q acc sw n :
  chain_bytes q -> is_u16 acc -> is_u16 n -> after_first q n < 0x7fff ->
  exists acc' sw', chksum_chain_partial q acc sw n = Some (acc', sw') /\ is_u16 acc' /\
    oc (unswap sw' acc') (unswap sw (acc + wsum (take (Z.to_nat n) (seg_data q)))).
Proof.
  intros Hq. revert acc sw n. induction Hq as [|[payload d] q Hd Hq IH];
    intros acc sw n Ha Hn Hf; unfold is_u16 in Hn; simpl in Hf.
  - exists acc, sw. do 2 (split; [done|]). unfold seg_data; simpl. rewrite take_nil.
    simpl. rewrite Z.add_0_r. apply unswap_oc, oc_refl. unfold is_u16 in Ha. lia.
  - cbn [chksum_chain_partial]. simpl in Hd.
    change (seg_data ((payload, d) :: q)) with (d ++ seg_data q).
    destruct (Z.ltb_spec 0 n) as [Hpos|].
    + destruct (partial_piece n d ltac:(lia)) as (Htk & Hck & Hrest).
      set (chklen := if n <? _ then n else _) in *. rewrite Htk.
      rewrite u16_id by (unfold is_u16; lia). 
      assert (Hlt : n - chklen < 0x7fff).
      { unfold chklen. destruct (Z.ltb_spec n (Z.of_nat (length d))); lia. }
      destruct (Z.ltb_spec (n - chklen) 0x7fff); [|lia].
      rewrite take_app, Hrest.
      destruct (chain_swap_step acc payload (take (Z.to_nat n) d)
        (take (Z.to_nat (n - chklen)) (seg_data q)) sw
        (negb (Z.of_nat (length d) mod 2 =? 0))) as [R1 E1];
        [done|by apply Forall_take|by apply Forall_take, seg_data_bytes| |].
      { destruct (decide (Z.of_nat (length d) <= n)); [right; by rewrite take_ge by lia|left].
        replace chklen with n by (unfold chklen; destruct (Z.ltb_spec n (Z.of_nat (length d))); lia). by rewrite Z.sub_diag. }
      set (par := negb _) in *.
      destruct (IH _ (if par then negb sw else sw) (n - chklen) R1)
        as (a' & s' & E & R & E'); [unfold is_u16; lia|destruct q as [|[]]; simpl; lia|].
      exists a', s'. split; [by destruct par|]. split; [done|]. by etrans.
    + exists acc, sw. replace n with 0 by lia. do 2 (split; [done|]). simpl. rewrite Z.add_0_r.
      apply unswap_oc, oc_refl. unfold is_u16 in Ha. lia.
Qed.

Lemma chksum_chain_partial_panic q acc sw n :
  is_u16 n -> 0x7fff <= after_first q n -> chksum_chain_partial q acc sw n = None.
Proof.
  intros Hn H. unfold is_u16 in Hn. destruct q as [|[payload d] q]; simpl in *; [lia|].
  destruct (Z.ltb_spec 0 n); [|lia]. destruct (Z.ltb_spec n (Z.of_nat (length d))); [lia|].
  rewrite u16_id by (unfold is_u16; lia).
  by destruct (Z.ltb_spec (n - Z.of_nat (length d)) 0x7fff); [lia|].
Qed.

Ltac solve_chain := repeat (apply Forall_cons_2; [solve_bytes|]); apply Forall_nil_2.

(** ** Properties *)

(** C26. The three variants of [lwip_standard_chksum] compute the RFC 1071 one's
    complement sum of the data: variant 3 (the one in use) at every alignment
    and for every length, variants 1 and 2 up to 0x20000 bytes. *)
Theorem lwip_standard_chksum_correct addr data :
  bytes data ->
  lwip_standard_chksum addr data = cksum_ref data /\
  (Z.of_nat (length data) <= 0x20000 ->
   lwip_standard_chksum1 data = cksum_ref data /\
   lwip_standard_chksum2 addr data = cksum_ref data).
Proof.
  intros Hb. split; [by apply chksum3_ref|]. intros Hl.
  split; [by apply chksum1_ref|by apply chksum2_ref].
Qed.

Definition ip_header_example : list Z :=
  [0x45; 0; 0; 0x73; 0; 0; 0x40; 0; 0x40; 0x11; 0; 0; 0xc0; 0xa8; 0; 1; 0xc0; 0xa8; 0; 0xc7].

Lemma lwip_standard_chksum_correct_witness :
  lwip_standard_chksum 3 ip_header_example = cksum_ref ip_header_example.
Proof. refine (proj1 (lwip_standard_chksum_correct 3 ip_header_example _)). solve_bytes. Defined.

(** The checksum of a pbuf chain is the complement of the one's complement
    sum of the concatenated payloads, however the data is split over pbufs of
    odd and even lengths and wherever the payloads start. *)
Theorem inet_chksum_pbuf_correct p :
  chain_bytes p -> inet_chksum_pbuf p = 65535 - cksum_ref (seg_data p).
Proof.
  intros Hp. unfold inet_chksum_pbuf.
  destruct (chksum_chain_spec p 0 false Hp) as (acc & sw & -> & R & E); [done|].
  destruct (final_swap _ _ _ R E) as [R' E']. rewrite complement_u16 by done. f_equal.
  apply cksum_ref_unique; [by apply seg_data_bytes|done|exact E'].
Qed.

Lemma inet_chksum_pbuf_correct_witness :
  inet_chksum_pbuf [(0x1001, [1; 2; 3]); (0x2000, [4]); (0x3003, [5; 6])]
  = 65535 - cksum_ref [1; 2; 3; 4; 5; 6].
Proof.
  refine (inet_chksum_pbuf_correct [(0x1001, [1; 2; 3]); (0x2000, [4]); (0x3003, [5; 6])] _).
  solve_chain.
Defined.

(** The TCP/UDP checksum covers the pseudo header followed by the payload
    of the chain. *)
Theorem inet_chksum_pseudo_correct p proto proto_len src dest :
  chain_bytes p -> is_u8 proto -> is_u16 proto_len -> is_u32 src -> is_u32 dest ->
  ip_chksum_pseudo p proto proto_len src dest
  = 65535 - cksum_ref (pseudo_header src dest proto proto_len ++ seg_data p).
Proof.
  intros Hp Hpr Hl Hs Hd. unfold ip_chksum_pseudo, inet_chksum_pseudo, inet_cksum_pseudo_base.
  destruct (pseudo_addrs_spec src dest Hs Hd) as [R0 E0].
  destruct (chksum_chain_spec p _ false Hp R0) as (acc & sw & -> & R & E).
  destruct (final_swap _ _ _ R E) as [R' E'].
  by apply (pseudo_finish _ (pseudo_addrs src dest)); [..|apply seg_data_bytes| |].
Qed.

Lemma inet_chksum_pseudo_correct_witness :
  ip_chksum_pseudo [(0x1001, [1; 2; 3]); (0x2000, [4; 5])] 17 5 0x0100a8c0 0xc700a8c0
  = 65535 - cksum_ref (pseudo_header 0x0100a8c0 0xc700a8c0 17 5 ++ [1; 2; 3; 4; 5]).
Proof.
  refine (inet_chksum_pseudo_correct [(0x1001, [1; 2; 3]); (0x2000, [4; 5])] 17 5
            0x0100a8c0 0xc700a8c0 _ _ _ _ _); [|done..].
  solve_chain.
Defined.

(** The checksum over the first [chksum_len] bytes of the payload (UDP-Lite)
    is the one of the pseudo header and those bytes, unless more than 0x7ffe of
    them lie beyond the first pbuf: then the assertion "delete me" panics. *)
Theorem inet_chksum_pseudo_partial_correct p proto proto_len chksum_len src dest :
  chain_bytes p -> is_u8 proto -> is_u16 proto_len -> is_u16 chksum_len ->
  is_u32 src -> is_u32 dest ->
  ip_chksum_pseudo_partial p proto proto_len chksum_len src dest
  = if after_first p chksum_len <? 0x7fff
    then Some (65535 - cksum_ref (pseudo_header src dest proto proto_len
                                  ++ take (Z.to_nat chksum_len) (seg_data p)))
    else None.
Proof.
  intros Hp Hpr Hl Hc Hs Hd.
  unfold ip_chksum_pseudo_partial, inet_chksum_pseudo_partial, inet_cksum_pseudo_partial_base.
  destruct (pseudo_addrs_spec src dest Hs Hd) as [R0 E0].
  destruct (Z.ltb_spec (after_first p chksum_len) 0x7fff).
  - destruct (chksum_chain_partial_spec p _ false chksum_len Hp R0 Hc)
      as (acc & sw & -> & R & E); [done|]. destruct (final_swap _ _ _ R E) as [R' E']. f_equal.
    by apply (pseudo_finish _ (pseudo_addrs src dest)); [..|apply Forall_take, seg_data_bytes| |].
  - by rewrite chksum_chain_partial_panic.
Qed.

Lemma inet_chksum_pseudo_partial_correct_witness :
  ip_chksum_pseudo_partial [(0x1001, [1; 2; 3]); (0x2000, [4; 5])] 136 5 4 0x0100a8c0 0xc700a8c0
  = Some (65535 - cksum_ref (pseudo_header 0x0100a8c0 0xc700a8c0 136 5 ++ [1; 2; 3; 4])).
Proof.
  refine (inet_chksum_pseudo_partial_correct [(0x1001, [1; 2; 3]); (0x2000, [4; 5])] 136 5 4
            0x0100a8c0 0xc700a8c0 _ _ _ _ _ _); [|done..].
  solve_chain.
Defined.

(** A packet whose checksum field, at an even offset, was zero while
    [inet_chksum] ran and then took its result verifies: [inet_chksum] over it
    is zero, wherever the receiver put it in memory. *)
Theorem inet_chksum_verifies addr addr' pre post :
  bytes (pre ++ post) -> (length pre mod 2 = 0)%nat ->
  inet_chksum addr' (pre ++ le_bytes 2 (inet_chksum addr (pre ++ [0; 0] ++ post)) ++ post) = 0.
Proof.
  intros [Hpre Hpost]%Forall_app Heven.
  assert (Hz : bytes (pre ++ [0; 0] ++ post)) by (apply Forall_app; split; [done|by repeat constructor]).
  rewrite (inet_chksum_ref addr) by done. destruct (cksum_ref_oc _ Hz) as [E R].
  set (c := cksum_ref (pre ++ [0; 0] ++ post)) in *. unfold is_u16 in R.
  rewrite inet_chksum_ref by auto with lwip.
  enough (cksum_ref (pre ++ le_bytes 2 (65535 - c) ++ post) = 65535) by lia.
  symmetry. apply cksum_ref_unique; [by auto with lwip|done|].
  rewrite wsum_app_even in E by done. rewrite wsum_app_even by done.
  rewrite wsum_app_even in E |- * by (by rewrite ?length_le_bytes). cbn [wsum le_bytes] in *.
  replace ((65535 - c) mod 256 + 256 * ((65535 - c) / 256 mod 256)) with (65535 - c) by words.
  destruct E as (? & ? & [k Hk] & Hiff). repeat split; try lia. exists k. lia.
Qed.

Lemma inet_chksum_verifies_witness :
  inet_chksum 1 (take 10 ip_header_example ++ le_bytes 2
    (inet_chksum 0 (take 10 ip_header_example ++ [0; 0] ++ drop 12 ip_header_example))
    ++ drop 12 ip_header_example) = 0.
Proof.
  refine (inet_chksum_verifies 0 1 (take 10 ip_header_example) (drop 12 ip_header_example) _ _);
    [solve_bytes|done].
Defined.
