(* ===== verification/Ip4Addr.v ===== *)
(** * IPv4 addresses (core/ipv4/ip4_addr.c, include/lwip/ip4_addr.h)

    Parsing and printing of dotted notation, netmask validation and broadcast
    detection.  Addresses are [u32_t] values in network byte order, as the code
    keeps them; strings are lists of characters ended by their NUL. *)

From S2P Require Import Prelude Def.

(** ** Macros of ip4_addr.h *)

Definition IPADDR_NONE : Z := 0xffffffff.
Definition IPADDR_ANY : Z := 0.
Definition IPADDR_BROADCAST : Z := 0xffffffff.
Definition IP4ADDR_STRLEN_MAX : Z := 16.

Definition ip4_addr_net_eq (addr1 addr2 mask : Z) : bool :=
  Z.land addr1 mask =? Z.land addr2 mask.
Definition ip4_addr_eq (addr1 addr2 : Z) : bool := addr1 =? addr2.
Definition ip4_addr_isany_val (addr : Z) : bool := addr =? IPADDR_ANY.
Definition ip4_addr_ismulticast (addr : Z) : bool :=
  Z.land addr (PP_HTONL 0xf0000000) =? PP_HTONL 0xe0000000.
Definition ip4_addr_islinklocal (addr : Z) : bool :=
  Z.land addr (PP_HTONL 0xffff0000) =? PP_HTONL 0xa9fe0000.
Definition ip4_addr_isloopback (addr : Z) : bool :=
  Z.land addr (PP_HTONL 0xff000000) =? PP_HTONL (Z.shiftl 127 24).

(** ** Broadcast detection *)

(** What the function reads of [struct netif]. *)
Record netif_addrs := { nif_flags : Z; nif_ip : Z; nif_netmask : Z }.
Definition NETIF_FLAG_BROADCAST : Z := 0x02.

Definition ip4_addr_isbroadcast_u32 (addr : Z) (netif : netif_addrs) : bool :=
  if (u32 (Z.lnot addr) =? IPADDR_ANY) || (addr =? IPADDR_ANY) then true
  else if Z.land (nif_flags netif) NETIF_FLAG_BROADCAST =? 0 then false
  else if addr =? nif_ip netif then false
  else if ip4_addr_net_eq addr (nif_ip netif) (nif_netmask netif)
          && (Z.land addr (u32 (Z.lnot (nif_netmask netif)))
              =? Z.land IPADDR_BROADCAST (u32 (Z.lnot (nif_netmask netif))))
  then true
  else false.

(** ** Netmasks *)

(** The two loops walk a one-bit mask from bit 31 down to 0; a mask of zero
    ends them, so 32 iterations are all there are. *)
Fixpoint skip_ones (fuel : nat) (nm mask : Z) : Z :=
  match fuel with
  | O => mask
  | S fuel' =>
      if mask =? 0 then mask
      else if Z.land nm mask =? 0 then mask
      else skip_ones fuel' nm (Z.shiftr mask 1)
  end.

Fixpoint only_zeros (fuel : nat) (nm mask : Z) : bool :=
  match fuel with
  | O => true
  | S fuel' =>
      if mask =? 0 then true
      else if negb (Z.land nm mask =? 0) then false
      else only_zeros fuel' nm (Z.shiftr mask 1)
  end.

Definition ip4_addr_netmask_valid (netmask : Z) : bool :=
  let nm_hostorder := lwip_htonl netmask in
  let mask := skip_ones 33 nm_hostorder (Z.shiftl 1 31) in
  only_zeros 33 nm_hostorder mask.

(** ** Parsing *)

(** The inner loop: digits of the base, the value wrapping at 32 bits. *)
Fixpoint aton_digits (cp : list Z) (base val : Z) : list Z * Z :=
  match cp with
  | [] => (cp, val)
  | c :: cp' =>
      if lwip_isdigit c then
        if (base =? 8) && (8 <=? u32 (c - 48)) then (cp, val)
        else aton_digits cp' base (u32 (u32 (val * base) + u32 (c - 48)))
      else if (base =? 16) && lwip_isxdigit c then
        aton_digits cp' base
          (Z.lor (u32 (Z.shiftl val 4)) (u32 (c + 10 - (if lwip_islower c then 97 else 65))))
      else (cp, val)
  end.

(** One number: the prefix selects the base. *)
Definition aton_number (cp : list Z) : option (list Z * Z) :=
  let c := deref cp in
  if negb (lwip_isdigit c) then None
  else
    let '(cp, base) :=
      if c =? 48 then
        let cp := tail cp in
        let c := deref cp in
        if (c =? 120) || (c =? 88) then (tail cp, 16) else (cp, 8)
      else (cp, 10) in
    Some (aton_digits cp base 0).

(** The outer loop; [room] is the number of dots [parts] has space for. *)
Fixpoint aton_parts (room : nat) (cp : list Z) (parts : list Z)
    : option (list Z * list Z * Z) :=
  match aton_number cp with
  | None => None
  | Some (cp, val) =>
      if deref cp =? 46 then
        match room with
        | O => None
        | S room' => aton_parts room' (tail cp) (parts ++ [val])
        end
      else Some (cp, parts, val)
  end.

(** The switch on the number of parts. *)
Definition aton_concoct (parts : list Z) (val : Z) : outcome (option Z) :=
  match parts with
  | [] => Ok (Some val)
  | [p0] =>
      if 0xffffff <? val then Ok None
      else if 0xff <? p0 then Ok None
      else Ok (Some (Z.lor val (u32 (Z.shiftl p0 24))))
  | [p0; p1] =>
      if 0xffff <? val then Ok None
      else if (0xff <? p0) || (0xff <? p1) then Ok None
      else Ok (Some (Z.lor val (Z.lor (u32 (Z.shiftl p0 24)) (u32 (Z.shiftl p1 16)))))
  | [p0; p1; p2] =>
      if 0xff <? val then Ok None
      else if (0xff <? p0) || (0xff <? p1) || (0xff <? p2) then Ok None
      else Ok (Some (Z.lor val (Z.lor (Z.lor (u32 (Z.shiftl p0 24)) (u32 (Z.shiftl p1 16)))
                                      (u32 (Z.shiftl p2 8)))))
  | _ => Panic
  end.

(** [Ok None] is the return value 0, [Ok (Some a)] the return value 1 with [a]
    stored to [*addr]. *)
Definition ip4addr_aton (cp : list Z) : outcome (option Z) :=
  match aton_parts 3 cp [] with
  | None => Ok None
  | Some (cp, parts, val) =>
      let c := deref cp in
      if negb (c =? 0) && negb (lwip_isspace c) then Ok None
      else r ← aton_concoct parts val; Ok (option_map lwip_htonl r)
  end.

Definition ipaddr_addr (cp : list Z) : outcome Z :=
  r ← ip4addr_aton cp;
  Ok (match r with Some val => val | None => IPADDR_NONE end).

(** ** Printing *)

(** The digits of one byte, least significant first, into [inv[3]]; [room] is
    what is left of that array. *)
Fixpoint ntoa_digits (room : nat) (ap : Z) (inv : list Z) : outcome (list Z) :=
  match room with
  | O => Fault
  | S room' =>
      let rem := ap mod 10 in
      let ap := ap / 10 in
      let inv := inv ++ [48 + rem] in
      if negb (ap =? 0) then ntoa_digits room' ap inv else Ok inv
  end.

(** [if (len++ >= buflen) return NULL; *rp++ = c;] for each character; [rp] and
    [len] advance together.  The flag says whether the function goes on. *)
Fixpoint ntoa_emit (cs : list Z) (buflen : Z) (buf : list Z) (rp : nat)
    : outcome (bool * list Z * nat) :=
  match cs with
  | [] => Ok (true, buf, rp)
  | c :: cs' =>
      if buflen <=? Z.of_nat rp then Ok (false, buf, rp)
      else buf ← store buf rp c; ntoa_emit cs' buflen buf (S rp)
  end.

Fixpoint ntoa_bytes (ap : list Z) (buflen : Z) (buf : list Z) (rp : nat)
    : outcome (bool * list Z * nat) :=
  match ap with
  | [] => Ok (true, buf, rp)
  | b :: ap' =>
      inv ← ntoa_digits 3 b [];
      '(go, buf, rp) ← ntoa_emit (rev inv) buflen buf rp;
      if negb go then Ok (false, buf, rp)
      else
        '(go, buf, rp) ← ntoa_emit [46] buflen buf rp;
        if negb go then Ok (false, buf, rp) else ntoa_bytes ap' buflen buf rp
  end.

(** [true] with the buffer when it is returned, [false] for NULL. *)
Definition ip4addr_ntoa_r (addr : Z) (buf : list Z) (buflen : Z) : outcome (bool * list Z) :=
  '(go, buf, rp) ← ntoa_bytes (le_bytes 4 addr) buflen buf 0;
  if negb go then Ok (false, buf)
  else buf ← store buf (rp - 1) 0; Ok (true, buf).

(** The static buffer of [IP4ADDR_STRLEN_MAX] bytes. *)
Definition ip4addr_ntoa (addr : Z) (str : list Z) : outcome (bool * list Z) :=
  ip4addr_ntoa_r addr str IP4ADDR_STRLEN_MAX.

(** ** The grammar of addresses *)

Definition digit_value (c : Z) : Z :=
  if c <=? 57 then c - 48 else if c <=? 70 then c - 55 else c - 87.

Definition radix_digit (base c : Z) : Prop :=
  if base =? 8 then 48 <= c <= 55
  else if base =? 16 then 48 <= c <= 57 \/ 65 <= c <= 70 \/ 97 <= c <= 102
  else 48 <= c <= 57.

Definition radix_val (base : Z) (ds : list Z) (acc : Z) : Z :=
  foldl (fun v c => v * base + digit_value c) acc ds.

(** A number as C writes it, with its value: hexadecimal after 0x, octal after
    0, decimal otherwise. *)
Inductive token : list Z -> Z -> Prop :=
| token_hex x ds :
    x = 120 \/ x = 88 -> Forall (radix_digit 16) ds -> token (48 :: x :: ds) (radix_val 16 ds 0)
| token_oct ds :
    Forall (radix_digit 8) ds -> token (48 :: ds) (radix_val 8 ds 0)
| token_dec c ds :
    49 <= c <= 57 -> Forall (radix_digit 10) ds -> token (c :: ds) (radix_val 10 (c :: ds) 0).

(** The end of the address: NUL or white space. *)
Definition ends (s : list Z) : Prop := deref s = 0 \/ lwip_isspace (deref s) = true.

(** Numbers separated by dots, then the end. *)
Inductive dotted : list Z -> list Z -> Prop :=
| dotted_last t v rest : token t v -> ends rest -> dotted (t ++ rest) [v]
| dotted_dot t v s vs : token t v -> dotted s vs -> dotted (t ++ 46 :: s) (v :: vs).

(** The value of one to four numbers: all but the last are bytes, the last one
    fills what is left of the 32 bits. *)
Definition address_value (vs : list Z) : option Z :=
  match vs with
  | [d] => Some d
  | [a; d] => if (a <=? 0xff) && (d <=? 0xffffff) then Some (a * 2 ^ 24 + d) else None
  | [a; b; d] =>
      if (a <=? 0xff) && (b <=? 0xff) && (d <=? 0xffff)
      then Some (a * 2 ^ 24 + b * 2 ^ 16 + d) else None
  | [a; b; c; d] =>
      if (a <=? 0xff) && (b <=? 0xff) && (c <=? 0xff) && (d <=? 0xff)
      then Some (a * 2 ^ 24 + b * 2 ^ 16 + c * 2 ^ 8 + d) else None
  | _ => None
  end.

(** ** The parser follows the grammar *)

Definition is_base (base : Z) : Prop := base = 8 \/ base = 10 \/ base = 16.

Lemma in_range_char c lo up :
  char_range c -> 0 <= lo -> up < 128 -> lwip_in_range c lo up = (lo <=? c) && (c <=? up).
Proof. unfold char_range, lwip_in_range, u8. intros. words. Qed.

(** Character classes of signed characters as comparisons. *)
Ltac char_cases :=
  unfold lwip_isdigit, lwip_isxdigit, lwip_islower, lwip_isspace, lwip_isdigit in *;
  rewrite ?in_range_char in * by (done || lia).

(** One digit of the inner loop. *)
Lemma aton_digits_step base c cp v :
  is_base base -> char_range c -> is_u32 v -> radix_digit base c ->
  aton_digits (c :: cp) base v = aton_digits cp base (u32 (v * base + digit_value c)).
Proof.
  intros Hbase Hc Hv Hd. unfold is_u32 in *. cbn [aton_digits].
  unfold radix_digit in Hd.
  destruct (decide (48 <= c <= 57)) as [Hdig|Hdig].
  - replace (lwip_isdigit c) with true by (char_cases; lia).
    replace ((base =? 8) && (8 <=? u32 (c - 48))) with false.
    + f_equal. unfold digit_value. replace (c <=? 57) with true by lia.
      unfold u32. by rewrite <-Z.add_mod by lia.
    + rewrite u32_id by (unfold is_u32; lia). destruct Hbase as [->|[->| ->]]; simpl in *; lia.
  - assert (base = 16 /\ (65 <= c <= 70 \/ 97 <= c <= 102)) as [-> Hx].
    { destruct Hbase as [->|[->| ->]]; simpl in *; lia. }
    replace (lwip_isdigit c) with false by (char_cases; lia).
    replace (lwip_isxdigit c) with true by (char_cases; lia).
    replace (c + 10 - (if lwip_islower c then 97 else 65)) with (digit_value c)
      by (unfold digit_value; char_cases; repeat case_match; lia).
    assert (0 <= digit_value c < 16) by (unfold digit_value; repeat case_match; lia).
    simpl. f_equal. rewrite (u32_id (digit_value c)) by (unfold is_u32; lia).
    rewrite shiftl_mul by lia. change (2 ^ 4) with 16. unfold u32.
    change 4294967296 with (268435456 * 16). rewrite Z.mul_mod_distr_r by lia.
    rewrite (lor_low 4) by (done || lia).
    apply (Z.mod_unique_pos _ _ (v / 268435456)); words.
Qed.

(** The loop stops at a character that is not a digit of the base. *)
Lemma aton_digits_stop base s v :
  is_base base -> cstring s -> ~ radix_digit base (deref s) -> aton_digits s base v = (s, v).
Proof.
  intros Hbase Hs Hd. destruct s as [|c s]; [done|]. simpl in *.
  apply Forall_cons in Hs as [[Hc _] _]. unfold radix_digit in Hd.
  destruct (lwip_isdigit c) eqn:E; char_cases.
  - rewrite u32_id by (unfold is_u32; lia). destruct Hbase as [->|[->| ->]]; simpl in *; try lia.
    by replace (8 <=? c - 48) with true by lia.
  - destruct Hbase as [->|[->| ->]]; simpl in *; [done..|]. case_match; [lia|done].
Qed.

Lemma aton_digits_app base ds s v :
  is_base base -> cstring (ds ++ s) -> is_u32 v -> Forall (radix_digit base) ds ->
  ~ radix_digit base (deref s) ->
  aton_digits (ds ++ s) base v = (s, u32 (radix_val base ds v)).
Proof.
  intros Hbase Hs Hv Hds Hstop. revert v Hv. induction Hds as [|c ds Hc Hds IH]; intros v Hv.
  - simpl in *. rewrite aton_digits_stop by done. by rewrite u32_id.
  - apply Forall_cons in Hs as [[? _] ?]. cbn [app].
    rewrite aton_digits_step, IH by auto with lwip. f_equal.
    unfold radix_val. cbn [foldl]. generalize (v * base + digit_value c). intros w. clear.
    unfold u32. revert w. induction ds as [|d ds IH] using rev_ind; intros w; simpl.
    + by rewrite Z.mod_mod.
    + rewrite !foldl_app. simpl. rewrite Z.add_mod, Z.mul_mod, IH by done.
      by rewrite <-Z.mul_mod, <-Z.add_mod by done.
Qed.

(** Every string splits into its leading digits and the rest. *)
Lemma digits_split base s :
  exists ds rest, s = ds ++ rest /\ Forall (radix_digit base) ds /\ ~ radix_digit base (deref rest).
Proof.
  assert (Hdec : forall c, Decision (radix_digit base c)).
  { intros c. unfold radix_digit. repeat case_match; apply _. }
  induction s as [|c s (ds & rest & -> & Hds & Hr)].
  - exists [], []. split; [done|]. split; [done|]. unfold radix_digit. simpl. repeat case_match; lia.
  - destruct (decide (radix_digit base c)).
    + exists (c :: ds), rest. by repeat split; [constructor|].
    + by exists [], (c :: ds ++ rest).
Qed.

(** [s] does not continue a number. *)
Definition delimited (s : list Z) : Prop := deref s = 46 \/ ends s.

Lemma delimited_no_digit base s : is_base base -> delimited s -> ~ radix_digit base (deref s).
Proof.
  unfold delimited, ends, radix_digit, lwip_isspace. generalize (deref s). intros c Hb H.
  repeat case_match; lia.
Qed.

Lemma aton_number_complete t v s :
  token t v -> cstring (t ++ s) -> delimited s -> aton_number (t ++ s) = Some (s, u32 v).
Proof.
  intros Ht Hs Hdel. unfold aton_number. destruct Ht as [x ds Hx Hds|ds Hds|c ds Hc Hds].
  - cbn [app deref hd tail]. change (lwip_isdigit 48) with true. rewrite Z.eqb_refl.
    replace ((x =? 120) || (x =? 88)) with true by lia. cbn [negb].
    do 2 apply Forall_cons in Hs as [_ Hs].
    rewrite aton_digits_app; [done|by right; right|done|done|done|].
    apply delimited_no_digit; [by right; right|done].
  - apply Forall_cons in Hs as [_ Hs].
    change (deref ((48 :: ds) ++ s)) with 48. change (tail ((48 :: ds) ++ s)) with (ds ++ s).
    change (lwip_isdigit 48) with true. rewrite Z.eqb_refl. cbn [negb].
    replace ((deref (ds ++ s) =? 120) || (deref (ds ++ s) =? 88)) with false.
    + rewrite aton_digits_app; [done|by left|done|done|done|].
      apply delimited_no_digit; [by left|done].
    + destruct ds as [|d ds]; simpl;
        [|apply Forall_cons in Hds as [Hd _]; unfold radix_digit in Hd; simpl in Hd; lia].
      destruct Hdel as [->|[->|H]]; [done..|]. unfold lwip_isspace in H. lia.
  - change ((c :: ds) ++ s) with (c :: ds ++ s) in *. cbn [deref hd].
    assert (char_range c) by (by apply Forall_cons in Hs as [[? _] _]).
    replace (lwip_isdigit c) with true by (char_cases; lia). simpl.
    replace (c =? 48) with false by lia. change (c :: ds ++ s) with ((c :: ds) ++ s).
    rewrite aton_digits_app; [done|by right; left|done|done| |].
    + constructor; [unfold radix_digit; simpl; lia|done].
    + apply delimited_no_digit; [by right; left|done].
Qed.

(** Reading the digits of [s]: a split of [s] gives the result. *)
Lemma aton_digits_sound base s rest v :
  is_base base -> cstring s -> aton_digits s base 0 = (rest, v) ->
  exists ds, s = ds ++ rest /\ Forall (radix_digit base) ds /\
    ~ radix_digit base (deref rest) /\ v = u32 (radix_val base ds 0).
Proof.
  intros Hb Hs. destruct (digits_split base s) as (ds & r & -> & Hds & Hr).
  rewrite aton_digits_app by done. intros [= -> <-]. by exists ds.
Qed.

Lemma aton_number_sound s rest v :
  cstring s -> aton_number s = Some (rest, v) ->
  exists t v', s = t ++ rest /\ token t v' /\ v = u32 v'.
Proof.
  intros Hs. unfold aton_number. destruct s as [|c s]; [done|]. cbn [deref hd tail].
  assert (Hs' := Hs). apply Forall_cons in Hs' as [[Hc _] Hs'].
  destruct (lwip_isdigit c) eqn:Ed; cbn [negb]; [|done].
  destruct (Z.eqb_spec c 48) as [->|Hn].
  - destruct ((deref s =? 120) || (deref s =? 88)) eqn:Ex; intros E%(inj Some).
    + destruct s as [|x s]; [done|]. apply Forall_cons in Hs' as [_ Hs''].
      cbn [tail] in E. apply (aton_digits_sound 16) in E as (ds & -> & Hds & _ & ->); [|by right; right|done].
      exists (48 :: x :: ds), (radix_val 16 ds 0). repeat split. constructor; [|done].
      simpl in Ex. lia.
    + apply (aton_digits_sound 8) in E as (ds & -> & Hds & _ & ->); [|by left|done].
      exists (48 :: ds), (radix_val 8 ds 0). repeat split. by constructor.
  - intros E%(inj Some). apply (aton_digits_sound 10) in E as (ds & Eds & Hds & Hr & ->);
      [|by right; left|done].
    char_cases. destruct ds as [|d ds].
    + simpl in Eds. subst rest. unfold radix_digit in Hr. simpl in Hr. lia.
    + injection Eds as <- ->. exists (c :: ds), (radix_val 10 (c :: ds) 0). repeat split.
      apply Forall_cons in Hds as [_ Hds]. constructor; [lia|done].
Qed.

Lemma token_cstring t v s : token t v -> cstring s -> cstring (t ++ s).
Proof.
  assert (Hd : forall base ds, Forall (radix_digit base) ds -> cstring ds).
  { intros base ds H. eapply Forall_impl; [exact H|]. intros c. unfold radix_digit, char_range.
    simpl. repeat case_match; lia. }
  intros Ht Hs. apply Forall_app. split; [|done].
  destruct Ht as [x ds ? ?%Hd|ds ?%Hd|c ds ? ?%Hd]; repeat constructor; unfold char_range;
    try lia; done.
Qed.

(** ** The parts *)

Lemma dotted_nonempty s vs : dotted s vs -> vs <> [].
Proof. by destruct 1. Qed.

Lemma aton_parts_complete s vs room parts :
  dotted s vs -> cstring s ->
  if (length vs <=? S room)%nat
  then exists rest, ends rest /\
    aton_parts room s parts = Some (rest, parts ++ map u32 (removelast vs), u32 (List.last vs 0))
  else aton_parts room s parts = None.
Proof.
  intros H. revert room parts. induction H as [t v rest Ht Hend|t v s vs Ht Hs IH];
    intros room parts Hcs.
  - simpl. exists rest. split; [done|]. destruct room; cbn [aton_parts];
      rewrite (aton_number_complete t v) by (done || by right);
      (replace (deref rest =? 46) with false;
        [by rewrite app_nil_r|unfold ends, lwip_isspace in Hend; lia]).
  - assert (Hn : aton_number (t ++ 46 :: s) = Some (46 :: s, u32 v))
      by (apply aton_number_complete; [done..|by left]).
    apply Forall_app in Hcs as [_ [_ Hcs]%Forall_cons].
    pose proof (dotted_nonempty _ _ Hs) as Hne.
    destruct room as [|room]; cbn [aton_parts]; rewrite Hn; cbn [deref hd tail];
      rewrite Z.eqb_refl.
    + by destruct vs.
    + specialize (IH room (parts ++ [u32 v]) Hcs).
      change (length (v :: vs) <=? S (S room))%nat with (length vs <=? S room)%nat.
      case_match; [|done]. destruct IH as (rest & Hr & ->). exists rest. split; [done|].
      destruct vs as [|w vs]; [done|]. by rewrite <-app_assoc.
Qed.

Lemma aton_parts_sound room s parts rest ps val :
  cstring s -> aton_parts room s parts = Some (rest, ps, val) -> ends rest ->
  exists vs, dotted s vs /\ (length vs <= S room)%nat /\
    ps = parts ++ map u32 (removelast vs) /\ val = u32 (List.last vs 0).
Proof.
  revert s parts. induction room as [|room IH]; intros s parts Hs; cbn [aton_parts];
    (destruct (aton_number s) as [[s' v]|] eqn:En; [|done]);
    apply aton_number_sound in En as (t & v' & -> & Ht & ->); try done;
    destruct (Z.eqb_spec (deref s') 46) as [E46|_]; intros Hp Hr; try done.
  - injection Hp as <- <- <-. exists [v']. simpl. rewrite app_nil_r.
    by repeat split; [by constructor|].
  - destruct s' as [|c s']; [done|]. simpl in E46. subst c.
    apply Forall_app in Hs as [_ [_ Hs]%Forall_cons].
    destruct (IH _ _ Hs Hp Hr) as (vs & Hd & Hl & -> & ->). exists (v' :: vs).
    pose proof (dotted_nonempty _ _ Hd). split; [by constructor|]. split; [simpl; lia|].
    destruct vs as [|w vs]; [done|]. by rewrite <-app_assoc.
  - injection Hp as <- <- <-. exists [v']. simpl. rewrite app_nil_r.
    repeat split; [by constructor|lia].
Qed.

(** Gluing bytes at their place: no bits overlap. *)
Lemma lor_place n p low :
  0 <= n -> is_u8 p -> n <= 24 -> 0 <= low < 2 ^ n ->
  Z.lor low (u32 (Z.shiftl p n)) = p * 2 ^ n + low.
Proof.
  intros Hn Hp Hn' Hl. rewrite shiftl_mul by done. rewrite u32_id.
  - rewrite Z.lor_comm. by apply (lor_low n).
  - unfold is_u32, is_u8 in *. assert (0 < 2 ^ n <= 2 ^ 24).
    { split; [lia|]. by apply Z.pow_le_mono_r. }
    nia.
Qed.

Lemma aton_concoct_value parts val :
  Forall is_u32 (parts ++ [val]) -> (length parts <= 3)%nat ->
  aton_concoct parts val = Ok (address_value (parts ++ [val])).
Proof.
  intros H Hl. unfold is_u32 in H.
  destruct parts as [|a [|b [|c [|]]]]; simpl in *; try lia; [done|..];
    rewrite ?Forall_cons in H; decompose [and] H; repeat case_match; try done; try lia;
    do 2 f_equal.
  - rewrite (lor_place 24); unfold is_u8; lia.
  - rewrite (Z.lor_comm (u32 (Z.shiftl a 24))), Z.lor_assoc.
    rewrite (lor_place 16), (lor_place 24); unfold is_u8; lia.
  - rewrite (Z.lor_comm (u32 (Z.shiftl a 24))), (Z.lor_comm (Z.lor _ _)), !Z.lor_assoc.
    rewrite (lor_place 8), (lor_place 16), (lor_place 24); unfold is_u8; lia.
Qed.

Lemma map_removelast_last (vs : list Z) :
  vs <> [] -> map u32 (removelast vs) ++ [u32 (List.last vs 0)] = map u32 vs.
Proof.
  intros H. rewrite (app_removelast_last 0 H) at 3. by rewrite map_app.
Qed.

Lemma address_value_long vs : (4 < length vs)%nat -> address_value vs = None.
Proof. intros H. destruct vs as [|? [|? [|? [|? [|]]]]]; simpl in *; done || lia. Qed.

(** The parser on a string of the grammar. *)
Lemma aton_dotted s vs :
  cstring s -> dotted s vs ->
  ip4addr_aton s = Ok (option_map lwip_htonl (address_value (map u32 vs))).
Proof.
  intros Hs Hd. pose proof (dotted_nonempty _ _ Hd) as Hne. unfold ip4addr_aton.
  pose proof (aton_parts_complete s vs 3 [] Hd Hs) as H.
  destruct (Nat.leb_spec (length vs) 4) as [Hl|Hl].
  - destruct H as (rest & Hr & ->). cbn [app].
    replace (negb (deref rest =? 0) && negb (lwip_isspace (deref rest))) with false
      by (destruct Hr as [->| ->]; [done|by rewrite andb_false_r]).
    rewrite aton_concoct_value; [by rewrite map_removelast_last| |].
    + rewrite map_removelast_last by done. apply Forall_map, Forall_forall. auto with lwip.
    + rewrite length_map. destruct vs as [|v vs _] using rev_ind; [done|].
      rewrite removelast_last, length_app in *. simpl in Hl. lia.
  - rewrite H, address_value_long; [done|by rewrite length_map].
Qed.

(** ** The printer *)

(** The decimal digits of a byte. *)
Definition byte_text (b : Z) : list Z :=
  if 100 <=? b then [48 + b / 100; 48 + b / 10 mod 10; 48 + b mod 10]
  else if 10 <=? b then [48 + b / 10; 48 + b mod 10]
  else [48 + b].

(** The bytes of an address, each followed by a dot. *)
Definition dots (bs : list Z) : list Z := concat (map (fun b => byte_text b ++ [46]) bs).

Lemma ntoa_digits_text b : is_u8 b -> ntoa_digits 3 b [] = Ok (rev (byte_text b)).
Proof.
  unfold is_u8. intros Hb. unfold byte_text. cbn [ntoa_digits].
  destruct (Z.leb_spec 100 b); [|destruct (Z.leb_spec 10 b)].
  - replace (b / 10 =? 0) with false by words. cbn [negb].
    replace (b / 10 / 10 =? 0) with false by words. cbn [negb].
    replace (b / 10 / 10 / 10 =? 0) with true by words. cbn [negb app rev].
    rewrite !Z.div_div by lia. repeat f_equal. words.
  - replace (b / 10 =? 0) with false by words. cbn [negb].
    replace (b / 10 / 10 =? 0) with true by words. cbn [negb app rev].
    repeat f_equal. words.
  - replace (b / 10 =? 0) with true by words. cbn [negb app rev]. repeat f_equal. words.
Qed.

(** Emitting a text at offset [rp]: all of it, or as much as fits. *)
Lemma ntoa_emit_spec cs buf rp :
  let buflen := Z.of_nat (length buf) in
  (rp <= length buf)%nat ->
  exists buf', length buf' = length buf /\
    ntoa_emit cs buflen buf rp
    = Ok (bool_decide (rp + length cs <= length buf)%nat, buf',
          Nat.min (rp + length cs) (length buf)) /\
    ((rp + length cs <= length buf)%nat ->
     buf' = take rp buf ++ cs ++ drop (rp + length cs) buf).
Proof.
  intros buflen. unfold buflen. clear buflen. revert buf rp.
  induction cs as [|c cs IH]; intros buf rp Hrp; cbn [ntoa_emit].
  - exists buf. split; [done|]. simpl. rewrite Nat.add_0_r.
    rewrite bool_decide_true, Nat.min_l by done.
    split; [done|]. intros _. by rewrite take_drop.
  - destruct (Z.leb_spec (Z.of_nat (length buf)) (Z.of_nat rp)) as [Hf|Hf].
    + exists buf. split; [done|]. simpl.
      rewrite bool_decide_false, Nat.min_r by lia. split; [repeat f_equal; lia|lia].
    + rewrite store_ok by lia. cbn [mbind outcome_bind].
      destruct (IH (<[rp := c]> buf) (S rp)) as (buf' & Hl & E & Hb);
        [rewrite length_insert; lia|]. rewrite length_insert in *.
      exists buf'. split; [done|]. simpl length. rewrite Nat.add_succ_r. split; [exact E|].
      intros Hfit. rewrite Hb by done. rewrite drop_insert_lt by lia.
      rewrite (take_S_r _ _ c) by (apply list_lookup_insert_eq; lia).
      rewrite take_insert_ge by lia. by rewrite <-app_assoc.
Qed.

(** Emitting is compositional, so the loop over the bytes emits one text. *)
Lemma ntoa_emit_app cs1 cs2 buflen buf rp :
  ntoa_emit (cs1 ++ cs2) buflen buf rp =
  ('(go, buf, rp) ← ntoa_emit cs1 buflen buf rp;
   if negb go then Ok (false, buf, rp) else ntoa_emit cs2 buflen buf rp).
Proof.
  revert buf rp. induction cs1 as [|c cs1 IH]; intros buf rp; simpl; [done|].
  case_match; [done|]. destruct (store buf rp c); simpl; [apply IH|done..].
Qed.

Lemma ntoa_bytes_emit bs buflen buf rp :
  bytes bs -> ntoa_bytes bs buflen buf rp = ntoa_emit (dots bs) buflen buf rp.
Proof.
  intros Hb. revert buf rp. induction Hb as [|b bs Hb Hbs IH]; intros buf rp; [done|].
  cbn [ntoa_bytes]. rewrite ntoa_digits_text by done. cbn [mbind outcome_bind].
  change (dots (b :: bs)) with ((byte_text b ++ [46]) ++ dots bs).
  rewrite rev_involutive, <-app_assoc, ntoa_emit_app.
  destruct (ntoa_emit (byte_text b) buflen buf rp) as [[[go ?] ?]| | |]; simpl; [|done..].
  destruct go; simpl; [|done]. case_match; [done|].
  destruct (store _ _ 46); simpl; [apply IH|done..].
Qed.

Lemma byte_text_digits b : is_u8 b -> Forall digit (byte_text b) /\ (1 <= length (byte_text b) <= 3)%nat.
Proof.
  unfold is_u8, byte_text, digit. intros Hb. repeat case_match; simpl; split; try lia;
    repeat constructor; words.
Qed.

Lemma byte_text_token b : is_u8 b -> token (byte_text b) b.
Proof.
  unfold is_u8, byte_text. intros Hb.
  destruct (Z.leb_spec 100 b); [|destruct (Z.leb_spec 10 b); [|destruct (Z.eqb_spec b 0) as [->|]]].
  - replace b with (radix_val 10 [48 + b / 100; 48 + b / 10 mod 10; 48 + b mod 10] 0) at 4.
    + constructor; [words|]. repeat constructor; unfold radix_digit; simpl; words.
    + unfold radix_val, digit_value. cbn [foldl].
      replace (48 + b / 100 <=? 57) with true by words.
      replace (48 + b / 10 mod 10 <=? 57) with true by words.
      replace (48 + b mod 10 <=? 57) with true by words. words.
  - replace b with (radix_val 10 [48 + b / 10; 48 + b mod 10] 0) at 3.
    + constructor; [words|]. repeat constructor; unfold radix_digit; simpl; words.
    + unfold radix_val, digit_value. cbn [foldl].
      replace (48 + b / 10 <=? 57) with true by words.
      replace (48 + b mod 10 <=? 57) with true by words. words.
  - apply (token_oct []). constructor.
  - replace b with (radix_val 10 [48 + b] 0) at 2.
    + constructor; [lia|constructor].
    + unfold radix_val, digit_value. cbn [foldl].
      replace (48 + b <=? 57) with true by lia. lia.
Qed.

(** The text without its last dot. *)
Definition ip4_text_of (b0 b1 b2 b3 : Z) : list Z :=
  byte_text b0 ++ 46 :: byte_text b1 ++ 46 :: byte_text b2 ++ 46 :: byte_text b3.

Lemma dots_text b0 b1 b2 b3 : dots [b0; b1; b2; b3] = ip4_text_of b0 b1 b2 b3 ++ [46].
Proof. unfold dots, ip4_text_of. simpl. by repeat (rewrite <-app_assoc; simpl). Qed.

Lemma ip4_text_dotted b0 b1 b2 b3 :
  bytes [b0; b1; b2; b3] -> dotted (ip4_text_of b0 b1 b2 b3) [b0; b1; b2; b3].
Proof.
  intros Hb. unfold bytes in Hb. rewrite !Forall_cons in Hb. destruct Hb as (? & ? & ? & ? & _).
  unfold ip4_text_of. do 3 (apply dotted_dot; [by apply byte_text_token|]).
  rewrite <-(app_nil_r (byte_text b3)). apply dotted_last; [by apply byte_text_token|by left].
Qed.

Lemma ip4_text_cstring b0 b1 b2 b3 :
  bytes [b0; b1; b2; b3] -> cstring (ip4_text_of b0 b1 b2 b3).
Proof.
  intros Hb. unfold bytes in Hb. rewrite !Forall_cons in Hb. destruct Hb as (? & ? & ? & ? & _).
  unfold ip4_text_of. rewrite <-(app_nil_r (byte_text b3)).
  repeat (eapply token_cstring; [by apply byte_text_token|]; try apply Forall_cons_2);
    try (unfold char_range; lia); constructor.
Qed.

(** The dotted decimal text of an address. *)
Definition ip4_text (addr : Z) : list Z :=
  match le_bytes 4 addr with
  | [b0; b1; b2; b3] => ip4_text_of b0 b1 b2 b3
  | _ => []
  end.

Lemma address_bytes b0 b1 b2 b3 :
  bytes [b0; b1; b2; b3] ->
  option_map lwip_htonl (address_value (map u32 [b0; b1; b2; b3])) = Some (le_val [b0; b1; b2; b3]).
Proof.
  intros Hb. assert (Hb' := Hb). unfold bytes in Hb'. rewrite !Forall_cons in Hb'. unfold is_u8 in Hb'.
  cbn [map]. rewrite !u32_id by (unfold is_u32; lia). cbn [address_value].
  repeat match goal with |- context [?x <=? ?y] => replace (x <=? y) with true by lia end.
  cbn [andb option_map]. f_equal.
  replace (b0 * 2 ^ 24 + b1 * 2 ^ 16 + b2 * 2 ^ 8 + b3) with (le_val [b3; b2; b1; b0])
    by (cbn [le_val]; lia).
  assert (Hr : bytes [b3; b2; b1; b0]) by (by apply Forall_rev in Hb).
  rewrite htonl_le_val.
  - by change 4%nat with (length [b3; b2; b1; b0]); rewrite le_bytes_val.
  - apply (le_val_range [b3; b2; b1; b0]) in Hr. exact Hr.
Qed.

Lemma le_bytes_4 addr :
  exists b0 b1 b2 b3, le_bytes 4 addr = [b0; b1; b2; b3] /\ bytes [b0; b1; b2; b3].
Proof.
  pose proof (le_bytes_bytes 4 addr). cbn [le_bytes] in *. by do 4 eexists.
Qed.

Lemma ip4_text_spec addr :
  is_u32 addr ->
  dots (le_bytes 4 addr) = ip4_text addr ++ [46] /\ cstring (ip4_text addr) /\
  ip4addr_aton (ip4_text addr) = Ok (Some addr).
Proof.
  intros Ha. assert (le_val (le_bytes 4 addr) = addr) as Hv
    by (rewrite le_val_bytes; by apply Z.mod_small).
  unfold ip4_text. destruct (le_bytes_4 addr) as (b0 & b1 & b2 & b3 & E & Hb). rewrite E in *.
  split; [apply dots_text|]. split; [by apply ip4_text_cstring|].
  rewrite (aton_dotted _ [b0; b1; b2; b3]), address_bytes, Hv;
    auto using ip4_text_cstring, ip4_text_dotted.
Qed.

Lemma ip4_text_length addr : (length (ip4_text addr) <= 15)%nat.
Proof.
  unfold ip4_text. destruct (le_bytes_4 addr) as (b0 & b1 & b2 & b3 & -> & Hb).
  unfold bytes in Hb. rewrite !Forall_cons in Hb. destruct Hb as (H0 & H1 & H2 & H3 & _).
  apply byte_text_digits in H0 as [_ ?], H1 as [_ ?], H2 as [_ ?], H3 as [_ ?].
  unfold ip4_text_of. repeat (rewrite length_app; simpl). lia.
Qed.

(** Printing into a buffer of any size. *)
Lemma ntoa_r_spec addr buf :
  is_u32 addr ->
  exists buf', length buf' = length buf /\
    ip4addr_ntoa_r addr buf (Z.of_nat (length buf))
    = Ok (bool_decide (length (ip4_text addr) < length buf)%nat, buf') /\
    ((length (ip4_text addr) < length buf)%nat ->
     buf' = ip4_text addr ++ 0 :: drop (S (length (ip4_text addr))) buf).
Proof.
  intros Ha. unfold ip4addr_ntoa_r. rewrite ntoa_bytes_emit by auto with lwip.
  destruct (ip4_text_spec addr Ha) as (-> & _ & _).
  destruct (ntoa_emit_spec (ip4_text addr ++ [46]) buf 0) as (buf' & Hl & -> & Hb); [lia|].
  rewrite length_app, Nat.add_1_r, Nat.add_0_l in *.
  case_bool_decide as Hfit; cbn [mbind outcome_bind negb].
  - rewrite Nat.min_l, store_ok by lia. simpl. rewrite Nat.sub_0_r, bool_decide_true by lia.
    eexists. split; [|split; [done|]].
    + by rewrite length_insert.
    + intros _. rewrite Hb, <-app_assoc by done. simpl.
      by rewrite insert_app_r_alt, Nat.sub_diag by lia.
  - exists buf'. rewrite bool_decide_false by lia. split; [done|]. split; [done|]. lia.
Qed.

Lemma aton_cases s :
  cstring s -> (exists vs, dotted s vs) \/ ip4addr_aton s = Ok None.
Proof.
  intros Hs. unfold ip4addr_aton.
  destruct (aton_parts 3 s []) as [[[rest ps] val]|] eqn:E; [|by right].
  case_match eqn:Hend; [by right|left].
  apply aton_parts_sound in E as (vs & Hd & _); [by exists vs|done|].
  unfold ends. destruct (Z.eqb_spec (deref rest) 0); [by left|right].
  by destruct (lwip_isspace (deref rest)).
Qed.

(** ** Properties: text *)

(** C29. [ip4addr_aton] accepts exactly the strings of one to four numbers in
    C notation, separated by dots and ended by NUL or white space, whose values
    (taken modulo 2^32) fit their fields; it then stores the address they
    denote, in network order.  The "unhandled" assertion never fails. *)
Theorem ip4addr_aton_correct s :
  cstring s ->
  exists r, ip4addr_aton s = Ok r /\
    forall a, r = Some a <->
      exists vs h, dotted s vs /\ address_value (map u32 vs) = Some h /\ a = lwip_htonl h.
Proof.
  intros Hs. destruct (aton_cases s Hs) as [[vs Hd]|E].
  - eexists. split; [by apply aton_dotted|]. intros a. split.
    + destruct (address_value (map u32 vs)) as [h|] eqn:Eh; [|done]. intros [= <-]. by exists vs, h.
    + intros (vs' & h & Hd' & Hv & ->). apply (aton_dotted s) in Hd, Hd'; [|done..].
      rewrite Hd' in Hd. injection Hd as <-. by rewrite Hv.
  - exists None. split; [done|]. intros a. split; [done|]. intros (vs & h & Hd & Hv & ->).
    rewrite (aton_dotted s vs), Hv in E by done. done.
Qed.

(** "0x7f.1 " is 127.0.0.1. *)
Lemma ip4addr_aton_correct_witness :
  exists r, ip4addr_aton [48; 120; 55; 102; 46; 49; 32] = Ok r /\ r = Some 0x0100007f /\
    forall a, r = Some a <->
      exists vs h, dotted [48; 120; 55; 102; 46; 49; 32] vs /\
        address_value (map u32 vs) = Some h /\ a = lwip_htonl h.
Proof.
  destruct (ip4addr_aton_correct [48; 120; 55; 102; 46; 49; 32]) as (r & E & H).
  - repeat constructor; done.
  - exists r. split; [done|]. split; [vm_compute in E; congruence|done].
Defined.

(** [ip4addr_ntoa_r] writes the dotted decimal text of the address and its
    NUL and returns the buffer when they fit, returns NULL when they do not, and
    never writes outside the buffer. *)
Theorem ip4addr_ntoa_r_correct addr buf :
  is_u32 addr ->
  exists buf', length buf' = length buf /\
    ip4addr_ntoa_r addr buf (Z.of_nat (length buf))
    = Ok (bool_decide (length (ip4_text addr) < length buf)%nat, buf') /\
    ((length (ip4_text addr) < length buf)%nat ->
     buf' = ip4_text addr ++ 0 :: drop (S (length (ip4_text addr))) buf).
Proof. apply ntoa_r_spec. Qed.

Lemma ip4addr_ntoa_r_correct_witness :
  exists buf', ip4addr_ntoa_r 0x0100007f [1; 2; 3] 3 = Ok (false, buf') /\ length buf' = 3%nat.
Proof.
  destruct (ip4addr_ntoa_r_correct 0x0100007f [1; 2; 3]) as (buf' & Hl & E & _); [done|].
  exists buf'. split; [exact E|exact Hl].
Defined.

(** C40. Parsing what [ip4addr_ntoa] prints into its static buffer gives the
    address back, for every address and whatever the buffer held. *)
Theorem ip4addr_roundtrip addr str :
  is_u32 addr -> Z.of_nat (length str) = IP4ADDR_STRLEN_MAX ->
  exists buf, ip4addr_ntoa addr str = Ok (true, buf) /\
    ip4addr_aton (cstr buf) = Ok (Some addr) /\ ipaddr_addr (cstr buf) = Ok addr.
Proof.
  intros Ha Hl. unfold ip4addr_ntoa. rewrite <-Hl. unfold IP4ADDR_STRLEN_MAX in Hl.
  pose proof (ip4_text_length addr). destruct (ip4_text_spec addr Ha) as (_ & Hc & Hr).
  destruct (ntoa_r_spec addr str Ha) as (buf & _ & -> & Hb).
  exists buf. rewrite bool_decide_true by lia. split; [done|].
  assert (cstr buf = ip4_text addr) as ->.
  { rewrite Hb by lia. apply cstr_app. eapply Forall_impl; [exact Hc|]. by intros ? [_ ?]. }
  split; [done|]. unfold ipaddr_addr. by rewrite Hr.
Qed.

Lemma ip4addr_roundtrip_witness :
  exists buf, ip4addr_ntoa 0xc700a8c0 (replicate 16 0) = Ok (true, buf) /\
    ip4addr_aton (cstr buf) = Ok (Some 0xc700a8c0) /\ ipaddr_addr (cstr buf) = Ok 0xc700a8c0.
Proof. apply (ip4addr_roundtrip 0xc700a8c0 (replicate 16 0)); done. Defined.

(** ** Netmasks and networks *)

Lemma land_bit nm i : 0 <= i -> (Z.land nm (2 ^ i) =? 0) = negb (Z.testbit nm i).
Proof.
  intros Hi. destruct (Z.testbit nm i) eqn:Hb; simpl.
  - apply Z.eqb_neq. intros H. apply (f_equal (fun z => Z.testbit z i)) in H.
    rewrite Z.land_spec, Hb, Z.pow2_bits_true, Z.bits_0 in H; done.
  - apply Z.eqb_eq, Z.bits_inj. intros j. rewrite Z.land_spec, Z.bits_0, Z.pow2_bits_eqb by done.
    destruct (Z.eqb_spec i j) as [->|]; [by rewrite Hb|by rewrite andb_false_r].
Qed.

(** The loop variable: bit [i - 1], or zero after bit 0. *)
Definition bit_mask (i : nat) : Z := match i with O => 0 | S i' => 2 ^ Z.of_nat i' end.

Lemma bit_mask_shift i : Z.shiftr (bit_mask (S i)) 1 = bit_mask i.
Proof.
  rewrite shiftr_div by lia. destruct i as [|i]; [done|]. cbn [bit_mask].
  rewrite Nat2Z.inj_succ, Z.pow_succ_r by lia. change (2 ^ 1) with 2.
  rewrite Z.mul_comm. by apply Z.div_mul.
Qed.

Lemma bit_mask_pos i : (bit_mask (S i) =? 0) = false.
Proof. simpl. apply Z.eqb_neq. lia. Qed.

Lemma skip_ones_spec fuel nm i :
  (i < fuel)%nat ->
  exists j, skip_ones fuel nm (bit_mask i) = bit_mask j /\ (j <= i)%nat /\
    (forall k, (j <= k < i)%nat -> Z.testbit nm (Z.of_nat k) = true) /\
    ((0 < j)%nat -> Z.testbit nm (Z.of_nat (j - 1)) = false).
Proof.
  revert i. induction fuel as [|fuel IH]; intros i Hi; [lia|].
  destruct i as [|i]; [by exists O; repeat split; try lia|].
  cbn [skip_ones]. rewrite bit_mask_pos, bit_mask_shift. cbn [bit_mask]. rewrite land_bit by lia.
  destruct (Z.testbit nm (Z.of_nat i)) eqn:Hb; simpl.
  - destruct (IH i) as (j & -> & Hj & Hones & Hz); [lia|]. exists j. repeat split; try done; [lia|].
    intros k Hk. destruct (decide (k = i)) as [->|]; [done|]. apply Hones. lia.
  - exists (S i). repeat split; [lia|lia|]. intros _. by replace (S i - 1)%nat with i by lia.
Qed.

Lemma only_zeros_spec fuel nm i :
  (i < fuel)%nat ->
  only_zeros fuel nm (bit_mask i) = true <->
  forall k, (k < i)%nat -> Z.testbit nm (Z.of_nat k) = false.
Proof.
  revert i. induction fuel as [|fuel IH]; intros i Hi; [lia|].
  destruct i as [|i]; [split; [lia|done]|].
  cbn [only_zeros]. rewrite bit_mask_pos, bit_mask_shift. cbn [bit_mask]. rewrite land_bit by lia.
  destruct (Z.testbit nm (Z.of_nat i)) eqn:Hb; simpl.
  - split; [done|]. intros H. rewrite H in Hb by lia. done.
  - rewrite IH by lia. split.
    + intros H k Hk. destruct (decide (k = i)) as [->|]; [done|]. apply H. lia.
    + intros H k Hk. apply H. lia.
Qed.

(** The mask of a [k]-bit prefix, in host order. *)
Definition prefix_mask (k : Z) : Z := Z.shiftl (Z.ones k) (32 - k).

Lemma prefix_mask_bits k i :
  0 <= k <= 32 -> 0 <= i -> Z.testbit (prefix_mask k) i = (32 - k <=? i) && (i <? 32).
Proof.
  intros Hk Hi. unfold prefix_mask. rewrite Z.shiftl_spec by done.
  destruct (Z.leb_spec (32 - k) i); simpl.
  - destruct (Z.ltb_spec i 32); [apply Z.ones_spec_low; lia|apply Z.ones_spec_high; lia].
  - apply Z.testbit_neg_r. lia.
Qed.

Lemma u32_high_bits x i : is_u32 x -> 32 <= i -> Z.testbit x i = false.
Proof.
  intros Hx Hi. rewrite <-(Z.mod_small x (2 ^ 32)) by done. by apply Z.mod_pow2_bits_high.
Qed.

Lemma netmask_valid_bits nm :
  ip4_addr_netmask_valid nm = true <->
  exists k, 0 <= k <= 32 /\ lwip_htonl nm = prefix_mask k.
Proof.
  unfold ip4_addr_netmask_valid. pose proof (htonl_range nm) as Hr.
  set (h := lwip_htonl nm) in *. change (Z.shiftl 1 31) with (bit_mask 32).
  destruct (skip_ones_spec 33 h 32) as (j & -> & Hj & Hones & Hz); [lia|].
  rewrite only_zeros_spec by lia. split.
  - intros Hzeros. exists (32 - Z.of_nat j). split; [lia|]. apply Z.bits_inj'. intros i Hi.
    rewrite prefix_mask_bits by lia.
    destruct (Z.ltb_spec i 32); [|rewrite andb_false_r; by apply u32_high_bits].
    rewrite andb_true_r. rewrite <-(Z2Nat.id i) at 1 by done. destruct (Z.leb_spec (32 - (32 - Z.of_nat j)) i).
    + apply Hones. lia.
    + apply Hzeros. lia.
  - intros (k & Hk & E) i Hi. destruct (decide (0 < j)%nat); [|lia]. specialize (Hz ltac:(lia)).
    rewrite E, prefix_mask_bits in Hz |- * by lia.
    apply andb_false_iff. apply andb_false_iff in Hz as [Hz|Hz]; lia.
Qed.

(** Byte order commutes with bitwise operations. *)
Lemma htonl_bits x i :
  is_u32 x -> 0 <= i < 32 -> Z.testbit (lwip_htonl x) i = Z.testbit x (8 * (3 - i / 8) + i mod 8).
Proof.
  intros Hx Hi. unfold lwip_htonl, PP_HTONL, u32.
  rewrite <-(Z.land_ones _ 32), Z.land_spec, Z.ones_spec_low, andb_true_r by lia.
  assert (Hc : exists n, (n < 32)%nat /\ i = Z.of_nat n) by (exists (Z.to_nat i); lia).
  destruct Hc as (n & Hn & ->). clear Hi.
  rewrite !Z.lor_spec, !Z.shiftl_spec, !Z.shiftr_spec, !Z.land_spec by lia.
  do 32 (destruct n as [|n];
    [rewrite ?(Z.testbit_neg_r x) by lia; generalize (Z.testbit x); intros f; vm_compute; btauto|]).
  lia.
Qed.

Lemma u32_bits_eq x y :
  is_u32 x -> is_u32 y -> x = y <-> forall i, 0 <= i < 32 -> Z.testbit x i = Z.testbit y i.
Proof.
  intros Hx Hy. split; [by intros ->|]. intros H. apply Z.bits_inj'. intros i Hi.
  destruct (Z.lt_ge_cases i 32); [by apply H|]. by rewrite !u32_high_bits.
Qed.

Lemma land_u32 x y : is_u32 x -> is_u32 (Z.land x y).
Proof.
  intros Hx. unfold is_u32. change 4294967296 with (2 ^ 32).
  rewrite <-(Z.mod_small x (2 ^ 32)) by done.
  rewrite <-Z.land_ones, (Z.land_comm x), <-Z.land_assoc, Z.land_comm, Z.land_ones by lia.
  by apply Z.mod_pos_bound.
Qed.

Lemma u32_lnot_bits x i : 0 <= i < 32 -> Z.testbit (u32 (Z.lnot x)) i = negb (Z.testbit x i).
Proof.
  intros Hi. unfold u32. change 4294967296 with (2 ^ 32).
  rewrite Z.mod_pow2_bits_low by lia. apply Z.lnot_spec. lia.
Qed.

Lemma htonl_land x y :
  is_u32 x -> is_u32 y -> lwip_htonl (Z.land x y) = Z.land (lwip_htonl x) (lwip_htonl y).
Proof.
  intros Hx Hy. apply u32_bits_eq; [auto with lwip|apply land_u32; auto with lwip|].
  intros i Hi. rewrite Z.land_spec, !htonl_bits by auto using land_u32. apply Z.land_spec.
Qed.

Lemma htonl_lnot x : is_u32 x -> lwip_htonl (u32 (Z.lnot x)) = u32 (Z.lnot (lwip_htonl x)).
Proof.
  intros Hx. apply u32_bits_eq; auto with lwip. intros i Hi.
  rewrite u32_lnot_bits, !htonl_bits by auto with lwip. apply u32_lnot_bits. words.
Qed.

Lemma htonl_inj x y : is_u32 x -> is_u32 y -> lwip_htonl x = lwip_htonl y <-> x = y.
Proof.
  intros Hx Hy. split; [|by intros ->]. intros E. apply le_bytes_inj; [done..|].
  apply (f_equal (le_bytes 4)) in E. rewrite !htonl_bytes in E by done.
  apply (f_equal (@rev Z)) in E. by rewrite !rev_involutive in E.
Qed.

Lemma land_prefix k x :
  0 <= k <= 32 -> is_u32 x -> Z.land x (prefix_mask k) = x / 2 ^ (32 - k) * 2 ^ (32 - k).
Proof.
  intros Hk Hx. unfold prefix_mask. rewrite land_field by lia. f_equal. apply Z.mod_small.
  split; [apply Z.div_pos; unfold is_u32 in Hx; lia|]. apply Z.div_lt_upper_bound; [lia|].
  rewrite <-Z.pow_add_r by lia. replace (32 - k + k) with 32 by lia. apply Hx.
Qed.

Lemma lnot_prefix k : 0 <= k <= 32 -> u32 (Z.lnot (prefix_mask k)) = Z.ones (32 - k).
Proof.
  intros Hk. apply Z.bits_inj'. intros i Hi. destruct (Z.lt_ge_cases i 32).
  - rewrite u32_lnot_bits, prefix_mask_bits, Z.testbit_ones_nonneg by lia. lia.
  - rewrite u32_high_bits, Z.ones_spec_high by auto with lwip || lia. done.
Qed.

Section network.
Context (k mask : Z) (Hk : 0 <= k <= 32) (Hm : is_u32 mask) (Hmask : lwip_htonl mask = prefix_mask k).

Lemma net_eq_prefix a b :
  is_u32 a -> is_u32 b ->
  ip4_addr_net_eq a b mask = true <->
  lwip_htonl a / 2 ^ (32 - k) = lwip_htonl b / 2 ^ (32 - k).
Proof.
  intros Ha Hb. unfold ip4_addr_net_eq. rewrite Z.eqb_eq.
  rewrite <-htonl_inj, !htonl_land, Hmask by auto using land_u32.
  rewrite !land_prefix by auto with lwip. assert (0 < 2 ^ (32 - k)) by lia. nia.
Qed.

Lemma host_ones a :
  is_u32 a ->
  (Z.land a (u32 (Z.lnot mask)) =? Z.land IPADDR_BROADCAST (u32 (Z.lnot mask))) = true <->
  lwip_htonl a mod 2 ^ (32 - k) = 2 ^ (32 - k) - 1.
Proof.
  intros Ha. rewrite Z.eqb_eq. assert (is_u32 IPADDR_BROADCAST) by done.
  rewrite <-htonl_inj, !htonl_land, htonl_lnot, Hmask, lnot_prefix
    by auto using land_u32 with lwip.
  change (lwip_htonl IPADDR_BROADCAST) with (Z.ones 32).
  rewrite (Z.land_comm (Z.ones 32)), !Z.land_ones by lia.
  rewrite (Z.mod_small (Z.ones (32 - k))), Z.ones_equiv; [done|]. rewrite Z.ones_equiv.
  pose proof (Z.pow_le_mono_r 2 (32 - k) 32). lia.
Qed.
End network.

(** ** Properties: networks *)

(** [ip4_addr_netmask_valid] accepts exactly the 33 masks that are, in host
    order, [k] ones followed by zeros. *)
Theorem ip4_addr_netmask_valid_correct nm :
  ip4_addr_netmask_valid nm = true <->
  exists k, 0 <= k <= 32 /\ lwip_htonl nm = prefix_mask k.
Proof. apply netmask_valid_bits. Qed.

(** On an interface with a valid netmask of [k] bits, an address is a
    broadcast address iff it is all zeros or all ones, or the interface can
    broadcast and the address is not its own, lies in its network and has
    all host bits set. *)
Theorem ip4_addr_isbroadcast_correct addr nif :
  is_u32 addr -> is_u32 (nif_ip nif) -> is_u32 (nif_netmask nif) ->
  ip4_addr_netmask_valid (nif_netmask nif) = true ->
  exists k, 0 <= k <= 32 /\ lwip_htonl (nif_netmask nif) = prefix_mask k /\
    (ip4_addr_isbroadcast_u32 addr nif = true <->
     addr = 0 \/ addr = 0xffffffff \/
     (Z.testbit (nif_flags nif) 1 = true /\ addr <> nif_ip nif /\
      lwip_htonl addr / 2 ^ (32 - k) = lwip_htonl (nif_ip nif) / 2 ^ (32 - k) /\
      lwip_htonl addr mod 2 ^ (32 - k) = 2 ^ (32 - k) - 1)).
Proof.
  intros Ha Hip Hm (k & Hk & Hmask)%netmask_valid_bits. exists k. do 2 (split; [done|]).
  unfold ip4_addr_isbroadcast_u32.
  assert ((u32 (Z.lnot addr) =? IPADDR_ANY) = (addr =? 0xffffffff)) as ->.
  { unfold IPADDR_ANY, Z.lnot, is_u32 in *. words. }
  unfold IPADDR_ANY. change NETIF_FLAG_BROADCAST with (2 ^ 1). rewrite land_bit by lia.
  destruct (Z.eqb_spec addr 0xffffffff); [tauto|]. destruct (Z.eqb_spec addr 0); [tauto|].
  cbn [orb]. destruct (Z.testbit (nif_flags nif) 1); cbn [negb]; [|intuition congruence].
  destruct (Z.eqb_spec addr (nif_ip nif)); [intuition congruence|].
  rewrite <-(net_eq_prefix k (nif_netmask nif)), <-(host_ones k (nif_netmask nif)) by done.
  destruct (ip4_addr_net_eq _ _ _), (Z.land addr _ =? _); simpl; intuition congruence.
Qed.

(** 192.168.0.255 on 192.168.0.1/24. *)
Lemma ip4_addr_isbroadcast_correct_witness :
  exists k, 0 <= k <= 32 /\ lwip_htonl 0x00ffffff = prefix_mask k /\
    (ip4_addr_isbroadcast_u32 0xff00a8c0
       {| nif_flags := 2; nif_ip := 0x0100a8c0; nif_netmask := 0x00ffffff |} = true <->
     0xff00a8c0 = 0 \/ 0xff00a8c0 = 0xffffffff \/
     (Z.testbit 2 1 = true /\ 0xff00a8c0 <> 0x0100a8c0 /\
      lwip_htonl 0xff00a8c0 / 2 ^ (32 - k) = lwip_htonl 0x0100a8c0 / 2 ^ (32 - k) /\
      lwip_htonl 0xff00a8c0 mod 2 ^ (32 - k) = 2 ^ (32 - k) - 1)).
Proof.
  apply (ip4_addr_isbroadcast_correct 0xff00a8c0
    {| nif_flags := 2; nif_ip := 0x0100a8c0; nif_netmask := 0x00ffffff |}); done.
Defined.
