(* ===== verification/Memp.v ===== *)
(** * Memory pools (core/memp.c, include/lwip/memp.h, include/lwip/priv/memp_priv.h)

    Each pool is an array of [num] elements of [size] bytes; the free ones form
    a linked list threaded through the elements themselves ([MEMP_SIZE] is 0,
    so the link word is the first word of the user's memory).  The state is
    the memory of link words, the list heads [*desc->tab] and the statistics.

    [Pool] is the interface the other components use: what [memp_malloc] and
    [memp_free] promise for one pool type. *)

From S2P Require Import Prelude.

Definition MEM_ALIGNMENT : Z := 1.
Definition LWIP_MEM_ALIGN_SIZE (size : Z) : Z :=
  Z.land (size + MEM_ALIGNMENT - 1) (Z.lnot (MEM_ALIGNMENT - 1)).
Definition LWIP_MEM_ALIGN (addr : Z) : Z :=
  Z.land (addr + MEM_ALIGNMENT - 1) (Z.lnot (MEM_ALIGNMENT - 1)).
Definition MEMP_SIZE : Z := 0.

(** The constant part of [struct memp_desc]. *)
Record memp_desc := { desc_size : Z; desc_num : nat; desc_base : Z }.

(** [struct stats_mem]; [err] and [illegal] are 16-bit counters, the others of
    type [mem_size_t], here [size_t]. *)
Record stats_mem := {
  st_err : Z; st_avail : Z; st_used : Z; st_max : Z; st_illegal : Z
}.

(** Link words by element address (0 is NULL), [*desc->tab] and [*desc->stats]
    by pool number. *)
Record memp_state := {
  links : gmap Z Z; tab : list Z; stats : list stats_mem
}.

Section memp.
(** [memp_pools]. *)
Context (memp_pools : list memp_desc).

(** ** Initialisation *)

(** The loop that threads the elements: the last one becomes the head. *)
Fixpoint init_links (n : nat) (memp size head : Z) (lk : gmap Z Z) : gmap Z Z * Z :=
  match n with
  | O => (lk, head)
  | S n' => init_links n' (memp + MEMP_SIZE + size) size memp (<[memp := head]> lk)
  end.

Definition stats_init (st : stats_mem) (num : Z) : stats_mem :=
  {| st_err := st_err st; st_avail := num; st_used := st_used st;
     st_max := st_max st; st_illegal := st_illegal st |}.

Definition memp_init_pool (i : nat) (desc : memp_desc) (s : memp_state) : memp_state :=
  let '(lk, head) :=
    init_links (desc_num desc) (LWIP_MEM_ALIGN (desc_base desc)) (desc_size desc) 0 (links s) in
  {| links := lk; tab := <[i := head]> (tab s);
     stats := alter (fun st => stats_init st (Z.of_nat (desc_num desc))) i (stats s) |}.

Fixpoint memp_init_from (i : nat) (pools : list memp_desc) (s : memp_state) : memp_state :=
  match pools with
  | [] => s
  | desc :: pools' => memp_init_from (S i) pools' (memp_init_pool i desc s)
  end.

Definition memp_init (s : memp_state) : memp_state := memp_init_from 0 memp_pools s.

(** ** Allocation *)

Definition stats_take (st : stats_mem) : stats_mem :=
  let used := u64 (st_used st + 1) in
  {| st_err := st_err st; st_avail := st_avail st; st_used := used;
     st_max := if st_max st <? used then used else st_max st; st_illegal := st_illegal st |}.
Definition stats_err (st : stats_mem) : stats_mem :=
  {| st_err := u16 (st_err st + 1); st_avail := st_avail st; st_used := st_used st;
     st_max := st_max st; st_illegal := st_illegal st |}.
Definition stats_give (st : stats_mem) : stats_mem :=
  {| st_err := st_err st; st_avail := st_avail st; st_used := u64 (st_used st - 1);
     st_max := st_max st; st_illegal := st_illegal st |}.

Definition next_of (lk : gmap Z Z) (memp : Z) : outcome Z :=
  match lk !! memp with Some n => Ok n | None => Fault end.

Definition do_memp_malloc_pool (i : nat) (s : memp_state) : outcome (Z * memp_state) :=
  memp ← load (tab s) i;
  if negb (memp =? 0) then
    next ← next_of (links s) memp;
    _ ← assert_that (memp mod MEM_ALIGNMENT =? 0);
    Ok (memp + MEMP_SIZE,
        {| links := links s; tab := <[i := next]> (tab s);
           stats := alter stats_take i (stats s) |})
  else
    Ok (0, {| links := links s; tab := tab s; stats := alter stats_err i (stats s) |}).

Definition memp_malloc (type : nat) (s : memp_state) : outcome (Z * memp_state) :=
  if negb (type <? length memp_pools)%nat then Ok (0, s)
  else do_memp_malloc_pool type s.

(** ** Release *)

Definition do_memp_free_pool (i : nat) (mem : Z) (s : memp_state) : outcome memp_state :=
  _ ← assert_that (mem mod MEM_ALIGNMENT =? 0);
  let memp := mem - MEMP_SIZE in
  old ← load (tab s) i;
  Ok {| links := <[memp := old]> (links s); tab := <[i := memp]> (tab s);
        stats := alter stats_give i (stats s) |}.

Definition memp_free (type : nat) (mem : Z) (s : memp_state) : outcome memp_state :=
  if negb (type <? length memp_pools)%nat then Ok s
  else if mem =? 0 then Ok s
  else do_memp_free_pool type mem s.

(** [memp_malloc_pool] and [memp_free_pool] take the descriptor itself, here
    by its number or as NULL. *)
Definition memp_malloc_pool (desc : option nat) (s : memp_state) : outcome (Z * memp_state) :=
  match desc with
  | None => Panic
  | Some i => do_memp_malloc_pool i s
  end.
Definition memp_free_pool (desc : option nat) (mem : Z) (s : memp_state) : outcome memp_state :=
  match desc with
  | None => Panic
  | Some i => if mem =? 0 then Ok s else do_memp_free_pool i mem s
  end.

(** A client writes into an element it holds, over the link word. *)
Definition scribble (mem v : Z) (s : memp_state) : memp_state :=
  {| links := <[mem := v]> (links s); tab := tab s; stats := stats s |}.

(** ** The invariant *)

(** The addresses of a pool's elements. *)
Definition elements (d : memp_desc) : list Z :=
  map (fun k => desc_base d + Z.of_nat k * desc_size d) (seq 0 (desc_num d)).

(** [l] is the list threaded from [head]. *)
Fixpoint chain (lk : gmap Z Z) (head : Z) (l : list Z) : Prop :=
  match l with
  | [] => head = 0
  | p :: l' => head = p /\ p <> 0 /\ exists n, lk !! p = Some n /\ chain lk n l'
  end.

(** Pool [i] when its elements in [A] are in use. *)
Definition pool_inv (i : nat) (d : memp_desc) (A : gset Z) (s : memp_state) : Prop :=
  exists head st l, tab s !! i = Some head /\ stats s !! i = Some st /\
    chain (links s) head l /\ NoDup l /\
    (forall p, p ∈ l <-> p ∈ elements d /\ p ∉ A) /\
    st_used st = Z.of_nat (desc_num d) - Z.of_nat (length l) /\ st_used st <= st_max st.

(** Every element in use belongs to a pool. *)
Definition memp_inv (A : gset Z) (s : memp_state) : Prop :=
  (forall i d, memp_pools !! i = Some d -> pool_inv i d A s) /\
  (forall p, p ∈ A -> exists i d, memp_pools !! i = Some d /\ p ∈ elements d).

(** What the linker guarantees of the pools' memory: elements large enough for
    a link word, counts that fit the [u16_t], no two pools overlapping. *)
Record pools_wf : Prop := {
  wf_pool i d : memp_pools !! i = Some d ->
    0 < desc_base d /\ 8 <= desc_size d /\ Z.of_nat (desc_num d) < 65536;
  wf_disjoint i j d d' p : memp_pools !! i = Some d -> memp_pools !! j = Some d' ->
    p ∈ elements d -> p ∈ elements d' -> i = j
}.

(** ** Lists of elements *)

Lemma align_id x : LWIP_MEM_ALIGN x = x.
Proof.
  unfold LWIP_MEM_ALIGN, MEM_ALIGNMENT. change (Z.lnot (1 - 1)) with (-1).
  rewrite Z.land_m1_r. lia.
Qed.

Lemma elem_of_elements d p :
  p ∈ elements d <-> exists k, (k < desc_num d)%nat /\ p = desc_base d + Z.of_nat k * desc_size d.
Proof.
  unfold elements. rewrite list_elem_of_fmap. setoid_rewrite elem_of_seq.
  split; intros (k & ? & ?); exists k; (split; [lia|lia]) || (split; [done|lia]).
Qed.

Lemma chain_ext lk lk' head l :
  (forall p, p ∈ l -> lk' !! p = lk !! p) -> chain lk head l -> chain lk' head l.
Proof.
  revert head. induction l as [|p l IH]; intros head Hlk; simpl; [done|].
  intros (-> & Hp & n & Hn & Hl). split; [done|]. split; [done|]. exists n.
  rewrite Hlk by set_solver. split; [done|]. apply IH; [set_solver|done].
Qed.

Lemma chain_insert lk head l p v : p ∉ l -> chain lk head l -> chain (<[p := v]> lk) head l.
Proof.
  intros Hp. apply chain_ext. intros q Hq. apply lookup_insert_ne. set_solver.
Qed.

(** The initialisation loop prepends the elements it passes. *)
Lemma init_links_chain n memp size head lk l :
  0 < memp -> 0 < size -> chain lk head l ->
  let new := map (fun k => memp + Z.of_nat k * size) (seq 0 n) in
  (forall p, p ∈ l -> p ∉ new) ->
  let '(lk', head') := init_links n memp size head lk in
  chain lk' head' (rev new ++ l) /\ (forall p, p ∉ new -> lk' !! p = lk !! p).
Proof.
  intros Hm Hs. revert memp head lk l Hm. induction n as [|n IH]; intros memp head lk l Hm Hc new Hl.
  - split; [exact Hc|done].
  - set (new' := map (fun k => memp + size + Z.of_nat k * size) (seq 0 n)).
    assert (Hnew : new = memp :: new').
    { unfold new, new'. simpl. f_equal; [lia|]. rewrite <-seq_shift, map_map.
      apply map_ext. intros k. lia. }
    assert (Hnot : memp ∉ new').
    { unfold new'. rewrite list_elem_of_fmap. intros (k & ? & _). lia. }
    rewrite Hnew in Hl |- *. cbn [init_links]. unfold MEMP_SIZE. rewrite Z.add_0_r.
    specialize (IH (memp + size) memp (<[memp := head]> lk) (memp :: l)). cbn zeta in IH.
    fold new' in IH. destruct (init_links n _ _ _ _) as [lk' head'].
    destruct IH as [Hch Hfr].
    + lia.
    + simpl. split; [done|]. split; [lia|]. exists head. rewrite lookup_insert_eq.
      split; [done|]. apply chain_insert; [set_solver|done].
    + set_solver.
    + split.
      * simpl. by rewrite <-app_assoc.
      * intros p Hp. rewrite Hfr by set_solver. apply lookup_insert_ne. set_solver.
Qed.

Lemma pool_inv_frame i d A A' s s' :
  pool_inv i d A s ->
  tab s' !! i = tab s !! i -> stats s' !! i = stats s !! i ->
  (forall p, p ∈ elements d -> p ∉ A -> links s' !! p = links s !! p) ->
  (forall p, p ∈ elements d -> p ∈ A' <-> p ∈ A) ->
  pool_inv i d A' s'.
Proof.
  intros (head & st & l & Ht & Hst & Hc & Hnd & Hl & Hu) Et Es El HA.
  exists head, st, l. rewrite Et, Es. do 2 (split; [done|]).
  split; [apply (chain_ext (links s)); [|done]; intros p Hp; apply El; by apply Hl|].
  split; [done|]. split; [|done]. intros p. rewrite Hl. naive_solver.
Qed.

(** ** Each operation keeps the invariant *)

Context (Hwf : pools_wf).

Lemma elements_nonzero i d p : memp_pools !! i = Some d -> p ∈ elements d -> p <> 0.
Proof.
  intros Hd (k & _ & ->)%elem_of_elements. apply (wf_pool Hwf) in Hd. nia.
Qed.

Lemma elements_NoDup i d : memp_pools !! i = Some d -> NoDup (elements d).
Proof.
  intros Hd%(wf_pool Hwf). unfold elements. apply NoDup_fmap; [|apply NoDup_seq].
  intros k k' E. nia.
Qed.

Lemma pool_length i d (A : gset Z) l :
  memp_pools !! i = Some d -> NoDup l -> (forall p, p ∈ l <-> p ∈ elements d /\ p ∉ A) ->
  (length l <= desc_num d)%nat.
Proof.
  intros Hd Hnd Hl. transitivity (length (elements d)).
  - apply submseteq_length, NoDup_submseteq; [done|]. intros p Hp. by apply Hl.
  - unfold elements. by rewrite length_map, length_seq.
Qed.

Lemma lookup_alter_ne' {A} (f : A -> A) (l : list A) i j : i <> j -> alter f i l !! j = l !! j.
Proof. apply list_lookup_alter_ne. Qed.

(** Changing pool [i] alone leaves the invariant of the others. *)
Lemma memp_inv_update i d A A' s s' :
  memp_pools !! i = Some d -> memp_inv A s -> pool_inv i d A' s' ->
  (forall j, j <> i -> tab s' !! j = tab s !! j /\ stats s' !! j = stats s !! j) ->
  (forall p, p ∉ elements d -> links s' !! p = links s !! p /\ (p ∈ A' <-> p ∈ A)) ->
  memp_inv A' s'.
Proof.
  intros Hd [Hp HA] Hi Hj Hq. split.
  - intros j d' Hd'. destruct (decide (j = i)) as [->|Hne]; [congruence|].
    assert (Hdis : forall p, p ∈ elements d' -> p ∉ elements d).
    { intros p H H'. apply Hne. by eapply (wf_disjoint Hwf); [exact Hd'|exact Hd|..]. }
    destruct (Hj j Hne) as [Ht Hs]. apply (pool_inv_frame j d' A A' s s'); auto.
    + intros p H _. by apply Hq, Hdis.
    + intros p H. by apply Hq, Hdis.
  - intros p H. destruct (decide (p ∈ elements d)); [by exists i, d|]. apply HA. by apply Hq.
Qed.

(** [memp_malloc]: an element nobody holds, or NULL when all are held. *)
Lemma memp_malloc_spec type d A s :
  memp_pools !! type = Some d -> memp_inv A s ->
  exists p s', memp_malloc type s = Ok (p, s') /\
    ((p = 0 /\ (forall q, q ∈ elements d -> q ∈ A) /\ memp_inv A s') \/
     (p ∈ elements d /\ (p ∉ A) /\ memp_inv ({[p]} ∪ A) s')).
Proof.
  intros Hd Hinv. assert (Hi := Hinv). destruct Hi as [Hi _].
  destruct (Hi _ _ Hd) as (head & st & l & Ht & Hst & Hc & Hnd & Hl & Hu & Hm).
  pose proof (pool_length _ _ _ _ Hd Hnd Hl) as Hlen. apply (wf_pool Hwf) in Hd as Hw.
  unfold memp_malloc, do_memp_malloc_pool, load. apply lookup_lt_Some in Hd as Hlt.
  apply Nat.ltb_lt in Hlt as ->. rewrite Ht. cbn [negb mbind outcome_bind].
  destruct l as [|p l]; simpl in Hc.
  - subst head. eexists 0, _. split; [done|]. left. split; [done|]. split.
    + intros q Hq. destruct (decide (q ∈ A)); [done|]. assert (q ∈ []) by (by apply Hl). set_solver.
    + apply (memp_inv_update type d A A s); [done..| | |done].
      * exists 0, (stats_err st), []. split; [done|].
        split; [simpl; by rewrite list_lookup_alter_eq, Hst|]. by do 2 (split; [done|]).
      * intros j Hj. split; [done|]. by apply lookup_alter_ne'.
  - destruct Hc as (-> & Hp0 & n & Hn & Hc). apply NoDup_cons in Hnd as [Hpl Hnd].
    replace (p =? 0) with false by lia. unfold next_of. rewrite Hn. cbn [negb mbind outcome_bind].
    unfold MEM_ALIGNMENT, MEMP_SIZE. rewrite Z.mod_1_r, Z.add_0_r. simpl.
    eexists p, _. split; [done|]. right.
    destruct (proj1 (Hl p) ltac:(set_solver)) as [Hpe HpA]. do 2 (split; [done|]).
    apply (memp_inv_update type d A _ s); [done..| | |].
    + exists n, (stats_take st), l. simpl in *.
      split; [apply list_lookup_insert_eq; by eapply lookup_lt_Some|].
      split; [by rewrite list_lookup_alter_eq, Hst|]. do 2 (split; [done|]). split.
      * intros q. specialize (Hl q). rewrite elem_of_cons in Hl. set_solver.
      * unfold u64. rewrite Z.mod_small by lia. split; [lia|]. case_match; lia.
    + intros j Hj. simpl. rewrite list_lookup_insert_ne by done. split; [done|]. by apply lookup_alter_ne'.
    + intros q Hq. split; [done|]. set_solver.
Qed.

(** [memp_free] of an element in use puts it at the head of the list. *)
Lemma memp_free_spec type d A s p :
  memp_pools !! type = Some d -> memp_inv A s -> p ∈ elements d -> p ∈ A ->
  exists s', memp_free type p s = Ok s' /\ memp_inv (A ∖ {[p]}) s' /\
    tab s' !! type = Some p.
Proof.
  intros Hd Hinv Hpe HpA. assert (Hi := Hinv). destruct Hi as [Hi _].
  destruct (Hi _ _ Hd) as (head & st & l & Ht & Hst & Hc & Hnd & Hl & Hu & Hm).
  apply (wf_pool Hwf) in Hd as Hw. pose proof (elements_nonzero _ _ _ Hd Hpe) as Hp0.
  assert (Hnl : p ∉ l) by (rewrite Hl; tauto).
  assert (Hlen : (length (p :: l) <= desc_num d)%nat).
  { apply (pool_length type d (A ∖ {[p]})); [done|by apply NoDup_cons|].
    intros q. rewrite elem_of_cons, Hl, elem_of_difference, elem_of_singleton.
    destruct (decide (q = p)) as [->|]; tauto. }
  unfold memp_free, do_memp_free_pool, load. apply lookup_lt_Some in Hd as Hlt.
  apply Nat.ltb_lt in Hlt as ->. replace (p =? 0) with false by lia.
  unfold MEM_ALIGNMENT, MEMP_SIZE. rewrite Z.mod_1_r, Z.sub_0_r, Ht.
  cbn [negb mbind outcome_bind assert_that Z.eqb].
  eexists. split; [done|]. apply lookup_lt_Some in Ht as Htl. split;
    [|by apply list_lookup_insert_eq].
  apply (memp_inv_update type d A _ s); [done..| | |].
  - exists p, (stats_give st), (p :: l). simpl.
    split; [by apply list_lookup_insert_eq|].
    split; [by rewrite list_lookup_alter_eq, Hst|].
    split; [do 2 (split; [done|]); exists head; rewrite lookup_insert_eq;
            split; [done|by apply chain_insert]|].
    split; [by apply NoDup_cons|]. split; [intros q; rewrite elem_of_cons, Hl, elem_of_difference, elem_of_singleton;
      destruct (decide (q = p)) as [->|]; tauto|].
    simpl in Hlen. unfold u64. rewrite Z.mod_small by lia. lia.
  - intros j Hj. simpl. rewrite list_lookup_insert_ne by done. split; [done|]. by apply lookup_alter_ne'.
  - intros q Hq. simpl. rewrite lookup_insert_ne by congruence. split; [done|].
    rewrite elem_of_difference, elem_of_singleton. split; [tauto|]. intros HqA. split; congruence.
Qed.

(** What a client writes into its own elements does no harm. *)
Lemma scribble_spec A s p v : memp_inv A s -> p ∈ A -> memp_inv A (scribble p v s).
Proof.
  intros [Hp HA] Hin. split; [|done]. intros i d Hd. apply (pool_inv_frame i d A A s); auto.
  intros q _ Hq. apply lookup_insert_ne. congruence.
Qed.

(** ** Initialisation establishes it *)

Lemma memp_init_pool_inv i d s :
  memp_pools !! i = Some d -> (i < length (tab s))%nat ->
  (exists st, stats s !! i = Some st /\ st_used st = 0 /\ 0 <= st_max st) ->
  pool_inv i d ∅ (memp_init_pool i d s) /\
  (forall j, j <> i -> tab (memp_init_pool i d s) !! j = tab s !! j /\
                      stats (memp_init_pool i d s) !! j = stats s !! j) /\
  (forall p, p ∉ elements d -> links (memp_init_pool i d s) !! p = links s !! p) /\
  length (tab (memp_init_pool i d s)) = length (tab s).
Proof.
  intros Hd Hi (st & Hst & Hu & Hm). unfold memp_init_pool. rewrite align_id.
  apply (wf_pool Hwf) in Hd as Hw. pose proof (elements_NoDup _ _ Hd) as Hnd.
  pose proof (init_links_chain (desc_num d) (desc_base d) (desc_size d) 0 (links s) []) as H.
  destruct (init_links _ _ _ _ _) as [lk head]. fold (elements d) in H.
  destruct H as [Hc Hfr]; [lia|lia|done|set_solver|]. rewrite app_nil_r in Hc. simpl.
  split; [|split; [|by rewrite length_insert]].
  - exists head, (stats_init st (Z.of_nat (desc_num d))), (rev (elements d)). simpl.
    split; [by apply list_lookup_insert_eq|]. split; [by rewrite list_lookup_alter_eq, Hst|].
    split; [done|]. split; [by rewrite <-Permutation_rev|].
    split; [intros p; rewrite <-Permutation_rev; set_solver|].
    rewrite length_rev. unfold elements. rewrite length_map, length_seq. lia.
  - intros j Hj. rewrite list_lookup_insert_ne by done. split; [done|]. by apply lookup_alter_ne'.
Qed.

(** The static data before [memp_init]: all counters zero. *)
Definition boot (s : memp_state) : Prop :=
  length (tab s) = length memp_pools /\
  forall i d, memp_pools !! i = Some d ->
    exists st, stats s !! i = Some st /\ st_used st = 0 /\ 0 <= st_max st.

Lemma memp_init_from_inv i pools s :
  drop i memp_pools = pools -> length (tab s) = length memp_pools ->
  (forall j d, (j < i)%nat -> memp_pools !! j = Some d -> pool_inv j d ∅ s) ->
  (forall j d, (i <= j)%nat -> memp_pools !! j = Some d ->
    exists st, stats s !! j = Some st /\ st_used st = 0 /\ 0 <= st_max st) ->
  forall j d, memp_pools !! j = Some d -> pool_inv j d ∅ (memp_init_from i pools s).
Proof.
  revert i s. induction pools as [|desc pools IH]; intros i s Hdrop Hlen Hdone Htodo j d Hj; simpl.
  - apply Hdone; [|done]. apply lookup_lt_Some in Hj.
    apply (f_equal length) in Hdrop. rewrite length_drop in Hdrop. simpl in Hdrop. lia.
  - assert (Hi : memp_pools !! i = Some desc).
    { rewrite <-(Nat.add_0_r i), <-lookup_drop, Hdrop. done. }
    destruct (memp_init_pool_inv i desc s Hi) as (Hnew & Hother & Hlk & Hl');
      [by rewrite Hlen; eapply lookup_lt_Some|by apply (Htodo i desc)|].
    apply IH; [|by rewrite Hl'| | |done].
    + rewrite <-Nat.add_1_r, <-drop_drop, Hdrop. done.
    + intros j' d' Hlt Hj'. destruct (decide (j' = i)) as [->|Hne]; [congruence|].
      destruct (Hother j' Hne). apply (pool_inv_frame j' d' ∅ ∅ s); auto; [apply Hdone; [lia|done]|].
      intros p Hp _. apply Hlk. intros Hp'. apply Hne. by eapply (wf_disjoint Hwf); [exact Hj'|exact Hi|..].
    + intros j' d' Hle Hj'. destruct (Hother j') as [_ ->]; [lia|]. apply (Htodo j' d'); [lia|done].
Qed.

Lemma memp_init_inv s : boot s -> memp_inv ∅ (memp_init s).
Proof.
  intros [Hl Hs]. split; [|set_solver].
  apply memp_init_from_inv; [by rewrite drop_0|done|lia|]. intros j d _. apply Hs.
Qed.

(** ** Runs *)

(** The operations of clients that free only what they hold, with the set of
    elements in use. *)
Inductive step : gset Z * memp_state -> gset Z * memp_state -> Prop :=
| step_malloc A s type p s' :
    memp_malloc type s = Ok (p, s') ->
    step (A, s) ((if p =? 0 then A else {[p]} ∪ A), s')
| step_free A s type d p s' :
    memp_pools !! type = Some d -> p ∈ elements d -> p ∈ A ->
    memp_free type p s = Ok s' -> step (A, s) (A ∖ {[p]}, s')
| step_write A s p v :
    p ∈ A -> step (A, s) (A, scribble p v s).

Lemma step_inv c c' : step c c' -> memp_inv c.1 c.2 -> memp_inv c'.1 c'.2.
Proof.
  intros Hstep. destruct Hstep as [A s type p s' E|A s type d p s' Hd Hpe HpA E|A s p v Hp];
    simpl; intros Hinv.
  - unfold memp_malloc in E. destruct (memp_pools !! type) as [d|] eqn:Hd.
    + destruct (memp_malloc_spec _ _ _ _ Hd Hinv) as (p' & s'' & E' & H).
      unfold memp_malloc in E'. rewrite E in E'. injection E' as <- <-.
      destruct H as [(-> & _ & H)|(Hpe & _ & H)]; [done|].
      by replace (p =? 0) with false by (pose proof (elements_nonzero _ _ _ Hd Hpe); lia).
    + apply lookup_ge_None in Hd. apply Nat.ltb_ge in Hd. rewrite Hd in E. injection E as <- <-. done.
  - destruct (memp_free_spec _ _ _ _ _ Hd Hinv Hpe HpA) as (s'' & E' & H & _). congruence.
  - by apply scribble_spec.
Qed.

Lemma steps_inv c c' : rtc step c c' -> memp_inv c.1 c.2 -> memp_inv c'.1 c'.2.
Proof. induction 1; [done|]. eauto using step_inv. Qed.

(** ** Counting *)

(** The elements of [d] in use. *)
Definition in_use (d : memp_desc) (A : gset Z) : list Z := filter (fun p => p ∈ A) (elements d).

Lemma pool_used i d A s :
  memp_pools !! i = Some d -> memp_inv A s ->
  exists st, stats s !! i = Some st /\ st_used st = Z.of_nat (length (in_use d A)).
Proof.
  intros Hd [Hi _]. destruct (Hi _ _ Hd) as (head & st & l & Ht & Hst & Hc & Hnd & Hl & Hu & Hm).
  exists st. split; [done|]. rewrite Hu.
  assert (Hperm : l ≡ₚ filter (fun p => p ∉ A) (elements d)).
  { apply NoDup_Permutation; [done|by eapply NoDup_filter, elements_NoDup|].
    intros p. rewrite list_elem_of_filter, Hl. tauto. }
  rewrite Hperm. unfold in_use.
  replace (desc_num d) with (length (elements d)) by (unfold elements; by rewrite length_map, length_seq).
  rewrite <-(filter_app_complement (fun p => p ∈ A) (elements d)) at 1.
  rewrite length_app. lia.
Qed.

(** Distinct elements are disjoint blocks of the pool's memory. *)
Lemma elements_blocks i d p q :
  memp_pools !! i = Some d -> p ∈ elements d -> q ∈ elements d -> p <> q ->
  p + desc_size d <= q \/ q + desc_size d <= p.
Proof.
  intros Hd%(wf_pool Hwf) (k & _ & ->)%elem_of_elements (k' & _ & ->)%elem_of_elements Hne.
  destruct (Nat.lt_total k k') as [|[->|]]; [left; nia|done|right; nia].
Qed.

Lemma elements_range i d p :
  memp_pools !! i = Some d -> p ∈ elements d ->
  desc_base d <= p /\ p + desc_size d <= desc_base d + Z.of_nat (desc_num d) * desc_size d.
Proof. intros Hd%(wf_pool Hwf) (k & Hk & ->)%elem_of_elements. nia. Qed.
End memp.

(** ** The interface of one pool *)

(** What a component that keeps its objects in a pool relies on: while the
    elements [A] are in use, [pool_malloc] returns a fresh one as long as there
    are fewer than [pool_cap], NULL otherwise, and [pool_free] takes one back. *)
Class Pool (S : Type) := {
  pool_malloc : S -> outcome (Z * S);
  pool_free : Z -> S -> outcome S;
  pool_cap : nat;
  pool_ok : gset Z -> S -> Prop;
  pool_malloc_law A s : pool_ok A s -> exists p s', pool_malloc s = Ok (p, s') /\
    if decide (size A < pool_cap)%nat
    then p <> 0 /\ (p ∉ A) /\ pool_ok ({[p]} ∪ A) s'
    else p = 0 /\ pool_ok A s';
  pool_free_law A s p : pool_ok A s -> p ∈ A ->
    exists s', pool_free p s = Ok s' /\ pool_ok (A ∖ {[p]}) s';
  pool_size_law A s : pool_ok A s -> (size A <= pool_cap)%nat
}.

Section memp_pool.
Context (memp_pools : list memp_desc) (Hwf : pools_wf memp_pools).
Context (type : nat) (d : memp_desc) (Hd : memp_pools !! type = Some d).

(** The other pools may be in any state that keeps the invariant. *)
Definition memp_pool_ok (A : gset Z) (s : memp_state) : Prop :=
  exists B, memp_inv memp_pools B s /\ forall p, p ∈ A <-> p ∈ B /\ p ∈ elements d.

Lemma memp_pool_full (A B : gset Z) :
  (forall p, p ∈ A <-> p ∈ B /\ p ∈ elements d) ->
  (size A < desc_num d)%nat <-> exists q, q ∈ elements d /\ q ∉ B.
Proof.
  intros HA. assert (Hsz : length (elements d) = desc_num d)
    by (unfold elements; by rewrite length_map, length_seq).
  pose proof (elements_NoDup _ Hwf _ _ Hd) as Hnd. rewrite <-Hsz.
  rewrite <-(size_list_to_set (C := gset Z) _ Hnd).
  split.
  - intros Hlt. destruct (decide (Forall (fun q => q ∈ B) (elements d))) as [Hall|Hn].
    + exfalso. rewrite Forall_forall in Hall.
      assert (list_to_set (elements d) ⊆ A) as Hsub by (intros q; rewrite elem_of_list_to_set, HA; auto).
      apply subseteq_size in Hsub. lia.
    + apply not_Forall_Exists in Hn; [|apply _]. by apply Exists_exists in Hn.
  - intros (q & Hq & HqB). apply subset_size. split.
    + intros p Hp. apply elem_of_list_to_set. by apply HA.
    + intros Hsub. assert (q ∈ A) as [? _]%HA by (apply Hsub; by apply elem_of_list_to_set). done.
Qed.

#[export] Program Instance memp_Pool : Pool memp_state := {|
  pool_malloc := memp_malloc memp_pools type;
  pool_free := memp_free memp_pools type;
  pool_cap := desc_num d;
  pool_ok := memp_pool_ok
|}.
Next Obligation.
  intros A s (B & Hinv & HA).
  destruct (memp_malloc_spec _ Hwf _ _ _ _ Hd Hinv) as (p & s' & E & H). exists p, s'. split; [done|].
  destruct H as [(-> & Hall & H)|(Hpe & HpB & H)].
  - rewrite decide_False; [split; [done|by exists B]|].
    rewrite (memp_pool_full A B) by done. intros (q & Hq & HqB). by apply HqB, Hall.
  - rewrite decide_True; [|rewrite (memp_pool_full A B); eauto].
    split; [by eapply elements_nonzero|]. split; [rewrite HA; tauto|].
    exists ({[p]} ∪ B). split; [done|]. intros q. rewrite !elem_of_union, HA, elem_of_singleton.
    naive_solver.
Qed.
Next Obligation.
  intros A s p (B & Hinv & HA) [HpB Hpe]%HA.
  destruct (memp_free_spec _ Hwf _ _ _ _ _ Hd Hinv Hpe HpB) as (s' & E & H & _).
  exists s'. split; [done|]. exists (B ∖ {[p]}). split; [done|]. intros q.
  rewrite !elem_of_difference, HA. tauto.
Qed.
Next Obligation.
  intros A s (B & _ & HA). pose proof (elements_NoDup _ Hwf _ _ Hd) as Hnd.
  replace (desc_num d) with (length (elements d)) by (unfold elements; by rewrite length_map, length_seq).
  rewrite <-(size_list_to_set (C := gset Z) _ Hnd). apply subseteq_size.
  intros p Hp%HA. apply elem_of_list_to_set. apply Hp.
Qed.
End memp_pool.

(** ** Properties *)

(** C27. After [memp_init] and any sequence of allocations, releases of elements
    in use and writes into them, [memp_malloc] neither faults nor panics: it
    returns NULL exactly when all elements of the pool are in use, and otherwise
    an element of the pool that is not, whose block overlaps none in use; the
    [used] statistic counts the elements in use. *)
Theorem memp_malloc_safe pools s0 A s type d :
  pools_wf pools -> boot pools s0 ->
  rtc (step pools) (∅, memp_init pools s0) (A, s) ->
  pools !! type = Some d ->
  exists p s' st, memp_malloc pools type s = Ok (p, s') /\
    (p = 0 <-> forall q, q ∈ elements d -> q ∈ A) /\
    (p <> 0 -> desc_base d <= p /\
       p + desc_size d <= desc_base d + Z.of_nat (desc_num d) * desc_size d /\
       forall q, q ∈ A -> q ∈ elements d -> p + desc_size d <= q \/ q + desc_size d <= p) /\
    stats s !! type = Some st /\ st_used st = Z.of_nat (length (in_use d A)).
Proof.
  intros Hwf Hboot Hrun Hd. apply (steps_inv _ Hwf) in Hrun as Hinv; [|by apply memp_init_inv].
  simpl in Hinv. destruct (memp_malloc_spec _ Hwf _ _ _ _ Hd Hinv) as (p & s' & E & H).
  destruct (pool_used _ Hwf _ _ _ _ Hd Hinv) as (st & Hst & Hu).
  exists p, s', st. split; [done|]. destruct H as [(-> & Hall & _)|(Hpe & HpA & _)].
  - done.
  - pose proof (elements_nonzero _ Hwf _ _ _ Hd Hpe). split; [naive_solver|].
    split; [|done]. intros _. destruct (elements_range _ Hwf _ _ _ Hd Hpe). do 2 (split; [done|]).
    intros q HqA Hqe. eapply (elements_blocks _ Hwf); [exact Hd|done..|congruence].
Qed.

Definition example_pools : list memp_desc :=
  [{| desc_size := 32; desc_num := 2; desc_base := 0x1000 |};
   {| desc_size := 16; desc_num := 1; desc_base := 0x2000 |}].
Definition example_boot : memp_state :=
  let st := {| st_err := 0; st_avail := 0; st_used := 0; st_max := 0; st_illegal := 0 |} in
  {| links := ∅; tab := [0; 0]; stats := [st; st] |}.

Lemma example_pools_wf : pools_wf example_pools.
Proof.
  split.
  - intros [|[|[|]]] d H; simplify_eq/=; lia.
  - intros [|[|[|]]] [|[|[|]]] d d' p H H'; simplify_eq/=; try done;
      unfold elements; simpl; set_solver by lia.
Qed.
Lemma example_booted : boot example_pools example_boot.
Proof.
  split; [done|]. intros [|[|[|]]] d H; simplify_eq/=; eexists; by repeat split.
Qed.

Lemma memp_malloc_safe_witness :
  exists p s' st, memp_malloc example_pools 0 (memp_init example_pools example_boot) = Ok (p, s') /\
    (p = 0 <-> forall q, q ∈ [0x1000; 0x1020] -> q ∈ (∅ : gset Z)) /\
    (p <> 0 -> 0x1000 <= p /\ p + 32 <= 0x1040 /\
      forall q, q ∈ (∅ : gset Z) -> q ∈ [0x1000; 0x1020] -> p + 32 <= q \/ q + 32 <= p) /\
    stats (memp_init example_pools example_boot) !! 0%nat = Some st /\ st_used st = 0.
Proof.
  exact (memp_malloc_safe example_pools example_boot ∅ (memp_init example_pools example_boot) 0
    {| desc_size := 32; desc_num := 2; desc_base := 0x1000 |}
    example_pools_wf example_booted (rtc_refl _ _) eq_refl).
Defined.

(** Releasing an element and allocating from the pool again returns the same
    element, and the state invariant holds before and after. *)
Theorem memp_free_malloc_lifo pools A s type d p :
  pools_wf pools -> memp_inv pools A s -> pools !! type = Some d ->
  p ∈ elements d -> p ∈ A ->
  exists s' s'', memp_free pools type p s = Ok s' /\ memp_inv pools (A ∖ {[p]}) s' /\
    memp_malloc pools type s' = Ok (p, s'') /\ memp_inv pools A s''.
Proof.
  intros Hwf Hinv Hd Hpe HpA.
  destruct (memp_free_spec _ Hwf _ _ _ _ _ Hd Hinv Hpe HpA) as (s' & E & Hinv' & Ht).
  destruct (memp_malloc_spec _ Hwf _ _ _ _ Hd Hinv') as (p' & s'' & E' & H).
  assert (p' = p) as ->.
  { unfold memp_malloc, do_memp_malloc_pool, load in E'. apply lookup_lt_Some in Hd as Hlt.
    apply Nat.ltb_lt in Hlt as Hlt'. rewrite Hlt', Ht in E'. cbn [negb mbind outcome_bind] in E'.
    pose proof (elements_nonzero _ Hwf _ _ _ Hd Hpe).
    replace (p =? 0) with false in E' by lia. unfold MEMP_SIZE in E'.
    destruct (next_of (links s') p); simpl in E'; [|done..].
    unfold MEM_ALIGNMENT in E'. rewrite Z.mod_1_r in E'. injection E' as <- _. lia. }
  exists s', s''. do 3 (split; [done|]).
  destruct H as [(-> & _)|(_ & _ & H)]; [by destruct (elements_nonzero _ Hwf _ _ _ Hd Hpe)|].
  by replace A with ({[p]} ∪ A ∖ {[p]}) by (rewrite <-union_difference_singleton_L; done).
Qed.

Lemma memp_free_malloc_lifo_witness :
  exists s s' s'', memp_free example_pools 1 0x2000 s = Ok s' /\
    memp_inv example_pools ({[0x2000]} ∖ {[0x2000]}) s' /\
    memp_malloc example_pools 1 s' = Ok (0x2000, s'') /\ memp_inv example_pools {[0x2000]} s''.
Proof.
  set (d := {| desc_size := 16; desc_num := 1; desc_base := 0x2000 |}).
  assert (Hinv : exists s, memp_inv example_pools {[0x2000]} s).
  { destruct (memp_malloc_spec example_pools example_pools_wf 1 d ∅ _ eq_refl
      (memp_init_inv _ example_pools_wf _ example_booted)) as (p & s & E & [(-> & Hall & _)|(Hp & _ & H)]).
    - exfalso. specialize (Hall 0x2000). set_solver.
    - assert (p = 0x2000) as ->
        by (apply elem_of_elements in Hp as (k & Hk & ->); simpl in *; lia). exists s. by rewrite union_empty_r_L in H. }
  destruct Hinv as [s Hinv]. exists s.
  apply (memp_free_malloc_lifo example_pools {[0x2000]} s 1 d 0x2000 example_pools_wf Hinv eq_refl);
    vm_compute; set_solver.
Defined.
