(* ===== verification/Timeouts.v ===== *)
(** * Timers (core/timeouts.c, include/lwip/timeouts.h)

    The list of pending timeouts, sorted by due time with 32-bit wrap-around,
    one-shot and cyclic timers, and the loop that runs the expired ones.  The
    nodes come from a pool through the interface [Pool]; the list is the Rocq
    list of its nodes, each with its address. *)

From stdpp Require Import sorting.
From S2P Require Import Prelude Memp.

Set Default Proof Using "Type".

Definition LWIP_MAX_TIMEOUT : Z := 0x7fffffff.
Definition LWIP_UINT32_MAX : Z := 0xffffffff.
Definition SYS_TIMEOUTS_SLEEPTIME_INFINITE : Z := 0xffffffff.
Definition TCP_TMR_INTERVAL : Z := 250.

Definition TIME_LESS_THAN (t compare_to : Z) : bool :=
  LWIP_MAX_TIMEOUT <? u32 (t - compare_to).

(** Function pointers of type [sys_timeout_handler]. *)
Inductive handler :=
| h_null
| h_cyclic_timer
| h_tcp_timer
| h_other (f : Z).

#[export] Instance handler_eq_dec : EqDecision handler.
Proof. solve_decision. Defined.

Record sys_timeo := { to_addr : Z; to_time : Z; to_h : handler; to_arg : Z }.

Definition set_time (t : sys_timeo) (time : Z) : sys_timeo :=
  {| to_addr := to_addr t; to_time := time; to_h := to_h t; to_arg := to_arg t |}.

Section timeouts.
(** The memory pool [MEMP_SYS_TIMEOUT] and the rest of the system. *)
Context {S W : Type} `{!Pool S}.

Record timers := {
  next_timeout : list sys_timeo;
  current_timeout_due_time : Z;
  tcpip_tcp_timer_active : bool;
  mem : S;
  world : W
}.

Definition set_list (st : timers) (l : list sys_timeo) (m : S) : timers :=
  {| next_timeout := l; current_timeout_due_time := current_timeout_due_time st;
     tcpip_tcp_timer_active := tcpip_tcp_timer_active st; mem := m; world := world st |}.
Definition set_due (st : timers) (due : Z) : timers :=
  {| next_timeout := next_timeout st; current_timeout_due_time := due;
     tcpip_tcp_timer_active := tcpip_tcp_timer_active st; mem := mem st; world := world st |}.
Definition set_active (st : timers) (b : bool) : timers :=
  {| next_timeout := next_timeout st; current_timeout_due_time := current_timeout_due_time st;
     tcpip_tcp_timer_active := b; mem := mem st; world := world st |}.
Definition set_world (st : timers) (w : W) : timers :=
  {| next_timeout := next_timeout st; current_timeout_due_time := current_timeout_due_time st;
     tcpip_tcp_timer_active := tcpip_tcp_timer_active st; mem := mem st; world := w |}.

(** The clock, the TCP control block lists and the functions called through
    pointers: [sys_now()], [tcp_active_pcbs || tcp_tw_pcbs], [tcp_tmr()], the
    table [lwip_cyclic_timers] and the other handlers. *)
Context (sys_now : W -> Z * W) (tcp_pcbs : W -> bool).
Context (tcp_tmr : timers -> outcome timers).
Context (lwip_cyclic_timers : list (Z * (timers -> outcome timers))).
Context (other_handler : Z -> Z -> timers -> outcome timers).

(** ** One-shot timers *)

(** The loop over [t] with [t->next] in [rest]. *)
Fixpoint insert_loop (timeout t : sys_timeo) (rest : list sys_timeo) : list sys_timeo :=
  match rest with
  | [] => [t; timeout]
  | t' :: rest' =>
      if TIME_LESS_THAN (to_time timeout) (to_time t') then t :: timeout :: rest
      else t :: insert_loop timeout t' rest'
  end.

Definition insert_timeout (timeout : sys_timeo) (l : list sys_timeo) : list sys_timeo :=
  match l with
  | [] => [timeout]
  | t :: rest =>
      if TIME_LESS_THAN (to_time timeout) (to_time t) then timeout :: l
      else insert_loop timeout t rest
  end.

Definition sys_timeout_abs (abs_time : Z) (h : handler) (arg : Z) (st : timers) : outcome timers :=
  '(p, m) ← pool_malloc (mem st);
  _ ← assert_that (negb (p =? 0));
  let timeout := {| to_addr := p; to_time := abs_time; to_h := h; to_arg := arg |} in
  Ok (set_list st (insert_timeout timeout (next_timeout st)) m).

Definition sys_timeout (msecs : Z) (h : handler) (arg : Z) (st : timers) : outcome timers :=
  _ ← assert_that (msecs <=? LWIP_UINT32_MAX / 4);
  let '(now, w) := sys_now (world st) in
  sys_timeout_abs (u32 (now + msecs)) h arg (set_world st w).

(** The first match with the nodes before it. *)
Fixpoint untimeout_loop (h : handler) (arg : Z) (l : list sys_timeo)
    : option (sys_timeo * list sys_timeo) :=
  match l with
  | [] => None
  | t :: l' =>
      if bool_decide (to_h t = h) && (to_arg t =? arg) then Some (t, l')
      else match untimeout_loop h arg l' with
           | Some (t', l'') => Some (t', t :: l'')
           | None => None
           end
  end.

Definition sys_untimeout (h : handler) (arg : Z) (st : timers) : outcome timers :=
  match untimeout_loop h arg (next_timeout st) with
  | None => Ok st
  | Some (t, l) => m ← pool_free (to_addr t) (mem st); Ok (set_list st l m)
  end.

(** ** Cyclic timers *)

Definition tcpip_tcp_timer (st : timers) : outcome timers :=
  st ← tcp_tmr st;
  if tcp_pcbs (world st) then sys_timeout TCP_TMR_INTERVAL h_tcp_timer 0 st
  else Ok (set_active st false).

Definition tcp_timer_needed (st : timers) : outcome timers :=
  if negb (tcpip_tcp_timer_active st) && tcp_pcbs (world st)
  then sys_timeout TCP_TMR_INTERVAL h_tcp_timer 0 (set_active st true)
  else Ok st.

(** [arg] points to an entry of [lwip_cyclic_timers], here its index. *)
Definition lwip_cyclic_timer (arg : Z) (st : timers) : outcome timers :=
  match lwip_cyclic_timers !! Z.to_nat arg with
  | None => Fault
  | Some (interval_ms, cyclic_handler) =>
      st ← cyclic_handler st;
      let '(now, w) := sys_now (world st) in
      let st := set_world st w in
      let next_timeout_time := u32 (current_timeout_due_time st + interval_ms) in
      if TIME_LESS_THAN next_timeout_time now
      then sys_timeout_abs (u32 (now + interval_ms)) h_cyclic_timer arg st
      else sys_timeout_abs next_timeout_time h_cyclic_timer arg st
  end.

(** Entries [i], [i + 1], ... of the table; [tcp_tmr] at index 0 is started on
    demand. *)
Fixpoint timeouts_init_from (i : nat) (cyclic : list (Z * (timers -> outcome timers)))
    (st : timers) : outcome timers :=
  match cyclic with
  | [] => Ok st
  | (interval_ms, _) :: cyclic' =>
      st ← sys_timeout interval_ms h_cyclic_timer (Z.of_nat i) st;
      timeouts_init_from (Datatypes.S i) cyclic' st
  end.

Definition sys_timeouts_init (st : timers) : outcome timers :=
  timeouts_init_from 1 (tail lwip_cyclic_timers) st.

(** ** Running timers *)

Definition call_handler (h : handler) (arg : Z) (st : timers) : outcome timers :=
  match h with
  | h_null => Ok st
  | h_cyclic_timer => lwip_cyclic_timer arg st
  | h_tcp_timer => tcpip_tcp_timer st
  | h_other f => other_handler f arg st
  end.

(** The loop. *)
Fixpoint check_loop (fuel : nat) (now : Z) (st : timers) : outcome timers :=
  match fuel with
  | O => Diverge
  | Datatypes.S fuel' =>
      match next_timeout st with
      | [] => Ok st
      | tmptimeout :: rest =>
          if TIME_LESS_THAN now (to_time tmptimeout) then Ok st
          else
            let st := set_due st (to_time tmptimeout) in
            m ← pool_free (to_addr tmptimeout) (mem st);
            st ← call_handler (to_h tmptimeout) (to_arg tmptimeout) (set_list st rest m);
            check_loop fuel' now st
      end
  end.

Definition sys_check_timeouts (fuel : nat) (st : timers) : outcome timers :=
  let '(now, w) := sys_now (world st) in
  check_loop fuel now (set_world st w).

Definition sys_restart_timeouts (st : timers) : timers :=
  match next_timeout st with
  | [] => st
  | t :: _ =>
      let '(now, w) := sys_now (world st) in
      let base := to_time t in
      set_list (set_world st w)
        (map (fun t => set_time t (u32 (u32 (to_time t - base) + now))) (next_timeout st)) (mem st)
  end.

Definition sys_timeouts_sleeptime (st : timers) : outcome (Z * timers) :=
  match next_timeout st with
  | [] => Ok (SYS_TIMEOUTS_SLEEPTIME_INFINITE, st)
  | t :: _ =>
      let '(now, w) := sys_now (world st) in
      let st := set_world st w in
      if TIME_LESS_THAN (to_time t) now then Ok (0, st)
      else
        let ret := u32 (to_time t - now) in
        _ ← assert_that (ret <=? LWIP_MAX_TIMEOUT);
        Ok (ret, st)
  end.

(** ** Time windows

    Comparisons are meaningful while all times lie within 2^31 ms of a [base]:
    [off base t] is the distance from it. *)
Definition off (base t : Z) : Z := u32 (t - base).
Definition in_window (base t : Z) : Prop := off base t <= LWIP_MAX_TIMEOUT.

Lemma time_less_off base a b :
  in_window base a -> in_window base b ->
  TIME_LESS_THAN a b = (off base a <? off base b).
Proof.
  unfold in_window, off, TIME_LESS_THAN, LWIP_MAX_TIMEOUT, u32. intros Ha Hb.
  replace (a - b) with ((a - base) - (b - base)) by lia. rewrite Zminus_mod.
  pose proof (Z.mod_pos_bound (a - base) 4294967296 eq_refl).
  pose proof (Z.mod_pos_bound (b - base) 4294967296 eq_refl).
  generalize dependent ((a - base) mod 4294967296). generalize dependent ((b - base) mod 4294967296).
  clear. intros. words.
Qed.

(** Pending times sorted by distance, equal ones in any order. *)
Definition due_before (base : Z) (t1 t2 : sys_timeo) : Prop :=
  off base (to_time t1) <= off base (to_time t2).
Definition sorted_from (base : Z) (l : list sys_timeo) : Prop :=
  Forall (fun t => in_window base (to_time t)) l /\ StronglySorted (due_before base) l.

(** Insertion puts the new node behind all that are due no later. *)
Lemma insert_timeout_spec base new l :
  in_window base (to_time new) -> sorted_from base l ->
  exists l1 l2, l = l1 ++ l2 /\ insert_timeout new l = l1 ++ new :: l2 /\
    Forall (fun t => due_before base t new) l1 /\
    Forall (fun t => off base (to_time new) < off base (to_time t)) l2.
Proof.
  intros Hnew [Hw Hs].
  assert (Hcons : forall t rest, Forall (fun t => in_window base (to_time t)) (t :: rest) ->
    StronglySorted (due_before base) (t :: rest) ->
    off base (to_time new) < off base (to_time t) ->
    Forall (fun t => off base (to_time new) < off base (to_time t)) (t :: rest)).
  { intros t rest _ [_ Hf]%StronglySorted_inv Hlt. constructor; [done|].
    eapply Forall_impl; [exact Hf|]. unfold due_before. intros; lia. }
  destruct l as [|t rest]; [by exists [], []|]. simpl.
  assert (Hwt := Hw). apply Forall_cons in Hwt as [Ht Hwr].
  rewrite (time_less_off base) by done. destruct (Z.ltb_spec (off base (to_time new)) (off base (to_time t))).
  { exists [], (t :: rest). repeat split; [constructor|by apply Hcons]. }
  assert (Hle : due_before base t new) by done. clear Hw H. revert t Ht Hs Hle.
  induction rest as [|t' rest IH]; intros t Ht Hs Hle; simpl.
  - exists [t], []. repeat split; [by constructor|constructor].
  - apply Forall_cons in Hwr as [Ht' Hwr]. apply StronglySorted_inv in Hs as [Hs _].
    rewrite (time_less_off base) by done.
    destruct (Z.ltb_spec (off base (to_time new)) (off base (to_time t'))) as [Hlt|Hge].
    + exists [t], (t' :: rest). repeat split; [by constructor|]. by apply Hcons; [constructor|..].
    + destruct (IH Hwr t' Ht' Hs) as (l1 & l2 & E & E' & H1 & H2); [exact Hge|].
      exists (t :: l1), l2. rewrite E, E'. repeat split; [by constructor|done].
Qed.

Lemma insert_timeout_sorted base new l :
  in_window base (to_time new) -> sorted_from base l -> sorted_from base (insert_timeout new l).
Proof.
  intros Hnew Hl. destruct (insert_timeout_spec _ _ _ Hnew Hl) as (l1 & l2 & -> & -> & H1 & H2).
  destruct Hl as [Hw Hs]. apply Forall_app in Hw as [Hw1 Hw2]. split.
  - apply Forall_app. split; [done|]. by constructor.
  - apply StronglySorted_app in Hs as (H12 & Hs1 & Hs2). apply StronglySorted_app_2; [|done|].
    + intros x1 x2 Hx1 [->|Hx2]%elem_of_cons; [|by apply H12].
      rewrite Forall_forall in H1. by apply H1.
    + constructor; [done|]. eapply Forall_impl; [exact H2|]. unfold due_before. intros; lia.
Qed.

(** ** The invariant *)

(** The list is sorted and its nodes are exactly the pool elements in use. *)
Definition nodes (l : list sys_timeo) : gset Z := list_to_set (map to_addr l).
Definition timers_ok (base : Z) (st : timers) : Prop :=
  sorted_from base (next_timeout st) /\ NoDup (map to_addr (next_timeout st)) /\
  pool_ok (nodes (next_timeout st)) (mem st).

Lemma nodes_size l : NoDup (map to_addr l) -> size (nodes l) = length l.
Proof. intros H. unfold nodes. rewrite size_list_to_set by done. by rewrite length_map. Qed.

Lemma insert_timeout_perm new l : insert_timeout new l ≡ₚ new :: l.
Proof.
  destruct l as [|t rest]; simpl; [done|]. case_match; [done|]. clear. revert t.
  induction rest as [|t' rest IH]; intros t; simpl; [constructor|].
  case_match; [by constructor|]. rewrite IH. by rewrite Permutation_swap.
Qed.

Lemma nodes_perm l l' : l ≡ₚ l' -> nodes l = nodes l'.
Proof. intros H. unfold nodes. apply list_to_set_perm_L. by rewrite H. Qed.

(** Adding a timer succeeds as long as the pool has room, and panics otherwise. *)
Lemma sys_timeout_abs_ok base abs h arg st :
  timers_ok base st -> in_window base abs ->
  if decide (length (next_timeout st) < pool_cap)%nat
  then exists p st', sys_timeout_abs abs h arg st = Ok st' /\ timers_ok base st' /\
    next_timeout st' = insert_timeout
      {| to_addr := p; to_time := abs; to_h := h; to_arg := arg |} (next_timeout st) /\
    world st' = world st /\ current_timeout_due_time st' = current_timeout_due_time st /\
    tcpip_tcp_timer_active st' = tcpip_tcp_timer_active st
  else sys_timeout_abs abs h arg st = Panic.
Proof.
  intros (Hs & Hnd & Hp) Hw. unfold sys_timeout_abs.
  destruct (pool_malloc_law _ _ Hp) as (p & m & -> & H). rewrite nodes_size in H by done.
  case_decide.
  - destruct H as (Hp0 & Hfresh & Hok). exists p. cbn [mbind outcome_bind].
    replace (p =? 0) with false by lia. simpl. eexists. split; [done|]. split; [|done].
    set (new := {| to_addr := p; to_time := abs; to_h := h; to_arg := arg |}).
    split; [by apply insert_timeout_sorted|]. simpl.
    rewrite (nodes_perm _ _ (insert_timeout_perm new _)). split; [|exact Hok].
    rewrite insert_timeout_perm. simpl. apply NoDup_cons. split; [|done].
    intros Hin. apply Hfresh. unfold nodes. by apply elem_of_list_to_set.
  - destruct H as [-> _]. done.
Qed.

(** [sys_untimeout] unlinks the first node with the handler and argument. *)
Lemma untimeout_loop_spec h arg l :
  match untimeout_loop h arg l with
  | None => Forall (fun t => ~ (to_h t = h /\ to_arg t = arg)) l
  | Some (t, l') => exists l1 l2, l = l1 ++ t :: l2 /\ l' = l1 ++ l2 /\
      to_h t = h /\ to_arg t = arg /\ Forall (fun t => ~ (to_h t = h /\ to_arg t = arg)) l1
  end.
Proof.
  induction l as [|t l IH]; simpl; [constructor|].
  case_bool_decide as Hh; simpl; [destruct (Z.eqb_spec (to_arg t) arg) as [Ha|Ha]|].
  1:{ exists [], l. by repeat split; [..|constructor]. }
  all: destruct (untimeout_loop h arg l) as [[t' l']|];
    [destruct IH as (l1 & l2 & -> & -> & ? & ? & ?); exists (t :: l1), l2;
     repeat split; try done; constructor; [by intros [??]|done]|constructor; [by intros [??]|done]].
Qed.

Lemma sorted_remove base l1 t l2 : sorted_from base (l1 ++ t :: l2) -> sorted_from base (l1 ++ l2).
Proof.
  intros [Hw Hs]. apply Forall_app in Hw as [Hw1 [_ Hw2]%Forall_cons]. split; [by apply Forall_app|].
  apply StronglySorted_app in Hs as (H12 & Hs1 & [Hs2 _]%StronglySorted_inv).
  apply StronglySorted_app_2; [|done..]. intros x1 x2 H1 H2. apply H12; [done|by right].
Qed.

(** Releasing a node that is unlinked. *)
Lemma unlink_ok base st l1 t l2 st' :
  timers_ok base st -> next_timeout st = l1 ++ t :: l2 -> mem st' = mem st ->
  exists m, pool_free (to_addr t) (mem st') = Ok m /\ timers_ok base (set_list st' (l1 ++ l2) m).
Proof.
  intros (Hs & Hnd & Hp) E Em. rewrite E, Em in *.
  assert (Hnd' := Hnd). rewrite map_app in Hnd'. simpl in Hnd'.
  rewrite <-Permutation_middle, <-map_app in Hnd'. apply NoDup_cons in Hnd' as [Hn Hnd'].
  destruct (pool_free_law _ _ (to_addr t) Hp) as (m & -> & Hok).
  { unfold nodes. rewrite elem_of_list_to_set, map_app, elem_of_app. right. by left. }
  exists m. split; [done|]. split; [by eapply sorted_remove|]. split; [done|]. simpl.
  replace (nodes (l1 ++ l2)) with (nodes (l1 ++ t :: l2) ∖ {[to_addr t]}); [done|].
  unfold nodes. apply set_eq. intros p.
  rewrite elem_of_difference, elem_of_singleton, !elem_of_list_to_set, !map_app, !elem_of_app. simpl.
  rewrite elem_of_cons. rewrite map_app, elem_of_app in Hn.
  clear -Hn. naive_solver.
Qed.

Lemma sys_untimeout_ok base h arg st :
  timers_ok base st ->
  exists st', sys_untimeout h arg st = Ok st' /\ timers_ok base st' /\
    match untimeout_loop h arg (next_timeout st) with
    | None => st' = st
    | Some (_, l) => next_timeout st' = l
    end.
Proof.
  intros Hok. unfold sys_untimeout. pose proof (untimeout_loop_spec h arg (next_timeout st)) as H.
  destruct (untimeout_loop h arg (next_timeout st)) as [[t l]|]; [|by exists st].
  destruct H as (l1 & l2 & E & -> & _). destruct (unlink_ok _ _ _ _ _ st Hok E) as (m & -> & Hok'); [done|].
  simpl. by eexists.
Qed.

(** ** The loop terminates *)

(** An upper bound of the work that is due: every expired timer counts by how
    long ago it expired, so a cyclic timer that catches up counts less. *)
Definition due_cost (base now : Z) (t : sys_timeo) : Z :=
  Z.max 0 (off base now - off base (to_time t) + 1).
Definition cost (base now : Z) (l : list sys_timeo) : Z :=
  foldr (fun t acc => due_cost base now t + acc) 0 l.

Lemma cost_perm base now l l' : l ≡ₚ l' -> cost base now l = cost base now l'.
Proof. induction 1; simpl; lia. Qed.
Lemma cost_nonneg base now l : 0 <= cost base now l.
Proof. induction l; simpl; [done|]. unfold due_cost. lia. Qed.

Lemma off_add base x k :
  0 <= k -> off base x + k <= LWIP_MAX_TIMEOUT -> off base (u32 (x + k)) = off base x + k.
Proof.
  unfold off, LWIP_MAX_TIMEOUT, u32. intros Hk Hle.
  rewrite Zminus_mod_idemp_l. replace (x + k - base) with ((x - base) + k) by lia.
  rewrite <-Z.add_mod_idemp_l by lia. apply Z.mod_small.
  pose proof (Z.mod_pos_bound (x - base) 4294967296 eq_refl). lia.
Qed.

Definition valid_arg (t : sys_timeo) : Prop :=
  to_h t = h_cyclic_timer -> is_Some (lwip_cyclic_timers !! Z.to_nat (to_arg t)).

(** What a function called from a timer does to the timers: it uses the functions of this
    file.  It may cancel timers, and start at most [k], each with a delay of at least 1 and at
    most [margin] milliseconds; the rest of the system may change, as long as the clock is [alive]. *)
Inductive acts (margin : Z) (alive : W -> Prop) : nat -> timers -> timers -> Prop :=
| acts_none k st : acts margin alive k st st
| acts_world k st w st' : alive w -> acts margin alive k (set_world st w) st' -> acts margin alive k st st'
| acts_active k st b st' : acts margin alive k (set_active st b) st' -> acts margin alive k st st'
| acts_untimeout k h arg st st1 st' :
    sys_untimeout h arg st = Ok st1 -> acts margin alive k st1 st' -> acts margin alive k st st'
| acts_timeout k ms h arg st st1 st' :
    0 < ms <= margin -> (h = h_cyclic_timer -> is_Some (lwip_cyclic_timers !! Z.to_nat arg)) ->
    sys_timeout ms h arg st = Ok st1 -> acts margin alive k st1 st' -> acts margin alive (Datatypes.S k) st st'.

(** The function returns, given nodes for the timers it starts. *)
Definition behaves (base margin : Z) (alive : W -> Prop) (k : nat) (f : timers -> outcome timers) : Prop :=
  forall st, timers_ok base st -> alive (world st) -> (length (next_timeout st) + k <= pool_cap)%nat ->
    exists st', f st = Ok st' /\ acts margin alive k st st'.

(** What is assumed of the system while expired timers run.  A handler may cancel timers and set one
    timer, itself for example; the functions in the table of cyclic timers and [tcp_tmr] may cancel
    timers.  Cyclic intervals are positive and at most [margin].  As long as the run lasts, in the
    worlds [alive], the clock, read [now] at the start, does not go back and does not leave the
    window, with the margin left. *)
Record calm (base now margin : Z) (alive : W -> Prop) : Prop := {
  calm_tcp : behaves base margin alive 0 tcp_tmr;
  calm_cyclic i iv f : lwip_cyclic_timers !! i = Some (iv, f) -> behaves base margin alive 0 f /\ 0 < iv <= margin;
  calm_other f arg : behaves base margin alive 1 (other_handler f arg);
  calm_margin : TCP_TMR_INTERVAL <= margin <= LWIP_UINT32_MAX / 4;
  calm_clock w : alive w -> alive (sys_now w).2 /\ off base now <= off base (sys_now w).1 /\
                 off base (sys_now w).1 + margin <= LWIP_MAX_TIMEOUT
}.

Section run.
Context (base now margin : Z) (alive : W -> Prop) (Hcalm : calm base now margin alive).

(** The timers while one that was due at [due] is run: those that are due still count no
    more than [c], and there are at most [n]. *)
Record running (due c : Z) (n : nat) (st : timers) : Prop := {
  run_ok : timers_ok base st;
  run_alive : alive (world st);
  run_due : current_timeout_due_time st = due;
  run_args : Forall valid_arg (next_timeout st);
  run_cost : cost base now (next_timeout st) <= c;
  run_length : (length (next_timeout st) <= n)%nat
}.

Lemma running_world due c n st w : running due c n st -> alive w -> running due c n (set_world st w).
Proof. by intros [] ?; split. Qed.

(** A new timer, due at [abs]. *)
Lemma rearm due c n st abs h arg :
  running due c n st -> (length (next_timeout st) < pool_cap)%nat -> in_window base abs ->
  (h = h_cyclic_timer -> is_Some (lwip_cyclic_timers !! Z.to_nat arg)) ->
  exists st', sys_timeout_abs abs h arg st = Ok st' /\
    running due (Z.max 0 (off base now - off base abs + 1) + c) (Datatypes.S n) st'.
Proof.
  intros [Hok Ha Hd Hv Hc Hn] Hroom Hw Harg. pose proof (sys_timeout_abs_ok base abs h arg st Hok Hw) as H.
  rewrite decide_True in H by done. destruct H as (p & st' & E & Hok' & Hl & Ew & Ed & _).
  exists st'. split; [done|]. split; [done|by rewrite Ew|congruence|..]; rewrite Hl.
  - rewrite insert_timeout_perm. by constructor.
  - rewrite (cost_perm _ _ _ _ (insert_timeout_perm _ _)). simpl. unfold due_cost. simpl. lia.
  - rewrite (Permutation_length (insert_timeout_perm _ _)). simpl. lia.
Qed.

(** A timer set now is not due during this run. *)
Lemma timeout_later due c n ms h arg st :
  running due c n st -> (length (next_timeout st) < pool_cap)%nat -> 0 < ms <= margin ->
  (h = h_cyclic_timer -> is_Some (lwip_cyclic_timers !! Z.to_nat arg)) ->
  exists st', sys_timeout ms h arg st = Ok st' /\ running due c (Datatypes.S n) st'.
Proof using Hcalm.
  intros Hst Hroom Hms Harg. pose proof (calm_margin _ _ _ _ Hcalm) as Hm. unfold sys_timeout.
  replace (ms <=? LWIP_UINT32_MAX / 4) with true by lia. cbn [assert_that mbind outcome_bind].
  destruct (calm_clock _ _ _ _ Hcalm (world st) (run_alive _ _ _ _ Hst)) as (Ha & Hc1 & Hc2).
  destruct (sys_now (world st)) as [t w]. simpl in Ha, Hc1, Hc2.
  assert (Ho : off base (u32 (t + ms)) = off base t + ms) by (apply off_add; lia).
  destruct (rearm due c n (set_world st w) (u32 (t + ms)) h arg) as (st' & E & H);
    [by apply running_world|done|unfold in_window; lia|done|].
  exists st'. split; [done|]. by replace (Z.max 0 (off base now - off base (u32 (t + ms)) + 1) + c) with c in H by lia.
Qed.

Lemma untimeout_running due c n h arg st st' :
  running due c n st -> sys_untimeout h arg st = Ok st' -> running due c n st'.
Proof.
  intros [Hok Ha Hd Hv Hc Hn] E. destruct (sys_untimeout_ok base h arg st Hok) as (st1 & E1 & Hok1 & _).
  rewrite E in E1. injection E1 as <-. unfold sys_untimeout in E.
  pose proof (untimeout_loop_spec h arg (next_timeout st)) as Hs.
  destruct (untimeout_loop h arg (next_timeout st)) as [[t l]|]; [|by injection E as <-].
  destruct Hs as (l1 & l2 & El & -> & _). destruct (pool_free _ _) as [m| | |]; try done. injection E as <-.
  rewrite El in Hv, Hc, Hn. rewrite Forall_app, Forall_cons in Hv.
  rewrite <-(cost_perm base now _ _ (Permutation_middle l1 l2 t)) in Hc. rewrite length_app in Hn. simpl in Hc, Hn.
  split; try done; simpl; [apply Forall_app; by destruct Hv as (? & ? & ?)| |rewrite length_app; lia].
  unfold due_cost in Hc. lia.
Qed.

(** What a function called from a timer does keeps that. *)
Lemma acts_running k st st' : acts margin alive k st st' ->
  forall due c n, running due c n st -> running due c (n + k) st'.
Proof using Hcalm.
  induction 1 as [k st|k st w st' Hw _ IH|k st b st' _ IH|k h arg st st1 st' E _ IH|k ms h arg st st1 st' Hms Harg E _ IH];
    intros due c n Hst.
  - destruct Hst. split; try done. lia.
  - by apply IH, running_world.
  - apply IH. by destruct Hst; split.
  - apply IH. by eapply untimeout_running.
  - rewrite Nat.add_succ_r. apply (IH due c (Datatypes.S n)).
    destruct (decide (length (next_timeout st) < pool_cap)%nat) as [Hroom|Hno].
    + destruct (timeout_later due c n ms h arg st Hst Hroom Hms Harg) as (st2 & E2 & H2). congruence.
    + exfalso. unfold sys_timeout in E. pose proof (calm_margin _ _ _ _ Hcalm) as Hm.
      replace (ms <=? LWIP_UINT32_MAX / 4) with true in E by lia. cbn [assert_that mbind outcome_bind] in E.
      destruct (calm_clock _ _ _ _ Hcalm (world st) (run_alive _ _ _ _ Hst)) as (_ & Hc1 & Hc2).
      destruct (sys_now (world st)) as [t w]. simpl in Hc1, Hc2.
      pose proof (sys_timeout_abs_ok base (u32 (t + ms)) h arg (set_world st w) (run_ok _ _ _ _ Hst)) as Hp.
      rewrite decide_False in Hp by done. rewrite Hp in E; [done|]. unfold in_window. rewrite off_add; lia.
Qed.

Lemma behaves_running k f due c n st : behaves base margin alive k f -> running due c n st ->
  (length (next_timeout st) + k <= pool_cap)%nat ->
  exists st', f st = Ok st' /\ running due c (length (next_timeout st) + k) st'.
Proof using Hcalm.
  intros Hf Hst Hroom. destruct (Hf st (run_ok _ _ _ _ Hst) (run_alive _ _ _ _ Hst) Hroom) as (st' & E & Ha).
  exists st'. split; [done|]. eapply acts_running; [done|]. by destruct Hst; split.
Qed.

(** A timer that was due at [due] is run: what is due still, itself included, becomes less. *)
Lemma call_handler_ok h arg due c n st :
  running due c n st -> (length (next_timeout st) < pool_cap)%nat ->
  (h = h_cyclic_timer -> is_Some (lwip_cyclic_timers !! Z.to_nat arg)) -> off base due <= off base now ->
  exists st', call_handler h arg st = Ok st' /\ running due (off base now - off base due + c) pool_cap st'.
Proof using Hcalm.
  intros Hst Hroom Harg Hdue.
  assert (Hweak : forall c' n' st', running due c' n' st' -> c' <= off base now - off base due + c -> (n' <= pool_cap)%nat ->
    running due (off base now - off base due + c) pool_cap st') by (intros c' n' st' [] ? ?; split; done || lia).
  destruct h as [| | |f]; simpl.
  - exists st. split; [done|]. destruct Hst. split; done || lia.
  - unfold lwip_cyclic_timer. destruct (Harg eq_refl) as [[iv f] Hf]. rewrite Hf.
    destruct (calm_cyclic _ _ _ _ Hcalm _ _ _ Hf) as [Hq Hiv].
    destruct (behaves_running 0 f due c n st Hq Hst ltac:(lia)) as (st1 & -> & H1). cbn [mbind outcome_bind].
    destruct (calm_clock _ _ _ _ Hcalm (world st1) (run_alive _ _ _ _ H1)) as (Ha & Hc1 & Hc2).
    destruct (sys_now (world st1)) as [t w]. cbn [fst snd] in Ha, Hc1, Hc2.
    apply (running_world _ _ _ _ w) in H1; [|done]. assert (Hd1 := run_due _ _ _ _ H1). rewrite Hd1.
    pose proof (run_length _ _ _ _ H1) as Hl1.
    pose proof (off_add base due iv ltac:(lia) ltac:(lia)) as Hn.
    pose proof (off_add base t iv ltac:(lia) ltac:(lia)) as Hn'.
    rewrite (time_less_off base) by (unfold in_window; lia).
    assert (Hset : forall abs, off base due < off base abs -> in_window base abs ->
      exists st', sys_timeout_abs abs h_cyclic_timer arg (set_world st1 w) = Ok st' /\
        running due (off base now - off base due + c) pool_cap st').
    { intros abs Hlt Hw. destruct (rearm due c _ _ abs h_cyclic_timer arg H1 ltac:(lia) Hw Harg) as (st2 & E2 & H2).
      exists st2. split; [done|]. eapply Hweak; [done|lia|lia]. }
    case_match; apply Hset; unfold in_window; lia.
  - unfold tcpip_tcp_timer.
    destruct (behaves_running 0 tcp_tmr due c n st (calm_tcp _ _ _ _ Hcalm) Hst ltac:(lia)) as (st1 & -> & H1).
    cbn [mbind outcome_bind]. pose proof (run_length _ _ _ _ H1) as Hl1. destruct (tcp_pcbs _).
    + pose proof (calm_margin _ _ _ _ Hcalm) as Hm. assert (0 < TCP_TMR_INTERVAL) by done.
      destruct (timeout_later due c _ TCP_TMR_INTERVAL h_tcp_timer 0 st1 H1 ltac:(lia) ltac:(lia) ltac:(done)) as (st2 & -> & H2).
      exists st2. split; [done|]. eapply Hweak; [done|lia|lia].
    + eexists. split; [done|]. eapply Hweak; [by destruct H1; split|lia|lia].
  - destruct (behaves_running 1 _ due c n st (calm_other _ _ _ _ Hcalm f arg) Hst ltac:(lia)) as (st1 & -> & H1).
    exists st1. split; [done|]. eapply Hweak; [done|lia|lia].
Qed.

Lemma check_loop_terminates fuel st :
  in_window base now -> timers_ok base st -> alive (world st) -> Forall valid_arg (next_timeout st) ->
  cost base now (next_timeout st) < Z.of_nat fuel ->
  exists st', check_loop fuel now st = Ok st' /\ timers_ok base st' /\
    Forall (fun t => off base now < off base (to_time t)) (next_timeout st').
Proof using Hcalm.
  intros Hnow. revert st. induction fuel as [|fuel IH]; intros st Hok Hal Hargs Hfuel.
  { pose proof (cost_nonneg base now (next_timeout st)). lia. }
  cbn [check_loop]. destruct (next_timeout st) as [|t rest] eqn:El.
  { exists st. rewrite El. do 2 (split; [done|]). constructor. }
  assert (Hs := Hok). destruct Hs as ([Hw Hs] & Hnd & Hp). rewrite El in *.
  apply Forall_cons in Hw as [Ht Hw]. rewrite (time_less_off base) by done.
  destruct (Z.ltb_spec (off base now) (off base (to_time t))) as [Hlt|Hge].
  { exists st. rewrite El. do 2 (split; [done|]). constructor; [done|].
    apply StronglySorted_inv in Hs as [_ Hf]. eapply Forall_impl; [exact Hf|].
    unfold due_before. intros; lia. }
  destruct (unlink_ok base st [] t rest (set_due st (to_time t)) Hok El eq_refl) as (m & -> & Hok').
  cbn [app mbind outcome_bind] in Hok' |- *. pose proof (pool_size_law _ _ Hp) as Hsz. rewrite nodes_size in Hsz by done.
  simpl in Hsz. apply Forall_cons in Hargs as [Hat Hargs].
  destruct (call_handler_ok (to_h t) (to_arg t) (to_time t) (cost base now rest) (length rest) _
    (Build_running _ _ _ (set_list (set_due st (to_time t)) rest m) Hok' Hal eq_refl Hargs ltac:(done) ltac:(done)))
    as (st' & -> & [Hok2 Hal2 _ Hargs2 Hcost2 _]); [simpl; lia|done|done|].
  cbn [mbind outcome_bind]. apply IH; [done..|]. simpl in Hfuel. unfold due_cost in Hfuel. lia.
Qed.
End run.

(** The effect of a one-shot timer on the world. *)
Definition fire (run : Z -> Z -> W -> W) (w : W) (t : sys_timeo) : W :=
  match to_h t with h_other f => run f (to_arg t) w | _ => w end.

Lemma check_loop_order base n run later :
  (forall f arg st, other_handler f arg st = Ok (set_world st (run f arg (world st)))) ->
  in_window base n -> Forall (fun t => off base n < off base (to_time t)) later ->
  forall fuel expired st, timers_ok base st -> next_timeout st = expired ++ later ->
  Forall (fun t => off base (to_time t) <= off base n /\ exists f, to_h t = h_other f) expired ->
  (length expired < fuel)%nat ->
  exists st', check_loop fuel n st = Ok st' /\ timers_ok base st' /\
    next_timeout st' = later /\ world st' = foldl (fire run) (world st) expired.
Proof.
  intros Hrun Hw Hlater.
  induction fuel as [|fuel IH]; intros expired st Hok El Hexp Hf; [lia|].
  cbn [check_loop]. assert (Hs := Hok). destruct Hs as ([Hwt _] & _).
  destruct expired as [|t expired].
  - simpl in El. destruct (next_timeout st) as [|t rest] eqn:E; subst later; [by exists st|].
    apply Forall_cons in Hwt as [Ht _], Hlater as [Hl _].
    rewrite (time_less_off base) by done. replace (off base n <? off base (to_time t)) with true by lia.
    by exists st.
  - rewrite El in Hwt |- *.
    apply Forall_cons in Hwt as [Ht _], Hexp as [[Hle [f Hh]] Hexp]. cbn [app].
    rewrite (time_less_off base) by done. replace (off base n <? off base (to_time t)) with false by lia.
    destruct (unlink_ok base st [] t (expired ++ later) (set_due st (to_time t)) Hok El eq_refl)
      as (m & -> & Hok'). cbn [app] in Hok'. rewrite Hh.
    cbn [call_handler foldl mbind outcome_bind]. rewrite Hrun. cbn [mbind outcome_bind].
    unfold fire at 2. rewrite Hh.
    apply (IH expired (set_world (set_list (set_due st (to_time t)) (expired ++ later) m) _));
      [done..|simpl in Hf; lia].
Qed.

(** ** Properties *)

(** [sys_timeout_abs] takes a node from the pool and inserts it behind all
    timers that are due no later and before all that are due later (so timers
    due at the same time run in the order they were set), keeping the list
    sorted and the pool accounted for; with the pool empty it panics. *)
Theorem sys_timeout_abs_correct base abs h arg st :
  timers_ok base st -> in_window base abs ->
  if decide (length (next_timeout st) < pool_cap)%nat
  then exists p st' l1 l2, sys_timeout_abs abs h arg st = Ok st' /\ timers_ok base st' /\
    next_timeout st = l1 ++ l2 /\
    next_timeout st' = l1 ++ {| to_addr := p; to_time := abs; to_h := h; to_arg := arg |} :: l2 /\
    Forall (fun t => off base (to_time t) <= off base abs) l1 /\
    Forall (fun t => off base abs < off base (to_time t)) l2
  else sys_timeout_abs abs h arg st = Panic.
Proof.
  intros Hok Hw. pose proof (sys_timeout_abs_ok base abs h arg st Hok Hw) as H.
  case_decide; [|done]. destruct H as (p & st' & E & Hok' & Hl & _).
  set (new := {| to_addr := p; to_time := abs; to_h := h; to_arg := arg |}) in *.
  destruct (insert_timeout_spec base new (next_timeout st)) as (l1 & l2 & E1 & E2 & H1 & H2);
    [done|apply Hok|]. exists p, st', l1, l2. rewrite Hl, E2. done.
Qed.

(** [sys_untimeout] removes the first timer with the given handler and
    argument and gives its node back to the pool; the other timers keep their
    order, and without a match nothing changes. *)
Theorem sys_untimeout_correct base h arg st :
  timers_ok base st ->
  exists st', sys_untimeout h arg st = Ok st' /\ timers_ok base st' /\
    ((st' = st /\ Forall (fun t => ~ (to_h t = h /\ to_arg t = arg)) (next_timeout st)) \/
     exists l1 t l2, next_timeout st = l1 ++ t :: l2 /\ next_timeout st' = l1 ++ l2 /\
       to_h t = h /\ to_arg t = arg /\
       Forall (fun t => ~ (to_h t = h /\ to_arg t = arg)) l1).
Proof.
  intros Hok. destruct (sys_untimeout_ok base h arg st Hok) as (st' & E & Hok' & H).
  exists st'. do 2 (split; [done|]). pose proof (untimeout_loop_spec h arg (next_timeout st)) as Hs.
  destruct (untimeout_loop h arg (next_timeout st)) as [[t l]|]; [right|by left].
  destruct Hs as (l1 & l2 & El & -> & ? & ? & ?). by exists l1, t, l2.
Qed.

(** C24. [sys_check_timeouts] terminates although timers set themselves again.  The handlers may cancel timers and
    each start one, with a delay of at least a millisecond; cyclic timers, whose intervals are positive, and the TCP timer
    set themselves again; and the clock stays within 2^31 ms, less the longest delay, of the timers that are
    pending.  With fuel for the work that is due it then returns, neither
    panics nor faults, keeps the invariant, and leaves no timer pending that was
    due when it read the clock. *)
Theorem sys_check_timeouts_terminates base margin alive st fuel :
  let now := (sys_now (world st)).1 in
  calm base now margin alive -> in_window base now -> timers_ok base st -> alive (sys_now (world st)).2 ->
  Forall valid_arg (next_timeout st) ->
  cost base now (next_timeout st) < Z.of_nat fuel ->
  exists st', sys_check_timeouts fuel st = Ok st' /\ timers_ok base st' /\
    Forall (fun t => off base now < off base (to_time t)) (next_timeout st').
Proof.
  intros now Hcalm Hw Hok Hal Hargs Hfuel. unfold sys_check_timeouts.
  unfold now in *. destruct (sys_now (world st)) as [n w]. simpl in *.
  by apply (check_loop_terminates base n margin alive Hcalm fuel (set_world st w)).
Qed.

(** One-shot timers that are due run exactly once each, in the order of
    their due times, and only those: the handlers' effects compose in list order
    and the timers left are the ones due later. *)
Theorem sys_check_timeouts_order base st (run : Z -> Z -> W -> W) expired later fuel :
  let now := (sys_now (world st)).1 in
  (forall f arg st, other_handler f arg st = Ok (set_world st (run f arg (world st)))) ->
  in_window base now -> timers_ok base st -> next_timeout st = expired ++ later ->
  Forall (fun t => off base (to_time t) <= off base now /\ exists f, to_h t = h_other f) expired ->
  Forall (fun t => off base now < off base (to_time t)) later ->
  (length expired < fuel)%nat ->
  exists st', sys_check_timeouts fuel st = Ok st' /\ timers_ok base st' /\
    next_timeout st' = later /\
    world st' = foldl (fire run) (sys_now (world st)).2 expired.
Proof.
  intros now Hrun Hw Hok El Hexp Hlater Hf. unfold sys_check_timeouts, now in *.
  destruct (sys_now (world st)) as [n w]. cbn [fst snd] in *.
  by apply (check_loop_order base n run later Hrun Hw Hlater fuel expired (set_world st w)).
Qed.

(** [sys_timeouts_sleeptime] never fails its assertion while the clock is in
    the window of the pending timers, and returns the least time until one of
    them is due (0 if one already is), or "infinite" when there is none. *)
Theorem sys_timeouts_sleeptime_correct base st :
  let now := (sys_now (world st)).1 in
  timers_ok base st -> in_window base now ->
  exists r st', sys_timeouts_sleeptime st = Ok (r, st') /\ next_timeout st' = next_timeout st /\
    (next_timeout st = [] -> r = SYS_TIMEOUTS_SLEEPTIME_INFINITE) /\
    (next_timeout st <> [] ->
     (exists t, t ∈ next_timeout st /\ r = Z.max 0 (off base (to_time t) - off base now)) /\
     forall t, t ∈ next_timeout st -> r <= Z.max 0 (off base (to_time t) - off base now)).
Proof.
  intros now ([Hw Hs] & _) Hnow. unfold sys_timeouts_sleeptime.
  destruct (next_timeout st) as [|t rest] eqn:El.
  { eexists _, st. rewrite El. split; [done|]. done. }
  unfold now in *. destruct (sys_now (world st)) as [n w]. simpl in *.
  apply Forall_cons in Hw as [Ht Hw]. apply StronglySorted_inv in Hs as [_ Hf].
  assert (Hmin : forall t', t' ∈ t :: rest -> off base (to_time t) <= off base (to_time t')).
  { intros t' [->|H]%elem_of_cons; [done|]. rewrite Forall_forall in Hf. by apply Hf. }
  rewrite (time_less_off base) by done. unfold in_window in *.
  assert (Hr : u32 (to_time t - n) = (off base (to_time t) - off base n) mod 4294967296).
  { unfold off, u32. rewrite <-Zminus_mod. f_equal. lia. }
  pose proof (u32_range (to_time t - base)). pose proof (u32_range (n - base)).
  unfold is_u32, off, LWIP_MAX_TIMEOUT in *.
  destruct (Z.ltb_spec (u32 (to_time t - base)) (u32 (n - base))).
  - exists 0, (set_world st w). split; [done|]. split; [done|]. split; [done|]. intros _. split.
    + exists t. split; [by left|lia].
    + intros t' _. lia.
  - rewrite Hr, Z.mod_small by lia.
    replace (_ <=? 2147483647) with true by lia. simpl. eexists _, (set_world st w).
    split; [done|]. split; [done|]. split; [done|]. intros _. split.
    + exists t. split; [by left|lia].
    + intros t' Ht'. specialize (Hmin t' Ht'). lia.
Qed.

(** Rebasing keeps the distances and the order: the window now starts at the
    clock. *)
Lemma sys_restart_timeouts_ok base st :
  let now := (sys_now (world st)).1 in
  timers_ok base st -> is_u32 now ->
  next_timeout st <> [] -> timers_ok now (sys_restart_timeouts st).
Proof.
  intros now ([Hw Hs] & Hnd & Hp) Hn Hne. unfold sys_restart_timeouts.
  destruct (next_timeout st) as [|t rest] eqn:El; [done|].
  unfold now in *. destruct (sys_now (world st)) as [n w]. cbn [fst] in *.
  set (f := fun t' => set_time t' (u32 (u32 (to_time t' - to_time t) + n))).
  assert (Hoff : forall t', t' ∈ t :: rest ->
    off n (to_time (f t')) = off base (to_time t') - off base (to_time t)).
  { intros t' Ht'. rewrite Forall_forall in Hw. pose proof (Hw _ Ht') as Hw'.
    assert (Hle : off base (to_time t) <= off base (to_time t')).
    { apply elem_of_cons in Ht' as [->|Ht']; [done|]. apply StronglySorted_inv in Hs as [_ Hf].
      rewrite Forall_forall in Hf. by apply Hf. }
    unfold in_window, off, LWIP_MAX_TIMEOUT in *. simpl. pose proof (u32_range (to_time t - base)).
    unfold u32, is_u32 in *. rewrite Zminus_mod_idemp_l.
    replace ((to_time t' - to_time t) mod 4294967296 + n - n)
      with ((to_time t' - to_time t) mod 4294967296) by lia.
    rewrite Z.mod_mod by done.
    replace (to_time t' - to_time t) with ((to_time t' - base) - (to_time t - base)) by lia.
    rewrite Zminus_mod. apply Z.mod_small. lia. }
  assert (Haddr : map to_addr (map f (t :: rest)) = map to_addr (t :: rest)).
  { rewrite map_map. done. }
  split; [split|split].
  - apply Forall_map, Forall_forall. intros t' Ht'.
    apply (Z.le_trans _ _ _ (Z.eq_le_incl _ _ (Hoff t' Ht'))).
    rewrite Forall_forall in Hw. specialize (Hw _ Ht'). unfold in_window in Hw.
    pose proof (u32_range (to_time t - base)). unfold off, is_u32 in *. lia.
  - change (StronglySorted (due_before n) (map f (t :: rest))). clear -Hs Hoff. revert Hs Hoff. generalize (t :: rest).
    induction 1 as [|x l Hl IH Hf]; intros Hoff; [constructor|]. simpl. constructor.
    + apply IH. intros t' Ht'. apply Hoff. by right.
    + apply Forall_map, Forall_forall. intros y Hy. unfold due_before.
      pose proof (Hoff x ltac:(by left)). pose proof (Hoff y ltac:(by right)). rewrite Forall_forall in Hf. specialize (Hf _ Hy).
      unfold due_before in Hf. lia.
  - change (NoDup (map to_addr (map f (t :: rest)))). by rewrite Haddr.
  - change (pool_ok (nodes (map f (t :: rest))) (mem st)). unfold nodes. by rewrite Haddr.
Qed.
End timeouts.

(** ** Witnesses

    A pool of two nodes, a clock that stands at 1000 ms, and handlers that log
    their calls. *)
Section example.
Let pool : Pool memp_state := memp_Pool example_pools example_pools_wf 0 _ eq_refl.
#[local] Existing Instance pool.

Definition ex_now (w : list Z) : Z * list Z := (1000, w).
Definition ex_log (f arg : Z) (w : list Z) : list Z := w ++ [f; arg].
Definition ex_quiet (st : timers (S := memp_state) (W := list Z)) : outcome timers := Ok st.
Definition ex_other (f arg : Z) (st : timers (S := memp_state) (W := list Z)) : outcome timers :=
  Ok (set_world st (ex_log f arg (world st))).
Definition ex_cyclic := [(250, ex_quiet); (100, ex_quiet)].
Definition ex_empty : timers := {|
  next_timeout := []; current_timeout_due_time := 0; tcpip_tcp_timer_active := false;
  mem := memp_init example_pools example_boot; world := [] : list Z |}.

Lemma ex_empty_ok : timers_ok 0 ex_empty.
Proof.
  split; [by repeat constructor|]. split; [constructor|]. exists ∅.
  split; [by apply memp_init_inv; [apply example_pools_wf|apply example_booted]|]. set_solver.
Qed.

(** One timer pending. *)
Lemma ex_one h arg : exists p (st : timers (S := memp_state)), timers_ok 0 st /\
  next_timeout st = [{| to_addr := p; to_time := 700; to_h := h; to_arg := arg |}] /\
  world st = ([] : list Z).
Proof.
  pose proof (sys_timeout_abs_ok 0 700 h arg ex_empty ex_empty_ok) as H.
  rewrite decide_True in H by (simpl; lia).
  destruct H as (p & st & _ & Hok & Hl & Hw & _); [done|]. by exists p, st.
Qed.

Lemma sys_timeout_abs_correct_witness :
  exists st', sys_timeout_abs 700 (h_other 1) 2 ex_empty = Ok st' /\ timers_ok 0 st'.
Proof.
  pose proof (sys_timeout_abs_correct 0 700 (h_other 1) 2 ex_empty ex_empty_ok) as H.
  rewrite decide_True in H by (simpl; lia).
  destruct H as (p & st' & l1 & l2 & E & Hok & _); [done|]. by exists st'.
Defined.

Lemma sys_untimeout_correct_witness :
  exists (st st' : timers (S := memp_state) (W := list Z)), sys_untimeout (h_other 1) 2 st = Ok st' /\ next_timeout st <> [] /\
    next_timeout st' = [].
Proof.
  destruct (ex_one (h_other 1) 2) as (p & st & Hok & Hl & _). exists st.
  destruct (sys_untimeout_correct 0 (h_other 1) 2 st Hok) as (st' & E & _ & H).
  exists st'. split; [done|]. rewrite Hl in *. split; [done|].
  destruct H as [[-> Hf]|(l1 & t & l2 & E1 & E2 & _)].
  - apply Forall_cons in Hf as [[] _]. done.
  - destruct l1 as [|? [|]]; simplify_eq/=. done.
Defined.

(** A handler that logs its call and sets itself again, in 50 ms. *)
Definition ex_again (f arg : Z) (st : timers (S := memp_state) (W := list Z)) : outcome timers :=
  sys_timeout ex_now 50 (h_other f) arg (set_world st (ex_log f arg (world st))).

Lemma ex_calm : calm ex_now ex_quiet ex_cyclic ex_again 0 1000 300 (fun _ => True).
Proof.
  split.
  - intros st _ _ _. exists st. split; [done|constructor].
  - intros [|[|[|]]] iv f H; simplify_eq/=; (split; [|lia]); intros st _ _ _; exists st; (split; [done|constructor]).
  - intros f arg st Hok _ Hroom. set (st1 := set_world st (ex_log f arg (world st))).
    pose proof (sys_timeout_abs_ok 0 1050 (h_other f) arg (set_world st1 (world st1)) Hok ltac:(done)) as H.
    rewrite decide_True in H by (simpl in *; lia). destruct H as (p & st' & E & _). exists st'. split; [exact E|].
    eapply acts_world; [done|]. eapply (acts_timeout _ _ _ _ _ 50 (h_other f) arg st1 st'); [done|done|exact E|constructor].
  - by split.
  - intros w _. by split.
Qed.

(** A timer that expired at 700 ms and sets itself again. *)
Lemma sys_check_timeouts_terminates_witness :
  exists st st', next_timeout st <> [] /\
    sys_check_timeouts ex_now (fun _ => false) ex_quiet ex_cyclic ex_again 400 st = Ok st' /\
    Forall (fun t => 1000 < off 0 (to_time t)) (next_timeout st').
Proof.
  destruct (ex_one (h_other 1) 2) as (p & st & Hok & Hl & _). exists st.
  destruct (sys_check_timeouts_terminates ex_now (fun _ => false) ex_quiet ex_cyclic ex_again
    0 300 (fun _ => True) st 400) as (st' & E & _ & H); [apply ex_calm|done|done|done| | |].
  - rewrite Hl. by constructor.
  - rewrite Hl. done.
  - exists st'. rewrite Hl. done.
Defined.

Lemma sys_check_timeouts_order_witness :
  exists st st', next_timeout st <> [] /\
    sys_check_timeouts ex_now (fun _ => false) ex_quiet ex_cyclic ex_other 2 st = Ok st' /\
    next_timeout st' = [] /\ world st' = [5; 6].
Proof.
  destruct (ex_one (h_other 5) 6) as (p & st & Hok & Hl & Hw). exists st.
  destruct (sys_check_timeouts_order ex_now (fun _ => false) ex_quiet ex_cyclic ex_other
    0 st ex_log (next_timeout st) [] 2) as (st' & E & _ & Hl' & Hw');
    [done|done|done|by rewrite app_nil_r| |constructor|by rewrite Hl; simpl; lia|].
  - rewrite Hl. constructor; [|constructor]. split; [done|by eexists].
  - exists st'. rewrite Hl, Hw in *. split; [done|]. split; [done|]. split; [done|]. exact Hw'.
Defined.

Lemma sys_timeouts_sleeptime_correct_witness :
  exists (st st' : timers (S := memp_state)), sys_timeouts_sleeptime ex_now st = Ok (0, st') /\ next_timeout st <> [].
Proof.
  destruct (ex_one (h_other 5) 6) as (p & st & Hok & Hl & Hw). exists st.
  destruct (sys_timeouts_sleeptime_correct ex_now 0 st Hok) as (r & st' & E & _ & _ & H); [done|].
  rewrite Hl in H. destruct H as [(t & Ht & ->) _]; [done|].
  apply list_elem_of_singleton in Ht as ->. exists st'. rewrite Hl. done.
Defined.
End example.
