(* ===== verification/Mem.v ===== *)
(** * The heap and the memory of pbufs (core/mem.c, parts of core/pbuf.c)

    mem.c is built with [MEM_LIBC_MALLOC]: [mem_malloc] and [mem_free] wrap the
    C library's [malloc] and [free], which [Heap] describes.  [PbufAlloc] is what
    the packet buffers rely on of the three sources of their memory, and
    [mem_PbufAlloc] provides it from the heap and the two pools of Memp. *)

From S2P Require Import Prelude Memp.

Set Default Proof Using "Type".

(** ** The C library's heap *)

(** While the blocks [A] are allocated, [malloc] returns NULL or the address of a
    block that is not among them, and [free] takes one of them back. *)
Class Heap (H : Type) := {
  malloc : Z -> H -> Z * H;
  free : Z -> H -> H;
  heap_ok : gset Z -> H -> Prop;
  heap_addr : Z -> Prop;
  malloc_law A h n : heap_ok A h ->
    let '(p, h') := malloc n h in
    (p = 0 /\ heap_ok A h') \/ (0 < p /\ heap_addr p /\ (p ∉ A) /\ heap_ok ({[p]} ∪ A) h');
  free_law A h p : heap_ok A h -> p ∈ A -> heap_ok (A ∖ {[p]}) (free p h)
}.

(** ** mem.c *)

Definition MEM_LIBC_STATSHELPER_SIZE : Z := 0.

Definition mem_malloc `{Heap H} (size : Z) (h : H) : outcome (Z * H) :=
  let '(ret, h) := malloc (u64 (size + MEM_LIBC_STATSHELPER_SIZE)) h in
  if ret =? 0 then Ok (ret, h)
  else
    _ ← assert_that (LWIP_MEM_ALIGN ret =? ret);
    Ok (ret, h).

Definition mem_free `{Heap H} (rmem : Z) (h : H) : outcome H :=
  _ ← assert_that (negb (rmem =? 0));
  _ ← assert_that (rmem =? LWIP_MEM_ALIGN rmem);
  Ok (free rmem h).

(** [mem_trim] of this configuration returns the block as it is. *)
Definition mem_trim (mem size : Z) : Z := mem.

Lemma mem_malloc_spec `{Heap H} A h n : heap_ok A h ->
  exists p h', mem_malloc n h = Ok (p, h') /\
    ((p = 0 /\ heap_ok A h') \/ (0 < p /\ heap_addr p /\ (p ∉ A) /\ heap_ok ({[p]} ∪ A) h')).
Proof.
  intros Hok. unfold mem_malloc. pose proof (malloc_law A h (u64 (n + MEM_LIBC_STATSHELPER_SIZE)) Hok) as Hl.
  destruct (malloc _ h) as [p h']. exists p, h'. split; [|done].
  destruct (p =? 0); [done|]. by rewrite align_id, Z.eqb_refl.
Qed.

Lemma mem_free_spec `{Heap H} A h p : heap_ok A h -> p ∈ A -> p <> 0 ->
  exists h', mem_free p h = Ok h' /\ heap_ok (A ∖ {[p]}) h'.
Proof.
  intros Hok Hp Hp0. exists (free p h). split; [|by apply free_law].
  unfold mem_free. rewrite align_id, Z.eqb_refl. by replace (p =? 0) with false by lia.
Qed.

(** ** The memory of pbufs *)

(** Where a pbuf comes from: [mem_malloc], [MEMP_PBUF], [MEMP_PBUF_POOL]. *)
Inductive source := src_heap | src_pbuf | src_pool.
#[export] Instance source_eq_dec : EqDecision source.
Proof. solve_decision. Defined.

(** What pbufs rely on: while the blocks [L] are live, an allocation returns
    NULL or an address of the allocators' memory that is not among them; a live
    block can be released to the source it came from.  [pa_try_callback] is
    [tcpip_try_callback]. *)
Class PbufAlloc (S : Type) := {
  pa_malloc : source -> Z -> S -> outcome (Z * S);
  pa_free : source -> Z -> S -> outcome S;
  pa_try_callback : S -> bool * S;
  pa_live : gmap Z source -> S -> Prop;
  pa_addr : Z -> Prop;
  pa_malloc_law L s src n : pa_live L s ->
    exists p s', pa_malloc src n s = Ok (p, s') /\
      ((p = 0 /\ pa_live L s') \/
       (0 < p /\ pa_addr p /\ L !! p = None /\ pa_live (<[p := src]> L) s'));
  pa_free_law L s src p : pa_live L s -> L !! p = Some src ->
    exists s', pa_free src p s = Ok s' /\ pa_live (delete p L) s';
  pa_callback_law L s : pa_live L s -> pa_live L (pa_try_callback s).2
}.

(** ** The pools and the heap together *)

Section mem_pbufs.
Context {H : Type} `{!Heap H}.
Context (pools : list memp_desc) (Hwf : pools_wf pools).
Context (MEMP_PBUF MEMP_PBUF_POOL : nat) (d1 d2 : memp_desc).
Context (Hd1 : pools !! MEMP_PBUF = Some d1) (Hd2 : pools !! MEMP_PBUF_POOL = Some d2).
Context (Hne : MEMP_PBUF <> MEMP_PBUF_POOL).
Context (Hheap : forall p, heap_addr p -> (p ∉ elements d1) /\ (p ∉ elements d2)).

Definition of_source (src : source) (p : Z) : Prop :=
  match src with
  | src_heap => heap_addr p /\ 0 < p
  | src_pbuf => p ∈ elements d1
  | src_pool => p ∈ elements d2
  end.
Definition taken (B A : gset Z) (src : source) (p : Z) : Prop :=
  match src with src_heap => p ∈ A | _ => p ∈ B end.

(** Every live block is in use where it came from, and of the two pools nothing
    else is: no pbuf is lost. *)
Definition blocks_live (L : gmap Z source) (s : memp_state * H) : Prop :=
  exists B A, memp_inv pools B s.1 /\ heap_ok A s.2 /\
    (forall p src, L !! p = Some src -> of_source src p /\ taken B A src p) /\
    (forall p, p ∈ B -> p ∈ elements d1 \/ p ∈ elements d2 -> is_Some (L !! p)).

Definition blocks_malloc (src : source) (n : Z) (s : memp_state * H) : outcome (Z * (memp_state * H)) :=
  match src with
  | src_heap => '(p, h) ← mem_malloc n s.2; Ok (p, (s.1, h))
  | src_pbuf => '(p, m) ← memp_malloc pools MEMP_PBUF s.1; Ok (p, (m, s.2))
  | src_pool => '(p, m) ← memp_malloc pools MEMP_PBUF_POOL s.1; Ok (p, (m, s.2))
  end.
Definition blocks_free (src : source) (p : Z) (s : memp_state * H) : outcome (memp_state * H) :=
  match src with
  | src_heap => h ← mem_free p s.2; Ok (s.1, h)
  | src_pbuf => m ← memp_free pools MEMP_PBUF p s.1; Ok (m, s.2)
  | src_pool => m ← memp_free pools MEMP_PBUF_POOL p s.1; Ok (m, s.2)
  end.

Lemma of_source_inj src src' p : of_source src p -> of_source src' p -> src = src'.
Proof using Hwf Hd1 Hd2 Hne Hheap.
  assert (Hdis : p ∈ elements d1 -> p ∈ elements d2 -> False).
  { intros H1 H2. by apply Hne, (wf_disjoint _ Hwf _ _ _ _ _ Hd1 Hd2 H1 H2). }
  destruct src, src'; simpl; try done; intros H1 H2; exfalso;
    (by apply Hdis) || (destruct (Hheap p); tauto).
Qed.

(** A new block among the live ones. *)
Lemma blocks_live_new L B A B' A' s' src p :
  memp_inv pools B' s'.1 -> heap_ok A' s'.2 ->
  (forall q src', L !! q = Some src' -> of_source src' q /\ taken B A src' q) ->
  (forall q, q ∈ B -> q ∈ elements d1 \/ q ∈ elements d2 -> is_Some (L !! q)) ->
  of_source src p -> ~ taken B A src p -> taken B' A' src p ->
  (forall src' q, taken B A src' q -> taken B' A' src' q) ->
  (forall q, q ∈ B' -> q = p \/ q ∈ B) ->
  L !! p = None /\ blocks_live (<[p := src]> L) s'.
Proof using Hwf Hd1 Hd2 Hne Hheap.
  intros Hm Hh HL HB Hsrc Hfree Htaken Hmono Hback. split.
  - destruct (L !! p) as [src'|] eqn:E; [|done]. destruct (HL _ _ E) as [Hs Ht].
    by rewrite (of_source_inj src src' p) in Hfree.
  - exists B', A'. split; [done|]. split; [done|]. split.
    + intros q src' [[<- <-]|[Hq E]]%lookup_insert_Some; [done|]. destruct (HL _ _ E). auto.
    + intros q [->|HqB]%Hback Hq; [rewrite lookup_insert_eq; by eexists|].
      apply lookup_insert_is_Some'. right. auto.
Qed.

(** A live block given back. *)
Lemma blocks_live_gone L B A B' A' s' p :
  memp_inv pools B' s'.1 -> heap_ok A' s'.2 ->
  (forall q src', L !! q = Some src' -> of_source src' q /\ taken B A src' q) ->
  (forall q, q ∈ B -> q ∈ elements d1 \/ q ∈ elements d2 -> is_Some (L !! q)) ->
  (forall src' q, q <> p -> taken B A src' q -> taken B' A' src' q) ->
  (forall q, q ∈ B' -> q ∈ elements d1 \/ q ∈ elements d2 -> q <> p /\ q ∈ B) ->
  blocks_live (delete p L) s'.
Proof.
  intros Hm Hh HL HB Hmono Hback. exists B', A'. split; [done|]. split; [done|]. split.
  - intros q src' [Hq E]%lookup_delete_Some. destruct (HL _ _ E). auto.
  - intros q HqB Hq. destruct (Hback q HqB Hq). rewrite lookup_delete_ne by done. auto.
Qed.

Lemma blocks_malloc_law L s src n : blocks_live L s ->
  exists p s', blocks_malloc src n s = Ok (p, s') /\
    ((p = 0 /\ blocks_live L s') \/
     (0 < p /\ (exists src', of_source src' p) /\ L !! p = None /\ blocks_live (<[p := src]> L) s')).
Proof using Hwf Hd1 Hd2 Hne Hheap.
  intros (B & A & Hm & Hh & HL & HB).
  assert (Hpos : forall t d p, pools !! t = Some d -> p ∈ elements d -> 0 < p).
  { intros t d p Hd Hp. destruct (elements_range _ Hwf _ _ _ Hd Hp).
    destruct (wf_pool _ Hwf _ _ Hd). lia. }
  destruct src; unfold blocks_malloc.
  - destruct (mem_malloc_spec A s.2 n Hh) as (p & h & -> & [[-> Hh']|(Hp & Ha & HpA & Hh')]);
      eexists _, _; (split; [done|]); [left; split; [done|]; by exists B, A|].
    right. split; [done|]. split; [by exists src_heap|].
    eapply (blocks_live_new L B A B ({[p]} ∪ A)); try done; [set_solver|intros []; set_solver|auto].
  - destruct (memp_malloc_spec _ Hwf _ _ _ _ Hd1 Hm) as (p & m & -> & [(-> & _ & Hm')|(Hp & HpB & Hm')]);
      eexists _, _; (split; [done|]); [left; split; [done|]; by exists B, A|].
    right. split; [exact (Hpos _ _ _ Hd1 Hp)|]. split; [by exists src_pbuf|].
    eapply (blocks_live_new L B A ({[p]} ∪ B) A); try done; [set_solver|intros []; set_solver|set_solver].
  - destruct (memp_malloc_spec _ Hwf _ _ _ _ Hd2 Hm) as (p & m & -> & [(-> & _ & Hm')|(Hp & HpB & Hm')]);
      eexists _, _; (split; [done|]); [left; split; [done|]; by exists B, A|].
    right. split; [exact (Hpos _ _ _ Hd2 Hp)|]. split; [by exists src_pool|].
    eapply (blocks_live_new L B A ({[p]} ∪ B) A); try done; [set_solver|intros []; set_solver|set_solver].
Qed.

Lemma blocks_free_law L s src p : blocks_live L s -> L !! p = Some src ->
  exists s', blocks_free src p s = Ok s' /\ blocks_live (delete p L) s'.
Proof using Hwf Hd1 Hd2 Hne Hheap.
  intros (B & A & Hm & Hh & HL & HB) Hp. destruct (HL _ _ Hp) as [Hs Ht].
  destruct src; unfold blocks_free; simpl in Hs, Ht.
  - destruct (mem_free_spec A s.2 p Hh Ht) as (h & -> & Hh'); [lia|]. eexists. split; [done|].
    eapply (blocks_live_gone L B A B (A ∖ {[p]})); try done; [intros []; set_solver|].
    intros q HqB Hq. split; [|done]. intros ->. destruct (Hheap p); tauto.
  - destruct (memp_free_spec _ Hwf _ _ _ _ _ Hd1 Hm Hs Ht) as (m & -> & Hm' & _). eexists. split; [done|].
    eapply (blocks_live_gone L B A (B ∖ {[p]}) A); try done; [intros []; set_solver|set_solver].
  - destruct (memp_free_spec _ Hwf _ _ _ _ _ Hd2 Hm Hs Ht) as (m & -> & Hm' & _). eexists. split; [done|].
    eapply (blocks_live_gone L B A (B ∖ {[p]}) A); try done; [intros []; set_solver|set_solver].
Qed.

(** [tcpip_try_callback] takes and returns messages of its own pool only. *)
Context (tcpip_try_callback : memp_state * H -> bool * (memp_state * H)).
Context (Hcallback : forall L s, blocks_live L s -> blocks_live L (tcpip_try_callback s).2).

Definition mem_PbufAlloc : PbufAlloc (memp_state * H) := {|
  pa_malloc := blocks_malloc;
  pa_free := blocks_free;
  pa_try_callback := tcpip_try_callback;
  pa_live := blocks_live;
  pa_addr p := exists src, of_source src p;
  pa_malloc_law := blocks_malloc_law;
  pa_free_law := blocks_free_law;
  pa_callback_law := Hcallback
|}.
End mem_pbufs.

(** ** A concrete memory: two pools of two pbufs and a heap that never reuses *)

Definition example_pbuf_pools : list memp_desc :=
  [{| desc_size := 24; desc_num := 2; desc_base := 0x1000 |};
   {| desc_size := 614; desc_num := 2; desc_base := 0x2000 |}].
Definition example_pbuf_boot : memp_state :=
  let st := {| st_err := 0; st_avail := 0; st_used := 0; st_max := 0; st_illegal := 0 |} in
  {| links := ∅; tab := [0; 0]; stats := [st; st] |}.

Lemma example_pbuf_pools_wf : pools_wf example_pbuf_pools.
Proof.
  split.
  - intros [|[|[|]]] d H; simplify_eq/=; lia.
  - intros [|[|[|]]] [|[|[|]]] d d' p H H'; simplify_eq/=; try done;
      unfold elements; simpl; set_solver by lia.
Qed.
Lemma example_pbuf_booted : boot example_pbuf_pools example_pbuf_boot.
Proof. split; [done|]. intros [|[|[|]]] d H; simplify_eq/=; eexists; by repeat split. Qed.

(** The heap's state is the next address. *)
#[local] Program Instance example_Heap : Heap Z := {|
  malloc n h := (h, h + Z.max 1 n);
  free _ h := h;
  heap_ok A h := 0x10000 <= h /\ forall p, p ∈ A -> p < h;
  heap_addr p := 0x10000 <= p
|}.
Next Obligation.
  intros A h n [Hh HA]. right. split; [lia|]. split; [done|].
  split; [intros Hin; specialize (HA _ Hin); lia|]. split; [lia|].
  intros p [->%elem_of_singleton|Hp]%elem_of_union; [|specialize (HA _ Hp)]; lia.
Qed.
Next Obligation. intros A h p [Hh HA] _. split; [done|]. intros q [Hq _]%elem_of_difference. auto. Qed.

Lemma example_regions p :
  heap_addr p -> (p ∉ elements {| desc_size := 24; desc_num := 2; desc_base := 0x1000 |}) /\
                 (p ∉ elements {| desc_size := 614; desc_num := 2; desc_base := 0x2000 |}).
Proof. simpl. intros H. unfold elements. simpl. set_solver by lia. Qed.

Definition example_PbufAlloc : PbufAlloc (memp_state * Z) :=
  mem_PbufAlloc example_pbuf_pools example_pbuf_pools_wf 0 1 _ _ eq_refl eq_refl (Nat.neq_succ_diag_r 0)
    example_regions (fun s => (true, s)) (fun _ _ H => H).
Definition example_mem : memp_state * Z := (memp_init example_pbuf_pools example_pbuf_boot, 0x10000).

Lemma example_mem_live : pa_live (PbufAlloc := example_PbufAlloc) ∅ example_mem.
Proof.
  exists ∅, ∅. split; [apply memp_init_inv; [apply example_pbuf_pools_wf|apply example_pbuf_booted]|].
  split; [split; [done|set_solver]|]. split; [|set_solver]. intros p src. by rewrite lookup_empty.
Qed.
