(* ===== verification/Pbuf.v ===== *)
(** * Packet buffers: structure (core/pbuf.c, include/lwip/pbuf.h)

    The [struct pbuf]s live in a store indexed by address; chains are linked by
    their [next] fields in that store, so aliasing and dangling pointers are
    visible: reading a pbuf that was freed is a [Fault].  Payload pointers are a
    memory object and an offset: the bytes behind a pbuf's own struct ([Own]),
    an object of the rest of the program ([Ext]), or no object ([Abs], with NULL
    as [Abs 0]).  Memory comes from the heap and two pools through the interface
    [PbufAlloc] of Mem.

    This file has allocation, reference counting, chaining and headers;
    PbufData has the functions that move and compare payload bytes. *)

From S2P Require Import Prelude Memp Mem.

Set Default Proof Using "Type".

(** ** Constants of pbuf.h, opt.h and pbuf.c *)

Definition PBUF_LINK_ENCAPSULATION_HLEN : Z := 0.
Definition PBUF_LINK_HLEN : Z := 14.
Definition PBUF_IP_HLEN : Z := 20.
Definition PBUF_TRANSPORT_HLEN : Z := 20.
Definition TCP_MSS : Z := 536.
Definition PBUF_POOL_BUFSIZE : Z :=
  LWIP_MEM_ALIGN_SIZE (TCP_MSS + PBUF_IP_HLEN + PBUF_TRANSPORT_HLEN
                       + PBUF_LINK_ENCAPSULATION_HLEN + PBUF_LINK_HLEN).
Definition PBUF_POOL_BUFSIZE_ALIGNED : Z := LWIP_MEM_ALIGN_SIZE PBUF_POOL_BUFSIZE.
(** [sizeof(struct pbuf)] on x86-64: two pointers, two [u16_t], four [u8_t]. *)
Definition SIZEOF_STRUCT_PBUF : Z := LWIP_MEM_ALIGN_SIZE 24.

Inductive pbuf_layer := PBUF_TRANSPORT | PBUF_IP | PBUF_LINK | PBUF_RAW_TX | PBUF_RAW.
Definition layer_offset (l : pbuf_layer) : Z :=
  match l with
  | PBUF_TRANSPORT =>
      PBUF_LINK_ENCAPSULATION_HLEN + PBUF_LINK_HLEN + PBUF_IP_HLEN + PBUF_TRANSPORT_HLEN
  | PBUF_IP => PBUF_LINK_ENCAPSULATION_HLEN + PBUF_LINK_HLEN + PBUF_IP_HLEN
  | PBUF_LINK => PBUF_LINK_ENCAPSULATION_HLEN + PBUF_LINK_HLEN
  | PBUF_RAW_TX => PBUF_LINK_ENCAPSULATION_HLEN
  | PBUF_RAW => 0
  end.

Definition PBUF_TYPE_FLAG_STRUCT_DATA_CONTIGUOUS : Z := 0x80.
Definition PBUF_TYPE_FLAG_DATA_VOLATILE : Z := 0x40.
Definition PBUF_TYPE_ALLOC_SRC_MASK : Z := 0x0f.
Definition PBUF_ALLOC_FLAG_RX : Z := 0x0100.
Definition PBUF_ALLOC_FLAG_DATA_CONTIGUOUS : Z := 0x0200.
Definition PBUF_TYPE_ALLOC_SRC_MASK_STD_HEAP : Z := 0x00.
Definition PBUF_TYPE_ALLOC_SRC_MASK_STD_MEMP_PBUF : Z := 0x01.
Definition PBUF_TYPE_ALLOC_SRC_MASK_STD_MEMP_PBUF_POOL : Z := 0x02.

Definition PBUF_RAM : Z :=
  Z.lor (Z.lor PBUF_ALLOC_FLAG_DATA_CONTIGUOUS PBUF_TYPE_FLAG_STRUCT_DATA_CONTIGUOUS)
        PBUF_TYPE_ALLOC_SRC_MASK_STD_HEAP.
Definition PBUF_ROM : Z := PBUF_TYPE_ALLOC_SRC_MASK_STD_MEMP_PBUF.
Definition PBUF_REF : Z :=
  Z.lor PBUF_TYPE_FLAG_DATA_VOLATILE PBUF_TYPE_ALLOC_SRC_MASK_STD_MEMP_PBUF.
Definition PBUF_POOL : Z :=
  Z.lor (Z.lor PBUF_ALLOC_FLAG_RX PBUF_TYPE_FLAG_STRUCT_DATA_CONTIGUOUS)
        PBUF_TYPE_ALLOC_SRC_MASK_STD_MEMP_PBUF_POOL.
Definition PBUF_FLAG_IS_CUSTOM : Z := 0x02.
Definition NETIF_NO_INDEX : Z := 0.

(** Error codes of err.h the functions return. *)
Definition ERR_OK : Z := 0.
Definition ERR_MEM : Z := -1.
Definition ERR_VAL : Z := -6.
Definition ERR_ARG : Z := -16.

(** ** Data *)

Inductive ptr :=
| Abs (a : Z)
| Own (p ofs : Z)
| Ext (b ofs : Z).
Definition NULL : ptr := Abs 0.

#[export] Instance ptr_eq_dec : EqDecision ptr.
Proof. solve_decision. Defined.

Definition ptr_add (x : ptr) (k : Z) : ptr :=
  match x with
  | Abs a => Abs (a + k)
  | Own p ofs => Own p (ofs + k)
  | Ext b ofs => Ext b (ofs + k)
  end.

(** The address a pointer holds. *)
Definition ptr_addr (x : ptr) : Z :=
  match x with
  | Abs a => a
  | Own p ofs => p + SIZEOF_STRUCT_PBUF + ofs
  | Ext b ofs => b + ofs
  end.

Record pbuf := {
  next : Z; payload : ptr; tot_len : Z; len : Z; type_internal : Z; flags : Z; ref : Z; if_idx : Z
}.

Definition with_next (b : pbuf) (x : Z) : pbuf :=
  {| next := x; payload := payload b; tot_len := tot_len b; len := len b;
     type_internal := type_internal b; flags := flags b; ref := ref b; if_idx := if_idx b |}.
Definition with_tot_len (b : pbuf) (x : Z) : pbuf :=
  {| next := next b; payload := payload b; tot_len := x; len := len b;
     type_internal := type_internal b; flags := flags b; ref := ref b; if_idx := if_idx b |}.
Definition with_ref (b : pbuf) (x : Z) : pbuf :=
  {| next := next b; payload := payload b; tot_len := tot_len b; len := len b;
     type_internal := type_internal b; flags := flags b; ref := x; if_idx := if_idx b |}.
(** [payload], [len] and [tot_len] together, as the header functions set them. *)
Definition with_extent (b : pbuf) (pl : ptr) (tl l : Z) : pbuf :=
  {| next := next b; payload := pl; tot_len := tl; len := l;
     type_internal := type_internal b; flags := flags b; ref := ref b; if_idx := if_idx b |}.

Definition pbuf_get_allocsrc (b : pbuf) : Z := Z.land (type_internal b) PBUF_TYPE_ALLOC_SRC_MASK.
Definition pbuf_match_allocsrc (b : pbuf) (type : Z) : bool :=
  pbuf_get_allocsrc b =? Z.land type PBUF_TYPE_ALLOC_SRC_MASK.

Section pbuf.
Context {S : Type} `{!PbufAlloc S}.

(** The pbufs, the objects payload pointers refer to, the free functions of
    custom pbufs, [pbuf_free_ooseq_pending] and the allocators. *)
Record pstate := {
  pbufs : gmap Z pbuf;
  own : gmap Z (list Z);
  ext : gmap Z (list Z);
  custom_fn : gmap Z Z;
  free_ooseq_pending : bool;
  alloc : S
}.

Definition with_pbufs (st : pstate) (h : gmap Z pbuf) : pstate :=
  {| pbufs := h; own := own st; ext := ext st; custom_fn := custom_fn st;
     free_ooseq_pending := free_ooseq_pending st; alloc := alloc st |}.
Definition with_own (st : pstate) (o : gmap Z (list Z)) : pstate :=
  {| pbufs := pbufs st; own := o; ext := ext st; custom_fn := custom_fn st;
     free_ooseq_pending := free_ooseq_pending st; alloc := alloc st |}.
Definition with_ext (st : pstate) (e : gmap Z (list Z)) : pstate :=
  {| pbufs := pbufs st; own := own st; ext := e; custom_fn := custom_fn st;
     free_ooseq_pending := free_ooseq_pending st; alloc := alloc st |}.
Definition with_pending (st : pstate) (b : bool) : pstate :=
  {| pbufs := pbufs st; own := own st; ext := ext st; custom_fn := custom_fn st;
     free_ooseq_pending := b; alloc := alloc st |}.
Definition with_alloc (st : pstate) (s : S) : pstate :=
  {| pbufs := pbufs st; own := own st; ext := ext st; custom_fn := custom_fn st;
     free_ooseq_pending := free_ooseq_pending st; alloc := s |}.

(** [M A] is a C function that returns [A]. *)
Abbreviation M := (ST pstate).

(** Calls of [custom_free_function], and the indeterminate bytes of fresh memory. *)
Context (call_custom_free : Z -> Z -> M unit) (garbage : Z -> Z).

Definition pb_get (p : Z) : M pbuf := fun st =>
  match pbufs st !! p with Some b => Ok (b, st) | None => Fault end.
Definition pb_set (p : Z) (b : pbuf) : M unit := fun st =>
  match pbufs st !! p with
  | Some _ => Ok (tt, with_pbufs st (<[p := b]> (pbufs st)))
  | None => Fault
  end.

(** Chains visit every live pbuf at most once. *)
Definition chain_fuel : M nat := fun st => Ok (Datatypes.S (size (pbufs st)), st).

(** ** Allocation *)

(** A fresh block of [n] bytes behind the struct at [p]. *)
Definition fresh_bytes (p n : Z) : list Z := map (fun i => u8 (garbage (p + i))) (seqZ 0 n).

(** [memp_malloc] or [mem_malloc] of a pbuf with [n] bytes of payload area. *)
Definition alloc_from (src : source) (n : Z) : M Z := fun st =>
  '(p, s) ← pa_malloc src (SIZEOF_STRUCT_PBUF + n) (alloc st);
  let st := with_alloc st s in
  Ok (p, if p =? 0 then st else with_own st (<[p := fresh_bytes p n]> (own st))).

(** [memp_free] or [mem_free]: the struct and the payload area are gone. *)
Definition free_to (src : source) (p : Z) : M unit := fun st =>
  s ← pa_free src p (alloc st);
  let st := with_alloc st s in
  Ok (tt, with_own (with_pbufs st (delete p (pbufs st))) (delete p (own st))).

Definition pbuf_init_alloced_pbuf (p : Z) (pl : ptr) (tl l type fl : Z) : M unit := fun st =>
  Ok (tt, with_pbufs st (<[p := {| next := 0; payload := pl; tot_len := tl; len := l;
                                   type_internal := u8 type; flags := fl; ref := 1;
                                   if_idx := NETIF_NO_INDEX |}]> (pbufs st))).

Definition pbuf_pool_is_empty : M unit := fun st =>
  let queued := free_ooseq_pending st in
  let st := with_pending st true in
  if negb queued then
    let '(ok, s) := pa_try_callback (alloc st) in
    let st := with_alloc st s in
    Ok (tt, if negb ok then with_pending st false else st)
  else Ok (tt, st).

Definition pbuf_alloc_reference (pl : ptr) (length type : Z) : M Z :=
  _ ← sassert ((type =? PBUF_REF) || (type =? PBUF_ROM));
  p ← alloc_from src_pbuf 0;
  if p =? 0 then mret 0
  else
    _ ← pbuf_init_alloced_pbuf p pl length length type 0;
    mret p.

Definition pbuf_alloced_custom (l : pbuf_layer) (length type p : Z) (payload_mem : ptr)
    (payload_mem_len : Z) : M Z :=
  let offset := layer_offset l in
  if payload_mem_len <? LWIP_MEM_ALIGN_SIZE offset + length then mret 0
  else
    let pl := if bool_decide (payload_mem = NULL) then NULL
              else ptr_add payload_mem (LWIP_MEM_ALIGN_SIZE offset) in
    _ ← pbuf_init_alloced_pbuf p pl length length type PBUF_FLAG_IS_CUSTOM;
    mret p.

(** ** Reference counts *)

(** The end of [pbuf_free] for one pbuf whose count reached zero. *)
Definition pbuf_release (p : Z) (b : pbuf) : M unit :=
  let alloc_src := pbuf_get_allocsrc b in
  if negb (Z.land (flags b) PBUF_FLAG_IS_CUSTOM =? 0) then
    st ← get;
    let fn := default 0 (custom_fn st !! p) in
    _ ← sassert (negb (fn =? 0));
    call_custom_free fn p
  else if alloc_src =? PBUF_TYPE_ALLOC_SRC_MASK_STD_MEMP_PBUF_POOL then free_to src_pool p
  else if alloc_src =? PBUF_TYPE_ALLOC_SRC_MASK_STD_MEMP_PBUF then free_to src_pbuf p
  else if alloc_src =? PBUF_TYPE_ALLOC_SRC_MASK_STD_HEAP then free_to src_heap p
  else sassert false.

Fixpoint pbuf_free_loop (fuel : nat) (p count : Z) : M Z :=
  match fuel with
  | O => fun _ => Diverge
  | Datatypes.S fuel' =>
      if p =? 0 then mret count
      else
        b ← pb_get p;
        _ ← sassert (0 <? ref b);
        let r := u8 (ref b - 1) in
        _ ← pb_set p (with_ref b r);
        if r =? 0 then
          _ ← pbuf_release p (with_ref b r);
          pbuf_free_loop fuel' (next b) (u8 (count + 1))
        else mret count
  end.

Definition pbuf_free (p : Z) : M Z :=
  if p =? 0 then (_ ← sassert false; mret 0)
  else fuel ← chain_fuel; pbuf_free_loop (Datatypes.S fuel) p 0.

Definition pbuf_ref (p : Z) : M unit :=
  if negb (p =? 0) then
    b ← pb_get p;
    let r := u8 (ref b + 1) in
    _ ← pb_set p (with_ref b r);
    sassert (0 <? r)
  else mret tt.

Fixpoint pbuf_clen_loop (fuel : nat) (p l : Z) : M Z :=
  match fuel with
  | O => fun _ => Diverge
  | Datatypes.S fuel' =>
      if p =? 0 then mret l
      else b ← pb_get p; pbuf_clen_loop fuel' (next b) (u16 (l + 1))
  end.
Definition pbuf_clen (p : Z) : M Z :=
  fuel ← chain_fuel; pbuf_clen_loop fuel p 0.

(** ** Allocation of packets *)

(** The loop of [PBUF_POOL]; [p] and [last] are 0 in the first iteration. *)
Fixpoint alloc_pool_loop (fuel : nat) (p last rem_len offset : Z) : M Z :=
  match fuel with
  | O => fun _ => Diverge
  | Datatypes.S fuel' =>
      q ← alloc_from src_pool PBUF_POOL_BUFSIZE_ALIGNED;
      if q =? 0 then
        _ ← pbuf_pool_is_empty;
        _ ← (if negb (p =? 0) then (_ ← pbuf_free p; mret tt) else mret tt);
        mret 0
      else
        let room := u32 (PBUF_POOL_BUFSIZE_ALIGNED - LWIP_MEM_ALIGN_SIZE offset) in
        let qlen := Z.min rem_len (u16 room) in
        _ ← pbuf_init_alloced_pbuf q (Own q offset) rem_len qlen PBUF_POOL 0;
        _ ← sassert (ptr_addr (Own q offset) mod MEM_ALIGNMENT =? 0);
        _ ← sassert (0 <? room);
        _ ← (if p =? 0 then mret tt else lb ← pb_get last; pb_set last (with_next lb q));
        let p := if p =? 0 then q else p in
        let rem_len := u16 (rem_len - qlen) in
        if 0 <? rem_len then alloc_pool_loop fuel' p q rem_len 0 else mret p
  end.

Definition pbuf_alloc (layer : pbuf_layer) (length type : Z) : M Z :=
  let offset := layer_offset layer in
  if (type =? PBUF_REF) || (type =? PBUF_ROM) then pbuf_alloc_reference NULL length type
  else if type =? PBUF_POOL then
    alloc_pool_loop (Datatypes.S (Z.to_nat length)) 0 0 length offset
  else if type =? PBUF_RAM then
    let payload_len := u32 (LWIP_MEM_ALIGN_SIZE offset + LWIP_MEM_ALIGN_SIZE length) in
    let alloc_len := u64 (LWIP_MEM_ALIGN_SIZE SIZEOF_STRUCT_PBUF + payload_len) in
    if (payload_len <? LWIP_MEM_ALIGN_SIZE length) || (alloc_len <? LWIP_MEM_ALIGN_SIZE length)
    then mret 0
    else
      p ← alloc_from src_heap (alloc_len - SIZEOF_STRUCT_PBUF);
      if p =? 0 then mret 0
      else
        _ ← pbuf_init_alloced_pbuf p (Own p offset) length length type 0;
        _ ← sassert (ptr_addr (Own p offset) mod MEM_ALIGNMENT =? 0);
        mret p
  else _ ← sassert false; mret 0.

(** ** Headers *)

(** [true] is the non-zero return value, failure. *)
Definition pbuf_add_header_impl (p header_size_increment : Z) (force : bool) : M bool :=
  _ ← sassert (negb (p =? 0));
  if 0xffff <? header_size_increment then mret true
  else if header_size_increment =? 0 then mret false
  else
    b ← pb_get p;
    let increment_magnitude := u16 header_size_increment in
    if u16 (increment_magnitude + tot_len b) <? increment_magnitude then mret true
    else
      let pl := ptr_add (payload b) (- header_size_increment) in
      let bad :=
        if negb (Z.land (type_internal b) PBUF_TYPE_FLAG_STRUCT_DATA_CONTIGUOUS =? 0)
        then ptr_addr pl <? p + SIZEOF_STRUCT_PBUF
        else negb force in
      if bad then mret true
      else
        _ ← pb_set p (with_extent b pl (u16 (tot_len b + increment_magnitude))
                                       (u16 (len b + increment_magnitude)));
        mret false.

Definition pbuf_add_header (p n : Z) : M bool := pbuf_add_header_impl p n false.
Definition pbuf_add_header_force (p n : Z) : M bool := pbuf_add_header_impl p n true.

Definition pbuf_remove_header (p header_size_decrement : Z) : M bool :=
  _ ← sassert (negb (p =? 0));
  if 0xffff <? header_size_decrement then mret true
  else if header_size_decrement =? 0 then mret false
  else
    b ← pb_get p;
    let increment_magnitude := u16 header_size_decrement in
    if negb (increment_magnitude <=? len b) then mret true
    else
      _ ← pb_set p (with_extent b (ptr_add (payload b) header_size_decrement)
                                  (u16 (tot_len b - increment_magnitude))
                                  (u16 (len b - increment_magnitude)));
      mret false.

(** [header_size_increment] is a [s16_t]. *)
Definition pbuf_header_impl (p header_size_increment : Z) (force : bool) : M bool :=
  if header_size_increment <? 0 then pbuf_remove_header p (- header_size_increment)
  else pbuf_add_header_impl p header_size_increment force.
Definition pbuf_header (p n : Z) : M bool := pbuf_header_impl p n false.
Definition pbuf_header_force (p n : Z) : M bool := pbuf_header_impl p n true.

Fixpoint pbuf_free_header_loop (fuel : nat) (p free_left : Z) : M Z :=
  match fuel with
  | O => fun _ => Diverge
  | Datatypes.S fuel' =>
      if (free_left =? 0) || (p =? 0) then mret p
      else
        b ← pb_get p;
        if len b <=? free_left then
          _ ← pb_set p (with_next b 0);
          _ ← pbuf_free p;
          pbuf_free_header_loop fuel' (next b) (u16 (free_left - len b))
        else
          _ ← pbuf_remove_header p free_left;
          mret p
  end.
Definition pbuf_free_header (q size : Z) : M Z :=
  fuel ← chain_fuel; pbuf_free_header_loop fuel q size.

(** ** Chaining *)

(** The loop to the last pbuf of [h], which it returns. *)
Fixpoint pbuf_cat_loop (fuel : nat) (p t : Z) : M Z :=
  match fuel with
  | O => fun _ => Diverge
  | Datatypes.S fuel' =>
      b ← pb_get p;
      if negb (next b =? 0) then
        tb ← pb_get t;
        _ ← pb_set p (with_tot_len b (u16 (tot_len b + tot_len tb)));
        pbuf_cat_loop fuel' (next b) t
      else mret p
  end.

Definition pbuf_cat (h t : Z) : M unit :=
  if (h =? 0) || (t =? 0) then mret tt
  else
    _ ← sassert (negb (h =? t));
    fuel ← chain_fuel;
    p ← pbuf_cat_loop fuel h t;
    b ← pb_get p;
    _ ← sassert (tot_len b =? len b);
    _ ← sassert (next b =? 0);
    tb ← pb_get t;
    pb_set p (with_next (with_tot_len b (u16 (tot_len b + tot_len tb))) t).

Definition pbuf_chain (h t : Z) : M unit :=
  _ ← pbuf_cat h t;
  pbuf_ref t.

Definition pbuf_dechain (p : Z) : M Z :=
  b ← pb_get p;
  let q := next b in
  tail_gone ←
    (if negb (q =? 0) then
       qb ← pb_get q;
       _ ← sassert (tot_len qb =? tot_len b - len b);
       _ ← pb_set q (with_tot_len qb (u16 (tot_len b - len b)));
       b ← pb_get p;
       _ ← pb_set p (with_tot_len (with_next b 0) (len b));
       pbuf_free q
     else mret 1);
  b ← pb_get p;
  _ ← sassert (tot_len b =? len b);
  mret (if 0 <? tail_gone then 0 else q).

(** ** Shrinking *)

(** Stepping over the pbufs that remain; returns the new last one and its
    length. *)
Fixpoint pbuf_realloc_loop (fuel : nat) (q rem_len shrink : Z) : M (Z * Z) :=
  match fuel with
  | O => fun _ => Diverge
  | Datatypes.S fuel' =>
      b ← pb_get q;
      if len b <? rem_len then
        _ ← pb_set q (with_tot_len b (u16 (tot_len b - shrink)));
        _ ← sassert (negb (next b =? 0));
        pbuf_realloc_loop fuel' (next b) (u16 (rem_len - len b)) shrink
      else mret (q, rem_len)
  end.

Definition pbuf_realloc (p new_len : Z) : M unit :=
  _ ← sassert (negb (p =? 0));
  b ← pb_get p;
  if tot_len b <=? new_len then mret tt
  else
    let shrink := u16 (tot_len b - new_len) in
    fuel ← chain_fuel;
    '(q, rem_len) ← pbuf_realloc_loop fuel p new_len shrink;
    b ← pb_get q;
    _ ← (if pbuf_match_allocsrc b PBUF_TYPE_ALLOC_SRC_MASK_STD_HEAP
            && negb (rem_len =? len b)
            && (Z.land (flags b) PBUF_FLAG_IS_CUSTOM =? 0) then
           let r := mem_trim q (ptr_addr (payload b) - q + rem_len) in
           _ ← sassert (negb (r =? 0));
           sassert (r =? q)
         else mret tt);
    _ ← pb_set q (with_extent b (payload b) rem_len rem_len);
    _ ← (if negb (next b =? 0) then (_ ← pbuf_free (next b); mret tt) else mret tt);
    b ← pb_get q;
    pb_set q (with_next b 0).

(** ** Packets

    A packet is described by the addresses of its pbufs with their contents up
    to [next] and [tot_len], which [link] computes: [next] is the following pbuf
    and [tot_len] the sum of the lengths from here to the end. *)

Definition head_addr (l : list (Z * pbuf)) : Z :=
  match l with [] => 0 | (a, _) :: _ => a end.
Definition total (l : list (Z * pbuf)) : Z := foldr (fun x acc => len x.2 + acc) 0 l.
Definition link (b : pbuf) (l : list (Z * pbuf)) : pbuf :=
  with_tot_len (with_next b (head_addr l)) (len b + total l).

Fixpoint packet (h : gmap Z pbuf) (l : list (Z * pbuf)) : Prop :=
  match l with
  | [] => True
  | (a, b) :: l' => a <> 0 /\ h !! a = Some (link b l') /\ packet h l'
  end.

(** Lengths are 16-bit, of each pbuf and in total. *)
Definition sized (l : list (Z * pbuf)) : Prop :=
  Forall (fun x => 0 <= len x.2) l /\ total l < 65536.

Definition addrs (l : list (Z * pbuf)) : list Z := map fst l.

Lemma pb_get_bind {B} p b st (f : pbuf -> M B) :
  pbufs st !! p = Some b -> (pb_get p ≫= f) st = f b st.
Proof. intros H. unfold mbind, st_bind, pb_get. by rewrite H. Qed.
Lemma pb_set_ok p b b' st :
  pbufs st !! p = Some b ->
  pb_set p b' st = Ok (tt, with_pbufs st (<[p := b']> (pbufs st))).
Proof. intros H. unfold pb_set. by rewrite H. Qed.
Lemma pb_set_bind {B} p b b' st (f : unit -> M B) :
  pbufs st !! p = Some b ->
  (pb_set p b' ≫= f) st = f tt (with_pbufs st (<[p := b']> (pbufs st))).
Proof. intros H. unfold mbind, st_bind. by rewrite (pb_set_ok p b). Qed.
Lemma chain_fuel_bind {B} st (f : nat -> M B) :
  (chain_fuel ≫= f) st = f (Datatypes.S (size (pbufs st))) st.
Proof. done. Qed.

Lemma total_app l1 l2 : total (l1 ++ l2) = total l1 + total l2.
Proof. induction l1 as [|[a b] l1 IH]; simpl; lia. Qed.
Lemma total_nonneg l : Forall (fun x => 0 <= len x.2) l -> 0 <= total l.
Proof. induction 1 as [|[a b] l Hb _ IH]; simpl in *; lia. Qed.
Lemma sized_cons a b l : sized ((a, b) :: l) -> sized l /\ 0 <= len b /\ len b + total l < 65536.
Proof.
  intros [Hf Ht]. apply Forall_cons in Hf as [Hb Hf]. simpl in *.
  pose proof (total_nonneg _ Hf). repeat split; [done|simpl in Ht; lia..].
Qed.

Lemma packet_app h l1 l2 : packet h (l1 ++ l2) -> packet h l2.
Proof. induction l1 as [|[a b] l1 IH]; simpl; [done|]. intros (_ & _ & H). auto. Qed.

Lemma packet_ext h h' l :
  packet h l -> (forall a, a ∈ addrs l -> h' !! a = h !! a) -> packet h' l.
Proof.
  induction l as [|[a b] l IH]; simpl; [done|]. intros (Ha & Hb & Hl) Hext.
  split; [done|]. split; [by rewrite Hext by (by left)|]. apply IH; [done|].
  intros a' Ha'. apply Hext. by right.
Qed.
Lemma packet_insert h l a b : packet h l -> a ∉ addrs l -> packet (<[a := b]> h) l.
Proof.
  intros H Ha. eapply packet_ext; [exact H|]. intros a' Ha'. apply lookup_insert_ne. congruence.
Qed.
Lemma packet_delete h l a : packet h l -> a ∉ addrs l -> packet (delete a h) l.
Proof.
  intros H Ha. eapply packet_ext; [exact H|]. intros a' Ha'. apply lookup_delete_ne. by intros ->.
Qed.

(** Following [next] alone, whatever the lengths: what [pbuf_free] goes by. *)
Fixpoint chained (h : gmap Z pbuf) (l : list (Z * pbuf)) : Prop :=
  match l with
  | [] => True
  | (a, b) :: l' => a <> 0 /\ h !! a = Some b /\ next b = head_addr l' /\ chained h l'
  end.

Lemma chained_app h l1 l2 : chained h (l1 ++ l2) -> chained h l2.
Proof. induction l1 as [|[a b] l1 IH]; simpl; [done|]. intros (_ & _ & _ & H). auto. Qed.

Lemma chained_ext h h' l :
  chained h l -> (forall a, a ∈ addrs l -> h' !! a = h !! a) -> chained h' l.
Proof.
  induction l as [|[a b] l IH]; simpl; [done|]. intros (Ha & Hb & Hn & Hl) Hext.
  split; [done|]. split; [by rewrite Hext by (by left)|]. split; [done|]. apply IH; [done|].
  intros a' Ha'. apply Hext. by right.
Qed.

(** Chains at the same address visit the same pbufs. *)
Lemma chained_det h l l' : chained h l -> chained h l' -> head_addr l = head_addr l' -> l = l'.
Proof.
  revert l'. induction l as [|[a b] l IH]; intros [|[a' b'] l']; simpl; try done.
  - intros _ (Ha & _) ?. congruence.
  - intros (Ha & _) _ ?. congruence.
  - intros (Ha & Hb & Hn & Hl) (Ha' & Hb' & Hn' & Hl') <-. rewrite Hb in Hb'.
    injection Hb' as <-. f_equal. apply IH; [done..|congruence].
Qed.

Lemma chained_NoDup h l : chained h l -> NoDup (addrs l).
Proof.
  induction l as [|[a b] l IH]; simpl; [constructor|]. intros (Ha & Hb & Hn & Hl).
  apply NoDup_cons. split; [|auto]. intros Hin.
  apply list_elem_of_fmap in Hin as ([a' b'] & -> & Hin). simpl in *.
  apply list_elem_of_split in Hin as (l1 & l2 & ->).
  assert (Hp : chained h ((a', b') :: l2)) by (by eapply chained_app).
  assert (E : l1 ++ (a', b') :: l2 = l2).
  { destruct Hp as (_ & Hb2 & Hn2 & Hp2). apply (chained_det h); [done..|congruence]. }
  apply (f_equal length) in E. rewrite length_app in E. simpl in E. lia.
Qed.

(** A chain is no longer than the store. *)
Lemma chained_length h l : chained h l -> (length l <= size h)%nat.
Proof.
  intros H. rewrite <-(size_dom (D := gset Z) h).
  transitivity (size (list_to_set (addrs l) : gset Z)).
  - rewrite size_list_to_set by (by eapply chained_NoDup). unfold addrs. by rewrite length_map.
  - apply subseteq_size. intros a Ha%elem_of_list_to_set. apply elem_of_dom. clear -H Ha.
    induction l as [|[a' b] l IH]; simpl in *; [by apply elem_of_nil in Ha|].
    destruct H as (_ & Hb & _ & Hl). apply elem_of_cons in Ha as [->|Ha]; [by eexists|auto].
Qed.

(** A packet as the chain of its complete structs. *)
Fixpoint linkup (l : list (Z * pbuf)) : list (Z * pbuf) :=
  match l with
  | [] => []
  | (a, b) :: l' => (a, link b l') :: linkup l'
  end.

Lemma linkup_head l : head_addr (linkup l) = head_addr l.
Proof. by destruct l as [|[]]. Qed.
Lemma linkup_addrs l : addrs (linkup l) = addrs l.
Proof. induction l as [|[a b] l IH]; [done|]. unfold addrs in *. simpl. by rewrite IH. Qed.
Lemma linkup_length l : length (linkup l) = length l.
Proof. induction l as [|[a b] l IH]; simpl; auto. Qed.
Lemma packet_chained h l : packet h l <-> chained h (linkup l).
Proof.
  induction l as [|[a b] l IH]; simpl; [done|]. rewrite IH, linkup_head.
  split; [intros (? & ? & ?)|intros (? & ? & ? & ?)]; done.
Qed.

Lemma packet_NoDup h l : packet h l -> NoDup (addrs l).
Proof. rewrite packet_chained, <-linkup_addrs. apply chained_NoDup. Qed.
Lemma packet_length h l : packet h l -> (length l <= size h)%nat.
Proof. rewrite packet_chained, <-linkup_length. apply chained_length. Qed.

Lemma head_addr_nonzero h l : packet h l -> l <> [] -> head_addr l <> 0.
Proof. destruct l as [|[a b] l]; simpl; [done|]. by intros (? & _). Qed.
Lemma head_addr_eqb h l : packet h l -> (head_addr l =? 0) = bool_decide (l = []).
Proof.
  destruct l as [|[a b] l]; [done|]. intros (? & _). rewrite bool_decide_false by done. cbn [head_addr].
  lia.
Qed.

(** [pbuf_clen] is the number of pbufs, modulo 2^16. *)
Lemma pbuf_clen_loop_spec fuel l st n :
  packet (pbufs st) l -> (length l < fuel)%nat ->
  pbuf_clen_loop fuel (head_addr l) n st
  = Ok (match l with [] => n | _ => u16 (n + Z.of_nat (length l)) end, st).
Proof.
  revert l n. induction fuel as [|fuel IH]; intros l n Hp Hf; [lia|]. cbn [pbuf_clen_loop].
  rewrite (head_addr_eqb _ _ Hp). destruct l as [|[a b] l]; [done|]. simpl in Hp.
  rewrite bool_decide_false by done. destruct Hp as (Ha & Hb & Hl). cbn [head_addr].
  rewrite (pb_get_bind _ _ _ _ Hb). change (next (link b l)) with (head_addr l).
  rewrite IH by (done || simpl in Hf; lia). destruct l; simpl length.
  - do 3 f_equal; lia.
  - f_equal. f_equal. unfold u16. rewrite Z.add_mod_idemp_l by done. f_equal. lia.
Qed.

(** ** Concatenation *)

(** The loop adds [t]'s total to every pbuf but the last. *)
Lemma pbuf_cat_loop_spec fuel l a b st t tb :
  packet (pbufs st) (l ++ [(a, b)]) -> (length l < fuel)%nat ->
  pbufs st !! t = Some tb -> t ∉ addrs (l ++ [(a, b)]) ->
  sized (l ++ [(a, b)]) -> 0 <= tot_len tb -> total (l ++ [(a, b)]) + tot_len tb < 65536 ->
  exists h, pbuf_cat_loop fuel (head_addr (l ++ [(a, b)])) t st = Ok (a, with_pbufs st h) /\
    (forall x, x ∉ addrs l -> h !! x = pbufs st !! x) /\
    (forall l1 a1 b1 l2, l = l1 ++ (a1, b1) :: l2 ->
       h !! a1 = Some (with_tot_len (link b1 (l2 ++ [(a, b)]))
                        (total ((a1, b1) :: l2 ++ [(a, b)]) + tot_len tb))).
Proof.
  revert fuel st. induction l as [|[a0 b0] l IH]; intros fuel st Hp Hf Ht Htn Hs Ht0 Hsum.
  - destruct fuel as [|fuel]; [lia|]. destruct Hp as (Ha & Hb & _). cbn [pbuf_cat_loop app head_addr].
    rewrite (pb_get_bind _ _ _ _ Hb). simpl. exists (pbufs st). split; [by destruct st|].
    split; [done|]. by intros [|] a1 b1 l2 E.
  - destruct fuel as [|fuel]; [simpl in Hf; lia|]. cbn [pbuf_cat_loop app head_addr].
    assert (Hnd := packet_NoDup _ _ Hp). cbn [app] in *. destruct Hp as (Ha & Hb & Hl).
    apply sized_cons in Hs as (Hs & Hb0 & Hs0).
    rewrite (pb_get_bind _ _ _ _ Hb). change (next (link b0 _)) with (head_addr (l ++ [(a, b)])).
    replace (head_addr (l ++ [(a, b)]) =? 0) with false by
      (symmetry; apply Z.eqb_neq; eapply head_addr_nonzero; [exact Hl|by destruct l]).
    cbn [negb]. rewrite (pb_get_bind _ _ _ _ Ht), (pb_set_bind _ _ _ _ _ Hb).
    simpl in Hnd, Htn. apply NoDup_cons in Hnd as [Hna Hnd].
    destruct (IH fuel (with_pbufs st (<[a0 := with_tot_len (link b0 (l ++ [(a, b)]))
      (u16 (tot_len (link b0 (l ++ [(a, b)])) + tot_len tb))]> (pbufs st))))
      as (h & -> & Hfr & Hupd).
    + by apply packet_insert.
    + simpl in Hf. lia.
    + simpl. rewrite lookup_insert_ne; [done|]. intros ->. apply Htn. by left.
    + intros Hin. apply Htn. by right.
    + done.
    + done.
    + simpl in Hsum. lia.
    + exists h. split; [done|]. simpl in Hfr. split.
      * intros x [Hx1 Hx2]%not_elem_of_cons. rewrite Hfr by done. by apply lookup_insert_ne.
      * intros [|x1 l1] a1 b1 l2 E; simplify_eq/=.
        -- rewrite Hfr.
           ++ rewrite lookup_insert_eq. do 2 f_equal. simpl in *. rewrite u16_id; [lia|].
              unfold is_u16. pose proof (total_nonneg _ (proj1 Hs)). lia.
           ++ intros Hin. apply Hna. unfold addrs in *. rewrite map_app, elem_of_app. by left.
        -- by eapply Hupd.
Qed.

Lemma packet_split h l :
  packet h l <-> forall l1 a b l2, l = l1 ++ (a, b) :: l2 -> a <> 0 /\ h !! a = Some (link b l2).
Proof.
  split.
  - intros H l1 a b l2 ->. apply packet_app in H as (? & ? & _). done.
  - induction l as [|[a b] l IH]; [done|]. intros H.
    destruct (H [] a b l eq_refl) as [Ha Hb]. split; [done|]. split; [done|]. apply IH.
    intros l1 a1 b1 l2 ->. apply (H ((a, b) :: l1)). done.
Qed.

Lemma link_app b l x l2 :
  link b ((l ++ [x]) ++ l2) = with_tot_len (link b (l ++ [x])) (len b + total (l ++ [x]) + total l2).
Proof.
  unfold link, with_tot_len, with_next. simpl. f_equal; [by destruct l as [|[]], x|].
  rewrite (total_app (l ++ [x])). lia.
Qed.

Lemma packet_nonzero h l x : packet h l -> x ∈ addrs l -> x <> 0.
Proof.
  intros Hp ([x' b'] & -> & (m1 & m2 & ->)%list_elem_of_split)%list_elem_of_fmap.
  by destruct (proj1 (packet_split _ _) Hp m1 x' b' m2).
Qed.
Lemma addrs_app l1 l2 : addrs (l1 ++ l2) = addrs l1 ++ addrs l2.
Proof. apply map_app. Qed.
Lemma packet_snoc_fresh h l a b : packet h (l ++ [(a, b)]) -> a ∉ addrs l.
Proof.
  intros Hnd%packet_NoDup. rewrite addrs_app in Hnd. apply NoDup_app in Hnd as (_ & Hna & _).
  intros Hin. apply (Hna a Hin). by left.
Qed.

(** Totals updated along the first packet, its last pbuf linked to the second. *)
Lemma packet_join h l1 a b l2 :
  a <> 0 -> a ∉ addrs l1 -> a ∉ addrs l2 -> (forall x, x ∈ addrs l1 -> x <> 0) -> packet h l2 ->
  (forall l a1 b1 l', l1 = l ++ (a1, b1) :: l' ->
     h !! a1 = Some (with_tot_len (link b1 (l' ++ [(a, b)]))
                      (total ((a1, b1) :: l' ++ [(a, b)]) + total l2))) ->
  packet (<[a := link b l2]> h) (l1 ++ (a, b) :: l2).
Proof.
  intros Ha. induction l1 as [|[a1 b1] l1 IH]; intros Hn1 Hn2 Hnz Hp2 Hupd.
  - split; [done|]. split; [apply lookup_insert_eq|]. by apply packet_insert.
  - apply not_elem_of_cons in Hn1 as [Hne Hn1]. split; [apply Hnz; by left|]. split.
    + rewrite lookup_insert_ne by done. rewrite (Hupd [] a1 b1 l1 eq_refl).
      change ((a, b) :: l2) with ([(a, b)] ++ l2). rewrite (app_assoc l1), link_app. done.
    + apply IH; [done|done|intros x Hx; apply Hnz; by right|done|].
      intros l a' b' l' ->. by apply (Hupd ((a1, b1) :: l)).
Qed.

(** [pbuf_cat] of two packets is the packet of all their pbufs. *)
Lemma pbuf_cat_spec st l1 l2 :
  packet (pbufs st) l1 -> packet (pbufs st) l2 -> l1 <> [] -> l2 <> [] ->
  (forall a, a ∈ addrs l1 -> a ∉ addrs l2) ->
  sized l1 -> sized l2 -> total l1 + total l2 < 65536 ->
  exists h, pbuf_cat (head_addr l1) (head_addr l2) st = Ok (tt, with_pbufs st h) /\
    packet h (l1 ++ l2) /\ packet h l2 /\
    (forall x, x ∉ addrs l1 -> h !! x = pbufs st !! x).
Proof.
  intros Hp1 Hp2 Hn1 Hn2 Hdis Hs1 Hs2 Hsum. unfold pbuf_cat.
  destruct l1 as [|[a b] l1 _] using rev_ind; [done|].
  destruct l2 as [|[t tb] l2]; [done|]. clear Hn1 Hn2.
  assert (Hh := head_addr_nonzero _ _ Hp1 ltac:(by destruct l1)).
  assert (Hp2' := Hp2). destruct Hp2' as (Ht0 & Ht & _). cbn [head_addr] in *.
  assert (Htn : t ∉ addrs (l1 ++ [(a, b)])) by (intros Hin; apply (Hdis t Hin); by left).
  assert (Hnum : 0 <= total l1 /\ 0 <= len b /\ 0 <= len tb + total l2 /\
    total l1 + len b + (len tb + total l2) < 65536).
  { rewrite total_app in Hsum. simpl in Hsum. destruct Hs1 as [[Hf Hb]%Forall_app _].
    apply Forall_cons in Hb as [Hb _]. apply total_nonneg in Hf.
    pose proof (total_nonneg _ (proj1 Hs2)). simpl in *. lia. }
  replace ((head_addr (l1 ++ [(a, b)]) =? 0) || (t =? 0)) with false by lia.
  rewrite sassert_bind.
  2:{ destruct (Z.eqb_spec (head_addr (l1 ++ [(a, b)])) t) as [E|]; [|done]. exfalso. apply Htn.
      rewrite <-E. destruct l1 as [|[]]; by left. }
  rewrite chain_fuel_bind.
  destruct (pbuf_cat_loop_spec (Datatypes.S (size (pbufs st))) l1 a b st t (link tb l2))
    as (h & E & Hfr & Hupd); [done| |done|done|done|apply Hnum|by simpl in *; lia|].
  { pose proof (packet_length _ _ Hp1) as Hlen. rewrite length_app in Hlen. simpl in Hlen. lia. }
  assert (Hal : a ∉ addrs l1) by (by eapply packet_snoc_fresh).
  assert (Hb := packet_app _ l1 _ Hp1). destruct Hb as (Ha & Hb & _).
  rewrite (st_bind_ok _ _ _ _ _ E), (pb_get_bind a (link b [])) by (simpl; by rewrite Hfr).
  rewrite !sassert_bind by (simpl; lia).
  rewrite (pb_get_bind t (link tb l2)) by (simpl; rewrite Hfr; [done|];
    intros Hin; apply Htn; rewrite addrs_app, elem_of_app; by left).
  erewrite pb_set_ok by (simpl; by rewrite Hfr). eexists. split; [done|]. simpl pbufs.
  replace (u16 (tot_len (link b []) + tot_len (link tb l2))) with (len b + total ((t, tb) :: l2))
    by (simpl; rewrite u16_id; [|unfold is_u16]; lia).
  change (with_next (with_tot_len (link b []) (len b + total ((t, tb) :: l2))) t)
    with (link b ((t, tb) :: l2)).
  assert (Hout : forall x, x ∉ addrs (l1 ++ [(a, b)]) ->
    <[a := link b ((t, tb) :: l2)]> h !! x = pbufs st !! x).
  { intros x Hx. rewrite addrs_app, elem_of_app in Hx.
    rewrite lookup_insert_ne by (intros ->; apply Hx; right; by left). apply Hfr.
    intros Hin. apply Hx. by left. }
  assert (Hal2 : a ∉ addrs ((t, tb) :: l2)).
  { apply Hdis. rewrite addrs_app, elem_of_app. right. by left. }
  split; [|split; [|exact Hout]].
  - rewrite <-app_assoc. apply packet_join; [done|done|done| | |].
    + intros x Hx. eapply packet_nonzero; [exact Hp1|]. rewrite addrs_app, elem_of_app. by left.
    + eapply packet_ext; [exact Hp2|]. intros x Hx. apply Hfr. intros Hin.
      apply (Hdis x); [|done]. rewrite addrs_app, elem_of_app. by left.
    + done.
  - eapply packet_ext; [exact Hp2|]. intros x Hx. apply Hout. intros Hin. by apply (Hdis x).
Qed.

(** ** Reference counting *)

(** The allocator a pbuf returns to; custom pbufs have their own function. *)
Definition source_of (b : pbuf) : option source :=
  if negb (Z.land (flags b) PBUF_FLAG_IS_CUSTOM =? 0) then None
  else if pbuf_get_allocsrc b =? PBUF_TYPE_ALLOC_SRC_MASK_STD_MEMP_PBUF_POOL then Some src_pool
  else if pbuf_get_allocsrc b =? PBUF_TYPE_ALLOC_SRC_MASK_STD_MEMP_PBUF then Some src_pbuf
  else if pbuf_get_allocsrc b =? PBUF_TYPE_ALLOC_SRC_MASK_STD_HEAP then Some src_heap
  else None.

(** The blocks that are live: exactly those of the pbufs that are not custom, so
    no block is lost or freed twice. *)
Definition live (h : gmap Z pbuf) : gmap Z source := omap source_of h.
Definition pstate_ok (st : pstate) : Prop :=
  pa_live (live (pbufs st)) (alloc st) /\
  forall p b, pbufs st !! p = Some b -> source_of b = None -> ~ pa_addr p.

Lemma live_insert h p b b' :
  h !! p = Some b -> source_of b' = source_of b -> live (<[p := b']> h) = live h.
Proof.
  intros Hp Hs. unfold live. apply map_eq. intros q. rewrite !lookup_omap.
  destruct (decide (q = p)) as [->|Hne].
  - rewrite lookup_insert_eq, Hp. exact Hs.
  - by rewrite lookup_insert_ne.
Qed.

(** The pbufs at the head with a single reference, which [pbuf_free] releases,
    and what remains. *)
Fixpoint released (l : list (Z * pbuf)) : list (Z * pbuf) :=
  match l with
  | [] => []
  | (a, b) :: l' => if ref b =? 1 then (a, b) :: released l' else []
  end.
Fixpoint kept (l : list (Z * pbuf)) : list (Z * pbuf) :=
  match l with
  | [] => []
  | (a, b) :: l' => if ref b =? 1 then kept l' else (a, with_ref b (ref b - 1)) :: l'
  end.

Lemma released_sub l x : x ∈ addrs (released l) -> x ∈ addrs l.
Proof.
  induction l as [|[a b] l IH]; simpl; [done|]. case_match; simpl; [|by intros ?%elem_of_nil].
  intros [->|Hx]%elem_of_cons; [by left|right; auto].
Qed.
(** The released pbufs are the longest prefix of singly referenced ones. *)
Lemma released_kept l :
  exists l2, l = released l ++ l2 /\ Forall (fun x => ref x.2 = 1) (released l) /\
    kept l = match l2 with [] => [] | (a, b) :: l' => (a, with_ref b (ref b - 1)) :: l' end /\
    (forall a b l', l2 = (a, b) :: l' -> ref b <> 1).
Proof.
  induction l as [|[a b] l (l2 & E & Hf & Hk & Hr)]; simpl; [by exists []|].
  destruct (Z.eqb_spec (ref b) 1).
  - exists l2. rewrite E at 1. split; [done|]. split; [by constructor|]. done.
  - exists ((a, b) :: l). split; [done|]. split; [constructor|]. split; [done|]. by intros ??? [= <- <- <-].
Qed.

(** Reference counts of live pbufs that are not custom. *)
Definition counted (l : list (Z * pbuf)) : Prop :=
  Forall (fun x => 1 <= ref x.2 < 256 /\ is_Some (source_of x.2)) l.

Lemma pstate_ok_update st p b b' :
  pstate_ok st -> pbufs st !! p = Some b -> source_of b' = source_of b ->
  pstate_ok (with_pbufs st (<[p := b']> (pbufs st))).
Proof.
  intros [Hlive Hcus] Hp Hs. split; simpl.
  - by rewrite (live_insert _ _ _ _ Hp).
  - intros q c [[<- <-]|[Hne Hq]]%lookup_insert_Some; [rewrite Hs|]; eauto.
Qed.

Lemma pbuf_release_spec p b src st :
  pstate_ok st -> pbufs st !! p = Some b -> source_of b = Some src ->
  exists s, let st' := with_own (with_pbufs (with_alloc st s) (delete p (pbufs st))) (delete p (own st)) in
    pbuf_release p b st = Ok (tt, st') /\ pstate_ok st'.
Proof.
  intros [Hok Hcus] Hp Hs.
  assert (HL : live (pbufs st) !! p = Some src) by (unfold live; by rewrite lookup_omap, Hp).
  destruct (pa_free_law _ _ _ _ Hok HL) as (s & E & Hs2). exists s.
  assert (Hf : free_to src p st = Ok (tt, with_own (with_pbufs (with_alloc st s)
    (delete p (pbufs st))) (delete p (own st)))) by (unfold free_to; by rewrite E).
  cbv zeta. split.
  - unfold pbuf_release. unfold source_of in Hs. repeat (case_match; try done); simplify_eq; exact Hf.
  - split; simpl; [unfold live in *; by rewrite omap_delete|].
    intros q c [_ Hq]%lookup_delete_Some. eauto.
Qed.

(** What [pbuf_free] leaves of a chain [l]: the released pbufs are gone, the
    first other one has one reference less, and nothing else has changed. *)
Definition freed_only (st st' : pstate) (l : list (Z * pbuf)) : Prop :=
  pstate_ok st' /\
  (forall x, x ∉ addrs l -> pbufs st' !! x = pbufs st !! x) /\
  (forall x, x ∈ addrs (released l) -> pbufs st' !! x = None /\ own st' !! x = None) /\
  (forall x, x ∉ addrs (released l) -> own st' !! x = own st !! x) /\
  ext st' = ext st /\ custom_fn st' = custom_fn st /\ free_ooseq_pending st' = free_ooseq_pending st.

(** The loop after the head has been released. *)
Lemma freed_only_cons st s a b l st' :
  let st1 := with_own (with_pbufs (with_alloc st s) (delete a (pbufs st))) (delete a (own st)) in
  ref b = 1 -> a ∉ addrs l -> freed_only st1 st' l -> freed_only st st' ((a, b) :: l).
Proof.
  intros st1 Hr Hna (Hok2 & Hfr & Hrel & Hown & Hrest). unfold freed_only. simpl.
  replace (ref b =? 1) with true by lia. split; [done|]. split; [|split; [|split]].
  - intros x [Hx1 Hx2]%not_elem_of_cons. rewrite Hfr by done. by apply lookup_delete_ne.
  - intros x [->|Hx]%elem_of_cons; [|by apply Hrel].
    rewrite Hfr, Hown by (done || by intros ?%released_sub). simpl. by rewrite !lookup_delete_eq.
  - intros x [Hx1 Hx2]%not_elem_of_cons. rewrite Hown by done. by apply lookup_delete_ne.
  - done.
Qed.

Lemma freed_only_update st a b c l st' :
  freed_only (with_pbufs st (<[a := c]> (pbufs st))) st' ((a, b) :: l) ->
  freed_only st st' ((a, b) :: l).
Proof.
  intros (Hok2 & Hfr & Hrest). split; [done|]. split; [|done]. intros x Hx. rewrite Hfr by done.
  apply not_elem_of_cons in Hx as [Hx _]. by apply lookup_insert_ne.
Qed.

Lemma pbuf_free_loop_spec fuel l st n :
  chained (pbufs st) l -> (length l < fuel)%nat -> counted l -> pstate_ok st ->
  exists st', pbuf_free_loop fuel (head_addr l) n st
      = Ok (foldl (fun c _ => u8 (c + 1)) n (released l), st') /\
    chained (pbufs st') (kept l) /\ freed_only st st' l.
Proof.
  revert l st n. induction fuel as [|fuel IH]; intros l st n Hp Hf Hc Hok; [lia|].
  cbn [pbuf_free_loop]. destruct l as [|[a b] l].
  { exists st. repeat split; try done; try apply Hok; simpl; set_solver. }
  assert (Hnd := chained_NoDup _ _ Hp).
  apply NoDup_cons in Hnd as [Hna Hnd]. destruct Hp as (Ha & Hb & Hn & Hl). cbn [head_addr].
  replace (a =? 0) with false by lia.
  apply Forall_cons in Hc as [[Href [src Hsrc]] Hc]. simpl in Href, Hsrc, Hf.
  rewrite (pb_get_bind _ _ _ _ Hb), sassert_bind by lia.
  rewrite (pb_set_bind _ _ _ _ _ Hb), u8_id by (unfold is_u8; lia). cbn [released kept].
  set (b' := with_ref b (ref b - 1)).
  assert (Hok' := pstate_ok_update _ _ _ b' Hok Hb eq_refl).
  destruct (Z.eqb_spec (ref b) 1) as [E1|E1].
  - replace (ref b - 1 =? 0) with true by lia.
    destruct (pbuf_release_spec a b' src (with_pbufs st (<[a := b']> (pbufs st)))) as (s & Er & Hok2);
      [done|apply lookup_insert_eq|done|].
    rewrite (st_bind_ok _ _ _ _ _ Er), Hn.
    edestruct (IH l) as (st' & -> & Hk & Hfr); [|lia|done|exact Hok2|].
    + simpl. rewrite delete_insert_eq. eapply chained_ext; [done|]. intros x Hx.
      apply lookup_delete_ne. by intros ->.
    + exists st'. split; [done|]. split; [done|]. apply (freed_only_update _ _ _ b').
      by apply (freed_only_cons _ s).
  - replace (ref b - 1 =? 0) with false by lia.
    exists (with_pbufs st (<[a := b']> (pbufs st))). split; [done|]. split.
    + split; [done|]. split; [apply lookup_insert_eq|]. split; [done|].
      eapply chained_ext; [done|]. intros x Hx. apply lookup_insert_ne. by intros ->.
    + unfold freed_only. simpl. replace (ref b =? 1) with false by lia. split; [done|].
      split; [|by repeat split; simpl; set_solver].
      intros x [Hx1 Hx2]%not_elem_of_cons. by apply lookup_insert_ne.
Qed.

(** [u8_t count] after [k] increments. *)
Lemma count_u8 (l : list (Z * pbuf)) n :
  is_u8 n -> foldl (fun c _ => u8 (c + 1)) n l = u8 (n + Z.of_nat (length l)).
Proof.
  revert n. induction l as [|x l IH]; intros n Hn; simpl.
  - rewrite Z.add_0_r. symmetry. by apply u8_id.
  - rewrite IH by (apply u8_range). unfold u8. rewrite Z.add_mod_idemp_l by done. f_equal. lia.
Qed.

Lemma pbuf_free_chained l st :
  chained (pbufs st) l -> l <> [] -> counted l -> pstate_ok st ->
  exists st', pbuf_free (head_addr l) st = Ok (u8 (Z.of_nat (length (released l))), st') /\
    chained (pbufs st') (kept l) /\ freed_only st st' l.
Proof.
  intros Hp Hne Hc Hok. unfold pbuf_free.
  replace (head_addr l =? 0) with false by (destruct l as [|[a b] l]; [done|]; destruct Hp; simpl; lia).
  rewrite chain_fuel_bind. pose proof (chained_length _ _ Hp).
  destruct (pbuf_free_loop_spec (Datatypes.S (Datatypes.S (size (pbufs st)))) l st 0)
    as (st' & E & H'); [done|lia|done|done|].
  exists st'. rewrite E, count_u8 by done. done.
Qed.

Lemma linkup_released_addrs l : addrs (released (linkup l)) = addrs (released l).
Proof.
  induction l as [|[a b] l IH]; simpl; [done|]. case_match; simpl; [|done]. by f_equal.
Qed.
Lemma linkup_kept l : kept (linkup l) = linkup (kept l).
Proof. induction l as [|[a b] l IH]; simpl; [done|]. by case_match. Qed.
Lemma linkup_counted l : counted l -> counted (linkup l).
Proof. unfold counted. induction 1 as [|[a b] l]; simpl; [constructor|]. by constructor. Qed.

(** What [pbuf_free] leaves of a packet. *)
Definition freed (st st' : pstate) (l : list (Z * pbuf)) : Prop :=
  packet (pbufs st') (kept l) /\ freed_only st st' l.

Lemma pbuf_free_spec l st :
  packet (pbufs st) l -> l <> [] -> counted l -> pstate_ok st ->
  exists st', pbuf_free (head_addr l) st = Ok (u8 (Z.of_nat (length (released l))), st') /\
    freed st st' l.
Proof.
  intros Hp Hne Hc Hok. rewrite packet_chained in Hp.
  destruct (pbuf_free_chained (linkup l) st) as (st' & E & Hk & Hf);
    [done|by destruct l as [|[]]|by apply linkup_counted|done|].
  rewrite linkup_head in E. exists st'. assert (Hr := linkup_released_addrs l).
  assert (Hlen : length (released (linkup l)) = length (released l)).
  { apply (f_equal length) in Hr. unfold addrs in Hr. by rewrite !length_map in Hr. }
  rewrite E, Hlen. split; [done|]. rewrite linkup_kept, <-packet_chained in Hk.
  unfold freed_only in Hf. by rewrite linkup_addrs, Hr in Hf.
Qed.

(** A reference taken keeps the packet alive and [pbuf_free] gives it back. *)
Lemma pbuf_ref_spec a b l st :
  packet (pbufs st) ((a, b) :: l) -> 0 <= ref b < 255 ->
  pbuf_ref a st = Ok (tt, with_pbufs st (<[a := with_ref (link b l) (ref b + 1)]> (pbufs st))).
Proof.
  intros (Ha & Hb & Hl) Hr. unfold pbuf_ref. replace (a =? 0) with false by lia. cbn [negb].
  rewrite (pb_get_bind _ _ _ _ Hb). change (ref (link b l)) with (ref b).
  rewrite u8_id by (unfold is_u8; lia). rewrite (pb_set_bind _ _ _ _ _ Hb).
  by replace (0 <? ref b + 1) with true by lia.
Qed.

(** ** Allocation of packets *)

Lemma alloc_from_spec src n st :
  pstate_ok st -> exists p s, alloc_from src n st
    = Ok (p, if p =? 0 then with_alloc st s
             else with_own (with_alloc st s) (<[p := fresh_bytes p n]> (own st))) /\
    ((p = 0 /\ pstate_ok (with_alloc st s)) \/
     (0 < p /\ pbufs st !! p = None /\ pa_live (<[p := src]> (live (pbufs st))) s)).
Proof.
  intros [Hlive Hcus]. destruct (pa_malloc_law _ _ src (SIZEOF_STRUCT_PBUF + n) Hlive)
    as (p & s & E & [[-> Hs]|(Hp & Ha & HL & Hs)]).
  - exists 0, s. unfold alloc_from. rewrite E. split; [done|]. left. split; [done|]. by split.
  - exists p, s. unfold alloc_from. rewrite E. split; [done|]. right. split; [done|]. split; [|done].
    destruct (pbufs st !! p) as [b|] eqn:Hb; [|done]. destruct (source_of b) eqn:Hs'.
    + unfold live in HL. by rewrite lookup_omap, Hb in HL; simpl in HL; rewrite Hs' in HL.
    + by destruct (Hcus p b Hb).
Qed.

(** A pbuf written to a new block. *)
Lemma pstate_ok_fresh st p b src s o :
  pstate_ok st -> source_of b = Some src -> pa_live (<[p := src]> (live (pbufs st))) s ->
  pstate_ok (with_pbufs (with_own (with_alloc st s) o) (<[p := b]> (pbufs st))).
Proof.
  intros [_ Hcus] Hb Hs. split; simpl.
  - unfold live in *. by rewrite (omap_insert_Some _ _ _ _ src).
  - intros q c [[<- <-]|[_ Hq]]%lookup_insert_Some; [congruence|eauto].
Qed.

(** The data of a pbuf lies within the payload area of its own block. *)
Definition fits (st : pstate) (x : Z * pbuf) : Prop :=
  exists ofs bs, payload x.2 = Own x.1 ofs /\ own st !! x.1 = Some bs /\
    0 <= ofs /\ 0 <= len x.2 /\ ofs + len x.2 <= Z.of_nat (length bs).

(** Nothing a caller can observe has changed. *)
Definition unchanged (st st' : pstate) : Prop :=
  pstate_ok st' /\ pbufs st' = pbufs st /\
  (forall x, is_Some (pbufs st !! x) -> own st' !! x = own st !! x) /\
  ext st' = ext st /\ custom_fn st' = custom_fn st.

(** The pbufs [l] are new: none was there in [st], their blocks hold their data,
    and nothing else has changed. *)
Definition made (st st' : pstate) (src : source) (l : list (Z * pbuf)) : Prop :=
  pstate_ok st' /\
  Forall (fun x => ref x.2 = 1 /\ source_of x.2 = Some src /\ pbufs st !! x.1 = None /\ 0 <= len x.2) l /\
  (forall x, x ∉ addrs l -> pbufs st' !! x = pbufs st !! x) /\
  (forall x, is_Some (pbufs st !! x) -> own st' !! x = own st !! x) /\
  ext st' = ext st /\ custom_fn st' = custom_fn st.

(** Chains under construction: [r] more bytes will follow. *)
Fixpoint linkup_more (r : Z) (l : list (Z * pbuf)) : list (Z * pbuf) :=
  match l with
  | [] => []
  | (a, b) :: l' => (a, with_tot_len (link b l') (len b + total l' + r)) :: linkup_more r l'
  end.

Lemma linkup_more_0 l : linkup_more 0 l = linkup l.
Proof.
  induction l as [|[a b] l IH]; simpl; [done|]. rewrite IH, Z.add_0_r. done.
Qed.
Lemma linkup_more_head r l : head_addr (linkup_more r l) = head_addr l.
Proof. by destruct l as [|[]]. Qed.
Lemma linkup_more_addrs r l : addrs (linkup_more r l) = addrs l.
Proof. induction l as [|[a b] l IH]; [done|]. unfold addrs in *. simpl. by rewrite IH. Qed.
Lemma chained_addr h l x : chained h l -> x ∈ addrs l -> is_Some (h !! x).
Proof.
  induction l as [|[a b] l IH]; simpl; [by intros _ ?%elem_of_nil|].
  intros (_ & Hb & _ & Hl) [->|Hx]%elem_of_cons; [by eexists|auto].
Qed.

(** The next pbuf of the chain under construction. *)
Lemma chained_snoc h r l al bl q qb :
  chained h (linkup_more (len qb + r) (l ++ [(al, bl)])) -> q <> 0 -> h !! q = None ->
  exists cl, h !! al = Some cl /\
    chained (<[al := with_next cl q]>
              (<[q := with_tot_len (with_next qb 0) (len qb + r)]> h))
      (linkup_more r ((l ++ [(al, bl)]) ++ [(q, qb)])).
Proof.
  intros Hc Hq Hh. induction l as [|[a0 b0] l IH].
  - destruct Hc as (Ha & Hb & _). eexists. split; [exact Hb|]. simpl. split; [done|].
    split; [rewrite lookup_insert_eq; unfold link, with_tot_len, with_next; simpl; do 2 f_equal; lia|].
    split; [done|]. split; [done|].
    split; [|done]. rewrite lookup_insert_ne, lookup_insert_eq by congruence.
    unfold with_tot_len, link. simpl. do 2 f_equal. lia.
  - assert (Hnd := chained_NoDup _ _ Hc). rewrite linkup_more_addrs in Hnd.
    cbn [app linkup_more] in *. destruct Hc as (Ha & Hb & Hn & Hc).
    destruct (IH Hc) as (cl & Hcl & Hch). exists cl. split; [done|].
    apply NoDup_cons in Hnd as [Hna _]. split; [done|]. split; [|split; [|exact Hch]].
    + rewrite !lookup_insert_ne; [|congruence|]; cycle 1.
      { intros ->. apply Hna. change (fst <$> ?x) with (addrs x). rewrite addrs_app, elem_of_app.
        right. by left. }
      rewrite Hb. unfold link, with_tot_len, with_next. simpl. f_equal. f_equal.
      * by destruct l as [|[]].
      * rewrite !total_app. simpl. lia.
    + rewrite linkup_more_head. simpl. by destruct l as [|[]].
Qed.


Lemma mem_align_size n : LWIP_MEM_ALIGN_SIZE n = n.
Proof.
  unfold LWIP_MEM_ALIGN_SIZE, MEM_ALIGNMENT. change (Z.lnot (1 - 1)) with (-1).
  rewrite Z.land_m1_r. lia.
Qed.

Lemma layer_offset_range layer : 0 <= layer_offset layer <= 54.
Proof. destruct layer; vm_compute; split; discriminate. Qed.

Lemma made_new st0 st src l q b c s bs :
  made st0 st src l -> q ∉ addrs l -> pbufs st !! q = None ->
  pa_live (<[q := src]> (live (pbufs st))) s ->
  ref b = 1 -> source_of b = Some src -> source_of c = Some src -> 0 <= len b ->
  made st0 (with_pbufs (with_own (with_alloc st s) (<[q := bs]> (own st))) (<[q := c]> (pbufs st)))
    src (l ++ [(q, b)]).
Proof.
  intros (Hok & Hall & Hout & Hown & He & Hc) Hq Hnone Hs Hr Hb Hc' Hl.
  assert (Hq0 : pbufs st0 !! q = None) by (by rewrite <-Hout).
  split; [by eapply pstate_ok_fresh|]. split; [|split; [|split]].
  - apply Forall_app. split; [done|]. by apply Forall_singleton.
  - intros x Hx. rewrite addrs_app, elem_of_app in Hx. simpl.
    rewrite lookup_insert_ne by (intros ->; apply Hx; right; by left). apply Hout. intros ?. apply Hx. by left.
  - intros x [c' Hx]. simpl. rewrite lookup_insert_ne by congruence. apply Hown. by eexists.
  - done.
Qed.

Lemma made_update st0 st src l a b b' :
  made st0 st src l -> a ∈ addrs l -> pbufs st !! a = Some b -> source_of b' = source_of b ->
  made st0 (with_pbufs st (<[a := b']> (pbufs st))) src l.
Proof.
  intros (Hok & Hall & Hout & Hrest) Ha Hb Hs. split; [by eapply pstate_ok_update|].
  split; [done|]. split; [|done]. intros x Hx. simpl. rewrite lookup_insert_ne by (by intros ->). auto.
Qed.

(** A chain under construction that is given up leaves no trace. *)
Lemma made_undone st0 st src l r :
  made st0 st src l -> chained (pbufs st) (linkup_more r l) -> l <> [] ->
  exists n st', pbuf_free (head_addr l) st = Ok (n, st') /\ unchanged st0 st'.
Proof.
  intros (Hok & Hall & Hout & Hown & He & Hc) Hch Hne.
  assert (Hcnt : counted (linkup_more r l) /\ released (linkup_more r l) = linkup_more r l).
  { clear -Hall. unfold counted. induction Hall as [|[a b] l (Hr & Hs & _) _ [IH1 IH2]]; simpl in *; [done|].
    replace (ref b =? 1) with true by lia. rewrite IH2. split; [|done]. constructor; [|done]. simpl.
    split; [lia|]. by exists src. }
  destruct Hcnt as [Hcnt Hrel].
  destruct (pbuf_free_chained _ st Hch) as (st' & E & _ & Hok' & Hfr & Hgone & Hown' & He' & Hc' & _);
    [by destruct l as [|[]]|done|done|].
  rewrite linkup_more_head in E. rewrite Hrel, linkup_more_addrs in *. eexists _, st'. split; [exact E|].
  assert (Hnew : forall x, x ∈ addrs l -> pbufs st0 !! x = None).
  { intros x ([x' b] & -> & Hin)%list_elem_of_fmap. rewrite Forall_forall in Hall. by apply (Hall _ Hin). }
  split; [done|]. split; [|split; [|split; congruence]].
  - apply map_eq. intros x. destruct (decide (x ∈ addrs l)) as [Hx|Hx].
    + rewrite (proj1 (Hgone x Hx)). by rewrite Hnew.
    + by rewrite Hfr, Hout.
  - intros x [b Hx]. rewrite Hown' by (intros Hin; rewrite Hnew in Hx; done). apply Hown. by eexists.
Qed.

Lemma pbuf_pool_is_empty_spec st :
  pstate_ok st -> exists st', pbuf_pool_is_empty st = Ok (tt, st') /\ pstate_ok st' /\
    pbufs st' = pbufs st /\ own st' = own st /\ ext st' = ext st /\ custom_fn st' = custom_fn st.
Proof.
  intros [Hlive Hcus]. unfold pbuf_pool_is_empty. destruct (free_ooseq_pending st); simpl.
  - by eexists.
  - assert (H := pa_callback_law _ _ Hlive). destruct (pa_try_callback (alloc st)) as [ok s].
    eexists. split; [done|]. by destruct ok.
Qed.


(** The pbufs [PBUF_POOL] makes. *)
Definition pool_pbuf (q ofs l : Z) : pbuf :=
  {| next := 0; payload := Own q ofs; tot_len := 0; len := l; type_internal := u8 PBUF_POOL;
     flags := 0; ref := 1; if_idx := NETIF_NO_INDEX |}.
Definition last_addr (l : list (Z * pbuf)) : Z := default 0 (fst <$> last l).

Lemma fresh_bytes_length p n : 0 <= n -> Z.of_nat (length (fresh_bytes p n)) = n.
Proof. intros H. unfold fresh_bytes. rewrite length_map, length_seqZ. lia. Qed.

Lemma fits_own st st' x : own st' !! x.1 = own st !! x.1 -> fits st x -> fits st' x.
Proof. intros E (ofs & bs & Hp & Hb & Hr). exists ofs, bs. by rewrite E. Qed.

(** One iteration: a new pbuf at the end of the chain. *)
Lemma pool_step st0 st l q ofs ql r s :
  let b := pool_pbuf q ofs ql in
  let st1 := with_pbufs (with_own (with_alloc st s) (<[q := fresh_bytes q PBUF_POOL_BUFSIZE_ALIGNED]> (own st)))
               (<[q := with_tot_len (with_next b 0) (ql + r)]> (pbufs st)) in
  made st0 st src_pool l -> chained (pbufs st) (linkup_more (ql + r) l) -> Forall (fits st) l ->
  0 < q -> pbufs st !! q = None -> pa_live (<[q := src_pool]> (live (pbufs st))) s ->
  0 <= ofs -> 0 <= ql -> ofs + ql <= 590 ->
  exists st2, (if head_addr l =? 0 then mret tt
               else lb ← pb_get (last_addr l); pb_set (last_addr l) (with_next lb q)) st1 = Ok (tt, st2) /\
    made st0 st2 src_pool (l ++ [(q, b)]) /\ chained (pbufs st2) (linkup_more r (l ++ [(q, b)])) /\
    Forall (fits st2) (l ++ [(q, b)]).
Proof.
  intros b st1 Hm Hch Hfit Hq Hnone Hs Ho Hl Hfits.
  assert (Hql : q ∉ addrs l).
  { intros Hin. rewrite <-(linkup_more_addrs (ql + r)) in Hin.
    destruct (chained_addr _ _ _ Hch Hin). congruence. }
  assert (Hm1 : made st0 st1 src_pool (l ++ [(q, b)])) by (by apply made_new).
  assert (Hf1 : Forall (fits st1) (l ++ [(q, b)])).
  { apply Forall_app. split.
    - rewrite Forall_forall in Hfit |- *. intros x Hx. eapply fits_own; [|by apply Hfit].
      apply lookup_insert_ne. intros ->. apply Hql. apply list_elem_of_fmap. by exists x.
    - apply Forall_singleton. exists ofs, (fresh_bytes q PBUF_POOL_BUFSIZE_ALIGNED).
      split; [done|]. split; [apply lookup_insert_eq|]. by rewrite fresh_bytes_length. }
  destruct l as [|[al bl] l _] using rev_ind.
  - exists st1. split; [done|]. split; [done|]. split; [|done]. simpl. split; [lia|].
    split; [|done]. rewrite lookup_insert_eq. unfold link, with_tot_len, with_next. simpl.
    do 2 f_equal. lia.
  - destruct (chained_snoc _ _ _ _ _ q b Hch) as (cl & Hcl & Hch2); [lia|done|].
    assert (Hal : al <> q) by congruence.
    replace (head_addr (l ++ [(al, bl)]) =? 0) with false.
    2:{ symmetry. apply Z.eqb_neq. destruct l as [|[]]; by destruct Hch. }
    unfold last_addr. rewrite last_snoc. simpl default.
    assert (Hcl1 : pbufs st1 !! al = Some cl) by (simpl; by rewrite lookup_insert_ne).
    rewrite (pb_get_bind _ _ _ _ Hcl1), (pb_set_ok _ _ _ _ Hcl1). eexists. split; [done|].
    split; [|by split].
    eapply made_update; [done| |exact Hcl1|done].
    rewrite !addrs_app, !elem_of_app. left. right. by left.
Qed.

(** No pbuf is empty. *)
Definition solid (l : list (Z * pbuf)) : Prop := Forall (fun x => 0 < len x.2) l.

(** The loop of [PBUF_POOL] makes the whole packet or nothing. *)
Lemma alloc_pool_loop_spec fuel l st0 st rem ofs ofs0 :
  made st0 st src_pool l -> chained (pbufs st) (linkup_more rem l) -> Forall (fits st) l ->
  (forall a b l', l = (a, b) :: l' -> payload b = Own a ofs0) -> (l = [] -> ofs = ofs0) ->
  solid l -> 0 <= ofs <= 54 -> 0 <= rem < 65536 -> (Z.to_nat rem < fuel)%nat ->
  exists p st', alloc_pool_loop fuel (head_addr l) (last_addr l) rem ofs st = Ok (p, st') /\
    ((p = 0 /\ unchanged st0 st') \/
     exists l', p = head_addr l' /\ l' <> [] /\ made st0 st' src_pool l' /\ packet (pbufs st') l' /\
       Forall (fits st') l' /\ total l' = total l + rem /\ (0 < rem -> solid l') /\
       (forall a b l2, l' = (a, b) :: l2 -> payload b = Own a ofs0)).
Proof.
  revert l st rem ofs. induction fuel as [|fuel IH]; intros l st rem ofs Hm Hch Hfit Hfirst Hofs Hsol Ho Hrem Hf;
    [lia|].
  cbn [alloc_pool_loop].
  destruct (alloc_from_spec src_pool PBUF_POOL_BUFSIZE_ALIGNED st) as (q & s & E & [[-> Hok]|(Hq & Hnone & Hs)]);
    [apply Hm|..]; rewrite (st_bind_ok _ _ _ _ _ E).
  - change (0 =? 0) with true. cbv iota. exists 0. destruct (pbuf_pool_is_empty_spec _ Hok) as (st1 & E1 & Hok1 & Hp1 & Ho1 & He1 & Hc1).
    rewrite (st_bind_ok _ _ _ _ _ E1).
    assert (Hm1 : made st0 st1 src_pool l).
    { destruct Hm as (_ & Hall & Hm). split; [done|]. split; [done|]. by rewrite Hp1, Ho1, He1, Hc1. }
    destruct l as [|x l].
    + exists st1. split; [done|]. left. split; [done|]. destruct Hm1 as (_ & _ & Hout & ?).
      split; [done|]. split; [|done]. apply map_eq. intros y. apply Hout. by apply not_elem_of_nil.
    + destruct (made_undone st0 st1 src_pool (x :: l) rem) as (n & st2 & E2 & Hun);
        [done|by rewrite Hp1|done|].
      exists st2. split; [|by left]. replace (head_addr (x :: l) =? 0) with false.
      2:{ destruct x. destruct Hch. simpl. lia. }
      cbn [negb]. erewrite st_bind_ok; [done|]. by rewrite (st_bind_ok _ _ _ _ _ E2).
  - replace (q =? 0) with false by lia.
    rewrite mem_align_size. change PBUF_POOL_BUFSIZE_ALIGNED with 590.
    rewrite (u32_id (590 - ofs)), (u16_id (590 - ofs)) by (unfold is_u32, is_u16; lia).
    set (ql := Z.min rem (590 - ofs)). set (b := pool_pbuf q ofs ql).
    destruct (pool_step st0 st l q ofs ql (rem - ql) s) as (st2 & E2 & Hm2 & Hch2 & Hf2);
      try done; try lia; [by replace (ql + (rem - ql)) with rem by lia|].
    unfold pbuf_init_alloced_pbuf. rewrite (st_bind_ok _ _ _ _ _ eq_refl).
    rewrite !sassert_bind by (rewrite ?Z.mod_1_r; lia).
    replace (ql + (rem - ql)) with rem in E2 by lia.
    rewrite (st_bind_ok _ _ _ _ _ E2). rewrite u16_id by (unfold is_u16; lia).
    replace (if head_addr l =? 0 then q else head_addr l) with (head_addr (l ++ [(q, b)])).
    2:{ destruct l as [|[a c] l]; [done|]. destruct Hch. simpl. by replace (a =? 0) with false by lia. }
    assert (Hlast : last_addr (l ++ [(q, b)]) = q) by (unfold last_addr; by rewrite last_snoc).
    assert (Hfirst2 : forall a c l', l ++ [(q, b)] = (a, c) :: l' -> payload c = Own a ofs0).
    { intros a c l' El. destruct l as [|x l]; simplify_eq/=; [by rewrite Hofs|by eapply Hfirst]. }
    assert (Hsol2 : 0 < rem -> solid (l ++ [(q, b)])).
    { intros ?. apply Forall_app. split; [done|]. apply Forall_singleton. simpl. lia. }
    destruct (Z.ltb_spec 0 (rem - ql)).
    + destruct (IH (l ++ [(q, b)]) st2 (rem - ql) 0) as (p & st' & Eloop & Hres);
        [done|done|done|done|by destruct l|apply Hsol2; lia|lia|lia|lia|].
      rewrite Hlast in Eloop. exists p, st'. split; [exact Eloop|]. rewrite total_app in Hres. simpl in Hres.
      replace (total l + (ql + 0) + (rem - ql)) with (total l + rem) in Hres by lia.
      destruct Hres as [?|(l' & ? & ? & ? & ? & ? & ? & Hs' & ?)]; [by left|right]. exists l'.
      repeat (split; [done|]). split; [intros _; apply Hs'; lia|done].
    + eexists _, st2. split; [done|]. right. exists (l ++ [(q, b)]).
      replace (rem - ql) with 0 in Hch2 by lia. rewrite linkup_more_0, <-packet_chained in Hch2.
      split; [done|]. split; [by destruct l|]. rewrite total_app. simpl.
      repeat (split; [done|]). split; [lia|done].
Qed.


Lemma made_nil st src : pstate_ok st -> made st st src [].
Proof. intros H. by repeat split; try apply H; try constructor. Qed.

(** A single new pbuf. *)
Lemma alloc_one_spec st src n pl l type :
  pstate_ok st -> source_of {| next := 0; payload := NULL; tot_len := l; len := l;
                     type_internal := u8 type; flags := 0; ref := 1; if_idx := 0 |} = Some src ->
  0 <= l ->
  exists q st1, alloc_from src n st = Ok (q, st1) /\
    ((q = 0 /\ unchanged st st1) \/
     exists b st2, 0 < q /\ pbuf_init_alloced_pbuf q (pl q) l l type 0 st1 = Ok (tt, st2) /\
       payload b = pl q /\ len b = l /\ type_internal b = u8 type /\ own st2 !! q = Some (fresh_bytes q n) /\
       made st st2 src [(q, b)] /\ packet (pbufs st2) [(q, b)]).
Proof.
  intros Hok Hsrc Hl.
  destruct (alloc_from_spec src n st Hok) as (q & s & -> & [[-> Hok']|(Hq & Hnone & Hs)]).
  - eexists 0, _. split; [done|]. left. done.
  - replace (q =? 0) with false by lia. eexists q, _. split; [done|]. right.
    exists {| next := 0; payload := pl q; tot_len := l; len := l;
              type_internal := u8 type; flags := 0; ref := 1; if_idx := 0 |}.
    eexists. split; [done|]. split; [done|]. split; [done|]. split; [done|]. split; [done|].
    split; [apply lookup_insert_eq|]. split.
    + apply (made_new st st src []); try done;
        first [by apply made_nil | by apply not_elem_of_nil].
    + split; [lia|]. split; [|done]. simpl. rewrite lookup_insert_eq. unfold link, with_tot_len. simpl.
      by rewrite Z.add_0_r.
Qed.

(** What [pbuf_alloc] and its parts return: NULL with nothing changed, or a new
    packet of [n] bytes that satisfies [P]. *)
Definition allocated (st : pstate) (n : Z) (P : pstate -> list (Z * pbuf) -> Prop)
    (r : outcome (Z * pstate)) : Prop :=
  exists p st', r = Ok (p, st') /\
    ((p = 0 /\ unchanged st st') \/
     exists src l, p = head_addr l /\ l <> [] /\ made st st' src l /\ packet (pbufs st') l /\
       total l = n /\ P st' l).

(** Data behind the struct, no pbuf without data unless the packet is empty, and
    room for the headers of [layer] in front. *)
Definition roomy (layer : pbuf_layer) (st : pstate) (l : list (Z * pbuf)) : Prop :=
  Forall (fits st) l /\ (0 < total l -> solid l) /\
  forall a b l', l = (a, b) :: l' -> payload b = Own a (layer_offset layer).

Lemma pbuf_alloc_reference_spec pl n type st :
  pstate_ok st -> is_u16 n -> type = PBUF_ROM \/ type = PBUF_REF ->
  allocated st n (fun _ l => Forall (fun x => payload x.2 = pl) l) (pbuf_alloc_reference pl n type st).
Proof.
  intros Hok Hn Hty. unfold pbuf_alloc_reference.
  rewrite sassert_bind by (destruct Hty as [-> | ->]; done).
  destruct (alloc_one_spec st src_pbuf 0 (fun _ => pl) n type) as (q & st1 & E1 & [[-> Hun]|
    (b & st2 & Hq & E2 & Hpl & Hl & _ & _ & Hm & Hp)]); [done|by destruct Hty as [-> | ->]|apply Hn|..];
    rewrite (st_bind_ok _ _ _ _ _ E1).
  - eexists 0, _. split; [done|]. by left.
  - replace (q =? 0) with false by lia. rewrite (st_bind_ok _ _ _ _ _ E2).
    eexists q, _. split; [done|]. right. exists src_pbuf, [(q, b)]. repeat (split; [done|]).
    split; [simpl; lia|]. by apply Forall_singleton.
Qed.

Lemma allocated_weaken st n (P Q : pstate -> list (Z * pbuf) -> Prop) r :
  allocated st n P r -> (forall st' l, P st' l -> Q st' l) -> allocated st n Q r.
Proof.
  intros (p & st' & E & [?|(src & l & ? & ? & ? & ? & ? & ?)]) HPQ; exists p, st'; (split; [done|]); [by left|].
  right. exists src, l. auto 10.
Qed.

(** A [PBUF_RAM] packet is one pbuf. *)
Lemma pbuf_alloc_ram_single layer n st :
  pstate_ok st -> is_u16 n ->
  allocated st n (fun st' l => roomy layer st' l /\ exists q b, l = [(q, b)] /\ type_internal b = u8 PBUF_RAM)
    (pbuf_alloc layer n PBUF_RAM st).
Proof.
  intros Hok Hn. pose proof (layer_offset_range layer) as Hofs. unfold pbuf_alloc.
  change ((PBUF_RAM =? PBUF_REF) || (PBUF_RAM =? PBUF_ROM)) with false.
  change (PBUF_RAM =? PBUF_POOL) with false. rewrite Z.eqb_refl. cbv iota zeta. rewrite !mem_align_size.
  unfold is_u16 in Hn. rewrite (u32_id (layer_offset layer + n)) by (unfold is_u32; lia).
  unfold u64. change SIZEOF_STRUCT_PBUF with 24. rewrite Z.mod_small by lia.
  replace (_ || _) with false by lia.
  destruct (alloc_one_spec st src_heap (24 + (layer_offset layer + n) - 24)
    (fun p => Own p (layer_offset layer)) n PBUF_RAM) as (q & st1 & E1 & [[-> Hun]|
    (b & st2 & Hq & E2 & Hpl & Hl & Htype & Hbytes & Hm & Hp)]); [done|done|lia|..]; rewrite (st_bind_ok _ _ _ _ _ E1).
  - eexists 0, _. split; [done|]. by left.
  - replace (q =? 0) with false by lia. rewrite (st_bind_ok _ _ _ _ _ E2), sassert_bind by (by rewrite Z.mod_1_r).
    eexists q, _. split; [done|]. right. exists src_heap, [(q, b)]. repeat (split; [done|]).
    split; [simpl; lia|]. split; [|by exists q, b]. split.
    + apply Forall_singleton. exists (layer_offset layer). eexists. split; [done|]. split; [done|].
      simpl. rewrite fresh_bytes_length by lia. lia.
    + split; [|by intros a b' l' [= <- <- <-]]. simpl. intros ?. apply Forall_singleton. simpl. lia.
Qed.

Lemma pbuf_alloc_ram_spec layer n st :
  pstate_ok st -> is_u16 n -> allocated st n (roomy layer) (pbuf_alloc layer n PBUF_RAM st).
Proof.
  intros Hok Hn. eapply allocated_weaken; [by apply pbuf_alloc_ram_single|]. by intros st' l [H _].
Qed.

Lemma pbuf_alloc_pool_spec layer n st :
  pstate_ok st -> is_u16 n -> allocated st n (roomy layer) (pbuf_alloc layer n PBUF_POOL st).
Proof.
  intros Hok Hn. pose proof (layer_offset_range layer) as Hofs. unfold pbuf_alloc.
  change ((PBUF_POOL =? PBUF_REF) || (PBUF_POOL =? PBUF_ROM)) with false. rewrite Z.eqb_refl. cbv iota.
  destruct (alloc_pool_loop_spec (Datatypes.S (Z.to_nat n)) [] st st n (layer_offset layer) (layer_offset layer))
    as (p & st' & E & Hres); try done; try lia; try (by apply Forall_nil_2); try (by apply made_nil).
  exists p, st'. split; [exact E|]. destruct Hres as [?|(l & Hh & Hne & Hm & Hp & Hf & Ht & Hsol & Hfst)]; [by left|].
  right. exists src_pool, l. repeat (split; [done|]).
  split; [intros ?; apply Hsol; simpl in Ht; lia|done].
Qed.


(** ** Headers *)

(** The payload pointer moved forward by [n], or back when [n] is negative. *)
Definition shift (b : pbuf) (n : Z) : pbuf :=
  with_extent b (ptr_add (payload b) n) (tot_len b) (len b - n).

Lemma ptr_add_0 x : ptr_add x 0 = x.
Proof. destruct x; simpl; by rewrite Z.add_0_r. Qed.
Lemma ptr_add_add x m n : ptr_add (ptr_add x m) n = ptr_add x (m + n).
Proof. destruct x; simpl; f_equal; lia. Qed.
Lemma shift_0 b : shift b 0 = b.
Proof. unfold shift. rewrite ptr_add_0, Z.sub_0_r. by destruct b. Qed.
Lemma shift_shift b m n : shift (shift b m) n = shift b (m + n).
Proof. unfold shift, with_extent. simpl. rewrite ptr_add_add. f_equal. lia. Qed.
Lemma ptr_addr_add x n : ptr_addr (ptr_add x n) = ptr_addr x + n.
Proof. destruct x; simpl; lia. Qed.

(** Replacing the head of a packet by a pbuf with the same extent of [next]. *)
Lemma packet_head h a b b' l :
  packet h ((a, b) :: l) -> packet (<[a := link b' l]> h) ((a, b') :: l).
Proof.
  intros Hp. assert (Hnd := packet_NoDup _ _ Hp). apply NoDup_cons in Hnd as [Hna _].
  destruct Hp as (Ha & _ & Hl). split; [done|]. split; [apply lookup_insert_eq|]. by apply packet_insert.
Qed.

(** When there is room for [n] more bytes in front. *)
Definition header_room (a : Z) (b : pbuf) (l : list (Z * pbuf)) (n : Z) (force : bool) : bool :=
  (n <=? 65535) && (n + (len b + total l) <? 65536) &&
  (if negb (Z.land (type_internal b) PBUF_TYPE_FLAG_STRUCT_DATA_CONTIGUOUS =? 0)
   then a + SIZEOF_STRUCT_PBUF <=? ptr_addr (payload b) - n else force || (n =? 0)).

Lemma pbuf_add_header_impl_spec a b l n force st :
  packet (pbufs st) ((a, b) :: l) -> sized ((a, b) :: l) -> 0 < n ->
  pbuf_add_header_impl a n force st
  = if header_room a b l n force
    then Ok (false, with_pbufs st (<[a := link (shift b (- n)) l]> (pbufs st)))
    else Ok (true, st).
Proof.
  intros (Ha & Hb & Hl) (Hs & Hb0 & Ht)%sized_cons Hn. unfold pbuf_add_header_impl, header_room.
  pose proof (total_nonneg _ (proj1 Hs)).
  rewrite sassert_bind by lia.
  destruct (Z.ltb_spec 0xffff n); [by replace (n <=? 65535) with false by lia|].
  replace (n =? 0) with false by lia. rewrite (pb_get_bind _ _ _ _ Hb).
  change (tot_len (link b l)) with (len b + total l).
  replace (n <=? 65535) with true by lia. rewrite (u16_id n) by (unfold is_u16; lia).
  destruct (Z.ltb_spec (n + (len b + total l)) 65536) as [Hfit|Hfit]; cbn [andb].
  2:{ replace (u16 _ <? n) with true; [done|]. symmetry. apply Z.ltb_lt.
      assert (Hx : len b + total l < 65536) by done. clear -Hx Hfit Hn H0. words. }
  rewrite u16_id by (unfold is_u16; lia). replace (_ <? n) with false by lia.
  cbn [payload type_internal link with_tot_len with_next]. rewrite ptr_addr_add.
  assert (Eset : link (shift b (- n)) l = with_extent (link b l) (ptr_add (payload b) (- n))
    (u16 (len b + total l + n)) (u16 (len b + n))).
  { unfold link, shift, with_tot_len, with_next, with_extent. simpl.
    rewrite !u16_id by (unfold is_u16; lia). f_equal; lia. }
  destruct (negb _).
  - destruct (Z.ltb_spec (ptr_addr (payload b) + - n) (a + SIZEOF_STRUCT_PBUF)).
    + by replace (_ <=? _) with false by lia.
    + replace (_ <=? _) with true by lia. cbv iota. by rewrite (pb_set_bind _ _ _ _ _ Hb), Eset.
  - rewrite orb_false_r. destruct force; [|done]. cbn [negb]. by rewrite (pb_set_bind _ _ _ _ _ Hb), Eset.
Qed.

Lemma pbuf_remove_header_spec a b l n st :
  packet (pbufs st) ((a, b) :: l) -> sized ((a, b) :: l) -> 0 < n ->
  pbuf_remove_header a n st
  = if n <=? len b then Ok (false, with_pbufs st (<[a := link (shift b n) l]> (pbufs st)))
    else Ok (true, st).
Proof.
  intros (Ha & Hb & Hl) (Hs & Hb0 & Ht)%sized_cons Hn. unfold pbuf_remove_header.
  pose proof (total_nonneg _ (proj1 Hs)). rewrite sassert_bind by lia.
  destruct (Z.ltb_spec 0xffff n); [by replace (n <=? len b) with false by lia|].
  replace (n =? 0) with false by lia. rewrite (pb_get_bind _ _ _ _ Hb).
  rewrite (u16_id n) by (unfold is_u16; lia). change (len (link b l)) with (len b).
  destruct (Z.leb_spec n (len b)); [|done]. cbn [negb]. rewrite (pb_set_bind _ _ _ _ _ Hb).
  do 2 f_equal. unfold mret, st_ret. do 4 f_equal.
  unfold link, shift, with_tot_len, with_next, with_extent. simpl.
  rewrite !u16_id by (unfold is_u16; lia). f_equal. lia.
Qed.


(** ** Splitting *)

Lemma pbuf_dechain_spec a b l st :
  packet (pbufs st) ((a, b) :: l) -> l <> [] -> sized ((a, b) :: l) -> counted l -> pstate_ok st ->
  exists st', pbuf_dechain a st
      = Ok (if 0 <? u8 (Z.of_nat (length (released l))) then 0 else head_addr l, st') /\
    packet (pbufs st') [(a, b)] /\
    freed (with_pbufs st (<[a := link b []]> (pbufs st))) st' l.
Proof.
  intros Hp Hne Hs Hc Hok. assert (Hnd := packet_NoDup _ _ Hp).
  apply NoDup_cons in Hnd as [Hna _]. change (fst <$> l) with (addrs l) in Hna.
  apply sized_cons in Hs as (Hs & Hb0 & Ht). pose proof (total_nonneg _ (proj1 Hs)).
  destruct Hp as (Ha & Hb & Hl). destruct l as [|[q qb] l]; [done|]. clear Hne.
  unfold pbuf_dechain. rewrite (pb_get_bind _ _ _ _ Hb).
  change (next (link b ((q, qb) :: l))) with q. destruct (Hl) as (Hq0 & Hq & _).
  replace (negb (q =? 0)) with true by lia.
  assert (Haq : a <> q) by (intros ->; apply Hna; by left).
  set (st1 := with_pbufs st (<[a := link b []]> (pbufs st))).
  assert (Htail : tot_len (link b ((q, qb) :: l)) - len (link b ((q, qb) :: l)) = tot_len (link qb l))
    by (simpl; lia).
  assert (Hset : (qb' ← pb_get q;
     _ ← sassert (tot_len qb' =? tot_len (link b ((q, qb) :: l)) - len (link b ((q, qb) :: l)));
     _ ← pb_set q (with_tot_len qb' (u16 (tot_len (link b ((q, qb) :: l)) - len (link b ((q, qb) :: l)))));
     b ← pb_get a; _ ← pb_set a (with_tot_len (with_next b 0) (len b)); pbuf_free q) st = pbuf_free q st1).
  { rewrite (pb_get_bind _ _ _ _ Hq), Htail, sassert_bind by (apply Z.eqb_refl).
    rewrite u16_id by (unfold is_u16; simpl in *; lia).
    change (with_tot_len (link qb l) (tot_len (link qb l))) with (link qb l).
    rewrite (pb_set_bind _ _ _ _ _ Hq), insert_id by done.
    rewrite (pb_get_bind a (link b ((q, qb) :: l))) by done.
    rewrite (pb_set_bind a (link b ((q, qb) :: l))) by done.
    unfold st1, link. simpl. by rewrite Z.add_0_r. }
  destruct (pbuf_free_spec ((q, qb) :: l) st1) as (st' & E & Hf).
  - by apply packet_insert.
  - done.
  - done.
  - eapply pstate_ok_update; [done|exact Hb|done].
  - assert (Ha' : pbufs st' !! a = Some (link b [])).
    { destruct Hf as (_ & _ & Hfr & _). rewrite Hfr by done. apply lookup_insert_eq. }
    exists st'. split; [|by split].
    cbn [head_addr] in E. rewrite (st_bind_ok _ _ _ _ _ (eq_trans Hset E)).
    rewrite (pb_get_bind _ _ _ _ Ha'), sassert_bind by (simpl; lia). done.
Qed.

(** Replacing one pbuf of a packet by one of the same length. *)
Lemma packet_replace h l1 a b b' l2 :
  packet h (l1 ++ (a, b) :: l2) -> len b' = len b ->
  packet (<[a := link b' l2]> h) (l1 ++ (a, b') :: l2).
Proof.
  induction l1 as [|[a1 b1] l1 IH]; intros Hp Hlen; [by eapply packet_head|].
  assert (Hnd := packet_NoDup _ _ Hp). apply NoDup_cons in Hnd as [Hna _].
  destruct Hp as (Ha & Hb & Hl). split; [done|]. split; [|by apply IH].
  rewrite lookup_insert_ne.
  - rewrite Hb. unfold link. rewrite !total_app. simpl. rewrite Hlen. by destruct l1 as [|[]].
  - intros ->. apply Hna. change (fst <$> ?x) with (addrs x). rewrite addrs_app, elem_of_app. right. by left.
Qed.

(** [pbuf_chain]: the tail keeps a reference of its own. *)
Lemma pbuf_chain_spec st l1 t tb l2 :
  packet (pbufs st) l1 -> packet (pbufs st) ((t, tb) :: l2) -> l1 <> [] ->
  (forall a, a ∈ addrs l1 -> a ∉ addrs ((t, tb) :: l2)) ->
  sized l1 -> sized ((t, tb) :: l2) -> total l1 + total ((t, tb) :: l2) < 65536 -> 0 <= ref tb < 255 ->
  exists h, pbuf_chain (head_addr l1) t st = Ok (tt, with_pbufs st h) /\
    packet h (l1 ++ (t, with_ref tb (ref tb + 1)) :: l2) /\
    (forall x, x ∉ addrs l1 -> x <> t -> h !! x = pbufs st !! x).
Proof.
  intros Hp1 Hp2 Hn1 Hdis Hs1 Hs2 Hsum Hr.
  destruct (pbuf_cat_spec st l1 ((t, tb) :: l2)) as (h & E & Hp & Hpt & Hfr); try done.
  unfold pbuf_chain. change t with (head_addr ((t, tb) :: l2)) at 1. rewrite (st_bind_ok _ _ _ _ _ E).
  erewrite pbuf_ref_spec by done. eexists. split; [done|]. simpl pbufs. split.
  - change (with_ref (link tb l2) (ref tb + 1)) with (link (with_ref tb (ref tb + 1)) l2).
    by apply (packet_replace h l1 t tb).
  - intros x Hx Hxt. rewrite lookup_insert_ne by done. by apply Hfr.
Qed.

(** ** Shrinking *)

Definition with_len (b : pbuf) (n : Z) : pbuf := with_extent b (payload b) (tot_len b) n.

(** The first [n] bytes of a packet, and the pbufs that are not needed for them. *)
Fixpoint cut (n : Z) (l : list (Z * pbuf)) : list (Z * pbuf) * list (Z * pbuf) :=
  match l with
  | [] => ([], [])
  | (a, b) :: l' =>
      if len b <? n then let kd := cut (n - len b) l' in ((a, b) :: kd.1, kd.2)
      else ([(a, with_len b n)], l')
  end.

Lemma cut_total n l : 0 <= n <= total l -> Forall (fun x => 0 <= len x.2) l -> total (cut n l).1 = n.
Proof.
  revert n. induction l as [|[a b] l IH]; intros n Hn Hl; [simpl in *; lia|].
  apply Forall_cons in Hl as [Hb Hl]. simpl in *. destruct (Z.ltb_spec (len b) n); simpl; [|lia].
  rewrite IH; [lia|lia|done].
Qed.

(** The loop steps over the pbufs that remain complete, adjusting their totals. *)
Lemma pbuf_realloc_loop_spec fuel l n st :
  packet (pbufs st) l -> sized l -> 0 <= n < total l -> (length l <= fuel)%nat ->
  exists k q b rem d h, pbuf_realloc_loop fuel (head_addr l) n (total l - n) st
      = Ok ((q, rem), with_pbufs st h) /\
    l = k ++ (q, b) :: d /\ cut n l = (k ++ [(q, with_len b rem)], d) /\ 0 <= rem <= len b /\
    (forall x, x ∉ addrs k -> h !! x = pbufs st !! x) /\
    (pstate_ok st -> pstate_ok (with_pbufs st h)) /\
    (forall h', (forall x, x ∈ addrs k -> h' !! x = h !! x) ->
       h' !! q = Some (link (with_len b rem) []) -> packet h' (k ++ [(q, with_len b rem)])).
Proof.
  revert fuel n st. induction l as [|[a b] l IH]; intros fuel n st Hp Hs Hn Hf; [simpl in *; lia|].
  destruct fuel as [|fuel]; [simpl in Hf; lia|]. assert (Hnd := packet_NoDup _ _ Hp).
  apply NoDup_cons in Hnd as [Hna _]. change (fst <$> l) with (addrs l) in Hna.
  destruct Hp as (Ha & Hb & Hl). apply sized_cons in Hs as (Hs & Hb0 & Ht).
  cbn [pbuf_realloc_loop head_addr]. rewrite (pb_get_bind _ _ _ _ Hb).
  change (len (link b l)) with (len b). cbn [cut]. simpl total in *. simpl length in Hf.
  destruct (Z.ltb_spec (len b) n) as [Hlt|Hge].
  - rewrite (pb_set_bind _ _ _ _ _ Hb), sassert_bind.
    2:{ simpl. destruct l as [|[a2 b2] l]; [simpl in *; lia|]. destruct Hl. simpl. lia. }
    change (next (link b l)) with (head_addr l).
    rewrite (u16_id (n - len b)) by (unfold is_u16; lia).
    replace (total ((a, b) :: l) - n) with (total l - (n - len b)) by (simpl; lia).
    set (b' := with_tot_len _ _).
    destruct (IH fuel (n - len b) (with_pbufs st (<[a := b']> (pbufs st))))
      as (k & q & c & rem & d & h & E & El & Ecut & Hrem & Hfr & Hok & Hpk);
      [by apply packet_insert|done|lia|lia|].
    exists ((a, b) :: k), q, c, rem, d, h. rewrite E, Ecut. split; [done|].
    assert (Hak : a ∉ addrs k) by (intros Hin; apply Hna; rewrite El, addrs_app, elem_of_app; by left).
    split; [by rewrite El|]. split; [done|]. split; [done|]. split; [|split].
    + intros x [Hx1 Hx2]%not_elem_of_cons. rewrite Hfr by done. by apply lookup_insert_ne.
    + intros Hst. apply Hok. by eapply pstate_ok_update.
    + intros h' Hh' Hq. split; [done|]. split; [|apply Hpk; [intros x Hx; apply Hh'; by right|done]].
      rewrite Hh' by (by left). rewrite Hfr by done. simpl. rewrite lookup_insert_eq. f_equal.
      unfold b', link, with_tot_len. simpl. f_equal; [rewrite El; by destruct k as [|[]]|].
      pose proof (cut_total (n - len b) l ltac:(lia) (proj1 Hs)) as Hct. rewrite Ecut in Hct.
      cbn [fst] in Hct. rewrite Hct. rewrite u16_id by (unfold is_u16; lia). lia.
  - exists [], a, b, n, l, (pbufs st). split; [by destruct st|]. split; [done|]. split; [done|].
    split; [lia|]. split; [done|]. split; [by destruct st|]. intros h' _ Hq. by split.
Qed.


(** What [pbuf_realloc] leaves: the kept part, and of the rest what others hold. *)
Definition shrunk (st st' : pstate) (l k d : list (Z * pbuf)) : Prop :=
  pstate_ok st' /\ packet (pbufs st') k /\ packet (pbufs st') (kept d) /\
  (forall x, x ∈ addrs (released d) -> pbufs st' !! x = None) /\
  (forall x, x ∉ addrs l -> pbufs st' !! x = pbufs st !! x) /\
  (forall x, x ∉ addrs (released d) -> own st' !! x = own st !! x) /\ ext st' = ext st.

(** Freeing what follows the new last pbuf [q]. *)
Lemma free_rest_spec q b d rem st :
  pbufs st !! q = Some (with_extent (link b d) (payload b) rem rem) -> q ∉ addrs d ->
  packet (pbufs st) d -> counted d -> pstate_ok st ->
  exists st', (_ ← (if negb (head_addr d =? 0) then (_ ← pbuf_free (head_addr d); mret tt) else mret tt);
               c ← pb_get q; pb_set q (with_next c 0)) st = Ok (tt, st') /\
    pstate_ok st' /\ pbufs st' !! q = Some (link (with_len b rem) []) /\ packet (pbufs st') (kept d) /\
    (forall x, x ∈ addrs (released d) -> pbufs st' !! x = None) /\
    (forall x, x ∉ addrs d -> x <> q -> pbufs st' !! x = pbufs st !! x) /\
    (forall x, x ∉ addrs (released d) -> own st' !! x = own st !! x) /\ ext st' = ext st.
Proof.
  intros Hq Hqd Hd Hc Hok.
  assert (Hfree : exists st1, (if negb (head_addr d =? 0) then (_ ← pbuf_free (head_addr d); mret tt)
      else mret tt) st = Ok (tt, st1) /\ packet (pbufs st1) (kept d) /\ freed_only st st1 d).
  { rewrite (head_addr_eqb _ _ Hd). destruct d as [|x d].
    - exists st. split; [done|]. split; [done|]. by repeat split; try apply Hok; simpl; set_solver.
    - rewrite bool_decide_false by done. destruct (pbuf_free_spec (x :: d) st) as (st1 & E & Hf); try done.
      exists st1. cbn [negb]. rewrite (st_bind_ok _ _ _ _ _ E). by split. }
  destruct Hfree as (st1 & E & Hk & Hok1 & Hfr & Hgone & Hown & Hext & _). rewrite (st_bind_ok _ _ _ _ _ E).
  assert (Hq1 : pbufs st1 !! q = Some (with_extent (link b d) (payload b) rem rem)) by (by rewrite Hfr).
  rewrite (pb_get_bind _ _ _ _ Hq1), (pb_set_ok _ _ _ _ Hq1). eexists. split; [done|].
  assert (Hqk : q ∉ addrs (kept d)).
  { intros Hin. apply Hqd. clear -Hin. induction d as [|[a c] d IH]; simpl in *; [done|].
    case_match; [right; auto|done]. }
  split; [by eapply pstate_ok_update|]. simpl. split; [|split; [|split; [|split]]].
  - rewrite lookup_insert_eq. unfold link, with_tot_len. simpl. by rewrite Z.add_0_r.
  - by apply packet_insert.
  - intros x Hx. rewrite lookup_insert_ne; [by apply Hgone|]. intros ->. by apply Hqd, released_sub.
  - intros x Hx Hxq. rewrite lookup_insert_ne by done. by apply Hfr.
  - done.
Qed.

Lemma pbuf_realloc_spec l n st :
  packet (pbufs st) l -> sized l -> 0 <= n < total l -> counted l -> pstate_ok st ->
  exists st', pbuf_realloc (head_addr l) n st = Ok (tt, st') /\ shrunk st st' l (cut n l).1 (cut n l).2.
Proof.
  intros Hp Hs Hn Hc Hok. destruct l as [|[a b0] l']; [simpl in Hn; lia|].
  unfold pbuf_realloc. destruct (Hp) as (Ha & Hb & _). set (l := (a, b0) :: l') in *.
  change (head_addr l) with a. rewrite sassert_bind, (pb_get_bind _ _ _ _ Hb) by lia.
  change (tot_len (link b0 l')) with (total l). replace (total l <=? n) with false by lia.
  rewrite chain_fuel_bind, u16_id by (unfold is_u16; destruct Hs; lia).
  pose proof (packet_length _ _ Hp) as Hlen.
  destruct (pbuf_realloc_loop_spec (Datatypes.S (size (pbufs st))) l n st)
    as (k & q & b & rem & d & h & E & El & Ecut & Hrem & Hfr & Hok1 & Hpk); [done|done|lia|lia|].
  rewrite (st_bind_ok _ _ _ _ _ E), Ecut. cbn [fst snd]. rewrite El in Hp, Hc.
  assert (Hnd := packet_NoDup _ _ Hp). rewrite addrs_app in Hnd.
  apply NoDup_app in Hnd as (_ & Hkd & [Hqd Hnd]%NoDup_cons).
  apply packet_app in Hp as (Hq0 & Hq & Hd). apply Forall_app in Hc as [_ [_ Hc]%Forall_cons].
  assert (Hqk : q ∉ addrs k) by (intros Hin; apply (Hkd q Hin); by left).
  assert (Hq1 : pbufs (with_pbufs st h) !! q = Some (link b d)) by (simpl; by rewrite Hfr).
  rewrite (pb_get_bind _ _ _ _ Hq1).
  erewrite st_bind_ok. 2:{ case_match; [|done]. unfold mem_trim. rewrite sassert_bind by lia.
    unfold sassert. by rewrite Z.eqb_refl. }
  rewrite (pb_set_bind _ _ _ _ _ Hq1). set (st2 := with_pbufs _ _).
  destruct (free_rest_spec q b d rem st2) as (st' & E2 & Hok2 & Hq2 & Hkept & Hgone & Hout & Hown & Hext).
  { apply lookup_insert_eq. } { done. }
  { eapply packet_ext; [exact Hd|]. intros x Hx. simpl. rewrite lookup_insert_ne by (by intros ->).
    apply Hfr. intros Hin. apply (Hkd x Hin). by right. }
  { done. } { eapply pstate_ok_update; [by apply Hok1|exact Hq1|done]. }
  exists st'. split; [exact E2|]. split; [done|]. split; [|split; [done|split; [done|split; [|done]]]].
  - apply Hpk; [|done]. intros x Hx. rewrite Hout; [simpl; by rewrite lookup_insert_ne by (by intros ->)|..].
    + intros Hin. apply (Hkd x Hx). by right.
    + by intros ->.
  - intros x Hx. rewrite El, addrs_app, elem_of_app in Hx. rewrite Hout.
    + simpl. rewrite lookup_insert_ne by (intros ->; apply Hx; right; by left). apply Hfr. intros ?. apply Hx. by left.
    + intros Hin. apply Hx. right. by right.
    + intros ->. apply Hx. right. by left.
Qed.


(** ** Consuming from the front *)

(** A packet without its first [n] bytes; a pbuf that has been consumed is
    dropped. *)
Fixpoint strip (n : Z) (l : list (Z * pbuf)) : list (Z * pbuf) :=
  match l with
  | [] => []
  | (a, b) :: l' =>
      if n =? 0 then l
      else if len b <=? n then strip (n - len b) l' else (a, shift b n) :: l'
  end.

Lemma strip_total n l :
  0 <= n <= total l -> Forall (fun x => 0 <= len x.2) l -> total (strip n l) = total l - n.
Proof.
  revert n. induction l as [|[a b] l IH]; intros n Hn Hl; [simpl in *; lia|].
  apply Forall_cons in Hl as [Hb Hl]. simpl in *. destruct (Z.eqb_spec n 0); [simpl; lia|].
  destruct (Z.leb_spec (len b) n); simpl; [|lia]. rewrite IH; [lia|lia|done].
Qed.
Lemma strip_sub n l x : x ∈ addrs (strip n l) -> x ∈ addrs l.
Proof.
  revert n. induction l as [|[a b] l IH]; intros n; simpl; [done|].
  destruct (n =? 0); [done|]. destruct (len b <=? n); [|done]. intros Hx. right. eauto.
Qed.

(** One pbuf taken off the front and freed. *)
Lemma free_front_spec a b l st :
  packet (pbufs st) ((a, b) :: l) -> ref b = 1 -> is_Some (source_of b) -> pstate_ok st ->
  exists n st', pbuf_free a (with_pbufs st (<[a := with_next (link b l) 0]> (pbufs st))) = Ok (n, st') /\
    pstate_ok st' /\ pbufs st' = delete a (pbufs st).
Proof.
  intros (Ha & Hb & Hl) Hr Hs Hok. set (c := with_next (link b l) 0).
  destruct (pbuf_free_chained [(a, c)] (with_pbufs st (<[a := c]> (pbufs st))))
    as (st' & E & _ & Hok' & Hout & Hgone & _).
  - split; [done|]. split; [apply lookup_insert_eq|]. done.
  - done.
  - apply Forall_singleton. simpl. split; [lia|done].
  - by eapply pstate_ok_update.
  - eexists _, st'. split; [exact E|]. split; [done|]. apply map_eq. intros x.
    destruct (decide (x = a)) as [->|Hx].
    + rewrite lookup_delete_eq. apply Hgone. simpl. rewrite Hr. by left.
    + rewrite lookup_delete_ne by done. rewrite Hout; [|apply not_elem_of_cons; split; [done|by apply not_elem_of_nil]].
      by apply lookup_insert_ne.
Qed.

Lemma pbuf_free_header_loop_spec fuel l n st :
  packet (pbufs st) l -> sized l -> (length l < fuel)%nat -> is_u16 n ->
  Forall (fun x => ref x.2 = 1 /\ is_Some (source_of x.2)) l -> pstate_ok st ->
  exists st', pbuf_free_header_loop fuel (head_addr l) n st = Ok (head_addr (strip n l), st') /\
    pstate_ok st' /\ packet (pbufs st') (strip n l) /\
    (forall x, x ∈ addrs l -> x ∉ addrs (strip n l) -> pbufs st' !! x = None) /\
    (forall x, x ∉ addrs l -> pbufs st' !! x = pbufs st !! x).
Proof.
  revert fuel n st. induction l as [|[a b] l IH]; intros fuel n st Hp Hs Hf Hn Hc Hok;
    (destruct fuel as [|fuel]; [simpl in Hf; lia|]); cbn [pbuf_free_header_loop head_addr strip].
  { rewrite orb_true_r. exists st. by repeat (split; [done|]). }
  assert (Hp' := Hp). destruct Hp' as (Ha & Hb & Hl). replace (a =? 0) with false by lia. rewrite orb_false_r.
  destruct (Z.eqb_spec n 0) as [->|Hn0].
  { exists st. by repeat (split; [done|]). }
  assert (Hnd := packet_NoDup _ _ Hp). apply NoDup_cons in Hnd as [Hna _].
  change (fst <$> l) with (addrs l) in Hna. apply sized_cons in Hs as Hs'. destruct Hs' as (Hs' & Hb0 & Ht).
  apply Forall_cons in Hc as [[Hr Hsrc] Hc]. simpl in Hr, Hsrc, Hf. unfold is_u16 in Hn.
  rewrite (pb_get_bind _ _ _ _ Hb). change (len (link b l)) with (len b).
  destruct (Z.leb_spec (len b) n) as [Hle|Hlt].
  - rewrite (pb_set_bind _ _ _ _ _ Hb).
    destruct (free_front_spec a b l st) as (m & st1 & E & Hok1 & Hp1); [done..|].
    rewrite (st_bind_ok _ _ _ _ _ E). change (next (link b l)) with (head_addr l).
    rewrite u16_id by (unfold is_u16; lia).
    destruct (IH fuel (n - len b) st1) as (st' & -> & Hok2 & Hpk & Hgone & Hout);
      [rewrite Hp1; by apply packet_delete|done|lia|unfold is_u16; lia|done|done|].
    exists st'. split; [done|]. split; [done|]. split; [done|]. rewrite Hp1 in Hout. split.
    + intros x [->|Hx]%elem_of_cons Hx'; [|by apply Hgone]. rewrite Hout by done. apply lookup_delete_eq.
    + intros x [Hx1 Hx2]%not_elem_of_cons. rewrite Hout by done. by apply lookup_delete_ne.
  - rewrite (st_bind_ok _ _ _ _ _ (eq_trans (pbuf_remove_header_spec a b l n st Hp Hs ltac:(lia))
      ltac:(replace (n <=? len b) with true by lia; reflexivity))).
    eexists. split; [done|]. split; [by eapply pstate_ok_update|].
    split; [by eapply packet_head|]. split; [done|].
    intros x [Hx1 Hx2]%not_elem_of_cons. by apply lookup_insert_ne.
Qed.


(** ** The properties *)

(** C12. [pbuf_alloc] of a [PBUF_RAM] or [PBUF_POOL] packet, from any allocators
    that keep their promise, returns NULL with every pbuf and every byte as
    before (a chain that could not be completed is freed again), or a packet of
    exactly the requested length: pbufs that did not exist, correctly linked and
    totalled, with one reference each, their data within their own blocks and
    room for the headers of the layer in front of the first. *)
Theorem pbuf_alloc_correct layer n type st :
  pstate_ok st -> is_u16 n -> type = PBUF_RAM \/ type = PBUF_POOL ->
  allocated st n (roomy layer) (pbuf_alloc layer n type st).
Proof.
  intros Hok Hn [-> | ->]; [by apply pbuf_alloc_ram_spec|by apply pbuf_alloc_pool_spec].
Qed.

(** C13. [pbuf_free] of a packet without custom pbufs
    releases exactly the longest prefix of singly referenced pbufs, each once and to the allocator it came from; the first pbuf somebody
    else holds loses one reference and with what follows it remains a packet.
    The result is the number of pbufs released, modulo 256. *)
Theorem pbuf_free_correct l st :
  packet (pbufs st) l -> l <> [] -> counted l -> pstate_ok st ->
  exists l1 l2 st', l = l1 ++ l2 /\ Forall (fun x => ref x.2 = 1) l1 /\
    pbuf_free (head_addr l) st = Ok (u8 (Z.of_nat (length l1)), st') /\ pstate_ok st' /\
    (forall x, x ∈ addrs l1 -> pbufs st' !! x = None /\ own st' !! x = None) /\
    (forall x, x ∉ addrs l -> pbufs st' !! x = pbufs st !! x) /\
    match l2 with
    | [] => True
    | (a, b) :: l' => ref b <> 1 /\ packet (pbufs st') ((a, with_ref b (ref b - 1)) :: l')
    end.
Proof.
  intros Hp Hne Hc Hok. destruct (pbuf_free_spec l st) as (st' & E & Hk & Hok' & Hout & Hgone & _); try done.
  destruct (released_kept l) as (l2 & El & Hf & Hkept & Hr). exists (released l), l2, st'.
  rewrite E. repeat (split; [done|]). rewrite Hkept in Hk. destruct l2 as [|[a b] l2]; [done|].
  split; [by eapply Hr|done].
Qed.

(** [pbuf_ref] followed by [pbuf_free] leaves the state as it was and
    releases nothing; [pbuf_ref] of a pbuf with 255 references is a panic, not a
    count of zero. *)
Theorem pbuf_ref_free a b l st :
  packet (pbufs st) ((a, b) :: l) -> 1 <= ref b <= 255 ->
  (_ ← pbuf_ref a; pbuf_free a) st = if ref b =? 255 then Panic else Ok (0, st).
Proof.
  intros Hp Hr. destruct (Hp) as (Ha & Hb & _). destruct (Z.eqb_spec (ref b) 255) as [E|E].
  - unfold pbuf_ref. replace (a =? 0) with false by lia. cbn [negb].
    unfold mbind, st_bind. unfold pb_get at 1. rewrite Hb. simpl. rewrite E. unfold pb_set. by rewrite Hb.
  - rewrite (st_bind_ok _ _ _ _ _ (pbuf_ref_spec a b l st Hp ltac:(lia))).
    unfold pbuf_free. replace (a =? 0) with false by lia. rewrite chain_fuel_bind. cbn [pbuf_free_loop].
    replace (a =? 0) with false by lia. rewrite (pb_get_bind _ _ _ _ (lookup_insert_eq _ _ _)).
    change (ref (with_ref _ ?n)) with n. rewrite sassert_bind by lia.
    rewrite (pb_set_bind _ _ _ _ _ (lookup_insert_eq _ _ _)).
    rewrite u8_id by (unfold is_u8; lia). replace (ref b + 1 - 1) with (ref b) by lia.
    replace (ref b =? 0) with false by lia. simpl pbufs. rewrite insert_insert_eq.
    change (with_ref (with_ref (link b l) (ref b + 1)) (ref b)) with (link b l).
    rewrite (insert_id _ _ _ Hb). by destruct st.
Qed.

(** [pbuf_chain] of two packets that share no pbuf makes the packet of all
    their pbufs, every [tot_len] updated, with one more reference to the second
    for the caller; no other pbuf changes. *)
Theorem pbuf_chain_correct l1 t tb l2 st :
  packet (pbufs st) l1 -> packet (pbufs st) ((t, tb) :: l2) -> l1 <> [] ->
  (forall a, a ∈ addrs l1 -> a ∉ addrs ((t, tb) :: l2)) ->
  sized l1 -> sized ((t, tb) :: l2) -> total l1 + total ((t, tb) :: l2) < 65536 -> 0 <= ref tb < 255 ->
  exists h, pbuf_chain (head_addr l1) t st = Ok (tt, with_pbufs st h) /\
    packet h (l1 ++ (t, with_ref tb (ref tb + 1)) :: l2) /\
    (forall x, x ∉ addrs l1 -> x <> t -> h !! x = pbufs st !! x).
Proof. apply pbuf_chain_spec. Qed.

(** [pbuf_dechain] separates the first pbuf, which becomes a packet of its
    own, and gives up its reference to the rest as [pbuf_free] does.  It returns
    the rest when somebody else holds it and NULL when its first pbuf was
    released -- unless a multiple of 256 pbufs was, for the count is 8 bits wide:
    then it returns the address of a pbuf that no longer exists. *)
Theorem pbuf_dechain_correct a b l st :
  packet (pbufs st) ((a, b) :: l) -> l <> [] -> sized ((a, b) :: l) -> counted l -> pstate_ok st ->
  exists st', pbuf_dechain a st
      = Ok (if Z.of_nat (length (released l)) mod 256 =? 0 then head_addr l else 0, st') /\
    packet (pbufs st') [(a, b)] /\ pstate_ok st' /\
    packet (pbufs st') (kept l) /\ (released l = [] -> head_addr (kept l) = head_addr l) /\
    (forall x, x ∈ addrs (released l) -> pbufs st' !! x = None).
Proof.
  intros Hp Hne Hs Hc Hok.
  destruct (pbuf_dechain_spec a b l st) as (st' & E & Hh & Hk & Hok' & _ & Hgone & _); try done.
  exists st'. split; [|split; [done|split; [done|split; [done|split]]]].
  - rewrite E. pose proof (u8_range (Z.of_nat (length (released l)))) as Hr.
    unfold u8, is_u8 in *. set (m := Z.of_nat _ mod _) in *. change (_ mod 256) with m.
    destruct (Z.eqb_spec m 0) as [->|Hm]; [done|]. by replace (0 <? m) with true by lia.
  - destruct l as [|[q c] l]; [done|]. simpl. destruct (ref c =? 1); [discriminate|done].
  - intros x Hx. by apply Hgone.
Qed.

(** [pbuf_realloc] to [n] bytes leaves the packet's first [n] bytes, in a
    packet whose total is [n], and gives up the pbufs behind them as [pbuf_free]
    does; it does nothing when the packet is not longer than [n]. *)
Theorem pbuf_realloc_correct l n st :
  packet (pbufs st) l -> l <> [] -> sized l -> 0 <= n -> counted l -> pstate_ok st ->
  exists st', pbuf_realloc (head_addr l) n st = Ok (tt, st') /\
    if total l <=? n then st' = st
    else total (cut n l).1 = n /\ shrunk st st' l (cut n l).1 (cut n l).2.
Proof.
  intros Hp Hne Hs Hn Hc Hok. destruct (Z.leb_spec (total l) n) as [Hle|Hlt].
  - exists st. split; [|done]. destruct l as [|[a b] l]; [done|]. destruct Hp as (Ha & Hb & _).
    unfold pbuf_realloc. cbn [head_addr]. rewrite sassert_bind, (pb_get_bind _ _ _ _ Hb) by lia.
    change (tot_len (link b l)) with (total ((a, b) :: l)). by replace (_ <=? n) with true by lia.
  - destruct (pbuf_realloc_spec l n st) as (st' & E & Hsh); try done. exists st'.
    split; [done|]. split; [|done]. apply cut_total; [lia|apply Hs].
Qed.

(** [pbuf_add_header] of [n] bytes succeeds exactly when the total stays
    16-bit and the payload pointer stays behind the struct, and then moves it;
    it changes nothing when it fails.  [pbuf_remove_header] of [n] bytes of the
    first pbuf succeeds, and adding them again restores the state. *)
Theorem pbuf_header_correct a b l n st :
  packet (pbufs st) ((a, b) :: l) -> sized ((a, b) :: l) -> 0 < n ->
  Z.land (type_internal b) PBUF_TYPE_FLAG_STRUCT_DATA_CONTIGUOUS <> 0 ->
  a + SIZEOF_STRUCT_PBUF <= ptr_addr (payload b) ->
  let room := n + total ((a, b) :: l) < 65536 /\ a + SIZEOF_STRUCT_PBUF <= ptr_addr (payload b) - n in
  (room -> exists st', pbuf_add_header a n st = Ok (false, st') /\
             packet (pbufs st') ((a, shift b (- n)) :: l)) /\
  (~ room -> pbuf_add_header a n st = Ok (true, st)) /\
  (n <= len b -> (_ ← pbuf_remove_header a n; pbuf_add_header a n) st = Ok (false, st)).
Proof.
  intros Hp Hs Hn Hty Hpl. apply sized_cons in Hs as Hs'. destruct Hs' as (Hs' & Hb0 & Ht).
  pose proof (total_nonneg _ (proj1 Hs')). unfold pbuf_add_header. cbv zeta.
  assert (Hroom : header_room a b l n false = true <->
    n + (len b + total l) < 65536 /\ a + SIZEOF_STRUCT_PBUF <= ptr_addr (payload b) - n).
  { unfold header_room. replace (negb _) with true by lia. lia. }
  change (total ((a, b) :: l)) with (len b + total l).
  rewrite (pbuf_add_header_impl_spec a b l n false st Hp Hs Hn). split; [|split].
  - intros Hr. apply Hroom in Hr as ->. eexists. split; [done|]. by eapply packet_head.
  - intros Hr. destruct (header_room a b l n false); [|done]. by destruct Hr; apply Hroom.
  - intros Hle. rewrite (st_bind_ok _ _ _ _ _ (eq_trans (pbuf_remove_header_spec a b l n st Hp Hs Hn)
      ltac:(replace (n <=? len b) with true by lia; reflexivity))).
    erewrite pbuf_add_header_impl_spec; [|by eapply packet_head| |done].
    2:{ split; [constructor; [simpl; lia|apply Hs']|simpl; lia]. }
    replace (header_room a (shift b n) l n false) with true.
    2:{ unfold header_room, shift. simpl. replace (negb _) with true by lia. rewrite ptr_addr_add. lia. }
    simpl pbufs. rewrite insert_insert_eq, shift_shift, Z.add_opp_diag_r, shift_0.
    rewrite (insert_id _ _ _ (proj1 (proj2 Hp))).
    by destruct st.
Qed.

(** [pbuf_free_header] of [n] bytes of a packet that nobody else holds
    returns the packet without its first [n] bytes and releases exactly the
    pbufs that lay within them. *)
Theorem pbuf_free_header_correct l n st :
  packet (pbufs st) l -> sized l -> 0 <= n <= total l ->
  Forall (fun x => ref x.2 = 1 /\ is_Some (source_of x.2)) l -> pstate_ok st ->
  exists l' st', l' = strip n l /\ pbuf_free_header (head_addr l) n st = Ok (head_addr l', st') /\
    pstate_ok st' /\ packet (pbufs st') l' /\ total l' = total l - n /\
    (forall x, x ∈ addrs l -> x ∉ addrs l' -> pbufs st' !! x = None) /\
    (forall x, x ∉ addrs l -> pbufs st' !! x = pbufs st !! x).
Proof.
  intros Hp Hs Hn Hc Hok. pose proof (packet_length _ _ Hp).
  destruct (pbuf_free_header_loop_spec (Datatypes.S (size (pbufs st))) l n st)
    as (st' & E & Hok' & Hpk & Hgone & Hout); try done; [lia|unfold is_u16; destruct Hs; lia|].
  exists (strip n l), st'. split; [done|]. split; [exact E|]. split; [done|]. split; [done|].
  split; [apply strip_total; [done|apply Hs]|done].
Qed.

End pbuf.

(** ** The properties at a concrete memory *)

Section example.
#[local] Existing Instance example_PbufAlloc.

Abbreviation example_pstate := (@pstate (memp_state * Z)).
Definition no_custom : Z -> Z -> ST example_pstate unit := fun _ _ => mret tt.
Definition zeros : Z -> Z := fun _ => 0.
Definition example_st0 : example_pstate :=
  {| pbufs := ∅; own := ∅; ext := ∅; custom_fn := ∅; free_ooseq_pending := false; alloc := example_mem |}.

(** A chain of two pool pbufs, then a pbuf in RAM. *)
Definition after (r : outcome (Z * example_pstate)) : example_pstate :=
  match r with Ok (_, st) => st | _ => example_st0 end.
Definition example_st1 : example_pstate := after (pbuf_alloc no_custom zeros PBUF_LINK 600 PBUF_POOL example_st0).
Definition example_st2 : example_pstate := after (pbuf_alloc no_custom zeros PBUF_LINK 100 PBUF_RAM example_st1).

Definition ram_pbuf (q ofs l : Z) : pbuf :=
  {| next := 0; payload := Own q ofs; tot_len := 0; len := l; type_internal := u8 PBUF_RAM;
     flags := 0; ref := 1; if_idx := NETIF_NO_INDEX |}.
Definition example_l1 : list (Z * pbuf) :=
  [(0x2266, pool_pbuf 0x2266 14 576); (0x2000, pool_pbuf 0x2000 0 24)].
Definition example_l2 : list (Z * pbuf) := [(0x10000, ram_pbuf 0x10000 14 100)].

Lemma allocated_ok st n P r : pstate_ok st -> allocated st n P r -> pstate_ok (after r).
Proof. by intros Hok (p & st' & -> & [[_ H]|(src & l & _ & _ & H & _)]); apply H. Qed.

Lemma example_ok0 : pstate_ok example_st0.
Proof. split; [exact example_mem_live|]. intros p b Hb. simpl in Hb. by rewrite lookup_empty in Hb. Qed.
Lemma example_ok1 : pstate_ok example_st1.
Proof. eapply allocated_ok; [exact example_ok0|]. by apply pbuf_alloc_pool_spec; [exact example_ok0|]. Qed.
Lemma example_ok2 : pstate_ok example_st2.
Proof. eapply allocated_ok; [exact example_ok1|]. by apply pbuf_alloc_ram_spec; [exact example_ok1|]. Qed.

Lemma example_packets : packet (pbufs example_st2) example_l1 /\ packet (pbufs example_st2) example_l2.
Proof. vm_compute. by repeat split. Qed.
Lemma example_sized : sized example_l1 /\ sized example_l2.
Proof. by repeat constructor. Qed.
Lemma example_counted : counted example_l1.
Proof. repeat apply Forall_cons_2; try apply Forall_nil_2; (split; [done|by eexists]). Qed.

Lemma pbuf_alloc_correct_witness :
  allocated example_st0 600 (roomy PBUF_LINK)
    (pbuf_alloc no_custom zeros PBUF_LINK 600 PBUF_POOL example_st0).
Proof. exact (pbuf_alloc_correct no_custom zeros PBUF_LINK 600 PBUF_POOL example_st0 example_ok0
  ltac:(done) (or_intror eq_refl)). Defined.

Lemma pbuf_free_correct_witness :
  exists l1 l2 st', example_l1 = l1 ++ l2 /\ Forall (fun x => ref x.2 = 1) l1 /\
    pbuf_free no_custom 0x2266 example_st2 = Ok (u8 (Z.of_nat (length l1)), st') /\ pstate_ok st' /\
    (forall x, x ∈ addrs l1 -> pbufs st' !! x = None /\ own st' !! x = None) /\
    (forall x, x ∉ addrs example_l1 -> pbufs st' !! x = pbufs example_st2 !! x) /\
    match l2 with
    | [] => True
    | (a, b) :: l' => ref b <> 1 /\ packet (pbufs st') ((a, with_ref b (ref b - 1)) :: l')
    end.
Proof. exact (pbuf_free_correct no_custom example_l1 example_st2 (proj1 example_packets) ltac:(done)
  example_counted example_ok2). Defined.

Lemma pbuf_ref_free_witness :
  (_ ← pbuf_ref 0x2266; pbuf_free no_custom 0x2266) example_st2 = Ok (0, example_st2).
Proof. exact (pbuf_ref_free no_custom 0x2266 _ _ example_st2 (proj1 example_packets) ltac:(done)). Defined.

Lemma pbuf_chain_correct_witness :
  exists h, pbuf_chain 0x2266 0x10000 example_st2 = Ok (tt, with_pbufs example_st2 h) /\
    packet h (example_l1 ++ [(0x10000, with_ref (ram_pbuf 0x10000 14 100) 2)]) /\
    (forall x, x ∉ addrs example_l1 -> x <> 0x10000 -> h !! x = pbufs example_st2 !! x).
Proof.
  refine (pbuf_chain_correct example_l1 0x10000 (ram_pbuf 0x10000 14 100) [] example_st2
    (proj1 example_packets) (proj2 example_packets) ltac:(done) _
    (proj1 example_sized) (proj2 example_sized) ltac:(done) ltac:(done)).
  simpl. intros a. set_solver by lia.
Defined.

Lemma pbuf_dechain_correct_witness :
  let l := [(0x2000, pool_pbuf 0x2000 0 24)] in
  exists st', pbuf_dechain no_custom 0x2266 example_st2
      = Ok (if Z.of_nat (length (released l)) mod 256 =? 0 then head_addr l else 0, st') /\
    packet (pbufs st') [(0x2266, pool_pbuf 0x2266 14 576)] /\ pstate_ok st' /\
    packet (pbufs st') (kept l) /\ (released l = [] -> head_addr (kept l) = head_addr l) /\
    (forall x, x ∈ addrs (released l) -> pbufs st' !! x = None).
Proof. exact (pbuf_dechain_correct no_custom 0x2266 (pool_pbuf 0x2266 14 576) _ example_st2
  (proj1 example_packets) ltac:(done) (proj1 example_sized)
  (Forall_inv_tail example_counted) example_ok2). Defined.

Lemma pbuf_realloc_correct_witness :
  exists st', pbuf_realloc no_custom 0x2266 500 example_st2 = Ok (tt, st') /\
    total (cut 500 example_l1).1 = 500 /\ shrunk example_st2 st' example_l1 (cut 500 example_l1).1 (cut 500 example_l1).2.
Proof. exact (pbuf_realloc_correct no_custom example_l1 500 example_st2 (proj1 example_packets) ltac:(done)
  (proj1 example_sized) ltac:(done) example_counted example_ok2). Defined.

Lemma pbuf_header_correct_witness :
  exists st', pbuf_add_header 0x10000 14 example_st2 = Ok (false, st') /\
    packet (pbufs st') [(0x10000, shift (ram_pbuf 0x10000 14 100) (- 14))].
Proof.
  refine (proj1 (pbuf_header_correct 0x10000 (ram_pbuf 0x10000 14 100) [] 14 example_st2
    (proj2 example_packets) (proj2 example_sized) ltac:(done) ltac:(done) ltac:(done)) _).
  vm_compute. split; [done|discriminate].
Defined.

Lemma pbuf_free_header_correct_witness :
  exists l' st', l' = strip 590 example_l1 /\
    pbuf_free_header no_custom 0x2266 590 example_st2 = Ok (head_addr l', st') /\
    pstate_ok st' /\ packet (pbufs st') l' /\ total l' = 10 /\
    (forall x, x ∈ addrs example_l1 -> x ∉ addrs l' -> pbufs st' !! x = None) /\
    (forall x, x ∉ addrs example_l1 -> pbufs st' !! x = pbufs example_st2 !! x).
Proof.
  refine (pbuf_free_header_correct no_custom example_l1 590 example_st2 (proj1 example_packets)
    (proj1 example_sized) ltac:(done) _ example_ok2).
  repeat apply Forall_cons_2; try apply Forall_nil_2; (split; [done|by eexists]).
Defined.
End example.
