(* ===== verification/PbufData.v ===== *)
(** * Packet buffers: data (core/pbuf.c, from [pbuf_copy] on)

    The functions that move, compare and search the payload bytes of packets.
    Every access goes through [read_mem] and [write_mem], which are a [Fault]
    outside the object the pointer refers to; [MEMCPY] of overlapping ranges is a
    [Fault] as well.  [data] is what a packet carries: the bytes of its pbufs in
    order, which the properties are about. *)

From S2P Require Import Prelude Memp Mem Pbuf.

Set Default Proof Using "Type".

(** ** Memory *)

Section data.
Context {S : Type} `{!PbufAlloc S}.
Abbreviation state := (@pstate S).
Abbreviation M := (ST state).
Context (call_custom_free : Z -> Z -> M unit) (garbage : Z -> Z).

Definition mem_obj (st : state) (x : ptr) : option (list Z) :=
  match x with
  | Abs _ => None
  | Own p _ => own st !! p
  | Ext b _ => ext st !! b
  end.
Definition ptr_ofs (x : ptr) : Z := match x with Abs a => a | Own _ o => o | Ext _ o => o end.
Definition same_obj (x y : ptr) : bool :=
  match x, y with
  | Own p _, Own q _ => p =? q
  | Ext b _, Ext c _ => b =? c
  | _, _ => false
  end.
Definition set_obj (x : ptr) (bs : list Z) (st : state) : state :=
  match x with
  | Abs _ => st
  | Own p _ => with_own st (<[p := bs]> (own st))
  | Ext b _ => with_ext st (<[b := bs]> (ext st))
  end.

Definition slice (ofs n : Z) (bs : list Z) : list Z := take (Z.to_nat n) (drop (Z.to_nat ofs) bs).
Definition splice (ofs : Z) (new bs : list Z) : list Z :=
  take (Z.to_nat ofs) bs ++ new ++ drop (Z.to_nat ofs + length new) bs.

Definition in_object (x : ptr) (n : Z) (bs : list Z) : bool :=
  (0 <=? ptr_ofs x) && (ptr_ofs x + n <=? Z.of_nat (length bs)).

Definition read_mem (x : ptr) (n : Z) : M (list Z) := fun st =>
  if n <=? 0 then Ok ([], st)
  else
    match mem_obj st x with
    | Some bs => if in_object x n bs then Ok (slice (ptr_ofs x) n bs, st) else Fault
    | None => Fault
    end.
Definition write_mem (x : ptr) (new : list Z) : M unit := fun st =>
  if bool_decide (new = []) then Ok (tt, st)
  else
    match mem_obj st x with
    | Some bs =>
        if in_object x (Z.of_nat (length new)) bs
        then Ok (tt, set_obj x (splice (ptr_ofs x) new bs) st) else Fault
    | None => Fault
    end.
Definition read_byte (x : ptr) : M Z := bs ← read_mem x 1; mret (default 0 (head bs)).

Definition MEMCPY (dst src : ptr) (n : Z) : M unit :=
  if same_obj dst src && (0 <? n) && (ptr_ofs dst <? ptr_ofs src + n) && (ptr_ofs src <? ptr_ofs dst + n)
  then fun _ => Fault
  else bs ← read_mem src n; write_mem dst bs.

(** ** Copying out *)

Fixpoint copy_partial_loop (fuel : nat) (p : Z) (dataptr : ptr) (len' offset left copied_total : Z) : M Z :=
  match fuel with
  | O => fun _ => Diverge
  | Datatypes.S fuel' =>
      if (len' =? 0) || (p =? 0) then mret copied_total
      else
        b ← pb_get p;
        if negb (offset =? 0) && (len b <=? offset) then
          copy_partial_loop fuel' (next b) dataptr len' (u16 (offset - len b)) left copied_total
        else
          let buf_copy_len := u16 (len b - offset) in
          let buf_copy_len := if len' <? buf_copy_len then len' else buf_copy_len in
          _ ← MEMCPY (ptr_add dataptr left) (ptr_add (payload b) offset) buf_copy_len;
          copy_partial_loop fuel' (next b) dataptr (u16 (len' - buf_copy_len)) 0
            (u16 (left + buf_copy_len)) (u16 (copied_total + buf_copy_len))
  end.

Definition pbuf_copy_partial (buf : Z) (dataptr : ptr) (len' offset : Z) : M Z :=
  if buf =? 0 then mret 0
  else if bool_decide (dataptr = NULL) then mret 0
  else fuel ← chain_fuel; copy_partial_loop fuel buf dataptr len' offset 0 0.

(** The pbuf and the offset in it ([*out_offset]). *)
Fixpoint skip_loop (fuel : nat) (q offset_left : Z) : M (Z * Z) :=
  match fuel with
  | O => fun _ => Diverge
  | Datatypes.S fuel' =>
      if q =? 0 then mret (q, offset_left)
      else
        b ← pb_get q;
        if len b <=? offset_left then skip_loop fuel' (next b) (u16 (offset_left - len b))
        else mret (q, offset_left)
  end.
Definition pbuf_skip_const (p in_offset : Z) : M (Z * Z) :=
  fuel ← chain_fuel; skip_loop fuel p in_offset.
Definition pbuf_skip (p in_offset : Z) : M (Z * Z) := pbuf_skip_const p in_offset.

Definition pbuf_get_contiguous (p : Z) (buffer : ptr) (bufsize len' offset : Z) : M ptr :=
  if p =? 0 then mret NULL
  else if negb (bool_decide (buffer = NULL)) && (bufsize <? len') then mret NULL
  else
    '(q, out_offset) ← pbuf_skip_const p offset;
    if negb (q =? 0) then
      b ← pb_get q;
      if out_offset + len' <=? len b then mret (ptr_add (payload b) out_offset)
      else if bool_decide (buffer = NULL) then mret NULL
      else
        n ← pbuf_copy_partial q buffer len' out_offset;
        if negb (n =? len') then mret NULL else mret buffer
    else mret NULL.

(** ** Copying in *)

Fixpoint take_loop (fuel : nat) (p : Z) (dataptr : ptr) (total_copy_len copied_total : Z) : M (Z * Z) :=
  match fuel with
  | O => fun _ => Diverge
  | Datatypes.S fuel' =>
      if total_copy_len =? 0 then mret (total_copy_len, copied_total)
      else
        _ ← sassert (negb (p =? 0));
        b ← pb_get p;
        let buf_copy_len := if len b <? total_copy_len then len b else total_copy_len in
        _ ← MEMCPY (payload b) (ptr_add dataptr copied_total) buf_copy_len;
        take_loop fuel' (next b) dataptr (u64 (total_copy_len - buf_copy_len)) (u64 (copied_total + buf_copy_len))
  end.

Definition pbuf_take (buf : Z) (dataptr : ptr) (len' : Z) : M Z :=
  if buf =? 0 then mret ERR_ARG
  else if bool_decide (dataptr = NULL) then mret ERR_ARG
  else
    b ← pb_get buf;
    if negb (len' <=? tot_len b) then mret ERR_MEM
    else
      fuel ← chain_fuel;
      '(total_copy_len, copied_total) ← take_loop fuel buf dataptr len' 0;
      _ ← sassert ((total_copy_len =? 0) && (copied_total =? len'));
      mret ERR_OK.

Definition pbuf_take_at (buf : Z) (dataptr : ptr) (len' offset : Z) : M Z :=
  '(q, target_offset) ← pbuf_skip buf offset;
  if q =? 0 then mret ERR_MEM
  else
    b ← pb_get q;
    if target_offset + len' <=? tot_len b then
      _ ← sassert (target_offset <? len b);
      let first_copy_len := u16 (Z.min (len b - target_offset) len') in
      _ ← MEMCPY (ptr_add (payload b) target_offset) dataptr first_copy_len;
      let remaining_len := u16 (len' - first_copy_len) in
      if 0 <? remaining_len then pbuf_take (next b) (ptr_add dataptr first_copy_len) remaining_len
      else mret ERR_OK
    else mret ERR_MEM.

(** ** Copying between packets *)

(** [p->len == p->tot_len] but another pbuf follows: a packet queue. *)
Definition ends_queue (p : Z) : M bool :=
  if p =? 0 then mret false
  else b ← pb_get p; mret ((len b =? tot_len b) && negb (next b =? 0)).

Fixpoint copy_pbuf_loop (fuel : nat) (p_to p_from copy_len offset_to offset_from : Z) : M Z :=
  match fuel with
  | O => fun _ => Diverge
  | Datatypes.S fuel' =>
      bt ← pb_get p_to;
      bf ← pb_get p_from;
      let room_to := u64 (len bt - offset_to) in
      let room_from := u64 (len bf - offset_from) in
      let n := if room_from <=? room_to then room_from else room_to in
      let n := Z.min copy_len n in
      _ ← MEMCPY (ptr_add (payload bt) offset_to) (ptr_add (payload bf) offset_from) n;
      let offset_to := u64 (offset_to + n) in
      let offset_from := u64 (offset_from + n) in
      let copy_len := u16 (copy_len - n) in
      _ ← sassert (offset_to <=? len bt);
      _ ← sassert (offset_from <=? len bf);
      let on_from := len bf <=? offset_from in
      let p_from := if on_from then next bf else p_from in
      let offset_from := if on_from then 0 else offset_from in
      if on_from && (p_from =? 0) && negb (copy_len =? 0) then mret ERR_ARG
      else
        let on_to := offset_to =? len bt in
        let p_to := if on_to then next bt else p_to in
        let offset_to := if on_to then 0 else offset_to in
        if on_to && (p_to =? 0) && negb (copy_len =? 0) then mret ERR_ARG
        else
          qf ← ends_queue p_from;
          if (qf : bool) then mret ERR_VAL
          else
            qt ← ends_queue p_to;
            if (qt : bool) then mret ERR_VAL
            else if negb (copy_len =? 0) then copy_pbuf_loop fuel' p_to p_from copy_len offset_to offset_from
            else mret ERR_OK
  end.

Definition pbuf_copy_partial_pbuf (p_to p_from copy_len offset : Z) : M Z :=
  if p_from =? 0 then mret ERR_ARG
  else
    bf ← pb_get p_from;
    if negb (copy_len <=? tot_len bf) then mret ERR_ARG
    else if p_to =? 0 then mret ERR_ARG
    else
      bt ← pb_get p_to;
      if negb (offset + copy_len <=? tot_len bt) then mret ERR_ARG
      else
        fuel ← chain_fuel;
        copy_pbuf_loop (fuel + fuel) p_to p_from copy_len offset 0.

Definition pbuf_copy (p_to p_from : Z) : M Z :=
  if p_from =? 0 then mret ERR_ARG
  else bf ← pb_get p_from; pbuf_copy_partial_pbuf p_to p_from (tot_len bf) 0.

Definition pbuf_clone (layer : pbuf_layer) (type p : Z) : M Z :=
  b ← pb_get p;
  q ← pbuf_alloc call_custom_free garbage layer (tot_len b) type;
  if q =? 0 then mret 0
  else
    err ← pbuf_copy q p;
    _ ← sassert (err =? ERR_OK);
    mret q.

Definition pbuf_coalesce (p : Z) (layer : pbuf_layer) : M Z :=
  b ← pb_get p;
  if next b =? 0 then mret p
  else
    q ← pbuf_clone layer PBUF_RAM p;
    if q =? 0 then mret p
    else
      _ ← pbuf_free call_custom_free p;
      mret q.

(** ** Single bytes *)

Definition pbuf_try_get_at (p offset : Z) : M Z :=
  '(q, q_idx) ← pbuf_skip_const p offset;
  if q =? 0 then mret (-1)
  else
    b ← pb_get q;
    if q_idx <? len b then read_byte (ptr_add (payload b) q_idx) else mret (-1).

Definition pbuf_get_at (p offset : Z) : M Z :=
  ret ← pbuf_try_get_at p offset;
  if 0 <=? ret then mret (u8 ret) else mret 0.

Definition pbuf_put_at (p offset data : Z) : M unit :=
  '(q, q_idx) ← pbuf_skip p offset;
  if q =? 0 then mret tt
  else
    b ← pb_get q;
    if q_idx <? len b then write_mem (ptr_add (payload b) q_idx) [data] else mret tt.

(** ** Comparing and searching *)

Fixpoint pbuf_memcmp_loop (fuel : nat) (q start : Z) (s2 : ptr) (n i : Z) : M Z :=
  match fuel with
  | O => fun _ => Diverge
  | Datatypes.S fuel' =>
      if i <? n then
        a ← pbuf_get_at q (u16 (start + i));
        b ← read_byte (ptr_add s2 i);
        if negb (a =? b) then mret (u16 (Z.min (i + 1) 0xFFFF))
        else pbuf_memcmp_loop fuel' q start s2 n (u16 (i + 1))
      else mret 0
  end.

Definition pbuf_memcmp (p offset : Z) (s2 : ptr) (n : Z) : M Z :=
  b ← pb_get p;
  if tot_len b <? offset + n then mret 0xffff
  else
    fuel ← chain_fuel;
    '(q, start) ← skip_loop fuel p offset;
    pbuf_memcmp_loop (Datatypes.S (Z.to_nat n)) q start s2 n 0.

Fixpoint pbuf_memfind_loop (fuel : nat) (p : Z) (mem : ptr) (mem_len max_cmp_start i : Z) : M Z :=
  match fuel with
  | O => fun _ => Diverge
  | Datatypes.S fuel' =>
      if i <=? max_cmp_start then
        plus ← pbuf_memcmp p i mem mem_len;
        if plus =? 0 then mret i
        else pbuf_memfind_loop fuel' p mem mem_len max_cmp_start (u16 (i + 1))
      else mret 0xFFFF
  end.

Definition pbuf_memfind (p : Z) (mem : ptr) (mem_len start_offset : Z) : M Z :=
  b ← pb_get p;
  let max_cmp_start := u16 (tot_len b - mem_len) in
  if mem_len + start_offset <=? tot_len b then
    pbuf_memfind_loop (Z.to_nat 65537) p mem mem_len max_cmp_start start_offset
  else mret 0xFFFF.

(** [strlen]: the index of the first 0 from [ofs] on. *)
Fixpoint index0 (bs : list Z) : option Z :=
  match bs with
  | [] => None
  | b :: bs' => if b =? 0 then Some 0 else i ← index0 bs'; Some (i + 1)
  end.
Definition strlen (x : ptr) : M Z := fun st =>
  match mem_obj st x ≫= fun bs => if 0 <=? ptr_ofs x then index0 (drop (Z.to_nat (ptr_ofs x)) bs) else None with
  | Some n => Ok (n, st)
  | None => Fault
  end.

Definition pbuf_strstr (p : Z) (substr : ptr) : M Z :=
  if bool_decide (substr = NULL) then mret 0xFFFF
  else
    c ← read_byte substr;
    b ← (if c =? 0 then mret 0 else b ← pb_get p; mret (if tot_len b =? 0xFFFF then 0 else 1));
    if b =? 0 then mret 0xFFFF
    else
      substr_len ← strlen substr;
      if 0xFFFF <=? substr_len then mret 0xFFFF
      else pbuf_memfind p substr (u16 substr_len) 0.

(** ** What a packet carries *)

Definition pbuf_bytes (st : state) (b : pbuf) : list Z :=
  slice (ptr_ofs (payload b)) (len b) (default [] (mem_obj st (payload b))).
Definition data (st : state) (l : list (Z * pbuf)) : list Z :=
  concat (map (fun x => pbuf_bytes st x.2) l).

(** The object of [x] has [n] bytes from [x] on. *)
Definition extent (st : state) (x : ptr) (n : Z) : Prop :=
  exists bs, mem_obj st x = Some bs /\ 0 <= ptr_ofs x /\ ptr_ofs x + n <= Z.of_nat (length bs).
Definition readable (st : state) (l : list (Z * pbuf)) : Prop :=
  Forall (fun x => len x.2 = 0 \/ extent st (payload x.2) (len x.2)) l.
(** [d] is not memory of the packet. *)
Definition foreign (d : ptr) (l : list (Z * pbuf)) : Prop :=
  Forall (fun x => same_obj d (payload x.2) = false) l.

(** ** Slices *)

Lemma slice_lookup o n bs i :
  slice o n bs !! i = if decide (i < Z.to_nat n)%nat then bs !! (Z.to_nat o + i)%nat else None.
Proof.
  unfold slice. destruct (decide (i < Z.to_nat n)%nat).
  - by rewrite lookup_take_lt, lookup_drop.
  - by rewrite lookup_take_ge by lia.
Qed.
Lemma splice_lookup o new bs i : (Z.to_nat o <= length bs)%nat ->
  splice o new bs !! i
  = if decide (i < Z.to_nat o)%nat then bs !! i
    else if decide (i < Z.to_nat o + length new)%nat then new !! (i - Z.to_nat o)%nat else bs !! i.
Proof.
  intros Ho. unfold splice. assert (Hl : length (take (Z.to_nat o) bs) = Z.to_nat o)
    by (rewrite length_take; lia).
  destruct (decide (i < Z.to_nat o)%nat).
  - rewrite lookup_app_l by lia. by rewrite lookup_take_lt.
  - rewrite lookup_app_r by lia. rewrite Hl. destruct (decide (i < Z.to_nat o + length new)%nat).
    + by rewrite lookup_app_l by lia.
    + rewrite lookup_app_r by lia. rewrite lookup_drop. f_equal. lia.
Qed.
Lemma slice_length o n bs : 0 <= o -> 0 <= n -> o + n <= Z.of_nat (length bs) ->
  length (slice o n bs) = Z.to_nat n.
Proof. intros. unfold slice. rewrite length_take, length_drop. lia. Qed.
Lemma splice_length o new bs : 0 <= o -> o + Z.of_nat (length new) <= Z.of_nat (length bs) ->
  length (splice o new bs) = length bs.
Proof. intros. unfold splice. rewrite !length_app, length_take, length_drop. lia. Qed.
Lemma slice_slice o n o' n' bs : 0 <= o -> 0 <= n -> 0 <= o' -> o + n <= n' ->
  slice o n (slice o' n' bs) = slice (o' + o) n bs.
Proof.
  intros. apply list_eq. intros i. rewrite !slice_lookup. repeat case_decide; try done; try lia.
  f_equal. lia.
Qed.
Lemma slice_splice o k n new bs :
  0 <= o -> 0 <= k -> k + Z.of_nat (length new) <= n -> o + n <= Z.of_nat (length bs) ->
  slice o n (splice (o + k) new bs) = splice k new (slice o n bs).
Proof.
  intros. apply list_eq. intros i.
  rewrite slice_lookup, !splice_lookup, slice_lookup by (rewrite ?slice_length; lia).
  repeat case_decide; try done; try lia; f_equal; lia.
Qed.
Lemma splice_app o xs ys bs : 0 <= o -> o + Z.of_nat (length xs) <= Z.of_nat (length bs) ->
  splice (o + Z.of_nat (length xs)) ys (splice o xs bs) = splice o (xs ++ ys) bs.
Proof.
  intros. apply list_eq. intros i.
  rewrite !splice_lookup, length_app by (rewrite ?splice_length; lia).
  repeat case_decide; try done; try lia.
  - by rewrite lookup_app_l by lia.
  - rewrite lookup_app_r by lia. f_equal. lia.
Qed.
Lemma slice_0 o bs : slice o 0 bs = [].
Proof. done. Qed.
Lemma splice_nil o bs : splice o [] bs = bs.
Proof. unfold splice. simpl. rewrite Nat.add_0_r. apply take_drop. Qed.

(** Slices and splices of a concatenation. *)
Lemma slice_app_r o n xs ys : Z.of_nat (length xs) <= o ->
  slice o n (xs ++ ys) = slice (o - Z.of_nat (length xs)) n ys.
Proof.
  intros. unfold slice. rewrite drop_app_ge by lia. do 2 f_equal. lia.
Qed.
Lemma slice_app_l o n xs ys : 0 <= o -> o <= Z.of_nat (length xs) -> 0 <= n ->
  slice o n (xs ++ ys) = slice o (Z.min n (Z.of_nat (length xs) - o)) xs
    ++ slice 0 (n - Z.min n (Z.of_nat (length xs) - o)) ys.
Proof.
  intros. unfold slice. rewrite drop_app_le by lia. rewrite take_app, length_drop, drop_0.
  f_equal; [|f_equal; lia]. destruct (Z.min_spec n (Z.of_nat (length xs) - o)) as [[? ->]|[? ->]]; [done|].
  rewrite !take_ge; [done|rewrite length_drop; lia..].
Qed.
Lemma splice_app_l o new xs ys : 0 <= o -> o + Z.of_nat (length new) <= Z.of_nat (length xs) ->
  splice o new (xs ++ ys) = splice o new xs ++ ys.
Proof.
  intros. unfold splice. rewrite take_app_le, drop_app_le by lia. by rewrite <-!app_assoc.
Qed.
Lemma splice_app_r o new xs ys : Z.of_nat (length xs) <= o ->
  splice o new (xs ++ ys) = xs ++ splice (o - Z.of_nat (length xs)) new ys.
Proof.
  intros. unfold splice. rewrite take_app_ge, drop_app_ge by lia. rewrite <-app_assoc.
  do 3 f_equal; [lia|]. f_equal. lia.
Qed.

(** ** Memory accesses *)

Lemma ptr_ofs_add x k : ptr_ofs (ptr_add x k) = ptr_ofs x + k.
Proof. by destruct x. Qed.
Lemma mem_obj_add st x k : mem_obj st (ptr_add x k) = mem_obj st x.
Proof. by destruct x. Qed.
Lemma same_obj_add x y j k : same_obj (ptr_add x j) (ptr_add y k) = same_obj x y.
Proof. by destruct x, y. Qed.
Lemma same_obj_add_l x y j : same_obj (ptr_add x j) y = same_obj x y.
Proof. by destruct x, y. Qed.
Lemma same_obj_sym x y : same_obj x y = same_obj y x.
Proof. destruct x, y; simpl; try done; apply Z.eqb_sym. Qed.
Lemma set_obj_add x k bs st : set_obj (ptr_add x k) bs st = set_obj x bs st.
Proof. by destruct x. Qed.
Lemma mem_obj_set x bs st : is_Some (mem_obj st x) -> mem_obj (set_obj x bs st) x = Some bs.
Proof. destruct x; simpl; [by intros []|intros _; apply lookup_insert_eq..]. Qed.
Lemma mem_obj_set_ne x y bs st : same_obj x y = false -> mem_obj (set_obj x bs st) y = mem_obj st y.
Proof.
  destruct x, y; simpl; try done; intros ?; rewrite lookup_insert_ne by lia; done.
Qed.
Lemma extent_not_null st x n : extent st x n -> x <> NULL.
Proof. by intros (bs & H & _) ->. Qed.
Lemma extent_le st x m n : extent st x n -> m <= n -> extent st x m.
Proof. intros (bs & H & ? & ?) ?. exists bs. split; [done|]. lia. Qed.

Lemma read_mem_ok st x k n bs :
  mem_obj st x = Some bs -> 0 <= ptr_ofs x + k -> ptr_ofs x + k + n <= Z.of_nat (length bs) ->
  read_mem (ptr_add x k) n st = Ok (slice (ptr_ofs x + k) n bs, st).
Proof.
  intros Hbs ? ?. unfold read_mem. destruct (Z.leb_spec n 0).
  - unfold slice. by replace (Z.to_nat n) with 0%nat by lia.
  - rewrite mem_obj_add, Hbs. unfold in_object. rewrite ptr_ofs_add.
    by replace (_ && _) with true by lia.
Qed.

(** Only the object of [d] has been written, within its bounds. *)
Definition wrote (d : ptr) (st st' : state) : Prop :=
  pbufs st' = pbufs st /\ custom_fn st' = custom_fn st /\ alloc st' = alloc st /\
  free_ooseq_pending st' = free_ooseq_pending st /\
  (forall y, same_obj d y = false -> mem_obj st' y = mem_obj st y) /\
  (forall y n, extent st y n -> extent st' y n).

Lemma wrote_refl d st : wrote d st st.
Proof. done. Qed.
Lemma wrote_trans d st1 st2 st3 : wrote d st1 st2 -> wrote d st2 st3 -> wrote d st1 st3.
Proof.
  intros (?&?&?&?&Hy&He) (?&?&?&?&Hy'&He'). repeat (split; [congruence|]).
  split; [intros y Hne; by rewrite Hy', Hy|auto].
Qed.

Lemma same_obj_mem st x y : same_obj x y = true -> mem_obj st x = mem_obj st y.
Proof. destruct x, y; simpl; try done; by intros <-%Z.eqb_eq. Qed.

Lemma set_obj_wrote d bs bs' st :
  mem_obj st d = Some bs -> length bs' = length bs -> wrote d st (set_obj d bs' st).
Proof.
  intros Hbs Hl. split; [by destruct d|]. split; [by destruct d|]. split; [by destruct d|].
  split; [by destruct d|]. split; [intros y; apply mem_obj_set_ne|].
  intros y n (cs & Hcs & Hn). destruct (same_obj d y) eqn:Hd.
  - exists bs'. assert (E := same_obj_mem (set_obj d bs' st) _ _ Hd). rewrite mem_obj_set in E by by eexists.
    split; [done|]. rewrite <-(same_obj_mem st _ _ Hd), Hbs in Hcs. simplify_eq. by rewrite Hl.
  - exists cs. by rewrite mem_obj_set_ne.
Qed.

Lemma write_mem_ok st d k new bs :
  mem_obj st d = Some bs -> 0 <= ptr_ofs d + k ->
  ptr_ofs d + k + Z.of_nat (length new) <= Z.of_nat (length bs) ->
  exists st', write_mem (ptr_add d k) new st = Ok (tt, st') /\ wrote d st st' /\
    mem_obj st' d = Some (splice (ptr_ofs d + k) new bs).
Proof.
  intros Hbs ? ?. unfold write_mem. case_bool_decide as Hn.
  - subst new. exists st. rewrite splice_nil. split; [done|]. split; [apply wrote_refl|done].
  - rewrite mem_obj_add, Hbs. unfold in_object. rewrite ptr_ofs_add.
    replace (_ && _) with true by lia. eexists. split; [done|]. rewrite set_obj_add. split.
    + eapply set_obj_wrote; [done|]. by rewrite splice_length.
    + apply mem_obj_set. by eexists.
Qed.

(** Two writes in a row are one. *)
Lemma write_mem_app st st1 st2 d k xs ys bs :
  mem_obj st d = Some bs -> 0 <= ptr_ofs d + k ->
  ptr_ofs d + k + Z.of_nat (length (xs ++ ys)) <= Z.of_nat (length bs) ->
  write_mem (ptr_add d k) xs st = Ok (tt, st1) ->
  write_mem (ptr_add d (k + Z.of_nat (length xs))) ys st1 = Ok (tt, st2) ->
  write_mem (ptr_add d k) (xs ++ ys) st = Ok (tt, st2).
Proof.
  intros Hbs ? Hl. rewrite length_app in Hl. destruct (decide (xs = [])) as [->|Hx].
  { intros [= <-]. change (Z.of_nat (length [])) with 0. by rewrite Z.add_0_r. }
  unfold write_mem. rewrite !mem_obj_add, Hbs. unfold in_object. rewrite !ptr_ofs_add, !set_obj_add.
  rewrite (bool_decide_false (xs = [])) by done. replace (_ && _) with true by lia. intros [= <-].
  rewrite (bool_decide_false (xs ++ ys = [])) by (by destruct xs).
  rewrite length_app. replace (_ && (_ <=? _)) with true by lia.
  case_bool_decide as Hy; [subst ys; intros [= <-]; by rewrite app_nil_r|].
  rewrite mem_obj_set by by eexists. rewrite splice_length by lia. replace (_ && _) with true by lia.
  rewrite set_obj_add. intros [= <-]. do 2 f_equal.
  replace (ptr_ofs d + (k + Z.of_nat (length xs))) with (ptr_ofs d + k + Z.of_nat (length xs)) by lia.
  rewrite splice_app by lia. destruct d; simpl; [done|f_equal; by rewrite insert_insert_eq..].
Qed.

(** ** The data of packets *)

Lemma data_cons st a b l : data st ((a, b) :: l) = pbuf_bytes st b ++ data st l.
Proof. done. Qed.
Lemma data_app st l1 l2 : data st (l1 ++ l2) = data st l1 ++ data st l2.
Proof. unfold data. by rewrite map_app, concat_app. Qed.

Lemma pbuf_bytes_length st a b :
  len b = 0 \/ extent st (payload b) (len b) -> 0 <= len b ->
  readable st [(a, b)] /\ length (pbuf_bytes st b) = Z.to_nat (len b).
Proof.
  intros Hr Hl. split; [by apply Forall_singleton|]. unfold pbuf_bytes.
  destruct Hr as [E|(bs & -> & ? & ?)].
  - rewrite E. done.
  - by apply slice_length.
Qed.
Lemma data_length st l : readable st l -> Forall (fun x => 0 <= len x.2) l ->
  Z.of_nat (length (data st l)) = total l.
Proof.
  unfold data. induction l as [|[a b] l IH]; intros Hr Hl; [done|].
  apply Forall_cons in Hr as [Hb Hr]. apply Forall_cons in Hl as [Hb0 Hl]. simpl in *.
  rewrite length_app, (proj2 (pbuf_bytes_length st a b Hb Hb0)). specialize (IH Hr Hl). lia.
Qed.

Lemma pbuf_read st b o n :
  len b = 0 \/ extent st (payload b) (len b) -> 0 <= o -> 0 <= n -> o + n <= len b ->
  read_mem (ptr_add (payload b) o) n st = Ok (slice o n (pbuf_bytes st b), st).
Proof.
  intros Hr ? ? ?. destruct (decide (n = 0)) as [->|]; [done|].
  destruct Hr as [E|(bs & Hbs & ? & ?)]; [lia|]. rewrite (read_mem_ok _ _ _ _ bs) by (done || lia).
  unfold pbuf_bytes. rewrite Hbs. simpl. by rewrite slice_slice by lia.
Qed.

Lemma wrote_bytes d st st' b :
  wrote d st st' -> same_obj d (payload b) = false -> pbuf_bytes st' b = pbuf_bytes st b.
Proof. intros (_ & _ & _ & _ & H & _) Hd. unfold pbuf_bytes. by rewrite H. Qed.
Lemma wrote_data d st st' l : wrote d st st' -> foreign d l -> data st' l = data st l.
Proof.
  intros Hw. unfold data. induction 1 as [|[a b] l Hb _ IH]; [done|]. simpl in *.
  by rewrite IH, (wrote_bytes d st).
Qed.
Lemma wrote_readable d st st' l : wrote d st st' -> readable st l -> readable st' l.
Proof.
  intros (_ & _ & _ & _ & _ & He) Hr. eapply Forall_impl; [exact Hr|].
  intros x [?|?]; [by left|right; auto].
Qed.

Lemma MEMCPY_ok dst src n bs st st' :
  same_obj dst src = false -> read_mem src n st = Ok (bs, st) -> write_mem dst bs st = Ok (tt, st') ->
  MEMCPY dst src n st = Ok (tt, st').
Proof.
  intros Ho Hr Hw. unfold MEMCPY. rewrite Ho. cbn [andb]. by rewrite (st_bind_ok _ _ _ _ _ Hr).
Qed.

(** The loop copies the bytes from [o] on, at most [n]. *)
Lemma copy_partial_loop_spec fuel l d n o k tot st :
  packet (pbufs st) l -> readable st l -> sized l -> foreign d l -> (length l < fuel)%nat ->
  is_u16 n -> is_u16 o -> 0 <= k -> 0 <= tot <= k -> k + n < 65536 ->
  let out := slice o n (data st l) in
  extent st d (k + Z.of_nat (length out)) ->
  exists st', copy_partial_loop fuel (head_addr l) d n o k tot st
      = Ok (tot + Z.of_nat (length out), st') /\
    write_mem (ptr_add d k) out st = Ok (tt, st') /\ wrote d st st'.
Proof.
  revert fuel n o k tot st. induction l as [|[a b] l IH];
    intros fuel n o k tot st Hp Hr Hs Hf Hfuel Hn Ho Hk Htot Hkn out Hd;
    (destruct fuel as [|fuel]; [simpl in Hfuel; lia|]); cbn [copy_partial_loop head_addr].
  { rewrite orb_true_r. exists st. unfold out, data, slice. simpl. rewrite drop_nil, take_nil. simpl.
    rewrite Z.add_0_r. split; [done|]. split; [done|apply wrote_refl]. }
  destruct Hp as (Ha & Hb & Hl). replace (a =? 0) with false by lia. rewrite orb_false_r.
  destruct (Z.eqb_spec n 0) as [->|Hn0].
  { exists st. unfold out. rewrite slice_0. simpl. rewrite Z.add_0_r.
    split; [done|]. split; [done|apply wrote_refl]. }
  apply sized_cons in Hs as (Hs & Hb0 & Ht). pose proof (total_nonneg _ (proj1 Hs)).
  apply Forall_cons in Hr as [Hrb Hr]. apply Forall_cons in Hf as [Hfb Hf]. simpl in Hrb, Hfb, Hfuel.
  destruct (pbuf_bytes_length st a b Hrb Hb0) as [_ Hlen].
  rewrite (pb_get_bind _ _ _ _ Hb). change (len (link b l)) with (len b).
  change (next (link b l)) with (head_addr l). change (payload (link b l)) with (payload b).
  unfold is_u16 in *. unfold out in *. clear out. rewrite data_cons in *.
  destruct (negb (o =? 0) && (len b <=? o)) eqn:Hskip.
  - rewrite u16_id by (unfold is_u16; lia). rewrite slice_app_r in * by lia.
    rewrite Hlen, Z2Nat.id in * by lia. apply IH; (done || unfold is_u16; lia).
  - rewrite (u16_id (len b - o)) by (unfold is_u16; lia).
    replace (if n <? len b - o then n else len b - o) with (Z.min n (len b - o)) by (case_match; lia).
    rewrite slice_app_l in * by lia. rewrite Hlen, Z2Nat.id in * by lia.
    set (m := Z.min n (len b - o)) in *. set (xs := slice o m (pbuf_bytes st b)) in *.
    assert (Hxs : Z.of_nat (length xs) = m) by (unfold xs; rewrite slice_length; lia).
    rewrite length_app, Nat2Z.inj_add, Hxs in Hd |- *. destruct (Hd) as (buf & Hbuf & Hd0 & Hd1).
    destruct (write_mem_ok st d k xs buf) as (st1 & Hw1 & Hwr1 & Hbuf1); [done|lia..|].
    rewrite (st_bind_ok _ _ _ _ _ (MEMCPY_ok _ (ptr_add (payload b) o) m xs st st1
      ltac:(by rewrite same_obj_add) (pbuf_read st b o m Hrb ltac:(lia) ltac:(lia) ltac:(lia)) Hw1)).
    rewrite !u16_id by (unfold is_u16; lia).
    assert (Hdata : data st1 l = data st l) by (by eapply wrote_data).
    destruct (IH fuel (n - m) 0 (k + m) (tot + m) st1) as (st' & E & Hw & Hwr).
    + destruct Hwr1 as [-> _]. done.
    + by eapply wrote_readable.
    + done.
    + done.
    + lia.
    + unfold is_u16; lia.
    + done.
    + lia.
    + lia.
    + lia.
    + rewrite Hdata. destruct Hwr1 as (_ & _ & _ & _ & _ & Hext). apply Hext.
      eapply extent_le; [exact Hd|]. lia.
    + exists st'. rewrite Hdata in *. split; [rewrite E; do 2 f_equal; lia|]. split.
      * eapply write_mem_app; [exact Hbuf|lia|rewrite length_app; lia|exact Hw1|]. by rewrite Hxs.
      * by eapply wrote_trans.
Qed.

(** ** Positions *)

(** [pbuf_skip] finds the pbuf that has byte [o], and its offset there. *)
Lemma skip_loop_spec fuel l o st :
  packet (pbufs st) l -> sized l -> (length l < fuel)%nat -> is_u16 o ->
  (exists l1 q b l2, l = l1 ++ (q, b) :: l2 /\ 0 <= o - total l1 < len b /\
     skip_loop fuel (head_addr l) o st = Ok ((q, o - total l1), st)) \/
  (total l <= o /\ skip_loop fuel (head_addr l) o st = Ok ((0, o - total l), st)).
Proof.
  revert fuel o. induction l as [|[a b] l IH]; intros fuel o Hp Hs Hf Ho;
    (destruct fuel as [|fuel]; [simpl in Hf; lia|]); cbn [skip_loop head_addr].
  { right. unfold is_u16 in Ho. simpl. rewrite Z.sub_0_r. split; [lia|done]. }
  destruct Hp as (Ha & Hb & Hl). apply sized_cons in Hs as (Hs & Hb0 & Ht). simpl in Hf.
  replace (a =? 0) with false by lia. rewrite (pb_get_bind _ _ _ _ Hb).
  change (len (link b l)) with (len b). change (next (link b l)) with (head_addr l).
  unfold is_u16 in Ho. destruct (Z.leb_spec (len b) o) as [Hle|Hlt].
  - rewrite u16_id by (unfold is_u16; lia).
    destruct (IH fuel (o - len b)) as [(l1 & q & c & l2 & -> & Hr & E)|[Hr E]];
      [done|done|lia|unfold is_u16; lia|left|right].
    + exists ((a, b) :: l1), q, c, l2. split; [done|]. simpl total.
      replace (o - (len b + total l1)) with (o - len b - total l1) by lia. done.
    + simpl total. replace (o - (len b + total l)) with (o - len b - total l) by lia. split; [lia|done].
  - left. exists [], a, b, l. split; [done|]. simpl. rewrite Z.sub_0_r. split; [lia|done].
Qed.

Lemma pbuf_skip_spec l o st :
  packet (pbufs st) l -> sized l -> is_u16 o ->
  (exists l1 q b l2, l = l1 ++ (q, b) :: l2 /\ 0 <= o - total l1 < len b /\
     pbuf_skip_const (head_addr l) o st = Ok ((q, o - total l1), st)) \/
  (total l <= o /\ pbuf_skip_const (head_addr l) o st = Ok ((0, o - total l), st)).
Proof.
  intros Hp Hs Ho. apply skip_loop_spec; try done. pose proof (packet_length _ _ Hp). lia.
Qed.

(** The bytes around a position. *)
Lemma data_lookup st l1 q b l2 o :
  readable st (l1 ++ (q, b) :: l2) -> Forall (fun x => 0 <= len x.2) (l1 ++ (q, b) :: l2) ->
  0 <= o - total l1 < len b ->
  data st (l1 ++ (q, b) :: l2) !! Z.to_nat o = pbuf_bytes st b !! Z.to_nat (o - total l1).
Proof.
  intros Hr Hl Ho. apply Forall_app in Hr as [Hr1 [Hrb _]%Forall_cons].
  apply Forall_app in Hl as [Hl1 [Hlb _]%Forall_cons]. pose proof (data_length _ _ Hr1 Hl1).
  destruct (pbuf_bytes_length st q b Hrb Hlb) as [_ Hlen]. pose proof (total_nonneg _ Hl1).
  rewrite data_app, data_cons, lookup_app_r, lookup_app_l by lia. f_equal. lia.
Qed.

Lemma pbuf_try_get_at_spec l o st :
  packet (pbufs st) l -> readable st l -> sized l -> is_u16 o ->
  pbuf_try_get_at (head_addr l) o st = Ok (default (-1) (data st l !! Z.to_nat o), st).
Proof.
  intros Hp Hr Hs Ho. unfold pbuf_try_get_at. unfold is_u16 in Ho.
  destruct (pbuf_skip_spec l o st Hp Hs Ho) as [(l1 & q & b & l2 & -> & Hrng & E)|[Hle E]];
    rewrite (st_bind_ok _ _ _ _ _ E).
  - rewrite data_lookup by (done || apply Hs). apply packet_app in Hp as (Hq & Hb & _).
    apply Forall_app in Hr as [_ [Hrb _]%Forall_cons].
    replace (q =? 0) with false by lia. rewrite (pb_get_bind _ _ _ _ Hb).
    change (len (link b l2)) with (len b). change (payload (link b l2)) with (payload b).
    replace (_ <? len b) with true by lia. unfold read_byte.
    rewrite (st_bind_ok _ _ _ _ _ (pbuf_read st b (o - total l1) 1 Hrb ltac:(lia) ltac:(lia) ltac:(lia))).
    unfold mret, st_ret. do 2 f_equal.
    destruct (pbuf_bytes_length st q b Hrb ltac:(lia)) as [_ Hlen].
    assert (E0 : slice (o - total l1) 1 (pbuf_bytes st b) !! 0%nat = pbuf_bytes st b !! Z.to_nat (o - total l1))
      by (rewrite slice_lookup; simpl; f_equal; lia).
    destruct (lookup_lt_is_Some_2 (pbuf_bytes st b) (Z.to_nat (o - total l1))) as [x Hx]; [lia|].
    rewrite Hx in E0 |- *. destruct (slice _ _ _); simplify_eq/=. done.
  - rewrite lookup_ge_None_2; [done|]. pose proof (data_length _ _ Hr (proj1 Hs)). lia.
Qed.

Lemma pbuf_get_at_spec l o st :
  packet (pbufs st) l -> readable st l -> sized l -> is_u16 o -> Forall is_u8 (data st l) ->
  pbuf_get_at (head_addr l) o st = Ok (default 0 (data st l !! Z.to_nat o), st).
Proof.
  intros Hp Hr Hs Ho Hb. unfold pbuf_get_at. rewrite (st_bind_ok _ _ _ _ _ (pbuf_try_get_at_spec l o st Hp Hr Hs Ho)).
  destruct (data st l !! Z.to_nat o) as [x|] eqn:E; [|done].
  apply (Forall_lookup_1 _ _ _ _ Hb) in E. simpl. rewrite u8_id by done. unfold is_u8 in E.
  by replace (0 <=? x) with true by lia.
Qed.

(** ** Comparing *)

(** One more than the index of the first difference, 0 if there is none. *)
Fixpoint first_diff (xs ys : list Z) : Z :=
  match xs, ys with
  | x :: xs', y :: ys' => if x =? y then let r := first_diff xs' ys' in if r =? 0 then 0 else r + 1 else 1
  | _, _ => 0
  end.
Lemma first_diff_0 xs ys : length xs = length ys -> first_diff xs ys = 0 <-> xs = ys.
Proof.
  revert ys. induction xs as [|x xs IH]; intros [|y ys] Hl; simplify_eq/=; [done|].
  destruct (Z.eqb_spec x y) as [->|]; [|split; [done|congruence]].
  destruct (Z.eqb_spec (first_diff xs ys) 0) as [E|E].
  - split; [|done]. intros _. f_equal. by apply IH.
  - split; [intros ?|intros [= ->]; by destruct E; apply IH].
    assert (0 <= first_diff xs ys); [|lia]. clear. revert ys. induction xs as [|x xs IH]; intros [|y ys]; simpl;
      try done. specialize (IH ys). repeat case_match; lia.
Qed.

(** The string [ys] is at [x]. *)
Definition holds (st : state) (x : ptr) (ys : list Z) : Prop :=
  extent st x (Z.of_nat (length ys)) /\
  slice (ptr_ofs x) (Z.of_nat (length ys)) (default [] (mem_obj st x)) = ys.

Lemma holds_read st x ys k n :
  holds st x ys -> 0 <= k -> 0 <= n -> k + n <= Z.of_nat (length ys) ->
  read_mem (ptr_add x k) n st = Ok (slice k n ys, st).
Proof.
  intros [(bs & Hbs & ? & ?) Hys] ? ? ?. rewrite (read_mem_ok _ _ _ _ bs) by (done || lia).
  rewrite Hbs in Hys. simpl in Hys. rewrite <-Hys. by rewrite slice_slice by lia.
Qed.
Lemma holds_byte st x ys i y :
  holds st x ys -> ys !! i = Some y -> read_byte (ptr_add x (Z.of_nat i)) st = Ok (y, st).
Proof.
  intros Hh Hy. unfold read_byte. assert (Hlt := lookup_lt_Some _ _ _ Hy).
  rewrite (st_bind_ok _ _ _ _ _ (holds_read st x ys (Z.of_nat i) 1 Hh ltac:(lia) ltac:(lia) ltac:(lia))).
  unfold mret, st_ret. do 2 f_equal.
  assert (E0 : slice (Z.of_nat i) 1 ys !! 0%nat = Some y)
    by (rewrite slice_lookup, <-Hy; simpl; f_equal; lia).
  by destruct (slice _ _ _); simplify_eq/=.
Qed.

Lemma pbuf_memcmp_loop_spec fuel l r s2 ys i st :
  packet (pbufs st) l -> readable st l -> sized l -> Forall is_u8 (data st l) -> holds st s2 ys ->
  0 <= r -> r + Z.of_nat (length ys) <= total l -> (i <= length ys)%nat -> (length ys - i < fuel)%nat ->
  pbuf_memcmp_loop fuel (head_addr l) r s2 (Z.of_nat (length ys)) (Z.of_nat i) st
  = Ok (let d := first_diff (drop i (slice r (Z.of_nat (length ys)) (data st l))) (drop i ys) in
        if d =? 0 then 0 else Z.of_nat i + d, st).
Proof.
  intros Hp Hr Hs Hb Hy Hr0 Hrn. pose proof (data_length _ _ Hr (proj1 Hs)) as Hlen. destruct (Hs) as [_ Ht].
  revert i. induction fuel as [|fuel IH]; intros i Hi Hf; [lia|]. cbn [pbuf_memcmp_loop].
  destruct (Z.ltb_spec (Z.of_nat i) (Z.of_nat (length ys))) as [Hlt|Hge].
  - destruct (lookup_lt_is_Some_2 ys i) as [y Hyi]; [lia|].
    destruct (lookup_lt_is_Some_2 (data st l) (Z.to_nat r + i)) as [x Hx]; [lia|].
    assert (Hxi : slice r (Z.of_nat (length ys)) (data st l) !! i = Some x)
      by (rewrite slice_lookup, decide_True by lia; done).
    rewrite (u16_id (r + Z.of_nat i)) by (unfold is_u16; lia).
    rewrite (st_bind_ok _ _ _ _ _ (pbuf_get_at_spec l (r + Z.of_nat i) st Hp Hr Hs
      ltac:(unfold is_u16; lia) Hb)), (st_bind_ok _ _ _ _ _ (holds_byte st s2 ys i y Hy Hyi)).
    replace (Z.to_nat (r + Z.of_nat i)) with (Z.to_nat r + i)%nat by lia. rewrite Hx. change (default 0 (Some x)) with x.
    rewrite (drop_S _ _ _ Hxi), (drop_S _ _ _ Hyi). cbn [first_diff].
    destruct (x =? y); cbn [negb]; cbv iota.
    + rewrite (u16_id (Z.of_nat i + 1)) by (unfold is_u16; lia).
      replace (Z.of_nat i + 1) with (Z.of_nat (Datatypes.S i)) by lia. rewrite IH by lia. do 2 f_equal.
      cbv zeta. set (f := first_diff _ _). destruct (Z.eqb_spec f 0); [done|].
      replace (f + 1 =? 0) with false; [lia|]. symmetry. apply Z.eqb_neq.
      assert (0 <= f); [|lia]. unfold f. clear. generalize (drop (Datatypes.S i) ys).
      generalize (drop (Datatypes.S i) (slice r (Z.of_nat (length ys)) (data st l))). intros us.
      induction us as [|u us IH]; intros [|v vs]; simpl; try done. specialize (IH vs). repeat case_match; lia.
    + change (1 =? 0) with false. cbv iota zeta. rewrite u16_id by (unfold is_u16; lia).
      unfold mret, st_ret. do 2 f_equal. lia.
  - rewrite !drop_ge; [done|lia|rewrite slice_length; lia].
Qed.

Lemma pbuf_memcmp_spec l o s2 ys st :
  packet (pbufs st) l -> l <> [] -> readable st l -> sized l -> Forall is_u8 (data st l) -> holds st s2 ys ->
  is_u16 o ->
  pbuf_memcmp (head_addr l) o s2 (Z.of_nat (length ys)) st
  = Ok (if total l <? o + Z.of_nat (length ys) then 0xffff
        else first_diff (slice o (Z.of_nat (length ys)) (data st l)) ys, st).
Proof.
  intros Hp Hne Hr Hs Hb Hy Ho. unfold pbuf_memcmp.
  assert (Htot : exists c, pbufs st !! head_addr l = Some c /\ tot_len c = total l).
  { destruct l as [|[a b] l]; [done|]. destruct Hp as (_ & Hh & _). by eexists. }
  destruct Htot as (c & Hc & Ht). rewrite (pb_get_bind _ _ _ _ Hc), Ht.
  destruct (Z.ltb_spec (total l) (o + Z.of_nat (length ys))); [done|]. rewrite chain_fuel_bind.
  destruct (skip_loop_spec (Datatypes.S (size (pbufs st))) l o st) as [(l1 & q & b & l2 & -> & Hrng & E)|[Hle E]];
    [done|done|pose proof (packet_length _ _ Hp); lia|done|..]; rewrite (st_bind_ok _ _ _ _ _ E).
  - pose proof (total_nonneg _ (proj1 (proj1 (Forall_app _ _ _) (proj1 Hs)))). rewrite total_app in *.
    destruct (Hs) as [[Hs1 Hs2]%Forall_app Hs3]. rewrite total_app in Hs3.
    apply Forall_app in Hr as [Hr1 Hr2]. rewrite data_app in *. apply Forall_app in Hb as [_ Hb].
    assert (Hd1 := data_length _ _ Hr1 Hs1). apply packet_app in Hp.
    change q with (head_addr ((q, b) :: l2)). change 0 with (Z.of_nat 0).
    rewrite pbuf_memcmp_loop_spec; try done; try lia; [|split; [done|lia]].
    rewrite slice_app_r, Hd1 by lia. rewrite !drop_0. cbv zeta. cbn [head_addr].
    do 2 f_equal. case_match; lia.
  - by destruct ys; [|simpl in *; lia].
Qed.

(** ** Searching *)

(** [r] is the first position from [i] on where [ys] occurs in [xs], 0xFFFF if
    there is none. *)
Definition first_occurrence (xs ys : list Z) (i r : Z) : Prop :=
  let occurs j := j + Z.of_nat (length ys) <= Z.of_nat (length xs) /\
                  slice j (Z.of_nat (length ys)) xs = ys in
  (i <= r /\ occurs r /\ forall j, i <= j < r -> ~ occurs j) \/
  (r = 0xFFFF /\ forall j, i <= j -> ~ occurs j).

Lemma pbuf_memfind_loop_spec fuel l mem ys i st :
  packet (pbufs st) l -> l <> [] -> readable st l -> sized l -> total l < 65535 ->
  Forall is_u8 (data st l) -> holds st mem ys ->
  0 <= i -> Z.of_nat (length ys) <= total l -> i <= total l - Z.of_nat (length ys) + 1 ->
  total l - Z.of_nat (length ys) + 1 - i < Z.of_nat fuel ->
  exists r, pbuf_memfind_loop fuel (head_addr l) mem (Z.of_nat (length ys)) (total l - Z.of_nat (length ys)) i st
      = Ok (r, st) /\ first_occurrence (data st l) ys i r.
Proof.
  intros Hp Hne Hr Hs Ht Hb Hy. pose proof (data_length _ _ Hr (proj1 Hs)) as Hlen. revert i.
  induction fuel as [|fuel IH]; intros i Hi Hm Him Hf; [lia|]. cbn [pbuf_memfind_loop].
  destruct (Z.leb_spec i (total l - Z.of_nat (length ys))) as [Hle|Hgt].
  - rewrite (st_bind_ok _ _ _ _ _ (pbuf_memcmp_spec l i mem ys st Hp Hne Hr Hs Hb Hy ltac:(unfold is_u16; lia))).
    replace (total l <? i + Z.of_nat (length ys)) with false by lia.
    assert (Hd := first_diff_0 (slice i (Z.of_nat (length ys)) (data st l)) ys
      ltac:(rewrite slice_length; lia)).
    destruct (Z.eqb_spec (first_diff (slice i (Z.of_nat (length ys)) (data st l)) ys) 0) as [E|E].
    + exists i. split; [done|]. left. split; [lia|]. split; [|lia]. split; [lia|by apply Hd].
    + rewrite u16_id by (unfold is_u16; lia).
      destruct (IH (i + 1)) as (r & -> & Hocc); [lia..|]. exists r. split; [done|].
      assert (Hno : ~ (i + Z.of_nat (length ys) <= Z.of_nat (length (data st l)) /\
        slice i (Z.of_nat (length ys)) (data st l) = ys)) by (intros [_ ?]; by apply E, Hd).
      destruct Hocc as [(Hir & Hocc & Hfst)|(Hr' & Hnone)]; [left|right].
      * split; [lia|]. split; [done|]. intros j Hj. destruct (decide (j = i)) as [->|]; [done|]. apply Hfst. lia.
      * split; [done|]. intros j Hj. destruct (decide (j = i)) as [->|]; [done|]. apply Hnone. lia.
  - exists 0xFFFF. split; [done|]. right. split; [done|]. intros j Hj [? _]. lia.
Qed.

Lemma pbuf_memfind_spec l mem ys i st :
  packet (pbufs st) l -> l <> [] -> readable st l -> sized l -> total l < 65535 ->
  Forall is_u8 (data st l) -> holds st mem ys -> 0 <= i ->
  exists r, pbuf_memfind (head_addr l) mem (Z.of_nat (length ys)) i st = Ok (r, st) /\
    first_occurrence (data st l) ys i r.
Proof.
  intros Hp Hne Hr Hs Ht Hb Hy Hi. unfold pbuf_memfind.
  assert (Htot : exists c, pbufs st !! head_addr l = Some c /\ tot_len c = total l).
  { destruct l as [|[a b] l]; [done|]. destruct Hp as (_ & Hh & _). by eexists. }
  destruct Htot as (c & Hc & Htc). rewrite (pb_get_bind _ _ _ _ Hc), Htc. cbv zeta.
  pose proof (data_length _ _ Hr (proj1 Hs)) as Hlen.
  destruct (Z.leb_spec (Z.of_nat (length ys) + i) (total l)).
  - rewrite u16_id by (unfold is_u16; lia). apply pbuf_memfind_loop_spec; (done || lia).
  - exists 0xFFFF. split; [done|]. right. split; [done|]. intros j Hj [? _]. lia.
Qed.

(** ** Writing into packets *)

Lemma fits_readable (st : state) l : Forall (fits st) l -> readable st l.
Proof.
  intros Hf. eapply Forall_impl; [exact Hf|]. intros x (ofs & bs & Hp & Hb & ? & ? & ?). right.
  exists bs. rewrite Hp. done.
Qed.
Lemma fits_len (st : state) l : Forall (fits st) l -> Forall (fun x => 0 <= len x.2) l.
Proof. intros Hf. eapply Forall_impl; [exact Hf|]. by intros x (ofs & bs & _ & _ & _ & ? & _). Qed.

(** What writing [data st' l] over a packet leaves of the state. *)
Definition filled (st st' : state) (l : list (Z * pbuf)) : Prop :=
  pbufs st' = pbufs st /\ ext st' = ext st /\ custom_fn st' = custom_fn st /\ alloc st' = alloc st /\
  free_ooseq_pending st' = free_ooseq_pending st /\
  (forall x, x ∉ addrs l -> own st' !! x = own st !! x) /\ Forall (fits st') l /\
  (forall a b o bs, (a, b) ∈ l -> payload b = Own a o -> own st !! a = Some bs ->
     exists bs', own st' !! a = Some bs' /\ take (Z.to_nat o) bs' = take (Z.to_nat o) bs).

Lemma addrs_same (l : list (Z * pbuf)) x a b : NoDup (addrs l) -> (x, a) ∈ l -> (x, b) ∈ l -> a = b.
Proof.
  intros Hnd [i Hi]%list_elem_of_lookup [j Hj]%list_elem_of_lookup.
  assert (i = j) as ->; [|congruence].
  apply (NoDup_lookup (addrs l) i j x Hnd); unfold addrs; rewrite list_lookup_fmap; [by rewrite Hi|by rewrite Hj].
Qed.
Lemma write_own (st : state) a ofs o new bs :
  own st !! a = Some bs -> 0 <= ofs + o -> ofs + o + Z.of_nat (length new) <= Z.of_nat (length bs) ->
  write_mem (ptr_add (Own a ofs) o) new st
  = Ok (tt, with_own st (<[a := splice (ofs + o) new bs]> (own st))).
Proof.
  intros Hb ? ?. unfold write_mem. case_bool_decide as Hn.
  - subst new. rewrite splice_nil, insert_id by done. by destruct st.
  - simpl. rewrite Hb. unfold in_object. simpl. by replace (_ && _) with true by lia.
Qed.

Lemma with_own_bytes (st : state) a b bs : payload b <> Own a (ptr_ofs (payload b)) ->
  pbuf_bytes (with_own st (<[a := bs]> (own st))) b = pbuf_bytes st b.
Proof.
  unfold pbuf_bytes. destruct (payload b); simpl; try done. intros Hne.
  rewrite lookup_insert_ne by congruence. done.
Qed.

(** A packet whose pbufs hold their own data, none of it behind [a]. *)
Lemma with_own_data (st : state) l a bs : Forall (fits st) l -> a ∉ addrs l ->
  data (with_own st (<[a := bs]> (own st))) l = data st l /\
  Forall (fits (with_own st (<[a := bs]> (own st)))) l.
Proof.
  induction 1 as [|[q b] l (ofs & cs & Hp & Hb & Hr) _ IH]; [done|]. simpl in *.
  intros [Hne Hn]%not_elem_of_cons. destruct (IH Hn) as [IHd IHf]. rewrite !data_cons, IHd.
  rewrite with_own_bytes by (rewrite Hp; simpl; congruence). split; [done|]. constructor; [|done].
  exists ofs, cs. simpl. rewrite lookup_insert_ne by congruence. done.
Qed.

(** Writing within one pbuf of a packet writes the packet's data there. *)
Lemma write_data (st : state) l1 a b l2 o new :
  Forall (fits st) (l1 ++ (a, b) :: l2) -> NoDup (addrs (l1 ++ (a, b) :: l2)) ->
  0 <= o -> o + Z.of_nat (length new) <= len b ->
  exists st', write_mem (ptr_add (payload b) o) new st = Ok (tt, st') /\
    filled st st' (l1 ++ (a, b) :: l2) /\
    data st' (l1 ++ (a, b) :: l2) = splice (total l1 + o) new (data st (l1 ++ (a, b) :: l2)).
Proof.
  intros Hf Hnd Ho Hl. pose proof Hnd as Hnd'. apply Forall_app in Hf as [Hf1 [Hfb Hf2]%Forall_cons].
  destruct Hfb as (ofs & bs & Hp & Hb & Hr). simpl in Hp, Hb, Hr.
  rewrite addrs_app in Hnd. apply NoDup_app in Hnd as (_ & Hd & [Hn2 _]%NoDup_cons).
  assert (Hn1 : a ∉ addrs l1) by (intros Hin; apply (Hd a Hin); by left).
  rewrite Hp, (write_own _ _ _ _ _ bs) by (done || lia). eexists. split; [done|].
  set (bs' := splice (ofs + o) new bs).
  destruct (with_own_data st l1 a bs' Hf1 Hn1) as [Hd1 Hf1'].
  destruct (with_own_data st l2 a bs' Hf2 Hn2) as [Hd2 Hf2'].
  assert (Hl1 := data_length _ _ (fits_readable _ _ Hf1) (fits_len _ _ Hf1)).
  pose proof (total_nonneg _ (fits_len _ _ Hf1)). split.
  - repeat (split; [done|]). split; [|split].
    + intros x Hx. simpl. rewrite lookup_insert_ne; [done|]. intros ->. apply Hx.
      rewrite addrs_app, elem_of_app. right. by left.
    + apply Forall_app. split; [done|]. constructor; [|done]. exists ofs, bs'. simpl.
      rewrite lookup_insert_eq. split; [done|]. split; [done|]. unfold bs'. rewrite splice_length; lia.
    + intros x c o' cs Hx Hc Hcs. simpl. destruct (decide (x = a)) as [->|Hne]; [|exists cs; by rewrite lookup_insert_ne].
      rewrite lookup_insert_eq. exists bs'. split; [done|]. assert (c = b) as ->
        by (apply (addrs_same _ a c b Hnd' Hx); apply elem_of_app; right; by left).
      rewrite Hp in Hc. injection Hc as <-. assert (cs = bs) as -> by congruence. unfold bs', splice.
      rewrite take_app_le, take_take by (rewrite ?length_take; lia). f_equal. lia.
  - rewrite !data_app, !data_cons, Hd1, Hd2, splice_app_r by lia.
    replace (total l1 + o - Z.of_nat (length (data st l1))) with o by lia. f_equal.
    assert (Hbb : pbuf_bytes st b = slice ofs (len b) bs) by (unfold pbuf_bytes; rewrite Hp; simpl; by rewrite Hb).
    assert (Hbb' : pbuf_bytes (with_own st (<[a := bs']> (own st))) b = slice ofs (len b) bs')
      by (unfold pbuf_bytes; rewrite Hp; simpl; by rewrite lookup_insert_eq).
    rewrite Hbb, Hbb', splice_app_l by (rewrite ?slice_length; lia). f_equal.
    unfold bs'. apply slice_splice; lia.
Qed.

Lemma filled_trans st1 st2 st3 l : filled st1 st2 l -> filled st2 st3 l -> filled st1 st3 l.
Proof.
  intros (?&?&?&?&?&Ho&_&Hh) (?&?&?&?&?&Ho'&Hf&Hh'). repeat (split; [congruence|]).
  split; [intros x Hx; by rewrite Ho', Ho|]. split; [done|]. intros a b o bs Hin Hp Hb.
  destruct (Hh a b o bs Hin Hp Hb) as (bs1 & Hb1 & E1). destruct (Hh' a b o bs1 Hin Hp Hb1) as (bs2 & Hb2 & E2).
  exists bs2. split; [done|congruence].
Qed.
Lemma filled_refl st l : Forall (fits st) l -> filled st st l.
Proof. intros Hf. repeat (split; [done|]). intros a b o bs _ _ Hb. by exists bs. Qed.

(** Other memory is as before. *)
Lemma filled_obj st st' l d :
  filled st st' l -> Forall (fits st) l -> foreign d l -> mem_obj st' d = mem_obj st d.
Proof.
  intros (_ & He & _ & _ & _ & Ho & _) Hf Hd. destruct d as [|p o|]; simpl; [done| |by rewrite He].
  apply Ho. intros ([p' b] & -> & Hin)%list_elem_of_fmap. unfold foreign in Hd. rewrite Forall_forall in Hf, Hd.
  destruct (Hf _ Hin) as (ofs & bs & Hp & _). specialize (Hd _ Hin). simpl in *. rewrite Hp in Hd.
  simpl in Hd. lia.
Qed.
Lemma filled_holds st st' l d xs :
  filled st st' l -> Forall (fits st) l -> foreign d l -> holds st d xs -> holds st' d xs.
Proof.
  intros Hfl Hf Hd Hh. assert (E := filled_obj _ _ _ _ Hfl Hf Hd). unfold holds, extent in *. by rewrite E.
Qed.
Lemma filled_data st st' l l' :
  filled st st' l -> Forall (fits st) l -> Forall (fun x => foreign (payload x.2) l) l' ->
  data st' l' = data st l'.
Proof.
  intros Hfl Hf Hl'. unfold data. induction Hl' as [|[a b] l' Hb _ IH]; [done|]. simpl. rewrite IH. f_equal.
  unfold pbuf_bytes. by rewrite (filled_obj st st' l).
Qed.
Lemma foreign_lookup d l a b : foreign d l -> (a, b) ∈ l -> same_obj d (payload b) = false.
Proof. unfold foreign. rewrite Forall_forall. intros H Hin. by apply (H _ Hin). Qed.

Lemma drop_slice k m (xs : list Z) : 0 <= k -> 0 <= m -> k + m <= Z.of_nat (length xs) ->
  drop (Z.to_nat k) xs = slice k m xs ++ drop (Z.to_nat (k + m)) xs.
Proof.
  intros. unfold slice. rewrite Z2Nat.inj_add, <-drop_drop by lia. by rewrite take_drop.
Qed.

Lemma take_loop_spec fuel l1 l2 d xs k st :
  packet (pbufs st) (l1 ++ l2) -> Forall (fits st) (l1 ++ l2) -> sized (l1 ++ l2) ->
  holds st d xs -> foreign d (l1 ++ l2) -> 0 <= k <= Z.of_nat (length xs) ->
  Z.of_nat (length xs) < 65536 ->   Z.of_nat (length xs) - k <= total l2 -> (length l2 < fuel)%nat ->
  exists st', take_loop fuel (head_addr l2) d (Z.of_nat (length xs) - k) k st
      = Ok ((0, Z.of_nat (length xs)), st') /\ filled st st' (l1 ++ l2) /\
    data st' (l1 ++ l2) = splice (total l1) (drop (Z.to_nat k) xs) (data st (l1 ++ l2)).
Proof.
  revert fuel l1 k st. induction l2 as [|[a b] l2 IH]; intros fuel l1 k st Hp Hf Hs Hh Hd Hk Hx Hn Hfuel;
    (destruct fuel as [|fuel]; [simpl in Hfuel; lia|]); cbn [take_loop head_addr].
  1: simpl in Hn. all: destruct (Z.eqb_spec (Z.of_nat (length xs) - k) 0) as [E|E]; try lia.
  1, 2: exists st; rewrite drop_ge, splice_nil by lia;
    split; [rewrite E; by replace k with (Z.of_nat (length xs)) by lia|]; split; [by apply filled_refl|done].
  assert (Hnd := packet_NoDup _ _ Hp). assert (Hpa := packet_app _ _ _ Hp). destruct Hpa as (Ha & Hb & _).
  rewrite sassert_bind, (pb_get_bind _ _ _ _ Hb) by lia.
  change (len (link b l2)) with (len b). change (payload (link b l2)) with (payload b).
  change (next (link b l2)) with (head_addr l2).
  destruct (Hs) as [[Hs1 [Hlb Hs2]%Forall_cons]%Forall_app Hst]. rewrite total_app in Hst. simpl in Hst, Hlb, Hn, Hfuel.
  pose proof (total_nonneg _ Hs1). pose proof (total_nonneg _ Hs2).
  replace (if len b <? _ then len b else _) with (Z.min (Z.of_nat (length xs) - k) (len b)) by (case_match; lia).
  set (m := Z.min _ _). assert (Hm : length (slice k m xs) = Z.to_nat m) by (rewrite slice_length; lia).
  destruct (write_data st l1 a b l2 0 (slice k m xs)) as (st1 & E1 & Hfl1 & Hd1); [done|done|lia|lia|].
  rewrite ptr_add_0 in E1. rewrite Z.add_0_r in Hd1.
  rewrite (st_bind_ok _ _ _ _ _ (MEMCPY_ok _ (ptr_add d k) m _ st st1
    ltac:(rewrite same_obj_sym, same_obj_add_l; eapply foreign_lookup; [exact Hd|];
          rewrite elem_of_app; right; by left)
    (holds_read st d xs k m Hh ltac:(lia) ltac:(lia) ltac:(lia)) E1)).
  unfold u64. rewrite (Z.mod_small (_ - m)), (Z.mod_small (k + m)) by lia.
  replace (Z.of_nat (length xs) - k - m) with (Z.of_nat (length xs) - (k + m)) by lia.
  replace (l1 ++ (a, b) :: l2) with ((l1 ++ [(a, b)]) ++ l2) in * by (by rewrite <-app_assoc).
  destruct (IH fuel (l1 ++ [(a, b)]) (k + m) st1) as (st' & -> & Hfl & Hdat); try lia.
  - destruct Hfl1 as [-> _]. done.
  - apply Hfl1.
  - done.
  - by eapply filled_holds.
  - done.
  - exists st'. split; [done|]. split; [by eapply filled_trans|]. rewrite Hdat, Hd1, total_app. simpl.
    rewrite (drop_slice k m xs) by lia. assert (Hlen := data_length _ _ (fits_readable _ _ Hf) (fits_len _ _ Hf)).
    rewrite !total_app in Hlen. simpl in Hlen.
    destruct (decide (m = len b)) as [Em|Em].
    + rewrite <-splice_app by lia. do 2 f_equal. lia.
    + rewrite !(drop_ge xs), app_nil_r, splice_nil by lia. done.
Qed.

Lemma pbuf_take_spec l1 l2 d xs st :
  packet (pbufs st) (l1 ++ l2) -> Forall (fits st) (l1 ++ l2) -> sized (l1 ++ l2) -> l2 <> [] ->
  holds st d xs -> foreign d (l1 ++ l2) -> Z.of_nat (length xs) <= total l2 ->
  exists st', pbuf_take (head_addr l2) d (Z.of_nat (length xs)) st = Ok (ERR_OK, st') /\
    filled st st' (l1 ++ l2) /\ data st' (l1 ++ l2) = splice (total l1) xs (data st (l1 ++ l2)).
Proof.
  intros Hp Hf Hs Hne Hh Hd Hn. destruct (Hs) as [[Hs1 _]%Forall_app Ht]. rewrite total_app in Ht.
  pose proof (total_nonneg _ Hs1). assert (Hp2 := packet_app _ _ _ Hp).
  assert (Hh2 := head_addr_nonzero _ _ Hp2 Hne).
  destruct (take_loop_spec (Datatypes.S (size (pbufs st))) l1 l2 d xs 0 st) as (st' & E & Hfl & Hdat);
    try done; try lia.
  { pose proof (packet_length _ _ Hp2). lia. }
  rewrite Z.sub_0_r in E. exists st'. split; [|by split]. unfold pbuf_take.
  replace (head_addr l2 =? 0) with false by lia.
  rewrite bool_decide_false by (eapply extent_not_null, Hh).
  destruct l2 as [|[a b] l2]; [done|]. destruct Hp2 as (_ & Hb & _). cbn [head_addr] in *.
  rewrite (pb_get_bind _ _ _ _ Hb). change (tot_len (link b l2)) with (total ((a, b) :: l2)).
  replace (_ <=? _) with true by lia. cbn [negb].
  rewrite chain_fuel_bind, (st_bind_ok _ _ _ _ _ E), sassert_bind; [done|]. simpl. lia.
Qed.

Lemma holds_add st d xs m :
  holds st d xs -> 0 <= m <= Z.of_nat (length xs) -> holds st (ptr_add d m) (drop (Z.to_nat m) xs).
Proof.
  intros [(bs & Hbs & ? & ?) Hx] Hm. unfold holds, extent. rewrite mem_obj_add, ptr_ofs_add, length_drop.
  split; [exists bs; split; [done|]; lia|]. rewrite Hbs in *. simpl in *.
  rewrite <-Hx at 2. rewrite <-(slice_slice m _ _ (Z.of_nat (length xs))) by lia. rewrite Hx.
  unfold slice. rewrite take_ge; [done|]. rewrite length_drop. lia.
Qed.
Lemma foreign_add d m l : foreign d l -> foreign (ptr_add d m) l.
Proof. intros Hf. eapply Forall_impl; [exact Hf|]. intros x. by rewrite same_obj_add_l. Qed.

(** [pbuf_take_at] writes the string at the offset or, when the packet is too
    short, nothing. *)
Lemma pbuf_take_at_spec l d xs o st :
  packet (pbufs st) l -> Forall (fits st) l -> sized l -> holds st d xs -> foreign d l ->
  is_u16 o -> Z.of_nat (length xs) < 65536 ->
  exists st', filled st st' l /\
    if (o <? total l) && (o + Z.of_nat (length xs) <=? total l)
    then pbuf_take_at (head_addr l) d (Z.of_nat (length xs)) o st = Ok (ERR_OK, st') /\
         data st' l = splice o xs (data st l)
    else pbuf_take_at (head_addr l) d (Z.of_nat (length xs)) o st = Ok (ERR_MEM, st').
Proof.
  intros Hp Hf Hs Hh Hd Ho Hx. unfold pbuf_take_at. unfold is_u16 in Ho.
  destruct (pbuf_skip_spec l o st Hp Hs Ho) as [(l1 & q & b & l2 & -> & Hrng & E)|[Hle E]];
    unfold pbuf_skip; rewrite (st_bind_ok _ _ _ _ _ E).
  2:{ replace (o <? total l) with false by lia. exists st. split; [by apply filled_refl|done]. }
  assert (Hnd := packet_NoDup _ _ Hp). assert (Hpa := packet_app _ _ _ Hp). destruct Hpa as (Hq & Hb & _).
  destruct (Hs) as [[Hs1 [Hlb Hs2]%Forall_cons]%Forall_app Hst]. rewrite total_app in *. cbn [total foldr] in *.
  change (foldr (fun x acc => len x.2 + acc) 0 l2) with (total l2) in *. cbn [snd] in *.
  pose proof (total_nonneg _ Hs1). pose proof (total_nonneg _ Hs2).
  replace (q =? 0) with false by lia. rewrite (pb_get_bind _ _ _ _ Hb).
  change (tot_len (link b l2)) with (len b + total l2). change (len (link b l2)) with (len b).
  change (payload (link b l2)) with (payload b). change (next (link b l2)) with (head_addr l2).
  replace (o <? total l1 + (len b + total l2)) with true by lia. cbn [andb].
  destruct (Z.leb_spec (o + Z.of_nat (length xs)) (total l1 + (len b + total l2))) as [Hin|Hout].
  2:{ replace (_ <=? len b + total l2) with false by lia. exists st. split; [by apply filled_refl|done]. }
  replace (_ <=? len b + total l2) with true by lia. rewrite sassert_bind by lia. cbv zeta.
  set (m := Z.min (len b - (o - total l1)) (Z.of_nat (length xs))).
  rewrite (u16_id m), u16_id by (unfold is_u16; lia).
  assert (Hm : length (slice 0 m xs) = Z.to_nat m) by (rewrite slice_length; lia).
  destruct (write_data st l1 q b l2 (o - total l1) (slice 0 m xs)) as (st1 & E1 & Hfl1 & Hd1);
    [done|done|lia|lia|].
  assert (Hread := holds_read st d xs 0 m Hh ltac:(lia) ltac:(lia) ltac:(lia)). rewrite ptr_add_0 in Hread.
  rewrite (st_bind_ok _ _ _ _ _ (MEMCPY_ok _ d m _ st st1
    ltac:(rewrite same_obj_add_l, same_obj_sym; eapply foreign_lookup; [exact Hd|];
          rewrite elem_of_app; right; by left) Hread E1)).
  replace (total l1 + (o - total l1)) with o in Hd1 by lia.
  assert (Hsplit : xs = slice 0 m xs ++ drop (Z.to_nat m) xs) by (apply (drop_slice 0 m xs); lia).
  destruct (Z.ltb_spec 0 (Z.of_nat (length xs) - m)) as [Hmore|Hdone].
  - replace (l1 ++ (q, b) :: l2) with ((l1 ++ [(q, b)]) ++ l2) in * by (by rewrite <-app_assoc).
    replace (Z.of_nat (length xs) - m) with (Z.of_nat (length (drop (Z.to_nat m) xs))) by (rewrite length_drop; lia).
    destruct (pbuf_take_spec (l1 ++ [(q, b)]) l2 (ptr_add d m) (drop (Z.to_nat m) xs) st1)
      as (st' & E2 & Hfl2 & Hd2).
    + destruct Hfl1 as [-> _]. done.
    + apply Hfl1.
    + done.
    + intros ->. simpl in *. lia.
    + apply holds_add; [by eapply filled_holds|lia].
    + by apply foreign_add.
    + rewrite length_drop. lia.
    + exists st'. split; [by eapply filled_trans|]. split; [exact E2|]. rewrite Hd2, Hd1.
      rewrite Hsplit at 3. assert (Hlen := data_length _ _ (fits_readable _ _ Hf) (fits_len _ _ Hf)).
      rewrite !total_app in *. simpl in *. rewrite <-splice_app by lia. f_equal. lia.
  - exists st1. split; [done|]. split; [done|]. rewrite Hd1. f_equal.
    rewrite Hsplit at 2. rewrite (drop_ge xs), app_nil_r by lia. done.
Qed.

(** ** Copying between packets *)

Lemma solid_len l : solid l -> Forall (fun x => 0 <= len x.2) l.
Proof. intros H. eapply Forall_impl; [exact H|]. simpl. lia. Qed.

Lemma ends_queue_ok l (st : state) :
  packet (pbufs st) l -> solid l -> ends_queue (head_addr l) st = Ok (false, st).
Proof.
  intros Hp Hs. unfold ends_queue. destruct l as [|[a b] l]; [done|]. destruct Hp as (Ha & Hb & Hl).
  cbn [head_addr]. replace (a =? 0) with false by lia. rewrite (pb_get_bind _ _ _ _ Hb).
  unfold mret, st_ret. do 2 f_equal. change (tot_len (link b l)) with (len b + total l).
  change (len (link b l)) with (len b). change (next (link b l)) with (head_addr l).
  apply Forall_cons in Hs as [_ Hs]. rewrite (head_addr_eqb _ _ Hl).
  destruct l as [|[a2 b2] l]; [by rewrite andb_false_r|]. apply Forall_cons in Hs as [H2 Hs]. simpl in *.
  pose proof (total_nonneg _ (solid_len _ Hs)). lia.
Qed.

(** The position [o] bytes into the first pbuf of [s], moved on to the next pbuf
    at the end. *)
Definition advance (s : list (Z * pbuf)) (b : pbuf) (o : Z) : list (Z * pbuf) * Z :=
  if o =? len b then (tail s, 0) else (s, o).

Lemma advance_slice st a b s o n :
  readable st ((a, b) :: s) -> 0 <= o <= len b -> 0 <= n ->
  slice o n (data st ((a, b) :: s))
  = let '(s', o') := advance ((a, b) :: s) b o in slice o' n (data st s').
Proof.
  intros Hr Ho Hn. unfold advance. destruct (Z.eqb_spec o (len b)) as [->|]; [|done].
  apply Forall_cons in Hr as [Hr _]. destruct (pbuf_bytes_length st a b Hr ltac:(lia)) as [_ Hl].
  rewrite data_cons, slice_app_r by lia. simpl. f_equal. lia.
Qed.

(** One pass of the loop, by the lists of pbufs it goes through. *)
Lemma copy_pbuf_step fuel pre at' bt lt af bf lf c ot ofr st :
  let n := Z.min c (Z.min (len bt - ot) (len bf - ofr)) in
  packet (pbufs st) (pre ++ (at', bt) :: lt) -> Forall (fits st) (pre ++ (at', bt) :: lt) ->
  solid (pre ++ (at', bt) :: lt) -> packet (pbufs st) ((af, bf) :: lf) -> readable st ((af, bf) :: lf) ->
  solid ((af, bf) :: lf) -> Forall (fun x => foreign (payload x.2) (pre ++ (at', bt) :: lt)) ((af, bf) :: lf) ->
  0 < c < 65536 -> 0 <= ot < len bt -> 0 <= ofr < len bf -> len bt < 65536 -> len bf < 65536 ->
  c <= len bt + total lt - ot -> c <= len bf + total lf - ofr ->
  exists st1, filled st st1 (pre ++ (at', bt) :: lt) /\
    data st1 (pre ++ (at', bt) :: lt)
      = splice (total pre + ot) (slice ofr n (pbuf_bytes st bf)) (data st (pre ++ (at', bt) :: lt)) /\
    copy_pbuf_loop (Datatypes.S fuel) at' af c ot ofr st
    = if c - n =? 0 then Ok (ERR_OK, st1)
      else
        let '(lt', ot') := advance ((at', bt) :: lt) bt (ot + n) in
        let '(lf', ofr') := advance ((af, bf) :: lf) bf (ofr + n) in
        copy_pbuf_loop fuel (head_addr lt') (head_addr lf') (c - n) ot' ofr' st1.
Proof.
  intros n Hpt Hft Hst Hpf Hrf Hsf Hfor Hc Hot Hof Hlt Hlf Hct Hcf.
  assert (Hnd := packet_NoDup _ _ Hpt). assert (Hpt' := packet_app _ _ _ Hpt).
  destruct (Hpt') as (Hat & Hbt & Hlt'). destruct (Hpf) as (Haf & Hbf & Hlf').
  assert (Hsf' := Hsf). apply Forall_cons in Hsf' as [_ Hsf2]. assert (Hrb := Hrf). apply Forall_cons in Hrb as [Hrb _].
  assert (Hst2 := Hst). apply Forall_app in Hst2 as [_ Hst2]. assert (Hst3 := Hst2). apply Forall_cons in Hst3 as [_ Hst3].
  destruct (pbuf_bytes_length st af bf Hrb ltac:(lia)) as [_ Hlen].
  assert (Hn : length (slice ofr n (pbuf_bytes st bf)) = Z.to_nat n) by (rewrite slice_length; lia).
  destruct (write_data st pre at' bt lt ot (slice ofr n (pbuf_bytes st bf))) as (st1 & Ew & Hfl & Hdat);
    [done|done|lia|lia|].
  exists st1. split; [done|]. split; [done|]. cbn [copy_pbuf_loop].
  rewrite (pb_get_bind _ _ _ _ Hbt), (pb_get_bind _ _ _ _ Hbf).
  change (len (link bt lt)) with (len bt). change (len (link bf lf)) with (len bf).
  change (next (link bt lt)) with (head_addr lt). change (next (link bf lf)) with (head_addr lf).
  change (payload (link bt lt)) with (payload bt). change (payload (link bf lf)) with (payload bf).
  unfold u64. rewrite (Z.mod_small (len bt - ot)), (Z.mod_small (len bf - ofr)) by lia. cbv zeta.
  replace (Z.min c (if len bf - ofr <=? len bt - ot then len bf - ofr else len bt - ot)) with n
    by (unfold n; case_match; lia).
  assert (Hobj : same_obj (ptr_add (payload bt) ot) (ptr_add (payload bf) ofr) = false).
  { rewrite same_obj_add, same_obj_sym. apply Forall_cons in Hfor as [Hfor _].
    eapply foreign_lookup; [exact Hfor|]. rewrite elem_of_app. right. by left. }
  rewrite (st_bind_ok _ _ _ _ _ (MEMCPY_ok _ _ n _ st st1 Hobj
    (pbuf_read st bf ofr n Hrb ltac:(lia) ltac:(lia) ltac:(lia)) Ew)).
  rewrite (Z.mod_small (ot + n)), (Z.mod_small (ofr + n)), (u16_id (c - n)) by (unfold is_u16; lia).
  rewrite !sassert_bind by lia. unfold advance. cbn [tail].
  replace (len bf <=? ofr + n) with (ofr + n =? len bf) by lia.
  assert (Hpf1 : pbufs st1 = pbufs st) by apply Hfl. rewrite <-Hpf1 in Hlt', Hlf', Hpt', Hpf.
  assert (Hq1 := ends_queue_ok _ _ Hlt' Hst3). assert (Hq2 := ends_queue_ok _ _ Hpt' Hst2).
  assert (Hq3 := ends_queue_ok _ _ Hlf' Hsf2). assert (Hq4 := ends_queue_ok _ _ Hpf Hsf).
  cbn [head_addr] in Hq2, Hq4.
  assert (Hlast : forall l, packet (pbufs st1) l -> (c - n <= total l) ->
    (head_addr l =? 0) && negb (c - n =? 0) = false).
  { intros l Hl Htot. rewrite (head_addr_eqb _ _ Hl). destruct l; simpl in *; lia. }
  destruct (Z.eqb_spec (ofr + n) (len bf)); cbn [andb head_addr];
    [rewrite (Hlast lf) by (done || lia)|]; cbv iota;
    (destruct (Z.eqb_spec (ot + n) (len bt)); cbn [andb head_addr];
      [rewrite (Hlast lt) by (done || lia)|]); cbv iota;
    rewrite ?(st_bind_ok _ _ _ _ _ Hq3), ?(st_bind_ok _ _ _ _ _ Hq4); cbv iota;
    rewrite ?(st_bind_ok _ _ _ _ _ Hq1), ?(st_bind_ok _ _ _ _ _ Hq2); cbv iota;
    by destruct (c - n =? 0).
Qed.

Lemma slice_split o m n xs : 0 <= o -> 0 <= m -> 0 <= n ->
  slice o (m + n) xs = slice o m xs ++ slice (o + m) n xs.
Proof.
  intros. unfold slice. rewrite !Z2Nat.inj_add by lia. rewrite <-drop_drop.
  generalize (drop (Z.to_nat o) xs). intros ys.
  by rewrite <-(take_drop (Z.to_nat m) (take (Z.to_nat m + Z.to_nat n) ys)), take_take,
    Nat.min_l, skipn_firstn_comm, Nat.add_comm, Nat.add_sub by lia.
Qed.

(** Where [advance] leads when there is more. *)
Lemma advance_more a b s o c : solid ((a, b) :: s) -> 0 <= o <= len b -> 0 < c -> c <= len b + total s - o ->
  exists k a' b' s' o', advance ((a, b) :: s) b o = ((a', b') :: s', o') /\ (a, b) :: s = k ++ (a', b') :: s' /\
    total k + o' = o /\ 0 <= o' < len b' /\ c <= len b' + total s' - o' /\
    (length s' <= length s)%nat /\ (o = len b -> (length s' < length s)%nat).
Proof.
  intros Hs Ho Hc Hcs. unfold advance. destruct (Z.eqb_spec o (len b)) as [->|].
  - destruct s as [|[a' b'] s']; [simpl in Hcs; lia|].
    apply Forall_cons in Hs as [_ [Hb' Hs']%Forall_cons]. simpl in *.
    exists [(a, b)], a', b', s', 0. simpl. repeat split; try done; lia.
  - exists [], a, b, s, o. simpl. repeat split; try done; lia.
Qed.

Lemma copy_pbuf_loop_spec fuel pre at' bt lt af bf lf c ot ofr st :
  packet (pbufs st) (pre ++ (at', bt) :: lt) -> Forall (fits st) (pre ++ (at', bt) :: lt) ->
  solid (pre ++ (at', bt) :: lt) -> sized (pre ++ (at', bt) :: lt) ->
  packet (pbufs st) ((af, bf) :: lf) -> readable st ((af, bf) :: lf) ->
  solid ((af, bf) :: lf) -> sized ((af, bf) :: lf) ->
  Forall (fun x => foreign (payload x.2) (pre ++ (at', bt) :: lt)) ((af, bf) :: lf) ->
  0 < c < 65536 -> 0 <= ot < len bt -> 0 <= ofr < len bf ->
  c <= len bt + total lt - ot -> c <= len bf + total lf - ofr -> (length lt + length lf < fuel)%nat ->
  exists st', copy_pbuf_loop fuel at' af c ot ofr st = Ok (ERR_OK, st') /\
    filled st st' (pre ++ (at', bt) :: lt) /\
    data st' (pre ++ (at', bt) :: lt)
      = splice (total pre + ot) (slice ofr c (data st ((af, bf) :: lf))) (data st (pre ++ (at', bt) :: lt)).
Proof.
  revert pre at' bt lt af bf lf c ot ofr st. induction fuel as [|fuel IH];
    intros pre at' bt lt af bf lf c ot ofr st Hpt Hft Hst Hzt Hpf Hrf Hsf Hzf Hfor Hc Hot Hof Hct Hcf Hfuel; [lia|].
  assert (Hlt : 0 <= total pre /\ total pre + (len bt + total lt) < 65536 /\ 0 <= total lt).
  { destruct Hzt as [[H1 [_ H2]%Forall_cons]%Forall_app Ht]. rewrite total_app in Ht. simpl in Ht.
    pose proof (total_nonneg _ H1). pose proof (total_nonneg _ H2). lia. }
  assert (Hlf : len bf + total lf < 65536 /\ 0 <= total lf).
  { apply sized_cons in Hzf as (H1 & _ & H2). pose proof (total_nonneg _ (proj1 H1)). lia. }
  set (n := Z.min c (Z.min (len bt - ot) (len bf - ofr))).
  destruct (copy_pbuf_step fuel pre at' bt lt af bf lf c ot ofr st) as (st1 & Hfl & Hdat & E); try done; try lia.
  fold n in Hdat, E. rewrite E.
  assert (Hrb := Hrf). apply Forall_cons in Hrb as [Hrb _].
  destruct (pbuf_bytes_length st af bf Hrb ltac:(lia)) as [_ Hlen].
  assert (Hxs : slice ofr n (pbuf_bytes st bf) = slice ofr n (data st ((af, bf) :: lf))).
  { rewrite data_cons, slice_app_l by lia. replace (Z.min n _) with n by lia.
    by rewrite Z.sub_diag, slice_0, app_nil_r. }
  rewrite Hxs in Hdat.
  destruct (Z.eqb_spec (c - n) 0) as [Hz|Hz].
  { exists st1. split; [done|]. split; [done|]. by replace c with n by lia. }
  assert (Hrf1 : data st1 ((af, bf) :: lf) = data st ((af, bf) :: lf)) by (by eapply filled_data).
  assert (Hread1 : readable st1 ((af, bf) :: lf)).
  { clear -Hrf Hfl Hft Hfor. unfold readable in *. rewrite Forall_forall in *. intros x Hx.
    destruct (Hrf x Hx) as [?|He]; [by left|right]. unfold extent in *.
    by rewrite (filled_obj _ _ _ _ Hfl (proj2 (Forall_forall _ _) Hft) (Hfor x Hx)). }
  assert (Hys := advance_slice st1 af bf lf (ofr + n) (c - n) Hread1 ltac:(lia) ltac:(lia)).
  destruct (advance_more at' bt lt (ot + n) (c - n)) as (kt & at2 & bt2 & lt2 & ot2 & Eat & Elt & Hkt & Hot2 & Hct2 & Hlt2 & Hlt2');
    [by apply Forall_app in Hst as [_ ?]|lia|lia|lia|].
  destruct (advance_more af bf lf (ofr + n) (c - n)) as (kf & af2 & bf2 & lf2 & of2 & Eaf & Elf & Hkf & Hof2 & Hcf2 & Hlf2 & Hlf2');
    [done|lia|lia|lia|].
  rewrite Eat, Eaf in *. cbn [head_addr]. rewrite Elt, app_assoc in *. rewrite Elf in *.
  destruct (IH (pre ++ kt) at2 bt2 lt2 af2 bf2 lf2 (c - n) ot2 of2 st1) as (st' & -> & Hfl2 & Hdat2); try done; try lia.
  - destruct Hfl as [-> _]. done.
  - apply Hfl.
  - destruct Hfl as [-> _]. by eapply packet_app.
  - by apply Forall_app in Hread1 as [_ ?].
  - by apply Forall_app in Hsf as [_ ?].
  - split; [by apply Forall_app in Hsf as [_ ?%solid_len]|]. simpl. destruct Hzf as [Hz1 Hz2].
    rewrite total_app in Hz2. apply Forall_app in Hz1 as [Hz1 _]. apply total_nonneg in Hz1. simpl in Hz2. lia.
  - by apply Forall_app in Hfor as [_ ?].
  - exists st'. split; [done|]. split; [by eapply filled_trans|].
    assert (Hdlen := data_length _ _ (fits_readable _ _ Hft) (fits_len _ _ Hft)).
    assert (Hn : Z.of_nat (length (slice ofr n (data st (kf ++ (af2, bf2) :: lf2)))) = n)
      by (rewrite <-Hxs, slice_length; lia).
    rewrite Hdat2, Hdat, <-Hys, Hrf1. rewrite !total_app in *. simpl in *.
    replace (total pre + total kt + ot2) with (total pre + ot + n) by lia. rewrite <-Hn at 1.
    rewrite splice_app by lia. f_equal. rewrite <-slice_split by lia. f_equal. lia.
Qed.

Lemma pbuf_copy_spec lt lf st :
  packet (pbufs st) lt -> Forall (fits st) lt -> solid lt -> sized lt -> lt <> [] ->
  packet (pbufs st) lf -> readable st lf -> solid lf -> sized lf -> lf <> [] ->
  Forall (fun x => foreign (payload x.2) lt) lf -> total lf <= total lt ->
  exists st', pbuf_copy (head_addr lt) (head_addr lf) st = Ok (ERR_OK, st') /\ filled st st' lt /\
    data st' lt = splice 0 (data st lf) (data st lt).
Proof.
  intros Hpt Hft Hst Hzt Hnt Hpf Hrf Hsf Hzf Hnf Hfor Htot.
  pose proof (packet_length _ _ Hpt). pose proof (packet_length _ _ Hpf).
  assert (Hdf := data_length _ _ Hrf (proj1 Hzf)). destruct lt as [|[at' bt] lt]; [done|].
  destruct lf as [|[af bf] lf]; [done|]. unfold pbuf_copy, pbuf_copy_partial_pbuf.
  destruct (Hpt) as (Hat & Hbt & _). destruct (Hpf) as (Haf & Hbf & _). cbn [head_addr].
  replace (af =? 0) with false by lia. replace (at' =? 0) with false by lia.
  rewrite !(pb_get_bind _ _ _ _ Hbf).
  change (tot_len (link bf lf)) with (total ((af, bf) :: lf)). rewrite Z.leb_refl. cbn [negb].
  rewrite (pb_get_bind _ _ _ _ Hbt). change (tot_len (link bt lt)) with (total ((at', bt) :: lt)).
  replace (_ <=? total ((at', bt) :: lt)) with true by lia. cbn [negb]. rewrite chain_fuel_bind.
  assert (Hb1 := Hst). assert (Hb2 := Hsf). apply Forall_cons in Hb1 as [Hb1 _].
  apply Forall_cons in Hb2 as [Hb2 Hs2]. apply solid_len, total_nonneg in Hs2. simpl in Hb1, Hb2.
  destruct (copy_pbuf_loop_spec (Datatypes.S (size (pbufs st)) + Datatypes.S (size (pbufs st)))
    [] at' bt lt af bf lf (total ((af, bf) :: lf)) 0 0 st) as (st' & E & Hfl & Hdat);
    try done; try (simpl in *; lia).
  { destruct Hzf as [_ Hz]. simpl in *. lia. }
  exists st'. split; [exact E|]. split; [done|]. change (total [] + 0) with 0 in Hdat.
  change ([] ++ (at', bt) :: lt) with ((at', bt) :: lt) in Hdat. rewrite Hdat. f_equal.
  unfold slice. change (Z.to_nat 0) with 0%nat. rewrite drop_0, take_ge; [done|]. lia.
Qed.

Lemma splice_all xs bs : length bs = length xs -> splice 0 xs bs = xs.
Proof.
  intros Hl. unfold splice. rewrite drop_ge by (simpl; lia). simpl. by rewrite app_nil_r.
Qed.

(** The payload of every pbuf of a packet is outside the pbufs' memory or behind
    a pbuf that exists. *)
Definition anchored (st : state) (l : list (Z * pbuf)) : Prop :=
  Forall (fun x => forall p o, payload x.2 = Own p o -> is_Some (pbufs st !! p)) l.

Lemma anchored_obj st st' l :
  anchored st l -> (forall x, is_Some (pbufs st !! x) -> own st' !! x = own st !! x) -> ext st' = ext st ->
  Forall (fun x => mem_obj st' (payload x.2) = mem_obj st (payload x.2)) l.
Proof.
  intros Ha Ho He. eapply Forall_impl; [exact Ha|]. intros [a b] H. simpl in *.
  destruct (payload b); simpl; [done|by eapply Ho, H|by rewrite He].
Qed.
Lemma same_obj_data st st' l :
  Forall (fun x => mem_obj st' (payload x.2) = mem_obj st (payload x.2)) l ->
  data st' l = data st l /\ (readable st l -> readable st' l).
Proof.
  induction 1 as [|[a b] l Hb _ [IHd IHr]]; [by split; [|constructor]|]. simpl in *. split.
  - rewrite !data_cons, IHd. unfold pbuf_bytes. by rewrite Hb.
  - intros [Hrb Hr]%Forall_cons. constructor; [|by apply IHr]. simpl in *. unfold extent in *. by rewrite Hb.
Qed.

(** New pbufs are not where existing payloads are. *)
Lemma made_foreign st st' src l l' :
  made st st' src l' -> Forall (fits st') l' -> anchored st l ->
  Forall (fun x => foreign (payload x.2) l') l.
Proof.
  intros (_ & Hnew & _) Hfit Ha. eapply Forall_impl; [exact Ha|]. intros [a b] Hb. simpl in *.
  unfold foreign. rewrite Forall_forall in *. intros [a' b'] Hx. destruct (Hfit _ Hx) as (o & bs & Hp & _).
  destruct (Hnew _ Hx) as (_ & _ & Hnone & _). simpl in *. rewrite Hp.
  destruct (payload b) as [|p o'|] eqn:E; simpl; try done. destruct (Hb p o' eq_refl). apply Z.eqb_neq. congruence.
Qed.
Lemma made_filled st st1 st2 src l :
  made st st1 src l -> filled st1 st2 l -> made st st2 src l.
Proof.
  intros (Hok & Hall & Hout & Hown & He & Hc) (Hp & He' & Hc' & Ha & _ & Ho & _).
  split; [unfold pstate_ok; rewrite Hp, Ha; exact Hok|]. split; [done|]. rewrite Hp.
  split; [done|]. split; [|split; congruence]. intros x Hx. rewrite Ho; [by apply Hown|].
  intros ([x' b] & -> & Hin)%list_elem_of_fmap. rewrite Forall_forall in Hall.
  destruct (Hall _ Hin) as (_ & _ & Hnone & _). simpl in *. destruct Hx. congruence.
Qed.

Lemma pbuf_clone_spec layer type l st :
  packet (pbufs st) l -> l <> [] -> readable st l -> anchored st l -> solid l -> sized l -> pstate_ok st ->
  type = PBUF_RAM \/ type = PBUF_POOL ->
  exists p st', pbuf_clone layer type (head_addr l) st = Ok (p, st') /\
    ((p = 0 /\ unchanged st st' /\ pbuf_alloc call_custom_free garbage layer (total l) type st = Ok (0, st')) \/
     exists src l', p = head_addr l' /\ l' <> [] /\ made st st' src l' /\ packet (pbufs st') l' /\
       packet (pbufs st') l /\ data st' l' = data st l /\ data st' l = data st l /\ Forall (fits st') l').
Proof.
  intros Hp Hne Hr Ha Hso Hsz Hok Hty. assert (Hpos : 0 < total l < 65536).
  { split; [|apply Hsz]. destruct l as [|[a b] l]; [done|]. apply Forall_cons in Hso as [Hb Hs].
    apply solid_len, total_nonneg in Hs. simpl in *. lia. }
  assert (Hall : allocated st (total l) (roomy layer)
    (pbuf_alloc call_custom_free garbage layer (total l) type st)).
  { destruct Hty as [-> | ->]; [apply pbuf_alloc_ram_spec|apply pbuf_alloc_pool_spec]; try done; unfold is_u16; lia. }
  assert (Hb : exists b, pbufs st !! head_addr l = Some b /\ tot_len b = total l).
  { destruct l as [|[a b] l]; [done|]. destruct Hp as (_ & Hb & _). by eexists. }
  destruct Hb as (b & Hb & Ht). unfold pbuf_clone. rewrite (pb_get_bind _ _ _ _ Hb), Ht.
  destruct Hall as (p & st1 & E & [[-> Hun]|(src & l' & -> & Hne' & Hm & Hp' & Ht' & Hf & Hso' & _)]);
    rewrite (st_bind_ok _ _ _ _ _ E).
  { exists 0, st1. split; [done|]. by left. }
  replace (head_addr l' =? 0) with false by (by rewrite (head_addr_eqb _ _ Hp'), bool_decide_false).
  assert (Hp1 : packet (pbufs st1) l).
  { eapply packet_ext; [exact Hp|]. intros x Hx. apply Hm. intros ([x' c] & -> & Hin)%list_elem_of_fmap.
    destruct Hm as (_ & Hnew & _). rewrite Forall_forall in Hnew. destruct (Hnew _ Hin) as (_ & _ & Hn & _).
    simpl in *. rewrite packet_chained in Hp. rewrite <-linkup_addrs in Hx.
    destruct (chained_addr _ _ _ Hp Hx). congruence. }
  destruct (same_obj_data st st1 l) as [Hd1 Hr1]; [by apply anchored_obj; [done|apply Hm..]|].
  assert (Hdl := data_length _ _ Hr (proj1 Hsz)).
  assert (Hdl' := data_length _ _ (fits_readable _ _ Hf) (fits_len _ _ Hf)).
  destruct (pbuf_copy_spec l' l st1) as (st2 & E2 & Hfl & Hdat);
    try done; try (by auto); [apply Hso'; lia|split; [by eapply fits_len|lia]|by eapply made_foreign|lia|].
  rewrite (st_bind_ok _ _ _ _ _ E2), sassert_bind by done. exists (head_addr l'), st2. split; [done|]. right.
  assert (Hfor := made_foreign _ _ _ _ _ Hm Hf Ha). assert (Hpb : pbufs st2 = pbufs st1) by apply Hfl.
  exists src, l'. split; [done|]. split; [done|]. split; [by eapply made_filled|]. rewrite Hpb.
  split; [done|]. split; [done|]. split; [|split; [by rewrite (filled_data st1 st2 l')|apply Hfl]].
  rewrite Hdat, Hd1. apply splice_all. lia.
Qed.

(** ** The properties *)

(** [pbuf_copy_partial] returns the number of bytes of the packet from the
    offset on, at most [n], and leaves exactly these bytes in the buffer; nothing
    outside the buffer is written, and an offset beyond the end copies nothing. *)
Theorem pbuf_copy_partial_correct l d n o st :
  packet (pbufs st) l -> l <> [] -> readable st l -> sized l -> foreign d l -> is_u16 n -> is_u16 o ->
  let out := slice o n (data st l) in
  extent st d (Z.of_nat (length out)) ->
  exists st', pbuf_copy_partial (head_addr l) d n o st = Ok (Z.of_nat (length out), st') /\
    holds st' d out /\ wrote d st st'.
Proof.
  intros Hp Hne Hr Hs Hf Hn Ho out Hd. unfold pbuf_copy_partial.
  rewrite (head_addr_eqb _ _ Hp), bool_decide_false, bool_decide_false by (done || by eapply extent_not_null).
  rewrite chain_fuel_bind. pose proof (packet_length _ _ Hp). unfold is_u16 in Hn.
  destruct (copy_partial_loop_spec (Datatypes.S (size (pbufs st))) l d n o 0 0 st)
    as (st' & E & Hw & Hwr); try done; try lia.
  exists st'. split; [exact E|]. split; [|done]. fold out in Hw. destruct (Hd) as (bs & Hbs & ? & ?).
  destruct (write_mem_ok st d 0 out bs) as (st2 & Hw2 & _ & Hobj); [done|lia|lia|].
  rewrite Hw in Hw2. injection Hw2 as <-. split; [by apply Hwr|]. rewrite Hobj, Z.add_0_r. simpl.
  apply list_eq. intros i. rewrite slice_lookup. destruct (decide _) as [Hi|Hi].
  - rewrite splice_lookup, decide_False, decide_True by lia. f_equal. lia.
  - rewrite lookup_ge_None_2; [done|lia].
Qed.

(** [pbuf_take_at] writes the string into the packet at the offset, across
    pbufs, and every other byte of the packet and of memory keeps its value; if
    the packet ends before the string would, or at the offset, it returns
    [ERR_MEM]. *)
Theorem pbuf_take_at_correct l d xs o st :
  packet (pbufs st) l -> Forall (fits st) l -> sized l -> holds st d xs -> foreign d l ->
  is_u16 o -> Z.of_nat (length xs) < 65536 ->
  exists st', filled st st' l /\
    if (o <? total l) && (o + Z.of_nat (length xs) <=? total l)
    then pbuf_take_at (head_addr l) d (Z.of_nat (length xs)) o st = Ok (ERR_OK, st') /\
         data st' l = splice o xs (data st l)
    else pbuf_take_at (head_addr l) d (Z.of_nat (length xs)) o st = Ok (ERR_MEM, st').
Proof. apply pbuf_take_at_spec. Qed.

(** [pbuf_memfind] returns the first position from the start offset on at
    which the string occurs in the packet, however it is split over pbufs, and
    0xFFFF if there is none. *)
Theorem pbuf_memfind_correct l mem ys i st :
  packet (pbufs st) l -> l <> [] -> readable st l -> sized l -> total l < 65535 ->
  Forall is_u8 (data st l) -> holds st mem ys -> 0 <= i ->
  exists r, pbuf_memfind (head_addr l) mem (Z.of_nat (length ys)) i st = Ok (r, st) /\
    first_occurrence (data st l) ys i r.
Proof. apply pbuf_memfind_spec. Qed.

(** C39. [pbuf_clone] of a packet without empty pbufs, to the heap or the pool, returns NULL with nothing
    changed if [pbuf_alloc] has no memory, or a new packet with the same bytes in its own memory; the assertion
    that the copy succeeds holds, and the original packet and its bytes are as
    they were. *)
Theorem pbuf_clone_correct layer type l st :
  packet (pbufs st) l -> l <> [] -> readable st l -> anchored st l -> solid l -> sized l -> pstate_ok st ->
  type = PBUF_RAM \/ type = PBUF_POOL ->
  exists p st', pbuf_clone layer type (head_addr l) st = Ok (p, st') /\
    ((p = 0 /\ unchanged st st' /\ pbuf_alloc call_custom_free garbage layer (total l) type st = Ok (0, st')) \/
     exists src l', p = head_addr l' /\ l' <> [] /\ made st st' src l' /\ packet (pbufs st') l' /\
       packet (pbufs st') l /\ data st' l' = data st l /\ data st' l = data st l /\ Forall (fits st') l').
Proof. apply pbuf_clone_spec. Qed.

End data.

(** ** The properties at a concrete memory *)

Section example.
#[local] Existing Instance example_PbufAlloc.

(** The chain of two pool pbufs with the address of each byte in it, modulo 256,
    and an application buffer. *)
Definition example_st3 : @pstate (memp_state * Z) :=
  with_ext (after (pbuf_alloc no_custom (fun a => a) PBUF_LINK 600 PBUF_POOL example_st0))
    {[0x500 := [178; 179; 0; 1; 2; 3]]}.
Definition example_buffer : ptr := Ext 0x500 0.

Lemma example_packet3 : packet (pbufs example_st3) example_l1.
Proof. vm_compute. by repeat split. Qed.
Lemma example_fits3 : Forall (fits example_st3) example_l1.
Proof.
  apply Forall_cons. split.
  - exists 14, (fresh_bytes (fun a => a) 0x2266 590). split; [done|]. split; [by vm_compute|].
    rewrite fresh_bytes_length by lia. simpl. lia.
  - apply Forall_singleton. exists 0, (fresh_bytes (fun a => a) 0x2000 590). split; [done|]. split; [by vm_compute|].
    rewrite fresh_bytes_length by lia. simpl. lia.
Qed.
Lemma example_foreign3 : foreign example_buffer example_l1.
Proof. by repeat constructor. Qed.
Lemma example_ok3 : pstate_ok example_st3.
Proof.
  assert (H : pstate_ok (after (pbuf_alloc no_custom (fun a => a) PBUF_LINK 600 PBUF_POOL example_st0))).
  { eapply allocated_ok; [exact example_ok0|]. by apply pbuf_alloc_pool_spec; [exact example_ok0|]. }
  exact H.
Qed.
Lemma example_holds3 : holds example_st3 example_buffer [178; 179; 0; 1].
Proof. split; [|done]. eexists. split; [done|]. simpl. lia. Qed.

Lemma pbuf_copy_partial_correct_witness :
  exists st', pbuf_copy_partial 0x2266 example_buffer 6 572 example_st3 = Ok (6, st') /\
    holds st' example_buffer [176; 177; 178; 179; 0; 1] /\ wrote example_buffer example_st3 st'.
Proof.
  assert (E : slice 572 6 (data example_st3 example_l1) = [176; 177; 178; 179; 0; 1]) by (by vm_compute).
  rewrite <-E. refine (pbuf_copy_partial_correct example_l1 example_buffer 6 572 example_st3
    example_packet3 ltac:(done) (fits_readable _ _ example_fits3) (proj1 example_sized) example_foreign3
    ltac:(done) ltac:(done) _).
  rewrite E. eexists. split; [done|]. simpl. lia.
Defined.

Lemma pbuf_take_at_correct_witness :
  exists st', filled example_st3 st' example_l1 /\
    pbuf_take_at 0x2266 example_buffer 4 574 example_st3 = Ok (ERR_OK, st') /\
    data st' example_l1 = splice 574 [178; 179; 0; 1] (data example_st3 example_l1).
Proof.
  exact (pbuf_take_at_correct example_l1 example_buffer [178; 179; 0; 1] 574 example_st3 example_packet3
    example_fits3 (proj1 example_sized) example_holds3 example_foreign3 ltac:(done) ltac:(done)).
Defined.

Lemma pbuf_memfind_correct_witness :
  exists r, pbuf_memfind 0x2266 example_buffer 4 10 example_st3 = Ok (r, example_st3) /\
    first_occurrence (data example_st3 example_l1) [178; 179; 0; 1] 10 r.
Proof.
  refine (pbuf_memfind_correct example_l1 example_buffer [178; 179; 0; 1] 10 example_st3 example_packet3
    ltac:(done) (fits_readable _ _ example_fits3) (proj1 example_sized) ltac:(done) _ example_holds3 ltac:(done)).
  apply (bool_decide_unpack _). by vm_compute.
Defined.

Lemma pbuf_clone_correct_witness :
  exists st' l', pbuf_clone no_custom zeros PBUF_LINK PBUF_RAM 0x2266 example_st3 = Ok (head_addr l', st') /\ l' <> [] /\
    packet (pbufs st') l' /\ packet (pbufs st') example_l1 /\ data st' l' = data example_st3 example_l1.
Proof.
  destruct (pbuf_clone_correct no_custom zeros PBUF_LINK PBUF_RAM example_l1 example_st3 example_packet3 ltac:(done)
    (fits_readable _ _ example_fits3)) as (p & st' & E & [(-> & _)|(src & l' & -> & Hne & _ & Hp & Hl & Hd & _)]).
  - apply Forall_cons. split; [|apply Forall_singleton]; intros p o [= <- _]; vm_compute; by eexists.
  - by repeat constructor.
  - exact (proj1 example_sized).
  - exact example_ok3.
  - by left.
  - assert (Hn : match pbuf_clone no_custom zeros PBUF_LINK PBUF_RAM 0x2266 example_st3 with Ok (p, _) => p <> 0 | _ => False end)
      by (vm_compute; discriminate).
    change (head_addr example_l1) with 0x2266 in E. by rewrite E in Hn.
  - exists st', l'. by repeat (split; [done|]).
Defined.

(** [pbuf_copy_partial_pbuf] of 10 bytes to offset 580 of the 600-byte chain
    passes both checks of its arguments and then writes outside the memory of the
    chain: the offset exceeds the length of the first pbuf, whose remaining room
    is computed as an unsigned difference and wraps around. *)
Theorem pbuf_copy_partial_pbuf_overrun :
  (exists bt bf, pbufs example_st2 !! 0x2266 = Some bt /\ pbufs example_st2 !! 0x10000 = Some bf /\
     10 <= tot_len bf /\ 580 + 10 <= tot_len bt) /\
  pbuf_copy_partial_pbuf 0x2266 0x10000 10 580 example_st2 = Fault.
Proof.
  split; [|by vm_compute]. eexists _, _. split; [by vm_compute|]. split; [by vm_compute|].
  vm_compute. by split.
Qed.
End example.
