(* ===== verification/PbufHeap.v ===== *)
(** * Packet buffers: the heap of all pbufs

    The discipline by which the users of pbufs share them.  [refs_ok E st] says
    that the references somebody holds, the multiset [E], and those from one pbuf
    to the next account for every reference count; that every pbuf heads a packet
    with correct totals; and that its data lies in memory.  The lemmas say what
    the operations of Pbuf and PbufData do to the references held: allocation and
    [pbuf_ref] add one, [pbuf_free] takes one away.  Components that hold pbufs
    are verified against them. *)

From stdpp Require Import gmultiset.
From S2P Require Import Prelude Memp Mem Pbuf PbufData.

Set Default Proof Using "Type".

(** ** References between pbufs *)

(** How many pbufs have [p] as their [next]. *)
Definition indeg (h : gmap Z pbuf) (p : Z) : Z :=
  Z.of_nat (size (filter (fun x => next x.2 = p) h)).

Lemma indeg_insert_new h a b p : h !! a = None ->
  indeg (<[a := b]> h) p = indeg h p + (if decide (next b = p) then 1 else 0).
Proof.
  intros Ha. unfold indeg. destruct (decide (next b = p)) as [Hn|Hn].
  - rewrite map_filter_insert_True by done. rewrite map_size_insert_None; [lia|].
    apply map_lookup_filter_None_2. by left.
  - rewrite map_filter_insert_False by done. rewrite delete_id by done. lia.
Qed.
Lemma indeg_delete h a b p : h !! a = Some b ->
  indeg (delete a h) p = indeg h p - (if decide (next b = p) then 1 else 0).
Proof.
  intros Ha. rewrite <-(insert_delete_id h a b Ha) at 2.
  rewrite indeg_insert_new by apply lookup_delete_eq. lia.
Qed.
Lemma indeg_update h a b b' p : h !! a = Some b -> next b' = next b ->
  indeg (<[a := b']> h) p = indeg h p.
Proof.
  intros Ha Hn. rewrite <-insert_delete_eq, indeg_insert_new by apply lookup_delete_eq.
  rewrite (indeg_delete _ _ _ _ Ha), Hn. lia.
Qed.
Lemma indeg_nonneg h p : 0 <= indeg h p.
Proof. unfold indeg. lia. Qed.
Lemma indeg_pos h a b p : h !! a = Some b -> next b = p -> 0 < indeg h p.
Proof.
  intros Ha Hn. pose proof (indeg_delete h a b p Ha) as E. rewrite decide_True in E by done.
  pose proof (indeg_nonneg (delete a h) p). lia.
Qed.

(** A pbuf nobody links to can only be the first of a packet. *)
Lemma packet_indeg0 h l p : packet h l -> indeg h p = 0 -> p ∈ addrs l -> p = head_addr l.
Proof.
  destruct l as [|[a b] l]; [by intros _ _ ?%elem_of_nil|].
  intros Hp Hi [->|Hin]%elem_of_cons; [done|]. exfalso.
  revert a b Hp Hin. induction l as [|[a2 b2] l IH]; intros a b Hp Hin; [by apply elem_of_nil in Hin|].
  destruct Hp as (_ & Hb & Hl). apply elem_of_cons in Hin as [->|Hin]; [|by eapply IH].
  pose proof (indeg_pos _ _ _ a2 Hb eq_refl). simpl in Hi. lia.
Qed.

(** ** The discipline *)

Section heap.
Context {S : Type} `{!PbufAlloc S}.
Abbreviation state := (@pstate S).
Abbreviation M := (ST state).

(** [PBUF_RAM] and [PBUF_POOL]: the payload follows the struct. *)
Definition contiguous (b : pbuf) : bool :=
  negb (Z.land (type_internal b) PBUF_TYPE_FLAG_STRUCT_DATA_CONTIGUOUS =? 0).

(** Where the data of a pbuf is: in its own block or in the rest of memory. *)
Definition stored (st : state) (p : Z) (b : pbuf) : Prop :=
  if contiguous b then fits st (p, b)
  else len b = 0 \/ (extent st (payload b) (len b) /\ forall q o, payload b <> Own q o).

Record node_ok (E : gmultiset Z) (st : state) (p : Z) (b : pbuf) : Prop := {
  node_source : is_Some (source_of b);
  node_ref : ref b = indeg (pbufs st) p + Z.of_nat (multiplicity p E);
  node_counted : 0 < ref b < 256;
  node_packet : exists l, packet (pbufs st) ((p, b) :: l) /\ sized ((p, b) :: l);
  node_stored : stored st p b
}.

Record refs_ok (E : gmultiset Z) (st : state) : Prop := {
  heap_alloc : pstate_ok st;
  heap_nodes p b : pbufs st !! p = Some b -> node_ok E st p b;
  heap_held p : p ∈ E -> is_Some (pbufs st !! p)
}.

Lemma heap_nonzero E st p b : refs_ok E st -> pbufs st !! p = Some b -> p <> 0.
Proof.
  intros H Hp. by destruct (node_packet _ _ _ _ (heap_nodes _ _ H p b Hp)) as (l & (? & _) & _).
Qed.
Lemma heap_next E st p b :
  refs_ok E st -> pbufs st !! p = Some b -> next b <> 0 -> is_Some (pbufs st !! next b).
Proof.
  intros H Hp Hn. destruct (node_packet _ _ _ _ (heap_nodes _ _ H p b Hp)) as (l & (_ & Hb & Hl) & _).
  assert (Eb : b = link b l) by congruence. assert (E0 : next b = head_addr l) by (by rewrite Eb).
  rewrite E0 in *.
  destruct l as [|[a c] l]; [done|]. destruct Hl as (_ & Hc & _). by eexists.
Qed.

Lemma sized_same l l' :
  map (fun x => len x.2) l' = map (fun x => len x.2) l -> total l' = total l -> sized l -> sized l'.
Proof.
  intros Hm Ht [Hf Hl]. split; [|by rewrite Ht]. clear -Hm Hf. revert l Hm Hf.
  induction l' as [|x l' IH]; intros [|y l] [=]; intros Hf; [constructor|].
  apply Forall_cons in Hf as [Hy Hf]. constructor; [congruence|by eapply IH].
Qed.

(** Packets of the heap have correct lengths and their data in memory. *)
Lemma linkup_sized l l' : linkup l = linkup l' -> sized l -> sized l'.
Proof.
  revert l'. assert (Hlen : forall l l', linkup l = linkup l' ->
    map (fun x => len x.2) l' = map (fun x => len x.2) l /\ total l' = total l).
  { clear. induction l as [|[a b] l IH]; intros [|[a' b'] l'] [=]; [done|]. simpl.
    destruct (IH l') as [-> ->]; [done|]. split; congruence. }
  intros l' [? ?]%Hlen. by apply sized_same.
Qed.
Lemma refs_sized E st p b l : refs_ok E st -> packet (pbufs st) ((p, b) :: l) -> sized ((p, b) :: l).
Proof.
  intros H Hp. destruct (node_packet _ _ _ _ (heap_nodes _ _ H p _ (proj1 (proj2 Hp)))) as (l0 & Hl0 & Hsz).
  eapply linkup_sized; [|exact Hsz]. rewrite packet_chained in Hp, Hl0.
  by apply (chained_det (pbufs st)).
Qed.
Lemma refs_readable E st l : refs_ok E st -> packet (pbufs st) l -> readable st l.
Proof.
  intros H. induction l as [|[a b] l IH]; [constructor|]. intros (Ha & Hb & Hl). constructor; [|by apply IH].
  pose proof (node_stored _ _ _ _ (heap_nodes _ _ H a _ Hb)) as Hst. unfold stored in Hst.
  change (contiguous (link b l)) with (contiguous b) in Hst. simpl. destruct (contiguous b).
  - right. destruct Hst as (o & bs & Hp & Hbs & Hrng). simpl in *. exists bs. rewrite Hp. split; [done|]. simpl. lia.
  - destruct Hst as [?|[? _]]; [by left|by right].
Qed.
Lemma refs_packet E st p b : refs_ok E st -> pbufs st !! p = Some b ->
  exists l, packet (pbufs st) ((p, b) :: l) /\ b = link b l.
Proof.
  intros H Hp. destruct (node_packet _ _ _ _ (heap_nodes _ _ H p b Hp)) as (l & Hl & _).
  exists l. split; [done|]. destruct Hl as (_ & Hb & _). congruence.
Qed.

Lemma multiplicity_cons p q (E : gmultiset Z) :
  Z.of_nat (multiplicity p ({[+ q +]} ⊎ E))
  = Z.of_nat (multiplicity p E) + (if decide (q = p) then 1 else 0).
Proof.
  rewrite multiplicity_disj_union. case_decide as Hd.
  - subst. rewrite multiplicity_singleton_eq. lia.
  - rewrite multiplicity_singleton_ne by done. lia.
Qed.

(** Memory that a pbuf's data does not use may change. *)
Lemma stored_ext st st' p b :
  stored st p b -> own st' !! p = own st !! p -> ext st' = ext st -> stored st' p b.
Proof.
  unfold stored. destruct (contiguous b).
  - intros Hf Ho _. by eapply fits_own.
  - intros [?|[(bs & Hb & Hr) Hn]] _ He; [by left|right]. split; [|done]. exists bs. split; [|done].
    destruct (payload b); simpl in *; [done|by destruct (Hn p0 ofs)|by rewrite He].
Qed.

(** A change of one pbuf that keeps its length and where it points. *)
Lemma packet_update h a b b' l :
  h !! a = Some b -> next b' = next b -> tot_len b' = tot_len b -> len b' = len b ->
  packet h l -> exists l', packet (<[a := b']> h) l' /\ addrs l' = addrs l /\ total l' = total l /\
    map (fun x => len x.2) l' = map (fun x => len x.2) l.
Proof.
  intros Ha Hn Ht Hl Hp. destruct (decide (a ∈ addrs l)) as [Hin|Hnot].
  - apply list_elem_of_fmap in Hin as ([a' c] & -> & (l1 & l2 & ->)%list_elem_of_split). simpl in *.
    assert (Hc : b = link c l2) by (apply packet_app in Hp as (_ & Hc & _); congruence).
    exists (l1 ++ (a', b') :: l2). assert (Hb' : b' = link b' l2).
    { destruct b'. unfold link, with_tot_len, with_next. subst b. simpl in *. f_equal; congruence. }
    split; [rewrite Hb' at 1; apply (packet_replace _ _ _ c); [done|by subst b]|].
    rewrite !addrs_app, !total_app, !map_app. simpl. subst b. simpl in Hl. by rewrite Hl.
  - exists l. split; [by apply packet_insert|done].
Qed.
(** One pbuf's count changes with the references held to it. *)
Lemma heap_recount E E' st p b r :
  refs_ok E st -> pbufs st !! p = Some b -> (forall q, q <> p -> multiplicity q E' = multiplicity q E) ->
  r = ref b + Z.of_nat (multiplicity p E') - Z.of_nat (multiplicity p E) -> 0 < r < 256 ->
  refs_ok E' (with_pbufs st (<[p := with_ref b r]> (pbufs st))).
Proof.
  intros H Hp HE Er Hr. split.
  - eapply pstate_ok_update; [apply H|done|done].
  - simpl. intros q c Hq.
    assert (Hold : exists c0, pbufs st !! q = Some c0 /\ c = with_ref c0 (ref c) /\ 0 < ref c < 256 /\
      ref c = ref c0 + Z.of_nat (multiplicity q E') - Z.of_nat (multiplicity q E)).
    { apply lookup_insert_Some in Hq as [[<- <-]|[Hne Hq]]; [by exists b|].
      exists c. split; [done|]. split; [by destruct c|]. rewrite HE by done.
      split; [apply (heap_nodes _ _ H q c Hq)|lia]. }
    destruct Hold as (c0 & Hc0 & Ec & Hc & Erc).
    destruct (heap_nodes _ _ H q c0 Hc0) as [Hs Hrf Hct (l & Hl & Hsz) Hst]. split; [|simpl|done| |].
    + rewrite Ec. exact Hs.
    + rewrite (indeg_update _ _ _ _ _ Hp) by done. lia.
    + destruct (packet_update (pbufs st) p b (with_ref b r) _ Hp eq_refl eq_refl eq_refl Hl)
        as (l' & Hl' & Ha & Ht & Hm).
      destruct l' as [|[q' c'] l']; [done|]. unfold addrs in Ha. simpl in Ha. injection Ha as -> Ha.
      exists l'. assert (Hcc : c = link c' l') by (destruct Hl' as (_ & Hc' & _); simpl in *; congruence).
      assert (Hp' : packet (<[p := with_ref b r]> (pbufs st)) ((q, c) :: l')).
      { destruct Hl' as (Hq0 & Hc' & Hrest). split; [done|]. split; [|done]. rewrite Hc', Hcc. done. }
      split; [exact Hp'|]. eapply sized_same; [| |exact Hsz].
      * simpl in *. rewrite Hcc. simpl. congruence.
      * simpl in *. rewrite Hcc. simpl. lia.
    + rewrite Ec. unfold stored in *. change (contiguous (with_ref c0 (ref c))) with (contiguous c0).
      destruct (contiguous c0); [|done]. destruct Hst as (o & bs & Hst). by exists o, bs.
  - intros q Hq. simpl. apply lookup_insert_is_Some'. destruct (decide (p = q)); [by left|right].
    apply (heap_held _ _ H). rewrite elem_of_multiplicity in Hq |- *. by rewrite <-HE.
Qed.

(** One reference given up, others remaining. *)
Lemma heap_deref E st p b :
  refs_ok ({[+ p +]} ⊎ E) st -> pbufs st !! p = Some b -> ref b <> 1 ->
  refs_ok E (with_pbufs st (<[p := with_ref b (ref b - 1)]> (pbufs st))).
Proof.
  intros H Hp Hr. pose proof (node_counted _ _ _ _ (heap_nodes _ _ H p b Hp)).
  eapply heap_recount; [done|done| | |lia].
  - intros q Hq. rewrite multiplicity_disj_union, multiplicity_singleton_ne by done. lia.
  - rewrite multiplicity_cons, decide_True by done. lia.
Qed.

(** The last reference given up: the pbuf is gone and what followed it is held. *)
Lemma heap_drop E st st' p b :
  refs_ok ({[+ p +]} ⊎ E) st -> pbufs st !! p = Some b -> ref b = 1 ->
  pstate_ok st' -> pbufs st' = delete p (pbufs st) -> own st' = delete p (own st) -> ext st' = ext st ->
  refs_ok (if next b =? 0 then E else {[+ next b +]} ⊎ E) st'.
Proof.
  intros H Hp Hr Hok Hpb Hown Hext. destruct (heap_nodes _ _ H p b Hp) as [_ Hrf _ _ _].
  rewrite multiplicity_cons, decide_True in Hrf by done. pose proof (indeg_nonneg (pbufs st) p).
  assert (Hi : indeg (pbufs st) p = 0 /\ multiplicity p E = 0%nat) by lia. destruct Hi as [Hi HE].
  split; [done| |].
  - intros q c Hq. rewrite Hpb in Hq. apply lookup_delete_Some in Hq as [Hne Hq].
    destruct (heap_nodes _ _ H q c Hq) as [Hs Hrq Hct (l & Hl & Hsz) Hst].
    rewrite multiplicity_cons, decide_False in Hrq by done. split; [done| |done| |].
    + rewrite Hpb, (indeg_delete _ _ _ _ Hp). destruct (Z.eqb_spec (next b) 0) as [Hz|Hz].
      * rewrite decide_False; [lia|]. rewrite Hz. intros <-. by apply (heap_nonzero _ _ _ _ H Hq).
      * rewrite multiplicity_cons. repeat case_decide; simplify_eq; lia.
    + exists l. split; [|done]. rewrite Hpb. apply packet_delete; [done|]. intros Hin.
      apply Hne. by apply (packet_indeg0 _ _ _ Hl Hi).
    + eapply stored_ext; [done| |done]. rewrite Hown. by apply lookup_delete_ne.
  - intros q Hq. rewrite Hpb. assert (Hq' : q ∈ E \/ (q = next b /\ next b <> 0)).
    { destruct (Z.eqb_spec (next b) 0); [by left|]. multiset_solver. }
    destruct Hq' as [HqE|[-> Hn]].
    + rewrite lookup_delete_ne; [apply (heap_held _ _ H); multiset_solver|]. intros <-.
      rewrite elem_of_multiplicity in HqE. lia.
    + rewrite lookup_delete_ne; [by eapply heap_next|]. intros Heq.
      pose proof (indeg_pos _ _ _ p Hp (eq_sym Heq)). lia.
Qed.

Context (call_custom_free : Z -> Z -> M unit).

(** What remains after references were given up: some pbufs, unchanged but for
    their counts. *)
Definition remains (st st' : state) : Prop :=
  (forall q c, pbufs st' !! q = Some c ->
     exists c0, pbufs st !! q = Some c0 /\ c = with_ref c0 (ref c) /\ own st' !! q = own st !! q) /\
  ext st' = ext st /\ custom_fn st' = custom_fn st /\ free_ooseq_pending st' = free_ooseq_pending st.

Lemma remains_refl st : remains st st.
Proof. split; [|done]. intros q c Hq. exists c. split; [done|]. by destruct c. Qed.
Lemma remains_trans st1 st2 st3 : remains st1 st2 -> remains st2 st3 -> remains st1 st3.
Proof.
  intros (Ha & ? & ? & ?) (Hb & ? & ? & ?). split; [|repeat split; congruence].
  intros q c Hq. destruct (Hb q c Hq) as (c2 & Hc2 & E2 & Ho2). destruct (Ha q c2 Hc2) as (c1 & Hc1 & E1 & Ho1).
  exists c1. split; [done|]. split; [by rewrite E2, E1|congruence].
Qed.

(** [p] is still there, its data and its place in its packet as they were. *)
Definition spared (p : Z) (st st' : state) : Prop :=
  ext st' = ext st /\ forall b, pbufs st !! p = Some b ->
    exists b', pbufs st' !! p = Some b' /\ b' = with_ref b (ref b') /\ own st' !! p = own st !! p.

Lemma spared_refl p st : spared p st st.
Proof. split; [done|]. intros b Hb. exists b. split; [done|]. by destruct b. Qed.
Lemma spared_trans p st1 st2 st3 : spared p st1 st2 -> spared p st2 st3 -> spared p st1 st3.
Proof.
  intros [He H1] [He' H2]. split; [congruence|]. intros b Hb. destruct (H1 b Hb) as (b' & Hb' & E & Ho).
  destruct (H2 b' Hb') as (b'' & Hb'' & E' & Ho'). exists b''. split; [done|].
  split; [by rewrite E', E|congruence].
Qed.
Lemma spared_keep p st st' :
  pbufs st' !! p = pbufs st !! p -> own st' !! p = own st !! p -> ext st' = ext st -> spared p st st'.
Proof. intros Hp Ho He. split; [done|]. intros b Hb. exists b. split; [congruence|]. by destruct b. Qed.
Lemma remains_spared p st st' : remains st st' -> is_Some (pbufs st' !! p) -> spared p st st'.
Proof.
  intros (H & He & _) [b' Hb']. split; [done|]. intros b Hb. destruct (H p b' Hb') as (c & Hc & E & Ho).
  exists b'. split; [done|]. split; [|done]. congruence.
Qed.

Lemma remains_indeg st st' q : remains st st' -> indeg (pbufs st') q <= indeg (pbufs st) q.
Proof.
  intros (H & _). unfold indeg. apply inj_le. rewrite <-!(size_dom (D := gset Z)).
  apply subseteq_size. intros x. rewrite !elem_of_dom. intros [c Hc].
  apply map_lookup_filter_Some in Hc as [Hc Hn]. destruct (H _ _ Hc) as (c0 & Hc0 & E & _).
  exists c0. apply map_lookup_filter_Some. split; [done|]. simpl in *. by rewrite E in Hn.
Qed.

(** The pbufs of the packets that start in [P]. *)
Definition reach (P : Z -> Prop) (st : state) (x : Z) : Prop :=
  exists l, packet (pbufs st) l /\ P (head_addr l) /\ x ∈ addrs l.

(** A packet whose pbufs are spared is still there. *)
Definition same_pbuf (x y : Z * pbuf) : Prop := y.1 = x.1 /\ exists r, y.2 = with_ref x.2 r.
Lemma same_pbuf_total l l' : Forall2 same_pbuf l l' -> total l' = total l /\ head_addr l' = head_addr l /\ addrs l' = addrs l.
Proof.
  induction 1 as [|[a b] [a' b'] l l' [Ha [r Hb]] _ (IHt & IHh & IHa)]; [done|]. simpl in *. subst. simpl.
  split; [lia|]. split; [done|]. by f_equal.
Qed.
Lemma packet_spared st st' l : packet (pbufs st) l -> (forall x, x ∈ addrs l -> spared x st st') ->
  exists l', packet (pbufs st') l' /\ Forall2 same_pbuf l l'.
Proof.
  induction l as [|[a b] l IH]; intros Hp Hs; [by exists []|]. destruct Hp as (Ha & Hb & Hl).
  destruct IH as (l' & Hl' & H2); [done|intros x Hx; apply Hs; by right|].
  destruct (Hs a) as [_ Hk]; [by left|]. destruct (Hk _ Hb) as (b' & Hb' & Er & _).
  exists ((a, with_ref b (ref b')) :: l'). split; [|constructor; [split; [done|by eexists]|done]].
  split; [done|]. split; [|done]. rewrite Hb', Er. destruct (same_pbuf_total _ _ H2) as (Et & Eh & _).
  unfold link, with_next, with_tot_len, with_ref. simpl. by rewrite Et, Eh.
Qed.

(** The packets that start in [P] are spared and no pbuf has become part of a packet. *)
Definition calm (P : Z -> Prop) (st st' : state) : Prop :=
  ext st' = ext st /\ (forall x, reach P st x -> spared x st st') /\
  forall q, q <> 0 -> indeg (pbufs st') q <= indeg (pbufs st) q.

Lemma calm_refl P st : calm P st st.
Proof. split; [done|]. split; [intros q _; apply spared_refl|done]. Qed.
Lemma calm_packet P st st' l : calm P st st' -> P (head_addr l) -> packet (pbufs st) l ->
  exists l', packet (pbufs st') l' /\ Forall2 same_pbuf l l'.
Proof.
  intros (_ & Hs & _) HP Hl. eapply packet_spared; [done|]. intros x Hx. apply Hs. by exists l.
Qed.
Lemma calm_trans (P : Z -> Prop) st1 st2 st3 : calm P st1 st2 -> calm P st2 st3 -> calm P st1 st3.
Proof.
  intros Hc (He' & Hb & Hj). pose proof Hc as (He & Ha & Hi). split; [congruence|]. split.
  - intros x Hx. eapply spared_trans; [by apply Ha|]. apply Hb. destruct Hx as (l & Hl & HP & Hx).
    destruct (calm_packet _ _ _ _ Hc HP Hl) as (l' & Hl' & H2). destruct (same_pbuf_total _ _ H2) as (_ & Eh & Ea).
    exists l'. by rewrite Eh, Ea.
  - intros q Hq. specialize (Hi q Hq). specialize (Hj q Hq). lia.
Qed.
Lemma calm_weaken (P Q : Z -> Prop) st st' : calm P st st' -> (forall q, Q q -> P q) -> calm Q st st'.
Proof.
  intros (He & Ha & Hi) HQ. split; [done|]. split; [|done]. intros x (l & Hl & Hq & Hx). apply Ha. exists l. auto.
Qed.
Lemma calm_all P st st' : ext st' = ext st -> (forall x, is_Some (pbufs st !! x) -> P x -> spared x st st') ->
  (forall x, reach P st x -> P x) -> (forall q, q <> 0 -> indeg (pbufs st') q <= indeg (pbufs st) q) -> calm P st st'.
Proof.
  intros He Hs HP Hi. split; [done|]. split; [|done]. intros x Hx. apply Hs; [|by apply HP].
  destruct Hx as (l & Hl & _ & Hx). rewrite packet_chained in Hl. rewrite <-linkup_addrs in Hx. by eapply chained_addr.
Qed.
Lemma unchanged_calm P st st' : unchanged st st' -> calm P st st'.
Proof.
  intros (_ & Hp & Ho & He & _). eapply calm_weaken; [apply (calm_all (fun _ => True))|done]; try done.
  - intros q Hq _. split; [done|]. intros b Hb. exists b. rewrite Hp. split; [done|]. split; [by destruct b|]. by apply Ho.
  - intros q _. by rewrite Hp.
Qed.
(** No other packet contains a pbuf nobody links to. *)
Lemma reach_other p st x : indeg (pbufs st) p = 0 -> reach (fun q => q <> p) st x -> x <> p.
Proof. intros Hi (l & Hl & Hne & Hx) ->. by rewrite <-(packet_indeg0 _ _ _ Hl Hi Hx) in Hne. Qed.

Lemma pbuf_free_loop_heap fuel E p n st :
  (p = 0 /\ refs_ok E st) \/ (p <> 0 /\ refs_ok ({[+ p +]} ⊎ E) st) -> (size (pbufs st) < fuel)%nat ->
  exists m st', pbuf_free_loop call_custom_free fuel p n st = Ok (m, st') /\ refs_ok E st' /\ remains st st'.
Proof.
  revert p n st. induction fuel as [|fuel IH]; intros p n st H Hf; [lia|]. cbn [pbuf_free_loop].
  destruct H as [[-> H]|[Hp0 H]]; [by eexists _, st; split; [done|]; split; [done|apply remains_refl]|].
  replace (p =? 0) with false by lia.
  destruct (heap_held _ _ H p) as [b Hb]; [multiset_solver|].
  destruct (heap_nodes _ _ H p b Hb) as [[src Hs] Hrf Hct _ _].
  rewrite (pb_get_bind _ _ _ _ Hb), sassert_bind by lia.
  rewrite (pb_set_bind _ _ _ _ _ Hb), u8_id by (unfold is_u8; lia).
  assert (Hrem : remains st (with_pbufs st (<[p := with_ref b (ref b - 1)]> (pbufs st)))).
  { split; [|done]. simpl. intros q c [[<- <-]|[_ Hq]]%lookup_insert_Some; [by exists b|].
    exists c. split; [done|]. by destruct c. }
  destruct (decide (ref b = 1)) as [E1|E1].
  - replace (ref b - 1 =? 0) with true by lia.
    destruct (pbuf_release_spec call_custom_free p (with_ref b (ref b - 1)) src
      (with_pbufs st (<[p := with_ref b (ref b - 1)]> (pbufs st)))) as (s & Er & Hok);
      [by eapply pstate_ok_update; [apply H| |]|apply lookup_insert_eq|done|].
    rewrite (st_bind_ok _ _ _ _ _ Er). set (st1 := with_own _ _) in *.
    assert (Hst1 : pbufs st1 = delete p (pbufs st)) by (simpl; by rewrite delete_insert_eq).
    assert (Hsz : (size (pbufs st1) < size (pbufs st))%nat).
    { rewrite Hst1, map_size_delete_Some by (by eexists).
      assert (size (pbufs st) <> 0%nat); [|lia]. rewrite map_size_ne_0_lookup. by exists p, b. }
    assert (Hdrop := heap_drop E st st1 p b H Hb E1 Hok Hst1 eq_refl eq_refl).
    destruct (IH (next b) (u8 (n + 1)) st1) as (m & st' & Eq & Hok' & Hr'); [|lia|].
    + destruct (Z.eqb_spec (next b) 0); [by left|by right].
    + exists m, st'. split; [exact Eq|]. split; [done|]. eapply remains_trans; [|exact Hr'].
      split; [|done]. intros q c Hq. rewrite Hst1 in Hq. apply lookup_delete_Some in Hq as [Hne Hq].
      exists c. split; [done|]. split; [by destruct c|]. simpl. by apply lookup_delete_ne.
  - replace (ref b - 1 =? 0) with false by lia. eexists _, _. split; [done|].
    split; [by apply heap_deref|done].
Qed.

(** [pbuf_free] gives up one reference. *)
Lemma pbuf_free_heap E p st :
  refs_ok ({[+ p +]} ⊎ E) st ->
  exists n st', pbuf_free call_custom_free p st = Ok (n, st') /\ refs_ok E st' /\ calm (.∈ E) st st'.
Proof.
  intros H. unfold pbuf_free. destruct (heap_held _ _ H p) as [b Hb]; [multiset_solver|].
  assert (Hp0 := heap_nonzero _ _ _ _ H Hb). replace (p =? 0) with false by lia. rewrite chain_fuel_bind.
  destruct (pbuf_free_loop_heap (Datatypes.S (Datatypes.S (size (pbufs st)))) E p 0 st)
    as (n & st' & Eq & Hok & Hr); [by right|lia|].
  exists n, st'. split; [done|]. split; [done|]. split; [apply Hr|]. split; [|intros q _; by apply remains_indeg].
  intros x (l & Hl & Hin & Hx). apply remains_spared; [done|]. apply (heap_held _ _ Hok) in Hin. clear Eq.
  revert Hl Hin Hx. induction l as [|[a c] l IH]; [by intros _ _ ?%elem_of_nil|].
  intros (Ha & Hc & Hl) [c' Hc'] [->|Hx]%elem_of_cons; [by exists c'|]. apply IH; [done| |done].
  destruct Hr as [Hr _]. destruct (Hr a c' Hc') as (c0 & Hc0 & Ec & _).
  assert (Hn : next c' = head_addr l) by (rewrite Ec; simpl; by assert (c0 = link c l) as -> by congruence).
  rewrite <-Hn. eapply heap_next; [done|done|]. rewrite Hn. destruct l as [|[a2 c2] l]; [by apply elem_of_nil in Hx|apply Hl].
Qed.

(** [pbuf_ref] takes one. *)
Lemma pbuf_ref_heap E p b st :
  refs_ok E st -> pbufs st !! p = Some b -> ref b < 255 ->
  let st' := with_pbufs st (<[p := with_ref b (ref b + 1)]> (pbufs st)) in
  pbuf_ref p st = Ok (tt, st') /\ refs_ok ({[+ p +]} ⊎ E) st'.
Proof.
  intros H Hb Hr st'. destruct (heap_nodes _ _ H p b Hb) as [_ _ Hct (l & Hl & _) _].
  assert (Eb : b = link b l) by (destruct Hl as (_ & Hb' & _); congruence). split.
  - pose proof (pbuf_ref_spec p b l st Hl ltac:(lia)) as Er. by rewrite <-Eb in Er.
  - eapply heap_recount; [done|done| | |lia].
    + intros q Hq. rewrite multiplicity_disj_union, multiplicity_singleton_ne by done. lia.
    + rewrite multiplicity_cons, decide_True by done. lia.
Qed.

(** Memory may be written as long as the objects keep their sizes. *)
Lemma heap_memory E st st' :
  refs_ok E st -> pbufs st' = pbufs st -> alloc st' = alloc st ->
  (forall q bs, own st !! q = Some bs -> exists bs', own st' !! q = Some bs' /\ length bs' = length bs) ->
  (forall q bs, ext st !! q = Some bs -> exists bs', ext st' !! q = Some bs' /\ length bs' = length bs) ->
  refs_ok E st'.
Proof.
  intros H Hp Ha Ho He. split.
  - destruct (heap_alloc _ _ H). unfold pstate_ok. by rewrite Hp, Ha.
  - intros q c Hq. rewrite Hp in Hq. destruct (heap_nodes _ _ H q c Hq) as [Hs Hr Hc Hl Hst].
    split; rewrite ?Hp; try done. unfold stored in *. destruct (contiguous c).
    + destruct Hst as (o & bs & Hpl & Hbs & Hrng). destruct (Ho _ _ Hbs) as (bs' & Hbs' & Hlen).
      exists o, bs'. by rewrite Hlen.
    + destruct Hst as [?|[(bs & Hbs & Hrng) Hn]]; [by left|right]. split; [|done].
      destruct (payload c) as [|p o|p o]; simpl in *; [done|by destruct (Hn p o)|].
      destruct (He _ _ Hbs) as (bs' & Hbs' & Hlen). exists bs'. simpl. by rewrite Hlen.
  - intros q Hq. rewrite Hp. by apply (heap_held _ _ H).
Qed.

Lemma heap_unchanged E st st' : refs_ok E st -> unchanged st st' -> refs_ok E st'.
Proof.
  intros H (Hok & Hp & Ho & He & _). split; [done| |].
  - intros q c Hq. rewrite Hp in Hq. destruct (heap_nodes _ _ H q c Hq) as [Hs Hr Hc Hl Hst].
    split; rewrite ?Hp; try done. eapply stored_ext; [done| |done]. apply Ho. by eexists.
  - intros q Hq. rewrite Hp. by apply (heap_held _ _ H).
Qed.

(** The head of a packet nobody links to may change its extent. *)
Lemma heap_head E st p b b' l :
  refs_ok E st -> packet (pbufs st) ((p, b) :: l) -> indeg (pbufs st) p = 0 ->
  sized ((p, b') :: l) -> source_of b' = source_of b -> ref b' = ref b -> stored st p (link b' l) ->
  refs_ok E (with_pbufs st (<[p := link b' l]> (pbufs st))).
Proof.
  intros H Hl Hi Hsz Hs Hr Hst. assert (Hb : pbufs st !! p = Some (link b l)) by apply Hl. split.
  - eapply pstate_ok_update; [apply H|exact Hb|exact Hs].
  - simpl. intros q c Hq.
    assert (Hind : forall x, indeg (<[p := link b' l]> (pbufs st)) x = indeg (pbufs st) x)
      by (intros x; by apply (indeg_update _ _ _ _ _ Hb)).
    apply lookup_insert_Some in Hq as [[<- <-]|[Hne Hq]].
    + destruct (heap_nodes _ _ H p _ Hb) as [Hs0 Hr0 Hc0 _ _]. split; [|simpl|simpl|simpl|done].
      * by change (source_of (link b' l)) with (source_of b'); rewrite Hs.
      * rewrite Hind, Hr. exact Hr0.
      * rewrite Hr. exact Hc0.
      * exists l. split; [apply (packet_head _ _ b (link b' l)); exact Hl|].
        destruct Hsz as [[? ?]%Forall_cons Ht]. split; [by constructor|exact Ht].
    + destruct (heap_nodes _ _ H q c Hq) as [Hs0 Hr0 Hc0 (l0 & Hl0 & Hsz0) Hst0].
      split; cbn [pbufs with_pbufs]; [done|by rewrite Hind|done| |done]. exists l0. split; [|done].
      apply packet_insert; [done|]. intros Hin. apply Hne. by apply (packet_indeg0 _ _ _ Hl0 Hi).
  - intros q Hq. simpl. apply lookup_insert_is_Some'. right. by apply (heap_held _ _ H).
Qed.

Lemma pbuf_add_header_heap E p b n st :
  refs_ok E st -> pbufs st !! p = Some b -> indeg (pbufs st) p = 0 -> 0 < n ->
  (pbuf_add_header p n st = Ok (true, st) /\
   forall o, contiguous b = true -> payload b = Own p o -> o < n \/ 65535 < tot_len b + n) \/
  exists st' b', pbuf_add_header p n st = Ok (false, st') /\ refs_ok E st' /\ contiguous b = true /\
    st' = with_pbufs st (<[p := b']> (pbufs st)) /\ payload b' = ptr_add (payload b) (- n) /\
    len b' = len b + n /\ tot_len b' = tot_len b + n /\ next b' = next b /\ fits st' (p, b') /\ ref b' = ref b /\
    type_internal b' = type_internal b.
Proof.
  intros H Hb Hi Hn. destruct (heap_nodes _ _ H p b Hb) as [_ _ _ (l & Hl & Hsz) Hst].
  assert (Eb : b = link b l) by (destruct Hl as (_ & Hb' & _); congruence).
  unfold pbuf_add_header. rewrite (pbuf_add_header_impl_spec p b l n false st Hl Hsz Hn).
  assert (Et : tot_len b = len b + total l) by (by rewrite Eb).
  unfold header_room. fold (contiguous b).
  destruct (_ && _) eqn:Hroom; [right|left].
  2: { split; [done|]. intros o Hc Ho. rewrite Hc, Ho in Hroom. simpl in Hroom.
       pose proof (total_nonneg _ (proj1 Hsz)) as Htn. simpl in Htn. lia. }
  unfold stored in Hst.
  destruct (contiguous b) eqn:Hct; [|lia].
  destruct Hst as (o & bs & Hpl & Hbs & Ho & Hl0 & Hlen). simpl in Hpl, Hbs, Hl0, Hlen.
  rewrite Hpl in Hroom. simpl in Hroom.
  assert (Hfits : fits st (p, link (shift b (- n)) l)).
  { exists (o + - n), bs. simpl. rewrite Hpl. split; [done|]. split; [done|]. lia. }
  eexists _, (link (shift b (- n)) l). split; [done|]. split.
  - apply (heap_head E st p b); try done.
    + split; [constructor; [simpl; lia|apply sized_cons in Hsz as (Hs & _); apply Hs]|simpl; lia].
    + unfold stored. change (contiguous (link (shift b (- n)) l)) with (contiguous b). by rewrite Hct.
  - assert (En : next b = head_addr l) by (by rewrite Eb).
    repeat (split; [done|]). simpl. split; [lia|]. split; [lia|].
    split; [done|]. split; [|done]. destruct Hfits as (o' & bs' & Hf). by exists o', bs'.
Qed.

Lemma pbuf_remove_header_heap E p b n st :
  refs_ok E st -> pbufs st !! p = Some b -> indeg (pbufs st) p = 0 -> 0 < n ->
  (len b < n /\ pbuf_remove_header p n st = Ok (true, st)) \/
  exists st' b', n <= len b /\ pbuf_remove_header p n st = Ok (false, st') /\ refs_ok E st' /\
    st' = with_pbufs st (<[p := b']> (pbufs st)) /\ payload b' = ptr_add (payload b) n /\
    len b' = len b - n /\ tot_len b' = tot_len b - n /\ next b' = next b /\ ref b' = ref b /\
    type_internal b' = type_internal b.
Proof.
  intros H Hb Hi Hn. destruct (heap_nodes _ _ H p b Hb) as [_ _ _ (l & Hl & Hsz) Hst].
  assert (Eb : b = link b l) by (destruct Hl as (_ & Hb' & _); congruence).
  rewrite (pbuf_remove_header_spec p b l n st Hl Hsz Hn).
  destruct (Z.leb_spec n (len b)) as [Hle|Hlt]; [right|left; split; [lia|done]].
  apply sized_cons in Hsz as Hs'. destruct Hs' as (Hs' & Hb0 & Ht).
  eexists _, (link (shift b n) l). split; [done|]. split; [done|]. split.
  - apply (heap_head E st p b); try done.
    + split; [constructor; [simpl; lia|apply Hs']|simpl; lia].
    + unfold stored in *. change (contiguous (link (shift b n) l)) with (contiguous b).
      destruct (contiguous b).
      * destruct Hst as (o & bs & Hpl & Hbs & Hrng). simpl in Hpl, Hbs, Hrng.
        exists (o + n), bs. simpl. rewrite Hpl. split; [done|]. split; [done|]. lia.
      * destruct Hst as [Hz|[(bs & Hbs & Hrng) Hno]]; [lia|]. right. split.
        -- exists bs. simpl. rewrite mem_obj_add, ptr_ofs_add. split; [done|]. lia.
        -- intros q o. simpl. destruct (payload b) as [|q' o'|]; simpl; try done. by destruct (Hno q' o').
  - assert (Et : tot_len b = len b + total l) by (by rewrite Eb).
    assert (En : next b = head_addr l) by (by rewrite Eb).
    repeat (split; [done|]). simpl. split; [lia|done].
Qed.

(** Nobody links to or holds a pbuf that does not exist. *)
Lemma heap_absent E st q : refs_ok E st -> pbufs st !! q = None -> q <> 0 ->
  indeg (pbufs st) q = 0 /\ multiplicity q E = 0%nat.
Proof.
  intros H Hq Hq0. split.
  - unfold indeg. assert (filter (fun x => next x.2 = q) (pbufs st) = ∅) as ->; [|by rewrite map_size_empty].
    apply map_empty. intros p. apply map_lookup_filter_None_2. right. intros b Hp Hn. simpl in Hn.
    destruct (heap_next _ _ _ _ H Hp) as [c Hc]; congruence.
  - destruct (multiplicity q E) eqn:Em; [done|]. destruct (heap_held _ _ H q) as [c Hc]; [|congruence].
    rewrite elem_of_multiplicity. lia.
Qed.

(** A new pbuf is held by whoever allocated it. *)
Lemma heap_alloc_one E st st' src q b :
  refs_ok E st -> made st st' src [(q, b)] -> packet (pbufs st') [(q, b)] -> sized [(q, b)] ->
  fits st' (q, b) -> contiguous b = true ->
  pbufs st' = <[q := link b []]> (pbufs st) /\ refs_ok ({[+ q +]} ⊎ E) st'.
Proof.
  intros H (Hok & Hall & Hout & Hown & He & _) (Hq0 & Hq & _) Hsz Hfit Hct.
  apply Forall_singleton in Hall as (Hr & Hs & Hnone & Hl). simpl in Hr, Hs, Hnone, Hl.
  assert (Hpb : pbufs st' = <[q := link b []]> (pbufs st)).
  { apply map_eq. intros x. destruct (decide (q = x)) as [<-|Hx]; [by rewrite lookup_insert_eq|].
    rewrite lookup_insert_ne by done. apply Hout. intros [->|?%elem_of_nil]%elem_of_cons; [|done]. by apply Hx. }
  destruct (heap_absent E st q H Hnone Hq0) as [Hi HE]. split; [done|]. split; [done| |].
  - intros p c Hp. assert (Hind : indeg (pbufs st') p = indeg (pbufs st) p + if decide (0 = p) then 1 else 0).
    { rewrite Hpb. by apply (indeg_insert_new (pbufs st) q (link b []) p). }
    rewrite Hpb in Hp. apply lookup_insert_Some in Hp as [[<- <-]|[Hne Hp]].
    + rewrite decide_False in Hind by done. split.
      * by exists src.
      * rewrite Hind, multiplicity_cons, decide_True, Hi, HE by done. simpl. lia.
      * simpl. lia.
      * exists []. split; [|by destruct Hsz as [[? ?]%Forall_cons Ht]; split; [constructor|]].
        split; [done|]. split; [|done]. by rewrite Hq.
      * unfold stored. change (contiguous (link b [])) with (contiguous b). rewrite Hct.
        destruct Hfit as (o & bs & Hf). by exists o, bs.
    + destruct (heap_nodes _ _ H p c Hp) as [Hs0 Hr0 Hc0 (l0 & Hl0 & Hsz0) Hst0].
      rewrite decide_False in Hind by (intros <-; by apply (heap_nonzero _ _ _ _ H Hp)). split; [done| |done| |].
      * rewrite Hind, multiplicity_cons, decide_False by done. lia.
      * exists l0. split; [|done]. rewrite Hpb. apply packet_insert; [done|]. intros Hin.
        rewrite packet_chained in Hl0. rewrite <-linkup_addrs in Hin.
        destruct (chained_addr _ _ _ Hl0 Hin). congruence.
      * eapply stored_ext; [done| |done]. apply Hown. by eexists.
  - intros p Hp. rewrite Hpb. apply lookup_insert_is_Some'.
    destruct (decide (q = p)) as [|Hne]; [by left|right]. apply (heap_held _ _ H).
    rewrite elem_of_multiplicity in Hp |- *.
    by rewrite multiplicity_disj_union, multiplicity_singleton_ne in Hp.
Qed.

(** The rest of a packet does not use the memory of its head. *)
Lemma refs_rest_data E st p b l bs :
  refs_ok E st -> packet (pbufs st) ((p, b) :: l) ->
  data (with_own st (<[p := bs]> (own st))) l = data st l.
Proof.
  intros H Hp. assert (Hnd := packet_NoDup _ _ Hp). apply NoDup_cons in Hnd as [Hpl _].
  destruct Hp as (_ & _ & Hl). revert Hl Hpl. induction l as [|[a c] l IH]; [done|].
  intros (_ & Hc & Hl) [Hne Hpl]%not_elem_of_cons. rewrite !data_cons, IH by done. f_equal.
  pose proof (node_stored _ _ _ _ (heap_nodes _ _ H a _ Hc)) as Hst. unfold stored in Hst.
  change (contiguous (link c l)) with (contiguous c) in Hst. destruct (contiguous c).
  - apply with_own_bytes. destruct Hst as (o' & bs' & Hpl' & _). simpl in Hpl', Hne. rewrite Hpl'. simpl. congruence.
  - destruct Hst as [Hz|[_ Hno]]; [|apply with_own_bytes, Hno]. simpl in Hz.
    unfold pbuf_bytes. by rewrite Hz, !slice_0.
Qed.

Lemma insert_new_calm P st st' p b :
  pbufs st !! p = None -> pbufs st' = <[p := b]> (pbufs st) -> next b = 0 ->
  (forall x, is_Some (pbufs st !! x) -> own st' !! x = own st !! x) -> ext st' = ext st -> calm P st st'.
Proof.
  intros Hp Hpb Hn Ho He. eapply calm_weaken; [apply (calm_all (fun _ => True))|done]; try done.
  - intros q Hq _. split; [done|]. intros c Hc. exists c. rewrite Hpb, lookup_insert_ne by congruence.
    split; [done|]. split; [by destruct c|]. by apply Ho.
  - intros q Hq. rewrite Hpb, indeg_insert_new, decide_False by congruence. lia.
Qed.

Context (garbage : Z -> Z).

Lemma ram_contiguous b : type_internal b = u8 PBUF_RAM -> contiguous b = true.
Proof. intros Hty. unfold contiguous. by rewrite Hty. Qed.
Lemma pbuf_alloc_ram_heap E layer n st :
  refs_ok E st -> is_u16 n ->
  exists p st', pbuf_alloc call_custom_free garbage layer n PBUF_RAM st = Ok (p, st') /\
    ((p = 0 /\ refs_ok E st' /\ unchanged st st') \/
     exists b, refs_ok ({[+ p +]} ⊎ E) st' /\ pbufs st !! p = None /\ pbufs st' = <[p := b]> (pbufs st) /\
       payload b = Own p (layer_offset layer) /\ len b = n /\ tot_len b = n /\ next b = 0 /\
       fits st' (p, b) /\ type_internal b = u8 PBUF_RAM /\ ref b = 1 /\
       calm (fun _ => True) st st').
Proof.
  intros H Hn. destruct (pbuf_alloc_ram_single call_custom_free garbage layer n st (heap_alloc _ _ H) Hn)
    as (p & st' & E0 & [[-> Hun]|(src & l & Hh & _ & Hm & Hp & Ht & (Hf & _ & Hpl) & q & b & -> & Hty)]);
    rewrite E0; eexists _, st'; (split; [done|]); [left|right].
  - split; [done|]. split; [by eapply heap_unchanged|done].
  - simpl in Hh. subst p. specialize (Hpl q b [] eq_refl). rewrite Forall_singleton in Hf.
    assert (Hfit := Hf). destruct Hfit as (o & bs & _ & _ & _ & Hlb & _). simpl in Hlb, Ht. unfold is_u16 in Hn.
    assert (Hct := ram_contiguous _ Hty).
    destruct (heap_alloc_one E st st' src q b) as [Hpb Hok]; try done.
    { split; [by constructor|simpl; lia]. }
    exists (link b []). destruct Hm as (_ & Hall & _ & Hown & He & _).
    apply Forall_singleton in Hall as (Hr & _ & Hnone & _). simpl in *.
    split; [done|]. split; [done|]. split; [done|]. split; [done|]. split; [lia|]. split; [lia|].
    split; [done|]. split; [destruct Hf as (o' & bs' & Hf); by exists o', bs'|].
    split; [done|]. split; [done|]. by eapply insert_new_calm.
Qed.

(** The data of a pbuf is in its own block or in no pbuf's. *)
Lemma refs_home E st p b :
  refs_ok E st -> pbufs st !! p = Some b -> 0 < len b ->
  (exists o, payload b = Own p o) \/ (forall q o, payload b <> Own q o).
Proof.
  intros H Hb Hl. destruct (heap_nodes _ _ H p b Hb) as [_ _ _ _ Hs]. unfold stored in Hs.
  destruct (contiguous b); [left|right].
  - destruct Hs as (ofs & bs & Hp & _). by exists ofs.
  - by destruct Hs as [?|[_ ?]]; [lia|].
Qed.
Lemma mem_obj_spared E (st st' : state) p b :
  refs_ok E st -> pbufs st !! p = Some b -> 0 < len b -> own st' !! p = own st !! p -> ext st' = ext st ->
  mem_obj st' (payload b) = mem_obj st (payload b).
Proof.
  intros H Hb Hl Ho He. destruct (refs_home E st p b H Hb Hl) as [[o ->]|Hn]; [done|].
  destruct (payload b) as [|q o|q o]; [done|by destruct (Hn q o)|]. simpl. by rewrite He.
Qed.

Lemma slice_nonpos o n (bs : list Z) : n <= 0 -> slice o n bs = [].
Proof. intros Hn. unfold slice. by replace (Z.to_nat n) with 0%nat by lia. Qed.

(** A packet that is spared keeps its data. *)
Lemma spared_data E st st' l l' :
  refs_ok E st -> ext st' = ext st -> (forall x, x ∈ addrs l -> spared x st st') -> packet (pbufs st) l ->
  Forall2 same_pbuf l l' -> data st' l' = data st l.
Proof.
  intros H He Hsp Hl H2. revert Hl Hsp. induction H2 as [|[a b] [a' b'] l l' [Ha [r Hb]] _ IH]; [done|].
  simpl in Ha, Hb. subst. intros (Ha & Hb & Hl) Hsp. rewrite !data_cons, IH; [|done|intros x Hx; apply Hsp; by right].
  f_equal. unfold pbuf_bytes. change (payload (with_ref b r)) with (payload b). change (len (with_ref b r)) with (len b).
  destruct (Z.leb_spec (len b) 0); [by rewrite !slice_nonpos by done|].
  change (payload b) with (payload (link b l)). rewrite (mem_obj_spared E st st' a (link b l)); try done.
  destruct (Hsp a) as [_ Ho]; [by left|]. by destruct (Ho _ Hb) as (? & _ & _ & ?).
Qed.
Lemma calm_data E P st st' l l' :
  refs_ok E st -> calm P st st' -> P (head_addr l) -> packet (pbufs st) l -> Forall2 same_pbuf l l' ->
  data st' l' = data st l.
Proof.
  intros H (He & Hs & _) HP Hl. eapply spared_data; [done|done| |done]. intros x Hx. apply Hs. by exists l.
Qed.

(** The data of one pbuf is filled in. *)
Lemma heap_filled E st st' q b :
  refs_ok E st -> pbufs st !! q = Some b -> contiguous b = true -> filled st st' [(q, b)] -> refs_ok E st'.
Proof.
  intros H Hb Hc (Hp & He & _ & Ha & _ & Ho & Hf & _). rewrite Forall_singleton in Hf. split.
  - destruct (heap_alloc _ _ H). unfold pstate_ok. by rewrite Hp, Ha.
  - intros x c Hx. rewrite Hp in Hx. destruct (heap_nodes _ _ H x c Hx) as [Hs Hr Hct Hl Hst].
    split; rewrite ?Hp; try done. destruct (decide (x = q)) as [->|Hne].
    + assert (c = b) as -> by congruence. unfold stored. by rewrite Hc.
    + eapply stored_ext; [done| |done]. apply Ho. simpl. by intros ->%list_elem_of_singleton.
  - intros x Hx. rewrite Hp. by apply (heap_held _ _ H).
Qed.

Lemma packet_lookup h l x : packet h l -> x ∈ l ->
  exists c, h !! x.1 = Some c /\ payload c = payload x.2 /\ len c = len x.2.
Proof.
  induction l as [|[a b] l IH]; [by intros _ ?%elem_of_nil|]. intros (_ & Hb & Hl) [->|Hin]%elem_of_cons; [|by apply IH].
  by exists (link b l).
Qed.

(** A copy in one pbuf. *)
Lemma pbuf_clone_heap E layer p b l st :
  refs_ok E st -> packet (pbufs st) ((p, b) :: l) -> solid ((p, b) :: l) ->
  exists q st', pbuf_clone call_custom_free garbage layer PBUF_RAM p st = Ok (q, st') /\
    ((q = 0 /\ refs_ok E st' /\ unchanged st st') \/
     exists c, refs_ok ({[+ q +]} ⊎ E) st' /\ pbufs st !! q = None /\ pbufs st' = <[q := c]> (pbufs st) /\
       next c = 0 /\ data st' [(q, c)] = data st ((p, b) :: l) /\ calm (fun _ => True) st st').
Proof.
  intros H Hp Hso. assert (Hb : pbufs st !! p = Some (link b l)) by apply Hp.
  pose proof (refs_sized _ _ _ _ _ H Hp) as Hsz. pose proof (refs_readable _ _ _ H Hp) as Hrd.
  assert (Hpos : 0 < total ((p, b) :: l) < 65536).
  { split; [|apply Hsz]. apply Forall_cons in Hso as [? Hs]. apply solid_len, total_nonneg in Hs. simpl in *. lia. }
  set (lf := (p, b) :: l) in *. unfold pbuf_clone. rewrite (pb_get_bind _ _ _ _ Hb).
  change (tot_len (link b l)) with (total lf).
  destruct (pbuf_alloc_ram_heap E layer (total lf) st H ltac:(unfold is_u16; lia))
    as (q & st1 & E1 & [(-> & Hok & Hun)|
      (c & Hok & Hnone & Hpb & Hpl & Hl & Ht & Hnx & Hfit & Hct%ram_contiguous & Hr & Hcalm)]); rewrite (st_bind_ok _ _ _ _ _ E1).
  { exists 0, st1. split; [done|]. by left. }
  assert (Hc : pbufs st1 !! q = Some c) by (rewrite Hpb; apply lookup_insert_eq).
  assert (Hq0 := heap_nonzero _ _ _ _ Hok Hc). replace (q =? 0) with false by lia.
  assert (Hcl : link c [] = c) by (unfold link, with_next, with_tot_len; destruct c; simpl in *; f_equal; lia).
  assert (Hin : forall x, x ∈ lf -> x.1 <> q /\ exists c', pbufs st !! x.1 = Some c' /\ payload c' = payload x.2 /\ len c' = len x.2).
  { intros x Hx. destruct (packet_lookup _ _ _ Hp Hx) as (c' & Hc' & ? & ?). split; [congruence|by exists c']. }
  assert (Hpq : packet (pbufs st1) [(q, c)]) by (split; [done|]; split; [by rewrite Hcl|done]).
  assert (Hpf : packet (pbufs st1) lf).
  { eapply packet_ext; [exact Hp|]. intros x (y & -> & Hy)%list_elem_of_fmap. rewrite Hpb. apply lookup_insert_ne.
    apply not_eq_sym. by apply Hin. }
  assert (Hobj : Forall (fun x => mem_obj st1 (payload x.2) = mem_obj st (payload x.2)) lf).
  { apply Forall_forall. intros x Hx. destruct (Hin x Hx) as (Hne & c' & Hc' & <- & Hlc). destruct Hcalm as (_ & Hsp & _).
    destruct (Hsp x.1) as [He Hs]; [exists lf; split; [done|]; split; [done|]; by apply list_elem_of_fmap_2|]. destruct (Hs c' Hc') as (b' & _ & _ & Ho).
    eapply mem_obj_spared; try done. rewrite Hlc. unfold solid in Hso. rewrite Forall_forall in Hso. by apply Hso. }
  destruct (same_obj_data st st1 lf Hobj) as [Hd1 Hr1].
  destruct (pbuf_copy_spec [(q, c)] lf st1) as (st2 & E2 & Hfl & Hdat); try done; try (by auto).
  - constructor; [simpl; lia|constructor].
  - split; [constructor; [simpl; lia|constructor]|simpl; lia].
  - apply Forall_forall. intros x Hx. constructor; [|constructor]. destruct (Hin x Hx) as (Hne & c' & Hc' & <- & Hlc).
    assert (0 < len c') by (rewrite Hlc; unfold solid in Hso; rewrite Forall_forall in Hso; by apply Hso).
    simpl. rewrite Hpl. destruct (refs_home E st x.1 c' H Hc') as [[o ->]|Hn]; [done|simpl; lia|].
    destruct (payload c') as [|a o|]; [done|by destruct (Hn a o)|done].
  - change (total [(q, c)]) with (len c + 0). lia.
  - cbn [head_addr] in E2. rewrite (st_bind_ok _ _ _ _ _ E2), sassert_bind by done. exists q, st2. split; [done|]. right.
    exists c. pose proof Hfl as (Hp2 & He2 & _ & _ & _ & Ho2 & _). rewrite Hp2. split; [by eapply heap_filled|].
    split; [done|]. split; [done|]. split; [done|]. split.
    + rewrite Hdat, Hd1. apply splice_all.
      pose proof (data_length _ _ Hrd (proj1 Hsz)). assert (Hr' : readable st1 [(q, c)]) by (by apply fits_readable, Forall_singleton).
      pose proof (data_length st1 [(q, c)] Hr' ltac:(constructor; [simpl; lia|constructor])) as Hdl.
      change (total [(q, c)]) with (len c + 0) in Hdl. lia.
    + eapply insert_new_calm; [done|by rewrite Hp2|done| |by rewrite He2; apply Hcalm].
      intros x Hx. rewrite Ho2; [|simpl; intros ->%list_elem_of_singleton; destruct Hx; congruence].
      destruct Hx as [d Hd]. destruct (refs_packet _ _ _ _ H Hd) as (ld & Hld & _). destruct Hcalm as (_ & Hsp & _).
      destruct (Hsp x) as [_ Hs]; [by exists ((x, d) :: ld); split; [|split; [|by left]]|]. by destruct (Hs d Hd) as (? & _ & _ & ?).
Qed.

End heap.
