(* ===== verification/PbufSole.v ===== *)
(** * Packets with one holder

    A packet is [sole] when nobody but its own pbufs refers to any pbuf of it
    behind the first.  Such packets can be shortened ([pbuf_realloc]), joined
    ([pbuf_cat]) and written without anybody else noticing. *)

From stdpp Require Import gmultiset.
From S2P Require Import Prelude Memp Mem Pbuf PbufData PbufHeap.

Set Default Proof Using "Type".

(** ** References into a packet *)

(** The store without the pbufs of [l]. *)
Definition without (l : list Z) (h : gmap Z pbuf) : gmap Z pbuf := foldr delete h l.

Lemma without_lookup l h x : without l h !! x = if decide (x ∈ l) then None else h !! x.
Proof.
  induction l as [|a l IH]; [by rewrite decide_False by (by intros ?%elem_of_nil)|].
  unfold without in *. cbn [foldr]. destruct (decide (x = a)) as [->|Hne].
  - by rewrite lookup_delete_eq, decide_True by (by left).
  - rewrite lookup_delete_ne by done. rewrite IH.
    destruct (decide (x ∈ l)); [rewrite decide_True by (by right)|rewrite decide_False by (by intros [?|?]%elem_of_cons)]; done.
Qed.

(** References to [q] come from within the packet or from outside. *)
Lemma indeg_packet h l q : packet h l -> q <> 0 ->
  indeg h q = indeg (without (addrs l) h) q + (if decide (q ∈ tail (addrs l)) then 1 else 0).
Proof.
  intros Hp Hq. assert (Hnd := packet_NoDup _ _ Hp). induction l as [|[a b] l IH]; simpl; [lia|].
  destruct Hp as (Ha & Hb & Hl). unfold addrs in Hnd. simpl in Hnd. apply NoDup_cons in Hnd as [Hna Hnd].
  specialize (IH Hl Hnd). fold (addrs l) in *.
  assert (Hb' : without (addrs l) h !! a = Some (link b l)) by (by rewrite without_lookup, decide_False).
  rewrite (indeg_delete _ _ _ q Hb'), IH. change (next (link b l)) with (head_addr l).
  destruct l as [|[a2 b2] l]; simpl in *.
  - rewrite !decide_False; [lia|by intros <-|by intros ?%elem_of_nil..].
  - apply NoDup_cons in Hnd as [Hn2 _]. destruct (decide (a2 = q)) as [->|Hne].
    + rewrite (decide_False (P := q ∈ _)) by done. rewrite decide_True by (by left). lia.
    + change (map fst l) with (addrs l) in *. destruct (decide (q ∈ addrs l)) as [Hi|Hi].
      * rewrite (decide_True (P := q ∈ a2 :: addrs l)) by (by right). lia.
      * rewrite (decide_False (P := q ∈ a2 :: addrs l)) by (intros [?|?]%elem_of_cons; congruence). lia.
Qed.

(** Nobody outside refers to the pbufs behind the first, nor links to the first. *)
Definition sole (E : gmultiset Z) (h : gmap Z pbuf) (l : list (Z * pbuf)) : Prop :=
  packet h l /\ (forall x, x ∈ addrs l -> indeg (without (addrs l) h) x = 0) /\
  (forall x, x ∈ tail (addrs l) -> multiplicity x E = 0%nat).

Lemma indeg0_next h q a b : indeg h q = 0 -> h !! a = Some b -> next b <> q.
Proof. intros Hi Ha Hn. pose proof (indeg_pos _ _ _ _ Ha Hn). lia. Qed.

(** Packets that start elsewhere have no pbuf in common with it. *)
Lemma sole_disjoint E h l m : sole E h l -> packet h m -> m <> [] -> (head_addr m ∉ addrs l) ->
  forall x, x ∈ addrs m -> x ∉ addrs l.
Proof.
  intros (Hp & Hi & _) Hm Hne Hh. induction m as [|[a b] m IH]; [done|]. intros x [->|Hx]%elem_of_cons; [done|].
  destruct Hm as (Ha & Hb & Hm). simpl in Hh. destruct m as [|[a2 b2] m]; [by apply elem_of_nil in Hx|].
  apply IH; [done|done| |done]. simpl. intros Hin. specialize (Hi a2 Hin).
  eapply (indeg0_next _ _ a (link b ((a2, b2) :: m)) Hi); [|done]. by rewrite without_lookup, decide_False.
Qed.

(** ** Changes within a part of the store *)

Lemma without_ext A h h' : (forall x, x ∉ A -> h' !! x = h !! x) -> without A h' = without A h.
Proof. intros H. apply map_eq. intros x. rewrite !without_lookup. case_decide; auto. Qed.
(** Links that stay within [A] do not count for the others. *)
Lemma indeg_without A h q :
  (forall x b, x ∈ A -> h !! x = Some b -> next b <> q) -> indeg (without A h) q = indeg h q.
Proof.
  intros H. unfold indeg. f_equal. f_equal. apply map_eq. intros x. apply option_eq. intros b.
  rewrite !map_lookup_filter_Some, without_lookup. simpl. case_decide; [|done]. split; [by intros [? _]|].
  intros [Hb Hn]. by destruct (H x b).
Qed.
Lemma indeg_without_le A h q : indeg (without A h) q <= indeg h q.
Proof.
  unfold indeg. apply inj_le. rewrite <-!(size_dom (D := gset Z)). apply subseteq_size. intros x.
  rewrite !elem_of_dom. intros [b Hb]. apply map_lookup_filter_Some in Hb as [Hb Hn]. rewrite without_lookup in Hb.
  exists b. apply map_lookup_filter_Some. split; [by destruct (decide (x ∈ A))|done].
Qed.
Lemma indeg_without_app A B h q : indeg (without (A ++ B) h) q <= indeg (without B h) q.
Proof.
  replace (without (A ++ B) h) with (without A (without B h)) by (unfold without; by rewrite foldr_app).
  apply indeg_without_le.
Qed.

(** The pbufs [A] link to each other only, and nobody else links to them. *)
Definition closed (h : gmap Z pbuf) (A : list Z) : Prop :=
  (forall x b, x ∈ A -> h !! x = Some b -> next b = 0 \/ next b ∈ A) /\
  (forall x, x ∈ A -> indeg (without A h) x = 0).

Lemma closed_disjoint h A m : closed h A -> packet h m -> m <> [] -> (head_addr m ∉ A) ->
  forall x, x ∈ addrs m -> x ∉ A.
Proof.
  intros (_ & Hi) Hm Hne Hh. induction m as [|[a b] m IH]; [done|]. intros x [->|Hx]%elem_of_cons; [done|].
  destruct Hm as (Ha & Hb & Hm). simpl in Hh. destruct m as [|[a2 b2] m]; [by apply elem_of_nil in Hx|].
  apply IH; [done|done| |done]. simpl. intros Hin. specialize (Hi a2 Hin).
  eapply (indeg0_next _ _ a (link b ((a2, b2) :: m)) Hi); [|done]. by rewrite without_lookup, decide_False.
Qed.
Lemma packet_closed E h l : sole E h l -> closed h (addrs l).
Proof.
  intros (Hp & Hi & _). split; [|done]. clear Hi. induction l as [|[a b] l IH]; [by intros x b ?%elem_of_nil|].
  destruct Hp as (Ha & Hb & Hl). intros x c [->|Hx]%elem_of_cons Hc.
  - simpl in Hc. assert (c = link b l) as -> by congruence. destruct l as [|[a2 b2] l]; [by left|right]. right. by left.
  - destruct (IH Hl x c Hx Hc) as [?|?]; [by left|right]. by right.
Qed.
Lemma closed_app h A B : closed h A -> closed h B -> closed h (A ++ B).
Proof.
  intros [Ha Hia] [Hb Hib]. split.
  - intros x b [Hx|Hx]%elem_of_app Hl; [destruct (Ha x b Hx Hl)|destruct (Hb x b Hx Hl)]; try (by left);
      right; apply elem_of_app; auto.
  - intros x Hx. pose proof (indeg_nonneg (without (A ++ B) h) x). apply elem_of_app in Hx as [Hx|Hx].
    + assert (E : without (A ++ B) h = without (B ++ A) h).
      { apply map_eq. intros y. rewrite !without_lookup.
        destruct (decide (y ∈ A ++ B)) as [H1|H1], (decide (y ∈ B ++ A)) as [H2|H2]; try done;
          rewrite elem_of_app in H1, H2; tauto. }
      rewrite E in *. pose proof (indeg_without_app B A h x). specialize (Hia x Hx). lia.
    + pose proof (indeg_without_app A B h x). specialize (Hib x Hx). lia.
Qed.

Section sole.
Context {S : Type} `{!PbufAlloc S}.
Abbreviation state := (@pstate S).

(** Inside [A] the pbufs are arranged anew. *)
Lemma heap_zone E E' (st st' : state) A :
  refs_ok E st -> closed (pbufs st) A -> pstate_ok st' ->
  (forall x, x ∉ A -> pbufs st' !! x = pbufs st !! x) ->
  (forall x, x ∉ A -> own st' !! x = own st !! x) -> ext st' = ext st ->
  (forall x, x ∉ A -> multiplicity x E' = multiplicity x E) ->
  (forall x b, x ∈ A -> pbufs st' !! x = Some b -> (next b = 0 \/ next b ∈ A) /\ node_ok E' st' x b) ->
  (forall x, x ∈ A -> x ∈ E' -> is_Some (pbufs st' !! x)) ->
  refs_ok E' st'.
Proof.
  intros H Hcl Hok Hout Hown Hext HE Hin Hheld. split; [done| |].
  - intros x b Hb. destruct (decide (x ∈ A)) as [Hx|Hx]; [by apply (Hin x b Hx)|].
    rewrite Hout in Hb by done. destruct (heap_nodes _ _ H x b Hb) as [Hs Hr Hc (l & Hl & Hsz) Hst].
    assert (Hx0 := heap_nonzero _ _ _ _ H Hb). split; [done| |done| |].
    + rewrite HE, Hr by done. f_equal. destruct Hcl as [Hn _].
      rewrite <-(indeg_without A (pbufs st)), <-(indeg_without A (pbufs st')), (without_ext A (pbufs st) (pbufs st')); try done.
      * intros y c Hy Hc'. destruct (Hin y c Hy Hc') as [[->|?] _]; congruence.
      * intros y c Hy Hc'. destruct (Hn y c Hy Hc') as [->|?]; congruence.
    + exists l. split; [|done]. eapply packet_ext; [exact Hl|]. intros y Hy. apply Hout.
      by eapply (closed_disjoint _ _ ((x, b) :: l) Hcl Hl).
    + eapply stored_ext; [done| |done]. by apply Hown.
  - intros x Hx. destruct (decide (x ∈ A)) as [HA|HA]; [by apply Hheld|].
    rewrite Hout by done. apply (heap_held _ _ H). rewrite elem_of_multiplicity in Hx |- *. by rewrite <-HE.
Qed.
(** The packets outside [A] are spared. *)
Lemma zone_calm (st st' : state) A :
  closed (pbufs st) A -> (forall x, x ∉ A -> pbufs st' !! x = pbufs st !! x) ->
  (forall x, x ∉ A -> own st' !! x = own st !! x) -> ext st' = ext st ->
  (forall q, q <> 0 -> indeg (pbufs st') q <= indeg (pbufs st) q) -> calm (.∉ A) st st'.
Proof.
  intros Hcl Hout Hown Hext Hi. apply calm_all; [done| | |done].
  - intros x _ Hx. apply spared_keep; [by apply Hout|by apply Hown|done].
  - intros x ([|y l] & Hl & Hh & Hx); [by apply elem_of_nil in Hx|].
    by eapply (closed_disjoint _ _ (y :: l) Hcl Hl).
Qed.

(** ** Joining *)

(** Less than [calm]: pbufs that are not part of packets from [P] may become part of others. *)
Definition mild (P : Z -> Prop) (st st' : state) : Prop :=
  ext st' = ext st /\ forall x, reach P st x -> spared x st st' /\ indeg (pbufs st') x <= indeg (pbufs st) x.

Lemma mild_refl P st : mild P st st.
Proof. split; [done|]. intros x _. split; [apply spared_refl|done]. Qed.
Lemma mild_weaken (P Q : Z -> Prop) st st' : mild P st st' -> (forall q, Q q -> P q) -> mild Q st st'.
Proof. intros (He & Ha) HQ. split; [done|]. intros x (l & Hl & Hq & Hx). apply Ha. exists l. auto. Qed.
Lemma mild_packet P st st' l : mild P st st' -> P (head_addr l) -> packet (pbufs st) l ->
  exists l', packet (pbufs st') l' /\ Forall2 same_pbuf l l'.
Proof. intros (_ & Hs) HP Hl. eapply packet_spared; [done|]. intros x Hx. apply Hs. by exists l. Qed.
Lemma mild_trans P st1 st2 st3 : mild P st1 st2 -> mild P st2 st3 -> mild P st1 st3.
Proof.
  intros Hc (He' & Hb). pose proof Hc as (He & Ha). split; [congruence|]. intros x Hx. destruct (Ha x Hx) as [S1 I1].
  destruct (Hb x) as [S2 I2]; [|split; [by eapply spared_trans|lia]]. destruct Hx as (l & Hl & HP & Hx).
  destruct (mild_packet _ _ _ _ Hc HP Hl) as (l' & Hl' & H2). destruct (same_pbuf_total _ _ H2) as (_ & Eh & Ea).
  exists l'. by rewrite Eh, Ea.
Qed.
Lemma calm_mild P st st' : calm P st st' -> mild P st st'.
Proof.
  intros (He & Hs & Hi). split; [done|]. intros x Hx. split; [by apply Hs|]. apply Hi. destruct Hx as (l & Hl & _ & Hx).
  by eapply packet_nonzero.
Qed.
Lemma zone_mild (st st' : state) A :
  closed (pbufs st) A -> (forall x, x ∉ A -> pbufs st' !! x = pbufs st !! x) ->
  (forall x, x ∉ A -> own st' !! x = own st !! x) -> ext st' = ext st ->
  (forall x b, x ∈ A -> pbufs st' !! x = Some b -> next b = 0 \/ next b ∈ A) -> mild (.∉ A) st st'.
Proof.
  intros Hcl Hout Hown Hext Hin. split; [done|].
  intros x ([|y l] & Hl & Hh & Hx); [by apply elem_of_nil in Hx|]. assert (Hx0 := packet_nonzero _ _ _ Hl Hx).
  assert (Hn := closed_disjoint _ _ (y :: l) Hcl Hl ltac:(done) Hh x Hx). split; [apply spared_keep; [by apply Hout|by apply Hown|done]|].
  rewrite <-(indeg_without A (pbufs st')), (without_ext A (pbufs st) (pbufs st')) by
    (try done; intros z b Hz Hb; destruct (Hin z b Hz Hb) as [->|?]; congruence).
  apply indeg_without_le.
Qed.

Lemma packet_elem (h : gmap Z pbuf) l x : packet h l -> x ∈ addrs l ->
  exists m1 b m2, l = m1 ++ (x, b) :: m2 /\ h !! x = Some (link b m2).
Proof.
  intros Hp ([x' b] & -> & (m1 & m2 & ->)%list_elem_of_split)%list_elem_of_fmap. exists m1, b, m2. split; [done|].
  by destruct (proj1 (packet_split _ _) Hp m1 x' b m2 eq_refl).
Qed.
Lemma sole_indeg E h l x : sole E h l -> x ∈ addrs l ->
  indeg h x = if decide (x ∈ tail (addrs l)) then 1 else 0.
Proof.
  intros (Hp & Hi & _) Hx. rewrite (indeg_packet h l x Hp) by (by eapply packet_nonzero). rewrite (Hi x Hx). done.
Qed.
Lemma pstate_ok_ext (st : state) h :
  pstate_ok st -> (forall x, source_of <$> h !! x = source_of <$> pbufs st !! x) -> pstate_ok (with_pbufs st h).
Proof.
  intros [Hl Hs] He. split.
  - replace (live (pbufs (with_pbufs st h))) with (live (pbufs st)); [done|]. unfold live. apply map_eq. intros x.
    rewrite !lookup_omap. specialize (He x). simpl. destruct (h !! x), (pbufs st !! x); simplify_eq/=; congruence.
  - intros x b Hb Hsb. simpl in Hb. specialize (He x). rewrite Hb in He.
    destruct (pbufs st !! x) as [c|] eqn:Hc; [|done]. injection He as He. apply (Hs x c Hc). congruence.
Qed.
(** Struct fields that are not about the chain. *)
Lemma stored_link (st : state) x b l l' : stored st x (link b l) -> stored st x (link b l').
Proof. done. Qed.
Lemma refs_counts E (st : state) x b : refs_ok E st -> pbufs st !! x = Some b ->
  is_Some (source_of b) /\ ref b = indeg (pbufs st) x + Z.of_nat (multiplicity x E) /\ 0 < ref b < 256 /\ stored st x b.
Proof. intros H Hb. by destruct (heap_nodes _ _ H x b Hb). Qed.

Lemma sized_suffix m1 m2 : sized (m1 ++ m2) -> sized m2.
Proof.
  intros [Hf Ht]. apply Forall_app in Hf as [H1 H2]. split; [done|]. rewrite total_app in Ht.
  pose proof (total_nonneg _ H1). lia.
Qed.
(** A pbuf of a packet that is only reached through it. *)
Lemma node_sole E (st : state) l x b b0 :
  packet (pbufs st) l -> sized l -> (forall y, y ∈ addrs l -> indeg (without (addrs l) (pbufs st)) y = 0) ->
  x ∈ addrs l -> pbufs st !! x = Some b -> is_Some (source_of b0) -> source_of b = source_of b0 ->
  ref b = ref b0 -> 0 < ref b0 < 256 -> stored st x b ->
  ref b0 = (if decide (x ∈ tail (addrs l)) then 1 else 0) + Z.of_nat (multiplicity x E) -> node_ok E st x b.
Proof.
  intros Hp Hs Hi Hx Hb Hso Es Er Hr Hst Hc. split; [by rewrite Es| |by rewrite Er| |done].
  - rewrite (indeg_packet _ l x Hp), Hi, Er, Hc by (try done; by eapply packet_nonzero). lia.
  - destruct (packet_elem _ _ _ Hp Hx) as (m1 & c & m2 & -> & Hc'). assert (b = link c m2) as -> by congruence.
    exists m2. split; [by apply packet_app in Hp|]. apply sized_suffix in Hs as [Hf Ht].
    split; [|done]. inversion Hf; by constructor.
Qed.

(** The counts of the joined packet: the reference to the second becomes a link. *)
Lemma cat_node E (st : state) p b1 m1 r b2 m2 h x b : let l1 := (p, b1) :: m1 in let l2 := (r, b2) :: m2 in
  refs_ok ({[+ r +]} ⊎ E) st -> sole ({[+ r +]} ⊎ E) (pbufs st) l1 -> sole ({[+ r +]} ⊎ E) (pbufs st) l2 ->
  multiplicity r E = 0%nat -> (forall a, a ∈ addrs l1 -> a ∉ addrs l2) -> packet h (l1 ++ l2) -> sized (l1 ++ l2) ->
  (forall x, x ∈ addrs (l1 ++ l2) -> indeg (without (addrs (l1 ++ l2)) h) x = 0) ->
  (forall x, x ∉ addrs l1 -> h !! x = pbufs st !! x) ->
  (forall x, x ∈ addrs l1 -> exists c k t, pbufs st !! x = Some c /\ h !! x = Some (with_tot_len (with_next c k) t)) ->
  x ∈ addrs (l1 ++ l2) -> h !! x = Some b -> node_ok E (with_pbufs st h) x b.
Proof.
  intros l1 l2 H S1 S2 Hm Hdis Hp Hz Hi Hout Hrel Hx Hb.
  assert (Htl : tail (addrs (l1 ++ l2)) = addrs m1 ++ addrs l2) by (unfold l1; simpl; apply addrs_app).
  pose proof Hx as Hx'. rewrite addrs_app in Hx'. apply elem_of_app in Hx' as [H1|H2].
  - destruct (Hrel x H1) as (c & k & t & Hc & Hc'). rewrite Hc' in Hb. injection Hb as <-.
    destruct (refs_counts _ _ _ _ H Hc) as (Hs & Hr & Hct & Hst).
    eapply (node_sole E _ (l1 ++ l2) x _ c); try done. rewrite Hr, (sole_indeg _ _ _ _ S1 H1), Htl.
    rewrite multiplicity_disj_union, multiplicity_singleton_ne by (intros ->; apply (Hdis r H1); by left).
    simpl. destruct (decide (x ∈ addrs m1)) as [Ht|Ht].
    + rewrite decide_True; [lia|]. apply elem_of_app. by left.
    + rewrite decide_False; [lia|]. intros [?|?]%elem_of_app; [done|by apply (Hdis x H1)].
  - rewrite Hout in Hb by (intros ?; by apply (Hdis x)). destruct (refs_counts _ _ _ _ H Hb) as (Hs & Hr & Hct & Hst).
    eapply (node_sole E _ (l1 ++ l2) x _ b); try done; [by simpl; rewrite Hout by (intros ?; by apply (Hdis x))|].
    rewrite Hr, (sole_indeg _ _ _ _ S2 H2), Htl. rewrite (decide_True (P := x ∈ _ ++ _)) by (apply elem_of_app; by right).
    rewrite multiplicity_disj_union. assert (Hnd := packet_NoDup _ _ (proj1 S2)). apply NoDup_cons in Hnd as [Hnr _].
    simpl. destruct (decide (x ∈ addrs m2)) as [Ht|Ht].
    + rewrite multiplicity_singleton_ne by (by intros ->). lia.
    + apply elem_of_cons in H2 as [->|?]; [|done]. rewrite multiplicity_singleton_eq. lia.
Qed.

Lemma pbuf_cat_heap E p r l1 l2 st :
  refs_ok ({[+ r +]} ⊎ E) st -> sole ({[+ r +]} ⊎ E) (pbufs st) l1 -> sole ({[+ r +]} ⊎ E) (pbufs st) l2 ->
  l1 <> [] -> l2 <> [] -> head_addr l1 = p -> head_addr l2 = r -> multiplicity r E = 0%nat -> (r ∉ addrs l1) -> (p ∉ addrs l2) ->
  total l1 + total l2 < 65536 ->
  exists h, pbuf_cat p r st = Ok (tt, with_pbufs st h) /\ refs_ok E (with_pbufs st h) /\ sole E h (l1 ++ l2) /\
    (forall x, x ∉ addrs l1 -> h !! x = pbufs st !! x).
Proof.
  intros H S1 S2 Hn1 Hn2 Hh1 Hh2 Hm Hr1 Hp2 Htot.
  assert (Hdis : forall a, a ∈ addrs l1 -> a ∉ addrs l2).
  { apply (sole_disjoint _ _ l2 l1 S2); [apply S1|done|by rewrite Hh1]. }
  destruct l1 as [|[p' b1] m1]; [done|]. destruct l2 as [|[r' b2] m2]; [done|]. simpl in Hh1, Hh2. subst p' r'.
  set (l1 := (p, b1) :: m1) in *. set (l2 := (r, b2) :: m2) in *.
  assert (Z1 := refs_sized _ _ _ _ _ H (proj1 S1)). assert (Z2 := refs_sized _ _ _ _ _ H (proj1 S2)).
  destruct (pbuf_cat_spec st l1 l2) as (h & Ec & Hp & Hp2' & Hout); try done; [apply S1|apply S2|].
  assert (Hcl : closed (pbufs st) (addrs l1 ++ addrs l2)) by (apply closed_app; by eapply packet_closed).
  assert (Z12 : sized (l1 ++ l2)) by (destruct Z1, Z2; split; [by apply Forall_app|by rewrite total_app]).
  assert (Hnd := packet_NoDup _ _ Hp). rewrite addrs_app in Hnd. apply NoDup_app in Hnd as (Hnd1 & _ & Hnd2).
  assert (Hi : forall x, x ∈ addrs (l1 ++ l2) -> indeg (without (addrs (l1 ++ l2)) h) x = 0).
  { intros x. rewrite addrs_app, (without_ext _ (pbufs st) h); [apply Hcl|].
    intros y Hy. apply Hout. intros ?. apply Hy, elem_of_app. by left. }
  assert (Hrel : forall x, x ∈ addrs l1 -> exists c k t, pbufs st !! x = Some c /\ h !! x = Some (with_tot_len (with_next c k) t)).
  { intros x Hx. destruct (packet_elem _ _ _ (proj1 S1) Hx) as (n1 & c & n2 & E1 & Hc). eexists _, _, _. split; [exact Hc|].
    destruct (proj1 (packet_split _ _) Hp n1 x c (n2 ++ l2)) as [_ ->]; [|done]. rewrite E1. by rewrite <-app_assoc. }
  exists h. split; [exact Ec|]. split; [|split; [|exact Hout]].
  - eapply (heap_zone ({[+ r +]} ⊎ E) E st _ (addrs l1 ++ addrs l2)); try done.
    + apply pstate_ok_ext; [apply H|]. intros x. destruct (decide (x ∈ addrs l1)) as [Hx|Hx]; [|by rewrite Hout].
      destruct (Hrel x Hx) as (c & k & t & -> & ->). done.
    + intros x Hx. simpl. apply Hout. intros ?. apply Hx, elem_of_app. by left.
    + intros x Hx. rewrite multiplicity_disj_union, multiplicity_singleton_ne; [done|].
      intros ->. apply Hx, elem_of_app. right. by left.
    + intros x b Hx Hb. rewrite <-addrs_app in Hx |- *. split; [by eapply (packet_closed ∅ h (l1 ++ l2))|].
      by apply (cat_node E st p b1 m1 r b2 m2).
    + intros x Hx _. simpl. rewrite <-addrs_app in Hx. destruct (packet_elem _ _ _ Hp Hx) as (? & ? & ? & _ & ->). by eexists.
  - split; [done|]. split; [done|]. intros x Hx. change (tail (addrs (l1 ++ l2))) with (addrs (m1 ++ l2)) in Hx.
    rewrite addrs_app in Hx. apply elem_of_app in Hx as [Hx|[->|Hx]%elem_of_cons]; [|done|].
    + pose proof (proj2 (proj2 S1) x Hx) as Hx1. rewrite multiplicity_disj_union in Hx1. lia.
    + pose proof (proj2 (proj2 S2) x Hx) as Hx1. rewrite multiplicity_disj_union in Hx1. lia.
Qed.

(** ** Shortening *)

Lemma cut_split n l : 0 <= n < total l -> Forall (fun x => 0 <= len x.2) l ->
  exists k q b rem d, l = k ++ (q, b) :: d /\ cut n l = (k ++ [(q, with_len b rem)], d) /\ 0 <= rem <= len b.
Proof.
  revert n. induction l as [|[a b] l IH]; intros n Hn Hl; [simpl in *; lia|].
  apply Forall_cons in Hl as [Hb Hl]. simpl in *. destruct (Z.ltb_spec (len b) n).
  - destruct (IH (n - len b)) as (k & q & c & rem & d & El & Ec & ?); [lia|done|].
    exists ((a, b) :: k), q, c, rem, d. rewrite Ec. by subst l.
  - exists [], a, b, n, l. split; [done|]. split; [done|lia].
Qed.
Lemma cut_data (st : state) n l : readable st l -> Forall (fun x => 0 <= len x.2) l -> 0 <= n ->
  data st (cut n l).1 = take (Z.to_nat n) (data st l).
Proof.
  revert n. induction l as [|[a b] l IH]; intros n Hr Hl Hn; [by destruct (Z.to_nat n)|].
  apply Forall_cons in Hl as [Hb Hl]. apply Forall_cons in Hr as [Hrb Hr]. simpl in *.
  destruct (pbuf_bytes_length st a b Hrb Hb) as [_ Hlen]. rewrite data_cons.
  destruct (Z.ltb_spec (len b) n).
  - cbn [fst]. rewrite data_cons, IH by (done || lia). rewrite take_app, Hlen, (take_ge (pbuf_bytes st b)) by lia.
    f_equal. f_equal. lia.
  - rewrite take_app_le by lia. unfold data. simpl. rewrite app_nil_r. unfold pbuf_bytes, slice. simpl.
    rewrite take_take. f_equal. lia.
Qed.
Lemma released_all l : Forall (fun x => ref x.2 = 1) l -> released l = l /\ kept l = [].
Proof.
  induction 1 as [|[a b] l Hr _ [IH1 IH2]]; [done|]. simpl in *. rewrite Hr. simpl. by rewrite IH1.
Qed.
(** The pbufs behind the first are referred to once. *)
Lemma sole_refs E (st : state) l : refs_ok E st -> sole E (pbufs st) l -> Forall (fun x => ref x.2 = 1) (tail l).
Proof.
  intros H Hs. apply Forall_forall. intros [x b] Hx. simpl.
  assert (Hxl : (x, b) ∈ l) by (destruct l; [by apply elem_of_nil in Hx|by right]).
  assert (Hxt : x ∈ tail (addrs l)).
  { destruct l; [by apply elem_of_nil in Hx|]. simpl in *. apply list_elem_of_fmap. by exists (x, b). }
  apply list_elem_of_split in Hxl as (m1 & m & ->).
  destruct (proj1 (packet_split _ _) (proj1 Hs) m1 x b m eq_refl) as [_ Hb].
  destruct (refs_counts _ _ _ _ H Hb) as (_ & Hr & _). change (ref (link b m)) with (ref b) in Hr. rewrite Hr.
  rewrite (sole_indeg _ _ _ x Hs), decide_True, (proj2 (proj2 Hs) x Hxt) by
    (try done; rewrite addrs_app; apply elem_of_app; right; by left). done.
Qed.

Lemma with_len_id b : with_len b (len b) = b.
Proof. by destruct b. Qed.
(** A shorter pbuf is stored where the longer one was. *)
Lemma stored_shorter (st st' : state) x b l m n : stored st x (link b l) -> 0 <= n <= len b ->
  own st' !! x = own st !! x -> ext st' = ext st -> stored st' x (link (with_len b n) m).
Proof.
  intros Hs Hn Hown Hext. apply (stored_ext _ st') in Hs; [|done..]. revert Hs. unfold stored.
  change (contiguous (link (with_len b n) m)) with (contiguous (link b l)). destruct (contiguous _).
  - intros (o & bs & Hp & Hbs & Hr). exists o, bs. simpl in *. split; [done|]. split; [done|]. lia.
  - simpl. intros [?|[(bs & Hbs & H0 & Hl) Hno]]; [left; lia|]. destruct (decide (n = 0)); [by left|right].
    split; [|done]. exists bs. split; [done|]. lia.
Qed.
(** What remains of the packet is accounted for. *)
Lemma cut_node E (st st' : state) l k q b rem d x c :
  refs_ok E st -> sole E (pbufs st) l -> l = k ++ (q, b) :: d -> 0 <= rem <= len b ->
  packet (pbufs st') (k ++ [(q, with_len b rem)]) ->
  (forall y, y ∈ addrs (k ++ [(q, b)]) -> indeg (without (addrs (k ++ [(q, b)])) (pbufs st')) y = 0) ->
  (forall y, y ∉ addrs d -> own st' !! y = own st !! y) -> ext st' = ext st ->
  x ∈ addrs (k ++ [(q, b)]) -> pbufs st' !! x = Some c -> node_ok E st' x c.
Proof.
  intros H Hs El Hrem Hp Hi Hown Hext Hx Hc. set (k' := k ++ [(q, with_len b rem)]) in *.
  assert (Ea : addrs k' = addrs (k ++ [(q, b)])) by (unfold k'; by rewrite !addrs_app).
  assert (Hnd := packet_NoDup _ _ (proj1 Hs)).
  assert (Eal : addrs l = addrs k' ++ addrs d) by (rewrite El, Ea, !addrs_app; simpl; by rewrite <-app_assoc).
  pose proof Hnd as Hnd'. rewrite Eal in Hnd'. apply NoDup_app in Hnd' as (_ & Hkd & _).
  assert (Hz : sized l) by (destruct l as [|[]]; [by destruct k|by eapply refs_sized; [exact H|apply Hs]]).
  assert (Z' : sized k').
  { rewrite El in Hz. destruct Hz as [Hf Ht]. apply Forall_app in Hf as [H1 [Hb H2]%Forall_cons].
    pose proof (total_nonneg _ H1). pose proof (total_nonneg _ H2). rewrite total_app in Ht. simpl in *.
    split; [apply Forall_app; split; [done|by constructor; simpl; [lia|]]|]. unfold k'. rewrite total_app. simpl. lia. }
  rewrite <-Ea in Hx, Hi. assert (Hxl : x ∈ addrs l) by (rewrite Eal; apply elem_of_app; by left).
  destruct (packet_elem _ _ _ (proj1 Hs) Hxl) as (m1 & c0 & m2 & E1 & Hc0).
  destruct (refs_counts _ _ _ _ H Hc0) as (Hso & Hr & Hct & Hst).
  assert (Hrel : exists m r, c = link (with_len c0 r) m /\ 0 <= r <= len c0).
  { destruct (packet_elem _ _ _ Hp Hx) as (n1 & c1 & n2 & E2 & Hc1). assert (c = link c1 n2) as -> by congruence.
    assert (H0 : (x, c0) ∈ l) by (rewrite E1; apply elem_of_app; right; by left). exists n2.
    assert (H1 : (x, c1) ∈ k') by (rewrite E2; apply elem_of_app; right; by left).
    apply elem_of_app in H1 as [H1|[[= -> ->]|?%elem_of_nil]%elem_of_cons]; [| |done].
    - exists (len c0). rewrite with_len_id, (addrs_same l x c1 c0); try done; [|rewrite El; apply elem_of_app; by left].
      split; [done|]. destruct Hz as [Hz _]. rewrite Forall_forall in Hz. specialize (Hz _ H0). simpl in *. lia.
    - exists rem. rewrite (addrs_same l q c0 b); try done. rewrite El. apply elem_of_app. right. by left. }
  destruct Hrel as (m & r & -> & Hrr).
  eapply (node_sole E st' k' x _ (link c0 m2)); try done.
  - eapply stored_shorter; [exact Hst|done|by apply Hown, Hkd|done].
  - rewrite Hr, (sole_indeg _ _ _ _ Hs Hxl). f_equal.
    assert (Et : tail (addrs l) = tail (addrs k') ++ addrs d) by (rewrite Eal; unfold k'; by destruct k).
    rewrite Et. specialize (Hkd x Hx).
    destruct (decide (x ∈ tail (addrs k'))), (decide (x ∈ tail (addrs k') ++ addrs d)) as [Hy|Hy]; try done;
      rewrite elem_of_app in Hy; tauto.
Qed.

(** The data of a packet is in the memory of its pbufs and in the rest of memory. *)
Lemma refs_data_same E (st st' : state) l : refs_ok E st' -> packet (pbufs st') l ->
  (forall x, x ∈ addrs l -> own st' !! x = own st !! x) -> ext st' = ext st -> data st' l = data st l.
Proof.
  intros H Hp Hown Hext. unfold data. f_equal. apply map_ext_in. intros [x b] Hx%list_elem_of_In. simpl.
  assert (Hxa : x ∈ addrs l) by (apply list_elem_of_fmap; by exists (x, b)).
  apply list_elem_of_split in Hx as (m1 & m & ->).
  destruct (proj1 (packet_split _ _) Hp m1 x b m eq_refl) as [_ Hb].
  destruct (refs_counts _ _ _ _ H Hb) as (_ & _ & _ & Hst). unfold stored in Hst. unfold pbuf_bytes.
  change (contiguous (link b m)) with (contiguous b) in Hst. destruct (contiguous b).
  - destruct Hst as (o & bs & Hpl & _). simpl in Hpl. rewrite Hpl. simpl. by rewrite Hown.
  - simpl in Hst. destruct Hst as [Hl|[_ Hno]]; [by rewrite !slice_nonpos by lia|].
    destruct (payload b); simpl; [done|by destruct (Hno p ofs)|by rewrite Hext].
Qed.

Context (call_custom_free : Z -> Z -> ST state unit).

Lemma sole_counted E st l : refs_ok E st -> packet (pbufs st) l -> counted l.
Proof.
  intros H. induction l as [|[a b] l IH]; [constructor|]. intros (_ & Hb & Hl). constructor; [|by apply IH].
  destruct (refs_counts _ _ _ _ H Hb) as (Hs & _ & Hr & _). simpl in *. split; [lia|done].
Qed.

(** [pbuf_realloc] of a packet with one holder: the rest of it is freed. *)
Lemma pbuf_realloc_heap E l n st :
  refs_ok E st -> sole E (pbufs st) l -> 0 <= n < total l ->
  exists st', pbuf_realloc call_custom_free (head_addr l) n st = Ok (tt, st') /\ refs_ok E st' /\
    sole E (pbufs st') (cut n l).1 /\ data st' (cut n l).1 = take (Z.to_nat n) (data st l) /\
    total (cut n l).1 = n /\ head_addr (cut n l).1 = head_addr l /\ (forall x, x ∈ addrs (cut n l).1 -> x ∈ addrs l) /\
    without (addrs (cut n l).1) (pbufs st') = without (addrs l) (pbufs st) /\
    (forall x, x ∉ addrs l -> pbufs st' !! x = pbufs st !! x /\ own st' !! x = own st !! x) /\ ext st' = ext st.
Proof.
  intros H Hs Hn. assert (Hz : sized l).
  { destruct l as [|[]]; [simpl in Hn; lia|]. by eapply refs_sized; [exact H|apply Hs]. }
  destruct (pbuf_realloc_spec call_custom_free l n st) as (st' & Er & Hsh); [apply Hs|done|done|by eapply sole_counted, Hs|apply H|].
  assert (Htot := cut_total n l ltac:(lia) (proj1 Hz)).
  destruct (cut_split n l Hn (proj1 Hz)) as (k & q & b & rem & d & El & Ec & Hrem). rewrite Ec in *. cbn [fst snd] in *.
  assert (Hd : Forall (fun x => ref x.2 = 1) d).
  { pose proof (sole_refs _ _ _ H Hs) as Hr. rewrite El in Hr. destruct k; simpl in Hr; [done|].
    by apply Forall_app in Hr as [_ [_ ?]%Forall_cons]. }
  destruct (released_all d Hd) as [Erel Ekept]. destruct Hsh as (Hok & Hpk & _ & Hgone & Hout & Hown & Hext).
  rewrite Erel in *. set (k' := k ++ [(q, with_len b rem)]) in *.
  assert (Ea : addrs k' = addrs (k ++ [(q, b)])) by (unfold k'; by rewrite !addrs_app).
  assert (Eal : addrs l = addrs k' ++ addrs d) by (rewrite El, Ea, !addrs_app; simpl; by rewrite <-app_assoc).
  assert (Hnd := packet_NoDup _ _ (proj1 Hs)). rewrite Eal in Hnd. apply NoDup_app in Hnd as (_ & Hkd & _).
  assert (Hw : without (addrs k') (pbufs st') = without (addrs l) (pbufs st)).
  { apply map_eq. intros x. rewrite !without_lookup, Eal.
    destruct (decide (x ∈ addrs k')), (decide (x ∈ addrs k' ++ addrs d)) as [Hx|Hx]; try done;
      rewrite elem_of_app in Hx; [tauto|apply Hgone; tauto|apply Hout; rewrite Eal, elem_of_app; tauto]. }
  assert (Hsub : forall x, x ∈ addrs k' -> x ∈ addrs l) by (intros x Hx; rewrite Eal; apply elem_of_app; by left).
  assert (Hs' : sole E (pbufs st') k').
  { split; [done|]. split; [intros x Hx; rewrite Hw; by apply Hs, Hsub|]. intros x Hx. apply Hs.
    rewrite Eal. assert (Et : tail (addrs k' ++ addrs d) = tail (addrs k') ++ addrs d) by (unfold k'; by destruct k).
    rewrite Et. apply elem_of_app. by left. }
  assert (Href : refs_ok E st').
  { eapply (heap_zone E E st st' (addrs l)); try done; [by eapply packet_closed|..].
    - intros x Hx. apply Hown. intros Hin. apply Hx. rewrite Eal. apply elem_of_app. by right.
    - intros x c Hx Hc. assert (Hx' : x ∈ addrs k').
      { rewrite Eal in Hx. apply elem_of_app in Hx as [?|?%Hgone]; [done|congruence]. }
      split.
      + destruct (proj1 (packet_closed _ _ _ Hs') x c Hx' Hc); [by left|right; by apply Hsub].
      + eapply (cut_node E st st' l k q b rem d); try done; rewrite <-Ea; [|done]. apply Hs'.
    - intros x Hx HE. rewrite elem_of_multiplicity in HE. assert (Hx' : x ∈ addrs k').
      { rewrite Eal in Hx. apply elem_of_app in Hx as [?|Hxd]; [done|]. pose proof (proj2 (proj2 Hs) x) as Hm.
        rewrite Hm in HE; [lia|]. rewrite Eal. unfold k'. rewrite addrs_app. destruct k; simpl; [by simpl|].
        apply elem_of_app. by right. }
      destruct (packet_elem _ _ _ Hpk Hx') as (? & ? & ? & _ & ->). by eexists. }
  exists st'. split; [done|]. split; [done|]. split; [done|]. split.
  { rewrite (refs_data_same E st st' k'); try done; [|intros x Hx; apply Hown; by apply Hkd].
    replace k' with (cut n l).1 by (by rewrite Ec). apply cut_data; [by eapply refs_readable; [|apply Hs]|apply Hz|lia]. }
  split; [done|]. split; [rewrite El; unfold k'; by destruct k as [|[]]|]. split; [done|]. split; [done|]. split; [|done].
  intros x Hx. split; [by apply Hout|]. apply Hown. intros Hin. apply Hx. rewrite Eal. apply elem_of_app. by right.
Qed.

(** The other packets do not notice. *)
Lemma realloc_calm E l n (st st' : state) : refs_ok E st -> sole E (pbufs st) l -> sole E (pbufs st') (cut n l).1 ->
  (forall x, x ∈ tail (addrs (cut n l).1) -> x ∈ tail (addrs l)) ->
  without (addrs (cut n l).1) (pbufs st') = without (addrs l) (pbufs st) ->
  (forall x, x ∉ addrs l -> pbufs st' !! x = pbufs st !! x /\ own st' !! x = own st !! x) -> ext st' = ext st ->
  calm (fun q => q ∉ addrs l) st st'.
Proof.
  intros H Hs Hs' Ht Hw Ho He. apply calm_all; [done| | |].
  - intros x _ Hx. destruct (Ho x Hx). by apply spared_keep.
  - intros x (m & Hm & Hh & Hx). refine (sole_disjoint _ _ _ _ Hs Hm _ Hh x Hx). by intros ->; apply elem_of_nil in Hx.
  - intros q Hq. rewrite (indeg_packet _ _ q (proj1 Hs') Hq), (indeg_packet _ _ q (proj1 Hs) Hq), Hw.
    destruct (decide (q ∈ tail (addrs (cut n l).1))) as [Hin|]; [rewrite decide_True by auto; lia|]. case_decide; lia.
Qed.

(** ** Copying into a fresh pbuf *)

Lemma link_single c : next c = 0 -> tot_len c = len c -> link c [] = c.
Proof. unfold link, with_next, with_tot_len. destruct c; simpl in *; intros -> ->. f_equal. lia. Qed.

(** [pbuf_copy_partial_pbuf] into a pbuf outside the packet. *)
Lemma copy_partial_heap E q c p b l n off st :
  refs_ok E st -> pbufs st !! q = Some c -> next c = 0 -> contiguous c = true ->
  packet (pbufs st) ((p, b) :: l) -> solid ((p, b) :: l) -> (q ∉ addrs ((p, b) :: l)) ->
  0 < n <= total ((p, b) :: l) -> 0 <= off -> off + n <= len c ->
  exists st', pbuf_copy_partial_pbuf q p n off st = Ok (ERR_OK, st') /\ filled st st' [(q, c)] /\ refs_ok E st' /\
    data st' [(q, c)] = splice off (slice 0 n (data st ((p, b) :: l))) (data st [(q, c)]).
Proof.
  intros H Hc Hnx Hct Hp Hso Hq Hn Hoff Hfit. assert (Hq0 := heap_nonzero _ _ _ _ H Hc).
  destruct (refs_packet _ _ _ _ H Hc) as ([|[a d] m] & Hpq & Ec); [|exfalso; rewrite Ec in Hnx; by destruct Hpq as (_ & _ & ? & _)].
  pose proof (refs_sized _ _ _ _ _ H Hpq) as Hzq. pose proof (refs_sized _ _ _ _ _ H Hp) as Hz.
  pose proof (node_stored _ _ _ _ (heap_nodes _ _ H q c Hc)) as Hst. unfold stored in Hst. rewrite Hct in Hst.
  assert (Hin : forall x, x ∈ (p, b) :: l -> same_obj (payload x.2) (payload c) = false).
  { intros [a d] Hx. assert (Hxa : a ∈ addrs ((p, b) :: l)) by (apply list_elem_of_fmap; by exists (a, d)).
    destruct (packet_lookup _ _ _ Hp Hx) as (c' & Hc' & Epl & El). simpl in *.
    assert (0 < len c') by (rewrite El; unfold solid in Hso; rewrite Forall_forall in Hso; by apply (Hso (a, d))).
    rewrite <-Epl. destruct Hst as (o & bs & Hpc & _). simpl in Hpc. rewrite Hpc.
    destruct (refs_home E st a c' H Hc') as [[o' ->]|Hno]; [done|simpl; apply Z.eqb_neq; congruence|].
    destruct (payload c') as [|a' o'|]; [done|by destruct (Hno a' o')|done]. }
  destruct (copy_pbuf_loop_spec (Datatypes.S (size (pbufs st)) + Datatypes.S (size (pbufs st)))
    [] q c [] p b l n off 0 st) as (st' & Ec' & Hfl & Hdat); try done.
  - by apply Forall_singleton.
  - apply Forall_singleton. simpl. lia.
  - by eapply refs_readable.
  - apply Forall_forall. intros x Hx. by apply Forall_singleton, Hin.
  - destruct Hz as [_ Hz]. simpl in *. lia.
  - simpl. lia.
  - apply Forall_cons in Hso as [? _]. simpl in *. lia.
  - simpl. lia.
  - simpl in *. lia.
  - pose proof (packet_length _ _ Hp). simpl in *. lia.
  - exists st'. split.
    + unfold pbuf_copy_partial_pbuf. destruct Hp as (Hp0 & Hb & _). replace (p =? 0) with false by lia.
      rewrite (pb_get_bind _ _ _ _ Hb). change (tot_len (link b l)) with (total ((p, b) :: l)).
      replace (n <=? _) with true by lia. cbn [negb]. replace (q =? 0) with false by lia. rewrite (pb_get_bind _ _ _ _ Hc).
      replace (off + n <=? tot_len c) with true by (rewrite Ec; simpl; lia). cbn [negb]. by rewrite chain_fuel_bind.
    + split; [done|]. split; [by eapply heap_filled|done].
Qed.


(** ** A header is removed *)

Lemma shift_bytes (st : state) b n q o bs : payload b = Own q o -> own st !! q = Some bs -> 0 <= o -> 0 <= n <= len b ->
  pbuf_bytes st (shift b n) = drop (Z.to_nat n) (pbuf_bytes st b).
Proof.
  intros Hp Hbs Ho Hn. unfold pbuf_bytes. simpl. rewrite Hp. simpl. rewrite Hbs. simpl. unfold slice.
  rewrite skipn_firstn_comm, drop_drop. f_equal; [lia|]. f_equal. lia.
Qed.
Lemma remove_header_sole E (st : state) p b l n :
  refs_ok E st -> sole E (pbufs st) ((p, b) :: l) -> contiguous b = true -> 0 < n <= len b ->
  let st' := with_pbufs st (<[p := link (shift b n) l]> (pbufs st)) in
  pbuf_remove_header p n st = Ok (false, st') /\ refs_ok E st' /\ sole E (pbufs st') ((p, shift b n) :: l) /\
  data st' ((p, shift b n) :: l) = drop (Z.to_nat n) (data st ((p, b) :: l)) /\ calm (fun q => q <> p) st st'.
Proof.
  intros H Hs Hct Hn st'. assert (Hp := proj1 Hs). assert (Hb : pbufs st !! p = Some (link b l)) by apply Hp.
  assert (Hsz := refs_sized _ _ _ _ _ H Hp). assert (Hi : indeg (pbufs st) p = 0).
  { rewrite (sole_indeg _ _ _ p Hs) by (by left). rewrite decide_False; [done|].
    pose proof (packet_NoDup _ _ Hp) as Hnd. by apply NoDup_cons in Hnd as [? _]. }
  destruct (refs_counts _ _ _ _ H Hb) as (_ & _ & _ & Hst). unfold stored in Hst. change (contiguous (link b l)) with (contiguous b) in Hst.
  rewrite Hct in Hst. destruct Hst as (o & bs & Hpl & Hbs & Ho & Hcap & Hlen). simpl in Hpl, Hbs, Hlen, Hcap.
  pose proof Hsz as (Hsl & Hb0 & Htot)%sized_cons.
  assert (Hind : forall x, indeg (pbufs st') x = indeg (pbufs st) x) by (intros x; by apply (indeg_update _ _ _ _ _ Hb)).
  split; [rewrite (pbuf_remove_header_spec p b l n st Hp Hsz) by lia; by replace (n <=? len b) with true by lia|].
  split; [apply (heap_head E st p b); try done; [split; [constructor; [simpl; lia|apply Hsl]|simpl; lia]|]|].
  - unfold stored. change (contiguous (link (shift b n) l)) with (contiguous b). rewrite Hct. exists (o + n), bs. simpl.
    rewrite Hpl. split; [done|]. split; [done|]. lia.
  - split; [|split].
    + assert (Hp' : packet (pbufs st') ((p, shift b n) :: l)) by (by apply (packet_head _ _ b)). split; [done|]. split; [|apply Hs].
      intros x Hx. change (addrs ((p, shift b n) :: l)) with (addrs ((p, b) :: l)) in *.
      rewrite (without_ext _ (pbufs st) (pbufs st')); [by apply Hs|]. intros y Hy. simpl. apply lookup_insert_ne. intros ->. apply Hy. by left.
    + rewrite !data_cons. rewrite (shift_bytes _ _ _ p o bs) by (done || lia). rewrite drop_app_le; [done|].
      unfold pbuf_bytes. rewrite Hpl. simpl. rewrite Hbs. simpl. unfold slice. rewrite length_take, length_drop. lia.
    + apply calm_all; [done| |intros x; by apply reach_other|by intros; rewrite Hind].
      intros q _ Hq. apply spared_keep; [|done|done]. simpl. by apply lookup_insert_ne.
Qed.
End sole.
