(* ===== verification/Ethernet.v ===== *)
(** * Ethernet output and ARP messages (netif/ethernet.c, parts of core/ipv4/etharp.c)

    The state of the link layer and the operations that put frames on a link:
    [ethernet_output], [etharp_raw] and the messages made from it, and the
    driver's [lwipOutput] (drivers/nics/nic_controller.rs).  [LinkDriver] is what
    the stack relies on of [netif->linkoutput]; [lwip_driver] provides it.  The
    frames handed to the hardware are recorded in the order they were sent. *)

From stdpp Require Import gmultiset.
From S2P Require Import Prelude Def Ip4Addr Memp Mem Pbuf PbufData PbufHeap.

Set Default Proof Using "Type".

(** ** Constants *)

Definition ERR_BUF : Z := -2.
Definition ERR_RTE : Z := -4.

Definition ETH_HWADDR_LEN : Z := 6.
Definition SIZEOF_ETH_HDR : Z := 14.
Definition ETHTYPE_IP : Z := 0x0800.
Definition ETHTYPE_ARP : Z := 0x0806.
Definition LWIP_IANA_HWTYPE_ETHERNET : Z := 1.
Definition SIZEOF_ETHARP_HDR : Z := 28.
Definition ARP_REQUEST : Z := 1.
Definition ARP_REPLY : Z := 2.
Definition ethbroadcast : list Z := [0xff; 0xff; 0xff; 0xff; 0xff; 0xff].
Definition ethzero : list Z := [0; 0; 0; 0; 0; 0].

(** ** State *)

(** [struct netif], as far as the link and the IP layer read it. *)
Record netif := {
  nif_next : Z; nif_addrs : netif_addrs; nif_gw : Z; nif_mtu : Z; nif_hwaddr : list Z; nif_hwaddr_len : Z;
  nif_num : Z; nif_acd_list : Z
}.

Inductive acd_state_enum_t :=
| ACD_STATE_OFF | ACD_STATE_PROBE_WAIT | ACD_STATE_PROBING | ACD_STATE_ANNOUNCE_WAIT
| ACD_STATE_ANNOUNCING | ACD_STATE_ONGOING | ACD_STATE_PASSIVE_ONGOING | ACD_STATE_RATE_LIMIT.
#[export] Instance acd_state_eq_dec : EqDecision acd_state_enum_t.
Proof. solve_decision. Defined.

(** [struct acd]. *)
Record acd := {
  acd_next : Z; acd_ipaddr : Z; acd_state : acd_state_enum_t; acd_sent_num : Z; acd_ttw : Z;
  acd_lastconflict : Z; acd_num_conflicts : Z; acd_conflict_callback : Z
}.

(** [struct etharp_entry]. *)
Record etharp_entry := {
  ent_q : Z; ent_ipaddr : Z; ent_netif : Z; ent_ethaddr : list Z; ent_ctime : Z; ent_state : Z
}.

(** The counters of [lwip_stats] that the link layer increments. *)
Inductive counter :=
| link_lenerr | etharp_xmit | etharp_recv | etharp_drop | etharp_lenerr | etharp_memerr
| etharp_proterr | etharp_err | etharp_cachehit.
#[export] Instance counter_eq_dec : EqDecision counter.
Proof. solve_decision. Defined.

Section state.
Context {S : Type}.

Record net := {
  pm : @pstate S;
  netifs : gmap Z netif; netif_list : Z;
  acds : gmap Z acd;
  arp_table : list etharp_entry; etharp_cached_entry : Z;
  lwip_stats : counter -> Z;
  rand_state : Z;
  frames : list (Z * list Z)
}.

Definition with_pm (st : net) (x : pstate) : net :=
  {| pm := x; netifs := netifs st; netif_list := netif_list st; acds := acds st;
     arp_table := arp_table st; etharp_cached_entry := etharp_cached_entry st;
     lwip_stats := lwip_stats st; rand_state := rand_state st; frames := frames st |}.
Definition with_netifs (st : net) (x : gmap Z netif) : net :=
  {| pm := pm st; netifs := x; netif_list := netif_list st; acds := acds st;
     arp_table := arp_table st; etharp_cached_entry := etharp_cached_entry st;
     lwip_stats := lwip_stats st; rand_state := rand_state st; frames := frames st |}.
Definition with_acds (st : net) (x : gmap Z acd) : net :=
  {| pm := pm st; netifs := netifs st; netif_list := netif_list st; acds := x;
     arp_table := arp_table st; etharp_cached_entry := etharp_cached_entry st;
     lwip_stats := lwip_stats st; rand_state := rand_state st; frames := frames st |}.
Definition with_arp_table (st : net) (x : list etharp_entry) : net :=
  {| pm := pm st; netifs := netifs st; netif_list := netif_list st; acds := acds st;
     arp_table := x; etharp_cached_entry := etharp_cached_entry st;
     lwip_stats := lwip_stats st; rand_state := rand_state st; frames := frames st |}.
Definition with_cached_entry (st : net) (x : Z) : net :=
  {| pm := pm st; netifs := netifs st; netif_list := netif_list st; acds := acds st;
     arp_table := arp_table st; etharp_cached_entry := x;
     lwip_stats := lwip_stats st; rand_state := rand_state st; frames := frames st |}.
Definition with_stats (st : net) (x : counter -> Z) : net :=
  {| pm := pm st; netifs := netifs st; netif_list := netif_list st; acds := acds st;
     arp_table := arp_table st; etharp_cached_entry := etharp_cached_entry st;
     lwip_stats := x; rand_state := rand_state st; frames := frames st |}.
Definition with_rand_state (st : net) (x : Z) : net :=
  {| pm := pm st; netifs := netifs st; netif_list := netif_list st; acds := acds st;
     arp_table := arp_table st; etharp_cached_entry := etharp_cached_entry st;
     lwip_stats := lwip_stats st; rand_state := x; frames := frames st |}.
Definition with_frames (st : net) (x : list (Z * list Z)) : net :=
  {| pm := pm st; netifs := netifs st; netif_list := netif_list st; acds := acds st;
     arp_table := arp_table st; etharp_cached_entry := etharp_cached_entry st;
     lwip_stats := lwip_stats st; rand_state := rand_state st; frames := x |}.
End state.

Section ethernet.
Context {S : Type} `{!PbufAlloc S}.
Abbreviation state := (@net S).
Abbreviation M := (ST state).

(** An operation on the packet buffers. *)
Definition on_pm {A} (m : ST (@pstate S) A) : M A := fun st =>
  match m (pm st) with
  | Ok (a, s) => Ok (a, with_pm st s)
  | Panic => Panic
  | Fault => Fault
  | Diverge => Diverge
  end.
(** An access outside any object. *)
Definition crash {A} : M A := fun _ => Fault.
Definition netif_get (n : Z) : M netif := fun st =>
  match netifs st !! n with Some x => Ok (x, st) | None => Fault end.
(** The counters are 16 bits wide. *)
Definition STATS_INC (c : counter) : M unit := fun st =>
  Ok (tt, with_stats st (fun x => if decide (x = c) then u16 (lwip_stats st c + 1) else lwip_stats st x)).

(** ** The driver *)

(** [netif->linkoutput]: it may take and give back memory, leaves every pbuf and
    its data as they are, and if it succeeds the packet's bytes are sent. *)
Class LinkDriver := {
  linkoutput : Z -> Z -> M Z;
  link_serves : Z -> Prop;
  linkoutput_law E n p b l st :
    link_serves n -> refs_ok E (pm st) -> packet (pbufs (pm st)) ((p, b) :: l) -> 0 < len b ->
    exists err s' out, linkoutput n p st = Ok (err, with_frames (with_pm st s') (frames st ++ out)) /\
      unchanged (pm st) s' /\
      ((err = ERR_OK /\ out = [(n, data (pm st) ((p, b) :: l))]) \/ (err <> ERR_OK /\ out = []))
}.

(** [malloc] and [free] of the kernel, and the frame given to the device. *)
Definition kmalloc (n : Z) : M Z := fun st =>
  '(a, s) ← pa_malloc src_heap n (alloc (pm st)); Ok (a, with_pm st (with_alloc (pm st) s)).
Definition kfree (a : Z) : M unit := fun st =>
  if a =? 0 then Ok (tt, st)
  else s ← pa_free src_heap a (alloc (pm st)); Ok (tt, with_pm st (with_alloc (pm st) s)).
Definition sendPacketRaw (n : Z) (buf : list Z) : M unit := fun st =>
  Ok (tt, with_frames st (frames st ++ [(n, buf)])).

(** [lwipOutput].  [buf] is filled in by the loop; [attached] says whether
    [LinkedListSearch] finds the device of an interface. *)
Fixpoint lwipOutput_loop (fuel : nat) (addr total : Z) (buf : list Z) (cur off : Z) : M (list Z * Z) :=
  match fuel with
  | O => fun _ => Diverge
  | Datatypes.S fuel' =>
      if cur =? 0 then mret (buf, off)
      else
        b ← on_pm (pb_get cur);
        bs ← on_pm (read_mem (payload b) (len b));
        if (0 <? len b) && ((addr =? 0) || (total <? off + len b)) then crash
        else lwipOutput_loop fuel' addr total (splice off bs buf) (next b) (off + len b)
  end.

Definition lwipOutput (garbage : Z -> Z) (attached : Z -> bool) (n p : Z) : M Z :=
  b ← on_pm (pb_get p);
  let total := tot_len b in
  addr ← kmalloc total;
  fuel ← on_pm chain_fuel;
  '(buf, off) ← lwipOutput_loop fuel addr total (fresh_bytes garbage addr total) p 0;
  _ ← sassert (off =? total);
  _ ← sassert (attached n);
  _ ← sendPacketRaw n buf;
  _ ← kfree addr;
  mret ERR_OK.

(** ** [ethernet_output] *)

Context (call_custom_free : Z -> Z -> ST (@pstate S) unit) (garbage : Z -> Z).
Context {Link : LinkDriver}.

Definition ethernet_output (n p : Z) (src dst : list Z) (eth_type : Z) : M Z :=
  let eth_type_be := lwip_htons eth_type in
  failed ← on_pm (pbuf_add_header p SIZEOF_ETH_HDR);
  if (failed : bool) then _ ← STATS_INC link_lenerr; mret ERR_BUF
  else
    b ← on_pm (pb_get p);
    let ethhdr := payload b in
    _ ← on_pm (write_mem (ptr_add ethhdr 12) (le_bytes 2 eth_type_be));
    _ ← on_pm (write_mem ethhdr dst);
    _ ← on_pm (write_mem (ptr_add ethhdr 6) src);
    nif ← netif_get n;
    _ ← sassert (nif_hwaddr_len nif =? ETH_HWADDR_LEN);
    linkoutput n p.

(** ** ARP messages *)

Definition etharp_raw (n : Z) (ethsrc_addr ethdst_addr hwsrc_addr : list Z) (ipsrc_addr : Z)
    (hwdst_addr : list Z) (ipdst_addr opcode : Z) : M Z :=
  _ ← sassert (negb (n =? 0));
  p ← on_pm (pbuf_alloc call_custom_free garbage PBUF_LINK SIZEOF_ETHARP_HDR PBUF_RAM);
  if p =? 0 then _ ← STATS_INC etharp_memerr; mret ERR_MEM
  else
    b ← on_pm (pb_get p);
    _ ← sassert (SIZEOF_ETHARP_HDR <=? len b);
    let hdr := payload b in
    _ ← on_pm (write_mem (ptr_add hdr 6) (le_bytes 2 (lwip_htons opcode)));
    nif ← netif_get n;
    _ ← sassert (nif_hwaddr_len nif =? ETH_HWADDR_LEN);
    _ ← on_pm (write_mem (ptr_add hdr 8) hwsrc_addr);
    _ ← on_pm (write_mem (ptr_add hdr 18) hwdst_addr);
    _ ← on_pm (write_mem (ptr_add hdr 14) (le_bytes 4 ipsrc_addr));
    _ ← on_pm (write_mem (ptr_add hdr 24) (le_bytes 4 ipdst_addr));
    _ ← on_pm (write_mem hdr (le_bytes 2 (PP_HTONS LWIP_IANA_HWTYPE_ETHERNET)));
    _ ← on_pm (write_mem (ptr_add hdr 2) (le_bytes 2 (PP_HTONS ETHTYPE_IP)));
    _ ← on_pm (write_mem (ptr_add hdr 4) [ETH_HWADDR_LEN]);
    _ ← on_pm (write_mem (ptr_add hdr 5) [4]);
    _ ← ethernet_output n p ethsrc_addr ethdst_addr ETHTYPE_ARP;
    _ ← STATS_INC etharp_xmit;
    _ ← on_pm (pbuf_free call_custom_free p);
    mret ERR_OK.

Definition etharp_request_dst (n ipaddr : Z) (hw_dst_addr : list Z) : M Z :=
  nif ← netif_get n;
  etharp_raw n (nif_hwaddr nif) hw_dst_addr (nif_hwaddr nif) (nif_ip (nif_addrs nif)) ethzero ipaddr ARP_REQUEST.
Definition etharp_request (n ipaddr : Z) : M Z := etharp_request_dst n ipaddr ethbroadcast.
Definition etharp_acd_probe (n ipaddr : Z) : M Z :=
  nif ← netif_get n;
  etharp_raw n (nif_hwaddr nif) ethbroadcast (nif_hwaddr nif) IPADDR_ANY ethzero ipaddr ARP_REQUEST.
Definition etharp_acd_announce (n ipaddr : Z) : M Z :=
  nif ← netif_get n;
  etharp_raw n (nif_hwaddr nif) ethbroadcast (nif_hwaddr nif) ipaddr ethzero ipaddr ARP_REQUEST.

(** ** Running the operations *)

Lemma on_pm_bind {A B} (m : ST (@pstate S) A) (f : A -> M B) st a s :
  m (pm st) = Ok (a, s) -> (on_pm m ≫= f) st = f a (with_pm st s).
Proof. intros E. unfold mbind, st_bind, on_pm. by rewrite E. Qed.
Lemma on_pm_get_bind {B} p b (f : pbuf -> M B) st :
  pbufs (pm st) !! p = Some b -> (on_pm (pb_get p) ≫= f) st = f b st.
Proof.
  intros Hb. rewrite (on_pm_bind _ _ _ b (pm st)); [by destruct st|]. unfold pb_get. by rewrite Hb.
Qed.
Lemma netif_get_bind {B} n x (f : netif -> M B) st :
  netifs st !! n = Some x -> (netif_get n ≫= f) st = f x st.
Proof. intros H. unfold mbind, st_bind, netif_get. by rewrite H. Qed.

(** ** Headers *)

Lemma splice_within o new ofs xs bs :
  0 <= ofs -> 0 <= o -> o + Z.of_nat (length new) <= Z.of_nat (length xs) ->
  ofs + Z.of_nat (length xs) <= Z.of_nat (length bs) ->
  splice (ofs + o) new (splice ofs xs bs) = splice ofs (splice o new xs) bs.
Proof.
  intros. assert (Hxs := splice_length o new xs ltac:(done) ltac:(done)). apply list_eq. intros i.
  rewrite !splice_lookup by (rewrite ?splice_length; lia). rewrite Hxs. repeat case_decide; try lia; try done;
    f_equal; lia.
Qed.

(** [hs] at the start [ofs] of what [p] holds. *)
Definition headed (s : pstate) (p ofs : Z) (bs hs : list Z) : @pstate S :=
  with_own s (<[p := splice ofs hs bs]> (own s)).

Lemma headed_start s p ofs n bs :
  own s !! p = Some bs -> 0 <= ofs -> 0 <= n -> ofs + n <= Z.of_nat (length bs) ->
  s = headed s p ofs bs (slice ofs n bs).
Proof.
  intros Hb ? ? ?. unfold headed. replace (splice _ _ _) with bs; [by rewrite insert_id by done; destruct s|].
  apply list_eq. intros i. rewrite splice_lookup, slice_length by lia.
  repeat case_decide; try done. rewrite slice_lookup, decide_True by lia. f_equal. lia.
Qed.
Lemma write_headed s p ofs o bs hs new :
  0 <= ofs -> 0 <= o -> o + Z.of_nat (length new) <= Z.of_nat (length hs) ->
  ofs + Z.of_nat (length hs) <= Z.of_nat (length bs) ->
  write_mem (ptr_add (Own p ofs) o) new (headed s p ofs bs hs) = Ok (tt, headed s p ofs bs (splice o new hs)).
Proof.
  intros. unfold headed. rewrite (write_own _ _ _ _ _ (splice ofs hs bs));
    [|apply lookup_insert_eq|lia|rewrite splice_length; lia].
  simpl. unfold with_own. simpl. by rewrite insert_insert_eq, splice_within by lia.
Qed.

(** A header of [k] bytes under construction: fields are written one by one. *)
Definition header_at (st1 : state) (s : pstate) (p ofs : Z) (bs : list Z) (k : nat) (hs : list Z) : Prop :=
  pm st1 = headed s p ofs bs hs /\ length hs = k /\ 0 <= ofs /\ ofs + Z.of_nat k <= Z.of_nat (length bs).

Lemma write_header_bind {B} (st1 : state) s p ofs bs k hs o new (f : unit -> M B) :
  header_at st1 s p ofs bs k hs -> 0 <= o -> o + Z.of_nat (length new) <= Z.of_nat k ->
  (on_pm (write_mem (ptr_add (Own p ofs) o) new) ≫= f) st1
  = f tt (with_pm st1 (headed s p ofs bs (splice o new hs))).
Proof.
  intros (E & <- & ? & ?) ? ?. apply on_pm_bind. rewrite E. apply write_headed; done || lia.
Qed.
Lemma write_header_bind0 {B} (st1 : state) s p ofs bs k hs o new (f : unit -> M B) :
  header_at st1 s p ofs bs k hs -> o = 0 -> o + Z.of_nat (length new) <= Z.of_nat k ->
  (on_pm (write_mem (Own p ofs) new) ≫= f) st1 = f tt (with_pm st1 (headed s p ofs bs (splice o new hs))).
Proof.
  intros H -> ?. rewrite <-(ptr_add_0 (Own p ofs)). by apply (write_header_bind _ _ _ _ _ k).
Qed.
Lemma header_at_write st1 s p ofs bs k hs o new :
  header_at st1 s p ofs bs k hs -> 0 <= o -> o + Z.of_nat (length new) <= Z.of_nat k ->
  header_at (with_pm st1 (headed s p ofs bs (splice o new hs))) s p ofs bs k (splice o new hs).
Proof. intros (E & <- & ? & ?) ? ?. split; [done|]. split; [by apply splice_length|]. lia. Qed.
(** Writes the field [new] at [o] of the header that [Hh] describes. *)
Ltac field_size := rewrite ?length_app, ?length_le_bytes; simpl length; lia.
Ltac write_field Hh o new :=
  match type of Hh with
  | header_at ?st1 ?s ?p ?ofs ?bs ?k ?hs =>
      first [rewrite (write_header_bind st1 s p ofs bs k hs o new _ Hh) by field_size
            |rewrite (write_header_bind0 st1 s p ofs bs k hs o new _ Hh) by field_size];
      apply (header_at_write st1 s p ofs bs k hs o new) in Hh; [|field_size..]
  end.

Lemma headed_refs E s p ofs bs hs :
  refs_ok E s -> own s !! p = Some bs -> 0 <= ofs -> ofs + Z.of_nat (length hs) <= Z.of_nat (length bs) ->
  refs_ok E (headed s p ofs bs hs).
Proof.
  intros H Hb ? ?. eapply heap_memory; [done|done|done| |by eauto]. simpl. intros q cs Hq.
  destruct (decide (p = q)) as [->|Hne]; [|exists cs; by rewrite lookup_insert_ne].
  rewrite lookup_insert_eq. eexists. split; [done|]. rewrite splice_length by lia. congruence.
Qed.
Lemma headed_calm s p ofs bs hs : indeg (pbufs s) p = 0 -> calm (fun q => q <> p) s (headed s p ofs bs hs).
Proof.
  intros Hi. apply calm_all; try done; [|intros x; by apply reach_other].
  intros q _ Hq. apply spared_keep; [done| |done]. simpl. by rewrite lookup_insert_ne.
Qed.

(** ** What is sent *)

Definition eth_frame (dst src : list Z) (eth_type : Z) (bs : list Z) : list Z :=
  dst ++ src ++ le_bytes 2 (lwip_htons eth_type) ++ bs.

(** Everything but the pbufs, the counters and the frames is as it was. *)
Definition tables_kept (st st' : state) : Prop :=
  netifs st' = netifs st /\ netif_list st' = netif_list st /\ acds st' = acds st /\
  arp_table st' = arp_table st /\ etharp_cached_entry st' = etharp_cached_entry st.

Lemma tables_kept_trans st1 st2 st3 : tables_kept st1 st2 -> tables_kept st2 st3 -> tables_kept st1 st3.
Proof. intros (?&?&?&?&?) (?&?&?&?&?). repeat split; congruence. Qed.

(** An interface that Ethernet frames can be sent on. *)
Definition ethernet_netif (st : state) (n : Z) : Prop :=
  n <> 0 /\ link_serves n /\
  exists nif, netifs st !! n = Some nif /\ nif_hwaddr_len nif = ETH_HWADDR_LEN /\ length (nif_hwaddr nif) = 6%nat.

(** Room for [k] bytes in front of the data of a packet. *)
Definition head_room (k : Z) (l : list (Z * pbuf)) : Prop :=
  match l with
  | [] => False
  | (p, b) :: _ => contiguous b = true /\ total l + k < 65536 /\ exists o, payload b = Own p o /\ k <= o
  end.

(** The driver was called once, when the frames were those of [st], with a packet that holds [bs]; it
    returned [err] and left the frames of [st']: one more, unless it reported an error. *)
Definition sent (n : Z) (bs : list Z) (err : Z) (st st' : state) : Prop :=
  exists p l st0 st1, packet (pbufs (pm st0)) l /\ head_addr l = p /\ data (pm st0) l = bs /\ frames st0 = frames st /\
    linkoutput n p st0 = Ok (err, st1) /\ frames st1 = frames st' /\
    frames st' = frames st ++ if err =? ERR_OK then [(n, bs)] else [].
(** The same for a packet that needs [room] for the Ethernet header: without it [ERR_BUF] is returned, and the driver is not called. *)
Definition link_sent (room : Prop) (n : Z) (bs : list Z) (err : Z) (st st' : state) : Prop :=
  (room /\ sent n bs err st st') \/ (~ room /\ err = ERR_BUF /\ frames st' = frames st).

Lemma sent_frames n bs err st st' : sent n bs err st st' ->
  exists out, frames st' = frames st ++ out /\ out `sublist_of` [(n, bs)].
Proof.
  intros (p & l & st0 & st1 & _ & _ & _ & _ & _ & _ & Hf). eexists. split; [exact Hf|].
  destruct (err =? ERR_OK); [done|apply sublist_nil_l].
Qed.
Lemma link_sent_frames room n bs err st st' : link_sent room n bs err st st' ->
  exists out, frames st' = frames st ++ out /\ out `sublist_of` [(n, bs)].
Proof.
  intros [[_ Hs]|(_ & _ & Hf)]; [by eapply sent_frames|]. exists []. rewrite app_nil_r. split; [done|apply sublist_nil_l].
Qed.
Lemma sent_same n bs err st1 st1' st2 st2' : frames st2 = frames st1 -> frames st2' = frames st1' ->
  sent n bs err st1 st1' -> sent n bs err st2 st2'.
Proof. unfold sent. by intros -> ->. Qed.
Lemma link_sent_same room n bs err st1 st1' st2 st2' : frames st2 = frames st1 -> frames st2' = frames st1' ->
  link_sent room n bs err st1 st1' -> link_sent room n bs err st2 st2'.
Proof. unfold link_sent, sent. by intros -> ->. Qed.
Lemma link_sent_iff (room room' : Prop) n bs err st st' : (room <-> room') ->
  link_sent room n bs err st st' -> link_sent room' n bs err st st'.
Proof. intros Hr [[? ?]|[? ?]]; [left|right]; (split; [by rewrite <-Hr|done]). Qed.

Lemma eth_header dst src ty hs : length dst = 6%nat -> length src = 6%nat -> length hs = 14%nat ->
  splice 6 src (splice 0 dst (splice 12 (le_bytes 2 (lwip_htons ty)) hs)) = eth_frame dst src ty [].
Proof.
  intros Hd Hs Hh. unfold eth_frame.
  do 6 (destruct dst as [|? dst]; [done|]). destruct dst; [|done].
  do 6 (destruct src as [|? src]; [done|]). destruct src; [|done].
  do 14 (destruct hs as [|? hs]; [done|]). by destruct hs.
Qed.

(** The bytes of a pbuf whose first bytes have been written. *)
Lemma headed_bytes s p ofs bs hs n b :
  payload b = Own p ofs -> len b = n -> own s !! p = Some bs ->
  0 <= ofs -> Z.of_nat (length hs) <= n -> ofs + n <= Z.of_nat (length bs) ->
  pbuf_bytes (headed s p ofs bs hs) b
  = hs ++ slice (ofs + Z.of_nat (length hs)) (n - Z.of_nat (length hs)) bs.
Proof.
  intros Hp Hl Hb ? ? ?. unfold pbuf_bytes. rewrite Hp, Hl. simpl. rewrite lookup_insert_eq. simpl.
  apply list_eq. intros i. rewrite slice_lookup. case_decide.
  - rewrite splice_lookup by lia. rewrite decide_False by lia. case_decide.
    + rewrite lookup_app_l by lia. f_equal. lia.
    + rewrite lookup_app_r, slice_lookup, decide_True by lia. f_equal. lia.
  - symmetry. apply lookup_ge_None_2. rewrite length_app, slice_length; lia.
Qed.

Lemma header_data E s p b b1 l ofs bs hs :
  refs_ok E s -> packet (pbufs s) ((p, b) :: l) -> own s !! p = Some bs ->
  payload b1 = ptr_add (payload b) (- Z.of_nat (length hs)) -> len b1 = len b + Z.of_nat (length hs) ->
  payload b1 = Own p ofs -> 0 <= ofs -> 0 <= len b -> ofs + len b1 <= Z.of_nat (length bs) ->
  data (headed (with_pbufs s (<[p := b1]> (pbufs s))) p ofs bs hs) ((p, b1) :: l) = hs ++ data s ((p, b) :: l).
Proof.
  intros H Hp Hbs Hpl Hlen Hp1 ? ? ?. rewrite !data_cons.
  rewrite (headed_bytes _ p ofs bs hs (len b1)) by (done || lia). rewrite <-app_assoc. f_equal. f_equal.
  - unfold pbuf_bytes. rewrite Hp1 in Hpl.
    destruct (payload b) as [|q o|q o]; simpl in Hpl; try done. injection Hpl as <- Ho. simpl.
    rewrite Hbs. simpl. f_equal; lia.
  - apply (refs_rest_data E s p b l _ H Hp).
Qed.

(** The three writes of [ethernet_output] and the driver's part. *)
Lemma ethernet_output_spec E n p b l src dst ty st :
  refs_ok E (pm st) -> packet (pbufs (pm st)) ((p, b) :: l) -> indeg (pbufs (pm st)) p = 0 ->
  ethernet_netif st n -> length src = 6%nat -> length dst = 6%nat ->
  exists err st', ethernet_output n p src dst ty st = Ok (err, st') /\
    refs_ok E (pm st') /\ calm (fun q => q <> p) (pm st) (pm st') /\ tables_kept st st' /\
    link_sent (head_room SIZEOF_ETH_HDR ((p, b) :: l)) n (eth_frame dst src ty (data (pm st) ((p, b) :: l))) err st st'.
Proof.
  intros H Hp Hi (Hn0 & Hserves & nif & Hnif & Hhl & _) Hsrc Hdst.
  assert (Hb : pbufs (pm st) !! p = Some (link b l)) by apply Hp. unfold ethernet_output.
  destruct (pbuf_add_header_heap E p (link b l) SIZEOF_ETH_HDR (pm st) H Hb Hi ltac:(done))
    as [[E0 Hno]|(s1 & b1 & E0 & H1 & Hct & -> & Hpl & Hlen & Htot & Hnx & Hfit & Hrf & _)];
    rewrite (on_pm_bind _ _ _ _ _ E0).
  { eexists ERR_BUF, _. split; [done|]. split; [done|]. split; [apply calm_refl|]. split; [done|].
    right. split; [|done]. intros (Hc & Ht & o & Ho & Hk). simpl in Ht. destruct (Hno o Hc Ho) as [?|Hx]; [lia|simpl in Hx; lia]. }
  set (s1 := with_pbufs _ _) in *. cbv iota.
  rewrite (on_pm_get_bind _ b1) by apply lookup_insert_eq.
  destruct Hfit as (ofs & bs & Hp1 & Hbs & Hofs & Hl1 & Hrng). simpl in Hp1, Hbs, Hl1, Hrng.
  change (len (link b l)) with (len b) in *. change (SIZEOF_ETH_HDR) with 14 in *.
  assert (Hsz := refs_sized _ _ _ _ _ H Hp). apply sized_cons in Hsz as (_ & Hlb & _).
  assert (Hh : header_at (with_pm st s1) s1 p ofs bs 14 (slice ofs 14 bs)).
  { split; [apply headed_start; done || lia|]. rewrite slice_length by lia. split; [done|lia]. }
  set (hs := slice ofs 14 bs) in *. assert (Hh14 : length hs = 14%nat) by apply Hh. rewrite Hp1.
  write_field Hh 12 (le_bytes 2 (lwip_htons ty)). write_field Hh 0 dst. write_field Hh 6 src.
  rewrite (netif_get_bind _ nif) by exact Hnif. rewrite sassert_bind by lia.
  rewrite eth_header in Hh |- * by done. set (st3 := with_pm _ _) in *.
  assert (Hb1 : b1 = link b1 l).
  { destruct b1. unfold link, with_next, with_tot_len. simpl in *. f_equal; lia || congruence. }
  assert (Hlf : length (eth_frame dst src ty []) = 14%nat) by apply Hh.
  assert (H3 : refs_ok E (pm st3)) by (apply headed_refs; done || lia).
  assert (Hp3 : packet (pbufs (pm st3)) ((p, b1) :: l)).
  { change (pbufs (pm st3)) with (<[p := b1]> (pbufs (pm st))). rewrite Hb1 at 1. by apply (packet_head _ _ b). }
  destruct (linkoutput_law E n p b1 l st3 Hserves H3 Hp3 ltac:(lia)) as (err & s' & out & El & Hun & Hout).
  rewrite El. assert (Hd : data (pm st3) ((p, b1) :: l) = eth_frame dst src ty (data (pm st) ((p, b) :: l))).
  { change (pm st3) with (headed s1 p ofs bs (eth_frame dst src ty [])).
    rewrite (header_data E (pm st) p b b1 l ofs bs) by (rewrite ?Hlf; done || lia).
    unfold eth_frame. by rewrite <-!app_assoc. }
  eexists err, _. split; [done|]. split; [by eapply heap_unchanged|]. split.
  { eapply calm_trans; [|by apply unchanged_calm]. eapply calm_trans; [|apply headed_calm; simpl; by rewrite (indeg_update _ _ _ _ _ Hb)].
    apply calm_all; try done; [|intros x; by apply reach_other|intros q _; simpl; by rewrite (indeg_update _ _ _ _ _ Hb)].
    intros q _ Hq. apply spared_keep; [|done|done]. simpl. by rewrite lookup_insert_ne. }
  split; [done|]. left. split.
  - split; [done|]. change (tot_len (link b l)) with (total ((p, b) :: l)) in Htot.
    assert (Hsz := refs_sized _ _ _ _ _ H3 Hp3). apply sized_cons in Hsz as (_ & _ & Hs1). simpl in Htot, Hs1 |- *.
    split; [lia|]. rewrite Hp1 in Hpl. change (payload (link b l)) with (payload b) in Hpl.
    destruct (payload b) as [|q o|q o]; simpl in Hpl; try done. injection Hpl as <- ->. exists o. split; [done|lia].
  - exists p, ((p, b1) :: l), st3. eexists. split; [done|]. split; [done|]. split; [done|]. split; [done|]. split; [exact El|].
    split; [done|]. rewrite Hd in Hout. simpl. f_equal.
    destruct Hout as [[-> ->]|[He ->]]; [done|]. by replace (err =? ERR_OK) with false by lia.
Qed.

(** The ARP message of RFC 826. *)
Definition arp_message (op : Z) (hwsrc : list Z) (ipsrc : Z) (hwdst : list Z) (ipdst : Z) : list Z :=
  be16 1 ++ be16 0x0800 ++ [6; 4] ++ be16 op ++ hwsrc ++ le_bytes 4 ipsrc ++ hwdst ++ le_bytes 4 ipdst.

Lemma arp_fields op hwsrc ipsrc hwdst ipdst hs :
  is_u16 op -> length hwsrc = 6%nat -> length hwdst = 6%nat -> length hs = 28%nat ->
  splice 5 [4] (splice 4 [ETH_HWADDR_LEN] (splice 2 (le_bytes 2 (PP_HTONS ETHTYPE_IP))
    (splice 0 (le_bytes 2 (PP_HTONS LWIP_IANA_HWTYPE_ETHERNET)) (splice 24 (le_bytes 4 ipdst)
      (splice 14 (le_bytes 4 ipsrc) (splice 18 hwdst (splice 8 hwsrc
        (splice 6 (le_bytes 2 (lwip_htons op)) hs))))))))
  = arp_message op hwsrc ipsrc hwdst ipdst.
Proof.
  intros Hop Hs Hd Hh. rewrite (htons_be16 op) by done. unfold arp_message.
  do 6 (destruct hwdst as [|? hwdst]; [done|]). destruct hwdst; [|done].
  do 6 (destruct hwsrc as [|? hwsrc]; [done|]). destruct hwsrc; [|done].
  do 28 (destruct hs as [|? hs]; [done|]). destruct hs; [reflexivity|done].
Qed.

(** The nine writes of [etharp_raw] into the new pbuf. *)
Lemma etharp_raw_write {B} n nif p b bs hwsrc ipsrc hwdst ipdst op (f : M B) (st : state) :
  payload b = Own p 14 -> own (pm st) !! p = Some bs -> (42 <= length bs)%nat ->
  netifs st !! n = Some nif -> nif_hwaddr_len nif = ETH_HWADDR_LEN ->
  length hwsrc = 6%nat -> length hwdst = 6%nat -> is_u16 op ->
  (let hdr := payload b in
   _ ← on_pm (write_mem (ptr_add hdr 6) (le_bytes 2 (lwip_htons op)));
   nif ← netif_get n;
   _ ← sassert (nif_hwaddr_len nif =? ETH_HWADDR_LEN);
   _ ← on_pm (write_mem (ptr_add hdr 8) hwsrc);
   _ ← on_pm (write_mem (ptr_add hdr 18) hwdst);
   _ ← on_pm (write_mem (ptr_add hdr 14) (le_bytes 4 ipsrc));
   _ ← on_pm (write_mem (ptr_add hdr 24) (le_bytes 4 ipdst));
   _ ← on_pm (write_mem hdr (le_bytes 2 (PP_HTONS LWIP_IANA_HWTYPE_ETHERNET)));
   _ ← on_pm (write_mem (ptr_add hdr 2) (le_bytes 2 (PP_HTONS ETHTYPE_IP)));
   _ ← on_pm (write_mem (ptr_add hdr 4) [ETH_HWADDR_LEN]);
   _ ← on_pm (write_mem (ptr_add hdr 5) [4]);
   f) st
  = f (with_pm st (headed (pm st) p 14 bs (arp_message op hwsrc ipsrc hwdst ipdst))).
Proof.
  intros Hp Hbs Hl Hnif Hhl Hs Hd Hop. cbv zeta. rewrite Hp.
  assert (Hh : header_at st (pm st) p 14 bs 28 (slice 14 28 bs)).
  { split; [apply headed_start; done || lia|]. rewrite slice_length by lia. split; [done|lia]. }
  set (hs := slice 14 28 bs) in *. assert (Hh28 : length hs = 28%nat) by apply Hh.
  write_field Hh 6 (le_bytes 2 (lwip_htons op)).
  rewrite (netif_get_bind _ nif) by exact Hnif. rewrite sassert_bind by lia.
  write_field Hh 8 hwsrc. write_field Hh 18 hwdst. write_field Hh 14 (le_bytes 4 ipsrc).
  write_field Hh 24 (le_bytes 4 ipdst). write_field Hh 0 (le_bytes 2 (PP_HTONS LWIP_IANA_HWTYPE_ETHERNET)).
  write_field Hh 2 (le_bytes 2 (PP_HTONS ETHTYPE_IP)). write_field Hh 4 [ETH_HWADDR_LEN]. write_field Hh 5 [4].
  by rewrite arp_fields by done.
Qed.

(** Either there was no memory, or the frame was given to the driver; in any case
    the message's pbuf is gone. *)
Definition arp_sent (n : Z) (bs : list Z) (err : Z) (st st' : state) : Prop :=
  (err = ERR_MEM /\ frames st' = frames st /\
   exists s1, pbuf_alloc call_custom_free garbage PBUF_LINK SIZEOF_ETHARP_HDR PBUF_RAM (pm st) = Ok (0, s1)) \/
  (err = ERR_OK /\ exists derr, sent n bs derr st st').

Lemma arp_sent_frames n bs err st st' : arp_sent n bs err st st' ->
  exists out, frames st' = frames st ++ out /\ out `sublist_of` [(n, bs)].
Proof.
  intros [(_ & -> & _)|(_ & derr & Hs)]; [|by eapply sent_frames]. exists []. rewrite app_nil_r. split; [done|apply sublist_nil_l].
Qed.
Lemma arp_sent_end n bs err st st1 st2 : frames st2 = frames st1 -> arp_sent n bs err st st1 -> arp_sent n bs err st st2.
Proof.
  intros Hf [(? & ? & ?)|(? & derr & Hs)]; [left; split; [done|]; split; [congruence|done]|right].
  split; [done|]. exists derr. by eapply sent_same.
Qed.
Lemma arp_sent_prefix n bs err st st' : arp_sent n bs err st st' -> frames st `prefix_of` frames st'.
Proof. intros (out & -> & _)%arp_sent_frames. by apply prefix_app_r. Qed.

(** What sending a message leaves of the state. *)
Definition message_sent (E : gmultiset Z) (st st' : state) : Prop :=
  refs_ok E (pm st') /\ calm (.∈ E) (pm st) (pm st') /\ tables_kept st st'.

Lemma etharp_raw_spec E n ethsrc ethdst hwsrc ipsrc hwdst ipdst op st :
  refs_ok E (pm st) -> ethernet_netif st n -> is_u16 op ->
  length ethsrc = 6%nat -> length ethdst = 6%nat -> length hwsrc = 6%nat -> length hwdst = 6%nat ->
  exists err st', etharp_raw n ethsrc ethdst hwsrc ipsrc hwdst ipdst op st = Ok (err, st') /\
    message_sent E st st' /\
    arp_sent n (eth_frame ethdst ethsrc ETHTYPE_ARP (arp_message op hwsrc ipsrc hwdst ipdst)) err st st'.
Proof.
  intros H Hn Hop H1 H2 H3 H4. pose proof Hn as (Hn0 & _ & nif & Hnif & Hhl & _). unfold etharp_raw.
  rewrite sassert_bind by lia.
  destruct (pbuf_alloc_ram_heap call_custom_free garbage E PBUF_LINK SIZEOF_ETHARP_HDR (pm st) H ltac:(done))
    as (p & s1 & E1 & [(-> & Hok & Hun)|
      (b & Hok & Hnone & Hpb & Hpl & Hl & Ht & Hnx & (o & bs & Ho & Hbs & Hrng) & Hct%ram_contiguous & Hr & Hcalm)]);
    rewrite (on_pm_bind _ _ _ _ _ E1).
  { eexists ERR_MEM, _. split; [done|]. split; [|left; split; [done|]; split; [done|by exists s1]].
    split; [done|]. split; [by apply unchanged_calm|done]. }
  assert (Hb : pbufs s1 !! p = Some b) by (rewrite Hpb; apply lookup_insert_eq).
  assert (Hp0 := heap_nonzero _ _ _ _ Hok Hb). replace (p =? 0) with false by lia.
  destruct (heap_absent E (pm st) p H Hnone Hp0) as [Hi HE].
  rewrite (on_pm_get_bind _ b) by exact Hb. rewrite sassert_bind by lia.
  change (layer_offset PBUF_LINK) with 14 in Hpl. simpl in Ho, Hbs, Hrng. rewrite Hpl in Ho. injection Ho as <-.
  change SIZEOF_ETHARP_HDR with 28 in *.
  rewrite (etharp_raw_write n nif p b bs) by (done || lia). set (msg := arp_message _ _ _ _ _).
  set (st2 := with_pm _ _). assert (Hmsg : length msg = 28%nat) by (unfold msg, arp_message; field_size).
  assert (Hok2 : refs_ok ({[+ p +]} ⊎ E) (pm st2)) by (apply headed_refs; done || lia).
  assert (Hbl : link b [] = b) by (unfold link, with_next, with_tot_len; destruct b; simpl in *; f_equal; lia).
  assert (Hp2 : packet (pbufs (pm st2)) [(p, b)]) by (split; [done|]; split; [by rewrite Hbl|done]).
  assert (Hi2 : indeg (pbufs (pm st2)) p = 0).
  { change (pbufs (pm st2)) with (pbufs s1). rewrite Hpb, indeg_insert_new, decide_False by (done || congruence).
    by rewrite Hi. }
  assert (Hd : data (pm st2) [(p, b)] = msg).
  { rewrite data_cons. cbn [data]. unfold st2. simpl pm. rewrite (headed_bytes s1 p 14 bs msg 28) by (done || lia).
    rewrite Hmsg, slice_0. simpl. by rewrite !app_nil_r. }
  destruct (ethernet_output_spec _ n p b [] ethsrc ethdst ETHTYPE_ARP st2 Hok2 Hp2 Hi2 Hn H1 H2)
    as (derr & st3 & E3 & Hok3 & Hc3 & Ht3 & Hs3). rewrite (st_bind_ok _ _ _ _ _ E3), Hd in *.
  destruct Hs3 as [[_ Hs3]|[[] _]]; [|split; [done|]; split; [simpl; unfold SIZEOF_ETH_HDR; lia|by exists 14]].
  unfold STATS_INC. rewrite (st_bind_ok _ _ _ tt _ eq_refl). set (st4 := with_stats _ _).
  destruct (pbuf_free_heap call_custom_free E p (pm st4) Hok3) as (k & s5 & E5 & Hok5 & Hc5).
  rewrite (on_pm_bind _ _ _ _ _ E5). eexists ERR_OK, _. split; [done|]. split.
  - split; [done|]. split; [|exact Ht3]. eapply calm_trans; [by eapply calm_weaken|].
    eapply calm_trans; [|exact Hc5]. eapply calm_weaken; [eapply calm_trans; [by apply headed_calm|exact Hc3]|].
    intros q Hq ->. rewrite elem_of_multiplicity in Hq. lia.
  - right. split; [done|]. exists derr. by eapply sent_same; [| |exact Hs3].
Qed.

(** The requests, probes and announcements. *)
Lemma etharp_request_dst_spec E n nif ip dst st :
  refs_ok E (pm st) -> ethernet_netif st n -> netifs st !! n = Some nif -> length dst = 6%nat ->
  exists err st', etharp_request_dst n ip dst st = Ok (err, st') /\ message_sent E st st' /\
    arp_sent n (eth_frame dst (nif_hwaddr nif) ETHTYPE_ARP
      (arp_message ARP_REQUEST (nif_hwaddr nif) (nif_ip (nif_addrs nif)) ethzero ip)) err st st'.
Proof.
  intros H Hn Hnif Hd. pose proof Hn as (_ & _ & nif' & Hnif' & _ & Hhw). unfold etharp_request_dst.
  rewrite (netif_get_bind _ nif) by done. apply etharp_raw_spec; done || congruence.
Qed.
Lemma etharp_request_spec E n nif ip st :
  refs_ok E (pm st) -> ethernet_netif st n -> netifs st !! n = Some nif ->
  exists err st', etharp_request n ip st = Ok (err, st') /\ message_sent E st st' /\
    arp_sent n (eth_frame ethbroadcast (nif_hwaddr nif) ETHTYPE_ARP
      (arp_message ARP_REQUEST (nif_hwaddr nif) (nif_ip (nif_addrs nif)) ethzero ip)) err st st'.
Proof. intros. by apply etharp_request_dst_spec. Qed.
Lemma etharp_acd_probe_spec E n nif ip st :
  refs_ok E (pm st) -> ethernet_netif st n -> netifs st !! n = Some nif ->
  exists err st', etharp_acd_probe n ip st = Ok (err, st') /\ message_sent E st st' /\
    arp_sent n (eth_frame ethbroadcast (nif_hwaddr nif) ETHTYPE_ARP
      (arp_message ARP_REQUEST (nif_hwaddr nif) 0 ethzero ip)) err st st'.
Proof.
  intros H Hn Hnif. pose proof Hn as (_ & _ & nif' & Hnif' & _ & Hhw). unfold etharp_acd_probe.
  rewrite (netif_get_bind _ nif) by done. apply etharp_raw_spec; done || congruence.
Qed.
Lemma etharp_acd_announce_spec E n nif ip st :
  refs_ok E (pm st) -> ethernet_netif st n -> netifs st !! n = Some nif ->
  exists err st', etharp_acd_announce n ip st = Ok (err, st') /\ message_sent E st st' /\
    arp_sent n (eth_frame ethbroadcast (nif_hwaddr nif) ETHTYPE_ARP
      (arp_message ARP_REQUEST (nif_hwaddr nif) ip ethzero ip)) err st st'.
Proof.
  intros H Hn Hnif. pose proof Hn as (_ & _ & nif' & Hnif' & _ & Hhw). unfold etharp_acd_announce.
  rewrite (netif_get_bind _ nif) by done. apply etharp_raw_spec; done || congruence.
Qed.

(** [etharp_raw] on any Ethernet interface: it returns [ERR_MEM] and sends
    nothing if there is no memory for the message, and otherwise returns [ERR_OK]
    and has handed the driver one Ethernet frame, from the given source to the given
    destination, of type 0x0806 and with the 28 bytes RFC 826 prescribes for the
    operation and the four addresses; the frame is sent unless the driver reported
    an error.  No assertion fails and no access is out of bounds, the pbuf of the
    message is freed, and every other pbuf keeps its holders and its data. *)
Theorem etharp_raw_correct E n ethsrc ethdst hwsrc ipsrc hwdst ipdst op st :
  refs_ok E (pm st) -> ethernet_netif st n -> is_u16 op ->
  length ethsrc = 6%nat -> length ethdst = 6%nat -> length hwsrc = 6%nat -> length hwdst = 6%nat ->
  let frame := ethdst ++ ethsrc ++ be16 0x0806 ++
    be16 1 ++ be16 0x0800 ++ [6; 4] ++ be16 op ++ hwsrc ++ le_bytes 4 ipsrc ++ hwdst ++ le_bytes 4 ipdst in
  exists err st', etharp_raw n ethsrc ethdst hwsrc ipsrc hwdst ipdst op st = Ok (err, st') /\
    refs_ok E (pm st') /\ calm (.∈ E) (pm st) (pm st') /\ tables_kept st st' /\
    ((err = ERR_MEM /\ frames st' = frames st /\
      exists s1, pbuf_alloc call_custom_free garbage PBUF_LINK SIZEOF_ETHARP_HDR PBUF_RAM (pm st) = Ok (0, s1)) \/
     (err = ERR_OK /\ exists derr, sent n frame derr st st')).
Proof.
  intros H Hn Hop H1 H2 H3 H4 frame.
  destruct (etharp_raw_spec E n ethsrc ethdst hwsrc ipsrc hwdst ipdst op st H Hn Hop H1 H2 H3 H4)
    as (err & st' & E1 & (Hok & Hc & Ht) & Hs).
  by exists err, st'.
Qed.

End ethernet.

(** ** [lwipOutput] provides the interface *)

Section driver.
Context {S : Type} `{!PbufAlloc S}.
Abbreviation state := (@net S).
Context (garbage : Z -> Z) (attached : Z -> bool).
(** The kernel's [malloc] finds memory for every frame: [lwipOutput] does not
    look at what it returns. *)
Context (malloc_finds : forall L s n p s', pa_live L s -> pa_malloc src_heap n s = Ok (p, s') -> p <> 0).

Lemma lwipOutput_loop_spec fuel l addr tot pre rest (st : state) :
  packet (pbufs (pm st)) l -> readable (pm st) l -> Forall (fun x => 0 <= len x.2) l ->
  addr <> 0 -> total l <= Z.of_nat (length rest) -> Z.of_nat (length pre) + Z.of_nat (length rest) = tot ->
  (length l < fuel)%nat ->
  lwipOutput_loop fuel addr tot (pre ++ rest) (head_addr l) (Z.of_nat (length pre)) st
  = Ok ((pre ++ data (pm st) l ++ drop (length (data (pm st) l)) rest, Z.of_nat (length pre) + total l), st).
Proof.
  revert l pre rest. induction fuel as [|fuel IH]; intros l pre rest Hp Hr Hl Ha Ht Htot Hf; [lia|].
  destruct l as [|[p b] l]; cbn [lwipOutput_loop head_addr].
  { rewrite Z.eqb_refl. simpl. by rewrite Z.add_0_r. }
  destruct Hp as (Hp0 & Hb & Hp). apply Forall_cons in Hr as [Hrb Hr]. apply Forall_cons in Hl as [Hlb Hl].
  simpl in Hrb, Hlb, Ht. replace (p =? 0) with false by lia. rewrite (on_pm_get_bind _ _ _ _ Hb).
  pose proof (total_nonneg _ Hl). destruct (pbuf_bytes_length (pm st) p b Hrb Hlb) as [_ Hlen].
  assert (Hrd : read_mem (payload b) (len b) (pm st) = Ok (pbuf_bytes (pm st) b, pm st)).
  { pose proof (pbuf_read (pm st) b 0 (len b) Hrb ltac:(lia) Hlb ltac:(lia)) as Hrd.
    rewrite ptr_add_0 in Hrd. rewrite Hrd. unfold slice. change (Z.to_nat 0) with 0%nat. by rewrite drop_0, take_ge by lia. }
  change (payload (link b l)) with (payload b). change (len (link b l)) with (len b).
  rewrite (on_pm_bind _ _ _ _ _ Hrd).
  replace (_ && _) with false by lia. replace (with_pm st (pm st)) with st by (by destruct st).
  rewrite splice_app_r, Z.sub_diag by lia. unfold splice at 1. change (Z.to_nat 0) with 0%nat.
  rewrite take_0. cbn [app Nat.add]. rewrite app_assoc. change (next (link b l)) with (head_addr l).
  replace (Z.of_nat (length pre) + len b) with (Z.of_nat (length (pre ++ pbuf_bytes (pm st) b)))
    by (rewrite length_app; lia).
  rewrite IH by (done || rewrite ?length_app, ?length_drop; simpl in Hf; lia). do 3 f_equal.
  - rewrite data_cons, <-!app_assoc, length_app, drop_drop. done.
  - rewrite length_app. simpl. lia.
Qed.

(** A block taken and given back leaves the pbufs alone. *)
Lemma kmalloc_ok E n (st : state) :
  refs_ok E (pm st) ->
  exists p s, kmalloc n st = Ok (p, with_pm st (with_alloc (pm st) s)) /\ p <> 0 /\
    exists s', (forall st' : state, alloc (pm st') = s ->
      kfree p st' = Ok (tt, with_pm st' (with_alloc (pm st') s'))) /\
    pa_live (live (pbufs (pm st))) s'.
Proof using malloc_finds.
  intros H. pose proof (heap_alloc _ _ H) as [Hok Ha]. unfold kmalloc.
  destruct (pa_malloc_law _ _ src_heap n Hok) as (p & s & Em & [[-> _]|(Hp & _ & Hn & Hl)]).
  { by destruct (malloc_finds _ _ _ _ _ Hok Em). }
  destruct (pa_free_law _ _ src_heap p Hl) as (s' & Ef & Hl'); [apply lookup_insert_eq|].
  exists p, s. rewrite Em. split; [done|]. split; [lia|]. exists s'. split.
  - intros st' Hs. unfold kfree. replace (p =? 0) with false by lia. by rewrite Hs, Ef.
  - by rewrite delete_insert_id in Hl' by done.
Qed.

Lemma lwipOutput_law E n p b l (st : state) :
  attached n = true -> refs_ok E (pm st) -> packet (pbufs (pm st)) ((p, b) :: l) -> 0 < len b ->
  exists err s' out, lwipOutput garbage attached n p st = Ok (err, with_frames (with_pm st s') (frames st ++ out)) /\
    unchanged (pm st) s' /\
    ((err = ERR_OK /\ out = [(n, data (pm st) ((p, b) :: l))]) \/ (err <> ERR_OK /\ out = [])).
Proof using malloc_finds.
  intros Hn H Hp Hb0. assert (Hb : pbufs (pm st) !! p = Some (link b l)) by apply Hp.
  assert (Hsz := refs_sized _ _ _ _ _ H Hp). assert (Hrd := refs_readable _ _ _ H Hp).
  unfold lwipOutput. rewrite (on_pm_get_bind _ _ _ _ Hb).
  set (tot := tot_len (link b l)). assert (Ht : tot = total ((p, b) :: l)) by done.
  destruct (kmalloc_ok E tot st H) as (a & s & Em & Ha & s' & Ef & Hl).
  rewrite (st_bind_ok _ _ _ _ _ Em). set (st1 := with_pm st _).
  rewrite (on_pm_bind _ _ _ (Datatypes.S (size (pbufs (pm st)))) (pm st1)) by done.
  replace (with_pm st1 (pm st1)) with st1 by done.
  pose proof (packet_length _ _ Hp). pose proof (total_nonneg _ (proj1 Hsz)) as Htot0.
  assert (Hfl : Z.of_nat (length (fresh_bytes garbage a tot)) = tot).
  { unfold fresh_bytes. rewrite length_map, length_seqZ. lia. }
  assert (Hd := data_length _ _ Hrd (proj1 Hsz)).
  rewrite (st_bind_ok _ _ _ _ _ (lwipOutput_loop_spec (Datatypes.S (size (pbufs (pm st)))) ((p, b) :: l) a tot []
    (fresh_bytes garbage a tot) st1
    Hp Hrd (proj1 Hsz) Ha ltac:(lia) Hfl ltac:(lia))).
  change (data (pm st1) ((p, b) :: l)) with (data (pm st) ((p, b) :: l)).
  rewrite drop_ge, app_nil_r by lia.
  rewrite sassert_bind by (change (length []) with 0%nat; lia). rewrite sassert_bind by done.
  rewrite (st_bind_ok _ _ _ tt (with_frames st1 (frames st1 ++ [(n, data (pm st) ((p, b) :: l))]))) by done.
  rewrite (st_bind_ok _ _ _ _ _ (Ef (with_frames st1 _) eq_refl)).
  eexists ERR_OK, (with_alloc (pm st) s'), [(n, data (pm st) ((p, b) :: l))].
  split; [done|]. split; [|by left]. destruct (heap_alloc _ _ H). by split.
Qed.

(** The driver as the stack sees it. *)
Definition lwip_driver : @LinkDriver S _ := {|
  linkoutput := lwipOutput garbage attached;
  link_serves n := attached n = true;
  linkoutput_law := lwipOutput_law
|}.

(** An operation of several steps that returned has a result for each. *)
Ltac inv_ok E :=
  repeat match type of E with
  | (?m ≫= ?f) ?s = Ok ?r =>
      change (st_bind _ _ f m s = Ok r) in E; unfold st_bind in E;
      let Em := fresh "Em" in destruct (m s) as [[? ?]| | |] eqn:Em; [|done..]; cbv beta in E
  | (let '(_, _) := ?x in _) ?s = _ => destruct x
  end.

(** It never reports an error. *)
Lemma lwipOutput_err n p (st st' : state) err :
  lwipOutput garbage attached n p st = Ok (err, st') -> err = ERR_OK.
Proof.
  unfold lwipOutput. intros E. inv_ok E. by injection E.
Qed.

(** With memory to be had, [etharp_raw] always sends. *)
Lemma pbuf_alloc_ram_finds ccf layer n (s s' : @pstate S) p :
  pstate_ok s -> is_u16 n -> pbuf_alloc ccf garbage layer n PBUF_RAM s = Ok (p, s') -> p <> 0.
Proof using malloc_finds.
  intros [Hlive _] Hn. pose proof (layer_offset_range layer). unfold is_u16 in Hn. unfold pbuf_alloc.
  change ((PBUF_RAM =? PBUF_REF) || (PBUF_RAM =? PBUF_ROM)) with false.
  change (PBUF_RAM =? PBUF_POOL) with false. rewrite Z.eqb_refl. cbv iota zeta. rewrite !mem_align_size.
  rewrite (u32_id (layer_offset layer + n)) by (unfold is_u32; lia).
  unfold u64. change SIZEOF_STRUCT_PBUF with 24. rewrite Z.mod_small by lia.
  replace (_ || _) with false by lia. unfold mbind at 1, st_bind at 1, alloc_from.
  destruct (pa_malloc src_heap _ _) as [[q t]| | |] eqn:Em; simpl; try done.
  assert (q <> 0) by (by eapply malloc_finds). replace (q =? 0) with false by lia.
  unfold mbind, st_bind. destruct (pbuf_init_alloced_pbuf _ _ _ _ _ _ _) as [[? ?]| | |]; try done.
  destruct (sassert _ _) as [[? ?]| | |]; try done. by intros [= <- _].
Qed.

Lemma etharp_raw_err ccf E n ethsrc ethdst hwsrc ipsrc hwdst ipdst op (st st' : state) err :
  refs_ok E (pm st) ->
  etharp_raw ccf garbage (Link := lwip_driver) n ethsrc ethdst hwsrc ipsrc hwdst ipdst op st = Ok (err, st') ->
  err = ERR_OK.
Proof.
  intros H Er. unfold etharp_raw in Er.
  destruct (decide (n = 0)) as [->|Hn]; [done|]. rewrite sassert_bind in Er by lia.
  destruct (pbuf_alloc_ram_heap ccf garbage E PBUF_LINK SIZEOF_ETHARP_HDR (pm st) H ltac:(done)) as (p & s1 & E1 & _).
  rewrite (on_pm_bind _ _ _ _ _ E1) in Er.
  assert (p <> 0) by (eapply pbuf_alloc_ram_finds; [apply H| |done]; done).
  replace (p =? 0) with false in Er by lia. inv_ok Er. by injection Er.
Qed.

Lemma etharp_raw_sends ccf E n ethsrc ethdst hwsrc ipsrc hwdst ipdst op (st st' : state) err :
  refs_ok E (pm st) -> ethernet_netif (Link := lwip_driver) st n -> is_u16 op ->
  length ethsrc = 6%nat -> length ethdst = 6%nat -> length hwsrc = 6%nat -> length hwdst = 6%nat ->
  etharp_raw ccf garbage (Link := lwip_driver) n ethsrc ethdst hwsrc ipsrc hwdst ipdst op st = Ok (err, st') ->
  frames st' = frames st ++
    [(n, eth_frame ethdst ethsrc ETHTYPE_ARP (arp_message op hwsrc ipsrc hwdst ipdst))].
Proof.
  intros H Hn Hop H1 H2 H3 H4 Er. assert (Herr := etharp_raw_err _ _ _ _ _ _ _ _ _ _ _ _ _ H Er).
  destruct (etharp_raw_spec ccf garbage (Link := lwip_driver) E n ethsrc ethdst hwsrc ipsrc hwdst ipdst op st
    H Hn Hop H1 H2 H3 H4) as (err' & st1 & E1 & _ & Hs). rewrite Er in E1. injection E1 as <- <-.
  destruct Hs as [[-> _]|(_ & derr & p & l & st0 & st1 & _ & _ & _ & _ & El & _ & Hf)]; [done|].
  by apply lwipOutput_err in El as ->.
Qed.

(** [lwipOutput] is a [linkoutput]: given a packet of the heap and an interface
    whose device is attached it returns [ERR_OK], the frame handed to the device is
    the concatenation of the data of the packet's pbufs, the assertion that the
    lengths agree holds, no copy leaves the buffer or a pbuf, and the buffer is
    given back: pbufs, their data and the live blocks of memory are as before. *)
Theorem lwipOutput_correct E n p b l (st : state) :
  attached n = true -> refs_ok E (pm st) -> packet (pbufs (pm st)) ((p, b) :: l) -> 0 < len b ->
  exists s', lwipOutput garbage attached n p st
    = Ok (ERR_OK, with_frames (with_pm st s') (frames st ++ [(n, data (pm st) ((p, b) :: l))])) /\
    unchanged (pm st) s'.
Proof using malloc_finds.
  intros Hn H Hp Hb. destruct (lwipOutput_law E n p b l st Hn H Hp Hb) as (err & s' & out & E1 & Hun & Hout).
  assert (Herr := lwipOutput_err _ _ _ _ _ E1). destruct Hout as [[-> ->]|[? _]]; [by exists s'|done].
Qed.

End driver.

(** ** The properties at a concrete network *)

Section example.
#[local] Existing Instance example_PbufAlloc.

(** One interface, 10.0.0.1/8, gateway 10.0.0.254. *)
Definition example_nif : netif :=
  {| nif_next := 0; nif_addrs := {| nif_flags := 0x0f; nif_ip := 0x0100000a; nif_netmask := 0x000000ff |};
     nif_gw := 0xfe00000a; nif_mtu := 1500; nif_hwaddr := [2; 0; 0; 0; 0; 1]; nif_hwaddr_len := 6; nif_num := 0;
     nif_acd_list := 0 |}.
Definition empty_entry : etharp_entry :=
  {| ent_q := 0; ent_ipaddr := 0; ent_netif := 0; ent_ethaddr := ethzero; ent_ctime := 0; ent_state := 0 |}.
Definition example_net : @net (memp_state * Z) :=
  {| pm := example_st0; netifs := {[0x300 := example_nif]}; netif_list := 0x300; acds := ∅;
     arp_table := replicate 10 empty_entry; etharp_cached_entry := 0; lwip_stats := fun _ => 0;
     rand_state := 0; frames := [] |}.

Lemma example_malloc_finds L (s : memp_state * Z) n p s' :
  pa_live L s -> pa_malloc src_heap n s = Ok (p, s') -> p <> 0.
Proof.
  intros (B & A & _ & [Hh _] & _). simpl in Hh. unfold pa_malloc. simpl. unfold mem_malloc. simpl.
  destruct (s.2 =? 0) eqn:E0; [lia|]. rewrite align_id, Z.eqb_refl. simpl. intros [= <- _]. lia.
Qed.
Definition example_driver : @LinkDriver (memp_state * Z) _ :=
  lwip_driver zeros (fun n => n =? 0x300) example_malloc_finds.

Lemma example_refs : refs_ok ∅ (pm example_net).
Proof.
  split; [exact example_ok0| |].
  - intros p b Hb. simpl in Hb. by rewrite lookup_empty in Hb.
  - intros p Hp. by apply gmultiset_elem_of_empty in Hp.
Qed.
Lemma example_ethernet : ethernet_netif (Link := example_driver) example_net 0x300.
Proof. split; [done|]. split; [done|]. by exists example_nif. Qed.

(** A pbuf of three bytes. *)
Definition example_pm1 : @pstate (memp_state * Z) :=
  after (pbuf_alloc no_custom (fun a => a) PBUF_LINK 3 PBUF_RAM example_st0).
Lemma example_refs1 : refs_ok {[+ 0x10000 +]} example_pm1.
Proof.
  destruct (pbuf_alloc_ram_heap no_custom (fun a => a) ∅ PBUF_LINK 3 example_st0 example_refs ltac:(done))
    as (p & st' & E & H).
  assert (E' : pbuf_alloc no_custom (fun a => a) PBUF_LINK 3 PBUF_RAM example_st0 = Ok (0x10000, example_pm1))
    by (vm_compute; reflexivity).
  rewrite E' in E. injection E as <- <-. destruct H as [[? _]|(b & H & _)]; [done|].
  by rewrite (right_id_L ∅ (⊎)) in H.
Qed.

(** An announcement of 10.0.0.1, and a frame of two pbufs. *)
Lemma etharp_raw_correct_witness :
  exists err st',
    etharp_raw no_custom zeros (Link := example_driver) 0x300 [2; 0; 0; 0; 0; 1] ethbroadcast
      [2; 0; 0; 0; 0; 1] 0x0100000a ethzero 0x0100000a ARP_REQUEST example_net = Ok (err, st') /\
    refs_ok ∅ (pm st') /\ calm (.∈ (∅ : gmultiset Z)) (pm example_net) (pm st') /\ tables_kept example_net st' /\
    ((err = ERR_MEM /\ frames st' = [] /\
      exists s1, pbuf_alloc no_custom zeros PBUF_LINK SIZEOF_ETHARP_HDR PBUF_RAM (pm example_net) = Ok (0, s1)) \/
     (err = ERR_OK /\ exists derr, sent (Link := example_driver) 0x300
       [0xff; 0xff; 0xff; 0xff; 0xff; 0xff; 2; 0; 0; 0; 0; 1; 8; 6;
        0; 1; 8; 0; 6; 4; 0; 1; 2; 0; 0; 0; 0; 1; 10; 0; 0; 1; 0; 0; 0; 0; 0; 0; 10; 0; 0; 1] derr example_net st')).
Proof.
  exact (etharp_raw_correct no_custom zeros (Link := example_driver) ∅ 0x300
    [2; 0; 0; 0; 0; 1] ethbroadcast [2; 0; 0; 0; 0; 1] 0x0100000a ethzero 0x0100000a ARP_REQUEST example_net
    example_refs example_ethernet ltac:(done) eq_refl eq_refl eq_refl eq_refl).
Defined.

Lemma lwipOutput_correct_witness :
  let st := with_pm example_net example_pm1 in
  exists s', lwipOutput zeros (fun n => n =? 0x300) 0x300 0x10000 st
    = Ok (ERR_OK, with_frames (with_pm st s') [(0x300, [14; 15; 16])]) /\ unchanged example_pm1 s'.
Proof.
  refine (lwipOutput_correct zeros (fun n => n =? 0x300) example_malloc_finds {[+ 0x10000 +]} 0x300
    0x10000 (ram_pbuf 0x10000 14 3) [] (with_pm example_net example_pm1) eq_refl example_refs1 _ eq_refl).
  vm_compute. by repeat split.
Defined.
End example.
