(* ===== verification/Link.v ===== *)
(** * The invariant of the link layer

    [link_ok E st] is what the ARP cache, the conflict detection and the pbufs
    they hold satisfy between any two operations, when the references [E] are
    held by others.  The lemmas say which changes of the state preserve it. *)

From stdpp Require Import gmultiset.
From S2P Require Import Prelude Def Ip4Addr Memp Mem Pbuf PbufData PbufHeap Ethernet.

Set Default Proof Using "Type".

Create HintDb link.

Definition ARP_TABLE_SIZE : Z := 10.
Definition ARP_MAXAGE : Z := 300.
Definition ARP_MAXPENDING : Z := 5.
Definition ETHARP_STATE_EMPTY : Z := 0.
Definition ETHARP_STATE_PENDING : Z := 1.
Definition ETHARP_STATE_STABLE : Z := 2.
Definition ETHARP_STATE_STABLE_REREQUESTING_1 : Z := 3.
Definition ETHARP_STATE_STABLE_REREQUESTING_2 : Z := 4.

(** ** Linked lists *)

(** From [a] on, the list of the objects in [h] is [l]. *)
Fixpoint chain_at {A} (nxt : A -> Z) (h : gmap Z A) (a : Z) (l : list Z) : Prop :=
  match l with
  | [] => a = 0
  | b :: l' => a = b /\ b <> 0 /\ exists x, h !! b = Some x /\ chain_at nxt h (nxt x) l'
  end.

Section chain.
Context {A : Type} (nxt : A -> Z).
Implicit Types h : gmap Z A.

Lemma chain_at_det h a l l' : chain_at nxt h a l -> chain_at nxt h a l' -> l = l'.
Proof.
  revert a l'. induction l as [|b l IH]; intros a [|b' l']; simpl; try done.
  - by intros -> (<- & ? & _).
  - by intros (<- & ? & _) ->.
  - intros (-> & _ & x & Hx & Hl) (-> & _ & x' & Hx' & Hl'). simplify_eq. f_equal. eauto.
Qed.
Lemma chain_at_suffix h a l b : chain_at nxt h a l -> b ∈ l -> exists l1 l2, l = l1 ++ l2 /\ chain_at nxt h b l2 /\ l2 <> [].
Proof.
  revert a. induction l as [|c l IH]; intros a; [by intros _ ?%elem_of_nil|].
  intros Hl [->|Hin]%elem_of_cons.
  - exists [], (c :: l). split; [done|]. split; [|done]. by destruct Hl as (-> & ?).
  - destruct Hl as (_ & _ & x & _ & Hl). destruct (IH _ Hl Hin) as (l1 & l2 & -> & ? & ?). by exists (c :: l1), l2.
Qed.
Lemma chain_at_NoDup h a l : chain_at nxt h a l -> NoDup l.
Proof.
  revert a. induction l as [|b l IH]; intros a Hl; [constructor|].
  pose proof Hl as (-> & Hb & x & Hx & Hl'). constructor; [|by eapply IH]. intros Hin.
  destruct (chain_at_suffix _ _ _ _ Hl' Hin) as (l1 & l2 & -> & H2 & _).
  assert (E := chain_at_det _ _ _ _ Hl H2). apply (f_equal length) in E.
  simpl in E. rewrite length_app in E. lia.
Qed.
Lemma chain_at_dom h a l b : chain_at nxt h a l -> b ∈ l -> is_Some (h !! b).
Proof.
  revert a. induction l as [|c l IH]; intros a; [by intros _ ?%elem_of_nil|].
  intros (_ & _ & x & Hx & Hl) [->|Hin]%elem_of_cons; [by eexists|by eapply IH].
Qed.
Lemma chain_at_length h a l : chain_at nxt h a l -> (length l <= size h)%nat.
Proof.
  intros Hl. assert (Hnd := chain_at_NoDup _ _ _ Hl). rewrite <-(size_dom (D := gset Z)).
  rewrite <-(size_list_to_set (C := gset Z) l Hnd). apply subseteq_size. intros b Hb.
  apply elem_of_list_to_set in Hb. apply elem_of_dom. by eapply chain_at_dom.
Qed.
Lemma chain_at_update h a l b x y :
  chain_at nxt h a l -> h !! b = Some x -> nxt y = nxt x -> chain_at nxt (<[b := y]> h) a l.
Proof.
  intros Hl Hb Hn. revert a Hl. induction l as [|c l IH]; intros a; [done|].
  intros (-> & Hc & z & Hz & Hl). split; [done|]. split; [done|].
  destruct (decide (b = c)) as [<-|Hne].
  - exists y. rewrite lookup_insert_eq. split; [done|]. simplify_eq. rewrite Hn. by apply IH.
  - exists z. rewrite lookup_insert_ne by done. split; [done|]. by apply IH.
Qed.
(** A node outside the list may change. *)
Lemma chain_at_insert h a l b y :
  chain_at nxt h a l -> b ∉ l -> chain_at nxt (<[b := y]> h) a l.
Proof.
  intros Hl. revert a Hl. induction l as [|c l IH]; intros a; [done|].
  intros (-> & Hc & z & Hz & Hl) [Hne Hnl]%not_elem_of_cons. split; [done|]. split; [done|].
  exists z. rewrite lookup_insert_ne by congruence. split; [done|]. by apply IH.
Qed.
End chain.

(** ** The invariant *)

(** The packets the ARP cache holds. *)
Definition queued (t : list etharp_entry) : gmultiset Z :=
  list_to_set_disj (filter (fun q => q <> 0) (map ent_q t)).

(** The reference an entry holds. *)
Definition hold (q : Z) : gmultiset Z := if q =? 0 then ∅ else {[+ q +]}.

Lemma queued_cons e t : queued (e :: t) = hold (ent_q e) ⊎ queued t.
Proof.
  unfold queued, hold. cbn [map]. rewrite filter_cons. destruct (Z.eqb_spec (ent_q e) 0) as [E|Hne].
  - rewrite decide_False by (intros H; by apply H). by rewrite (left_id_L ∅ (⊎)).
  - by rewrite decide_True.
Qed.
Lemma queued_insert t i e e' : t !! i = Some e ->
  queued (<[i := e']> t) ⊎ hold (ent_q e) = queued t ⊎ hold (ent_q e').
Proof.
  revert i. induction t as [|x t IH]; intros [|i] Hi; simplify_eq/=.
  - rewrite !queued_cons. generalize (queued t) (hold (ent_q e)) (hold (ent_q e')). multiset_solver.
  - rewrite !queued_cons. specialize (IH i Hi). revert IH.
    generalize (queued t) (queued (<[i:=e']> t)) (hold (ent_q e)) (hold (ent_q e')) (hold (ent_q x)).
    intros. multiset_solver.
Qed.
Lemma queued_same t i e e' : t !! i = Some e -> ent_q e' = ent_q e -> queued (<[i := e']> t) = queued t.
Proof.
  intros Hi Hq. pose proof (queued_insert t i e e' Hi) as H. rewrite Hq in H.
  by apply (inj (.⊎ hold (ent_q e))) in H.
Qed.

Lemma hold_queued t i e : t !! i = Some e -> hold (ent_q e) ⊆ queued t.
Proof.
  revert i. induction t as [|x t IH]; intros [|i] Hi; simplify_eq/=; rewrite queued_cons; [|apply IH in Hi];
    generalize dependent (hold (ent_q e)); [|revert Hi || idtac]; generalize (queued t) ; intros; multiset_solver.
Qed.
Lemma queued_in t i e q : t !! i = Some e -> q ∈ hold (ent_q e) -> q ∈ queued t.
Proof. intros Hi Hq. pose proof (hold_queued _ _ _ Hi). multiset_solver. Qed.

Lemma multiset_rot (E g : gmultiset Z) q : E ⊎ (g ⊎ {[+ q +]}) = {[+ q +]} ⊎ (E ⊎ g).
Proof. multiset_solver. Qed.
Lemma multiset_head (E : gmultiset Z) q : q ∈ {[+ q +]} ⊎ E.
Proof. multiset_solver. Qed.
Lemma multiset_last (E : gmultiset Z) q : q ∈ E ⊎ {[+ q +]}.
Proof. multiset_solver. Qed.
(** One element of a multiset exchanged for another. *)
Lemma multiset_in (g g' h : gmultiset Z) p x : g' ⊎ h = g ⊎ {[+ p +]} -> x ∈ g' -> x ∈ g \/ x = p.
Proof. multiset_solver. Qed.
Lemma multiset_right (E g : gmultiset Z) q : q ∈ g -> q ∈ E ⊎ g.
Proof. multiset_solver. Qed.
Lemma multiset_take (E : gmultiset Z) p : p ∈ E -> E = {[+ p +]} ⊎ (E ∖ {[+ p +]}).
Proof. multiset_solver. Qed.
Lemma multiset_left (E g : gmultiset Z) q : q ∈ E -> q ∈ E ⊎ g.
Proof. multiset_solver. Qed.

Section link.
Context {S : Type} `{!PbufAlloc S}.
Abbreviation state := (@net S).
Context {Link : LinkDriver}.

Definition occupied (e : etharp_entry) : Prop := ent_state e <> ETHARP_STATE_EMPTY.

Record entry_ok (st : state) (e : etharp_entry) : Prop := {
  entry_state : 0 <= ent_state e <= ETHARP_STATE_STABLE_REREQUESTING_2;
  entry_age : 0 <= ent_ctime e < ARP_MAXAGE;
  entry_pending_age : ent_state e = ETHARP_STATE_PENDING -> ent_ctime e < ARP_MAXPENDING;
  entry_hw : length (ent_ethaddr e) = 6%nat;
  entry_netif : occupied e -> ethernet_netif st (ent_netif e);
  entry_queue : ent_q e <> 0 ->
    ent_state e = ETHARP_STATE_PENDING /\ indeg (pbufs (pm st)) (ent_q e) = 0
}.

(** No address of an interface has two entries. *)
Definition unique (t : list etharp_entry) : Prop :=
  forall i j e e', t !! i = Some e -> t !! j = Some e' -> occupied e -> occupied e' ->
    ent_ipaddr e = ent_ipaddr e' -> ent_netif e = ent_netif e' -> i = j.

Record link_ok (E : gmultiset Z) (st : state) : Prop := {
  link_refs : refs_ok (E ⊎ queued (arp_table st)) (pm st);
  link_size : length (arp_table st) = Z.to_nat ARP_TABLE_SIZE;
  link_entries : Forall (entry_ok st) (arp_table st);
  link_unique : unique (arp_table st);
  link_cached : 0 <= etharp_cached_entry st < ARP_TABLE_SIZE;
  link_acds n nif : netifs st !! n = Some nif ->
    (exists l, chain_at acd_next (acds st) (nif_acd_list nif) l) /\
    (nif_acd_list nif <> 0 -> ethernet_netif st n);
  link_netifs : exists l, chain_at nif_next (netifs st) (netif_list st) l
}.

(** ** What preserves it *)

(** Interfaces that could be used still can. *)
Definition netifs_usable (st st' : state) : Prop :=
  forall n, ethernet_netif st n -> ethernet_netif st' n.

Lemma entry_ok_mono st st' e :
  netifs_usable st st' -> (forall q, q <> 0 -> indeg (pbufs (pm st')) q <= indeg (pbufs (pm st)) q) ->
  entry_ok st e -> entry_ok st' e.
Proof.
  intros Hu Hi [Hs Ha Hp Hh Hn Hq]. split; try done.
  - intros Ho. by apply Hu, Hn.
  - intros Hq0. destruct (Hq Hq0) as [Hs' Hi']. split; [done|]. specialize (Hi _ Hq0).
    pose proof (indeg_nonneg (pbufs (pm st')) (ent_q e)). lia.
Qed.

(** The pbufs and who holds them change, and the cache does not. *)
Lemma link_change E E' st st' :
  link_ok E st -> refs_ok (E' ⊎ queued (arp_table st)) (pm st') -> tables_kept st st' ->
  (forall q, q ∈ queued (arp_table st) -> indeg (pbufs (pm st')) q <= indeg (pbufs (pm st)) q) -> link_ok E' st'.
Proof.
  intros [Hr Hs He Hu Hc Ha Hn] Hok (Hnif & Hnl & Hac & Ht & Hce) Hi.
  assert (Hus : netifs_usable st st').
  { intros n (? & ? & nif & ? & ?). split; [done|]. split; [done|]. exists nif. by rewrite Hnif. }
  split; rewrite ?Ht, ?Hce, ?Hnif, ?Hac, ?Hnl; try done.
  - apply Forall_forall. intros e He'. rewrite Forall_forall in He. destruct (He e He') as [? ? ? ? Hne Hq].
    split; try done; [intros Ho; by apply Hus, Hne|]. intros Hq0. destruct (Hq Hq0) as [? Hi']. split; [done|].
    apply list_elem_of_lookup in He' as [i He']. pose proof (indeg_nonneg (pbufs (pm st')) (ent_q e)).
    assert (Hin : ent_q e ∈ queued (arp_table st)); [|specialize (Hi _ Hin); lia].
    apply (queued_in _ i e _ He'). unfold hold. rewrite (proj2 (Z.eqb_neq _ _) Hq0). by apply gmultiset_elem_of_singleton.
  - intros n nif Hnn. destruct (Ha n nif Hnn) as [? Hx]. split; [done|]. intros H0. by apply Hus, Hx.
Qed.
Lemma queued_nonzero t q : q ∈ queued t -> q <> 0.
Proof.
  unfold queued. intros Hq ->. rewrite elem_of_list_to_set_disj, list_elem_of_filter in Hq. by destruct Hq.
Qed.
Lemma link_kept E st st' :
  link_ok E st -> refs_ok (E ⊎ queued (arp_table st)) (pm st') -> tables_kept st st' ->
  (forall q, q <> 0 -> indeg (pbufs (pm st')) q <= indeg (pbufs (pm st)) q) -> link_ok E st'.
Proof. intros H Hr Ht Hi. eapply link_change; [done..|]. intros q Hq. by eapply Hi, queued_nonzero. Qed.
Lemma link_message E st st' :
  link_ok E st -> message_sent (E ⊎ queued (arp_table st)) st st' -> link_ok E st'.
Proof. intros H (Hok & (_ & _ & Hi) & Ht). by eapply link_kept. Qed.

(** An entry is replaced, and the pbufs change with what it holds. *)
Lemma link_entry E st s' i e e' :
  link_ok E st -> arp_table st !! i = Some e ->
  refs_ok (E ⊎ queued (<[i := e']> (arp_table st))) s' ->
  (forall q, q <> 0 -> indeg (pbufs s') q <= indeg (pbufs (pm st)) q) ->
  entry_ok (with_pm st s') e' -> unique (<[i := e']> (arp_table st)) ->
  link_ok E (with_arp_table (with_pm st s') (<[i := e']> (arp_table st))).
Proof.
  intros [Hr Hs He Hu Hc Ha Hn] Hi Hok Hind He' Hu'. split; try done.
  - simpl. by rewrite length_insert.
  - simpl. apply Forall_insert; [|eapply entry_ok_mono; [| |exact He']; [by intros ? ?|done]].
    eapply Forall_impl; [exact He|]. intros x. apply entry_ok_mono; [by intros ? ?|done].
Qed.

(** Entries that are not in use do not matter to uniqueness. *)
Lemma unique_insert t i e e' :
  unique t -> t !! i = Some e ->
  (occupied e' -> forall j x, t !! j = Some x -> j <> i -> occupied x ->
     ent_ipaddr x = ent_ipaddr e' -> ent_netif x = ent_netif e' -> False) ->
  unique (<[i := e']> t).
Proof.
  intros Hu Hi He' j k x y Hj Hk Hx Hy Hip Hn.
  apply list_lookup_insert_Some in Hj as [(-> & -> & _)|[Hji Hj]];
    apply list_lookup_insert_Some in Hk as [(-> & -> & _)|[Hki Hk]]; try done.
  - exfalso. eapply (He' Hx k y); done || congruence.
  - exfalso. eapply (He' Hy j x); done || congruence.
  - by eapply (Hu j k).
Qed.
Lemma unique_same t i e e' :
  unique t -> t !! i = Some e -> (occupied e' -> occupied e) ->
  ent_ipaddr e' = ent_ipaddr e -> ent_netif e' = ent_netif e -> unique (<[i := e']> t).
Proof.
  intros Hu Hi Ho Hip Hn. eapply unique_insert; [done|done|]. intros Ho' j x Hj Hne Hx E1 E2.
  apply Hne, (Hu j i x e Hj Hi Hx (Ho Ho')); congruence.
Qed.

(** A module's own fields. *)
Lemma link_acd_update E st a x y :
  link_ok E st -> acds st !! a = Some x -> acd_next y = acd_next x ->
  link_ok E (with_acds st (<[a := y]> (acds st))).
Proof.
  intros [Hr Hs He Hu Hc Ha Hn] Hx Hnx. split; try done.
  - eapply Forall_impl; [exact He|]. intros e. apply entry_ok_mono; [by intros ? ?|done].
  - simpl. intros n nif Hnn. destruct (Ha n nif Hnn) as [[l Hl] H0]. split; [|done].
    exists l. by eapply chain_at_update.
Qed.

(** ** Operations that keep it *)

(** The pbufs that others hold and the cache does not: sending a queued packet
    moves its payload. *)
Definition private (E : gmultiset Z) (st : state) (q : Z) : Prop := q ∈ E /\ q ∉ queued (arp_table st).

(** What an operation of the link layer leaves: the invariant, the private pbufs,
    the interfaces, and every list of modules up to removals. *)
Record follows (E : gmultiset Z) (st st' : state) : Prop := {
  fol_ok : link_ok E st';
  fol_calm : calm (private E st) (pm st) (pm st');
  fol_private q : private E st q -> private E st' q;
  fol_usable : netifs_usable st st';
  fol_acds a l : chain_at acd_next (acds st) a l ->
    exists l', chain_at acd_next (acds st') a l' /\ (length l' <= length l)%nat;
  fol_netifs n l : chain_at nif_next (netifs st) n l -> chain_at nif_next (netifs st') n l;
  fol_frames : frames st `prefix_of` frames st'
}.

Lemma follows_refl E st : link_ok E st -> follows E st st.
Proof. intros H. split; [done|apply calm_refl|done|by intros ? ?|intros a l Hl; by exists l|done|done]. Qed.
Lemma follows_trans E st1 st2 st3 : follows E st1 st2 -> follows E st2 st3 -> follows E st1 st3.
Proof.
  intros [_ Hc Hp Hu Ha Hn Hf] [Hok Hc' Hp' Hu' Ha' Hn' Hf'].
  split; [done|eapply calm_trans; [done|by eapply calm_weaken]|by auto| | |by auto|by etrans].
  - intros n Hx. by apply Hu', Hu.
  - intros a l Hl. destruct (Ha _ _ Hl) as (l2 & Hl2 & ?). destruct (Ha' _ _ Hl2) as (l3 & Hl3 & ?).
    exists l3. split; [done|lia].
Qed.

(** Changes of the cache, the pbufs, the counters and the frames. *)
Lemma follows_cache E st st' :
  link_ok E st -> netifs st' = netifs st -> netif_list st' = netif_list st -> acds st' = acds st ->
  refs_ok (E ⊎ queued (arp_table st')) (pm st') -> calm (private E st) (pm st) (pm st') ->
  (forall q, private E st q -> private E st' q) ->
  length (arp_table st') = Z.to_nat ARP_TABLE_SIZE -> Forall (entry_ok st') (arp_table st') ->
  unique (arp_table st') -> 0 <= etharp_cached_entry st' < ARP_TABLE_SIZE ->
  frames st `prefix_of` frames st' -> follows E st st'.
Proof.
  intros [Hr Hs He Hu Hc Ha Hn] En El Ea Hr' Hcalm Hp Hs' He' Hu' Hc' Hf.
  assert (Hus : netifs_usable st st').
  { intros n (? & ? & nif & ? & ?). split; [done|]. split; [done|]. exists nif. by rewrite En. }
  split; rewrite ?En, ?Ea; try done; [|intros a l Hl; by exists l].
  split; rewrite ?En, ?Ea, ?El; try done. intros n nif Hnif. destruct (Ha n nif Hnif) as [? Hx].
  split; [done|]. intros H0. by apply Hus, Hx.
Qed.

(** A module that can be reached. *)
Definition listed (st : state) (a : Z) : Prop := a <> 0 /\ exists l, chain_at acd_next (acds st) a l.
Lemma listed_some st a : listed st a -> is_Some (acds st !! a).
Proof. intros (Ha & [|b l] & Hl); [done|]. destruct Hl as (-> & _ & x & Hx & _). by eexists. Qed.

(** Properties of states that the operations keep. *)
Definition stable (P : state -> Prop) : Prop := forall E st st', P st -> follows E st st' -> P st'.
Lemma stable_listed a : stable (fun st => listed st a).
Proof.
  intros E st st' (Ha & l & Hl) Hf. split; [done|]. destruct (fol_acds _ _ _ Hf _ _ Hl) as (l' & ? & _). by exists l'.
Qed.
Lemma stable_ethernet n : stable (fun st => ethernet_netif st n).
Proof. intros E st st' Hn Hf. by apply (fol_usable _ _ _ Hf). Qed.
Lemma stable_and P Q : stable P -> stable Q -> stable (fun st => P st /\ Q st).
Proof. intros HP HQ E st st' [? ?] Hf. split; [by eapply HP|by eapply HQ]. Qed.
Lemma stable_true : stable (fun _ => True).
Proof. done. Qed.

(** [m] returns, whatever else the state is, and keeps the invariant. *)
Definition runs {A} (E : gmultiset Z) (P : state -> Prop) (m : ST state A) : Prop :=
  forall st, link_ok E st -> P st -> exists r st', m st = Ok (r, st') /\ follows E st st'.

Lemma runs_ret {A} E P (a : A) : runs E P (mret a).
Proof. intros st H _. eexists _, st. split; [done|by apply follows_refl]. Qed.
Lemma runs_bind {A B} E P (m : ST state A) (f : A -> ST state B) :
  stable P -> runs E P m -> (forall a, runs E P (f a)) -> runs E P (m ≫= f).
Proof.
  intros HP Hm Hf st H Hst. destruct (Hm st H Hst) as (a & st1 & E1 & F1). rewrite (st_bind_ok _ _ _ _ _ E1).
  destruct (Hf a st1) as (b & st2 & E2 & F2); [apply F1|by eapply HP|]. eexists b, st2. split; [done|].
  by eapply follows_trans.
Qed.
Lemma runs_weaken {A} E (P Q : state -> Prop) (m : ST state A) :
  runs E P m -> (forall st, Q st -> P st) -> runs E Q m.
Proof. intros Hm HQ st H Hst. apply Hm; auto. Qed.

(** Changes of the pbufs, the counters and the frames only. *)
Lemma follows_message E st st' :
  link_ok E st -> message_sent (E ⊎ queued (arp_table st)) st st' -> frames st `prefix_of` frames st' ->
  follows E st st'.
Proof.
  intros H Hm Hf. assert (Hok := link_message _ _ _ H Hm).
  destruct Hm as (Hr & Hc & Hn & Hl & Ha & Ht & Hce). destruct Hok.
  apply follows_cache; try done; [eapply calm_weaken; [exact Hc|]|]; unfold private.
  - intros q [Hq _]. multiset_solver.
  - by rewrite Ht.
Qed.

(** An entry is replaced. *)
Lemma follows_entry E st s' i e e' :
  link_ok E st -> arp_table st !! i = Some e ->
  refs_ok (E ⊎ queued (<[i := e']> (arp_table st))) s' -> calm (private E st) (pm st) s' ->
  (forall q, private E st q -> q ∉ hold (ent_q e')) ->
  entry_ok (with_pm st s') e' -> unique (<[i := e']> (arp_table st)) ->
  follows E st (with_arp_table (with_pm st s') (<[i := e']> (arp_table st))).
Proof.
  intros H Hi Hok Hc Hq He Hu. assert (Hk : link_ok E (with_arp_table (with_pm st s') (<[i := e']> (arp_table st)))).
  { eapply link_entry; try done. apply Hc. }
  destruct Hk. apply follows_cache; try done. intros q Hp. split; [apply Hp|]. simpl. intros Hin.
  pose proof (queued_insert _ _ _ e' Hi) as E1. specialize (Hq _ Hp). destruct Hp as [_ Hp].
  multiset_solver.
Qed.

End link.

#[export] Hint Resolve stable_listed stable_ethernet stable_and stable_true runs_ret runs_bind : link.
