(* ===== verification/Acd.v ===== *)
(** * Address conflict detection (core/ipv4/acd.c)

    The state machine of RFC 5227 for the addresses an interface uses or is about
    to use.  The modules of an interface form a linked list; a loop over it reads
    the next pointer after its body has run, so that a conflict callback may take
    modules out of the list meanwhile.  The callback is the function the user of
    a module registered: a parameter. *)

From stdpp Require Import gmultiset.
From S2P Require Import Prelude Def Ip4Addr Memp Mem Pbuf PbufData PbufHeap Ethernet Link.

Set Default Proof Using "Type".

(** ** Constants (prot/acd.h) *)

Definition PROBE_WAIT : Z := 1.
Definition PROBE_MIN : Z := 1.
Definition PROBE_MAX : Z := 2.
Definition PROBE_NUM : Z := 3.
Definition ANNOUNCE_NUM : Z := 2.
Definition ANNOUNCE_INTERVAL : Z := 2.
Definition ANNOUNCE_WAIT : Z := 2.
Definition MAX_CONFLICTS : Z := 10.
Definition RATE_LIMIT_INTERVAL : Z := 60.
Definition DEFEND_INTERVAL : Z := 10.
Definition ACD_TMR_INTERVAL : Z := 100.
Definition ACD_TICKS_PER_SECOND : Z := 1000 / ACD_TMR_INTERVAL.

Inductive acd_callback_enum_t := ACD_IP_OK | ACD_RESTART_CLIENT | ACD_DECLINE.

(** ** The fields of [struct acd] *)

Definition with_acd_next (a : acd) (x : Z) : acd :=
  {| acd_next := x; acd_ipaddr := acd_ipaddr a; acd_state := acd_state a; acd_sent_num := acd_sent_num a;
     acd_ttw := acd_ttw a; acd_lastconflict := acd_lastconflict a; acd_num_conflicts := acd_num_conflicts a;
     acd_conflict_callback := acd_conflict_callback a |}.
Definition with_acd_ipaddr (a : acd) (x : Z) : acd :=
  {| acd_next := acd_next a; acd_ipaddr := x; acd_state := acd_state a; acd_sent_num := acd_sent_num a;
     acd_ttw := acd_ttw a; acd_lastconflict := acd_lastconflict a; acd_num_conflicts := acd_num_conflicts a;
     acd_conflict_callback := acd_conflict_callback a |}.
Definition with_acd_state (a : acd) (x : acd_state_enum_t) : acd :=
  {| acd_next := acd_next a; acd_ipaddr := acd_ipaddr a; acd_state := x; acd_sent_num := acd_sent_num a;
     acd_ttw := acd_ttw a; acd_lastconflict := acd_lastconflict a; acd_num_conflicts := acd_num_conflicts a;
     acd_conflict_callback := acd_conflict_callback a |}.
Definition with_acd_sent_num (a : acd) (x : Z) : acd :=
  {| acd_next := acd_next a; acd_ipaddr := acd_ipaddr a; acd_state := acd_state a; acd_sent_num := x;
     acd_ttw := acd_ttw a; acd_lastconflict := acd_lastconflict a; acd_num_conflicts := acd_num_conflicts a;
     acd_conflict_callback := acd_conflict_callback a |}.
Definition with_acd_ttw (a : acd) (x : Z) : acd :=
  {| acd_next := acd_next a; acd_ipaddr := acd_ipaddr a; acd_state := acd_state a; acd_sent_num := acd_sent_num a;
     acd_ttw := x; acd_lastconflict := acd_lastconflict a; acd_num_conflicts := acd_num_conflicts a;
     acd_conflict_callback := acd_conflict_callback a |}.
Definition with_acd_lastconflict (a : acd) (x : Z) : acd :=
  {| acd_next := acd_next a; acd_ipaddr := acd_ipaddr a; acd_state := acd_state a; acd_sent_num := acd_sent_num a;
     acd_ttw := acd_ttw a; acd_lastconflict := x; acd_num_conflicts := acd_num_conflicts a;
     acd_conflict_callback := acd_conflict_callback a |}.
Definition with_acd_num_conflicts (a : acd) (x : Z) : acd :=
  {| acd_next := acd_next a; acd_ipaddr := acd_ipaddr a; acd_state := acd_state a; acd_sent_num := acd_sent_num a;
     acd_ttw := acd_ttw a; acd_lastconflict := acd_lastconflict a; acd_num_conflicts := x;
     acd_conflict_callback := acd_conflict_callback a |}.
Definition with_acd_callback (a : acd) (x : Z) : acd :=
  {| acd_next := acd_next a; acd_ipaddr := acd_ipaddr a; acd_state := acd_state a; acd_sent_num := acd_sent_num a;
     acd_ttw := acd_ttw a; acd_lastconflict := acd_lastconflict a; acd_num_conflicts := acd_num_conflicts a;
     acd_conflict_callback := x |}.
Definition with_nif_acd_list (n : netif) (x : Z) : netif :=
  {| nif_next := nif_next n; nif_addrs := nif_addrs n; nif_gw := nif_gw n; nif_mtu := nif_mtu n; nif_hwaddr := nif_hwaddr n;
     nif_hwaddr_len := nif_hwaddr_len n; nif_num := nif_num n; nif_acd_list := x |}.

(** What the functions read of [struct etharp_hdr]. *)
Record arp_hdr := { hdr_shwaddr : list Z; hdr_sipaddr : Z; hdr_dipaddr : Z }.

Section acd.
Context {S : Type} `{!PbufAlloc S}.
Abbreviation state := (@net S).
Abbreviation M := (ST state).
Context (call_custom_free : Z -> Z -> ST (@pstate S) unit) (garbage : Z -> Z).
Context {Link : LinkDriver}.
(** [acd->acd_conflict_callback(netif, state)], and the C library's [rand]. *)
Context (conflict_callback : Z -> Z -> acd_callback_enum_t -> M unit).
Context (rand : Z -> Z * Z).

Definition acd_get (a : Z) : M acd := fun st =>
  match acds st !! a with Some x => Ok (x, st) | None => Fault end.
Definition acd_upd (a : Z) (f : acd -> acd) : M unit := fun st =>
  match acds st !! a with Some x => Ok (tt, with_acds st (<[a := f x]> (acds st))) | None => Fault end.
Definition netif_upd (n : Z) (f : netif -> netif) : M unit := fun st =>
  match netifs st !! n with Some x => Ok (tt, with_netifs st (<[n := f x]> (netifs st))) | None => Fault end.
(** [acd->acd_conflict_callback(netif, c)]. *)
Definition acd_callback (n a : Z) (c : acd_callback_enum_t) : M unit :=
  x ← acd_get a; conflict_callback (acd_conflict_callback x) n c.

Definition LWIP_RAND : M Z := fun st =>
  let '(v, s) := rand (rand_state st) in Ok (u32 v, with_rand_state st s).
Definition ACD_RANDOM_PROBE_WAIT : M Z :=
  r ← LWIP_RAND; mret (r mod (PROBE_WAIT * ACD_TICKS_PER_SECOND)).
Definition ACD_RANDOM_PROBE_INTERVAL : M Z :=
  r ← LWIP_RAND;
  mret (r mod ((PROBE_MAX - PROBE_MIN) * ACD_TICKS_PER_SECOND) + PROBE_MIN * ACD_TICKS_PER_SECOND).

(** [ACD_FOREACH] and [NETIF_FOREACH]. *)
Fixpoint acd_loop (fuel : nat) (body : Z -> M unit) (a : Z) : M unit :=
  match fuel with
  | O => fun _ => Diverge
  | Datatypes.S fuel' =>
      if a =? 0 then mret tt
      else _ ← body a; x ← acd_get a; acd_loop fuel' body (acd_next x)
  end.
Definition acd_fuel : M nat := fun st => Ok (Datatypes.S (size (acds st)), st).
Definition ACD_FOREACH (n : Z) (body : Z -> M unit) : M unit :=
  nif ← netif_get n; fuel ← acd_fuel; acd_loop fuel body (nif_acd_list nif).
Fixpoint netif_loop (fuel : nat) (body : Z -> M unit) (n : Z) : M unit :=
  match fuel with
  | O => fun _ => Diverge
  | Datatypes.S fuel' =>
      if n =? 0 then mret tt
      else _ ← body n; nif ← netif_get n; netif_loop fuel' body (nif_next nif)
  end.
Definition NETIF_FOREACH (body : Z -> M unit) : M unit := fun st =>
  netif_loop (Datatypes.S (size (netifs st))) body (netif_list st) st.

(** ** Membership *)

Fixpoint acd_member (fuel : nat) (a acd2 : Z) : M bool :=
  match fuel with
  | O => fun _ => Diverge
  | Datatypes.S fuel' =>
      if acd2 =? 0 then mret false
      else if acd2 =? a then mret true
      else x ← acd_get acd2; acd_member fuel' a (acd_next x)
  end.
Definition acd_add (n a callback : Z) : M Z :=
  _ ← sassert (negb (callback =? 0));
  _ ← acd_upd a (fun x => with_acd_callback x callback);
  nif ← netif_get n;
  fuel ← acd_fuel;
  found ← acd_member fuel a (nif_acd_list nif);
  if (found : bool) then mret ERR_OK
  else
    _ ← acd_upd a (fun x => with_acd_next x (nif_acd_list nif));
    _ ← netif_upd n (fun nif => with_nif_acd_list nif a);
    mret ERR_OK.

Fixpoint acd_remove_loop (fuel : nat) (n a acd2 prev : Z) : M unit :=
  match fuel with
  | O => fun _ => Diverge
  | Datatypes.S fuel' =>
      if acd2 =? 0 then sassert false
      else if acd2 =? a then
        x ← acd_get a;
        if negb (prev =? 0) then acd_upd prev (fun y => with_acd_next y (acd_next x))
        else netif_upd n (fun nif => with_nif_acd_list nif (acd_next x))
      else x ← acd_get acd2; acd_remove_loop fuel' n a (acd_next x) acd2
  end.
Definition acd_remove (n a : Z) : M unit :=
  nif ← netif_get n; fuel ← acd_fuel; acd_remove_loop fuel n a (nif_acd_list nif) 0.

(** ** Start and stop *)

Definition acd_start (n a ipaddr : Z) : M Z :=
  _ ← acd_upd a (fun x => with_acd_sent_num x 0);
  _ ← acd_upd a (fun x => with_acd_lastconflict x 0);
  _ ← acd_upd a (fun x => with_acd_ipaddr x ipaddr);
  _ ← acd_upd a (fun x => with_acd_state x ACD_STATE_PROBE_WAIT);
  w ← ACD_RANDOM_PROBE_WAIT;
  _ ← acd_upd a (fun x => with_acd_ttw x (u16 w));
  mret ERR_OK.
Definition acd_stop (a : Z) : M Z :=
  if a =? 0 then mret ERR_OK
  else _ ← acd_upd a (fun x => with_acd_state x ACD_STATE_OFF); mret ERR_OK.
Definition acd_network_changed_link_down (n : Z) : M unit :=
  ACD_FOREACH n (fun a => _ ← acd_stop a; mret tt).

(** ** The timer *)

Definition acd_tmr_probe (n a : Z) : M unit :=
  x ← acd_get a;
  if acd_ttw x =? 0 then
    _ ← acd_upd a (fun x => with_acd_state x ACD_STATE_PROBING);
    _ ← etharp_acd_probe call_custom_free garbage n (acd_ipaddr x);
    _ ← acd_upd a (fun x => with_acd_sent_num x (u8 (acd_sent_num x + 1)));
    x ← acd_get a;
    if PROBE_NUM <=? acd_sent_num x then
      _ ← acd_upd a (fun x => with_acd_state x ACD_STATE_ANNOUNCE_WAIT);
      _ ← acd_upd a (fun x => with_acd_sent_num x 0);
      acd_upd a (fun x => with_acd_ttw x (u16 (ANNOUNCE_WAIT * ACD_TICKS_PER_SECOND)))
    else
      w ← ACD_RANDOM_PROBE_INTERVAL;
      acd_upd a (fun x => with_acd_ttw x (u16 w))
  else mret tt.

Definition acd_tmr_announce (n a : Z) : M unit :=
  x ← acd_get a;
  if acd_ttw x =? 0 then
    _ ← (if acd_sent_num x =? 0 then
           _ ← acd_upd a (fun x => with_acd_state x ACD_STATE_ANNOUNCING);
           acd_upd a (fun x => with_acd_num_conflicts x 0)
         else mret tt);
    _ ← etharp_acd_announce call_custom_free garbage n (acd_ipaddr x);
    _ ← acd_upd a (fun x => with_acd_ttw x (u16 (ANNOUNCE_INTERVAL * ACD_TICKS_PER_SECOND)));
    _ ← acd_upd a (fun x => with_acd_sent_num x (u8 (acd_sent_num x + 1)));
    x ← acd_get a;
    if ANNOUNCE_NUM <=? acd_sent_num x then
      _ ← acd_upd a (fun x => with_acd_state x ACD_STATE_ONGOING);
      _ ← acd_upd a (fun x => with_acd_sent_num x 0);
      _ ← acd_upd a (fun x => with_acd_ttw x 0);
      acd_callback n a ACD_IP_OK
    else mret tt
  else mret tt.

Definition acd_tmr_rate_limit (n a : Z) : M unit :=
  x ← acd_get a;
  if acd_ttw x =? 0 then _ ← acd_stop a; acd_callback n a ACD_RESTART_CLIENT
  else mret tt.

Definition acd_tmr_one (n a : Z) : M unit :=
  _ ← acd_upd a (fun x => if 0 <? acd_lastconflict x then with_acd_lastconflict x (acd_lastconflict x - 1) else x);
  _ ← acd_upd a (fun x => if 0 <? acd_ttw x then with_acd_ttw x (acd_ttw x - 1) else x);
  x ← acd_get a;
  match acd_state x with
  | ACD_STATE_PROBE_WAIT | ACD_STATE_PROBING => acd_tmr_probe n a
  | ACD_STATE_ANNOUNCE_WAIT | ACD_STATE_ANNOUNCING => acd_tmr_announce n a
  | ACD_STATE_RATE_LIMIT => acd_tmr_rate_limit n a
  | _ => mret tt
  end.

Definition acd_tmr : M unit := NETIF_FOREACH (fun n => ACD_FOREACH n (acd_tmr_one n)).

(** ** Conflicts *)

Definition acd_restart (n a : Z) : M unit :=
  _ ← acd_upd a (fun x => with_acd_num_conflicts x (u8 (acd_num_conflicts x + 1)));
  _ ← acd_callback n a ACD_DECLINE;
  x ← acd_get a;
  if MAX_CONFLICTS <=? acd_num_conflicts x then
    _ ← acd_upd a (fun x => with_acd_state x ACD_STATE_RATE_LIMIT);
    acd_upd a (fun x => with_acd_ttw x (u16 (RATE_LIMIT_INTERVAL * ACD_TICKS_PER_SECOND)))
  else
    _ ← acd_stop a;
    acd_callback n a ACD_RESTART_CLIENT.

Definition acd_handle_arp_conflict (n a : Z) : M unit :=
  x ← acd_get a;
  if decide (acd_state x = ACD_STATE_PASSIVE_ONGOING) then
    _ ← acd_stop a;
    acd_callback n a ACD_DECLINE
  else if 0 <? acd_lastconflict x then acd_restart n a
  else
    _ ← etharp_acd_announce call_custom_free garbage n (acd_ipaddr x);
    acd_upd a (fun x => with_acd_lastconflict x (u8 (DEFEND_INTERVAL * ACD_TICKS_PER_SECOND))).

(** [eth_addr_eq]. *)
Definition eth_addr_eq (x y : list Z) : bool := bool_decide (x = y).

Definition acd_arp_reply_one (n : Z) (netifaddr : list Z) (hdr : arp_hdr) (a : Z) : M unit :=
  x ← acd_get a;
  match acd_state x with
  | ACD_STATE_PROBE_WAIT | ACD_STATE_PROBING | ACD_STATE_ANNOUNCE_WAIT =>
      if ip4_addr_eq (hdr_sipaddr hdr) (acd_ipaddr x) ||
         (ip4_addr_isany_val (hdr_sipaddr hdr) && ip4_addr_eq (hdr_dipaddr hdr) (acd_ipaddr x) &&
          negb (eth_addr_eq netifaddr (hdr_shwaddr hdr)))
      then acd_restart n a else mret tt
  | ACD_STATE_ANNOUNCING | ACD_STATE_ONGOING | ACD_STATE_PASSIVE_ONGOING =>
      if ip4_addr_eq (hdr_sipaddr hdr) (acd_ipaddr x) && negb (eth_addr_eq netifaddr (hdr_shwaddr hdr))
      then acd_handle_arp_conflict n a else mret tt
  | ACD_STATE_OFF | ACD_STATE_RATE_LIMIT => mret tt
  end.
Definition acd_arp_reply (n : Z) (hdr : arp_hdr) : M unit :=
  nif ← netif_get n;
  ACD_FOREACH n (acd_arp_reply_one n (nif_hwaddr nif) hdr).

Definition acd_put_in_passive_mode (n a : Z) : M unit :=
  x ← acd_get a;
  match acd_state x with
  | ACD_STATE_OFF | ACD_STATE_PASSIVE_ONGOING => mret tt
  | ACD_STATE_PROBE_WAIT | ACD_STATE_PROBING | ACD_STATE_ANNOUNCE_WAIT | ACD_STATE_RATE_LIMIT =>
      _ ← acd_stop a;
      acd_callback n a ACD_DECLINE
  | ACD_STATE_ANNOUNCING | ACD_STATE_ONGOING =>
      acd_upd a (fun x => with_acd_state x ACD_STATE_PASSIVE_ONGOING)
  end.
Definition acd_netif_ip_addr_changed (n old_addr new_addr : Z) : M unit :=
  if ip4_addr_isany_val old_addr || ip4_addr_isany_val new_addr then mret tt
  else
    ACD_FOREACH n (fun a =>
      x ← acd_get a;
      if ip4_addr_eq (acd_ipaddr x) old_addr then
        if ip4_addr_islinklocal old_addr && negb (ip4_addr_islinklocal new_addr)
        then acd_put_in_passive_mode n a else mret tt
      else mret tt).

(** ** Safety *)

(** What the stack relies on of the callbacks: they return and keep the invariant
    of the link layer. *)
Definition callbacks_follow : Prop := forall E f n c st, link_ok E st ->
  exists st', conflict_callback f n c st = Ok (tt, st') /\ follows E st st'.
Context (Hcallback : callbacks_follow).

(** On an interface and with a module of a list. *)
Definition at_module (n a : Z) (st : state) : Prop := ethernet_netif st n /\ listed st a.

Lemma runs_acd_get E n a : runs E (at_module n a) (acd_get a).
Proof.
  intros st H [_ [x Hx]%listed_some]. exists x, st. unfold acd_get. rewrite Hx. split; [done|by apply follows_refl].
Qed.
Lemma runs_acd_upd E n a f : (forall x, acd_next (f x) = acd_next x) -> runs E (at_module n a) (acd_upd a f).
Proof.
  intros Hf st H [_ [x Hx]%listed_some]. unfold acd_upd. rewrite Hx. eexists tt, _. split; [done|].
  split; [by eapply link_acd_update|apply calm_refl|done|by intros ? ?| |done|done].
  simpl. intros b l Hl. exists l. split; [|done]. by eapply chain_at_update.
Qed.
Lemma runs_rand E P : runs E P LWIP_RAND.
Proof.
  intros st H _. unfold LWIP_RAND. destruct (rand _) as [v s]. eexists _, _. split; [done|].
  split; [|apply calm_refl|done|by intros ? ?|intros a l Hl; by exists l|done|done].
  destruct H as [? ? He ? ? ? ?]. split; try done. eapply Forall_impl; [exact He|].
  intros e. apply entry_ok_mono; [by intros ? ?|done].
Qed.
Lemma runs_probe E n a ip : runs E (at_module n a) (etharp_acd_probe call_custom_free garbage n ip).
Proof.
  intros st H [Hn _]. pose proof Hn as (_ & _ & nif & Hnif & _).
  destruct (etharp_acd_probe_spec call_custom_free garbage _ n nif ip st (link_refs _ _ H) Hn Hnif)
    as (err & st' & E1 & Hm & Hs). eexists _, st'. split; [done|]. apply follows_message; try done.
  by eapply arp_sent_prefix.
Qed.
Lemma runs_announce E n a ip : runs E (at_module n a) (etharp_acd_announce call_custom_free garbage n ip).
Proof.
  intros st H [Hn _]. pose proof Hn as (_ & _ & nif & Hnif & _).
  destruct (etharp_acd_announce_spec call_custom_free garbage _ n nif ip st (link_refs _ _ H) Hn Hnif)
    as (err & st' & E1 & Hm & Hs). eexists _, st'. split; [done|]. apply follows_message; try done.
  by eapply arp_sent_prefix.
Qed.
Lemma runs_callback E n a c : runs E (at_module n a) (acd_callback n a c).
Proof using Hcallback.
  intros st H [_ [x Hx]%listed_some]. unfold acd_callback, acd_get, mbind, st_bind. rewrite Hx.
  destruct (Hcallback E (acd_conflict_callback x) n c st H) as (st' & -> & Hf). by eexists _, st'.
Qed.

Lemma stable_at_module n a : stable (at_module n a).
Proof. apply stable_and; [apply stable_ethernet|apply stable_listed]. Qed.

(** Follows the structure of a handler down to the operations above. *)
Ltac run_handler :=
  repeat match goal with
  | |- runs _ _ (mret _) => apply runs_ret
  | |- runs _ _ (_ ≫= _) => apply runs_bind; [apply stable_at_module| |intros ?]
  | |- runs _ _ (acd_get _) => apply runs_acd_get
  | |- runs _ _ (acd_upd _ _) => apply runs_acd_upd; intros ?; by repeat case_match
  | |- runs _ _ LWIP_RAND => apply runs_rand
  | |- runs _ _ (etharp_acd_probe _ _ _ _) => apply runs_probe
  | |- runs _ _ (etharp_acd_announce _ _ _ _) => apply runs_announce
  | |- runs _ _ (acd_callback _ _ _) => apply runs_callback
  | |- runs _ _ (if ?b then _ else _) => destruct b
  | |- runs _ _ (match ?x with _ => _ end) => destruct x
  end.

Lemma acd_stop_runs E n a : runs E (at_module n a) (acd_stop a).
Proof. unfold acd_stop. run_handler. Qed.
Lemma acd_tmr_one_runs E n a : runs E (at_module n a) (acd_tmr_one n a).
Proof using Hcallback.
  unfold acd_tmr_one, acd_tmr_probe, acd_tmr_announce, acd_tmr_rate_limit, ACD_RANDOM_PROBE_INTERVAL, acd_stop.
  run_handler.
Qed.
Lemma acd_arp_reply_one_runs E n hw hdr a : runs E (at_module n a) (acd_arp_reply_one n hw hdr a).
Proof using Hcallback.
  unfold acd_arp_reply_one, acd_handle_arp_conflict, acd_restart, acd_stop. run_handler.
Qed.
Lemma acd_put_in_passive_mode_runs E n a : runs E (at_module n a) (acd_put_in_passive_mode n a).
Proof using Hcallback. unfold acd_put_in_passive_mode, acd_stop. run_handler. Qed.
Lemma acd_start_runs E n a ip : runs E (at_module n a) (acd_start n a ip).
Proof. unfold acd_start, ACD_RANDOM_PROBE_WAIT. run_handler. Qed.

(** ** The loops *)

Lemma acd_loop_runs E n body fuel a k :
  (forall b, runs E (at_module n b) (body b)) -> (k < fuel)%nat ->
  runs E (fun st => ethernet_netif st n /\ exists l, chain_at acd_next (acds st) a l /\ (length l <= k)%nat)
    (acd_loop fuel body a).
Proof.
  intros Hbody. revert a k. induction fuel as [|fuel IH]; intros a k Hf st H [Hn (l1 & Hl1 & Hlen)]; [lia|].
  cbn [acd_loop]. destruct l1 as [|b l1].
  { rewrite Hl1. eexists _, st. split; [done|by apply follows_refl]. }
  pose proof Hl1 as (-> & Hb & x & Hx & Hl). replace (b =? 0) with false by lia. simpl in Hlen.
  destruct (Hbody b st H) as (r & st1 & E1 & F1); [split; [done|]; split; [done|by exists (b :: l1)]|].
  rewrite (st_bind_ok _ _ _ _ _ E1). destruct (fol_acds _ _ _ F1 _ _ Hl1) as ([|c l2] & Hl2 & Hlen2); [done|].
  destruct Hl2 as (<- & _ & y & Hy & Hl2). simpl in Hlen2.
  unfold acd_get at 1. unfold mbind at 1, st_bind at 1. rewrite Hy.
  destruct (IH (acd_next y) (length l2) ltac:(lia) st1 (fol_ok _ _ _ F1)) as (r' & st2 & E2 & F2).
  { split; [by apply (fol_usable _ _ _ F1)|]. by exists l2. }
  exists r', st2. split; [done|]. by eapply follows_trans.
Qed.

Lemma ACD_FOREACH_runs E n body :
  (forall a, runs E (at_module n a) (body a)) -> runs E (fun st => is_Some (netifs st !! n)) (ACD_FOREACH n body).
Proof.
  intros Hbody st H [nif Hnif]. unfold ACD_FOREACH. rewrite (netif_get_bind _ nif) by done.
  rewrite (st_bind_ok _ _ _ (Datatypes.S (size (acds st))) st) by done.
  destruct (link_acds _ _ H n nif Hnif) as [[l Hl] Hn]. pose proof (chain_at_length _ _ _ _ Hl).
  destruct (decide (nif_acd_list nif = 0)) as [E0|Hne].
  - rewrite E0. simpl. eexists _, st. split; [done|by apply follows_refl].
  - apply (acd_loop_runs E n body (Datatypes.S (size (acds st))) _ (length l) Hbody ltac:(lia) st H). split; [by apply Hn|]. by exists l.
Qed.

Lemma netif_loop_runs E body fuel n l :
  (forall k, runs E (fun st => is_Some (netifs st !! k)) (body k)) -> (length l < fuel)%nat ->
  runs E (fun st => chain_at nif_next (netifs st) n l) (netif_loop fuel body n).
Proof.
  intros Hbody. revert n l. induction fuel as [|fuel IH]; intros n l Hf st H Hl; [lia|].
  cbn [netif_loop]. destruct l as [|b l].
  { rewrite Hl. eexists _, st. split; [done|by apply follows_refl]. }
  pose proof Hl as (-> & Hb & x & Hx & _). replace (b =? 0) with false by lia. simpl in Hf.
  destruct (Hbody b st H) as (r & st1 & E1 & F1); [by eexists|]. rewrite (st_bind_ok _ _ _ _ _ E1).
  destruct (fol_netifs _ _ _ F1 _ _ Hl) as (_ & _ & y & Hy & Hl').
  rewrite (netif_get_bind _ y) by done.
  destruct (IH (nif_next y) l ltac:(lia) st1 (fol_ok _ _ _ F1) Hl') as (r' & st2 & E2 & F2).
  exists r', st2. split; [done|]. by eapply follows_trans.
Qed.
Lemma NETIF_FOREACH_runs E body :
  (forall n, runs E (fun st => is_Some (netifs st !! n)) (body n)) -> runs E (fun _ => True) (NETIF_FOREACH body).
Proof.
  intros Hbody st H _. destruct (link_netifs _ _ H) as [l Hl]. pose proof (chain_at_length _ _ _ _ Hl).
  unfold NETIF_FOREACH. apply (netif_loop_runs E body (Datatypes.S (size (netifs st))) _ l Hbody ltac:(lia) st H Hl).
Qed.

Lemma acd_tmr_runs E : runs E (fun _ => True) acd_tmr.
Proof using Hcallback.
  apply NETIF_FOREACH_runs. intros n. apply ACD_FOREACH_runs. intros a. apply acd_tmr_one_runs.
Qed.
Lemma acd_arp_reply_runs E n hdr : runs E (fun st => is_Some (netifs st !! n)) (acd_arp_reply n hdr).
Proof using Hcallback.
  intros st H Hn. pose proof Hn as [nif Hnif]. unfold acd_arp_reply. rewrite (netif_get_bind _ nif) by done.
  apply (ACD_FOREACH_runs E n); [|done|done]. intros a. apply acd_arp_reply_one_runs.
Qed.

(** ** What a module does in one tick *)

Inductive acd_event := EvProbe | EvAnnounce | EvCallback (c : acd_callback_enum_t).

Definition countdown (z : Z) : Z := if 0 <? z then z - 1 else z.

(** A module [x] alone, after one tick: its new fields and what it did.  [w] is the
    random part of the time to the next probe. *)
Definition acd_tick (w : Z) (x : acd) : acd * list acd_event :=
  let x := with_acd_ttw (with_acd_lastconflict x (countdown (acd_lastconflict x))) (countdown (acd_ttw x)) in
  if negb (acd_ttw x =? 0) then (x, [])
  else
    match acd_state x with
    | ACD_STATE_PROBE_WAIT | ACD_STATE_PROBING =>
        if acd_sent_num x <? 2
        then (with_acd_ttw (with_acd_sent_num (with_acd_state x ACD_STATE_PROBING) (acd_sent_num x + 1)) (10 + w), [EvProbe])
        else (with_acd_ttw (with_acd_sent_num (with_acd_state x ACD_STATE_ANNOUNCE_WAIT) 0) 20, [EvProbe])
    | ACD_STATE_ANNOUNCE_WAIT | ACD_STATE_ANNOUNCING =>
        if acd_sent_num x =? 0
        then (with_acd_sent_num (with_acd_ttw (with_acd_num_conflicts (with_acd_state x ACD_STATE_ANNOUNCING) 0) 20) 1,
              [EvAnnounce])
        else (with_acd_ttw (with_acd_sent_num (with_acd_state x ACD_STATE_ONGOING) 0) 0, [EvAnnounce; EvCallback ACD_IP_OK])
    | ACD_STATE_RATE_LIMIT => (with_acd_state x ACD_STATE_OFF, [EvCallback ACD_RESTART_CLIENT])
    | _ => (x, [])
    end.

(** The state with the module [a] replaced. *)
Definition set_acd (st : state) (a : Z) (x : acd) : state := with_acds st (<[a := x]> (acds st)).

Lemma acd_get_bind {B} a x (f : acd -> M B) st : acds st !! a = Some x -> (acd_get a ≫= f) st = f x st.
Proof. intros H. unfold mbind, st_bind, acd_get. by rewrite H. Qed.
Lemma acd_upd_ok a x f st : acds st !! a = Some x -> acd_upd a f st = Ok (tt, set_acd st a (f x)).
Proof. intros H. unfold acd_upd. by rewrite H. Qed.
Lemma set_acd_lookup st a x : acds (set_acd st a x) !! a = Some x.
Proof. apply lookup_insert_eq. Qed.
Lemma set_acd_set st a x y : set_acd (set_acd st a x) a y = set_acd st a y.
Proof. unfold set_acd, with_acds. simpl. by rewrite insert_insert_eq. Qed.

(** Runs the reads and writes of the module [a] at the head of a handler. *)
Ltac run_module a :=
  repeat first
    [ rewrite (acd_get_bind a _ _ _ (set_acd_lookup _ a _))
    | rewrite (st_bind_ok _ _ _ _ _ (acd_upd_ok a _ _ _ (set_acd_lookup _ a _))), set_acd_set
    | rewrite (acd_upd_ok a _ _ _ (set_acd_lookup _ a _)), set_acd_set ]; cbv beta.

(** The message [m] was sent, or tried to be sent, between two states. *)
Definition sends (E : gmultiset Z) (m : M Z) (st st' : state) : Prop :=
  exists s0 err s1, m s0 = Ok (err, s1) /\ refs_ok E (pm s0) /\
    netifs s0 = netifs st /\ frames s0 = frames st /\ frames st' = frames s1.

(** The rest of the state around a tick of the module [a]. *)
Record ticked (E : gmultiset Z) (n a : Z) (x x' : acd) (ev : list acd_event) (st st' : state) : Prop := {
  tick_acds : acds st' = <[a := x']> (acds st);
  tick_tables : netifs st' = netifs st /\ netif_list st' = netif_list st /\ arp_table st' = arp_table st /\
    etharp_cached_entry st' = etharp_cached_entry st;
  tick_frames : match ev with
    | EvProbe :: _ => sends E (etharp_acd_probe call_custom_free garbage n (acd_ipaddr x)) st st'
    | EvAnnounce :: _ => sends E (etharp_acd_announce call_custom_free garbage n (acd_ipaddr x)) st st'
    | _ => frames st' = frames st
    end
}.
Definition callback_of (ev : list acd_event) : option acd_callback_enum_t :=
  match ev with [EvCallback c] | [_; EvCallback c] => Some c | _ => None end.

(** After a message was sent from [set_acd st a y], the module is set once more. *)
Lemma ticked_set E n a x x' y ev m (st s1 st1 : state) :
  ev = EvProbe \/ ev = EvAnnounce ->
  m = (match ev with
       | EvProbe => etharp_acd_probe call_custom_free garbage n (acd_ipaddr x)
       | _ => etharp_acd_announce call_custom_free garbage n (acd_ipaddr x)
       end) ->
  (exists err, m (set_acd st a y) = Ok (err, s1)) -> refs_ok E (pm st) -> tables_kept (set_acd st a y) s1 ->
  acds st1 = <[a := x']> (acds s1) -> netifs st1 = netifs s1 -> netif_list st1 = netif_list s1 ->
  arp_table st1 = arp_table s1 -> etharp_cached_entry st1 = etharp_cached_entry s1 -> frames st1 = frames s1 ->
  forall rest, ticked E n a x x' (ev :: rest) st st1.
Proof.
  intros Hev Hm [err E1] H (Hk1 & Hk2 & Hk3 & Hk4 & Hk5) Ha H1 H2 H3 H4 H5 rest. split.
  - rewrite Ha, Hk3. simpl. by rewrite insert_insert_eq.
  - cbn in Hk1, Hk2, Hk4, Hk5. repeat split; congruence.
  - assert (sends E m st st1) by (by exists (set_acd st a y), err, s1). by destruct Hev as [-> | ->]; subst m.
Qed.

Lemma acd_tmr_probe_spec E n nif a x st :
  refs_ok E (pm st) -> ethernet_netif st n -> netifs st !! n = Some nif -> acd_ttw x = 0 -> 0 <= acd_sent_num x < 3 ->
  exists w st1, 0 <= w < 10 /\ acd_tmr_probe n a (set_acd st a x) = Ok (tt, st1) /\
    ticked E n a x (if acd_sent_num x <? 2
      then with_acd_ttw (with_acd_sent_num (with_acd_state x ACD_STATE_PROBING) (acd_sent_num x + 1)) (10 + w)
      else with_acd_ttw (with_acd_sent_num (with_acd_state x ACD_STATE_ANNOUNCE_WAIT) 0) 20) [EvProbe] st st1.
Proof.
  intros H Hn Hnif Ht Hs. unfold acd_tmr_probe. run_module a. rewrite Ht, Z.eqb_refl. run_module a.
  set (y := with_acd_state _ _).
  destruct (etharp_acd_probe_spec call_custom_free garbage E n nif (acd_ipaddr x) (set_acd st a y) H Hn Hnif)
    as (err & s1 & E1 & (_ & _ & Hk) & _). rewrite (st_bind_ok _ _ _ _ _ E1).
  assert (Hy : acds s1 !! a = Some y).
  { pose proof Hk as (_ & _ & -> & _). apply set_acd_lookup. }
  rewrite (st_bind_ok _ _ _ _ _ (acd_upd_ok a y _ s1 Hy)). run_module a.
  change (acd_sent_num y) with (acd_sent_num x). rewrite (u8_id (acd_sent_num x + 1)) by (unfold is_u8; lia).
  change (acd_sent_num (with_acd_sent_num ?z ?k)) with k.
  destruct (Z.ltb_spec (acd_sent_num x) 2) as [Hlt|Hge].
  - replace (PROBE_NUM <=? acd_sent_num x + 1) with false by (unfold PROBE_NUM; lia).
    unfold ACD_RANDOM_PROBE_INTERVAL, LWIP_RAND. unfold mbind at 1 2, st_bind at 1 2. destruct (rand _) as [v r].
    cbn [mret st_ret]. set (w := u32 v mod _). assert (0 <= w < 10) by (by apply Z.mod_pos_bound).
    exists w. rewrite (acd_upd_ok a _ _ (with_rand_state _ r) (set_acd_lookup _ a _)).
    eexists. split; [done|]. split; [done|]. eapply (ticked_set _ _ _ _ _ y); try done; [by left|by eexists|].
    simpl. rewrite insert_insert_eq. do 2 f_equal.
    change (PROBE_MIN * ACD_TICKS_PER_SECOND) with 10. rewrite (u16_id (w + 10)) by (unfold is_u16; lia). lia.
  - replace (PROBE_NUM <=? acd_sent_num x + 1) with true by (unfold PROBE_NUM; lia).
    run_module a. exists 0. eexists. split; [done|]. split; [done|].
    eapply (ticked_set _ _ _ _ _ y); try done; [by left|by eexists].
Qed.

Lemma acd_tmr_announce_spec E n nif a x st :
  refs_ok E (pm st) -> ethernet_netif st n -> netifs st !! n = Some nif -> acd_ttw x = 0 -> 0 <= acd_sent_num x < 3 ->
  exists st1, acd_tmr_announce n a (set_acd st a x)
      = (if acd_sent_num x =? 0 then Ok (tt, st1) else conflict_callback (acd_conflict_callback x) n ACD_IP_OK st1) /\
    ticked E n a x (if acd_sent_num x =? 0
      then with_acd_sent_num (with_acd_ttw (with_acd_num_conflicts (with_acd_state x ACD_STATE_ANNOUNCING) 0) 20) 1
      else with_acd_ttw (with_acd_sent_num (with_acd_state x ACD_STATE_ONGOING) 0) 0)
      (if acd_sent_num x =? 0 then [EvAnnounce] else [EvAnnounce; EvCallback ACD_IP_OK]) st st1.
Proof.
  intros H Hn Hnif Ht Hs. unfold acd_tmr_announce. run_module a. rewrite Ht, Z.eqb_refl.
  set (y := if acd_sent_num x =? 0
    then with_acd_num_conflicts (with_acd_state x ACD_STATE_ANNOUNCING) 0 else x).
  rewrite (st_bind_ok _ _ _ tt (set_acd st a y)) by (unfold y; destruct (acd_sent_num x =? 0); [by run_module a|done]).
  destruct (etharp_acd_announce_spec call_custom_free garbage E n nif (acd_ipaddr x) (set_acd st a y) H Hn Hnif)
    as (err & s1 & E1 & (_ & _ & Hk) & _). rewrite (st_bind_ok _ _ _ _ _ E1).
  assert (Hy : acds s1 !! a = Some y).
  { pose proof Hk as (_ & _ & -> & _). apply set_acd_lookup. }
  rewrite (st_bind_ok _ _ _ _ _ (acd_upd_ok a y _ s1 Hy)). run_module a.
  assert (Hyn : acd_sent_num y = acd_sent_num x) by (unfold y; by destruct (acd_sent_num x =? 0)).
  assert (Hyc : acd_conflict_callback y = acd_conflict_callback x) by (unfold y; by destruct (acd_sent_num x =? 0)).
  change (acd_sent_num (with_acd_ttw y ?z)) with (acd_sent_num y). rewrite Hyn.
  rewrite (u8_id (acd_sent_num x + 1)) by (unfold is_u8; lia).
  change (acd_sent_num (with_acd_sent_num ?z ?k)) with k.
  destruct (Z.eqb_spec (acd_sent_num x) 0) as [E0|Hne].
  - rewrite E0. change (ANNOUNCE_NUM <=? 0 + 1) with false. cbv iota. eexists. split; [done|].
    eapply (ticked_set _ _ _ _ _ y); try done; [by right|by eexists].
  - replace (ANNOUNCE_NUM <=? acd_sent_num x + 1) with true by (unfold ANNOUNCE_NUM; lia). run_module a.
    unfold acd_callback. run_module a. eexists. split; [simpl; by rewrite Hyc|].
    eapply (ticked_set _ _ _ _ _ y); try done; [by right|by eexists].
Qed.

Lemma acd_start_spec n a ip x st : acds st !! a = Some x ->
  exists w st0, 0 <= w < 10 /\ acd_start n a ip st = Ok (ERR_OK, st0) /\
    acds st0 = <[a := with_acd_ttw (with_acd_state (with_acd_ipaddr (with_acd_lastconflict
      (with_acd_sent_num x 0) 0) ip) ACD_STATE_PROBE_WAIT) w]> (acds st) /\
    netifs st0 = netifs st /\ netif_list st0 = netif_list st /\ frames st0 = frames st.
Proof.
  intros Hx. unfold acd_start. rewrite (st_bind_ok _ _ _ _ _ (acd_upd_ok a x _ st Hx)). run_module a.
  unfold ACD_RANDOM_PROBE_WAIT, LWIP_RAND, mbind, st_bind. destruct (rand _) as [v q]. cbn [mret st_ret].
  set (w := u32 v mod _). assert (Hw : 0 <= w < 10) by (by apply Z.mod_pos_bound).
  rewrite (acd_upd_ok a _ _ (with_rand_state _ q) (set_acd_lookup _ a _)). exists w.
  eexists. split; [done|]. split; [done|]. simpl. rewrite insert_insert_eq, (u16_id w); [done|].
  unfold is_u16. lia.
Qed.

(** [acd_tmr_one] is [acd_tick]: the module's new fields are stored, the messages
    sent, and then the callback is made if there is one. *)
Lemma acd_tmr_one_spec E n nif a x st :
  a <> 0 -> refs_ok E (pm st) -> ethernet_netif st n -> netifs st !! n = Some nif -> acds st !! a = Some x ->
  0 <= acd_ttw x -> 0 <= acd_sent_num x < 3 ->
  exists w st1, 0 <= w < 10 /\ ticked E n a x (acd_tick w x).1 (acd_tick w x).2 st st1 /\
    acd_tmr_one n a st = match callback_of (acd_tick w x).2 with
      | Some c => conflict_callback (acd_conflict_callback x) n c st1
      | None => Ok (tt, st1)
      end.
Proof.
  intros Ha H Hn Hnif Hx Ht Hs. unfold acd_tmr_one.
  rewrite (st_bind_ok _ _ _ _ _ (acd_upd_ok a x _ st Hx)). run_module a.
  set (y := if 0 <? acd_ttw _ then _ else _).
  assert (Ey : y = with_acd_ttw (with_acd_lastconflict x (countdown (acd_lastconflict x))) (countdown (acd_ttw x))).
  { unfold y, countdown. destruct x as [? ? ? ? t c ? ?]. unfold with_acd_ttw, with_acd_lastconflict. simpl.
    by destruct (0 <? c); simpl; destruct (0 <? t). }
  assert (Hc : acd_conflict_callback y = acd_conflict_callback x) by (by rewrite Ey).
  assert (Hip : acd_ipaddr y = acd_ipaddr x) by (by rewrite Ey).
  assert (Hsn : 0 <= acd_sent_num y < 3) by (by rewrite Ey).
  clearbody y. unfold acd_tick. rewrite <-Ey. clear Ey.
  assert (Hidle : ticked E n a x y [] st (set_acd st a y)) by done.
  assert (Hch : forall ev x' st1, ticked E n a y x' ev st st1 -> ticked E n a x x' ev st st1).
  { intros ev x' st1 [? ? Hf]. split; [done|done|]. by rewrite Hip in Hf. }
  destruct (acd_ttw y =? 0) eqn:Et; cbn [negb].
  2:{ exists 0, (set_acd st a y). split; [done|]. split; [done|]. destruct (acd_state y); try done;
      unfold acd_tmr_probe, acd_tmr_announce, acd_tmr_rate_limit; run_module a; by rewrite Et. }
  apply Z.eqb_eq in Et.
  assert (Hprobe := acd_tmr_probe_spec E n nif a y st H Hn Hnif Et Hsn).
  assert (Hann := acd_tmr_announce_spec E n nif a y st H Hn Hnif Et Hsn).
  destruct (acd_state y).
  all: try (exists 0, (set_acd st a y); by repeat (split; [done|])).
  all: try (destruct Hprobe as (w & st1 & Hw & -> & Hst); exists w, st1; split; [done|];
            destruct (acd_sent_num y <? 2); (split; [by apply Hch|done])).
  all: try (destruct Hann as (st1 & -> & Hst); exists 0, st1; split; [done|];
            destruct (acd_sent_num y =? 0); (split; [by apply Hch|by rewrite <-?Hc])).
  exists 0, (set_acd st a (with_acd_state y ACD_STATE_OFF)). split; [done|]. split; [done|].
  unfold acd_tmr_rate_limit, acd_stop, acd_callback. run_module a. rewrite Et, Z.eqb_refl.
  replace (a =? 0) with false by lia.
  erewrite (st_bind_ok _ _ _ ERR_OK (set_acd st a (with_acd_state y ACD_STATE_OFF))) by (by run_module a).
  run_module a. simpl. by rewrite Hc.
Qed.

(** C22. The timer's treatment of one module refines the machine [acd_tick]: on an
    Ethernet interface one round of the loop in [acd_tmr] does to the module exactly what [acd_tick]
    says for some random delay below one second, sends a probe or an announcement for the module's
    address exactly when [acd_tick] has that event, changes nothing else but pbufs, counters and the random state, and
    then calls the client's function with the code of [acd_tick] if there is one.  The
    machine's phases, waiting times and numbers of messages are those of RFC 5227. *)
Theorem acd_tmr_refines_tick E n nif a x st :
  a <> 0 -> refs_ok E (pm st) -> ethernet_netif st n -> netifs st !! n = Some nif -> acds st !! a = Some x ->
  0 <= acd_ttw x -> 0 <= acd_sent_num x < 3 ->
  exists w st1, 0 <= w < 10 /\ ticked E n a x (acd_tick w x).1 (acd_tick w x).2 st st1 /\
    acd_tmr_one n a st = match callback_of (acd_tick w x).2 with
      | Some c => conflict_callback (acd_conflict_callback x) n c st1
      | None => Ok (tt, st1)
      end.
Proof. apply acd_tmr_one_spec. Qed.

End acd.

(** ** A module that meets no conflict *)

Section claim.
Context {S : Type} `{!PbufAlloc S}.
Abbreviation state := (@net S).
Abbreviation M := (ST state).
Context (call_custom_free : Z -> Z -> ST (@pstate S) unit) (garbage : Z -> Z) (attached : Z -> bool).
Context (malloc_finds : forall L s n p s', pa_live L s -> pa_malloc src_heap n s = Ok (p, s') -> p <> 0).
#[local] Instance claim_driver : @LinkDriver S _ := lwip_driver garbage attached malloc_finds.
Context (conflict_callback : Z -> Z -> acd_callback_enum_t -> M unit) (rand : Z -> Z * Z).
Context (Hcallback : callbacks_follow conflict_callback).

Abbreviation tmr := (acd_tmr call_custom_free garbage conflict_callback rand).

Fixpoint ticks (k : nat) : M unit :=
  match k with O => mret tt | Datatypes.S k' => _ ← tmr; ticks k' end.

(** The only interface [n] has the only module [a]. *)
Record solo (E : gmultiset Z) (n : Z) (nif : netif) (a : Z) (st : state) (x : acd) : Prop := {
  solo_ok : link_ok E st;
  solo_list : netif_list st = n;
  solo_netif : netifs st !! n = Some nif;
  solo_next : nif_next nif = 0;
  solo_acd : nif_acd_list nif = a /\ a <> 0;
  solo_module : acds st !! a = Some x;
  solo_last : acd_next x = 0
}.

Lemma solo_ethernet E n nif a st x : solo E n nif a st x -> ethernet_netif st n.
Proof. intros [Hok _ Hn _ [Ha Ha0] _ _]. apply (link_acds _ _ Hok n nif Hn). by rewrite Ha. Qed.

(** The loops have one round each. *)
Lemma acd_tmr_solo E n nif a st x : solo E n nif a st x ->
  exists rest : M unit,
    tmr st = (acd_tmr_one call_custom_free garbage conflict_callback rand n a ≫= fun _ => rest) st /\
    forall st' x', netifs st' = netifs st -> acds st' !! a = Some x' -> acd_next x' = 0 -> rest st' = Ok (tt, st').
Proof.
  intros H. pose proof H as [Hok Hl Hn Hnx [Ha Ha0] Hx Hlx]. subst a.
  destruct (size (netifs st)) as [|kn] eqn:Esn.
  { apply map_size_empty_inv in Esn. by rewrite Esn, lookup_empty in Hn. }
  destruct (size (acds st)) as [|ka] eqn:Esa.
  { apply map_size_empty_inv in Esa. by rewrite Esa, lookup_empty in Hx. }
  pose proof (solo_ethernet _ _ _ _ _ _ H) as (Hn0 & _).
  set (one := acd_tmr_one call_custom_free garbage conflict_callback rand).
  exists ((x ← acd_get (nif_acd_list nif); acd_loop (Datatypes.S ka) (one n) (acd_next x)) ≫= fun _ =>
    nif ← netif_get n;
    netif_loop (Datatypes.S kn) (fun n => ACD_FOREACH n (one n)) (nif_next nif)). split.
  - unfold acd_tmr, NETIF_FOREACH. rewrite Esn, Hl. cbn [netif_loop]. replace (n =? 0) with false by lia.
    assert (E1 : ACD_FOREACH n (one n) st = (one n (nif_acd_list nif) ≫= fun _ =>
      x ← acd_get (nif_acd_list nif); acd_loop (Datatypes.S ka) (one n) (acd_next x)) st).
    { unfold ACD_FOREACH. rewrite (netif_get_bind _ nif) by done.
      rewrite (st_bind_ok _ _ _ (Datatypes.S (size (acds st))) st) by done. rewrite Esa. cbn [acd_loop].
      by replace (nif_acd_list nif =? 0) with false by lia. }
    unfold mbind at 1, st_bind at 1. fold one. rewrite E1.
    unfold mbind, st_bind. by destruct (one n (nif_acd_list nif) st) as [[[] ?]| | |].
  - intros st' x' En Hx' Hnx'. unfold mbind at 1, st_bind at 1. rewrite (acd_get_bind _ x') by done.
    rewrite Hnx'. cbn [acd_loop]. rewrite Z.eqb_refl. cbn [mret st_ret].
    rewrite (netif_get_bind _ nif) by congruence. rewrite Hnx. done.
Qed.

Lemma acd_tick_next w x : acd_next (acd_tick w x).1 = acd_next x.
Proof. unfold acd_tick. by repeat case_match. Qed.

Lemma solo_tick E n nif a st x : solo E n nif a st x -> 0 <= acd_ttw x -> 0 <= acd_sent_num x < 3 ->
  exists w st1, 0 <= w < 10 /\
    ticked call_custom_free garbage (E ⊎ queued (arp_table st)) n a x (acd_tick w x).1 (acd_tick w x).2 st st1 /\
    match callback_of (acd_tick w x).2 with
    | None => tmr st = Ok (tt, st1) /\ solo E n nif a st1 (acd_tick w x).1
    | Some c => exists rest, tmr st = (conflict_callback (acd_conflict_callback x) n c ≫= fun _ => rest) st1
    end.
Proof using Hcallback.
  intros H Ht Hs. destruct (acd_tmr_solo _ _ _ _ _ _ H) as (rest & Etmr & Hrest).
  assert (Hn := solo_ethernet _ _ _ _ _ _ H). pose proof H as [Hok Hl Hnif Hnx [Ha Ha0] Hx Hlx].
  destruct (acd_tmr_one_spec call_custom_free garbage conflict_callback rand _ n nif a x st Ha0
    (link_refs _ _ Hok) Hn Hnif Hx Ht Hs) as (w & st1 & Hw & Htk & Eone).
  exists w, st1. split; [done|]. split; [done|]. destruct (callback_of _) as [c|].
  - exists rest. rewrite Etmr. unfold mbind, st_bind. by rewrite Eone.
  - pose proof Htk as [Hacds (Hnn & Hnl & _) _].
    assert (Hx1 : acds st1 !! a = Some (acd_tick w x).1) by (rewrite Hacds; apply lookup_insert_eq).
    assert (Et : tmr st = Ok (tt, st1)).
    { rewrite Etmr, (st_bind_ok _ _ _ _ _ Eone). apply (Hrest _ (acd_tick w x).1); try done.
      by rewrite acd_tick_next. }
    split; [done|]. split; try done; try congruence; [|by rewrite acd_tick_next].
    destruct (acd_tmr_runs call_custom_free garbage conflict_callback rand Hcallback E st Hok I)
      as (? & st2 & E2 & F2). rewrite Et in E2. injection E2 as _ <-. apply F2.
Qed.

(** The frames a probe and an announcement of [ip] consist of. *)
Definition probe_frame (nif : netif) (ip : Z) : list Z :=
  eth_frame ethbroadcast (nif_hwaddr nif) ETHTYPE_ARP (arp_message ARP_REQUEST (nif_hwaddr nif) 0 ethzero ip).
Definition announce_frame (nif : netif) (ip : Z) : list Z :=
  eth_frame ethbroadcast (nif_hwaddr nif) ETHTYPE_ARP (arp_message ARP_REQUEST (nif_hwaddr nif) ip ethzero ip).

Lemma sends_probe E n nif ip st st1 :
  sends E (etharp_acd_probe call_custom_free garbage n ip) st st1 -> netifs st !! n = Some nif ->
  ethernet_netif st n -> frames st1 = frames st ++ [(n, probe_frame nif ip)].
Proof.
  intros (s0 & err & s1 & Es & Hr & Hn0 & Hf0 & Hf1) Hnif (Hz & Hsv & nif' & Hnif' & Hhl & Hhw).
  simplify_eq. rewrite <-Hn0 in Hnif. unfold etharp_acd_probe in Es. rewrite (netif_get_bind _ nif) in Es by done.
  rewrite Hf1, <-Hf0. refine (etharp_raw_sends _ _ malloc_finds _ _ _ _ _ _ _ _ _ _ _ _ _ Hr _ _ _ _ _ _ Es);
    try done. split; [done|]. split; [done|]. by exists nif.
Qed.
Lemma sends_announce E n nif ip st st1 :
  sends E (etharp_acd_announce call_custom_free garbage n ip) st st1 -> netifs st !! n = Some nif ->
  ethernet_netif st n -> frames st1 = frames st ++ [(n, announce_frame nif ip)].
Proof.
  intros (s0 & err & s1 & Es & Hr & Hn0 & Hf0 & Hf1) Hnif (Hz & Hsv & nif' & Hnif' & Hhl & Hhw).
  simplify_eq. rewrite <-Hn0 in Hnif. unfold etharp_acd_announce in Es. rewrite (netif_get_bind _ nif) in Es by done.
  rewrite Hf1, <-Hf0. refine (etharp_raw_sends _ _ malloc_finds _ _ _ _ _ _ _ _ _ _ _ _ _ Hr _ _ _ _ _ _ Es);
    try done. split; [done|]. split; [done|]. by exists nif.
Qed.

(** The fields that matter to the claim. *)
Definition in_phase (x : acd) (ip f : Z) (s : acd_state_enum_t) (m t : Z) : Prop :=
  acd_ipaddr x = ip /\ acd_conflict_callback x = f /\ acd_state x = s /\ acd_sent_num x = m /\ acd_ttw x = t.

Lemma ticks_app j k st st1 : ticks j st = Ok (tt, st1) -> ticks (j + k) st = ticks k st1.
Proof.
  revert st. induction j as [|j IH]; intros st; cbn [ticks Nat.add]; [by intros [= <-]|].
  unfold mbind, st_bind. destruct (tmr st) as [[[] s]| | |]; try done. apply IH.
Qed.

Lemma solo_wait k E n nif a st x ip f s m t :
  solo E n nif a st x -> in_phase x ip f s m t -> 0 <= m < 3 -> Z.of_nat k < t ->
  exists st' x', ticks k st = Ok (tt, st') /\ solo E n nif a st' x' /\ in_phase x' ip f s m (t - Z.of_nat k) /\
    frames st' = frames st.
Proof using Hcallback.
  revert st x t. induction k as [|k IH]; intros st x t H Hp Hm Hk.
  { exists st, x. split; [done|]. split; [done|]. by rewrite Z.sub_0_r. }
  pose proof Hp as (Hip & Hf & Hs & Hsn & Ht).
  destruct (solo_tick _ _ _ _ _ _ H) as (w & st1 & _ & [_ _ Hfr] & Hnext); [lia|lia|].
  assert (Etk : acd_tick w x
    = (with_acd_ttw (with_acd_lastconflict x (countdown (acd_lastconflict x))) (t - 1), [])).
  { unfold acd_tick, countdown at 2 4. rewrite Ht. replace (0 <? t) with true by lia. simpl acd_ttw.
    by replace (t - 1 =? 0) with false by lia. }
  rewrite Etk in Hfr, Hnext. cbn [fst snd callback_of] in Hfr, Hnext. destruct Hnext as [Et Hsolo].
  destruct (IH st1 _ (t - 1) Hsolo ltac:(done) Hm ltac:(lia)) as (st' & x' & E' & Hso & Hph & Hfr').
  exists st', x'. cbn [ticks]. rewrite (st_bind_ok _ _ _ _ _ Et). split; [done|]. split; [done|].
  split; [|congruence]. by replace (t - Z.of_nat (Datatypes.S k)) with (t - 1 - Z.of_nat k) by lia.
Qed.

(** The tick at which the time has run out. *)
Lemma acd_tick_due w x : 0 <= acd_ttw x <= 1 ->
  let y := with_acd_ttw (with_acd_lastconflict x (countdown (acd_lastconflict x))) 0 in
  acd_tick w x = match acd_state x with
    | ACD_STATE_PROBE_WAIT | ACD_STATE_PROBING =>
        if acd_sent_num x <? 2
        then (with_acd_ttw (with_acd_sent_num (with_acd_state y ACD_STATE_PROBING) (acd_sent_num x + 1)) (10 + w), [EvProbe])
        else (with_acd_ttw (with_acd_sent_num (with_acd_state y ACD_STATE_ANNOUNCE_WAIT) 0) 20, [EvProbe])
    | ACD_STATE_ANNOUNCE_WAIT | ACD_STATE_ANNOUNCING =>
        if acd_sent_num x =? 0
        then (with_acd_sent_num (with_acd_ttw (with_acd_num_conflicts (with_acd_state y ACD_STATE_ANNOUNCING) 0) 20) 1,
              [EvAnnounce])
        else (with_acd_ttw (with_acd_sent_num (with_acd_state y ACD_STATE_ONGOING) 0) 0, [EvAnnounce; EvCallback ACD_IP_OK])
    | ACD_STATE_RATE_LIMIT => (with_acd_state y ACD_STATE_OFF, [EvCallback ACD_RESTART_CLIENT])
    | _ => (y, [])
    end.
Proof.
  intros Ht. unfold acd_tick. replace (countdown (acd_ttw x)) with 0; [done|].
  unfold countdown. destruct (Z.ltb_spec 0 (acd_ttw x)); lia.
Qed.

Lemma solo_due E n nif a st x ip f s m t :
  solo E n nif a st x -> in_phase x ip f s m t -> 0 <= m < 3 -> 0 <= t ->
  exists st1 x1 t1, ticks (Z.to_nat (Z.max 1 t - 1)) st = Ok (tt, st1) /\ solo E n nif a st1 x1 /\
    in_phase x1 ip f s m t1 /\ 0 <= t1 <= 1 /\ frames st1 = frames st.
Proof using Hcallback.
  intros H Hp Hm Ht. destruct (decide (t <= 1)) as [Hle|Hgt].
  - exists st, x, t. by replace (Z.max 1 t - 1) with 0 by lia.
  - destruct (solo_wait (Z.to_nat (Z.max 1 t - 1)) E n nif a st x ip f s m t) as (st1 & x1 & E1 & H1 & Hp1 & Hf1);
      [done|done|done|lia|]. exists st1, x1, (t - Z.of_nat (Z.to_nat (Z.max 1 t - 1))).
    repeat (split; [done|]). split; [lia|done].
Qed.

Lemma solo_probe E n nif a st x ip f s m t :
  solo E n nif a st x -> in_phase x ip f s m t -> 0 <= m < 3 -> 0 <= t ->
  s = ACD_STATE_PROBE_WAIT \/ s = ACD_STATE_PROBING ->
  exists w st' x', 0 <= w < 10 /\ ticks (Z.to_nat (Z.max 1 t)) st = Ok (tt, st') /\ solo E n nif a st' x' /\
    (if m <? 2 then in_phase x' ip f ACD_STATE_PROBING (m + 1) (10 + w)
     else in_phase x' ip f ACD_STATE_ANNOUNCE_WAIT 0 20) /\
    frames st' = frames st ++ [(n, probe_frame nif ip)].
Proof using Hcallback.
  intros H Hp Hm Ht Hs. destruct (solo_due E n nif a st x ip f s m t H Hp Hm Ht)
    as (st1 & x1 & t1 & E1 & H1 & (Hip & Hf & Hst & Hsn & Htt) & Ht1 & Hf1).
  destruct (solo_tick _ _ _ _ _ _ H1) as (w & st2 & Hw & [_ _ Hfr] & Hnext); [lia|lia|].
  rewrite acd_tick_due in Hfr, Hnext by lia. rewrite Hsn, Hst in Hfr, Hnext.
  assert (Hpr : frames st2 = frames st ++ [(n, probe_frame nif ip)]).
  { rewrite <-Hf1, <-Hip. eapply sends_probe; [|apply H1|by eapply solo_ethernet].
    destruct Hs as [-> | ->], (m <? 2); exact Hfr. }
  replace (Z.to_nat (Z.max 1 t)) with (Z.to_nat (Z.max 1 t - 1) + 1)%nat by lia.
  exists w, st2. rewrite (ticks_app _ _ _ _ E1). cbn [ticks].
  destruct Hs as [-> | ->], (m <? 2); cbn [fst snd callback_of] in Hnext; destruct Hnext as [Et Hso];
    (eexists; split; [done|]; split; [by rewrite (st_bind_ok _ _ _ _ _ Et)|]; split; [exact Hso|]; by repeat split).
Qed.

Lemma solo_announce E n nif a st x ip f s t :
  solo E n nif a st x -> in_phase x ip f s 0 t -> 0 <= t ->
  s = ACD_STATE_ANNOUNCE_WAIT \/ s = ACD_STATE_ANNOUNCING ->
  exists st' x', ticks (Z.to_nat (Z.max 1 t)) st = Ok (tt, st') /\ solo E n nif a st' x' /\
    in_phase x' ip f ACD_STATE_ANNOUNCING 1 20 /\ frames st' = frames st ++ [(n, announce_frame nif ip)].
Proof using Hcallback.
  intros H Hp Ht Hs. destruct (solo_due E n nif a st x ip f s 0 t H Hp ltac:(done) Ht)
    as (st1 & x1 & t1 & E1 & H1 & (Hip & Hf & Hst & Hsn & Htt) & Ht1 & Hf1).
  destruct (solo_tick _ _ _ _ _ _ H1) as (w & st2 & Hw & [_ _ Hfr] & Hnext); [lia|lia|].
  rewrite acd_tick_due in Hfr, Hnext by lia. rewrite Hsn, Hst in Hfr, Hnext.
  replace (Z.to_nat (Z.max 1 t)) with (Z.to_nat (Z.max 1 t - 1) + 1)%nat by lia.
  exists st2. rewrite (ticks_app _ _ _ _ E1). cbn [ticks].
  destruct Hs as [-> | ->]; cbn [fst snd callback_of Z.eqb] in Hnext, Hfr; destruct Hnext as [Et Hso];
    (eexists; split; [by rewrite (st_bind_ok _ _ _ _ _ Et)|]; split; [exact Hso|]; split; [by repeat split|];
     rewrite <-Hf1, <-Hip; eapply sends_announce; [exact Hfr|apply H1|by eapply solo_ethernet]).
Qed.

Lemma solo_last_announce E n nif a st x ip f t :
  solo E n nif a st x -> in_phase x ip f ACD_STATE_ANNOUNCING 1 t -> 0 <= t ->
  exists st1 st2 x2 rest, ticks (Z.to_nat (Z.max 1 t - 1)) st = Ok (tt, st1) /\
    tmr st1 = (conflict_callback f n ACD_IP_OK ≫= fun _ => rest) st2 /\
    acds st2 !! a = Some x2 /\ acd_ipaddr x2 = ip /\ acd_state x2 = ACD_STATE_ONGOING /\
    frames st2 = frames st ++ [(n, announce_frame nif ip)].
Proof using Hcallback.
  intros H Hp Ht. destruct (solo_due E n nif a st x ip f _ 1 t H Hp ltac:(done) Ht)
    as (st1 & x1 & t1 & E1 & H1 & (Hip & Hf & Hst & Hsn & Htt) & Ht1 & Hf1).
  destruct (solo_tick _ _ _ _ _ _ H1) as (w & st2 & Hw & [Ha _ Hfr] & Hnext); [lia|lia|].
  rewrite acd_tick_due in Hfr, Hnext, Ha by lia. rewrite Hsn, Hst in Hfr, Hnext, Ha.
  cbn [fst snd callback_of Z.eqb] in Hnext, Hfr, Ha. destruct Hnext as [rest Et]. rewrite Hf in Et.
  exists st1, st2. eexists _, rest. split; [done|]. split; [exact Et|]. rewrite Ha. split; [apply lookup_insert_eq|].
  split; [done|]. split; [done|].
  rewrite <-Hf1, <-Hip. eapply sends_announce; [exact Hfr|apply H1|by eapply solo_ethernet].
Qed.

Lemma acd_start_solo E n nif a st x ip : solo E n nif a st x ->
  exists st0 x0 w, acd_start rand n a ip st = Ok (ERR_OK, st0) /\ solo E n nif a st0 x0 /\ 0 <= w < 10 /\
    in_phase x0 ip (acd_conflict_callback x) ACD_STATE_PROBE_WAIT 0 w /\ frames st0 = frames st.
Proof.
  intros H. pose proof H as [Hok Hl Hnif Hnx [Ha Ha0] Hx Hlx].
  destruct (acd_start_spec rand n a ip x st Hx) as (w & st0 & Hw & E0 & Hac & Hnn & Hnl & Hf).
  destruct (acd_start_runs rand E n a ip st Hok) as (r & st0' & E0' & F0).
  { split; [by eapply solo_ethernet|]. split; [done|]. exists [a]. split; [done|]. split; [done|].
    exists x. by rewrite Hlx. }
  rewrite E0 in E0'. injection E0' as _ <-. eexists st0, _, w. split; [done|].
  split; [split; [apply F0|congruence|congruence|done|done|rewrite Hac; apply lookup_insert_eq|done]|].
  split; [done|]. by repeat split.
Qed.

(** C36. A module that meets no conflict gets its address.  On the only interface of
    the system, with a single module and the driver of the kernel, [acd_start] returns
    [ERR_OK]; then after between 60 and 86 calls of [acd_tmr] (6 to 8.6 seconds, whatever the
    random numbers are) that all return, the next call tells the client [ACD_IP_OK], with
    the module in state ONGOING for the requested address, and exactly three probes
    followed by two announcements of the address have been sent. *)
Theorem acd_claims_address E n nif a st x ip : solo E n nif a st x ->
  exists st0, acd_start rand n a ip st = Ok (ERR_OK, st0) /\
  exists k st1 st2 x2 rest, 60 <= Z.of_nat k <= 86 /\ ticks k st0 = Ok (tt, st1) /\
    tmr st1 = (conflict_callback (acd_conflict_callback x) n ACD_IP_OK ≫= fun _ => rest) st2 /\
    acds st2 !! a = Some x2 /\ acd_ipaddr x2 = ip /\ acd_state x2 = ACD_STATE_ONGOING /\
    frames st2 = frames st ++ map (pair n)
      [probe_frame nif ip; probe_frame nif ip; probe_frame nif ip; announce_frame nif ip; announce_frame nif ip].
Proof using Hcallback.
  intros H. destruct (acd_start_solo E n nif a st x ip H) as (st0 & x0 & w0 & E0 & H0 & Hw0 & P0 & F0).
  exists st0. split; [done|].
  destruct (solo_probe _ _ _ _ _ _ _ _ _ _ _ H0 P0 ltac:(done) ltac:(lia) (or_introl eq_refl))
    as (w1 & st1 & x1 & Hw1 & E1 & H1 & P1 & F1).
  destruct (solo_probe _ _ _ _ _ _ _ _ _ _ _ H1 P1 ltac:(done) ltac:(lia) (or_intror eq_refl))
    as (w2 & st2 & x2 & Hw2 & E2 & H2 & P2 & F2).
  destruct (solo_probe _ _ _ _ _ _ _ _ _ _ _ H2 P2 ltac:(done) ltac:(lia) (or_intror eq_refl))
    as (w3 & st3 & x3 & Hw3 & E3 & H3 & P3 & F3).
  destruct (solo_announce _ _ _ _ _ _ _ _ _ _ H3 P3 ltac:(done) (or_introl eq_refl))
    as (st4 & x4 & E4 & H4 & P4 & F4).
  destruct (solo_last_announce _ _ _ _ _ _ _ _ _ H4 P4 ltac:(done)) as (st5 & st6 & x6 & rest & E5 & Et & Hx & Hip & Hs & F6).
  exists (Z.to_nat (Z.max 1 w0) + (Z.to_nat (Z.max 1 (10 + w1)) + (Z.to_nat (Z.max 1 (10 + w2)) +
    (Z.to_nat (Z.max 1 20) + Z.to_nat (Z.max 1 20 - 1)))))%nat, st5, st6, x6, rest.
  split; [lia|]. split.
  { rewrite (ticks_app _ _ _ _ E1), (ticks_app _ _ _ _ E2), (ticks_app _ _ _ _ E3), (ticks_app _ _ _ _ E4). exact E5. }
  repeat (split; [done|]). rewrite F6, F4, F3, F2, F1, F0, <-!app_assoc. done.
Qed.

End claim.

(** ** A module in the example network *)

Section example.
#[local] Existing Instance example_PbufAlloc.

(** The interface has the module 0x400, started for no address yet. *)
Definition example_acd : acd :=
  {| acd_next := 0; acd_ipaddr := 0; acd_state := ACD_STATE_OFF; acd_sent_num := 0; acd_ttw := 0;
     acd_lastconflict := 0; acd_num_conflicts := 0; acd_conflict_callback := 0x500 |}.
Definition example_acd_net : @net (memp_state * Z) :=
  with_acds (with_netifs example_net {[0x300 := with_nif_acd_list example_nif 0x400]}) {[0x400 := example_acd]}.

Lemma example_callbacks : callbacks_follow (Link := example_driver) (fun _ _ _ => mret tt).
Proof. intros E f n c st H. exists st. split; [done|by apply follows_refl]. Qed.

Lemma example_acd_ethernet : ethernet_netif (Link := example_driver) example_acd_net 0x300.
Proof. split; [done|]. split; [done|]. by exists (with_nif_acd_list example_nif 0x400). Qed.

Lemma example_acd_ok : link_ok (Link := example_driver) ∅ example_acd_net.
Proof.
  split; try done.
  - replace (queued (arp_table example_acd_net)) with (∅ : gmultiset Z) by (by vm_compute).
    rewrite (left_id_L ∅ (⊎)). exact example_refs.
  - apply Forall_replicate. by split.
  - intros i j e e' Hi Hj Ho. apply lookup_replicate in Hi as [-> _]. by destruct Ho.
  - intros n nif Hn. simpl in Hn. apply lookup_singleton_Some in Hn as [<- <-].
    split; [|intros _; exact example_acd_ethernet]. exists [0x400]. split; [done|]. split; [done|]. by exists example_acd.
  - exists [0x300]. split; [done|]. split; [done|]. by exists (with_nif_acd_list example_nif 0x400).
Qed.
Lemma example_solo :
  solo zeros (fun n => n =? 0x300) example_malloc_finds ∅ 0x300 (with_nif_acd_list example_nif 0x400) 0x400 example_acd_net example_acd.
Proof. split; try done. exact example_acd_ok. Qed.

(** 10.0.0.1 is claimed. *)
Lemma acd_claims_address_witness :
  exists st0, acd_start (fun s => (s, s + 7)) 0x300 0x400 0x0100000a example_acd_net = Ok (ERR_OK, st0) /\
  exists k st1 st2 x2 rest, 60 <= Z.of_nat k <= 86 /\
    ticks no_custom zeros (fun n => n =? 0x300) example_malloc_finds (fun _ _ _ => mret tt) (fun s => (s, s + 7)) k st0 = Ok (tt, st1) /\
    acd_tmr (Link := example_driver) no_custom zeros (fun _ _ _ => mret tt) (fun s => (s, s + 7)) st1
      = ((mret tt : ST (@net (memp_state * Z)) unit) ≫= fun _ => rest) st2 /\
    acds st2 !! 0x400 = Some x2 /\ acd_ipaddr x2 = 0x0100000a /\ acd_state x2 = ACD_STATE_ONGOING /\
    frames st2 = map (pair 0x300)
      [probe_frame example_nif 0x0100000a; probe_frame example_nif 0x0100000a; probe_frame example_nif 0x0100000a;
       announce_frame example_nif 0x0100000a; announce_frame example_nif 0x0100000a].
Proof.
  exact (acd_claims_address no_custom zeros (fun n => n =? 0x300) example_malloc_finds (fun _ _ _ => mret tt)
    (fun s => (s, s + 7)) example_callbacks ∅ 0x300 (with_nif_acd_list example_nif 0x400) 0x400 example_acd_net example_acd
    0x0100000a example_solo).
Defined.

(** The first tick after the start sends a probe. *)
Definition example_probing : acd := with_acd_state (with_acd_ipaddr example_acd 0x0100000a) ACD_STATE_PROBE_WAIT.
Lemma acd_tmr_refines_tick_witness :
  let st := with_acds example_acd_net {[0x400 := example_probing]} in
  exists w st1, 0 <= w < 10 /\
    ticked (Link := example_driver) no_custom zeros ∅ 0x300 0x400 example_probing
      (with_acd_ttw (with_acd_sent_num (with_acd_state example_probing ACD_STATE_PROBING) 1) (10 + w)) [EvProbe] st st1 /\
    acd_tmr_one (Link := example_driver) no_custom zeros (fun _ _ _ => mret tt) (fun s => (s, s + 7)) 0x300 0x400 st = Ok (tt, st1).
Proof.
  exact (acd_tmr_refines_tick (Link := example_driver) no_custom zeros (fun _ _ _ => mret tt) (fun s => (s, s + 7))
    ∅ 0x300 (with_nif_acd_list example_nif 0x400) 0x400 example_probing
    (with_acds example_acd_net {[0x400 := example_probing]})
    ltac:(done) example_refs example_acd_ethernet eq_refl eq_refl ltac:(done) ltac:(done)).
Defined.
End example.
