(* ===== verification/Etharp.v ===== *)
(** * The ARP cache (core/ipv4/etharp.c) and Ethernet input (netif/ethernet.c)

    The table of address pairs, with at most one packet queued on an unresolved
    entry ([ARP_QUEUEING] is off), its timer, the processing of ARP messages, and
    the sending of IP packets over Ethernet. *)

From stdpp Require Import gmultiset.
From S2P Require Import Prelude Def Ip4Addr Memp Mem Pbuf PbufData PbufHeap Ethernet Link Acd.

Set Default Proof Using "Type".

Definition ARP_AGE_REREQUEST_USED_UNICAST : Z := ARP_MAXAGE - 30.
Definition ARP_AGE_REREQUEST_USED_BROADCAST : Z := ARP_MAXAGE - 15.
Definition ETHARP_FLAG_TRY_HARD : Z := 1.
Definition ETHARP_FLAG_FIND_ONLY : Z := 2.
Definition NETIF_ADDR_IDX_MAX : Z := 0x7F.
Definition NETIF_FLAG_ETHARP : Z := 0x08.
Definition PBUF_FLAG_LLBCAST : Z := 0x08.
Definition PBUF_FLAG_LLMCAST : Z := 0x10.
Definition LL_IP4_MULTICAST_ADDR_0 : Z := 0x01.
Definition LL_IP4_MULTICAST_ADDR_1 : Z := 0x00.
Definition LL_IP4_MULTICAST_ADDR_2 : Z := 0x5e.

(** ** The fields of an entry *)

Definition with_q (e : etharp_entry) (x : Z) : etharp_entry :=
  {| ent_q := x; ent_ipaddr := ent_ipaddr e; ent_netif := ent_netif e; ent_ethaddr := ent_ethaddr e;
     ent_ctime := ent_ctime e; ent_state := ent_state e |}.
Definition with_ipaddr (e : etharp_entry) (x : Z) : etharp_entry :=
  {| ent_q := ent_q e; ent_ipaddr := x; ent_netif := ent_netif e; ent_ethaddr := ent_ethaddr e;
     ent_ctime := ent_ctime e; ent_state := ent_state e |}.
Definition with_netif (e : etharp_entry) (x : Z) : etharp_entry :=
  {| ent_q := ent_q e; ent_ipaddr := ent_ipaddr e; ent_netif := x; ent_ethaddr := ent_ethaddr e;
     ent_ctime := ent_ctime e; ent_state := ent_state e |}.
Definition with_ethaddr (e : etharp_entry) (x : list Z) : etharp_entry :=
  {| ent_q := ent_q e; ent_ipaddr := ent_ipaddr e; ent_netif := ent_netif e; ent_ethaddr := x;
     ent_ctime := ent_ctime e; ent_state := ent_state e |}.
Definition with_ctime (e : etharp_entry) (x : Z) : etharp_entry :=
  {| ent_q := ent_q e; ent_ipaddr := ent_ipaddr e; ent_netif := ent_netif e; ent_ethaddr := ent_ethaddr e;
     ent_ctime := x; ent_state := ent_state e |}.
Definition with_state (e : etharp_entry) (x : Z) : etharp_entry :=
  {| ent_q := ent_q e; ent_ipaddr := ent_ipaddr e; ent_netif := ent_netif e; ent_ethaddr := ent_ethaddr e;
     ent_ctime := ent_ctime e; ent_state := x |}.

(** The local variables of [etharp_find_entry]. *)
Record candidates := {
  old_pending : Z; old_stable : Z; empty : Z; old_queue : Z; age_queue : Z; age_pending : Z; age_stable : Z
}.

Definition no_candidates : candidates :=
  {| old_pending := ARP_TABLE_SIZE; old_stable := ARP_TABLE_SIZE; empty := ARP_TABLE_SIZE;
     old_queue := ARP_TABLE_SIZE; age_queue := 0; age_pending := 0; age_stable := 0 |}.

(** What the sweep remembers of an entry that is in use and does not match. *)
Definition consider (i : Z) (e : etharp_entry) (c : candidates) : candidates :=
  if ent_state e =? ETHARP_STATE_PENDING then
    if negb (ent_q e =? 0) then
      if age_queue c <=? ent_ctime e then
        {| old_pending := old_pending c; old_stable := old_stable c; empty := empty c; old_queue := i;
           age_queue := ent_ctime e; age_pending := age_pending c; age_stable := age_stable c |}
      else c
    else
      if age_pending c <=? ent_ctime e then
        {| old_pending := i; old_stable := old_stable c; empty := empty c; old_queue := old_queue c;
           age_queue := age_queue c; age_pending := ent_ctime e; age_stable := age_stable c |}
      else c
  else if ETHARP_STATE_STABLE <=? ent_state e then
    if age_stable c <=? ent_ctime e then
      {| old_pending := old_pending c; old_stable := i; empty := empty c; old_queue := old_queue c;
         age_queue := age_queue c; age_pending := age_pending c; age_stable := ent_ctime e |}
    else c
  else c.

Definition entry_matches (ipaddr : option Z) (n : Z) (e : etharp_entry) : bool :=
  match ipaddr with
  | Some ip => ip4_addr_eq ip (ent_ipaddr e) && ((n =? 0) || (n =? ent_netif e))
  | None => false
  end.

(** ** The sweep of [etharp_find_entry]

    What the loop has found among the first [k] entries of the table [t]. *)

Definition is_stable (e : etharp_entry) : bool := ETHARP_STATE_STABLE <=? ent_state e.
Definition is_pending (e : etharp_entry) : bool := (ent_state e =? ETHARP_STATE_PENDING) && (ent_q e =? 0).
Definition is_queue (e : etharp_entry) : bool := (ent_state e =? ETHARP_STATE_PENDING) && negb (ent_q e =? 0).

(** The oldest entry that satisfies [P], the last one if several are. *)
Definition oldest (P : etharp_entry -> bool) (t : list etharp_entry) (k : nat) (i age : Z) : Prop :=
  (i = ARP_TABLE_SIZE /\ age = 0 /\ forall j e, (j < k)%nat -> t !! j = Some e -> P e = false) \/
  (exists e, 0 <= i < Z.of_nat k /\ t !! Z.to_nat i = Some e /\ P e = true /\ ent_ctime e = age /\
     forall j e', (j < k)%nat -> t !! j = Some e' -> P e' = true ->
       ent_ctime e' < age \/ (ent_ctime e' = age /\ Z.of_nat j <= i)).

Definition first_empty (t : list etharp_entry) (k : nat) (i : Z) : Prop :=
  (i = ARP_TABLE_SIZE /\ forall j e, (j < k)%nat -> t !! j = Some e -> ent_state e <> ETHARP_STATE_EMPTY) \/
  (exists e, 0 <= i < Z.of_nat k /\ t !! Z.to_nat i = Some e /\ ent_state e = ETHARP_STATE_EMPTY /\
     forall j e', Z.of_nat j < i -> t !! j = Some e' -> ent_state e' <> ETHARP_STATE_EMPTY).

Lemma not_occupied e : ~ occupied e -> ent_state e = ETHARP_STATE_EMPTY.
Proof. unfold occupied. destruct (Z.eq_dec (ent_state e) ETHARP_STATE_EMPTY); tauto. Qed.

Definition all_empty (t : list etharp_entry) : Prop := Forall (fun e => ~ occupied e) t.
Lemma queued_none t : Forall (fun e => ent_q e = 0) t -> queued t = ∅.
Proof. induction 1 as [|e t He _ IH]; [done|]. rewrite queued_cons, He, IH. multiset_solver. Qed.

Section sweep.
Context (t : list etharp_entry).

Lemma oldest_take P k i age e : oldest P t k i age -> t !! k = Some e -> P e = true -> 0 <= ent_ctime e ->
  age <= ent_ctime e -> oldest P t (Datatypes.S k) (Z.of_nat k) (ent_ctime e).
Proof.
  intros H He HP H0 Hage. right. exists e. rewrite Nat2Z.id. split; [lia|]. repeat (split; [done|]).
  intros j e' Hj Hj' HP'. destruct (decide (j = k)) as [->|Hne]; [simplify_eq; right; lia|].
  destruct H as [(_ & _ & Hno)|(x & Hi & _ & _ & _ & Hall)].
  - by rewrite (Hno j e') in HP' by (done || lia).
  - destruct (Hall j e') as [?|[? ?]]; [lia|done|done|left; lia|].
    destruct (decide (ent_ctime e' = ent_ctime e)); [right|left]; lia.
Qed.
Lemma oldest_keep P k i age e : oldest P t k i age -> t !! k = Some e -> (P e = true -> ent_ctime e < age) ->
  0 <= ent_ctime e -> oldest P t (Datatypes.S k) i age.
Proof.
  intros H He HP H0. destruct H as [(-> & -> & Hno)|(x & Hi & Hx & HPx & Hag & Hall)].
  - left. repeat (split; [done|]). intros j e' Hj Hj'. destruct (decide (j = k)) as [->|Hne]; [|apply (Hno j e'); done || lia].
    assert (e' = e) as -> by congruence. destruct (P e) eqn:Ep; [specialize (HP eq_refl); lia|done].
  - right. exists x. split; [lia|]. repeat (split; [done|]). intros j e' Hj Hj' HP'.
    destruct (decide (j = k)) as [->|Hne]; [|apply Hall; done || lia].
    assert (e' = e) as -> by congruence. left. auto.
Qed.

Definition swept (k : nat) (c : candidates) : Prop :=
  oldest is_stable t k (old_stable c) (age_stable c) /\ oldest is_pending t k (old_pending c) (age_pending c) /\
  oldest is_queue t k (old_queue c) (age_queue c) /\ first_empty t k (empty c).

Lemma swept_0 : swept 0 no_candidates.
Proof. by repeat split; left; repeat split; intros ? ? ?; lia. Qed.

Lemma first_empty_keep k i e : first_empty t k i -> t !! k = Some e ->
  (ent_state e = ETHARP_STATE_EMPTY -> i <> ARP_TABLE_SIZE) -> first_empty t (Datatypes.S k) i.
Proof.
  intros [[-> Hno]|(x & Hi & Hx & Hs & Hall)] He Hne.
  - left. split; [done|]. intros j e' Hj Hj'. destruct (decide (j = k)) as [->|]; [|apply (Hno j); done || lia].
    simplify_eq. intros Hz. by apply Hne.
  - right. exists x. split; [lia|done].
Qed.
Lemma first_empty_take k e : first_empty t k ARP_TABLE_SIZE -> (k < Z.to_nat ARP_TABLE_SIZE)%nat -> t !! k = Some e ->
  ent_state e = ETHARP_STATE_EMPTY -> first_empty t (Datatypes.S k) (Z.of_nat k).
Proof.
  intros [[_ Hno]|(x & Hi & _)] Hk He Hs; [|lia]. right. exists e. rewrite Nat2Z.id. split; [lia|].
  repeat (split; [done|]). intros j e' Hj Hj'. apply (Hno j); done || lia.
Qed.

Lemma swept_consider k c e : swept k c -> t !! k = Some e -> 1 <= ent_state e -> 0 <= ent_ctime e ->
  swept (Datatypes.S k) (consider (Z.of_nat k) e c).
Proof.
  intros (Hs & Hp & Hq & Hf) He Hst H0.
  assert (Hf' : first_empty t (Datatypes.S k) (empty c)).
  { eapply first_empty_keep; [done|done|]. unfold ETHARP_STATE_EMPTY. lia. }
  assert (Hks : forall P i age, oldest P t k i age -> P e = false -> oldest P t (Datatypes.S k) i age).
  { intros P i age Ho HP. eapply oldest_keep; [done|done| |done]. by rewrite HP. }
  unfold consider. destruct (Z.eqb_spec (ent_state e) ETHARP_STATE_PENDING) as [E1|E1].
  - assert (Es : is_stable e = false) by (unfold is_stable; rewrite E1; done).
    destruct (Z.eqb_spec (ent_q e) 0) as [Eq|Eq]; cbn [negb].
    + assert (Ep : is_pending e = true) by (unfold is_pending; rewrite E1, Eq; done).
      assert (Eu : is_queue e = false) by (unfold is_queue; rewrite E1, Eq; done).
      destruct (Z.leb_spec (age_pending c) (ent_ctime e)).
      * repeat split; simpl; eauto using oldest_take.
      * repeat split; simpl; eauto. eapply oldest_keep; eauto.
    + assert (Ep : is_pending e = false) by (unfold is_pending; rewrite E1; simpl; lia).
      assert (Eu : is_queue e = true) by (unfold is_queue; rewrite E1; simpl; lia).
      destruct (Z.leb_spec (age_queue c) (ent_ctime e)).
      * repeat split; simpl; eauto using oldest_take.
      * repeat split; simpl; eauto. eapply oldest_keep; eauto.
  - assert (Es : is_stable e = true) by (unfold is_stable, ETHARP_STATE_STABLE, ETHARP_STATE_PENDING in *; lia).
    assert (Ep : is_pending e = false) by (unfold is_pending; lia).
    assert (Eu : is_queue e = false) by (unfold is_queue; lia).
    unfold is_stable in Es. rewrite Es. fold (is_stable e) in Es.
    destruct (Z.leb_spec (age_stable c) (ent_ctime e)).
    + repeat split; simpl; eauto using oldest_take.
    + repeat split; simpl; eauto. eapply oldest_keep; eauto.
Qed.

End sweep.

Section etharp.
Context {S : Type} `{!PbufAlloc S}.
Abbreviation state := (@net S).
Abbreviation M := (ST state).
Context (call_custom_free : Z -> Z -> ST (@pstate S) unit) (garbage : Z -> Z).
Context {Link : LinkDriver}.
Context (conflict_callback : Z -> Z -> acd_callback_enum_t -> M unit).

Definition ent_get (i : Z) : M etharp_entry := fun st =>
  if i <? 0 then Fault
  else match arp_table st !! Z.to_nat i with Some e => Ok (e, st) | None => Fault end.
Definition ent_upd (i : Z) (f : etharp_entry -> etharp_entry) : M unit := fun st =>
  if i <? 0 then Fault
  else match arp_table st !! Z.to_nat i with
       | Some e => Ok (tt, with_arp_table st (<[Z.to_nat i := f e]> (arp_table st)))
       | None => Fault
       end.
Definition ETHARP_SET_ADDRHINT (addrhint : Z) : M unit := fun st => Ok (tt, with_cached_entry st (u8 addrhint)).

(** [for (i = 0; i < ARP_TABLE_SIZE; ++i)]. *)
Fixpoint for_entries (l : list Z) (body : Z -> M unit) : M unit :=
  match l with
  | [] => mret tt
  | i :: l' => _ ← body i; for_entries l' body
  end.
Definition indices : list Z := seqZ 0 ARP_TABLE_SIZE.

(** ** Entries *)

Definition etharp_free_entry (i : Z) : M unit :=
  e ← ent_get i;
  _ ← (if negb (ent_q e =? 0) then
         _ ← on_pm (pbuf_free call_custom_free (ent_q e));
         ent_upd i (fun e => with_q e 0)
       else mret tt);
  _ ← ent_upd i (fun e => with_state e ETHARP_STATE_EMPTY);
  _ ← ent_upd i (fun e => with_ctime e 0);
  _ ← ent_upd i (fun e => with_netif e 0);
  _ ← ent_upd i (fun e => with_ipaddr e 0);
  ent_upd i (fun e => with_ethaddr e ethzero).

Definition etharp_tmr_one (i : Z) : M unit :=
  e ← ent_get i;
  if negb (ent_state e =? ETHARP_STATE_EMPTY) then
    _ ← ent_upd i (fun e => with_ctime e (u16 (ent_ctime e + 1)));
    e ← ent_get i;
    if (ARP_MAXAGE <=? ent_ctime e) ||
       ((ent_state e =? ETHARP_STATE_PENDING) && (ARP_MAXPENDING <=? ent_ctime e))
    then etharp_free_entry i
    else if ent_state e =? ETHARP_STATE_STABLE_REREQUESTING_1 then
      ent_upd i (fun e => with_state e ETHARP_STATE_STABLE_REREQUESTING_2)
    else if ent_state e =? ETHARP_STATE_STABLE_REREQUESTING_2 then
      ent_upd i (fun e => with_state e ETHARP_STATE_STABLE)
    else if ent_state e =? ETHARP_STATE_PENDING then
      _ ← etharp_request call_custom_free garbage (ent_netif e) (ent_ipaddr e); mret tt
    else mret tt
  else mret tt.
Definition etharp_tmr : M unit := for_entries indices etharp_tmr_one.

(** The first loop of [etharp_find_entry]: the entry that matches, or the
    candidates after the sweep. *)
Fixpoint find_loop (l : list Z) (ipaddr : option Z) (n : Z) (c : candidates) : M (Z + candidates) :=
  match l with
  | [] => mret (inr c)
  | i :: l' =>
      e ← ent_get i;
      if (empty c =? ARP_TABLE_SIZE) && (ent_state e =? ETHARP_STATE_EMPTY) then
        find_loop l' ipaddr n
          {| old_pending := old_pending c; old_stable := old_stable c; empty := i; old_queue := old_queue c;
             age_queue := age_queue c; age_pending := age_pending c; age_stable := age_stable c |}
      else if negb (ent_state e =? ETHARP_STATE_EMPTY) then
        _ ← sassert ((ent_state e =? ETHARP_STATE_PENDING) || (ETHARP_STATE_STABLE <=? ent_state e));
        if entry_matches ipaddr n e then mret (inl i)
        else find_loop l' ipaddr n (consider i e c)
      else find_loop l' ipaddr n c
  end.

(** Step b): the entry to recycle; [None] stands for [return (s16_t)ERR_MEM]. *)
Definition recycle (c : candidates) : M (option Z) :=
  if old_stable c <? ARP_TABLE_SIZE then
    e ← ent_get (old_stable c);
    _ ← sassert (ent_q e =? 0);
    mret (Some (old_stable c))
  else if old_pending c <? ARP_TABLE_SIZE then mret (Some (old_pending c))
  else if old_queue c <? ARP_TABLE_SIZE then mret (Some (old_queue c))
  else mret None.

Definition find_init (i : Z) (ipaddr : option Z) (n : Z) : M Z :=
  _ ← sassert (i <? ARP_TABLE_SIZE);
  e ← ent_get i;
  _ ← sassert (ent_state e =? ETHARP_STATE_EMPTY);
  _ ← (match ipaddr with Some ip => ent_upd i (fun e => with_ipaddr e ip) | None => mret tt end);
  _ ← ent_upd i (fun e => with_ctime e 0);
  _ ← ent_upd i (fun e => with_netif e n);
  mret i.

Definition etharp_find_entry (ipaddr : option Z) (flags n : Z) : M Z :=
  found ← find_loop indices ipaddr n no_candidates;
  match found with
  | inl i => mret i
  | inr c =>
      if negb (Z.land flags ETHARP_FLAG_FIND_ONLY =? 0) ||
         ((empty c =? ARP_TABLE_SIZE) && (Z.land flags ETHARP_FLAG_TRY_HARD =? 0))
      then mret ERR_MEM
      else if empty c <? ARP_TABLE_SIZE then find_init (empty c) ipaddr n
      else
        r ← recycle c;
        match r with
        | None => mret ERR_MEM
        | Some i =>
            _ ← sassert (i <? ARP_TABLE_SIZE);
            _ ← etharp_free_entry i;
            find_init i ipaddr n
        end
  end.

(** ** Updates and queries of the cache *)

Definition ip4_addr_isbroadcast (ip : Z) (nif : netif) : bool := ip4_addr_isbroadcast_u32 ip (nif_addrs nif).

Definition etharp_update_arp_entry (n ipaddr : Z) (ethaddr : list Z) (flags : Z) : M Z :=
  nif ← netif_get n;
  _ ← sassert (nif_hwaddr_len nif =? ETH_HWADDR_LEN);
  if ip4_addr_isany_val ipaddr || ip4_addr_isbroadcast ipaddr nif || ip4_addr_ismulticast ipaddr
  then mret ERR_ARG
  else
    i ← etharp_find_entry (Some ipaddr) flags n;
    if i <? 0 then mret i
    else
      _ ← ent_upd i (fun e => with_state e ETHARP_STATE_STABLE);
      _ ← ent_upd i (fun e => with_netif e n);
      _ ← ent_upd i (fun e => with_ethaddr e ethaddr);
      _ ← ent_upd i (fun e => with_ctime e 0);
      e ← ent_get i;
      _ ← (if negb (ent_q e =? 0) then
             let p := ent_q e in
             _ ← ent_upd i (fun e => with_q e 0);
             _ ← ethernet_output n p (nif_hwaddr nif) ethaddr ETHTYPE_IP;
             _ ← on_pm (pbuf_free call_custom_free p);
             mret tt
           else mret tt);
      mret ERR_OK.

Definition etharp_cleanup_netif (n : Z) : M unit :=
  for_entries indices (fun i =>
    e ← ent_get i;
    if negb (ent_state e =? ETHARP_STATE_EMPTY) && (ent_netif e =? n) then etharp_free_entry i else mret tt).

(** The index and the two addresses, or -1. *)
Definition etharp_find_addr (n ipaddr : Z) : M (Z * option (list Z * Z)) :=
  i ← etharp_find_entry (Some ipaddr) ETHARP_FLAG_FIND_ONLY n;
  if 0 <=? i then
    e ← ent_get i;
    if ETHARP_STATE_STABLE <=? ent_state e then mret (i, Some (ent_ethaddr e, ent_ipaddr e)) else mret (-1, None)
  else mret (-1, None).

Definition etharp_get_entry (i : Z) : M (option (Z * Z * list Z)) :=
  if i <? ARP_TABLE_SIZE then
    e ← ent_get i;
    if ETHARP_STATE_STABLE <=? ent_state e then mret (Some (ent_ipaddr e, ent_netif e, ent_ethaddr e)) else mret None
  else mret None.

(** ** Input *)

Definition read16 (x : ptr) (o : Z) : M Z := bs ← on_pm (read_mem (ptr_add x o) 2); mret (le_val bs).
Definition read8 (x : ptr) (o : Z) : M Z := bs ← on_pm (read_mem (ptr_add x o) 1); mret (le_val bs).

(** The condition under which a message is dropped, read in the order of the code. *)
Definition arp_wrong (hdr : ptr) : M bool :=
  hwtype ← read16 hdr 0;
  if negb (hwtype =? PP_HTONS LWIP_IANA_HWTYPE_ETHERNET) then mret true
  else
    hwlen ← read8 hdr 4;
    if negb (hwlen =? ETH_HWADDR_LEN) then mret true
    else
      protolen ← read8 hdr 5;
      if negb (protolen =? 4) then mret true
      else
        proto ← read16 hdr 2;
        mret (negb (proto =? PP_HTONS ETHTYPE_IP)).

(** The addresses of a message, as [acd_arp_reply] reads them. *)
Definition read_addresses (hdr : ptr) : M arp_hdr :=
  shw ← on_pm (read_mem (ptr_add hdr 8) 6);
  sip ← on_pm (read_mem (ptr_add hdr 14) 4);
  dip ← on_pm (read_mem (ptr_add hdr 24) 4);
  mret {| hdr_shwaddr := shw; hdr_sipaddr := le_val sip; hdr_dipaddr := le_val dip |}.

Definition etharp_input (p n : Z) : M unit :=
  if n =? 0 then mret tt
  else
    b ← on_pm (pb_get p);
    let hdr := payload b in
    wrong ← arp_wrong hdr;
    if (wrong : bool) then
      _ ← STATS_INC etharp_proterr;
      _ ← STATS_INC etharp_drop;
      _ ← on_pm (pbuf_free call_custom_free p);
      mret tt
    else
      _ ← STATS_INC etharp_recv;
      h ← read_addresses hdr;
      _ ← acd_arp_reply call_custom_free garbage conflict_callback n h;
      h ← read_addresses hdr;
      nif ← netif_get n;
      let my_ip := nif_ip (nif_addrs nif) in
      let for_us := negb (ip4_addr_isany_val my_ip) && ip4_addr_eq (hdr_dipaddr h) my_ip in
      let from_us := negb (ip4_addr_isany_val my_ip) && ip4_addr_eq (hdr_sipaddr h) my_ip in
      _ ← etharp_update_arp_entry n (hdr_sipaddr h) (hdr_shwaddr h)
            (if for_us then ETHARP_FLAG_TRY_HARD else ETHARP_FLAG_FIND_ONLY);
      opcode ← read16 hdr 6;
      _ ← (if opcode =? PP_HTONS ARP_REQUEST then
             if for_us && negb from_us then
               h' ← read_addresses hdr;
               nif ← netif_get n;
               _ ← etharp_raw call_custom_free garbage n (nif_hwaddr nif) (hdr_shwaddr h') (nif_hwaddr nif)
                     (nif_ip (nif_addrs nif)) (hdr_shwaddr h') (hdr_sipaddr h) ARP_REPLY;
               mret tt
             else mret tt
           else if opcode =? PP_HTONS ARP_REPLY then mret tt
           else STATS_INC etharp_err);
      _ ← on_pm (pbuf_free call_custom_free p);
      mret tt.

(** ** Output *)

Definition etharp_output_to_arp_index (n q arp_idx : Z) : M Z :=
  e ← ent_get arp_idx;
  _ ← sassert (ETHARP_STATE_STABLE <=? ent_state e);
  _ ← (if ent_state e =? ETHARP_STATE_STABLE then
         if ARP_AGE_REREQUEST_USED_BROADCAST <=? ent_ctime e then
           err ← etharp_request call_custom_free garbage n (ent_ipaddr e);
           if err =? ERR_OK then ent_upd arp_idx (fun e => with_state e ETHARP_STATE_STABLE_REREQUESTING_1)
           else mret tt
         else if ARP_AGE_REREQUEST_USED_UNICAST <=? ent_ctime e then
           err ← etharp_request_dst call_custom_free garbage n (ent_ipaddr e) (ent_ethaddr e);
           if err =? ERR_OK then ent_upd arp_idx (fun e => with_state e ETHARP_STATE_STABLE_REREQUESTING_1)
           else mret tt
         else mret tt
       else mret tt);
  nif ← netif_get n;
  e ← ent_get arp_idx;
  ethernet_output n q (nif_hwaddr nif) (ent_ethaddr e) ETHTYPE_IP.

(** [PBUF_NEEDS_COPY(p)] for some pbuf of the chain. *)
Definition PBUF_NEEDS_COPY (b : pbuf) : bool :=
  negb (Z.land (type_internal b) PBUF_TYPE_FLAG_DATA_VOLATILE =? 0).
Fixpoint copy_needed_loop (fuel : nat) (p : Z) : M bool :=
  match fuel with
  | O => fun _ => Diverge
  | Datatypes.S fuel' =>
      if p =? 0 then mret false
      else
        b ← on_pm (pb_get p);
        _ ← sassert (negb (len b =? tot_len b) || (next b =? 0));
        if PBUF_NEEDS_COPY b then mret true else copy_needed_loop fuel' (next b)
  end.

(** The packet [q] is queued on the pending entry [i]. *)
Definition query_queue (i q : Z) : M Z :=
  fuel ← on_pm chain_fuel;
  copy_needed ← copy_needed_loop fuel q;
  p ← (if (copy_needed : bool) then on_pm (pbuf_clone call_custom_free garbage PBUF_LINK PBUF_RAM q)
       else _ ← on_pm (pbuf_ref q); mret q);
  if negb (p =? 0) then
    e ← ent_get i;
    _ ← (if negb (ent_q e =? 0) then _ ← on_pm (pbuf_free call_custom_free (ent_q e)); mret tt else mret tt);
    _ ← ent_upd i (fun e => with_q e p);
    mret ERR_OK
  else _ ← STATS_INC etharp_memerr; mret ERR_MEM.

(** The request for a new entry, or for any entry without a packet. *)
Definition query_request (n ipaddr i : Z) (is_new_entry : bool) : M Z :=
  result ← etharp_request call_custom_free garbage n ipaddr;
  if negb (result =? ERR_OK) then mret result
  else
    e ← ent_get i;
    _ ← (if (ent_state e =? ETHARP_STATE_PENDING) && negb is_new_entry
         then ent_upd i (fun e => with_ctime e 0) else mret tt);
    mret result.

Definition etharp_query (n ipaddr q : Z) : M Z :=
  nif ← netif_get n;
  if ip4_addr_isbroadcast ipaddr nif || ip4_addr_ismulticast ipaddr || ip4_addr_isany_val ipaddr then mret ERR_ARG
  else
    i ← etharp_find_entry (Some ipaddr) ETHARP_FLAG_TRY_HARD n;
    if i <? 0 then
      _ ← (if negb (q =? 0) then STATS_INC etharp_memerr else mret tt);
      mret i
    else
      _ ← sassert (i <? NETIF_ADDR_IDX_MAX);
      e ← ent_get i;
      let is_new_entry := ent_state e =? ETHARP_STATE_EMPTY in
      _ ← (if is_new_entry then
             _ ← ent_upd i (fun e => with_state e ETHARP_STATE_PENDING);
             ent_upd i (fun e => with_netif e n)
           else mret tt);
      e ← ent_get i;
      _ ← sassert ((ent_state e =? ETHARP_STATE_PENDING) || (ETHARP_STATE_STABLE <=? ent_state e));
      result ← (if is_new_entry || (q =? 0) then query_request n ipaddr i is_new_entry else mret ERR_MEM);
      if q =? 0 then mret result
      else
        e ← ent_get i;
        if ETHARP_STATE_STABLE <=? ent_state e then
          _ ← ETHARP_SET_ADDRHINT i;
          e ← ent_get i;
          ethernet_output n q (nif_hwaddr nif) (ent_ethaddr e) ETHTYPE_IP
        else if ent_state e =? ETHARP_STATE_PENDING then query_queue i q
        else mret result.

(** The loop of [etharp_output] over the table: the first stable entry of the
    address, or [None]. *)
Fixpoint stable_loop (l : list Z) (n dst_addr : Z) : M (option Z) :=
  match l with
  | [] => mret None
  | i :: l' =>
      e ← ent_get i;
      if (ETHARP_STATE_STABLE <=? ent_state e) && (ent_netif e =? n) && ip4_addr_eq dst_addr (ent_ipaddr e)
      then mret (Some i) else stable_loop l' n dst_addr
  end.

(** The packet [q] to the host or gateway [dst_addr]. *)
Definition output_unicast (n q dst_addr : Z) : M Z :=
  cached ← (fun st => Ok (etharp_cached_entry st, st));
  e ← ent_get cached;
  if (ETHARP_STATE_STABLE <=? ent_state e) && (ent_netif e =? n) && ip4_addr_eq dst_addr (ent_ipaddr e) then
    _ ← STATS_INC etharp_cachehit;
    etharp_output_to_arp_index n q cached
  else
    found ← stable_loop indices n dst_addr;
    match found with
    | Some i => _ ← ETHARP_SET_ADDRHINT i; etharp_output_to_arp_index n q i
    | None => etharp_query n dst_addr q
    end.

Definition etharp_output (n q ipaddr : Z) : M Z :=
  _ ← sassert (negb (n =? 0));
  _ ← sassert (negb (q =? 0));
  nif ← netif_get n;
  if ip4_addr_isbroadcast ipaddr nif then ethernet_output n q (nif_hwaddr nif) ethbroadcast ETHTYPE_IP
  else if ip4_addr_ismulticast ipaddr then
    let bs := le_bytes 4 ipaddr in
    let mcastaddr := [LL_IP4_MULTICAST_ADDR_0; LL_IP4_MULTICAST_ADDR_1; LL_IP4_MULTICAST_ADDR_2;
                      Z.land (nth 1 bs 0) 0x7f; nth 2 bs 0; nth 3 bs 0] in
    ethernet_output n q (nif_hwaddr nif) mcastaddr ETHTYPE_IP
  else if negb (ip4_addr_net_eq ipaddr (nif_ip (nif_addrs nif)) (nif_netmask (nif_addrs nif))) &&
          negb (ip4_addr_islinklocal ipaddr) then
    if negb (ip4_addr_isany_val (nif_gw nif)) then output_unicast n q (nif_gw nif) else mret ERR_RTE
  else output_unicast n q ipaddr.

(** ** [ethernet_input] *)

Definition with_flags (b : pbuf) (x : Z) : pbuf :=
  {| next := next b; payload := payload b; tot_len := tot_len b; len := len b;
     type_internal := type_internal b; flags := x; ref := ref b; if_idx := if_idx b |}.
Definition with_if_idx (b : pbuf) (x : Z) : pbuf :=
  {| next := next b; payload := payload b; tot_len := tot_len b; len := len b;
     type_internal := type_internal b; flags := flags b; ref := ref b; if_idx := x |}.
Definition pb_upd (p : Z) (f : pbuf -> pbuf) : M unit := b ← on_pm (pb_get p); on_pm (pb_set p (f b)).

(** The IPv4 layer above. *)
Context (ip4_input : Z -> Z -> M unit).

Definition ethernet_input (p n : Z) : M Z :=
  let free_and_return := _ ← on_pm (pbuf_free call_custom_free p); mret ERR_OK in
  b ← on_pm (pb_get p);
  if len b <=? SIZEOF_ETH_HDR then
    _ ← STATS_INC etharp_proterr;
    _ ← STATS_INC etharp_drop;
    free_and_return
  else
    let ethhdr := payload b in
    type ← read16 ethhdr 12;
    nif ← netif_get n;
    _ ← (if if_idx b =? NETIF_NO_INDEX then pb_upd p (fun b => with_if_idx b (u8 (nif_num nif + 1))) else mret tt);
    dest ← on_pm (read_mem ethhdr 6);
    _ ← (if negb (Z.land (nth 0 dest 0) 1 =? 0) then
           if nth 0 dest 0 =? LL_IP4_MULTICAST_ADDR_0 then
             if (nth 1 dest 0 =? LL_IP4_MULTICAST_ADDR_1) && (nth 2 dest 0 =? LL_IP4_MULTICAST_ADDR_2)
             then pb_upd p (fun b => with_flags b (Z.lor (flags b) PBUF_FLAG_LLMCAST)) else mret tt
           else if eth_addr_eq dest ethbroadcast
             then pb_upd p (fun b => with_flags b (Z.lor (flags b) PBUF_FLAG_LLBCAST)) else mret tt
         else mret tt);
    if type =? PP_HTONS ETHTYPE_IP then
      if Z.land (nif_flags (nif_addrs nif)) NETIF_FLAG_ETHARP =? 0 then free_and_return
      else
        failed ← on_pm (pbuf_remove_header p SIZEOF_ETH_HDR);
        if (failed : bool) then free_and_return else _ ← ip4_input p n; mret ERR_OK
    else if type =? PP_HTONS ETHTYPE_ARP then
      if Z.land (nif_flags (nif_addrs nif)) NETIF_FLAG_ETHARP =? 0 then free_and_return
      else
        failed ← on_pm (pbuf_remove_header p SIZEOF_ETH_HDR);
        if (failed : bool) then
          _ ← STATS_INC etharp_lenerr;
          _ ← STATS_INC etharp_drop;
          free_and_return
        else _ ← etharp_input p n; mret ERR_OK
    else
      _ ← STATS_INC etharp_proterr;
      _ ← STATS_INC etharp_drop;
      free_and_return.

(** ** Running the operations *)

(** The state with the entry [i] replaced. *)
Definition set_ent (st : state) (i : Z) (e : etharp_entry) : state :=
  with_arp_table st (<[Z.to_nat i := e]> (arp_table st)).
Definition ent_at (st : state) (i : Z) (e : etharp_entry) : Prop :=
  0 <= i /\ arp_table st !! Z.to_nat i = Some e.

Lemma ent_get_bind {B} i e (f : etharp_entry -> M B) st : ent_at st i e -> (ent_get i ≫= f) st = f e st.
Proof. intros [Hi He]. unfold mbind, st_bind, ent_get. replace (i <? 0) with false by lia. by rewrite He. Qed.
Lemma ent_upd_ok i e f st : ent_at st i e -> ent_upd i f st = Ok (tt, set_ent st i (f e)).
Proof. intros [Hi He]. unfold ent_upd. replace (i <? 0) with false by lia. by rewrite He. Qed.
Lemma set_ent_at st i e x : ent_at st i x -> ent_at (set_ent st i e) i e.
Proof. intros [Hi He]. split; [done|]. apply list_lookup_insert_eq. by eapply lookup_lt_Some. Qed.
Lemma set_ent_set st i e x : set_ent (set_ent st i x) i e = set_ent st i e.
Proof. unfold set_ent, with_arp_table. simpl. by rewrite list_insert_insert_eq. Qed.
Lemma set_ent_id st i e : ent_at st i e -> set_ent st i e = st.
Proof. intros [_ He]. unfold set_ent. rewrite list_insert_id by done. by destruct st. Qed.

(** Runs the reads and writes of the entry [i], which [He] finds, at the head of
    an operation. *)
Ltac run_entry He :=
  let i := match type of He with ent_at _ ?i _ => i end in
  repeat first
    [ rewrite (ent_get_bind i _ _ _ He)
    | rewrite (ent_get_bind i _ _ _ (set_ent_at _ i _ _ He))
    | rewrite (st_bind_ok _ _ _ _ _ (ent_upd_ok i _ _ _ He))
    | rewrite (st_bind_ok _ _ _ _ _ (ent_upd_ok i _ _ _ (set_ent_at _ i _ _ He))), set_ent_set
    | rewrite (ent_upd_ok i _ _ _ He)
    | rewrite (ent_upd_ok i _ _ _ (set_ent_at _ i _ _ He)), set_ent_set ]; cbv beta.

(** An entry that was freed. *)
Lemma hold_0 q : q <> 0 -> hold q = {[+ q +]}.
Proof. intros Hq. unfold hold. by replace (q =? 0) with false by lia. Qed.

(** The other fields do not matter. *)
Lemma etharp_free_aged_spec E i e e1 st : link_ok E st -> ent_at st i e -> ent_q e1 = ent_q e ->
  exists s', etharp_free_entry i (set_ent st i e1) = Ok (tt, set_ent (with_pm st s') i empty_entry) /\
    follows E st (set_ent (with_pm st s') i empty_entry).
Proof.
  intros H He Hq1. assert (He1 : ent_at (set_ent st i e1) i e1) by (by apply (set_ent_at _ _ _ e)).
  unfold etharp_free_entry. run_entry He1. rewrite Hq1.
  assert (Hu : unique (<[Z.to_nat i := empty_entry]> (arp_table st))).
  { eapply unique_insert; [apply H|apply He|]. intros Ho. by destruct Ho. }
  assert (Hent : forall s', entry_ok (with_pm st s') empty_entry) by (intros s'; by split).
  pose proof (queued_insert (arp_table st) (Z.to_nat i) e empty_entry (proj2 He)) as Hq.
  destruct (Z.eqb_spec (ent_q e) 0) as [E0|Hq0]; cbn [negb].
  - exists (pm st). split.
    { replace (with_pm st (pm st)) with st by (by destruct st). rewrite mret_bind. run_entry He1. rewrite set_ent_set.
      do 3 f_equal. unfold with_ethaddr, with_ipaddr, with_netif, with_ctime, with_state. simpl. by rewrite Hq1, E0. }
    apply (follows_entry E st (pm st) (Z.to_nat i) e); try done;
      [by apply He| |apply calm_refl|by intros ? ? ?%gmultiset_elem_of_empty].
    rewrite (queued_same _ _ e); [apply H|apply He|done].
  - change (hold (ent_q empty_entry)) with (∅ : gmultiset Z) in Hq.
    rewrite (hold_0 _ Hq0), (right_id_L ∅ (⊎)) in Hq.
    assert (Hr : refs_ok ({[+ ent_q e +]} ⊎ (E ⊎ queued (<[Z.to_nat i := empty_entry]> (arp_table st)))) (pm st)).
    { rewrite <-multiset_rot, Hq. apply H. }
    destruct (pbuf_free_heap call_custom_free _ _ _ Hr) as (k & s' & Ef & Hok & Hc).
    exists s'. unfold mbind at 1, st_bind at 1. rewrite (on_pm_bind _ _ (set_ent st i e1) _ _ Ef).
    assert (He' : ent_at (set_ent (with_pm st s') i e1) i e1) by (by apply (set_ent_at _ _ _ e)).
    change (with_pm (set_ent st i e1) s') with (set_ent (with_pm st s') i e1).
    rewrite (ent_upd_ok i _ _ _ He'). run_entry He'. rewrite set_ent_set. split; [done|].
    apply (follows_entry E st s' (Z.to_nat i) e); try done; [by apply He| |by intros ? ? ?%gmultiset_elem_of_empty].
    eapply calm_weaken; [exact Hc|]. intros q [? _]. by apply multiset_left.
Qed.
Lemma etharp_free_entry_spec E i e st : link_ok E st -> ent_at st i e ->
  exists s', etharp_free_entry i st = Ok (tt, set_ent (with_pm st s') i empty_entry) /\
    follows E st (set_ent (with_pm st s') i empty_entry).
Proof. intros H He. destruct (etharp_free_aged_spec E i e e st H He eq_refl) as (s' & Ef & Hf). rewrite (set_ent_id st i e He) in Ef. by exists s'. Qed.

(** ** [etharp_find_entry] *)

(** The first entry in use that matches is [i]. *)
Definition first_match (t : list etharp_entry) (ipaddr : option Z) (n : Z) (i : nat) : Prop :=
  (exists e, t !! i = Some e /\ occupied e /\ entry_matches ipaddr n e = true) /\
  forall j e, (j < i)%nat -> t !! j = Some e -> occupied e -> entry_matches ipaddr n e = false.
Definition no_match (t : list etharp_entry) (ipaddr : option Z) (n : Z) (k : nat) : Prop :=
  forall j e, (j < k)%nat -> t !! j = Some e -> occupied e -> entry_matches ipaddr n e = false.

Lemma no_match_S t ip n k e : no_match t ip n k -> t !! k = Some e ->
  (occupied e -> entry_matches ip n e = false) -> no_match t ip n (Datatypes.S k).
Proof.
  intros H He Hm j x Hj Hx. destruct (decide (j = k)) as [->|Hne]; [|apply (H j x); done || lia].
  by assert (x = e) as -> by congruence.
Qed.

Lemma find_loop_spec E ip n m k c st :
  link_ok E st -> (k + m = Z.to_nat ARP_TABLE_SIZE)%nat -> swept (arp_table st) k c -> no_match (arp_table st) ip n k ->
  (exists i, first_match (arp_table st) ip n i /\
     find_loop (seqZ (Z.of_nat k) (Z.of_nat m)) ip n c st = Ok (inl (Z.of_nat i), st)) \/
  (no_match (arp_table st) ip n (Z.to_nat ARP_TABLE_SIZE) /\
   exists c', swept (arp_table st) (Z.to_nat ARP_TABLE_SIZE) c' /\
     find_loop (seqZ (Z.of_nat k) (Z.of_nat m)) ip n c st = Ok (inr c', st)).
Proof.
  intros H. revert k c. induction m as [|m IH]; intros k c Hk Hsw Hno.
  { right. replace k with (Z.to_nat ARP_TABLE_SIZE) in * by lia. split; [done|]. by exists c. }
  rewrite seqZ_cons by lia. cbn [find_loop].
  destruct (lookup_lt_is_Some_2 (arp_table st) k) as [e He]; [rewrite (link_size _ _ H); lia|].
  assert (Hat : ent_at st (Z.of_nat k) e) by (split; [lia|by rewrite Nat2Z.id]).
  rewrite (ent_get_bind _ e) by done. replace (Z.succ (Z.of_nat k)) with (Z.of_nat (Datatypes.S k)) by lia.
  replace (Z.pred (Z.of_nat (Datatypes.S m))) with (Z.of_nat m) by lia.
  pose proof (link_entries _ _ H) as Hents. rewrite Forall_lookup in Hents. destruct (Hents k e He) as [Hst Hage _ _ _ _].
  unfold ETHARP_STATE_EMPTY. destruct (Z.eqb_spec (ent_state e) 0) as [E0|E0].
  - assert (Hno' : no_match (arp_table st) ip n (Datatypes.S k)).
    { eapply no_match_S; [done|done|]. intros Ho. by destruct Ho. }
    destruct Hsw as (Hs & Hp & Hq & Hf).
    assert (Hks : forall P i age, P e = false -> oldest P (arp_table st) k i age ->
      oldest P (arp_table st) (Datatypes.S k) i age).
    { intros P i age HP Ho. eapply oldest_keep; [done|done| |lia]. by rewrite HP. }
    assert (is_stable e = false /\ is_pending e = false /\ is_queue e = false) as (? & ? & ?).
    { unfold is_stable, is_pending, is_queue. by rewrite E0. }
    destruct (Z.eqb_spec (empty c) ARP_TABLE_SIZE) as [Ee|Ee]; cbn [andb negb].
    + apply IH; [lia| |done]. repeat split; simpl; eauto. rewrite Ee in Hf. eapply first_empty_take; eauto. lia.
    + apply IH; [lia| |done]. repeat split; simpl; eauto. eapply first_empty_keep; eauto.
  - rewrite andb_false_r. cbn [negb]. unfold ETHARP_STATE_STABLE_REREQUESTING_2 in Hst.
    rewrite sassert_bind by (unfold ETHARP_STATE_PENDING, ETHARP_STATE_STABLE; lia).
    destruct (entry_matches ip n e) eqn:Em.
    + left. exists k. split; [|done]. split; [by exists e|done].
    + apply IH; [lia| |by eapply no_match_S]. apply swept_consider; try done; lia.
Qed.

(** The order in which entries are recycled: stable ones, then pending ones without
    and last those with a packet; the oldest first. *)
Definition rank (e : etharp_entry) : Z := if is_stable e then 0 else if is_pending e then 1 else 2.
Definition victim (t : list etharp_entry) (i : Z) : Prop :=
  exists e, 0 <= i /\ t !! Z.to_nat i = Some e /\
    forall j e', t !! j = Some e' -> rank e < rank e' \/
      (rank e = rank e' /\ (ent_ctime e' < ent_ctime e \/ (ent_ctime e' = ent_ctime e /\ Z.of_nat j <= i))).

Definition all_occupied (t : list etharp_entry) : Prop := Forall occupied t.

Lemma oldest_victim P (r : Z) t k i age : length t = k ->
  oldest P t k i age -> i < ARP_TABLE_SIZE ->
  (forall j e, t !! j = Some e -> if P e then rank e = r else r < rank e) -> victim t i.
Proof.
  intros Hlen [(-> & _)|(e & Hi & He & HP & Hage & Hall)] Hlt Hr; [lia|].
  pose proof (Hr _ _ He) as Hre. rewrite HP in Hre.
  exists e. split; [lia|]. split; [done|]. intros j e' Hj. rewrite Hre. specialize (Hr _ _ Hj).
  destruct (P e') eqn:HP'; [right|by left]. rewrite Hr. split; [done|]. subst age.
  apply Hall; try done. rewrite <-Hlen. by eapply lookup_lt_Some.
Qed.
Lemma oldest_none P t k i age : length t = k -> oldest P t k i age -> ARP_TABLE_SIZE <= i ->
  k = Z.to_nat ARP_TABLE_SIZE -> forall j e, t !! j = Some e -> P e = false.
Proof.
  intros Hlen [(_ & _ & Hno)|(e & Hi & _)] Hge Hk j e' Hj; [|unfold ARP_TABLE_SIZE in *; lia].
  apply (Hno j e'); [|done]. rewrite <-Hlen. by eapply lookup_lt_Some.
Qed.

Lemma recycle_spec E c st : link_ok E st -> swept (arp_table st) (Z.to_nat ARP_TABLE_SIZE) c -> all_occupied (arp_table st) ->
  exists i, recycle c st = Ok (Some i, st) /\ victim (arp_table st) i /\ i < ARP_TABLE_SIZE.
Proof.
  intros H (Hs & Hp & Hq & _) Hocc. pose proof (link_size _ _ H) as Hlen. pose proof (link_entries _ _ H) as Hents.
  unfold all_occupied in Hocc. rewrite Forall_lookup in Hents, Hocc. unfold recycle.
  destruct (Z.ltb_spec (old_stable c) ARP_TABLE_SIZE) as [Hlt|Hge].
  { exists (old_stable c). assert (Hv : victim (arp_table st) (old_stable c)).
    { eapply (oldest_victim is_stable 0); [done|done|done|]. intros j e _. unfold rank.
      by destruct (is_stable e), (is_pending e). }
    destruct Hs as [(? & _)|(e & Hi & He & HP & _)]; [lia|].
    rewrite (ent_get_bind _ e) by (split; [lia|done]). rewrite sassert_bind; [done|].
    destruct (Hents _ _ He) as [_ _ _ _ _ Hqe]. destruct (Z.eqb_spec (ent_q e) 0) as [|Hne]; [done|].
    destruct (Hqe Hne) as [Hx _]. unfold is_stable in HP. by rewrite Hx in HP. }
  pose proof (oldest_none _ _ _ _ _ Hlen Hs Hge eq_refl) as Hns.
  destruct (Z.ltb_spec (old_pending c) ARP_TABLE_SIZE) as [Hlt|Hge'].
  { exists (old_pending c). split; [done|]. split; [|done].
    eapply (oldest_victim is_pending 1); [done|done|done|]. intros j e Hj. unfold rank. rewrite (Hns _ _ Hj).
    by destruct (is_pending e). }
  pose proof (oldest_none _ _ _ _ _ Hlen Hp Hge' eq_refl) as Hnp.
  assert (Hall : forall j e, arp_table st !! j = Some e -> is_queue e = true).
  { intros j e Hj. specialize (Hns _ _ Hj). specialize (Hnp _ _ Hj). specialize (Hocc _ _ Hj).
    destruct (Hents _ _ Hj) as [Hst _ _ _ _ _]. unfold occupied in Hocc.
    unfold is_stable, is_pending, is_queue, ETHARP_STATE_EMPTY, ETHARP_STATE_PENDING, ETHARP_STATE_STABLE in *. lia. }
  destruct (Z.ltb_spec (old_queue c) ARP_TABLE_SIZE) as [Hlt|Hge''].
  { exists (old_queue c). split; [done|]. split; [|done].
    eapply (oldest_victim is_queue 2); [done|done|done|]. intros j e Hj. unfold rank.
    by rewrite (Hns _ _ Hj), (Hnp _ _ Hj), (Hall _ _ Hj). }
  pose proof (oldest_none _ _ _ _ _ Hlen Hq Hge'' eq_refl) as Hnq. exfalso.
  destruct (lookup_lt_is_Some_2 (arp_table st) 0) as [e He]; [rewrite Hlen; unfold ARP_TABLE_SIZE; lia|].
  specialize (Hall _ _ He). by rewrite (Hnq _ _ He) in Hall.
Qed.

(** The entry [find_init] leaves. *)
Definition renewed (ip : option Z) (n : Z) (e : etharp_entry) : etharp_entry :=
  with_netif (with_ctime (match ip with Some a => with_ipaddr e a | None => e end) 0) n.

(** What [etharp_find_entry] returns and leaves, [t] being the table before. *)
Inductive find_result (ip : option Z) (flags n : Z) (st : state) : Z -> state -> Prop :=
| find_match i :
    first_match (arp_table st) ip n i -> find_result ip flags n st (Z.of_nat i) st
| find_none :
    no_match (arp_table st) ip n (Z.to_nat ARP_TABLE_SIZE) ->
    Z.land flags ETHARP_FLAG_FIND_ONLY <> 0 \/
      (all_occupied (arp_table st) /\ Z.land flags ETHARP_FLAG_TRY_HARD = 0) ->
    find_result ip flags n st ERR_MEM st
| find_empty i e :
    no_match (arp_table st) ip n (Z.to_nat ARP_TABLE_SIZE) ->
    Z.land flags ETHARP_FLAG_FIND_ONLY = 0 ->
    i < ARP_TABLE_SIZE -> first_empty (arp_table st) (Z.to_nat ARP_TABLE_SIZE) i -> ent_at st i e ->
    find_result ip flags n st i (set_ent st i (renewed ip n e))
| find_recycled i s' :
    no_match (arp_table st) ip n (Z.to_nat ARP_TABLE_SIZE) ->
    Z.land flags ETHARP_FLAG_FIND_ONLY = 0 -> Z.land flags ETHARP_FLAG_TRY_HARD <> 0 ->
    all_occupied (arp_table st) -> victim (arp_table st) i ->
    find_result ip flags n st i (set_ent (with_pm st s') i (renewed ip n empty_entry)).

Lemma find_init_ok i ip n e st : ent_at st i e -> i < ARP_TABLE_SIZE -> ~ occupied e ->
  find_init i ip n st = Ok (i, set_ent st i (renewed ip n e)).
Proof.
  intros He Hi Ho. unfold find_init. rewrite sassert_bind by lia. run_entry He.
  rewrite sassert_bind by (by rewrite (not_occupied _ Ho)).
  destruct ip as [a|]; [|rewrite mret_bind]; by run_entry He.
Qed.

(** An entry not in use stays so. *)
Lemma follows_renewed E i ip n e st : link_ok E st -> ent_at st i e -> ~ occupied e ->
  follows E st (set_ent st i (renewed ip n e)).
Proof.
  intros H He Ho. pose proof (link_entries _ _ H) as Hents. rewrite Forall_lookup in Hents.
  destruct (Hents _ _ (proj2 He)) as [Hst Hage Hpa Hhw Hnif Hq].
  assert (Hs : ent_state e = ETHARP_STATE_EMPTY) by (by apply not_occupied).
  assert (Hq0 : ent_q e = 0).
  { destruct (Z.eq_dec (ent_q e) 0) as [|Hne]; [done|]. destruct (Hq Hne) as [Hx _]. by rewrite Hs in Hx. }
  assert (Hr : ent_q (renewed ip n e) = 0 /\ ent_state (renewed ip n e) = ETHARP_STATE_EMPTY /\
    ent_ctime (renewed ip n e) = 0 /\ ent_ethaddr (renewed ip n e) = ent_ethaddr e) by (by destruct ip).
  destruct Hr as (Rq & Rs & Rc & Re).
  replace (set_ent st i (renewed ip n e)) with (set_ent (with_pm st (pm st)) i (renewed ip n e)) by (by destruct st).
  apply (follows_entry E st (pm st) (Z.to_nat i) e); try done; [apply He| |apply calm_refl| | |].
  - rewrite (queued_same _ _ e); [apply H|apply He|congruence].
  - rewrite Rq. by intros ? _ ?%gmultiset_elem_of_empty.
  - split; unfold occupied; by rewrite ?Rs, ?Rq, ?Rc, ?Re.
  - eapply unique_insert; [apply H|apply He|]. unfold occupied. by rewrite Rs.
Qed.

(** [etharp_find_entry] returns and does what [find_result] says. *)
Lemma etharp_find_entry_spec E ip flags n st : link_ok E st ->
  exists r st', etharp_find_entry ip flags n st = Ok (r, st') /\ follows E st st' /\ find_result ip flags n st r st'.
Proof.
  intros H. unfold etharp_find_entry. pose proof (link_entries _ _ H) as Hents.
  destruct (find_loop_spec E ip n (Z.to_nat ARP_TABLE_SIZE) 0 no_candidates st H eq_refl (swept_0 _))
    as [(i & Hm & Ef)|(Hno & c & Hsw & Ef)]; [intros j e Hj; lia| |];
    change (seqZ (Z.of_nat 0) (Z.of_nat (Z.to_nat ARP_TABLE_SIZE))) with indices in Ef; rewrite (st_bind_ok _ _ _ _ _ Ef); cbv iota.
  { eexists _, st. split; [done|]. split; [by apply follows_refl|by apply find_match]. }
  pose proof Hsw as (_ & _ & _ & Hemp).
  assert (Hocc : empty c = ARP_TABLE_SIZE -> all_occupied (arp_table st)).
  { intros Ee. destruct Hemp as [[_ Hall]|(e & ? & _)]; [|lia]. apply Forall_lookup. intros j e Hj.
    apply (Hall j e); [|done]. rewrite <-(link_size _ _ H). by eapply lookup_lt_Some. }
  destruct (Z.eqb_spec (Z.land flags ETHARP_FLAG_FIND_ONLY) 0) as [Hfo|Hfo]; cbn [negb orb].
  2:{ eexists _, st. split; [done|]. split; [by apply follows_refl|]. apply find_none; [done|by left]. }
  destruct (Z.ltb_spec (empty c) ARP_TABLE_SIZE) as [Hlt|Hge].
  { replace (empty c =? ARP_TABLE_SIZE) with false by lia. cbn [andb].
    pose proof Hemp as Hemp'. destruct Hemp' as [[? _]|(e & ? & He & Hs & _)]; [lia|].
    assert (Hat : ent_at st (empty c) e) by (split; [lia|done]).
    assert (Hnocc : ~ occupied e) by (intros Ho; by destruct Ho).
    rewrite (find_init_ok _ _ _ e) by done. eexists _, _. split; [done|].
    split; [by apply follows_renewed|by eapply find_empty]. }
  assert (Ee : empty c = ARP_TABLE_SIZE) by (destruct Hemp as [[? _]|(e & ? & _)]; lia). specialize (Hocc Ee).
  rewrite Ee, Z.eqb_refl. cbn [andb]. destruct (Z.eqb_spec (Z.land flags ETHARP_FLAG_TRY_HARD) 0) as [Hth|Hth].
  { eexists _, st. split; [done|]. split; [by apply follows_refl|]. apply find_none; [done|by right]. }
  destruct (recycle_spec E c st H Hsw Hocc) as (i & Er & Hv & Hi). rewrite (st_bind_ok _ _ _ _ _ Er).
  rewrite sassert_bind by lia. pose proof Hv as (e & Hi0 & He & _).
  destruct (etharp_free_entry_spec E i e st H) as (s' & Efr & Hf); [by split|]. rewrite (st_bind_ok _ _ _ _ _ Efr).
  assert (Hat : ent_at (set_ent (with_pm st s') i empty_entry) i empty_entry) by (by apply (set_ent_at _ _ _ e)).
  rewrite (find_init_ok _ _ _ empty_entry) by (done || by intros []). eexists _, _. split; [done|].
  rewrite set_ent_set. split; [|by apply find_recycled].
  eapply follows_trans; [exact Hf|]. rewrite <-(set_ent_set _ _ (renewed ip n empty_entry) empty_entry).
  apply follows_renewed; [apply Hf|done|by intros []].
Qed.

(** ** [etharp_tmr] *)

(** A change of state, age and hardware address. *)
Lemma follows_touch E i e e' st : link_ok E st -> ent_at st i e -> ent_q e' = ent_q e ->
  ent_ipaddr e' = ent_ipaddr e -> ent_netif e' = ent_netif e -> occupied e -> entry_ok st e' ->
  follows E st (set_ent st i e').
Proof.
  intros H He Hq Hip Hn Ho Hok.
  replace (set_ent st i e') with (set_ent (with_pm st (pm st)) i e') by (by destruct st).
  apply (follows_entry E st (pm st) (Z.to_nat i) e); try done; [apply He| |apply calm_refl| | |].
  - rewrite (queued_same _ _ e); [apply H|apply He|done].
  - intros q [_ Hp]. rewrite Hq. intros Hin. by apply Hp, (queued_in _ _ _ _ (proj2 He)).
  - by eapply entry_ok_mono; [| |exact Hok]; [intros ? ?|].
  - eapply unique_same; [apply H|apply He|done..].
Qed.

(** One second in the life of an entry. *)
Definition aged (e : etharp_entry) : etharp_entry :=
  if ent_state e =? ETHARP_STATE_EMPTY then e
  else if (ARP_MAXAGE <=? ent_ctime e + 1) ||
          ((ent_state e =? ETHARP_STATE_PENDING) && (ARP_MAXPENDING <=? ent_ctime e + 1)) then empty_entry
  else with_ctime (with_state e
         (if ent_state e =? ETHARP_STATE_STABLE_REREQUESTING_1 then ETHARP_STATE_STABLE_REREQUESTING_2
          else if ent_state e =? ETHARP_STATE_STABLE_REREQUESTING_2 then ETHARP_STATE_STABLE
          else ent_state e)) (ent_ctime e + 1).

Definition request_frame (nif : netif) (ip : Z) : list Z :=
  eth_frame ethbroadcast (nif_hwaddr nif) ETHTYPE_ARP
    (arp_message ARP_REQUEST (nif_hwaddr nif) (nif_ip (nif_addrs nif)) ethzero ip).

(** The requests of the entries that are still pending. *)
Definition requests (nifs : gmap Z netif) (e : etharp_entry) : list (Z * list Z) :=
  if ent_state (aged e) =? ETHARP_STATE_PENDING then
    match nifs !! ent_netif e with Some nif => [(ent_netif e, request_frame nif (ent_ipaddr e))] | None => [] end
  else [].

Definition ticked_entry (E : gmultiset Z) (i : Z) (e : etharp_entry) (st st' : state) : Prop :=
  follows E st st' /\ arp_table st' = <[Z.to_nat i := aged e]> (arp_table st) /\ netifs st' = netifs st /\
  exists out, frames st' = frames st ++ out /\ out `sublist_of` requests (netifs st) e.

Lemma etharp_tmr_one_spec E i e st : link_ok E st -> ent_at st i e ->
  exists st', etharp_tmr_one i st = Ok (tt, st') /\ ticked_entry E i e st st'.
Proof.
  intros H He. pose proof (link_entries _ _ H) as Hents. rewrite Forall_lookup in Hents.
  pose proof (Hents _ _ (proj2 He)) as Hok. pose proof Hok as [Hst Hage Hpa Hhw Hnif Hq].
  unfold ETHARP_STATE_STABLE_REREQUESTING_2, ARP_MAXAGE in *.
  unfold etharp_tmr_one. run_entry He.
  destruct (Z.eqb_spec (ent_state e) ETHARP_STATE_EMPTY) as [E0|E0]; cbn [negb].
  { exists st. split; [done|]. split; [by apply follows_refl|]. unfold aged. rewrite (proj2 (Z.eqb_eq _ _) E0).
    rewrite list_insert_id by apply He. split; [done|]. split; [done|]. exists []. rewrite app_nil_r. split; [done|apply sublist_nil_l]. }
  run_entry He. rewrite (u16_id (ent_ctime e + 1)) by (unfold is_u16; lia).
  set (e1 := with_ctime e (ent_ctime e + 1)). assert (He1 : ent_at (set_ent st i e1) i e1) by (by apply (set_ent_at _ _ _ e)).
  change (ent_ctime e1) with (ent_ctime e + 1). change (ent_state e1) with (ent_state e).
  unfold ticked_entry, requests, aged. rewrite (proj2 (Z.eqb_neq _ _) E0).
  destruct (_ || _) eqn:Hexp.
  { destruct (etharp_free_aged_spec E i e e1 st H He eq_refl) as (s' & Ef & Hf). rewrite Ef.
    eexists. split; [done|]. split; [exact Hf|]. split; [done|]. split; [done|]. exists [].
    rewrite app_nil_r. split; [done|apply sublist_nil_l]. }
  apply orb_false_iff in Hexp as [Hlt Hlt']. apply Z.leb_gt in Hlt.
  assert (Ht : forall s, 1 <= s <= 4 -> (s = ent_state e \/ (2 <= s /\ 2 <= ent_state e)) ->
    follows E st (set_ent st i (with_ctime (with_state e s) (ent_ctime e + 1)))).
  { intros s Hs Hor. apply (follows_touch E i e); try done.
    unfold ETHARP_STATE_PENDING, occupied, ETHARP_STATE_EMPTY in *.
    split; unfold occupied, ETHARP_STATE_PENDING, ETHARP_STATE_STABLE_REREQUESTING_2, ETHARP_STATE_EMPTY; simpl; try done; try lia.
    intros _. by apply Hnif. }
  assert (Hsame : e1 = with_ctime (with_state e (ent_state e)) (ent_ctime e + 1)) by (by destruct e).
  assert (Hno : forall l : list (Z * list Z), exists out, frames st = frames st ++ out /\ out `sublist_of` l).
  { intros l. exists []. rewrite app_nil_r. split; [done|apply sublist_nil_l]. }
  destruct (Z.eqb_spec (ent_state e) ETHARP_STATE_STABLE_REREQUESTING_1) as [E3|E3];
    [|destruct (Z.eqb_spec (ent_state e) ETHARP_STATE_STABLE_REREQUESTING_2) as [E4|E4]].
  1,2: run_entry He; eexists; split; [done|]; unfold ETHARP_STATE_STABLE_REREQUESTING_1, ETHARP_STATE_STABLE_REREQUESTING_2 in *;
    split; [apply Ht; unfold ETHARP_STATE_STABLE; lia|]; split; [done|]; split; [done|apply Hno].
  destruct (Z.eqb_spec (ent_state e) ETHARP_STATE_PENDING) as [E1|E1].
  2:{ eexists. split; [done|]. rewrite Hsame. split; [apply Ht; unfold ETHARP_STATE_EMPTY in E0; lia|]. split; [done|]. split; [done|apply Hno]. }
  specialize (Ht (ent_state e) ltac:(unfold ETHARP_STATE_EMPTY in *; lia) ltac:(by left)). rewrite <-Hsame in Ht.
  destruct (Hnif E0) as (_ & _ & nif & En & _).
  destruct (etharp_request_spec call_custom_free garbage _ (ent_netif e) nif (ent_ipaddr e) (set_ent st i e1)
    (link_refs _ _ (fol_ok _ _ _ Ht))) as (err & st' & Er & Hm & Hs); [by apply (fol_usable _ _ _ Ht), Hnif|done|].
  change (ent_netif e1) with (ent_netif e). change (ent_ipaddr e1) with (ent_ipaddr e).
  rewrite (st_bind_ok _ _ _ _ _ Er). exists st'. split; [done|].
  apply arp_sent_frames in Hs as (out & Hout & Hsub). pose proof Hm as (_ & _ & Hnn & _ & _ & Htab & _). split.
  { eapply follows_trans; [exact Ht|]. apply follows_message; [apply Ht|done|]. exists out. done. }
  split; [by rewrite Htab, Hsame|]. split; [done|]. exists out. split; [done|]. simpl. by rewrite E1, En.
Qed.

Lemma etharp_tmr_loop E m k st : link_ok E st -> (k + m = Z.to_nat ARP_TABLE_SIZE)%nat ->
  exists st', for_entries (seqZ (Z.of_nat k) (Z.of_nat m)) etharp_tmr_one st = Ok (tt, st') /\ follows E st st' /\
    arp_table st' = take k (arp_table st) ++ map aged (drop k (arp_table st)) /\ netifs st' = netifs st /\
    exists out, frames st' = frames st ++ out /\ out `sublist_of` flat_map (requests (netifs st)) (drop k (arp_table st)).
Proof.
  revert k st. induction m as [|m IH]; intros k st H Hk.
  { exists st. split; [done|]. split; [by apply follows_refl|]. pose proof (link_size _ _ H).
    rewrite drop_ge, take_ge, app_nil_r by lia. split; [done|]. split; [done|]. exists []. by rewrite app_nil_r. }
  rewrite seqZ_cons by lia. cbn [for_entries].
  destruct (lookup_lt_is_Some_2 (arp_table st) k) as [e He]; [rewrite (link_size _ _ H); lia|].
  destruct (etharp_tmr_one_spec E (Z.of_nat k) e st H) as (st1 & E1 & F1 & T1 & N1 & out & O1 & S1).
  { split; [lia|by rewrite Nat2Z.id]. }
  rewrite (st_bind_ok _ _ _ _ _ E1). replace (Z.succ (Z.of_nat k)) with (Z.of_nat (Datatypes.S k)) by lia.
  replace (Z.pred (Z.of_nat (Datatypes.S m))) with (Z.of_nat m) by lia.
  destruct (IH (Datatypes.S k) st1 (fol_ok _ _ _ F1) ltac:(lia)) as (st2 & E2 & F2 & T2 & N2 & out2 & O2 & S2).
  exists st2. split; [done|]. split; [by eapply follows_trans|].
  assert (Hd : drop (Datatypes.S k) (arp_table st1) = drop (Datatypes.S k) (arp_table st)).
  { rewrite T1, Nat2Z.id. apply drop_insert_lt. lia. }
  rewrite Hd in T2, S2. rewrite (drop_S _ _ _ He). cbn [map flat_map]. split.
  - rewrite T2, T1, Nat2Z.id. erewrite take_S_r by (apply list_lookup_insert_eq; by eapply lookup_lt_Some).
    rewrite take_insert_ge by lia. by rewrite <-app_assoc.
  - split; [congruence|]. exists (out ++ out2). rewrite O2, O1, <-app_assoc. split; [done|].
    rewrite <-N1 at 2. by apply sublist_app.
Qed.

Lemma etharp_tmr_spec E st : link_ok E st ->
  exists st', etharp_tmr st = Ok (tt, st') /\ follows E st st' /\
    arp_table st' = map aged (arp_table st) /\ netifs st' = netifs st /\
    exists out, frames st' = frames st ++ out /\ out `sublist_of` flat_map (requests (netifs st)) (arp_table st).
Proof. intros H. by apply (etharp_tmr_loop E (Z.to_nat ARP_TABLE_SIZE) 0 st H). Qed.

(** [k] calls of the timer. *)
Fixpoint etharp_ticks (k : nat) : M unit :=
  match k with O => mret tt | Datatypes.S k' => _ ← etharp_tmr; etharp_ticks k' end.

Lemma etharp_ticks_spec E k st : link_ok E st ->
  exists st', etharp_ticks k st = Ok (tt, st') /\ follows E st st' /\
    arp_table st' = map (Nat.iter k aged) (arp_table st).
Proof.
  revert st. induction k as [|k IH]; intros st H.
  { exists st. split; [done|]. split; [by apply follows_refl|]. by rewrite map_id. }
  destruct (etharp_tmr_spec E st H) as (st1 & E1 & F1 & T1 & _). cbn [etharp_ticks]. rewrite (st_bind_ok _ _ _ _ _ E1).
  destruct (IH st1 (fol_ok _ _ _ F1)) as (st2 & E2 & F2 & T2). exists st2. split; [done|].
  split; [by eapply follows_trans|]. rewrite T2, T1, map_map. apply map_ext. intros e. by rewrite <-Nat.iter_succ_r.
Qed.

(** An entry that is left after [k] seconds is [k] seconds older. *)
Lemma iter_aged e k : 0 <= ent_ctime e ->
  (ent_state e = ETHARP_STATE_PENDING -> ent_ctime e < ARP_MAXPENDING) -> ent_ctime e < ARP_MAXAGE ->
  occupied (Nat.iter k aged e) ->
  ent_ctime (Nat.iter k aged e) = ent_ctime e + Z.of_nat k /\ ent_ctime (Nat.iter k aged e) < ARP_MAXAGE /\
  (ent_state e = ETHARP_STATE_PENDING -> ent_state (Nat.iter k aged e) = ETHARP_STATE_PENDING /\
     ent_ctime (Nat.iter k aged e) < ARP_MAXPENDING).
Proof.
  intros H0 Hp Hm. induction k as [|k IH]; [simpl; intros _; split_and!; try done; lia|].
  change (Nat.iter (Datatypes.S k) aged e) with (aged (Nat.iter k aged e)). set (x := Nat.iter k aged e) in *.
  unfold occupied, aged.
  destruct (Z.eqb_spec (ent_state x) ETHARP_STATE_EMPTY) as [E0|E0]; [by intros []|]. specialize (IH E0).
  destruct (_ || _) eqn:Hexp; [by intros []|]. intros _. simpl. split; [lia|]. split; [lia|].
  intros Hs. destruct IH as (_ & _ & IH). destruct (IH Hs) as [Hx _]. rewrite Hx in Hexp |- *.
  unfold ETHARP_STATE_PENDING in *. split; [done|lia].
Qed.

(** C33. Nothing stays in the cache for ever.  From any state that satisfies the
    invariant, [k] successive calls of [etharp_tmr] return; if nothing else touches the
    cache meanwhile, then after [ARP_MAXAGE] calls it is empty and holds no
    packet, and after [ARP_MAXPENDING] calls no entry is left of those that were waiting
    for an answer, whose packets are released. *)
Theorem etharp_cache_expires E k st : link_ok E st ->
  exists st', etharp_ticks k st = Ok (tt, st') /\ link_ok E st' /\
    (ARP_MAXAGE <= Z.of_nat k -> all_empty (arp_table st') /\ queued (arp_table st') = ∅) /\
    (ARP_MAXPENDING <= Z.of_nat k -> forall i e, arp_table st !! i = Some e ->
       ent_state e = ETHARP_STATE_PENDING -> exists e', arp_table st' !! i = Some e' /\
         ent_state e' = ETHARP_STATE_EMPTY /\ ent_q e' = 0).
Proof.
  intros H. destruct (etharp_ticks_spec E k st H) as (st' & E1 & F & Ht). exists st'. split; [done|].
  pose proof (fol_ok _ _ _ F) as H'. split; [done|].
  assert (Hq : forall e, e ∈ arp_table st' -> ~ occupied e -> ent_q e = 0).
  { intros e He Ho. pose proof (link_entries _ _ H') as Hents. rewrite Forall_forall in Hents.
    destruct (Hents _ He) as [_ _ _ _ _ Hq]. destruct (Z.eq_dec (ent_q e) 0) as [|Hne]; [done|].
    destruct (Hq Hne) as [Hx _]. destruct Ho. unfold occupied. by rewrite Hx. }
  pose proof (link_entries _ _ H) as Hents. rewrite Forall_lookup in Hents.
  assert (Hi : forall i e, arp_table st !! i = Some e -> occupied (Nat.iter k aged e) ->
    Z.of_nat k < ARP_MAXAGE /\ (ent_state e = ETHARP_STATE_PENDING -> Z.of_nat k < ARP_MAXPENDING)).
  { intros i e He Ho. destruct (Hents _ _ He) as [_ Ha Hp _ _ _].
    destruct (iter_aged e k ltac:(lia) Hp ltac:(lia) Ho) as (? & ? & Hx). split; [lia|]. intros Hs. specialize (Hx Hs). lia. }
  split.
  - intros Hk. assert (Hall : all_empty (arp_table st')).
    { apply Forall_lookup. intros i e' He'. rewrite Ht, list_lookup_fmap in He'.
      apply fmap_Some in He' as (e & He & ->). intros Ho. destruct (Hi _ _ He Ho). lia. }
    split; [done|]. apply queued_none. apply Forall_forall. intros e He. apply Hq; [done|].
    unfold all_empty in Hall. rewrite Forall_forall in Hall. by apply Hall.
  - intros Hk i e He Hs. exists (Nat.iter k aged e). rewrite Ht, list_lookup_fmap, He.
    assert (Ho : ~ occupied (Nat.iter k aged e)) by (intros Ho; destruct (Hi _ _ He Ho); lia).
    split; [done|]. split; [by apply not_occupied|]. apply Hq; [|done].
    rewrite Ht. apply list_elem_of_fmap_2. by eapply list_elem_of_lookup_2.
Qed.

(** ** [etharp_update_arp_entry] *)

(** The entry [r] is the one for the address [ip] of the interface [n]. *)
Record slot (st : state) (r ip n : Z) (e : etharp_entry) : Prop := {
  slot_at : ent_at st r e;
  slot_lt : r < ARP_TABLE_SIZE;
  slot_ip : ent_ipaddr e = ip;
  slot_netif : ent_netif e = n;
  slot_only j x : arp_table st !! j = Some x -> j <> Z.to_nat r -> occupied x ->
    ent_ipaddr x = ip -> ent_netif x = n -> False
}.

Lemma matches_spec ip n e : n <> 0 ->
  entry_matches (Some ip) n e = true <-> ent_ipaddr e = ip /\ ent_netif e = n.
Proof. intros Hn. unfold entry_matches, ip4_addr_eq. lia. Qed.

Lemma no_match_slot st st' r ip n e0 e :
  no_match (arp_table st) (Some ip) n (Z.to_nat ARP_TABLE_SIZE) -> length (arp_table st) = Z.to_nat ARP_TABLE_SIZE ->
  n <> 0 -> ent_at st r e0 -> arp_table st' = <[Z.to_nat r := e]> (arp_table st) ->
  ent_ipaddr e = ip -> ent_netif e = n -> slot st' r ip n e.
Proof.
  intros Hno Hlen Hn [Hr He0] Ht Hip Hnif. pose proof (lookup_lt_Some _ _ _ He0) as Hlt.
  split; try done; [split; [done|]; rewrite Ht; by apply list_lookup_insert_eq|lia|].
  intros j x Hj Hne Ho H1 H2. rewrite Ht, list_lookup_insert_ne in Hj by done.
  pose proof (Hno j x ltac:(rewrite <-Hlen; by eapply lookup_lt_Some) Hj Ho) as Hm.
  by rewrite (proj2 (matches_spec ip n x Hn)) in Hm.
Qed.

Lemma find_netifs ip flags n st r st' : find_result ip flags n st r st' -> netifs st' = netifs st.
Proof. by intros []. Qed.
Lemma find_frames ip flags n st r st' : find_result ip flags n st r st' -> frames st' = frames st.
Proof. by intros []. Qed.

Lemma find_slot E ip flags n st r st' : link_ok E st -> n <> 0 -> find_result (Some ip) flags n st r st' -> 0 <= r ->
  exists e, slot st' r ip n e /\ (occupied e -> st' = st) /\ (~ occupied e -> ent_q e = 0 /\ ent_ctime e = 0).
Proof.
  intros H Hn Hf Hr. pose proof (link_size _ _ H) as Hlen. pose proof (link_entries _ _ H) as Hents.
  rewrite Forall_lookup in Hents. destruct Hf as [i [(e & He & Ho & Hm) _]|Hno _|i e Hno _ Hi Hfe Hat|i s' Hno _ _ Hocc Hv].
  - apply matches_spec in Hm as [Hip Hnif]; [|done]. exists e. split; [|done].
    split; try done; [split; [lia|by rewrite Nat2Z.id]|apply lookup_lt_Some in He; lia|].
    intros j x Hj Hne Hx H1 H2. apply Hne. rewrite Nat2Z.id.
    apply (link_unique _ _ H j i x e Hj He Hx Ho); congruence.
  - by unfold ERR_MEM in Hr.
  - destruct Hfe as [[? _]|(e' & _ & He' & Hs & _)]; [lia|].
    assert (e' = e) as -> by (destruct Hat; congruence).
    exists (renewed (Some ip) n e). split; [by eapply no_match_slot|]. split; [intros Ho; by destruct Ho|].
    intros _. destruct (Hents _ _ He') as [_ _ _ _ _ Hq]. simpl. split; [|done]. destruct (Z.eq_dec (ent_q e) 0) as [|Hne]; [done|].
    destruct (Hq Hne) as [Hx _]. by rewrite Hs in Hx.
  - destruct Hv as (e & Hi0 & He & _). exists (renewed (Some ip) n empty_entry).
    split; [by eapply (no_match_slot st)|]. split; [intros Ho; by destruct Ho|done].
Qed.

(** The entry after an answer. *)
Definition resolved (n : Z) (hw : list Z) (e : etharp_entry) : etharp_entry :=
  {| ent_q := 0; ent_ipaddr := ent_ipaddr e; ent_netif := n; ent_ethaddr := hw; ent_ctime := 0;
     ent_state := ETHARP_STATE_STABLE |}.

(** Entry [r] is resolved, and its packet, if it had one, given to the driver, provided that it has room for the
    Ethernet header. *)
Definition answered (n : Z) (nif : netif) (r : Z) (hw : list Z) (e : etharp_entry) (st st' : state) : Prop :=
  arp_table st' = <[Z.to_nat r := resolved n hw e]> (arp_table st) /\ netifs st' = netifs st /\
  (ent_q e = 0 -> frames st' = frames st) /\
  (ent_q e <> 0 -> exists b l derr, packet (pbufs (pm st)) ((ent_q e, b) :: l) /\
     link_sent (head_room SIZEOF_ETH_HDR ((ent_q e, b) :: l)) n (eth_frame hw (nif_hwaddr nif) ETHTYPE_IP (data (pm st) ((ent_q e, b) :: l))) derr st st').

Lemma resolved_unique E n hw r ip e st : link_ok E st -> slot st r ip n e ->
  unique (<[Z.to_nat r := resolved n hw e]> (arp_table st)).
Proof.
  intros H Hs. eapply unique_insert; [apply H|apply (slot_at _ _ _ _ _ Hs)|].
  intros _ j x Hj Hne Hx H1 H2. eapply (slot_only _ _ _ _ _ Hs j x); try done.
  rewrite H1. apply Hs.
Qed.
Lemma resolved_ok n hw e st : ethernet_netif st n -> length hw = 6%nat -> entry_ok st (resolved n hw e).
Proof. intros Hn Hhw. split; try done. Qed.

Lemma send_queued_spec E n nif r ip hw e st : link_ok E st -> slot st r ip n e -> ethernet_netif st n ->
  netifs st !! n = Some nif -> length hw = 6%nat -> ent_q e <> 0 ->
  exists derr st3 k s4,
    ethernet_output n (ent_q e) (nif_hwaddr nif) hw ETHTYPE_IP (set_ent st r (resolved n hw e)) = Ok (derr, st3) /\
    pbuf_free call_custom_free (ent_q e) (pm st3) = Ok (k, s4) /\
    follows E st (with_pm st3 s4) /\ answered n nif r hw e st (with_pm st3 s4).
Proof.
  intros H Hs Hn Hnif Hhw Hq0. pose proof (slot_at _ _ _ _ _ Hs) as [Hr He].
  pose proof (link_entries _ _ H) as Hents. rewrite Forall_lookup in Hents.
  destruct (Hents _ _ He) as [_ _ _ _ _ Hq]. destruct (Hq Hq0) as [_ Hi].
  pose proof (queued_insert _ _ _ (resolved n hw e) He) as Hqi.
  change (hold (ent_q (resolved n hw e))) with (∅ : gmultiset Z) in Hqi.
  rewrite (hold_0 _ Hq0), (right_id_L ∅ (⊎)) in Hqi. set (t' := <[_ := _]> _) in Hqi.
  assert (Hrefs : refs_ok ({[+ ent_q e +]} ⊎ (E ⊎ queued t')) (pm st)).
  { rewrite <-multiset_rot, Hqi. apply H. }
  destruct (heap_held _ _ Hrefs (ent_q e)) as [b Hb]; [by apply multiset_head|].
  destruct (refs_packet _ _ _ _ Hrefs Hb) as (l & Hl & _).
  assert (Hhw' : length (nif_hwaddr nif) = 6%nat) by (destruct Hn as (_ & _ & x & ? & _ & ?); congruence).
  destruct (ethernet_output_spec _ n (ent_q e) b l (nif_hwaddr nif) hw ETHTYPE_IP (set_ent st r (resolved n hw e))
    Hrefs Hl Hi Hn Hhw' Hhw) as (derr & st3 & E3 & Hok3 & Hc3 & Ht3 & Hsent).
  destruct (pbuf_free_heap call_custom_free _ _ _ Hok3) as (k & s4 & E4 & Hok4 & Hc4).
  exists derr, st3, k, s4. split; [done|]. split; [done|].
  destruct Ht3 as (Tn & Tl & Ta & Tt & Tc).
  assert (Hcalm : calm (private E st) (pm st) s4).
  { eapply calm_trans; [eapply calm_weaken; [exact Hc3|]|eapply calm_weaken; [exact Hc4|]].
    - intros q [_ Hnq] ->. apply Hnq. rewrite <-Hqi. apply multiset_last.
    - intros q [Hq' _]. by apply multiset_left. }
  split.
  - apply follows_cache; simpl; rewrite ?Tt, ?Tc; simpl; try done.
    + intros q [Hqe Hnq]. split; [done|]. simpl. rewrite Tt. simpl. fold t'. intros Hin. apply Hnq. rewrite <-Hqi. by apply multiset_left.
    + rewrite length_insert. apply H.
    + assert (Hu : netifs_usable st (with_pm st3 s4)).
      { intros m (? & ? & x & ? & ?). split; [done|]. split; [done|]. exists x. simpl. by rewrite Tn. }
      apply Forall_insert; [|by apply resolved_ok; [apply Hu|]].
      eapply Forall_impl; [apply (link_entries _ _ H)|]. intros x. apply entry_ok_mono; [done|apply Hcalm].
    + by eapply resolved_unique.
    + apply H.
    + destruct (link_sent_frames _ _ _ _ _ _ Hsent) as (out & Hf & _). simpl in *. rewrite Hf. by eexists.
  - split; [by simpl; rewrite Tt|]. split; [done|]. split; [done|]. intros _. by exists b, l, derr.
Qed.

Lemma etharp_update_find E n nif ip hw flags st : link_ok E st -> ethernet_netif st n -> netifs st !! n = Some nif ->
  length hw = 6%nat ->
  exists err st', etharp_update_arp_entry n ip hw flags st = Ok (err, st') /\ follows E st st' /\
    if ip4_addr_isany_val ip || ip4_addr_isbroadcast ip nif || ip4_addr_ismulticast ip then err = ERR_ARG /\ st' = st
    else exists r st1, etharp_find_entry (Some ip) flags n st = Ok (r, st1) /\
      if r <? 0 then err = r /\ st' = st1
      else err = ERR_OK /\ exists e, slot st1 r ip n e /\ answered n nif r hw e st1 st'.
Proof.
  intros H Hn Hnif Hhw. pose proof Hn as (Hn0 & _ & nif' & Hnif' & Hlen & _). unfold etharp_update_arp_entry.
  rewrite (netif_get_bind _ nif) by done. rewrite sassert_bind by (assert (nif' = nif) as <- by congruence; lia).
  destruct (_ || _) eqn:Hcond.
  { eexists _, st. split; [done|]. split; [by apply follows_refl|done]. }
  destruct (etharp_find_entry_spec E (Some ip) flags n st H) as (r & st1 & E1 & F1 & Hf).
  rewrite (st_bind_ok _ _ _ _ _ E1). destruct (Z.ltb_spec r 0) as [Hr|Hr].
  { eexists _, st1. split; [done|]. split; [done|]. exists r, st1. split; [done|]. by replace (r <? 0) with true by lia. }
  destruct (find_slot E _ _ _ _ _ _ H Hn0 Hf Hr) as (e & Hs & Hst & Hq). pose proof (slot_at _ _ _ _ _ Hs) as He.
  pose proof (fol_ok _ _ _ F1) as H1. pose proof (fol_usable _ _ _ F1 _ Hn) as Hn1.
  assert (Hnif1 : netifs st1 !! n = Some nif) by (by rewrite (find_netifs _ _ _ _ _ _ Hf)).
  exists ERR_OK. run_entry He. cbn [ent_q with_ctime with_ethaddr with_netif with_state].
  destruct (Z.eqb_spec (ent_q e) 0) as [Eq|Eq]; cbn [negb].
  - rewrite mret_bind. assert (Hx : with_ctime (with_ethaddr (with_netif (with_state e ETHARP_STATE_STABLE) n) hw) 0
      = resolved n hw e) by (unfold resolved; by rewrite <-Eq). rewrite Hx.
    eexists. split; [done|]. split.
    + eapply follows_trans; [exact F1|].
      replace (set_ent st1 r _) with (set_ent (with_pm st1 (pm st1)) r (resolved n hw e)) by (by destruct st1).
      apply (follows_entry E st1 (pm st1) (Z.to_nat r) e); try done; [apply He| |apply calm_refl| |by eapply resolved_unique].
      * rewrite (queued_same _ _ e); [apply H1|apply He|done].
      * by intros ? _ ?%gmultiset_elem_of_empty.
    + exists r, st1. split; [done|]. replace (r <? 0) with false by lia. split; [done|]. exists e. split; [done|].
      split; [done|]. by split.
  - destruct (send_queued_spec E n nif r ip hw e st1 H1 Hs Hn1 Hnif1 Hhw Eq) as (derr & st3 & k & s4 & E3 & E4 & F4 & A4).
    eexists. split.
    { unfold mbind at 1, st_bind at 1. run_entry He. change (with_q _ 0) with (resolved n hw e).
      rewrite (st_bind_ok _ _ _ _ _ E3), (on_pm_bind _ _ _ _ _ E4). done. }
    split; [by eapply follows_trans|]. exists r, st1. split; [done|]. replace (r <? 0) with false by lia.
    split; [done|]. by exists e.
Qed.

Lemma etharp_update_spec E n nif ip hw flags st : link_ok E st -> ethernet_netif st n -> netifs st !! n = Some nif ->
  length hw = 6%nat ->
  exists err st', etharp_update_arp_entry n ip hw flags st = Ok (err, st') /\ follows E st st' /\
    if ip4_addr_isany_val ip || ip4_addr_isbroadcast ip nif || ip4_addr_ismulticast ip then err = ERR_ARG /\ st' = st
    else exists r st1, find_result (Some ip) flags n st r st1 /\
      if r <? 0 then err = r /\ st' = st1
      else err = ERR_OK /\ exists e, slot st1 r ip n e /\ answered n nif r hw e st1 st'.
Proof.
  intros H Hn Hnif Hhw. destruct (etharp_update_find E n nif ip hw flags st H Hn Hnif Hhw) as (err & st' & E1 & F & Hx).
  exists err, st'. split; [done|]. split; [done|]. destruct (_ || _); [done|]. destruct Hx as (r & st1 & Ef & Hr).
  destruct (etharp_find_entry_spec E (Some ip) flags n st H) as (r' & st1' & Ef' & _ & Hf). rewrite Ef in Ef'.
  injection Ef' as <- <-. by exists r, st1.
Qed.

(** C32. [etharp_find_entry] keeps the invariant and never fails an assertion.  It returns the
    first entry in use for the address, changing nothing, if there is one; otherwise [ERR_MEM] if
    asked only to search, or if every entry is in use and none may be recycled;
    otherwise the first unused entry, prepared for the address; and in a full table the
    entry it recycles comes first in the order: stable ones, then pending ones without and
    last those with a packet, the oldest first and the last of equally old ones.  The packet of a recycled
    entry is released. *)
Theorem etharp_find_entry_correct E ip flags n st : link_ok E st ->
  exists r st', etharp_find_entry ip flags n st = Ok (r, st') /\ link_ok E st' /\ frames st' = frames st /\
    find_result ip flags n st r st'.
Proof.
  intros H. destruct (etharp_find_entry_spec E ip flags n st H) as (r & st' & E1 & F & Hf).
  exists r, st'. split; [done|]. split; [apply F|]. split; [by eapply find_frames|done].
Qed.

(** C34. [etharp_update_arp_entry], called with the sender's addresses of a message: for an
    address that is not that of a single host it returns [ERR_ARG] and changes nothing.
    Otherwise, with [r] what [etharp_find_entry] returns: if [r] is an error it is returned;
    if it is an entry, that entry is stable afterwards, with the hardware address, age 0 and
    no packet, every other entry is as before, and the packet that was queued on it, if there
    was one, has been given to the driver exactly once, in a frame to the hardware
    address, and is sent unless the driver reports an error; a packet without room in front for the
    Ethernet header cannot be sent.  It is released in any case.  The
    invariant of the link layer is kept. *)
Theorem etharp_update_correct E n nif ip hw flags st :
  link_ok E st -> ethernet_netif st n -> netifs st !! n = Some nif -> length hw = 6%nat ->
  exists err st', etharp_update_arp_entry n ip hw flags st = Ok (err, st') /\ link_ok E st' /\
    if ip4_addr_isany_val ip || ip4_addr_isbroadcast ip nif || ip4_addr_ismulticast ip then err = ERR_ARG /\ st' = st
    else exists r st1, etharp_find_entry (Some ip) flags n st = Ok (r, st1) /\
      if r <? 0 then err = r /\ st' = st1
      else err = ERR_OK /\ exists e, slot st1 r ip n e /\ answered n nif r hw e st1 st'.
Proof.
  intros H Hn Hnif Hhw. destruct (etharp_update_find E n nif ip hw flags st H Hn Hnif Hhw) as (err & st' & E1 & F & Hx).
  exists err, st'. split; [done|]. split; [apply F|done].
Qed.

End etharp.

(** ** The properties at a concrete cache *)

Section example.
#[local] Existing Instance example_PbufAlloc.

(** A packet of three bytes waits for the address of 10.0.0.2. *)
Definition example_pending : etharp_entry :=
  {| ent_q := 0x10000; ent_ipaddr := 0x0200000a; ent_netif := 0x300; ent_ethaddr := ethzero; ent_ctime := 2; ent_state := 1 |}.
Definition example_table : list etharp_entry := <[3%nat := example_pending]> (replicate 10 empty_entry).
Definition example_arp_net : @net (memp_state * Z) := with_arp_table (with_pm example_net example_pm1) example_table.

Lemma example_table_lookup i e : example_table !! i = Some e -> (i = 3%nat /\ e = example_pending) \/ (e = empty_entry).
Proof.
  unfold example_table. intros [(-> & -> & _)|[_ [-> _]%lookup_replicate]]%list_lookup_insert_Some; [by left|by right].
Qed.
Lemma example_arp_ethernet : ethernet_netif (Link := example_driver) example_arp_net 0x300.
Proof. split; [done|]. split; [done|]. by exists example_nif. Qed.
Lemma example_arp_ok : link_ok (Link := example_driver) ∅ example_arp_net.
Proof.
  split; try done.
  - replace (queued (arp_table example_arp_net)) with ({[+ 0x10000 +]} : gmultiset Z) by (by vm_compute).
    rewrite (left_id_L ∅ (⊎)). exact example_refs1.
  - apply Forall_lookup. intros i e [[-> ->]| ->]%example_table_lookup; [|by split].
    split; try done. intros _. exact example_arp_ethernet.
  - intros i j e e' [[-> ->]| ->]%example_table_lookup [[-> ->]| ->]%example_table_lookup Ho Ho'; try done; by destruct Ho || destruct Ho'.
  - intros n nif Hn. simpl in Hn. apply lookup_singleton_Some in Hn as [<- <-]. split; [by exists []|done].
  - exists [0x300]. split; [done|]. split; [done|]. by exists example_nif.
Qed.

Lemma etharp_find_entry_correct_witness :
  exists r st', etharp_find_entry no_custom (Some 0x0200000a) ETHARP_FLAG_FIND_ONLY 0x300 example_arp_net = Ok (r, st') /\
    link_ok (Link := example_driver) ∅ st' /\ frames st' = [] /\
    find_result (Some 0x0200000a) ETHARP_FLAG_FIND_ONLY 0x300 example_arp_net r st'.
Proof.
  exact (etharp_find_entry_correct no_custom (Link := example_driver) ∅ (Some 0x0200000a) ETHARP_FLAG_FIND_ONLY 0x300
    example_arp_net example_arp_ok).
Defined.

(** The answer of 10.0.0.2. *)
Lemma etharp_update_correct_witness :
  exists err st',
    etharp_update_arp_entry (Link := example_driver) no_custom 0x300 0x0200000a [2; 0; 0; 0; 0; 2] ETHARP_FLAG_FIND_ONLY example_arp_net
      = Ok (err, st') /\ link_ok (Link := example_driver) ∅ st' /\
    exists r st1, etharp_find_entry no_custom (Some 0x0200000a) ETHARP_FLAG_FIND_ONLY 0x300 example_arp_net = Ok (r, st1) /\
      if r <? 0 then err = r /\ st' = st1
      else err = ERR_OK /\ exists e, slot st1 r 0x0200000a 0x300 e /\
        answered (Link := example_driver) 0x300 example_nif r [2; 0; 0; 0; 0; 2] e st1 st'.
Proof.
  exact (etharp_update_correct no_custom (Link := example_driver) ∅ 0x300 example_nif 0x0200000a [2; 0; 0; 0; 0; 2]
    ETHARP_FLAG_FIND_ONLY example_arp_net example_arp_ok example_arp_ethernet eq_refl eq_refl).
Defined.

(** After five seconds without one the packet is given up. *)
Lemma etharp_cache_expires_witness :
  exists st', etharp_ticks (Link := example_driver) no_custom zeros 5 example_arp_net = Ok (tt, st') /\
    link_ok (Link := example_driver) ∅ st' /\
    (ARP_MAXAGE <= 5 -> all_empty (arp_table st') /\ queued (arp_table st') = ∅) /\
    (ARP_MAXPENDING <= 5 -> forall i e, arp_table example_arp_net !! i = Some e ->
       ent_state e = ETHARP_STATE_PENDING -> exists e', arp_table st' !! i = Some e' /\
         ent_state e' = ETHARP_STATE_EMPTY /\ ent_q e' = 0).
Proof.
  exact (etharp_cache_expires no_custom zeros (Link := example_driver) ∅ 5 example_arp_net example_arp_ok).
Defined.
End example.
