(* ===== verification/EtharpIo.v ===== *)
(** * Packets through the ARP cache

    What [etharp_output], [etharp_query] and [etharp_input] of Etharp.v do to a
    packet and to the cache: a packet is sent, queued or dropped, the cache learns
    from messages and answers them, and the invariant of the link layer is kept by
    every operation. *)

From stdpp Require Import gmultiset.
From S2P Require Import Prelude Def Ip4Addr Memp Mem Pbuf PbufData PbufHeap Ethernet Link Acd Etharp.

Set Default Proof Using "Type".

(** The cache has ten entries. *)
Lemma multiplicity_queued q t : (multiplicity q (queued t) <= length t)%nat.
Proof.
  induction t as [|e t IH]; [change (queued []) with (∅ : gmultiset Z); by rewrite multiplicity_empty|]. rewrite queued_cons, multiplicity_disj_union. simpl.
  assert (multiplicity q (hold (ent_q e)) <= 1)%nat; [|lia]. unfold hold. destruct (ent_q e =? 0).
  - rewrite multiplicity_empty. lia.
  - rewrite multiplicity_singleton. case_decide; lia.
Qed.

Section io.
Context {S : Type} `{!PbufAlloc S}.
Abbreviation state := (@net S).
Abbreviation M := (ST state).
Context (call_custom_free : Z -> Z -> ST (@pstate S) unit) (garbage : Z -> Z).
Context {Link : LinkDriver}.

(** A packet that can be sent: held by the caller and not in the cache already,
    the first of its chain, without empty pbufs, and with room in its counter. *)
Definition sendable (E : gmultiset Z) (st : state) (q : Z) (l : list (Z * pbuf)) : Prop :=
  packet (pbufs (pm st)) l /\ l <> [] /\ head_addr l = q /\ solid l /\ indeg (pbufs (pm st)) q = 0 /\
  private E st q /\ Z.of_nat (multiplicity q E) < 245.

(** A pbuf of the packet has data that must be copied before the caller returns. *)
Definition needs_copy (l : list (Z * pbuf)) : bool := existsb (fun x => PBUF_NEEDS_COPY x.2) l.
(** Two packets with the same room in front, that both need a copy, or neither does. *)
Definition alike (l l' : list (Z * pbuf)) : Prop :=
  (forall k, head_room k l' <-> head_room k l) /\ needs_copy l' = needs_copy l.
Lemma same_alike l l' : Forall2 same_pbuf l l' -> alike l l'.
Proof.
  intros H. destruct (same_pbuf_total _ _ H) as (Ht & _ & _). split.
  - intros k. unfold head_room. destruct H as [|[a b] [a' b'] l l' [Ha [r Hr]] _]; [done|]. simpl in Ha, Hr. subst a' b'.
    change (contiguous (with_ref b r)) with (contiguous b). change (payload (with_ref b r)) with (payload b). by rewrite Ht.
  - clear Ht. induction H as [|x y l l' [_ [r Hr]] _ IH]; [done|]. unfold needs_copy in *. simpl. rewrite IH, Hr. done.
Qed.

Lemma sendable_follows E st st' q l : link_ok E st -> follows E st st' -> sendable E st q l ->
  exists l', sendable E st' q l' /\ data (pm st') l' = data (pm st) l /\ alike l l'.
Proof.
  intros H Hf (Hl & Hne & Hh & Hs & Hi & Hp & Hm). pose proof (fol_calm _ _ _ Hf) as Hc.
  destruct (calm_packet _ _ _ l Hc) as (l' & Hl' & H2); [by rewrite Hh|done|].
  exists l'. split; [|split; [eapply calm_data; try done; [apply H|by rewrite Hh]|by apply same_alike]]. destruct (same_pbuf_total _ _ H2) as (_ & Eh & _).
  split; [done|]. split; [intros ->; by inversion H2; subst|]. split; [congruence|]. split; [|split; [|split; [by apply (fol_private _ _ _ Hf)|done]]].
  - clear -Hs H2. induction H2 as [|x y l l' [_ [r Hr]] _ IH]; [constructor|]. apply Forall_cons in Hs as [? Hs].
    constructor; [by rewrite Hr|by apply IH].
  - destruct Hc as (_ & _ & Hc). pose proof (indeg_nonneg (pbufs (pm st')) q).
    assert (q <> 0) by (destruct l as [|[a b] l]; [done|]; destruct Hl as (? & _); simpl in *; congruence).
    specialize (Hc q ltac:(done)). lia.
Qed.

(** What sending, queueing or dropping the packet [q] leaves. *)
Record lends (q : Z) (E : gmultiset Z) (st st' : state) : Prop := {
  lend_ok : link_ok E st';
  lend_calm : calm (fun x => private E st x /\ x <> q) (pm st) (pm st');
  lend_private x : x <> q -> private E st x -> private E st' x;
  lend_netifs : netifs st' = netifs st;
  lend_acds : acds st' = acds st;
  lend_frames : frames st `prefix_of` frames st'
}.

Lemma follows_lends q E st st1 st2 :
  follows E st st1 -> netifs st1 = netifs st -> acds st1 = acds st -> lends q E st1 st2 -> lends q E st st2.
Proof.
  intros [H1 Hc Hp _ _ _ Hf] En Ea [H2 Hc' Hp' En' Ea' Hf'].
  split; [done| | |congruence|congruence|by etrans].
  - eapply calm_trans; [eapply calm_weaken; [exact Hc|by intros ? [? _]]|].
    eapply calm_weaken; [exact Hc'|]. intros x [? ?]. split; [by apply Hp|done].
  - intros x Hx Hpx. by apply Hp', Hp.
Qed.
Lemma lends_follows q E st st' :
  follows E st st' -> netifs st' = netifs st -> acds st' = acds st -> lends q E st st'.
Proof.
  intros [H1 Hc Hp _ _ _ Hf] En Ea. split; try done; [|by auto].
  eapply calm_weaken; [exact Hc|by intros ? [? _]].
Qed.

Lemma ethernet_output_lends E n q l src dst ty st : link_ok E st -> ethernet_netif st n -> sendable E st q l ->
  length src = 6%nat -> length dst = 6%nat ->
  exists err st', ethernet_output n q src dst ty st = Ok (err, st') /\ lends q E st st' /\
    arp_table st' = arp_table st /\ link_sent (head_room SIZEOF_ETH_HDR l) n (eth_frame dst src ty (data (pm st) l)) err st st'.
Proof.
  intros H Hn (Hl & Hne & Hh & _ & Hi & _) Hsrc Hdst. destruct l as [|[a b] l]; [done|]. simpl in Hh. subst a.
  destruct (ethernet_output_spec _ n q b l src dst ty st (link_refs _ _ H) Hl Hi Hn Hsrc Hdst)
    as (err & st' & E1 & Hok & Hc & Ht & Hs).
  exists err, st'. split; [done|]. pose proof Ht as (Tn & Tl & Ta & Tt & Tc). split; [|done].
  pose proof Hc as (_ & _ & Hin). split; try done; [by eapply link_kept| | |].
  - eapply calm_weaken; [exact Hc|by intros ? [_ ?]].
  - intros x _ [? Hx]. split; [done|]. by rewrite Tt.
  - destruct (link_sent_frames _ _ _ _ _ _ Hs) as (out & -> & _). by eexists.
Qed.

(** The hint. *)
Lemma addrhint_follows E i st : link_ok E st -> 0 <= i < ARP_TABLE_SIZE ->
  follows E st (with_cached_entry st (u8 i)).
Proof.
  intros H Hi. rewrite (u8_id i) by (unfold is_u8, ARP_TABLE_SIZE in *; lia).
  pose proof (link_entries _ _ H). destruct H. apply follows_cache; try done; [apply calm_refl|].
  eapply Forall_impl; [done|]. intros e. apply entry_ok_mono; [by intros ? ?|done].
Qed.

(** A request for the address of a used entry. *)
Definition rerequested (e : etharp_entry) : etharp_entry := with_state e ETHARP_STATE_STABLE_REREQUESTING_1.

Lemma rerequest_follows E i e st : link_ok E st -> ent_at st i e -> ETHARP_STATE_STABLE <= ent_state e ->
  follows E st (set_ent st i (rerequested e)).
Proof.
  intros H He Hs. pose proof (link_entries _ _ H) as Hents. rewrite Forall_lookup in Hents.
  destruct (Hents _ _ (proj2 He)) as [Hst Hage Hpa Hhw Hnif Hq]. unfold ETHARP_STATE_STABLE in Hs.
  assert (Ho : occupied e) by (unfold occupied, ETHARP_STATE_EMPTY; lia).
  eapply follows_touch; try done. split; simpl; try done.
  - intros _. by apply Hnif.
  - intros Hq0. destruct (Hq Hq0) as [Hx _]. unfold ETHARP_STATE_PENDING in Hx. lia.
Qed.

(** A step that keeps the interfaces and modules. *)
Definition steps (E : gmultiset Z) (st st' : state) : Prop :=
  follows E st st' /\ netifs st' = netifs st /\ acds st' = acds st.
Lemma steps_refl E st : link_ok E st -> steps E st st.
Proof. intros H. split; [by apply follows_refl|done]. Qed.
Lemma steps_trans E st1 st2 st3 : steps E st1 st2 -> steps E st2 st3 -> steps E st1 st3.
Proof. intros (F1 & N1 & A1) (F2 & N2 & A2). split; [by eapply follows_trans|]. split; congruence. Qed.
Lemma steps_lends q E st1 st2 st3 : steps E st1 st2 -> lends q E st2 st3 -> lends q E st1 st3.
Proof. intros (F1 & N1 & A1) L. by eapply follows_lends. Qed.
Lemma message_steps E n bs err st st' : link_ok E st -> message_sent (E ⊎ queued (arp_table st)) st st' ->
  arp_sent call_custom_free garbage n bs err st st' -> steps E st st' /\ arp_table st' = arp_table st.
Proof.
  intros H Hm Hs. pose proof Hm as (_ & _ & Tn & _ & Ta & Tt & _). split; [|done].
  split; [|done]. apply follows_message; [done|done|]. by eapply arp_sent_prefix.
Qed.

(** A request for the hardware address of [ip], to [hw]. *)
Definition request_to (nif : netif) (ip : Z) (hw : list Z) : list Z :=
  eth_frame hw (nif_hwaddr nif) ETHTYPE_ARP (arp_message ARP_REQUEST (nif_hwaddr nif) (nif_ip (nif_addrs nif)) ethzero ip).
(** The request that is due when a stable entry is used: an old one is asked for again. *)
Definition rerequest (nif : netif) (e : etharp_entry) : option (list Z) :=
  if ent_state e =? ETHARP_STATE_STABLE then
    if ARP_AGE_REREQUEST_USED_BROADCAST <=? ent_ctime e then Some (request_to nif (ent_ipaddr e) ethbroadcast)
    else if ARP_AGE_REREQUEST_USED_UNICAST <=? ent_ctime e then Some (request_to nif (ent_ipaddr e) (ent_ethaddr e))
    else None
  else None.
(** The request, if there is one, has been sent, or there was no memory for it. *)
Definition asked (n : Z) (req : option (list Z)) (st st' : state) : Prop :=
  match req with
  | None => frames st' = frames st
  | Some bs => exists st0 res, frames st0 = frames st /\ arp_sent call_custom_free garbage n bs res st0 st'
  end.
Lemma asked_prefix n req st st' : asked n req st st' -> frames st `prefix_of` frames st'.
Proof. destruct req as [bs|]; [intros (st0 & res & <- & Hs); by eapply arp_sent_prefix|by intros ->]. Qed.
Lemma asked_same n req st1 st1' st2 st2' : frames st2 = frames st1 -> frames st2' = frames st1' ->
  asked n req st1 st1' -> asked n req st2 st2'.
Proof.
  intros Hf Hf'. destruct req as [bs|]; [|by simpl; rewrite Hf, Hf'].
  intros (st0 & res & H0 & Hs). exists st0, res. split; [congruence|]. by eapply arp_sent_end.
Qed.

(** A request for the address of a used entry, and its new state if it was sent. *)
Lemma rerequest_spec E n i e st (m : M Z) bs : link_ok E st -> ent_at st i e -> ETHARP_STATE_STABLE <= ent_state e ->
  (exists err st', m st = Ok (err, st') /\ message_sent (E ⊎ queued (arp_table st)) st st' /\
    arp_sent call_custom_free garbage n bs err st st') ->
  exists st', (err ← m; if err =? ERR_OK then ent_upd i (fun e => with_state e ETHARP_STATE_STABLE_REREQUESTING_1) else mret tt) st
      = Ok (tt, st') /\ steps E st st' /\
    (exists e', ent_at st' i e' /\ ent_ethaddr e' = ent_ethaddr e) /\ asked n (Some bs) st st'.
Proof.
  intros H He Hs (err & st1 & E1 & Hm & Hsent). rewrite (st_bind_ok _ _ _ _ _ E1).
  destruct (message_steps _ _ _ _ _ _ H Hm Hsent) as [F1 T1].
  assert (He1 : ent_at st1 i e) by (unfold ent_at; by rewrite T1).
  destruct (err =? ERR_OK).
  - rewrite (ent_upd_ok i e) by done. eexists. split; [done|].
    split; [eapply steps_trans; [done|]; split; [apply rerequest_follows; [apply F1|done|done]|done]|].
    split; [|exists st, err; split; [done|]; by eapply arp_sent_end]. exists (rerequested e). split; [by eapply set_ent_at|done].
  - exists st1. split; [done|]. split; [done|]. split; [by exists e|]. by exists st, err.
Qed.

Lemma output_to_arp_index_spec E n nif q l i e st :
  link_ok E st -> ethernet_netif st n -> netifs st !! n = Some nif -> sendable E st q l ->
  ent_at st i e -> ETHARP_STATE_STABLE <= ent_state e ->
  exists err st', etharp_output_to_arp_index call_custom_free garbage n q i st = Ok (err, st') /\ lends q E st st' /\
    exists st1, asked n (rerequest nif e) st st1 /\
      link_sent (head_room SIZEOF_ETH_HDR l) n (eth_frame (ent_ethaddr e) (nif_hwaddr nif) ETHTYPE_IP (data (pm st) l)) err st1 st'.
Proof.
  intros H Hn Hnif Hq He Hs. unfold etharp_output_to_arp_index. rewrite (ent_get_bind i e) by done.
  rewrite sassert_bind by lia. pose proof (link_entries _ _ H) as Hents. rewrite Forall_lookup in Hents.
  destruct (Hents _ _ (proj2 He)) as [_ _ _ Hhw _ _].
  assert (Hnhw : length (nif_hwaddr nif) = 6%nat) by (destruct Hn as (_ & _ & x & ? & _ & ?); congruence).
  match goal with |- context [(?m ≫= ?f) st] =>
    assert (Hreq : exists st1, m st = Ok (tt, st1) /\ steps E st st1 /\
      (exists e', ent_at st1 i e' /\ ent_ethaddr e' = ent_ethaddr e) /\ asked n (rerequest nif e) st st1) end.
  { assert (Hnone : exists st1, (mret tt : M unit) st = Ok (tt, st1) /\ steps E st st1 /\
      (exists e', ent_at st1 i e' /\ ent_ethaddr e' = ent_ethaddr e) /\ asked n None st st1).
    { exists st. split; [done|]. split; [by apply steps_refl|]. split; [by exists e|done]. }
    unfold rerequest. destruct (ent_state e =? ETHARP_STATE_STABLE); [|done]. destruct (ARP_AGE_REREQUEST_USED_BROADCAST <=? ent_ctime e).
    - by apply (rerequest_spec E n i e st (etharp_request call_custom_free garbage n (ent_ipaddr e)) _ H He Hs
        (etharp_request_spec call_custom_free garbage _ n nif _ st (link_refs _ _ H) Hn Hnif)).
    - destruct (ARP_AGE_REREQUEST_USED_UNICAST <=? ent_ctime e); [|done].
      by apply (rerequest_spec E n i e st (etharp_request_dst call_custom_free garbage n (ent_ipaddr e) (ent_ethaddr e)) _ H He Hs
        (etharp_request_dst_spec call_custom_free garbage _ n nif _ _ st (link_refs _ _ H) Hn Hnif Hhw)). }
  destruct Hreq as (st1 & E1 & F1 & (e' & He' & Hee) & Hf). rewrite (st_bind_ok _ _ _ _ _ E1).
  pose proof F1 as (F & N & _). rewrite (netif_get_bind _ nif) by congruence. rewrite (ent_get_bind i e') by done.
  destruct (sendable_follows E st st1 q l H F Hq) as (l' & Hq' & Hd & Hal & _).
  destruct (ethernet_output_lends E n q l' (nif_hwaddr nif) (ent_ethaddr e') ETHTYPE_IP st1) as (err & st2 & E2 & L2 & _ & S2);
    [apply F|by apply (fol_usable _ _ _ F)|done|done|congruence|].
  exists err, st2. split; [done|]. split; [by eapply steps_lends|]. exists st1. split; [done|].
  rewrite <-Hee, <-Hd. eapply link_sent_iff; [apply Hal|exact S2].
Qed.

(** ** [etharp_query] *)

Lemma copy_needed_ok fuel l (st : state) : packet (pbufs (pm st)) l -> solid l -> (length l < fuel)%nat ->
  copy_needed_loop fuel (head_addr l) st = Ok (needs_copy l, st).
Proof.
  revert l. induction fuel as [|fuel IH]; intros l Hp Hs Hf; [lia|]. cbn [copy_needed_loop].
  destruct l as [|[a b] l]; [done|]. cbn [head_addr]. unfold needs_copy. cbn [existsb]. destruct Hp as (Ha & Hb & Hp). replace (a =? 0) with false by lia.
  rewrite (on_pm_get_bind _ _ _ _ Hb). apply Forall_cons in Hs as [Hb0 Hs]. simpl in Hb0.
  rewrite sassert_bind.
  2:{ simpl. destruct l as [|[a' b'] l]; [by rewrite orb_true_r|]. apply Forall_cons in Hs as [? Hs].
      pose proof (total_nonneg _ (solid_len _ Hs)). simpl in *. lia. }
  change (PBUF_NEEDS_COPY (link b l)) with (PBUF_NEEDS_COPY b). simpl. destruct (PBUF_NEEDS_COPY b); [done|].
  apply IH; [done|done|]. simpl in Hf. lia.
Qed.

(** Entry [i] holds the packet [p], whose data is [bs]. *)
Definition holds_packet (st : state) (p : Z) (bs : list Z) : Prop :=
  exists l, packet (pbufs (pm st)) l /\ l <> [] /\ head_addr l = p /\ data (pm st) l = bs.

(** [pbuf_clone] of a packet with the data [bs] has found no memory. *)
Definition uncopied (bs : list Z) (st : state) : Prop :=
  exists q l st0 s', packet (pbufs (pm st0)) l /\ head_addr l = q /\ data (pm st0) l = bs /\ frames st0 = frames st /\
    pbuf_clone call_custom_free garbage PBUF_LINK PBUF_RAM q (pm st0) = Ok (0, s').
Definition queues (copy : Prop) (i : Z) (e : etharp_entry) (bs : list Z) (err : Z) (st st' : state) : Prop :=
  (err = ERR_OK /\ exists p, p <> 0 /\ arp_table st' = <[Z.to_nat i := with_q e p]> (arp_table st) /\ holds_packet st' p bs) \/
  (err = ERR_MEM /\ arp_table st' = arp_table st /\ copy /\ uncopied bs st).

(** The packet that was queued before is dropped. *)
Lemma drop_queued_spec E i e p st s1 :
  ent_at st i e -> p <> 0 -> refs_ok ({[+ p +]} ⊎ (E ⊎ queued (arp_table st))) s1 ->
  let t' := <[Z.to_nat i := with_q e p]> (arp_table st) in
  exists s2, (if negb (ent_q e =? 0) then _ ← on_pm (pbuf_free call_custom_free (ent_q e)); mret tt else mret tt)
      (with_pm st s1) = Ok (tt, with_pm st s2) /\ refs_ok (E ⊎ queued t') s2 /\ calm (.∈ E ⊎ queued t') s1 s2.
Proof.
  intros He Hp0 Hr t'. pose proof (queued_insert _ _ _ (with_q e p) (proj2 He)) as Hq. fold t' in Hq.
  change (ent_q (with_q e p)) with p in Hq. rewrite (hold_0 p Hp0) in Hq.
  destruct (Z.eqb_spec (ent_q e) 0) as [E0|Hq0]; cbn [negb].
  - exists s1. split; [done|]. split; [|apply calm_refl]. unfold hold in Hq. rewrite E0 in Hq. simpl in Hq.
    rewrite (right_id_L ∅ (⊎)) in Hq. by rewrite Hq, multiset_rot.
  - rewrite (hold_0 _ Hq0) in Hq. assert (Hr2 : refs_ok ({[+ ent_q e +]} ⊎ (E ⊎ queued t')) s1).
    { by rewrite <-multiset_rot, Hq, multiset_rot. }
    destruct (pbuf_free_heap call_custom_free _ _ _ Hr2) as (k & s2 & Ef & Hok & Hcc).
    exists s2. rewrite (on_pm_bind _ _ (with_pm st s1) _ _ Ef). done.
Qed.

(** The packet [p] takes its place. *)
Lemma queue_entry_spec E copy i e p q lp bs st s1 :
  link_ok E st -> ent_at st i e -> ent_state e = ETHARP_STATE_PENDING ->
  refs_ok ({[+ p +]} ⊎ (E ⊎ queued (arp_table st))) s1 ->
  calm (fun x => private E st x /\ x <> q) (pm st) s1 -> indeg (pbufs s1) p = 0 -> p <> 0 -> (p = q \/ p ∉ E) ->
  packet (pbufs s1) lp -> lp <> [] -> head_addr lp = p -> data s1 lp = bs ->
  exists err st', (e ← ent_get i;
      _ ← (if negb (ent_q e =? 0) then _ ← on_pm (pbuf_free call_custom_free (ent_q e)); mret tt else mret tt);
      _ ← ent_upd i (fun e => with_q e p); mret ERR_OK) (with_pm st s1) = Ok (err, st') /\ lends q E st st' /\
    frames st' = frames st /\ queues copy i e bs err st st'.
Proof.
  intros H He Hs Hr Hc Hi Hp0 Hpq Hlp Hne Hhd Hd. rewrite (ent_get_bind i e) by done.
  destruct (drop_queued_spec E i e p st s1 He Hp0 Hr) as (s2 & Ef & Hr2 & Hc2). rewrite (st_bind_ok _ _ _ _ _ Ef).
  assert (He2 : ent_at (with_pm st s2) i e) by done. rewrite (st_bind_ok _ _ _ _ _ (ent_upd_ok i e _ _ He2)).
  pose proof (queued_insert _ _ _ (with_q e p) (proj2 He)) as Hq. set (t' := <[_ := _]> _) in *.
  change (ent_q (with_q e p)) with p in Hq. rewrite (hold_0 p Hp0) in Hq.
  assert (Hcc : calm (fun x => private E st x /\ x <> q) (pm st) s2).
  { eapply calm_trans; [exact Hc|]. eapply calm_weaken; [exact Hc2|]. intros x [[? _] _]. by apply multiset_left. }
  eexists ERR_OK, _. split; [done|]. split; [|split; [done|]].
  - pose proof (link_entries _ _ H) as Hents. rewrite Forall_lookup in Hents.
    destruct (Hents _ _ (proj2 He)) as [Hst Hage Hpa Hhw Hnif _].
    assert (Hk : link_ok E (set_ent (with_pm st s2) i (with_q e p))).
    { apply (link_entry E st s2 (Z.to_nat i) e); [done|apply He|done|apply Hcc| |].
      - split; try done. intros _. split; [done|]. simpl. destruct Hc2 as (_ & _ & Hc2). specialize (Hc2 p Hp0).
        pose proof (indeg_nonneg (pbufs s2) p). lia.
      - eapply unique_same; [apply H|apply He|done..]. }
    split; try done. intros x Hxq [HE Hnx]. split; [done|]. simpl. intros Hin.
    apply (multiset_in _ _ _ _ _ Hq) in Hin as [?| ->]; [done|]. by destruct Hpq.
  - left. split; [done|]. exists p. split; [done|]. split; [done|]. assert (Hph : (fun x => x ∈ E ⊎ queued t') (head_addr lp)).
    { rewrite Hhd. apply multiset_right, (queued_in t' (Z.to_nat i) (with_q e p)).
      - apply list_lookup_insert_eq. eapply lookup_lt_Some, He.
      - simpl. rewrite (hold_0 p Hp0). by apply gmultiset_elem_of_singleton. }
    destruct (calm_packet _ _ _ _ Hc2 Hph Hlp) as (l2 & Hl2 & H2). destruct (same_pbuf_total _ _ H2) as (_ & Eh & _).
    exists l2. simpl. split; [done|]. split; [intros ->; inversion H2; by subst|]. split; [congruence|].
    rewrite <-Hd. by eapply calm_data.
Qed.

Lemma on_pm_ok {A} (m : ST (@pstate S) A) (st : state) a s : m (pm st) = Ok (a, s) -> on_pm m st = Ok (a, with_pm st s).
Proof. unfold on_pm. by intros ->. Qed.

(** One more reference is no change to a packet. *)
Lemma ref_calm (s : @pstate S) q b : pbufs s !! q = Some b ->
  calm (fun _ => True) s (with_pbufs s (<[q := with_ref b (ref b + 1)]> (pbufs s))).
Proof.
  intros Hb. apply calm_all; try done.
  - intros x [c Hc] _. split; [done|]. intros c' Hc'. simpl. destruct (decide (q = x)) as [->|Hne].
    + rewrite lookup_insert_eq. assert (c' = b) as -> by congruence. by eexists.
    + rewrite lookup_insert_ne by done. exists c'. split; [done|]. by destruct c'.
  - intros x _. simpl. by rewrite (indeg_update _ _ b).
Qed.

Lemma lends_stats q E st st' f : lends q E st st' -> lends q E st (with_stats st' f).
Proof.
  intros [H Hc Hp Hn Ha Hf]. split; try done. eapply link_kept; [done|apply H|done|done].
Qed.
Lemma link_stats E st f : link_ok E st -> link_ok E (with_stats st f).
Proof. intros H. eapply link_kept; [done|apply H|done|done]. Qed.
Lemma steps_stats E st f : link_ok E st -> steps E st (with_stats st f).
Proof.
  intros H. split; [|done]. assert (H' : link_ok E (with_stats st f)) by (eapply link_kept; [done|apply H|done|done]).
  destruct H'. apply follows_cache; try done. apply calm_refl.
Qed.

(** The copy, or one more reference. *)
Lemma queue_copy_spec E i e q l st : link_ok E st -> ent_at st i e -> ent_state e = ETHARP_STATE_PENDING -> sendable E st q l ->
  exists p s1, pbuf_clone call_custom_free garbage PBUF_LINK PBUF_RAM q (pm st) = Ok (p, s1) /\
    ((p = 0 /\ lends q E st (with_pm st s1)) \/
     (p <> 0 /\ exists lp, refs_ok ({[+ p +]} ⊎ (E ⊎ queued (arp_table st))) s1 /\
      calm (fun x => private E st x /\ x <> q) (pm st) s1 /\ indeg (pbufs s1) p = 0 /\ (p ∉ E) /\
      packet (pbufs s1) lp /\ lp <> [] /\ head_addr lp = p /\ data s1 lp = data (pm st) l)).
Proof.
  intros H He Hs (Hl & Hne & Hh & Hso & Hi & Hp & Hm). destruct l as [|[a b] l]; [done|]. simpl in Hh. subst a.
  destruct (pbuf_clone_heap call_custom_free garbage _ PBUF_LINK q b l (pm st) (link_refs _ _ H) Hl Hso)
    as (p & s1 & E1 & [(-> & Hok & Hun)|(c & Hok & Hnone & Hpb & Hnx & Hd & Hc)]);
    eexists _, s1; (split; [done|]); [left|right].
  - split; [done|]. pose proof Hun as (_ & Hup & _). apply lends_follows; try done.
    assert (Hk : link_ok E (with_pm st s1)) by (eapply link_kept; [done|done|done|simpl; by rewrite Hup]).
    destruct Hk. apply follows_cache; try done. by apply unchanged_calm.
  - assert (Hpc : pbufs s1 !! p = Some c) by (rewrite Hpb; apply lookup_insert_eq).
    assert (Hp0 := heap_nonzero _ _ _ _ Hok Hpc). split; [done|].
    destruct (heap_absent _ _ p (link_refs _ _ H) Hnone Hp0) as [Hi0 HE].
    destruct (refs_packet _ _ _ _ Hok Hpc) as (lc & Hlc & Elc).
    assert (lc = []) as ->.
    { destruct lc as [|[a' b'] lc]; [done|]. rewrite Elc in Hnx. simpl in Hnx. by destruct Hlc as (_ & _ & ? & _). }
    exists [(p, c)]. split; [done|]. split; [by eapply calm_weaken|]. split; [|split; [|done]].
    + rewrite Hpb, indeg_insert_new, decide_False by congruence. lia.
    + intros Hin. apply (multiset_left E (queued (arp_table st))) in Hin. rewrite elem_of_multiplicity in Hin. lia.
Qed.
Lemma queue_ref_spec E i e q l st : link_ok E st -> ent_at st i e -> ent_state e = ETHARP_STATE_PENDING -> sendable E st q l ->
  exists s1 lp, pbuf_ref q (pm st) = Ok (tt, s1) /\ refs_ok ({[+ q +]} ⊎ (E ⊎ queued (arp_table st))) s1 /\
    calm (fun x => private E st x /\ x <> q) (pm st) s1 /\ indeg (pbufs s1) q = 0 /\ q <> 0 /\
    packet (pbufs s1) lp /\ lp <> [] /\ head_addr lp = q /\ data s1 lp = data (pm st) l.
Proof.
  intros H He Hs (Hl & Hne & Hh & Hso & Hi & Hp & Hm). destruct l as [|[a b] l]; [done|]. simpl in Hh. subst a.
  assert (Hb : pbufs (pm st) !! q = Some (link b l)) by apply Hl.
  assert (Hrf : ref (link b l) < 255).
  { destruct (heap_nodes _ _ (link_refs _ _ H) _ _ Hb) as [_ Hr _ _ _]. rewrite Hr, Hi, multiplicity_disj_union.
    pose proof (multiplicity_queued q (arp_table st)) as Hx. rewrite (link_size _ _ H) in Hx. unfold ARP_TABLE_SIZE in Hx. lia. }
  destruct (pbuf_ref_heap _ q _ (pm st) (link_refs _ _ H) Hb Hrf) as [E1 Hok].
  set (s1 := with_pbufs _ _) in *. pose proof (ref_calm (pm st) q _ Hb : calm _ _ s1) as Hc.
  destruct (calm_packet _ _ _ _ Hc I Hl) as (l1 & Hl1 & H2). destruct (same_pbuf_total _ _ H2) as (_ & Eh & _).
  exists s1, l1. split; [done|]. split; [done|]. split; [by eapply calm_weaken|].
  split; [simpl; by rewrite (indeg_update _ _ (link b l))|]. split; [apply Hl|]. split; [done|].
  split; [intros ->; by inversion H2|]. split; [done|]. eapply (calm_data _ (fun _ => True)); try done. apply H.
Qed.

Lemma query_queue_spec E i e q l st : link_ok E st -> ent_at st i e -> ent_state e = ETHARP_STATE_PENDING ->
  sendable E st q l ->
  exists err st', query_queue call_custom_free garbage i q st = Ok (err, st') /\ lends q E st st' /\
    frames st' = frames st /\ queues (needs_copy l = true) i e (data (pm st) l) err st st'.
Proof.
  intros H He Hs (Hl & Hne & Hh & Hso & Hi & Hp & Hm). unfold query_queue.
  rewrite (on_pm_bind _ _ _ (Datatypes.S (size (pbufs (pm st)))) (pm st)) by done.
  replace (with_pm st (pm st)) with st by (by destruct st). pose proof (packet_length _ _ Hl).
  rewrite <-Hh. rewrite (st_bind_ok _ _ _ _ _ (copy_needed_ok (Datatypes.S (size (pbufs (pm st)))) l st Hl Hso ltac:(lia))), Hh.
  assert (Hq : sendable E st q l) by done. destruct (needs_copy l) eqn:Ec.
  - destruct (queue_copy_spec E i e q l st H He Hs Hq) as (p & s1 & E1 & [[-> L]|(Hp0 & lp & ? & ? & ? & ? & ?)]);
      rewrite (on_pm_bind _ _ _ _ _ E1).
    + eexists ERR_MEM, _. split; [done|]. split; [by apply lends_stats|]. split; [done|]. right. split; [done|]. split; [done|]. split; [done|]. by exists q, l, st, s1.
    + replace (p =? 0) with false by lia. apply (queue_entry_spec E _ i e p q lp); try done; [by right|tauto..].
  - destruct (queue_ref_spec E i e q l st H He Hs Hq) as (s1 & lp & E1 & ? & ? & ? & Hq0 & ? & ?).
    rewrite (st_bind_ok _ _ _ q (with_pm st s1)) by (by rewrite (on_pm_bind _ _ _ _ _ E1)). replace (q =? 0) with false by lia.
    apply (queue_entry_spec E _ i e q q lp); try done; [by left|tauto..].
Qed.

(** An entry as the calls of [etharp_query] leave it: only its age and the state of a
    new one change. *)
Definition kin (e e' : etharp_entry) : Prop :=
  ent_ipaddr e' = ent_ipaddr e /\ ent_netif e' = ent_netif e /\ ent_ethaddr e' = ent_ethaddr e /\
  ent_state e' = (if ent_state e =? ETHARP_STATE_EMPTY then ETHARP_STATE_PENDING else ent_state e).
Lemma kin_refl e : occupied e -> kin e e.
Proof. intros Ho. repeat split. by destruct (Z.eqb_spec (ent_state e) ETHARP_STATE_EMPTY). Qed.
Lemma kin_trans e1 e2 e3 : kin e1 e2 -> occupied e2 -> kin e2 e3 -> kin e1 e3.
Proof.
  intros (I1 & N1 & A1 & S1) Ho (I2 & N2 & A2 & S2). repeat split; try congruence. rewrite S2, S1 in *.
  unfold occupied in Ho. by destruct (Z.eqb_spec (ent_state e1) ETHARP_STATE_EMPTY); [|destruct (Z.eqb_spec (ent_state e1) ETHARP_STATE_EMPTY)].
Qed.

Lemma mark_pending_spec E n r ip e st : link_ok E st -> slot st r ip n e -> ethernet_netif st n ->
  (~ occupied e -> ent_q e = 0 /\ ent_ctime e = 0) ->
  exists st' e', (if ent_state e =? ETHARP_STATE_EMPTY then
      _ ← ent_upd r (fun e => with_state e ETHARP_STATE_PENDING); ent_upd r (fun e => with_netif e n)
    else mret tt) st = Ok (tt, st') /\ steps E st st' /\ ent_at st' r e' /\ occupied e' /\ kin e e' /\ frames st' = frames st.
Proof.
  intros H Hs Hn Hnew. pose proof (slot_at _ _ _ _ _ Hs) as He. pose proof (slot_netif _ _ _ _ _ Hs) as Hnif.
  destruct (Z.eqb_spec (ent_state e) ETHARP_STATE_EMPTY) as [E0|E0].
  2:{ exists st, e. split; [done|]. split; [by apply steps_refl|]. split; [done|]. split; [done|]. split; [by apply kin_refl|done]. }
  destruct Hnew as [Hq Hct]; [intros Ho; by destruct Ho|].
  rewrite (st_bind_ok _ _ _ _ _ (ent_upd_ok r e _ _ He)), (ent_upd_ok r _ _ _ (set_ent_at _ r _ _ He)), set_ent_set.
  set (e1 := with_netif _ _). exists (set_ent st r e1), e1. split; [done|].
  pose proof (link_entries _ _ H) as Hents. rewrite Forall_lookup in Hents. destruct (Hents _ _ (proj2 He)) as [_ _ _ Hhw _ _].
  split; [|split; [by eapply set_ent_at|split; [done|split; [|done]]]].
  2:{ repeat split; [done|]. by rewrite E0. } split; [|done].
  replace (set_ent st r e1) with (set_ent (with_pm st (pm st)) r e1) by (by destruct st).
  apply (follows_entry E st (pm st) (Z.to_nat r) e); try done; [apply He| |apply calm_refl| | |].
  - rewrite (queued_same _ _ e); [apply H|apply He|done].
  - simpl. rewrite Hq. by intros ? _ ?%gmultiset_elem_of_empty.
  - split; simpl; rewrite ?Hct; try done.
  - eapply unique_insert; [apply H|apply He|]. intros _ j x Hj Hne Hx H1 H2. eapply (slot_only _ _ _ _ _ Hs j x); try done.
    rewrite H1. apply Hs.
Qed.

Lemma query_request_spec E n nif ip i e b st : link_ok E st -> ethernet_netif st n -> netifs st !! n = Some nif ->
  ent_at st i e -> occupied e ->
  exists res st' e', query_request call_custom_free garbage n ip i b st = Ok (res, st') /\ steps E st st' /\
    ent_at st' i e' /\ occupied e' /\ kin e e' /\ asked n (Some (request_to nif ip ethbroadcast)) st st'.
Proof.
  intros H Hn Hnif He Ho. unfold query_request.
  destruct (etharp_request_spec call_custom_free garbage _ n nif ip st (link_refs _ _ H) Hn Hnif) as (res & st1 & E1 & Hm & Hs).
  rewrite (st_bind_ok _ _ _ _ _ E1).
  assert (Hf : asked n (Some (request_to nif ip ethbroadcast)) st st1) by (by exists st, res).
  destruct (message_steps _ _ _ _ _ _ H Hm Hs) as [F1 T1]. assert (He1 : ent_at st1 i e) by (unfold ent_at; by rewrite T1).
  destruct (res =? ERR_OK); cbn [negb].
  2:{ exists res, st1, e. split; [done|]. split; [done|]. split; [done|]. split; [done|]. split; [by apply kin_refl|done]. }
  rewrite (ent_get_bind i e) by done.
  destruct (Z.eqb_spec (ent_state e) ETHARP_STATE_PENDING) as [Ep|Ep]; [destruct b|]; cbn [andb negb];
    rewrite ?mret_bind; try (exists res, st1, e; repeat (split; [by try apply kin_refl|]); done).
  rewrite (st_bind_ok _ _ _ _ _ (ent_upd_ok i e _ _ He1)). exists res, (set_ent st1 i (with_ctime e 0)), (with_ctime e 0).
  split; [done|]. split; [|split; [by eapply set_ent_at|split; [done|split; [exact (kin_refl e Ho)|done]]]].
  eapply steps_trans; [done|]. split; [|done].
  pose proof (link_entries _ _ (fol_ok _ _ _ (proj1 F1))) as Hents. rewrite Forall_lookup in Hents.
  destruct (Hents _ _ (proj2 He1)) as [? ? ? ? ? ?]. by apply (follows_touch E i e); [apply F1|..|split].
Qed.

(** The cache knows the hardware address of [ip]; it has asked for it; it does not know [ip]. *)
Definition cached (st : state) (n ip : Z) (hw : list Z) : Prop :=
  exists i e, arp_table st !! i = Some e /\ ETHARP_STATE_STABLE <= ent_state e /\ ent_ipaddr e = ip /\
    ent_netif e = n /\ ent_ethaddr e = hw.
Definition awaited (st : state) (n ip : Z) : Prop :=
  exists i e, arp_table st !! i = Some e /\ ent_state e = ETHARP_STATE_PENDING /\ ent_ipaddr e = ip /\ ent_netif e = n.
Definition unknown (st : state) (n ip : Z) : Prop :=
  forall i e, arp_table st !! i = Some e -> occupied e -> ent_ipaddr e = ip -> ent_netif e = n -> False.

(** A packet for [ip], whose hardware address is not known, waits with the data [bs] in a pending entry; the address has been asked for,
    if the entry is new.  Or the packet needs a copy and there was no memory for it. *)
Definition parked (copy : Prop) (n : Z) (nif : netif) (ip : Z) (bs : list Z) (err : Z) (st st' : state) : Prop :=
  exists st1, ((awaited st n ip /\ asked n None st st1) \/
               (unknown st n ip /\ asked n (Some (request_to nif ip ethbroadcast)) st st1)) /\
    frames st' = frames st1 /\
    ((err = ERR_OK /\ exists i e, arp_table st' !! i = Some e /\ ent_state e = ETHARP_STATE_PENDING /\
        ent_ipaddr e = ip /\ ent_netif e = n /\ holds_packet st' (ent_q e) bs) \/
     (err = ERR_MEM /\ copy /\ uncopied bs st1)).

(** What [etharp_query] does with a packet. *)
Definition queried (room copy : Prop) (n : Z) (nif : netif) (ip : Z) (bs : list Z) (err : Z) (st st' : state) : Prop :=
  (exists hw, cached st n ip hw /\ link_sent room n (eth_frame hw (nif_hwaddr nif) ETHTYPE_IP bs) err st st') \/
  parked copy n nif ip bs err st st'.

(** What became of a packet for [ip] with the data [bs].  If the cache has the address, the packet was given to the driver
    in a frame to it, after a request if the entry is old; otherwise it is parked. *)
Definition dispatched (room copy : Prop) (n : Z) (nif : netif) (ip : Z) (bs : list Z) (err : Z) (st st' : state) : Prop :=
  (exists i e st1, arp_table st !! i = Some e /\ ETHARP_STATE_STABLE <= ent_state e /\ ent_ipaddr e = ip /\ ent_netif e = n /\
     asked n (rerequest nif e) st st1 /\
     link_sent room n (eth_frame (ent_ethaddr e) (nif_hwaddr nif) ETHTYPE_IP bs) err st1 st') \/
  ((forall hw, ~ cached st n ip hw) /\ parked copy n nif ip bs err st st').

(** An entry that is in use has been found, not made. *)
Lemma find_cached E n ip flags st r st1 e : link_ok E st -> n <> 0 -> find_result (Some ip) flags n st r st1 ->
  slot st1 r ip n e -> (occupied e -> st1 = st) -> ETHARP_STATE_STABLE <= ent_state e -> cached st n ip (ent_ethaddr e).
Proof.
  intros H Hn Hf Hs Hst He. unfold ETHARP_STATE_STABLE in He. rewrite <-Hst by (unfold occupied, ETHARP_STATE_EMPTY; lia).
  exists (Z.to_nat r), e. split; [apply Hs|]. split; [done|]. split; [apply Hs|]. split; [apply Hs|done].
Qed.
Lemma find_hard ip n (st st' : state) r : find_result ip ETHARP_FLAG_TRY_HARD n st r st' -> 0 <= r.
Proof.
  intros Hf. inversion Hf as [i|? [Hx|[_ Hx]]|i e ? ? ? ? []|i s' ? ? ? ? (? & ? & _)]; subst; try done. lia.
Qed.

(** The last part of [etharp_query]: [e] is the entry, in use, for the address. *)
Lemma query_send_spec E n nif ip i e q l res st : link_ok E st -> ethernet_netif st n -> netifs st !! n = Some nif ->
  ent_at st i e -> i < ARP_TABLE_SIZE -> occupied e -> ent_ipaddr e = ip -> ent_netif e = n -> sendable E st q l ->
  exists err st', (e ← ent_get i;
    if ETHARP_STATE_STABLE <=? ent_state e then
      _ ← ETHARP_SET_ADDRHINT i; e ← ent_get i; ethernet_output n q (nif_hwaddr nif) (ent_ethaddr e) ETHTYPE_IP
    else if ent_state e =? ETHARP_STATE_PENDING then query_queue call_custom_free garbage i q
    else mret res) st = Ok (err, st') /\ lends q E st st' /\
    ((ETHARP_STATE_STABLE <= ent_state e /\
      link_sent (head_room SIZEOF_ETH_HDR l) n (eth_frame (ent_ethaddr e) (nif_hwaddr nif) ETHTYPE_IP (data (pm st) l)) err st st') \/
     (ent_state e = ETHARP_STATE_PENDING /\ frames st' = frames st /\
      ((err = ERR_OK /\ exists i e, arp_table st' !! i = Some e /\ ent_state e = ETHARP_STATE_PENDING /\
          ent_ipaddr e = ip /\ ent_netif e = n /\ holds_packet st' (ent_q e) (data (pm st) l)) \/
       (err = ERR_MEM /\ needs_copy l = true /\ uncopied (data (pm st) l) st)))).
Proof.
  intros H Hn Hnif He Hi Ho Hip Hen Hq. rewrite (ent_get_bind i e) by done.
  assert (Hnhw : length (nif_hwaddr nif) = 6%nat) by (destruct Hn as (_ & _ & x & ? & _ & ?); congruence).
  pose proof (link_entries _ _ H) as Hents. rewrite Forall_lookup in Hents. destruct (Hents _ _ (proj2 He)) as [Hst _ _ Hhw _ _].
  destruct (Z.leb_spec ETHARP_STATE_STABLE (ent_state e)) as [Hs|Hs].
  - unfold ETHARP_SET_ADDRHINT. rewrite (st_bind_ok _ _ _ tt (with_cached_entry st (u8 i))) by done.
    rewrite (ent_get_bind i e) by done. pose proof (addrhint_follows E i st H (conj (proj1 He) Hi)) as F.
    destruct (sendable_follows E st _ q l H F Hq) as (l' & Hq' & Hd & Hal & _).
    destruct (ethernet_output_lends E n q l' (nif_hwaddr nif) (ent_ethaddr e) ETHTYPE_IP (with_cached_entry st (u8 i)))
      as (err & st' & E1 & L & _ & S1); [apply F|done|done|done|done|].
    exists err, st'. split; [done|]. split; [by eapply follows_lends|]. left. split; [done|]. rewrite <-Hd.
    eapply link_sent_iff; [apply Hal|]. by eapply link_sent_same; [..|exact S1].
  - assert (Ep : ent_state e = ETHARP_STATE_PENDING).
    { unfold occupied, ETHARP_STATE_EMPTY, ETHARP_STATE_STABLE, ETHARP_STATE_PENDING in *. lia. }
    replace (ent_state e =? ETHARP_STATE_PENDING) with true by lia.
    destruct (query_queue_spec E i e q l st H He Ep Hq) as (err & st' & E1 & L & Hf & Hr).
    exists err, st'. split; [done|]. split; [done|]. right. split; [done|]. split; [done|].
    destruct Hr as [(-> & p & Hp & Ht & Hh)|(-> & Ht & Hc & Hu)]; [left|by right].
    split; [done|]. exists (Z.to_nat i), (with_q e p). rewrite Ht.
    split; [|done]. apply list_lookup_insert_eq. eapply lookup_lt_Some, He.
Qed.

Definition unicast (ip : Z) (nif : netif) : bool :=
  negb (ip4_addr_isbroadcast ip nif || ip4_addr_ismulticast ip || ip4_addr_isany_val ip).

(** An entry that has been made: there was none. *)
Lemma find_unknown E ip flags n st r st1 e : link_ok E st -> n <> 0 -> find_result (Some ip) flags n st r st1 -> slot st1 r ip n e ->
  ~ occupied e -> unknown st n ip.
Proof.
  intros H Hn Hf Hs Ho.
  assert (Hx : no_match (arp_table st) (Some ip) n (Z.to_nat ARP_TABLE_SIZE) -> unknown st n ip).
  { intros Hno j x Hj Hox H1 H2. assert (Hjl := lookup_lt_Some _ _ _ Hj). rewrite (link_size _ _ H) in Hjl.
    pose proof (Hno j x Hjl Hj Hox) as Hm. by rewrite (proj2 (matches_spec ip n x Hn) (conj H1 H2)) in Hm. }
  destruct Hf as [i [(e' & He' & Ho' & _) _]|Hno _|i e0 Hno _ _ _ _|i s' Hno _ _ _ _]; try (by apply Hx).
  pose proof (slot_at _ _ _ _ _ Hs) as [_ He]. rewrite Nat2Z.id in He. by assert (e' = e) as -> by congruence.
Qed.

Lemma cached_back E n ip flags r e e3 st st1 st3 hw : link_ok E st -> n <> 0 ->
  find_result (Some ip) flags n st r st1 -> slot st1 r ip n e -> (occupied e -> st1 = st) ->
  ent_at st3 r e3 -> occupied e3 -> kin e e3 -> link_ok E st3 -> cached st3 n ip hw -> cached st n ip hw.
Proof.
  intros H Hn Hf Hs Hst He3 Ho3 (I3 & N3 & A3 & T3) H3 (j & x & Hj & Hxs & Hxi & Hxn & <-).
  assert (j = Z.to_nat r) as ->.
  { apply (link_unique _ _ H3 j (Z.to_nat r) x e3); [done|apply He3| |done| |].
    - unfold occupied, ETHARP_STATE_EMPTY, ETHARP_STATE_STABLE in *. lia.
    - rewrite I3, Hxi. symmetry. apply Hs.
    - rewrite N3, Hxn. symmetry. apply Hs. }
  assert (x = e3) as -> by (destruct He3; congruence). rewrite A3. eapply find_cached; try done.
  rewrite T3 in Hxs. unfold ETHARP_STATE_STABLE, ETHARP_STATE_PENDING, ETHARP_STATE_EMPTY in *.
  destruct (Z.eqb_spec (ent_state e) 0); lia.
Qed.

(** The parts of [etharp_query] together: [e] is the entry that was found or made in [st1], [e3] the same entry when the packet is looked at. *)
Lemma query_result E n nif ip r l l' e e3 st st1 st2 st3 st' err : link_ok E st -> n <> 0 ->
  slot st1 r ip n e -> (occupied e -> st1 = st) -> (~ occupied e -> unknown st n ip) -> kin e e3 -> alike l l' ->
  frames st2 = frames st ->
  asked n (if ent_state e =? ETHARP_STATE_EMPTY then Some (request_to nif ip ethbroadcast) else None) st2 st3 ->
  ((ETHARP_STATE_STABLE <= ent_state e3 /\
    link_sent (head_room SIZEOF_ETH_HDR l') n (eth_frame (ent_ethaddr e3) (nif_hwaddr nif) ETHTYPE_IP (data (pm st) l)) err st3 st') \/
   (ent_state e3 = ETHARP_STATE_PENDING /\ frames st' = frames st3 /\
    ((err = ERR_OK /\ exists i e, arp_table st' !! i = Some e /\ ent_state e = ETHARP_STATE_PENDING /\
        ent_ipaddr e = ip /\ ent_netif e = n /\ holds_packet st' (ent_q e) (data (pm st) l)) \/
     (err = ERR_MEM /\ needs_copy l' = true /\ uncopied (data (pm st) l) st3)))) ->
  queried (head_room SIZEOF_ETH_HDR l) (needs_copy l = true) n nif ip (data (pm st) l) err st st'.
Proof.
  intros H Hn Hs Hst Hnew (_ & _ & A3 & T3) [Hroom Hcopy] Hf Hask Hr. pose proof (slot_at _ _ _ _ _ Hs) as [_ He].
  unfold occupied in *. destruct (Z.eqb_spec (ent_state e) ETHARP_STATE_EMPTY) as [E0|E0].
  - destruct Hr as [[Hx _]|(_ & Hf' & Hw)]; [by rewrite T3 in Hx|]. right. exists st3. rewrite Hcopy in Hw. split; [|done].
    right. split; [apply Hnew; intros Ho; by apply Ho|]. by eapply asked_same; [..|exact Hask].
  - rewrite Hst in He by done. simpl in Hask. destruct Hr as [[Hx Hsent]|(Hp & Hf' & Hw)].
    + left. exists (ent_ethaddr e3). split.
      * exists (Z.to_nat r), e. rewrite <-T3, A3. split; [done|]. split; [done|]. split; [apply Hs|]. split; [apply Hs|done].
      * eapply link_sent_iff; [apply Hroom|]. eapply link_sent_same; [| |exact Hsent]; congruence.
    + right. exists st3. rewrite Hcopy in Hw. split; [|done]. left. split; [|simpl; congruence].
      exists (Z.to_nat r), e. rewrite <-T3. split; [done|]. split; [done|]. split; apply Hs.
Qed.

Lemma etharp_query_spec E n nif ip q l st : link_ok E st -> ethernet_netif st n -> netifs st !! n = Some nif ->
  q = 0 \/ sendable E st q l ->
  exists err st', etharp_query call_custom_free garbage n ip q st = Ok (err, st') /\ lends q E st st' /\
    (unicast ip nif = false -> err = ERR_ARG /\ st' = st) /\
    (unicast ip nif = true -> q <> 0 ->
     queried (head_room SIZEOF_ETH_HDR l) (needs_copy l = true) n nif ip (data (pm st) l) err st st').
Proof.
  intros H Hn Hnif Hq. pose proof Hn as (Hn0 & _). unfold etharp_query, unicast. rewrite (netif_get_bind _ nif) by done.
  destruct (_ || _) eqn:Hu.
  { eexists ERR_ARG, st. split; [done|]. split; [by apply lends_follows; [apply follows_refl|..]|done]. }
  destruct (etharp_find_entry_spec call_custom_free E (Some ip) ETHARP_FLAG_TRY_HARD n st H) as (r & st1 & E1 & F1 & Hf).
  rewrite (st_bind_ok _ _ _ _ _ E1). pose proof (find_hard _ _ _ _ _ Hf) as Hr. replace (r <? 0) with false by lia.
  destruct (find_slot E _ _ _ _ _ _ H Hn0 Hf Hr) as (e & Hs & Hst & Hnew). pose proof (slot_at _ _ _ _ _ Hs) as He.
  pose proof (slot_lt _ _ _ _ _ Hs) as Hrt. unfold ARP_TABLE_SIZE in Hrt.
  rewrite sassert_bind by (unfold NETIF_ADDR_IDX_MAX; lia). rewrite (ent_get_bind r e) by done.
  pose proof (fol_ok _ _ _ F1) as H1. pose proof (fol_usable _ _ _ F1 _ Hn) as Hn1.
  assert (S1 : steps E st st1) by (split; [done|]; split; [by eapply find_netifs|by destruct Hf]).
  destruct (mark_pending_spec E n r ip e st1 H1 Hs Hn1 Hnew) as (st2 & e2 & E2 & S2 & He2 & Ho2 & Hk2 & Hf2).
  rewrite (st_bind_ok _ _ _ _ _ E2), (ent_get_bind r e2) by done.
  assert (S12 : steps E st st2) by (by eapply steps_trans). pose proof (fol_ok _ _ _ (proj1 S12)) as H2.
  pose proof (link_entries _ _ H2) as Hents. rewrite Forall_lookup in Hents. destruct (Hents _ _ (proj2 He2)) as [Hst2 _ _ _ _ _].
  rewrite sassert_bind by (unfold occupied, ETHARP_STATE_EMPTY, ETHARP_STATE_STABLE, ETHARP_STATE_PENDING in *; lia).
  assert (Hnif2 : netifs st2 !! n = Some nif) by (by rewrite (proj1 (proj2 S12))).
  match goal with |- context [(?m ≫= ?f) st2] =>
    assert (Hreq : exists res st3 e3, m st2 = Ok (res, st3) /\ steps E st2 st3 /\ ent_at st3 r e3 /\ occupied e3 /\
      kin e2 e3 /\ (q <> 0 -> asked n (if ent_state e =? ETHARP_STATE_EMPTY then Some (request_to nif ip ethbroadcast) else None) st2 st3)) end.
  { destruct ((ent_state e =? ETHARP_STATE_EMPTY) || (q =? 0)) eqn:Enew.
    - destruct (query_request_spec E n nif ip r e2 (ent_state e =? ETHARP_STATE_EMPTY) st2) as (res & st3 & e3 & E3 & S3 & ? & ? & ? & Hask);
        try done; [by apply (fol_usable _ _ _ (proj1 S12))|].
      exists res, st3, e3. do 5 (split; [done|]). intros Hq0. apply orb_true_iff in Enew as [->|Eq]; [done|lia].
    - exists ERR_MEM, st2, e2. split; [done|]. split; [by apply steps_refl|]. split; [done|]. split; [done|]. split; [by apply kin_refl|].
      apply orb_false_iff in Enew as [-> _]. done. }
  destruct Hreq as (res & st3 & e3 & E3 & S3 & He3 & Ho3 & Hk3 & Hask). rewrite (st_bind_ok _ _ _ _ _ E3).
  assert (S13 : steps E st st3) by (by eapply steps_trans). destruct (Z.eqb_spec q 0) as [->|Hq0].
  { exists res, st3. split; [done|]. split; [destruct S13 as (? & ? & ?); by apply lends_follows|]. done. }
  destruct Hq as [?|Hq]; [done|]. destruct (sendable_follows E st st3 q l H (proj1 S13) Hq) as (l' & Hq' & Hd & Hal).
  pose proof (kin_trans _ _ _ Hk2 Ho2 Hk3) as Hk. pose proof Hk as (I3 & N3 & A3 & T3).
  assert (Hip : ent_ipaddr e3 = ip) by (rewrite I3; apply Hs). assert (Hen : ent_netif e3 = n) by (rewrite N3; apply Hs).
  destruct (query_send_spec E n nif ip r e3 q l' res st3) as (err & st' & E4 & L & D); try done;
    [apply S13|by apply (fol_usable _ _ _ (proj1 S13))|by rewrite (proj1 (proj2 S13))|].
  exists err, st'. split; [done|]. split; [by eapply steps_lends|]. split; [done|]. intros _ _.
  assert (Hf12 : frames st2 = frames st) by (rewrite Hf2; by eapply find_frames).
  apply (query_result E n nif ip r l l' e e3 st st1 st2 st3); try done; [by eapply find_unknown|by intros; apply Hask|by rewrite <-Hd].
Qed.

(** ** [etharp_output] *)

(** The Ethernet address of an IP multicast group. *)
Definition multicast_hw (ip : Z) : list Z :=
  let bs := le_bytes 4 ip in
  [LL_IP4_MULTICAST_ADDR_0; LL_IP4_MULTICAST_ADDR_1; LL_IP4_MULTICAST_ADDR_2; Z.land (nth 1 bs 0) 0x7f; nth 2 bs 0; nth 3 bs 0].

(** Where a packet for [ip] goes first: [None] without a route. *)
Definition next_hop (nif : netif) (ip : Z) : option Z :=
  if ip4_addr_net_eq ip (nif_ip (nif_addrs nif)) (nif_netmask (nif_addrs nif)) || ip4_addr_islinklocal ip then Some ip
  else if ip4_addr_isany_val (nif_gw nif) then None else Some (nif_gw nif).

Lemma stable_loop_spec E n ip m k st : link_ok E st -> (k + m = Z.to_nat ARP_TABLE_SIZE)%nat ->
  exists r, stable_loop (seqZ (Z.of_nat k) (Z.of_nat m)) n ip st = Ok (r, st) /\
    match r with
    | Some i => exists e, ent_at st i e /\ i < ARP_TABLE_SIZE /\ ETHARP_STATE_STABLE <= ent_state e /\ ent_ipaddr e = ip /\ ent_netif e = n
    | None => forall j e, (k <= j)%nat -> arp_table st !! j = Some e -> ETHARP_STATE_STABLE <= ent_state e -> ent_ipaddr e = ip -> ent_netif e <> n
    end.
Proof.
  intros H. revert k. induction m as [|m IH]; intros k Hk.
  { exists None. split; [done|]. intros j e Hj He. apply lookup_lt_Some in He. rewrite (link_size _ _ H) in He. lia. }
  rewrite seqZ_cons by lia. cbn [stable_loop].
  destruct (lookup_lt_is_Some_2 (arp_table st) k) as [e He]; [rewrite (link_size _ _ H); lia|].
  assert (Hat : ent_at st (Z.of_nat k) e) by (split; [lia|by rewrite Nat2Z.id]). rewrite (ent_get_bind _ e) by done.
  destruct (_ && _) eqn:Hc.
  - exists (Some (Z.of_nat k)). split; [done|]. exists e. split; [done|]. unfold ip4_addr_eq in Hc.
    apply andb_true_iff in Hc as [[? ?]%andb_true_iff ?]. lia.
  - replace (Z.succ (Z.of_nat k)) with (Z.of_nat (Datatypes.S k)) by lia.
    replace (Z.pred (Z.of_nat (Datatypes.S m))) with (Z.of_nat m) by lia.
    destruct (IH (Datatypes.S k)) as (r & Er & Hr); [lia|]. exists r. split; [done|]. destruct r; [done|].
    intros j x Hj Hx Hst Hip Hnif. destruct (decide (j = k)) as [->|Hne]; [|by apply (Hr j x); [lia|..]].
    assert (x = e) as -> by congruence. unfold ip4_addr_eq in Hc. lia.
Qed.

(** A stable entry of the address is used. *)
Lemma output_cached_spec E n nif ip q l i e st st0 : link_ok E st -> ethernet_netif st n -> netifs st !! n = Some nif ->
  sendable E st q l -> ent_at st i e -> ETHARP_STATE_STABLE <= ent_state e -> ent_ipaddr e = ip -> ent_netif e = n ->
  steps E st st0 -> arp_table st0 = arp_table st -> frames st0 = frames st ->
  exists err st', etharp_output_to_arp_index call_custom_free garbage n q i st0 = Ok (err, st') /\ lends q E st st' /\
    dispatched (head_room SIZEOF_ETH_HDR l) (needs_copy l = true) n nif ip (data (pm st) l) err st st'.
Proof.
  intros H Hn Hnif Hq He Hs Hip Hen S0 T0 F0. pose proof S0 as (F & N & A).
  destruct (sendable_follows E st st0 q l H F Hq) as (l' & Hq' & Hd & Hal & _).
  destruct (output_to_arp_index_spec E n nif q l' i e st0) as (err & st' & E1 & L & st1 & Hf & Hsent); try done;
    [apply F|by apply (fol_usable _ _ _ F)|by rewrite N|unfold ent_at; by rewrite T0|].
  exists err, st'. split; [done|]. split; [by eapply steps_lends|]. left. exists (Z.to_nat i), e, st1.
  split; [apply He|]. do 3 (split; [done|]). split; [by eapply asked_same; [| |exact Hf]|].
  rewrite <-Hd. eapply link_sent_iff; [apply Hal|exact Hsent].
Qed.

Lemma output_unicast_spec E n nif dst q l st : link_ok E st -> ethernet_netif st n -> netifs st !! n = Some nif ->
  sendable E st q l ->
  exists err st', output_unicast call_custom_free garbage n q dst st = Ok (err, st') /\ lends q E st st' /\
    (dispatched (head_room SIZEOF_ETH_HDR l) (needs_copy l = true) n nif dst (data (pm st) l) err st st' \/
     (unicast dst nif = false /\ (forall hw, ~ cached st n dst hw) /\ err = ERR_ARG /\ frames st' = frames st)).
Proof.
  intros H Hn Hnif Hq. unfold output_unicast.
  assert (Hq0 : q <> 0) by (destruct Hq as (Hl & ? & <- & _); destruct l as [|[]]; [done|apply Hl]).
  rewrite (st_bind_ok _ _ _ (etharp_cached_entry st) st) by done. pose proof (link_cached _ _ H) as Hc.
  destruct (lookup_lt_is_Some_2 (arp_table st) (Z.to_nat (etharp_cached_entry st))) as [e He].
  { rewrite (link_size _ _ H). unfold ARP_TABLE_SIZE in *. lia. }
  rewrite (ent_get_bind _ e) by (split; [lia|done]). destruct (_ && _) eqn:Ec.
  { apply andb_true_iff in Ec as [[Hs Hen]%andb_true_iff Hip]. unfold ip4_addr_eq in Hip.
    unfold STATS_INC. rewrite (st_bind_ok _ _ _ tt _ eq_refl). set (st0 := with_stats _ _).
    destruct (output_cached_spec E n nif dst q l (etharp_cached_entry st) e st st0) as (err & st' & E1 & L & D);
      try done; try lia; [split; [lia|done]|by apply steps_stats|].
    exists err, st'. split; [done|]. split; [done|by left]. }
  destruct (stable_loop_spec E n dst (Z.to_nat ARP_TABLE_SIZE) 0 st H eq_refl) as (r & Er & Hr).
  change (seqZ (Z.of_nat 0) (Z.of_nat (Z.to_nat ARP_TABLE_SIZE))) with indices in Er. rewrite (st_bind_ok _ _ _ _ _ Er).
  destruct r as [i|].
  - destruct Hr as (e' & He' & Hi & Hs & Hip & Hen). unfold ETHARP_SET_ADDRHINT. rewrite (st_bind_ok _ _ _ tt _ eq_refl).
    pose proof (addrhint_follows E i st H (conj (proj1 He') Hi)) as F.
    destruct (output_cached_spec E n nif dst q l i e' st (with_cached_entry st (u8 i))) as (err & st' & E1 & L & D); try done.
    exists err, st'. split; [done|]. split; [done|by left].
  - destruct (etharp_query_spec E n nif dst q l st) as (err & st' & E1 & L & D1 & D2); try done; [by right|].
    exists err, st'. split; [done|]. split; [done|].
    assert (Hno : forall hw, ~ cached st n dst hw).
    { intros hw (j & x & Hj & Hx & Hxi & Hxn & _). by apply (Hr j x); [lia|..]. }
    destruct (unicast dst nif).
    + left. destruct (D2 eq_refl Hq0) as [(hw & Hhw & _)|Hp]; [by destruct (Hno hw)|by right].
    + right. destruct (D1 eq_refl) as [-> ->]. done.
Qed.

Lemma etharp_output_spec E n nif ip q l st : link_ok E st -> ethernet_netif st n -> netifs st !! n = Some nif ->
  sendable E st q l ->
  exists err st', etharp_output call_custom_free garbage n q ip st = Ok (err, st') /\ lends q E st st' /\
    if ip4_addr_isbroadcast ip nif then link_sent (head_room SIZEOF_ETH_HDR l) n (eth_frame ethbroadcast (nif_hwaddr nif) ETHTYPE_IP (data (pm st) l)) err st st'
    else if ip4_addr_ismulticast ip then link_sent (head_room SIZEOF_ETH_HDR l) n (eth_frame (multicast_hw ip) (nif_hwaddr nif) ETHTYPE_IP (data (pm st) l)) err st st'
    else match next_hop nif ip with
         | None => err = ERR_RTE /\ st' = st
         | Some dst => dispatched (head_room SIZEOF_ETH_HDR l) (needs_copy l = true) n nif dst (data (pm st) l) err st st' \/
             (unicast dst nif = false /\ (forall hw, ~ cached st n dst hw) /\ err = ERR_ARG /\ frames st' = frames st)
         end.
Proof.
  intros H Hn Hnif Hq. pose proof Hn as (Hn0 & _).
  assert (Hnhw : length (nif_hwaddr nif) = 6%nat) by (destruct Hn as (_ & _ & x & ? & _ & ?); congruence).
  assert (Hq0 : q <> 0) by (destruct Hq as (Hl & ? & <- & _); destruct l as [|[]]; [done|apply Hl]).
  unfold etharp_output. rewrite !sassert_bind by lia. rewrite (netif_get_bind _ nif) by done.
  destruct (ip4_addr_isbroadcast ip nif).
  { destruct (ethernet_output_lends E n q l (nif_hwaddr nif) ethbroadcast ETHTYPE_IP st) as (err & st' & E1 & L & _ & ?); try done.
    by exists err, st'. }
  destruct (ip4_addr_ismulticast ip).
  { destruct (ethernet_output_lends E n q l (nif_hwaddr nif) (multicast_hw ip) ETHTYPE_IP st) as (err & st' & E1 & L & _ & ?); try done.
    by exists err, st'. }
  unfold next_hop. rewrite <-negb_orb. destruct (ip4_addr_net_eq _ _ _ || _); cbn [negb]; [by apply output_unicast_spec|].
  destruct (ip4_addr_isany_val (nif_gw nif)); cbn [negb]; [|by apply output_unicast_spec].
  eexists ERR_RTE, st. split; [done|]. split; [|done]. by apply lends_follows; [apply follows_refl|..].
Qed.

(** ** [etharp_input] *)

(** The 28 bytes of an ARP header at [x]. *)
Definition header (s : @pstate S) (x : ptr) (hs : list Z) : Prop :=
  exists bs, mem_obj s x = Some bs /\ 0 <= ptr_ofs x /\ ptr_ofs x + SIZEOF_ETHARP_HDR <= Z.of_nat (length bs) /\
    hs = slice (ptr_ofs x) SIZEOF_ETHARP_HDR bs.

Lemma header_read s x hs o k : header s x hs -> 0 <= o -> 0 <= k -> o + k <= SIZEOF_ETHARP_HDR ->
  read_mem (ptr_add x o) k s = Ok (slice o k hs, s).
Proof.
  intros (bs & Hb & H0 & Hl & ->) ? ? ?. rewrite (read_mem_ok _ _ _ _ bs) by (done || lia). by rewrite slice_slice by lia.
Qed.
Lemma header_read_bind {B} (st : state) x hs o k (f : list Z -> M B) : header (pm st) x hs -> 0 <= o -> 0 <= k ->
  o + k <= SIZEOF_ETHARP_HDR -> (on_pm (read_mem (ptr_add x o) k) ≫= f) st = f (slice o k hs) st.
Proof.
  intros Hh Ho Hk Hl. rewrite (on_pm_bind _ _ _ _ _ (header_read _ _ _ _ _ Hh Ho Hk Hl)).
  by destruct st.
Qed.

Definition field16 (hs : list Z) (o : Z) : Z := le_val (slice o 2 hs).
Definition field8 (hs : list Z) (o : Z) : Z := le_val (slice o 1 hs).
Definition addresses (hs : list Z) : arp_hdr :=
  {| hdr_shwaddr := slice 8 6 hs; hdr_sipaddr := le_val (slice 14 4 hs); hdr_dipaddr := le_val (slice 24 4 hs) |}.
(** A message for IPv4 over Ethernet. *)
Definition well_formed (hs : list Z) : bool :=
  (field16 hs 0 =? PP_HTONS LWIP_IANA_HWTYPE_ETHERNET) && (field8 hs 4 =? ETH_HWADDR_LEN) && (field8 hs 5 =? 4) &&
  (field16 hs 2 =? PP_HTONS ETHTYPE_IP).

Lemma read16_bind {B} (st : state) x hs o (f : Z -> M B) : header (pm st) x hs -> 0 <= o -> o + 2 <= SIZEOF_ETHARP_HDR ->
  (read16 x o ≫= f) st = f (field16 hs o) st.
Proof.
  intros Hh ? ?. assert (E : read16 x o st = Ok (field16 hs o, st)); [|by rewrite (st_bind_ok _ _ _ _ _ E)].
  unfold read16. by rewrite (header_read_bind st x hs) by (done || lia).
Qed.
Lemma read8_bind {B} (st : state) x hs o (f : Z -> M B) : header (pm st) x hs -> 0 <= o -> o + 1 <= SIZEOF_ETHARP_HDR ->
  (read8 x o ≫= f) st = f (field8 hs o) st.
Proof.
  intros Hh ? ?. assert (E : read8 x o st = Ok (field8 hs o, st)); [|by rewrite (st_bind_ok _ _ _ _ _ E)].
  unfold read8. by rewrite (header_read_bind st x hs) by (done || lia).
Qed.

Lemma arp_wrong_ok (st : state) x hs : header (pm st) x hs -> arp_wrong x st = Ok (negb (well_formed hs), st).
Proof.
  intros Hh. unfold arp_wrong, well_formed. rewrite (read16_bind st x hs) by done.
  destruct (field16 hs 0 =? _); [|done]. cbn [negb andb]. rewrite (read8_bind st x hs) by done.
  destruct (field8 hs 4 =? _); [|done]. cbn [negb andb]. rewrite (read8_bind st x hs) by done.
  destruct (field8 hs 5 =? _); [|done]. cbn [negb andb]. by rewrite (read16_bind st x hs) by done.
Qed.
Lemma read_addresses_ok (st : state) x hs : header (pm st) x hs -> read_addresses x st = Ok (addresses hs, st).
Proof. intros Hh. unfold read_addresses. by rewrite !(header_read_bind st x hs) by done. Qed.

(** The header of a packet that is not the cache's stays. *)
Lemma header_follows E st st' p b hs : link_ok E st -> follows E st st' -> private E st p ->
  pbufs (pm st) !! p = Some b -> 0 < len b -> header (pm st) (payload b) hs -> header (pm st') (payload b) hs.
Proof.
  intros H Hf Hp Hb Hl (bs & Hbs & Hrest). exists bs. split; [|done]. rewrite <-Hbs.
  destruct (fol_calm _ _ _ Hf) as (He & Hs & _). destruct (refs_packet _ _ _ _ (link_refs _ _ H) Hb) as (l & Hl' & _).
  destruct (Hs p) as [_ Ho]; [exists ((p, b) :: l); split; [done|]; split; [done|by left]|].
  destruct (Ho b Hb) as (? & _ & _ & Hown). eapply mem_obj_spared; try done. apply H.
Qed.

(** A reference to [p] is given up. *)
Lemma link_free E p st : link_ok ({[+ p +]} ⊎ E) st ->
  exists k s', pbuf_free call_custom_free p (pm st) = Ok (k, s') /\ link_ok E (with_pm st s') /\
    calm (.∈ E ⊎ queued (arp_table st)) (pm st) s'.
Proof.
  intros H. pose proof (link_refs _ _ H) as Hr. rewrite <-(assoc_L (⊎)) in Hr.
  destruct (pbuf_free_heap call_custom_free _ _ _ Hr) as (k & s' & Ef & Hok & Hc).
  exists k, s'. split; [done|]. split; [|done]. destruct H as [_ Hs He Hu Hcd Ha Hn]. split; try done.
  eapply Forall_impl; [exact He|]. intros e. apply entry_ok_mono; [by intros ? ?|apply Hc].
Qed.

Lemma update_steps E n nif ip hw flags st : link_ok E st -> ethernet_netif st n -> netifs st !! n = Some nif ->
  length hw = 6%nat ->
  exists err st', etharp_update_arp_entry call_custom_free n ip hw flags st = Ok (err, st') /\ follows E st st' /\
    netifs st' = netifs st.
Proof.
  intros H Hn Hnif Hhw.
  destruct (etharp_update_spec call_custom_free E n nif ip hw flags st H Hn Hnif Hhw) as (err & st' & E1 & F & Hx).
  exists err, st'. split; [done|]. split; [done|]. destruct (_ || _); [by destruct Hx as [_ ->]|].
  destruct Hx as (r & st1 & Hf & Hr). apply find_netifs in Hf. destruct (r <? 0); [by destruct Hr as [_ ->]|].
  destruct Hr as (_ & e & _ & _ & Hn' & _). congruence.
Qed.

Context (conflict_callback : Z -> Z -> acd_callback_enum_t -> M unit).
Context (Hcallback : callbacks_follow conflict_callback).

(** Whether the message is for, or from, this interface. *)
Definition for_us (nif : netif) (hs : list Z) : bool :=
  negb (ip4_addr_isany_val (nif_ip (nif_addrs nif))) && ip4_addr_eq (hdr_dipaddr (addresses hs)) (nif_ip (nif_addrs nif)).
Definition from_us (nif : netif) (hs : list Z) : bool :=
  negb (ip4_addr_isany_val (nif_ip (nif_addrs nif))) && ip4_addr_eq (hdr_sipaddr (addresses hs)) (nif_ip (nif_addrs nif)).

(** The answer to a request. *)
Definition reply_frame (nif : netif) (hs : list Z) : list Z :=
  eth_frame (hdr_shwaddr (addresses hs)) (nif_hwaddr nif) ETHTYPE_ARP
    (arp_message ARP_REPLY (nif_hwaddr nif) (nif_ip (nif_addrs nif)) (hdr_shwaddr (addresses hs)) (hdr_sipaddr (addresses hs))).
Definition replied (n : Z) (nif : netif) (hs : list Z) (st st' : state) : Prop :=
  if (field16 hs 6 =? PP_HTONS ARP_REQUEST) && (for_us nif hs && negb (from_us nif hs)) then
    exists err, etharp_raw call_custom_free garbage n (nif_hwaddr nif) (hdr_shwaddr (addresses hs)) (nif_hwaddr nif)
      (nif_ip (nif_addrs nif)) (hdr_shwaddr (addresses hs)) (hdr_sipaddr (addresses hs)) ARP_REPLY st = Ok (err, st') /\
      arp_sent call_custom_free garbage n (reply_frame nif hs) err st st'
  else frames st' = frames st.

Lemma shwaddr_length s x hs : header s x hs -> length (hdr_shwaddr (addresses hs)) = 6%nat.
Proof.
  intros (bs & _ & H0 & Hl & ->). unfold SIZEOF_ETHARP_HDR in *. simpl.
  rewrite slice_length; rewrite ?slice_length; lia.
Qed.

Lemma reply_spec E x n nif hs st : link_ok E st -> header (pm st) x hs -> ethernet_netif st n -> netifs st !! n = Some nif ->
  exists st', (opcode ← read16 x 6;
     if opcode =? PP_HTONS ARP_REQUEST then
       if for_us nif hs && negb (from_us nif hs) then
         h' ← read_addresses x;
         nif ← netif_get n;
         _ ← etharp_raw call_custom_free garbage n (nif_hwaddr nif) (hdr_shwaddr h') (nif_hwaddr nif)
               (nif_ip (nif_addrs nif)) (hdr_shwaddr h') (hdr_sipaddr (addresses hs)) ARP_REPLY;
         mret tt
       else mret tt
     else if opcode =? PP_HTONS ARP_REPLY then mret tt
     else STATS_INC etharp_err) st = Ok (tt, st') /\ steps E st st' /\ arp_table st' = arp_table st /\ replied n nif hs st st'.
Proof.
  intros H Hh Hn Hnif. unfold replied. rewrite (read16_bind st _ hs) by done.
  assert (Hnhw : length (nif_hwaddr nif) = 6%nat) by (destruct Hn as (_ & _ & y & ? & _ & ?); congruence).
  destruct (field16 hs 6 =? PP_HTONS ARP_REQUEST); cbn [andb].
  - destruct (for_us nif hs && negb (from_us nif hs)); [|exists st; split; [done|]; split; [by apply steps_refl|done]].
    rewrite (st_bind_ok _ _ _ _ _ (read_addresses_ok st _ _ Hh)), (netif_get_bind _ nif) by done.
    destruct (etharp_raw_spec call_custom_free garbage _ n (nif_hwaddr nif) (hdr_shwaddr (addresses hs)) (nif_hwaddr nif)
      (nif_ip (nif_addrs nif)) (hdr_shwaddr (addresses hs)) (hdr_sipaddr (addresses hs)) ARP_REPLY st (link_refs _ _ H))
      as (err & st' & E1 & Hm & Hs); try done; try (by eapply shwaddr_length).
    rewrite (st_bind_ok _ _ _ _ _ E1). exists st'. split; [done|].
    destruct (message_steps _ _ _ _ _ _ H Hm Hs) as [S1 T1]. split; [done|]. split; [done|]. by exists err.
  - destruct (field16 hs 6 =? PP_HTONS ARP_REPLY); eexists; (split; [done|]); (split; [|done]); [by apply steps_refl|by apply steps_stats].
Qed.

(** The steps of processing a message: conflict detection, the update of the cache,
    the answer, and the release of the packet. *)
Definition processed (n : Z) (hs : list Z) (st st' : state) : Prop :=
  exists f st1 nif err st2 st3,
    acd_arp_reply call_custom_free garbage conflict_callback n (addresses hs) (with_stats st f) = Ok (tt, st1) /\
    netifs st1 !! n = Some nif /\
    etharp_update_arp_entry call_custom_free n (hdr_sipaddr (addresses hs)) (hdr_shwaddr (addresses hs))
      (if for_us nif hs then ETHARP_FLAG_TRY_HARD else ETHARP_FLAG_FIND_ONLY) st1 = Ok (err, st2) /\
    replied n nif hs st2 st3 /\ arp_table st' = arp_table st2 /\ frames st' = frames st3.

Lemma etharp_input_spec E p b n hs st : let E1 := {[+ p +]} ⊎ E in
  link_ok E1 st -> private E1 st p -> pbufs (pm st) !! p = Some b -> 0 < len b -> header (pm st) (payload b) hs ->
  ethernet_netif st n ->
  exists st', etharp_input call_custom_free garbage conflict_callback p n st = Ok (tt, st') /\
    link_ok E st' /\ netifs_usable st st' /\ frames st `prefix_of` frames st' /\
    if well_formed hs then processed n hs st st' else arp_table st' = arp_table st /\ frames st' = frames st.
Proof using Hcallback.
  intros E1 H Hp Hb Hl Hh Hn. pose proof Hn as (Hn0 & _). unfold etharp_input. replace (n =? 0) with false by lia.
  rewrite (on_pm_get_bind _ b) by done. rewrite (st_bind_ok _ _ _ _ _ (arp_wrong_ok st _ _ Hh)).
  destruct (well_formed hs); cbn [negb].
  2:{ unfold STATS_INC. do 2 rewrite (st_bind_ok _ _ _ tt _ eq_refl).
      match goal with |- context [with_stats ?x ?f] => set (st0 := with_stats x f) end.
      assert (H0 : link_ok E1 st0) by (by do 2 apply link_stats).
      destruct (link_free E p st0 H0) as (k & s' & Ef & Hk & _). rewrite (on_pm_bind _ _ _ _ _ Ef).
      eexists. split; [done|]. split; [done|]. split; [by intros ? ?|]. done. }
  unfold STATS_INC at 1. rewrite (st_bind_ok _ _ _ tt _ eq_refl).
  match goal with |- context [with_stats st ?g] => set (f := g) end. set (st0 := with_stats st f).
  pose proof (proj1 (steps_stats E1 st f H)) as F0. assert (H0 : link_ok E1 st0) by apply F0.
  assert (Hh0 : header (pm st0) (payload b) hs) by done.
  rewrite (st_bind_ok _ _ _ _ _ (read_addresses_ok st0 _ _ Hh0)). pose proof Hn as (_ & _ & nif0 & Hnif0 & _).
  destruct (acd_arp_reply_runs call_custom_free garbage conflict_callback Hcallback E1 n (addresses hs) st0 H0)
    as ([] & st1 & Ea & F1); [by exists nif0|]. rewrite (st_bind_ok _ _ _ _ _ Ea).
  assert (F01 : follows E1 st st1) by (by eapply follows_trans).
  assert (Hh1 : header (pm st1) (payload b) hs) by (by eapply (header_follows E1 st st1 p b)).
  rewrite (st_bind_ok _ _ _ _ _ (read_addresses_ok st1 _ _ Hh1)). pose proof (fol_usable _ _ _ F01 _ Hn) as Hn1.
  pose proof Hn1 as (_ & _ & nif & Hnif & _). rewrite (netif_get_bind _ nif) by done.
  change (negb _ && ip4_addr_eq (hdr_dipaddr _) _) with (for_us nif hs).
  change (negb _ && ip4_addr_eq (hdr_sipaddr _) _) with (from_us nif hs).
  destruct (update_steps E1 n nif (hdr_sipaddr (addresses hs)) (hdr_shwaddr (addresses hs))
    (if for_us nif hs then ETHARP_FLAG_TRY_HARD else ETHARP_FLAG_FIND_ONLY) st1) as (err & st2 & Eu & F2 & N2);
    [apply F1|done|done|by eapply shwaddr_length|]. rewrite (st_bind_ok _ _ _ _ _ Eu).
  assert (F02 : follows E1 st st2) by (by eapply follows_trans).
  assert (Hh2 : header (pm st2) (payload b) hs) by (by eapply (header_follows E1 st st2 p b)).
  destruct (reply_spec E1 (payload b) n nif hs st2) as (st3 & Er & (F3 & _) & T3 & R3);
    [apply F2|done|by apply (fol_usable _ _ _ F2)|by rewrite N2|].
  destruct (link_free E p st3 (fol_ok _ _ _ F3)) as (k & s' & Ef & Hk & _).
  exists (with_pm st3 s'). split.
  { rewrite (read16_bind st2 _ hs) in Er |- * by done. rewrite (st_bind_ok _ _ _ _ _ Er). by rewrite (on_pm_bind _ _ _ _ _ Ef). }
  assert (F03 : follows E1 st st3) by (by eapply follows_trans).
  split; [done|]. split; [by intros m Hm; apply (fol_usable _ _ _ F03)|]. split; [apply F03|].
  exists f, st1, nif, err, st2, st3. by rewrite <-T3.
Qed.

(** ** [ethernet_input] *)

Context (ip4_input : Z -> Z -> M unit).

(** The flags and the interface of a pbuf. *)
Definition meta (b : pbuf) (fl ix : Z) : pbuf := with_if_idx (with_flags b fl) ix.
Definition marked (p : Z) (b : pbuf) (st st1 : state) : Prop :=
  exists fl ix, source_of (meta b fl ix) = source_of b /\ st1 = with_pm st (with_pbufs (pm st) (<[p := meta b fl ix]> (pbufs (pm st)))).
Lemma source_cast b fl fl' ix : Z.land fl' PBUF_FLAG_IS_CUSTOM = 0 -> source_of (meta b (Z.lor fl fl') ix) = source_of (meta b fl ix).
Proof. intros Hf. unfold source_of. simpl. by rewrite Z.land_lor_distr_l, Hf, Z.lor_0_r. Qed.
Lemma marked_refl p b st : pbufs (pm st) !! p = Some b -> marked p b st st.
Proof.
  intros Hb. exists (flags b), (if_idx b). replace (meta b (flags b) (if_idx b)) with b by (by destruct b).
  rewrite insert_id by done. split; [done|]. by destruct st as [[] ? ? ? ? ? ? ?].
Qed.
Lemma marked_upd p b st st1 f : marked p b st st1 ->
  (forall fl ix, exists fl' ix', f (meta b fl ix) = meta b fl' ix' /\ source_of (meta b fl' ix') = source_of (meta b fl ix)) ->
  exists st2, pb_upd p f st1 = Ok (tt, st2) /\ marked p b st st2.
Proof.
  intros (fl & ix & Hs & ->) Hf. destruct (Hf fl ix) as (fl' & ix' & Ef & Hs'). eexists. split.
  { unfold pb_upd. rewrite (on_pm_get_bind _ (meta b fl ix)) by apply lookup_insert_eq. rewrite Ef.
    unfold on_pm, pb_set. simpl. rewrite lookup_insert_eq. done. }
  exists fl', ix'. split; [congruence|]. simpl. by rewrite insert_insert_eq.
Qed.
(** The pbuf [p] is replaced by [b'], with the same place in its chain. *)
Lemma link_replace E st p b b' : link_ok E st -> pbufs (pm st) !! p = Some b -> next b' = next b ->
  refs_ok (E ⊎ queued (arp_table st)) (with_pbufs (pm st) (<[p := b']> (pbufs (pm st)))) ->
  link_ok E (with_pm st (with_pbufs (pm st) (<[p := b']> (pbufs (pm st))))) /\
  indeg (<[p := b']> (pbufs (pm st))) p = indeg (pbufs (pm st)) p.
Proof.
  intros H Hb Hn Hr. assert (Hi : forall x, indeg (<[p := b']> (pbufs (pm st))) x = indeg (pbufs (pm st)) x) by (intros x; by apply (indeg_update _ _ b)).
  split; [|done]. eapply link_kept; [exact H|exact Hr|done|]. intros q _. simpl. by rewrite Hi.
Qed.
Lemma marked_ok E p b (st st1 : state) : link_ok E st -> pbufs (pm st) !! p = Some b -> indeg (pbufs (pm st)) p = 0 -> marked p b st st1 ->
  link_ok E st1 /\ indeg (pbufs (pm st1)) p = 0 /\ tables_kept st st1 /\ frames st1 = frames st /\ own (pm st1) = own (pm st) /\ ext (pm st1) = ext (pm st) /\
  exists fl ix, pbufs (pm st1) !! p = Some (meta b fl ix).
Proof.
  intros H Hb Hi (fl & ix & Hs & ->). pose proof (link_refs _ _ H) as Hr. destruct (refs_packet _ _ _ _ Hr Hb) as (l & Hp & Eb).
  destruct (link_replace E st p b (meta b fl ix) H Hb) as [Hk Hi']; [done| |].
  - assert (El : meta b fl ix = link (meta b fl ix) l) by (rewrite Eb at 1; done). rewrite El.
    apply (heap_head _ _ p b); try done; [|by rewrite <-El; apply (node_stored _ _ _ _ (heap_nodes _ _ Hr p b Hb))].
    destruct (refs_sized _ _ _ _ _ Hr Hp) as [Hf Ht]. split; [inversion Hf; by constructor|done].
  - split; [done|]. split; [simpl; by rewrite Hi'|]. do 4 (split; [done|]). exists fl, ix. apply lookup_insert_eq.
Qed.

(** The first bytes of a pbuf. *)
Lemma front_read E s p b o k : refs_ok E s -> pbufs s !! p = Some b -> 0 < len b -> 0 <= o -> 0 <= k -> o + k <= len b ->
  read_mem (ptr_add (payload b) o) k s = Ok (slice o k (pbuf_bytes s b), s).
Proof.
  intros H Hb Hl Ho Hk Hok. destruct (refs_packet _ _ _ _ H Hb) as (l & Hp & _).
  pose proof (refs_readable _ _ _ H Hp) as Hrd. apply Forall_cons in Hrd as [[?|(bs & Hbs & H0 & H1)] _]; simpl in *; [lia|].
  rewrite (read_mem_ok _ _ _ _ bs) by (done || lia). unfold pbuf_bytes. rewrite Hbs. simpl. by rewrite slice_slice by lia.
Qed.

(** A frame that IP has nothing to do with: of at most 14 bytes, or of another type; an ARP message is complete. *)
Definition other_frame (st : state) (b : pbuf) : Prop :=
  SIZEOF_ETH_HDR < len b ->
  let type := le_val (slice 12 2 (pbuf_bytes (pm st) b)) in
  type <> PP_HTONS ETHTYPE_IP /\
  (type = PP_HTONS ETHTYPE_ARP -> exists hs, header (pm st) (ptr_add (payload b) SIZEOF_ETH_HDR) hs).

Lemma front_bind {B} E st p b o k (f : list Z -> M B) : link_ok E st -> pbufs (pm st) !! p = Some b -> 0 < len b -> 0 <= o -> 0 <= k -> o + k <= len b ->
  (on_pm (read_mem (ptr_add (payload b) o) k) ≫= f) st = f (slice o k (pbuf_bytes (pm st) b)) st.
Proof.
  intros H Hb Hl Ho Hk Hok. rewrite (on_pm_bind _ _ _ _ _ (front_read _ _ _ _ _ _ (link_refs _ _ H) Hb Hl Ho Hk Hok)).
  by replace (with_pm st (pm st)) with st by (by destruct st).
Qed.
Lemma frame_freed E p (st st1 : state) : link_ok ({[+ p +]} ⊎ E) st1 -> frames st1 = frames st ->
  exists r st', (_ ← on_pm (pbuf_free call_custom_free p); mret ERR_OK) st1 = Ok (r, st') /\ link_ok E st' /\ frames st `prefix_of` frames st'.
Proof.
  intros H Hf. destruct (link_free E p st1 H) as (k & s' & Ef & Hk & _). eexists _, _.
  split; [by rewrite (on_pm_bind _ _ _ _ _ Ef)|]. split; [done|]. simpl. by rewrite Hf.
Qed.
(** An ARP message behind the header of its frame. *)
Lemma frame_arp_spec E p b n hs (st st2 : state) : let E1 := {[+ p +]} ⊎ E in
  link_ok E1 st2 -> private E1 st2 p -> pbufs (pm st2) !! p = Some b -> indeg (pbufs (pm st2)) p = 0 -> ethernet_netif st2 n ->
  SIZEOF_ETH_HDR < len b -> header (pm st2) (ptr_add (payload b) SIZEOF_ETH_HDR) hs -> frames st2 = frames st ->
  exists r st', (failed ← on_pm (pbuf_remove_header p SIZEOF_ETH_HDR);
     if (failed : bool) then
       _ ← STATS_INC etharp_lenerr;
       _ ← STATS_INC etharp_drop;
       _ ← on_pm (pbuf_free call_custom_free p); mret ERR_OK
     else _ ← etharp_input call_custom_free garbage conflict_callback p n; mret ERR_OK) st2 = Ok (r, st') /\
    link_ok E st' /\ frames st `prefix_of` frames st'.
Proof using Hcallback.
  intros E1 H Hp Hb Hi Hn Hl Hh Hf.
  destruct (pbuf_remove_header_heap _ p b SIZEOF_ETH_HDR (pm st2) (link_refs _ _ H) Hb Hi ltac:(done))
    as [[? _]|(s3 & b3 & _ & Er & Hr3 & -> & Hpl & Hlen & _ & Hnx & _ & _)]; [lia|].
  rewrite (on_pm_bind _ _ _ _ _ Er). destruct (link_replace _ st2 p b b3 H Hb Hnx Hr3) as [H3 _]. set (st3 := with_pm st2 _) in *.
  destruct (etharp_input_spec E p b3 n hs st3 H3 Hp) as (st' & Ei & Hk & _ & Hfr & _); try done.
  - apply lookup_insert_eq.
  - lia.
  - by rewrite Hpl.
  - eexists _, st'. split; [by rewrite (st_bind_ok _ _ _ _ _ Ei)|]. split; [done|]. by rewrite <-Hf.
Qed.

Lemma ethernet_input_spec E p b n st : let E1 := {[+ p +]} ⊎ E in
  link_ok E1 st -> private E1 st p -> pbufs (pm st) !! p = Some b -> indeg (pbufs (pm st)) p = 0 -> ethernet_netif st n -> other_frame st b ->
  exists r st', ethernet_input call_custom_free garbage conflict_callback ip4_input p n st = Ok (r, st') /\ link_ok E st' /\ frames st `prefix_of` frames st'.
Proof using Hcallback.
  intros E1 H Hp Hb Hi Hn Hot. pose proof Hn as (_ & _ & nif & Hnif & _). unfold ethernet_input. rewrite (on_pm_get_bind _ b) by done.
  destruct (Z.leb_spec (len b) SIZEOF_ETH_HDR) as [Hs|Hl].
  { unfold STATS_INC. do 2 rewrite (st_bind_ok _ _ _ tt _ eq_refl). apply frame_freed; [by do 2 apply link_stats|done]. }
  destruct (Hot Hl) as [Hip Harp]. clear Hot. unfold SIZEOF_ETH_HDR in Hl. 
  rewrite (st_bind_ok _ _ _ (le_val (slice 12 2 (pbuf_bytes (pm st) b))) st) by (unfold read16; by rewrite (front_bind E1 st p b) by (done || lia)).
  rewrite (netif_get_bind _ nif) by done. set (ty := le_val _) in *.
  assert (M1 : exists st1, (if if_idx b =? NETIF_NO_INDEX then pb_upd p (fun b => with_if_idx b (u8 (nif_num nif + 1))) else mret tt) st = Ok (tt, st1) /\ marked p b st st1).
  { destruct (_ =? _); [|exists st; split; [done|by apply marked_refl]]. apply (marked_upd p b st st); [by apply marked_refl|]. intros fl ix. by exists fl, (u8 (nif_num nif + 1)). }
  destruct M1 as (st1 & E1' & M1). rewrite (st_bind_ok _ _ _ _ _ E1').
  destruct (marked_ok E1 p b st st1 H Hb Hi M1) as (H1 & _ & _ & _ & _ & _ & fl & ix & Hb1).
  replace (read_mem (payload b) 6) with (read_mem (S := S) (ptr_add (payload (meta b fl ix)) 0) 6) by (by rewrite ptr_add_0). rewrite (front_bind E1 st1 p (meta b fl ix)) by (done || simpl; lia).
  set (dest := slice 0 6 _).
  match goal with |- context [(?m ≫= _) st1] => assert (M2 : exists st2, m st1 = Ok (tt, st2) /\ marked p b st st2) end.
  { repeat case_match; (exists st1; by split) || (apply (marked_upd p b st st1); [done|]; intros fl' ix'; eexists _, ix'; split; [done|by apply source_cast]). }
  destruct M2 as (st2 & E2 & M2). rewrite (st_bind_ok _ _ _ _ _ E2). clear E1' E2 M1 st1 H1 dest fl ix Hb1.
  destruct (marked_ok E1 p b st st2 H Hb Hi M2) as (H2 & Hi2 & (Tn & _ & _ & Ta & _) & Hf & Ho & He & fl & ix & Hb2).
  rewrite (proj2 (Z.eqb_neq _ _) Hip). destruct (Z.eqb_spec ty (PP_HTONS ETHTYPE_ARP)) as [Et|_].
  2: { unfold STATS_INC. do 2 rewrite (st_bind_ok _ _ _ tt _ eq_refl). apply frame_freed; [by do 2 apply link_stats|done]. }
  destruct (Z.land _ _ =? 0); [by apply frame_freed|]. destruct (Harp Et) as (hs & bs & Hbs & Hrest).
  apply (frame_arp_spec E p (meta b fl ix) n hs st st2); try done.
  - split; [apply Hp|]. rewrite Ta. apply Hp.
  - destruct Hn as (? & ? & ?). split; [done|]. split; [done|]. by rewrite Tn.
  - exists bs. split; [|done]. unfold mem_obj in *. simpl. by rewrite Ho, He.
Qed.

(** ** Every use of the link layer *)

Context (rand : Z -> Z * Z).

Lemma etharp_cleanup_runs E n m k st : link_ok E st -> (k + m = Z.to_nat ARP_TABLE_SIZE)%nat ->
  exists st', for_entries (seqZ (Z.of_nat k) (Z.of_nat m)) (fun i =>
      e ← ent_get i;
      if negb (ent_state e =? ETHARP_STATE_EMPTY) && (ent_netif e =? n) then etharp_free_entry call_custom_free i else mret tt) st
    = Ok (tt, st') /\ follows E st st' /\
    (forall j e, (k <= j)%nat -> arp_table st' !! j = Some e -> ent_netif e = n -> ~ occupied e) /\
    (forall j, (j < k)%nat -> arp_table st' !! j = arp_table st !! j).
Proof.
  revert k st. induction m as [|m IH]; intros k st H Hk.
  { exists st. split; [done|]. split; [by apply follows_refl|]. split; [|done]. intros j e Hj He.
    apply lookup_lt_Some in He. rewrite (link_size _ _ H) in He. lia. }
  rewrite seqZ_cons by lia. cbn [for_entries].
  destruct (lookup_lt_is_Some_2 (arp_table st) k) as [e He]; [rewrite (link_size _ _ H); lia|].
  assert (Hat : ent_at st (Z.of_nat k) e) by (split; [lia|by rewrite Nat2Z.id]).
  match goal with |- context [(?b ≫= ?f) st] => assert (Hb : exists st1, b st = Ok (tt, st1) /\ follows E st st1 /\
    (forall e', arp_table st1 !! k = Some e' -> ent_netif e' = n -> ~ occupied e') /\
    (forall j, j <> k -> arp_table st1 !! j = arp_table st !! j)) end.
  { rewrite (ent_get_bind _ e) by done. destruct (negb _ && _) eqn:Hc.
    - destruct (etharp_free_entry_spec call_custom_free E _ e st H Hat) as (s' & Ef & F). rewrite Ef. eexists. split; [done|].
      split; [done|]. simpl. rewrite Nat2Z.id. split; [|intros j Hj; by rewrite list_lookup_insert_ne].
      intros e'. rewrite list_lookup_insert_eq by (by eapply lookup_lt_Some). intros [= <-] _ Ho. by destruct Ho.
    - exists st. split; [done|]. split; [by apply follows_refl|]. split; [|done]. intros e' He' Hn Ho.
      assert (e' = e) as -> by congruence. unfold occupied in Ho. lia. }
  destruct Hb as (st1 & E1 & F1 & Hk1 & Ho1). rewrite (st_bind_ok _ _ _ _ _ E1).
  replace (Z.succ (Z.of_nat k)) with (Z.of_nat (Datatypes.S k)) by lia. replace (Z.pred (Z.of_nat (Datatypes.S m))) with (Z.of_nat m) by lia.
  destruct (IH (Datatypes.S k) st1 (fol_ok _ _ _ F1) ltac:(lia)) as (st2 & E2 & F2 & Hk2 & Ho2). exists st2. split; [done|].
  split; [by eapply follows_trans|]. split.
  - intros j x Hj Hx. destruct (decide (j = k)) as [->|]; [|apply (Hk2 j); done || lia]. apply Hk1. rewrite <-Ho2; [done|lia].
  - intros j Hj. rewrite Ho2 by lia. apply Ho1. lia.
Qed.

(** The calls the rest of the system makes. *)
Inductive link_call :=
| Call_etharp_tmr
| Call_acd_tmr
| Call_acd_start (n a ip : Z)
| Call_acd_stop (n a : Z)
| Call_etharp_cleanup_netif (n : Z)
| Call_etharp_output (n q ip : Z)
| Call_etharp_query (n ip q : Z)
| Call_etharp_input (p n : Z)
| Call_ethernet_input (p n : Z).

Definition run_call (c : link_call) : M unit :=
  match c with
  | Call_etharp_tmr => etharp_tmr call_custom_free garbage
  | Call_acd_tmr => acd_tmr call_custom_free garbage conflict_callback rand
  | Call_acd_start n a ip => _ ← acd_start rand n a ip; mret tt
  | Call_acd_stop n a => _ ← acd_stop a; mret tt
  | Call_etharp_cleanup_netif n => etharp_cleanup_netif call_custom_free n
  | Call_etharp_output n q ip => _ ← etharp_output call_custom_free garbage n q ip; mret tt
  | Call_etharp_query n ip q => _ ← etharp_query call_custom_free garbage n ip q; mret tt
  | Call_etharp_input p n => etharp_input call_custom_free garbage conflict_callback p n
  | Call_ethernet_input p n => _ ← ethernet_input call_custom_free garbage conflict_callback ip4_input p n; mret tt
  end.

(** What the caller has to provide when [E] are the references held outside.  The 28 bytes of an ARP message must be there, since
    [etharp_input] does not look at the length. *)
Definition call_ok (E : gmultiset Z) (c : link_call) (st : state) : Prop :=
  match c with
  | Call_etharp_tmr | Call_acd_tmr | Call_etharp_cleanup_netif _ => True
  | Call_acd_start n a _ | Call_acd_stop n a => at_module n a st
  | Call_etharp_output n q _ => ethernet_netif st n /\ exists l, sendable E st q l
  | Call_etharp_query n _ q => ethernet_netif st n /\ (q = 0 \/ exists l, sendable E st q l)
  | Call_etharp_input p n => ethernet_netif st n /\ private E st p /\
      exists b hs, pbufs (pm st) !! p = Some b /\ 0 < len b /\ header (pm st) (payload b) hs
  | Call_ethernet_input p n => ethernet_netif st n /\ private E st p /\
      exists b, pbufs (pm st) !! p = Some b /\ indeg (pbufs (pm st)) p = 0 /\ other_frame st b
  end.
(** Input takes the reference to its packet. *)
Definition call_left (c : link_call) (E : gmultiset Z) : gmultiset Z :=
  match c with Call_etharp_input p _ | Call_ethernet_input p _ => E ∖ {[+ p +]} | _ => E end.

Lemma run_ret {A} (m : M A) st a st' : m st = Ok (a, st') -> (_ ← m; mret tt) st = Ok (tt, st').
Proof. intros E. by rewrite (st_bind_ok _ _ _ _ _ E). Qed.

Lemma run_call_spec E c st : link_ok E st -> call_ok E c st ->
  exists st', run_call c st = Ok (tt, st') /\ link_ok (call_left c E) st' /\ frames st `prefix_of` frames st'.
Proof using Hcallback.
  intros H Hc. destruct c as [| |n a ip|n a|n|n q ip|n ip q|p n|p n]; simpl in *.
  - destruct (etharp_tmr_spec call_custom_free garbage E st H) as (st' & E1 & F & _). exists st'. split; [done|]. split; apply F.
  - destruct (acd_tmr_runs call_custom_free garbage conflict_callback rand Hcallback E st H I) as ([] & st' & E1 & F).
    exists st'. split; [done|]. split; apply F.
  - destruct (acd_start_runs rand E n a ip st H Hc) as (r & st' & E1 & F). exists st'. split; [by eapply run_ret|]. split; apply F.
  - destruct (acd_stop_runs E n a st H Hc) as (r & st' & E1 & F). exists st'. split; [by eapply run_ret|]. split; apply F.
  - destruct (etharp_cleanup_runs E n (Z.to_nat ARP_TABLE_SIZE) 0 st H eq_refl) as (st' & E1 & F & _).
    exists st'. split; [done|]. split; apply F.
  - destruct Hc as [Hn [l Hq]]. pose proof Hn as (_ & _ & nif & Hnif & _).
    destruct (etharp_output_spec E n nif ip q l st H Hn Hnif Hq) as (r & st' & E1 & L & _).
    exists st'. split; [by eapply run_ret|]. split; apply L.
  - destruct Hc as [Hn Hq]. pose proof Hn as (_ & _ & nif & Hnif & _).
    assert (exists l, q = 0 \/ sendable E st q l) as [l Hl] by (destruct Hq as [?|[l ?]]; [exists []; by left|exists l; by right]).
    destruct (etharp_query_spec E n nif ip q l st H Hn Hnif Hl) as (r & st' & E1 & L & _).
    exists st'. split; [by eapply run_ret|]. split; apply L.
  - destruct Hc as (Hn & Hp & b & hs & Hb & Hl & Hh). pose proof (multiset_take E p (proj1 Hp)) as Ep. rewrite Ep in H, Hp.
    destruct (etharp_input_spec _ p b n hs st H Hp Hb Hl Hh Hn) as (st' & E1 & Hk & _ & Hf & _).
    by exists st'.
  - destruct Hc as (Hn & Hp & b & Hb & Hi & Ho). pose proof (multiset_take E p (proj1 Hp)) as Ep. rewrite Ep in H, Hp.
    destruct (ethernet_input_spec _ p b n st H Hp Hb Hi Hn Ho) as (r & st' & E1 & Hk & Hf).
    exists st'. split; [by eapply run_ret|done].
Qed.

(** The runs of the system: calls, and packets taken from and given back to the
    pool of pbufs by others. *)
Inductive link_run : gmultiset Z -> state -> gmultiset Z -> state -> Prop :=
| run_start E st : link_run E st E st
| run_step E0 st0 E st c st' : link_run E0 st0 E st -> call_ok E c st -> run_call c st = Ok (tt, st') ->
    link_run E0 st0 (call_left c E) st'
| run_alloc E0 st0 E st layer n p s' : link_run E0 st0 E st -> is_u16 n ->
    pbuf_alloc call_custom_free garbage layer n PBUF_RAM (pm st) = Ok (p, s') -> p <> 0 ->
    link_run E0 st0 ({[+ p +]} ⊎ E) (with_pm st s')
| run_free E0 st0 E st p k s' : link_run E0 st0 ({[+ p +]} ⊎ E) st ->
    pbuf_free call_custom_free p (pm st) = Ok (k, s') -> link_run E0 st0 E (with_pm st s').

Lemma link_run_ok E0 st0 E st : link_run E0 st0 E st -> link_ok E0 st0 -> link_ok E st.
Proof using Hcallback.
  induction 1 as [E st|E0 st0 E st c st' _ IH Hc Er|E0 st0 E st layer n p s' _ IH Hn Ea Hp|E0 st0 E st p k s' _ IH Ef];
    intros H0; [done|..]; specialize (IH H0).
  - destruct (run_call_spec E c st IH Hc) as (st1 & E1 & Hk & _). congruence.
  - destruct (pbuf_alloc_ram_heap call_custom_free garbage _ layer n (pm st) (link_refs _ _ IH) Hn)
      as (p' & s1 & E1 & [(-> & _)|(b & Hok & _ & Hpb & _ & _ & _ & _ & _ & _ & _ & Hc)]); [congruence|].
    rewrite Ea in E1. injection E1 as <- <-. rewrite (assoc_L (⊎)) in Hok.
    destruct IH as [_ Hs He Hu Hcd Ha Hnl]. split; try done.
    eapply Forall_impl; [exact He|]. intros e. apply entry_ok_mono; [by intros ? ?|apply Hc].
  - destruct (link_free E p st IH) as (k' & s1 & E1 & Hk & _). congruence.
Qed.

(** C1. The ARP cache, conflict detection and the packets they hold stay consistent
    in every run.  From a state that satisfies the invariant, after any sequence of calls of
    the timers, of [etharp_output], [etharp_query] and [etharp_input], of [ethernet_input] with frames that are not for IP, of the start and
    stop of modules and of the clean-up of an interface, interleaved with allocations and
    releases of packets by others, the invariant holds (reference counts match the
    holders, no address has two entries, only pending entries hold packets, ages and
    states are in range), and the next permitted call returns without a failed
    assertion, an access out of bounds or a loop that does not end.  An ARP message has all its 28 bytes: a shorter one, which
    [etharp_input] does not recognise, is not permitted here. *)
Theorem link_layer_safe E0 st0 E st c :
  link_ok E0 st0 -> link_run E0 st0 E st -> call_ok E c st ->
  link_ok E st /\ exists st', run_call c st = Ok (tt, st') /\ link_ok (call_left c E) st' /\ frames st `prefix_of` frames st'.
Proof using Hcallback.
  intros H0 Hr Hc. pose proof (link_run_ok _ _ _ _ Hr H0) as H. split; [done|]. by apply run_call_spec.
Qed.


End io.

(** ** A request for the address of this host *)

Section answers.
Context {S : Type} `{!PbufAlloc S}.
Abbreviation state := (@net S).
Abbreviation M := (ST state).
Context (call_custom_free : Z -> Z -> ST (@pstate S) unit) (garbage : Z -> Z).
Context {Link : LinkDriver}.
Context (conflict_callback : Z -> Z -> acd_callback_enum_t -> M unit).
Context (Hcallback : callbacks_follow conflict_callback).

(** Without modules there is nothing to detect. *)
Lemma acd_arp_reply_none n nif h (st : state) : netifs st !! n = Some nif -> nif_acd_list nif = 0 ->
  acd_arp_reply call_custom_free garbage conflict_callback n h st = Ok (tt, st).
Proof.
  intros Hn H0. unfold acd_arp_reply. rewrite (netif_get_bind _ nif) by done. unfold ACD_FOREACH.
  rewrite (netif_get_bind _ nif) by done. rewrite (st_bind_ok _ _ _ (Datatypes.S (size (acds st))) st) by done.
  by rewrite H0.
Qed.

(** What the update sends: the packet that waited for the hardware address of [ip], if there was one. *)
Definition flushed (n ip : Z) (hw : list Z) (nif : netif) (st st' : state) : Prop :=
  (exists i e b l derr, arp_table st !! i = Some e /\ occupied e /\ ent_ipaddr e = ip /\ ent_netif e = n /\ ent_q e <> 0 /\
     packet (pbufs (pm st)) ((ent_q e, b) :: l) /\
     link_sent (head_room SIZEOF_ETH_HDR ((ent_q e, b) :: l)) n
       (eth_frame hw (nif_hwaddr nif) ETHTYPE_IP (data (pm st) ((ent_q e, b) :: l))) derr st st') \/
  ((forall i e, arp_table st !! i = Some e -> occupied e -> ent_ipaddr e = ip -> ent_netif e = n -> ent_q e = 0) /\
   frames st' = frames st).

Lemma update_learns E n nif ip hw (st : state) : link_ok E st -> ethernet_netif st n -> netifs st !! n = Some nif ->
  length hw = 6%nat -> unicast ip nif = true ->
  exists err st', etharp_update_arp_entry call_custom_free n ip hw ETHARP_FLAG_TRY_HARD st = Ok (err, st') /\ follows E st st' /\
    cached st' n ip hw /\ flushed n ip hw nif st st'.
Proof.
  intros H Hn Hnif Hhw Hu. pose proof Hn as (Hn0 & _).
  destruct (etharp_update_spec call_custom_free E n nif ip hw ETHARP_FLAG_TRY_HARD st H Hn Hnif Hhw) as (err & st' & E1 & F & Hx).
  exists err, st'. split; [done|]. split; [done|]. unfold unicast in Hu.
  replace (ip4_addr_isany_val ip || ip4_addr_isbroadcast ip nif || ip4_addr_ismulticast ip) with false in Hx.
  2:{ destruct (ip4_addr_isany_val ip), (ip4_addr_isbroadcast ip nif), (ip4_addr_ismulticast ip); done. }
  destruct Hx as (r & st1 & Hf & Hr). pose proof (find_hard _ _ _ _ _ Hf) as Hr0. replace (r <? 0) with false in Hr by lia.
  destruct Hr as (_ & e & Hs & Ht & Hnn & Hq0 & Hq).
  pose proof (find_frames _ _ _ _ _ _ Hf) as Hff. pose proof (slot_at _ _ _ _ _ Hs) as [Hr' He]. split.
  { exists (Z.to_nat r), (resolved n hw e). rewrite Ht. split; [apply list_lookup_insert_eq; by eapply lookup_lt_Some|].
    split; [done|]. split; [apply Hs|done]. }
  destruct (find_slot E _ _ _ _ _ _ H Hn0 Hf Hr0) as (e' & Hs' & Hst & Hnew).
  assert (e' = e) as -> by (destruct (slot_at _ _ _ _ _ Hs'); congruence).
  destruct (Z.eq_dec (ent_q e) 0) as [E0|Hne].
  - right. split; [|rewrite Hq0 by done; done]. intros i x Hi Ho H1 H2.
    destruct (decide (ent_state e = ETHARP_STATE_EMPTY)) as [Ee|Ee].
    + destruct (find_unknown E ip ETHARP_FLAG_TRY_HARD n st r st1 e H Hn0 Hf Hs ltac:(intros Hoe; by apply Hoe) i x Hi Ho H1 H2).
    + rewrite (Hst Ee) in Hs, He. destruct (decide (i = Z.to_nat r)) as [->|Hne]; [congruence|].
      by destruct (slot_only _ _ _ _ _ Hs i x).
  - assert (Ho : occupied e) by (intros Ee; by destruct Hnew as [? _]; [intros Hoe; by apply Hoe|]).
    rewrite (Hst Ho) in *. destruct (Hq Hne) as (b & l & derr & Hl & Hsent). left. exists (Z.to_nat r), e, b, l, derr.
    do 2 (split; [done|]). split; [apply Hs|]. split; [apply Hs|done].
Qed.

(** C19. A well-formed ARP request for the address of the interface, from another host with an address of its own, is
    answered, if no conflict detection is active on the interface.
    [etharp_input] returns; the cache then has the sender's hardware address; the packet that was waiting for the sender, if there was
    one, has been given to the driver in a frame to the sender, unless it has no room for the Ethernet header; and then one reply has been given to the
    driver, to the sender, with the interface's and the sender's addresses as RFC 826 prescribes, unless there was no memory for it; the
    message's pbuf is released and the invariant holds. *)
Theorem etharp_input_answers E p b n nif hs (st : state) :
  link_ok ({[+ p +]} ⊎ E) st -> private ({[+ p +]} ⊎ E) st p -> pbufs (pm st) !! p = Some b -> 0 < len b ->
  header (pm st) (payload b) hs -> ethernet_netif st n -> netifs st !! n = Some nif -> nif_acd_list nif = 0 ->
  well_formed hs = true -> field16 hs 6 = PP_HTONS ARP_REQUEST -> for_us nif hs = true -> from_us nif hs = false ->
  unicast (hdr_sipaddr (addresses hs)) nif = true ->
  exists st', etharp_input call_custom_free garbage conflict_callback p n st = Ok (tt, st') /\ link_ok E st' /\
    cached st' n (hdr_sipaddr (addresses hs)) (hdr_shwaddr (addresses hs)) /\
    exists st1, flushed n (hdr_sipaddr (addresses hs)) (hdr_shwaddr (addresses hs)) nif st st1 /\
      asked call_custom_free garbage n (Some (reply_frame nif hs)) st1 st'.
Proof using Hcallback.
  intros H Hp Hb Hl Hh Hn Hnif Ha Hw Hop Hfor Hfrom Hu. assert (Hhw := shwaddr_length _ _ _ Hh).
  destruct (etharp_input_spec call_custom_free garbage conflict_callback Hcallback E p b n hs st H Hp Hb Hl Hh Hn)
    as (st' & E1 & Hk & _ & _ & Hx). exists st'. split; [done|]. split; [done|]. rewrite Hw in Hx.
  destruct Hx as (f & st1 & nif' & err & st2 & st3 & Eacd & Hnif' & Eu & Hr & Ht & Hf).
  rewrite (acd_arp_reply_none n nif) in Eacd by done. injection Eacd as <-. simpl in Hnif'.
  assert (nif' = nif) as -> by congruence. rewrite Hfor in Eu.
  destruct (update_learns _ n nif (hdr_sipaddr (addresses hs)) (hdr_shwaddr (addresses hs)) (with_stats st f)
    (link_stats _ _ f H) Hn Hnif Hhw Hu) as (err' & st2' & Eu' & F2 & Hc & Hfl).
  rewrite Eu in Eu'. injection Eu' as <- <-. split.
  { destruct Hc as (i & e & Hi & Hrest). exists i, e. by rewrite Ht. }
  exists st2. split; [done|]. unfold replied in Hr. rewrite Hop, Z.eqb_refl, Hfor, Hfrom in Hr. cbn [andb negb] in Hr.
  destruct Hr as (err3 & Er & Hs). exists st2, err3. split; [done|]. by eapply arp_sent_end.
Qed.

End answers.

(** ** The properties at a concrete network *)

Section example.
#[local] Existing Instance example_PbufAlloc.

Lemma example_link_ok E (s : @pstate (memp_state * Z)) : refs_ok E s -> link_ok (Link := example_driver) E (with_pm example_net s).
Proof.
  intros Hr. split; try done.
  - replace (queued (arp_table (with_pm example_net s))) with (∅ : gmultiset Z) by (by vm_compute).
    by rewrite (right_id_L ∅ (⊎)).
  - apply Forall_replicate. by split.
  - intros i j e e' Hi Hj Ho. apply lookup_replicate in Hi as [-> _]. by destruct Ho.
  - intros n nif Hn. simpl in Hn. apply lookup_singleton_Some in Hn as [<- <-]. split; [by exists []|done].
  - exists [0x300]. split; [done|]. split; [done|]. by exists example_nif.
Qed.
Lemma example_private q E (s : @pstate (memp_state * Z)) : private ({[+ q +]} ⊎ E) (with_pm example_net s) q.
Proof.
  split; [apply multiset_head|]. replace (queued _) with (∅ : gmultiset Z) by (by vm_compute).
  apply gmultiset_not_elem_of_empty.
Qed.

(** A packet of three bytes for 10.0.0.2. *)
Definition example_out : @net (memp_state * Z) := with_pm example_net example_pm1.
Lemma example_sendable : sendable ({[+ 0x10000 +]} ⊎ ∅) example_out 0x10000 [(0x10000, ram_pbuf 0x10000 14 3)].
Proof.
  split; [vm_compute; by repeat split|]. split; [done|]. split; [done|]. split; [by apply Forall_singleton|].
  split; [by vm_compute|]. split; [apply example_private|]. by vm_compute.
Qed.
Lemma example_out_ok : link_ok (Link := example_driver) ({[+ 0x10000 +]} ⊎ ∅) example_out.
Proof. apply example_link_ok. rewrite (right_id_L ∅ (⊎)). exact example_refs1. Qed.

Lemma example_empty i e : arp_table example_out !! i = Some e -> ent_state e = 0.
Proof. intros [-> _]%lookup_replicate. done. Qed.

(** The packet is allocated and sent. *)
Lemma link_layer_safe_witness :
  link_ok (Link := example_driver) ({[+ 0x10000 +]} ⊎ ∅) example_out /\
  exists st', run_call (Link := example_driver) no_custom (fun a => a) (fun _ _ _ => mret tt) (fun _ _ => mret tt) (fun s => (s, s))
      (Call_etharp_output 0x300 0x10000 0x0200000a) example_out = Ok (tt, st') /\
    link_ok (Link := example_driver) ({[+ 0x10000 +]} ⊎ ∅) st' /\ frames example_out `prefix_of` frames st'.
Proof.
  refine (link_layer_safe no_custom (fun a => a) (Link := example_driver) (fun _ _ _ => mret tt) example_callbacks (fun _ _ => mret tt)
    (fun s => (s, s)) ∅ example_net ({[+ 0x10000 +]} ⊎ ∅) example_out (Call_etharp_output 0x300 0x10000 0x0200000a) _ _ _).
  - exact (example_link_ok ∅ (pm example_net) example_refs).
  - apply (run_alloc no_custom (fun a => a) _ _ _ ∅ example_net ∅ example_net PBUF_LINK 3 0x10000 example_pm1); [constructor|done|by vm_compute|done].
  - split; [exact example_ethernet|]. eexists. exact example_sendable.
Defined.

(** A frame in a new pbuf: memory contains [bs] when it is handed out. *)
Definition memory_of (bs : list Z) : Z -> Z := fun a => nth (Z.to_nat (a - 0x10000)) bs 0.
Definition example_frame (bs : list Z) : @pstate (memp_state * Z) :=
  after (pbuf_alloc no_custom (memory_of bs) PBUF_RAW (Z.of_nat (length bs)) PBUF_RAM example_st0).
Lemma example_frame_refs bs : is_u16 (Z.of_nat (length bs)) ->
  pbuf_alloc no_custom (memory_of bs) PBUF_RAW (Z.of_nat (length bs)) PBUF_RAM example_st0 = Ok (0x10000, example_frame bs) ->
  refs_ok ({[+ 0x10000 +]} ⊎ ∅) (example_frame bs).
Proof.
  intros Hu E'. destruct (pbuf_alloc_ram_heap no_custom (memory_of bs) ∅ PBUF_RAW _ example_st0 example_refs Hu) as (p & st' & E & H).
  rewrite E' in E. injection E as <- <-. by destruct H as [[? _]|(b & H & _)].
Qed.

(** 10.0.0.2 asks for 10.0.0.1. *)
Definition example_request : list Z := arp_message ARP_REQUEST [2; 0; 0; 0; 0; 2] 0x0200000a ethzero 0x0100000a.
Lemma etharp_input_answers_witness :
  let st := with_pm example_net (example_frame example_request) in
  exists st', etharp_input (Link := example_driver) no_custom zeros (fun _ _ _ => mret tt) 0x10000 0x300 st = Ok (tt, st') /\
    link_ok (Link := example_driver) ∅ st' /\ cached st' 0x300 0x0200000a [2; 0; 0; 0; 0; 2] /\
    exists st1, flushed (Link := example_driver) 0x300 0x0200000a [2; 0; 0; 0; 0; 2] example_nif st st1 /\
      asked (Link := example_driver) no_custom zeros 0x300 (Some (reply_frame example_nif example_request)) st1 st'.
Proof.
  refine (etharp_input_answers (Link := example_driver) no_custom zeros (fun _ _ _ => mret tt) example_callbacks
    ∅ 0x10000 (link (ram_pbuf 0x10000 0 28) []) 0x300 example_nif example_request (with_pm example_net (example_frame example_request))
    _ _ eq_refl eq_refl _ example_ethernet eq_refl eq_refl eq_refl eq_refl eq_refl eq_refl eq_refl).
  - apply example_link_ok, example_frame_refs; [done|by vm_compute].
  - apply example_private.
  - exists example_request. split; [vm_compute; reflexivity|]. split; [done|]. split; [vm_compute; discriminate|vm_compute; reflexivity].
Defined.

(** The request above behind an Ethernet header, cut off after [k] bytes. *)
Definition short_frame (k : nat) : list Z := take k (eth_frame ethbroadcast [2; 0; 0; 0; 0; 2] ETHTYPE_ARP example_request).
Definition short_net (k : nat) : @net (memp_state * Z) := with_pm example_net (example_frame (short_frame k)).

(** ARP frames that are too short are read behind their end: [ethernet_input] only requires more than
    the 14 bytes of an Ethernet header, and [etharp_input] reads the 28 bytes of the ARP header
    whatever the length of the packet is.  A frame that is the beginning of an ARP request, 15
    to 36 bytes long, in a consistent state, is read out of bounds, whatever the clients of
    conflict detection and the IP layer do. *)
Theorem ethernet_input_short_arp (k : nat) conflict_callback ip4_input :
  (15 <= k <= 36)%nat ->
  link_ok (Link := example_driver) {[+ 0x10000 +]} (short_net k) /\
  (exists b, pbufs (pm (short_net k)) !! 0x10000 = Some b /\ len b = Z.of_nat k /\ SIZEOF_ETH_HDR < len b) /\
  ethernet_input (Link := example_driver) no_custom zeros conflict_callback ip4_input 0x10000 0x300 (short_net k) = Fault.
Proof.
  intros Hk. assert (Hin : In k (seq 15 22)) by (apply in_seq; lia). clear Hk. rewrite <-(right_id_L ∅ (⊎) {[+ 0x10000 +]}).
  repeat (destruct Hin as [<-|Hin]; [split; [|split; [eexists; split; [vm_compute; reflexivity|done]|vm_compute; reflexivity]]|]);
    [..|by destruct Hin].
  all: apply example_link_ok, example_frame_refs; [done|vm_compute; reflexivity].
Qed.
Lemma ethernet_input_short_arp_witness :
  (15 <= 20 <= 36)%nat /\
  ethernet_input (Link := example_driver) no_custom zeros (fun _ _ _ => mret tt) (fun _ _ => mret tt) 0x10000 0x300 (short_net 20) = Fault.
Proof.
  assert (H : (15 <= 20 <= 36)%nat) by lia. split; [exact H|].
  exact (proj2 (proj2 (ethernet_input_short_arp 20 (fun _ _ _ => mret tt) (fun _ _ => mret tt) H))).
Defined.
End example.
