(* ===== verification/Ip4.v ===== *)
(** * IPv4: routing and output (core/ipv4/ip4.c, core/ipv4/ip4_frag.c)

    The state of the IP layer above that of the link layer, the headers of
    datagrams, the choice of an interface, the sending of datagrams and their
    fragmentation.  Interfaces send through [etharp_output], as
    drivers/nics/nic_controller.rs sets them up. *)

From stdpp Require Import gmultiset.
From S2P Require Import Prelude Def Chksum Ip4Addr Memp Mem Pbuf PbufData PbufHeap PbufSole Ethernet Link Acd Etharp EtharpIo.

Set Default Proof Using "Type".

(** ** Constants *)

Definition IP_HLEN : Z := 20.
Definition IP_MF : Z := 0x2000.
Definition IP_OFFMASK : Z := 0x1fff.
Definition IP_PROTO_ICMP : Z := 1.
Definition IP_PROTO_TCP : Z := 6.
Definition IP_PROTO_UDP : Z := 17.
Definition NETIF_FLAG_UP : Z := 0x01.
Definition NETIF_FLAG_LINK_UP : Z := 0x04.

(** ** The header of a datagram *)

(** RFC 791, without options; [chk] as it is in memory. *)
Definition ip_header (tos len id off ttl proto chk src dest : Z) : list Z :=
  [0x45; tos] ++ be16 len ++ be16 id ++ be16 off ++ [ttl; proto] ++ le_bytes 2 chk ++ le_bytes 4 src ++ le_bytes 4 dest.
(** With its checksum. *)
Definition ip_header_of (tos len id off ttl proto src dest : Z) : list Z :=
  ip_header tos len id off ttl proto (65535 - cksum_ref (ip_header tos len id off ttl proto 0 src dest)) src dest.

Lemma ip_header_length tos len id off ttl proto chk src dest :
  length (ip_header tos len id off ttl proto chk src dest) = 20%nat.
Proof. done. Qed.
Lemma be16_bytes x : is_u16 x -> bytes (be16 x).
Proof. intros H. unfold is_u16 in H. repeat constructor; words. Qed.
Ltac bytes_parts :=
  repeat match goal with |- bytes (_ ++ _) => apply bytes_app end;
  first [by apply be16_bytes|by apply le_bytes_bytes|repeat (apply Forall_cons; split; [done|]); by apply Forall_nil].
Lemma ip_header_bytes tos len id off ttl proto chk src dest :
  is_u8 tos -> is_u16 len -> is_u16 id -> is_u16 off -> is_u8 ttl -> is_u8 proto ->
  bytes (ip_header tos len id off ttl proto chk src dest).
Proof.
  intros. unfold ip_header. bytes_parts.
Qed.

(** The header verifies at its receiver. *)
Lemma ip_header_verifies addr tos len id off ttl proto src dest :
  is_u8 tos -> is_u16 len -> is_u16 id -> is_u16 off -> is_u8 ttl -> is_u8 proto ->
  inet_chksum addr (ip_header_of tos len id off ttl proto src dest) = 0.
Proof.
  intros. unfold ip_header_of. rewrite <-(inet_chksum_ref 0) by (by apply ip_header_bytes).
  set (pre := [0x45; tos] ++ be16 len ++ be16 id ++ be16 off ++ [ttl; proto]).
  set (post := le_bytes 4 src ++ le_bytes 4 dest).
  change (ip_header tos len id off ttl proto 0 src dest) with (pre ++ [0; 0] ++ post).
  change (ip_header tos len id off ttl proto ?c src dest) with (pre ++ le_bytes 2 c ++ post).
  apply inet_chksum_verifies; [|done]. unfold pre, post.
  bytes_parts.
Qed.

(** The sum that is kept up while the header is written. *)
Definition header_sum (tos len id ttl proto src dest : Z) : Z :=
  (ttl + 256 * proto) + dest mod 65536 + dest / 65536 + (0x45 + 256 * tos) + lwip_htons len + lwip_htons id
  + src mod 65536 + src / 65536.

Lemma header_sum_wsum tos len id ttl proto src dest :
  is_u16 len -> is_u16 id -> is_u32 src -> is_u32 dest ->
  header_sum tos len id ttl proto src dest = wsum (ip_header tos len id 0 ttl proto 0 src dest).
Proof.
  intros Hl Hi Hs Hd. unfold header_sum, ip_header, be16. rewrite !htons_arith by done.
  change (0 / 256) with 0. change (0 mod 256) with 0. cbn [app le_bytes wsum]. clear -Hs Hd. unfold is_u32 in *.
  change (0 / 256) with 0. change (0 mod 256) with 0. words.
Qed.
Lemma fold_sum T : 0 <= T < 0x100000 ->
  let c := u32 (Z.shiftr T 16 + Z.land T 0xffff) in
  u16 (u32 (Z.lnot (u32 (Z.shiftr c 16 + c)))) = 65535 - (c / 65536 + c) mod 65536 /\
  is_u16 ((c / 65536 + c) mod 65536) /\ oc ((c / 65536 + c) mod 65536) T.
Proof.
  intros HT c. assert (Hc : c = T / 65536 + T mod 65536).
  { unfold c. rewrite shiftr_div, land_ffff by done. change (2 ^ 16) with 65536. rewrite u32_id; [done|words]. }
  rewrite shiftr_div by done. change (2 ^ 16) with 65536. clearbody c.
  assert (H1 : 0 <= c < 65536 + 16) by words. split; [unfold Z.lnot; words|]. split; [words|].
  unfold oc. destruct (Z.ltb_spec c 65536).
  - replace (c / 65536 + c) with c by words. rewrite (Z.mod_small c) by lia. subst c. repeat split; try words.
    exists (- (T / 65536)). words.
  - replace ((c / 65536 + c) mod 65536) with (c - 65535) by words. subst c. repeat split; try words.
    exists (- (T / 65536) - 1). words.
Qed.

(** The fields are written one by one. *)
Lemma slice_same o new hs : 0 <= o -> o + Z.of_nat (length new) <= Z.of_nat (length hs) ->
  slice o (Z.of_nat (length new)) (splice o new hs) = new.
Proof.
  intros. apply list_eq. intros i. rewrite slice_lookup. case_decide.
  - rewrite splice_lookup by lia. rewrite decide_False, decide_True by lia. f_equal. lia.
  - symmetry. apply lookup_ge_None_2. lia.
Qed.
Lemma slice_before o n o' new hs : 0 <= o -> o + n <= o' -> o' <= Z.of_nat (length hs) ->
  slice o n (splice o' new hs) = slice o n hs.
Proof.
  intros. apply list_eq. intros i. rewrite !slice_lookup. case_decide; [|done].
  rewrite splice_lookup by lia. by rewrite decide_True by lia.
Qed.
Lemma bytes_slice o n bs : bytes bs -> bytes (slice o n bs).
Proof. intros H. by apply Forall_take, Forall_drop. Qed.
(** A field of at most [k] bytes. *)
Lemma le_val_slice o k bs : 0 <= k -> bytes bs -> 0 <= le_val (slice o k bs) < 256 ^ k.
Proof.
  intros Hk Hb. pose proof (le_val_range _ (bytes_slice o k bs Hb)) as [? Hlt]. split; [done|].
  eapply Z.lt_le_trans; [exact Hlt|]. apply Z.pow_le_mono_r; [done|]. unfold slice. rewrite length_take. lia.
Qed.
Lemma splice_front new xs ys : length new = length xs -> splice 0 new (xs ++ ys) = new ++ ys.
Proof. intros H. unfold splice. simpl. by rewrite H, drop_app_length. Qed.
Lemma htons_u16 v : is_u16 v -> is_u16 (lwip_htons v).
Proof. intros H. rewrite htons_arith by done. words. Qed.
Lemma le_val_u8 v : is_u8 v -> le_val [v] = v.
Proof. intros. simpl. lia. Qed.
Lemma le_val_u16 v : is_u16 v -> le_val (le_bytes 2 v) = v.
Proof. intros. rewrite le_val_bytes. by apply Z.mod_small. Qed.
Lemma le_val_u32 v : is_u32 v -> le_val (le_bytes 4 v) = v.
Proof. intros. rewrite le_val_bytes. by apply Z.mod_small. Qed.

Lemma ip_fields tos len id ttl proto chk src dest hs : length hs = 20%nat ->
  splice 10 (le_bytes 2 chk) (splice 12 (le_bytes 4 src) (splice 4 (be16 id) (splice 6 (le_bytes 2 0)
    (splice 2 (be16 len) (splice 1 [tos] (splice 0 [0x45] (splice 16 (le_bytes 4 dest)
      (splice 9 [proto] (splice 8 [ttl] hs)))))))))
  = ip_header tos len id 0 ttl proto chk src dest.
Proof. intros Hh. do 20 (destruct hs as [|? hs]; [done|]). by destruct hs. Qed.

Lemma pair_swap a b : is_u8 a -> is_u8 b -> PP_HTONS (Z.lor a (Z.shiftl b 8)) = b + 256 * a.
Proof.
  intros Ha Hb. rewrite Z.lor_comm, shiftl_mul by done. rewrite (lor_low 8) by done.
  change (2 ^ 8) with 256. change PP_HTONS with lwip_htons. rewrite htons_arith; words.
Qed.
(** The sum in the order of the code. *)
Lemma inline_sum tos len id ttl proto src dest :
  is_u8 tos -> is_u16 len -> is_u16 id -> is_u8 ttl -> is_u8 proto -> is_u32 src -> is_u32 dest ->
  let c := u32 (0 + PP_HTONS (Z.lor proto (Z.shiftl ttl 8))) in
  let c := u32 (u32 (c + Z.land dest 0xffff) + Z.shiftr dest 16) in
  let c := u32 (c + PP_HTONS (Z.lor tos (Z.shiftl 0x45 8))) in
  let c := u32 (u32 (c + lwip_htons len) + lwip_htons id) in
  let c := u32 (u32 (c + Z.land src 0xffff) + Z.shiftr src 16) in
  let c := u32 (Z.shiftr c 16 + Z.land c 0xffff) in
  u16 (u32 (Z.lnot (u32 (Z.shiftr c 16 + c)))) = 65535 - cksum_ref (ip_header tos len id 0 ttl proto 0 src dest).
Proof.
  intros Ht Hl Hi Htl Hp Hs Hd c1 c2 c3 c4 c5.
  assert (HL := htons_u16 _ Hl). assert (HI := htons_u16 _ Hi).
  assert (E5 : c5 = header_sum tos len id ttl proto src dest).
  { unfold c5, c4, c3, c2, c1. rewrite !pair_swap, !land_ffff, !shiftr_div by done. change (2 ^ 16) with 65536.
    unfold header_sum. clear c5 c4 c3 c2 c1. unfold u32. rewrite !(Z.mod_small _ 4294967296) by words. lia. }
  assert (HT : 0 <= c5 < 0x100000) by (rewrite E5; unfold header_sum; clear c5 c4 c3 c2 c1 E5; words).
  clearbody c5. clear c4 c3 c2 c1. intros c. destruct (fold_sum c5 HT) as (EF & R & O). fold c in EF, R, O. rewrite EF. f_equal.
  apply cksum_ref_unique; [by apply ip_header_bytes|done|]. rewrite <-header_sum_wsum, <-E5 by done. done.
Qed.

(** ** State *)

(** The counters of [lwip_stats] that the IP layer increments. *)
Inductive ip_counter :=
| ip_xmit | ip_recv | ip_drop | ip_chkerr | ip_lenerr | ip_rterr | ip_proterr | ip_err
| ip_frag_xmit | ip_frag_recv | ip_frag_drop | ip_frag_memerr | ip_frag_err | ip_frag_cachehit
| icmp_xmit | icmp_recv | icmp_drop | icmp_chkerr | icmp_lenerr | icmp_proterr | icmp_err.
#[export] Instance ip_counter_eq_dec : EqDecision ip_counter.
Proof. solve_decision. Defined.

(** [struct ip_globals]: the datagram that is being received. *)
Record ip_globals := {
  current_netif : Z; current_input_netif : Z; current_ip4_header : ptr; current_ip_header_tot_len : Z;
  current_iphdr_src : Z; current_iphdr_dest : Z
}.

(** [struct ip_reassdata]: the fragments of one datagram. *)
Record ip_reassdata := {
  rd_next : Z; rd_p : Z; rd_iphdr : list Z; rd_datagram_len : Z; rd_flags : Z; rd_timer : Z
}.

Section state.
Context {S R : Type}.

(** The link layer below, and the variables of ip4.c and ip4_frag.c;
    [reass_pool] is [MEMP_REASSDATA]. *)
Record ipnet := {
  low : @net S;
  ip_id : Z;
  netif_default : Z;
  ip_stats : ip_counter -> Z;
  ip_data : ip_globals;
  reassdata : gmap Z ip_reassdata;
  reassdatagrams : Z;
  ip_reass_pbufcount : Z;
  reass_pool : R
}.

Definition with_low (st : ipnet) (x : @net S) : ipnet :=
  {| low := x; ip_id := ip_id st; netif_default := netif_default st; ip_stats := ip_stats st;
     ip_data := ip_data st; reassdata := reassdata st; reassdatagrams := reassdatagrams st;
     ip_reass_pbufcount := ip_reass_pbufcount st; reass_pool := reass_pool st |}.
Definition with_ip_id (st : ipnet) (x : Z) : ipnet :=
  {| low := low st; ip_id := x; netif_default := netif_default st; ip_stats := ip_stats st;
     ip_data := ip_data st; reassdata := reassdata st; reassdatagrams := reassdatagrams st;
     ip_reass_pbufcount := ip_reass_pbufcount st; reass_pool := reass_pool st |}.
Definition with_ip_stats (st : ipnet) (x : ip_counter -> Z) : ipnet :=
  {| low := low st; ip_id := ip_id st; netif_default := netif_default st; ip_stats := x;
     ip_data := ip_data st; reassdata := reassdata st; reassdatagrams := reassdatagrams st;
     ip_reass_pbufcount := ip_reass_pbufcount st; reass_pool := reass_pool st |}.
Definition with_ip_data (st : ipnet) (x : ip_globals) : ipnet :=
  {| low := low st; ip_id := ip_id st; netif_default := netif_default st; ip_stats := ip_stats st;
     ip_data := x; reassdata := reassdata st; reassdatagrams := reassdatagrams st;
     ip_reass_pbufcount := ip_reass_pbufcount st; reass_pool := reass_pool st |}.
Definition with_reassdata (st : ipnet) (x : gmap Z ip_reassdata) : ipnet :=
  {| low := low st; ip_id := ip_id st; netif_default := netif_default st; ip_stats := ip_stats st;
     ip_data := ip_data st; reassdata := x; reassdatagrams := reassdatagrams st;
     ip_reass_pbufcount := ip_reass_pbufcount st; reass_pool := reass_pool st |}.
Definition with_reassdatagrams (st : ipnet) (x : Z) : ipnet :=
  {| low := low st; ip_id := ip_id st; netif_default := netif_default st; ip_stats := ip_stats st;
     ip_data := ip_data st; reassdata := reassdata st; reassdatagrams := x;
     ip_reass_pbufcount := ip_reass_pbufcount st; reass_pool := reass_pool st |}.
Definition with_pbufcount (st : ipnet) (x : Z) : ipnet :=
  {| low := low st; ip_id := ip_id st; netif_default := netif_default st; ip_stats := ip_stats st;
     ip_data := ip_data st; reassdata := reassdata st; reassdatagrams := reassdatagrams st;
     ip_reass_pbufcount := x; reass_pool := reass_pool st |}.
Definition with_reass_pool (st : ipnet) (x : R) : ipnet :=
  {| low := low st; ip_id := ip_id st; netif_default := netif_default st; ip_stats := ip_stats st;
     ip_data := ip_data st; reassdata := reassdata st; reassdatagrams := reassdatagrams st;
     ip_reass_pbufcount := ip_reass_pbufcount st; reass_pool := x |}.
End state.

(** [MEMP_FRAG_PBUF]. *)
Class FragPool (S : Type) := {
  frag_malloc : S -> outcome (Z * S);
  frag_free : Z -> S -> outcome S
}.

Section ip4.
Context {S R : Type} `{!PbufAlloc S} `{!FragPool S}.
Abbreviation state := (@ipnet S R).
Abbreviation M := (ST state).
Context (call_custom_free : Z -> Z -> ST (@pstate S) unit) (garbage : Z -> Z).
Context {Link : LinkDriver}.

(** An operation of the link layer, and one on the packet buffers. *)
Definition on_low {A} (m : ST (@net S) A) : M A := fun st =>
  match m (low st) with
  | Ok (a, s) => Ok (a, with_low st s)
  | Panic => Panic
  | Fault => Fault
  | Diverge => Diverge
  end.
Definition on_pb {A} (m : ST (@pstate S) A) : M A := on_low (on_pm m).
Definition IP_STATS_INC (c : ip_counter) : M unit := fun st =>
  Ok (tt, with_ip_stats st (fun x => if decide (x = c) then u16 (ip_stats st c + 1) else ip_stats st x)).

(** ** Headers *)

(** Fields of [struct ip_hdr] as they are in memory, in network byte order. *)
Definition get8 (x : ptr) (o : Z) : M Z := on_low (read8 x o).
Definition get16 (x : ptr) (o : Z) : M Z := on_low (read16 x o).
Definition get32 (x : ptr) (o : Z) : M Z := bs ← on_pb (read_mem (ptr_add x o) 4); mret (le_val bs).
Definition set8 (x : ptr) (o v : Z) : M unit := on_pb (write_mem (ptr_add x o) [v]).
Definition set16 (x : ptr) (o v : Z) : M unit := on_pb (write_mem (ptr_add x o) (le_bytes 2 v)).
Definition set32 (x : ptr) (o v : Z) : M unit := on_pb (write_mem (ptr_add x o) (le_bytes 4 v)).

Definition IPH_V (hdr : ptr) : M Z := v ← get8 hdr 0; mret (Z.shiftr v 4).
Definition IPH_HL_BYTES (hdr : ptr) : M Z := v ← get8 hdr 0; mret (u8 (Z.land v 0x0f * 4)).
Definition IPH_LEN (hdr : ptr) : M Z := get16 hdr 2.
Definition IPH_ID (hdr : ptr) : M Z := get16 hdr 4.
Definition IPH_OFFSET (hdr : ptr) : M Z := get16 hdr 6.
Definition IPH_OFFSET_BYTES (hdr : ptr) : M Z :=
  v ← IPH_OFFSET hdr; mret (u16 (Z.land (lwip_htons v) IP_OFFMASK * 8)).
Definition IPH_PROTO (hdr : ptr) : M Z := get8 hdr 9.
Definition IPH_SRC (hdr : ptr) : M Z := get32 hdr 12.
Definition IPH_DEST (hdr : ptr) : M Z := get32 hdr 16.
Definition IPH_LEN_SET (hdr : ptr) (v : Z) : M unit := set16 hdr 2 v.
Definition IPH_OFFSET_SET (hdr : ptr) (v : Z) : M unit := set16 hdr 6 v.
Definition IPH_TTL_SET (hdr : ptr) (v : Z) : M unit := set8 hdr 8 (u8 v).
Definition IPH_CHKSUM_SET (hdr : ptr) (v : Z) : M unit := set16 hdr 10 v.
(** [inet_chksum] of [n] bytes in memory. *)
Definition chksum_mem (x : ptr) (n : Z) : M Z := bs ← on_pb (read_mem x n); mret (inet_chksum (ptr_addr x) bs).

(** ** Routing *)

Definition netif_is_up (nif : netif) : bool := negb (Z.land (nif_flags (nif_addrs nif)) NETIF_FLAG_UP =? 0).
Definition netif_is_link_up (nif : netif) : bool := negb (Z.land (nif_flags (nif_addrs nif)) NETIF_FLAG_LINK_UP =? 0).
(** Up, with a link and a valid address. *)
Definition netif_usable (nif : netif) : bool :=
  netif_is_up nif && netif_is_link_up nif && negb (ip4_addr_isany_val (nif_ip (nif_addrs nif))).
(** On the interface's network, or its peer. *)
Definition netif_reaches (dest : Z) (nif : netif) : bool :=
  ip4_addr_net_eq dest (nif_ip (nif_addrs nif)) (nif_netmask (nif_addrs nif)) ||
  ((Z.land (nif_flags (nif_addrs nif)) NETIF_FLAG_BROADCAST =? 0) && ip4_addr_eq dest (nif_gw nif)).

(** A pointer to an address, or NULL, which as a destination is
    [LWIP_IP_HDRINCL]: the datagram has its header already. *)
Definition addr_isany (a : option Z) : bool := match a with None => true | Some x => ip4_addr_isany_val x end.
Definition addr_deref (a : option Z) : M Z := match a with Some x => mret x | None => fun _ => Fault end.

Fixpoint route_loop (fuel : nat) (n : Z) (dest : option Z) : M Z :=
  match fuel with
  | O => fun _ => Diverge
  | Datatypes.S fuel' =>
      if n =? 0 then mret 0
      else
        nif ← on_low (netif_get n);
        if netif_usable nif then
          d ← addr_deref dest;
          if netif_reaches d nif then mret n else route_loop fuel' (nif_next nif) dest
        else route_loop fuel' (nif_next nif) dest
  end.

Definition ip4_route (dest : option Z) : M Z :=
  st ← get;
  n ← route_loop (Datatypes.S (size (netifs (low st)))) (netif_list (low st)) dest;
  if negb (n =? 0) then mret n
  else
    let dn := netif_default st in
    unusable ← (if dn =? 0 then mret true
                else
                  nif ← on_low (netif_get dn);
                  if netif_usable nif then d ← addr_deref dest; mret (ip4_addr_isloopback d) else mret true);
    if (unusable : bool) then _ ← IP_STATS_INC ip_rterr; mret 0 else mret dn.

(** ** Fragmentation *)

(** [struct pbuf_custom_ref]: behind its pbuf is the field [original]; the
    address of [ipfrag_free_pbuf_custom] is its [custom_free_function]. *)
Context (ipfrag_free_fn : Z).

Definition with_custom_fn (st : @pstate S) (x : gmap Z Z) : @pstate S :=
  {| pbufs := pbufs st; own := own st; ext := ext st; custom_fn := x;
     free_ooseq_pending := free_ooseq_pending st; alloc := alloc st |}.

Definition ip_frag_alloc_pbuf_custom_ref : ST (@pstate S) Z := fun st =>
  '(a, s) ← frag_malloc (alloc st);
  let st := with_alloc st s in
  Ok (a, if a =? 0 then st else with_own st (<[a := fresh_bytes garbage a 8]> (own st))).
Definition ip_frag_free_pbuf_custom_ref (p : Z) : ST (@pstate S) unit := fun st =>
  if p =? 0 then Panic
  else
    s ← frag_free p (alloc st);
    Ok (tt, with_custom_fn (with_own (with_pbufs (with_alloc st s) (delete p (pbufs st))) (delete p (own st)))
              (delete p (custom_fn st))).

(** [free] is [pbuf_free]. *)
Definition ipfrag_free_pbuf_custom (free : Z -> ST (@pstate S) Z) (p : Z) : ST (@pstate S) unit :=
  _ ← sassert (negb (p =? 0));
  bs ← read_mem (Own p 0) 8;
  let original := le_val bs in
  _ ← (if negb (original =? 0) then (_ ← free original; mret tt) else mret tt);
  ip_frag_free_pbuf_custom_ref p.

(** [pcr->original = p; pcr->pc.custom_free_function = ipfrag_free_pbuf_custom]. *)
Definition set_original (pcr p : Z) : ST (@pstate S) unit := write_mem (Own pcr 0) (le_bytes 8 p).
Definition set_free_fn (pcr : Z) : ST (@pstate S) unit := fun st =>
  Ok (tt, with_custom_fn st (<[pcr := ipfrag_free_fn]> (custom_fn st))).

(** The inner loop: pbufs that refer to the next [left_to_copy] bytes of the
    datagram are chained to [rambuf].  It returns [p], [poff] and [newpbuflen]
    as the loop leaves them; [None] is [goto memerr]. *)
Fixpoint frag_fill (fuel : nat) (rambuf p poff left_to_copy newpbuflen : Z) : ST (@pstate S) (option (Z * Z * Z)) :=
  match fuel with
  | O => fun _ => Diverge
  | Datatypes.S fuel' =>
      if left_to_copy =? 0 then mret (Some (p, poff, newpbuflen))
      else
        b ← pb_get p;
        let plen := u16 (len b - poff) in
        _ ← sassert (poff <=? len b);
        let newpbuflen := Z.min left_to_copy plen in
        if newpbuflen =? 0 then frag_fill fuel' rambuf (next b) 0 left_to_copy newpbuflen
        else
          pcr ← ip_frag_alloc_pbuf_custom_ref;
          if pcr =? 0 then _ ← pbuf_free call_custom_free rambuf; mret None
          else
            newpbuf ← pbuf_alloced_custom PBUF_RAW newpbuflen PBUF_REF pcr (ptr_add (payload b) poff) newpbuflen;
            if newpbuf =? 0 then
              _ ← ip_frag_free_pbuf_custom_ref pcr;
              _ ← pbuf_free call_custom_free rambuf;
              mret None
            else
              _ ← pbuf_ref p;
              _ ← set_original pcr p;
              _ ← set_free_fn pcr;
              _ ← pbuf_cat rambuf newpbuf;
              let left_to_copy := u16 (left_to_copy - newpbuflen) in
              if negb (left_to_copy =? 0) then
                b ← pb_get p; frag_fill fuel' rambuf (next b) 0 left_to_copy newpbuflen
              else frag_fill fuel' rambuf p poff left_to_copy newpbuflen
  end.

(** One fragment is made and sent for every iteration. *)
Fixpoint frag_loop (fuel : nat) (n dest mtu nfb : Z) (original_iphdr : ptr) (mf_set : bool)
    (p left ofo poff newpbuflen : Z) : M Z :=
  match fuel with
  | O => fun _ => Diverge
  | Datatypes.S fuel' =>
      if left =? 0 then mret ERR_OK
      else
        let fragsize := Z.min left (u16 (nfb * 8)) in
        rambuf ← on_pb (pbuf_alloc call_custom_free garbage PBUF_LINK IP_HLEN PBUF_RAM);
        if rambuf =? 0 then mret ERR_MEM
        else
          rb ← on_pb (pb_get rambuf);
          _ ← sassert (IP_HLEN <=? len rb);
          let iphdr := payload rb in
          _ ← on_pb (MEMCPY iphdr original_iphdr IP_HLEN);
          chain ← on_pb chain_fuel;
          filled ← on_pb (frag_fill (chain + chain) rambuf p poff fragsize newpbuflen);
          match filled with
          | None => mret ERR_MEM
          | Some (p, poff, newpbuflen) =>
              let poff := u16 (poff + newpbuflen) in
              let last := left <=? mtu - IP_HLEN in
              let tmp := Z.land IP_OFFMASK ofo in
              let tmp := if negb last || mf_set then Z.lor tmp IP_MF else tmp in
              _ ← IPH_OFFSET_SET iphdr (lwip_htons tmp);
              _ ← IPH_LEN_SET iphdr (lwip_htons (u16 (fragsize + IP_HLEN)));
              _ ← IPH_CHKSUM_SET iphdr 0;
              sum ← chksum_mem iphdr IP_HLEN;
              _ ← IPH_CHKSUM_SET iphdr sum;
              _ ← on_low (etharp_output call_custom_free garbage n rambuf dest);
              _ ← IP_STATS_INC ip_frag_xmit;
              _ ← on_pb (pbuf_free call_custom_free rambuf);
              frag_loop fuel' n dest mtu nfb original_iphdr mf_set p (u16 (left - fragsize)) (u16 (ofo + nfb))
                poff newpbuflen
          end
  end.

Definition ip4_frag (p n dest : Z) : M Z :=
  nif ← on_low (netif_get n);
  let nfb := u16 (Z.quot (nif_mtu nif - IP_HLEN) 8) in
  b ← on_pb (pb_get p);
  let original_iphdr := payload b in
  hlen ← IPH_HL_BYTES original_iphdr;
  if negb (hlen =? IP_HLEN) then mret ERR_VAL
  else if negb (IP_HLEN <=? len b) then mret ERR_VAL
  else
    off ← IPH_OFFSET original_iphdr;
    let tmp := lwip_htons off in
    let left := u16 (tot_len b - IP_HLEN) in
    frag_loop (Datatypes.S (Z.to_nat left)) n dest (nif_mtu nif) nfb original_iphdr (negb (Z.land tmp IP_MF =? 0))
      p left (Z.land tmp IP_OFFMASK) IP_HLEN 0.

(** ** Output *)

(** The header that [ip4_output_if_src] writes, with its checksum summed up on
    the way. *)
Definition write_ip_header (p : Z) (src : option Z) (dest ttl tos proto : Z) : M unit :=
  b ← on_pb (pb_get p);
  let iphdr := payload b in
  _ ← sassert (IP_HLEN <=? len b);
  _ ← IPH_TTL_SET iphdr ttl;
  _ ← set8 iphdr 9 (u8 proto);
  let chk_sum := u32 (0 + PP_HTONS (Z.lor proto (Z.shiftl ttl 8))) in
  _ ← set32 iphdr 16 dest;
  d ← get32 iphdr 16;
  let chk_sum := u32 (chk_sum + Z.land d 0xffff) in
  let chk_sum := u32 (chk_sum + Z.shiftr d 16) in
  _ ← set8 iphdr 0 (u8 (Z.lor (Z.shiftl 4 4) (IP_HLEN / 4)));
  _ ← set8 iphdr 1 tos;
  vhl ← get8 iphdr 0;
  let chk_sum := u32 (chk_sum + PP_HTONS (Z.lor tos (Z.shiftl vhl 8))) in
  _ ← IPH_LEN_SET iphdr (lwip_htons (tot_len b));
  len' ← get16 iphdr 2;
  let chk_sum := u32 (chk_sum + len') in
  _ ← IPH_OFFSET_SET iphdr 0;
  st ← get;
  _ ← set16 iphdr 4 (lwip_htons (ip_id st));
  id ← get16 iphdr 4;
  let chk_sum := u32 (chk_sum + id) in
  _ ← (fun st => Ok (tt, with_ip_id st (u16 (ip_id st + 1))));
  _ ← set32 iphdr 12 (match src with None => IPADDR_ANY | Some a => a end);
  s ← get32 iphdr 12;
  let chk_sum := u32 (chk_sum + Z.land s 0xffff) in
  let chk_sum := u32 (chk_sum + Z.shiftr s 16) in
  let chk_sum := u32 (Z.shiftr chk_sum 16 + Z.land chk_sum 0xffff) in
  let chk_sum := u32 (Z.shiftr chk_sum 16 + chk_sum) in
  let chk_sum := u32 (Z.lnot chk_sum) in
  IPH_CHKSUM_SET iphdr (u16 chk_sum).

Definition ip4_output_if_src (p : Z) (src dest : option Z) (ttl tos proto n : Z) : M Z :=
  b ← on_pb (pb_get p);
  _ ← sassert (ref b =? 1);
  r ← match dest with
      | Some d =>
          failed ← on_pb (pbuf_add_header p IP_HLEN);
          if (failed : bool) then _ ← IP_STATS_INC ip_err; mret None
          else _ ← write_ip_header p src d ttl tos proto; mret (Some d)
      | None =>
          b ← on_pb (pb_get p);
          if len b <? IP_HLEN then _ ← IP_STATS_INC ip_err; mret None
          else d ← IPH_DEST (payload b); mret (Some d)
      end;
  match r with
  | None => mret ERR_BUF
  | Some d =>
      _ ← IP_STATS_INC ip_xmit;
      nif ← on_low (netif_get n);
      b ← on_pb (pb_get p);
      if negb (nif_mtu nif =? 0) && (nif_mtu nif <? tot_len b) then ip4_frag p n d
      else on_low (etharp_output call_custom_free garbage n p d)
  end.

Definition ip4_output_if (p : Z) (src dest : option Z) (ttl tos proto n : Z) : M Z :=
  nif ← on_low (netif_get n);
  let src_used := match dest with
                  | Some _ => if addr_isany src then Some (nif_ip (nif_addrs nif)) else src
                  | None => src
                  end in
  ip4_output_if_src p src_used dest ttl tos proto n.

Definition ip4_output (p : Z) (src dest : option Z) (ttl tos proto : Z) : M Z :=
  b ← on_pb (pb_get p);
  _ ← sassert (ref b =? 1);
  n ← ip4_route dest;
  if n =? 0 then _ ← IP_STATS_INC ip_rterr; mret ERR_RTE
  else ip4_output_if p src dest ttl tos proto n.

(** ** Running the operations *)

Lemma on_low_bind {A B} (m : ST (@net S) A) (f : A -> M B) st a s :
  m (low st) = Ok (a, s) -> (on_low m ≫= f) st = f a (with_low st s).
Proof. intros E. unfold mbind, st_bind, on_low. by rewrite E. Qed.
Lemma on_low_ok {A} (m : ST (@net S) A) (st : state) a s :
  m (low st) = Ok (a, s) -> on_low m st = Ok (a, with_low st s).
Proof. intros E. unfold on_low. by rewrite E. Qed.
Lemma on_pb_bind {A B} (m : ST (@pstate S) A) (f : A -> M B) st a s :
  m (pm (low st)) = Ok (a, s) -> (on_pb m ≫= f) st = f a (with_low st (with_pm (low st) s)).
Proof. intros E. apply on_low_bind. by apply on_pm_ok. Qed.
Lemma on_pb_get_bind {B} p b (f : pbuf -> M B) st :
  pbufs (pm (low st)) !! p = Some b -> (on_pb (pb_get p) ≫= f) st = f b st.
Proof.
  intros Hb. rewrite (on_pb_bind _ _ _ b (pm (low st))); [by destruct st as [[] ? ? ? ? ? ? ? ?]|].
  unfold pb_get. by rewrite Hb.
Qed.
Lemma netif_bind {B} n x (f : netif -> M B) st :
  netifs (low st) !! n = Some x -> (on_low (netif_get n) ≫= f) st = f x st.
Proof.
  intros H. rewrite (on_low_bind _ _ _ x (low st)); [by destruct st|]. unfold netif_get. by rewrite H.
Qed.
Lemma stats_bind {B} c (f : unit -> M B) st :
  (IP_STATS_INC c ≫= f) st
  = f tt (with_ip_stats st (fun x => if decide (x = c) then u16 (ip_stats st c + 1) else ip_stats st x)).
Proof. done. Qed.

(** Memory at [x] holds [hs]. *)
Definition region (s : @pstate S) (x : ptr) (hs : list Z) : Prop :=
  exists bs, mem_obj s x = Some bs /\ 0 <= ptr_ofs x /\
    ptr_ofs x + Z.of_nat (length hs) <= Z.of_nat (length bs) /\
    hs = slice (ptr_ofs x) (Z.of_nat (length hs)) bs.

Lemma region_read s x hs o k :
  region s x hs -> 0 <= o -> 0 <= k -> o + k <= Z.of_nat (length hs) ->
  read_mem (ptr_add x o) k s = Ok (slice o k hs, s).
Proof.
  intros (bs & Hb & H0 & Hl & Hhs) Ho Hk Hok. unfold read_mem. destruct (Z.leb_spec k 0) as [Hk0|Hk0].
  { replace k with 0 by lia. by rewrite slice_0. }
  assert (Em : mem_obj s (ptr_add x o) = mem_obj s x) by (by destruct x).
  assert (Eo : ptr_ofs (ptr_add x o) = ptr_ofs x + o) by (by destruct x).
  rewrite Em, Hb. unfold in_object. rewrite Eo.
  replace ((0 <=? ptr_ofs x + o) && (ptr_ofs x + o + k <=? Z.of_nat (length bs))) with true by lia.
  f_equal. f_equal. transitivity (slice o k (slice (ptr_ofs x) (Z.of_nat (length hs)) bs)); [|by rewrite <-Hhs].
  apply list_eq. intros i. rewrite !slice_lookup.
  repeat case_decide; try lia; try done. f_equal. lia.
Qed.

Lemma region_bind {B} (st : state) x hs o k (f : list Z -> M B) : region (pm (low st)) x hs -> 0 <= o -> 0 <= k -> o + k <= Z.of_nat (length hs) ->
  (on_pb (read_mem (ptr_add x o) k) ≫= f) st = f (slice o k hs) st.
Proof.
  intros. rewrite (on_pb_bind _ _ _ (slice o k hs) (pm (low st))) by (by eapply region_read).
  by destruct st as [[] ? ? ? ? ? ? ? ?].
Qed.
Lemma get8_bind {B} (st : state) x hs o (f : Z -> M B) : region (pm (low st)) x hs -> 0 <= o -> o + 1 <= Z.of_nat (length hs) ->
  (get8 x o ≫= f) st = f (le_val (slice o 1 hs)) st.
Proof.
  intros. unfold get8. rewrite (on_low_bind _ _ _ (le_val (slice o 1 hs)) (low st)); [by destruct st|].
  unfold read8. rewrite (on_pm_bind _ _ _ (slice o 1 hs) (pm (low st))) by (by eapply region_read).
  by destruct (low st).
Qed.
Lemma get16_bind {B} (st : state) x hs o (f : Z -> M B) : region (pm (low st)) x hs -> 0 <= o -> o + 2 <= Z.of_nat (length hs) ->
  (get16 x o ≫= f) st = f (le_val (slice o 2 hs)) st.
Proof.
  intros. unfold get16. rewrite (on_low_bind _ _ _ (le_val (slice o 2 hs)) (low st)); [by destruct st|].
  unfold read16. rewrite (on_pm_bind _ _ _ (slice o 2 hs) (pm (low st))) by (by eapply region_read).
  by destruct (low st).
Qed.
Lemma get32_bind {B} (st : state) x hs o (f : Z -> M B) : region (pm (low st)) x hs -> 0 <= o -> o + 4 <= Z.of_nat (length hs) ->
  (get32 x o ≫= f) st = f (le_val (slice o 4 hs)) st.
Proof.
  intros. unfold get32. rewrite (st_bind_ok _ _ _ (le_val (slice o 4 hs)) st); [done|].
  by erewrite region_bind.
Qed.
Lemma chksum_mem_bind {B} (st : state) x hs k (f : Z -> M B) : region (pm (low st)) x hs -> 0 <= k <= Z.of_nat (length hs) ->
  (chksum_mem x k ≫= f) st = f (inet_chksum (ptr_addr x) (slice 0 k hs)) st.
Proof.
  intros. unfold chksum_mem. rewrite (st_bind_ok _ _ _ (inet_chksum (ptr_addr x) (slice 0 k hs)) st); [done|].
  rewrite <-(ptr_add_0 x) at 1. by erewrite region_bind by (done || lia).
Qed.

(** ** Writing a header *)

(** [st] with the bytes [hs] written at the start [ofs] of what [p] holds in [s]. *)
Definition hstate (st : state) (s : @pstate S) (p ofs : Z) (bs hs : list Z) : state :=
  with_low st (with_pm (low st) (headed s p ofs bs hs)).

Lemma hstate_region st s p ofs bs hs :
  0 <= ofs -> ofs + Z.of_nat (length hs) <= Z.of_nat (length bs) ->
  region (pm (low (hstate st s p ofs bs hs))) (Own p ofs) hs.
Proof.
  intros ? ?. eexists. split; [apply lookup_insert_eq|]. simpl. rewrite splice_length by lia.
  split; [done|]. split; [lia|]. symmetry. by apply slice_same.
Qed.
Lemma hstate_set {B} st s p ofs bs hs o new (f : unit -> M B) :
  0 <= ofs -> ofs + Z.of_nat (length hs) <= Z.of_nat (length bs) ->
  0 <= o -> o + Z.of_nat (length new) <= Z.of_nat (length hs) ->
  (on_pb (write_mem (ptr_add (Own p ofs) o) new) ≫= f) (hstate st s p ofs bs hs)
  = f tt (hstate st s p ofs bs (splice o new hs)).
Proof.
  intros. apply (on_pb_bind _ _ (hstate st s p ofs bs hs) tt (headed s p ofs bs (splice o new hs))).
  apply write_headed; done.
Qed.

Lemma hstate_set_end st s p ofs bs hs o new :
  0 <= ofs -> ofs + Z.of_nat (length hs) <= Z.of_nat (length bs) ->
  0 <= o -> o + Z.of_nat (length new) <= Z.of_nat (length hs) ->
  on_pb (write_mem (ptr_add (Own p ofs) o) new) (hstate st s p ofs bs hs)
  = Ok (tt, hstate st s p ofs bs (splice o new hs)).
Proof.
  intros. apply (on_low_ok _ (hstate st s p ofs bs hs) tt (with_pm (low st) (headed s p ofs bs (splice o new hs)))).
  apply (on_pm_ok _ (low (hstate st s p ofs bs hs)) tt (headed s p ofs bs (splice o new hs))).
  by apply write_headed.
Qed.
Lemma hstate_get16 {B} st s p ofs bs hs o v (f : Z -> M B) :
  0 <= ofs -> ofs + Z.of_nat (length hs) <= Z.of_nat (length bs) -> 0 <= o -> o + 2 <= Z.of_nat (length hs) ->
  is_u16 v ->
  (get16 (Own p ofs) o ≫= f) (hstate st s p ofs bs (splice o (le_bytes 2 v) hs))
  = f v (hstate st s p ofs bs (splice o (le_bytes 2 v) hs)).
Proof.
  intros H1 H2 H3 H4 Hv. rewrite (get16_bind _ _ (splice o (le_bytes 2 v) hs)).
  - rewrite (slice_same o (le_bytes 2 v)) by done. by rewrite le_val_u16.
  - apply hstate_region; [done|]. by rewrite splice_length.
  - done.
  - by rewrite splice_length.
Qed.
Lemma hstate_get32 {B} st s p ofs bs hs o v (f : Z -> M B) :
  0 <= ofs -> ofs + Z.of_nat (length hs) <= Z.of_nat (length bs) -> 0 <= o -> o + 4 <= Z.of_nat (length hs) ->
  is_u32 v ->
  (get32 (Own p ofs) o ≫= f) (hstate st s p ofs bs (splice o (le_bytes 4 v) hs))
  = f v (hstate st s p ofs bs (splice o (le_bytes 4 v) hs)).
Proof.
  intros H1 H2 H3 H4 Hv. rewrite (get32_bind _ _ (splice o (le_bytes 4 v) hs)).
  - rewrite (slice_same o (le_bytes 4 v)) by done. by rewrite le_val_u32.
  - apply hstate_region; [done|]. by rewrite splice_length.
  - done.
  - by rewrite splice_length.
Qed.

(** Writes [new] at [o] of the header, whose length [Hl] gives. *)
Ltac put o new :=
  match goal with
  | Hl : length ?h = 20%nat |- context [hstate _ _ _ _ _ ?h] =>
      rewrite hstate_set by (rewrite ?Hl, ?length_le_bytes; simpl length; lia);
      let Hl' := fresh in
      assert (Hl' : length (splice o new h) = 20%nat) by
        (rewrite splice_length by (rewrite ?Hl, ?length_le_bytes; simpl length; lia); exact Hl)
  end.
(** Reads back what was written last. *)
Ltac back lem := rewrite lem by first [assumption|by apply htons_u16
  |match goal with Hl : length ?h = 20%nat |- context [length ?h] => rewrite Hl; lia end|lia].

Definition src_addr (src : option Z) : Z := match src with None => IPADDR_ANY | Some a => a end.

(** The writes of the header and the sum that goes with them. *)
Lemma write_ip_header_run p b ofs bs src dest ttl tos proto st :
  pbufs (pm (low st)) !! p = Some b -> payload b = Own p ofs -> own (pm (low st)) !! p = Some bs ->
  20 <= len b -> 0 <= ofs -> ofs + 20 <= Z.of_nat (length bs) ->
  is_u8 ttl -> is_u8 tos -> is_u8 proto -> is_u32 dest -> is_u32 (src_addr src) ->
  is_u16 (tot_len b) -> is_u16 (ip_id st) ->
  write_ip_header p src dest ttl tos proto st
  = Ok (tt, hstate (with_ip_id st (u16 (ip_id st + 1))) (pm (low st)) p ofs bs
              (ip_header_of tos (tot_len b) (ip_id st) 0 ttl proto (src_addr src) dest)).
Proof.
  intros Hb Hp Hbs Hlb Ho Hlen Httl Htos Hpr Hd Hs Ht Hi. unfold write_ip_header.
  rewrite (on_pb_get_bind _ _ _ _ Hb). rewrite sassert_bind by (unfold IP_HLEN; lia). rewrite Hp.
  assert (Hh : length (slice ofs 20 bs) = 20%nat) by (rewrite slice_length; lia).
  assert (E0 : st = hstate st (pm (low st)) p ofs bs (slice ofs 20 bs)).
  { unfold hstate. rewrite <-headed_start by (done || lia). by destruct st as [[] ? ? ? ? ? ? ? ?]. }
  rewrite E0 at 1. clear E0. set (s0 := pm (low st)) in *. set (h0 := slice ofs 20 bs) in *. clearbody h0.
  unfold IPH_TTL_SET, set8, set16, set32, IPH_LEN_SET, IPH_OFFSET_SET, IPH_CHKSUM_SET, set16. rewrite !u8_id by done.
  put 8 [ttl]. put 9 [proto]. put 16 (le_bytes 4 dest). back @hstate_get32.
  change (Z.lor (Z.shiftl 4 4) (IP_HLEN / 4)) with 0x45. put 0 [0x45]. put 1 [tos].
  erewrite get8_bind; [|by apply hstate_region; lia|lia|lia]. rewrite slice_before by lia.
  rewrite (slice_same 0 [0x45]) by (change (length [0x45]) with 1%nat; lia). change (le_val [0x45]) with 0x45.
  put 2 (le_bytes 2 (lwip_htons (tot_len b))). back @hstate_get16. put 6 (le_bytes 2 0).
  rewrite get_bind. change (ip_id (hstate st s0 p ofs bs ?h)) with (ip_id st).
  put 4 (le_bytes 2 (lwip_htons (ip_id st))). back @hstate_get16.
  match goal with |- context [hstate st s0 p ofs bs ?h] =>
    rewrite (st_bind_ok _ _ _ tt (hstate (with_ip_id st (u16 (ip_id st + 1))) s0 p ofs bs h)) by reflexivity end.
  change (match src with Some a => a | None => IPADDR_ANY end) with (src_addr src).
  put 12 (le_bytes 4 (src_addr src)). back @hstate_get32.
  rewrite hstate_set_end by (rewrite ?length_le_bytes; lia). rewrite !htons_be16, ip_fields by done.
  do 3 f_equal. unfold ip_header_of. f_equal. apply inline_sum; done.
Qed.

(** ** A header in front of a packet *)

Abbreviation net := (@Ethernet.net S).
Implicit Types nst : net.

(** A change of the pbufs that leaves all packets but [p] as they were. *)
Lemma lends_pm E p nst s' :
  link_ok E nst -> refs_ok (E ⊎ queued (arp_table nst)) s' -> calm (fun q => q <> p) (pm nst) s' ->
  lends p E nst (with_pm nst s').
Proof.
  intros H Hr Hc. assert (Hi := proj2 (proj2 Hc)). split; try done; [by eapply link_kept|].
  eapply calm_weaken; [exact Hc|by intros ? [_ ?]].
Qed.

(** The first bytes of a packet are overwritten. *)
Lemma headed_data E (s : @pstate S) p b1 l ofs bs hs :
  refs_ok E s -> packet (pbufs s) ((p, b1) :: l) -> own s !! p = Some bs -> payload b1 = Own p ofs -> 0 <= ofs ->
  Z.of_nat (length hs) <= len b1 -> ofs + len b1 <= Z.of_nat (length bs) ->
  data (headed s p ofs bs hs) ((p, b1) :: l) = splice 0 hs (data s ((p, b1) :: l)).
Proof.
  intros H Hp Hbs Hpl ? ? ?. rewrite !data_cons.
  assert (Hrd := refs_readable _ _ _ H Hp). apply Forall_cons in Hrd as [Hrd _]. simpl in Hrd.
  destruct (pbuf_bytes_length s p b1 Hrd ltac:(lia)) as [_ Hl].
  rewrite splice_app_l by lia. f_equal; [|by apply (refs_rest_data E s p b1 l _ H Hp)].
  unfold pbuf_bytes. rewrite Hpl. simpl. rewrite lookup_insert_eq, Hbs. simpl.
  rewrite <-(Z.add_0_r ofs) at 2. by rewrite slice_splice by lia.
Qed.
(** [k] bytes are added in front of the packet [l] of [p], whose first pbuf becomes [b1];
    then its first bytes are written. *)
Definition prepends (E : gmultiset Z) (nst : net) (p : Z) (l : list (Z * pbuf)) (s1 : @pstate S) (k : Z) (b1 : pbuf)
    (ofs : Z) (bs : list Z) : Prop :=
  pbufs s1 !! p = Some b1 /\ payload b1 = Own p ofs /\ own s1 !! p = Some bs /\ 0 <= ofs /\
  ofs + len b1 <= Z.of_nat (length bs) /\ k <= len b1 /\ tot_len b1 = total l + k /\ is_u16 (tot_len b1) /\
  (forall b0 l0, l = (p, b0) :: l0 -> payload b0 = Own p (ofs + k) /\ len b1 = len b0 + k /\ type_internal b1 = type_internal b0) /\
  own s1 = own (pm nst) /\
  forall hs, Z.of_nat (length hs) <= len b1 ->
    let nst' := with_pm nst (headed s1 p ofs bs hs) in
    lends p E nst nst' /\ sendable E nst' p ((p, b1) :: tail l) /\
    data (pm nst') ((p, b1) :: tail l) = splice 0 hs (slice ofs k bs ++ data (pm nst) l).

Lemma add_header_prepends E nst p l k :
  link_ok E nst -> sendable E nst p l -> 0 < k ->
  (pbuf_add_header p k (pm nst) = Ok (true, pm nst) /\ ~ head_room k l) \/
  exists s1 b1 ofs bs, pbuf_add_header p k (pm nst) = Ok (false, s1) /\ prepends E nst p l s1 k b1 ofs bs.
Proof.
  intros H (Hp & Hne & Hh & Hs & Hi & Hpr & Hm) Hk. destruct l as [|[a b] l]; [done|]. simpl in Hh. subst a.
  assert (Hr := link_refs _ _ H). assert (Hb : pbufs (pm nst) !! p = Some (link b l)) by apply Hp.
  destruct (pbuf_add_header_heap _ p (link b l) k (pm nst) Hr Hb Hi Hk)
    as [[E0 Hno]|(s1 & b1 & E0 & H1 & Hct & Es & Hpl & Hlen & Htot & Hnx & Hfit & Hrf & Hty)].
  { left. split; [done|]. intros (Hc & Ht & o & Ho & Hko). simpl in Ht. destruct (Hno o Hc Ho); simpl in *; lia. }
  right. destruct Hfit as (ofs & bs & Hp1 & Hbs & Hofs & Hl1 & Hrng). simpl in Hp1, Hbs, Hl1, Hrng.
  change (len (link b l)) with (len b) in *. change (tot_len (link b l)) with (len b + total l) in *.
  change (next (link b l)) with (head_addr l) in *. change (payload (link b l)) with (payload b) in *.
  assert (Hsz := refs_sized _ _ _ _ _ Hr Hp). apply sized_cons in Hsz as (_ & Hlb & Htl).
  assert (Hb1 : pbufs s1 !! p = Some b1) by (rewrite Es; apply lookup_insert_eq).
  assert (Hsz1 := refs_packet _ _ _ _ H1 Hb1). destruct Hsz1 as (l1 & Hl1' & Eb1).
  assert (Hself : b1 = link b1 l).
  { destruct b1. unfold link, with_next, with_tot_len. simpl in *. f_equal; lia || congruence. }
  assert (Hp1' : packet (pbufs s1) ((p, b1) :: l)).
  { rewrite Es. change (pbufs (with_pbufs (pm nst) ?h)) with h. rewrite Hself at 1. by apply (packet_head _ _ b). }
  assert (Hu : is_u16 (tot_len b1)).
  { assert (Hz := refs_sized _ _ _ _ _ H1 Hp1'). apply sized_cons in Hz as (_ & ? & ?).
    unfold is_u16. rewrite Hself. simpl. split; [|lia]. pose proof (total_nonneg _ (solid_len _ (Forall_inv_tail Hs))). lia. }
  exists s1, b1, ofs, bs. split; [done|]. split; [done|]. split; [done|]. split; [done|]. split; [done|]. split; [lia|].
  split; [lia|]. split; [simpl; lia|]. split; [done|]. split.
  { intros b0 l0 [= -> ->]. split; [|split; [lia|done]]. rewrite Hp1 in Hpl. destruct (payload b0) as [|q o|]; simpl in Hpl; try done.
    injection Hpl as <- ->. f_equal. lia. }
  split; [by subst s1|]. intros hs Hhs nst'. cbn [tail].
  assert (Hcalm : calm (fun q => q <> p) (pm nst) (headed s1 p ofs bs hs)).
  { subst s1. eapply calm_trans; [|apply headed_calm; simpl; by rewrite (indeg_update _ _ _ _ _ Hb)].
    apply calm_all; try done; [|intros x; by apply reach_other|intros q _; simpl; by rewrite (indeg_update _ _ _ _ _ Hb)].
    intros q _ Hq. apply spared_keep; [|done|done]. simpl. by rewrite lookup_insert_ne. }
  split; [apply lends_pm; [done|apply headed_refs; done || lia|exact Hcalm]|].
  assert (Hk' : Z.of_nat (length (slice ofs k bs)) = k) by (rewrite slice_length; lia).
  split; [|unfold nst'; simpl pm; rewrite (headed_data _ s1 p b1 l ofs bs hs H1 Hp1') by done; f_equal;
    rewrite (headed_start s1 p ofs k bs) at 1 by (done || lia); subst s1;
    apply (header_data _ (pm nst) p b b1 l ofs bs _ Hr Hp); try done; rewrite ?Hk'; lia || congruence].
  subst s1. split; [done|]. split; [done|]. split; [done|]. split; [apply Forall_cons; split; [simpl; lia|by inversion Hs]|].
  split; [|done]. simpl. by rewrite (indeg_update _ _ _ _ _ Hb).
Qed.

(** The packet has that much less room in front, and needs a copy as before. *)
Lemma prepends_alike E nst p l s1 k b1 ofs bs : sendable E nst p l -> prepends E nst p l s1 k b1 ofs bs ->
  (forall j, head_room j ((p, b1) :: tail l) <-> head_room (j + k) l) /\ needs_copy ((p, b1) :: tail l) = needs_copy l.
Proof.
  intros (_ & Hne & Hh & _) (_ & Hp1 & _ & _ & _ & _ & _ & _ & Hb0 & _). destruct l as [|[a b0] l]; [done|]. simpl in Hh. subst a.
  destruct (Hb0 b0 l eq_refl) as (Hp0 & Hl & Ht). assert (Hc : contiguous b1 = contiguous b0) by (unfold contiguous; by rewrite Ht).
  split; [|unfold needs_copy, PBUF_NEEDS_COPY; simpl; by rewrite Ht].
  intros j. unfold head_room. simpl. rewrite Hc, Hl, Hp0, Hp1.
  split; intros (? & ? & o & [= <-] & ?); (split; [done|]; split; [lia|]; eexists; split; [done|lia]).
Qed.

(** ** Output *)

Lemma lends_trans p E nst1 nst2 nst3 : lends p E nst1 nst2 -> lends p E nst2 nst3 -> lends p E nst1 nst3.
Proof.
  intros [H1 Hc Hp Hn Ha Hf] [H2 Hc' Hp' Hn' Ha' Hf']. split; [done| |by auto|congruence|congruence|by etrans].
  eapply calm_trans; [exact Hc|]. eapply calm_weaken; [exact Hc'|]. intros x [? ?]. auto.
Qed.

(** What became of the datagram [bs] that [n] was to send to [ip]: it was given to
    the driver in a frame to a group, or to the next hop, or waits for the address
    of the next hop; or there is no next hop.  The Ethernet header needs [room]; there can be a lack
    of memory for a waiting packet only if it needs a [copy]. *)
Definition transmitted (room copy : Prop) (n : Z) (nif : netif) (ip : Z) (bs : list Z) (err : Z) (nst nst' : net) : Prop :=
  if ip4_addr_isbroadcast ip nif then link_sent room n (eth_frame ethbroadcast (nif_hwaddr nif) ETHTYPE_IP bs) err nst nst'
  else if ip4_addr_ismulticast ip then link_sent room n (eth_frame (multicast_hw ip) (nif_hwaddr nif) ETHTYPE_IP bs) err nst nst'
  else match next_hop nif ip with
       | None => err = ERR_RTE /\ frames nst' = frames nst
       | Some dst => dispatched call_custom_free garbage room copy n nif dst bs err nst nst' \/
           (unicast dst nif = false /\ (forall hw, ~ cached nst n dst hw) /\ err = ERR_ARG /\ frames nst' = frames nst)
       end.

Lemma transmitted_start room copy n nif ip bs err nst0 nst1 nst' :
  frames nst1 = frames nst0 -> arp_table nst1 = arp_table nst0 ->
  transmitted room copy n nif ip bs err nst1 nst' -> transmitted room copy n nif ip bs err nst0 nst'.
Proof.
  intros Hf Ha. unfold transmitted, link_sent, sent, dispatched, parked, asked, awaited, unknown, cached. rewrite Hf, Ha. done.
Qed.
Lemma transmitted_iff (room room' copy copy' : Prop) n nif ip bs err nst nst' : (room <-> room') -> (copy -> copy') ->
  transmitted room copy n nif ip bs err nst nst' -> transmitted room' copy' n nif ip bs err nst nst'.
Proof.
  intros Hr Hc. unfold transmitted. do 2 (case_match; [by apply link_sent_iff|]). case_match; [|done].
  intros [[(i & e & st1 & He & Hs & Hip & Hn & Ha & Hl)|(Hno & st1 & Ha & Hf & Hp)]|?]; [left; left|left; right|by right].
  - exists i, e, st1. repeat (split; [done|]). by eapply link_sent_iff.
  - split; [done|]. exists st1. split; [done|]. split; [done|]. destruct Hp as [?|(? & ? & ?)]; [by left|right; by auto].
Qed.
Lemma etharp_output_transmits E n nif ip q l nst :
  link_ok E nst -> ethernet_netif nst n -> netifs nst !! n = Some nif -> sendable E nst q l ->
  exists err nst', etharp_output call_custom_free garbage n q ip nst = Ok (err, nst') /\ lends q E nst nst' /\
    transmitted (head_room SIZEOF_ETH_HDR l) (needs_copy l = true) n nif ip (data (pm nst) l) err nst nst'.
Proof.
  intros H Hn Hnif Hq. destruct (etharp_output_spec call_custom_free garbage E n nif ip q l nst H Hn Hnif Hq)
    as (err & nst' & Ee & L & T). exists err, nst'. split; [done|]. split; [done|]. unfold transmitted.
  destruct (ip4_addr_isbroadcast ip nif); [done|]. destruct (ip4_addr_ismulticast ip); [done|].
  destruct (next_hop nif ip); [done|]. by destruct T as [-> ->].
Qed.

(** Nothing is in the cache: the next hop is asked for, and the packet waits. *)
Definition waits (nst : net) (n ip : Z) (bs : list Z) : Prop :=
  exists i e, arp_table nst !! i = Some e /\ ent_state e = ETHARP_STATE_PENDING /\ ent_ipaddr e = ip /\ ent_netif e = n /\
    holds_packet nst (ent_q e) bs.
Lemma transmitted_asks room copy n nif ip dst bs err nst nst' : transmitted room copy n nif ip bs err nst nst' ->
  ip4_addr_isbroadcast ip nif = false -> ip4_addr_ismulticast ip = false -> next_hop nif ip = Some dst -> unicast dst nif = true ->
  ~ copy -> Forall (fun e => ent_state e = ETHARP_STATE_EMPTY) (arp_table nst) ->
  err = ERR_OK /\ asked call_custom_free garbage n (Some (request_to nif dst ethbroadcast)) nst nst' /\ waits nst' n dst bs.
Proof.
  intros T Hb Hm Hd Hu Hc He. unfold transmitted in T. rewrite Hb, Hm, Hd in T. rewrite Forall_lookup in He.
  destruct T as [[(i & e & st1 & Hi & Hst & _)|(_ & st1 & Hask & Hf & D)]|[? _]];
    [apply He in Hi; unfold ETHARP_STATE_STABLE, ETHARP_STATE_EMPTY in *; lia| |congruence].
  destruct D as [[-> Hw]|(_ & ? & _)]; [|done]. split; [done|]. split; [|done].
  destruct Hask as [[(i & e & Hi & Hp & _) _]|[_ Hask]]; [apply He in Hi; by rewrite Hi in Hp|].
  by eapply asked_same; [| |exact Hask].
Qed.

(** The caller's reference is the only one. *)
Lemma sendable_ref E nst p l : link_ok E nst -> sendable E nst p l -> multiplicity p E = 1%nat ->
  exists b, pbufs (pm nst) !! p = Some b /\ ref b = 1.
Proof.
  intros H (Hp & Hne & Hh & _ & Hi & [_ Hq] & _) Hm. destruct l as [|[a b] l]; [done|]. simpl in Hh. subst a.
  exists (link b l). split; [apply Hp|].
  rewrite (node_ref _ _ _ _ (heap_nodes _ _ (link_refs _ _ H) p _ (proj1 (proj2 Hp)))).
  rewrite Hi, multiplicity_disj_union, Hm. rewrite elem_of_multiplicity in Hq. lia.
Qed.

(** Output changes the link layer, the counters and [ip_id] only. *)
Definition ip_kept (st st' : state) : Prop :=
  netif_default st' = netif_default st /\ ip_data st' = ip_data st /\ reassdata st' = reassdata st /\
  reassdatagrams st' = reassdatagrams st /\ ip_reass_pbufcount st' = ip_reass_pbufcount st /\
  reass_pool st' = reass_pool st.
Lemma ip_kept_trans st1 st2 st3 : ip_kept st1 st2 -> ip_kept st2 st3 -> ip_kept st1 st3.
Proof. intros (?&?&?&?&?&?) (?&?&?&?&?&?). repeat split; congruence. Qed.

(** A packet of [n] bytes fits into one frame of the interface. *)
Definition fits_mtu (nif : netif) (k : Z) : Prop := nif_mtu nif = 0 \/ k <= nif_mtu nif.

(** The last steps of [ip4_output_if_src], for a datagram that need not be cut. *)
Lemma output_tail E p l n nif d st :
  link_ok E (low st) -> ethernet_netif (low st) n -> netifs (low st) !! n = Some nif ->
  sendable E (low st) p l -> fits_mtu nif (total l) ->
  exists err st', (_ ← IP_STATS_INC ip_xmit;
      nif ← on_low (netif_get n);
      b ← on_pb (pb_get p);
      if negb (nif_mtu nif =? 0) && (nif_mtu nif <? tot_len b) then ip4_frag p n d
      else on_low (etharp_output call_custom_free garbage n p d)) st = Ok (err, st') /\
    lends p E (low st) (low st') /\ ip_kept st st' /\ ip_id st' = ip_id st /\
    transmitted (head_room SIZEOF_ETH_HDR l) (needs_copy l = true) n nif d (data (pm (low st)) l) err (low st) (low st').
Proof.
  intros H Hn Hnif Hq Hmtu. rewrite stats_bind. set (st1 := with_ip_stats _ _).
  change (low st) with (low st1) in *. rewrite (netif_bind _ _ _ _ Hnif).
  pose proof Hq as (Hp & Hne & Hh & _). destruct l as [|[a b] l]; [done|]. simpl in Hh. subst a.
  rewrite (on_pb_get_bind _ _ _ _ (proj1 (proj2 Hp))).
  replace (negb (nif_mtu nif =? 0) && (nif_mtu nif <? tot_len (link b l))) with false
    by (unfold fits_mtu in Hmtu; simpl in *; lia).
  destruct (etharp_output_transmits E n nif d p ((p, b) :: l) (low st1) H Hn Hnif Hq) as (err & nst' & Ee & L & T).
  eexists err, _. split; [by apply on_low_ok|]. done.
Qed.

(** What [ip4_output_if_src] makes of the payload [bs]: a datagram, unless there was
    no room for its header. *)
Definition output_result (E : gmultiset Z) (p : Z) (l : list (Z * pbuf)) (n : Z) (nif : netif)
    (src : Z) (d ttl tos proto err : Z) (st st' : state) : Prop :=
  lends p E (low st) (low st') /\ ip_kept st st' /\
  ((err = ERR_BUF /\ ~ head_room IP_HLEN l /\ low st' = low st /\ ip_id st' = ip_id st) \/
   let hdr := ip_header_of tos (total l + IP_HLEN) (ip_id st) 0 ttl proto src d in
   ip_id st' = u16 (ip_id st + 1) /\ (forall a, inet_chksum a hdr = 0) /\
   transmitted (head_room (SIZEOF_ETH_HDR + IP_HLEN) l) (needs_copy l = true) n nif d (hdr ++ data (pm (low st)) l) err (low st) (low st')).

Lemma output_if_src_spec E p l n nif src d ttl tos proto st :
  link_ok E (low st) -> ethernet_netif (low st) n -> netifs (low st) !! n = Some nif ->
  sendable E (low st) p l -> multiplicity p E = 1%nat -> fits_mtu nif (total l + IP_HLEN) ->
  is_u8 ttl -> is_u8 tos -> is_u8 proto -> is_u32 d -> is_u32 (src_addr src) -> is_u16 (ip_id st) ->
  exists err st', ip4_output_if_src p src (Some d) ttl tos proto n st = Ok (err, st') /\
    output_result E p l n nif (src_addr src) d ttl tos proto err st st'.
Proof.
  intros H Hn Hnif Hq Hm Hmtu Httl Htos Hpr Hd Hs Hid. unfold ip4_output_if_src.
  destruct (sendable_ref _ _ _ _ H Hq Hm) as (b0 & Hb0 & Hr0).
  rewrite (on_pb_get_bind _ _ _ _ Hb0). rewrite sassert_bind by lia.
  destruct (add_header_prepends E (low st) p l IP_HLEN H Hq ltac:(done)) as [[E0 Hno]|(s1 & b1 & ofs & bs & E0 & P)].
  { rewrite (st_bind_ok _ _ _ None (with_ip_stats (with_low st (with_pm (low st) (pm (low st)))) _))
      by (rewrite (on_pb_bind _ _ _ _ _ E0); reflexivity).
    eexists ERR_BUF, _. split; [done|]. assert (El : with_pm (low st) (pm (low st)) = low st) by (by destruct (low st)).
    cbn [low with_ip_stats with_low]. split; [|split; [done|left; by rewrite El]].
    simpl. rewrite El. by apply lends_follows; [apply follows_refl|..]. }
  destruct (prepends_alike _ _ _ _ _ _ _ _ _ Hq P) as [Hroom Hcopy].
  destruct P as (Hb1 & Hp1 & Hbs & Hofs & Hlen & Hl1 & Ht1 & Hu1 & _ & _ & Hput).
  set (hs := ip_header_of tos (total l + IP_HLEN) (ip_id st) 0 ttl proto (src_addr src) d).
  set (st2 := hstate (with_ip_id st (u16 (ip_id st + 1))) s1 p ofs bs hs).
  rewrite (st_bind_ok _ _ _ (Some d) st2).
  2:{ rewrite (on_pb_bind _ _ _ _ _ E0). cbv iota.
      rewrite (st_bind_ok _ _ _ tt st2); [done|].
      rewrite (write_ip_header_run p b1 ofs bs) by (done || (unfold IP_HLEN in *; lia)). by rewrite Ht1. }
  destruct (Hput hs) as (L1 & Hq1 & Hd1); [done|]. rewrite splice_front in Hd1 by (by rewrite slice_length by (unfold IP_HLEN in *; lia)).
  change (with_pm (low st) (headed s1 p ofs bs hs)) with (low st2) in L1, Hq1, Hd1.
  destruct (output_tail E p ((p, b1) :: tail l) n nif d st2) as (err & st' & Eo & L2 & K2 & I2 & T2).
  - apply L1.
  - destruct Hn as (? & ? & Hn). by rewrite <-(lend_netifs _ _ _ _ L1) in Hn.
  - done.
  - done.
  - pose proof Hq1 as ((_ & Hbb & _) & _). change (pbufs (pm (low st2))) with (pbufs s1) in Hbb.
    assert (Et : tot_len b1 = len b1 + total (tail l)) by (rewrite Hb1 in Hbb; injection Hbb as Hbb; by rewrite Hbb at 1).
    unfold fits_mtu in *. simpl. lia.
  - exists err, st'. split; [exact Eo|]. split; [by eapply lends_trans|]. split; [done|]. right.
    split; [done|]. rewrite Ht1 in Hu1. split; [intros a; by apply ip_header_verifies|].
    fold hs. rewrite <-Hd1, <-Hcopy. eapply transmitted_start; [| |eapply transmitted_iff; [apply Hroom| |exact T2]]; done.
Qed.

Lemma low_pm_self (st : state) : with_low st (with_pm (low st) (pm (low st))) = st.
Proof. by destruct st as [[] ? ? ? ? ? ? ? ?]. Qed.

(** A datagram that has its header already. *)
Lemma output_hdrincl_spec E p l n nif src ttl tos proto hs st :
  link_ok E (low st) -> ethernet_netif (low st) n -> netifs (low st) !! n = Some nif ->
  sendable E (low st) p l -> multiplicity p E = 1%nat -> fits_mtu nif (total l) ->
  (exists b l', l = (p, b) :: l' /\ IP_HLEN <= len b /\ region (pm (low st)) (payload b) hs) -> length hs = 20%nat ->
  exists err st', ip4_output_if p src None ttl tos proto n st = Ok (err, st') /\
    lends p E (low st) (low st') /\ ip_kept st st' /\ ip_id st' = ip_id st /\
    transmitted (head_room SIZEOF_ETH_HDR l) (needs_copy l = true) n nif (le_val (slice 16 4 hs)) (data (pm (low st)) l) err (low st) (low st').
Proof.
  intros H Hn Hnif Hq Hm Hmtu (b & l' & -> & Hlb & Hreg) Hhs. unfold ip4_output_if.
  rewrite (netif_bind _ _ _ _ Hnif). cbv iota zeta. unfold ip4_output_if_src.
  destruct (sendable_ref _ _ _ _ H Hq Hm) as (b0 & Hb0 & Hr0).
  rewrite (on_pb_get_bind _ _ _ _ Hb0). rewrite sassert_bind by lia.
  pose proof Hq as ((_ & Hb & _) & _).
  rewrite (st_bind_ok _ _ _ (Some (le_val (slice 16 4 hs))) st).
  2:{ rewrite (on_pb_get_bind _ _ _ _ Hb). change (len (link b l')) with (len b).
      replace (len b <? IP_HLEN) with false by lia. unfold IPH_DEST. change (payload (link b l')) with (payload b).
      by rewrite (get32_bind _ _ hs) by (done || lia). }
  by apply output_tail.
Qed.

Lemma output_if_spec E p l n nif src d ttl tos proto st :
  link_ok E (low st) -> ethernet_netif (low st) n -> netifs (low st) !! n = Some nif ->
  sendable E (low st) p l -> multiplicity p E = 1%nat -> fits_mtu nif (total l + IP_HLEN) ->
  is_u8 ttl -> is_u8 tos -> is_u8 proto -> is_u32 d -> is_u32 (src_addr src) -> is_u32 (nif_ip (nif_addrs nif)) ->
  is_u16 (ip_id st) ->
  exists err st', ip4_output_if p src (Some d) ttl tos proto n st = Ok (err, st') /\
    output_result E p l n nif (if addr_isany src then nif_ip (nif_addrs nif) else src_addr src) d ttl tos proto err st st'.
Proof.
  intros H Hn Hnif Hq Hm Hmtu Httl Htos Hpr Hd Hs Hi Hid. unfold ip4_output_if.
  rewrite (netif_bind _ _ _ _ Hnif). cbv zeta. destruct (addr_isany src).
  - by apply (output_if_src_spec E p l n nif (Some (nif_ip (nif_addrs nif)))).
  - by apply output_if_src_spec.
Qed.

(** ** Packets that are given up *)

(** Memory for a packet is taken, or one is written. *)
Lemma steps_pm E nst nst1 nst2 :
  tables_kept nst nst1 -> frames nst `prefix_of` frames nst1 -> calm (private E nst) (pm nst) (pm nst1) ->
  steps E nst1 nst2 -> steps E nst nst2.
Proof.
  intros (Tn & Tl & Ta & Tt & _) Hf Hc ([H2 Hc2 Hp2 Hu2 Ha2 Hn2 Hf2] & En & Ea).
  assert (Hpr : forall q, private E nst q -> private E nst1 q) by (unfold private; by rewrite Tt).
  split; [|split; congruence]. split; rewrite <-?Ta, <-?Tn; try done.
  - eapply calm_trans; [exact Hc|]. eapply calm_weaken; [exact Hc2|done].
  - auto.
  - intros n (? & ? & nif & Hnif & ?). apply Hu2. split; [done|]. split; [done|]. exists nif. by rewrite Tn.
  - by etrans.
Qed.
(** The holder of [p] uses and then frees it. *)
Lemma lends_free E p nst nst1 : p ∉ E -> lends p ({[+ p +]} ⊎ E) nst nst1 ->
  exists k s', pbuf_free call_custom_free p (pm nst1) = Ok (k, s') /\ steps E nst (with_pm nst1 s') /\
    calm (.∈ E ⊎ queued (arp_table nst1)) (pm nst1) s'.
Proof.
  intros HpE [H1 Hc Hp Hn Ha Hf]. destruct (link_free call_custom_free E p nst1 H1) as (k & s' & Ef & Hok & Hc').
  exists k, s'. split; [done|]. split; [|done].
  assert (Hpr : forall x, private E nst x -> private ({[+ p +]} ⊎ E) nst x /\ x <> p).
  { intros x [HxE Hxq]. split; [split; [apply gmultiset_elem_of_disj_union; by right|done]|by intros ->]. }
  split; [|done]. split; simpl; rewrite ?Hn, ?Ha; try done.
  - eapply calm_trans; [eapply calm_weaken; [exact Hc|exact Hpr]|]. eapply calm_weaken; [exact Hc'|].
    intros x [HxE _]. apply gmultiset_elem_of_disj_union. by left.
  - intros x Hx. destruct (Hpr x Hx) as [Hx1 Hne]. destruct (Hp x Hne Hx1). destruct Hx. by split.
  - intros n (? & ? & nif & Hnif & ?). split; [done|]. split; [done|]. exists nif. simpl. by rewrite Hn.
  - intros a l Hl. by exists l.
Qed.
(** What was transmitted stays so when pbufs are freed. *)
Lemma transmitted_pm E room copy n nif ip bs err nst nst1 s' :
  refs_ok E (pm nst1) -> calm (.∈ queued (arp_table nst1)) (pm nst1) s' ->
  transmitted room copy n nif ip bs err nst nst1 -> transmitted room copy n nif ip bs err nst (with_pm nst1 s').
Proof.
  intros H Hc. unfold transmitted. do 2 (case_match; [done|]). case_match; [|done].
  intros [[Hs|(Hno & st1 & Ha & Hf & [(-> & i & e & He & Hst & Hip & Hn & l & Hl & Hne & Hh & Hd)|?])]|?];
    [by do 2 left| |left; right; split; [done|]; exists st1; by auto|by right].
  left. right. split; [done|]. exists st1. split; [done|]. split; [done|]. left. split; [done|]. exists i, e. repeat (split; [done|]).
  assert (Hq : head_addr l ∈ queued (arp_table nst1)).
  { rewrite Hh. apply (queued_in _ i e); [done|]. unfold hold.
    assert (ent_q e <> 0) by (destruct l as [|[a c] l]; [done|]; destruct Hl; simpl in *; congruence).
    replace (ent_q e =? 0) with false by lia. by apply gmultiset_elem_of_singleton. }
  destruct (calm_packet _ _ _ l Hc Hq Hl) as (l' & Hl' & Hsm). exists l'.
  destruct (same_pbuf_total _ _ Hsm) as (_ & Eh & _). split; [done|]. split; [intros ->; by inversion Hsm; subst|].
  split; [congruence|]. rewrite <-Hd. by apply (calm_data E (.∈ queued (arp_table nst1)) (pm nst1)).
Qed.
(** The holder of a packet writes its first bytes. *)
Lemma headed_lends E nst q b l o bs hs :
  link_ok E nst -> sendable E nst q ((q, b) :: l) -> payload b = Own q o -> own (pm nst) !! q = Some bs -> 0 <= o ->
  Z.of_nat (length hs) <= len b -> o + len b <= Z.of_nat (length bs) ->
  let nst' := with_pm nst (headed (pm nst) q o bs hs) in
  lends q E nst nst' /\ sendable E nst' q ((q, b) :: l) /\ data (pm nst') ((q, b) :: l) = splice 0 hs (data (pm nst) ((q, b) :: l)).
Proof.
  intros H (Hp & Hne & Hh & Hs & Hi & Hpr & Hm) Hpl Hbs Ho Hl Hlen nst'. assert (Hr := link_refs _ _ H).
  split; [apply lends_pm; [done|by apply headed_refs; [..|lia]|by apply headed_calm]|].
  split; [done|]. by apply (headed_data _ _ _ _ _ _ _ _ Hr).
Qed.
(** The data of the first pbuf is where its payload points. *)
Lemma packet_region E (s : @pstate S) p b l : refs_ok E s -> packet (pbufs s) ((p, b) :: l) -> 0 < len b ->
  region s (payload b) (pbuf_bytes s b) /\ length (pbuf_bytes s b) = Z.to_nat (len b).
Proof.
  intros H Hp Hl. assert (Hrd := refs_readable _ _ _ H Hp). apply Forall_cons in Hrd as [Hrd _]. simpl in Hrd.
  destruct (pbuf_bytes_length s p b Hrd ltac:(lia)) as [_ Hlen]. split; [|done].
  destruct Hrd as [?|(bs & Hbs & H0 & He)]; [lia|]. exists bs. split; [done|]. split; [done|].
  rewrite Hlen. split; [lia|]. unfold pbuf_bytes. rewrite Hbs. simpl. f_equal. lia.
Qed.
Lemma slice_data (s : @pstate S) p b l o n : 0 <= o -> 0 <= n -> o + n <= Z.of_nat (length (pbuf_bytes s b)) ->
  slice o n (pbuf_bytes s b) = slice o n (data s ((p, b) :: l)).
Proof.
  intros. rewrite data_cons, slice_app_l by lia. replace (Z.min n _) with n by lia.
  rewrite Z.sub_diag, slice_0. by rewrite app_nil_r.
Qed.

Lemma ram_uncopied q b : type_internal b = u8 PBUF_RAM -> needs_copy [(q, b)] = false.
Proof. intros Hty. unfold needs_copy, PBUF_NEEDS_COPY. simpl. by rewrite Hty. Qed.
(** A new packet of one pbuf. *)
Lemma alloc_sendable E layer n nst : link_ok E nst -> 0 < n < 65536 ->
  exists q s1, pbuf_alloc call_custom_free garbage layer n PBUF_RAM (pm nst) = Ok (q, s1) /\
    ((q = 0 /\ steps E nst (with_pm nst s1) /\ calm (fun _ => True) (pm nst) s1) \/
     exists b bs, let nst1 := with_pm nst s1 in
       q <> 0 /\ (q ∉ E) /\ pbufs (pm nst) !! q = None /\ calm (fun _ => True) (pm nst) s1 /\
       link_ok ({[+ q +]} ⊎ E) nst1 /\ sendable ({[+ q +]} ⊎ E) nst1 q [(q, b)] /\ multiplicity q ({[+ q +]} ⊎ E) = 1%nat /\
       pbufs s1 !! q = Some b /\ payload b = Own q (layer_offset layer) /\ len b = n /\ next b = 0 /\ type_internal b = u8 PBUF_RAM /\
       own s1 !! q = Some bs /\ layer_offset layer + n <= Z.of_nat (length bs)).
Proof.
  intros H Hn. assert (Hr := link_refs _ _ H).
  destruct (pbuf_alloc_ram_heap call_custom_free garbage _ layer n (pm nst) Hr ltac:(unfold is_u16; lia))
    as (q & s1 & E0 & [(-> & Hok & Hun)|(b & Hok & Hnone & Hpb & Hpl & Hlb & Ht & Hnx & Hfit & Hct & Hrf & Hc)]);
    exists q, s1 || exists 0, s1; (split; [done|]).
  { left. split; [done|]. split; [|by apply unchanged_calm]. eapply (steps_pm _ _ (with_pm nst s1)); [done|done| |apply steps_refl].
    - simpl. by apply unchanged_calm.
    - eapply link_kept; [done|exact Hok|done|]. intros q _. simpl. destruct Hun as (_ & -> & _). done. }
  right. assert (Hb : pbufs s1 !! q = Some b) by (rewrite Hpb; apply lookup_insert_eq).
  assert (Hq0 := heap_nonzero _ _ _ _ Hok Hb). destruct (heap_absent _ _ _ Hr Hnone Hq0) as [Hi Hm].
  rewrite multiplicity_disj_union in Hm. assert (HmE : multiplicity q E = 0%nat) by lia.
  destruct Hfit as (o & bs & Hp' & Hbs & Ho & _ & Hlen). simpl in Hp', Hbs, Hlen. rewrite Hpl in Hp'. injection Hp' as <-.
  assert (Hmq : multiplicity q ({[+ q +]} ⊎ E) = 1%nat) by (rewrite multiplicity_disj_union, multiplicity_singleton_eq; lia).
  exists b, bs. split; [done|]. split; [rewrite elem_of_multiplicity; lia|]. split; [done|]. split; [done|].
  split; [|split; [|repeat (split; [done|]); lia]].
  - eapply (link_change E); [done|simpl; by rewrite <-(assoc_L (⊎))|done|].
    intros x Hx. by eapply Hc, queued_nonzero.
  - assert (Hl : link b [] = b) by (apply link_single; [done|congruence]).
    split; [split; [done|]; split; [by rewrite Hl|done]|]. split; [done|]. split; [done|].
    split; [apply Forall_singleton; simpl; lia|]. split; [|split; [split; [apply multiset_head|]|by rewrite Hmq]].
    + simpl. destruct Hc as (_ & _ & Hc). specialize (Hc q Hq0). pose proof (indeg_nonneg (pbufs s1) q). lia.
    + rewrite elem_of_multiplicity. simpl. lia.
Qed.

(** ** Routing *)

(** The interface [n] is usable and has [d] on its network, or as its peer. *)
Definition serves (h : gmap Z netif) (d n : Z) : bool :=
  match h !! n with Some nif => netif_usable nif && netif_reaches d nif | None => false end.
(** The first of the interfaces [l] that serves [d]; otherwise the default
    interface, if it is usable, unless [d] is a loopback address; 0 is no route. *)
Definition route (h : gmap Z netif) (l : list Z) (dflt d : Z) : Z :=
  match List.find (serves h d) l with
  | Some n => n
  | None =>
      match h !! dflt with
      | Some nif => if netif_usable nif && negb (ip4_addr_isloopback d) then dflt else 0
      | None => 0
      end
  end.

Lemma route_loop_spec fuel l n d st :
  chain_at nif_next (netifs (low st)) n l -> (length l < fuel)%nat ->
  route_loop fuel n (Some d) st = Ok (match List.find (serves (netifs (low st)) d) l with Some n => n | None => 0 end, st).
Proof.
  revert n l. induction fuel as [|fuel IH]; intros n l Hl Hf; [lia|]. cbn [route_loop].
  destruct l as [|a l]; [by rewrite Hl|]. destruct Hl as (-> & Ha & nif & Hnif & Hl). replace (a =? 0) with false by lia.
  rewrite (netif_bind _ _ _ _ Hnif). cbn [List.find]. unfold serves at 1. rewrite Hnif.
  simpl in Hf. destruct (netif_usable nif); cbn [andb addr_deref]; [rewrite mret_bind; destruct (netif_reaches d nif); [done|]|];
    apply IH; done || lia.
Qed.

(** Every interface is an Ethernet interface with a usable MTU (RFC 791: 68 at
    least; 0 is no limit), and the default interface is one of them. *)
Definition interfaces_ok (st : state) : Prop :=
  (forall n nif, netifs (low st) !! n = Some nif ->
     ethernet_netif (low st) n /\ is_u32 (nif_ip (nif_addrs nif)) /\ fits_mtu nif 68) /\
  (netif_default st = 0 \/ is_Some (netifs (low st) !! netif_default st)).

Lemma interfaces_nonzero st n nif : interfaces_ok st -> netifs (low st) !! n = Some nif -> n <> 0.
Proof. intros [H _] Hn. by apply (H n nif Hn). Qed.
Lemma interfaces_kept st st' :
  interfaces_ok st -> netifs (low st') = netifs (low st) -> netif_default st' = netif_default st -> interfaces_ok st'.
Proof.
  intros [H Hd] En Ed. split; [|by rewrite En, Ed]. intros n nif. rewrite En. intros Hn.
  destruct (H n nif Hn) as ((? & ? & Hx) & ?). split; [|done]. split; [done|]. split; [done|]. by rewrite En.
Qed.

Lemma ip4_route_spec l d st :
  chain_at nif_next (netifs (low st)) (netif_list (low st)) l -> interfaces_ok st ->
  exists st', ip4_route (Some d) st = Ok (route (netifs (low st)) l (netif_default st) d, st') /\
    low st' = low st /\ ip_kept st st' /\ ip_id st' = ip_id st /\
    (route (netifs (low st)) l (netif_default st) d <> 0 -> st' = st).
Proof.
  intros Hl Hif. unfold ip4_route. rewrite get_bind.
  rewrite (st_bind_ok _ _ _ _ _ (route_loop_spec (Datatypes.S (size (netifs (low st)))) l _ d st Hl ltac:(pose proof (chain_at_length _ _ _ _ Hl); lia))).
  unfold route. destruct (List.find (serves (netifs (low st)) d) l) as [n|] eqn:Ef.
  { assert (n <> 0).
    { intros ->. apply find_some in Ef as [Hin _]. apply list_elem_of_In in Hin.
      destruct (chain_at_suffix _ _ _ _ _ Hl Hin) as (l1 & [|b l2] & _ & Hc & Hne); [done|]. by destruct Hc as (<- & ? & _). }
    replace (n =? 0) with false by lia. by exists st. }
  cbn [negb]. change (negb (0 =? 0)) with false. cbv iota.
  destruct (proj2 Hif) as [E0|[nif Hnif]].
  - assert (Hz : netifs (low st) !! 0 = None).
    { destruct (netifs (low st) !! 0) as [nif|] eqn:Hz; [|done]. by destruct (interfaces_nonzero _ _ _ Hif Hz). }
    rewrite E0, Hz. simpl. eexists. split; [done|]. done.
  - assert (Hne := interfaces_nonzero _ _ _ Hif Hnif). replace (netif_default st =? 0) with false by lia. rewrite Hnif.
    destruct (netif_usable nif) eqn:Eu; cbn [andb]; [destruct (ip4_addr_isloopback d) eqn:El; cbn [negb]|].
    + rewrite (st_bind_ok _ _ _ true st); [|rewrite (netif_bind _ _ _ _ Hnif), Eu; cbn [addr_deref]; by rewrite mret_bind, El].
      eexists. split; [done|]. done.
    + rewrite (st_bind_ok _ _ _ false st); [|rewrite (netif_bind _ _ _ _ Hnif), Eu; cbn [addr_deref]; by rewrite mret_bind, El].
      by exists st.
    + rewrite (st_bind_ok _ _ _ true st); [|by rewrite (netif_bind _ _ _ _ Hnif), Eu].
      eexists. split; [done|]. done.
Qed.

(** A route leads to an interface. *)
Lemma route_some h l dflt d : route h l dflt d <> 0 -> is_Some (h !! route h l dflt d).
Proof.
  unfold route. destruct (List.find (serves h d) l) as [n|] eqn:Ef.
  - intros _. apply find_some in Ef as [_ Hs]. unfold serves in Hs. by destruct (h !! n).
  - destruct (h !! dflt) as [nif|] eqn:Ed; [|done]. by destruct (netif_usable nif && negb (ip4_addr_isloopback d)).
Qed.

End ip4.

(** ** The properties at a concrete host *)

Section example.
#[local] Existing Instance example_PbufAlloc.
(** No pbufs for fragments are left. *)
Definition example_FragPool : FragPool (memp_state * Z) := {| frag_malloc s := Ok (0, s); frag_free _ s := Ok s |}.
#[local] Existing Instance example_FragPool.

Definition example_ip (s : @pstate (memp_state * Z)) : @ipnet (memp_state * Z) memp_state :=
  {| low := with_pm example_net s; ip_id := 7; netif_default := 0x300; ip_stats := fun _ => 0;
     ip_data := {| current_netif := 0x300; current_input_netif := 0x300; current_ip4_header := NULL; current_ip_header_tot_len := 0;
                   current_iphdr_src := 0; current_iphdr_dest := 0 |};
     reassdata := ∅; reassdatagrams := 0; ip_reass_pbufcount := 0; reass_pool := memp_init example_pools example_boot |}.
Lemma example_interfaces s : interfaces_ok (Link := example_driver) (example_ip s).
Proof.
  split; [|right; by exists example_nif]. intros n nif Hn. simpl in Hn. apply lookup_singleton_Some in Hn as [<- <-].
  split; [split; [done|]; split; [done|]; by exists example_nif|]. split; [done|]. right. vm_compute. discriminate.
Qed.

(** Three bytes, with room for the headers of IP and Ethernet. *)
Definition example_pm2 : @pstate (memp_state * Z) :=
  after (pbuf_alloc no_custom (fun a => u8 a) PBUF_IP 3 PBUF_RAM example_st0).
Lemma example_refs2 : refs_ok ({[+ 0x10000 +]} ⊎ ∅) example_pm2.
Proof.
  destruct (pbuf_alloc_ram_heap no_custom (fun a => u8 a) ∅ PBUF_IP 3 example_st0 example_refs ltac:(done)) as (p & st' & E & H).
  assert (E' : pbuf_alloc no_custom (fun a => u8 a) PBUF_IP 3 PBUF_RAM example_st0 = Ok (0x10000, example_pm2)) by (vm_compute; reflexivity).
  rewrite E' in E. injection E as <- <-. by destruct H as [[? _]|(b & H & _)].
Qed.
Lemma example_sendable2 : sendable ({[+ 0x10000 +]} ⊎ ∅) (low (example_ip example_pm2)) 0x10000 [(0x10000, ram_pbuf 0x10000 34 3)].
Proof.
  split; [vm_compute; by repeat split|]. split; [done|]. split; [done|]. split; [by apply Forall_singleton|].
  split; [by vm_compute|]. split; [apply example_private|]. by vm_compute.
Qed.

Lemma ram_room p o n k : n + k < 65536 -> k <= o -> head_room k [(p, ram_pbuf p o n)].
Proof. intros. split; [done|]. split; [simpl; lia|]. by exists o. Qed.
End example.
