(* ===== verification/Icmp.v ===== *)
(** * ICMP (core/ipv4/icmp.c)

    Echo requests are answered, in the packet that carried them or in a copy with
    room for the headers; [icmp_send_response] reports that a datagram could not
    be delivered. *)

From stdpp Require Import gmultiset.
From S2P Require Import Prelude Def Chksum Ip4Addr Memp Mem Pbuf PbufData PbufHeap PbufSole Ethernet Link Acd Etharp EtharpIo Ip4.

Set Default Proof Using "Type".

Definition ICMP_ER : Z := 0.
Definition ICMP_DUR : Z := 3.
Definition ICMP_ECHO : Z := 8.
Definition ICMP_TE : Z := 11.
Definition ICMP_TTL : Z := 255.
Definition ICMP_DEST_UNREACH_DATASIZE : Z := 8.
Definition SIZEOF_ICMP_HDR : Z := 8.

Inductive icmp_dur_type := ICMP_DUR_NET | ICMP_DUR_HOST | ICMP_DUR_PROTO | ICMP_DUR_PORT | ICMP_DUR_FRAG | ICMP_DUR_SR.
Definition dur_code (t : icmp_dur_type) : Z :=
  match t with
  | ICMP_DUR_NET => 0 | ICMP_DUR_HOST => 1 | ICMP_DUR_PROTO => 2 | ICMP_DUR_PORT => 3 | ICMP_DUR_FRAG => 4
  | ICMP_DUR_SR => 5
  end.
Inductive icmp_te_type := ICMP_TE_TTL | ICMP_TE_FRAG.
Definition te_code (t : icmp_te_type) : Z := match t with ICMP_TE_TTL => 0 | ICMP_TE_FRAG => 1 end.

(** ** Messages *)

(** An error message that quotes [q], with its checksum as it is in memory. *)
Definition icmp_error (type code : Z) (q : list Z) : list Z :=
  [type; code] ++ le_bytes 2 (65535 - cksum_ref ([type; code] ++ [0; 0] ++ [0; 0; 0; 0] ++ q)) ++ [0; 0; 0; 0] ++ q.

Lemma icmp_error_verifies addr type code q : is_u8 type -> is_u8 code -> bytes q ->
  inet_chksum addr (icmp_error type code q) = 0.
Proof.
  intros Ht Hc Hq. unfold icmp_error.
  assert (Hz : bytes ([type; code] ++ [0; 0] ++ [0; 0; 0; 0] ++ q)) by (repeat (constructor; [done|]); done).
  rewrite <-(inet_chksum_ref 0) by done. apply inet_chksum_verifies; [|done].
  repeat (constructor; [done|]); done.
Qed.
(** The writes to the first bytes of a message. *)
Lemma error_writes type code q hs : length hs = (8 + length q)%nat ->
  exists a b, splice 8 q (splice 4 (le_bytes 4 0) (splice 1 [code] (splice 0 [type] hs)))
    = [type; code; a; b; 0; 0; 0; 0] ++ q.
Proof.
  intros Hl. do 8 (destruct hs as [|? hs]; [simpl in Hl; lia|]). simpl in Hl. exists z1, z2.
  change (splice 4 _ (splice 1 _ (splice 0 _ _))) with ([type; code; z1; z2; 0; 0; 0; 0] ++ hs).
  rewrite splice_app_r by (simpl; lia). change (8 - _) with 0. rewrite splice_all; [done|lia].
Qed.
Lemma error_length type code hs : (8 <= length hs)%nat ->
  length (splice 4 (le_bytes 4 0) (splice 1 [code] (splice 0 [type] hs))) = length hs.
Proof. intros Hl. do 8 (destruct hs as [|? hs]; [simpl in Hl; lia|]). done. Qed.

(** The checksum after the type has changed from 8 to 0, as it is in memory. *)
Definition reply_chksum (c : Z) : Z := if 0xfff7 <? c then u16 (c + 8 + 1) else u16 (c + 8).
(** The answer to an echo request. *)
Definition echo_message (m : list Z) : list Z :=
  match m with
  | type :: code :: c0 :: c1 :: rest => [ICMP_ER; code] ++ le_bytes 2 (reply_chksum (le_val [c0; c1])) ++ rest
  | _ => m
  end.
(** The header of the request with the addresses of the answer. *)
Definition reply_header (hs : list Z) (src dst : Z) : list Z :=
  let h := splice 10 (le_bytes 2 0) (splice 8 [ICMP_TTL] (splice 16 (le_bytes 4 dst) (splice 12 (le_bytes 4 src) hs))) in
  splice 10 (le_bytes 2 (65535 - cksum_ref h)) h.

(** The answer verifies if the request does. *)
Lemma echo_message_verifies addr code c0 c1 rest :
  let m := ICMP_ECHO :: code :: c0 :: c1 :: rest in
  bytes m -> cksum_ref m = 65535 -> inet_chksum addr (echo_message m) = 0.
Proof.
  intros m Hb Hs. assert (Hrest : bytes rest) by (by do 4 apply Forall_inv_tail in Hb).
  apply Forall_cons in Hb as [_ Hb]. apply Forall_cons in Hb as [Hco Hb]. apply Forall_cons in Hb as [H0 Hb].
  apply Forall_cons in Hb as [H1 _]. set (c := le_val [c0; c1]). assert (Ec : c = c0 + 256 * c1) by (unfold c; simpl; lia).
  assert (Hm : bytes m) by (by repeat (constructor; [done|])).
  assert (Hc : is_u16 c) by (rewrite Ec; clear -H0 H1; words).
  assert (Hr : is_u16 (reply_chksum c)) by (unfold reply_chksum; case_match; apply u16_range).
  assert (Hby : bytes (echo_message m)).
  { unfold m. cbn [echo_message]. apply bytes_app; [by repeat (constructor; [done|])|]. apply bytes_app; [apply le_bytes_bytes|done]. }
  rewrite inet_chksum_ref by done. rewrite <-(cksum_ref_unique (echo_message m) 65535); [done|done|done|].
  destruct (cksum_ref_oc m Hm) as [(_ & _ & [k Hk] & _) _]. rewrite Hs in Hk. unfold m in Hk |- *. cbn [echo_message le_bytes].
  fold c. cbn [wsum app] in *. pose proof (proj1 (wsum_bound rest Hrest)) as Hw. unfold ICMP_ECHO, ICMP_ER in *.
  assert (Ev : (reply_chksum c) mod 256 + 256 * (reply_chksum c / 256 mod 256) = reply_chksum c) by (clear -Hr; words).
  unfold oc. split; [done|]. replace (0 + 256 * code + _) with (256 * code + reply_chksum c + wsum rest) by lia.
  clear Ev Hby Hm Hs. unfold reply_chksum in *. unfold is_u8, is_u16 in *. destruct (Z.ltb_spec 0xfff7 c).
  - replace (u16 (c + 8 + 1)) with (c + 9 - 65536) by (unfold u16; words). split; [lia|]. split; [exists (k + 1); lia|lia].
  - replace (u16 (c + 8)) with (c + 8) by (unfold u16; words). split; [lia|]. split; [exists k; lia|lia].
Qed.
Lemma splice_bytes o new bs : bytes new -> bytes bs -> bytes (splice o new bs).
Proof. intros H1 H2. apply bytes_app; [by apply Forall_take|]. apply bytes_app; [done|by apply Forall_drop]. Qed.
Lemma splice_twice o x y bs : length x = length y -> (Z.to_nat o <= length bs)%nat -> splice o x (splice o y bs) = splice o x bs.
Proof.
  intros Hl Ho. unfold splice. rewrite take_app_le by (rewrite length_take; lia). rewrite take_take, Nat.min_id.
  f_equal. f_equal. rewrite (app_assoc (take _ _)), drop_app_ge by (rewrite length_app, length_take; lia).
  rewrite length_app, length_take. replace (_ - _)%nat with 0%nat by lia. by rewrite drop_0, Hl.
Qed.
Ltac splice_lengths :=
  repeat (rewrite splice_length; [|lia|solve [rewrite ?length_le_bytes; cbn [length]; splice_lengths; lia]]).
Lemma reply_header_length hs src dst : (20 <= length hs)%nat -> length (reply_header hs src dst) = length hs.
Proof.
  intros Hl. unfold reply_header. cbv zeta. by splice_lengths.
Qed.
Lemma reply_header_verifies addr hs src dst : (20 <= length hs)%nat -> bytes hs -> inet_chksum addr (reply_header hs src dst) = 0.
Proof.
  intros Hl Hb. unfold reply_header. set (g := splice 8 _ _). cbv zeta.
  assert (Hg : bytes g) by (repeat apply splice_bytes; try apply le_bytes_bytes; [by repeat constructor|done]).
  assert (Hlg : length g = length hs).
  { unfold g. by splice_lengths. }
  rewrite <-(inet_chksum_ref 0) by (apply splice_bytes; [apply le_bytes_bytes|done]).
  rewrite splice_twice by (rewrite ?length_le_bytes; done || lia). unfold splice. rewrite !length_le_bytes.
  apply inet_chksum_verifies; [|rewrite length_take, Nat.min_l by lia; done].
  apply bytes_app; [by apply Forall_take|by apply Forall_drop].
Qed.

Section icmp.
Context {S R : Type} `{!PbufAlloc S} `{!FragPool S}.
Abbreviation state := (@ipnet S R).
Abbreviation M := (ST state).
Context (call_custom_free : Z -> Z -> ST (@pstate S) unit) (garbage : Z -> Z).
Context {Link : LinkDriver}.
Context (ipfrag_free_fn : Z).
Local Abbreviation pfree := (fun p => _ ← on_pb (pbuf_free call_custom_free p); mret tt).

(** ** Responses *)

Definition icmp_send_response (p type code : Z) : M unit :=
  b ← on_pb (pb_get p);
  let response_pkt_len := IP_HLEN + ICMP_DEST_UNREACH_DATASIZE in
  let response_pkt_len := if tot_len b <? response_pkt_len then tot_len b else response_pkt_len in
  q ← on_pb (pbuf_alloc call_custom_free garbage PBUF_IP (u16 (SIZEOF_ICMP_HDR + response_pkt_len)) PBUF_RAM);
  if q =? 0 then mret tt
  else
    qb ← on_pb (pb_get q);
    _ ← sassert (SIZEOF_ICMP_HDR + response_pkt_len <=? len qb);
    let iphdr := payload b in
    let icmphdr := payload qb in
    _ ← set8 icmphdr 0 type;
    _ ← set8 icmphdr 1 code;
    _ ← set32 icmphdr 4 0;
    _ ← on_pb (pbuf_copy_partial_pbuf q p response_pkt_len SIZEOF_ICMP_HDR);
    iphdr_src ← IPH_SRC iphdr;
    n ← ip4_route (Some iphdr_src);
    _ ← (if negb (n =? 0) then
           _ ← set16 icmphdr 2 0;
           qb ← on_pb (pb_get q);
           sum ← chksum_mem icmphdr (len qb);
           _ ← set16 icmphdr 2 sum;
           _ ← IP_STATS_INC icmp_xmit;
           _ ← ip4_output_if call_custom_free garbage ipfrag_free_fn q None (Some iphdr_src) ICMP_TTL 0 IP_PROTO_ICMP n;
           mret tt
         else mret tt);
    pfree q.

Definition icmp_dest_unreach (p : Z) (t : icmp_dur_type) : M unit := icmp_send_response p ICMP_DUR (dur_code t).
Definition icmp_time_exceeded (p : Z) (t : icmp_te_type) : M unit := icmp_send_response p ICMP_TE (te_code t).

(** ** Input *)

(** [inet_chksum_pbuf]: the pbufs of the chain with the addresses of their data. *)
Fixpoint read_segments (fuel : nat) (p : Z) : ST (@pstate S) segments :=
  match fuel with
  | O => fun _ => Diverge
  | Datatypes.S fuel' =>
      if p =? 0 then mret []
      else
        b ← pb_get p;
        bs ← read_mem (payload b) (len b);
        rest ← read_segments fuel' (next b);
        mret ((ptr_addr (payload b), bs) :: rest)
  end.
Definition chksum_pbuf (p : Z) : M Z :=
  fuel ← on_pb chain_fuel;
  segs ← on_pb (read_segments fuel p);
  mret (inet_chksum_pbuf segs).

Definition icmp_goto_lenerr (p : Z) : M unit := _ ← pfree p; IP_STATS_INC icmp_lenerr.
Definition icmp_goto_icmperr (p : Z) : M unit := _ ← pfree p; IP_STATS_INC icmp_err.

(** The datagram is copied to a new pbuf of [alloc_len] bytes.  The pbuf to go on
    with, or [None] after [goto icmperr]. *)
Definition icmp_copy (p hlen alloc_len : Z) (iphdr_in : ptr) : M (option Z) :=
  r ← on_pb (pbuf_alloc call_custom_free garbage PBUF_LINK alloc_len PBUF_RAM);
  if r =? 0 then _ ← icmp_goto_icmperr p; mret None
  else
    rb ← on_pb (pb_get r);
    if len rb <? hlen + SIZEOF_ICMP_HDR then _ ← pfree r; _ ← icmp_goto_icmperr p; mret None
    else
      _ ← on_pb (MEMCPY (payload rb) iphdr_in hlen);
      failed ← on_pb (pbuf_remove_header r hlen);
      if (failed : bool) then _ ← sassert false; _ ← pfree r; _ ← icmp_goto_icmperr p; mret None
      else
        err ← on_pb (pbuf_copy r p);
        if negb (err =? ERR_OK) then _ ← pfree r; _ ← icmp_goto_icmperr p; mret None
        else _ ← pfree p; mret (Some r).

(** Room for the link header is looked for in front of the datagram; without it the
    message is copied to a new pbuf. *)
Definition icmp_make_room (p hlen : Z) (iphdr_in : ptr) : M (option Z) :=
  let room := hlen + PBUF_LINK_HLEN + PBUF_LINK_ENCAPSULATION_HLEN in
  failed ← on_pb (pbuf_add_header p room);
  if (failed : bool) then
    b ← on_pb (pb_get p);
    let alloc_len := u16 (tot_len b + hlen) in
    if alloc_len <? tot_len b then _ ← icmp_goto_icmperr p; mret None
    else icmp_copy p hlen alloc_len iphdr_in
  else
    failed ← on_pb (pbuf_remove_header p room);
    if (failed : bool) then _ ← sassert false; _ ← icmp_goto_icmperr p; mret None
    else mret (Some p).

(** The request becomes the answer. *)
Definition icmp_echo_reply (p hlen src inp : Z) : M unit :=
  b ← on_pb (pb_get p);
  let iecho := payload b in
  failed ← on_pb (pbuf_add_header p hlen);
  if (failed : bool) then mret tt
  else
    b ← on_pb (pb_get p);
    let iphdr := payload b in
    _ ← set32 iphdr 12 src;
    st ← get;
    _ ← set32 iphdr 16 (current_iphdr_src (ip_data st));
    _ ← set8 iecho 0 ICMP_ER;
    b ← on_pb (pb_get p);
    _ ← on_pb (pb_set p (with_if_idx b NETIF_NO_INDEX));
    chksum ← get16 iecho 2;
    _ ← set16 iecho 2 (if PP_HTONS (0xffff - Z.shiftl ICMP_ECHO 8) <? chksum
                       then u16 (chksum + PP_HTONS (u16 (Z.shiftl ICMP_ECHO 8)) + 1)
                       else u16 (chksum + PP_HTONS (Z.shiftl ICMP_ECHO 8)));
    _ ← IPH_TTL_SET iphdr ICMP_TTL;
    _ ← IPH_CHKSUM_SET iphdr 0;
    sum ← chksum_mem iphdr hlen;
    _ ← IPH_CHKSUM_SET iphdr sum;
    _ ← IP_STATS_INC icmp_xmit;
    _ ← ip4_output_if call_custom_free garbage ipfrag_free_fn p (Some src) None ICMP_TTL 0 IP_PROTO_ICMP inp;
    mret tt.

Definition icmp_input (p inp : Z) : M unit :=
  _ ← IP_STATS_INC icmp_recv;
  st ← get;
  let iphdr_in := current_ip4_header (ip_data st) in
  hlen ← IPH_HL_BYTES iphdr_in;
  if hlen <? IP_HLEN then icmp_goto_lenerr p
  else
    b ← on_pb (pb_get p);
    if len b <? 4 then icmp_goto_lenerr p
    else
      type ← get8 (payload b) 0;
      if type =? ICMP_ER then pfree p
      else if type =? ICMP_ECHO then
        let src := current_iphdr_dest (ip_data st) in
        if ip4_addr_ismulticast src then icmp_goto_icmperr p
        else
          nif ← on_low (netif_get (current_netif (ip_data st)));
          if ip4_addr_isbroadcast src nif then icmp_goto_icmperr p
          else if tot_len b <? SIZEOF_ICMP_HDR then icmp_goto_lenerr p
          else
            sum ← chksum_pbuf p;
            if negb (sum =? 0) then _ ← pfree p; IP_STATS_INC icmp_chkerr
            else
              r ← icmp_make_room p hlen iphdr_in;
              match r with
              | None => mret tt
              | Some p => _ ← icmp_echo_reply p hlen src inp; pfree p
              end
      else
        _ ← IP_STATS_INC icmp_proterr;
        _ ← IP_STATS_INC icmp_drop;
        pfree p.

(** ** Responses are sent *)

(** The message that quotes [quoted] goes to [src] where the route leads, or nowhere if there is none.  It has
    room for the Ethernet header and need not be copied to wait. *)
Definition responds (type code : Z) (quoted : list Z) (src : Z) (st st' : state) : Prop :=
  exists lst, chain_at nif_next (netifs (low st)) (netif_list (low st)) lst /\
    let n := route (netifs (low st)) lst (netif_default st) src in
    if n =? 0 then frames (low st') = frames (low st)
    else exists nif err, netifs (low st) !! n = Some nif /\
      transmitted call_custom_free garbage True False n nif src
        (ip_header_of 0 (SIZEOF_ICMP_HDR + Z.of_nat (length quoted) + IP_HLEN) (ip_id st) 0 ICMP_TTL IP_PROTO_ICMP (nif_ip (nif_addrs nif)) src
         ++ icmp_error type code quoted) err (low st) (low st').

(** The writes to the checksum field of the message in [q]. *)
Lemma response_checksum {B} q o bs type code quoted hs (c : pbuf) (f : M B) st :
  pbufs (pm (low st)) !! q = Some c -> own (pm (low st)) !! q = Some bs -> 0 <= o -> o + len c <= Z.of_nat (length bs) ->
  slice o (len c) bs = splice 8 quoted (splice 4 (le_bytes 4 0) (splice 1 [code] (splice 0 [type] hs))) ->
  length hs = (8 + length quoted)%nat -> len c = 8 + Z.of_nat (length quoted) -> is_u8 type -> is_u8 code -> bytes quoted ->
  (_ ← set16 (Own q o) 2 0;
   qb ← on_pb (pb_get q);
   sum ← chksum_mem (Own q o) (len qb);
   _ ← set16 (Own q o) 2 sum; f) st
  = f (hstate st (pm (low st)) q o bs (icmp_error type code quoted)).
Proof.
  intros Hc Hbs Ho Hlen Hhs Hlh Hlc Hty Hco Hqu.
  assert (Hll : length (slice o (len c) bs) = length hs) by (rewrite slice_length; lia).
  assert (E0 : st = hstate st (pm (low st)) q o bs (slice o (len c) bs)).
  { unfold hstate. rewrite <-headed_start by (done || lia). by destruct st as [[] ? ? ? ? ? ? ? ?]. }
  rewrite E0 at 1. clear E0. destruct (error_writes type code quoted hs Hlh) as (x & y & Ew). rewrite Hhs, Ew in Hll |- *.
  unfold set16. rewrite hstate_set by (rewrite ?length_le_bytes; simpl in *; lia).
  rewrite (on_pb_get_bind q c) by done.
  change (splice 2 (le_bytes 2 0) _) with ([type; code] ++ [0; 0] ++ [0; 0; 0; 0] ++ quoted).
  erewrite chksum_mem_bind; [|apply hstate_region; simpl in *; lia|simpl in *; lia].
  rewrite hstate_set by (rewrite ?length_le_bytes; simpl in *; lia). f_equal. f_equal.
  unfold slice. change (Z.to_nat 0) with 0%nat. rewrite drop_0, take_ge by (simpl in *; lia).
  rewrite inet_chksum_ref; [done|]. repeat (constructor; [done|]); done.
Qed.

Lemma response_send E q c o bs type code quoted hs src st :
  link_ok ({[+ q +]} ⊎ E) (low st) -> interfaces_ok st -> is_u16 (ip_id st) -> is_u32 src -> (q ∉ E) ->
  pbufs (pm (low st)) !! q = Some c -> sendable ({[+ q +]} ⊎ E) (low st) q [(q, c)] -> multiplicity q ({[+ q +]} ⊎ E) = 1%nat ->
  payload c = Own q o -> own (pm (low st)) !! q = Some bs -> SIZEOF_ETH_HDR + IP_HLEN <= o -> o + len c <= Z.of_nat (length bs) ->
  type_internal c = u8 PBUF_RAM ->
  slice o (len c) bs = splice 8 quoted (splice 4 (le_bytes 4 0) (splice 1 [code] (splice 0 [type] hs))) ->
  length hs = (8 + length quoted)%nat -> len c = 8 + Z.of_nat (length quoted) -> len c <= 48 ->
  is_u8 type -> is_u8 code -> bytes quoted ->
  exists st', (n ← ip4_route (Some src);
    _ ← (if negb (n =? 0) then
           _ ← set16 (Own q o) 2 0;
           qb ← on_pb (pb_get q);
           sum ← chksum_mem (Own q o) (len qb);
           _ ← set16 (Own q o) 2 sum;
           _ ← IP_STATS_INC icmp_xmit;
           _ ← ip4_output_if call_custom_free garbage ipfrag_free_fn q None (Some src) ICMP_TTL 0 IP_PROTO_ICMP n;
           mret tt
         else mret tt);
    pfree q) st = Ok (tt, st') /\
    steps E (low st) (low st') /\ ip_kept st st' /\ is_u16 (ip_id st') /\ responds type code quoted src st st'.
Proof.
  intros H Hif Hid Hsrc HqE Hcq Hq Hm Hpl Hbs Ho Hlen Hram Hhs Hlh Hlc Hmax Hty Hco Hqu. assert (Hct := ram_contiguous _ Hram).
  destruct (link_netifs _ _ H) as [lst Hl]. change (SIZEOF_ETH_HDR + IP_HLEN) with 34 in Ho.
  destruct (ip4_route_spec lst src st Hl Hif) as (st1 & E1 & L1 & K1 & I1 & Hst).
  rewrite (st_bind_ok _ _ _ _ _ E1). set (n := route _ _ _ _) in *.
  destruct (Z.eqb_spec n 0) as [En|En]; cbn [negb].
  { rewrite mret_bind. destruct (lends_free call_custom_free E q (low st) (low st)) as (k & s' & Ef & Hs & _); [done| |].
    { apply lends_follows; [by apply follows_refl|done|done]. }
    eexists. split; [rewrite (on_pb_bind _ _ _ k s') by (by rewrite L1); done|]. simpl. rewrite L1, I1.
    split; [done|]. split; [done|]. split; [done|]. exists lst. split; [done|]. fold n. by rewrite En. }
  rewrite (Hst En). destruct (route_some _ _ _ _ En) as [nif Hnif]. fold n in Hnif.
  destruct (proj1 Hif n nif Hnif) as (Hn & Hip & Hmtu).
  assert (Hle : length (icmp_error type code quoted) = Z.to_nat (len c)) by (rewrite Hlc; unfold icmp_error; simpl; lia).
  destruct (headed_lends _ (low st) q c [] o bs (icmp_error type code quoted) H Hq Hpl Hbs) as (L2 & Hq2 & Hd2); [lia..|].
  set (st2 := hstate st (pm (low st)) q o bs (icmp_error type code quoted)).
  change (with_pm (low st) _) with (low st2) in L2, Hq2, Hd2.
  set (st3 := with_ip_stats st2 (fun x => if decide (x = icmp_xmit) then u16 (ip_stats st2 icmp_xmit + 1) else ip_stats st2 x)).
  destruct (output_if_spec call_custom_free garbage ipfrag_free_fn ({[+ q +]} ⊎ E) q [(q, c)] n nif None src ICMP_TTL 0 IP_PROTO_ICMP st3) as (err & st4 & E4 & L4 & K4 & [R4|R4]); try done.
  { apply L2. }
  { unfold fits_mtu in *. simpl. unfold IP_HLEN. lia. }
  { destruct R4 as (_ & Hno & _). destruct Hno. split; [done|]. split; [simpl; unfold IP_HLEN; lia|]. exists o. split; [done|unfold IP_HLEN; lia]. }
  assert (Hdl : length (data (pm (low st)) [(q, c)]) = Z.to_nat (len c)).
  { pose proof (refs_readable _ _ _ (link_refs _ _ H) (proj1 Hq)) as Hrd. apply data_length in Hrd; [|constructor; [simpl; lia|constructor]].
    simpl in Hrd. lia. }
  rewrite splice_all in Hd2 by lia. destruct R4 as (I4 & _ & T4). change (low st3) with (low st2) in *. rewrite Hd2 in T4.
  destruct (lends_free call_custom_free E q (low st) (low st4)) as (k & s' & Ef & Hs & Hcf); [done|by eapply lends_trans|].
  eexists. split.
  { rewrite (st_bind_ok _ _ _ tt st4); [rewrite (on_pb_bind _ _ _ k s' Ef); done|].
    rewrite (response_checksum q o bs type code quoted hs c) by (done || lia). fold st2. rewrite stats_bind. fold st3.
    by rewrite (st_bind_ok _ _ _ _ _ E4). }
  split; [done|]. split; [done|]. split; [simpl; rewrite I4; apply u16_range|]. exists lst. split; [done|]. cbv zeta. fold n.
  rewrite (proj2 (Z.eqb_neq _ _) En). exists nif, err. split; [done|]. simpl low.
  eapply transmitted_pm; [apply L4|eapply calm_weaken; [exact Hcf|]|].
  { intros x Hx. apply gmultiset_elem_of_disj_union. by right. }
  eapply (transmitted_start _ _ _ _ n nif src _ err (low st) (low st2)); [done|done|].
  replace (SIZEOF_ICMP_HDR + Z.of_nat (length quoted)) with (total [(q, c)]) by (simpl; unfold SIZEOF_ICMP_HDR; lia).
  eapply transmitted_iff; [..|exact T4].
  { split; [done|intros _]. split; [exact Hct|]. change (SIZEOF_ETH_HDR + IP_HLEN) with 34; split; [simpl; lia|]. exists o. split; [exact Hpl|exact Ho]. }
  { by rewrite (ram_uncopied q c Hram). }
Qed.

Lemma same_pbuf_solid l l' : Forall2 same_pbuf l l' -> solid l -> solid l'.
Proof.
  induction 1 as [|x y l l' [_ [r Hr]] _ IH]; intros Hs; [constructor|]. apply Forall_cons in Hs as [? Hs].
  constructor; [by rewrite Hr|by apply IH].
Qed.
(** Filling in the data of one pbuf concerns nobody else. *)
Lemma filled_calm (s s' : @pstate S) q c : indeg (pbufs s) q = 0 -> filled s s' [(q, c)] -> calm (fun x => x <> q) s s'.
Proof.
  intros Hi (Hp & He & _ & _ & _ & Ho & _). apply calm_all; [done| |intros x; by apply reach_other|intros; by rewrite Hp].
  intros x _ Hx. apply spared_keep; [by rewrite Hp| |done]. apply Ho. simpl. by intros ->%list_elem_of_singleton.
Qed.
Lemma responds_start type code quoted src st st1 st' :
  netifs (low st1) = netifs (low st) -> netif_list (low st1) = netif_list (low st) -> netif_default st1 = netif_default st ->
  ip_id st1 = ip_id st -> frames (low st1) = frames (low st) -> arp_table (low st1) = arp_table (low st) ->
  responds type code quoted src st1 st' -> responds type code quoted src st st'.
Proof.
  intros En El Ed Ei Ef Ea (lst & Hl & Hx). exists lst. rewrite En, El in Hl. split; [done|]. cbv zeta in *.
  rewrite En, Ed in Hx. destruct (_ =? 0); [congruence|]. destruct Hx as (nif & err & Hnif & T).
  exists nif, err. rewrite Ei in T. split; [done|]. by eapply transmitted_start.
Qed.

(** What is quoted of a datagram. *)
Definition quote (d : list Z) : list Z := take (Z.to_nat (IP_HLEN + ICMP_DEST_UNREACH_DATASIZE)) d.
Definition source (d : list Z) : Z := le_val (slice 12 4 d).

Lemma quote_length d : Z.of_nat (length (quote d)) = Z.min 28 (Z.of_nat (length d)).
Proof. unfold quote. rewrite length_take. change (Z.to_nat (IP_HLEN + ICMP_DEST_UNREACH_DATASIZE)) with 28%nat. lia. Qed.

Lemma single_data (s : @pstate S) q c o bs : payload c = Own q o -> own s !! q = Some bs -> data s [(q, c)] = slice o (len c) bs.
Proof. intros Hp Hb. unfold data. simpl. rewrite app_nil_r. unfold pbuf_bytes. rewrite Hp. simpl. by rewrite Hb. Qed.
(** Part of a packet is copied to a pbuf that was allocated after it. *)
Lemma fresh_copy E E' p b l q c n off (s s2 : @pstate S) :
  refs_ok E s -> packet (pbufs s) ((p, b) :: l) -> solid ((p, b) :: l) -> pbufs s !! q = None ->
  calm (fun x => x <> q) s s2 -> refs_ok E' s2 -> pbufs s2 !! q = Some c -> next c = 0 -> contiguous c = true ->
  indeg (pbufs s2) q = 0 -> 0 < n <= total ((p, b) :: l) -> 0 <= off -> off + n <= len c ->
  exists s3, pbuf_copy_partial_pbuf q p n off s2 = Ok (ERR_OK, s3) /\ calm (fun x => x <> q) s s3 /\ refs_ok E' s3 /\
    pbufs s3 = pbufs s2 /\ data s3 [(q, c)] = splice off (slice 0 n (data s ((p, b) :: l))) (data s2 [(q, c)]) /\
    (forall o bs, payload c = Own q o -> own s2 !! q = Some bs ->
       exists bs', own s3 !! q = Some bs' /\ take (Z.to_nat o) bs' = take (Z.to_nat o) bs) /\
    exists hs, region s3 (payload b) hs /\ Z.of_nat (length hs) = len b /\ hs = slice 0 (len b) (data s ((p, b) :: l)).
Proof.
  intros Hr Hp Hso Hnone C2 Hr2 Hc Hnx Hct Hi Hn Hoff Hfit. set (lf := (p, b) :: l) in *.
  assert (Hpq : head_addr lf <> q) by (unfold lf; simpl; intros ->; destruct Hp as (_ & Hb & _); congruence).
  destruct (calm_packet _ _ _ lf C2 Hpq Hp) as (lf' & Hlf' & Hsm).
  destruct (same_pbuf_total _ _ Hsm) as (Etot & _ & Eadd). assert (Hso' := same_pbuf_solid _ _ Hsm Hso).
  assert (Hd2 := calm_data _ _ _ _ _ lf' Hr C2 Hpq Hp Hsm).
  assert (Hlb : 0 < len b) by (by apply Forall_cons in Hso as [? _]).
  destruct lf' as [|[p' b'] l']; [by inversion Hsm|]. pose proof (Forall2_cons_1 _ _ _ _ _ Hsm) as [[Ep [r Eb]] _].
  simpl in Ep, Eb. subst p' b'.
  destruct (copy_partial_heap _ q c p (with_ref b r) l' n off s2 Hr2) as (s3 & Ec & Hfl & Hr3 & Hd3); try done; [|lia|].
  { rewrite Eadd. intros Hin. destruct (packet_elem _ _ _ Hp Hin) as (? & ? & ? & _ & ?). congruence. }
  assert (C3 : calm (fun x => x <> q) s s3) by (eapply calm_trans; [exact C2|by eapply filled_calm]).
  pose proof Hfl as (Epb & _ & _ & _ & _ & _ & _ & Hfr). assert (Hlf3 : packet (pbufs s3) ((p, with_ref b r) :: l')) by (by rewrite Epb).
  assert (Hd4 := calm_data _ _ _ _ lf _ Hr C3 Hpq Hp Hsm).
  destruct (packet_region _ s3 p (with_ref b r) l' Hr3 Hlf3 Hlb) as [Hreg Hregl].
  exists s3. rewrite Hd2 in Hd3. do 5 (split; [done|]). split; [intros o bs; apply Hfr; by left|]. exists (pbuf_bytes s3 (with_ref b r)). split; [done|].
  rewrite Hregl. change (len (with_ref b r)) with (len b). split; [lia|]. rewrite <-Hd4.
  rewrite <-slice_data by (rewrite ?Hregl; simpl; lia). unfold slice. simpl. by rewrite drop_0, take_ge by (rewrite Hregl; simpl; lia).
Qed.

Lemma slice_quote d : slice 0 (Z.of_nat (length (quote d))) d = quote d.
Proof.
  unfold slice, quote. set (k := Z.to_nat (_ + _)). rewrite Nat2Z.id, length_take. change (Z.to_nat 0) with 0%nat. rewrite drop_0.
  destruct (Nat.le_ge_cases k (length d)); [by rewrite Nat.min_l|]. by rewrite !take_ge by lia.
Qed.
(** The type, the code and the quoted datagram are written to the new pbuf. *)
Lemma response_fill E p b l q c bs h0 type code st s1 :
  link_ok E (low st) -> packet (pbufs (pm (low st))) ((p, b) :: l) -> solid ((p, b) :: l) -> IP_HLEN <= len b ->
  let d := data (pm (low st)) ((p, b) :: l) in let n := Z.of_nat (length (quote d)) in
  pbufs (pm (low st)) !! q = None -> calm (fun _ => True) (pm (low st)) s1 ->
  link_ok ({[+ q +]} ⊎ E) (with_pm (low st) s1) -> sendable ({[+ q +]} ⊎ E) (with_pm (low st) s1) q [(q, c)] ->
  pbufs s1 !! q = Some c -> payload c = Own q 34 -> len c = 8 + n -> next c = 0 -> contiguous c = true ->
  own s1 !! q = Some bs -> 34 + (8 + n) <= Z.of_nat (length bs) -> h0 = slice 34 (8 + n) bs ->
  exists s3 bs3, (forall B (f : Z -> M B), (_ ← set8 (Own q 34) 0 type;
     _ ← set8 (Own q 34) 1 code;
     _ ← set32 (Own q 34) 4 0;
     _ ← on_pb (pbuf_copy_partial_pbuf q p n 8);
     iphdr_src ← IPH_SRC (payload b); f iphdr_src) (with_low st (with_pm (low st) s1))
    = f (source d) (with_low st (with_pm (low st) s3))) /\
    calm (fun x => x <> q) (pm (low st)) s3 /\ refs_ok ({[+ q +]} ⊎ (E ⊎ queued (arp_table (low st)))) s3 /\
    pbufs s3 = pbufs s1 /\ own s3 !! q = Some bs3 /\ 34 + len c <= Z.of_nat (length bs3) /\
    slice 34 (len c) bs3 = splice 8 (quote d) (splice 4 (le_bytes 4 0) (splice 1 [code] (splice 0 [type] h0))).
Proof.
  intros H Hp Hso Hlb d n Hnone Hc1 H1 Hq1 Hb1 Hpl Hlc Hnx Hct Hbs Hlen Hh0. unfold IP_HLEN in Hlb. assert (Hr := link_refs _ _ H).
  assert (Hz := refs_sized _ _ _ _ _ Hr Hp). assert (Hdl := data_length _ _ (refs_readable _ _ _ Hr Hp) (proj1 Hz)). fold d in Hdl.
  assert (Ht : 0 <= total l) by (apply Forall_cons in Hso as [_ Hs]; by apply solid_len, total_nonneg in Hs).
  assert (Hn : n = Z.min 28 (Z.of_nat (length d))) by apply quote_length.
  set (st1 := with_low st _). assert (Hl0 : length h0 = Z.to_nat (8 + n)) by (rewrite Hh0, slice_length; lia).
  assert (E0 : st1 = hstate st1 s1 q 34 bs h0) by (unfold hstate; rewrite Hh0, <-headed_start by (done || lia); done).
  set (h1 := splice 4 (le_bytes 4 0) (splice 1 [code] (splice 0 [type] h0))). assert (Hl1 : length h1 = Z.to_nat (8 + n)) by (rewrite <-Hl0; apply error_length; simpl in *; lia).
  destruct (headed_lends ({[+ q +]} ⊎ E) (with_pm (low st) s1) q c [] 34 bs h1 H1 Hq1 Hpl Hbs) as (L2 & Hq2 & Hd2); [lia..|].
  set (st2 := hstate st1 s1 q 34 bs h1). change (with_pm _ (headed _ _ _ _ _)) with (low st2) in L2, Hq2, Hd2.
  assert (C2 : calm (fun x => x <> q) (pm (low st)) (pm (low st2))).
  { eapply calm_trans; [eapply calm_weaken; [exact Hc1|done]|]. apply headed_calm, Hq1. }
  destruct (fresh_copy (E ⊎ queued (arp_table (low st))) ({[+ q +]} ⊎ (E ⊎ queued (arp_table (low st)))) p b l q c n 8 (pm (low st)) (pm (low st2)))
    as (s3 & Ec & C3 & Hr3 & Epb & Hd3 & _ & hs & Hreg & Ehs & Hhs);
    try done; [|apply Hq2|simpl in *; lia..|].
  { rewrite (assoc_L (⊎)). apply (link_refs _ _ (lend_ok _ _ _ _ L2)). }
  assert (Hb3 : pbufs s3 !! q = Some c) by (by rewrite Epb).
  destruct (refs_counts _ _ _ _ Hr3 Hb3) as (_ & _ & _ & Hst). unfold stored in Hst. rewrite Hct in Hst.
  destruct Hst as (o & bs3 & Hpl3 & Hbs3 & _ & _ & Hlen3). simpl in Hpl3, Hbs3, Hlen3. rewrite Hpl in Hpl3. injection Hpl3 as <-.
  exists s3, bs3. split.
  { intros B f. rewrite E0. unfold set8, set32.
    do 3 rewrite hstate_set by (rewrite ?splice_length by (rewrite ?splice_length by (simpl; lia); simpl; lia); simpl length; simpl in *; lia).
    fold h1 st2. rewrite (on_pb_bind _ _ _ _ _ Ec). unfold IPH_SRC. rewrite (get32_bind _ _ hs) by (done || lia).
    unfold source. rewrite Hhs. by rewrite slice_slice by lia. }
  split; [done|]. split; [done|]. split; [done|]. split; [done|]. split; [lia|]. fold h1.
  rewrite <-(single_data s3 q c 34 bs3 Hpl Hbs3), Hd3, Hd2. f_equal; [|rewrite splice_all; [done|]].
  - apply slice_quote.
  - simpl pm. rewrite (single_data s1 q c 34 bs Hpl Hbs), slice_length by lia. lia.
Qed.

(** [pbuf_alloc] has no memory for [n] bytes.  That depends on the allocator alone. *)
Definition no_memory (layer : pbuf_layer) (n : Z) (s : @pstate S) : Prop :=
  exists s', pbuf_alloc call_custom_free garbage layer n PBUF_RAM s = Ok (0, s').
Lemma no_memory_alloc layer n s s1 : alloc s1 = alloc s -> no_memory layer n s1 -> no_memory layer n s.
Proof.
  intros Ea [s' E]. revert E. unfold no_memory, pbuf_alloc. change ((PBUF_RAM =? PBUF_REF) || (PBUF_RAM =? PBUF_ROM)) with false.
  change (PBUF_RAM =? PBUF_POOL) with false. change (PBUF_RAM =? PBUF_RAM) with true. cbv zeta iota. destruct (_ || _); [by eexists|].
  unfold alloc_from, mbind, st_bind. rewrite Ea. destruct (pa_malloc _ _ _) as [[q a]| | |]; simpl; try done.
  destruct (Z.eqb_spec q 0) as [->|Hq]; [by eexists|]. intros E. exfalso. revert E. repeat case_match; intros E; try congruence; by injection E.
Qed.
(** The message about the datagram [d] has been sent, or [pbuf_alloc] had no memory for it in [s]. *)
Definition notified (s : @pstate S) (type code : Z) (d : list Z) (st st' : state) : Prop :=
  (no_memory PBUF_IP (SIZEOF_ICMP_HDR + Z.of_nat (length (quote d))) s /\ frames (low st') = frames (low st)) \/
  responds type code (quote d) (source d) st st'.
Lemma icmp_send_response_spec E p b l type code st :
  link_ok E (low st) -> interfaces_ok st -> is_u16 (ip_id st) ->
  packet (pbufs (pm (low st))) ((p, b) :: l) -> solid ((p, b) :: l) -> IP_HLEN <= len b ->
  is_u8 type -> is_u8 code -> bytes (data (pm (low st)) ((p, b) :: l)) ->
  let d := data (pm (low st)) ((p, b) :: l) in
  exists st', icmp_send_response p type code st = Ok (tt, st') /\
    steps E (low st) (low st') /\ ip_kept st st' /\ is_u16 (ip_id st') /\
    notified (pm (low st)) type code d st st'.
Proof.
  intros H Hif Hid Hp Hso Hlb Hty Hco Hby d. assert (Hr := link_refs _ _ H).
  assert (Hz := refs_sized _ _ _ _ _ Hr Hp). assert (Hdl := data_length _ _ (refs_readable _ _ _ Hr Hp) (proj1 Hz)).
  destruct Hz as [_ Hz]. fold d in Hdl. unfold icmp_send_response. rewrite (on_pb_get_bind p (link b l)) by apply Hp.
  change (tot_len (link b l)) with (total ((p, b) :: l)). set (lf := (p, b) :: l) in *.
  change (IP_HLEN + ICMP_DEST_UNREACH_DATASIZE) with 28. cbv zeta.
  replace (if total lf <? 28 then total lf else 28) with (Z.of_nat (length (quote d)))
    by (rewrite quote_length, Hdl; destruct (Z.ltb_spec (total lf) 28); lia).
  assert (Hn : 0 < Z.of_nat (length (quote d)) <= 28).
  { rewrite quote_length, Hdl. apply Forall_cons in Hso as [_ Hso]. apply solid_len, total_nonneg in Hso.
    unfold lf, IP_HLEN in *. simpl. lia. }
  set (n := Z.of_nat (length (quote d))) in *. change SIZEOF_ICMP_HDR with 8. rewrite u16_id by (unfold is_u16; lia).
  destruct (alloc_sendable call_custom_free garbage E PBUF_IP (8 + n) (low st) H ltac:(lia))
    as (q & s1 & Ea & [(-> & Hs & _)|(c & bs & Hq0 & HqE & Hnone & Hc1 & H1 & Hq1 & Hm & Hb1 & Hpl & Hlc & Hnx & Hram & Hbs & Hlen)]);
    rewrite (on_pb_bind _ _ _ _ _ Ea).
  { cbn [Z.eqb]. eexists. split; [done|]. split; [done|]. split; [done|]. split; [done|]. left. split; [by exists s1|done]. }
  assert (Hct := ram_contiguous _ Hram).
  rewrite (proj2 (Z.eqb_neq _ _) Hq0). rewrite (on_pb_get_bind q c) by done. rewrite sassert_bind by lia. rewrite Hpl.
  change (layer_offset PBUF_IP) with 34 in *. change (payload (link b l)) with (payload b).
  destruct (response_fill E p b l q c bs (slice 34 (8 + n) bs) type code st s1) as (s3 & bs3 & Ef & C3 & Hr3 & Epb & Hbs3 & Hlen3 & Hsl); try done.
  rewrite Ef. clear Ef. fold lf d in Hsl |- *. set (st3 := with_low st _).
  assert (H3 : link_ok ({[+ q +]} ⊎ E) (low st3)).
  { eapply (link_change E (_ ⊎ E) (low st)); [done|simpl; by rewrite <-(assoc_L (⊎))|done|]. intros x Hx. by eapply C3, queued_nonzero. }
  assert (Hq3 : sendable ({[+ q +]} ⊎ E) (low st3) q [(q, c)]).
  { destruct Hq1 as (Q1 & Q2 & Q3 & Q4 & Q5 & Q6). unfold sendable. simpl pm. by rewrite Epb. }
  destruct (response_send E q c 34 bs3 type code (quote d) (slice 34 (8 + n) bs) (source d) st3) as (st' & E' & Hs' & K' & I' & R'); try done.
  - by apply (le_val_slice 12 4).
  - simpl. by rewrite Epb.
  - rewrite slice_length; lia.
  - lia.
  - by apply Forall_take.
  - exists st'. split; [exact E'|]. split; [|split; [done|]; split; [done|]; right].
    + eapply (steps_pm E (low st) (low st3)); try done. eapply calm_weaken; [exact C3|]. intros x [Hx _]. by intros ->.
    + by eapply (responds_start _ _ _ _ st st3).
Qed.

(** ** Echo requests are answered *)

(** Writes to the header [hs] and to the message behind it. *)
Lemma hstate_set_l {B} st s p ofs bs hs ms o new (f : unit -> M B) :
  0 <= ofs -> ofs + Z.of_nat (length (hs ++ ms)) <= Z.of_nat (length bs) ->
  0 <= o -> o + Z.of_nat (length new) <= Z.of_nat (length hs) ->
  (on_pb (write_mem (ptr_add (Own p ofs) o) new) ≫= f) (hstate st s p ofs bs (hs ++ ms))
  = f tt (hstate st s p ofs bs (splice o new hs ++ ms)).
Proof. intros. rewrite hstate_set by (rewrite ?length_app in *; lia). by rewrite splice_app_l. Qed.
Lemma hstate_set_r {B} st s p ofs bs hs ms h o new (f : unit -> M B) :
  0 <= ofs -> ofs + Z.of_nat (length (hs ++ ms)) <= Z.of_nat (length bs) -> Z.of_nat (length hs) = h ->
  0 <= o -> o + Z.of_nat (length new) <= Z.of_nat (length ms) ->
  (on_pb (write_mem (ptr_add (Own p (ofs + h)) o) new) ≫= f) (hstate st s p ofs bs (hs ++ ms))
  = f tt (hstate st s p ofs bs (hs ++ splice o new ms)).
Proof.
  intros ? ? <- ? ?. replace (ptr_add (Own p (ofs + Z.of_nat (length hs))) o) with (ptr_add (Own p ofs) (Z.of_nat (length hs) + o))
    by (simpl; f_equal; lia).
  rewrite hstate_set by (rewrite ?length_app in *; lia). rewrite splice_app_r by lia. do 3 f_equal. f_equal. lia.
Qed.

Lemma slice_whole (xs : list Z) n : n = Z.of_nat (length xs) -> slice 0 n xs = xs.
Proof. intros ->. unfold slice. change (Z.to_nat 0) with 0%nat. by rewrite drop_0, Nat2Z.id, firstn_all. Qed.
Lemma hstate_region_r (st : state) s p ofs bs hs ms h :
  0 <= ofs -> ofs + Z.of_nat (length (hs ++ ms)) <= Z.of_nat (length bs) -> Z.of_nat (length hs) = h ->
  region (pm (low (hstate st s p ofs bs (hs ++ ms)))) (Own p (ofs + h)) ms.
Proof.
  intros H0 Hl <-. rewrite length_app in Hl. eexists. split; [apply lookup_insert_eq|]. simpl.
  rewrite splice_length by (rewrite ?length_app; lia). split; [lia|]. split; [lia|].
  rewrite <-(slice_slice (Z.of_nat (length hs)) (Z.of_nat (length ms)) ofs (Z.of_nat (length (hs ++ ms)))) by (rewrite ?length_app; lia).
  rewrite slice_same by (rewrite ?length_app; lia). rewrite slice_app_r, Z.sub_diag by lia. by rewrite slice_whole.
Qed.

Lemma echo_writes {B} p b1 ofs bs hs hlen type code c0 c1 src (f : M B) st s :
  pbufs s !! p = Some b1 -> 0 <= ofs -> ofs + (hlen + 4) <= Z.of_nat (length bs) -> Z.of_nat (length hs) = hlen -> 20 <= hlen ->
  bytes hs -> is_u8 c0 -> is_u8 c1 ->
  let iphdr := Own p ofs in let iecho := Own p (ofs + hlen) in
  (_ ← set32 iphdr 12 src;
   st ← get;
   _ ← set32 iphdr 16 (current_iphdr_src (ip_data st));
   _ ← set8 iecho 0 ICMP_ER;
   b ← on_pb (pb_get p);
   _ ← on_pb (pb_set p (with_if_idx b NETIF_NO_INDEX));
   chksum ← get16 iecho 2;
   _ ← set16 iecho 2 (if PP_HTONS (0xffff - Z.shiftl ICMP_ECHO 8) <? chksum
                      then u16 (chksum + PP_HTONS (u16 (Z.shiftl ICMP_ECHO 8)) + 1)
                      else u16 (chksum + PP_HTONS (Z.shiftl ICMP_ECHO 8)));
   _ ← IPH_TTL_SET iphdr ICMP_TTL;
   _ ← IPH_CHKSUM_SET iphdr 0;
   sum ← chksum_mem iphdr hlen;
   _ ← IPH_CHKSUM_SET iphdr sum; f) (hstate st s p ofs bs (hs ++ [type; code; c0; c1]))
  = f (hstate st (with_pbufs s (<[p := with_if_idx b1 NETIF_NO_INDEX]> (pbufs s))) p ofs bs
         (reply_header hs src (current_iphdr_src (ip_data st)) ++ [ICMP_ER; code] ++ le_bytes 2 (reply_chksum (le_val [c0; c1])))).
Proof.
  intros Hb Ho Hlen Hh Hhl Hby H0 H1 iphdr iecho. unfold set32, set8, set16, IPH_TTL_SET, IPH_CHKSUM_SET, set16, set8.
  assert (L : forall x y : list Z, length x = length hs -> length y = 4%nat -> ofs + Z.of_nat (length (x ++ y)) <= Z.of_nat (length bs))
    by (intros x y Hx Hy; rewrite length_app, Hx, Hy; lia).
  unfold iphdr. rewrite hstate_set_l by (try (apply L; done); rewrite ?length_le_bytes; lia). rewrite get_bind.
  change (current_iphdr_src (ip_data (hstate st s p ofs bs _))) with (current_iphdr_src (ip_data st)).
  rewrite hstate_set_l by (try (apply L; [by splice_lengths|done]); rewrite ?length_le_bytes; splice_lengths; lia).
  unfold iecho. rewrite hstate_set_r by (try (apply L; [by splice_lengths|done]); splice_lengths; simpl length; lia).
  change (splice 0 [ICMP_ER] [type; code; c0; c1]) with [ICMP_ER; code; c0; c1].
  set (hs2 := splice 16 _ _). assert (Hl2 : length hs2 = length hs) by (unfold hs2; by splice_lengths).
  rewrite (on_pb_get_bind p b1) by done.
  set (s' := with_pbufs s (<[p := with_if_idx b1 NETIF_NO_INDEX]> (pbufs s))).
  rewrite (on_pb_bind _ _ _ tt (headed s' p ofs bs (hs2 ++ [ICMP_ER; code; c0; c1]))) by (etrans; [by apply (pb_set_ok p b1)|done]).
  change (with_low (hstate st s p ofs bs ?h) _) with (hstate st s' p ofs bs h).
  rewrite (get16_bind _ _ [ICMP_ER; code; c0; c1]) by (try (apply hstate_region_r; [done|by apply L|lia]); done || simpl; lia).
  change (slice 2 2 [ICMP_ER; code; c0; c1]) with [c0; c1]. 
  rewrite hstate_set_r by (try (by apply L); rewrite ?length_le_bytes; simpl length; lia).
  change (splice 2 (le_bytes 2 ?x) [ICMP_ER; code; c0; c1]) with ([ICMP_ER; code] ++ le_bytes 2 x).
  set (m2 := [ICMP_ER; code] ++ _). change (u8 ICMP_TTL) with ICMP_TTL.
  rewrite hstate_set_l by (try (by apply L); simpl length; lia).
  rewrite hstate_set_l by (try (by apply L; splice_lengths); rewrite ?length_le_bytes; splice_lengths; lia).
  erewrite chksum_mem_bind; [|apply hstate_region; [done|apply L; [by splice_lengths|done]]|rewrite length_app; splice_lengths; lia].
  rewrite (slice_app_l 0) by (splice_lengths; lia). replace (Z.min _ _) with (Z.of_nat (length hs)) by (splice_lengths; lia).
  rewrite (slice_whole (splice 10 _ _)) by (splice_lengths; lia). rewrite Hh, Z.sub_diag, slice_0, app_nil_r.
  rewrite hstate_set_l by (try (by apply L; splice_lengths); rewrite ?length_le_bytes; splice_lengths; lia).
  assert (Hb2 : bytes hs2) by (unfold hs2; repeat apply splice_bytes; done || apply le_bytes_bytes).
  rewrite inet_chksum_ref; [done|]. apply splice_bytes; [apply le_bytes_bytes|]. apply splice_bytes; [by repeat constructor|done].
Qed.

Lemma slice_after o n o' new hs : 0 <= o' -> o' + Z.of_nat (length new) <= o -> o' + Z.of_nat (length new) <= Z.of_nat (length hs) ->
  slice o n (splice o' new hs) = slice o n hs.
Proof.
  intros. apply list_eq. intros i. rewrite !slice_lookup. case_decide; [|done]. rewrite splice_lookup by lia.
  rewrite !decide_False by lia. done.
Qed.
Lemma reply_header_dest hs src dst : (20 <= length hs)%nat -> is_u32 dst -> le_val (slice 16 4 (reply_header hs src dst)) = dst.
Proof.
  intros Hl Hd. unfold reply_header. cbv zeta.
  do 3 (rewrite slice_after by (rewrite ?length_le_bytes; cbn [length]; splice_lengths; lia)).
  rewrite (slice_same 16 (le_bytes 4 dst)) by (rewrite ?length_le_bytes; splice_lengths; lia). by apply le_val_u32.
Qed.
Lemma region_prefix (s : @pstate S) x hs k : (k <= length hs)%nat -> region s x hs -> region s x (take k hs).
Proof.
  intros Hk (bs & Hb & H0 & Hl & Hhs). exists bs. rewrite length_take, Nat.min_l by done. split; [done|]. split; [done|].
  split; [lia|]. rewrite Hhs at 1. unfold slice. rewrite take_take. f_equal. lia.
Qed.

(** Which interface a pbuf came from is of no consequence for its packet. *)
Lemma if_idx_lends E nst p b l i : link_ok E nst -> sendable E nst p ((p, b) :: l) ->
  let nst' := with_pm nst (with_pbufs (pm nst) (<[p := link (with_if_idx b i) l]> (pbufs (pm nst)))) in
  lends p E nst nst' /\ sendable E nst' p ((p, with_if_idx b i) :: l).
Proof.
  intros H (Hp & Hne & Hh & Hs & Hi & Hpr & Hm) nst'. assert (Hr := link_refs _ _ H).
  assert (Hb : pbufs (pm nst) !! p = Some (link b l)) by apply Hp.
  assert (Hind : forall q, indeg (pbufs (pm nst')) q = indeg (pbufs (pm nst)) q) by (intros q; by apply (indeg_update _ _ _ _ _ Hb)).
  split.
  - apply lends_pm; [done| |].
    + destruct (refs_sized _ _ _ _ _ Hr Hp) as [Hf Ht].
      apply (heap_head _ _ p b); try done; [split; [inversion Hf; by constructor|done]|]. apply (refs_counts _ _ _ _ Hr Hb).
    + apply calm_all; [done| |intros x; by apply reach_other|intros q _; by rewrite Hind].
      intros q _ Hq. apply spared_keep; [|done|done]. simpl. by rewrite lookup_insert_ne.
  - split; [by apply (packet_head _ _ b)|]. split; [done|]. split; [done|]. split; [by inversion Hs; constructor|].
    split; [by rewrite Hind|done].
Qed.

(** The request in [p], of the header [hs] and the message [m], with room in front for the header. *)
Record request (E : gmultiset Z) (st : state) (p : Z) (b : pbuf) (l : list (Z * pbuf)) (hlen : Z) (hs m : list Z) : Prop := {
  req_link : link_ok E (low st);
  req_sendable : sendable E (low st) p ((p, b) :: l);
  req_held : multiplicity p E = 1%nat;
  req_contiguous : contiguous b = true;
  req_header : exists o bs, payload b = Own p o /\ own (pm (low st)) !! p = Some bs /\ hlen <= o /\ slice (o - hlen) hlen bs = hs;
  req_hlen : 20 <= hlen;
  req_total : total ((p, b) :: l) + hlen < 65536;
  req_first : 4 <= len b;
  req_bytes : bytes (hs ++ m);
  req_data : data (pm (low st)) ((p, b) :: l) = m
}.

(** The memory of the header and of the first bytes of the message. *)
Lemma request_start E st p b l hlen hs m o bs type code c0 c1 rest :
  request E st p b l hlen hs m -> payload b = Own p o -> own (pm (low st)) !! p = Some bs -> slice (o - hlen) hlen bs = hs ->
  hlen <= o -> m = type :: code :: c0 :: c1 :: rest ->
  slice (o - hlen) (hlen + 4) bs = hs ++ [type; code; c0; c1] /\ Z.of_nat (length hs) = hlen.
Proof.
  intros [H Hq _ _ _ Hhl _ Hlb _ Hd] Hpl Hbs Hhs Ho Em.
  destruct (packet_region _ (pm (low st)) p b l (link_refs _ _ H)) as [_ Hlp]; [apply Hq|lia|].
  assert (Hin : o + len b <= Z.of_nat (length bs)).
  { pose proof (refs_readable _ _ _ (link_refs _ _ H) (proj1 Hq)) as Hrd.
    apply Forall_cons in Hrd as [[?|(x & Hx & _ & Hl)] _]; simpl in *; [lia|]. rewrite Hpl in *. simpl in *. assert (x = bs) as -> by congruence. lia. }
  split; [|rewrite <-Hhs, slice_length; lia]. rewrite slice_split, Hhs by lia. f_equal.
  transitivity (slice 0 4 (data (pm (low st)) ((p, b) :: l))); [|by rewrite Hd, Em].
  rewrite <-slice_data by lia. unfold pbuf_bytes. rewrite Hpl. simpl. rewrite Hbs. simpl. rewrite slice_slice by lia. f_equal. lia.
Qed.

(** The answer is written in place of the request. *)
Lemma echo_rewrite E p b l hlen hs code c0 c1 type rest src inp st :
  let m := type :: code :: c0 :: c1 :: rest in let dst := current_iphdr_src (ip_data st) in
  request E st p b l hlen hs m ->
  exists st4 b4, icmp_echo_reply p hlen src inp st
      = (_ ← ip4_output_if call_custom_free garbage ipfrag_free_fn p (Some src) None ICMP_TTL 0 IP_PROTO_ICMP inp; mret tt) st4 /\
    lends p E (low st) (low st4) /\ ip_kept st st4 /\ ip_id st4 = ip_id st /\ frames (low st4) = frames (low st) /\
    arp_table (low st4) = arp_table (low st) /\ sendable E (low st4) p ((p, b4) :: l) /\ len b4 = len b + hlen /\
    data (pm (low st4)) ((p, b4) :: l) = reply_header hs src dst ++ echo_message m /\
    (forall j, head_room j ((p, b4) :: l) <-> head_room (j + hlen) ((p, b) :: l)) /\ needs_copy ((p, b4) :: l) = needs_copy ((p, b) :: l) /\
    region (pm (low st4)) (payload b4) (take 20 (reply_header hs src dst)).
Proof.
  intros m dst Hreq. pose proof Hreq as [H Hq Hm Hct (o & bs & Hpl & Hbs & Ho & Hhs) Hhl Htot Hlb [Hby Hbm]%Forall_app Hd].
  assert (Hb : pbufs (pm (low st)) !! p = Some (link b l)) by apply Hq.
  unfold icmp_echo_reply. rewrite (on_pb_get_bind p _ _ _ Hb). change (payload (link b l)) with (payload b).
  destruct (add_header_prepends E (low st) p _ hlen H Hq ltac:(lia)) as [[_ Hno]|(s1 & b1 & ofs & bs1 & E0 & P)].
  { destruct Hno. split; [done|]. split; [done|]. by exists o. }
  destruct (prepends_alike _ _ _ _ _ _ _ _ _ Hq P) as [Hroom Hcopy]. cbn [tail] in Hroom, Hcopy.
  destruct P as (Hb1 & Hp1 & Hbs1 & Hofs & Hlen & Hl1 & Ht1 & Hu1 & Hb0 & Hown & Hput).
  destruct (Hb0 b l eq_refl) as (Hpl' & Hlb1 & _). rewrite Hpl in Hpl'. injection Hpl' as Eo. rewrite Hown, Hbs in Hbs1. injection Hbs1 as <-.
  destruct (request_start _ _ _ _ _ _ _ _ o bs type code c0 c1 rest Hreq) as [E4 Hhl']; try done.
  replace (o - hlen) with ofs in * by lia. rewrite (on_pb_bind _ _ _ _ _ E0). cbv iota. rewrite (on_pb_get_bind p b1) by done.
  replace (with_low st (with_pm (low st) s1)) with (hstate st s1 p ofs bs (hs ++ [type; code; c0; c1]))
    by (unfold hstate; rewrite <-E4, <-headed_start by (done || congruence || lia); done).
  assert (Hc : is_u8 c0 /\ is_u8 c1).
  { apply Forall_cons in Hbm as [_ Hbm]. apply Forall_cons in Hbm as [_ Hbm]. apply Forall_cons in Hbm as [? Hbm].
    by apply Forall_cons in Hbm as [? _]. }
  rewrite Hp1, Hpl, Eo. rewrite (echo_writes p b1 ofs bs hs hlen) by (done || lia || apply Hc). fold dst.
  set (hs' := reply_header hs src dst). set (ms' := _ ++ le_bytes 2 _).
  assert (Hl' : length hs' = length hs) by (apply reply_header_length; lia).
  destruct (Hput (hs' ++ ms')) as (L2 & Hq2 & Hd2); [rewrite length_app; simpl; lia|]. cbn [tail] in Hq2, Hd2.
  set (nst2 := with_pm (low st) (headed s1 p ofs bs (hs' ++ ms'))) in *.
  assert (Eb1 : b1 = link b1 l) by (destruct Hq2 as ((_ & Hx & _) & _); simpl in Hx; congruence).
  destruct (if_idx_lends E nst2 p b1 l NETIF_NO_INDEX (lend_ok _ _ _ _ L2) Hq2) as (L3 & Hq3).
  set (st3 := hstate _ _ _ _ _ _). rewrite stats_bind. set (st4 := with_ip_stats _ _).
  assert (E34 : low st4 = with_pm nst2 (with_pbufs (pm nst2) (<[p := link (with_if_idx b1 NETIF_NO_INDEX) l]> (pbufs (pm nst2)))))
    by (unfold st4, st3, hstate; simpl; rewrite Eb1 at 1; done).
  rewrite <-E34 in L3, Hq3. exists st4, (with_if_idx b1 NETIF_NO_INDEX). split; [done|]. split; [by eapply lends_trans|].
  do 4 (split; [done|]). split; [done|]. split; [done|]. split; [|split; [exact Hroom|split; [exact Hcopy|]]].
  - rewrite E34. change (data _ _) with (data (pm nst2) ((p, b1) :: l)). rewrite Hd2, Hd.
    rewrite slice_split in E4 by lia. apply app_inj_1 in E4 as [-> _]; [|rewrite slice_length; lia].
    change m with ([type; code; c0; c1] ++ rest) at 1. rewrite app_assoc, splice_front by (rewrite !length_app; simpl; lia).
    unfold ms'. cbn [echo_message m]. by rewrite <-!app_assoc.
  - change (payload (with_if_idx b1 NETIF_NO_INDEX)) with (payload b1). rewrite Hp1. apply region_prefix; [lia|].
    rewrite <-(take_app_length hs' ms'). apply region_prefix; [rewrite length_app; lia|].
    apply (hstate_region st); [done|]. rewrite length_app, Hl'. simpl. lia.
Qed.

Lemma icmp_echo_reply_spec E p b l hlen hs code c0 c1 type rest src inp nif st :
  let m := type :: code :: c0 :: c1 :: rest in let dst := current_iphdr_src (ip_data st) in
  request E st p b l hlen hs m -> ethernet_netif (low st) inp -> netifs (low st) !! inp = Some nif ->
  fits_mtu nif (total ((p, b) :: l) + hlen) -> is_u32 dst ->
  exists err st', icmp_echo_reply p hlen src inp st = Ok (tt, st') /\ lends p E (low st) (low st') /\ ip_kept st st' /\
    ip_id st' = ip_id st /\
    transmitted call_custom_free garbage (head_room (SIZEOF_ETH_HDR + hlen) ((p, b) :: l)) (needs_copy ((p, b) :: l) = true) inp nif dst (reply_header hs src dst ++ echo_message m) err (low st) (low st').
Proof.
  intros m dst Hreq Hn Hnif Hmtu Hdst. destruct (echo_rewrite E p b l hlen hs code c0 c1 type rest src inp st Hreq)
    as (st4 & b4 & E4 & L4 & K4 & I4 & F4 & A4 & Hq4 & Hl4 & Hd4 & Hroom & Hcopy & Hreg). fold dst m in Hd4, Hreg. rewrite E4.
  assert (Hhl : (20 <= length hs)%nat).
  { destruct (req_header _ _ _ _ _ _ _ _ Hreq) as (o & bs & Hpl & Hbs & Ho & Hhs).
    destruct (request_start _ _ _ _ _ _ _ _ o bs type code c0 c1 rest Hreq) as [_ Hx]; try done.
    pose proof (req_hlen _ _ _ _ _ _ _ _ Hreq). lia. }
  assert (Hll : (20 <= length (reply_header hs src dst))%nat) by (by rewrite reply_header_length).
  destruct (output_hdrincl_spec call_custom_free garbage ipfrag_free_fn E p ((p, b4) :: l) inp nif (Some src) ICMP_TTL 0
    IP_PROTO_ICMP (take 20 (reply_header hs src dst)) st4) as (err & st' & Eo & L5 & K5 & I5 & T5); try done.
  - apply L4.
  - destruct Hn as (? & ? & Hx). split; [done|]. split; [done|]. by rewrite (lend_netifs _ _ _ _ L4).
  - by rewrite (lend_netifs _ _ _ _ L4).
  - apply (req_held _ _ _ _ _ _ _ _ Hreq).
  - unfold fits_mtu in *. simpl in *. lia.
  - exists b4, l. split; [done|]. split; [|done]. destruct Hreq. unfold IP_HLEN. lia.
  - rewrite length_take. lia.
  - exists err, st'. split; [by rewrite (st_bind_ok _ _ _ _ _ Eo)|]. split; [by eapply lends_trans|].
    split; [by eapply ip_kept_trans|]. split; [congruence|]. rewrite Hd4 in T5.
    replace (le_val (slice 16 4 (take 20 (reply_header hs src dst)))) with dst in T5;
      [eapply transmitted_start; [exact F4|exact A4|]; rewrite <-Hcopy; by eapply transmitted_iff; [apply Hroom| |exact T5]|].
    rewrite <-(reply_header_dest hs src dst) at 1 by done. f_equal. apply list_eq. intros i. rewrite !slice_lookup.
    case_decide; [|done]. symmetry. apply lookup_take_lt. lia.
Qed.

(** ** Room for the headers of the answer *)

(** The payload is moved and moved back. *)
Lemma header_and_back E p b l n (s : @pstate S) :
  refs_ok E s -> packet (pbufs s) ((p, b) :: l) -> 0 < n ->
  (pbuf_add_header p n s = Ok (true, s) /\ ~ head_room n ((p, b) :: l)) \/
  exists s1, pbuf_add_header p n s = Ok (false, s1) /\ pbuf_remove_header p n s1 = Ok (false, s) /\ head_room n ((p, b) :: l).
Proof.
  intros H Hp Hn. assert (Hsz := refs_sized _ _ _ _ _ H Hp). assert (Hb : pbufs s !! p = Some (link b l)) by apply Hp.
  destruct (refs_counts _ _ _ _ H Hb) as (_ & _ & _ & Hst). unfold stored in Hst. change (contiguous (link b l)) with (contiguous b) in Hst.
  unfold pbuf_add_header. rewrite (pbuf_add_header_impl_spec p b l n false s Hp Hsz Hn). unfold header_room. fold (contiguous b).
  apply sized_cons in Hsz as (Hsl & Hlb & Htot). pose proof (total_nonneg _ (proj1 Hsl)) as Htl.
  destruct (contiguous b) eqn:Hct.
  2: { left. replace (_ && _) with false by lia. split; [done|]. intros (? & _). congruence. }
  destruct Hst as (o & bs & Hpl & Hbs & Ho & _ & Hlen). simpl in Hpl, Hbs, Hlen. rewrite Hpl. simpl ptr_addr.
  destruct (_ && _) eqn:Hroom; [right|left].
  - eexists. split; [done|]. split; [|split; [done|]; split; [simpl; lia|]; exists o; split; [done|lia]].
    rewrite (pbuf_remove_header_spec p (shift b (- n)) l n).
    + replace (n <=? len (shift b (- n))) with true by (simpl; lia). simpl. rewrite shift_shift, Z.add_opp_diag_l, shift_0.
      unfold with_pbufs. simpl. rewrite insert_insert_eq, insert_id by done. by destruct s.
    + by apply (packet_head _ _ b).
    + split; [constructor; [simpl; lia|apply Hsl]|simpl; lia].
    + done.
  - split; [done|]. intros (_ & Ht & o' & Ho' & Hn'). rewrite Hpl in Ho'. injection Ho' as <-. simpl in *. lia.
Qed.

(** The holder gives the packet up. *)
Lemma free_steps E p (st : state) : link_ok ({[+ p +]} ⊎ E) (low st) -> p ∉ E ->
  exists k s', pbuf_free call_custom_free p (pm (low st)) = Ok (k, s') /\ steps E (low st) (with_pm (low st) s').
Proof.
  intros H Hp. destruct (lends_free call_custom_free E p (low st) (low st)) as (k & s' & Ef & Hs & _); [done| |by exists k, s'].
  apply lends_follows; [by apply follows_refl|done|done].
Qed.
(** What an error leaves. *)
Definition dropped (E : gmultiset Z) (st st' : state) : Prop :=
  steps E (low st) (low st') /\ ip_kept st st' /\ ip_id st' = ip_id st /\ frames (low st') = frames (low st).
Lemma goto_icmperr_spec E p st : link_ok ({[+ p +]} ⊎ E) (low st) -> p ∉ E ->
  exists st', icmp_goto_icmperr p st = Ok (tt, st') /\ dropped E st st'.
Proof.
  intros H Hp. destruct (free_steps E p st H Hp) as (k & s' & Ef & Hs). unfold icmp_goto_icmperr.
  eexists. split; [erewrite (st_bind_ok _ _ _ tt) by (by rewrite (on_pb_bind _ _ _ _ _ Ef)); done|]. done.
Qed.
Lemma goto_lenerr_spec E p st : link_ok ({[+ p +]} ⊎ E) (low st) -> p ∉ E ->
  exists st', icmp_goto_lenerr p st = Ok (tt, st') /\ dropped E st st'.
Proof.
  intros H Hp. destruct (free_steps E p st H Hp) as (k & s' & Ef & Hs). unfold icmp_goto_lenerr.
  eexists. split; [erewrite (st_bind_ok _ _ _ tt) by (by rewrite (on_pb_bind _ _ _ _ _ Ef)); done|]. done.
Qed.

Lemma slice_front o n (xs ys : list Z) : 0 <= o -> 0 <= n ->
  take (Z.to_nat (o + n)) xs = take (Z.to_nat (o + n)) ys -> slice o n xs = slice o n ys.
Proof. intros Ho Hn Hx. unfold slice. rewrite !take_drop_commute. rewrite Z2Nat.inj_add in Hx by done. by rewrite Hx. Qed.

(** The header [hs] is copied to the new pbuf [r]. *)
Lemma room_memcpy E p b l hlen hs r bs (s s1 : @pstate S) :
  refs_ok E s -> packet (pbufs s) ((p, b) :: l) -> solid ((p, b) :: l) ->
  region s (ptr_add (payload b) (- hlen)) hs -> Z.of_nat (length hs) = hlen ->
  pbufs s !! r = None -> calm (fun _ => True) s s1 -> own s1 !! r = Some bs -> 14 + hlen <= Z.of_nat (length bs) ->
  MEMCPY (Own r 14) (ptr_add (payload b) (- hlen)) hlen s1 = Ok (tt, headed s1 r 14 bs hs).
Proof.
  intros Hr Hp Hso Hreg Hhl Hnone Hc1 Hbs Hlen.
  assert (Hb : pbufs s !! p = Some (link b l)) by apply Hp. assert (Hpr : p <> r) by congruence.
  assert (Hlb : 0 < len b) by (by apply Forall_cons in Hso as [? _]).
  assert (Hobj : mem_obj s1 (payload b) = mem_obj s (payload b)).
  { apply (mem_obj_spared _ _ _ p (link b l) Hr Hb Hlb); [|apply Hc1]. destruct Hc1 as (_ & Hsp & _).
    destruct (Hsp p) as [_ Hx]; [exists ((p, b) :: l); split; [done|]; split; [done|by left]|].
    by destruct (Hx _ Hb) as (? & _ & _ & ?). }
  assert (Hsame : same_obj (Own r 14) (ptr_add (payload b) (- hlen)) = false).
  { destruct (refs_home _ _ p (link b l) Hr Hb Hlb) as [[o Hx]|Hx]; simpl in Hx; [rewrite Hx; simpl; lia|].
    destruct (payload b) as [|x o|]; [done|by destruct (Hx x o)|done]. }
  assert (Hreg1 : region s1 (ptr_add (payload b) (- hlen)) hs).
  { destruct Hreg as (x & Hx & Hrest). exists x. split; [|done]. rewrite mem_obj_add in Hx |- *. by rewrite Hobj. }
  apply (MEMCPY_ok _ _ _ hs); [done| |].
    - rewrite <-(ptr_add_0 (ptr_add _ _)). rewrite (region_read s1 _ hs) by (done || lia). by rewrite slice_whole.
    - apply (write_own s1 r 14 0 hs bs); done || lia.
Qed.
(** The message and its header are copied to the new pbuf [r]. *)
Lemma room_copy E p b l hlen hs r c bs nst (s1 : @pstate S) :
  link_ok E nst -> packet (pbufs (pm nst)) ((p, b) :: l) -> solid ((p, b) :: l) ->
  region (pm nst) (ptr_add (payload b) (- hlen)) hs -> Z.of_nat (length hs) = hlen -> 0 < hlen ->
  pbufs (pm nst) !! r = None -> calm (fun _ => True) (pm nst) s1 -> link_ok ({[+ r +]} ⊎ E) (with_pm nst s1) ->
  sendable ({[+ r +]} ⊎ E) (with_pm nst s1) r [(r, c)] -> pbufs s1 !! r = Some c -> payload c = Own r 14 ->
  len c = total ((p, b) :: l) + hlen -> next c = 0 -> type_internal c = u8 PBUF_RAM -> own s1 !! r = Some bs ->
  14 + len c <= Z.of_nat (length bs) ->
  exists s2 s2' s3 c3 bs3, MEMCPY (Own r 14) (ptr_add (payload b) (- hlen)) hlen s1 = Ok (tt, s2) /\
    pbuf_remove_header r hlen s2 = Ok (false, s2') /\ pbuf_copy r p s2' = Ok (ERR_OK, s3) /\
    calm (fun x => x <> r) (pm nst) s3 /\ refs_ok ({[+ r +]} ⊎ (E ⊎ queued (arp_table nst))) s3 /\ indeg (pbufs s3) r = 0 /\
    pbufs s3 !! r = Some c3 /\ payload c3 = Own r (14 + hlen) /\ len c3 = total ((p, b) :: l) /\ next c3 = 0 /\
    tot_len c3 = len c3 /\ type_internal c3 = u8 PBUF_RAM /\ own s3 !! r = Some bs3 /\ slice 14 hlen bs3 = hs /\
    data s3 [(r, c3)] = data (pm nst) ((p, b) :: l).
Proof.
  intros H Hp Hso Hreg Hhl Hh0 Hnone Hc1 H1 Hq1 Hb1 Hpl Hlc Hnx Hram Hbs Hlen. assert (Hr := link_refs _ _ H).
  assert (Hct := ram_contiguous _ Hram). assert (Hb : pbufs (pm nst) !! p = Some (link b l)) by apply Hp. assert (Hpr : p <> r) by congruence.
  assert (Hz := refs_sized _ _ _ _ _ Hr Hp). pose proof (total_nonneg _ (proj1 Hz)) as Htl.
  set (s2 := headed s1 r 14 bs hs).
  assert (E2 : MEMCPY (Own r 14) (ptr_add (payload b) (- hlen)) hlen s1 = Ok (tt, s2))
    by (eapply (room_memcpy _ p b l hlen hs r bs (pm nst)); [exact Hr|done..|lia]).
  assert (Hi1 : indeg (pbufs s1) r = 0) by apply Hq1.
  assert (Hr2 : refs_ok ({[+ r +]} ⊎ (E ⊎ queued (arp_table nst))) s2).
  { rewrite (assoc_L (⊎)). apply headed_refs; [apply H1|done|done|lia]. }
  destruct (pbuf_remove_header_heap _ r c hlen s2 Hr2 Hb1 Hi1 Hh0)
    as [[Hlt _]|(s2' & c3 & _ & E2' & Hr2' & Es & Hp3 & Hl3 & Ht3 & Hn3 & _ & Hty3)].
  { lia. }
  assert (Hram3 : type_internal c3 = u8 PBUF_RAM) by congruence. assert (Hct3 := ram_contiguous _ Hram3).
  assert (Hb3 : pbufs s2' !! r = Some c3) by (rewrite Es; apply lookup_insert_eq).
  assert (Hind : forall x, indeg (pbufs s2') x = indeg (pbufs s1) x) by (intros x; rewrite Es; by apply (indeg_update _ r c)).
  assert (C2 : calm (fun x => x <> r) (pm nst) s2').
  { eapply calm_trans; [eapply calm_weaken; [exact Hc1|done]|]. eapply calm_trans; [by apply headed_calm|].
    rewrite Es. apply calm_all; [done| |intros x; by apply reach_other|intros q _; rewrite <-Es; by rewrite Hind].
    intros q _ Hq. apply spared_keep; [|done|done]. simpl. by rewrite lookup_insert_ne. }
  destruct (fresh_copy _ _ p b l r c3 (total ((p, b) :: l)) 0 (pm nst) s2' Hr Hp Hso Hnone C2 Hr2' Hb3)
    as (s3 & Ec & C3 & Hr3 & Epb & Hd3 & Hfr & _); try done; try congruence; try lia.
  { apply Forall_cons in Hso as [? Hs]. apply solid_len, total_nonneg in Hs. simpl in *. lia. }
  rewrite Hpl in Hp3. simpl in Hp3.
  destruct (Hfr (14 + hlen) (splice 14 hs bs) Hp3) as (bs3 & Hbs3 & Hfront); [rewrite Es; apply lookup_insert_eq|].
  assert (Hd : data s3 [(r, c3)] = data (pm nst) ((p, b) :: l)).
  { assert (Hdl := data_length _ _ (refs_readable _ _ _ Hr Hp) (proj1 Hz)). rewrite Hd3, slice_whole by done. apply splice_all.
    rewrite (single_data s2' r c3 (14 + hlen) (splice 14 hs bs)); [|done|rewrite Es; apply lookup_insert_eq].
    rewrite slice_length by (rewrite ?splice_length by lia; lia). lia. }
  exists s2, s2', s3, c3, bs3. split; [done|]. split; [done|]. split.
  { destruct C2 as (_ & Hsp & _). destruct (Hsp p) as [_ Hx]; [exists ((p, b) :: l); split; [done|]; split; [done|by left]|].
    destruct (Hx _ Hb) as (bp & Hbp & Ebp & _). unfold pbuf_copy. replace (p =? 0) with false by (destruct Hp; lia).
    rewrite (pb_get_bind _ _ _ _ Hbp). replace (tot_len bp) with (total ((p, b) :: l)) by (by rewrite Ebp). done. }
  rewrite Epb. assert (Htl3 : tot_len c3 = len c3).
  { destruct Hq1 as ((_ & Hc & _) & _). simpl in Hc. assert (tot_len c = len c); [|lia].
    assert (c = link c []) as Ec0 by congruence. rewrite Ec0 at 1. simpl. lia. }
  do 3 (split; [done || by rewrite Hind|]). split; [done|]. split; [done|]. split; [lia|]. split; [congruence|].
  split; [done|]. split; [congruence|]. split; [done|]. split; [|done].
  rewrite (slice_front 14 hlen bs3 (splice 14 hs bs)) by (done || lia). rewrite <-Hhl. by apply slice_same; lia.
Qed.

(** The pbufs have been rearranged, and those of the other holders spared. *)
Definition moved (E : gmultiset Z) (nst nst' : @net S) : Prop :=
  tables_kept nst nst' /\ frames nst' = frames nst /\ calm (private E nst) (pm nst) (pm nst').
Lemma moved_steps E nst nst1 nst2 : moved E nst nst1 -> steps E nst1 nst2 -> steps E nst nst2.
Proof. intros (Ht & Hf & Hc). apply steps_pm; [done|by rewrite Hf|done]. Qed.
Lemma steps_moved E nst nst' : steps E nst nst' -> tables_kept nst nst' -> frames nst' = frames nst -> moved E nst nst'.
Proof. intros [F _] Ht Hf. split; [done|]. split; [done|]. apply F. Qed.
Lemma moved_moved E nst1 nst2 nst3 : moved E nst1 nst2 -> moved E nst2 nst3 -> moved E nst1 nst3.
Proof.
  intros (T1 & F1 & C1) (T2 & F2 & C2). split; [by eapply tables_kept_trans|]. split; [congruence|].
  eapply calm_trans; [exact C1|]. eapply calm_weaken; [exact C2|]. destruct T1 as (_ & _ & _ & Ta & _).
  intros x. unfold private. by rewrite Ta.
Qed.

(** A message [m] that has arrived behind the header [hs]. *)
Record arrived (E : gmultiset Z) (st : state) (p : Z) (b : pbuf) (l : list (Z * pbuf)) (hlen : Z) (hs m : list Z) : Prop := {
  arr_link : link_ok ({[+ p +]} ⊎ E) (low st);
  arr_held : p ∉ E;
  arr_sendable : sendable ({[+ p +]} ⊎ E) (low st) p ((p, b) :: l);
  arr_header : region (pm (low st)) (ptr_add (payload b) (- hlen)) hs;
  arr_length : Z.of_nat (length hs) = hlen;
  arr_hlen : 20 <= hlen <= 60;
  arr_bytes : bytes (hs ++ m);
  arr_data : data (pm (low st)) ((p, b) :: l) = m
}.

Lemma multiplicity_own p (E : gmultiset Z) : p ∉ E -> multiplicity p ({[+ p +]} ⊎ E) = 1%nat.
Proof.
  intros Hp. rewrite elem_of_multiplicity in Hp. rewrite multiplicity_disj_union, multiplicity_singleton_eq. lia.
Qed.
(** With room in front it can be answered where it is. *)
Lemma arrived_request E st p b l hlen hs m :
  arrived E st p b l hlen hs m -> head_room hlen ((p, b) :: l) -> 4 <= len b -> request ({[+ p +]} ⊎ E) st p b l hlen hs m.
Proof.
  intros [H Hp Hq (bs & Hbs & Hx & Hlen & Hhs) Hl Hh Hby Hd] (Hct & Ht & o & Ho & Hoh) H4.
  split; try done; [by apply multiplicity_own| |lia]. rewrite Ho in *. simpl in *. exists o, bs. split; [done|]. split; [done|].
  split; [done|]. rewrite Hl in Hhs. by symmetry.
Qed.

(** The copy in one pbuf, after the original was freed. *)
Lemma copied_request E r c hlen hs m o bs s (st st' : state) :
  r <> 0 -> steps ({[+ r +]} ⊎ E) (low st) (with_pm (low st) s) -> pm (low st') = s -> low st' = with_pm (low st) s ->
  r ∉ E -> indeg (pbufs (pm (low st))) r = 0 -> r ∉ queued (arp_table (low st)) ->
  pbufs (pm (low st)) !! r = Some c -> type_internal c = u8 PBUF_RAM -> next c = 0 -> tot_len c = len c -> payload c = Own r (o + hlen) ->
  own (pm (low st)) !! r = Some bs -> slice o hlen bs = hs -> 0 <= o -> 20 <= hlen -> 4 <= len c -> len c + hlen < 65536 ->
  bytes (hs ++ m) -> data (pm (low st)) [(r, c)] = m ->
  exists b', request ({[+ r +]} ⊎ E) st' r b' [] hlen hs m /\ len b' = len c /\
    (head_room (o + hlen) [(r, b')] <-> len c + (o + hlen) < 65536) /\ needs_copy [(r, b')] = false.
Proof.
  intros Hr0 [F _] Es El HrE Hi Hrq Hc Hram Hn Ht Hpl Hbs Hhs Ho Hhl H4 Hsum Hby Hd. assert (Hct := ram_contiguous _ Hram).
  assert (Hpr : private ({[+ r +]} ⊎ E) (low st) r) by (split; [apply multiset_head|done]).
  pose proof (fol_calm _ _ _ F) as (_ & Hsp & Hin). simpl pm in *.
  assert (Hlc := link_single c Hn Ht).
  destruct (Hsp r) as [_ Hx].
  { exists [(r, c)]. split; [split; [done|]; split; [by rewrite Hlc|done]|]. split; [done|by left]. }
  destruct (Hx c Hc) as (b' & Hb' & Eb' & Hown). exists b'. rewrite <-Es in Hb', Hown.
  assert (Hlb : link b' [] = b') by (apply link_single; by rewrite Eb').
  split; [|split; [by rewrite Eb'|split; [|apply ram_uncopied; by rewrite Eb']]].
  2: { unfold head_room. simpl. rewrite Eb'. change (contiguous (with_ref c _)) with (contiguous c). simpl. rewrite Z.add_0_r, Hpl.
       split; [by intros (_ & ? & _)|]. intros Hlt. split; [done|]. split; [done|]. by exists (o + hlen). }
  split.
  - rewrite El. apply F.
  - split; [split; [done|]; split; [by rewrite Hlb|done]|]. split; [done|]. split; [done|].
    split; [apply Forall_singleton; simpl; rewrite Eb'; simpl; lia|]. split.
    + rewrite Es. specialize (Hin r Hr0). pose proof (indeg_nonneg (pbufs s) r). lia.
    + rewrite El. split; [by apply (fol_private _ _ _ F)|]. by rewrite multiplicity_own.
  - by apply multiplicity_own.
  - by rewrite Eb'.
  - exists (o + hlen), bs. split; [by rewrite Eb'|]. split; [by rewrite Hown|]. split; [lia|]. by rewrite Z.add_simpl_r.
  - done.
  - rewrite Eb'. simpl. lia.
  - by rewrite Eb'.
  - done.
  - rewrite (single_data _ r b' (o + hlen) bs); [|by rewrite Eb'|by rewrite Hown]. rewrite <-Hd.
    rewrite (single_data _ r c (o + hlen) bs) by done. by rewrite Eb'.
Qed.
Lemma icmp_copy_spec E p b l hlen hs m st :
  arrived E st p b l hlen hs m -> 4 <= len b -> 8 <= total ((p, b) :: l) -> total ((p, b) :: l) + hlen < 65536 ->
  exists r st', icmp_copy p hlen (total ((p, b) :: l) + hlen) (ptr_add (payload b) (- hlen)) st = Ok (r, st') /\
    match r with
    | None => dropped E st st' /\
        exists s', pbuf_alloc call_custom_free garbage PBUF_LINK (total ((p, b) :: l) + hlen) PBUF_RAM (pm (low st)) = Ok (0, s')
    | Some p' => (p' ∉ E) /\ moved E (low st) (low st') /\ ip_kept st st' /\ ip_id st' = ip_id st /\
        exists b' l', request ({[+ p' +]} ⊎ E) st' p' b' l' hlen hs m /\ total ((p', b') :: l') = total ((p, b) :: l) /\
          (head_room (14 + hlen) ((p', b') :: l') <-> total ((p, b) :: l) + (14 + hlen) < 65536) /\ needs_copy ((p', b') :: l') = false
    end.
Proof.
  intros Ha H4 H8 Hsum. pose proof Ha as [H Hp Hq Hreg Hl Hh Hby Hd]. pose proof Hq as (Hpk & _ & _ & Hso & _).
  unfold icmp_copy. set (tot := total ((p, b) :: l)) in *.
  destruct (alloc_sendable call_custom_free garbage _ PBUF_LINK (tot + hlen) (low st) H ltac:(lia))
    as (r & s1 & Ea & [(-> & Hs & Hc)|(c & bs & Hr0 & HrE & Hnone & Hc1 & H1 & Hq1 & Hm & Hb1 & Hpl & Hlc & Hnx & Hram & Hbs & Hlen)]);
    rewrite (on_pb_bind _ _ _ _ _ Ea).
  { change (0 =? 0) with true. cbv iota. set (st1 := with_low st _). destruct (goto_icmperr_spec E p st1) as (st' & Ee & Hs' & K & I & F); [apply Hs|done|].
    exists None, st'. rewrite (st_bind_ok _ _ _ _ _ Ee). split; [done|]. split; [|by exists s1]. split; [|done].
    eapply (steps_pm E (low st) (low st1)); [done|done| |done]. eapply calm_weaken; [exact Hc|done]. }
  rewrite (proj2 (Z.eqb_neq _ _) Hr0). set (st1 := with_low st _). rewrite (on_pb_get_bind r c) by done.
  change SIZEOF_ICMP_HDR with 8. replace (len c <? hlen + 8) with false by lia. rewrite Hpl. change (layer_offset PBUF_LINK) with 14 in *.
  destruct (room_copy ({[+ p +]} ⊎ E) p b l hlen hs r c bs (low st) s1) as (s2 & s2' & s3 & c3 & bs3 & M2 & M2' & M3 & C3 & R3 & I3 & B3 & P3 & L3 & N3 & T3 & Ct3 & O3 & S3 & D3);
    try done; [lia|lia|].
  rewrite (on_pb_bind _ _ st1 tt s2) by exact M2. rewrite (on_pb_bind _ _ _ false s2') by exact M2'. cbv iota.
  rewrite (on_pb_bind _ _ _ ERR_OK s3) by exact M3. change (negb (ERR_OK =? ERR_OK)) with false. cbv iota.
  set (st3 := with_low _ (with_pm _ s3)). assert (Hpr : p <> r) by (intros ->; by destruct Hpk as (_ & Hb & _); congruence).
  assert (HrE' : r ∉ E) by (intros ?; apply HrE, gmultiset_elem_of_disj_union; by right).
  assert (E3 : {[+ r +]} ⊎ ({[+ p +]} ⊎ E) = {[+ p +]} ⊎ ({[+ r +]} ⊎ E)) by (by rewrite !(assoc_L (⊎)), (comm_L (⊎) {[+ r +]})).
  assert (H3 : link_ok ({[+ p +]} ⊎ ({[+ r +]} ⊎ E)) (low st3)).
  { rewrite <-E3. eapply (link_change _ _ (low st)); [exact H|simpl; by rewrite <-(assoc_L (⊎))|done|].
    intros x Hx. by eapply C3, queued_nonzero. }
  destruct (free_steps ({[+ r +]} ⊎ E) p st3 H3) as (k & s4 & Ef & Hs4).
  { rewrite gmultiset_elem_of_disj_union, gmultiset_elem_of_singleton. tauto. }
  rewrite (st_bind_ok _ _ _ tt (with_low st3 (with_pm (low st3) s4))) by (by rewrite (on_pb_bind _ _ _ _ _ Ef)).
  set (st4 := with_low st3 _). exists (Some r), st4. split; [done|]. split; [done|]. split; [|split; [done|split; [done|]]].
  - split; [done|]. split; [done|]. eapply calm_trans; [eapply calm_weaken; [exact C3|]|eapply calm_weaken; [apply Hs4|]].
    + intros x [Hx _] ->. done.
    + intros x [Hx Hxq]. split; [apply gmultiset_elem_of_disj_union; by right|done].
  - destruct (copied_request E r c3 hlen hs m 14 bs3 s4 st3 st4) as (b' & Hreq & Hl' & Hroom & Hcopy); try done; try lia.
    + destruct Hq1 as (_ & _ & _ & _ & _ & [_ Hrq] & _). exact Hrq.
    + simpl pm. congruence.
    + exists b', []. split; [done|]. split; [simpl; fold tot; lia|]. split; [|done]. rewrite Hroom. by rewrite L3.
Qed.
(** There is no room for the headers in front of the message, and no memory for a copy that has it. *)
Definition unroomed (l : list (Z * pbuf)) (hlen : Z) (st : state) : Prop :=
  ~ head_room (SIZEOF_ETH_HDR + hlen) l /\
  (65536 <= total l + hlen \/ no_memory PBUF_LINK (total l + hlen) (pm (low st))).
Lemma icmp_make_room_spec E p b l hlen hs m st :
  arrived E st p b l hlen hs m -> 4 <= len b -> 8 <= total ((p, b) :: l) ->
  exists r st', icmp_make_room p hlen (ptr_add (payload b) (- hlen)) st = Ok (r, st') /\
    match r with
    | None => dropped E st st' /\ unroomed ((p, b) :: l) hlen st
    | Some p' => (p' ∉ E) /\ moved E (low st) (low st') /\ ip_kept st st' /\ ip_id st' = ip_id st /\
        exists b' l', request ({[+ p' +]} ⊎ E) st' p' b' l' hlen hs m /\ total ((p', b') :: l') = total ((p, b) :: l) /\
          (head_room (SIZEOF_ETH_HDR + hlen) ((p', b') :: l') <-> total ((p, b) :: l) + (SIZEOF_ETH_HDR + hlen) < 65536) /\
          (needs_copy ((p', b') :: l') = true -> head_room (SIZEOF_ETH_HDR + hlen) ((p, b) :: l) /\ needs_copy ((p, b) :: l) = true)
    end.
Proof.
  intros Ha H4 H8. pose proof Ha as [H Hp Hq Hreg Hl Hh Hby Hd]. assert (Hr := link_refs _ _ H).
  unfold icmp_make_room, unroomed. change (hlen + PBUF_LINK_HLEN + PBUF_LINK_ENCAPSULATION_HLEN) with (hlen + 14 + 0). rewrite Z.add_0_r.
  change SIZEOF_ETH_HDR with 14. rewrite (Z.add_comm 14).
  destruct (header_and_back _ p b l (hlen + 14) (pm (low st)) Hr (proj1 Hq) ltac:(lia)) as [[E1 Hno]|(s1 & E1 & E2 & Hroom)].
  2: { rewrite (on_pb_bind _ _ _ _ _ E1). cbv iota.
       rewrite (on_pb_bind _ _ (with_low st (with_pm (low st) s1)) false (pm (low st))) by exact E2. cbv iota.
       exists (Some p), st. split.
       { change (Ok (Some p, with_low st (with_pm (low st) (pm (low st)))) = Ok (Some p, st)). by rewrite low_pm_self. }
       split; [done|].
       split; [by split; [|split; [|apply calm_refl]]|]. split; [done|]. split; [done|]. exists b, l.
       split; [|split; [done|split; [split; [by intros (_ & ? & _)|done]|done]]].
       apply arrived_request; try done. destruct Hroom as (? & ? & o & ? & ?). split; [done|]. split; [lia|]. exists o. split; [done|lia]. }
  rewrite (on_pb_bind _ _ _ _ _ E1). cbv iota. rewrite low_pm_self, (on_pb_get_bind p (link b l)) by apply Hq.
  change (tot_len (link b l)) with (total ((p, b) :: l)). assert (Hz := refs_sized _ _ _ _ _ Hr (proj1 Hq)).
  set (tot := total ((p, b) :: l)) in *. assert (Htot : tot < 65536) by apply Hz.
  destruct (Z.ltb_spec (u16 (tot + hlen)) tot) as [Hov|Hov].
  { destruct (goto_icmperr_spec E p st H Hp) as (st' & Ee & Hdr). exists None, st'. rewrite (st_bind_ok _ _ _ _ _ Ee).
    split; [done|]. split; [done|]. split; [done|]. left. unfold u16 in Hov. words. }
  assert (Hsum : tot + hlen < 65536) by (unfold u16 in Hov; words). rewrite u16_id by (unfold is_u16; lia).
  destruct (icmp_copy_spec E p b l hlen hs m st Ha H4 H8 Hsum) as (r & st' & Ec & Hres). exists r, st'. split; [exact Ec|].
  destruct r as [p'|]; [|destruct Hres; by auto]. destruct Hres as (? & ? & ? & ? & b' & l' & ? & ? & Hro & Hco). do 4 (split; [done|]).
  exists b', l'. split; [done|]. split; [done|]. rewrite (Z.add_comm hlen). split; [done|]. by rewrite Hco.
Qed.

(** ** Input *)

Lemma read_segments_spec E (s : @pstate S) fuel l : refs_ok E s -> packet (pbufs s) l -> (length l < fuel)%nat ->
  read_segments fuel (head_addr l) s = Ok (map (fun x => (ptr_addr (payload x.2), pbuf_bytes s x.2)) l, s).
Proof.
  intros H. revert fuel. induction l as [|[a b] l IH]; intros [|fuel] Hp Hf; simpl in Hf; try lia; [done|].
  destruct Hp as (Ha & Hb & Hl). cbn [read_segments head_addr]. replace (a =? 0) with false by lia.
  rewrite (pb_get_bind _ _ _ _ Hb). change (payload (link b l)) with (payload b). change (len (link b l)) with (len b).
  assert (Er : read_mem (payload b) (len b) s = Ok (pbuf_bytes s b, s)).
  { destruct (refs_counts _ _ _ _ H Hb) as (_ & _ & _ & Hst).
    assert (Hx : len b = 0 \/ extent s (payload b) (len b)).
    { unfold stored in Hst. change (contiguous (link b l)) with (contiguous b) in Hst. destruct (contiguous b); [right|].
      - destruct Hst as (o & bs & Hpl & Hbs & Hr). simpl in *. exists bs. rewrite Hpl. simpl. split; [done|]. lia.
      - destruct Hst as [?|[? _]]; [by left|by right]. }
    destruct Hx as [Hz|(bs & Hbs & H0 & H1)]; [unfold pbuf_bytes; by rewrite Hz, slice_0|].
    rewrite <-(ptr_add_0 (payload b)) at 1. rewrite (read_mem_ok s _ 0 _ bs) by (done || lia).
    unfold pbuf_bytes. by rewrite Hbs, Z.add_0_r. }
  rewrite (st_bind_ok _ _ _ _ _ Er). change (next (link b l)) with (head_addr l).
  rewrite (st_bind_ok _ _ _ _ _ (IH fuel Hl ltac:(lia))). done.
Qed.
Lemma chksum_pbuf_spec {B} E (f : Z -> M B) p b l st : refs_ok E (pm (low st)) -> packet (pbufs (pm (low st))) ((p, b) :: l) ->
  bytes (data (pm (low st)) ((p, b) :: l)) ->
  (chksum_pbuf p ≫= f) st = f (65535 - cksum_ref (data (pm (low st)) ((p, b) :: l))) st.
Proof.
  intros H Hp Hby. rewrite (st_bind_ok _ _ _ (65535 - cksum_ref (data (pm (low st)) ((p, b) :: l))) st); [done|].
  unfold chksum_pbuf. pose proof (packet_length _ _ Hp) as Hlen.
  rewrite (on_pb_bind _ _ _ (Datatypes.S (size (pbufs (pm (low st))))) (pm (low st))) by done. rewrite low_pm_self.
  rewrite (on_pb_bind _ _ _ _ _ (read_segments_spec _ _ (Datatypes.S (size (pbufs (pm (low st))))) ((p, b) :: l) H Hp ltac:(lia))). rewrite low_pm_self.
  unfold mret, st_ret. do 2 f_equal. set (segs := map _ _).
  assert (Es : seg_data segs = data (pm (low st)) ((p, b) :: l)) by (unfold seg_data, segs, data; by rewrite map_map).
  rewrite inet_chksum_pbuf_correct; [by rewrite Es|]. rewrite <-Es in Hby. clear -Hby. clearbody segs.
  induction segs as [|x segs IH]; [constructor|]. apply Forall_app in Hby as [? ?]. constructor; [done|by apply IH].
Qed.

(** What [icmp_input] keeps. *)
Definition handled (E : gmultiset Z) (st st' : state) : Prop :=
  steps E (low st) (low st') /\ ip_kept st st' /\ ip_id st' = ip_id st.
(** The answer to [m] was sent, or there was no room in front of it and no memory.  The answer has room for the Ethernet
    header unless it is as long as a pbuf can be; to wait it is copied if it is written over a request that needs it. *)
Definition answered (l : list (Z * pbuf)) (hlen : Z) (hs m : list Z) (src dst inp : Z) (nif : netif) (st st' : state) : Prop :=
  (exists err, transmitted call_custom_free garbage (total l + (SIZEOF_ETH_HDR + hlen) < 65536)
     (head_room (SIZEOF_ETH_HDR + hlen) l /\ needs_copy l = true)
     inp nif dst (reply_header hs src dst ++ echo_message m) err (low st) (low st')) \/
  (unroomed l hlen st /\ frames (low st') = frames (low st)).

Lemma echo_answered E p b l hlen hs code c0 c1 rest type src inp nif st :
  let m := type :: code :: c0 :: c1 :: rest in let dst := current_iphdr_src (ip_data st) in
  arrived E st p b l hlen hs m -> 4 <= len b -> 8 <= total ((p, b) :: l) ->
  ethernet_netif (low st) inp -> netifs (low st) !! inp = Some nif -> fits_mtu nif (total ((p, b) :: l) + hlen) -> is_u32 dst ->
  exists st', (r ← icmp_make_room p hlen (ptr_add (payload b) (- hlen));
      match r with None => mret tt | Some p => _ ← icmp_echo_reply p hlen src inp; pfree p end) st = Ok (tt, st') /\
    handled E st st' /\ answered ((p, b) :: l) hlen hs m src dst inp nif st st'.
Proof.
  intros m dst Ha H4 H8 Hn Hnif Hmtu Hdst.
  destruct (icmp_make_room_spec E p b l hlen hs m st Ha H4 H8) as ([p'|] & st1 & E1 & Hres); rewrite (st_bind_ok _ _ _ _ _ E1).
  2: { destruct Hres as ((Hs & K & I & F) & Hno). exists st1. split; [done|]. split; [done|]. by right. }
  destruct Hres as (Hp' & Hmv & K1 & I1 & b' & l' & Hreq & Etot & Hroom & Hcopy). pose proof Hmv as ((Tn & _ & _ & Ta & _) & F1 & C1).
  assert (D1 : current_iphdr_src (ip_data st1) = dst) by (unfold dst; by destruct K1 as (_ & -> & _)).
  destruct (icmp_echo_reply_spec _ p' b' l' hlen hs code c0 c1 type rest src inp nif st1 Hreq) as (err & st2 & E2 & L2 & K2 & I2 & T2).
  { destruct Hn as (? & ? & Hx). split; [done|]. split; [done|]. by rewrite Tn. }
  { by rewrite Tn. } { by rewrite Etot. } { by rewrite D1. }
  rewrite (st_bind_ok _ _ _ _ _ E2). destruct (lends_free call_custom_free E p' (low st1) (low st2) Hp' L2) as (k & s' & Ef & Hs & Hc).
  eexists. split; [by rewrite (on_pb_bind _ _ _ _ _ Ef)|]. split.
  - split; [by eapply moved_steps|]. split; [by eapply ip_kept_trans|]. simpl. congruence.
  - left. exists err. rewrite D1 in T2. eapply transmitted_pm; [apply L2|eapply calm_weaken; [exact Hc|]|].
    + intros x Hx. apply gmultiset_elem_of_disj_union. by right.
    + eapply transmitted_start; [exact F1|exact Ta|]. by eapply transmitted_iff; [exact Hroom|exact Hcopy|exact T2].
Qed.

(** An echo request to answer: complete, not sent to a group, with a checksum that verifies. *)
Definition answerable (b : pbuf) (dest : Z) (nif : netif) (m : list Z) : bool :=
  (4 <=? len b) && bool_decide (head m = Some ICMP_ECHO) && negb (ip4_addr_ismulticast dest) &&
  negb (ip4_addr_isbroadcast dest nif) && (SIZEOF_ICMP_HDR <=? Z.of_nat (length m)) && (cksum_ref m =? 65535).

Lemma freed_spec E p (st : state) : link_ok ({[+ p +]} ⊎ E) (low st) -> p ∉ E ->
  exists st', pfree p st = Ok (tt, st') /\ dropped E st st'.
Proof.
  intros H Hp. destruct (free_steps E p st H Hp) as (k & s' & Ef & Hs).
  eexists. split; [by rewrite (on_pb_bind _ _ _ _ _ Ef)|]. done.
Qed.
Lemma dropped_handled E st st1 st' : low st1 = low st -> ip_kept st st1 -> ip_id st1 = ip_id st -> dropped E st1 st' ->
  handled E st st' /\ frames (low st') = frames (low st).
Proof.
  intros El K I (Hs & K' & I' & F). rewrite El in *. split; [|done]. split; [done|]. split; [by eapply ip_kept_trans|congruence].
Qed.

Lemma drop_handled E st st1 (m0 : M unit) : low st1 = low st -> ip_kept st st1 -> ip_id st1 = ip_id st ->
  (exists st', m0 st1 = Ok (tt, st') /\ dropped E st1 st') ->
  exists st', m0 st1 = Ok (tt, st') /\ handled E st st' /\ frames (low st') = frames (low st).
Proof. intros El K I (st' & Em & Hdr). exists st'. split; [done|]. by apply (dropped_handled E st st1). Qed.

(** The case of an echo request. *)
Lemma icmp_echo_spec E p b l hlen hs code c0 c1 rest inp nif cnif st :
  let m := ICMP_ECHO :: code :: c0 :: c1 :: rest in
  let src := current_iphdr_src (ip_data st) in let dest := current_iphdr_dest (ip_data st) in
  arrived E st p b l hlen hs m -> 4 <= len b ->
  ethernet_netif (low st) inp -> netifs (low st) !! inp = Some nif -> netifs (low st) !! current_netif (ip_data st) = Some cnif ->
  fits_mtu nif (total ((p, b) :: l) + hlen) -> is_u32 src ->
  exists st', (if ip4_addr_ismulticast dest then icmp_goto_icmperr p
     else
       nif ← on_low (netif_get (current_netif (ip_data st)));
       if ip4_addr_isbroadcast dest nif then icmp_goto_icmperr p
       else if total ((p, b) :: l) <? SIZEOF_ICMP_HDR then icmp_goto_lenerr p
       else
         sum ← chksum_pbuf p;
         if negb (sum =? 0) then _ ← pfree p; IP_STATS_INC icmp_chkerr
         else
           r ← icmp_make_room p hlen (ptr_add (payload b) (- hlen));
           match r with
           | None => mret tt
           | Some p => _ ← icmp_echo_reply p hlen dest inp; pfree p
           end) st = Ok (tt, st') /\ handled E st st' /\
    if negb (ip4_addr_ismulticast dest) && negb (ip4_addr_isbroadcast dest cnif) &&
       (SIZEOF_ICMP_HDR <=? Z.of_nat (length m)) && (cksum_ref m =? 65535)
    then answered ((p, b) :: l) hlen hs m dest src inp nif st st' else frames (low st') = frames (low st).
Proof.
  intros m src dest Ha H4 Hn Hnif Hcn Hmtu Hsrc. pose proof Ha as [H Hp Hq Hreg Hl Hh Hby Hd]. assert (Hr := link_refs _ _ H).
  destruct (ip4_addr_ismulticast dest); cbn [negb andb].
  { by apply (drop_handled E st st), goto_icmperr_spec. }
  rewrite (netif_bind _ _ _ _ Hcn). destruct (ip4_addr_isbroadcast dest cnif); cbn [negb andb].
  { by apply (drop_handled E st st), goto_icmperr_spec. }
  assert (Hlm : Z.of_nat (length m) = total ((p, b) :: l)).
  { rewrite <-Hd. apply data_length; [by eapply refs_readable, Hq|by eapply refs_sized, Hq]. }
  rewrite Hlm. unfold SIZEOF_ICMP_HDR. destruct (Z.ltb_spec (total ((p, b) :: l)) 8) as [H8|H8].
  { replace (8 <=? _) with false by lia. by apply (drop_handled E st st), goto_lenerr_spec. }
  replace (8 <=? _) with true by lia. cbn [andb].
  rewrite (chksum_pbuf_spec _ _ p b l st Hr (proj1 Hq)) by (rewrite Hd; by apply Forall_app in Hby as [_ ?]). rewrite Hd.
  destruct (Z.eqb_spec (cksum_ref m) 65535) as [->|Hck].
  - change (negb (65535 - 65535 =? 0)) with false. cbv iota. by apply echo_answered.
  - replace (65535 - cksum_ref m =? 0) with false by lia. cbn [negb].
    destruct (freed_spec E p st H Hp) as (st' & Ef & Hs & K & I & F). rewrite (st_bind_ok _ _ _ _ _ Ef).
    eexists. split; [done|]. by split.
Qed.

Lemma icmp_input_spec E p b l hlen v hs m inp nif cnif st :
  let src := current_iphdr_src (ip_data st) in let dest := current_iphdr_dest (ip_data st) in
  arrived E st p b l hlen (v :: hs) m -> Z.land v 0x0f * 4 = hlen ->
  current_ip4_header (ip_data st) = ptr_add (payload b) (- hlen) ->
  ethernet_netif (low st) inp -> netifs (low st) !! inp = Some nif -> netifs (low st) !! current_netif (ip_data st) = Some cnif ->
  fits_mtu nif (total ((p, b) :: l) + hlen) -> is_u32 src ->
  exists st', icmp_input p inp st = Ok (tt, st') /\ handled E st st' /\
    if answerable b dest cnif m then answered ((p, b) :: l) hlen (v :: hs) m dest src inp nif st st'
    else frames (low st') = frames (low st).
Proof.
  intros src dest Ha Hv Hcur Hn Hnif Hcn Hmtu Hsrc. pose proof Ha as [H Hp Hq Hreg Hl Hh Hby Hd].
  unfold icmp_input. rewrite stats_bind. set (st1 := with_ip_stats _ _). change (low st) with (low st1) in *.
  rewrite get_bind. change (ip_data st1) with (ip_data st). rewrite Hcur. unfold IPH_HL_BYTES.
  assert (Eh : IPH_HL_BYTES (ptr_add (payload b) (- hlen)) st1 = Ok (hlen, st1)).
  { unfold IPH_HL_BYTES. rewrite (get8_bind _ _ (v :: hs)) by (done || simpl; lia). change (slice 0 1 (v :: hs)) with [v].
    apply Forall_cons in Hby as [Hv8 _]. rewrite le_val_u8, Hv, u8_id by (done || unfold is_u8; lia). done. }
  rewrite (st_bind_ok _ _ _ _ _ Eh). replace (hlen <? IP_HLEN) with false by (unfold IP_HLEN; lia).
  assert (Hb : pbufs (pm (low st1)) !! p = Some (link b l)) by apply Hq. rewrite (on_pb_get_bind _ _ _ _ Hb).
  change (len (link b l)) with (len b). unfold answerable. change (payload (link b l)) with (payload b).
  change (tot_len (link b l)) with (total ((p, b) :: l)).
  destruct (Z.ltb_spec (len b) 4) as [H4|H4].
  { replace (4 <=? len b) with false by lia. cbn [andb]. by apply (drop_handled E st st1), goto_lenerr_spec. }
  replace (4 <=? len b) with true by lia. cbn [andb].
  destruct (packet_region _ (pm (low st1)) p b l (link_refs _ _ H) (proj1 Hq) ltac:(lia)) as [Hregb Hlb].
  assert (Hlm : (4 <= length m)%nat) by (rewrite <-Hd, data_cons, length_app; lia).
  destruct m as [|type [|code [|c0 [|c1 rest]]]]; try (simpl in Hlm; lia). set (m := type :: _) in *.
  rewrite (get8_bind _ _ (pbuf_bytes (pm (low st1)) b)) by (done || lia). rewrite (slice_data _ p b l), Hd by lia.
  change (slice 0 1 m) with [type]. pose proof Hby as [_ Hbm]%Forall_app. apply Forall_cons in Hbm as [Hty _].
  rewrite le_val_u8 by done. change (head m) with (Some type).
  destruct (Z.eqb_spec type ICMP_ER) as [->|Her].
  { rewrite bool_decide_false by done. cbn [andb]. by apply (drop_handled E st st1), freed_spec. }
  destruct (Z.eqb_spec type ICMP_ECHO) as [->|Hne].
  2: { rewrite bool_decide_false by congruence. cbn [andb]. rewrite !stats_bind.
       eapply (drop_handled E st (with_ip_stats (with_ip_stats st1 _) _)); [done..|]. by apply freed_spec. }
  rewrite bool_decide_true by done. cbn [andb]. destruct (icmp_echo_spec E p b l hlen (v :: hs) code c0 c1 rest inp nif cnif st1)
    as (st' & Ee & Hha & Hans); try done. exists st'. split; [exact Ee|]. split; [done|]. exact Hans.
Qed.

Lemma answerable_verifies b dest nif m addr : answerable b dest nif m = true -> bytes m -> inet_chksum addr (echo_message m) = 0.
Proof.
  unfold answerable. rewrite !andb_true_iff, bool_decide_eq_true. intros (((((_ & Hh) & _) & _) & Hl) & Hs) Hb.
  destruct m as [|t [|code [|c0 [|c1 rest]]]]; try (unfold SIZEOF_ICMP_HDR in Hl; simpl in Hl; lia). injection Hh as ->.
  apply echo_message_verifies; [done|lia].
Qed.

(** A message that has arrived is answered if it is a complete echo request with a good
    checksum that was not sent to a group: the answer goes back to the sender with the addresses
    exchanged, the identifier, sequence number and data of the request, a header checksum computed anew and a
    message checksum that verifies although it was only adjusted.  Any other message is dropped and nothing is sent.  In all cases the
    packet is given back and the invariant of the link layer is kept. *)
Theorem icmp_input_correct E p b l hlen v hs m inp nif cnif st :
  let src := current_iphdr_src (ip_data st) in let dest := current_iphdr_dest (ip_data st) in
  arrived E st p b l hlen (v :: hs) m -> Z.land v 0x0f * 4 = hlen ->
  current_ip4_header (ip_data st) = ptr_add (payload b) (- hlen) ->
  ethernet_netif (low st) inp -> netifs (low st) !! inp = Some nif -> netifs (low st) !! current_netif (ip_data st) = Some cnif ->
  fits_mtu nif (total ((p, b) :: l) + hlen) -> is_u32 src ->
  exists st', icmp_input p inp st = Ok (tt, st') /\ handled E st st' /\
    if answerable b dest cnif m
    then answered ((p, b) :: l) hlen (v :: hs) m dest src inp nif st st' /\
         (forall a, inet_chksum a (reply_header (v :: hs) dest src) = 0 /\ inet_chksum a (echo_message m) = 0)
    else frames (low st') = frames (low st).
Proof.
  intros src dest Ha Hv Hcur Hn Hnif Hcn Hmtu Hsrc.
  destruct (icmp_input_spec E p b l hlen v hs m inp nif cnif st Ha Hv Hcur Hn Hnif Hcn Hmtu Hsrc) as (st' & Ei & Hh & Hres).
  exists st'. split; [done|]. split; [done|]. fold src dest in Hres. destruct (answerable b dest cnif m) eqn:Ea; [|done]. split; [done|].
  destruct (proj1 (Forall_app _ _ _) (arr_bytes _ _ _ _ _ _ _ _ Ha)) as [Hb1 Hb2]. intros a. split.
  - apply reply_header_verifies; [|done]. pose proof (arr_length _ _ _ _ _ _ _ _ Ha). pose proof (arr_hlen _ _ _ _ _ _ _ _ Ha). lia.
  - by eapply answerable_verifies.
Qed.

(** C35. An error about a datagram, which has 20 bytes in its first pbuf and no empty pbuf, quotes its header and the first eight bytes behind it and
    goes to its source, on the route [ip4_route] finds: it is given to the driver in a frame to the next hop or to a group, or waits for the address of the
    next hop.  Both checksums are right.  Nothing is sent without a route or if [pbuf_alloc] has no memory for the message.  The datagram is not given
    back, and nothing leaks. *)
Theorem icmp_errors_correct E p b l (e : icmp_dur_type + icmp_te_type) st :
  link_ok E (low st) -> interfaces_ok st -> is_u16 (ip_id st) ->
  packet (pbufs (pm (low st))) ((p, b) :: l) -> solid ((p, b) :: l) -> IP_HLEN <= len b ->
  bytes (data (pm (low st)) ((p, b) :: l)) ->
  let d := data (pm (low st)) ((p, b) :: l) in
  let type := match e with inl _ => ICMP_DUR | inr _ => ICMP_TE end in
  let code := match e with inl t => dur_code t | inr t => te_code t end in
  exists st', match e with inl t => icmp_dest_unreach p t | inr t => icmp_time_exceeded p t end st = Ok (tt, st') /\
    steps E (low st) (low st') /\ ip_kept st st' /\
    notified (pm (low st)) type code d st st' /\
    forall a, inet_chksum a (icmp_error type code (quote d)) = 0.
Proof.
  intros H Hif Hid Hp Hso Hlb Hby d type code.
  assert (Ht : is_u8 type) by (by destruct e). assert (Hc : is_u8 code) by (by destruct e as [[]|[]]).
  destruct (icmp_send_response_spec E p b l type code st H Hif Hid Hp Hso Hlb Ht Hc Hby) as (st' & Es & Hs & K & _ & Hr).
  exists st'. split; [by destruct e|]. split; [done|]. split; [done|]. split; [done|]. intros a. apply icmp_error_verifies; [done|done|by apply Forall_take].
Qed.
End icmp.

(** ** The properties at a concrete host *)

Section example.
#[local] Existing Instance example_PbufAlloc.
#[local] Existing Instance example_FragPool.

(** The message [m] behind the header [hdr], in a new pbuf. *)
Definition example_message (hdr m : list Z) : @pstate (memp_state * Z) :=
  after (pbuf_alloc no_custom (memory_of (replicate 14 0 ++ hdr ++ m)) PBUF_IP (Z.of_nat (length m)) PBUF_RAM example_st0).
(** An echo request from 10.0.0.2 to 10.0.0.1. *)
Definition echo_hdr : list Z := ip_header_of 0 28 1 0 64 1 0x0200000a 0x0100000a.
Definition echo_msg : list Z := [8; 0; 0xe4; 0xfd; 0x12; 0x01; 0x01; 0x01].
Definition echo_host : @ipnet (memp_state * Z) memp_state :=
  with_ip_data (example_ip (example_message echo_hdr echo_msg))
    {| current_netif := 0x300; current_input_netif := 0x300; current_ip4_header := Own 0x10000 14; current_ip_header_tot_len := 20;
       current_iphdr_src := 0x0200000a; current_iphdr_dest := 0x0100000a |}.
Lemma example_message_refs hdr m : is_u16 (Z.of_nat (length m)) ->
  pbuf_alloc no_custom (memory_of (replicate 14 0 ++ hdr ++ m)) PBUF_IP (Z.of_nat (length m)) PBUF_RAM example_st0 = Ok (0x10000, example_message hdr m) ->
  refs_ok ({[+ 0x10000 +]} ⊎ ∅) (example_message hdr m).
Proof.
  intros Hu E'. destruct (pbuf_alloc_ram_heap no_custom (memory_of (replicate 14 0 ++ hdr ++ m)) ∅ PBUF_IP _ example_st0 example_refs Hu) as (p & st' & E & H).
  rewrite E' in E. injection E as <- <-. by destruct H as [[? _]|(b & H & _)].
Qed.
Lemma echo_host_ok : link_ok (Link := example_driver) ({[+ 0x10000 +]} ⊎ ∅) (low echo_host).
Proof. apply example_link_ok, example_message_refs; [done|vm_compute; reflexivity]. Qed.
Lemma echo_arrived : arrived (Link := example_driver) ∅ echo_host 0x10000 (ram_pbuf 0x10000 34 8) [] 20 echo_hdr echo_msg.
Proof.
  split; [exact echo_host_ok|apply gmultiset_not_elem_of_empty| | |done|done| |].
  - split; [vm_compute; by repeat split|]. split; [done|]. split; [done|]. split; [by apply Forall_singleton|].
    split; [by vm_compute|]. split; [apply example_private|]. by vm_compute.
  - eexists. split; [vm_compute; reflexivity|]. split; [done|]. split; [vm_compute; discriminate|vm_compute; reflexivity].
  - apply bytes_eval. vm_compute. reflexivity.
  - vm_compute. reflexivity.
Qed.

Lemma icmp_input_correct_witness :
  exists st', icmp_input (Link := example_driver) no_custom zeros 0 0x10000 0x300 echo_host = Ok (tt, st') /\
    asked (Link := example_driver) no_custom zeros 0x300 (Some (request_to example_nif 0x0200000a ethbroadcast)) (low echo_host) (low st') /\
    waits (low st') 0x300 0x0200000a (reply_header echo_hdr 0x0100000a 0x0200000a ++ echo_message echo_msg).
Proof.
  destruct (icmp_input_correct no_custom zeros (Link := example_driver) 0 ∅ 0x10000 (ram_pbuf 0x10000 34 8) [] 20 0x45 (tail echo_hdr) echo_msg
    0x300 example_nif example_nif echo_host echo_arrived eq_refl eq_refl example_ethernet eq_refl eq_refl) as (st' & Ei & _ & Hres).
  - right. vm_compute. discriminate.
  - done.
  - exists st'. split; [exact Ei|]. change (answerable _ _ _ _) with true in Hres. destruct Hres as [[[err T]|[[Hno _] _]] _].
    + apply (transmitted_asks _ _ _ _ _ _ _ 0x0200000a) in T as (_ & T); [exact T|reflexivity..|by intros [_ ?]|by apply Forall_replicate].
    + by destruct Hno; apply ram_room.
Defined.

Lemma example_datagram_ok : let d := echo_hdr ++ echo_msg in
  refs_ok ({[+ 0x10000 +]} ⊎ ∅) (example_frame d) /\ packet (pbufs (example_frame d)) [(0x10000, ram_pbuf 0x10000 0 28)] /\
  data (pm (low (example_ip (example_frame d)))) [(0x10000, ram_pbuf 0x10000 0 28)] = d.
Proof.
  split; [apply example_frame_refs; [done|vm_compute; reflexivity]|]. split; [vm_compute; by repeat split|vm_compute; reflexivity].
Qed.
(** How many frames there are in the end. *)
Definition sent_by {A} (r : outcome (A * @ipnet (memp_state * Z) memp_state)) : nat :=
  match r with Ok (_, st) => length (frames (low st)) | _ => 0 end.
(** What 10.0.0.2 is told waits for its address. *)
Lemma example_responds garbage type code q s st' :
  responds (Link := example_driver) no_custom garbage type code q 0x0200000a (example_ip s) st' ->
  asked (Link := example_driver) no_custom garbage 0x300 (Some (request_to example_nif 0x0200000a ethbroadcast)) (low (example_ip s)) (low st') /\
  waits (low st') 0x300 0x0200000a
    (ip_header_of 0 (SIZEOF_ICMP_HDR + Z.of_nat (length q) + IP_HLEN) 7 0 ICMP_TTL IP_PROTO_ICMP 0x0100000a 0x0200000a ++ icmp_error type code q).
Proof.
  intros (lst & Hl & R). cbv zeta in R. replace (route _ lst _ _) with 0x300 in R
    by (destruct lst as [|a lst]; [done|]; destruct Hl as (<- & _); by vm_compute).
  destruct R as (nif & err & Hnif & T). simpl in Hnif. apply lookup_singleton_Some in Hnif as [_ <-].
  apply (transmitted_asks _ _ _ _ _ _ _ 0x0200000a) in T as (_ & T); [exact T|reflexivity..|by intros []|by apply Forall_replicate].
Qed.
(** 10.0.0.2 is told that nobody listens. *)
Lemma icmp_errors_correct_witness :
  let st := example_ip (example_frame (echo_hdr ++ echo_msg)) in
  exists st', icmp_dest_unreach (Link := example_driver) no_custom zeros 0 0x10000 ICMP_DUR_PORT st = Ok (tt, st') /\
    waits (low st') 0x300 0x0200000a (ip_header_of 0 56 7 0 ICMP_TTL IP_PROTO_ICMP 0x0100000a 0x0200000a ++ icmp_error ICMP_DUR 3 (echo_hdr ++ echo_msg)).
Proof.
  destruct example_datagram_ok as (Hr & Hp & Hd).
  destruct (icmp_errors_correct no_custom zeros (Link := example_driver) 0 ({[+ 0x10000 +]} ⊎ ∅) 0x10000 (ram_pbuf 0x10000 0 28) [] (inl ICMP_DUR_PORT)
    (example_ip (example_frame (echo_hdr ++ echo_msg))) (example_link_ok _ _ Hr) (example_interfaces _) ltac:(done) Hp) as (st' & Ei & _ & _ & Hres & _).
  - by apply Forall_singleton.
  - done.
  - rewrite Hd. apply bytes_eval. vm_compute. reflexivity.
  - exists st'. split; [exact Ei|]. rewrite Hd in Hres. destruct Hres as [[_ Hf]|Hres]; [|exact (proj2 (example_responds _ _ _ _ _ _ Hres))].
    assert (Hs : length (frames (low st')) = 1%nat); [|by rewrite Hf in Hs].
    transitivity (sent_by (icmp_dest_unreach (Link := example_driver) no_custom zeros 0 0x10000 ICMP_DUR_PORT
      (example_ip (example_frame (echo_hdr ++ echo_msg))))); [|by vm_compute]. by rewrite Ei.
Defined.
End example.
