(* ===== verification/Reass.v ===== *)
(** * IPv4: reassembly (core/ipv4/ip4_frag.c)

    Fragments wait in memory until their datagram is complete: each datagram is a
    [struct ip_reassdata] in the list [reassdatagrams], and its fragments are
    linked through a [struct ip_reass_helper] that is written over their IP headers. *)

From stdpp Require Import gmultiset.
From S2P Require Import Prelude Def Chksum Ip4Addr Memp Mem Pbuf PbufData PbufHeap PbufSole Ethernet Link Acd Etharp EtharpIo Ip4 Icmp.

Set Default Proof Using "Type".

Definition IP_REASS_MAXAGE : Z := 15.
Definition IP_REASS_MAX_PBUFS : Z := 10.
Definition IP_REASS_FLAG_LASTFRAG : Z := 1.

Section reass.
Context {S R : Type} `{!PbufAlloc S} `{!FragPool S} `{!Pool R}.
Abbreviation state := (@ipnet S R).
Abbreviation M := (ST state).
Context (call_custom_free : Z -> Z -> ST (@pstate S) unit) (garbage : Z -> Z).
Context {Link : LinkDriver}.
Context (ipfrag_free_fn : Z).
Local Abbreviation pfree := (fun p => _ ← on_pb (pbuf_free call_custom_free p); mret tt).

(** ** Fields of [struct ip_reass_helper] and [struct ip_reassdata] *)

Definition next_pbuf (iprh : ptr) : M Z := bs ← on_pb (read_mem (ptr_add iprh 0) 8); mret (le_val bs).
Definition helper_start (iprh : ptr) : M Z := get16 iprh 8.
Definition helper_end (iprh : ptr) : M Z := get16 iprh 10.
Definition set_next_pbuf (iprh : ptr) (p : Z) : M unit := on_pb (write_mem (ptr_add iprh 0) (le_bytes 8 p)).
Definition set_start (iprh : ptr) (v : Z) : M unit := set16 iprh 8 v.
Definition set_end (iprh : ptr) (v : Z) : M unit := set16 iprh 10 v.

Definition rd_get (a : Z) : M ip_reassdata := fun st =>
  match reassdata st !! a with Some r => Ok (r, st) | None => Fault end.
Definition rd_set (a : Z) (r : ip_reassdata) : M unit := fun st =>
  match reassdata st !! a with Some _ => Ok (tt, with_reassdata st (<[a := r]> (reassdata st))) | None => Fault end.
Definition with_rd_next (r : ip_reassdata) (x : Z) : ip_reassdata :=
  {| rd_next := x; rd_p := rd_p r; rd_iphdr := rd_iphdr r; rd_datagram_len := rd_datagram_len r;
     rd_flags := rd_flags r; rd_timer := rd_timer r |}.
Definition with_rd_p (r : ip_reassdata) (x : Z) : ip_reassdata :=
  {| rd_next := rd_next r; rd_p := x; rd_iphdr := rd_iphdr r; rd_datagram_len := rd_datagram_len r;
     rd_flags := rd_flags r; rd_timer := rd_timer r |}.
Definition with_rd_iphdr (r : ip_reassdata) (x : list Z) : ip_reassdata :=
  {| rd_next := rd_next r; rd_p := rd_p r; rd_iphdr := x; rd_datagram_len := rd_datagram_len r;
     rd_flags := rd_flags r; rd_timer := rd_timer r |}.
Definition with_rd_last (r : ip_reassdata) (len' : Z) : ip_reassdata :=
  {| rd_next := rd_next r; rd_p := rd_p r; rd_iphdr := rd_iphdr r; rd_datagram_len := len';
     rd_flags := Z.lor (rd_flags r) IP_REASS_FLAG_LASTFRAG; rd_timer := rd_timer r |}.
Definition with_rd_timer (r : ip_reassdata) (x : Z) : ip_reassdata :=
  {| rd_next := rd_next r; rd_p := rd_p r; rd_iphdr := rd_iphdr r; rd_datagram_len := rd_datagram_len r;
     rd_flags := rd_flags r; rd_timer := x |}.
Definition rd_upd (a : Z) (f : ip_reassdata -> ip_reassdata) : M unit := r ← rd_get a; rd_set a (f r).

Definition set_reassdatagrams (a : Z) : M unit := fun st => Ok (tt, with_reassdatagrams st a).
Definition set_pbufcount (n : Z) : M unit := fun st => Ok (tt, with_pbufcount st n).
(** As many steps as there are entries, and as there are pbufs. *)
Definition rd_fuel : M nat := fun st => Ok (Datatypes.S (size (reassdata st)), st).
Definition pb_fuel : M nat := on_pb chain_fuel.

(** [IP_ADDRESSES_AND_ID_MATCH]: the header of an entry and one in memory. *)
Definition addresses_and_id_match (iphdrA : list Z) (iphdrB : ptr) : M bool :=
  src ← IPH_SRC iphdrB;
  if negb (ip4_addr_eq (le_val (slice 12 4 iphdrA)) src) then mret false
  else
    dest ← IPH_DEST iphdrB;
    if negb (ip4_addr_eq (le_val (slice 16 4 iphdrA)) dest) then mret false
    else id ← IPH_ID iphdrB; mret (le_val (slice 4 2 iphdrA) =? id).

(** ** Giving up a datagram *)

Definition reass_free (a : Z) : M unit := fun st =>
  s ← pool_free a (reass_pool st);
  Ok (tt, with_reass_pool (with_reassdata st (delete a (reassdata st))) s).

Definition ip_reass_dequeue_datagram (ipr prev : Z) : M unit :=
  st ← get;
  _ ← (if reassdatagrams st =? ipr then
         r ← rd_get ipr; set_reassdatagrams (rd_next r)
       else
         _ ← sassert (negb (prev =? 0));
         r ← rd_get ipr;
         rd_upd prev (fun x => with_rd_next x (rd_next r)));
  reass_free ipr.

Fixpoint free_frags (fuel : nat) (p pbufs_freed : Z) : M Z :=
  match fuel with
  | O => fun _ => Diverge
  | Datatypes.S fuel' =>
      if p =? 0 then mret pbufs_freed
      else
        b ← on_pb (pb_get p);
        nx ← next_pbuf (payload b);
        clen ← on_pb (pbuf_clen p);
        _ ← sassert (pbufs_freed + clen <=? 0xffff);
        _ ← pfree p;
        free_frags fuel' nx (u16 (pbufs_freed + clen))
  end.

(** The first fragment, if it has arrived, is reported to the sender. *)
Definition free_first (ipr : Z) : M Z :=
  r ← rd_get ipr;
  b ← on_pb (pb_get (rd_p r));
  start ← helper_start (payload b);
  if start =? 0 then
    let p := rd_p r in
    nx ← next_pbuf (payload b);
    _ ← rd_upd ipr (fun r => with_rd_p r nx);
    _ ← on_pb (write_mem (payload b) (rd_iphdr r));
    _ ← icmp_time_exceeded call_custom_free garbage ipfrag_free_fn p ICMP_TE_FRAG;
    clen ← on_pb (pbuf_clen p);
    _ ← sassert (0 + clen <=? 0xffff);
    _ ← pfree p;
    mret (u16 (0 + clen))
  else mret 0.

Definition ip_reass_free_complete_datagram (ipr prev : Z) : M Z :=
  _ ← sassert (negb (prev =? ipr));
  _ ← (if negb (prev =? 0) then pr ← rd_get prev; sassert (rd_next pr =? ipr) else mret tt);
  pbufs_freed ← free_first ipr;
  r ← rd_get ipr;
  fuel ← pb_fuel;
  pbufs_freed ← free_frags fuel (rd_p r) pbufs_freed;
  _ ← ip_reass_dequeue_datagram ipr prev;
  st ← get;
  _ ← sassert (pbufs_freed <=? ip_reass_pbufcount st);
  _ ← set_pbufcount (u16 (ip_reass_pbufcount st - pbufs_freed));
  mret pbufs_freed.

(** ** The timer *)

Fixpoint reass_tmr_loop (fuel : nat) (r prev : Z) : M unit :=
  match fuel with
  | O => fun _ => Diverge
  | Datatypes.S fuel' =>
      if r =? 0 then mret tt
      else
        rd ← rd_get r;
        if 0 <? rd_timer rd then
          _ ← rd_set r (with_rd_timer rd (rd_timer rd - 1));
          reass_tmr_loop fuel' (rd_next rd) r
        else
          _ ← ip_reass_free_complete_datagram r prev;
          reass_tmr_loop fuel' (rd_next rd) prev
  end.
Definition ip_reass_tmr : M unit := st ← get; fuel ← rd_fuel; reass_tmr_loop fuel (reassdatagrams st) 0.

(** ** Making room *)

(** [oldest], [oldest_prev] and [other_datagrams]. *)
Fixpoint oldest_loop (fuel : nat) (fraghdr : ptr) (r prev oldest oldest_prev other : Z) : M (Z * Z * Z) :=
  match fuel with
  | O => fun _ => Diverge
  | Datatypes.S fuel' =>
      if r =? 0 then mret (oldest, oldest_prev, other)
      else
        rd ← rd_get r;
        same ← addresses_and_id_match (rd_iphdr rd) fraghdr;
        found ← (if (same : bool) then mret (oldest, oldest_prev, other)
                 else if oldest =? 0 then mret (r, prev, other + 1)
                 else
                   od ← rd_get oldest;
                   if rd_timer rd <=? rd_timer od then mret (r, prev, other + 1)
                   else mret (oldest, oldest_prev, other + 1));
        let '(oldest, oldest_prev, other) := found in
        oldest_loop fuel' fraghdr (rd_next rd) (if negb (rd_next rd =? 0) then r else prev) oldest oldest_prev other
  end.

Fixpoint remove_oldest_loop (fuel : nat) (fraghdr : ptr) (pbufs_needed pbufs_freed : Z) : M Z :=
  match fuel with
  | O => fun _ => Diverge
  | Datatypes.S fuel' =>
      st ← get;
      rfuel ← rd_fuel;
      found ← oldest_loop rfuel fraghdr (reassdatagrams st) 0 0 0 0;
      let '(oldest, oldest_prev, other_datagrams) := found in
      pbufs_freed ← (if negb (oldest =? 0)
                     then n ← ip_reass_free_complete_datagram oldest oldest_prev; mret (pbufs_freed + n)
                     else mret pbufs_freed);
      if (pbufs_freed <? pbufs_needed) && (1 <? other_datagrams)
      then remove_oldest_loop fuel' fraghdr pbufs_needed pbufs_freed
      else mret pbufs_freed
  end.
Definition ip_reass_remove_oldest_datagram (fraghdr : ptr) (pbufs_needed : Z) : M Z :=
  fuel ← rd_fuel; remove_oldest_loop fuel fraghdr pbufs_needed 0.

Definition reass_malloc : M Z := fun st =>
  '(a, s) ← pool_malloc (reass_pool st); Ok (a, with_reass_pool st s).

Definition ip_reass_enqueue_new_datagram (fraghdr : ptr) (clen : Z) : M Z :=
  ipr ← reass_malloc;
  ipr ← (if ipr =? 0 then
           n ← ip_reass_remove_oldest_datagram fraghdr clen;
           if clen <=? n then reass_malloc else mret 0
         else mret ipr);
  if ipr =? 0 then _ ← IP_STATS_INC ip_frag_memerr; mret 0
  else
    st ← get;
    iphdr ← on_pb (read_mem (ptr_add fraghdr 0) IP_HLEN);
    _ ← (fun st => Ok (tt, with_reassdata st (<[ipr := {| rd_next := reassdatagrams st; rd_p := 0; rd_iphdr := iphdr;
           rd_datagram_len := 0; rd_flags := 0; rd_timer := IP_REASS_MAXAGE |}]> (reassdata st))));
    _ ← set_reassdatagrams ipr;
    mret ipr.

(** ** Enqueueing a fragment *)

(** The place for the new fragment, whose helper [iprh] has [start] and [end'], among
    the fragments from [q] on.  [None] is [IP_REASS_VALIDATE_PBUF_DROPPED]; otherwise
    [valid]: no hole has been seen up to the new fragment. *)
Fixpoint place_loop (fuel : nat) (ipr new_p : Z) (iprh : ptr) (start end' : Z) (q : Z) (iprh_prev : option ptr)
    (valid : bool) : M (option bool) :=
  match fuel with
  | O => fun _ => Diverge
  | Datatypes.S fuel' =>
      if q =? 0 then
        match iprh_prev with
        | Some prev =>
            pe ← helper_end prev;
            _ ← sassert (pe <=? start);
            _ ← set_next_pbuf prev new_p;
            mret (Some (if pe =? start then valid else false))
        | None =>
            r ← rd_get ipr;
            _ ← sassert (rd_p r =? 0);
            _ ← rd_set ipr (with_rd_p r new_p);
            mret (Some valid)
        end
      else
        b ← on_pb (pb_get q);
        let iprh_tmp := payload b in
        ts ← helper_start iprh_tmp;
        if start <? ts then
          _ ← set_next_pbuf iprh q;
          match iprh_prev with
          | Some prev =>
              pe ← helper_end prev;
              if (start <? pe) || (ts <? end') then mret None
              else
                _ ← set_next_pbuf prev new_p;
                mret (Some (if pe =? start then valid else false))
          | None =>
              if ts <? end' then mret None
              else _ ← rd_upd ipr (fun r => with_rd_p r new_p); mret (Some valid)
          end
        else if start =? ts then mret None
        else
          te ← helper_end iprh_tmp;
          if start <? te then mret None
          else
            valid ← match iprh_prev with
                    | Some prev => pe ← helper_end prev; mret (if pe =? ts then valid else false)
                    | None => mret valid
                    end;
            nx ← next_pbuf iprh_tmp;
            place_loop fuel' ipr new_p iprh start end' nx (Some iprh_tmp) valid
  end.

(** Whether there is no hole after the fragment [iprh_prev], and the last helper seen. *)
Fixpoint holes_loop (fuel : nat) (iprh_prev : ptr) (q : Z) : M (bool * ptr) :=
  match fuel with
  | O => fun _ => Diverge
  | Datatypes.S fuel' =>
      if q =? 0 then mret (true, iprh_prev)
      else
        b ← on_pb (pb_get q);
        let iprh := payload b in
        pe ← helper_end iprh_prev;
        s ← helper_start iprh;
        if negb (pe =? s) then mret (false, iprh)
        else nx ← next_pbuf iprh; holes_loop fuel' iprh nx
  end.

(** Whether the datagram is complete, once the fragment [iprh] has its place. *)
Definition validate_rest (fuel : nat) (ipr : Z) (iprh : ptr) (is_last valid : bool) : M (option bool) :=
  r ← rd_get ipr;
  if is_last || negb (Z.land (rd_flags r) IP_REASS_FLAG_LASTFRAG =? 0) then
    if (valid : bool) then
      if rd_p r =? 0 then mret (Some false)
      else
        fb ← on_pb (pb_get (rd_p r));
        fs ← helper_start (payload fb);
        if negb (fs =? 0) then mret (Some false)
        else
          nx ← next_pbuf iprh;
          rest ← holes_loop fuel iprh nx;
          let '(valid, iprh) := (rest : bool * ptr) in
          if (valid : bool) then
            _ ← sassert (negb (bool_decide (payload fb = iprh)));
            nx ← next_pbuf iprh;
            _ ← sassert (nx =? 0);
            mret (Some true)
          else mret (Some false)
    else mret (Some false)
  else mret (Some false).

(** [None] is [IP_REASS_VALIDATE_PBUF_DROPPED], [Some true] [IP_REASS_VALIDATE_TELEGRAM_FINISHED]
    and [Some false] [IP_REASS_VALIDATE_PBUF_QUEUED]. *)
Definition ip_reass_chain_frag_into_datagram_and_validate (ipr new_p : Z) (is_last : bool) : M (option bool) :=
  b ← on_pb (pb_get new_p);
  let fraghdr := payload b in
  len' ← IPH_LEN fraghdr;
  let len' := lwip_htons len' in
  hlen ← IPH_HL_BYTES fraghdr;
  if len' <? hlen then mret None
  else
    let len' := u16 (len' - hlen) in
    offset ← IPH_OFFSET_BYTES fraghdr;
    let iprh := payload b in
    let end' := u16 (offset + len') in
    _ ← set_next_pbuf iprh 0;
    _ ← set_start iprh offset;
    _ ← set_end iprh end';
    if end' <? offset then mret None
    else
      r ← rd_get ipr;
      fuel ← pb_fuel;
      placed ← place_loop fuel ipr new_p iprh offset end' (rd_p r) None true;
      match placed with
      | None => mret None
      | Some valid => validate_rest fuel ipr iprh is_last valid
      end.

(** ** A fragment arrives *)

Fixpoint match_loop (fuel : nat) (fraghdr : ptr) (ipr : Z) : M Z :=
  match fuel with
  | O => fun _ => Diverge
  | Datatypes.S fuel' =>
      if ipr =? 0 then mret 0
      else
        r ← rd_get ipr;
        same ← addresses_and_id_match (rd_iphdr r) fraghdr;
        if (same : bool) then _ ← IP_STATS_INC ip_frag_cachehit; mret ipr
        else match_loop fuel' fraghdr (rd_next r)
  end.

Definition reass_nullreturn (p : Z) : M Z := _ ← IP_STATS_INC ip_frag_drop; _ ← pfree p; mret 0.
Definition reass_nullreturn_ipr (ipr p : Z) : M Z :=
  _ ← sassert (negb (ipr =? 0));
  r ← rd_get ipr;
  _ ← (if rd_p r =? 0 then
         st ← get;
         _ ← sassert (ipr =? reassdatagrams st);
         ip_reass_dequeue_datagram ipr 0
       else mret tt);
  reass_nullreturn p.

(** The fragments behind the first are chained to it. *)
Fixpoint cat_frags (fuel : nat) (p r : Z) : M unit :=
  match fuel with
  | O => fun _ => Diverge
  | Datatypes.S fuel' =>
      if r =? 0 then mret tt
      else
        b ← on_pb (pb_get r);
        let iprh := payload b in
        _ ← on_pb (pbuf_remove_header r IP_HLEN);
        _ ← on_pb (pbuf_cat p r);
        nx ← next_pbuf iprh;
        cat_frags fuel' p nx
  end.

Fixpoint prev_loop (fuel : nat) (ipr ipr_prev : Z) : M Z :=
  match fuel with
  | O => fun _ => Diverge
  | Datatypes.S fuel' =>
      if ipr_prev =? 0 then mret 0
      else r ← rd_get ipr_prev; if rd_next r =? ipr then mret ipr_prev else prev_loop fuel' ipr (rd_next r)
  end.

(** All fragments have been received. *)
Definition reass_finish (ipr : Z) : M Z :=
  r ← rd_get ipr;
  let datagram_len := u16 (rd_datagram_len r + IP_HLEN) in
  b ← on_pb (pb_get (rd_p r));
  second ← next_pbuf (payload b);
  let fraghdr := payload b in
  _ ← on_pb (write_mem (ptr_add fraghdr 0) (rd_iphdr r));
  _ ← IPH_LEN_SET fraghdr (lwip_htons datagram_len);
  _ ← IPH_OFFSET_SET fraghdr 0;
  _ ← IPH_CHKSUM_SET fraghdr 0;
  sum ← chksum_mem fraghdr IP_HLEN;
  _ ← IPH_CHKSUM_SET fraghdr sum;
  let p := rd_p r in
  fuel ← pb_fuel;
  _ ← cat_frags fuel p second;
  st ← get;
  ipr_prev ← (if ipr =? reassdatagrams st then mret 0
              else rfuel ← rd_fuel; prev_loop rfuel ipr (reassdatagrams st));
  _ ← ip_reass_dequeue_datagram ipr ipr_prev;
  clen ← on_pb (pbuf_clen p);
  st ← get;
  _ ← sassert (clen <=? ip_reass_pbufcount st);
  _ ← set_pbufcount (u16 (ip_reass_pbufcount st - clen));
  mret p.

(** The fragment is enqueued for the datagram [ipr]. *)
Definition reass_queue (ipr p : Z) (fraghdr : ptr) (offset len' clen : Z) : M Z :=
  off ← IPH_OFFSET fraghdr;
  let is_last := Z.land off (PP_HTONS IP_MF) =? 0 in
  let datagram_len := u16 (offset + len') in
  if is_last && ((datagram_len <? offset) || (0xffff - IP_HLEN <? datagram_len)) then reass_nullreturn_ipr ipr p
  else
    valid ← ip_reass_chain_frag_into_datagram_and_validate ipr p is_last;
    match valid with
    | None => reass_nullreturn_ipr ipr p
    | Some finished =>
        st ← get;
        _ ← set_pbufcount (u16 (ip_reass_pbufcount st + clen));
        _ ← (if is_last then rd_upd ipr (fun r => with_rd_last r datagram_len) else mret tt);
        if (finished : bool) then reass_finish ipr else mret 0
    end.

(** The datagram of the fragment is looked for, and made if there is none. *)
Definition reass_match (p : Z) (fraghdr : ptr) (offset len' clen : Z) : M Z :=
  st ← get;
  rfuel ← rd_fuel;
  ipr ← match_loop rfuel fraghdr (reassdatagrams st);
  if ipr =? 0 then
    ipr ← ip_reass_enqueue_new_datagram fraghdr clen;
    if ipr =? 0 then reass_nullreturn p else reass_queue ipr p fraghdr offset len' clen
  else
    off ← IPH_OFFSET fraghdr;
    r ← rd_get ipr;
    _ ← (if (Z.land (lwip_htons off) IP_OFFMASK =? 0) &&
            negb (Z.land (lwip_htons (le_val (slice 6 2 (rd_iphdr r)))) IP_OFFMASK =? 0)
         then iphdr ← on_pb (read_mem (ptr_add fraghdr 0) IP_HLEN); rd_set ipr (with_rd_iphdr r iphdr)
         else mret tt);
    reass_queue ipr p fraghdr offset len' clen.

Definition ip4_reass (p : Z) : M Z :=
  _ ← IP_STATS_INC ip_frag_recv;
  b ← on_pb (pb_get p);
  let fraghdr := payload b in
  hlen ← IPH_HL_BYTES fraghdr;
  if negb (hlen =? IP_HLEN) then _ ← IP_STATS_INC ip_frag_err; reass_nullreturn p
  else
    offset ← IPH_OFFSET_BYTES fraghdr;
    len' ← IPH_LEN fraghdr;
    let len' := lwip_htons len' in
    hlen ← IPH_HL_BYTES fraghdr;
    if len' <? hlen then reass_nullreturn p
    else
      let len' := u16 (len' - hlen) in
      clen ← on_pb (pbuf_clen p);
      st ← get;
      full ← (if IP_REASS_MAX_PBUFS <? ip_reass_pbufcount st + clen then
                n ← ip_reass_remove_oldest_datagram fraghdr clen;
                st ← get;
                mret ((n =? 0) || (IP_REASS_MAX_PBUFS <? ip_reass_pbufcount st + clen))
              else mret false);
      if (full : bool) then _ ← IP_STATS_INC ip_frag_memerr; reass_nullreturn p
      else
        reass_match p fraghdr offset len' clen.

(** ** Running the operations *)

Lemma rd_get_bind {B} a r (f : ip_reassdata -> M B) st : reassdata st !! a = Some r -> (rd_get a ≫= f) st = f r st.
Proof. intros H. unfold mbind, st_bind, rd_get. by rewrite H. Qed.
Lemma rd_set_ok a r r' st : reassdata st !! a = Some r ->
  rd_set a r' st = Ok (tt, with_reassdata st (<[a := r']> (reassdata st))).
Proof. intros H. unfold rd_set. by rewrite H. Qed.
Lemma rd_set_bind {B} a r r' (f : unit -> M B) st : reassdata st !! a = Some r ->
  (rd_set a r' ≫= f) st = f tt (with_reassdata st (<[a := r']> (reassdata st))).
Proof. intros H. by rewrite (st_bind_ok _ _ _ _ _ (rd_set_ok a r r' st H)). Qed.
Lemma rd_upd_bind {B} a r g (f : unit -> M B) st : reassdata st !! a = Some r ->
  (rd_upd a g ≫= f) st = f tt (with_reassdata st (<[a := g r]> (reassdata st))).
Proof.
  intros H. rewrite (st_bind_ok _ _ _ tt (with_reassdata st (<[a := g r]> (reassdata st)))); [done|].
  unfold rd_upd. rewrite (rd_get_bind _ _ _ _ H). by apply (rd_set_ok a r).
Qed.

(** What is written over the header of a fragment. *)
Definition helper (nx start end' : Z) : list Z := le_bytes 8 nx ++ le_bytes 2 start ++ le_bytes 2 end'.
Lemma helper_length nx start end' : length (helper nx start end') = 12%nat.
Proof. done. Qed.

Lemma helper_binds {B} (st : state) x hdr nx start end' (f : Z -> M B) :
  region (pm (low st)) x hdr -> take 12 hdr = helper nx start end' -> 0 <= nx < 2 ^ 64 -> is_u16 start -> is_u16 end' ->
  (next_pbuf x ≫= f) st = f nx st /\ (helper_start x ≫= f) st = f start st /\ (helper_end x ≫= f) st = f end' st.
Proof.
  intros Hr Hh Hn Hs He. assert (Hl : (12 <= length hdr)%nat).
  { apply (f_equal length) in Hh. rewrite length_take, helper_length in Hh. lia. }
  assert (Hsl : forall o k, 0 <= o -> 0 <= k -> o + k <= 12 -> slice o k hdr = slice o k (helper nx start end')).
  { intros o k Ho Hk Hok. rewrite <-Hh. apply list_eq. intros i. rewrite !slice_lookup. case_decide; [|done].
    symmetry. apply lookup_take_lt. lia. }
  split; [|split].
  - rewrite (st_bind_ok _ _ _ nx st); [done|]. unfold next_pbuf. rewrite (region_bind _ _ hdr) by (done || lia).
    rewrite Hsl by lia. change (slice 0 8 (helper nx start end')) with (le_bytes 8 nx). unfold mret, st_ret. do 2 f_equal.
    rewrite le_val_bytes. apply Z.mod_small. lia.
  - unfold helper_start. rewrite (get16_bind _ _ hdr) by (done || lia). rewrite Hsl by lia.
    change (slice 8 2 (helper nx start end')) with (le_bytes 2 start). by rewrite le_val_u16.
  - unfold helper_end. rewrite (get16_bind _ _ hdr) by (done || lia). rewrite Hsl by lia.
    change (slice 10 2 (helper nx start end')) with (le_bytes 2 end'). by rewrite le_val_u16.
Qed.
End reass.
