(* ===== verification/ReassOk.v ===== *)
(** * IPv4: fragments in memory

    The fragments of a datagram wait in pbufs of their own, each linked to the next
    by the helper written over its header.  What the operations of Reass do to
    them. *)

From stdpp Require Import gmultiset.
From S2P Require Import Prelude Def Chksum Ip4Addr Memp Mem Pbuf PbufData PbufHeap PbufSole Ethernet Link Acd Etharp EtharpIo Ip4 Icmp Reass.

Set Default Proof Using "Type".

(** A fragment in [fn] pbufs from [fp] on, the first of [fk] bytes: the bytes [fd] of
    its datagram from [fs] on. *)
Record frag := { fp : Z; fs : Z; fd : list Z; fn : nat; fk : Z }.
Definition fe (f : frag) : Z := fs f + Z.of_nat (length (fd f)).
Definition head_frag (l : list frag) : Z := match l with [] => 0 | f :: _ => fp f end.

Section frags.
Context {S R : Type} `{!PbufAlloc S} `{!FragPool S} `{!Pool R}.
Abbreviation state := (@ipnet S R).
Abbreviation net := (@Ethernet.net S).
Abbreviation M := (ST state).
Context {Link : LinkDriver}.
Implicit Types nst : net.

(** The fragment [f] is in memory, followed by [nx]; only the queue refers to it. *)
Definition frag_at (E : gmultiset Z) (nst : net) (f : frag) (nx : Z) (b : pbuf) (l : list (Z * pbuf)) (hdr : list Z) : Prop :=
  sole E (pbufs (pm nst)) ((fp f, b) :: l) /\ solid ((fp f, b) :: l) /\ length ((fp f, b) :: l) = fn f /\
  contiguous b = true /\ 20 <= len b /\ data (pm nst) ((fp f, b) :: l) = hdr ++ fd f /\ length hdr = 20%nat /\
  take 12 hdr = helper nx (fs f) (fe f) /\ bytes (hdr ++ fd f).
Record frag_ok (E : gmultiset Z) (nst : net) (f : frag) (nx : Z) : Prop := {
  frag_held : multiplicity (fp f) E = 1%nat;
  frag_private : fp f ∉ queued (arp_table nst);
  frag_addr : 0 < fp f < 2 ^ 64;
  frag_range : 0 <= fs f /\ fe f <= 0xffff;
  frag_mem : exists b l hdr, frag_at E nst f nx b l hdr;
  frag_first b : pbufs (pm nst) !! fp f = Some b -> len b = fk f
}.
Fixpoint frags_ok (E : gmultiset Z) (nst : net) (fl : list frag) : Prop :=
  match fl with
  | [] => True
  | f :: fl' => frag_ok E nst f (head_frag fl') /\ frags_ok E nst fl'
  end.

(** ** What keeps them *)

(** A packet whose pbufs are spared and get no more links. *)
Lemma sole_kept E E' (s s' : @pstate S) l l' :
  sole E (pbufs s) l -> packet (pbufs s') l' -> addrs l' = addrs l ->
  (forall x, x ∈ addrs l -> indeg (pbufs s') x <= indeg (pbufs s) x) ->
  (forall x, x ∈ tail (addrs l) -> multiplicity x E' = 0%nat) -> sole E' (pbufs s') l'.
Proof.
  intros Hs Hp Ea Hi Hm. split; [done|]. rewrite Ea. split; [|done]. intros x Hx.
  assert (Hx0 : x <> 0) by (eapply packet_nonzero; [apply Hs|done]).
  pose proof (indeg_packet (pbufs s') l' x Hp Hx0) as H1. pose proof (indeg_packet (pbufs s) l x (proj1 Hs) Hx0) as H2.
  rewrite Ea in H1. specialize (Hi x Hx). rewrite (proj1 (proj2 Hs) x Hx) in H2.
  pose proof (indeg_nonneg (without (addrs l) (pbufs s')) x). lia.
Qed.

Lemma frag_kept E E' E0 nst nst' f nx :
  refs_ok E0 (pm nst) -> frag_ok E nst f nx -> (forall x, multiplicity x E' <= multiplicity x E)%nat ->
  multiplicity (fp f) E' = 1%nat -> (fp f ∉ queued (arp_table nst')) -> ext (pm nst') = ext (pm nst) ->
  (forall x b l hdr, frag_at E nst f nx b l hdr -> x ∈ addrs ((fp f, b) :: l) ->
     spared x (pm nst) (pm nst') /\ indeg (pbufs (pm nst')) x <= indeg (pbufs (pm nst)) x) ->
  frag_ok E' nst' f nx.
Proof.
  intros H0 [Hh Hpr Ha Hr (b & l & hdr & Hat) Hk] HE Hm Hq Hext Hsp. split; try done.
  2: { intros c Hc. assert (Hb : pbufs (pm nst) !! fp f = Some (link b l)) by apply Hat. rewrite <-(Hk _ Hb).
       destruct (Hsp (fp f) b l hdr Hat) as [[_ Hs] _]; [by left|]. destruct (Hs _ Hb) as (c' & Hc' & Er & _).
       assert (c' = c) as -> by congruence. rewrite Er. done. }
  assert (Hsp' := fun x => Hsp x b l hdr Hat). clear Hsp. destruct Hat as (Hs & Hso & Hn & Hct & Hlb & Hd & Hl & Hh12 & Hby).
  set (lf := (fp f, b) :: l) in *.
  destruct (packet_spared (pm nst) (pm nst') lf (proj1 Hs)) as (lf' & Hp' & H2); [intros x Hx; by apply Hsp'|].
  destruct (same_pbuf_total _ _ H2) as (Et & Eh & Ea). assert (Hso' := same_pbuf_solid _ _ H2 Hso).
  assert (Hd' : data (pm nst') lf' = data (pm nst) lf).
  { eapply spared_data; try done; [intros x Hx; by apply Hsp'|apply Hs]. }
  assert (Hl' : length lf' = length lf) by (symmetry; by eapply Forall2_length).
  destruct lf' as [|[a b'] l']; [done|]. pose proof (Forall2_cons_1 _ _ _ _ _ H2) as [[Ea' [r Eb]] _].
  simpl in Ea', Eb. subst a b'. exists (with_ref b r), l', hdr. split; [|rewrite Hd', Hl'; done].
  eapply sole_kept; [exact Hs|done|done|intros x Hx; by apply Hsp'|].
  intros x Hx. pose proof (proj2 (proj2 Hs) x Hx). specialize (HE x). lia.
Qed.
(** Operations that leave their packets alone. *)
Lemma frag_mild E E' E0 P nst nst' f nx :
  refs_ok E0 (pm nst) -> frag_ok E nst f nx -> (forall x, multiplicity x E' <= multiplicity x E)%nat ->
  multiplicity (fp f) E' = 1%nat -> (fp f ∉ queued (arp_table nst')) -> mild P (pm nst) (pm nst') -> P (fp f) ->
  frag_ok E' nst' f nx.
Proof.
  intros H0 Hf HE Hm Hq (He & Hs) HP. eapply frag_kept; try done. intros x b l hdr Hat Hx.
  destruct Hat as ((Hp & _) & _). apply Hs. by exists ((fp f, b) :: l).
Qed.
Lemma frags_mild E E' E0 P nst nst' fl :
  refs_ok E0 (pm nst) -> frags_ok E nst fl -> (forall x, multiplicity x E' <= multiplicity x E)%nat ->
  (forall f, f ∈ fl -> multiplicity (fp f) E' = 1%nat /\ (fp f ∉ queued (arp_table nst')) /\ P (fp f)) ->
  mild P (pm nst) (pm nst') -> frags_ok E' nst' fl.
Proof.
  intros H0 Hfl HE Hin Hc. induction fl as [|f fl IH]; [done|]. destruct Hfl as [Hf Hfl].
  destruct (Hin f) as (? & ? & ?); [by left|]. split; [by eapply frag_mild|]. apply IH; [done|]. intros g Hg. apply Hin. by right.
Qed.
Lemma frags_elem E nst fl f : frags_ok E nst fl -> f ∈ fl -> exists nx, frag_ok E nst f nx.
Proof.
  induction fl as [|g fl IH]; intros Hfl Hin; [by apply elem_of_nil in Hin|]. destruct Hfl as [Hg Hfl].
  apply elem_of_cons in Hin as [->|Hin]; [by eexists|by apply IH].
Qed.
Lemma frags_steps E nst nst' fl : link_ok E nst -> frags_ok E nst fl -> steps E nst nst' -> frags_ok E nst' fl.
Proof.
  intros H Hfl [[H' Hc Hp _ _ _ _] _]. eapply (frags_mild E E _ (private E nst)); [apply H|done|done| |by apply calm_mild].
  intros f Hin. destruct (frags_elem _ _ _ _ Hfl Hin) as (nx & [Hh Hq _ _ _]).
  assert (Hpr : private E nst (fp f)) by (split; [rewrite elem_of_multiplicity; lia|done]).
  split; [done|]. split; [by apply Hp|done].
Qed.

(** ** Reading and writing them *)

Lemma sole_head E h p b l : sole E h ((p, b) :: l) -> indeg h p = 0.
Proof.
  intros Hs. rewrite (sole_indeg _ _ _ p Hs) by (by left). rewrite decide_False; [done|].
  pose proof (packet_NoDup _ _ (proj1 Hs)) as Hnd. by apply NoDup_cons in Hnd as [? _].
Qed.
Lemma held_private E nst p : multiplicity p E = 1%nat -> (p ∉ queued (arp_table nst)) -> private E nst p.
Proof. intros Hm Hq. split; [rewrite elem_of_multiplicity; lia|done]. Qed.
Lemma sole_sendable E nst p b l : sole E (pbufs (pm nst)) ((p, b) :: l) -> solid ((p, b) :: l) ->
  multiplicity p E = 1%nat -> (p ∉ queued (arp_table nst)) -> sendable E nst p ((p, b) :: l).
Proof.
  intros Hs Hso Hm Hq. split; [apply Hs|]. split; [done|]. split; [done|]. split; [done|].
  split; [by eapply sole_head|]. split; [by apply held_private|]. rewrite Hm. lia.
Qed.

(** The memory of the first pbuf. *)
Lemma first_memory E nst p b l hdr ds :
  link_ok E nst -> packet (pbufs (pm nst)) ((p, b) :: l) -> contiguous b = true -> 20 <= len b ->
  data (pm nst) ((p, b) :: l) = hdr ++ ds -> length hdr = 20%nat ->
  pbufs (pm nst) !! p = Some (link b l) /\
  exists o bs, payload b = Own p o /\ own (pm nst) !! p = Some bs /\ 0 <= o /\ o + len b <= Z.of_nat (length bs) /\
    slice o 20 bs = hdr /\ region (pm nst) (payload b) hdr.
Proof.
  intros H Hp Hct Hlb Hd Hl. assert (Hb : pbufs (pm nst) !! p = Some (link b l)) by apply Hp. split; [done|].
  destruct (refs_counts _ _ _ _ (link_refs _ _ H) Hb) as (_ & _ & _ & Hst). unfold stored in Hst.
  change (contiguous (link b l)) with (contiguous b) in Hst. rewrite Hct in Hst.
  destruct Hst as (o & bs & Hpl & Hbs & Ho & _ & Hlen). simpl in Hpl, Hbs, Hlen. exists o, bs.
  destruct (packet_region _ _ _ _ _ (link_refs _ _ H) Hp ltac:(lia)) as [Hreg Hrl].
  assert (Eh : hdr = take 20 (pbuf_bytes (pm nst) b)).
  { rewrite data_cons in Hd. apply (f_equal (take 20)) in Hd. rewrite !take_app_le in Hd by lia.
    by rewrite (take_ge hdr) in Hd by lia. }
  split; [done|]. split; [done|]. split; [done|]. split; [done|]. split.
  - rewrite Eh. unfold pbuf_bytes. rewrite Hpl. simpl. rewrite Hbs. simpl. unfold slice. rewrite take_take. f_equal. lia.
  - rewrite Eh. apply region_prefix; [lia|done].
Qed.

(** The fields of the helper at [x]. *)
Definition reads (st : state) (x : ptr) (nx start end' : Z) : Prop :=
  forall B (g : Z -> M B), (next_pbuf x ≫= g) st = g nx st /\ (helper_start x ≫= g) st = g start st /\
    (helper_end x ≫= g) st = g end' st.
Lemma frag_read E (st : state) f nx :
  link_ok E (low st) -> frag_ok E (low st) f nx -> 0 <= nx < 2 ^ 64 ->
  exists b, pbufs (pm (low st)) !! fp f = Some b /\ reads st (payload b) nx (fs f) (fe f).
Proof.
  intros H [Hh Hpr Ha Hr (b & l & hdr & Hs & Hso & Hn & Hct & Hlb & Hd & Hl & Hh12 & Hby)] Hnx.
  destruct (first_memory _ _ _ _ _ _ _ H (proj1 Hs) Hct Hlb Hd Hl) as (Hb & o & bs & Hpl & Hbs & Ho & Hlen & Hsl & Hreg).
  exists (link b l). split; [done|]. change (payload (link b l)) with (payload b).
  intros B g. apply (helper_binds st _ hdr nx (fs f) (fe f)); try done; unfold is_u16, fe in *; lia.
Qed.

Lemma splice_take o new hs k : 0 <= o -> (Z.to_nat o + length new <= k)%nat -> (k <= length hs)%nat ->
  take k (splice o new hs) = splice o new (take k hs).
Proof.
  intros Ho Hk Hl. apply list_eq. intros i. destruct (decide (i < k)%nat).
  - rewrite lookup_take_lt by done. rewrite !splice_lookup by (rewrite ?length_take; lia).
    repeat case_decide; try done; by rewrite lookup_take_lt.
  - rewrite lookup_take_ge by lia. symmetry. apply lookup_ge_None_2. rewrite splice_length; rewrite ?length_take; lia.
Qed.
(** The state after [new] was written at [o] of the header of [p]. *)
Lemma header_write E nst p b l hdr ds o' new :
  link_ok E nst -> sendable E nst p ((p, b) :: l) -> contiguous b = true -> 20 <= len b ->
  data (pm nst) ((p, b) :: l) = hdr ++ ds -> length hdr = 20%nat -> 0 <= o' -> o' + Z.of_nat (length new) <= 20 ->
  exists s', write_mem (ptr_add (payload b) o') new (pm nst) = Ok (tt, s') /\ pbufs s' = pbufs (pm nst) /\
    lends p E nst (with_pm nst s') /\ sendable E (with_pm nst s') p ((p, b) :: l) /\
    calm (fun q => q <> p) (pm nst) s' /\ data s' ((p, b) :: l) = splice o' new hdr ++ ds.
Proof.
  intros H Hq Hct Hlb Hd Hl Ho' Hnew.
  destruct (first_memory _ _ _ _ _ _ _ H (proj1 Hq) Hct Hlb Hd Hl) as (Hb & o & bs & Hpl & Hbs & Ho & Hlen & Hsl & Hreg).
  exists (headed (pm nst) p o bs (splice o' new hdr)).
  assert (Hls : length (splice o' new hdr) = 20%nat) by (rewrite splice_length; lia).
  destruct (headed_lends E nst p b l o bs (splice o' new hdr) H Hq Hpl Hbs Ho) as (L & Hq' & Hd'); [lia|done|].
  split; [|split; [done|split; [done|split; [done|split; [apply headed_calm, Hq|]]]]].
  - rewrite Hpl. assert (E0 : pm nst = headed (pm nst) p o bs hdr) by (rewrite <-Hsl; apply headed_start; done || lia).
    rewrite E0 at 1. apply write_headed; lia.
  - simpl pm in Hd'. rewrite Hd', Hd. by apply splice_front; rewrite Hls.
Qed.
Lemma frag_write E nst f nx nx' : link_ok E nst -> frag_ok E nst f nx ->
  exists b s', pbufs (pm nst) !! fp f = Some b /\ write_mem (ptr_add (payload b) 0) (le_bytes 8 nx') (pm nst) = Ok (tt, s') /\
    lends (fp f) E nst (with_pm nst s') /\ pbufs s' = pbufs (pm nst) /\ calm (fun q => q <> fp f) (pm nst) s' /\ frag_ok E (with_pm nst s') f nx'.
Proof.
  intros H [Hh Hpr Ha Hr (b & l & hdr & Hs & Hso & Hn & Hct & Hlb & Hd & Hl & Hh12 & Hby) Hk].
  assert (Hq : sendable E nst (fp f) ((fp f, b) :: l)) by (by apply sole_sendable).
  destruct (header_write E nst (fp f) b l hdr (fd f) 0 (le_bytes 8 nx')) as (s' & Ew & Epb & L & Hq' & Hc & Hd'); try done.
  exists (link b l), s'. split; [apply Hs|]. split; [done|]. split; [done|]. split; [done|]. split; [done|]. split; try done; [|by simpl; rewrite Epb].
  exists b, l, (splice 0 (le_bytes 8 nx') hdr). split; [by simpl; rewrite Epb|]. do 4 (split; [done|]). split; [done|].
  split; [rewrite splice_length; simpl; lia|]. split.
  - rewrite splice_take by (simpl; lia). rewrite Hh12. done.
  - apply Forall_app in Hby as [? ?]. apply bytes_app; [|done]. apply splice_bytes; [apply le_bytes_bytes|done].
Qed.

(** ** The place of a new fragment *)

(** The headers of the fragments in [A] are written. *)
Record touched (A : list Z) (E : gmultiset Z) (nst nst' : net) : Prop := {
  tou_ok : link_ok E nst';
  tou_kept : tables_kept nst nst';
  tou_frames : frames nst' = frames nst;
  tou_pbufs : pbufs (pm nst') = pbufs (pm nst);
  tou_calm : calm (.∉ A) (pm nst) (pm nst')
}.
Lemma touched_refl A E nst : link_ok E nst -> touched A E nst nst.
Proof. intros H. split; try done. apply calm_refl. Qed.
Lemma touched_weaken A A' E nst nst' : A ⊆ A' -> touched A E nst nst' -> touched A' E nst nst'.
Proof. intros HA []. split; try done. eapply calm_weaken; [done|]. intros q Hq Hin. by apply Hq, HA. Qed.
Lemma touched_trans A E nst1 nst2 nst3 : touched A E nst1 nst2 -> touched A E nst2 nst3 -> touched A E nst1 nst3.
Proof.
  intros [H1 T1 F1 P1 C1] [H2 T2 F2 P2 C2]. split; [done|by eapply tables_kept_trans|congruence|congruence|by eapply calm_trans].
Qed.
Lemma frag_touched A E nst nst' f nx : link_ok E nst -> touched A E nst nst' -> frag_ok E nst f nx -> fp f ∉ A -> frag_ok E nst' f nx.
Proof.
  intros H [H' T F P C] Hf Hn. eapply frag_mild; [apply H|done|done|apply Hf| |by apply calm_mild|done].
  destruct T as (_ & _ & _ & -> & _). apply Hf.
Qed.
Lemma frags_touched A E nst nst' fl : link_ok E nst -> touched A E nst nst' -> frags_ok E nst fl ->
  (forall f, f ∈ fl -> fp f ∉ A) -> frags_ok E nst' fl.
Proof.
  intros H T. induction fl as [|f fl IH]; [done|]. intros [Hf Hfl] HA.
  split; [eapply frag_touched; try done; apply HA; by left|]. apply IH; [done|]. intros g Hg. apply HA. by right.
Qed.

Lemma set_next_spec E (st : state) f nx nx' b : link_ok E (low st) -> frag_ok E (low st) f nx ->
  pbufs (pm (low st)) !! fp f = Some b ->
  exists nst', (forall B (g : unit -> M B), (set_next_pbuf (payload b) nx' ≫= g) st = g tt (with_low st nst')) /\
    touched [fp f] E (low st) nst' /\ frag_ok E nst' f nx'.
Proof.
  intros H Hf Hb. destruct (frag_write E (low st) f nx nx' H Hf) as (b' & s' & Hb' & Ew & L & Epb & Hc & Hf').
  assert (b' = b) as -> by congruence. exists (with_pm (low st) s'). split.
  - intros B g. unfold set_next_pbuf. by rewrite (on_pb_bind _ _ _ _ _ Ew).
  - split; [|done]. split; try done; [apply L|]. eapply calm_weaken; [exact Hc|]. intros q Hq ->. apply Hq. by left.
Qed.

Definition joins (pe : option Z) (start : Z) (valid : bool) : bool :=
  match pe with Some e => if e =? start then valid else false | None => valid end.
(** [place_loop] on the list of fragments; [pe] is the end of the one before. *)
Fixpoint place (f : frag) (pe : option Z) (valid : bool) (l : list frag) : option (list frag * bool) :=
  match l with
  | [] => Some ([f], joins pe (fs f) valid)
  | g :: l' =>
      if fs f <? fs g then
        if match pe with Some e => fs f <? e | None => false end || (fs g <? fe f) then None
        else Some (f :: l, joins pe (fs f) valid)
      else if fs f =? fs g then None
      else if fs f <? fe g then None
      else match place f (Some (fe g)) (joins pe (fs g) valid) l' with
           | Some (r, v) => Some (g :: r, v)
           | None => None
           end
  end.
Lemma place_head f pe valid l l' v : place f pe valid l = Some (l', v) -> head_frag l' = fp f \/ head_frag l' = head_frag l.
Proof.
  destruct l as [|g l]; simpl; [intros [= <- <-]; by left|]. repeat case_match; try done; intros [= <- <-]; simpl; auto.
Qed.
Lemma place_perm f pe valid l l' v : place f pe valid l = Some (l', v) -> l' ≡ₚ f :: l.
Proof.
  revert pe valid l' v. induction l as [|g l IH]; intros pe valid l' v; simpl; [by intros [= <- <-]|].
  destruct (fs f <? fs g); [destruct (_ || _); [done|]; by intros [= <- <-]|].
  destruct (fs f =? fs g); [done|]. destruct (fs f <? fe g); [done|].
  destruct (place f _ _ l) as [[r w]|] eqn:Ep; [|done]. intros [= <- <-]. rewrite (IH _ _ _ _ Ep). apply Permutation_swap.
Qed.
Lemma head_frag_range E nst l : frags_ok E nst l -> 0 <= head_frag l < 2 ^ 64.
Proof. destruct l as [|f l]; simpl; [lia|]. intros [Hf _]. pose proof (frag_addr _ _ _ _ Hf). lia. Qed.

(** The fragment before, if any, and its helper. *)
Definition prev_at (nst : net) (og : option frag) (iprh_prev : option ptr) : Prop :=
  match og, iprh_prev with
  | Some g, Some x => exists b, pbufs (pm nst) !! fp g = Some b /\ x = payload b
  | None, None => True
  | _, _ => False
  end.
(** What [place_loop] leaves once the new fragment has its place in [l']. *)
Definition placed (E : gmultiset Z) (ipr : Z) (r : ip_reassdata) (og : option frag) (l' : list frag) (st st' : state) (nst' : net) : Prop :=
  frags_ok E nst' l' /\
  match og with
  | Some g => frag_ok E nst' g (head_frag l') /\ st' = with_low st nst'
  | None => st' = with_reassdata (with_low st nst') (<[ipr := with_rd_p r (head_frag l')]> (reassdata st))
  end.
Lemma place_write E (st : state) ipr r f og iprh_prev l (v : option bool) :
  link_ok E (low st) -> reassdata st !! ipr = Some r -> frag_ok E (low st) f (head_frag l) ->
  frags_ok E (low st) l -> prev_at (low st) og iprh_prev ->
  match og with Some g => exists nx, frag_ok E (low st) g nx | None => True end ->
  NoDup (fp f :: map fp (option_list og) ++ map fp l) ->
  exists st' nst', match iprh_prev with
    | Some prev => _ ← set_next_pbuf prev (fp f); mret v
    | None => _ ← rd_set ipr (with_rd_p r (fp f)); mret v
    end st = Ok (v, st') /\
    touched (map fp (option_list og)) E (low st) nst' /\ placed E ipr r og (f :: l) st st' nst'.
Proof.
  intros H Hr Hf Hl Hpr Hg Hnd. destruct og as [g|], iprh_prev as [x|]; try done.
  - destruct Hpr as (bg & Hbg & ->). destruct Hg as (nxg & Hg).
    destruct (set_next_spec E st g nxg (fp f) bg H Hg Hbg) as (nst' & Ew & T & Hg').
    rewrite Ew. eexists _, nst'. split; [done|]. split; [done|].
    apply NoDup_cons in Hnd as [Hnf Hnd]. simpl in Hnd. apply NoDup_cons in Hnd as [Hng _].
    split; [|done]. split.
    + eapply frag_touched; try done. simpl in Hnf. rewrite elem_of_cons in Hnf. rewrite list_elem_of_singleton. tauto.
    + eapply frags_touched; try done. intros h Hh Hin%list_elem_of_singleton. apply Hng. rewrite <-Hin. by apply list_elem_of_fmap_2.
  - rewrite (rd_set_bind _ _ _ _ _ Hr). exists (with_reassdata st (<[ipr := with_rd_p r (fp f)]> (reassdata st))), (low st).
    split; [done|]. split; [by apply touched_refl|]. split; [done|]. by destruct st.
Qed.

Lemma prev_end E (st : state) og iprh_prev nx (A : Type) (k1 : Z -> M A) k2 : link_ok E (low st) -> prev_at (low st) og iprh_prev ->
  match og with Some g => frag_ok E (low st) g nx | None => True end -> 0 <= nx < 2 ^ 64 ->
  match iprh_prev with Some prev => pe ← helper_end prev; k1 pe | None => k2 end st =
  match og with Some g => k1 (fe g) | None => k2 end st.
Proof.
  intros H Hpr Hg Hnx. destruct og as [g|], iprh_prev as [x|]; try done. destruct Hpr as (bg & Hbg & ->).
  destruct (frag_read E st g nx) as (bg2 & Hbg2 & Hrd); try done. assert (bg2 = bg) as -> by congruence. apply Hrd.
Qed.
Lemma touched_prev A E nst nst' og iprh_prev : touched A E nst nst' -> prev_at nst og iprh_prev -> prev_at nst' og iprh_prev.
Proof. intros T. unfold prev_at. by rewrite (tou_pbufs _ _ _ _ T). Qed.

(** The new fragment goes between the one before and [l]. *)
Lemma place_here E (st : state) f bf og iprh_prev l nx :
  link_ok E (low st) -> frag_ok E (low st) f nx -> pbufs (pm (low st)) !! fp f = Some bf ->
  frags_ok E (low st) l -> prev_at (low st) og iprh_prev ->
  match og with Some g => frag_ok E (low st) g (head_frag l) | None => True end ->
  NoDup (fp f :: map fp (option_list og) ++ map fp l) ->
  exists nst', (forall B (k : unit -> M B), (set_next_pbuf (payload bf) (head_frag l) ≫= k) st = k tt (with_low st nst')) /\
    touched [fp f] E (low st) nst' /\ frag_ok E nst' f (head_frag l) /\ frags_ok E nst' l /\ prev_at nst' og iprh_prev /\
    match og with Some g => frag_ok E nst' g (head_frag l) | None => True end.
Proof.
  intros H Hf Hbf Hl Hpr Hg Hnd. destruct (set_next_spec E st f nx (head_frag l) bf H Hf Hbf) as (nst' & Ew & T & Hf').
  exists nst'. split; [done|]. split; [done|]. split; [done|]. apply NoDup_cons in Hnd as [Hnf _].
  rewrite elem_of_app in Hnf. split; [|split; [by eapply touched_prev|]].
  - eapply frags_touched; try done. intros h Hh Hin%list_elem_of_singleton. apply Hnf. right. rewrite <-Hin. by apply list_elem_of_fmap_2.
  - destruct og as [g|]; [|done]. eapply frag_touched; try done. intros Hin%list_elem_of_singleton. apply Hnf. left. simpl.
    rewrite <-Hin. by left.
Qed.

(** In front of a fragment that starts later. *)
Lemma place_insert E (st : state) ipr r f bf og iprh_prev g l valid :
  link_ok E (low st) -> reassdata st !! ipr = Some r -> frag_ok E (low st) f 0 -> pbufs (pm (low st)) !! fp f = Some bf ->
  frags_ok E (low st) (g :: l) -> prev_at (low st) og iprh_prev ->
  match og with Some g0 => frag_ok E (low st) g0 (fp g) | None => True end ->
  NoDup (fp f :: map fp (option_list og) ++ map fp (g :: l)) ->
  let run := (_ ← set_next_pbuf (payload bf) (fp g);
    match iprh_prev with
    | Some prev =>
        pe ← helper_end prev;
        if (fs f <? pe) || (fs g <? fe f) then mret None
        else _ ← set_next_pbuf prev (fp f); mret (Some (if pe =? fs f then valid else false))
    | None => if fs g <? fe f then mret None else _ ← rd_upd ipr (fun r => with_rd_p r (fp f)); mret (Some valid)
    end) st in
  if match fe <$> og with Some e => fs f <? e | None => false end || (fs g <? fe f)
  then exists nst', run = Ok (None, with_low st nst') /\ touched [fp f] E (low st) nst'
  else exists st' nst', run = Ok (Some (joins (fe <$> og) (fs f) valid), st') /\
    touched (fp f :: map fp (option_list og) ++ map fp (g :: l)) E (low st) nst' /\ placed E ipr r og (f :: g :: l) st st' nst'.
Proof.
  intros H Hr Hf Hbf Hl Hpr Hg Hnd run. subst run. pose proof (frag_addr _ _ _ _ (proj1 Hl)) as Hga.
  destruct (place_here E st f bf og iprh_prev (g :: l) 0) as (nst1 & Ew & T1 & Hf1 & Hl1 & Hpr1 & Hg1); try done.
  simpl head_frag in Ew. rewrite Ew.
  destruct (place_write E (with_low st nst1) ipr r f og iprh_prev (g :: l) (Some (joins (fe <$> og) (fs f) valid)))
    as (st' & nst' & Ew2 & T2 & Hpl); try done; [apply T1|by destruct og; [eexists|]|].
  assert (T : touched (fp f :: map fp (option_list og) ++ map fp (g :: l)) E (low st) nst').
  { eapply touched_trans; (eapply touched_weaken; [|eassumption]); intros q Hq; [apply list_elem_of_singleton in Hq as ->; by left|].
    right. rewrite elem_of_app. by left. }
  destruct og as [g0|], iprh_prev as [x|]; try done.
  - destruct Hpr1 as (bg0 & Hbg0 & ->).
    destruct (frag_read E (with_low st nst1) g0 (fp g)) as (bg2 & Hbg2 & Hrd2); [apply T1|done|lia|].
    assert (bg2 = bg0) as -> by (simpl in Hbg2; congruence). rewrite (proj2 (proj2 (Hrd2 _ _))). simpl.
    destruct (_ || _); [by eexists|]. by exists st', nst'.
  - simpl. destruct (fs g <? fe f); [by eexists|]. exists st', nst'. split; [|done].
    etrans; [|exact Ew2]. rewrite (rd_upd_bind _ r) by done. by rewrite (rd_set_bind _ r) by done.
Qed.

Lemma place_loop_spec E ipr f bf l : forall fuel (st : state) r og iprh_prev valid, (length l < fuel)%nat ->
  link_ok E (low st) -> reassdata st !! ipr = Some r -> frag_ok E (low st) f 0 -> pbufs (pm (low st)) !! fp f = Some bf ->
  frags_ok E (low st) l -> prev_at (low st) og iprh_prev ->
  match og with Some g => frag_ok E (low st) g (head_frag l) /\ fe g <= fs f | None => rd_p r = head_frag l end ->
  NoDup (fp f :: map fp (option_list og) ++ map fp l) ->
  match place f (fe <$> og) valid l with
  | None => exists nst', place_loop fuel ipr (fp f) (payload bf) (fs f) (fe f) (head_frag l) iprh_prev valid st = Ok (None, with_low st nst') /\
      touched [fp f] E (low st) nst'
  | Some (l', v) => exists st' nst', place_loop fuel ipr (fp f) (payload bf) (fs f) (fe f) (head_frag l) iprh_prev valid st = Ok (Some v, st') /\
      touched (fp f :: map fp (option_list og) ++ map fp l) E (low st) nst' /\ placed E ipr r og l' st st' nst'
  end.
Proof.
  induction l as [|g l IH]; intros fuel st r og iprh_prev valid Hfu H Hr Hf Hbf Hl Hpr Hg Hnd; (destruct fuel as [|fuel]; [simpl in Hfu; lia|]).
  - simpl. change (0 =? 0) with true. cbv iota.
    destruct (place_write E st ipr r f og iprh_prev [] (Some (joins (fe <$> og) (fs f) valid)))
      as (st' & nst' & Ew & T & Hpl); try done; [destruct og; [destruct Hg; by eexists|done]|].
    exists st', nst'. split; [|split; [eapply touched_weaken; [|exact T]; intros q Hq; right; by rewrite elem_of_app; left|done]].
    rewrite <-Ew. destruct og as [g|], iprh_prev as [x|]; try done.
    + destruct Hpr as (bg & Hbg & ->), Hg as [Hg Hle].
      destruct (frag_read E st g 0) as (bg2 & Hbg2 & Hrd); try done. assert (bg2 = bg) as -> by congruence.
      rewrite (proj2 (proj2 (Hrd _ _))). rewrite sassert_bind by lia. done.
    + rewrite (rd_get_bind _ _ _ _ Hr). rewrite sassert_bind by (rewrite Hg; done). done.
  - destruct Hl as [Hgf Hl]. simpl place_loop. pose proof (frag_addr _ _ _ _ Hgf) as Hga. simpl head_frag.
    rewrite (proj2 (Z.eqb_neq (fp g) 0)) by lia. cbv iota.
    destruct (frag_read E st g (head_frag l) H Hgf (head_frag_range _ _ _ Hl)) as (bg & Hbg & Hrd).
    rewrite (on_pb_get_bind _ _ _ _ Hbg). rewrite (proj1 (proj2 (Hrd _ _))). simpl place.
    destruct (fs f <? fs g) eqn:Elt.
    + assert (Hins := place_insert E st ipr r f bf og iprh_prev g l valid H Hr Hf Hbf (conj Hgf Hl) Hpr).
      cbv zeta in Hins. specialize (Hins ltac:(by destruct og; [apply Hg|]) Hnd). by destruct (_ || _).
    + destruct (fs f =? fs g); [by exists (low st); split; [destruct st|apply touched_refl]|].
      rewrite (proj2 (proj2 (Hrd _ _))). destruct (fs f <? fe g) eqn:Ege; [by exists (low st); split; [destruct st|apply touched_refl]|].
      assert (Hk : forall A (k : bool -> M A), ((match iprh_prev with
          | Some prev => pe ← helper_end prev; mret (if pe =? fs g then valid else false) | None => mret valid end) ≫= k) st
          = k (joins (fe <$> og) (fs g) valid) st).
      { intros A k. apply st_bind_ok. destruct og as [g0|], iprh_prev as [x|]; try done.
        destruct Hpr as (bg0 & Hbg0 & ->), Hg as [Hg _].
        destruct (frag_read E st g0 (fp g)) as (bg2 & Hbg2 & Hrd2); [done|done|lia|]. assert (bg2 = bg0) as -> by congruence.
        by rewrite (proj2 (proj2 (Hrd2 _ _))). }
      rewrite Hk, (proj1 (Hrd _ _)). clear Hk.
      assert (Hnd' : NoDup (fp f :: map fp (option_list (Some g)) ++ map fp l)).
      { apply NoDup_cons in Hnd as [Hnf Hnd]. apply NoDup_app in Hnd as (_ & _ & Hnd). simpl in *. apply NoDup_cons. split; [|done].
        intros Hin. apply Hnf. rewrite elem_of_app. by right. }
      specialize (IH fuel st r (Some g) (Some (payload bg)) (joins (fe <$> og) (fs g) valid)). simpl fmap in IH. simpl in Hfu.
      destruct (place f (Some (fe g)) _ l) as [[l' v]|].
      * destruct IH as (st' & nst' & Ep & T & Hpl & Hgl & ->); try done; [lia|by exists bg|split; [done|lia]|].
        exists (with_low st nst'), nst'. split; [done|]. split.
        { eapply touched_weaken; [|exact T]. intros q. simpl. rewrite !elem_of_cons, elem_of_app, elem_of_cons. intuition. }
        split; [by split|]. destruct og as [g0|].
        -- split; [|done]. eapply frag_touched; [exact H|exact T|apply Hg|]. simpl in Hnd |- *.
           apply NoDup_cons in Hnd as [Hnf [Hng _]%NoDup_cons].
           intros [Eq|Hin]%elem_of_cons; [apply Hnf; rewrite <-Eq; by left|done].
        -- simpl in Hg |- *. rewrite insert_id; [by destruct st|]. rewrite Hr, <-Hg. by destruct r.
      * apply IH; try done; [lia|by exists bg|split; [done|lia]].
Qed.

(** ** Whether fragments are missing *)

(** No hole between [e], the end of a fragment, and the fragments [l] behind it. *)
Fixpoint gapless_from (e : Z) (l : list frag) : bool :=
  match l with
  | [] => true
  | g :: l' => (e =? fs g) && gapless_from (fe g) l'
  end.
Definition gapless (l : list frag) : bool := match l with [] => true | g :: l' => gapless_from (fe g) l' end.
(** All of a datagram from its first byte on. *)
Definition whole (l : list frag) : bool := match l with [] => false | g :: _ => (fs g =? 0) && gapless l end.

Lemma gapless_from_app e l1 f l2 :
  gapless_from e (l1 ++ f :: l2) = gapless_from e (l1 ++ [f]) && gapless_from (fe f) l2.
Proof. revert e. induction l1 as [|g l1 IH]; intros e; simpl; [by rewrite andb_true_r|]. by rewrite IH, andb_assoc. Qed.
Lemma gapless_app l1 f l2 : gapless (l1 ++ f :: l2) = gapless (l1 ++ [f]) && gapless_from (fe f) l2.
Proof. destruct l1 as [|g l1]; [done|]. apply gapless_from_app. Qed.

Lemma place_split f l : forall pe valid l' v, place f pe valid l = Some (l', v) ->
  exists l1 l2, l = l1 ++ l2 /\ l' = l1 ++ f :: l2 /\
    v = valid && match pe with Some e => gapless_from e (l1 ++ [f]) | None => gapless (l1 ++ [f]) end.
Proof.
  induction l as [|g l IH]; intros pe valid l' v; simpl.
  - intros [= <- <-]. exists [], []. split; [done|]. split; [done|]. destruct pe as [e|]; simpl; [|by rewrite andb_true_r].
    rewrite andb_true_r. destruct (e =? fs f); [by rewrite andb_true_r|by rewrite andb_false_r].
  - destruct (fs f <? fs g).
    { destruct (_ || _); [done|]. intros [= <- <-]. exists [], (g :: l). split; [done|]. split; [done|].
      destruct pe as [e|]; simpl; [|by rewrite andb_true_r]. rewrite andb_true_r. by destruct (e =? fs f), valid. }
    destruct (fs f =? fs g); [done|]. destruct (fs f <? fe g); [done|].
    destruct (place f _ _ l) as [[r w]|] eqn:Ep; [|done]. intros [= <- <-].
    destruct (IH _ _ _ _ Ep) as (l1 & l2 & -> & -> & ->). exists (g :: l1), l2. split; [done|]. split; [done|].
    destruct pe as [e|]; simpl; [|done]. rewrite andb_assoc. f_equal. by destruct (e =? fs g), valid.
Qed.

Lemma holes_loop_spec E l : forall fuel (st : state) f bf, (length l < fuel)%nat ->
  link_ok E (low st) -> frags_ok E (low st) (f :: l) -> pbufs (pm (low st)) !! fp f = Some bf ->
  exists x, holes_loop fuel (payload bf) (head_frag l) st = Ok ((gapless_from (fe f) l, x), st) /\
    (gapless_from (fe f) l = true -> forall g, last (f :: l) = Some g -> exists b, pbufs (pm (low st)) !! fp g = Some b /\ x = payload b).
Proof.
  induction l as [|g l IH]; intros fuel st f bf Hfu H [Hf Hl] Hbf; (destruct fuel as [|fuel]; [simpl in Hfu; lia|]).
  - exists (payload bf). split; [done|]. intros _ g [= <-]. by exists bf.
  - assert (Hga := head_frag_range _ _ _ Hl). destruct (frag_read E st f (fp g) H Hf Hga) as (b2 & Hb2 & Hrd).
    assert (b2 = bf) as -> by congruence. pose proof (frag_addr _ _ _ _ (proj1 Hl)) as Hg0.
    destruct (frag_read E st g (head_frag l) H (proj1 Hl) (head_frag_range _ _ _ (proj2 Hl))) as (bg & Hbg & Hrg).
    simpl. rewrite (proj2 (Z.eqb_neq (fp g) 0)) by lia. cbv iota. rewrite (on_pb_get_bind _ _ _ _ Hbg).
    rewrite (proj2 (proj2 (Hrd _ _))), (proj1 (proj2 (Hrg _ _))). destruct (fe f =? fs g); simpl.
    + rewrite (proj1 (Hrg _ _)). destruct (IH fuel st g bg) as (x & Ex & Hx); try done; [simpl in Hfu; lia|].
      exists x. split; [done|]. intros Hgl h Hh. by apply Hx.
    + by exists (payload bg).
Qed.

(** ** A fragment as it arrives *)

(** A fragment [ds] with its header [hdr]; the caller holds the only reference. *)
Record incoming (E : gmultiset Z) (nst : net) (p : Z) (b : pbuf) (l : list (Z * pbuf)) (hdr ds : list Z) : Prop := {
  inc_sole : sole E (pbufs (pm nst)) ((p, b) :: l);
  inc_solid : solid ((p, b) :: l);
  inc_contiguous : contiguous b = true;
  inc_len : 20 <= len b;
  inc_data : data (pm nst) ((p, b) :: l) = hdr ++ ds;
  inc_hdr : length hdr = 20%nat;
  inc_bytes : bytes (hdr ++ ds);
  inc_held : multiplicity p E = 1%nat;
  inc_private : p ∉ queued (arp_table nst);
  inc_addr : 0 < p < 2 ^ 64
}.

(** Its header can be written. *)
Lemma header_space E (st : state) p b l hdr ds :
  link_ok E (low st) -> incoming E (low st) p b l hdr ds ->
  exists o bs, payload b = Own p o /\ 0 <= o /\ o + 20 <= Z.of_nat (length bs) /\
    st = hstate st (pm (low st)) p o bs hdr /\
    forall hs, length hs = 20%nat -> bytes hs ->
      let nst' := low (hstate st (pm (low st)) p o bs hs) in
      touched [p] E (low st) nst' /\ incoming E nst' p b l hs ds.
Proof.
  intros H [Hs Hso Hct Hlb Hd Hl Hby Hh Hpr Ha]. assert (Hq := sole_sendable _ _ _ _ _ Hs Hso Hh Hpr).
  destruct (first_memory _ _ _ _ _ _ _ H (proj1 Hs) Hct Hlb Hd Hl) as (Hb & o & bs & Hpl & Hbs & Ho & Hlen & Hsl & Hreg).
  exists o, bs. split; [done|]. split; [done|]. split; [lia|]. split.
  - unfold hstate. assert (E0 : pm (low st) = headed (pm (low st)) p o bs hdr) by (rewrite <-Hsl; apply headed_start; done || lia).
    by rewrite <-E0, low_pm_self.
  - intros hs Hhs Hbh nst'. destruct (headed_lends E (low st) p b l o bs hs H Hq Hpl Hbs Ho) as (L & Hq' & Hd'); [lia|done|].
    split; [split; try done; [apply L|]|].
    + eapply calm_weaken; [apply headed_calm, Hq|]. intros q Hq0 ->. apply Hq0. by left.
    + split; try done; [|apply bytes_app; [done|by apply Forall_app in Hby as [_ ?]]].
      subst nst'. simpl in Hd' |- *. rewrite Hd', Hd. by apply splice_front; rewrite Hhs.
Qed.

Definition helper_over (start end' : Z) (hdr : list Z) : list Z :=
  splice 10 (le_bytes 2 end') (splice 8 (le_bytes 2 start) (splice 0 (le_bytes 8 0) hdr)).
Lemma helper_over_length start end' hdr : length hdr = 20%nat -> length (helper_over start end' hdr) = 20%nat.
Proof. intros Hl. do 21 (destruct hdr as [|? hdr]; [done|]). done. Qed.
Lemma helper_over_front start end' hdr : length hdr = 20%nat -> take 12 (helper_over start end' hdr) = helper 0 start end'.
Proof. intros Hl. do 21 (destruct hdr as [|? hdr]; [done|]). done. Qed.
Lemma helper_over_bytes start end' hdr : bytes hdr -> bytes (helper_over start end' hdr).
Proof. intros Hb. unfold helper_over. repeat (apply splice_bytes; [apply le_bytes_bytes|]). done. Qed.

Lemma helper_write E (st : state) p b l hdr ds start end' : link_ok E (low st) -> incoming E (low st) p b l hdr ds ->
  exists nst', (forall B (k : unit -> M B), (_ ← set_next_pbuf (payload b) 0; _ ← set_start (payload b) start; _ ← set_end (payload b) end'; k tt) st
      = k tt (with_low st nst')) /\
    touched [p] E (low st) nst' /\ incoming E nst' p b l (helper_over start end' hdr) ds.
Proof.
  intros H Hi. destruct (header_space E st p b l hdr ds H Hi) as (o & bs & Hpl & Ho & Hlen & Est & Hw).
  pose proof (inc_hdr _ _ _ _ _ _ _ Hi) as Hl.
  destruct (Hw (helper_over start end' hdr)) as (T & Hi'); [by apply helper_over_length|apply helper_over_bytes|].
  { pose proof (inc_bytes _ _ _ _ _ _ _ Hi) as Hb. by apply Forall_app in Hb as [? _]. }
  eexists. split; [|split; [exact T|exact Hi']]. intros B k. rewrite Est at 1. rewrite Hpl. unfold set_next_pbuf, set_start, set_end, set16.
  do 3 (rewrite hstate_set by (splice_lengths; rewrite ?length_le_bytes; cbn [length]; lia)). done.
Qed.
(** The whole header is written. *)
Lemma header_restore E (st : state) p b l hdr ds hs : link_ok E (low st) -> incoming E (low st) p b l hdr ds ->
  length hs = 20%nat -> bytes hs ->
  exists nst', (forall B (k : unit -> M B), (on_pb (write_mem (payload b) hs) ≫= k) st = k tt (with_low st nst')) /\
    touched [p] E (low st) nst' /\ incoming E nst' p b l hs ds.
Proof.
  intros H Hi Hhs Hbh. destruct (header_space E st p b l hdr ds H Hi) as (o & bs & Hpl & Ho & Hlen & Est & Hw).
  destruct (Hw hs Hhs Hbh) as [T Hi']. eexists. split; [|split; [exact T|exact Hi']]. intros B k.
  pose proof (inc_hdr _ _ _ _ _ _ _ Hi) as Hl. rewrite Est at 1. rewrite Hpl. rewrite <-(ptr_add_0 (Own p o)).
  rewrite hstate_set by lia. rewrite splice_all by lia. done.
Qed.
Lemma incoming_frag E nst p b l hdr ds start : incoming E nst p b l hdr ds -> 0 <= start -> start + Z.of_nat (length ds) <= 0xffff ->
  take 12 hdr = helper 0 start (start + Z.of_nat (length ds)) ->
  frag_ok E nst {| fp := p; fs := start; fd := ds; fn := length ((p, b) :: l); fk := len b |} 0.
Proof.
  intros [Hso] Hs He Hh. split; try done; [by exists b, l, hdr|]. intros c Hc. destruct Hso as ((_ & Hb & _) & _). simpl in *.
  rewrite Hb in Hc. by injection Hc as <-.
Qed.

(** The fields of a header in memory. *)
Definition h_hlen (hdr : list Z) : Z := u8 (Z.land (le_val (slice 0 1 hdr)) 0x0f * 4).
Definition h_len (hdr : list Z) : Z := lwip_htons (le_val (slice 2 2 hdr)).
Definition h_id (hdr : list Z) : Z := le_val (slice 4 2 hdr).
Definition h_start (hdr : list Z) : Z := u16 (Z.land (lwip_htons (le_val (slice 6 2 hdr))) IP_OFFMASK * 8).
Definition h_last (hdr : list Z) : bool := Z.land (le_val (slice 6 2 hdr)) (PP_HTONS IP_MF) =? 0.
Definition h_src (hdr : list Z) : Z := le_val (slice 12 4 hdr).
Definition h_dest (hdr : list Z) : Z := le_val (slice 16 4 hdr).

Lemma header_reads {B} (st : state) x hdr (k : Z -> M B) : region (pm (low st)) x hdr -> length hdr = 20%nat ->
  (IPH_HL_BYTES x ≫= k) st = k (h_hlen hdr) st /\ (IPH_LEN x ≫= k) st = k (le_val (slice 2 2 hdr)) st /\
  (IPH_ID x ≫= k) st = k (h_id hdr) st /\ (IPH_OFFSET x ≫= k) st = k (le_val (slice 6 2 hdr)) st /\
  (IPH_OFFSET_BYTES x ≫= k) st = k (h_start hdr) st /\
  (IPH_SRC x ≫= k) st = k (h_src hdr) st /\ (IPH_DEST x ≫= k) st = k (h_dest hdr) st.
Proof.
  intros Hr Hl. split; [|split; [|split; [|split; [|split; [|split]]]]].
  - erewrite st_bind_ok; [done|]. unfold IPH_HL_BYTES. by rewrite (get8_bind _ _ hdr) by (done || lia).
  - by apply (get16_bind _ _ hdr); [done|lia..].
  - by apply (get16_bind _ _ hdr); [done|lia..].
  - by apply (get16_bind _ _ hdr); [done|lia..].
  - erewrite st_bind_ok; [done|]. unfold IPH_OFFSET_BYTES, IPH_OFFSET. by rewrite (get16_bind _ _ hdr) by (done || lia).
  - by apply (get32_bind _ _ hdr); [done|lia..].
  - by apply (get32_bind _ _ hdr); [done|lia..].
Qed.
Lemma incoming_region E nst p b l hdr ds : link_ok E nst -> incoming E nst p b l hdr ds ->
  pbufs (pm nst) !! p = Some (link b l) /\ region (pm nst) (payload b) hdr.
Proof.
  intros H [Hs Hso Hct Hlb Hd Hl Hby Hh Hpr Ha].
  destruct (first_memory _ _ _ _ _ _ _ H (proj1 Hs) Hct Hlb Hd Hl) as (Hb & o & bs & Hpl & Hbs & Ho & Hlen & Hsl & Hreg). done.
Qed.
Lemma h_start_range hdr : 0 <= h_start hdr <= 65528.
Proof.
  unfold h_start, IP_OFFMASK. change 0x1fff with (Z.ones 13). rewrite Z.land_ones by lia.
  pose proof (Z.mod_pos_bound (lwip_htons (le_val (slice 6 2 hdr))) (2 ^ 13) ltac:(lia)).
  rewrite u16_id; unfold is_u16; lia.
Qed.

Lemma h_len_range hdr : bytes hdr -> is_u16 (h_len hdr).
Proof. intros Hb. apply htons_u16. pose proof (le_val_slice 2 2 hdr ltac:(lia) Hb). unfold is_u16. lia. Qed.

(** ** Lists of fragments *)

Lemma frags_app E nst l1 f l2 : frags_ok E nst (l1 ++ f :: l2) -> frag_ok E nst f (head_frag l2) /\ frags_ok E nst l2.
Proof. induction l1 as [|g l1 IH]; simpl; [done|]. intros [_ H]. by apply IH. Qed.
Lemma frags_last E nst l g : frags_ok E nst l -> last l = Some g -> frag_ok E nst g 0.
Proof.
  intros Hl Hg. apply last_Some in Hg as [l' ->]. by apply (frags_app _ _ l' g []).
Qed.
Lemma frags_fuel E nst l : frags_ok E nst l -> NoDup (map fp l) -> (length l <= size (pbufs (pm nst)))%nat.
Proof.
  intros Hl Hnd. rewrite <-(length_map fp l). rewrite <-size_dom.
  rewrite <-(size_list_to_set (C := gset Z)) by done. apply subseteq_size. intros x Hx.
  apply elem_of_list_to_set, list_elem_of_fmap in Hx as (f & -> & Hf). destruct (frags_elem _ _ _ _ Hl Hf) as (nx & [_ _ _ _ Hm]).
  destruct Hm as (b & l0 & hdr & Hs & _). apply elem_of_dom. exists (link b l0). apply Hs.
Qed.
Lemma frag_payload E nst f nx b : link_ok E nst -> frag_ok E nst f nx -> pbufs (pm nst) !! fp f = Some b -> exists o, payload b = Own (fp f) o.
Proof.
  intros H [_ _ _ _ (b' & l & hdr & Hs & Hso & Hn & Hct & Hlb & Hd & Hl & _)] Hb.
  destruct (first_memory _ _ _ _ _ _ _ H (proj1 Hs) Hct Hlb Hd Hl) as (Hb' & o & bs & Hpl & _). exists o.
  rewrite Hb in Hb'. injection Hb' as ->. done.
Qed.

(** ** A fragment is enqueued *)

Lemma two_frags g l h : last (g :: l) = Some h -> fs g = 0 -> (exists x, x ∈ g :: l /\ 0 < fs x) -> NoDup (map fp (g :: l)) -> fp g <> fp h.
Proof.
  intros Hla Hg (x & Hx & Hx0) Hnd E. apply elem_of_cons in Hx as [->|Hx]; [lia|]. destruct l as [|y l]; [by apply elem_of_nil in Hx|].
  change (map fp (g :: y :: l)) with (fp g :: map fp (y :: l)) in Hnd. apply NoDup_cons in Hnd as [Hn _]. apply Hn. rewrite E.
  apply list_elem_of_fmap_2. apply last_Some_elem_of. by rewrite last_cons_cons in Hla.
Qed.

Lemma validate_rest_spec E (st : state) ipr r f bf l1 l2 is_last fuel :
  let l' := l1 ++ f :: l2 in
  link_ok E (low st) -> reassdata st !! ipr = Some r -> rd_p r = head_frag l' -> frags_ok E (low st) l' -> NoDup (map fp l') ->
  pbufs (pm (low st)) !! fp f = Some bf -> (length l' <= fuel)%nat ->
  (is_last || negb (Z.land (rd_flags r) IP_REASS_FLAG_LASTFRAG =? 0) = true -> exists x, x ∈ l' /\ 0 < fs x) ->
  validate_rest fuel ipr (payload bf) is_last (gapless (l1 ++ [f])) st =
  Ok (Some ((is_last || negb (Z.land (rd_flags r) IP_REASS_FLAG_LASTFRAG =? 0)) && whole l'), st).
Proof.
  intros l' H Hr Hrp Hl Hnd Hbf Hfu Hex. unfold validate_rest. rewrite (rd_get_bind _ _ _ _ Hr).
  destruct (is_last || _) eqn:Elast; [|done]. specialize (Hex eq_refl). simpl andb.
  assert (Hwh : whole l' = (match l' with g :: _ => fs g =? 0 | [] => false end) && gapless (l1 ++ [f]) && gapless_from (fe f) l2).
  { unfold l'. rewrite <-andb_assoc, <-gapless_app. by destruct l1. }
  destruct (gapless (l1 ++ [f])) eqn:Egl; [|by rewrite Hwh, andb_false_r].
  destruct (frags_app _ _ _ _ _ Hl) as [Hf Hl2]. destruct l' as [|g l''] eqn:El'; [by destruct l1|].
  pose proof (frag_addr _ _ _ _ (proj1 Hl)) as Hg0. simpl in Hrp.
  rewrite Hrp, (proj2 (Z.eqb_neq (fp g) 0)) by lia. cbv iota.
  destruct (frag_read E st g _ H (proj1 Hl) (head_frag_range _ _ _ (proj2 Hl))) as (bg & Hbg & Hrg).
  rewrite (on_pb_get_bind _ _ _ _ Hbg), (proj1 (proj2 (Hrg _ _))). rewrite Hwh. clear Hwh.
  destruct (fs g =? 0) eqn:Eg; [|done]. simpl.
  destruct (frag_read E st f _ H Hf (head_frag_range _ _ _ Hl2)) as (bf' & Hbf' & Hrf). assert (bf' = bf) as -> by congruence.
  rewrite (proj1 (Hrf _ _)). destruct (holes_loop_spec E l2 fuel st f bf) as (x & Ex & Hx); try done.
  { rewrite <-El' in Hfu. unfold l' in Hfu. rewrite length_app in Hfu. simpl in Hfu. lia. }
  rewrite (st_bind_ok _ _ _ _ _ Ex). destruct (gapless_from (fe f) l2); [|done].
  destruct (last (f :: l2)) as [h|] eqn:Ela; [|by apply last_None in Ela]. destruct (Hx eq_refl h eq_refl) as (bh & Hbh & ->).
  assert (Ela' : last (g :: l'') = Some h) by (rewrite <-El'; unfold l'; by rewrite last_app, Ela).
  pose proof (frags_last _ _ _ _ Hl Ela') as Hh.
  assert (Hne : fp g <> fp h) by (eapply two_frags; try done; lia).
  destruct (frag_payload _ _ _ _ _ H (proj1 Hl) Hbg) as (og & Eog), (frag_payload _ _ _ _ _ H Hh Hbh) as (oh & Eoh).
  rewrite sassert_bind by (rewrite bool_decide_eq_false_2; [done|congruence]).
  destruct (frag_read E st h 0 H Hh ltac:(lia)) as (bh' & Hbh' & Hrh). assert (bh' = bh) as -> by congruence.
  rewrite (proj1 (Hrh _ _)). by rewrite sassert_bind.
Qed.

(** The fragment that arrived with the header [hdr]. *)
Definition new_frag (p : Z) (b : pbuf) (l : list (Z * pbuf)) (hdr ds : list Z) : frag :=
  {| fp := p; fs := h_start hdr; fd := ds; fn := length ((p, b) :: l); fk := len b |}.
(** Its place among the fragments [fl], and whether there is no hole up to it. *)
Definition enqueue (f : frag) (fl : list frag) : option (list frag) :=
  if fe f <=? 0xffff then fst <$> place f None true fl else None.

Lemma pb_fuel_bind {B} (st : state) (k : nat -> M B) : (pb_fuel ≫= k) st = k (Datatypes.S (size (pbufs (pm (low st))))) st.
Proof. unfold pb_fuel. rewrite (on_pb_bind _ _ _ _ (pm (low st)) eq_refl). by rewrite low_pm_self. Qed.
Lemma place_NoDup f fl l' v : place f None true fl = Some (l', v) -> NoDup (fp f :: map fp fl) -> NoDup (map fp l').
Proof.
  intros Hp Hnd. assert (Hpe : map fp l' ≡ₚ map fp (f :: fl)) by (apply Permutation_map; by eapply place_perm). by rewrite Hpe.
Qed.

Lemma chain_spec E (st : state) ipr r p b l hdr ds fl is_last :
  let f := new_frag p b l hdr ds in
  link_ok E (low st) -> reassdata st !! ipr = Some r -> rd_p r = head_frag fl -> frags_ok E (low st) fl ->
  incoming E (low st) p b l hdr ds -> h_hlen hdr = 20 -> h_len hdr = 20 + Z.of_nat (length ds) -> NoDup (p :: map fp fl) ->
  (is_last || negb (Z.land (rd_flags r) IP_REASS_FLAG_LASTFRAG =? 0) = true -> exists x, x ∈ f :: fl /\ 0 < fs x) ->
  match enqueue f fl with
  | None => exists nst', ip_reass_chain_frag_into_datagram_and_validate ipr p is_last st = Ok (None, with_low st nst') /\ touched [p] E (low st) nst'
  | Some l' => exists nst', ip_reass_chain_frag_into_datagram_and_validate ipr p is_last st =
      Ok (Some ((is_last || negb (Z.land (rd_flags r) IP_REASS_FLAG_LASTFRAG =? 0)) && whole l'),
          with_reassdata (with_low st nst') (<[ipr := with_rd_p r (head_frag l')]> (reassdata st))) /\
      touched (p :: map fp fl) E (low st) nst' /\ frags_ok E nst' l'
  end.
Proof.
  intros f H Hr Hrp Hfl Hi Hhl Hlen Hnd Hex. destruct (incoming_region _ _ _ _ _ _ _ H Hi) as [Hb Hreg].
  pose proof (inc_hdr _ _ _ _ _ _ _ Hi) as Hl. pose proof (h_start_range hdr) as Hsr.
  unfold ip_reass_chain_frag_into_datagram_and_validate.
  rewrite (on_pb_get_bind _ _ _ _ Hb). change (payload (link b l)) with (payload b).
  assert (HR := fun B (k : Z -> M B) => header_reads st (payload b) hdr k Hreg Hl).
  rewrite (proj1 (proj2 (HR _ _))). fold (h_len hdr). rewrite (proj1 (HR _ _)). rewrite Hlen, Hhl, (proj2 (Z.ltb_ge _ _)) by lia.
  assert (Hds : Z.of_nat (length ds) <= 65515).
  { pose proof (inc_bytes _ _ _ _ _ _ _ Hi) as Hby. apply Forall_app in Hby as [Hby _].
    pose proof (h_len_range _ Hby) as Hu. unfold is_u16 in Hu. lia. }
  rewrite (u16_id (_ - 20)) by (unfold is_u16; lia).
  rewrite (proj1 (proj2 (proj2 (proj2 (proj2 (HR _ _)))))).
  destruct (helper_write E st p b l hdr ds (h_start hdr) (u16 (h_start hdr + Z.of_nat (length ds))) H Hi) as (nst1 & Ew & T1 & Hi1).
  replace (20 + Z.of_nat (length ds) - 20) with (Z.of_nat (length ds)) by lia.
  rewrite (Ew _ (fun _ => _)). clear Ew. unfold enqueue. change (fe f) with (h_start hdr + Z.of_nat (length ds)).
  destruct (Z.leb_spec (h_start hdr + Z.of_nat (length ds)) 0xffff) as [Hle|Hgt].
  - rewrite !(u16_id (h_start hdr + _)) in * by (unfold is_u16; lia). rewrite (proj2 (Z.ltb_ge _ _)) by lia.
    rewrite (rd_get_bind _ r) by done.
    assert (Hf : frag_ok E nst1 f 0) by (apply (incoming_frag _ _ _ _ _ _ _ _ Hi1); [lia|done|by apply helper_over_front]).
    assert (Hfl1 : frags_ok E nst1 fl).
    { eapply frags_touched; try done. intros g Hg Hin%list_elem_of_singleton. apply NoDup_cons in Hnd as [Hn _]. apply Hn.
      rewrite <-Hin. by apply list_elem_of_fmap_2. }
    assert (Hb1 : pbufs (pm nst1) !! fp f = Some (link b l)) by (by rewrite (tou_pbufs _ _ _ _ T1)).
    rewrite pb_fuel_bind, Hrp. set (fuel := Datatypes.S (size (pbufs (pm (low (with_low st nst1)))))).
    assert (Hfu : (length fl < fuel)%nat) by (apply NoDup_cons in Hnd as [_ Hnd]; pose proof (frags_fuel _ _ _ Hfl1 Hnd); unfold fuel; simpl; lia).
    assert (Hpl := place_loop_spec E ipr f (link b l) fl fuel (with_low st nst1) r None None true Hfu (tou_ok _ _ _ _ T1) Hr Hf Hb1 Hfl1 I Hrp Hnd).
    simpl fmap in Hpl. destruct (place f None true fl) as [[l' v]|] eqn:Epl; simpl.
    + destruct Hpl as (st' & nst' & Ep & T2 & Hl' & ->). rewrite (st_bind_ok _ _ _ _ _ Ep).
      exists nst'. destruct (place_split _ _ _ _ _ _ Epl) as (l1 & l2 & -> & -> & ->). simpl andb.
      split; [|split; [|done]].
      * apply (validate_rest_spec E (with_reassdata (with_low st nst') _) ipr (with_rd_p r (head_frag (l1 ++ f :: l2))) f (link b l)); try done.
        -- apply T2.
        -- apply lookup_insert_eq.
        -- by eapply place_NoDup.
        -- simpl. by rewrite (tou_pbufs _ _ _ _ T2).
        -- rewrite length_app in Hfu |- *. simpl. lia.
        -- intros Hla. destruct (Hex Hla) as (x & Hx & Hx0). exists x. split; [|done]. by rewrite (place_perm _ _ _ _ _ _ Epl).
      * eapply touched_trans; [|exact T2]. eapply touched_weaken; [|exact T1]. intros q ->%list_elem_of_singleton. by left.
    + destruct Hpl as (nst' & Ep & T2). rewrite (st_bind_ok _ _ _ _ _ Ep). exists nst'. split; [done|]. by eapply touched_trans.
  - exists nst1. rewrite (proj2 (Z.ltb_lt _ _)); [done|]. unfold u16.
    replace (h_start hdr + Z.of_nat (length ds)) with (h_start hdr + Z.of_nat (length ds) - 65536 + 1 * 65536) by lia.
    rewrite Z.mod_add, Z.mod_small; lia.
Qed.
End frags.
