(* ===== verification/ReassQueue.v ===== *)
(** * IPv4: the datagrams being reassembled

    The list of datagrams and their fragments as a list, the invariant that ties it
    to the state of Reass, and what giving up datagrams does to it. *)

From stdpp Require Import gmultiset.
From S2P Require Import Prelude Def Chksum Ip4Addr Memp Mem Pbuf PbufData PbufHeap PbufSole Ethernet Link Acd Etharp EtharpIo Ip4 Icmp Reass ReassOk.

Set Default Proof Using "Type".

(** A datagram of which the fragments [dfs] have arrived: the entry [da], the header
    kept for it, its length if the last fragment has arrived, and its timer. *)
Record dgram := { da : Z; dhdr : list Z; dlen : Z; dlast : bool; dtimer : Z; dfs : list frag }.
Definition head_da (ds : list dgram) : Z := match ds with [] => 0 | d :: _ => da d end.
Definition entry (d : dgram) (nx : Z) : ip_reassdata :=
  {| rd_next := nx; rd_p := head_frag (dfs d); rd_iphdr := dhdr d; rd_datagram_len := dlen d;
     rd_flags := if dlast d then IP_REASS_FLAG_LASTFRAG else 0; rd_timer := dtimer d |}.
Fixpoint entries (ds : list dgram) : gmap Z ip_reassdata :=
  match ds with
  | [] => ∅
  | d :: ds' => <[da d := entry d (head_da ds')]> (entries ds')
  end.
Definition all_frags (ds : list dgram) : list frag := ds ≫= dfs.
(** The references the fragments hold. *)
Definition held (fl : list frag) : gmultiset Z := list_to_set_disj (map fp fl).
Definition pbuf_sum (fl : list frag) : Z := Z.of_nat (sum_list (map fn fl)).

Lemma held_cons f fl : held (f :: fl) = {[+ fp f +]} ⊎ held fl.
Proof. done. Qed.
Lemma held_app l1 l2 : held (l1 ++ l2) = held l1 ⊎ held l2.
Proof. unfold held. by rewrite map_app, list_to_set_disj_app. Qed.
Lemma held_perm l1 l2 : l1 ≡ₚ l2 -> held l1 = held l2.
Proof. intros H. unfold held. apply list_to_set_disj_perm. by apply Permutation_map. Qed.
Lemma elem_of_held q fl : q ∈ held fl <-> exists f, f ∈ fl /\ fp f = q.
Proof.
  unfold held. rewrite elem_of_list_to_set_disj, list_elem_of_fmap. split; intros (f & ? & ?); exists f; done.
Qed.
Lemma held_once f fl : NoDup (map fp fl) -> f ∈ fl -> multiplicity (fp f) (held fl) = 1%nat.
Proof.
  induction fl as [|g fl IH]; intros Hnd Hin; [by apply elem_of_nil in Hin|]. rewrite held_cons, multiplicity_disj_union.
  apply NoDup_cons in Hnd as [Hng Hnd]. apply elem_of_cons in Hin as [->|Hin].
  - rewrite multiplicity_singleton, decide_True by done. enough (multiplicity (fp g) (held fl) = 0%nat) by lia.
    apply not_elem_of_multiplicity. intros (h & Hh & Eh)%elem_of_held. apply Hng. rewrite <-Eh. by apply list_elem_of_fmap_2.
  - rewrite IH by done. rewrite multiplicity_singleton, decide_False; [done|]. intros E. apply Hng. rewrite <-E. by apply list_elem_of_fmap_2.
Qed.
Lemma pbuf_sum_cons f fl : pbuf_sum (f :: fl) = Z.of_nat (fn f) + pbuf_sum fl.
Proof. unfold pbuf_sum. simpl. lia. Qed.
Lemma pbuf_sum_app l1 l2 : pbuf_sum (l1 ++ l2) = pbuf_sum l1 + pbuf_sum l2.
Proof. unfold pbuf_sum. induction l1; simpl; lia. Qed.
Lemma pbuf_sum_nonneg fl : 0 <= pbuf_sum fl.
Proof. unfold pbuf_sum. lia. Qed.

(** ** The entries *)

Lemma entries_other a ds : a ∉ map da ds -> entries ds !! a = None.
Proof.
  induction ds as [|d ds IH]; [done|]. intros Hn. simpl in *. apply not_elem_of_cons in Hn as [? ?].
  rewrite lookup_insert_ne by done. by apply IH.
Qed.
Lemma entries_lookup l1 d l2 : NoDup (map da (l1 ++ d :: l2)) -> entries (l1 ++ d :: l2) !! da d = Some (entry d (head_da l2)).
Proof.
  induction l1 as [|d0 l1 IH]; simpl; intros Hnd; [apply lookup_insert_eq|]. apply NoDup_cons in Hnd as [Hn Hnd].
  rewrite lookup_insert_ne; [by apply IH|]. intros E. apply Hn. rewrite E, map_app. simpl. rewrite elem_of_app. right. by left.
Qed.
Lemma head_da_same l1 d d' l2 : da d' = da d -> head_da (l1 ++ d' :: l2) = head_da (l1 ++ d :: l2).
Proof. intros E. by destruct l1. Qed.
Lemma entries_update l1 d d' l2 : NoDup (map da (l1 ++ d :: l2)) -> da d' = da d ->
  entries (l1 ++ d' :: l2) = <[da d := entry d' (head_da l2)]> (entries (l1 ++ d :: l2)).
Proof.
  intros Hnd E. induction l1 as [|d0 l1 IH]; simpl in *; [by rewrite E, insert_insert_eq|]. apply NoDup_cons in Hnd as [Hn Hnd].
  rewrite IH by done. rewrite (head_da_same _ d) by done. apply insert_insert_ne. intros E0. apply Hn. rewrite E0, map_app. simpl. rewrite elem_of_app. right. by left.
Qed.
Lemma entries_delete_head d l2 : NoDup (map da (d :: l2)) -> delete (da d) (entries (d :: l2)) = entries l2.
Proof. intros Hnd. apply NoDup_cons in Hnd as [Hn _]. simpl. rewrite delete_insert_eq. apply delete_id, entries_other, Hn. Qed.
Lemma entries_delete l1 d0 d l2 : NoDup (map da (l1 ++ d0 :: d :: l2)) ->
  delete (da d) (<[da d0 := with_rd_next (entry d0 (da d)) (head_da l2)]> (entries (l1 ++ d0 :: d :: l2))) = entries (l1 ++ d0 :: l2).
Proof.
  induction l1 as [|d1 l1 IH]; intros Hnd; simpl in *; apply NoDup_cons in Hnd as [Hn Hnd].
  - rewrite insert_insert_eq, delete_insert_ne by (intros E; apply Hn; rewrite E; by left).
    change (<[da d := _]> (entries l2)) with (entries (d :: l2)). by rewrite entries_delete_head.
  - rewrite map_app in Hn. simpl in Hn. rewrite !elem_of_app, !elem_of_cons in Hn.
    rewrite insert_insert_ne by (intros E; apply Hn; right; left; congruence).
    rewrite delete_insert_ne by (intros E; apply Hn; right; right; left; congruence). rewrite IH by done. f_equal. by destruct l1.
Qed.
Lemma entries_dom ds : dom (entries ds) = (list_to_set (map da ds) : gset Z).
Proof. induction ds as [|d ds IH]; simpl; [apply dom_empty_L|]. by rewrite dom_insert_L, IH. Qed.
Lemma entries_size ds : NoDup (map da ds) -> size (entries ds) = length ds.
Proof. intros Hnd. rewrite <-(size_dom (D := gset Z)), entries_dom, size_list_to_set by done. apply length_map. Qed.
Definition prev_da (l1 : list dgram) : Z := match last l1 with Some d => da d | None => 0 end.
Lemma prev_da_snoc l d : prev_da (l ++ [d]) = da d.
Proof. unfold prev_da. by rewrite last_snoc. Qed.
Lemma middle_nodup l1 d l2 : NoDup (map da (l1 ++ d :: l2)) -> NoDup (map da (l1 ++ l2)) /\ (da d ∉ map da (l1 ++ l2)).
Proof.
  intros Hnd. assert (Hp : map da (l1 ++ d :: l2) ≡ₚ da d :: map da (l1 ++ l2)).
  { change (da d :: map da (l1 ++ l2)) with (map da (d :: l1 ++ l2)). apply Permutation_map. by rewrite Permutation_middle. }
  rewrite Hp in Hnd. by apply NoDup_cons in Hnd as [? ?].
Qed.
Lemma middle_set l1 d l2 : NoDup (map da (l1 ++ d :: l2)) ->
  (list_to_set (map da (l1 ++ l2)) : gset Z) = list_to_set (map da (l1 ++ d :: l2)) ∖ {[da d]}.
Proof.
  intros Hnd. destruct (middle_nodup _ _ _ Hnd) as [_ Hn]. apply set_eq. intros x.
  rewrite elem_of_difference, !elem_of_list_to_set, elem_of_singleton, !map_app. simpl.
  rewrite map_app in Hn. rewrite !elem_of_app, elem_of_cons in *. naive_solver.
Qed.
Lemma middle_forall (P : dgram -> Prop) l1 d l2 : Forall P (l1 ++ d :: l2) <-> P d /\ Forall P (l1 ++ l2).
Proof. rewrite !Forall_app, Forall_cons. tauto. Qed.


Section queue.
Context {S R : Type} `{!PbufAlloc S} `{!FragPool S} `{!Pool R}.
Abbreviation state := (@ipnet S R).
Abbreviation net := (@Ethernet.net S).
Abbreviation M := (ST state).
Context {Link : LinkDriver}.
Implicit Types nst : net.

(** What an operation leaves to the holders [E] of other pbufs. *)
Record leaves (E : gmultiset Z) (nst nst' : net) : Prop := {
  lv_mild : mild (private E nst) (pm nst) (pm nst');
  lv_private q : private E nst q -> private E nst' q;
  lv_netifs : netifs nst' = netifs nst;
  lv_acds : acds nst' = acds nst;
  lv_frames : frames nst `prefix_of` frames nst'
}.
Lemma leaves_refl E nst : leaves E nst nst.
Proof. split; try done. apply mild_refl. Qed.
Lemma leaves_trans E nst1 nst2 nst3 : leaves E nst1 nst2 -> leaves E nst2 nst3 -> leaves E nst1 nst3.
Proof.
  intros [C1 P1 N1 A1 F1] [C2 P2 N2 A2 F2]. split; [|by auto|congruence|congruence|by etrans].
  eapply mild_trans; [exact C1|]. eapply mild_weaken; [exact C2|exact P1].
Qed.
Lemma private_mono E E' nst q : (forall x, x ∈ E -> x ∈ E') -> private E nst q -> private E' nst q.
Proof. intros HE [? ?]. split; [by apply HE|done]. Qed.
Lemma leaves_mono E E' nst nst' : (forall x, x ∈ E -> x ∈ E') -> leaves E' nst nst' -> leaves E nst nst'.
Proof.
  intros HE [C P N A F]. split; try done.
  - eapply mild_weaken; [exact C|]. intros q. by apply private_mono.
  - intros q [Hq Hn]. split; [done|]. apply (P q). split; [by apply HE|done].
Qed.
Lemma steps_leaves E nst nst' : steps E nst nst' -> leaves E nst nst'.
Proof. intros [[] [? ?]]. split; try done. by apply calm_mild. Qed.
Lemma touched_leaves A E nst nst' : (forall q, q ∈ E -> q ∉ A) -> forall E', touched A E' nst nst' -> leaves E nst nst'.
Proof.
  intros HA E' [H (Tn & Tl & Ta & Tt & _) F P C]. split; try done.
  - eapply mild_weaken; [by apply calm_mild|]. intros q [? _]. by apply HA.
  - intros q [? Hq]. split; [done|]. by rewrite Tt.
  - by rewrite F.
Qed.
Lemma frags_pass E E' E1 nst nst' fl : link_ok E nst -> frags_ok E nst fl -> (forall x, multiplicity x E' <= multiplicity x E)%nat ->
  (forall f, f ∈ fl -> multiplicity (fp f) E' = 1%nat /\ fp f ∈ E1) -> leaves E1 nst nst' -> frags_ok E' nst' fl.
Proof.
  intros H Hfl HE Hm [C P _ _ _]. eapply (frags_mild E E' _ (private E1 nst)); [apply H|done|done| |done].
  intros f Hf. destruct (frags_elem _ _ _ _ Hfl Hf) as (nx & [_ Hq _ _ _]). destruct (Hm f Hf) as [H1 H2].
  assert (Hpr : private E1 nst (fp f)) by done. split; [done|]. split; [|done]. by apply P.
Qed.
Lemma frags_leaves E E' nst nst' fl : link_ok E nst -> frags_ok E nst fl -> (forall x, multiplicity x E' <= multiplicity x E)%nat ->
  (forall f, f ∈ fl -> multiplicity (fp f) E' = 1%nat) -> leaves E' nst nst' -> frags_ok E' nst' fl.
Proof.
  intros H Hfl HE Hm L. eapply frags_pass; try done. intros f Hf. specialize (Hm f Hf). split; [done|].
  rewrite elem_of_multiplicity. lia.
Qed.

Lemma clen_bind {B} (st : state) l (k : Z -> M B) : packet (pbufs (pm (low st))) l -> l <> [] -> Z.of_nat (length l) <= 0xffff ->
  (on_pb (pbuf_clen (head_addr l)) ≫= k) st = k (Z.of_nat (length l)) st.
Proof.
  intros Hp Hne Hl. rewrite (on_pb_bind _ _ _ (Z.of_nat (length l)) (pm (low st))); [by rewrite low_pm_self|].
  unfold pbuf_clen. rewrite chain_fuel_bind, (pbuf_clen_loop_spec _ l) by (done || pose proof (packet_length _ _ Hp); lia).
  destruct l; [done|]. by rewrite u16_id by (unfold is_u16; lia).
Qed.
Lemma frag_clen {B} E (st : state) f nx (k : Z -> M B) : frag_ok E (low st) f nx -> Z.of_nat (fn f) <= 0xffff ->
  (on_pb (pbuf_clen (fp f)) ≫= k) st = k (Z.of_nat (fn f)) st.
Proof.
  intros [_ _ _ _ (b & l & hdr & Hs & Hso & Hn & _)] Hl. rewrite <-Hn in *. by apply (clen_bind st ((fp f, b) :: l)); [apply Hs|..].
Qed.
Lemma held_sub f fl (G : gmultiset Z) x : (multiplicity x (held fl ⊎ G) <= multiplicity x (held (f :: fl) ⊎ G))%nat.
Proof. rewrite held_cons, !multiplicity_disj_union. lia. Qed.
Lemma held_head f fl (G : gmultiset Z) : held (f :: fl) ⊎ G = {[+ fp f +]} ⊎ (held fl ⊎ G).
Proof. rewrite held_cons. symmetry. apply assoc, _. Qed.
(** Each fragment has one holder. *)
Definition once (fl : list frag) (G : gmultiset Z) : Prop := NoDup (map fp fl) /\ forall f, f ∈ fl -> fp f ∉ G.
Lemma once_multiplicity fl G f : once fl G -> f ∈ fl -> multiplicity (fp f) (held fl ⊎ G) = 1%nat.
Proof.
  intros [Hnd HG] Hf. rewrite multiplicity_disj_union, held_once by done.
  assert (multiplicity (fp f) G = 0%nat) by (apply not_elem_of_multiplicity; by apply HG). lia.
Qed.
Lemma once_tail f fl G : once (f :: fl) G -> once fl G.
Proof. intros [Hnd HG]. apply NoDup_cons in Hnd as [_ ?]. split; [done|]. intros g Hg. apply HG. by right. Qed.
Lemma once_head f fl G : once (f :: fl) G -> fp f ∉ held fl ⊎ G.
Proof.
  intros [Hnd HG] [Hin|Hin]%gmultiset_elem_of_disj_union; [|by apply (HG f); [left|]].
  apply elem_of_held in Hin as (g & Hg & E). apply NoDup_cons in Hnd as [Hn _]. apply Hn. rewrite <-E. by apply list_elem_of_fmap_2.
Qed.

Context (call_custom_free : Z -> Z -> ST (@pstate S) unit) (garbage : Z -> Z).
Context (ipfrag_free_fn : Z).
Abbreviation pfree := (fun p => _ ← on_pb (pbuf_free call_custom_free p); mret tt).

Lemma free_frags_spec G fl : forall fuel n (st : state),
  link_ok (held fl ⊎ G) (low st) -> frags_ok (held fl ⊎ G) (low st) fl -> once fl G -> (length fl < fuel)%nat ->
  0 <= n -> n + pbuf_sum fl <= 0xffff ->
  exists nst', free_frags call_custom_free fuel (head_frag fl) n st = Ok (n + pbuf_sum fl, with_low st nst') /\
    link_ok G nst' /\ leaves G (low st) nst' /\ frames nst' = frames (low st).
Proof.
  induction fl as [|f fl IH]; intros fuel n st H Hfl Hon Hfu Hn Hsum; (destruct fuel as [|fuel]; [simpl in Hfu; lia|]).
  - exists (low st). simpl. change (0 =? 0) with true. cbv iota. rewrite Z.add_0_r.
    assert (EG : held [] ⊎ G = G) by apply (left_id_L ∅ (⊎)). rewrite EG in H.
    split; [by destruct st|]. split; [done|]. split; [apply leaves_refl|done].
  - rewrite pbuf_sum_cons in *. pose proof (pbuf_sum_nonneg fl). destruct Hfl as [Hf Hfl]. pose proof (frag_addr _ _ _ _ Hf).
    cbn [free_frags head_frag]. rewrite (proj2 (Z.eqb_neq (fp f) 0)) by lia. cbv iota.
    destruct (frag_read _ st f (head_frag fl) H Hf (head_frag_range _ _ _ Hfl)) as (b & Hb & Hrd).
    rewrite (on_pb_get_bind _ _ _ _ Hb), (proj1 (Hrd _ _)), (frag_clen _ _ _ _ _ Hf) by lia.
    rewrite sassert_bind by lia. rewrite held_head in H. destruct (free_steps call_custom_free _ _ _ H (once_head _ _ _ Hon)) as (k & s' & Ef & Hs).
    rewrite (st_bind_ok _ _ _ tt (with_low st (with_pm (low st) s'))) by (by rewrite (on_pb_bind _ _ _ _ _ Ef)).
    rewrite u16_id by (unfold is_u16; lia).
    destruct (IH fuel (n + Z.of_nat (fn f)) (with_low st (with_pm (low st) s'))) as (nst' & Er & H' & L' & F'); try done.
    + apply Hs.
    + eapply frags_leaves; [| |apply (held_sub f)|intros g Hg; apply once_multiplicity; [by eapply once_tail|done]|by apply steps_leaves];
        [by rewrite held_head|done].
    + by eapply once_tail.
    + simpl in Hfu. lia.
    + lia.
    + lia.
    + exists nst'. rewrite Er. split; [do 2 f_equal; lia|]. split; [done|]. split; [|done].
      eapply leaves_trans; [|exact L']. eapply leaves_mono; [|by apply steps_leaves]. intros x Hx. apply gmultiset_elem_of_disj_union. by right.
Qed.

Lemma frag_incoming E nst f nx : frag_ok E nst f nx -> exists b l hdr, incoming E nst (fp f) b l hdr (fd f) /\ length ((fp f, b) :: l) = fn f.
Proof.
  intros [Hh Hpr Ha Hr (b & l & hdr & Hs & Hso & Hn & Hct & Hlb & Hd & Hl & Hh12 & Hby)]. by exists b, l, hdr.
Qed.
Lemma frags_tail_touched E nst nst' f fl : link_ok E nst -> touched [fp f] E nst nst' -> frags_ok E nst (f :: fl) ->
  NoDup (map fp (f :: fl)) -> frags_ok E nst' fl.
Proof.
  intros H T [_ Hfl] Hnd. eapply frags_touched; try done. intros g Hg Hin%list_elem_of_singleton.
  apply NoDup_cons in Hnd as [Hn _]. apply Hn. rewrite <-Hin. by apply list_elem_of_fmap_2.
Qed.

(** The sender of [bs], whose first fragment has arrived, is told that its time is up. *)
Definition reported (bs : list Z) (st st' : state) : Prop :=
  exists st1 st2 : state, tables_kept (low st) (low st1) /\ frames (low st1) = frames (low st) /\ netif_default st1 = netif_default st /\
    ip_id st1 = ip_id st /\
    notified call_custom_free garbage (pm (low st1)) ICMP_TE (te_code ICMP_TE_FRAG) bs st1 st2 /\
    frames (low st') = frames (low st2).
(** The variables of reassembly other than the entries are as before. *)
Definition list_kept (st st' : state) : Prop :=
  netif_default st' = netif_default st /\ ip_data st' = ip_data st /\ reassdatagrams st' = reassdatagrams st /\
  ip_reass_pbufcount st' = ip_reass_pbufcount st /\ reass_pool st' = reass_pool st.

Lemma free_first_reports G f fl ipr r (st : state) :
  link_ok (held (f :: fl) ⊎ G) (low st) -> frags_ok (held (f :: fl) ⊎ G) (low st) (f :: fl) -> once (f :: fl) G ->
  reassdata st !! ipr = Some r -> rd_p r = fp f -> length (rd_iphdr r) = 20%nat -> bytes (rd_iphdr r) ->
  interfaces_ok st -> is_u16 (ip_id st) -> Z.of_nat (fn f) <= 0xffff -> fs f = 0 ->
  exists st', free_first call_custom_free garbage ipfrag_free_fn ipr st = Ok (Z.of_nat (fn f), st') /\
    link_ok (held fl ⊎ G) (low st') /\ frags_ok (held fl ⊎ G) (low st') fl /\ leaves G (low st) (low st') /\
    reassdata st' = <[ipr := with_rd_p r (head_frag fl)]> (reassdata st) /\ list_kept st st' /\ is_u16 (ip_id st') /\
    reported (rd_iphdr r ++ fd f) st st'.
Proof.
  intros H Hfl Hon Hr Hrp Hlh Hbh Hif Hid Hfn Hfs. unfold free_first. rewrite (rd_get_bind _ _ _ _ Hr), Hrp.
  destruct (frag_read _ st f (head_frag fl) H (proj1 Hfl) (head_frag_range _ _ _ (proj2 Hfl))) as (b & Hb & Hrd).
  rewrite (on_pb_get_bind _ _ _ _ Hb), (proj1 (proj2 (Hrd _ _))), Hfs. change (0 =? 0) with true. cbv iota.
  rewrite (proj1 (Hrd _ _)), (rd_upd_bind _ _ _ _ _ Hr). set (st0 := with_reassdata st _).
  destruct (frag_incoming _ _ _ _ (proj1 Hfl)) as (b' & l & hdr & Hin & Hn).
  assert (b = link b' l) as -> by (pose proof (proj1 (inc_sole _ _ _ _ _ _ _ Hin)) as Hp; simpl in Hp; destruct Hp as (_ & Hp & _); congruence).
  destruct (header_restore _ st0 _ _ _ _ _ (rd_iphdr r) H Hin Hlh Hbh) as (nst1 & Ew & T & Hin1).
  rewrite Ew. clear Ew. set (st1 := with_low st0 nst1) in *. assert (Hif1 : interfaces_ok st1) by (eapply interfaces_kept; [done|apply T|done]).
  assert (Hd1 : data (pm (low st1)) ((fp f, b') :: l) = rd_iphdr r ++ fd f) by apply (inc_data _ _ _ _ _ _ _ Hin1).
  destruct (icmp_send_response_spec call_custom_free garbage ipfrag_free_fn (held (f :: fl) ⊎ G) (fp f) b' l ICMP_TE (te_code ICMP_TE_FRAG) st1)
    as (st2 & Ei & Hst & Hk & Hid2 & Hresp); try done; [apply T|apply Hin1|apply Hin1|apply Hin1|rewrite Hd1; apply Hin1|].
  rewrite Hd1 in Hresp. unfold icmp_time_exceeded. rewrite (st_bind_ok _ _ _ _ _ Ei).
  assert (Hpriv : private (held (f :: fl) ⊎ G) (low st1) (fp f)) by (apply held_private; apply Hin1).
  destruct (calm_packet _ _ _ ((fp f, b') :: l) (fol_calm _ _ _ (proj1 Hst)) Hpriv (proj1 (inc_sole _ _ _ _ _ _ _ Hin1))) as (l2 & Hl2 & Hsm).
  destruct (same_pbuf_total _ _ Hsm) as (_ & Eh & _). assert (Hlen2 : length l2 = fn f) by (rewrite <-Hn; symmetry; by eapply Forall2_length).
  assert (Ecl : forall B (k : Z -> M B), (on_pb (pbuf_clen (fp f)) ≫= k) st2 = k (Z.of_nat (fn f)) st2).
  { intros B k. replace (fp f) with (head_addr l2). rewrite <-Hlen2. apply clen_bind; [done| |lia]. intros ->. by inversion Hsm. }
  rewrite Ecl, sassert_bind by lia. rewrite u16_id by (unfold is_u16; lia). simpl Z.add.
  assert (H2 : link_ok ({[+ fp f +]} ⊎ (held fl ⊎ G)) (low st2)) by (rewrite <-held_head; apply Hst).
  destruct (freed_spec call_custom_free _ (fp f) st2 H2 (once_head _ _ _ Hon)) as (st3 & Ef & Hs3 & K3 & I3 & F3).
  rewrite (st_bind_ok _ _ _ _ _ Ef). exists st3. split; [done|]. split; [apply Hs3|].
  assert (HG : forall x, x ∈ G -> x ∈ held fl ⊎ G) by (intros x Hx; apply gmultiset_elem_of_disj_union; by right).
  assert (HF : forall x, x ∈ held fl ⊎ G -> x ∈ held (f :: fl) ⊎ G) by (intros x Hx; rewrite held_head; apply gmultiset_elem_of_disj_union; by right).
  assert (L : leaves (held fl ⊎ G) (low st) (low st3)).
  { eapply leaves_trans; [eapply touched_leaves, T|eapply leaves_trans; [eapply leaves_mono, steps_leaves, Hst; exact HF|by apply steps_leaves]].
    intros q Hq ->%list_elem_of_singleton. by apply (once_head _ _ _ Hon). }
  split; [eapply frags_leaves; [exact H|apply Hfl|apply held_sub| |done];
    intros g Hg; apply once_multiplicity; [by eapply once_tail|done]|].
  split; [by eapply leaves_mono|]. destruct K3 as (K31 & K32 & K33 & K34 & K35 & K36), Hk as (K21 & K22 & K23 & K24 & K25 & K26).
  split; [by rewrite K33, K23|]. split; [repeat split; (etrans; [eassumption|eassumption])|]. split; [congruence|].
  exists st1, st2. split; [apply T|]. split; [apply T|]. do 2 (split; [done|]). by split.
Qed.

(** What the holder of the datagram [bs], whose first fragment is [f], is told. *)
Definition told (f : frag) (bs : list Z) (st st' : state) : Prop :=
  if fs f =? 0 then reported bs st st' else frames (low st') = frames (low st).
Lemma free_first_spec G f fl ipr r (st : state) :
  link_ok (held (f :: fl) ⊎ G) (low st) -> frags_ok (held (f :: fl) ⊎ G) (low st) (f :: fl) -> once (f :: fl) G ->
  reassdata st !! ipr = Some r -> rd_p r = fp f -> length (rd_iphdr r) = 20%nat -> bytes (rd_iphdr r) ->
  interfaces_ok st -> is_u16 (ip_id st) -> Z.of_nat (fn f) <= 0xffff ->
  exists n fl' st', free_first call_custom_free garbage ipfrag_free_fn ipr st = Ok (n, st') /\
    0 <= n /\ n + pbuf_sum fl' = pbuf_sum (f :: fl) /\ once fl' G /\
    link_ok (held fl' ⊎ G) (low st') /\ frags_ok (held fl' ⊎ G) (low st') fl' /\ leaves G (low st) (low st') /\
    reassdata st' = <[ipr := with_rd_p r (head_frag fl')]> (reassdata st) /\ list_kept st st' /\ is_u16 (ip_id st') /\
    told f (rd_iphdr r ++ fd f) st st'.
Proof.
  intros H Hfl Hon Hr Hrp Hlh Hbh Hif Hid Hfn. unfold told. destruct (fs f =? 0) eqn:Efs.
  - destruct (free_first_reports G f fl ipr r st) as (st' & Ef & H' & Hfl' & L & Hrd & K & I & Hrep); try done; [lia|].
    exists (Z.of_nat (fn f)), fl, st'. split; [done|]. split; [lia|]. split; [by rewrite pbuf_sum_cons|].
    split; [by eapply once_tail|]. done.
  - exists 0, (f :: fl), st. unfold free_first. rewrite (rd_get_bind _ _ _ _ Hr), Hrp.
    destruct (frag_read _ st f (head_frag fl) H (proj1 Hfl) (head_frag_range _ _ _ (proj2 Hfl))) as (b & Hb & Hrd).
    rewrite (on_pb_get_bind _ _ _ _ Hb), (proj1 (proj2 (Hrd _ _))), Efs. do 6 (split; [done|]). split; [apply leaves_refl|].
    split; [|done]. rewrite insert_id; [done|]. rewrite Hr. simpl. rewrite <-Hrp. by destruct r.
Qed.

(** ** The list of datagrams *)

Record queue_ok (st : state) (ds : list dgram) : Prop := {
  q_list : reassdatagrams st = head_da ds;
  q_data : reassdata st = entries ds;
  q_nodup : NoDup (map da ds);
  q_nonzero : Forall (fun d => da d <> 0) ds;
  q_pool : pool_ok (list_to_set (map da ds)) (reass_pool st)
}.

Lemma dequeue_spec (st : state) l1 d l2 : queue_ok st (l1 ++ d :: l2) ->
  exists st', ip_reass_dequeue_datagram (da d) (prev_da l1) st = Ok (tt, st') /\ queue_ok st' (l1 ++ l2) /\
    low st' = low st /\ ip_id st' = ip_id st /\ netif_default st' = netif_default st /\ ip_data st' = ip_data st /\
    ip_reass_pbufcount st' = ip_reass_pbufcount st.
Proof.
  intros [Hli Hda Hnd Hnz Hpo]. destruct (middle_nodup _ _ _ Hnd) as [Hnd' Hn]. pose proof (entries_lookup _ _ _ Hnd) as Hlk.
  assert (Hin : da d ∈ (list_to_set (map da (l1 ++ d :: l2)) : gset Z)).
  { rewrite elem_of_list_to_set, map_app, elem_of_app. right. by left. }
  destruct (pool_free_law _ _ _ Hpo Hin) as (s' & Ep & Hpo'). rewrite <-middle_set in Hpo' by done.
  assert (Hnz' := proj1 (middle_forall _ _ _ _) Hnz). unfold ip_reass_dequeue_datagram. rewrite get_bind, Hli.
  destruct l1 as [|d1 l1 _] using rev_ind.
  - simpl. rewrite Z.eqb_refl. rewrite (st_bind_ok _ _ _ tt (with_reassdatagrams st (head_da l2))).
    2: { rewrite (rd_get_bind _ (entry d (head_da l2))) by (by rewrite Hda). done. }
    unfold reass_free. simpl. rewrite Ep. eexists. split; [done|]. split; [|done]. split; simpl; try done; [|by apply Hnz'].
    rewrite Hda. by apply entries_delete_head.
  - rewrite prev_da_snoc, <-app_assoc in *. simpl in *.
    assert (Hne : (head_da (l1 ++ d1 :: d :: l2) =? da d) = false).
    { apply Z.eqb_neq. intros E. apply Hn. rewrite <-E. destruct l1; simpl; by left. }
    rewrite Hne. assert (Hd1 : da d1 <> 0) by (by apply Forall_app in Hnz as [_ [? _]%Forall_cons]).
    assert (Hlk1 : reassdata st !! da d1 = Some (entry d1 (da d))) by (rewrite Hda; by apply entries_lookup).
    assert (Hlk2 : reassdata st !! da d = Some (entry d (head_da l2))) by (by rewrite Hda).
    rewrite (st_bind_ok _ _ _ tt (with_reassdata st (<[da d1 := with_rd_next (entry d1 (da d)) (head_da l2)]> (reassdata st)))).
    2: { rewrite sassert_bind by lia. rewrite (rd_get_bind _ _ _ _ Hlk2). unfold rd_upd. rewrite (rd_get_bind _ _ _ _ Hlk1). by rewrite (rd_set_ok _ _ _ _ Hlk1). }
    unfold reass_free. simpl. rewrite Ep. eexists. split; [done|]. split; [|done].
    rewrite <-app_assoc. simpl app. split; simpl; try done; [by rewrite Hli; destruct l1|rewrite Hda; by apply entries_delete|apply Hnz'].
Qed.

(** ** The invariant *)

(** Fragments in order that do not overlap. *)
Fixpoint ordered_from (s e : Z) (fl : list frag) : Prop :=
  match fl with
  | [] => True
  | f :: fl' => s < fs f /\ e <= fs f /\ ordered_from (fs f) (fe f) fl'
  end.
Definition ordered (fl : list frag) : Prop := ordered_from (-1) 0 fl.
Definition dkey (d : dgram) : Z * Z * Z := (h_src (dhdr d), h_dest (dhdr d), h_id (dhdr d)).
(** The most bytes of a fragment in each pbuf; a whole datagram then fits into the 16-bit length. *)
Definition PBUF_MAX : Z := 6551.
Record dgram_wf (d : dgram) : Prop := {
  d_hdr : length (dhdr d) = 20%nat;
  d_bytes : bytes (dhdr d);
  d_timer : 0 <= dtimer d <= IP_REASS_MAXAGE;
  d_last : dlast d = true -> 0 <= dlen d <= 0xffff - IP_HLEN /\ exists f, f ∈ dfs d /\ 0 < fs f;
  d_ordered : ordered (dfs d);
  d_sizes : Forall (fun f => Z.of_nat (length (fd f)) <= PBUF_MAX * Z.of_nat (fn f)) (dfs d)
}.
(** The datagrams [ds] are being reassembled, and [E] are the references others hold. *)
Record reass_inv (E : gmultiset Z) (st : state) (ds : list dgram) : Prop := {
  r_link : link_ok (held (all_frags ds) ⊎ E) (low st);
  r_frags : Forall (fun d => frags_ok (held (all_frags ds) ⊎ E) (low st) (dfs d)) ds;
  r_once : once (all_frags ds) E;
  r_queue : queue_ok st ds;
  r_wf : Forall dgram_wf ds;
  r_keys : NoDup (map dkey ds);
  r_count : ip_reass_pbufcount st = pbuf_sum (all_frags ds) /\ pbuf_sum (all_frags ds) <= IP_REASS_MAX_PBUFS;
  r_if : interfaces_ok st;
  r_id : is_u16 (ip_id st)
}.
Definition reass_ok (E : gmultiset Z) (st : state) (ds : list dgram) : Prop :=
  reass_inv E st ds /\ Forall (fun d => dfs d <> []) ds.

Lemma all_frags_middle l1 d l2 : all_frags (l1 ++ d :: l2) ≡ₚ dfs d ++ all_frags (l1 ++ l2).
Proof. unfold all_frags. rewrite !bind_app. simpl. apply Permutation_app_swap_app. Qed.
Lemma held_middle l1 d l2 E : held (all_frags (l1 ++ d :: l2)) ⊎ E = held (dfs d) ⊎ (held (all_frags (l1 ++ l2)) ⊎ E).
Proof. rewrite (held_perm _ _ (all_frags_middle l1 d l2)), held_app. symmetry. apply assoc, _. Qed.
Lemma pbuf_sum_perm l1 l2 : l1 ≡ₚ l2 -> pbuf_sum l1 = pbuf_sum l2.
Proof. intros H. unfold pbuf_sum. f_equal. induction H; simpl; lia. Qed.

Lemma once_perm l l' G : l ≡ₚ l' -> once l G -> once l' G.
Proof.
  intros Hp [Hnd HG]. split; [by rewrite <-(Permutation_map fp Hp)|]. intros f Hf. apply HG. by rewrite Hp.
Qed.
Lemma once_app l1 l2 G : once (l1 ++ l2) G -> once l1 (held l2 ⊎ G) /\ once l2 G.
Proof.
  intros [Hnd HG]. rewrite map_app in Hnd. apply NoDup_app in Hnd as (H1 & Hx & H2). split; split; try done.
  - intros f Hf [Hin|Hin]%gmultiset_elem_of_disj_union; [|apply (HG f); [rewrite elem_of_app; by left|done]].
    apply elem_of_held in Hin as (g & Hg & E). apply (Hx (fp f)); [by apply list_elem_of_fmap_2|]. rewrite <-E. by apply list_elem_of_fmap_2.
  - intros f Hf. apply HG. rewrite elem_of_app. by right.
Qed.
Lemma dgram_frags ds d f : d ∈ ds -> f ∈ dfs d -> f ∈ all_frags ds.
Proof. intros Hd Hf. apply list_elem_of_bind. by exists d. Qed.

(** The datagram [d] leaves the queue. *)
Lemma inv_remove E E' st st' l1 d l2 : reass_inv E st (l1 ++ d :: l2) ->
  (forall x, multiplicity x (held (all_frags (l1 ++ l2)) ⊎ E') <= multiplicity x (held (all_frags (l1 ++ d :: l2)) ⊎ E))%nat ->
  once (all_frags (l1 ++ l2)) E' ->
  link_ok (held (all_frags (l1 ++ l2)) ⊎ E') (low st') -> leaves (held (all_frags (l1 ++ l2)) ⊎ E) (low st) (low st') -> queue_ok st' (l1 ++ l2) ->
  ip_reass_pbufcount st' = ip_reass_pbufcount st - pbuf_sum (dfs d) -> netif_default st' = netif_default st ->
  is_u16 (ip_id st') -> reass_inv E' st' (l1 ++ l2).
Proof.
  intros [Hl Hf Ho Hq Hw Hk [Hc Hm] Hi Hd] HE Ho' Hl' L Hq' Hc' Hn Hid.
  rewrite (pbuf_sum_perm _ _ (all_frags_middle l1 d l2)), pbuf_sum_app in Hc, Hm.
  pose proof (pbuf_sum_nonneg (dfs d)). split; try done.
  - apply middle_forall in Hf as [_ Hf]. rewrite Forall_forall in Hf |- *. intros d' Hd'.
    eapply frags_pass; [exact Hl|by apply Hf|exact HE| |exact L]. intros f Hff. assert (Hin : f ∈ all_frags (l1 ++ l2)) by (by eapply dgram_frags).
    split; [by apply once_multiplicity|]. apply gmultiset_elem_of_disj_union. left. apply elem_of_held. by exists f.
  - by apply middle_forall in Hw as [_ Hw].
  - assert (Hp : map dkey (l1 ++ d :: l2) ≡ₚ map dkey (d :: l1 ++ l2)) by (apply Permutation_map; by rewrite Permutation_middle).
    rewrite Hp in Hk. by apply NoDup_cons in Hk as [_ ?].
  - split; lia.
  - eapply interfaces_kept; [done|apply L|done].
Qed.

Lemma prev_da_ne l1 d l2 : NoDup (map da (l1 ++ d :: l2)) -> da d <> 0 -> prev_da l1 <> da d.
Proof.
  intros Hnd Hd. destruct (middle_nodup _ _ _ Hnd) as [_ Hn]. unfold prev_da. destruct (last l1) as [d0|] eqn:E; [|congruence].
  intros E0. apply Hn. rewrite <-E0. apply list_elem_of_fmap_2. rewrite elem_of_app. left. by apply last_Some_elem_of.
Qed.
Lemma prev_entry (st : state) l1 d l2 : queue_ok st (l1 ++ d :: l2) -> prev_da l1 <> 0 ->
  exists r, reassdata st !! prev_da l1 = Some r /\ rd_next r = da d.
Proof.
  intros [_ Hd Hnd _ _] Hp. destruct l1 as [|d0 l1 _] using rev_ind; [done|]. rewrite prev_da_snoc, <-app_assoc in *. simpl in *.
  eexists. rewrite Hd, (entries_lookup l1 d0 (d :: l2)) by done. split; done.
Qed.
Lemma queue_update (st st' : state) l1 d d' l2 : queue_ok st (l1 ++ d :: l2) -> da d' = da d ->
  reassdata st' = <[da d := entry d' (head_da l2)]> (reassdata st) -> reassdatagrams st' = reassdatagrams st -> reass_pool st' = reass_pool st ->
  queue_ok st' (l1 ++ d' :: l2).
Proof.
  intros [Hli Hda Hnd Hnz Hpo] Ea Hd' Hl' Hp'. assert (Em : map da (l1 ++ d' :: l2) = map da (l1 ++ d :: l2)) by (rewrite !map_app; simpl; by rewrite Ea).
  split; rewrite ?Em, ?Hl', ?Hp', ?Hd'; try done.
  - rewrite Hli. symmetry. by apply head_da_same.
  - rewrite Hda. symmetry. by apply entries_update.
  - rewrite middle_forall in Hnz |- *. by rewrite Ea.
Qed.

(** ** Giving up a datagram *)

Definition with_frags (d : dgram) (fl : list frag) : dgram :=
  {| da := da d; dhdr := dhdr d; dlen := dlen d; dlast := dlast d; dtimer := dtimer d; dfs := fl |}.
(** What an operation leaves to others. *)
Definition passes (E : gmultiset Z) (st st' : state) : Prop :=
  leaves E (low st) (low st') /\ netif_default st' = netif_default st /\ ip_data st' = ip_data st.
Lemma passes_refl E st : passes E st st.
Proof. split; [apply leaves_refl|done]. Qed.
Lemma passes_trans E st1 st2 st3 : passes E st1 st2 -> passes E st2 st3 -> passes E st1 st3.
Proof. intros (L1 & N1 & I1) (L2 & N2 & I2). split; [by eapply leaves_trans|]. split; congruence. Qed.
Lemma passes_mono E E' st st' : (forall x, x ∈ E -> x ∈ E') -> passes E' st st' -> passes E st st'.
Proof. intros HE (L & N & I). split; [by eapply leaves_mono|done]. Qed.

(** The fragments [dfs d] behind the [n] pbufs that have been freed, and the entry. *)
Lemma free_tail_spec G (st : state) l1 d l2 n : queue_ok st (l1 ++ d :: l2) -> link_ok (held (dfs d) ⊎ G) (low st) ->
  frags_ok (held (dfs d) ⊎ G) (low st) (dfs d) -> once (dfs d) G -> 0 <= n ->
  n + pbuf_sum (dfs d) <= ip_reass_pbufcount st <= 0xffff ->
  exists st', (r ← rd_get (da d); fuel ← pb_fuel;
      pbufs_freed ← free_frags call_custom_free fuel (rd_p r) n;
      _ ← ip_reass_dequeue_datagram (da d) (prev_da l1);
      st ← get;
      _ ← sassert (pbufs_freed <=? ip_reass_pbufcount st);
      _ ← set_pbufcount (u16 (ip_reass_pbufcount st - pbufs_freed));
      mret pbufs_freed) st = Ok (n + pbuf_sum (dfs d), st') /\
    queue_ok st' (l1 ++ l2) /\ link_ok G (low st') /\ passes G st st' /\ frames (low st') = frames (low st) /\ ip_id st' = ip_id st /\
    ip_reass_pbufcount st' = ip_reass_pbufcount st - (n + pbuf_sum (dfs d)).
Proof.
  intros Hq H Hfl Hon Hn Hc. pose proof (pbuf_sum_nonneg (dfs d)).
  assert (Hr : reassdata st !! da d = Some (entry d (head_da l2))) by (rewrite (q_data _ _ Hq); apply entries_lookup, Hq).
  rewrite (rd_get_bind _ _ _ _ Hr), pb_fuel_bind. simpl rd_p. pose proof (frags_fuel _ _ _ Hfl (proj1 Hon)) as Hfu.
  destruct (free_frags_spec G (dfs d) (Datatypes.S (size (pbufs (pm (low st))))) n st) as (nst' & Er & H' & L & F); try done; [lia..|].
  rewrite (st_bind_ok _ _ _ _ _ Er).
  destruct (dequeue_spec (with_low st nst') l1 d l2) as (st' & Ed & Hq' & El & Ei & En & Eip & Ec); [destruct Hq; by split|].
  rewrite (st_bind_ok _ _ _ _ _ Ed), get_bind. simpl in Ec. rewrite sassert_bind by lia. eexists. split; [done|].
  rewrite u16_id by (unfold is_u16; lia). split; [destruct Hq'; by split|]. simpl. rewrite El. split; [done|].
  split; [by split; [simpl; rewrite El|]|]. split; [done|]. split; [done|]. lia.
Qed.
Lemma free_complete_spec E st l1 d l2 f fl : reass_inv E st (l1 ++ d :: l2) -> dfs d = f :: fl ->
  exists st', ip_reass_free_complete_datagram call_custom_free garbage ipfrag_free_fn (da d) (prev_da l1) st = Ok (pbuf_sum (dfs d), st') /\
    reass_inv E st' (l1 ++ l2) /\ passes (held (all_frags (l1 ++ l2)) ⊎ E) st st' /\ told f (dhdr d ++ fd f) st st'.
Proof.
  intros Hinv Hfs. assert (H := r_link _ _ _ Hinv). assert (Hon := r_once _ _ _ Hinv). assert (Hq := r_queue _ _ _ Hinv).
  rewrite held_middle in H. apply (once_perm _ _ _ (all_frags_middle l1 d l2)), once_app in Hon as [Hon Hon'].
  assert (Hfl := r_frags _ _ _ Hinv). apply middle_forall in Hfl as [Hfl _]. rewrite held_middle in Hfl.
  pose proof (r_wf _ _ _ Hinv) as Hwf. apply middle_forall in Hwf as [Hwf _].
  destruct (r_count _ _ _ Hinv) as [Hc Hmax]. rewrite (pbuf_sum_perm _ _ (all_frags_middle l1 d l2)), pbuf_sum_app in Hc, Hmax.
  unfold IP_REASS_MAX_PBUFS in Hmax. pose proof (pbuf_sum_nonneg (all_frags (l1 ++ l2))) as Hs1. set (G := held (all_frags (l1 ++ l2)) ⊎ E) in *.
  pose proof (q_nonzero _ _ Hq) as Hnz. apply middle_forall in Hnz as [Hnz _].
  unfold ip_reass_free_complete_datagram. rewrite sassert_bind by (pose proof (prev_da_ne _ _ _ (q_nodup _ _ Hq) Hnz); lia).
  rewrite (st_bind_ok _ _ _ tt st).
  2: { destruct (prev_da l1 =? 0) eqn:Ep; [done|]. destruct (prev_entry _ _ _ _ Hq ltac:(lia)) as (pr & Hpr & Enx).
       simpl. rewrite (rd_get_bind _ _ _ _ Hpr). unfold sassert. by rewrite Enx, Z.eqb_refl. }
  assert (Hr : reassdata st !! da d = Some (entry d (head_da l2))) by (rewrite (q_data _ _ Hq); apply entries_lookup, Hq).
  rewrite Hfs in Hon, H, Hfl. pose proof (pbuf_sum_nonneg fl).
  assert (Hsd : pbuf_sum (dfs d) = Z.of_nat (fn f) + pbuf_sum fl) by (by rewrite Hfs, pbuf_sum_cons).
  destruct (free_first_spec G f fl (da d) (entry d (head_da l2)) st) as (n & fl' & st1 & Ef & Hn & Hsum & Hon1 & H1 & Hfl1 & L1 & Hd1 & K1 & I1 & Ht);
    try done; [simpl; by rewrite Hfs|apply Hwf|apply Hwf|apply Hinv|apply Hinv|lia|].
  rewrite (st_bind_ok _ _ _ _ _ Ef). destruct K1 as (K11 & K12 & K13 & K14 & K15). rewrite <-Hfs in Hsum.
  assert (Hq1 : queue_ok st1 (l1 ++ with_frags d fl' :: l2)) by (by eapply (queue_update st)).
  destruct (free_tail_spec G st1 l1 (with_frags d fl') l2 n) as (st' & Et & Hq' & H' & P' & F' & I' & C'); try done; [simpl; lia|].
  change (da (with_frags d fl')) with (da d) in Et. rewrite Et. exists st'. simpl in *. split; [by rewrite Hsum|].
  assert (P : passes G st st') by (eapply passes_trans; [|exact P']; by split).
  split; [eapply inv_remove; try done; [intros x; rewrite held_middle, !multiplicity_disj_union; lia|apply P|lia|apply P|by rewrite I']|]. split; [done|].
  unfold told, reported in *. by rewrite F'.
Qed.

(** ** The timer *)

Definition with_dtimer (d : dgram) (t : Z) : dgram :=
  {| da := da d; dhdr := dhdr d; dlen := dlen d; dlast := dlast d; dtimer := t; dfs := dfs d |}.
(** A datagram after one call of the timer. *)
Definition tick (d : dgram) : option dgram := if 0 <? dtimer d then Some (with_dtimer d (dtimer d - 1)) else None.
(** The senders of the datagrams that expire are told, one after the other. *)
Definition gives_up (d : dgram) (st st' : state) : Prop :=
  match dfs d with [] => True | f :: _ => told f (dhdr d ++ fd f) st st' end.
Fixpoint expiries (ds : list dgram) (st st' : state) : Prop :=
  match ds with
  | [] => frames (low st') = frames (low st)
  | d :: ds' => exists st1, (if 0 <? dtimer d then frames (low st1) = frames (low st) else gives_up d st st1) /\ expiries ds' st1 st'
  end.

Lemma inv_update E st l1 d d' l2 : reass_inv E st (l1 ++ d :: l2) ->
  da d' = da d -> dfs d' = dfs d -> dkey d' = dkey d -> dgram_wf d' ->
  reass_inv E (with_reassdata st (<[da d := entry d' (head_da l2)]> (reassdata st))) (l1 ++ d' :: l2).
Proof.
  intros [Hl Hf Ho Hq Hw Hk Hc Hi Hd] Ea Ef Ek Hw'.
  assert (Eall : all_frags (l1 ++ d' :: l2) = all_frags (l1 ++ d :: l2)) by (unfold all_frags; rewrite !bind_app; simpl; by rewrite Ef).
  assert (Ekey : map dkey (l1 ++ d' :: l2) = map dkey (l1 ++ d :: l2)) by (rewrite !map_app; simpl; by rewrite Ek).
  split; rewrite ?Eall, ?Ekey; try done.
  - apply middle_forall. apply middle_forall in Hf as [Hf ?]. split; [by rewrite Ef|done].
  - by eapply queue_update.
  - apply middle_forall. apply middle_forall in Hw as [_ ?]. done.
Qed.
Lemma timer_wf d t : dgram_wf d -> 0 <= t <= IP_REASS_MAXAGE -> dgram_wf (with_dtimer d t).
Proof. intros [] Ht. by split. Qed.

Lemma tmr_loop_spec E l2 : forall fuel l1 st, reass_ok E st (l1 ++ l2) -> (length l2 < fuel)%nat ->
  exists st', reass_tmr_loop call_custom_free garbage ipfrag_free_fn fuel (head_da l2) (prev_da l1) st = Ok (tt, st') /\
    reass_ok E st' (l1 ++ omap tick l2) /\ passes E st st' /\ expiries l2 st st'.
Proof.
  induction l2 as [|d l2 IH]; intros fuel l1 st [Hinv Hne] Hfu; (destruct fuel as [|fuel]; [simpl in Hfu; lia|]).
  - exists st. split; [done|]. split; [done|]. split; [apply passes_refl|done].
  - pose proof (r_queue _ _ _ Hinv) as Hq. pose proof (q_nonzero _ _ Hq) as Hnz. apply middle_forall in Hnz as [Hnz _].
    assert (Hr : reassdata st !! da d = Some (entry d (head_da l2))) by (rewrite (q_data _ _ Hq); apply entries_lookup, Hq).
    cbn [reass_tmr_loop head_da]. rewrite (proj2 (Z.eqb_neq (da d) 0)) by done. rewrite (rd_get_bind _ _ _ _ Hr).
    cbn [entry rd_timer rd_next omap list_omap expiries]. unfold tick at 1. simpl in Hfu. destruct (0 <? dtimer d) eqn:Et.
    + rewrite (rd_set_bind _ _ _ _ _ Hr). change (with_rd_timer _ _) with (entry (with_dtimer d (dtimer d - 1)) (head_da l2)).
      set (d' := with_dtimer d (dtimer d - 1)).
      assert (Hwf := r_wf _ _ _ Hinv). apply middle_forall in Hwf as [Hwf _].
      destruct (IH fuel (l1 ++ [d']) (with_reassdata st (<[da d := entry d' (head_da l2)]> (reassdata st)))) as (st' & Er & Hok & P & Hx); [|lia|].
      { rewrite <-app_assoc. split; [|apply middle_forall; by apply middle_forall in Hne].
        apply inv_update; try done. apply timer_wf; [done|]. pose proof (d_timer _ Hwf). lia. }
      rewrite prev_da_snoc in Er. exists st'. split; [exact Er|]. rewrite <-app_assoc in Hok. split; [done|]. split; [exact P|].
      eexists. split; [|exact Hx]. done.
    + apply middle_forall in Hne as [Hd Hne]. destruct (dfs d) as [|f fl] eqn:Efs; [done|].
      destruct (free_complete_spec E st l1 d l2 f fl Hinv Efs) as (st1 & Ef & Hinv1 & P1 & Ht).
      rewrite (st_bind_ok _ _ _ _ _ Ef). destruct (IH fuel l1 st1) as (st' & Er & Hok & P & Hx); [done|lia|].
      exists st'. split; [done|]. split; [done|]. split; [|exists st1; split; [|done]; unfold gives_up; by rewrite Efs].
      eapply passes_trans; [|exact P]. eapply passes_mono; [|exact P1]. intros x Hx0. apply gmultiset_elem_of_disj_union. by right.
Qed.
Lemma tmr_spec E st ds : reass_ok E st ds ->
  exists st', ip_reass_tmr call_custom_free garbage ipfrag_free_fn st = Ok (tt, st') /\ reass_ok E st' (omap tick ds) /\ passes E st st' /\ expiries ds st st'.
Proof.
  intros Hok. pose proof (r_queue _ _ _ (proj1 Hok)) as Hq. unfold ip_reass_tmr. rewrite get_bind. unfold rd_fuel. unfold mbind at 1, st_bind at 1.
  rewrite (q_list _ _ Hq), (q_data _ _ Hq), entries_size by apply Hq. apply (tmr_loop_spec E ds _ []); [done|lia].
Qed.
End queue.
