(* ===== verification/ReassIn.v ===== *)
(** * IPv4: fragments are put together

    What a fragment that arrives does to the datagrams of ReassQueue: it is dropped,
    it waits, or it completes its datagram. *)

From stdpp Require Import gmultiset.
From S2P Require Import Prelude Def Chksum Ip4Addr Memp Mem Pbuf PbufData PbufHeap PbufSole Ethernet Link Acd Etharp EtharpIo Ip4 Icmp Reass ReassOk ReassQueue.

Set Default Proof Using "Type".

Section reassemble.
Context {S R : Type} `{!PbufAlloc S} `{!FragPool S} `{!Pool R}.
Abbreviation state := (@ipnet S R).
Abbreviation net := (@Ethernet.net S).
Abbreviation M := (ST state).
Context {Link : LinkDriver}.
Implicit Types nst : net.

(** ** Queued packets *)

Lemma queued_indeg E nst q : link_ok E nst -> q ∈ queued (arp_table nst) -> indeg (pbufs (pm nst)) q = 0.
Proof.
  intros H Hq. pose proof (queued_nonzero _ _ Hq) as Hq0. unfold queued in Hq.
  rewrite elem_of_list_to_set_disj, list_elem_of_filter in Hq. destruct Hq as [_ Hq].
  apply list_elem_of_fmap in Hq as (e & -> & He). pose proof (link_entries _ _ H) as Hents. rewrite Forall_forall in Hents.
  by apply (Hents e He).
Qed.
Lemma queued_reach E nst q (A : list Z) : link_ok E nst -> q ∈ queued (arp_table nst) -> q ∉ A -> reach (.∉ A) (pm nst) q.
Proof.
  intros H Hq Hn. destruct (heap_held _ _ (link_refs _ _ H) q) as [b Hb]; [apply gmultiset_elem_of_disj_union; by right|].
  destruct (heap_nodes _ _ (link_refs _ _ H) q b Hb) as [_ _ _ (l & Hl & _) _]. exists ((q, b) :: l). split; [done|]. split; [done|]. by left.
Qed.
(** A packet that only its holders reach is not part of what is queued. *)
Lemma sole_queued E nst l : link_ok E nst -> sole E (pbufs (pm nst)) l -> sole (E ⊎ queued (arp_table nst)) (pbufs (pm nst)) l.
Proof.
  intros H Hs. split; [apply Hs|]. split; [apply Hs|]. intros x Hx. rewrite multiplicity_disj_union, (proj2 (proj2 Hs) x Hx).
  enough (multiplicity x (queued (arp_table nst)) = 0%nat) by lia. apply not_elem_of_multiplicity. intros Hq.
  pose proof (queued_indeg _ _ _ H Hq) as Hi. rewrite (sole_indeg _ _ _ x Hs), decide_True in Hi; [done|done|].
  destruct (addrs l); [by apply elem_of_nil in Hx|by right].
Qed.
Lemma sole_less E E' (h : gmap Z pbuf) l : sole E h l -> (forall x, multiplicity x E' <= multiplicity x E)%nat -> sole E' h l.
Proof.
  intros (Hp & Hi & Hm) HE. split; [done|]. split; [done|]. intros x Hx. specialize (Hm x Hx). specialize (HE x). lia.
Qed.

(** ** A fragment is appended *)

Lemma frag_packet E nst f nx : link_ok E nst -> frag_ok E nst f nx ->
  exists b l hdr o bs, frag_at E nst f nx b l hdr /\ pbufs (pm nst) !! fp f = Some (link b l) /\ payload b = Own (fp f) o /\
    own (pm nst) !! fp f = Some bs /\ 0 <= o /\ o + len b <= Z.of_nat (length bs) /\ slice o 20 bs = hdr /\ len b = fk f.
Proof.
  intros H [Hh Hpr Ha Hr (b & l & hdr & Hat) Hk]. exists b, l, hdr. pose proof Hat as (Hs & Hso & Hn & Hct & Hlb & Hd & Hl & Hh12 & Hby).
  destruct (first_memory _ _ _ _ _ _ _ H (proj1 Hs) Hct Hlb Hd Hl) as (Hb & o & bs & Hpl & Hbs & Ho & Hlen & Hsl & Hreg).
  exists o, bs. repeat (split; [done|]). by rewrite <-(Hk _ Hb).
Qed.
(** The helper of a fragment whose payload has moved on. *)
Lemma helper_kept (st : state) p o bs hdr nx start end' : own (pm (low st)) !! p = Some bs -> slice o 20 bs = hdr -> 0 <= o ->
  o + 20 <= Z.of_nat (length bs) -> take 12 hdr = helper nx start end' -> 0 <= nx < 2 ^ 64 -> is_u16 start -> is_u16 end' ->
  forall B (k : Z -> M B), (next_pbuf (Own p o) ≫= k) st = k nx st.
Proof.
  intros Hbs Hsl Ho Hlen Hh Hnx Hs He B k. eapply (helper_binds st (Own p o) hdr); try done.
  exists bs. assert (Hl : length hdr = 20%nat) by (rewrite <-Hsl; unfold slice; rewrite length_take, length_drop; lia).
  split; [done|]. split; [done|]. rewrite Hl. split; [done|]. by rewrite <-Hsl.
Qed.

Lemma sole_front E (h : gmap Z pbuf) l q : sole E h l -> q ∈ addrs l -> indeg h q = 0 -> q = head_addr l.
Proof.
  intros Hs Hq Hi. rewrite (sole_indeg _ _ _ q Hs Hq) in Hi. destruct l as [|[a b] l]; [by apply elem_of_nil in Hq|].
  apply elem_of_cons in Hq as [->|Hq]; [done|]. by rewrite decide_True in Hi.
Qed.
(** Holders reach it through its first pbuf. *)
Lemma sole_held E (h : gmap Z pbuf) l q : sole E h l -> q ∈ addrs l -> q ∈ E -> q = head_addr l.
Proof.
  intros Hs Hq HE. destruct l as [|[a b] l]; [by apply elem_of_nil in Hq|]. apply elem_of_cons in Hq as [->|Hq]; [done|].
  pose proof (proj2 (proj2 Hs) q Hq). rewrite elem_of_multiplicity in HE. lia.
Qed.
(** Two packets are joined. *)
Lemma cat_zone E nst (s' : @pstate S) l1 l2 :
  link_ok E nst -> sole E (pbufs (pm nst)) l1 -> sole E (pbufs (pm nst)) l2 -> (head_addr l1 ∉ queued (arp_table nst)) -> (head_addr l2 ∉ queued (arp_table nst)) ->
  (forall x, x ∉ addrs l1 ++ addrs l2 -> pbufs s' !! x = pbufs (pm nst) !! x) -> own s' = own (pm nst) -> ext s' = ext (pm nst) ->
  (exists l, packet (pbufs s') l /\ addrs l = addrs l1 ++ addrs l2) ->
  mild (fun q => q ∉ addrs l1 ++ addrs l2) (pm nst) s' /\
  forall E', refs_ok (E' ⊎ queued (arp_table nst)) s' -> link_ok E' (with_pm nst s').
Proof.
  intros H S1 S2 Hq1 Hq2 Hout Hown Hext (l & Hl & Ea).
  assert (Hm : mild (fun q => q ∉ addrs l1 ++ addrs l2) (pm nst) s').
  { apply zone_mild; try done; [apply closed_app; by eapply packet_closed|by intros; rewrite Hown|].
    rewrite <-Ea. intros x b Hx Hb. clear -Hl Hx Hb. induction l as [|[a c] l IH]; [by apply elem_of_nil in Hx|]. destruct Hl as (Ha & Hc & Hl).
    apply elem_of_cons in Hx as [->|Hx].
    - simpl in Hb. assert (b = link c l) as -> by congruence. destruct l as [|[a2 b2] l]; [by left|right]. right. by left.
    - destruct (IH Hl Hx) as [?|?]; [by left|right]. by right. }
  split; [done|]. intros E' Hr. eapply (link_change E); try done. intros q Hq. apply Hm. apply (queued_reach E); [done|done|].
  pose proof (queued_indeg _ _ _ H Hq) as Hi. intros [Hx|Hx]%elem_of_app.
  - apply Hq1. by rewrite <-(sole_front _ _ _ _ S1 Hx Hi).
  - apply Hq2. by rewrite <-(sole_front _ _ _ _ S2 Hx Hi).
Qed.
Lemma packet_total E (s : @pstate S) l hdr ds : refs_ok E s -> packet (pbufs s) l -> data s l = hdr ++ ds -> length hdr = 20%nat ->
  total l = 20 + Z.of_nat (length ds).
Proof.
  intros H Hp Hd Hl. assert (Hz : Forall (fun x => 0 <= len x.2) l) by (destruct l as [|[a b] l]; [done|apply (refs_sized _ _ _ _ _ H Hp)]).
  pose proof (data_length _ _ (refs_readable _ _ _ H Hp) Hz) as Hdl. rewrite Hd, length_app in Hdl. lia.
Qed.
Lemma cat_step G p f fl (st : state) lp :
  link_ok (held (f :: fl) ⊎ G) (low st) -> frags_ok (held (f :: fl) ⊎ G) (low st) (f :: fl) -> once (f :: fl) G ->
  sole (held (f :: fl) ⊎ G) (pbufs (pm (low st))) lp -> lp <> [] -> head_addr lp = p -> p ∈ G -> (p ∉ queued (arp_table (low st))) ->
  total lp + Z.of_nat (length (fd f)) < 65536 ->
  exists nst' m, (forall B (k : Z -> M B), (b ← on_pb (pb_get (fp f)); _ ← on_pb (pbuf_remove_header (fp f) IP_HLEN); _ ← on_pb (pbuf_cat p (fp f));
      nx ← next_pbuf (payload b); k nx) st = k (head_frag fl) (with_low st nst')) /\
    link_ok (held fl ⊎ G) nst' /\ tables_kept (low st) nst' /\ frames nst' = frames (low st) /\
    sole (held fl ⊎ G) (pbufs (pm nst')) (lp ++ m) /\ data (pm nst') (lp ++ m) = data (pm (low st)) lp ++ fd f /\
    length m = fn f /\ total (lp ++ m) = total lp + Z.of_nat (length (fd f)) /\ (solid lp -> 20 < fk f -> solid (lp ++ m)) /\
    mild (fun q => q ∈ held fl ⊎ G /\ q <> p) (pm (low st)) (pm nst').
Proof.
  intros H [Hf Hfl] Hon Hsp Hne Hhp HpG Hpq Htot.
  destruct (frag_packet _ _ _ _ H Hf) as (b & l & hdr & o & bs & Hat & Hb & Hpl & Hbs & Ho & Hlen & Hsl & Hk).
  pose proof Hat as (Hs & Hso & Hn & Hct & Hlb & Hd & Hl & Hh12 & Hby).
  assert (Hr := link_refs _ _ H). set (Q := queued (arp_table (low st))) in *.
  destruct (remove_header_sole _ (pm (low st)) (fp f) b l 20 Hr (sole_queued _ _ _ H Hs) Hct ltac:(lia)) as (Er & Hr1 & Hs1 & Hd1 & Hc1).
  set (s1 := with_pbufs (pm (low st)) _) in *.
  set (lf := (fp f, b) :: l) in *. set (lf1 := (fp f, shift b 20) :: l) in *.
  assert (Hpf : p ∉ addrs lf).
  { intros Hin. assert (Epf : p = fp f); [|apply (proj2 Hon f); [by left|by rewrite <-Epf]].
    apply (sole_held _ _ lf p Hs Hin). apply gmultiset_elem_of_disj_union. by right. }
  assert (Hdis : forall x, x ∈ addrs lp -> x ∉ addrs lf) by (apply (sole_disjoint _ _ lf lp Hs); [apply Hsp|done|by rewrite Hhp]).
  assert (Hfp : fp f ∉ addrs lp) by (intros Hin; apply (Hdis _ Hin); by left).
  assert (Hfn := once_head _ _ _ Hon).
  assert (Hsp1 : sole (held (f :: fl) ⊎ G ⊎ Q) (pbufs s1) lp).
  { apply (sole_kept (held (f :: fl) ⊎ G ⊎ Q) _ (pm (low st)) s1 lp lp); [by apply sole_queued| |done| |by apply sole_queued].
    - eapply packet_ext; [apply Hsp|]. intros x Hx. simpl. apply lookup_insert_ne. intros E0. apply Hfp. by rewrite E0.
    - intros x Hx. apply Hc1. by eapply packet_nonzero; [apply Hsp|]. }
  assert (EQ : held (f :: fl) ⊎ G ⊎ Q = {[+ fp f +]} ⊎ (held fl ⊎ G ⊎ Q)) by (rewrite held_head; symmetry; apply assoc, _).
  rewrite EQ in Hr1, Hs1, Hsp1.
  assert (Htl : total lf = 20 + Z.of_nat (length (fd f))) by (apply (packet_total _ _ _ _ _ Hr (proj1 Hs) Hd); lia).
  destruct (pbuf_cat_heap (held fl ⊎ G ⊎ Q) p (fp f) lp lf1 s1 Hr1 Hsp1 Hs1) as (h & Ec & Hr2 & Hs2 & Hout2); try done.
  { rewrite multiplicity_disj_union. pose proof (frag_private _ _ _ _ Hf) as Hpr. fold Q in Hpr.
    rewrite (proj1 (not_elem_of_multiplicity _ _) Hfn), (proj1 (not_elem_of_multiplicity _ _) Hpr). done. }
  { unfold lf1. simpl. unfold lf in Htl. simpl in Htl. lia. }
  exists (with_pm (low st) (with_pbufs s1 h)), lf1.
  destruct (cat_zone _ (low st) (with_pbufs s1 h) lp lf H Hsp Hs) as [Hm Hlk]; try done.
  { by rewrite Hhp. }
  { apply Hf. }
  { intros x Hx. simpl. rewrite Hout2 by (intros ?; apply Hx, elem_of_app; by left). simpl. apply lookup_insert_ne.
    intros <-. apply Hx, elem_of_app. right. by left. }
  { exists (lp ++ lf1). split; [apply Hs2|]. by rewrite addrs_app. }
  split; [|split; [by apply Hlk|split; [done|split; [done|]]]].
  - intros B k. rewrite (on_pb_get_bind _ _ _ _ Hb). change (payload (link b l)) with (payload b). change IP_HLEN with 20.
    rewrite (on_pb_bind _ _ _ _ _ Er). rewrite (on_pb_bind _ _ _ tt (with_pbufs s1 h)) by exact Ec.
    pose proof (frag_range _ _ _ _ Hf) as Hrg. unfold fe in Hrg. rewrite Hpl.
    eapply (helper_kept (with_low st _) (fp f) o bs hdr); try done; [lia|by eapply head_frag_range|unfold is_u16..]; unfold fe; lia.
  - split; [eapply sole_less; [exact Hs2|]; intros x; rewrite (multiplicity_disj_union _ Q); lia|].
    split; [|split; [done|split; [rewrite total_app; unfold lf1; unfold lf in Htl; simpl in *; lia|split]]].
    + simpl pm. change (data (with_pbufs s1 h) (lp ++ lf1)) with (data s1 (lp ++ lf1)). rewrite data_app, Hd1, Hd, drop_app_le, drop_ge by lia. done.
    + intros Hsl1 Hk1. apply Forall_app. split; [done|]. apply Forall_cons in Hso as [_ Hso]. constructor; [simpl; lia|done].
    + eapply mild_weaken; [exact Hm|]. intros q [Hq Hqp] [Hx|Hx]%elem_of_app.
      * apply Hqp. rewrite <-Hhp. eapply sole_held; [exact Hsp|done|]. rewrite held_head. apply gmultiset_elem_of_disj_union. by right.
      * apply Hfn. assert (Eq : q = fp f); [|by rewrite <-Eq]. eapply (sole_held _ _ lf); [exact Hs|done|]. rewrite held_head. apply gmultiset_elem_of_disj_union. by right.
Qed.

Definition frag_bytes (fl : list frag) : list Z := fl ≫= fd.

Lemma cat_frags_spec G p fl : forall fuel (st : state) lp,
  link_ok (held fl ⊎ G) (low st) -> frags_ok (held fl ⊎ G) (low st) fl -> once fl G -> (length fl < fuel)%nat ->
  sole (held fl ⊎ G) (pbufs (pm (low st))) lp -> lp <> [] -> head_addr lp = p -> p ∈ G -> (p ∉ queued (arp_table (low st))) ->
  total lp + Z.of_nat (length (frag_bytes fl)) < 65536 ->
  exists nst' m, cat_frags fuel p (head_frag fl) st = Ok (tt, with_low st nst') /\
    link_ok G nst' /\ tables_kept (low st) nst' /\ frames nst' = frames (low st) /\
    sole G (pbufs (pm nst')) (lp ++ m) /\ data (pm nst') (lp ++ m) = data (pm (low st)) lp ++ frag_bytes fl /\
    Z.of_nat (length m) = pbuf_sum fl /\ (solid lp -> Forall (fun f => 20 < fk f) fl -> solid (lp ++ m)) /\
    mild (fun q => q ∈ G /\ q <> p) (pm (low st)) (pm nst').
Proof.
  induction fl as [|f fl IH]; intros fuel st lp H Hfl Hon Hfu Hsp Hne Hhp HpG Hpq Htot; (destruct fuel as [|fuel]; [simpl in Hfu; lia|]).
  - assert (EG : held [] ⊎ G = G) by apply (left_id_L ∅ (⊎)). rewrite EG in *. exists (low st), []. rewrite !app_nil_r.
    split; [by destruct st|]. repeat (split; [done|]). apply mild_refl.
  - change (frag_bytes (f :: fl)) with (fd f ++ frag_bytes fl) in Htot. rewrite length_app in Htot.
    destruct (cat_step G p f fl st lp) as (nst1 & m1 & Ec & H1 & T1 & F1 & S1 & D1 & L1 & Et1 & So1 & M1); try done; [lia|].
    assert (Eq1 : arp_table nst1 = arp_table (low st)) by apply T1.
    pose proof (frag_addr _ _ _ _ (proj1 Hfl)) as Hf0.
    destruct (IH fuel (with_low st nst1) (lp ++ m1)) as (nst' & m & Er & H' & T' & F' & S' & D' & L' & So' & M'); try done.
    + eapply (frags_mild _ _ _ (fun q => q ∈ held fl ⊎ G /\ q <> p)); [apply H|apply Hfl|apply held_sub| |exact M1].
      intros g Hg. split; [apply once_multiplicity; [by eapply once_tail|done]|]. simpl. rewrite Eq1.
      destruct (frags_elem _ _ _ _ (proj2 Hfl) Hg) as (nx & Hgf). split; [apply Hgf|]. split.
      * apply gmultiset_elem_of_disj_union. left. apply elem_of_held. by exists g.
      * intros Eg. apply (proj2 Hon g); [by right|]. by rewrite Eg.
    + by eapply once_tail.
    + simpl in Hfu. lia.
    + by destruct lp.
    + by destruct lp.
    + simpl. by rewrite Eq1.
    + lia.
    + exists nst', (m1 ++ m). rewrite app_assoc. split.
      { cbn [cat_frags head_frag]. rewrite (proj2 (Z.eqb_neq (fp f) 0)) by lia. cbv zeta. rewrite Ec. exact Er. }
      split; [done|]. split; [by eapply tables_kept_trans|]. split; [by rewrite F'|]. split; [done|].
      split; [rewrite D'; simpl; rewrite D1, <-app_assoc; done|]. rewrite length_app, pbuf_sum_cons. split; [lia|].
      split; [intros Hs0 [Hk Hks]%Forall_cons; apply So'; [by apply So1|done]|].
      eapply mild_trans; [|exact M']. eapply mild_weaken; [exact M1|]. intros q [Hq ?]. split; [|done]. apply gmultiset_elem_of_disj_union. by right.
Qed.

(** ** The datagram is complete *)

(** The header of the datagram of [n] bytes, with its checksum. *)
Definition whole_header (h : list Z) (n : Z) : list Z :=
  let h1 := splice 10 (le_bytes 2 0) (splice 6 (le_bytes 2 0) (splice 2 (le_bytes 2 (lwip_htons n)) h)) in
  splice 10 (le_bytes 2 (65535 - cksum_ref h1)) h1.
Lemma whole_header_length h n : length h = 20%nat -> length (whole_header h n) = 20%nat.
Proof. intros Hl. unfold whole_header. cbv zeta. by splice_lengths. Qed.
Lemma whole_header_bytes h n : bytes h -> bytes (whole_header h n).
Proof. intros Hb. unfold whole_header. cbv zeta. repeat (apply splice_bytes; [apply le_bytes_bytes|]). done. Qed.

Lemma finish_header E (st : state) p b l hdr ds h n : link_ok E (low st) -> incoming E (low st) p b l hdr ds ->
  length h = 20%nat -> bytes h ->
  exists nst', (forall B (k : unit -> M B), (_ ← on_pb (write_mem (ptr_add (payload b) 0) h); _ ← IPH_LEN_SET (payload b) (lwip_htons n);
      _ ← IPH_OFFSET_SET (payload b) 0; _ ← IPH_CHKSUM_SET (payload b) 0; sum ← chksum_mem (payload b) IP_HLEN;
      _ ← IPH_CHKSUM_SET (payload b) sum; k tt) st = k tt (with_low st nst')) /\
    touched [p] E (low st) nst' /\ incoming E nst' p b l (whole_header h n) ds.
Proof.
  intros H Hi Hh Hbh. destruct (header_space E st p b l hdr ds H Hi) as (o & bs & Hpl & Ho & Hlen & Est & Hw).
  destruct (Hw (whole_header h n)) as [T Hi']; [by apply whole_header_length|by apply whole_header_bytes|].
  eexists. split; [|split; [exact T|exact Hi']]. intros B k. pose proof (inc_hdr _ _ _ _ _ _ _ Hi) as Hl.
  rewrite Est at 1. rewrite Hpl. unfold IPH_LEN_SET, IPH_OFFSET_SET, IPH_CHKSUM_SET, set16.
  rewrite hstate_set by lia. rewrite splice_all by lia.
  do 3 (rewrite hstate_set by (splice_lengths; rewrite ?length_le_bytes; cbn [length]; lia)).
  set (h1 := splice 10 _ _). assert (Hl1 : length h1 = 20%nat) by (unfold h1; by splice_lengths).
  assert (Hb1 : bytes h1) by (unfold h1; repeat (apply splice_bytes; [apply le_bytes_bytes|]); done).
  erewrite chksum_mem_bind; [|apply hstate_region; lia|unfold IP_HLEN; lia].
  rewrite (slice_whole h1) by (unfold IP_HLEN; lia). rewrite inet_chksum_ref by done.
  rewrite hstate_set by (rewrite ?length_le_bytes; lia). done.
Qed.

Lemma prev_loop_spec (st : state) l1 d l2 : queue_ok st (l1 ++ d :: l2) -> l1 <> [] ->
  forall fuel, (length l1 <= fuel)%nat -> prev_loop fuel (da d) (head_da l1) st = Ok (prev_da l1, st).
Proof.
  intros Hq Hne. assert (Hg : forall l0 l fuel, l1 = l0 ++ l -> l <> [] -> (length l <= fuel)%nat -> prev_loop fuel (da d) (head_da l) st = Ok (prev_da l1, st)).
  { intros l0 l. revert l0. induction l as [|d0 l IH]; [done|]. intros l0 fuel E _ Hfu. destruct fuel as [|fuel]; [simpl in Hfu; lia|].
    subst l1. rewrite <-app_assoc in Hq. simpl in Hq. cbn [prev_loop head_da].
    assert (Hr : reassdata st !! da d0 = Some (entry d0 (head_da (l ++ d :: l2)))) by (rewrite (q_data _ _ Hq); apply entries_lookup, Hq).
    pose proof (q_nonzero _ _ Hq) as Hnz. apply middle_forall in Hnz as [Hnz _]. rewrite (proj2 (Z.eqb_neq (da d0) 0)) by done.
    rewrite (rd_get_bind _ _ _ _ Hr). cbn [entry rd_next]. destruct l as [|d1 l].
    - simpl. rewrite Z.eqb_refl. by rewrite prev_da_snoc.
    - rewrite (proj2 (Z.eqb_neq (head_da ((d1 :: l) ++ d :: l2)) (da d))).
      + apply (IH (l0 ++ [d0]) fuel); [by rewrite <-app_assoc|done|simpl in *; lia].
      + simpl. intros E. pose proof (q_nodup _ _ Hq) as Hnd. 
        change (l0 ++ d0 :: (d1 :: l) ++ d :: l2) with (l0 ++ ([d0; d1] ++ l) ++ d :: l2) in Hnd. rewrite app_assoc in Hnd.
        destruct (middle_nodup _ _ _ Hnd) as [_ Hn]. apply Hn. rewrite <-E, !map_app. simpl. set_solver. }
  intros fuel Hfu. by apply (Hg [] l1).
Qed.

(** The datagram [d], put together in [p]. *)
Definition reassembled (E : gmultiset Z) (nst : net) (d : dgram) (p : Z) (b : pbuf) (m : list (Z * pbuf)) : Prop :=
  sole E (pbufs (pm nst)) ((p, b) :: m) /\ contiguous b = true /\ 20 <= len b /\
  data (pm nst) ((p, b) :: m) = whole_header (dhdr d) (dlen d + 20) ++ frag_bytes (dfs d) /\
  (Forall (fun f => 20 < fk f) (tail (dfs d)) -> solid ((p, b) :: m)) /\ (p ∉ queued (arp_table nst)) /\ 0 < p < 2 ^ 64.

Lemma bytes_bound fl : Forall (fun f => Z.of_nat (length (fd f)) <= PBUF_MAX * Z.of_nat (fn f)) fl ->
  Z.of_nat (length (frag_bytes fl)) <= PBUF_MAX * pbuf_sum fl.
Proof.
  induction 1 as [|f fl Hf _ IH]; [done|]. change (frag_bytes (f :: fl)) with (fd f ++ frag_bytes fl). rewrite length_app, pbuf_sum_cons. lia.
Qed.
(** The first fragment is held by the caller. *)
Lemma held_first f fl G : held (f :: fl) ⊎ G = held fl ⊎ ({[+ fp f +]} ⊎ G).
Proof. rewrite held_head, !(assoc (⊎)). f_equal. apply comm, _. Qed.
Lemma once_first f fl G : once (f :: fl) G -> once fl ({[+ fp f +]} ⊎ G).
Proof.
  intros [Hnd HG]. change (map fp (f :: fl)) with (fp f :: map fp fl) in Hnd. apply NoDup_cons in Hnd as [Hn Hnd]. split; [done|]. intros g Hg [Hin|Hin]%gmultiset_elem_of_disj_union.
  - apply gmultiset_elem_of_singleton in Hin. apply Hn. rewrite <-Hin. by apply list_elem_of_fmap_2.
  - apply (HG g); [by right|done].
Qed.

(** The packets of the fragments become one. *)
Lemma finish_packet G (st : state) d f fl : dfs d = f :: fl -> dgram_wf d ->
  link_ok (held (dfs d) ⊎ G) (low st) -> frags_ok (held (dfs d) ⊎ G) (low st) (dfs d) -> once (dfs d) G -> pbuf_sum (dfs d) <= IP_REASS_MAX_PBUFS ->
  exists nst' b m, (forall B (k : unit -> M B), (b ← on_pb (pb_get (fp f)); second ← next_pbuf (payload b);
      _ ← on_pb (write_mem (ptr_add (payload b) 0) (dhdr d)); _ ← IPH_LEN_SET (payload b) (lwip_htons (dlen d + 20));
      _ ← IPH_OFFSET_SET (payload b) 0; _ ← IPH_CHKSUM_SET (payload b) 0; sum ← chksum_mem (payload b) IP_HLEN;
      _ ← IPH_CHKSUM_SET (payload b) sum; fuel ← pb_fuel; _ ← cat_frags fuel (fp f) second; k tt) st = k tt (with_low st nst')) /\
    link_ok ({[+ fp f +]} ⊎ G) nst' /\ tables_kept (low st) nst' /\ frames nst' = frames (low st) /\
    reassembled ({[+ fp f +]} ⊎ G) nst' d (fp f) b m /\ Z.of_nat (length ((fp f, b) :: m)) = pbuf_sum (dfs d) /\
    mild (.∈ G) (pm (low st)) (pm nst').
Proof.
  intros Hfs Hwf H Hfl Hon Hsum. rewrite Hfs in H, Hfl, Hon, Hsum. destruct Hfl as [Hf Hfl].
  destruct (frag_read _ st f _ H Hf (head_frag_range _ _ _ Hfl)) as (b0 & Hb0 & Hrd).
  destruct (frag_incoming _ _ _ _ Hf) as (b & l & hdr & Hi & Hn).
  assert (b0 = link b l) as -> by (pose proof (proj1 (inc_sole _ _ _ _ _ _ _ Hi)) as (_ & Hp & _); congruence).
  destruct (finish_header _ st _ b l hdr (fd f) (dhdr d) (dlen d + 20) H Hi (d_hdr _ Hwf) (d_bytes _ Hwf)) as (nst1 & Ew & T & Hi1).
  assert (Hfl1 : frags_ok (held (f :: fl) ⊎ G) nst1 fl) by (by eapply frags_tail_touched; [exact H|exact T|split|apply Hon]).
  assert (H1 := tou_ok _ _ _ _ T). rewrite held_first in H1, Hi1, Hfl1. pose proof (d_sizes _ Hwf) as Hsz. rewrite Hfs in Hsz.
  pose proof (bytes_bound _ Hsz) as Hbb. change (frag_bytes (f :: fl)) with (fd f ++ frag_bytes fl) in Hbb. rewrite length_app in Hbb.
  unfold PBUF_MAX, IP_REASS_MAX_PBUFS in *.
  destruct (cat_frags_spec ({[+ fp f +]} ⊎ G) (fp f) fl (Datatypes.S (size (pbufs (pm nst1)))) (with_low st nst1) ((fp f, b) :: l))
    as (nst' & m & Ec & H' & T' & F' & S' & D' & L' & So' & M'); try done.
  - by apply once_first.
  - pose proof (frags_fuel _ _ _ Hfl1 (proj1 (once_first _ _ _ Hon))). lia.
  - apply Hi1.
  - apply gmultiset_elem_of_disj_union. left. by apply gmultiset_elem_of_singleton.
  - apply Hi1.
  - rewrite (packet_total _ _ _ _ _ (link_refs _ _ H1) (proj1 (inc_sole _ _ _ _ _ _ _ Hi1)) (inc_data _ _ _ _ _ _ _ Hi1) (inc_hdr _ _ _ _ _ _ _ Hi1)). lia.
  - exists nst', b, (l ++ m). split; [|split; [done|]].
    { intros B k. rewrite (on_pb_get_bind _ _ _ _ Hb0), (proj1 (Hrd _ _)). change (payload (link b l)) with (payload b).
      rewrite (Ew _ (fun _ => _)), pb_fuel_bind. by rewrite (st_bind_ok _ _ _ _ _ Ec). }
    split; [eapply tables_kept_trans; [apply T|exact T']|]. split; [rewrite F'; apply T|].
    assert (Et : arp_table nst' = arp_table nst1) by apply T'.
    split; [|split].
    + split; [done|]. split; [apply Hi1|]. split; [apply Hi1|]. split.
      { rewrite app_comm_cons, D'. simpl pm. rewrite (inc_data _ _ _ _ _ _ _ Hi1), Hfs, <-app_assoc. done. }
      split; [rewrite Hfs; intros Hk; apply So'; [apply Hi1|done]|]. split; [rewrite Et; apply Hi1|apply Hi1].
    + rewrite app_comm_cons, length_app, Hn, Hfs, pbuf_sum_cons. lia.
    + eapply mild_trans; [eapply mild_weaken; [apply calm_mild, T|]|eapply mild_weaken; [exact M'|]].
      * intros q Hq Hin%list_elem_of_singleton. apply (proj2 Hon f); [by left|]. by rewrite <-Hin.
      * intros q Hq. split; [apply gmultiset_elem_of_disj_union; by right|]. intros ->. apply (proj2 Hon f); [by left|done].
Qed.

Lemma rd_fuel_bind {B} (st : state) ds (k : nat -> M B) : queue_ok st ds -> (rd_fuel ≫= k) st = k (Datatypes.S (length ds)) st.
Proof. intros Hq. unfold rd_fuel, mbind, st_bind. by rewrite (q_data _ _ Hq), entries_size by apply Hq. Qed.
Lemma find_prev (st : state) l1 d l2 B (k : Z -> M B) : queue_ok st (l1 ++ d :: l2) ->
  ((if da d =? reassdatagrams st then mret 0 else rfuel ← rd_fuel; prev_loop rfuel (da d) (reassdatagrams st)) ≫= k) st = k (prev_da l1) st.
Proof.
  intros Hq. apply st_bind_ok. rewrite (q_list _ _ Hq). destruct l1 as [|d0 l1]; [simpl; by rewrite Z.eqb_refl|].
  rewrite (proj2 (Z.eqb_neq _ _)); [|intros E].
  - rewrite (rd_fuel_bind _ _ _ Hq). apply (prev_loop_spec _ (d0 :: l1) d l2); [done|done|]. rewrite length_app. lia.
  - destruct (middle_nodup _ _ _ (q_nodup _ _ Hq)) as [_ Hn]. apply Hn. rewrite E. simpl. by left.
Qed.

Lemma once_last l d E (l' : list frag) f fl : once (l ++ l') E -> l = f :: fl -> d = fp f -> once l' ({[+ d +]} ⊎ E).
Proof.
  intros Ho -> ->. destruct (once_app _ _ _ Ho) as [H1 [Hnd H2]]. split; [done|].
  intros g Hg [Hin|Hin]%gmultiset_elem_of_disj_union; [|by apply (H2 g)]. apply gmultiset_elem_of_singleton in Hin.
  apply (proj2 H1 f); [by left|]. apply gmultiset_elem_of_disj_union. left. apply elem_of_held. by exists g.
Qed.
Lemma reass_finish_spec E st l1 d l2 f fl : reass_inv E st (l1 ++ d :: l2) -> dfs d = f :: fl -> dlast d = true ->
  let E' := {[+ fp f +]} ⊎ E in
  exists st' b m, reass_finish (da d) st = Ok (fp f, st') /\ reass_inv E' st' (l1 ++ l2) /\
    passes (held (all_frags (l1 ++ l2)) ⊎ E) st st' /\ frames (low st') = frames (low st) /\
    reassembled (held (all_frags (l1 ++ l2)) ⊎ E') (low st') d (fp f) b m.
Proof.
  intros Hinv Hfs Hla E'. assert (H := r_link _ _ _ Hinv). assert (Hon := r_once _ _ _ Hinv). assert (Hq := r_queue _ _ _ Hinv).
  rewrite held_middle in H. apply (once_perm _ _ _ (all_frags_middle l1 d l2)) in Hon. destruct (once_app _ _ _ Hon) as [Hond _].
  assert (Hfl := r_frags _ _ _ Hinv). apply middle_forall in Hfl as [Hfl _]. rewrite held_middle in Hfl.
  pose proof (r_wf _ _ _ Hinv) as Hwf. apply middle_forall in Hwf as [Hwf _].
  destruct (r_count _ _ _ Hinv) as [Hc Hmax]. rewrite (pbuf_sum_perm _ _ (all_frags_middle l1 d l2)), pbuf_sum_app in Hc, Hmax.
  pose proof (pbuf_sum_nonneg (all_frags (l1 ++ l2))). set (G := held (all_frags (l1 ++ l2)) ⊎ E) in *.
  assert (Hr : reassdata st !! da d = Some (entry d (head_da l2))) by (rewrite (q_data _ _ Hq); apply entries_lookup, Hq).
  unfold reass_finish. rewrite (rd_get_bind _ _ _ _ Hr). cbn [entry rd_datagram_len rd_p rd_iphdr]. rewrite Hfs. cbn [head_frag].
  destruct (d_last _ Hwf Hla) as [Hdl _]. unfold IP_HLEN in Hdl. rewrite u16_id by (unfold is_u16, IP_HLEN; lia). change (dlen d + IP_HLEN) with (dlen d + 20).
  destruct (finish_packet G st d f fl Hfs Hwf H Hfl Hond ltac:(lia)) as (nst' & b & m & Ek & H' & T' & F' & Hre & Hlen & M').
  rewrite (Ek _ (fun _ => _)). clear Ek. rewrite get_bind.
  assert (Hq' : queue_ok (with_low st nst') (l1 ++ d :: l2)) by (destruct Hq; by split).
  rewrite (find_prev _ _ _ _ _ _ Hq').
  destruct (dequeue_spec (with_low st nst') l1 d l2 Hq') as (st2 & Ed & Hq2 & El & Ei & En & Eip & Ec). simpl in El, Ei, En, Eip, Ec.
  rewrite (st_bind_ok _ _ _ _ _ Ed). unfold IP_REASS_MAX_PBUFS in Hmax.
  rewrite (clen_bind st2 ((fp f, b) :: m)); [|rewrite El; apply Hre|done|lia]. rewrite Hlen, get_bind, sassert_bind by lia.
  rewrite u16_id by (unfold is_u16; lia).
  assert (EG : {[+ fp f +]} ⊎ G = held (all_frags (l1 ++ l2)) ⊎ E').
  { unfold G, E'. rewrite !(assoc (⊎)). f_equal. apply comm, _. }
  rewrite EG in H', Hre.
  assert (L : leaves G (low st) nst').
  { destruct T' as (Tn & Tl & Ta & Tt & _). split; try done; [eapply mild_weaken; [exact M'|by intros q [? _]]| |by rewrite F'].
    intros q [Hq0 Hq1]. split; [done|]. by rewrite Tt. }
  eexists _, b, m. split; [done|]. split; [|split; [split; [simpl; by rewrite El|done]|simpl; by rewrite El]].
  eapply inv_remove; [exact Hinv| |by eapply once_last|simpl; by rewrite El|simpl; by rewrite El|destruct Hq2; by split|simpl; lia|done|simpl; rewrite Ei; apply Hinv].
  intros x. rewrite held_middle, Hfs, held_first, <-EG. fold G. rewrite (multiplicity_disj_union (held fl)). lia.
Qed.

(** ** The invariant *)

Lemma place_ordered f l : forall s e pe valid l' v, place f pe valid l = Some (l', v) -> ordered_from s e l -> s < fs f -> e <= fs f ->
  ordered_from s e l'.
Proof.
  induction l as [|g l IH]; intros s e pe valid l' v; simpl; [by intros [= <- <-]|]. intros Hp (Hs & He & Ho) Hs' He'.
  destruct (fs f <? fs g) eqn:E1.
  - destruct (_ || _) eqn:E2; [done|]. injection Hp as <- <-. apply orb_false_elim in E2 as [_ E2]. simpl. repeat (split; [lia|]). done.
  - destruct (fs f =? fs g) eqn:E2; [done|]. destruct (fs f <? fe g) eqn:E3; [done|].
    destruct (place f _ _ l) as [[r w]|] eqn:Ep; [|done]. injection Hp as <- <-. split; [done|]. split; [done|]. eapply IH; [done|done|lia|lia].
Qed.

(** The state below changes. *)
Lemma inv_low E E' st st' ds : reass_inv E st ds -> link_ok (held (all_frags ds) ⊎ E') (low st') ->
  Forall (fun d => frags_ok (held (all_frags ds) ⊎ E') (low st') (dfs d)) ds -> once (all_frags ds) E' ->
  netifs (low st') = netifs (low st) -> list_kept st st' -> reassdata st' = reassdata st -> is_u16 (ip_id st') -> reass_inv E' st' ds.
Proof.
  intros [Hl Hf Ho Hq Hw Hk Hc Hi Hd] Hl' Hf' Ho' Hn (K1 & K2 & K3 & K4 & K5) Hda Hid. split; try done.
  - destruct Hq as [Q1 Q2 Q3 Q4 Q5]. split; congruence.
  - by rewrite K4.
  - by eapply interfaces_kept.
Qed.
(** A pbuf that the datagrams do not use is given up. *)
Lemma inv_free E p st st' ds : reass_inv ({[+ p +]} ⊎ E) st ds -> steps (held (all_frags ds) ⊎ E) (low st) (low st') ->
  list_kept st st' -> reassdata st' = reassdata st -> is_u16 (ip_id st') -> reass_inv E st' ds.
Proof.
  intros Hinv Hst K Hda Hid. assert (Ho : once (all_frags ds) E).
  { destruct (r_once _ _ _ Hinv) as [Hnd HE]. split; [done|]. intros f Hf Hin. apply (HE f Hf), gmultiset_elem_of_disj_union. by right. }
  eapply inv_low; [exact Hinv|apply Hst| |done|apply Hst|done|done|done].
  pose proof (r_frags _ _ _ Hinv) as Hfr. rewrite Forall_forall in Hfr |- *. intros d Hin. specialize (Hfr d Hin).
  eapply frags_leaves; [apply (r_link _ _ _ Hinv)|done| | |by apply steps_leaves].
  - intros x. rewrite !multiplicity_disj_union. lia.
  - intros f Hf. apply once_multiplicity; [done|]. by eapply dgram_frags.
Qed.
(** The header of such a pbuf is written. *)
Lemma inv_touch E p st nst' ds : reass_inv E st ds -> p ∈ E -> touched [p] (held (all_frags ds) ⊎ E) (low st) nst' ->
  reass_inv E (with_low st nst') ds.
Proof.
  intros Hinv Hp T. eapply inv_low; [exact Hinv|apply T| |apply Hinv|apply T|done|done|apply Hinv].
  pose proof (r_frags _ _ _ Hinv) as Hfr. rewrite Forall_forall in Hfr |- *. intros d Hin. specialize (Hfr d Hin).
  eapply frags_touched; [apply Hinv|exact T|done|]. intros f Hf Hq%list_elem_of_singleton.
  apply (proj2 (r_once _ _ _ Hinv) f); [by eapply dgram_frags|]. by rewrite Hq.
Qed.

Context (call_custom_free : Z -> Z -> ST (@pstate S) unit) (garbage : Z -> Z).
Context (ipfrag_free_fn : Z).

(** ** The fragment is dropped *)

Lemma own_once (X : gmultiset Z) p E : X ⊎ ({[+ p +]} ⊎ E) = {[+ p +]} ⊎ (X ⊎ E).
Proof. rewrite !(assoc (⊎)). f_equal. apply comm, _. Qed.
Lemma inv_not_held E p st ds : reass_inv ({[+ p +]} ⊎ E) st ds -> p ∉ E -> p ∉ held (all_frags ds) ⊎ E.
Proof.
  intros Hinv Hp [Hin|Hin]%gmultiset_elem_of_disj_union; [|done]. apply elem_of_held in Hin as (f & Hf & <-).
  apply (proj2 (r_once _ _ _ Hinv) f Hf). apply gmultiset_elem_of_disj_union. left. by apply gmultiset_elem_of_singleton.
Qed.
Lemma nullreturn_spec E p st ds : reass_inv ({[+ p +]} ⊎ E) st ds -> p ∉ E ->
  exists st', reass_nullreturn call_custom_free p st = Ok (0, st') /\ reass_inv E st' ds /\ passes (held (all_frags ds) ⊎ E) st st' /\
    frames (low st') = frames (low st).
Proof.
  intros Hinv Hp. pose proof (r_link _ _ _ Hinv) as H. rewrite own_once in H. assert (Hn := inv_not_held _ _ _ _ Hinv Hp).
  unfold reass_nullreturn. set (st0 := with_ip_stats st (fun x => if decide (x = ip_frag_drop) then u16 (ip_stats st ip_frag_drop + 1) else ip_stats st x)).
  rewrite (st_bind_ok _ _ _ tt st0) by done.
  destruct (freed_spec call_custom_free _ p st0 H Hn) as (st' & Ef & Hs & (K1 & K2 & K3 & K4 & K5 & K6) & I & F).
  rewrite (st_bind_ok _ _ _ _ _ Ef). exists st'. split; [done|]. split.
  - eapply inv_free; [exact Hinv|exact Hs|done|done|]. rewrite I. apply Hinv.
  - split; [|done]. split; [by apply steps_leaves|done].
Qed.
(** What is left when the fragment is dropped: an entry without fragments goes with it. *)
Definition nonempty (d : dgram) : list dgram := match dfs d with [] => [] | _ => [d] end.
Lemma nullreturn_ipr_spec E p st l1 d l2 : reass_inv ({[+ p +]} ⊎ E) st (l1 ++ d :: l2) -> p ∉ E -> (dfs d = [] -> l1 = []) ->
  exists st', reass_nullreturn_ipr call_custom_free (da d) p st = Ok (0, st') /\ reass_inv E st' (l1 ++ nonempty d ++ l2) /\
    passes (held (all_frags (l1 ++ d :: l2)) ⊎ E) st st' /\ frames (low st') = frames (low st).
Proof.
  intros Hinv Hp Hl1. pose proof (r_queue _ _ _ Hinv) as Hq. pose proof (q_nonzero _ _ Hq) as Hnz. apply middle_forall in Hnz as [Hnz _].
  assert (Hr : reassdata st !! da d = Some (entry d (head_da l2))) by (rewrite (q_data _ _ Hq); apply entries_lookup, Hq).
  unfold reass_nullreturn_ipr. rewrite sassert_bind by lia. rewrite (rd_get_bind _ _ _ _ Hr). cbn [entry rd_p]. unfold nonempty.
  destruct (dfs d) as [|f fl] eqn:Efs; simpl head_frag.
  - rewrite (Hl1 eq_refl) in *. change (0 =? 0) with true. cbv iota. simpl in Hq.
    destruct (dequeue_spec st [] d l2 Hq) as (st1 & Ed & Hq1 & El & Ei & En & Eip & Ec). simpl in Ed.
    rewrite (st_bind_ok _ _ _ tt st1).
    2: { rewrite get_bind, (q_list _ _ Hq). simpl. rewrite sassert_bind by lia. exact Ed. }
    assert (Eall : all_frags ([] ++ d :: l2) = all_frags l2) by (unfold all_frags; simpl; by rewrite Efs).
    assert (Hinv1 : reass_inv ({[+ p +]} ⊎ E) st1 ([] ++ l2)).
    { eapply inv_remove; [exact Hinv| | | | |exact Hq1| |done|]; try (rewrite ?Ei; apply Hinv).
      - intros x. by rewrite Eall.
      - pose proof (r_once _ _ _ Hinv) as Ho. by rewrite Eall in Ho.
      - rewrite El. pose proof (r_link _ _ _ Hinv) as H. by rewrite Eall in H.
      - rewrite El. apply leaves_refl.
      - rewrite Ec, Efs. change (pbuf_sum []) with 0. lia. }
    destruct (nullreturn_spec E p st1 ([] ++ l2) Hinv1 Hp) as (st' & En' & Hi' & P' & F'). exists st'. split; [done|]. split; [done|].
    rewrite Eall. split; [|by rewrite F', El]. destruct P' as (L' & N' & I'). split; [by rewrite <-El|]. split; congruence.
  - assert (Hf0 : fp f <> 0).
    { pose proof (r_frags _ _ _ Hinv) as Hfr. apply middle_forall in Hfr as [Hfr _]. rewrite Efs in Hfr. pose proof (frag_addr _ _ _ _ (proj1 Hfr)). lia. }
    rewrite (proj2 (Z.eqb_neq _ _) Hf0). rewrite (st_bind_ok _ _ _ tt st) by done. by apply nullreturn_spec.
Qed.

(** ** The fragment is stored *)

Lemma inv_store E st nst' st' l1 d d' l2 f :
  let ds := l1 ++ d :: l2 in let Ef := {[+ fp f +]} ⊎ E in
  reass_inv Ef st ds -> (fp f ∉ E) -> dfs d' ≡ₚ f :: dfs d -> da d' = da d -> dkey d' = dkey d -> dgram_wf d' ->
  touched (fp f :: map fp (dfs d)) (held (all_frags ds) ⊎ Ef) (low st) nst' -> frags_ok (held (all_frags ds) ⊎ Ef) nst' (dfs d') ->
  pbuf_sum (all_frags ds) + Z.of_nat (fn f) <= IP_REASS_MAX_PBUFS ->
  low st' = nst' -> reassdata st' = <[da d := entry d' (head_da l2)]> (reassdata st) -> reassdatagrams st' = reassdatagrams st ->
  reass_pool st' = reass_pool st -> netif_default st' = netif_default st -> ip_id st' = ip_id st ->
  ip_reass_pbufcount st' = pbuf_sum (all_frags ds) + Z.of_nat (fn f) -> reass_inv E st' (l1 ++ d' :: l2).
Proof.
  intros ds Ef Hinv Hp Hpe Ea Ek Hw' T Hfd Hsum El Hda Hli Hpo Hdf Hid Hco. pose proof Hinv as [Hl Hf Ho Hq Hw Hk [Hc Hm] Hi Hd].
  assert (Hall : all_frags (l1 ++ d' :: l2) ≡ₚ f :: all_frags ds).
  { unfold ds. rewrite !all_frags_middle, Hpe. done. }
  assert (EG : held (all_frags (l1 ++ d' :: l2)) ⊎ E = held (all_frags ds) ⊎ Ef).
  { rewrite (held_perm _ _ Hall), held_head. unfold Ef. by rewrite own_once. }
  assert (Hnf := inv_not_held _ _ _ _ Hinv Hp).
  assert (Hsm : pbuf_sum (all_frags (l1 ++ d' :: l2)) = pbuf_sum (all_frags ds) + Z.of_nat (fn f)).
  { rewrite (pbuf_sum_perm _ _ Hall), pbuf_sum_cons. lia. }
  split; rewrite ?EG, ?Hsm, ?El.
  - apply T.
  - apply middle_forall. split; [done|]. apply middle_forall in Hf as [_ Hf]. rewrite Forall_forall in Hf |- *. intros d2 Hd2.
    eapply frags_touched; [exact Hl|exact T|by apply Hf|]. intros g Hg [Eg|Hin]%elem_of_cons.
    + apply Hnf. rewrite <-Eg. apply gmultiset_elem_of_disj_union. left. apply elem_of_held. exists g. split; [|done].
      eapply dgram_frags; [|exact Hg]. unfold ds. rewrite !elem_of_app, elem_of_cons. rewrite elem_of_app in Hd2. clear -Hd2. naive_solver.
    + apply (once_perm _ _ _ (all_frags_middle l1 d l2)), once_app in Ho as [Hod _].
      apply list_elem_of_fmap in Hin as (h & Eh & Hh). apply (proj2 Hod h Hh). rewrite <-Eh. apply gmultiset_elem_of_disj_union. left.
      apply elem_of_held. exists g. split; [|done]. by eapply dgram_frags.
  - eapply once_perm; [symmetry; exact Hall|]. destruct Ho as [Hnd HE]. split.
    + simpl. apply NoDup_cons. split; [|done]. intros (g & Eg & Hg)%list_elem_of_fmap. apply (HE g Hg). rewrite <-Eg.
      apply gmultiset_elem_of_disj_union. left. by apply gmultiset_elem_of_singleton.
    + intros g [->|Hg]%elem_of_cons Hin; [done|]. apply (HE g Hg), gmultiset_elem_of_disj_union. by right.
  - by eapply queue_update.
  - apply middle_forall. apply middle_forall in Hw as [_ ?]. done.
  - rewrite map_app. simpl. rewrite Ek. unfold ds in Hk. by rewrite map_app in Hk.
  - split; [done|]. lia.
  - eapply interfaces_kept; [exact Hi|rewrite El; apply T|done].
  - by rewrite Hid.
Qed.

(** ** A fragment for a datagram *)

(** A last fragment that ends behind the longest datagram. *)
Definition too_long (hdr : list Z) (n : Z) : bool :=
  h_last hdr && ((u16 (h_start hdr + n) <? h_start hdr) || (0xffff - IP_HLEN <? u16 (h_start hdr + n))).
(** The datagram [d] with the fragment [f], unless that is dropped. *)
Definition dgram_add (hdr : list Z) (f : frag) (d : dgram) : option dgram :=
  if too_long hdr (Z.of_nat (length (fd f))) then None
  else fl ← enqueue f (dfs d);
       Some {| da := da d; dhdr := dhdr d; dlen := if h_last hdr then h_start hdr + Z.of_nat (length (fd f)) else dlen d;
               dlast := h_last hdr || dlast d; dtimer := dtimer d; dfs := fl |}.
Definition complete (d : dgram) : bool := dlast d && whole (dfs d).

Lemma flag_last d nx : negb (Z.land (rd_flags (entry d nx)) IP_REASS_FLAG_LASTFRAG =? 0) = dlast d.
Proof. simpl. by destruct (dlast d). Qed.
Lemma enqueue_perm f fl fl' : enqueue f fl = Some fl' -> fl' ≡ₚ f :: fl.
Proof.
  unfold enqueue. destruct (_ <=? _); [|done]. destruct (place f None true fl) as [[l v]|] eqn:E; [|done]. intros [= <-].
  by eapply place_perm.
Qed.
Lemma enqueue_ordered f fl fl' : enqueue f fl = Some fl' -> 0 <= fs f -> ordered fl -> ordered fl'.
Proof.
  unfold enqueue. destruct (_ <=? _); [|done]. destruct (place f None true fl) as [[l v]|] eqn:E; [|done]. intros [= <-] Hf Ho.
  eapply place_ordered; [done|done|lia|done].
Qed.
Lemma dgram_add_wf hdr f d d' : dgram_add hdr f d = Some d' -> dgram_wf d -> fs f = h_start hdr -> (h_last hdr = true -> 0 < h_start hdr) ->
  Z.of_nat (length (fd f)) <= PBUF_MAX * Z.of_nat (fn f) -> dgram_wf d'.
Proof.
  unfold dgram_add. intros Hadd [H1 H2 H3 H4 H5 H6] Hfs Hpos Hsz. destruct (too_long _ _) eqn:Etl; [done|].
  destruct (enqueue f (dfs d)) as [fl|] eqn:Een; [|done]. injection Hadd as <-. pose proof (enqueue_perm _ _ _ Een) as Hpe.
  pose proof (h_start_range hdr) as Hr. split; simpl; try done.
  - intros Hla. destruct (h_last hdr) eqn:El; simpl in *.
    + unfold too_long in Etl. rewrite El in Etl. simpl in Etl. apply orb_false_elim in Etl as [E1 E2].
      assert (Hu : u16 (h_start hdr + Z.of_nat (length (fd f))) = h_start hdr + Z.of_nat (length (fd f))).
      { unfold enqueue in Een. destruct (fe f <=? 0xffff) eqn:Efe; [|done]. unfold fe in Efe. rewrite Hfs in Efe. apply u16_id. unfold is_u16. lia. }
      rewrite Hu in *. unfold IP_HLEN in *. split; [lia|]. exists f. split; [rewrite Hpe; by left|]. rewrite Hfs. by apply Hpos.
    + destruct (H4 Hla) as [? (g & Hg & ?)]. split; [done|]. exists g. split; [rewrite Hpe; by right|done].
  - eapply enqueue_ordered; [done|lia|done].
  - rewrite Hpe. by constructor.
Qed.

Definition queue_result (E : gmultiset Z) (hdr : list Z) (f : frag) (l1 : list dgram) (d : dgram) (l2 : list dgram) (r : Z) (st' : state) : Prop :=
  match dgram_add hdr f d with
  | None => r = 0 /\ reass_inv E st' (l1 ++ nonempty d ++ l2)
  | Some d' =>
      if complete d' then r = head_frag (dfs d') /\ reass_inv ({[+ r +]} ⊎ E) st' (l1 ++ l2) /\
        exists b m, reassembled (held (all_frags (l1 ++ l2)) ⊎ ({[+ r +]} ⊎ E)) (low st') d' r b m
      else r = 0 /\ reass_inv E st' (l1 ++ d' :: l2)
  end.

(** The count and the length of the datagram are set. *)
Lemma store_run {B} (st : state) d d' nx hdr f c (k : unit -> M B) :
  dgram_add hdr f d = Some d' -> fs f = h_start hdr -> 0 <= ip_reass_pbufcount st -> 0 <= c -> ip_reass_pbufcount st + c <= 0xffff ->
  reassdata st !! da d = Some (with_rd_p (entry d nx) (head_frag (dfs d'))) ->
  exists st', (st ← get; _ ← set_pbufcount (u16 (ip_reass_pbufcount st + c));
    _ ← (if h_last hdr then rd_upd (da d) (fun r => with_rd_last r (u16 (h_start hdr + Z.of_nat (length (fd f))))) else mret tt); k tt) st = k tt st' /\
    reassdata st' = <[da d := entry d' nx]> (reassdata st) /\ ip_reass_pbufcount st' = ip_reass_pbufcount st + c /\
    low st' = low st /\ reassdatagrams st' = reassdatagrams st /\ reass_pool st' = reass_pool st /\
    netif_default st' = netif_default st /\ ip_id st' = ip_id st /\ ip_data st' = ip_data st.
Proof.
  intros Hadd Hfs Hc0 Hc Hmax Hr. rewrite get_bind, (u16_id (ip_reass_pbufcount st + c)) by (unfold is_u16; lia). unfold dgram_add in Hadd.
  destruct (too_long _ _); [done|]. destruct (enqueue f (dfs d)) as [fl|] eqn:Een; [|done]. injection Hadd as <-.
  unfold enqueue in Een. destruct (fe f <=? 0xffff) eqn:Efe; [|done]. unfold fe in Efe. rewrite Hfs in Efe.
  pose proof (h_start_range hdr) as Hs. rewrite (u16_id (h_start hdr + Z.of_nat (length (fd f)))) by (unfold is_u16; lia).
  rewrite (st_bind_ok _ _ _ tt (with_pbufcount st (ip_reass_pbufcount st + c))) by done.
  destruct (h_last hdr) eqn:El.
  - assert (Hr' : reassdata (with_pbufcount st (ip_reass_pbufcount st + c)) !! da d = _) by exact Hr.
    rewrite (rd_upd_bind _ _ _ _ _ Hr'). eexists. split; [done|]. split; [|done]. simpl. f_equal. unfold entry, with_rd_last. simpl.
    f_equal. by destruct (dlast d).
  - eexists. split; [done|]. split; [|done]. simpl. symmetry. apply insert_id. rewrite Hr. unfold entry, with_rd_p. simpl. by destruct (dlast d).
Qed.

Lemma inv_leaves E p st nst' l1 d l2 : reass_inv ({[+ p +]} ⊎ E) st (l1 ++ d :: l2) -> p ∉ E -> forall E0,
  touched (p :: map fp (dfs d)) E0 (low st) nst' -> leaves E (low st) nst'.
Proof.
  intros Hinv Hp E0 T. eapply touched_leaves; [|exact T]. intros q Hq [->|Hin]%elem_of_cons; [done|].
  apply list_elem_of_fmap in Hin as (f & -> & Hf). apply (proj2 (r_once _ _ _ Hinv) f).
  - eapply dgram_frags; [|exact Hf]. rewrite elem_of_app. right. by left.
  - apply gmultiset_elem_of_disj_union. by right.
Qed.
Lemma frag_fresh E p st l1 d l2 : reass_inv ({[+ p +]} ⊎ E) st (l1 ++ d :: l2) -> NoDup (p :: map fp (dfs d)).
Proof.
  intros Hinv. destruct (once_app _ _ _ (once_perm _ _ _ (all_frags_middle l1 d l2) (r_once _ _ _ Hinv))) as [[Hnd HG] _].
  apply NoDup_cons. split; [|done]. intros (f & Ef & Hf)%list_elem_of_fmap. apply (HG f Hf). rewrite <-Ef.
  apply gmultiset_elem_of_disj_union. right. apply gmultiset_elem_of_disj_union. left. by apply gmultiset_elem_of_singleton.
Qed.

(** A fragment that may be stored. *)
Record storable (E : gmultiset Z) (st : state) (p : Z) (b : pbuf) (l : list (Z * pbuf)) (hdr ds : list Z) : Prop := {
  st_incoming : incoming E (low st) p b l hdr ds;
  st_hlen : h_hlen hdr = 20;
  st_len : h_len hdr = 20 + Z.of_nat (length ds);
  st_fragment : h_last hdr = true -> 0 < h_start hdr;
  st_size : Z.of_nat (length ds) <= PBUF_MAX * Z.of_nat (length ((p, b) :: l))
}.

Lemma queue_drop E p st nst' l1 d l2 : reass_inv ({[+ p +]} ⊎ E) st (l1 ++ d :: l2) -> (p ∉ E) -> (dfs d = [] -> l1 = []) ->
  touched [p] (held (all_frags (l1 ++ d :: l2)) ⊎ ({[+ p +]} ⊎ E)) (low st) nst' ->
  exists st', reass_nullreturn_ipr call_custom_free (da d) p (with_low st nst') = Ok (0, st') /\
    reass_inv E st' (l1 ++ nonempty d ++ l2) /\ passes E st st' /\ frames (low st') = frames (low st).
Proof.
  intros Hinv Hp Hl1 T. assert (Hpin : p ∈ {[+ p +]} ⊎ E) by (apply gmultiset_elem_of_disj_union; left; by apply gmultiset_elem_of_singleton).
  assert (Hinv1 := inv_touch _ _ _ _ _ Hinv Hpin T).
  destruct (nullreturn_ipr_spec E p _ l1 d l2 Hinv1 Hp Hl1) as (st' & En & Hi & P & F). exists st'. split; [done|]. split; [done|].
  split; [|rewrite F; apply T]. eapply passes_trans; [|eapply passes_mono; [|exact P]].
  - split; [|done]. eapply inv_leaves; [exact Hinv|done|]. eapply touched_weaken; [|exact T]. intros q ->%list_elem_of_singleton. by left.
  - intros x Hx. apply gmultiset_elem_of_disj_union. by right.
Qed.
(** The fragment [f] has its place in [fl]. *)
Lemma queue_store E p b l hdr ds st nst' l1 d l2 d' :
  let f := new_frag p b l hdr ds in
  reass_inv ({[+ p +]} ⊎ E) st (l1 ++ d :: l2) -> (p ∉ E) ->
  storable (held (all_frags (l1 ++ d :: l2)) ⊎ ({[+ p +]} ⊎ E)) st p b l hdr ds ->
  ip_reass_pbufcount st + Z.of_nat (length ((p, b) :: l)) <= IP_REASS_MAX_PBUFS ->
  dgram_add hdr f d = Some d' ->
  touched (p :: map fp (dfs d)) (held (all_frags (l1 ++ d :: l2)) ⊎ ({[+ p +]} ⊎ E)) (low st) nst' ->
  frags_ok (held (all_frags (l1 ++ d :: l2)) ⊎ ({[+ p +]} ⊎ E)) nst' (dfs d') ->
  exists r st', (st ← get; _ ← set_pbufcount (u16 (ip_reass_pbufcount st + Z.of_nat (length ((p, b) :: l))));
      _ ← (if h_last hdr then rd_upd (da d) (fun r => with_rd_last r (u16 (h_start hdr + Z.of_nat (length ds)))) else mret tt);
      if complete d' then reass_finish (da d) else mret 0)
      (with_reassdata (with_low st nst') (<[da d := with_rd_p (entry d (head_da l2)) (head_frag (dfs d'))]> (reassdata st))) = Ok (r, st') /\
    queue_result E hdr f l1 d l2 r st' /\ passes E st st' /\ frames (low st') = frames (low st).
Proof.
  intros f Hinv Hp [Hin Hhl Hle Hfr Hsz] Hroom Eadd T Hfl'. destruct (r_count _ _ _ Hinv) as [Hc Hm].
  pose proof (pbuf_sum_nonneg (all_frags (l1 ++ d :: l2))). unfold IP_REASS_MAX_PBUFS in *.
  set (st1 := with_reassdata (with_low st nst') _).
  destruct (store_run st1 d d' (head_da l2) hdr f (Z.of_nat (length ((p, b) :: l))) (fun _ => if complete d' then reass_finish (da d) else mret 0))
    as (st2 & Erun & Hd2 & Hc2 & El2 & Hli2 & Hpo2 & Hdf2 & Hid2 & Hip2); [done|done|simpl; lia|lia|simpl in *; lia|apply lookup_insert_eq|].
  change (length (fd f)) with (length ds) in Erun. rewrite Erun. clear Erun. assert (Hpe : dfs d' ≡ₚ f :: dfs d /\ da d' = da d /\ dkey d' = dkey d /\ dlast d' = h_last hdr || dlast d).
  { unfold dgram_add in Eadd. destruct (too_long _ _); [done|]. destruct (enqueue f (dfs d)) eqn:Een; [|done]. injection Eadd as <-.
    split; [by apply enqueue_perm|done]. }
  destruct Hpe as (Hpe & Ea & Ek & Ela).
  pose proof (r_wf _ _ _ Hinv) as Hwf. apply middle_forall in Hwf as [Hwf _].
  assert (Hwf' : dgram_wf d') by (eapply dgram_add_wf; done).
  assert (Hinv2 : reass_inv E st2 (l1 ++ d' :: l2)).
  { apply (inv_store E st nst' st2 l1 d d' l2 f); try done.
    - unfold IP_REASS_MAX_PBUFS. simpl in *. lia.
    - rewrite Hd2. simpl. apply insert_insert_eq.
    - rewrite Hc2. simpl. by rewrite Hc. }
  assert (P2 : passes E st st2) by (split; [rewrite El2; by eapply inv_leaves|done]).
  assert (F2 : frames (low st2) = frames (low st)) by (rewrite El2; apply T).
  unfold queue_result. rewrite Eadd. destruct (complete d') eqn:Eco; [|by exists 0, st2].
  destruct (dfs d') as [|g gl] eqn:Egl; [by apply Permutation_nil_cons in Hpe|].
  unfold complete in Eco. apply andb_prop in Eco as [Ecl _].
  destruct (reass_finish_spec E st2 l1 d' l2 g gl Hinv2 Egl Ecl) as (st' & b' & m & Ef & Hi & P & F & Hre).
  rewrite Ea in Ef. exists (fp g), st'. split; [done|]. split; [split; [done|]; split; [done|by exists b', m]|].
  split; [|by rewrite F]. eapply passes_trans; [exact P2|]. eapply passes_mono; [|exact P]. intros x Hx. apply gmultiset_elem_of_disj_union. by right.
Qed.
Lemma last_later p b l hdr ds d : dgram_wf d -> (h_last hdr = true -> 0 < h_start hdr) -> h_last hdr || dlast d = true ->
  exists x, x ∈ new_frag p b l hdr ds :: dfs d /\ 0 < fs x.
Proof.
  intros Hwf Hfr Hla. destruct (h_last hdr); [eexists; split; [by left|by apply Hfr]|].
  destruct (d_last _ Hwf Hla) as [_ (x & Hx & ?)]. exists x. split; [by right|done].
Qed.
Lemma reass_queue_spec E p b l hdr ds st l1 d l2 :
  let f := new_frag p b l hdr ds in
  reass_inv ({[+ p +]} ⊎ E) st (l1 ++ d :: l2) -> (p ∉ E) ->
  storable (held (all_frags (l1 ++ d :: l2)) ⊎ ({[+ p +]} ⊎ E)) st p b l hdr ds -> (dfs d = [] -> l1 = []) ->
  ip_reass_pbufcount st + Z.of_nat (length ((p, b) :: l)) <= IP_REASS_MAX_PBUFS ->
  exists r st', reass_queue call_custom_free (da d) p (payload b) (h_start hdr) (Z.of_nat (length ds)) (Z.of_nat (length ((p, b) :: l))) st = Ok (r, st') /\
    queue_result E hdr f l1 d l2 r st' /\ passes E st st' /\ frames (low st') = frames (low st).
Proof.
  intros f Hinv Hp Hst Hl1 Hroom. pose proof Hst as [Hin Hhl Hle Hfr Hsz]. pose proof (r_link _ _ _ Hinv) as H. pose proof (r_queue _ _ _ Hinv) as Hq.
  destruct (incoming_region _ _ _ _ _ _ _ H Hin) as [Hb Hreg].
  assert (HR := fun B (k : Z -> M B) => header_reads st (payload b) hdr k Hreg (inc_hdr _ _ _ _ _ _ _ Hin)).
  unfold reass_queue. rewrite (proj1 (proj2 (proj2 (proj2 (HR _ _))))). fold (h_last hdr). fold (too_long hdr (Z.of_nat (length ds))).
  destruct (too_long hdr (Z.of_nat (length ds))) eqn:Etl.
  - destruct (queue_drop E p st (low st) l1 d l2 Hinv Hp Hl1) as (st' & En & Hi & P & F); [by apply touched_refl|].
    exists 0, st'. split; [by destruct st|]. split; [|done]. unfold queue_result, dgram_add. simpl fd. by rewrite Etl.
  - assert (Hr : reassdata st !! da d = Some (entry d (head_da l2))) by (rewrite (q_data _ _ Hq); apply entries_lookup, Hq).
    pose proof (r_frags _ _ _ Hinv) as Hfs. apply middle_forall in Hfs as [Hfs _].
    pose proof (r_wf _ _ _ Hinv) as Hwf. apply middle_forall in Hwf as [Hwf _].
    assert (Hch := chain_spec _ st (da d) (entry d (head_da l2)) p b l hdr ds (dfs d) (h_last hdr) H Hr eq_refl Hfs Hin Hhl Hle (frag_fresh _ _ _ _ _ _ Hinv)).
    cbv zeta in Hch. rewrite flag_last in Hch. fold f in Hch.
    specialize (Hch (last_later _ _ _ _ _ _ Hwf Hfr)).
    destruct (enqueue f (dfs d)) as [fl|] eqn:Een.
    + destruct Hch as (nst' & Ec & T & Hfl). rewrite (st_bind_ok _ _ _ _ _ Ec). cbv iota beta.
      assert (Eadd : dgram_add hdr f d = Some {| da := da d; dhdr := dhdr d; dlen := if h_last hdr then h_start hdr + Z.of_nat (length ds) else dlen d;
               dlast := h_last hdr || dlast d; dtimer := dtimer d; dfs := fl |}) by (unfold dgram_add; simpl fd; rewrite Etl, Een; done).
      apply (queue_store E p b l hdr ds st nst' l1 d l2 _ Hinv Hp Hst Hroom Eadd T Hfl).
    + destruct Hch as (nst' & Ec & T). rewrite (st_bind_ok _ _ _ _ _ Ec).
      destruct (queue_drop E p st nst' l1 d l2 Hinv Hp Hl1 T) as (st' & En & Hi & P & F).
      exists 0, st'. split; [done|]. split; [|done]. unfold queue_result, dgram_add. simpl fd. by rewrite Etl, Een.
Qed.
End reassemble.
