(* ===== verification/Reassembly.v ===== *)
(** * IPv4: reassembly

    [ip4_reass] and [ip_reass_tmr] as a whole: the datagrams a fragment may displace,
    the one it belongs to, and what becomes of it. *)

From stdpp Require Import gmultiset.
From S2P Require Import Prelude Def Chksum Ip4Addr Memp Mem Pbuf PbufData PbufHeap PbufSole Ethernet Link Acd Etharp EtharpIo Ip4 Icmp Reass ReassOk ReassQueue ReassIn.

Set Default Proof Using "Type".

(** What tells datagrams apart. *)
Definition hkey (hdr : list Z) : Z * Z * Z := (h_src hdr, h_dest hdr, h_id hdr).
Definition same_key (hdr : list Z) (d : dgram) : bool := bool_decide (dkey d = hkey hdr).

(** Among [ds], those that [hdr] does not belong to. *)
Definition others (hdr : list Z) (ds : list dgram) : list dgram := List.filter (fun d => negb (same_key hdr d)) ds.
(** [ds'] is left after some of the others have been given up, each the oldest in its turn. *)
Inductive evicts (hdr : list Z) : list dgram -> list dgram -> Prop :=
| evicts_none ds : evicts hdr ds ds
| evicts_oldest l1 d l2 ds' :
    same_key hdr d = false -> (forall d', d' ∈ others hdr (l1 ++ d :: l2) -> dtimer d <= dtimer d') ->
    evicts hdr (l1 ++ l2) ds' -> evicts hdr (l1 ++ d :: l2) ds'.

Lemma evicts_sub hdr ds ds' : evicts hdr ds ds' -> forall d, d ∈ ds' -> d ∈ ds.
Proof.
  induction 1 as [|l1 d l2 ds' _ _ _ IH]; [done|]. intros d' Hd'. apply IH, elem_of_app in Hd' as [?|?]; apply elem_of_app; [by left|right; by right].
Qed.
Lemma evicts_keeps hdr ds ds' : evicts hdr ds ds' -> forall d, d ∈ ds -> same_key hdr d = true -> d ∈ ds'.
Proof.
  induction 1 as [|l1 d l2 ds' Hk _ _ IH]; [done|]. intros d' Hd' Hk'. apply IH; [|done]. apply elem_of_app in Hd' as [?|Hd']; apply elem_of_app; [by left|].
  apply elem_of_cons in Hd' as [->|?]; [congruence|by right].
Qed.
Lemma others_remove hdr l1 d l2 : same_key hdr d = false -> length (others hdr (l1 ++ d :: l2)) = Datatypes.S (length (others hdr (l1 ++ l2))).
Proof. intros Hk. unfold others. rewrite !List.filter_app. simpl. rewrite Hk. simpl. rewrite !length_app. simpl. lia. Qed.

Section reassembly.
Context {S R : Type} `{!PbufAlloc S} `{!FragPool S} `{!Pool R}.
Abbreviation state := (@ipnet S R).
Abbreviation net := (@Ethernet.net S).
Abbreviation M := (ST state).
Context {Link : LinkDriver}.
Implicit Types nst : net.

(** ** The fragment that has arrived stays as it is *)

Lemma incoming_leaves E E' nst nst' p b l hdr ds : link_ok E nst -> incoming E nst p b l hdr ds ->
  (forall x, multiplicity x E' <= multiplicity x E)%nat -> multiplicity p E' = 1%nat -> leaves E' nst nst' ->
  exists b' l', incoming E' nst' p b' l' hdr ds /\ payload b' = payload b /\ len b' = len b /\ length l' = length l.
Proof.
  intros H [Hs Hso Hct Hlb Hd Hl Hby Hh Hpr Ha] HE Hm [C P _ _ _]. assert (Hp : private E' nst p) by (by apply held_private).
  set (lf := (p, b) :: l) in *. assert (Hsp : forall x, x ∈ addrs lf -> spared x (pm nst) (pm nst') /\ indeg (pbufs (pm nst')) x <= indeg (pbufs (pm nst)) x).
  { intros x Hx. apply C. exists lf. split; [apply Hs|]. split; [exact Hp|done]. }
  destruct (packet_spared (pm nst) (pm nst') lf (proj1 Hs)) as (lf' & Hp' & H2); [intros x Hx; by apply Hsp|].
  destruct (same_pbuf_total _ _ H2) as (Et & Eh & Ea). assert (Hso' := same_pbuf_solid _ _ H2 Hso).
  assert (Hd' : data (pm nst') lf' = data (pm nst) lf).
  { eapply spared_data; try done; [apply H|apply C|intros x Hx; by apply Hsp|apply Hs]. }
  assert (Hl' : length lf' = length lf) by (symmetry; by eapply Forall2_length).
  destruct lf' as [|[a b'] l']; [done|]. pose proof (Forall2_cons_1 _ _ _ _ _ H2) as [[Ea' [r Eb]] _].
  simpl in Ea', Eb. subst a b'. exists (with_ref b r), l'. split; [|split; [done|split; [done|simpl in Hl'; lia]]].
  split; try done; [|by rewrite Hd'|by apply P].
  eapply sole_kept; [exact Hs|done|done|intros x Hx; by apply Hsp|].
  intros x Hx. pose proof (proj2 (proj2 Hs) x Hx). specialize (HE x). lia.
Qed.

(** ** The datagram a fragment belongs to *)

Lemma match_bind {B} (st : state) A x hdr (k : bool -> M B) : region (pm (low st)) x hdr -> length hdr = 20%nat ->
  (addresses_and_id_match A x ≫= k) st = k (bool_decide (hkey A = hkey hdr)) st.
Proof.
  intros Hr Hl. apply st_bind_ok. unfold addresses_and_id_match.
  assert (HR := fun B (k : Z -> M B) => header_reads st x hdr k Hr Hl).
  rewrite (proj1 (proj2 (proj2 (proj2 (proj2 (proj2 (HR _ _))))))). unfold hkey, ip4_addr_eq. fold (h_src A) (h_dest A) (h_id A).
  destruct (Z.eqb_spec (h_src A) (h_src hdr)) as [E1|E1]; simpl; [|rewrite bool_decide_eq_false_2 by congruence; done].
  rewrite (proj2 (proj2 (proj2 (proj2 (proj2 (proj2 (HR _ _))))))).
  destruct (Z.eqb_spec (h_dest A) (h_dest hdr)) as [E2|E2]; simpl; [|rewrite bool_decide_eq_false_2 by congruence; done].
  rewrite (proj1 (proj2 (proj2 (HR _ _)))). unfold mret, st_ret. do 2 f_equal.
  destruct (Z.eqb_spec (h_id A) (h_id hdr)) as [E3|E3]; symmetry; [apply bool_decide_eq_true_2|apply bool_decide_eq_false_2]; congruence.
Qed.
Lemma queue_entry (st : state) l1 d l2 : queue_ok st (l1 ++ d :: l2) -> da d <> 0 /\ reassdata st !! da d = Some (entry d (head_da l2)).
Proof.
  intros Hq. pose proof (q_nonzero _ _ Hq) as Hnz. apply middle_forall in Hnz as [Hnz _]. split; [done|].
  rewrite (q_data _ _ Hq). apply entries_lookup, Hq.
Qed.
Definition hit (st : state) : state :=
  with_ip_stats st (fun x => if decide (x = ip_frag_cachehit) then u16 (ip_stats st ip_frag_cachehit + 1) else ip_stats st x).
Lemma match_loop_spec (st : state) x hdr : region (pm (low st)) x hdr -> length hdr = 20%nat ->
  forall ds l0 fuel, queue_ok st (l0 ++ ds) -> (length ds < fuel)%nat ->
  match_loop fuel x (head_da ds) st =
    Ok (match List.find (same_key hdr) ds with Some d => (da d, hit st) | None => (0, st) end).
Proof.
  intros Hr Hl ds. induction ds as [|d ds IH]; intros l0 fuel Hq Hfu; (destruct fuel as [|fuel]; [simpl in Hfu; lia|]); [done|].
  destruct (queue_entry _ _ _ _ Hq) as [Hnz He]. cbn [match_loop head_da]. rewrite (proj2 (Z.eqb_neq (da d) 0)) by done.
  rewrite (rd_get_bind _ _ _ _ He). cbn [entry rd_iphdr rd_next]. rewrite (match_bind _ _ _ hdr) by done.
  cbn [List.find]. unfold same_key at 1. change (hkey (dhdr d)) with (dkey d). destruct (bool_decide _); [done|].
  apply (IH (l0 ++ [d])); [by rewrite <-app_assoc|simpl in Hfu; lia].
Qed.

(** ** The oldest datagram *)

(** [d] is the oldest of the others in [ds], and [prev] is the entry before it. *)
Definition oldest_in (hdr : list Z) (ds : list dgram) (o prev : Z) : Prop :=
  match others hdr ds with
  | [] => o = 0 /\ prev = 0
  | _ => exists l1 d l2, ds = l1 ++ d :: l2 /\ o = da d /\ prev = prev_da l1 /\ same_key hdr d = false /\
         forall d', d' ∈ others hdr ds -> dtimer d <= dtimer d'
  end.
Lemma others_snoc hdr ds d : others hdr (ds ++ [d]) = others hdr ds ++ (if same_key hdr d then [] else [d]).
Proof. unfold others. rewrite List.filter_app. simpl. by destruct (same_key hdr d). Qed.
Lemma oldest_step hdr (st : state) l0 d ds o prev : queue_ok st (l0 ++ d :: ds) -> oldest_in hdr l0 o prev -> same_key hdr d = false ->
  exists o' prev', (if o =? 0 then mret (da d, prev_da l0, Z.of_nat (length (others hdr l0)) + 1)
    else od ← rd_get o; if dtimer d <=? rd_timer od then mret (da d, prev_da l0, Z.of_nat (length (others hdr l0)) + 1)
         else mret (o, prev, Z.of_nat (length (others hdr l0)) + 1)) st
    = Ok ((o', prev', Z.of_nat (length (others hdr (l0 ++ [d])))), st) /\ oldest_in hdr (l0 ++ [d]) o' prev'.
Proof.
  intros Hq Ho Hk. unfold oldest_in in *. rewrite others_snoc, Hk, length_app. simpl length.
  destruct (others hdr l0) as [|x xs] eqn:Eo.
  - destruct Ho as [-> ->]. exists (da d), (prev_da l0). split; [done|]. exists l0, d, []. repeat (split; [done|]).
    by intros d' ->%list_elem_of_singleton.
  - destruct Ho as (l1 & d0 & l2 & -> & -> & -> & Hk0 & Hmin). rewrite <-app_assoc in Hq. destruct (queue_entry _ _ _ _ Hq) as [Hnz He].
    rewrite (proj2 (Z.eqb_neq _ _) Hnz), (rd_get_bind _ _ _ _ He). cbn [entry rd_timer].
    destruct (dtimer d <=? dtimer d0) eqn:Et; eexists _, _; (split; [unfold mret, st_ret; do 3 f_equal; lia|]); simpl.
    + exists (l1 ++ d0 :: l2), d, []. repeat (split; [done|]). intros d' [Hd|Hd%list_elem_of_singleton]%(elem_of_app (x :: xs)); [|by subst].
      specialize (Hmin d' Hd). lia.
    + exists l1, d0, (l2 ++ [d]). split; [by rewrite <-app_assoc|]. repeat (split; [done|]).
      intros d' [Hd|Hd%list_elem_of_singleton]%(elem_of_app (x :: xs)); [by apply Hmin|subst; lia].
Qed.
Lemma oldest_skip hdr l0 d o prev : oldest_in hdr l0 o prev -> same_key hdr d = true -> oldest_in hdr (l0 ++ [d]) o prev.
Proof.
  intros Ho Hk. unfold oldest_in in *. rewrite others_snoc, Hk, app_nil_r. destruct (others hdr l0) as [|x xs]; [done|].
  destruct Ho as (l1 & d0 & l2 & -> & Ho). exists l1, d0, (l2 ++ [d]). split; [by rewrite <-app_assoc|done].
Qed.
Lemma oldest_loop_spec (st : state) x hdr : region (pm (low st)) x hdr -> length hdr = 20%nat ->
  forall ds l0 fuel o op, queue_ok st (l0 ++ ds) -> (length ds < fuel)%nat -> oldest_in hdr l0 o op ->
  exists o' op', oldest_loop fuel x (head_da ds) (prev_da l0) o op (Z.of_nat (length (others hdr l0))) st
    = Ok ((o', op', Z.of_nat (length (others hdr (l0 ++ ds)))), st) /\ oldest_in hdr (l0 ++ ds) o' op'.
Proof.
  intros Hr Hl ds. induction ds as [|d ds IH]; intros l0 fuel o op Hq Hfu Ho; (destruct fuel as [|fuel]; [simpl in Hfu; lia|]).
  - exists o, op. by rewrite app_nil_r.
  - destruct (queue_entry _ _ _ _ Hq) as [Hnz He]. cbn [oldest_loop head_da]. rewrite (proj2 (Z.eqb_neq (da d) 0)) by done.
    rewrite (rd_get_bind _ _ _ _ He). cbn [entry rd_iphdr rd_next rd_timer]. rewrite (match_bind _ _ _ hdr) by done.
    change (hkey (dhdr d)) with (dkey d). fold (same_key hdr d). change (d :: ds) with ([d] ++ ds) in Hq. rewrite app_assoc in Hq.
    assert (Hprev : forall o op n, oldest_loop fuel x (head_da ds) (if negb (head_da ds =? 0) then da d else prev_da l0) o op n st
      = oldest_loop fuel x (head_da ds) (prev_da (l0 ++ [d])) o op n st).
    { intros o1 op1 n. rewrite prev_da_snoc. destruct ds as [|d1 ds]; [by destruct fuel|]. destruct (queue_entry _ _ _ _ Hq) as [Hn1 _].
      simpl. by rewrite (proj2 (Z.eqb_neq _ _) Hn1). }
    destruct (same_key hdr d) eqn:Ek.
    + rewrite (st_bind_ok _ _ _ (o, op, Z.of_nat (length (others hdr l0))) st) by done. cbv iota beta. rewrite Hprev.
      destruct (IH (l0 ++ [d]) fuel o op) as (o' & op' & Er & Ho'); [done|simpl in Hfu; lia|by apply oldest_skip|].
      rewrite others_snoc, Ek, app_nil_r in Er. rewrite <-app_assoc in Er, Ho'. by exists o', op'.
    + destruct (oldest_step hdr st l0 d ds o op) as (o1 & op1 & E1 & Ho1); [by rewrite <-app_assoc in Hq|done|done|].
      rewrite (st_bind_ok _ _ _ _ _ E1). cbv iota beta. rewrite Hprev.
      destruct (IH (l0 ++ [d]) fuel o1 op1) as (o' & op' & Er & Ho'); [done|simpl in Hfu; lia|done|].
      rewrite <-app_assoc in Er, Ho'. by exists o', op'.
Qed.

Context (call_custom_free : Z -> Z -> ST (@pstate S) unit) (garbage : Z -> Z).
Context (ipfrag_free_fn : Z).

(** A fragment in memory: its first pbuf starts at [x] and has [c] bytes, and [k] pbufs follow. *)
Definition waiting (E : gmultiset Z) (nst : net) (p : Z) (x : ptr) (c : Z) (k : nat) (hdr ds : list Z) : Prop :=
  exists b l, incoming E nst p b l hdr ds /\ payload b = x /\ len b = c /\ length l = k.
Lemma waiting_leaves E E' nst nst' p x c k hdr ds : link_ok E nst -> waiting E nst p x c k hdr ds ->
  (forall x, multiplicity x E' <= multiplicity x E)%nat -> multiplicity p E' = 1%nat -> leaves E' nst nst' -> waiting E' nst' p x c k hdr ds.
Proof.
  intros H (b & l & Hi & <- & <- & <-) HE Hm L. destruct (incoming_leaves _ _ _ _ _ _ _ _ _ H Hi HE Hm L) as (b' & l' & Hi' & E1 & E2 & E3).
  by exists b', l'.
Qed.
Lemma waiting_region E (st : state) p x c k hdr ds : link_ok E (low st) -> waiting E (low st) p x c k hdr ds ->
  region (pm (low st)) x hdr /\ length hdr = 20%nat.
Proof.
  intros H (b & l & Hi & <- & _). destruct (incoming_region _ _ _ _ _ _ _ H Hi) as [_ Hr]. split; [done|]. apply Hi.
Qed.
Lemma own_multiplicity E p st ds : reass_inv ({[+ p +]} ⊎ E) st ds -> p ∉ E -> multiplicity p (held (all_frags ds) ⊎ ({[+ p +]} ⊎ E)) = 1%nat.
Proof. intros Hinv Hp. rewrite own_once. apply multiplicity_own. by eapply inv_not_held. Qed.

Lemma remove_oldest_spec E p x c k hdr dp needed : p ∉ E -> forall fuel n st ds,
  reass_ok ({[+ p +]} ⊎ E) st ds -> waiting (held (all_frags ds) ⊎ ({[+ p +]} ⊎ E)) (low st) p x c k hdr dp ->
  (length (others hdr ds) < fuel)%nat ->
  exists n' st' ds', remove_oldest_loop call_custom_free garbage ipfrag_free_fn fuel x needed n st = Ok (n', st') /\
    reass_ok ({[+ p +]} ⊎ E) st' ds' /\ waiting (held (all_frags ds') ⊎ ({[+ p +]} ⊎ E)) (low st') p x c k hdr dp /\
    evicts hdr ds ds' /\ passes ({[+ p +]} ⊎ E) st st'.
Proof.
  intros Hp. induction fuel as [|fuel IH]; intros n st ds [Hinv Hne] Hw Hfu; [lia|].
  pose proof (r_link _ _ _ Hinv) as H. pose proof (r_queue _ _ _ Hinv) as Hq. destruct (waiting_region _ _ _ _ _ _ _ _ H Hw) as [Hr Hl].
  cbn [remove_oldest_loop]. rewrite get_bind, (rd_fuel_bind _ _ _ Hq), (q_list _ _ Hq).
  destruct (oldest_loop_spec st x hdr Hr Hl ds [] (Datatypes.S (length ds)) 0 0) as (o & op & Eo & Ho); [done|lia|done|].
  simpl app in Eo, Ho. change (prev_da []) with 0 in Eo. change (Z.of_nat (length (others hdr []))) with 0 in Eo.
  rewrite (st_bind_ok _ _ _ _ _ Eo). cbv iota beta. unfold oldest_in in Ho. destruct (others hdr ds) as [|y ys] eqn:Eot.
  - destruct Ho as [-> ->]. change (0 =? 0) with true. cbn [negb]. rewrite (st_bind_ok _ _ _ n st) by done.
    change (1 <? Z.of_nat (length [])) with false. rewrite andb_false_r. exists n, st, ds. split; [done|]. split; [done|]. split; [done|].
    split; [constructor|apply passes_refl].
  - destruct Ho as (l1 & d & l2 & -> & -> & -> & Hk & Hmin). destruct (queue_entry _ _ _ _ Hq) as [Hnz _].
    rewrite (proj2 (Z.eqb_neq _ _) Hnz). cbn [negb]. apply middle_forall in Hne as [Hd Hne]. destruct (dfs d) as [|f fl] eqn:Efs; [done|].
    destruct (free_complete_spec call_custom_free garbage ipfrag_free_fn _ st l1 d l2 f fl Hinv Efs) as (st1 & Ef & Hinv1 & P1 & _).
    rewrite (st_bind_ok _ _ _ (n + pbuf_sum (dfs d)) st1) by (by rewrite (st_bind_ok _ _ _ _ _ Ef)).
    assert (Hw1 : waiting (held (all_frags (l1 ++ l2)) ⊎ ({[+ p +]} ⊎ E)) (low st1) p x c k hdr dp).
    { eapply waiting_leaves; [exact H|exact Hw| |by eapply own_multiplicity|apply P1]. intros z. rewrite held_middle, !multiplicity_disj_union. lia. }
    assert (P1' : passes ({[+ p +]} ⊎ E) st st1).
    { eapply passes_mono; [|exact P1]. intros z Hz. apply gmultiset_elem_of_disj_union. by right. }
    rewrite <-Eot in *. pose proof (others_remove hdr l1 d l2 Hk) as Hlen.
    destruct (_ && _).
    + destruct (IH (n + pbuf_sum (dfs d)) st1 (l1 ++ l2)) as (n' & st' & ds' & Er & Hok & Hw' & Hev & P); [done|done|lia|].
      exists n', st', ds'. split; [done|]. split; [done|]. split; [done|]. split; [by eapply evicts_oldest|by eapply passes_trans].
    + exists (n + pbuf_sum (dfs d)), st1, (l1 ++ l2). split; [done|]. split; [done|]. split; [done|].
      split; [eapply evicts_oldest; [done|done|constructor]|done].
Qed.

(** ** The entry for a new datagram *)

Definition new_dgram (a : Z) (hdr : list Z) : dgram :=
  {| da := a; dhdr := hdr; dlen := 0; dlast := false; dtimer := IP_REASS_MAXAGE; dfs := [] |}.
Lemma inv_new E st st' a hdr ds : reass_inv E st ds -> a <> 0 -> (a ∉ map da ds) -> List.find (same_key hdr) ds = None ->
  length hdr = 20%nat -> bytes hdr -> low st' = low st -> reassdata st' = <[a := entry (new_dgram a hdr) (head_da ds)]> (reassdata st) ->
  reassdatagrams st' = a -> pool_ok ({[a]} ∪ list_to_set (map da ds)) (reass_pool st') -> netif_default st' = netif_default st ->
  ip_id st' = ip_id st -> ip_reass_pbufcount st' = ip_reass_pbufcount st -> reass_inv E st' (new_dgram a hdr :: ds).
Proof.
  intros [Hl Hf Ho Hq Hw Hk Hc Hi Hd] Ha Hn Hfi Hlh Hbh El Hda Hli Hpo Hdf Hid Hco.
  assert (Eall : all_frags (new_dgram a hdr :: ds) = all_frags ds) by done.
  split; rewrite ?Eall, ?El, ?Hid, ?Hco; try done.
  - by constructor.
  - destruct Hq as [Q1 Q2 Q3 Q4 Q5]. split; try done; [by rewrite Hda, Q2|by constructor|by constructor].
  - constructor; [|done]. by split.
  - simpl. apply NoDup_cons. split; [|done]. intros (d & Ed & Hin)%list_elem_of_fmap.
    pose proof (List.find_none _ _ Hfi d (proj1 (list_elem_of_In _ _) Hin)) as Hno.
    unfold same_key in Hno. by rewrite bool_decide_eq_true_2 in Hno.
  - eapply interfaces_kept; [done|by rewrite El|done].
Qed.

Lemma evicts_find hdr ds ds' : evicts hdr ds ds' -> List.find (same_key hdr) ds = None -> List.find (same_key hdr) ds' = None.
Proof.
  intros Hev Hno. destruct (List.find (same_key hdr) ds') as [d|] eqn:E; [|done]. apply List.find_some in E as [Hin Hk].
  apply list_elem_of_In, (evicts_sub _ _ _ Hev), list_elem_of_In in Hin. by rewrite (List.find_none _ _ Hno d Hin) in Hk.
Qed.
(** [memp_malloc(MEMP_REASSDATA)]. *)
Lemma reass_malloc_spec (st : state) ds : queue_ok st ds -> exists a s, reass_malloc st = Ok (a, with_reass_pool st s) /\
  if decide (length ds < pool_cap)%nat then a <> 0 /\ (a ∉ map da ds) /\ pool_ok ({[a]} ∪ list_to_set (map da ds)) s
  else a = 0 /\ pool_ok (list_to_set (map da ds)) s.
Proof.
  intros Hq. destruct (pool_malloc_law _ _ (q_pool _ _ Hq)) as (a & s & Em & Hm). exists a, s. unfold reass_malloc. rewrite Em.
  split; [done|]. rewrite size_list_to_set, length_map in Hm by apply Hq. destruct (decide _); [|done]. destruct Hm as (? & Hn & ?).
  rewrite elem_of_list_to_set in Hn. done.
Qed.
Lemma inv_pool E (st : state) s ds : reass_ok E st ds -> pool_ok (list_to_set (map da ds)) s -> reass_ok E (with_reass_pool st s) ds.
Proof. intros [[Hl Hf Ho [Q1 Q2 Q3 Q4 _] Hw Hk Hc Hi Hd] Hne] Hp. split; [|done]. by split; try done. Qed.

(** The entry is filled in. *)
Lemma new_entry_spec E p x c k hdr dp (st : state) s a ds : reass_ok ({[+ p +]} ⊎ E) st ds ->
  waiting (held (all_frags ds) ⊎ ({[+ p +]} ⊎ E)) (low st) p x c k hdr dp -> List.find (same_key hdr) ds = None ->
  a <> 0 -> (a ∉ map da ds) -> pool_ok ({[a]} ∪ list_to_set (map da ds)) s ->
  exists st', (if a =? 0 then _ ← IP_STATS_INC ip_frag_memerr; mret 0
    else
      st ← get;
      iphdr ← on_pb (read_mem (ptr_add x 0) IP_HLEN);
      _ ← (fun st => Ok (tt, with_reassdata st (<[a := {| rd_next := reassdatagrams st; rd_p := 0; rd_iphdr := iphdr;
           rd_datagram_len := 0; rd_flags := 0; rd_timer := IP_REASS_MAXAGE |}]> (reassdata st))));
      _ ← set_reassdatagrams a;
      mret a) (with_reass_pool st s) = Ok (a, st') /\
    reass_inv ({[+ p +]} ⊎ E) st' (new_dgram a hdr :: ds) /\ low st' = low st /\ netif_default st' = netif_default st /\ ip_data st' = ip_data st.
Proof.
  intros [Hinv Hne] Hw Hfi Ha Hn Hpo. destruct (waiting_region _ st _ _ _ _ _ _ (r_link _ _ _ Hinv) Hw) as [Hr Hl].
  rewrite (proj2 (Z.eqb_neq a 0)) by done. rewrite get_bind. rewrite (region_bind (with_reass_pool st s) x hdr) by (done || unfold IP_HLEN; lia).
  rewrite (slice_whole hdr) by (unfold IP_HLEN; lia). eexists. split; [done|]. split; [|done].
  pose proof (r_queue _ _ _ Hinv) as Hq.
  eapply inv_new; [exact Hinv|done|done|done|done| |done| |done|done|done|done|done].
  - destruct Hw as (b & l & Hi & _). pose proof (inc_bytes _ _ _ _ _ _ _ Hi) as Hb. by apply Forall_app in Hb as [? _].
  - simpl. by rewrite (q_list _ _ Hq).
Qed.

Lemma others_length hdr ds : (length (others hdr ds) <= length ds)%nat.
Proof. apply List.filter_length_le. Qed.
(** What enqueueing a new datagram leaves. *)
Definition enqueued (E : gmultiset Z) (hdr : list Z) (ds' : list dgram) (a : Z) (st' : state) : Prop :=
  (a = 0 /\ reass_ok E st' ds') \/ (a <> 0 /\ reass_inv E st' (new_dgram a hdr :: ds') /\ Forall (fun d => dfs d <> []) ds').
Lemma reass_ok_stats E (st : state) f ds : reass_ok E st ds -> reass_ok E (with_ip_stats st f) ds.
Proof. intros [[Hl Hf Ho [] Hw Hk Hc Hi Hd] Hne]. split; [|done]. by split. Qed.

(** An entry is asked for, and filled in if there is one. *)
Lemma malloc_entry_spec E p x c k hdr dp (st : state) ds : reass_ok ({[+ p +]} ⊎ E) st ds ->
  waiting (held (all_frags ds) ⊎ ({[+ p +]} ⊎ E)) (low st) p x c k hdr dp -> List.find (same_key hdr) ds = None ->
  exists a s, reass_malloc st = Ok (a, with_reass_pool st s) /\ (a = 0 -> (pool_cap <= length ds)%nat) /\
    (a = 0 -> reass_ok ({[+ p +]} ⊎ E) (with_reass_pool st s) ds) /\
    exists st', (if a =? 0 then _ ← IP_STATS_INC ip_frag_memerr; mret 0
    else
      st ← get;
      iphdr ← on_pb (read_mem (ptr_add x 0) IP_HLEN);
      _ ← (fun st => Ok (tt, with_reassdata st (<[a := {| rd_next := reassdatagrams st; rd_p := 0; rd_iphdr := iphdr;
           rd_datagram_len := 0; rd_flags := 0; rd_timer := IP_REASS_MAXAGE |}]> (reassdata st))));
      _ ← set_reassdatagrams a;
      mret a) (with_reass_pool st s) = Ok (a, st') /\ enqueued ({[+ p +]} ⊎ E) hdr ds a st' /\
      low st' = low st /\ netif_default st' = netif_default st /\ ip_data st' = ip_data st.
Proof.
  intros Hok Hw Hfi. destruct (reass_malloc_spec st ds (r_queue _ _ _ (proj1 Hok))) as (a & s & Em & Hm). exists a, s. split; [done|].
  destruct (decide _) as [Hlt|Hge].
  - destruct Hm as (Ha & Hn & Hp). split; [done|]. split; [done|].
    destruct (new_entry_spec E p x c k hdr dp st s a ds Hok Hw Hfi Ha Hn Hp) as (st' & E1 & Hi & El & En & Eip).
    exists st'. split; [done|]. split; [|done]. right. split; [done|]. split; [done|]. apply Hok.
  - destruct Hm as [-> Hp]. split; [intros _; lia|]. split; [intros _; by apply inv_pool|]. eexists. split; [done|]. split; [|done].
    left. split; [done|]. by apply reass_ok_stats, inv_pool.
Qed.

Lemma enqueue_new_spec E p x c k hdr dp clen (st : state) ds : (p ∉ E) -> reass_ok ({[+ p +]} ⊎ E) st ds ->
  waiting (held (all_frags ds) ⊎ ({[+ p +]} ⊎ E)) (low st) p x c k hdr dp -> List.find (same_key hdr) ds = None ->
  exists a st' ds', ip_reass_enqueue_new_datagram call_custom_free garbage ipfrag_free_fn x clen st = Ok (a, st') /\
    enqueued ({[+ p +]} ⊎ E) hdr ds' a st' /\ evicts hdr ds ds' /\ passes ({[+ p +]} ⊎ E) st st' /\
    waiting (held (all_frags ds') ⊎ ({[+ p +]} ⊎ E)) (low st') p x c k hdr dp /\
    ((length ds < pool_cap)%nat -> ds' = ds /\ a <> 0).
Proof.
  intros Hp Hok Hw Hfi. unfold ip_reass_enqueue_new_datagram.
  destruct (malloc_entry_spec E p x c k hdr dp st ds Hok Hw Hfi) as (a & s & Em & Hfull & Hok0 & st' & Er & Hen & El & En & Eip).
  rewrite (st_bind_ok _ _ _ _ _ Em). destruct (a =? 0) eqn:Ea.
  2: { rewrite (st_bind_ok _ _ _ a (with_reass_pool st s)) by done. rewrite Ea. exists a, st', ds. split; [done|]. split; [done|]. split; [constructor|].
       split; [split; [rewrite El; apply leaves_refl|done]|]. split; [by rewrite El|]. intros _. split; [done|lia]. }
  assert (a = 0) as -> by lia. specialize (Hfull eq_refl). specialize (Hok0 eq_refl). clear Er Hen El En Eip st'.
  unfold ip_reass_remove_oldest_datagram.
  destruct (remove_oldest_spec E p x c k hdr dp clen Hp (Datatypes.S (length ds)) 0 (with_reass_pool st s) ds Hok0 Hw)
    as (n & st2 & ds2 & Eo & Hok2 & Hw2 & Hev & P2); [pose proof (others_length hdr ds); lia|].
  assert (Er2 : (rd_fuel ≫= fun fuel => remove_oldest_loop call_custom_free garbage ipfrag_free_fn fuel x clen 0) (with_reass_pool st s) = Ok (n, st2)).
  { by rewrite (rd_fuel_bind _ ds) by apply Hok0. }
  pose proof (evicts_find _ _ _ Hev Hfi) as Hfi2.
  assert (P : passes ({[+ p +]} ⊎ E) st st2) by exact P2.
  destruct (clen <=? n) eqn:Ecl.
  - destruct (malloc_entry_spec E p x c k hdr dp st2 ds2 Hok2 Hw2 Hfi2) as (a & s2 & Em2 & _ & _ & st' & Er & Hen & El & En & Eip).
    rewrite (st_bind_ok _ _ _ a (with_reass_pool st2 s2)) by (by rewrite (st_bind_ok _ _ _ _ _ Er2), Ecl).
    exists a, st', ds2. split; [exact Er|]. split; [done|]. split; [done|].
    split; [eapply passes_trans; [exact P|]; split; [rewrite El; apply leaves_refl|done]|]. split; [by rewrite El|lia].
  - rewrite (st_bind_ok _ _ _ 0 st2) by (by rewrite (st_bind_ok _ _ _ _ _ Er2), Ecl).
    eexists 0, _, ds2. split; [done|]. split; [left; split; [done|by apply reass_ok_stats]|]. split; [done|]. split; [exact P|]. split; [done|lia].
Qed.

(** ** A fragment arrives *)

(** Whether the header is that of a first fragment. *)
Definition h_first (hdr : list Z) : bool := Z.land (lwip_htons (le_val (slice 6 2 hdr))) IP_OFFMASK =? 0.
Definition with_dhdr (d : dgram) (hdr : list Z) : dgram :=
  {| da := da d; dhdr := hdr; dlen := dlen d; dlast := dlast d; dtimer := dtimer d; dfs := dfs d |}.
(** The header of the first fragment replaces the one kept for the datagram. *)
Definition rehead (hdr : list Z) (d : dgram) : dgram := if h_first hdr && negb (h_first (dhdr d)) then with_dhdr d hdr else d.
(** The fragment [f] with the header [hdr] goes to its datagram among [ds], or to a new one. *)
Definition processed (E : gmultiset Z) (hdr : list Z) (f : frag) (ds : list dgram) (r : Z) (st' : state) : Prop :=
  match List.find (same_key hdr) ds with
  | Some d => exists l1 l2, ds = l1 ++ d :: l2 /\ queue_result E hdr f l1 (rehead hdr d) l2 r st'
  | None => exists a, queue_result E hdr f [] (new_dgram a hdr) ds r st'
  end.

Lemma find_split {A} (P : A -> bool) l x : List.find P l = Some x -> exists l1 l2, l = l1 ++ x :: l2 /\ P x = true.
Proof.
  intros H. apply List.find_some in H as [Hin Hp]. apply list_elem_of_In, list_elem_of_split in Hin as (l1 & l2 & ->). by exists l1, l2.
Qed.
Lemma rehead_spec {B} E (st : state) l1 d l2 x hdr (k : unit -> M B) : reass_inv E st (l1 ++ d :: l2) -> region (pm (low st)) x hdr ->
  length hdr = 20%nat -> bytes hdr -> same_key hdr d = true ->
  exists st', (_ ← (if h_first hdr && negb (Z.land (lwip_htons (le_val (slice 6 2 (rd_iphdr (entry d (head_da l2)))))) IP_OFFMASK =? 0)
       then iphdr ← on_pb (read_mem (ptr_add x 0) IP_HLEN); rd_set (da d) (with_rd_iphdr (entry d (head_da l2)) iphdr) else mret tt); k tt) st = k tt st' /\
    reass_inv E st' (l1 ++ rehead hdr d :: l2) /\ low st' = low st /\ netif_default st' = netif_default st /\ ip_data st' = ip_data st /\
    ip_reass_pbufcount st' = ip_reass_pbufcount st.
Proof.
  intros Hinv Hr Hl Hb Hk. destruct (queue_entry _ _ _ _ (r_queue _ _ _ Hinv)) as [_ He]. cbn [entry rd_iphdr]. fold (h_first (dhdr d)).
  unfold rehead. destruct (_ && _); [|by exists st].
  pose proof (inv_update E st l1 d (with_dhdr d hdr) l2 Hinv eq_refl eq_refl) as Hu.
  eexists. split; [|split; [apply Hu|done]].
  - rewrite (st_bind_ok _ _ _ tt (with_reassdata st (<[da d := entry (with_dhdr d hdr) (head_da l2)]> (reassdata st)))); [done|].
    rewrite (region_bind st x hdr) by (done || unfold IP_HLEN; lia). rewrite (slice_whole hdr) by (unfold IP_HLEN; lia). by rewrite (rd_set_ok _ _ _ _ He).
  - unfold same_key in Hk. apply bool_decide_eq_true in Hk. by rewrite Hk.
  - pose proof (r_wf _ _ _ Hinv) as Hw. apply middle_forall in Hw as [Hw _]. destruct Hw. by split.
Qed.

Lemma evicts_sum hdr ds ds' : evicts hdr ds ds' -> pbuf_sum (all_frags ds') <= pbuf_sum (all_frags ds).
Proof.
  induction 1 as [|l1 d l2 ds' _ _ _ IH]; [done|]. rewrite (pbuf_sum_perm _ _ (all_frags_middle l1 d l2)), pbuf_sum_app.
  pose proof (pbuf_sum_nonneg (dfs d)). lia.
Qed.
(** A fragment that has been seen to have no options and the length it claims. *)
Record valid_frag (hdr dp : list Z) (k : nat) : Prop := {
  vf_hlen : h_hlen hdr = 20;
  vf_len : h_len hdr = 20 + Z.of_nat (length dp);
  vf_fragment : h_last hdr = true -> 0 < h_start hdr;
  vf_size : Z.of_nat (length dp) <= PBUF_MAX * Z.of_nat (Datatypes.S k)
}.
Lemma waiting_storable E (st : state) p x c k hdr dp : waiting E (low st) p x c k hdr dp -> valid_frag hdr dp k ->
  exists b l, storable E st p b l hdr dp /\ payload b = x /\ length ((p, b) :: l) = Datatypes.S k /\
    new_frag p b l hdr dp = {| fp := p; fs := h_start hdr; fd := dp; fn := Datatypes.S k; fk := c |}.
Proof.
  intros (b & l & Hi & <- & <- & <-) [H1 H2 H3 H4]. exists b, l. split; [by split|]. done.
Qed.
(** The fragment goes to the datagram [d]. *)
Lemma queue_to E p x c k hdr dp (st : state) l1 d l2 : (p ∉ E) ->
  reass_inv ({[+ p +]} ⊎ E) st (l1 ++ d :: l2) -> waiting (held (all_frags (l1 ++ d :: l2)) ⊎ ({[+ p +]} ⊎ E)) (low st) p x c k hdr dp ->
  valid_frag hdr dp k -> (dfs d = [] -> l1 = []) -> ip_reass_pbufcount st + Z.of_nat (Datatypes.S k) <= IP_REASS_MAX_PBUFS ->
  exists r st', reass_queue call_custom_free (da d) p x (h_start hdr) (Z.of_nat (length dp)) (Z.of_nat (Datatypes.S k)) st = Ok (r, st') /\
    queue_result E hdr {| fp := p; fs := h_start hdr; fd := dp; fn := Datatypes.S k; fk := c |} l1 d l2 r st' /\ passes E st st' /\
    frames (low st') = frames (low st).
Proof.
  intros Hp Hinv Hw Hv Hl1 Hroom. destruct (waiting_storable _ _ _ _ _ _ _ _ Hw Hv) as (b & l & Hst & <- & Hn & Ef).
  rewrite <-Ef, <-Hn. rewrite <-Hn in Hroom. by apply reass_queue_spec.
Qed.
Definition arrived_frag (p c : Z) (k : nat) (hdr dp : list Z) : frag :=
  {| fp := p; fs := h_start hdr; fd := dp; fn := Datatypes.S k; fk := c |}.

Lemma reass_match_spec E p x c k hdr dp (st : state) ds : (p ∉ E) -> reass_ok ({[+ p +]} ⊎ E) st ds ->
  waiting (held (all_frags ds) ⊎ ({[+ p +]} ⊎ E)) (low st) p x c k hdr dp -> valid_frag hdr dp k ->
  ip_reass_pbufcount st + Z.of_nat (Datatypes.S k) <= IP_REASS_MAX_PBUFS ->
  exists r st' ds1, reass_match call_custom_free garbage ipfrag_free_fn p x (h_start hdr) (Z.of_nat (length dp)) (Z.of_nat (Datatypes.S k)) st = Ok (r, st') /\
    evicts hdr ds ds1 /\ passes E st st' /\
    ((r = 0 /\ reass_ok E st' ds1) \/ processed E hdr (arrived_frag p c k hdr dp) ds1 r st') /\
    (is_Some (List.find (same_key hdr) ds) \/ (length ds < pool_cap)%nat ->
     ds1 = ds /\ processed E hdr (arrived_frag p c k hdr dp) ds1 r st').
Proof.
  intros Hp Hok Hw Hv Hroom. pose proof Hok as [Hinv Hne]. pose proof (r_queue _ _ _ Hinv) as Hq.
  destruct (waiting_region _ _ _ _ _ _ _ _ (r_link _ _ _ Hinv) Hw) as [Hr Hl].
  unfold reass_match. rewrite get_bind, (rd_fuel_bind _ _ _ Hq), (q_list _ _ Hq).
  assert (Em := match_loop_spec st x hdr Hr Hl ds [] (Datatypes.S (length ds)) Hq ltac:(lia)).
  unfold processed. destruct (List.find (same_key hdr) ds) as [d|] eqn:Efi; rewrite (st_bind_ok _ _ _ _ _ Em).
  - destruct (find_split _ _ _ Efi) as (l1 & l2 & -> & Hk). destruct (queue_entry _ _ _ _ Hq) as [Hnz He].
    rewrite (proj2 (Z.eqb_neq _ _) Hnz). assert (HR := fun B (g : Z -> M B) => header_reads (hit st) x hdr g Hr Hl).
    rewrite (proj1 (proj2 (proj2 (proj2 (HR _ _))))). rewrite (rd_get_bind _ (entry d (head_da l2))) by done. fold (h_first hdr).
    assert (Hb : bytes hdr) by (destruct Hw as (b & l & Hi & _); pose proof (inc_bytes _ _ _ _ _ _ _ Hi) as Hb; by apply Forall_app in Hb as [? _]).
    assert (Hinvh : reass_inv ({[+ p +]} ⊎ E) (hit st) (l1 ++ d :: l2)) by (by apply reass_ok_stats).
    destruct (rehead_spec _ (hit st) l1 d l2 x hdr (fun _ => reass_queue call_custom_free (da d) p x (h_start hdr) (Z.of_nat (length dp)) (Z.of_nat (Datatypes.S k))) Hinvh Hr Hl Hb Hk)
      as (st1 & E1 & Hinv1 & El1 & En1 & Ei1 & Ec1). rewrite E1. clear E1.
    assert (Edf : dfs (rehead hdr d) = dfs d /\ da (rehead hdr d) = da d) by (unfold rehead; by destruct (_ && _)). destruct Edf as [Edf Eda].
    assert (Eall : all_frags (l1 ++ rehead hdr d :: l2) = all_frags (l1 ++ d :: l2)) by (unfold all_frags; rewrite !bind_app; simpl; by rewrite Edf).
    apply middle_forall in Hne as [Hned _].
    destruct (queue_to E p x c k hdr dp st1 l1 (rehead hdr d) l2) as (r & st' & Eq & Hres & P & F); try done.
    + rewrite Eall, El1. exact Hw.
    + by rewrite Edf.
    + by rewrite Ec1.
    + rewrite Eda in Eq. exists r, st', (l1 ++ d :: l2). split; [exact Eq|]. split; [constructor|]. split.
      { eapply passes_trans; [|exact P]. split; [rewrite El1; apply leaves_refl|done]. }
      rewrite Efi. split; [right|intros _; split; [done|]]; by exists l1, l2.
  - change (0 =? 0) with true. cbv iota.
    destruct (enqueue_new_spec E p x c k hdr dp (Z.of_nat (Datatypes.S k)) st ds Hp Hok Hw Efi) as (a & st1 & ds1 & Ee & Hen & Hev & P & Hw1 & Hrm).
    rewrite (st_bind_ok _ _ _ _ _ Ee). pose proof (evicts_find _ _ _ Hev Efi) as Hfi1.
    assert (P' : passes E st st1) by (eapply passes_mono; [|exact P]; intros q Hq0; apply gmultiset_elem_of_disj_union; by right).
    destruct Hen as [[-> Hok1]|(Ha & Hinv1 & Hne1)].
    + change (0 =? 0) with true. cbv iota. destruct (nullreturn_spec call_custom_free E p st1 ds1 (proj1 Hok1) Hp) as (st' & En & Hi & P2 & F).
      exists 0, st', ds1. split; [done|]. split; [done|]. split.
      { eapply passes_trans; [exact P'|]. eapply passes_mono; [|exact P2]. intros q Hq0. apply gmultiset_elem_of_disj_union. by right. }
      split; [left; split; [done|split; [done|apply Hok1]]|]. intros [[? ?]|Hlt]; [done|]. by destruct (Hrm Hlt).
    + rewrite (proj2 (Z.eqb_neq _ _) Ha). pose proof (evicts_sum _ _ _ Hev) as Hsum.
      destruct (queue_to E p x c k hdr dp st1 [] (new_dgram a hdr) ds1) as (r & st' & Eq & Hres & P2 & F); try done.
      { destruct (r_count _ _ _ Hinv) as [Hc _], (r_count _ _ _ Hinv1) as [Hc1 _]. rewrite Hc1. simpl in Hc1 |- *.
        change (all_frags (new_dgram a hdr :: ds1)) with (all_frags ds1). lia. }
      exists r, st', ds1. split; [done|]. split; [done|]. split; [by eapply passes_trans|]. rewrite Hfi1.
      split; [right; by exists a|]. intros [[? ?]|Hlt]; [done|]. destruct (Hrm Hlt) as [-> _]. split; [done|by exists a].
Qed.

Lemma evicts_trans hdr ds1 ds2 ds3 : evicts hdr ds1 ds2 -> evicts hdr ds2 ds3 -> evicts hdr ds1 ds3.
Proof. induction 1 as [|l1 d l2 ds' Hk Hmin _ IH]; [done|]. intros H. by apply evicts_oldest; [..|apply IH]. Qed.
Lemma solid_length (l : list (Z * pbuf)) : solid l -> Z.of_nat (length l) <= total l.
Proof. induction 1 as [|[a b] l Hb _ IH]; simpl in *; lia. Qed.

(** The datagrams that have to make room. *)
Lemma make_room_spec E p x c k hdr dp (st : state) ds : (p ∉ E) -> reass_ok ({[+ p +]} ⊎ E) st ds ->
  waiting (held (all_frags ds) ⊎ ({[+ p +]} ⊎ E)) (low st) p x c k hdr dp ->
  exists (full : bool) st1 ds1, (if IP_REASS_MAX_PBUFS <? ip_reass_pbufcount st + Z.of_nat (Datatypes.S k) then
      n ← ip_reass_remove_oldest_datagram call_custom_free garbage ipfrag_free_fn x (Z.of_nat (Datatypes.S k));
      st ← get;
      mret ((n =? 0) || (IP_REASS_MAX_PBUFS <? ip_reass_pbufcount st + Z.of_nat (Datatypes.S k)))
    else mret false) st = Ok (full, st1) /\
    reass_ok ({[+ p +]} ⊎ E) st1 ds1 /\ waiting (held (all_frags ds1) ⊎ ({[+ p +]} ⊎ E)) (low st1) p x c k hdr dp /\
    evicts hdr ds ds1 /\ passes ({[+ p +]} ⊎ E) st st1 /\
    (full = false -> ip_reass_pbufcount st1 + Z.of_nat (Datatypes.S k) <= IP_REASS_MAX_PBUFS) /\
    (ip_reass_pbufcount st + Z.of_nat (Datatypes.S k) <= IP_REASS_MAX_PBUFS -> full = false /\ ds1 = ds).
Proof.
  intros Hp Hok Hw. destruct (IP_REASS_MAX_PBUFS <? ip_reass_pbufcount st + Z.of_nat (Datatypes.S k)) eqn:Ef.
  - unfold ip_reass_remove_oldest_datagram.
    destruct (remove_oldest_spec E p x c k hdr dp (Z.of_nat (Datatypes.S k)) Hp (Datatypes.S (length ds)) 0 st ds Hok Hw)
      as (n & st1 & ds1 & Eo & Hok1 & Hw1 & Hev & P); [pose proof (others_length hdr ds); lia|].
    eexists _, st1, ds1. split; [rewrite (st_bind_ok _ _ _ n st1) by (by rewrite (rd_fuel_bind _ ds) by apply Hok); done|].
    repeat (split; [done|]). split; [intros [_ ?]%orb_false_elim; lia|lia].
  - exists false, st, ds. repeat (split; [done|]). split; [constructor|]. split; [apply passes_refl|]. split; [lia|done].
Qed.

Lemma incoming_count E nst p b l hdr dp : link_ok E nst -> incoming E nst p b l hdr dp -> h_len hdr = 20 + Z.of_nat (length dp) ->
  packet (pbufs (pm nst)) ((p, b) :: l) /\ is_u16 (h_len hdr) /\ Z.of_nat (length ((p, b) :: l)) <= 0xffff.
Proof.
  intros H Hi Hl. pose proof (inc_bytes _ _ _ _ _ _ _ Hi) as Hb. apply Forall_app in Hb as [Hb _].
  pose proof (h_len_range hdr Hb) as Hu. destruct (inc_sole _ _ _ _ _ _ _ Hi) as [Hp _]. do 2 (split; [done|]).
  pose proof (packet_total _ _ _ _ _ (link_refs _ _ H) Hp (inc_data _ _ _ _ _ _ _ Hi) (inc_hdr _ _ _ _ _ _ _ Hi)) as Ht.
  pose proof (solid_length _ (inc_solid _ _ _ _ _ _ _ Hi)). unfold is_u16 in Hu. lia.
Qed.
Lemma ip4_reass_spec E p b l hdr dp (st : state) ds : (p ∉ E) -> reass_ok ({[+ p +]} ⊎ E) st ds ->
  incoming (held (all_frags ds) ⊎ ({[+ p +]} ⊎ E)) (low st) p b l hdr dp ->
  h_len hdr = 20 + Z.of_nat (length dp) -> (h_last hdr = true -> 0 < h_start hdr) ->
  Z.of_nat (length dp) <= PBUF_MAX * Z.of_nat (length ((p, b) :: l)) ->
  exists r st' ds1, ip4_reass call_custom_free garbage ipfrag_free_fn p st = Ok (r, st') /\ evicts hdr ds ds1 /\ passes E st st' /\
    ((r = 0 /\ reass_ok E st' ds1) \/ processed E hdr (new_frag p b l hdr dp) ds1 r st') /\
    (h_hlen hdr = 20 -> ip_reass_pbufcount st + Z.of_nat (length ((p, b) :: l)) <= IP_REASS_MAX_PBUFS ->
     is_Some (List.find (same_key hdr) ds) \/ (length ds < pool_cap)%nat -> ds1 = ds /\ processed E hdr (new_frag p b l hdr dp) ds1 r st').
Proof.
  intros Hp Hok0 Hi Hlen Hfr Hsz. unfold ip4_reass.
  set (st0 := with_ip_stats st (fun y => if decide (y = ip_frag_recv) then u16 (ip_stats st ip_frag_recv + 1) else ip_stats st y)).
  rewrite (st_bind_ok _ _ _ tt st0) by done. assert (Hok : reass_ok ({[+ p +]} ⊎ E) st0 ds) by (by apply reass_ok_stats). clear Hok0.
  pose proof (r_link _ _ _ (proj1 Hok)) as H. destruct (incoming_region _ _ _ _ _ _ _ H Hi) as [Hb Hreg].
  assert (HR := fun B (g : Z -> M B) => header_reads st0 (payload b) hdr g Hreg (inc_hdr _ _ _ _ _ _ _ Hi)).
  rewrite (on_pb_get_bind p (link b l)) by done. change (payload (link b l)) with (payload b). rewrite (proj1 (HR _ _)).
  assert (Hdrop : forall st1 ds1, reass_ok ({[+ p +]} ⊎ E) st1 ds1 -> evicts hdr ds ds1 -> passes ({[+ p +]} ⊎ E) st st1 ->
    exists st', reass_nullreturn call_custom_free p st1 = Ok (0, st') /\ passes E st st' /\ reass_ok E st' ds1).
  { intros st1 ds1 Hok1 Hev P1. destruct (nullreturn_spec call_custom_free E p st1 ds1 (proj1 Hok1) Hp) as (st' & En & Hi' & P2 & _).
    exists st'. split; [done|]. split; [|split; [done|apply Hok1]].
    eapply passes_trans; eapply passes_mono; [|exact P1| |exact P2]; intros q Hq0; apply gmultiset_elem_of_disj_union; by right. }
  destruct (h_hlen hdr =? IP_HLEN) eqn:Ehl; cbn [negb].
  2: { set (st1 := with_ip_stats st0 (fun y => if decide (y = ip_frag_err) then u16 (ip_stats st0 ip_frag_err + 1) else ip_stats st0 y)).
       rewrite (st_bind_ok _ _ _ tt st1) by done. destruct (Hdrop st1 ds) as (st' & En & P & Hok'); [by apply reass_ok_stats|apply evicts_none|by split; [apply leaves_refl|]|].
       exists 0, st', ds. split; [done|]. split; [constructor|]. split; [done|]. split; [by left|]. intros E0. unfold IP_HLEN in Ehl. lia. }
  assert (E20 : h_hlen hdr = 20) by (unfold IP_HLEN in Ehl; lia). destruct (incoming_count _ _ _ _ _ _ _ H Hi Hlen) as (Hpk & Hu & Hc).
  rewrite (proj1 (proj2 (proj2 (proj2 (proj2 (HR _ _)))))), (proj1 (proj2 (HR _ _))). cbv zeta. rewrite (proj1 (HR _ _)). fold (h_len hdr).
  rewrite Hlen, E20, (proj2 (Z.ltb_ge _ _)) by lia. replace (u16 (20 + Z.of_nat (length dp) - 20)) with (Z.of_nat (length dp)).
  2: { unfold is_u16 in Hu. rewrite u16_id; unfold is_u16; lia. }
  rewrite (clen_bind st0 ((p, b) :: l)) by done. rewrite get_bind.
  destruct (make_room_spec E p (payload b) (len b) (length l) hdr dp st0 ds Hp Hok) as (full & st1 & ds1 & Er & Hok1 & Hw1 & Hev & P1 & Hroom & Hkeep);
    [by exists b, l|].
  rewrite (st_bind_ok _ _ _ full st1 Er). destruct full.
  - set (st2 := with_ip_stats st1 (fun y => if decide (y = ip_frag_memerr) then u16 (ip_stats st1 ip_frag_memerr + 1) else ip_stats st1 y)).
    rewrite (st_bind_ok _ _ _ tt st2) by done. destruct (Hdrop st2 ds1) as (st' & En & P & Hok'); [by apply reass_ok_stats|done|done|].
    exists 0, st', ds1. split; [done|]. split; [done|]. split; [done|]. split; [by left|]. intros _ Hc'. by destruct (Hkeep Hc').
  - destruct (reass_match_spec E p (payload b) (len b) (length l) hdr dp st1 ds1 Hp Hok1 Hw1) as (r & st' & ds2 & Em & Hev2 & P2 & Hres & Hrm);
      [by split|by apply Hroom|].
    exists r, st', ds2. split; [done|]. split; [by eapply evicts_trans|]. split; [|split; [done|]].
    + eapply passes_trans; [eapply passes_mono; [|exact P1]|exact P2]. intros q Hq0. apply gmultiset_elem_of_disj_union. by right.
    + intros _ Hc' Hor. destruct (Hkeep Hc') as [_ ->]. by apply Hrm.
Qed.
End reassembly.
