(* ===== verification/ReassSpec.v ===== *)
(** * IPv4: what reassembly promises

    An abstract account of reassembly, with no memory in it: for each datagram, the pieces
    that have arrived.  [ip4_reass] refines it, and the pieces of a datagram that arrive in
    any order give the datagram back. *)

From stdpp Require Import gmultiset.
From S2P Require Import Prelude Def Chksum Ip4Addr Memp Mem Pbuf PbufData PbufHeap PbufSole Ethernet Link Acd Etharp EtharpIo Ip4 Icmp Reass ReassOk ReassQueue ReassIn Reassembly.

Set Default Proof Using "Type".

(** ** Pieces of a datagram *)

(** A piece: where it starts and its bytes. *)
Abbreviation piece := (Z * list Z)%type.
Definition stop (x : piece) : Z := x.1 + Z.of_nat (length x.2).
(** One of the pieces ends before the other one starts. *)
Definition apart (x y : piece) : bool := (x.1 <? y.1) && (stop x <=? y.1) || (y.1 <? x.1) && (stop y <=? x.1).
Fixpoint insert_piece (x : piece) (l : list piece) : list piece :=
  match l with
  | [] => [x]
  | y :: l' => if x.1 <? y.1 then x :: l else y :: insert_piece x l'
  end.
(** The pieces follow each other from [e] on. *)
Fixpoint covers (e : Z) (l : list piece) : bool :=
  match l with
  | [] => true
  | x :: l' => (e =? x.1) && covers (stop x) l'
  end.

(** A datagram of which some pieces have arrived: the header to be used, the length, once the
    last piece is there, and the pieces in order. *)
Record partial := { pt_hdr : list Z; pt_len : Z; pt_last : bool; pt_pieces : list piece }.
Definition fresh (hdr : list Z) : partial := {| pt_hdr := hdr; pt_len := 0; pt_last := false; pt_pieces := [] |}.
(** The header of the first piece is preferred. *)
Definition headed (hdr : list Z) (c : option partial) : partial :=
  match c with
  | Some p => if h_first hdr && negb (h_first (pt_hdr p))
              then {| pt_hdr := hdr; pt_len := pt_len p; pt_last := pt_last p; pt_pieces := pt_pieces p |} else p
  | None => fresh hdr
  end.
(** A piece that ends too late or that overlaps another one is not taken. *)
Definition refused (hdr : list Z) (x : piece) (p : partial) : bool :=
  (0xffff <? stop x) || (h_last hdr && (0xffff - IP_HLEN <? stop x)) || negb (forallb (apart x) (pt_pieces p)).
Definition extended (hdr : list Z) (x : piece) (p : partial) : partial :=
  {| pt_hdr := pt_hdr p; pt_len := if h_last hdr then stop x else pt_len p; pt_last := h_last hdr || pt_last p;
     pt_pieces := insert_piece x (pt_pieces p) |}.
Definition finished (p : partial) : bool := pt_last p && covers 0 (pt_pieces p).
Definition datagram_of (p : partial) : list Z := whole_header (pt_hdr p) (pt_len p + 20) ++ (pt_pieces p ≫= snd).
(** A fragment with the header [hdr] and the data [dp] arrives: what is kept of its datagram
    afterwards, and the datagram when this completes it. *)
Definition accept (hdr dp : list Z) (c : option partial) : option partial * option (list Z) :=
  let p := headed hdr c in
  let x := (h_start hdr, dp) in
  if refused hdr x p then (match c with Some _ => Some p | None => None end, None)
  else if finished (extended hdr x p) then (None, Some (datagram_of (extended hdr x p)))
  else (Some (extended hdr x p), None).
(** Fragments that arrive one after the other. *)
Fixpoint accept_all (fl : list (list Z * list Z)) (c : option partial) : option partial * list (option (list Z)) :=
  match fl with
  | [] => (c, [])
  | (h, d) :: fl' => let '(c1, o) := accept h d c in let '(c2, os) := accept_all fl' c1 in (c2, o :: os)
  end.

(** ** The queue is an implementation *)

Definition piece_of (f : frag) : piece := (fs f, fd f).
Definition content (d : dgram) : partial :=
  {| pt_hdr := dhdr d; pt_len := dlen d; pt_last := dlast d; pt_pieces := map piece_of (dfs d) |}.
(** What has arrived of the datagram that [hdr] belongs to. *)
Definition view (hdr : list Z) (ds : list dgram) : option partial := content <$> List.find (same_key hdr) ds.

Lemma apart_later x s e l : ordered_from s e l -> x.1 < s -> stop x <= s -> forallb (apart x) (map piece_of l) = true.
Proof.
  revert s e. induction l as [|g l IH]; intros s e; [done|]. intros (H1 & H2 & Ho) Hs Hst. simpl. rewrite (IH _ _ Ho) by lia.
  rewrite andb_true_r. unfold apart. simpl. apply orb_true_iff. left. apply andb_true_iff. lia.
Qed.
(** [place] puts a fragment where its piece belongs. *)
Lemma place_pieces f l : forall s e pe valid, ordered_from s e l -> match pe with Some e' => e' <= fs f | None => True end ->
  if forallb (apart (piece_of f)) (map piece_of l)
  then exists l' v, place f pe valid l = Some (l', v) /\ map piece_of l' = insert_piece (piece_of f) (map piece_of l)
  else place f pe valid l = None.
Proof.
  induction l as [|g l IH]; intros s e pe valid Ho Hpe; [by eexists _, _|]. destruct Ho as (H1 & H2 & Ho). simpl.
  unfold apart at 1, stop at 1 2. simpl. fold (fe f) (fe g). destruct (fs f <? fs g) eqn:E1.
  - rewrite (proj2 (Z.ltb_ge (fs g) (fs f))) by lia. rewrite andb_false_l, orb_false_r. cbn [andb].
    replace (match pe with Some e' => fs f <? e' | None => false end) with false by (destruct pe; [symmetry; lia|done]).
    cbn [orb]. destruct (fs g <? fe f) eqn:E2; [by rewrite (proj2 (Z.leb_gt _ _)) by lia|].
    rewrite (proj2 (Z.leb_le _ _)) by lia. cbn [andb]. rewrite (apart_later _ (fs g) (fe g)) by (done || unfold stop; simpl; unfold fe in *; lia).
    by eexists _, _.
  - cbn [andb orb]. destruct (fs f =? fs g) eqn:E2; [by rewrite (proj2 (Z.ltb_ge (fs g) (fs f))) by lia|].
    rewrite (proj2 (Z.ltb_lt (fs g) (fs f))) by lia. destruct (fs f <? fe g) eqn:E3; [by rewrite (proj2 (Z.leb_gt _ _)) by lia|].
    rewrite (proj2 (Z.leb_le _ _)) by lia. cbn [andb].
    specialize (IH (fs g) (fe g) (Some (fe g)) (joins pe (fs g) valid) Ho ltac:(simpl; lia)).
    destruct (forallb _ _); [|by rewrite IH]. destruct IH as (l' & v & -> & E). eexists _, _. split; [done|]. simpl. by rewrite E.
Qed.

Lemma insert_nonempty x l : insert_piece x l <> [].
Proof. destruct l as [|y l]; simpl; [done|]. by destruct (_ <? _). Qed.
Lemma gapless_covers e l : gapless_from e l = covers e (map piece_of l).
Proof. revert e. induction l as [|g l IH]; intros e; simpl; [done|]. by rewrite IH. Qed.
Lemma whole_covers l : l <> [] -> whole l = covers 0 (map piece_of l).
Proof. destruct l as [|g l]; [done|]. intros _. unfold whole. cbn [map covers]. rewrite Z.eqb_sym. f_equal. apply gapless_covers. Qed.
Lemma bytes_pieces l : frag_bytes l = map piece_of l ≫= snd.
Proof. induction l as [|f l IH]; [done|]. change (frag_bytes (f :: l)) with (fd f ++ frag_bytes l). by rewrite IH. Qed.

(** What becomes of a datagram, in terms of its pieces. *)
Lemma dgram_add_pieces hdr f d : ordered (dfs d) -> fs f = h_start hdr ->
  match dgram_add hdr f d with
  | None => refused hdr (piece_of f) (content d) = true
  | Some d' => refused hdr (piece_of f) (content d) = false /\ content d' = extended hdr (piece_of f) (content d) /\
      dhdr d' = dhdr d /\ da d' = da d /\ dfs d' <> []
  end.
Proof.
  intros Ho Hf. unfold dgram_add, enqueue, refused. simpl. replace (stop (piece_of f)) with (fe f) by done. unfold too_long. rewrite <-Hf. fold (fe f).
  pose proof (h_start_range hdr) as Hr. destruct (fe f <=? 0xffff) eqn:E1.
  - rewrite u16_id by (unfold is_u16, fe in *; lia). rewrite (proj2 (Z.ltb_ge (fe f) (fs f))) by (unfold fe; lia).
    rewrite (proj2 (Z.ltb_ge 0xffff (fe f))) by lia. cbn [orb]. destruct (h_last hdr && (0xffff - IP_HLEN <? fe f)) eqn:E2; [done|]. cbn [orb].
    pose proof (place_pieces f (dfs d) (-1) 0 None true Ho I) as Hp. destruct (forallb _ _); [|by rewrite Hp].
    destruct Hp as (l' & v & -> & El). simpl. split; [done|]. unfold content, extended. simpl. rewrite El. split; [done|]. do 2 (split; [done|]).
    intros ->. symmetry in El. by apply insert_nonempty in El.
  - rewrite (proj2 (Z.ltb_lt 0xffff (fe f))) by lia. simpl. by destruct (_ && _).
Qed.
Lemma complete_finished d : dfs d <> [] -> complete d = finished (content d).
Proof. intros Hn. unfold complete, finished. by rewrite whole_covers. Qed.
Lemma rehead_headed hdr d : content (rehead hdr d) = headed hdr (Some (content d)).
Proof. unfold rehead, headed. simpl. by destruct (_ && _). Qed.

(** ** Finding a datagram *)

Lemma same_key_iff hdr d : same_key hdr d = true <-> dkey d = hkey hdr.
Proof. unfold same_key. by rewrite bool_decide_eq_true. Qed.
Lemma find_app {A} (P : A -> bool) l1 l2 : List.find P (l1 ++ l2) = match List.find P l1 with Some x => Some x | None => List.find P l2 end.
Proof. induction l1 as [|x l1 IH]; simpl; [done|]. by destruct (P x). Qed.
Lemma find_other hdr l : hkey hdr ∉ map dkey l -> List.find (same_key hdr) l = None.
Proof.
  intros Hn. destruct (List.find _ l) as [d|] eqn:E; [|done]. apply List.find_some in E as [Hin Hk]. destruct Hn.
  apply same_key_iff in Hk. rewrite <-Hk. apply list_elem_of_fmap_2. by apply list_elem_of_In.
Qed.
Lemma keys_middle l1 d l2 : NoDup (map dkey (l1 ++ d :: l2)) -> dkey d ∉ map dkey (l1 ++ l2).
Proof. intros Hn. rewrite map_app in *. simpl in Hn. rewrite <-Permutation_middle in Hn. by apply NoDup_cons in Hn as [? _]. Qed.
Lemma view_middle hdr l1 d l2 : NoDup (map dkey (l1 ++ d :: l2)) -> dkey d = hkey hdr -> view hdr (l1 ++ d :: l2) = Some (content d).
Proof.
  intros Hn Hk. apply keys_middle in Hn. rewrite Hk, map_app in Hn. unfold view. rewrite find_app, find_other by set_solver.
  simpl. by rewrite (proj2 (same_key_iff _ _) Hk).
Qed.
Lemma view_without hdr l1 d l2 : NoDup (map dkey (l1 ++ d :: l2)) -> dkey d = hkey hdr -> view hdr (l1 ++ l2) = None.
Proof. intros Hn Hk. apply keys_middle in Hn. rewrite Hk in Hn. unfold view. by rewrite find_other. Qed.
Lemma view_other hdr l1 d l2 : dkey d <> hkey hdr -> view hdr (l1 ++ d :: l2) = view hdr (l1 ++ l2).
Proof.
  intros Hk. unfold view. rewrite !find_app. simpl. destruct (same_key hdr d) eqn:E; [by apply same_key_iff in E|done].
Qed.

(** The datagrams that are left are still in order. *)
Record listed (ds : list dgram) : Prop := {
  ls_wf : Forall dgram_wf ds;
  ls_keys : NoDup (map dkey ds);
  ls_nonempty : Forall (fun d => dfs d <> []) ds
}.
Lemma evicts_listed hdr ds ds1 : evicts hdr ds ds1 -> listed ds -> listed ds1.
Proof.
  induction 1 as [|l1 d l2 ds' _ _ _ IH]; [done|]. intros [Hw Hk Hn]. apply IH. apply middle_forall in Hw as [_ ?], Hn as [_ ?]. split; try done.
  rewrite map_app in *. simpl in Hk. rewrite <-Permutation_middle in Hk. by apply NoDup_cons in Hk as [_ ?].
Qed.
Lemma evicts_view hdr ds ds1 : listed ds -> evicts hdr ds ds1 -> view hdr ds1 = view hdr ds.
Proof.
  intros Hok Hev. pose proof (evicts_listed _ _ _ Hev Hok) as Hok1. destruct (List.find (same_key hdr) ds) as [d|] eqn:Ef.
  - destruct (find_split _ _ _ Ef) as (l1 & l2 & -> & Hk). assert (Hd : d ∈ ds1) by (eapply evicts_keeps; [done|set_solver|done]).
    apply list_elem_of_split in Hd as (m1 & m2 & ->). apply same_key_iff in Hk. by rewrite !view_middle by (done || apply ls_keys; done).
  - unfold view. by rewrite Ef, (evicts_find _ _ _ Hev Ef).
Qed.

Section refinement.
Context {S R : Type} `{!PbufAlloc S} `{!FragPool S} `{!Pool R}.
Abbreviation state := (@ipnet S R).
Abbreviation net := (@Ethernet.net S).
Abbreviation M := (ST state).
Context {Link : LinkDriver}.
Implicit Types nst : net.

(** The fragment at [p] with the header [hdr] and the data [dp] has come in while [ds] are being
    reassembled; the caller holds the only reference to it. *)
Record arrives (E : gmultiset Z) (st : state) (ds : list dgram) (p : Z) (b : pbuf) (l : list (Z * pbuf)) (hdr dp : list Z) : Prop := {
  ar_fresh : p ∉ E;
  ar_ok : reass_ok ({[+ p +]} ⊎ E) st ds;
  ar_in : incoming (held (all_frags ds) ⊎ ({[+ p +]} ⊎ E)) (low st) p b l hdr dp;
  ar_len : h_len hdr = 20 + Z.of_nat (length dp);
  ar_fragment : h_last hdr = true -> 0 < h_start hdr;
  ar_size : Z.of_nat (length dp) <= PBUF_MAX * Z.of_nat (length ((p, b) :: l))
}.
(** What [ip4_reass] hands back: nothing, or the packet [bs]. *)
Definition handed (E : gmultiset Z) (o : option (list Z)) (r : Z) (st' : state) (ds' : list dgram) : Prop :=
  match o with
  | None => r = 0 /\ reass_ok E st' ds'
  | Some bs => r <> 0 /\ reass_ok ({[+ r +]} ⊎ E) st' ds' /\
      exists b m, sole (held (all_frags ds') ⊎ ({[+ r +]} ⊎ E)) (pbufs (pm (low st'))) ((r, b) :: m) /\ contiguous b = true /\ 20 <= len b /\
        data (pm (low st')) ((r, b) :: m) = bs
  end.

Lemma nonempty_some d : dfs d <> [] -> nonempty d = [d].
Proof. unfold nonempty. by destruct (dfs d). Qed.

(** One datagram takes the fragment; [c] is what it was before. *)
Lemma result_view E hdr f l1 d l2 r st' c :
  queue_result E hdr f l1 d l2 r st' -> fs f = h_start hdr -> ordered (dfs d) -> NoDup (map dkey (l1 ++ d :: l2)) -> dkey d = hkey hdr ->
  content d = headed hdr c -> (c = None <-> dfs d = []) -> (dfs d = [] -> l1 = []) -> Forall (fun d => dfs d <> []) (l1 ++ l2) ->
  exists ds', view hdr ds' = (accept hdr (fd f) c).1 /\ (forall h', hkey h' <> hkey hdr -> view h' ds' = view h' (l1 ++ l2)) /\
    handed E (accept hdr (fd f) c).2 r st' ds'.
Proof.
  intros Hres Hf Ho Hnd Hk Hc Hce Hl1 Hne. unfold queue_result in Hres. pose proof (dgram_add_pieces hdr f d Ho Hf) as Hadd.
  unfold accept. rewrite <-Hc. replace (h_start hdr, fd f) with (piece_of f) by (unfold piece_of; by rewrite Hf).
  assert (Hoth : forall d', dkey d' = hkey hdr -> forall h', hkey h' <> hkey hdr -> view h' (l1 ++ d' :: l2) = view h' (l1 ++ l2)).
  { intros d' Hd' h' Hh. apply view_other. congruence. }
  destruct (dgram_add hdr f d) as [d'|].
  - destruct Hadd as (Hr & Ec & Eh & _ & Hn). assert (Hk' : dkey d' = hkey hdr) by (unfold dkey; rewrite Eh; exact Hk).
    rewrite Hr, <-Ec, <-complete_finished by done. destruct (complete d').
    + destruct Hres as (-> & Hi & b & m & Hs & Hct & Hlb & Hd & _ & _ & Ha). exists (l1 ++ l2).
      split; [by eapply view_without|]. split; [done|]. split; [lia|]. split; [by split|]. exists b, m. do 3 (split; [done|]).
      rewrite Hd. unfold datagram_of. by rewrite bytes_pieces.
    + destruct Hres as [-> Hi]. exists (l1 ++ d' :: l2). split; [eapply view_middle; [apply Hi|done]|]. split; [by apply Hoth|].
      split; [done|]. split; [done|]. by apply middle_forall.
  - rewrite Hadd. destruct Hres as [-> Hi]. destruct c as [c|].
    + assert (Hn : dfs d <> []) by (by intros ?%Hce). rewrite nonempty_some in Hi by done. exists (l1 ++ d :: l2).
      split; [by apply view_middle|]. split; [by apply Hoth|]. split; [done|]. split; [done|]. by apply middle_forall.
    + assert (Hn : dfs d = []) by (by apply Hce). unfold nonempty in Hi. rewrite Hn in Hi. exists (l1 ++ l2).
      split; [by eapply view_without|]. done.
Qed.
Lemma reass_listed E (st : state) ds : reass_ok E st ds -> listed ds.
Proof. intros [[] ?]. by split. Qed.
Lemma processed_view E hdr f (ds : list dgram) r st' :
  processed E hdr f ds r st' -> listed ds -> fs f = h_start hdr ->
  exists ds', view hdr ds' = (accept hdr (fd f) (view hdr ds)).1 /\ (forall h', hkey h' <> hkey hdr -> view h' ds' = view h' ds) /\
    handed E (accept hdr (fd f) (view hdr ds)).2 r st' ds'.
Proof.
  intros Hp [Hwf Hnd Hne] Hf. unfold processed in Hp. unfold view at 2 5. destruct (List.find (same_key hdr) ds) as [d|] eqn:Efi.
  - destruct Hp as (l1 & l2 & -> & Hres). apply List.find_some in Efi as [_ Hk]. apply same_key_iff in Hk.
    apply middle_forall in Hne as [Hn Hne]. apply middle_forall in Hwf as [Hw _].
    assert (Hkr : dkey (rehead hdr d) = hkey hdr) by (unfold rehead; by destruct (_ && _)).
    assert (Edf : dfs (rehead hdr d) = dfs d) by (unfold rehead; by destruct (_ && _)).
    destruct (result_view _ _ _ _ _ _ _ _ (Some (content d)) Hres) as (ds' & H1 & H2 & H3); try done.
    + rewrite Edf. apply Hw.
    + rewrite map_app in *. simpl in *. by rewrite Hkr, <-Hk.
    + apply rehead_headed.
    + rewrite Edf. split; [done|by intros ?%Hn].
    + rewrite Edf. by intros ?%Hn.
    + exists ds'. split; [done|]. split; [|done]. intros h' Hh. rewrite H2 by done. symmetry. apply view_other. congruence.
  - destruct Hp as [a Hres]. destruct (result_view _ _ _ _ _ _ _ _ None Hres) as (ds' & H1 & H2 & H3); try done.
    + simpl. apply NoDup_cons. split; [|done]. intros (d & Hd & Hin)%list_elem_of_fmap.
      apply list_elem_of_In in Hin. pose proof (List.find_none _ _ Efi _ Hin) as Hf0. by rewrite (proj2 (same_key_iff hdr d)) in Hf0.
    + by exists ds'.
Qed.

Context (call_custom_free : Z -> Z -> ST (@pstate S) unit) (garbage : Z -> Z).
Context (ipfrag_free_fn : Z).
Abbreviation ip4_reass := (ip4_reass call_custom_free garbage ipfrag_free_fn).

Lemma reass_refines E st ds p b l hdr dp : arrives E st ds p b l hdr dp -> h_hlen hdr = 20 ->
  ip_reass_pbufcount st + Z.of_nat (length ((p, b) :: l)) <= IP_REASS_MAX_PBUFS ->
  is_Some (List.find (same_key hdr) ds) \/ (length ds < pool_cap)%nat ->
  exists r st' ds', ip4_reass p st = Ok (r, st') /\ passes E st st' /\
    view hdr ds' = (accept hdr dp (view hdr ds)).1 /\ (forall h', hkey h' <> hkey hdr -> view h' ds' = view h' ds) /\
    handed E (accept hdr dp (view hdr ds)).2 r st' ds'.
Proof.
  intros [Hp Hok Hi Hl Hf Hs] Hh Hc Hpool.
  destruct (ip4_reass_spec call_custom_free garbage ipfrag_free_fn E p b l hdr dp st ds Hp Hok Hi Hl Hf Hs) as (r & st' & ds1 & Er & _ & P & _ & Hroom).
  destruct (Hroom Hh Hc Hpool) as [-> Hpr]. destruct (processed_view _ _ _ _ _ _ Hpr (reass_listed _ _ _ Hok) eq_refl) as (ds' & H1 & H2 & H3).
  by exists r, st', ds'.
Qed.

(** C3. With room for it, a fragment does to its datagram what the abstract account says and leaves
    the other datagrams alone: it is refused, kept, or completes the datagram, which is handed
    back as one packet that nobody else refers to.  The pbufs others hold are not touched. *)
Theorem ip4_reass_refines E st ds p b l hdr dp : arrives E st ds p b l hdr dp -> h_hlen hdr = 20 ->
  ip_reass_pbufcount st + Z.of_nat (length ((p, b) :: l)) <= IP_REASS_MAX_PBUFS ->
  is_Some (List.find (same_key hdr) ds) \/ (length ds < pool_cap)%nat ->
  exists r st' ds', ip4_reass p st = Ok (r, st') /\ passes E st st' /\
    view hdr ds' = (accept hdr dp (view hdr ds)).1 /\ (forall h', hkey h' <> hkey hdr -> view h' ds' = view h' ds) /\
    handed E (accept hdr dp (view hdr ds)).2 r st' ds'.
Proof. apply reass_refines. Qed.

(** There is room for the fragment: its header is one of 20 bytes, the pbufs that wait stay within [IP_REASS_MAX_PBUFS], and its
    datagram has an entry or there is one left in the pool. *)
Definition has_room (st : state) (ds : list dgram) (hdr : list Z) (n : nat) : Prop :=
  h_hlen hdr = 20 /\ ip_reass_pbufcount st + Z.of_nat n <= IP_REASS_MAX_PBUFS /\
  (is_Some (List.find (same_key hdr) ds) \/ (length ds < pool_cap)%nat).
#[local] Instance has_room_dec st ds hdr n : Decision (has_room st ds hdr n).
Proof. apply _. Defined.

(** C5. Whatever fragments arrive and however many datagrams are waiting, reassembly neither
    stops the system nor breaks its queue.  Datagrams are given up only oldest first and never the
    one the fragment belongs to, and not at all if there is room for the fragment.  The fragment is then dropped, and the queue is what was left, or
    it is taken as the abstract account says, and the other datagrams are what was left of them.  With room it is taken.  The fragment
    has at most [PBUF_MAX] bytes for each of its pbufs. *)
Theorem ip4_reass_safe E st ds p b l hdr dp : arrives E st ds p b l hdr dp ->
  exists r st' ds1 ds' o, ip4_reass p st = Ok (r, st') /\ passes E st st' /\ evicts hdr ds ds1 /\ handed E o r st' ds' /\
    (o = None /\ ds' = ds1 \/
     (view hdr ds', o) = accept hdr dp (view hdr ds) /\ forall h', hkey h' <> hkey hdr -> view h' ds' = view h' ds1) /\
    (has_room st ds hdr (length ((p, b) :: l)) -> ds1 = ds /\ (view hdr ds', o) = accept hdr dp (view hdr ds)).
Proof.
  intros [Hp Hok Hi Hl Hf Hs].
  destruct (ip4_reass_spec call_custom_free garbage ipfrag_free_fn E p b l hdr dp st ds Hp Hok Hi Hl Hf Hs) as (r & st' & ds1 & Er & Hev & P & Hres & Hroom).
  assert (Hcase : (r = 0 /\ reass_ok E st' ds1 /\ ~ has_room st ds hdr (length ((p, b) :: l))) \/
    (processed E hdr (new_frag p b l hdr dp) ds1 r st' /\ (has_room st ds hdr (length ((p, b) :: l)) -> ds1 = ds))).
  { destruct (decide (has_room st ds hdr (length ((p, b) :: l)))) as [(H1 & H2 & H3)|Hno].
    - destruct (Hroom H1 H2 H3) as [? ?]. by right.
    - destruct Hres as [[? ?]|?]; [left|right]; done. }
  clear Hres Hroom. destruct Hcase as [(-> & Hok' & Hno)|[Hpr Hroom]].
  - exists 0, st', ds1, ds1, None. repeat (split; [done|]). split; [by left|done].
  - pose proof (reass_listed _ _ _ Hok) as Hls.
    destruct (processed_view _ _ _ _ _ _ Hpr (evicts_listed _ _ _ Hev Hls) eq_refl) as (ds' & H1 & H2 & H3). cbn [fd new_frag] in *.
    rewrite (evicts_view _ _ _ Hls Hev) in H1, H3. exists r, st', ds1, ds', (accept hdr dp (view hdr ds)).2.
    assert (Ha : (view hdr ds', (accept hdr dp (view hdr ds)).2) = accept hdr dp (view hdr ds)) by (rewrite H1; symmetry; apply surjective_pairing).
    repeat (split; [done|]). split; [by right|by auto].
Qed.

Abbreviation ip_reass_tmr := (ip_reass_tmr call_custom_free garbage ipfrag_free_fn).
(** [n] periods of the timer go by. *)
Fixpoint periods (n : nat) : M unit := match n with O => mret tt | Datatypes.S n' => _ ← ip_reass_tmr; periods n' end.
Fixpoint ticks (n : nat) (ds : list dgram) : list dgram := match n with O => ds | Datatypes.S n' => ticks n' (omap tick ds) end.

Lemma periods_spec E n : forall st ds, reass_ok E st ds ->
  exists st', periods n st = Ok (tt, st') /\ reass_ok E st' (ticks n ds) /\ passes E st st'.
Proof.
  induction n as [|n IH]; intros st ds Hok; [exists st; split; [done|]; split; [done|apply passes_refl]|].
  destruct (tmr_spec call_custom_free garbage ipfrag_free_fn E st ds Hok) as (st1 & E1 & Hok1 & P1 & _).
  destruct (IH st1 _ Hok1) as (st2 & E2 & Hok2 & P2). exists st2. cbn [periods ticks]. rewrite (st_bind_ok _ _ _ _ _ E1).
  split; [done|]. split; [done|]. by eapply passes_trans.
Qed.
Lemma ticks_end n ds : Forall (fun d => dtimer d < Z.of_nat n) ds -> Forall (fun d => 0 <= dtimer d) ds -> ticks n ds = [].
Proof.
  revert ds. induction n as [|n IH]; intros ds Hlt Hge; simpl.
  - destruct ds as [|d ds]; [done|]. apply Forall_cons in Hlt as [? _], Hge as [? _]. lia.
  - apply IH; rewrite Forall_forall in *; intros d' (d & Hd & Ht)%list_elem_of_omap; specialize (Hlt d Hd); specialize (Hge d Hd); simpl in Hlt, Hge;
      unfold tick in Ht; destruct (0 <? dtimer d) eqn:E; simplify_eq; simpl; lia.
Qed.

(** C17. A datagram that stays incomplete does not keep its pbufs: after one period more than
    [IP_REASS_MAXAGE] with no fragment arriving, the queue is empty, every pbuf of it has been
    given back, and the pbufs others hold are as they were. *)
Theorem ip_reass_expires E st ds n : reass_ok E st ds -> IP_REASS_MAXAGE < Z.of_nat n ->
  exists st', periods n st = Ok (tt, st') /\ passes E st st' /\ reassdatagrams st' = 0 /\ reassdata st' = ∅ /\ ip_reass_pbufcount st' = 0 /\
    link_ok E (low st').
Proof.
  intros Hok Hn. destruct (periods_spec E n st ds Hok) as (st' & Er & Hok' & P). rewrite ticks_end in Hok'.
  - destruct Hok' as [[Hl _ _ Hq _ _ [Hc _] _ _] _]. exists st'. split; [done|]. split; [done|]. split; [apply (q_list _ _ Hq)|].
    split; [apply (q_data _ _ Hq)|]. split; [exact Hc|]. change (held (all_frags [])) with (∅ : gmultiset Z) in Hl. by rewrite (left_id_L ∅ (⊎)) in Hl.
  - eapply Forall_impl; [apply (r_wf _ _ _ (proj1 Hok))|]. intros d [_ _ Ht _ _ _]. simpl. lia.
  - eapply Forall_impl; [apply (r_wf _ _ _ (proj1 Hok))|]. intros d [_ _ Ht _ _ _]. simpl. lia.
Qed.

(** Each period of the timer makes every waiting datagram older by one and gives up those
    whose time is over.  The sender of such a datagram is told, by a time exceeded message that quotes
    the header and the first bytes, if the first fragment had arrived, and otherwise nothing is sent. *)
Theorem ip_reass_tmr_correct E st ds : reass_ok E st ds ->
  exists st', ip_reass_tmr st = Ok (tt, st') /\ reass_ok E st' (omap tick ds) /\ passes E st st' /\ expiries call_custom_free garbage ds st st'.
Proof. apply tmr_spec. Qed.
(** The fragments [fl] arrive one after the other, each in some state where [c] has arrived of
    their datagram and there is room for it; whatever else happened in between does not matter.  With the
    last one the packet [bs] is handed back, and nothing before. *)
Fixpoint delivers (fl : list (list Z * list Z)) (c : option partial) (bs : list Z) : Prop :=
  match fl with
  | [] => False
  | (h, d) :: fl' => forall E st ds p b l, arrives E st ds p b l h d -> view h ds = c ->
      ip_reass_pbufcount st + Z.of_nat (length ((p, b) :: l)) <= IP_REASS_MAX_PBUFS ->
      is_Some (List.find (same_key h) ds) \/ (length ds < pool_cap)%nat ->
      exists r st' ds', ip4_reass p st = Ok (r, st') /\ passes E st st' /\
        match fl' with
        | [] => handed E (Some bs) r st' ds' /\ view h ds' = None
        | _ => handed E None r st' ds' /\ delivers fl' (view h ds') bs
        end
  end.
Lemma accept_delivers bs fl : forall c, Forall (fun x => h_hlen x.1 = 20) fl -> fl <> [] ->
  accept_all fl c = (None, replicate (length fl - 1) None ++ [Some bs]) -> delivers fl c bs.
Proof.
  induction fl as [|[h d] fl IH]; intros c Hh Hne Ha; [done|]. intros E st ds p b l Har <- Hroom Hpool.
  apply Forall_cons in Hh as [Hh1 Hh]. destruct (reass_refines E st ds p b l h d Har Hh1 Hroom Hpool) as (r & st' & ds' & Er & P & Hv & _ & Hh').
  exists r, st', ds'. split; [done|]. split; [done|]. cbn [accept_all] in Ha. destruct (accept h d (view h ds)) as [c1 o]. cbn [fst snd] in Hv, Hh'.
  destruct fl as [|y fl].
  - simpl in Ha. injection Ha as -> ->. done.
  - rewrite Hv. destruct (accept_all (y :: fl) c1) as [c2 os] eqn:Ea.
    replace (length ((h, d) :: y :: fl) - 1)%nat with (Datatypes.S (length (y :: fl) - 1)) in Ha by (simpl; lia).
    cbn [replicate app] in Ha. injection Ha as -> -> ->. split; [done|]. by apply IH.
Qed.

End refinement.

(** ** Pieces in any order *)

(** The fragments [fl] of one datagram, in order, from the offset [off] on. *)
Fixpoint fragments (off : Z) (fl : list (list Z * list Z)) : Prop :=
  match fl with
  | [] => False
  | (h, d) :: fl' => h_start h = off /\ match fl' with
      | [] => h_last h = true
      | _ => h_last h = false /\ (0 < length d)%nat /\ fragments (off + Z.of_nat (length d)) fl'
      end
  end.
Definition cut (x : list Z * list Z) : piece := (h_start x.1, x.2).
Definition before (x y : list Z * list Z) : Prop := (cut x).1 < (cut y).1 /\ stop (cut x) <= (cut y).1.

Lemma fragments_later off fl : fragments off fl -> Forall (fun y => off <= (cut y).1) fl.
Proof.
  revert off. induction fl as [|[h d] fl IH]; intros off; [done|]. intros [Hs Hf]. constructor; [simpl; lia|].
  destruct fl as [|y fl]; [done|]. destruct Hf as (_ & Hd & Hf). eapply Forall_impl; [by apply IH|]. simpl. lia.
Qed.
Lemma fragments_split off l1 x l2 : fragments off (l1 ++ x :: l2) ->
  Forall (fun y => before y x) l1 /\ Forall (before x) l2 /\ (l2 <> [] -> h_last x.1 = false /\ (0 < length x.2)%nat) /\ (l2 = [] -> h_last x.1 = true).
Proof.
  revert off. induction l1 as [|[h d] l1 IH]; intros off.
  - destruct x as [h d]. simpl. intros [Hs Hf]. split; [done|]. destruct l2 as [|y l2]; [done|]. destruct Hf as (Hl & Hd & Hf).
    split; [|done]. eapply Forall_impl; [by apply fragments_later|]. intros z Hz. unfold before, stop. simpl in *. lia.
  - intros [Hs Hf]. destruct (l1 ++ x :: l2) as [|y m] eqn:Em; [by destruct l1|]. destruct Hf as (_ & Hd & Hf). rewrite <-Em in *.
    destruct (IH _ Hf) as (H1 & H2 & H3). split; [|done]. constructor; [|done].
    pose proof (fragments_later _ _ Hf) as Hlt. apply Forall_app in Hlt as [_ [Hlt _]%Forall_cons]. unfold before, stop. simpl in *. lia.
Qed.
Lemma fragments_NoDup off fl : fragments off fl -> NoDup fl.
Proof.
  revert off. induction fl as [|[h d] fl IH]; intros off; [done|]. intros [Hs Hf]. destruct fl as [|y fl]; [apply NoDup_singleton|].
  destruct Hf as (_ & Hd & Hf). apply NoDup_cons. split; [|by eapply IH]. intros Hin.
  pose proof (fragments_later _ _ Hf) as Hlt. rewrite Forall_forall in Hlt. specialize (Hlt _ Hin). simpl in Hlt. lia.
Qed.
Lemma fragments_cover off fl : fragments off fl -> covers off (map cut fl) = true.
Proof.
  revert off. induction fl as [|[h d] fl IH]; intros off; [done|]. intros [Hs Hf]. simpl. rewrite Hs, Z.eqb_refl. cbn [andb].
  destruct fl as [|y fl]; [done|]. destruct Hf as (_ & _ & Hf). unfold stop. simpl. rewrite Hs. by apply IH.
Qed.
Lemma fragments_stop off l x : fragments off (l ++ [x]) -> stop (cut x) = off + Z.of_nat (length ((l ++ [x]) ≫= snd)).
Proof.
  revert off. induction l as [|[h d] l IH]; intros off.
  - destruct x as [h d]. intros [Hs _]. unfold stop. simpl in *. rewrite app_nil_r. lia.
  - intros [Hs Hf]. cbn [app]. destruct (l ++ [x]) as [|y m] eqn:Em; [by destruct l|]. destruct Hf as (_ & _ & Hf). rewrite (IH _ Hf).
    change (((h, d) :: y :: m) ≫= snd) with (d ++ ((y :: m) ≫= snd)). rewrite length_app. lia.
Qed.

Lemma insert_between x m1 m2 : Forall (fun y : piece => y.1 < x.1) m1 -> Forall (fun y : piece => x.1 < y.1) m2 ->
  insert_piece x (m1 ++ m2) = m1 ++ x :: m2.
Proof.
  intros H1 H2. induction H1 as [|y m1 Hy _ IH]; simpl.
  - destruct H2 as [|y m2 Hy _]; simpl; [done|]. by rewrite (proj2 (Z.ltb_lt _ _)).
  - rewrite (proj2 (Z.ltb_ge _ _)) by lia. by rewrite IH.
Qed.
(** Pieces that cover everything leave no room. *)
Lemma covers_bound e s m1 z m2 : covers e (m1 ++ z :: m2) = true -> e <= s -> Forall (fun y => stop y <= s) m1 -> z.1 <= s.
Proof.
  intros Hc He Hm. revert e Hc He. induction Hm as [|y m1 Hy _ IH]; intros e Hc He; simpl in Hc; apply andb_true_iff in Hc as [Hz Hc]; [lia|].
  by apply (IH (stop y)).
Qed.

Lemma h_first_start h : h_first h = (h_start h =? 0).
Proof.
  unfold h_first, h_start, IP_OFFMASK. change 0x1fff with (Z.ones 13). rewrite Z.land_ones by lia.
  pose proof (Z.mod_pos_bound (lwip_htons (le_val (slice 6 2 h))) (2 ^ 13) ltac:(lia)). rewrite u16_id by (unfold is_u16; lia).
  apply eq_true_iff_eq. rewrite !Z.eqb_eq. lia.
Qed.
Lemma filter_every {A} (P : A -> Prop) `{!forall x, Decision (P x)} (l : list A) : (forall x, x ∈ l -> P x) -> filter P l = l.
Proof.
  induction l as [|x l IH]; intros Hl; [done|]. rewrite filter_cons, decide_True by (apply Hl; by left). rewrite IH; [done|].
  intros y Hy. apply Hl. by right.
Qed.

Section any_order.
Context (fl : list (list Z * list Z)) (Hfl : fragments 0 fl).
Abbreviation D := (fl ≫= snd).
Context (Hfits : 20 + Z.of_nat (length D) <= 0xffff).
Set Default Proof Using "All".
(** The header of the first piece. *)
Definition head_of : list Z := match fl with [] => [] | x :: _ => x.1 end.
(** Those of the fragments that have arrived, in order. *)
Definition so_far (got : list (list Z * list Z)) : list (list Z * list Z) := filter (fun x => x ∈ got) fl.
(** What is known once [got] has arrived. *)
Record progress (got : list (list Z * list Z)) (p : partial) : Prop := {
  pr_pieces : pt_pieces p = map cut (so_far got);
  pr_last : pt_last p = existsb (fun x => h_last x.1) got;
  pr_len : pt_last p = true -> pt_len p = Z.of_nat (length D);
  pr_hdr : if existsb (fun x => h_start x.1 =? 0) got then pt_hdr p = head_of else h_first (pt_hdr p) = false
}.

Lemma so_far_snoc got x l1 l2 : fl = l1 ++ x :: l2 -> x ∉ got -> exists m1 m2, so_far got = m1 ++ m2 /\ so_far (got ++ [x]) = m1 ++ x :: m2 /\
  Forall (fun y => before y x) m1 /\ Forall (before x) m2.
Proof.
  intros Ef Hx. pose proof (fragments_NoDup _ _ Hfl) as Hnd. pose proof Hfl as Hs. rewrite Ef in Hs, Hnd.
  destruct (fragments_split _ _ _ _ Hs) as (H1 & H2 & _). apply NoDup_app in Hnd as (_ & Hx1 & [Hx2 _]%NoDup_cons).
  exists (filter (fun y => y ∈ got) l1), (filter (fun y => y ∈ got) l2). unfold so_far. rewrite Ef, !filter_app, !filter_cons.
  rewrite (decide_False (P := x ∈ got)) by done. rewrite decide_True by set_solver. split; [done|].
  assert (Hl : forall l : list (list Z * list Z), x ∉ l -> filter (fun y => y ∈ got ++ [x]) l = filter (fun y => y ∈ got) l).
  { intros l Hn. induction l as [|y l IH]; [done|]. rewrite !filter_cons, IH by set_solver. repeat case_decide; set_solver. }
  rewrite !Hl by set_solver. split; [done|]. split; apply Forall_forall; intros y [_ Hy]%list_elem_of_filter; revert y Hy; by apply Forall_forall.
Qed.
Lemma last_of_all x l1 l2 : fl = l1 ++ x :: l2 -> h_last x.1 = true -> l2 = [] /\ stop (cut x) = Z.of_nat (length D).
Proof.
  intros Ef Hl. pose proof Hfl as Hs. rewrite Ef in Hs. destruct (fragments_split _ _ _ _ Hs) as (_ & _ & H3 & _).
  destruct l2 as [|y l2]; [|destruct H3 as [? _]; [done|congruence]]. split; [done|]. rewrite (fragments_stop _ _ _ Hs), Ef. lia.
Qed.
Lemma first_of_all x : x ∈ fl -> h_start x.1 = 0 -> x.1 = head_of.
Proof.
  intros Hin Hs. unfold head_of. destruct fl as [|[h d] fl']; [by apply elem_of_nil in Hin|]. apply elem_of_cons in Hin as [->|Hin]; [done|].
  destruct Hfl as [H1 H2]. destruct fl' as [|y fl']; [by apply elem_of_nil in Hin|]. destruct H2 as (_ & Hd & H2).
  pose proof (fragments_later _ _ H2) as Hlt. rewrite Forall_forall in Hlt. specialize (Hlt _ Hin). unfold cut in Hlt. simpl in Hlt. lia.
Qed.
(** A fragment that has not arrived yet is taken. *)
Lemma not_refused got x p : x ∈ fl -> (x ∉ got) -> pt_pieces p = map cut (so_far got) -> refused x.1 (cut x) p = false.
Proof.
  intros Hin Hx Hp. apply list_elem_of_split in Hin as (l1 & l2 & Ef). destruct (so_far_snoc got x l1 l2 Ef Hx) as (m1 & m2 & E1 & _ & H1 & H2).
  assert (Hst : stop (cut x) <= Z.of_nat (length D)).
  { pose proof Hfl as Hs. rewrite Ef in Hs. destruct (fragments_split _ _ _ _ Hs) as (_ & H2' & _ & H4). destruct l2 as [|z l3 _] using rev_ind.
    - rewrite (proj2 (last_of_all x l1 [] Ef (H4 eq_refl))). done.
    - apply Forall_app in H2' as [_ [Hz _]%Forall_cons]. rewrite app_comm_cons, app_assoc in Ef. pose proof Hfl as Hs'. rewrite Ef in Hs'.
      pose proof (fragments_stop _ _ _ Hs') as Hst. rewrite <-Ef in Hst. destruct Hz as [_ Hz]. unfold stop in Hz, Hst |- *. simpl in *. lia. }
  unfold refused. rewrite (proj2 (Z.ltb_ge _ _)) by lia. rewrite (proj2 (Z.ltb_ge _ _)) by (unfold IP_HLEN; lia). rewrite andb_false_r. cbn [orb].
  apply negb_false_iff, forallb_forall. intros y Hy. rewrite Hp, E1, map_app in Hy. apply List.in_app_or in Hy. unfold apart.
  apply orb_true_iff. rewrite !andb_true_iff, !Z.ltb_lt, !Z.leb_le. destruct Hy as [(z & <- & Hz)%List.in_map_iff|(z & <- & Hz)%List.in_map_iff]; apply list_elem_of_In in Hz.
  - right. rewrite Forall_forall in H1. by apply H1.
  - left. rewrite Forall_forall in H2. by apply H2.
Qed.
Lemma progress_step got x p : x ∈ fl -> (x ∉ got) -> (forall y, y ∈ got -> y ∈ fl) -> progress got p -> progress (got ++ [x]) (extended x.1 (cut x) (headed x.1 (Some p))).
Proof.
  intros Hin Hx Hsub [P1 P2 P3 P4]. pose proof Hin as Hin'. apply list_elem_of_split in Hin' as (l1 & l2 & Ef).
  destruct (so_far_snoc got x l1 l2 Ef Hx) as (m1 & m2 & E1 & E2 & H1 & H2).
  assert (Eh : pt_pieces (headed x.1 (Some p)) = pt_pieces p /\ pt_last (headed x.1 (Some p)) = pt_last p /\ pt_len (headed x.1 (Some p)) = pt_len p)
    by (unfold headed; by destruct (_ && _)). destruct Eh as (Ep & El & En).
  split; unfold extended; cbn [pt_pieces pt_last pt_len pt_hdr]; rewrite ?Ep, ?El, ?En.
  - rewrite P1, E1, E2, !map_app. simpl. apply insert_between; apply Forall_map; [eapply Forall_impl; [exact H1|]|eapply Forall_impl; [exact H2|]]; intros y [? _]; done.
  - rewrite existsb_app, P2. simpl. rewrite orb_false_r. apply orb_comm.
  - destruct (h_last x.1) eqn:Hl; [|done]. intros _. by apply (last_of_all x l1 l2).
  - rewrite existsb_app. simpl. rewrite orb_false_r. unfold headed. rewrite !h_first_start in *. revert P4.
    destruct (existsb (fun y => h_start y.1 =? 0) got) eqn:Ex; cbn [orb]; intros P4.
    + rewrite P4. replace (h_start head_of =? 0) with true; [by rewrite andb_false_r|]. symmetry. apply Z.eqb_eq.
      apply existsb_exists in Ex as (y & Hy & Ey). apply list_elem_of_In in Hy. rewrite <-(first_of_all y); [lia|by apply Hsub|lia].
    + rewrite P4. cbn [negb]. rewrite andb_true_r. destruct (h_start x.1 =? 0) eqn:Es; cbn [pt_hdr]; [apply first_of_all; [done|lia]|done].
Qed.
Lemma so_far_nil : so_far [] = [].
Proof. unfold so_far. clear. induction fl as [|y l IH]; [done|]. rewrite filter_cons, decide_False by apply not_elem_of_nil. exact IH. Qed.
Lemma progress_first x : x ∈ fl -> progress [x] (extended x.1 (cut x) (fresh x.1)).
Proof.
  intros Hx. apply list_elem_of_split in Hx as (l1 & l2 & Ef). destruct (so_far_snoc [] x l1 l2 Ef ltac:(apply not_elem_of_nil)) as (m1 & m2 & E1 & E2 & _).
  rewrite so_far_nil in E1. symmetry in E1. apply app_eq_nil in E1 as [-> ->]. split; simpl.
  - change ([] ++ [x]) with [x] in E2. by rewrite E2.
  - done.
  - destruct (h_last x.1) eqn:El; [|done]. intros _. by apply (last_of_all x l1 l2).
  - rewrite orb_false_r, h_first_start. destruct (h_start x.1 =? 0) eqn:Es; [|done]. apply first_of_all; [|lia]. rewrite Ef. set_solver.
Qed.
(** The fragment without the flag for more is behind all others. *)
Lemma last_is_last y z : y ∈ fl -> z ∈ fl -> h_last z.1 = true -> y <> z -> before y z.
Proof.
  intros Hy Hz Hl Hn. apply list_elem_of_split in Hz as (l1 & l2 & Ef). destruct (last_of_all z l1 l2 Ef Hl) as [-> _].
  pose proof Hfl as Hs. rewrite Ef in Hs. destruct (fragments_split _ _ _ _ Hs) as (H1 & _). rewrite Ef in Hy.
  apply elem_of_app in Hy as [Hy|Hy%list_elem_of_singleton]; [|done]. rewrite Forall_forall in H1. by apply H1.
Qed.
(** Until all fragments are there, the datagram is not complete. *)
Lemma progress_unfinished got y p : progress got p -> (forall x, x ∈ got -> x ∈ fl) -> y ∈ fl -> (y ∉ got) -> finished p = false.
Proof.
  intros [P1 P2 _ _] Hsub Hy Hn. unfold finished. destruct (pt_last p); [|done]. cbn [andb].
  destruct (covers 0 (pt_pieces p)) eqn:Ec; [|done]. exfalso. rewrite P1 in Ec. symmetry in P2.
  apply existsb_exists in P2 as (z & Hz & Ez). apply list_elem_of_In in Hz. assert (Hzf : z ∈ fl) by (by apply Hsub).
  pose proof (last_is_last y z Hy Hzf Ez) as Hyz. assert (Hne : y <> z) by (by intros ->). destruct (Hyz Hne) as [Hyz1 _].
  pose proof Hy as Hy'. apply list_elem_of_split in Hy' as (l1 & l2 & Ef). destruct (so_far_snoc got y l1 l2 Ef Hn) as (m1 & m2 & E1 & _ & H1 & H2).
  assert (Hzm : z ∈ so_far got) by (by apply list_elem_of_filter). rewrite E1 in Hzm, Ec. apply elem_of_app in Hzm as [Hzm|Hzm].
  { rewrite Forall_forall in H1. destruct (H1 _ Hzm). lia. }
  destruct m2 as [|w m2]; [by apply elem_of_nil in Hzm|]. apply Forall_cons in H2 as [[Hw _] _]. rewrite map_app in Ec. cbn [map] in Ec.
  pose proof (h_start_range y.1) as Hr. pose proof (covers_bound 0 (cut y).1 _ _ _ Ec) as Hb. simpl in *. enough (h_start w.1 <= h_start y.1) by lia.
  apply Hb; [lia|]. apply Forall_map. eapply Forall_impl; [exact H1|]. by intros x [_ ?].
Qed.
Lemma progress_finished got p : progress got p -> got ≡ₚ fl ->
  finished p = true /\ datagram_of p = whole_header head_of (Z.of_nat (length D) + 20) ++ D.
Proof.
  intros [P1 P2 P3 P4] Hg. assert (Es : so_far got = fl) by (unfold so_far; apply filter_every; intros x Hx; by rewrite Hg).
  assert (Hlast : pt_last p = true).
  { rewrite P2. apply existsb_exists. pose proof Hfl as Hs. destruct fl as [|x l _] using rev_ind; [done|]. exists x.
    split; [apply list_elem_of_In; rewrite Hg; set_solver|]. by apply (fragments_split _ _ _ _ Hs). }
  assert (Hfirst : existsb (fun x => h_start x.1 =? 0) got = true).
  { apply existsb_exists. pose proof Hfl as Hs. destruct fl as [|[h d] l]; [done|]. exists (h, d).
    split; [apply list_elem_of_In; rewrite Hg; by left|]. destruct Hs as [Hs _]. simpl. lia. }
  rewrite Hfirst in P4. unfold finished, datagram_of. rewrite P1, Es, (P3 Hlast), P4, Hlast, (fragments_cover _ _ Hfl). split; [done|]. f_equal.
  clear. induction fl as [|x l IH]; [done|]. change (x.2 ++ (map cut l ≫= snd) = x.2 ++ (l ≫= snd)). by rewrite IH.
Qed.
(** The fragments that are still to come are taken one by one. *)
Lemma accept_rest rest got p : progress got p -> got ++ rest ≡ₚ fl -> rest <> [] ->
  accept_all rest (Some p) = (None, replicate (length rest - 1) None ++ [Some (whole_header head_of (Z.of_nat (length D) + 20) ++ D)]).
Proof.
  revert got p. induction rest as [|x rest IH]; intros got p Hp Hg Hne; [done|]. pose proof (fragments_NoDup _ _ Hfl) as Hnd.
  assert (Hnd' : NoDup (got ++ x :: rest)) by (by rewrite Hg). apply NoDup_app in Hnd' as (_ & Hd & _).
  assert (Hx : x ∈ fl) by (rewrite <-Hg; set_solver). assert (Hxg : x ∉ got) by (intros Hin; apply (Hd x Hin); by left).
  assert (Hsub : forall y, y ∈ got -> y ∈ fl) by (intros y Hy; rewrite <-Hg; set_solver).
  pose proof (progress_step got x p Hx Hxg Hsub Hp) as Hp'. rewrite (cons_middle x got rest), (assoc_L (++)) in Hg.
  assert (Hrf : refused x.1 (cut x) (headed x.1 (Some p)) = false).
  { apply (not_refused got); [done|done|]. rewrite <-(pr_pieces _ _ Hp). simpl. by destruct (_ && _). }
  destruct x as [h d]. cbn [accept_all]. unfold accept. change (h_start h, d) with (cut (h, d)). cbn [fst snd] in *. rewrite Hrf.
  destruct rest as [|y rest].
  - rewrite app_nil_r in Hg. destruct (progress_finished _ _ Hp' Hg) as [-> ->]. done.
  - rewrite (progress_unfinished _ y _ Hp').
    + rewrite (IH _ _ Hp' Hg) by done. simpl. by rewrite Nat.sub_0_r.
    + intros z Hz. rewrite <-Hg. set_solver.
    + rewrite <-Hg. set_solver.
    + rewrite <-Hg in Hnd. apply NoDup_app in Hnd as (_ & Hd' & _). intros Hin. apply (Hd' y Hin). by left.
Qed.
Set Default Proof Using "Type".
End any_order.

Lemma reassembly_any_order fl fl' : fragments 0 fl -> 20 + Z.of_nat (length (fl ≫= snd)) <= 0xffff -> fl' ≡ₚ fl ->
  accept_all fl' None =
    (None, replicate (length fl - 1) None ++ [Some (whole_header (head_of fl) (Z.of_nat (length (fl ≫= snd)) + 20) ++ (fl ≫= snd))]).
Proof.
  intros Hfl Hfits Hp. rewrite <-(Permutation_length Hp). destruct fl' as [|x rest]; [by apply Permutation_nil in Hp; subst|].
  assert (Hx : x ∈ fl) by (rewrite <-Hp; by left). assert (Hn : x ∉ []) by apply not_elem_of_nil.
  assert (Hf : refused x.1 (cut x) (fresh x.1) = false) by (apply (not_refused fl Hfl Hfits []); [done..|]; by rewrite (so_far_nil fl Hfl Hfits)).
  pose proof (progress_first fl Hfl Hfits x Hx) as Hp'.
  destruct x as [h d]. cbn [accept_all]. unfold accept. change (h_start h, d) with (cut (h, d)). cbn [fst snd headed] in *. rewrite Hf.
  destruct rest as [|y rest].
  - by destruct (progress_finished fl Hfl Hfits _ _ Hp' Hp) as [-> ->].
  - rewrite (progress_unfinished fl Hfl Hfits _ y _ Hp').
    + rewrite (accept_rest fl Hfl Hfits _ _ _ Hp' Hp) by done. simpl. by rewrite Nat.sub_0_r.
    + intros z Hz. rewrite <-Hp. set_solver.
    + rewrite <-Hp. set_solver.
    + pose proof (fragments_NoDup _ _ Hfl) as Hnd. rewrite <-Hp in Hnd. apply NoDup_cons in Hnd as [Hnd _]. set_solver.
Qed.

(** C4. However the fragments of a datagram are ordered when they are passed to [ip4_reass], each of them once and each in some state
    where there is room for it ([IP_REASS_MAX_PBUFS] is not exceeded, and for the first to arrive an entry is left in the pool) and what has arrived of its
    datagram is still there, whatever happens to other datagrams in between, nothing is handed back before the last of
    them is there, and then one packet is, with all bytes of the datagram in their places
    behind the header of the first fragment; nothing of it stays in the queue. *)
Theorem ip4_reass_any_order {S R : Type} `{!PbufAlloc S} `{!FragPool S} `{!Pool R} {Link : @LinkDriver S _} call_custom_free garbage ipfrag_free_fn
    fl fl' : fragments 0 fl -> Forall (fun x => h_hlen x.1 = 20 /\ hkey x.1 = hkey (head_of fl)) fl ->
  20 + Z.of_nat (length (fl ≫= snd)) <= 0xffff -> fl' ≡ₚ fl ->
  delivers (S := S) (R := R) call_custom_free garbage ipfrag_free_fn fl' None
    (whole_header (head_of fl) (Z.of_nat (length (fl ≫= snd)) + 20) ++ (fl ≫= snd)).
Proof.
  intros Hfl Hk Hfits Hp. apply accept_delivers.
  - rewrite Hp. eapply Forall_impl; [exact Hk|]. by intros x [? _].
  - intros ->. apply Permutation_nil in Hp. by subst.
  - rewrite (Permutation_length Hp). by apply reassembly_any_order.
Qed.

(** ** The properties at a concrete host *)

Section example.
#[local] Existing Instance example_PbufAlloc.
#[local] Existing Instance example_FragPool.
Definition example_ReassPool : Pool memp_state := memp_Pool example_pools example_pools_wf 0 _ eq_refl.
#[local] Existing Instance example_ReassPool.

(** The first eight bytes of a datagram of thirteen from 10.0.0.2, and the others. *)
Definition frag1_hdr : list Z := ip_header_of 0 28 9 IP_MF 64 17 0x0200000a 0x0100000a.
Definition frag1_data : list Z := [1; 2; 3; 4; 5; 6; 7; 8].
Definition frag2_hdr : list Z := ip_header_of 0 25 9 1 64 17 0x0200000a 0x0100000a.
Definition frag2_data : list Z := [9; 10; 11; 12; 13].
Lemma ip4_reass_any_order_witness :
  delivers (Link := example_driver) no_custom zeros 0 [(frag2_hdr, frag2_data); (frag1_hdr, frag1_data)] None
    (whole_header frag1_hdr 33 ++ [1; 2; 3; 4; 5; 6; 7; 8; 9; 10; 11; 12; 13]).
Proof.
  refine (ip4_reass_any_order (Link := example_driver) no_custom zeros 0 [(frag1_hdr, frag1_data); (frag2_hdr, frag2_data)] _ _ _ _ _).
  - vm_compute. repeat split; lia.
  - repeat (apply Forall_cons; split; [by vm_compute|]). by apply Forall_nil.
  - vm_compute. discriminate.
  - apply Permutation_swap.
Defined.

Definition frag_host : @ipnet (memp_state * Z) memp_state := example_ip (example_frame (frag1_hdr ++ frag1_data)).
Lemma frag_arrives : arrives (Link := example_driver) ∅ frag_host [] 0x10000 (ram_pbuf 0x10000 0 28) [] frag1_hdr frag1_data.
Proof.
  assert (Hr : refs_ok ({[+ 0x10000 +]} ⊎ ∅) (pm (low frag_host))) by (apply example_frame_refs; [done|vm_compute; reflexivity]).
  assert (Hl : link_ok (Link := example_driver) (held (all_frags []) ⊎ ({[+ 0x10000 +]} ⊎ ∅)) (low frag_host))
    by (apply example_link_ok; change (held (all_frags [])) with (∅ : gmultiset Z); by rewrite (left_id_L ∅ (⊎))).
  split; [apply gmultiset_not_elem_of_empty| | |vm_compute; reflexivity|done|vm_compute; discriminate].
  - split; [|done]. split; try done; [split; [constructor|]; intros f Hf; by apply elem_of_nil in Hf| |constructor|apply example_interfaces].
    split; try done; [constructor|]. exists ∅. split; [|set_solver]. apply memp_init_inv; [apply example_pools_wf|apply example_booted].
  - split; try done.
    + split; [vm_compute; by repeat split|]. split; [|intros x Hx; by apply elem_of_nil in Hx].
      intros x Hx%list_elem_of_singleton. subst x. by vm_compute.
    + by apply Forall_singleton.
    + apply bytes_eval. vm_compute. reflexivity.
    + exact (proj2 (example_private 0x10000 ∅ (example_frame (frag1_hdr ++ frag1_data)))).
Qed.
(** The first fragment is kept. *)
Lemma first_kept : exists st1 ds1, ip4_reass (Link := example_driver) no_custom zeros 0 0x10000 frag_host = Ok (0, st1) /\
  reass_ok (Link := example_driver) ∅ st1 ds1 /\ pt_pieces <$> view frag1_hdr ds1 = Some [(0, frag1_data)].
Proof.
  pose proof frag_arrives as [Hp Hok Hi Hl Hf Hs].
  destruct (ip4_reass_spec (Link := example_driver) no_custom zeros 0 ∅ _ _ _ _ _ _ _ Hp Hok Hi Hl Hf Hs) as (r & st' & ds1 & Er & _ & P & _ & Hroom).
  destruct (Hroom ltac:(vm_compute; reflexivity) ltac:(vm_compute; discriminate) ltac:(right; vm_compute; lia)) as [-> Hpr].
  destruct (processed_view _ _ _ _ _ _ Hpr (reass_listed _ _ _ Hok) eq_refl) as (ds' & H1 & _ & H3).
  assert (Ea : accept frag1_hdr frag1_data (view frag1_hdr []) = (Some (extended frag1_hdr (0, frag1_data) (fresh frag1_hdr)), None))
    by (vm_compute; reflexivity).
  cbn [fd new_frag] in H1, H3. rewrite Ea in H1, H3. destruct H3 as [-> Hok']. exists st', ds'. split; [done|]. split; [done|]. rewrite H1. done.
Qed.

Lemma ip4_reass_refines_witness :
  exists r st' ds', ip4_reass (Link := example_driver) no_custom zeros 0 0x10000 frag_host = Ok (r, st') /\ passes ∅ frag_host st' /\
    view frag1_hdr ds' = (accept frag1_hdr frag1_data None).1 /\ (forall h', hkey h' <> hkey frag1_hdr -> view h' ds' = view h' []) /\
    handed (Link := example_driver) ∅ (accept frag1_hdr frag1_data None).2 r st' ds'.
Proof.
  refine (ip4_reass_refines (Link := example_driver) no_custom zeros 0 ∅ frag_host [] _ _ _ _ _ frag_arrives _ _ _).
  - vm_compute. reflexivity.
  - vm_compute. discriminate.
  - right. vm_compute. lia.
Defined.
(** There is room for the first fragment, and it is kept. *)
Lemma ip4_reass_safe_witness :
  exists r st' ds', ip4_reass (Link := example_driver) no_custom zeros 0 0x10000 frag_host = Ok (r, st') /\ passes ∅ frag_host st' /\
    handed (Link := example_driver) ∅ None r st' ds' /\ pt_pieces <$> view frag1_hdr ds' = Some [(0, frag1_data)].
Proof.
  destruct (ip4_reass_safe (Link := example_driver) no_custom zeros 0 ∅ frag_host [] _ _ _ _ _ frag_arrives)
    as (r & st' & ds1 & ds' & o & Er & P & _ & Hh & _ & Hroom).
  destruct Hroom as [_ Ha]; [split; [vm_compute; reflexivity|]; split; [vm_compute; discriminate|right; vm_compute; lia]|].
  assert (Ea : accept frag1_hdr frag1_data (view frag1_hdr []) = (Some (extended frag1_hdr (0, frag1_data) (fresh frag1_hdr)), None))
    by (vm_compute; reflexivity).
  rewrite Ea in Ha. injection Ha as Hv ->. exists r, st', ds'. repeat (split; [done|]). by rewrite Hv.
Defined.
(** The second fragment never comes. *)
Lemma ip_reass_expires_witness :
  exists st1 st', ip4_reass (Link := example_driver) no_custom zeros 0 0x10000 frag_host = Ok (0, st1) /\
    periods (Link := example_driver) no_custom zeros 0 16 st1 = Ok (tt, st') /\ reassdatagrams st' = 0 /\ ip_reass_pbufcount st' = 0 /\
    link_ok (Link := example_driver) ∅ (low st').
Proof.
  destruct first_kept as (st1 & ds1 & E1 & Hok & _).
  destruct (ip_reass_expires (Link := example_driver) no_custom zeros 0 ∅ st1 ds1 16 Hok eq_refl) as (st' & Ep & _ & H1 & _ & H2 & H3).
  exists st1, st'. exact (conj E1 (conj Ep (conj H1 (conj H2 H3)))).
Defined.
Lemma ip_reass_tmr_correct_witness :
  exists st1 ds1 st', ip4_reass (Link := example_driver) no_custom zeros 0 0x10000 frag_host = Ok (0, st1) /\
    ip_reass_tmr (Link := example_driver) no_custom zeros 0 st1 = Ok (tt, st') /\
    reass_ok (Link := example_driver) ∅ st' (omap tick ds1) /\ passes ∅ st1 st' /\ expiries (Link := example_driver) no_custom zeros ds1 st1 st'.
Proof.
  destruct first_kept as (st1 & ds1 & E1 & Hok & _).
  destruct (ip_reass_tmr_correct (Link := example_driver) no_custom zeros 0 ∅ st1 ds1 Hok) as (st' & Hrest).
  exists st1, ds1, st'. split; [exact E1|exact Hrest].
Defined.
End example.
