(* ===== verification/Headers.v ===== *)
(** * Packets and their headers

    On the way up the payload pointer of a packet moves behind each header
    ([pbuf_remove_header]); an error moves it back to the header of IP
    ([pbuf_header_force]).  Neither changes a byte, nor another packet. *)

From stdpp Require Import gmultiset.
From S2P Require Import Prelude Def Chksum Ip4Addr Memp Mem Pbuf PbufData PbufHeap PbufSole Ethernet Link Acd Etharp EtharpIo Ip4 Icmp.

Set Default Proof Using "Type".

Section headers.
Context {S : Type} `{!PbufAlloc S}.
Context {Link : LinkDriver}.
Abbreviation net := (@Ethernet.net S).
Implicit Types (nst : net) (s : @pstate S).

(** The payload of the first pbuf moved by [k] bytes, which may be negative. *)
Definition moved_head s (p : Z) (b : pbuf) (l : list (Z * pbuf)) (k : Z) : @pstate S :=
  with_pbufs s (<[p := link (shift b k) l]> (pbufs s)).

Lemma moved_head_calm s p b l k : packet (pbufs s) ((p, b) :: l) -> indeg (pbufs s) p = 0 -> calm (fun q => q <> p) s (moved_head s p b l k).
Proof.
  intros Hp Hi. assert (Hb : pbufs s !! p = Some (link b l)) by apply Hp.
  assert (Hind : forall x, indeg (pbufs (moved_head s p b l k)) x = indeg (pbufs s) x) by (intros x; by apply (indeg_update _ _ _ _ _ Hb)).
  apply calm_all; [done| |intros x; by apply reach_other|by intros; rewrite Hind].
  intros q _ Hq. apply spared_keep; [|done|done]. simpl. by apply lookup_insert_ne.
Qed.
Lemma moved_head_refs E s p b l k : refs_ok E s -> packet (pbufs s) ((p, b) :: l) -> indeg (pbufs s) p = 0 ->
  0 < len b -> k <= len b -> total ((p, b) :: l) - k < 65536 -> extent s (ptr_add (payload b) k) (len b - k) ->
  refs_ok E (moved_head s p b l k) /\ packet (pbufs (moved_head s p b l k)) ((p, shift b k) :: l).
Proof.
  intros H Hp Hi Hb1 Hk Ht (bs & Hbs & Ho & Hl). assert (Hsz := refs_sized _ _ _ _ _ H Hp). pose proof Hsz as (Hsl & Hb0 & Htot)%sized_cons.
  assert (Hb : pbufs s !! p = Some (link b l)) by apply Hp.
  destruct (refs_counts _ _ _ _ H Hb) as (_ & _ & _ & Hst).
  split; [|by apply (packet_head _ _ b)]. apply (heap_head E s p b); try done.
  - split; [constructor; [simpl; lia|apply Hsl]|simpl in *; lia].
  - unfold stored in *. change (contiguous (link (shift b k) l)) with (contiguous b). change (contiguous (link b l)) with (contiguous b) in Hst.
    destruct (contiguous b).
    + destruct Hst as (o & bs' & Hpl & Hbs' & _). simpl in Hpl, Hbs'. exists (o + k), bs'. simpl. rewrite Hpl in *. simpl in *.
      assert (bs' = bs) as -> by congruence. split; [done|]. split; [done|]. lia.
    + destruct Hst as [Hz|[_ Hno]]; [simpl in Hz; lia|]. right. split; [by exists bs|]. intros q o. simpl in *.
      destruct (payload b) as [|q' o'|]; simpl; try done. by destruct (Hno q' o').
Qed.

Lemma moved_head_lends E nst p b l k : link_ok E nst -> packet (pbufs (pm nst)) ((p, b) :: l) -> indeg (pbufs (pm nst)) p = 0 ->
  0 < len b -> k <= len b -> total ((p, b) :: l) - k < 65536 -> extent (pm nst) (ptr_add (payload b) k) (len b - k) ->
  lends p E nst (with_pm nst (moved_head (pm nst) p b l k)) /\ packet (pbufs (moved_head (pm nst) p b l k)) ((p, shift b k) :: l).
Proof.
  intros H Hp Hi Hb Hk Ht Hx. destruct (moved_head_refs _ (pm nst) p b l k (link_refs _ _ H)) as [Hr Hp']; try done.
  split; [|done]. apply lends_pm; [done|done|by apply moved_head_calm].
Qed.
Lemma packet_extent E s p b l : refs_ok E s -> packet (pbufs s) ((p, b) :: l) -> 0 < len b -> extent s (payload b) (len b).
Proof.
  intros H Hp Hb. pose proof (refs_readable _ _ _ H Hp) as Hrd. apply Forall_cons in Hrd as [[Hz|Hx] _]; [simpl in Hz; lia|exact Hx].
Qed.
Lemma extent_drop s x n k : extent s x n -> 0 <= k <= n -> extent s (ptr_add x k) (n - k).
Proof. intros (bs & Hbs & Ho & Hl) Hk. exists bs. rewrite mem_obj_add, ptr_ofs_add. split; [done|]. lia. Qed.

(** What is left behind a header. *)
Lemma shifted_data s p b l k : extent s (payload b) (len b) -> 0 <= k <= len b ->
  data (moved_head s p b l k) ((p, shift b k) :: l) = drop (Z.to_nat k) (data s ((p, b) :: l)).
Proof.
  intros (bs & Hbs & Ho & Hl) Hk. change (data (moved_head s p b l k)) with (data s). rewrite !data_cons.
  assert (Hx : slice (ptr_ofs (payload b)) (len b) bs = slice (ptr_ofs (payload b)) k bs ++ slice (ptr_ofs (payload b) + k) (len b - k) bs).
  { rewrite <-slice_split by lia. f_equal. lia. }
  unfold pbuf_bytes. simpl. rewrite mem_obj_add, ptr_ofs_add, Hbs. simpl. rewrite Hx, <-(assoc_L (++)).
  rewrite drop_app_length'; [done|]. rewrite slice_length; lia.
Qed.
(** A header in front becomes data again. *)
Lemma fronted_data s p b l hs : extent s (payload b) (len b) -> region s (ptr_add (payload b) (- Z.of_nat (length hs))) hs -> 0 < len b ->
  data (moved_head s p b l (- Z.of_nat (length hs))) ((p, shift b (- Z.of_nat (length hs))) :: l) = hs ++ data s ((p, b) :: l) /\
  extent s (ptr_add (payload b) (- Z.of_nat (length hs))) (len b - - Z.of_nat (length hs)).
Proof.
  intros (bs & Hbs & Ho & Hl) (bs' & Hbs' & Ho' & Hl' & Hhs) Hb. rewrite mem_obj_add, ?ptr_ofs_add in *. assert (bs' = bs) as -> by congruence.
  split; [|exists bs; rewrite mem_obj_add, ptr_ofs_add; split; [done|]; lia].
  change (data (moved_head s p b l ?k)) with (data s). rewrite !data_cons, (assoc_L (++)). f_equal.
  unfold pbuf_bytes. simpl. rewrite mem_obj_add, ptr_ofs_add, Hbs. simpl.
  replace (len b - - Z.of_nat (length hs)) with (Z.of_nat (length hs) + len b) by lia. rewrite slice_split by lia. f_equal; [by symmetry|]. f_equal. lia.
Qed.

(** ** The operations *)

Lemma remove_front E nst p b l k : link_ok E nst -> packet (pbufs (pm nst)) ((p, b) :: l) -> indeg (pbufs (pm nst)) p = 0 -> 0 < k <= len b ->
  pbuf_remove_header p k (pm nst) = Ok (false, moved_head (pm nst) p b l k) /\
  lends p E nst (with_pm nst (moved_head (pm nst) p b l k)) /\
  packet (pbufs (moved_head (pm nst) p b l k)) ((p, shift b k) :: l) /\
  data (moved_head (pm nst) p b l k) ((p, shift b k) :: l) = drop (Z.to_nat k) (data (pm nst) ((p, b) :: l)).
Proof.
  intros H Hp Hi Hk. assert (Hr := link_refs _ _ H). assert (Hsz := refs_sized _ _ _ _ _ Hr Hp). pose proof Hsz as (Hsl & _ & Htot)%sized_cons.
  assert (Hx := packet_extent _ _ _ _ _ Hr Hp ltac:(lia)).
  split; [rewrite (pbuf_remove_header_spec p b l k _ Hp Hsz) by lia; by replace (k <=? len b) with true by lia|].
  destruct (moved_head_lends E nst p b l k) as [HL Hp']; try done; try lia; [simpl; pose proof (total_nonneg _ (proj1 Hsl)); lia|by apply extent_drop; [|lia]|].
  split; [done|]. split; [done|]. apply shifted_data; [done|lia].
Qed.

Lemma force_front E nst p b l k hs : link_ok E nst -> packet (pbufs (pm nst)) ((p, b) :: l) -> indeg (pbufs (pm nst)) p = 0 ->
  0 <= k <= len b -> 0 < len b -> hs <> [] -> total ((p, b) :: l) + Z.of_nat (length hs) < 65536 ->
  region (pm nst) (ptr_add (payload b) (- Z.of_nat (length hs))) hs ->
  let n := Z.of_nat (length hs) in let s1 := moved_head (pm nst) p b l (- n) in
  pbuf_header_force p (n + k) (moved_head (pm nst) p b l k) = Ok (false, s1) /\
  lends p E nst (with_pm nst s1) /\ packet (pbufs s1) ((p, shift b (- n)) :: l) /\
  data s1 ((p, shift b (- n)) :: l) = hs ++ data (pm nst) ((p, b) :: l).
Proof.
  intros H Hp Hi Hk Hb Hhs Ht Hreg n s1. assert (Hr := link_refs _ _ H).
  assert (Hn : 0 < n) by (unfold n; destruct hs; [done|simpl; lia]).
  assert (Hx := packet_extent _ _ _ _ _ Hr Hp Hb). destruct (fronted_data (pm nst) p b l hs Hx Hreg Hb) as [Hd Hx1]. fold n in Hd, Hx1.
  pose proof (refs_sized _ _ _ _ _ Hr Hp) as (Hsl & _ & Htot)%sized_cons. pose proof (total_nonneg _ (proj1 Hsl)) as Htl.
  destruct (moved_head_lends E nst p b l (- n)) as [HL Hp']; try done; try (simpl in *; lia).
  split; [|done].
  destruct (moved_head_refs _ (pm nst) p b l k Hr Hp Hi Hb) as [Hrk Hpk]; [lia|simpl in *; lia|by apply extent_drop; [|lia]|].
  unfold pbuf_header_force, pbuf_header_impl. replace (n + k <? 0) with false by lia.
  rewrite (pbuf_add_header_impl_spec p (shift b k) l (n + k) true _ Hpk (refs_sized _ _ _ _ _ Hrk Hpk)) by lia.
  replace (header_room p (shift b k) l (n + k) true) with true.
  - unfold s1, moved_head, with_pbufs. simpl. rewrite insert_insert_eq, shift_shift. by replace (k + - (n + k)) with (- n) by lia.
  - symmetry. unfold header_room. change (negb (Z.land (type_internal (shift b k)) PBUF_TYPE_FLAG_STRUCT_DATA_CONTIGUOUS =? 0)) with (contiguous b).
    simpl in Ht. cbn [len shift with_extent payload]. assert (Hb' : pbufs (pm nst) !! p = Some (link b l)) by apply Hp.
    destruct (refs_counts _ _ _ _ Hr Hb') as (_ & _ & _ & Hst). unfold stored in Hst. change (contiguous (link b l)) with (contiguous b) in Hst.
    destruct (contiguous b); [|simpl; lia]. destruct Hst as (o & bs & Hpl & _). simpl in Hpl. destruct Hx1 as (? & _ & Ho & _).
    rewrite Hpl in *. simpl in *. lia.
Qed.
(** The holder of [p] changed the heap, and what follows gives [p] up. *)
Lemma lent_steps E nst s p nst2 : p ∉ E -> lends p ({[+ p +]} ⊎ E) nst (with_pm nst s) -> steps E (with_pm nst s) nst2 -> steps E nst nst2.
Proof.
  intros Hp L. apply steps_pm; [done|done|]. eapply calm_weaken; [apply L|].
  intros x [HxE Hxq]. split; [split; [apply gmultiset_elem_of_disj_union; by right|done]|by intros ->].
Qed.

(** ** Padding *)

(** The padding behind the first [n] bytes of [p] is cut off, as [ip4_input] does. *)
Definition unpadded (call_custom_free : Z -> Z -> ST (@pstate S) unit) (p n : Z) s : @pstate S :=
  match pbufs s !! p with
  | Some b => if n <? tot_len b then match pbuf_realloc call_custom_free p n s with Ok (_, s') => s' | _ => s end else s
  | None => s
  end.
(** The packet in [nst] without what exceeds [n] bytes. *)
Record trimmed (call_custom_free : Z -> Z -> ST (@pstate S) unit) (E : gmultiset Z) nst s (p : Z) (b : pbuf) (l : list (Z * pbuf)) (n : Z) (b' : pbuf) (l' : list (Z * pbuf)) : Prop := {
  trim_lends : lends p E nst (with_pm nst s);
  trim_sole : sole (E ⊎ queued (arp_table nst)) (pbufs s) ((p, b') :: l');
  trim_data : data s ((p, b') :: l') = take (Z.to_nat n) (data (pm nst) ((p, b) :: l));
  trim_total : total ((p, b') :: l') = Z.min n (total ((p, b) :: l));
  trim_len : len b' = Z.min n (len b);
  trim_payload : payload b' = payload b;
  trim_contiguous : contiguous b' = contiguous b;
  trim_solid : solid ((p, b) :: l) -> 0 < n -> solid ((p, b') :: l');
  trim_count : (length l' <= length l)%nat;
  trim_small k : Forall (fun x => len x.2 <= k) ((p, b) :: l) -> Forall (fun x => len x.2 <= k) ((p, b') :: l');
  trim_copy : needs_copy ((p, b') :: l') = true -> needs_copy ((p, b) :: l) = true;
  trim_state : s = unpadded call_custom_free p n (pm nst)
}.

Lemma cut_copy n l : needs_copy (cut n l).1 = true -> needs_copy l = true.
Proof.
  revert n. induction l as [|[a b] l IH]; intros n; [done|]. unfold needs_copy in *. simpl. rewrite orb_true_iff.
  destruct (len b <? n); simpl; rewrite orb_true_iff; [|intros [?|?]; [by left|done]]. intros [?|Hc]; [by left|right; by eapply IH].
Qed.

Lemma cut_solid n l : 0 < n <= total l -> solid l -> solid (cut n l).1.
Proof.
  revert n. induction l as [|[a b] l IH]; intros n Hn Hs; [constructor|]. apply Forall_cons in Hs as [Hb Hs]. simpl in *.
  destruct (Z.ltb_spec (len b) n); simpl; [constructor; [done|apply IH; [lia|done]]|constructor; [simpl; lia|constructor]].
Qed.
Lemma cut_length n l : (length (cut n l).1 <= length l)%nat.
Proof. revert n. induction l as [|[a b] l IH]; intros n; simpl; [lia|]. destruct (_ <? _); simpl; [specialize (IH (n - len b))|]; lia. Qed.
Lemma cut_small k n l : Forall (fun x => len x.2 <= k) l -> Forall (fun x => len x.2 <= k) (cut n l).1.
Proof.
  revert n. induction l as [|[a b] l IH]; intros n Hs; [constructor|]. apply Forall_cons in Hs as [Hb Hs]. simpl in *.
  destruct (Z.ltb_spec (len b) n); simpl; [constructor; [done|by apply IH]|constructor; [simpl; lia|constructor]].
Qed.
Lemma cut_cons n p b l : exists b' l', (cut n ((p, b) :: l)).1 = (p, b') :: l' /\ len b' = Z.min n (len b) /\ payload b' = payload b /\
  contiguous b' = contiguous b /\ forall x, x ∈ addrs l' -> x ∈ addrs l.
Proof.
  simpl. destruct (Z.ltb_spec (len b) n).
  - eexists b, _. split; [done|]. split; [lia|]. split; [done|]. split; [done|]. revert n H. generalize (len b). induction l as [|[a c] l IH]; intros k n Hn x; simpl; [done|].
    destruct (Z.ltb_spec (len c) (n - k)); simpl; [|by set_solver]. intros [->|Hx]%elem_of_cons; [by left|right]. eapply (IH (len c + k) n); [lia|].
    by replace (n - (len c + k)) with (n - k - len c) by lia.
  - exists (with_len b n), []. split; [done|]. split; [simpl; lia|]. split; [done|]. split; [done|]. intros x Hx. by apply elem_of_nil in Hx.
Qed.

Lemma trim_spec call_custom_free E nst p b l n : link_ok E nst -> sole (E ⊎ queued (arp_table nst)) (pbufs (pm nst)) ((p, b) :: l) -> p ∈ E ->
  0 <= n < total ((p, b) :: l) ->
  exists s b' l', pbuf_realloc call_custom_free p n (pm nst) = Ok (tt, s) /\ trimmed call_custom_free E nst s p b l n b' l'.
Proof.
  intros H Hs Hp Hn. destruct (pbuf_realloc_heap call_custom_free _ _ n _ (link_refs _ _ H) Hs Hn)
    as (s & Er & Hr & Hs' & Hd & Ht & Hh & Hsub & Hw & Ho & He).
  destruct (cut_cons n p b l) as (b' & l' & Ec & Hl & Hpl & Hct & Hta).
  assert (Hc : calm (fun q => q ∉ addrs ((p, b) :: l)) (pm nst) s) by (apply (realloc_calm _ _ n _ _ (link_refs _ _ H)); rewrite ?Ec in *; done).
  pose proof (refs_sized _ _ _ _ _ (link_refs _ _ H) (proj1 Hs)) as Hz.
  assert (Hso : solid ((p, b) :: l) -> 0 < n -> solid (cut n ((p, b) :: l)).1) by (intros; by apply cut_solid; [lia|]).
  assert (Hcs : forall k, Forall (fun x => len x.2 <= k) ((p, b) :: l) -> Forall (fun x => len x.2 <= k) (cut n ((p, b) :: l)).1) by (intros k Hk; by apply cut_small).
  assert (Hcl := cut_length n ((p, b) :: l)). assert (Hcc := cut_copy n ((p, b) :: l)). rewrite Ec in *. exists s, b', l'. split; [exact Er|]. split; try done; [|lia|simpl in Hcl; lia|].
  2: { unfold unpadded. rewrite (proj1 (proj2 (proj1 Hs))). change (tot_len (link b l)) with (total ((p, b) :: l)).
       rewrite (proj2 (Z.ltb_lt _ _)) by lia. cbn [head_addr fst] in Er. by rewrite Er. }
  split; try done; [by eapply link_kept; [exact H|done|done|apply Hc]|].
  eapply calm_weaken; [exact Hc|]. intros x [[Hx _] Hne] Hin. apply elem_of_cons in Hin as [?|Hin]; [done|].
  pose proof (proj2 (proj2 Hs) x Hin) as Hm. rewrite elem_of_multiplicity in Hx. rewrite multiplicity_disj_union in Hm. lia.
Qed.
(** Nothing exceeds it. *)
Lemma trim_none call_custom_free E nst p b l n : link_ok E nst -> sole (E ⊎ queued (arp_table nst)) (pbufs (pm nst)) ((p, b) :: l) ->
  total ((p, b) :: l) <= n -> trimmed call_custom_free E nst (pm nst) p b l n b l.
Proof.
  intros H Hs Hn. pose proof (refs_sized _ _ _ _ _ (link_refs _ _ H) (proj1 Hs)) as Hz. pose proof Hz as (Hsl & Hb & _)%sized_cons.
  pose proof (total_nonneg _ (proj1 Hsl)). simpl in Hn.
  assert (Hlen : Z.of_nat (length (data (pm nst) ((p, b) :: l))) = total ((p, b) :: l)).
  { apply data_length; [exact (refs_readable _ _ _ (link_refs _ _ H) (proj1 Hs))|apply Hz]. }
  split; try done; [..|simpl; lia|lia|].
  - replace (with_pm nst (pm nst)) with nst by (by destruct nst). by apply lends_follows; [apply follows_refl|..].
  - rewrite take_ge; [done|]. simpl in Hlen. lia.
  - unfold unpadded. rewrite (proj1 (proj2 (proj1 Hs))). change (tot_len (link b l)) with (total ((p, b) :: l)).
    by rewrite (proj2 (Z.ltb_ge _ _)) by (simpl; lia).
Qed.
End headers.

(** ** Errors about a packet that is then freed *)

Section errors.
Context {S R : Type} `{!PbufAlloc S} `{!FragPool S}.
Abbreviation state := (@ipnet S R).
Context (call_custom_free : Z -> Z -> ST (@pstate S) unit) (garbage : Z -> Z).
Context {Link : LinkDriver}.
Context (ipfrag_free_fn : Z).

Lemma responds_pm E type code q src (st st' : state) s' :
  refs_ok E (pm (low st')) -> calm (.∈ queued (arp_table (low st'))) (pm (low st')) s' ->
  responds call_custom_free garbage type code q src st st' ->
  responds call_custom_free garbage type code q src st (with_low st' (with_pm (low st') s')).
Proof.
  intros H Hc (lst & Hl & Hx). exists lst. split; [done|]. cbv zeta in *. destruct (_ =? 0); [exact Hx|].
  destruct Hx as (nif & err & Hn & T). exists nif, err. split; [done|]. by eapply transmitted_pm.
Qed.

(** The packet [p], whose payload was moved by [k], is moved back to the header [hs]; the error quotes
    it, and it is freed. *)
Lemma unreach_spec E p b l k hs t (st : state) (nst := low st) :
  p ∉ E -> link_ok ({[+ p +]} ⊎ E) nst -> interfaces_ok st -> is_u16 (ip_id st) ->
  packet (pbufs (pm nst)) ((p, b) :: l) -> indeg (pbufs (pm nst)) p = 0 -> solid ((p, b) :: l) ->
  0 <= k <= len b -> 20 <= Z.of_nat (length hs) -> total ((p, b) :: l) + Z.of_nat (length hs) < 65536 ->
  region (pm nst) (ptr_add (payload b) (- Z.of_nat (length hs))) hs -> bytes (hs ++ data (pm nst) ((p, b) :: l)) ->
  let d := hs ++ data (pm nst) ((p, b) :: l) in
  exists s1 st2 c s3,
    pbuf_header_force p (Z.of_nat (length hs) + k) (moved_head (pm nst) p b l k) = Ok (false, s1) /\
    icmp_dest_unreach call_custom_free garbage ipfrag_free_fn p t (with_low st (with_pm nst s1)) = Ok (tt, st2) /\
    pbuf_free call_custom_free p (pm (low st2)) = Ok (c, s3) /\
    steps E nst (with_pm (low st2) s3) /\ ip_kept st st2 /\ is_u16 (ip_id st2) /\
    notified call_custom_free garbage (pm nst) ICMP_DUR (dur_code t) d st (with_low st2 (with_pm (low st2) s3)).
Proof.
  intros Hp H Hif Hid Hpk Hi Hso Hk Hl Ht Hreg Hby d.
  assert (Hhs : hs <> []) by (intros ->; simpl in Hl; lia). pose proof (Forall_inv Hso) as Hb. simpl in Hb.
  destruct (force_front _ nst p b l k hs H Hpk Hi Hk Hb Hhs Ht Hreg) as (Ef & L1 & Hp1 & Hd1).
  set (s1 := moved_head (pm nst) p b l (- Z.of_nat (length hs))) in *. set (st1 := with_low st (with_pm nst s1)).
  assert (Ht8 : is_u8 (dur_code t)) by by destruct t.
  destruct (icmp_send_response_spec call_custom_free garbage ipfrag_free_fn ({[+ p +]} ⊎ E) p (shift b (- Z.of_nat (length hs))) l ICMP_DUR (dur_code t) st1)
    as (st2 & Es & Hs & K & Hid2 & Hr); try done.
  - apply L1.
  - constructor; [simpl; lia|by inversion Hso].
  - simpl. unfold IP_HLEN. lia.
  - by rewrite <-Hd1 in Hby.
  - destruct (lends_free call_custom_free E p nst (low st2) Hp) as (c & s3 & Efr & Hst & Hc).
    { eapply lends_trans; [exact L1|]. destruct Hs as (F & N & A). by apply lends_follows. }
    exists s1, st2, c, s3. split; [exact Ef|]. split; [exact Es|]. split; [exact Efr|]. split; [exact Hst|]. split; [exact K|]. split; [done|].
    change (data (pm (low st1)) ((p, shift b (- Z.of_nat (length hs))) :: l)) with (data s1 ((p, shift b (- Z.of_nat (length hs))) :: l)) in Hr.
    rewrite Hd1 in Hr. destruct Hr as [[Hm Hf]|Hr]; [left; split; [by apply (no_memory_alloc _ _ _ _ _ s1)|done]|right].
    refine (responds_pm _ _ _ _ _ _ _ _ (link_refs _ _ (fol_ok _ _ _ (proj1 Hs))) _ _).
    + eapply calm_weaken; [exact Hc|]. intros x Hx. apply gmultiset_elem_of_disj_union. by right.
    + by refine (responds_start _ _ _ _ _ _ _ _ _ _ _ _ _ _ _ Hr).
Qed.
End errors.
