(* ===== verification/Pcb.v ===== *)
(** * Control blocks (include/lwip/ip.h, raw.h, udp.h, core/netif.c)

    The state of the host above IPv4: the control blocks of raw.c and udp.c, in
    stores of their own over the state of the IP layer.  Both files keep their blocks
    on a singly linked list and treat it in the same way; what they share is stated
    once, for any kind of block. *)

From stdpp Require Import gmultiset.
From S2P Require Import Prelude Def Chksum Ip4Addr Memp Mem Pbuf PbufData PbufHeap PbufSole Ethernet Link Acd Etharp EtharpIo Ip4 Icmp.

Set Default Proof Using "Type".

Definition ERR_USE : Z := -8.

(** [IP_PCB]: what all control blocks have. *)
Record ip_pcb := { local_ip : Z; remote_ip : Z; netif_idx : Z; so_options : Z; tos : Z; ttl : Z }.
Record raw_pcb := { rp_ip : ip_pcb; rp_next : Z; rp_protocol : Z; rp_flags : Z; rp_recv : Z; rp_recv_arg : Z }.
Record udp_pcb := {
  up_ip : ip_pcb; up_next : Z; up_flags : Z; up_local_port : Z; up_remote_port : Z; up_recv : Z; up_recv_arg : Z
}.

Definition with_local_ip (x : ip_pcb) (a : Z) : ip_pcb :=
  {| local_ip := a; remote_ip := remote_ip x; netif_idx := netif_idx x; so_options := so_options x; tos := tos x; ttl := ttl x |}.
Definition with_remote_ip (x : ip_pcb) (a : Z) : ip_pcb :=
  {| local_ip := local_ip x; remote_ip := a; netif_idx := netif_idx x; so_options := so_options x; tos := tos x; ttl := ttl x |}.
Definition with_netif_idx (x : ip_pcb) (i : Z) : ip_pcb :=
  {| local_ip := local_ip x; remote_ip := remote_ip x; netif_idx := i; so_options := so_options x; tos := tos x; ttl := ttl x |}.
Definition zero_pcb (t : Z) : ip_pcb :=
  {| local_ip := 0; remote_ip := 0; netif_idx := 0; so_options := 0; tos := 0; ttl := t |}.

Definition with_rp_ip (x : raw_pcb) (i : ip_pcb) : raw_pcb :=
  {| rp_ip := i; rp_next := rp_next x; rp_protocol := rp_protocol x; rp_flags := rp_flags x; rp_recv := rp_recv x; rp_recv_arg := rp_recv_arg x |}.
Definition with_rp_next (x : raw_pcb) (n : Z) : raw_pcb :=
  {| rp_ip := rp_ip x; rp_next := n; rp_protocol := rp_protocol x; rp_flags := rp_flags x; rp_recv := rp_recv x; rp_recv_arg := rp_recv_arg x |}.
Definition with_rp_flags (x : raw_pcb) (f : Z) : raw_pcb :=
  {| rp_ip := rp_ip x; rp_next := rp_next x; rp_protocol := rp_protocol x; rp_flags := f; rp_recv := rp_recv x; rp_recv_arg := rp_recv_arg x |}.
Definition with_rp_recv (x : raw_pcb) (f a : Z) : raw_pcb :=
  {| rp_ip := rp_ip x; rp_next := rp_next x; rp_protocol := rp_protocol x; rp_flags := rp_flags x; rp_recv := f; rp_recv_arg := a |}.

Definition with_up_ip (x : udp_pcb) (i : ip_pcb) : udp_pcb :=
  {| up_ip := i; up_next := up_next x; up_flags := up_flags x; up_local_port := up_local_port x; up_remote_port := up_remote_port x;
     up_recv := up_recv x; up_recv_arg := up_recv_arg x |}.
Definition with_up_next (x : udp_pcb) (n : Z) : udp_pcb :=
  {| up_ip := up_ip x; up_next := n; up_flags := up_flags x; up_local_port := up_local_port x; up_remote_port := up_remote_port x;
     up_recv := up_recv x; up_recv_arg := up_recv_arg x |}.
Definition with_up_flags (x : udp_pcb) (f : Z) : udp_pcb :=
  {| up_ip := up_ip x; up_next := up_next x; up_flags := f; up_local_port := up_local_port x; up_remote_port := up_remote_port x;
     up_recv := up_recv x; up_recv_arg := up_recv_arg x |}.
Definition with_up_local_port (x : udp_pcb) (v : Z) : udp_pcb :=
  {| up_ip := up_ip x; up_next := up_next x; up_flags := up_flags x; up_local_port := v; up_remote_port := up_remote_port x;
     up_recv := up_recv x; up_recv_arg := up_recv_arg x |}.
Definition with_up_remote_port (x : udp_pcb) (v : Z) : udp_pcb :=
  {| up_ip := up_ip x; up_next := up_next x; up_flags := up_flags x; up_local_port := up_local_port x; up_remote_port := v;
     up_recv := up_recv x; up_recv_arg := up_recv_arg x |}.
Definition with_up_recv (x : udp_pcb) (f a : Z) : udp_pcb :=
  {| up_ip := up_ip x; up_next := up_next x; up_flags := up_flags x; up_local_port := up_local_port x; up_remote_port := up_remote_port x;
     up_recv := f; up_recv_arg := a |}.

(** The counters of [lwip_stats.udp]. *)
Inductive udp_counter := udp_xmit | udp_recvd | udp_drop | udp_chkerr | udp_lenerr | udp_rterr | udp_proterr | udp_cachehit.
#[export] Instance udp_counter_eq_dec : EqDecision udp_counter.
Proof. solve_decision. Defined.

Section state.
Context {S R T U : Type}.
(** The IP layer below and the variables of raw.c and udp.c; [raw_pool] and [udp_pool] are
    [MEMP_RAW_PCB] and [MEMP_UDP_PCB]. *)
Record host := {
  ipl : @ipnet S R;
  raw_tab : gmap Z raw_pcb;
  raw_pcbs : Z;
  raw_pool : T;
  udp_tab : gmap Z udp_pcb;
  udp_pcbs : Z;
  udp_port : Z;
  udp_stats : udp_counter -> Z;
  udp_pool : U
}.
Definition with_ipl (st : host) (x : @ipnet S R) : host :=
  {| ipl := x; raw_tab := raw_tab st; raw_pcbs := raw_pcbs st; raw_pool := raw_pool st; udp_tab := udp_tab st; udp_pcbs := udp_pcbs st;
     udp_port := udp_port st; udp_stats := udp_stats st; udp_pool := udp_pool st |}.
Definition with_raw (st : host) (t : gmap Z raw_pcb) (h : Z) (x : T) : host :=
  {| ipl := ipl st; raw_tab := t; raw_pcbs := h; raw_pool := x; udp_tab := udp_tab st; udp_pcbs := udp_pcbs st;
     udp_port := udp_port st; udp_stats := udp_stats st; udp_pool := udp_pool st |}.
Definition with_udp (st : host) (t : gmap Z udp_pcb) (h : Z) (x : U) : host :=
  {| ipl := ipl st; raw_tab := raw_tab st; raw_pcbs := raw_pcbs st; raw_pool := raw_pool st; udp_tab := t; udp_pcbs := h;
     udp_port := udp_port st; udp_stats := udp_stats st; udp_pool := x |}.
Definition with_udp_port (st : host) (x : Z) : host :=
  {| ipl := ipl st; raw_tab := raw_tab st; raw_pcbs := raw_pcbs st; raw_pool := raw_pool st; udp_tab := udp_tab st; udp_pcbs := udp_pcbs st;
     udp_port := x; udp_stats := udp_stats st; udp_pool := udp_pool st |}.
Definition with_udp_stats (st : host) (x : udp_counter -> Z) : host :=
  {| ipl := ipl st; raw_tab := raw_tab st; raw_pcbs := raw_pcbs st; raw_pool := raw_pool st; udp_tab := udp_tab st; udp_pcbs := udp_pcbs st;
     udp_port := udp_port st; udp_stats := x; udp_pool := udp_pool st |}.
End state.

(** ** Lists of control blocks *)

(** A kind of control block: where the host keeps them and the first of the list, and the
    fields the list operations touch. *)
Class Blocks (X A : Type) := {
  blocks : X -> gmap Z A;
  first : X -> Z;
  put_blocks : X -> gmap Z A -> Z -> X;
  blk_next : A -> Z;
  with_blk_next : A -> Z -> A;
  blk_ip : A -> ip_pcb;
  with_blk_ip : A -> ip_pcb -> A;
  blocks_put st t a : blocks (put_blocks st t a) = t;
  first_put st t a : first (put_blocks st t a) = a;
  put_put st t a t' a' : put_blocks (put_blocks st t a) t' a' = put_blocks st t' a';
  put_self st : put_blocks st (blocks st) (first st) = st;
  next_with_next x n : blk_next (with_blk_next x n) = n;
  with_next_twice x m n : with_blk_next (with_blk_next x m) n = with_blk_next x n;
  with_next_self x : with_blk_next x (blk_next x) = x;
  next_with_ip x i : blk_next (with_blk_ip x i) = blk_next x
}.
Create Rewrite HintDb blocks.
#[export] Hint Rewrite @blocks_put @first_put @put_put @put_self @next_with_next @with_next_twice @next_with_ip : blocks.

Section lists.
Context {X A : Type} `{!Blocks X A}.
Abbreviation M := (ST X).

Definition blk_get (a : Z) : M A := fun st => match blocks st !! a with Some x => Ok (x, st) | None => Fault end.
Definition blk_set (a : Z) (x : A) : M unit := fun st =>
  match blocks st !! a with Some _ => Ok (tt, put_blocks st (<[a := x]> (blocks st)) (first st)) | None => Fault end.
Definition blk_upd (a : Z) (f : A -> A) : M unit := x ← blk_get a; blk_set a (f x).
Definition set_first (a : Z) : M unit := fun st => Ok (tt, put_blocks st (blocks st) a).
Definition blk_fuel : M nat := fun st => Ok (Datatypes.S (size (blocks st)), st).

(** The block [pcb] behind [prev] becomes the first of the list. *)
Definition blk_to_front (pcb prev : Z) : M unit :=
  x ← blk_get pcb;
  _ ← blk_upd prev (fun y => with_blk_next y (blk_next x));
  st ← get;
  _ ← blk_upd pcb (fun y => with_blk_next y (first st));
  set_first pcb.

(** Whether [pcb] is on the list from [ipcb] on. *)
Fixpoint member_loop (fuel : nat) (pcb ipcb : Z) : M bool :=
  match fuel with
  | O => fun _ => Diverge
  | Datatypes.S fuel' =>
      if ipcb =? 0 then mret false
      else if pcb =? ipcb then mret true
      else x ← blk_get ipcb; member_loop fuel' pcb (blk_next x)
  end.
Definition blk_member (pcb : Z) : M bool := st ← get; fuel ← blk_fuel; member_loop fuel pcb (first st).

(** The block [pcb] is taken off the list, if it is there. *)
Fixpoint unlink_loop (fuel : nat) (pcb pcb2 : Z) : M unit :=
  match fuel with
  | O => fun _ => Diverge
  | Datatypes.S fuel' =>
      if pcb2 =? 0 then mret tt
      else
        x ← blk_get pcb2;
        if negb (blk_next x =? 0) && (blk_next x =? pcb) then y ← blk_get pcb; blk_set pcb2 (with_blk_next x (blk_next y))
        else unlink_loop fuel' pcb (blk_next x)
  end.
Definition blk_unlink (pcb : Z) : M unit :=
  st ← get;
  if first st =? pcb then x ← blk_get (first st); set_first (blk_next x)
  else fuel ← blk_fuel; unlink_loop fuel pcb (first st).

(** The blocks bound to the address [old_addr] are bound to [new_addr] instead; NULL is [None]. *)
Definition readdress (old_addr new_addr : Z) (x : A) : A :=
  if ip4_addr_eq (local_ip (blk_ip x)) old_addr then with_blk_ip x (with_local_ip (blk_ip x) new_addr) else x.
Fixpoint addr_loop (fuel : nat) (pcb old_addr new_addr : Z) : M unit :=
  match fuel with
  | O => fun _ => Diverge
  | Datatypes.S fuel' =>
      if pcb =? 0 then mret tt
      else
        x ← blk_get pcb;
        _ ← blk_set pcb (readdress old_addr new_addr x);
        addr_loop fuel' (blk_next x) old_addr new_addr
  end.
Definition blk_ip_addr_changed (old_addr new_addr : option Z) : M unit :=
  match old_addr, new_addr with
  | Some o, Some n =>
      if negb (ip4_addr_isany_val o) && negb (ip4_addr_isany_val n) then
        st ← get; fuel ← blk_fuel; addr_loop fuel (first st) o n
      else mret tt
  | _, _ => mret tt
  end.

(** *** What they do *)

Definition on_list (l : list Z) (st : X) : Prop := chain_at blk_next (blocks st) (first st) l.
(** The blocks are the same but for their links. *)
Definition relinked (t t' : gmap Z A) : Prop := forall a, (fun x => with_blk_next x 0) <$> t !! a = (fun x => with_blk_next x 0) <$> t' !! a.

Lemma blk_get_bind {B} a x (f : A -> M B) st : blocks st !! a = Some x -> (blk_get a ≫= f) st = f x st.
Proof. intros H. apply st_bind_ok. unfold blk_get. by rewrite H. Qed.
Lemma blk_set_ok a x y st : blocks st !! a = Some x -> blk_set a y st = Ok (tt, put_blocks st (<[a := y]> (blocks st)) (first st)).
Proof. intros H. unfold blk_set. by rewrite H. Qed.
Lemma blk_upd_ok a x g st : blocks st !! a = Some x -> blk_upd a g st = Ok (tt, put_blocks st (<[a := g x]> (blocks st)) (first st)).
Proof. intros H. unfold blk_upd. rewrite (blk_get_bind _ _ _ _ H). by apply (blk_set_ok _ x). Qed.

Lemma relinked_refl t : relinked t t.
Proof. done. Qed.
Lemma relinked_trans t1 t2 t3 : relinked t1 t2 -> relinked t2 t3 -> relinked t1 t3.
Proof. intros H1 H2 a. by rewrite H1, H2. Qed.
Lemma relinked_insert t a x n : t !! a = Some x -> relinked t (<[a := with_blk_next x n]> t).
Proof.
  intros Ha b. destruct (decide (a = b)) as [<-|]; [|by rewrite lookup_insert_ne].
  by rewrite lookup_insert_eq, Ha; simpl; rewrite with_next_twice.
Qed.
Lemma relinked_lookup t t' a x : relinked t t' -> t !! a = Some x -> exists n, t' !! a = Some (with_blk_next x n).
Proof.
  intros H Ha. specialize (H a). rewrite Ha in H. destruct (t' !! a) as [y|]; [|done].
  exists (blk_next y). injection H as H. f_equal. rewrite <-(with_next_self y). rewrite <-(with_next_twice x 0), H. by rewrite with_next_twice, next_with_next.
Qed.
Lemma relinked_dom t t' : relinked t t' -> dom t' = dom t.
Proof.
  intros H. apply set_eq. intros a. rewrite !elem_of_dom. specialize (H a).
  destruct (t !! a), (t' !! a); simplify_eq/=; split; intros [? ?]; eauto; done.
Qed.

(** *** The list *)

Lemma chain_at_app (h : gmap Z A) a l1 b l2 : chain_at blk_next h a (l1 ++ b :: l2) -> chain_at blk_next h b (b :: l2).
Proof.
  revert a. induction l1 as [|c l1 IH]; intros a; simpl.
  - intros (_ & H). by split.
  - intros (_ & _ & x & _ & H). by apply (IH (blk_next x)).
Qed.
Lemma chain_at_snoc (h : gmap Z A) a l1 b x l2 : chain_at blk_next h a (l1 ++ b :: l2) -> h !! b = Some x -> chain_at blk_next h (blk_next x) l2.
Proof. intros H%chain_at_app Hb. destruct H as (_ & _ & y & Hy & H). by simplify_eq. Qed.
(** The node [c] behind [b] is passed over. *)
Lemma chain_at_skip (h : gmap Z A) a l1 b c l2 x y :
  chain_at blk_next h a (l1 ++ b :: c :: l2) -> h !! b = Some x -> h !! c = Some y ->
  chain_at blk_next (<[b := with_blk_next x (blk_next y)]> h) a (l1 ++ b :: l2).
Proof.
  intros H Hb Hc. assert (Hnd := chain_at_NoDup _ _ _ _ H). revert a H Hnd. induction l1 as [|d l1 IH]; intros a H Hnd; simpl in *.
  - destruct H as (-> & Hb0 & z & Hz & _ & Hc0 & z' & Hz' & H). simplify_eq. split; [done|]. split; [done|].
    eexists. rewrite lookup_insert_eq. split; [done|]. rewrite next_with_next. apply chain_at_insert; [done|].
    apply NoDup_cons in Hnd as [? _]. set_solver.
  - destruct H as (-> & Hd & z & Hz & H). split; [done|]. split; [done|]. apply NoDup_cons in Hnd as [Hnd Hnd'].
    exists z. rewrite lookup_insert_ne by set_solver. auto.
Qed.
Lemma chain_at_delete (h : gmap Z A) a l b : chain_at blk_next h a l -> b ∉ l -> chain_at blk_next (delete b h) a l.
Proof.
  revert a. induction l as [|c l IH]; intros a; [done|].
  intros (-> & Hc & z & Hz & Hl) [Hne Hnl]%not_elem_of_cons. split; [done|]. split; [done|].
  exists z. rewrite lookup_delete_ne by congruence. auto.
Qed.

Lemma member_loop_spec fuel l pcb a st : chain_at blk_next (blocks st) a l -> (length l < fuel)%nat ->
  member_loop fuel pcb a st = Ok (bool_decide (pcb ∈ l), st).
Proof.
  revert a fuel. induction l as [|b l IH]; intros a [|fuel]; try (simpl; lia).
  - intros -> _. done.
  - intros (-> & Hb & x & Hx & Hl) Hf. cbn [member_loop]. destruct (Z.eqb_spec b 0) as [|_]; [done|].
    destruct (Z.eqb_spec pcb b) as [->|Hne]; [by rewrite bool_decide_true by left|].
    rewrite (blk_get_bind _ _ _ _ Hx), IH by (done || simpl in Hf; lia). do 2 f_equal. apply bool_decide_ext. set_solver.
Qed.
Lemma blk_member_spec l pcb st : on_list l st -> blk_member pcb st = Ok (bool_decide (pcb ∈ l), st).
Proof. intros Hl. apply member_loop_spec; [done|]. pose proof (chain_at_length _ _ _ _ Hl). lia. Qed.

Lemma blk_to_front_spec l1 prev pcb l2 st : on_list (l1 ++ prev :: pcb :: l2) st ->
  exists t, blk_to_front pcb prev st = Ok (tt, put_blocks st t pcb) /\ on_list (pcb :: l1 ++ prev :: l2) (put_blocks st t pcb) /\
    relinked (blocks st) t.
Proof.
  intros Hl. assert (Hnd := chain_at_NoDup _ _ _ _ Hl).
  destruct (chain_at_dom _ _ _ _ prev Hl) as [x Hx]; [set_solver|]. destruct (chain_at_dom _ _ _ _ pcb Hl) as [y Hy]; [set_solver|].
  assert (Hne : prev <> pcb) by (apply NoDup_app in Hnd as (_ & _ & [Hn _]%NoDup_cons); set_solver).
  assert (H0 : pcb <> 0) by (rewrite cons_middle, (assoc_L (++)) in Hl; by apply chain_at_app in Hl as (_ & ? & _)).
  assert (Hnl : pcb ∉ l1 ++ prev :: l2).
  { rewrite cons_middle, (assoc_L (++)) in Hnd. apply NoDup_app in Hnd as (_ & Hd & [Hn _]%NoDup_cons). set_solver. }
  eexists. unfold blk_to_front. rewrite (blk_get_bind _ _ _ _ Hy), (st_bind_ok _ _ _ _ _ (blk_upd_ok _ _ _ _ Hx)), get_bind.
  rewrite first_put, (st_bind_ok _ _ _ _ _ (blk_upd_ok pcb y _ _ ltac:(by rewrite blocks_put, lookup_insert_ne by done))).
  unfold set_first. rewrite !blocks_put, !put_put. split; [done|]. split.
  - unfold on_list. rewrite blocks_put, first_put. split; [done|]. split; [done|]. eexists. rewrite lookup_insert_eq. split; [done|].
    rewrite next_with_next. apply chain_at_insert; [|done]. by eapply chain_at_skip.
  - eapply relinked_trans; [exact (relinked_insert _ _ _ (blk_next y) Hx)|]. apply relinked_insert. by rewrite lookup_insert_ne.
Qed.

(** A list without one of its elements. *)
Definition without (a : Z) (l : list Z) : list Z := filter (fun b => b <> a) l.
Lemma without_none a l : a ∉ l -> without a l = l.
Proof.
  unfold without. induction l as [|b l IH]; [done|]. intros [Hn Hl]%not_elem_of_cons. rewrite filter_cons_True by congruence. by f_equal; auto.
Qed.
Lemma without_middle a l1 l2 : NoDup (l1 ++ a :: l2) -> without a (l1 ++ a :: l2) = l1 ++ l2.
Proof.
  intros (_ & Hd & [Hn _]%NoDup_cons)%NoDup_app. unfold without. rewrite filter_app, filter_cons_False by naive_solver.
  fold (without a l1) (without a l2). rewrite !without_none; [done|done|set_solver].
Qed.

Lemma unlink_loop_spec fuel l1 b l2 pcb st :
  on_list (l1 ++ b :: l2) st -> pcb ∉ l1 ++ [b] -> (Datatypes.S (length l2) < fuel)%nat ->
  exists t, unlink_loop fuel pcb b st = Ok (tt, put_blocks st t (first st)) /\ on_list (l1 ++ b :: without pcb l2) (put_blocks st t (first st)) /\
    relinked (blocks st) t.
Proof.
  revert fuel l1 b. induction l2 as [|c l2 IH]; intros [|fuel] l1 b Hl Hp Hf; simpl in Hf; try lia.
  all: destruct (chain_at_app _ _ _ _ _ Hl) as (_ & Hb & x & Hx & Hn); cbn [unlink_loop].
  all: destruct (Z.eqb_spec b 0) as [|_]; [done|]; rewrite (blk_get_bind _ _ _ _ Hx).
  - simpl in Hn. rewrite Hn. simpl. exists (blocks st). rewrite put_self. split; [|done].
    destruct fuel; [lia|done].
  - destruct Hn as (Hc & Hc0 & y & Hy & Hn). rewrite Hc. destruct (Z.eqb_spec c 0) as [|_]; [done|]. simpl.
    destruct (Z.eqb_spec c pcb) as [->|Hne].
    + rewrite (blk_get_bind _ _ _ _ Hy). eexists. rewrite (blk_set_ok _ _ _ _ Hx). split; [done|]. split; [|by apply relinked_insert].
      unfold on_list. rewrite blocks_put, first_put.
      assert (Hnd := chain_at_NoDup _ _ _ _ Hl). apply NoDup_app in Hnd as (_ & _ & Hnd). apply NoDup_cons in Hnd as [_ Hnd].
      assert (Ew := without_middle pcb [] l2 Hnd). simpl in Ew. rewrite Ew. by eapply chain_at_skip.
    + destruct (IH fuel (l1 ++ [b]) c) as (t & Ht & Hl' & Hr); [by rewrite <-(assoc_L (++))|set_solver|lia|].
      exists t. split; [done|]. split; [|done]. rewrite <-(assoc_L (++)) in Hl'. unfold without. by rewrite filter_cons_True by done.
Qed.
Lemma blk_unlink_spec l pcb st : on_list l st -> pcb <> 0 -> exists t h,
  blk_unlink pcb st = Ok (tt, put_blocks st t h) /\ on_list (without pcb l) (put_blocks st t h) /\ relinked (blocks st) t.
Proof.
  intros Hl Hp. unfold blk_unlink. rewrite get_bind. destruct (Z.eqb_spec (first st) pcb) as [E|Hne].
  - destruct l as [|b l]; [simpl in Hl; congruence|]. pose proof Hl as (Hb & Hb0 & x & Hx & Hn).
    rewrite Hb, (blk_get_bind _ _ _ _ Hx). eexists _, _. split; [done|]. split; [|done].
    assert (Ew := without_middle b [] l (chain_at_NoDup _ _ _ _ Hl)). simpl in Ew. rewrite <-E, Hb, Ew.
    unfold on_list. by rewrite blocks_put, first_put.
  - destruct l as [|b l].
    + exists (blocks st), (first st). rewrite put_self. simpl in Hl. unfold on_list in Hl. simpl in Hl. unfold blk_fuel. simpl. by rewrite Hl.
    + pose proof Hl as (Hb & _). assert (Hbp : b <> pcb) by congruence. destruct (unlink_loop_spec (Datatypes.S (size (blocks st))) [] b l pcb st) as (t & Ht & Hl' & Hr);
        [done|simpl; rewrite not_elem_of_cons; split; [congruence|apply not_elem_of_nil]|pose proof (chain_at_length _ _ _ _ Hl) as Hlen; simpl in Hlen; lia|].
      exists t, (first st). split; [rewrite <-Ht, <-Hb; done|]. split; [|done]. unfold without. by rewrite filter_cons_True.
Qed.

(** Every block of the list is readdressed. *)
Lemma addr_loop_spec fuel l a o n st : chain_at blk_next (blocks st) a l -> (length l < fuel)%nat -> exists t,
  addr_loop fuel a o n st = Ok (tt, put_blocks st t (first st)) /\
  forall b, t !! b = (if decide (b ∈ l) then readdress o n else id) <$> blocks st !! b.
Proof.
  revert fuel a st. induction l as [|b l IH]; intros [|fuel] a st; try (simpl; lia).
  - intros -> _. exists (blocks st). rewrite put_self. split; [done|]. intros b. rewrite decide_False by set_solver. by destruct (blocks st !! b).
  - intros Hl Hf. pose proof Hl as (-> & Hb & x & Hx & Hn). assert (Hnd := chain_at_NoDup _ _ _ _ Hl). cbn [addr_loop].
    destruct (Z.eqb_spec b 0) as [|_]; [done|]. rewrite (blk_get_bind _ _ _ _ Hx), (st_bind_ok _ _ _ _ _ (blk_set_ok _ _ _ _ Hx)).
    assert (Hnext : blk_next (readdress o n x) = blk_next x) by (unfold readdress; case_match; [apply next_with_ip|done]).
    apply NoDup_cons in Hnd as [Hbl _].
    destruct (IH fuel (blk_next x) (put_blocks st (<[b := readdress o n x]> (blocks st)) (first st))) as (t & Ht & Hs);
      [rewrite blocks_put; by apply chain_at_insert|simpl in Hf; lia|].
    exists t. rewrite put_put, first_put in Ht. split; [done|]. intros c. rewrite Hs, blocks_put. destruct (decide (b = c)) as [<-|Hne].
    + rewrite lookup_insert_eq, Hx, decide_False, decide_True by (done || by left). done.
    + rewrite lookup_insert_ne by done. by rewrite (decide_ext (c ∈ l) (c ∈ b :: l)) by set_solver.
Qed.
Lemma blk_ip_addr_changed_spec l old_addr new_addr st : on_list l st -> exists t,
  blk_ip_addr_changed old_addr new_addr st = Ok (tt, put_blocks st t (first st)) /\
  forall b, t !! b = (if decide (b ∈ l) then
    match old_addr, new_addr with
    | Some o, Some n => if negb (ip4_addr_isany_val o) && negb (ip4_addr_isany_val n) then readdress o n else id
    | _, _ => id
    end else id) <$> blocks st !! b.
Proof.
  intros Hl.
  assert (Hid : exists t, mret (M := M) tt st = Ok (tt, put_blocks st t (first st)) /\ forall b, t !! b = (if decide (b ∈ l) then id else id) <$> blocks st !! b).
  { exists (blocks st). rewrite put_self. split; [done|]. intros b. by case_decide; destruct (blocks st !! b). }
  destruct old_addr as [o|]; [|exact Hid]. destruct new_addr as [n|]; [|exact Hid]. unfold blk_ip_addr_changed.
  destruct (negb (ip4_addr_isany_val o) && negb (ip4_addr_isany_val n)); [|exact Hid].
  apply addr_loop_spec; [done|]. pose proof (chain_at_length _ _ _ _ Hl). lia.
Qed.
End lists.

(** ** The host *)

Section host.
Context {S R T U : Type} `{!PbufAlloc S}.
Abbreviation state := (@host S R T U).
Abbreviation M := (ST state).
Context {Link : LinkDriver}.

#[export] Program Instance raw_blocks : Blocks state raw_pcb := {|
  blocks := raw_tab; first := raw_pcbs; put_blocks st t a := with_raw st t a (raw_pool st);
  blk_next := rp_next; with_blk_next := with_rp_next; blk_ip := rp_ip; with_blk_ip := with_rp_ip
|}.
Solve All Obligations with by (intros; try destruct st; try destruct x).
#[export] Program Instance udp_blocks : Blocks state udp_pcb := {|
  blocks := udp_tab; first := udp_pcbs; put_blocks st t a := with_udp st t a (udp_pool st);
  blk_next := up_next; with_blk_next := with_up_next; blk_ip := up_ip; with_blk_ip := with_up_ip
|}.
Solve All Obligations with by (intros; try destruct st; try destruct x).

(** An operation of the IP layer. *)
Definition on_ip {A} (m : ST (@ipnet S R) A) : M A := fun st =>
  match m (ipl st) with
  | Ok (a, s) => Ok (a, with_ipl st s)
  | Panic => Panic
  | Fault => Fault
  | Diverge => Diverge
  end.
Lemma on_ip_ok {A} (m : ST (@ipnet S R) A) st a s : m (ipl st) = Ok (a, s) -> on_ip m st = Ok (a, with_ipl st s).
Proof. unfold on_ip. by intros ->. Qed.
Lemma on_ip_bind {A B} (m : ST (@ipnet S R) A) (f : A -> M B) st a s : m (ipl st) = Ok (a, s) -> (on_ip m ≫= f) st = f a (with_ipl st s).
Proof. intros H. by apply st_bind_ok, on_ip_ok. Qed.
Lemma with_ipl_self (st : state) : with_ipl st (ipl st) = st.
Proof. by destruct st. Qed.

(** What is known of an operation in front of any other. *)
Lemma on_ip_run {A B} (m : ST (@ipnet S R) A) (f : A -> M B) st a s :
  (forall C (g : A -> ST (@ipnet S R) C), (m ≫= g) (ipl st) = g a s) -> (on_ip m ≫= f) st = f a (with_ipl st s).
Proof. intros H. apply on_ip_bind. specialize (H A mret). unfold mbind, st_bind in H. by destruct (m (ipl st)) as [[a' s']| | |]. Qed.

(** The host with other pbufs. *)
Definition set_pm (st : state) (s : @pstate S) : state := with_ipl st (with_low (ipl st) (with_pm (low (ipl st)) s)).
Lemma set_pm_self (st : state) : set_pm st (pm (low (ipl st))) = st.
Proof. unfold set_pm. by rewrite low_pm_self, with_ipl_self. Qed.
Lemma host_pb_bind {A B} (m : ST (@pstate S) A) (f : A -> M B) st a s :
  m (pm (low (ipl st))) = Ok (a, s) -> (on_ip (on_pb m) ≫= f) st = f a (set_pm st s).
Proof. intros H. apply on_ip_run. intros C g. by apply on_pb_bind. Qed.
Lemma host_pb_get_bind {B} p b (f : pbuf -> M B) st : pbufs (pm (low (ipl st))) !! p = Some b -> (on_ip (on_pb (pb_get p)) ≫= f) st = f b st.
Proof. intros H. rewrite (on_ip_run _ _ st b (ipl st)); [by rewrite with_ipl_self|]. intros C g. by apply on_pb_get_bind. Qed.
Lemma host_netif_bind {B} n nif (f : netif -> M B) (st : state) : netifs (low (ipl st)) !! n = Some nif -> (on_ip (on_low (netif_get n)) ≫= f) st = f nif st.
Proof. intros H. rewrite (on_ip_run _ _ st nif (ipl st)); [by rewrite with_ipl_self|]. intros C g. by apply netif_bind. Qed.
Lemma host_get16_bind {B} (st : state) x hs o (f : Z -> M B) : region (pm (low (ipl st))) x hs -> 0 <= o -> o + 2 <= Z.of_nat (length hs) ->
  (on_ip (get16 x o) ≫= f) st = f (le_val (slice o 2 hs)) st.
Proof. intros H ? ?. rewrite (on_ip_run _ _ st (le_val (slice o 2 hs)) (ipl st)); [by rewrite with_ipl_self|]. intros C g. by apply get16_bind. Qed.

(** ** Interfaces by number *)

Definition netif_get_index (nif : netif) : Z := u8 (nif_num nif + 1).
Fixpoint index_loop (fuel : nat) (idx n : Z) : M Z :=
  match fuel with
  | O => fun _ => Diverge
  | Datatypes.S fuel' =>
      if n =? 0 then mret 0
      else
        nif ← on_ip (on_low (netif_get n));
        if idx =? netif_get_index nif then mret n else index_loop fuel' idx (nif_next nif)
  end.
Definition netif_get_by_index (idx : Z) : M Z :=
  if negb (idx =? NETIF_NO_INDEX) then
    st ← get; index_loop (Datatypes.S (size (netifs (low (ipl st))))) idx (netif_list (low (ipl st)))
  else mret 0.

(** The first of the list with that number, 0 if there is none. *)
Definition has_index (h : gmap Z netif) (idx n : Z) : bool :=
  match h !! n with Some nif => idx =? netif_get_index nif | None => false end.
Definition numbered (h : gmap Z netif) (l : list Z) (idx : Z) : Z :=
  if idx =? NETIF_NO_INDEX then 0 else default 0 (List.find (has_index h idx) l).

Lemma index_loop_spec fuel l n idx (st : state) :
  chain_at nif_next (netifs (low (ipl st))) n l -> (length l < fuel)%nat ->
  index_loop fuel idx n st = Ok (default 0 (List.find (has_index (netifs (low (ipl st))) idx) l), st).
Proof.
  revert n fuel. induction l as [|b l IH]; intros n [|fuel]; try (simpl; lia).
  - by intros -> _.
  - intros (-> & Hb & x & Hx & Hl) Hf. cbn [index_loop]. destruct (Z.eqb_spec b 0) as [|_]; [done|].
    rewrite (host_netif_bind _ _ _ _ Hx).
    cbn [List.find]. unfold has_index at 1. rewrite Hx. destruct (idx =? netif_get_index x); [done|].
    by rewrite IH by (done || simpl in Hf; lia).
Qed.
Lemma netif_get_by_index_spec l idx (st : state) : chain_at nif_next (netifs (low (ipl st))) (netif_list (low (ipl st))) l ->
  netif_get_by_index idx st = Ok (numbered (netifs (low (ipl st))) l idx, st).
Proof.
  intros Hl. unfold netif_get_by_index, numbered. destruct (idx =? NETIF_NO_INDEX); [done|]. cbn [negb]. rewrite get_bind.
  apply index_loop_spec; [done|]. pose proof (chain_at_length _ _ _ _ Hl). lia.
Qed.
End host.

(** ** An example *)

Section example.
#[local] Existing Instance example_PbufAlloc.
Definition example_BlockPool : Pool memp_state := memp_Pool example_pools example_pools_wf 0 _ eq_refl.
(** A host with no control blocks over an IP layer. *)
Definition example_host (s : @ipnet (memp_state * Z) memp_state) : @host (memp_state * Z) memp_state memp_state memp_state :=
  {| ipl := s; raw_tab := ∅; raw_pcbs := 0; raw_pool := memp_init example_pools example_boot;
     udp_tab := ∅; udp_pcbs := 0; udp_port := 0xc000; udp_stats := fun _ => 0; udp_pool := memp_init example_pools example_boot |}.
Lemma example_pool_ok : @pool_ok _ example_BlockPool ∅ (memp_init example_pools example_boot).
Proof.
  exists ∅. split; [apply memp_init_inv; [apply example_pools_wf|apply example_booted]|]. set_solver.
Qed.
End example.
