(* ===== verification/Raw.v ===== *)
(** * Raw sockets (core/raw.c)

    Datagrams of any protocol are passed to the applications that asked for them, in
    the order of the list of control blocks; the block that takes one moves to the
    front. *)

From stdpp Require Import gmultiset.
From S2P Require Import Prelude Def Chksum Ip4Addr Memp Mem Pbuf PbufData PbufHeap PbufSole Ethernet Link Acd Etharp EtharpIo Ip4 Icmp Pcb.

Set Default Proof Using "Type".

Definition RAW_FLAGS_CONNECTED : Z := 0x01.
Definition RAW_FLAGS_HDRINCL : Z := 0x02.
Definition RAW_TTL : Z := 255.
Inductive raw_input_state := RAW_INPUT_NONE | RAW_INPUT_EATEN | RAW_INPUT_DELIVERED.

(** ** Who is to get a datagram *)

(** What [raw_input] looks at. *)
Record raw_route := { rr_proto : Z; rr_broadcast : bool; rr_src : Z; rr_dest : Z; rr_index : Z }.
Definition listening (r : raw_route) (x : raw_pcb) : bool :=
  (rp_protocol x =? rr_proto r) && ((netif_idx (rp_ip x) =? NETIF_NO_INDEX) || (netif_idx (rp_ip x) =? rr_index r)) &&
  (ip4_addr_isany_val (local_ip (rp_ip x)) || negb (rr_broadcast r) && ip4_addr_eq (local_ip (rp_ip x)) (rr_dest r)) &&
  ((Z.land (rp_flags x) RAW_FLAGS_CONNECTED =? 0) || ip4_addr_eq (remote_ip (rp_ip x)) (rr_src r)) && negb (rp_recv x =? 0).
Definition listeners (r : raw_route) (t : gmap Z raw_pcb) (l : list Z) : list Z :=
  List.filter (fun a => match t !! a with Some x => listening r x | None => false end) l.
(** The first of [l] that eats the packet ends it. *)
Fixpoint upto (eats : Z -> bool) (l : list Z) : list Z :=
  match l with
  | [] => []
  | a :: l' => if eats a then [a] else a :: upto eats l'
  end.

Section raw.
Context {S R T U : Type} `{!PbufAlloc S} `{!FragPool S} `{!Pool R} `{!Pool T}.
Abbreviation state := (@host S R T U).
Abbreviation M := (ST state).
Context (call_custom_free : Z -> Z -> ST (@pstate S) unit) (garbage : Z -> Z).
Context {Link : LinkDriver}.
Context (ipfrag_free_fn : Z).

Local Abbreviation pfree := (fun p => _ ← on_ip (on_pb (pbuf_free call_custom_free p)); mret tt).

(** ** Input *)

(** The functions the applications have registered: the function, its argument, the control
    block, the packet and the source; the result is not 0 if the packet was eaten. *)
Context (raw_recv_fn : Z -> Z -> Z -> Z -> Z -> M Z).

Definition raw_input_local_match (x : raw_pcb) (broadcast : bool) : M bool :=
  st ← get;
  other ← (if negb (netif_idx (rp_ip x) =? NETIF_NO_INDEX) then
             nif ← on_ip (on_low (netif_get (current_input_netif (ip_data (ipl st)))));
             mret (negb (netif_idx (rp_ip x) =? netif_get_index nif))
           else mret false);
  if (other : bool) then mret false
  else if broadcast then mret (ip4_addr_isany_val (local_ip (rp_ip x)))
  else mret (ip4_addr_isany_val (local_ip (rp_ip x)) || ip4_addr_eq (local_ip (rp_ip x)) (current_iphdr_dest (ip_data (ipl st)))).

(** Whether the block wants the datagram. *)
Definition raw_wants (x : raw_pcb) (proto : Z) (broadcast : bool) : M bool :=
  if rp_protocol x =? proto then
    m ← raw_input_local_match x broadcast;
    st ← get;
    mret (m && ((Z.land (rp_flags x) RAW_FLAGS_CONNECTED =? 0) || ip4_addr_eq (remote_ip (rp_ip x)) (current_iphdr_src (ip_data (ipl st)))))
  else mret false.

Fixpoint raw_input_loop (fuel : nat) (p proto : Z) (broadcast : bool) (pcb prev : Z) (ret : raw_input_state) : M raw_input_state :=
  match fuel with
  | O => fun _ => Diverge
  | Datatypes.S fuel' =>
      if pcb =? 0 then mret ret
      else
        x ← blk_get (A := raw_pcb) pcb;
        wants ← raw_wants x proto broadcast;
        if wants && negb (rp_recv x =? 0) then
          b ← on_ip (on_pb (pb_get p));
          let old_payload := payload b in
          st ← get;
          eaten ← raw_recv_fn (rp_recv x) (rp_recv_arg x) pcb p (current_iphdr_src (ip_data (ipl st)));
          if negb (eaten =? 0) then
            _ ← (if negb (prev =? 0) then blk_to_front (A := raw_pcb) pcb prev else mret tt);
            mret RAW_INPUT_EATEN
          else
            b ← on_ip (on_pb (pb_get p));
            _ ← sassert (bool_decide (payload b = old_payload));
            x ← blk_get (A := raw_pcb) pcb;
            raw_input_loop fuel' p proto broadcast (rp_next x) pcb RAW_INPUT_DELIVERED
        else raw_input_loop fuel' p proto broadcast (rp_next x) pcb ret
  end.

Definition raw_input (p inp : Z) : M raw_input_state :=
  st ← get;
  nif ← on_ip (on_low (netif_get (current_netif (ip_data (ipl st)))));
  let broadcast := ip4_addr_isbroadcast (current_iphdr_dest (ip_data (ipl st))) nif in
  b ← on_ip (on_pb (pb_get p));
  proto ← on_ip (IPH_PROTO (payload b));
  fuel ← blk_fuel (A := raw_pcb);
  raw_input_loop fuel p proto broadcast (raw_pcbs st) 0 RAW_INPUT_NONE.

(** ** Control blocks *)

(** NULL is 0 for a control block and [None] for an address. *)
Definition raw_bind (pcb : Z) (ipaddr : option Z) : M Z :=
  match ipaddr with
  | Some a => if pcb =? 0 then mret ERR_VAL else _ ← blk_upd (A := raw_pcb) pcb (fun x => with_rp_ip x (with_local_ip (rp_ip x) a)); mret ERR_OK
  | None => mret ERR_VAL
  end.
Definition raw_bind_netif (pcb n : Z) : M unit :=
  i ← (if negb (n =? 0) then nif ← on_ip (on_low (netif_get n)); mret (netif_get_index nif) else mret NETIF_NO_INDEX);
  blk_upd (A := raw_pcb) pcb (fun x => with_rp_ip x (with_netif_idx (rp_ip x) i)).
Definition raw_connect (pcb : Z) (ipaddr : option Z) : M Z :=
  match ipaddr with
  | Some a =>
      if pcb =? 0 then mret ERR_VAL
      else
        _ ← blk_upd (A := raw_pcb) pcb (fun x => with_rp_ip x (with_remote_ip (rp_ip x) a));
        _ ← blk_upd (A := raw_pcb) pcb (fun x => with_rp_flags x (u8 (Z.lor (rp_flags x) RAW_FLAGS_CONNECTED)));
        mret ERR_OK
  | None => mret ERR_VAL
  end.
Definition raw_disconnect (pcb : Z) : M unit :=
  _ ← blk_upd (A := raw_pcb) pcb (fun x => with_rp_ip x (with_remote_ip (rp_ip x) IPADDR_ANY));
  _ ← blk_upd (A := raw_pcb) pcb (fun x => with_rp_ip x (with_netif_idx (rp_ip x) NETIF_NO_INDEX));
  blk_upd (A := raw_pcb) pcb (fun x => with_rp_flags x (u8 (Z.land (rp_flags x) (u8 (Z.land (Z.lnot RAW_FLAGS_CONNECTED) 0xff))))).
Definition raw_recv (pcb recv recv_arg : Z) : M unit := blk_upd (A := raw_pcb) pcb (fun x => with_rp_recv x recv recv_arg).

Definition raw_free (a : Z) : M unit := fun st =>
  s ← pool_free a (raw_pool st);
  Ok (tt, with_raw st (delete a (raw_tab st)) (raw_pcbs st) s).
Definition raw_remove (pcb : Z) : M unit := _ ← blk_unlink (A := raw_pcb) pcb; raw_free pcb.

Definition raw_malloc : M Z := fun st =>
  '(a, s) ← pool_malloc (raw_pool st); Ok (a, with_raw st (raw_tab st) (raw_pcbs st) s).
Definition raw_put (a : Z) (x : raw_pcb) : M unit := fun st =>
  Ok (tt, with_raw st (<[a := x]> (raw_tab st)) (raw_pcbs st) (raw_pool st)).
Definition raw_new (proto : Z) : M Z :=
  pcb ← raw_malloc;
  if negb (pcb =? 0) then
    st ← get;
    _ ← raw_put pcb {| rp_ip := zero_pcb RAW_TTL; rp_next := raw_pcbs st; rp_protocol := proto; rp_flags := 0; rp_recv := 0; rp_recv_arg := 0 |};
    _ ← set_first (A := raw_pcb) pcb;
    mret pcb
  else mret pcb.
Definition raw_new_ip_type (type proto : Z) : M Z := raw_new proto.

Definition raw_netif_ip_addr_changed (old_addr new_addr : option Z) : M unit := blk_ip_addr_changed (A := raw_pcb) old_addr new_addr.

(** ** Output *)

Definition raw_sendto_if_src (pcb p : Z) (dst_ip : option Z) (n : Z) (src_ip : option Z) : M Z :=
  match dst_ip, src_ip with
  | Some dst, Some src =>
      if (pcb =? 0) || (n =? 0) then mret ERR_VAL
      else
        x ← blk_get (A := raw_pcb) pcb;
        b ← on_ip (on_pb (pb_get p));
        if negb (Z.land (rp_flags x) RAW_FLAGS_HDRINCL =? 0) then
          if len b <? IP_HLEN then mret ERR_VAL
          else on_ip (ip4_output_if call_custom_free garbage ipfrag_free_fn p (Some src) None 0 0 0 n)
        else if u16 (tot_len b + IP_HLEN) <? tot_len b then mret ERR_MEM
        else
          failed ← on_ip (on_pb (pbuf_add_header p IP_HLEN));
          q ← (if (failed : bool) then
                 q ← on_ip (on_pb (pbuf_alloc call_custom_free garbage PBUF_IP 0 PBUF_RAM));
                 if q =? 0 then mret None
                 else
                   b ← on_ip (on_pb (pb_get p));
                   _ ← (if negb (tot_len b =? 0) then on_ip (on_pb (pbuf_chain q p)) else mret tt);
                   mret (Some q)
               else
                 failed ← on_ip (on_pb (pbuf_remove_header p IP_HLEN));
                 if (failed : bool) then _ ← sassert false; mret None else mret (Some p));
          match q with
          | None => mret ERR_MEM
          | Some q =>
              err ← on_ip (ip4_output_if call_custom_free garbage ipfrag_free_fn q (Some src) (Some dst)
                             (ttl (rp_ip x)) (tos (rp_ip x)) (rp_protocol x) n);
              _ ← (if negb (q =? p) then pfree q else mret tt);
              mret err
          end
  | _, _ => mret ERR_VAL
  end.

Definition raw_sendto (pcb p : Z) (ipaddr : option Z) : M Z :=
  match ipaddr with
  | None => mret ERR_VAL
  | Some a =>
      if pcb =? 0 then mret ERR_VAL
      else
        x ← blk_get (A := raw_pcb) pcb;
        n ← (if negb (netif_idx (rp_ip x) =? NETIF_NO_INDEX) then netif_get_by_index (netif_idx (rp_ip x))
             else on_ip (ip4_route (Some a)));
        if n =? 0 then mret ERR_RTE
        else
          nif ← on_ip (on_low (netif_get n));
          let src_ip := if ip4_addr_isany_val (local_ip (rp_ip x)) || ip4_addr_ismulticast (local_ip (rp_ip x))
                        then nif_ip (nif_addrs nif) else local_ip (rp_ip x) in
          raw_sendto_if_src pcb p (Some a) n (Some src_ip)
  end.
Definition raw_send (pcb p : Z) : M Z := x ← blk_get (A := raw_pcb) pcb; raw_sendto pcb p (Some (remote_ip (rp_ip x))).

(** ** Offering a datagram *)

Definition raw_routed (r : raw_route) (st : state) : Prop :=
  current_iphdr_src (ip_data (ipl st)) = rr_src r /\ current_iphdr_dest (ip_data (ipl st)) = rr_dest r /\
  exists nif, netifs (low (ipl st)) !! current_input_netif (ip_data (ipl st)) = Some nif /\ netif_get_index nif = rr_index r.

Lemma raw_local_match_spec r x (st : state) : raw_routed r st ->
  raw_input_local_match x (rr_broadcast r) st =
  Ok (((netif_idx (rp_ip x) =? NETIF_NO_INDEX) || (netif_idx (rp_ip x) =? rr_index r)) &&
      (ip4_addr_isany_val (local_ip (rp_ip x)) || negb (rr_broadcast r) && ip4_addr_eq (local_ip (rp_ip x)) (rr_dest r)), st).
Proof.
  intros (Hs & Hd & nif & Hn & Hi). unfold raw_input_local_match. rewrite get_bind, Hd.
  rewrite (st_bind_ok _ _ _ (negb ((netif_idx (rp_ip x) =? NETIF_NO_INDEX) || (netif_idx (rp_ip x) =? rr_index r))) st).
  2: { destruct (netif_idx (rp_ip x) =? NETIF_NO_INDEX); [done|]. cbn [negb]. by rewrite (host_netif_bind _ _ _ _ Hn), Hi. }
  destruct (_ || _); [|done]. cbn [negb andb]. destruct (rr_broadcast r); [|done]. by rewrite orb_false_r.
Qed.
Lemma raw_wants_spec r x (st : state) : raw_routed r st ->
  exists w, raw_wants x (rr_proto r) (rr_broadcast r) st = Ok (w, st) /\ w && negb (rp_recv x =? 0) = listening r x.
Proof.
  intros Hr. unfold raw_wants, listening. destruct (rp_protocol x =? rr_proto r); [|by exists false].
  rewrite (st_bind_ok _ _ _ _ _ (raw_local_match_spec r x st Hr)), get_bind. destruct Hr as (-> & _). eexists. split; [done|]. done.
Qed.

(** [st'] is as [st] for the search, and the packet is still there. *)
Definition same_lists (st st' : state) : Prop := raw_tab st' = raw_tab st /\ raw_pcbs st' = raw_pcbs st.
Definition same_view (p : Z) (st st' : state) : Prop :=
  same_lists st st' /\ ip_data (ipl st') = ip_data (ipl st) /\ netifs (low (ipl st')) = netifs (low (ipl st)) /\
  payload <$> pbufs (pm (low (ipl st'))) !! p = payload <$> pbufs (pm (low (ipl st))) !! p.
(** What the documentation asks of the functions of the listeners: one that does not eat the packet leaves it
    alone; none changes the list. *)
Definition polite (r : raw_route) (p : Z) (lr : list Z) (st0 : state) (eats : Z -> bool) : Prop :=
  forall a x st, a ∈ lr -> raw_tab st0 !! a = Some x -> listening r x = true -> same_view p st0 st ->
    exists e st', raw_recv_fn (rp_recv x) (rp_recv_arg x) a p (rr_src r) st = Ok (e, st') /\ negb (e =? 0) = eats a /\
      if eats a then same_lists st0 st' else same_view p st0 st'.
(** The functions of the blocks [l] are called in this order. *)
Inductive handed (r : raw_route) (p : Z) (t : gmap Z raw_pcb) : list Z -> state -> state -> Prop :=
  | handed_nil st : handed r p t [] st st
  | handed_cons a x e l st st1 st2 : t !! a = Some x -> raw_recv_fn (rp_recv x) (rp_recv_arg x) a p (rr_src r) st = Ok (e, st1) ->
      handed r p t l st1 st2 -> handed r p t (a :: l) st st2.

Definition raw_result (r : raw_route) (p : Z) (t : gmap Z raw_pcb) (eats : Z -> bool) (ls lr : list Z) (ret : raw_input_state) (st : state)
    (res : outcome (raw_input_state * state)) : Prop :=
  exists st1, handed r p t (upto eats ls) st st1 /\
    match List.find eats ls with
    | None => res = Ok (match ls with [] => ret | _ => RAW_INPUT_DELIVERED end, st1)
    | Some a => exists t', res = Ok (RAW_INPUT_EATEN, with_raw st1 t' a (raw_pool st1)) /\
        on_list (A := raw_pcb) (a :: Pcb.without a lr) (with_raw st1 t' a (raw_pool st1)) /\ relinked (X := state) t t'
    end.

Lemma raw_front_spec l1 a l2 (st : state) : on_list (A := raw_pcb) (l1 ++ a :: l2) st ->
  exists t', (if negb (List.last l1 0 =? 0) then blk_to_front (A := raw_pcb) a (List.last l1 0) else mret tt) st = Ok (tt, with_raw st t' a (raw_pool st)) /\
    on_list (A := raw_pcb) (a :: Pcb.without a (l1 ++ a :: l2)) (with_raw st t' a (raw_pool st)) /\ relinked (X := state) (raw_tab st) t'.
Proof.
  intros Hl. rewrite without_middle by exact (chain_at_NoDup _ _ _ _ Hl). destruct l1 as [|b l1 _] using rev_ind.
  - exists (raw_tab st). assert (Ea : raw_pcbs st = a) by by destruct Hl. subst a. split; [by destruct st|]. split; [by destruct st|apply relinked_refl].
  - rewrite last_last. rewrite <-(assoc_L (++)) in Hl |- *. simpl in Hl |- *.
    assert (Hb : b <> 0) by (by destruct (chain_at_app _ _ _ _ _ Hl) as (_ & ? & _)). rewrite (proj2 (Z.eqb_neq _ _) Hb).
    destruct (blk_to_front_spec l1 b a l2 st Hl) as (t & Et & Hl' & Hr). exists t. split; [exact Et|]. by split.
Qed.

Lemma raw_block_bind {B} a x (f : raw_pcb -> M B) (st : state) : raw_tab st !! a = Some x -> (blk_get (A := raw_pcb) a ≫= f) st = f x st.
Proof. exact (blk_get_bind a x f st). Qed.
Lemma same_view_routed r p st st' : same_view p st st' -> raw_routed r st -> raw_routed r st'.
Proof. intros (_ & Ed & En & _). unfold raw_routed. by rewrite Ed, En. Qed.

Lemma raw_input_loop_spec r p lr eats (st0 : state) : polite r p lr st0 eats -> raw_routed r st0 -> is_Some (pbufs (pm (low (ipl st0))) !! p) ->
  forall l2 l1 a fuel ret (st : state), lr = l1 ++ l2 -> same_view p st0 st -> on_list (A := raw_pcb) lr st -> chain_at rp_next (raw_tab st) a l2 -> (length l2 < fuel)%nat ->
  raw_result r p (raw_tab st0) eats (listeners r (raw_tab st0) l2) lr ret st
    (raw_input_loop fuel p (rr_proto r) (rr_broadcast r) a (List.last l1 0) ret st).
Proof.
  clear call_custom_free garbage. intros Hpol Hr0 [b0 Hb0]. induction l2 as [|c l2 IH]; intros l1 a [|fuel] ret st El Hv Hl Ha Hf; try (simpl in Hf; lia).
  - simpl in Ha. subst a. exists st. split; [constructor|done].
  - pose proof Ha as (-> & Hc & x & Hx & Hl2). cbn [raw_input_loop]. rewrite (proj2 (Z.eqb_neq _ _) Hc).
    pose proof Hv as ([Et Ep] & _ & _ & Epl). rewrite (raw_block_bind c x _ st Hx).
    destruct (raw_wants_spec r x st (same_view_routed _ _ _ _ Hv Hr0)) as (w & Ew & Elis). rewrite (st_bind_ok _ _ _ _ _ Ew), Elis.
    assert (Hx0 : raw_tab st0 !! c = Some x) by (by rewrite <-Et). cbn [listeners List.filter]. rewrite Hx0.
    assert (El' : lr = (l1 ++ [c]) ++ l2) by (by rewrite <-(assoc_L (++))). simpl in Hf.
    destruct (listening r x) eqn:Ex.
    2: { specialize (IH (l1 ++ [c]) (rp_next x) fuel ret st El' Hv Hl Hl2 ltac:(lia)). by rewrite last_last in IH. }
    rewrite Hb0 in Epl. destruct (pbufs (pm (low (ipl st))) !! p) as [b|] eqn:Hb; [|done]. injection Epl as Epl.
    rewrite (host_pb_get_bind p b) by done. rewrite get_bind. cbv zeta.
    destruct (same_view_routed _ _ _ _ Hv Hr0) as (-> & _).
    destruct (Hpol c x st ltac:(set_solver) Hx0 Ex Hv) as (e & st' & Er & Ee & Hst'). rewrite (st_bind_ok _ _ _ _ _ Er), Ee.
    unfold raw_result. cbn [upto List.find]. destruct (eats c).
    + destruct Hst' as [Et' Ep']. assert (Hl' : on_list (A := raw_pcb) (l1 ++ c :: l2) st').
      { unfold on_list in *. simpl in *. by rewrite Et', Ep', <-El, <-Et, <-Ep. }
      destruct (raw_front_spec l1 c l2 st' Hl') as (t' & Ef & Hlf & Hre). exists st'. split; [by econstructor; [..|constructor]|].
      exists t'. rewrite (st_bind_ok _ _ _ _ _ Ef). split; [done|]. rewrite El. split; [exact Hlf|]. by rewrite <-Et'.
    + pose proof Hst' as ([Et' Ep'] & _ & _ & Epl'). rewrite Hb0 in Epl'. destruct (pbufs (pm (low (ipl st'))) !! p) as [b'|] eqn:Hb'; [|done]. injection Epl' as Epl'.
      rewrite (host_pb_get_bind p b') by done. rewrite sassert_bind by (apply bool_decide_eq_true; congruence).
      assert (Hx' : raw_tab st' !! c = Some x) by (by rewrite Et'). rewrite (raw_block_bind c x _ st' Hx').
      assert (Hl' : on_list (A := raw_pcb) lr st') by (unfold on_list in *; simpl in *; by rewrite Et', Ep', <-Et, <-Ep).
      assert (Hl2' : chain_at rp_next (raw_tab st') (rp_next x) l2) by (by rewrite Et', <-Et).
      destruct (IH (l1 ++ [c]) (rp_next x) fuel RAW_INPUT_DELIVERED st' El' Hst' Hl' Hl2' ltac:(lia)) as (st1 & Hh & Hres). rewrite last_last in Hres.
      exists st1. split; [by econstructor|]. destruct (List.find eats _) as [a|]; [exact Hres|]. rewrite Hres. by destruct (listeners _ _ _).
Qed.

(** ** Properties *)

(** What [raw_input] reads about the packet. *)
Record raw_arrived (lr : list Z) (st : state) (r : raw_route) (p : Z) (b : pbuf) (hs : list Z) : Prop := {
  ra_list : on_list (A := raw_pcb) lr st;
  ra_routed : raw_routed r st;
  ra_netif : exists nif, netifs (low (ipl st)) !! current_netif (ip_data (ipl st)) = Some nif /\ rr_broadcast r = ip4_addr_isbroadcast (rr_dest r) nif;
  ra_packet : pbufs (pm (low (ipl st))) !! p = Some b;
  ra_header : region (pm (low (ipl st))) (payload b) hs;
  ra_length : 20 <= Z.of_nat (length hs);
  ra_proto : rr_proto r = le_val (slice 9 1 hs)
}.

Lemma raw_input_spec lr (st : state) r p b hs inp eats : raw_arrived lr st r p b hs -> polite r p lr st eats ->
  raw_result r p (raw_tab st) eats (listeners r (raw_tab st) lr) lr RAW_INPUT_NONE st (raw_input p inp st).
Proof.
  clear call_custom_free garbage. intros [Hl Hr (nif & Hn & Hbc) Hb Hreg Hlen Hpr] Hpol. unfold raw_input. rewrite get_bind, (host_netif_bind _ _ _ _ Hn). cbv zeta.
  rewrite (host_pb_get_bind p b) by done. rewrite (on_ip_run _ _ st (rr_proto r) (ipl st)).
  2: { intros C g. unfold IPH_PROTO. rewrite (get8_bind _ _ hs) by (done || lia). by rewrite Hpr. }
  rewrite with_ipl_self. rewrite (st_bind_ok _ _ _ (Datatypes.S (size (raw_tab st))) st) by done.
  destruct Hr as (Hs & Hd & Hi). rewrite Hd, <-Hbc.
  refine (raw_input_loop_spec r p lr eats st Hpol _ _ lr [] (raw_pcbs st) _ RAW_INPUT_NONE st eq_refl _ Hl Hl _); [done|by eexists|done|].
  pose proof (chain_at_length _ _ _ _ Hl) as Hle. simpl in Hle. lia.
Qed.

(** C16. A datagram is offered to the raw sockets that listen for its protocol, its addresses and
    its interface, in the order of the list, until one of them eats it; that one moves to the front of the list, and
    otherwise the list stays as it is.  [raw_input] says whether the datagram was eaten, was offered and left, or
    was offered to nobody.  The functions of the applications have to keep the list and, if they do not eat
    the packet, the packet. *)
Theorem raw_input_correct lr (st : state) r p b hs inp eats (ls := listeners r (raw_tab st) lr) :
  raw_arrived lr st r p b hs -> polite r p lr st eats ->
  exists st1, handed r p (raw_tab st) (upto eats ls) st st1 /\
    match List.find eats ls with
    | None => raw_input p inp st = Ok (match ls with [] => RAW_INPUT_NONE | _ => RAW_INPUT_DELIVERED end, st1)
    | Some a => exists t, raw_input p inp st = Ok (RAW_INPUT_EATEN, with_raw st1 t a (raw_pool st1)) /\
        on_list (A := raw_pcb) (a :: Pcb.without a lr) (with_raw st1 t a (raw_pool st1)) /\ relinked (X := state) (raw_tab st) t
    end.
Proof. intros Ha Hp. exact (raw_input_spec lr st r p b hs inp eats Ha Hp). Qed.
End raw.

Section example.
#[local] Existing Instance example_PbufAlloc.
#[local] Existing Instance example_BlockPool.
Abbreviation state := (@host (memp_state * Z) memp_state memp_state memp_state).

(** An application that eats the packet if its argument is not 0. *)
Definition example_raw_recv (recv arg pcb p src : Z) : ST state Z := mret arg.
Definition example_raw_block (next arg : Z) : raw_pcb :=
  {| rp_ip := zero_pcb RAW_TTL; rp_next := next; rp_protocol := 1; rp_flags := 0; rp_recv := 1; rp_recv_arg := arg |}.
(** A ping arrives at a host with two sockets, the second of which eats it. *)
Definition raw_host : state :=
  with_raw (example_host (with_ip_data (example_ip (example_frame (echo_hdr ++ echo_msg)))
    {| current_netif := 0x300; current_input_netif := 0x300; current_ip4_header := Own 0x10000 0; current_ip_header_tot_len := 20;
       current_iphdr_src := 0x0200000a; current_iphdr_dest := 0x0100000a |}))
    {[ 0x1000 := example_raw_block 0x1020 0; 0x1020 := example_raw_block 0 1 ]} 0x1000 (memp_init example_pools example_boot).
Definition raw_example_route : raw_route :=
  {| rr_proto := 1; rr_broadcast := false; rr_src := 0x0200000a; rr_dest := 0x0100000a; rr_index := netif_get_index example_nif |}.
Lemma raw_host_arrived : raw_arrived [0x1000; 0x1020] raw_host raw_example_route 0x10000 (link (ram_pbuf 0x10000 0 28) []) (echo_hdr ++ echo_msg).
Proof.
  split; [|split; [done|]; split; [done|]; by exists example_nif|by exists example_nif|vm_compute; reflexivity| |done|vm_compute; reflexivity].
  - vm_compute. split; [done|]. split; [done|]. eexists. split; [reflexivity|]. split; [done|]. split; [done|]. by eexists.
  - eexists. split; [vm_compute; reflexivity|]. split; [done|]. split; [vm_compute; discriminate|vm_compute; reflexivity].
Qed.
Lemma raw_host_polite : polite example_raw_recv raw_example_route 0x10000 [0x1000; 0x1020] raw_host (fun a => a =? 0x1020).
Proof.
  intros a x st Ha Hx _ Hv. exists (rp_recv_arg x), st. split; [done|]. split; [|case_match; [apply Hv|exact Hv]].
  apply elem_of_cons in Ha as [Ea|Ea]; [|apply list_elem_of_singleton in Ea]; subst a; vm_compute in Hx; by injection Hx as <-.
Qed.
Lemma raw_input_correct_witness : exists st1 t, raw_input example_raw_recv 0x10000 0x300 raw_host = Ok (RAW_INPUT_EATEN, with_raw st1 t 0x1020 (raw_pool st1)) /\
  on_list (A := raw_pcb) [0x1020; 0x1000] (with_raw st1 t 0x1020 (raw_pool st1)).
Proof.
  destruct (raw_input_correct example_raw_recv [0x1000; 0x1020] raw_host raw_example_route 0x10000 _ _ 0x300 (fun a => a =? 0x1020) raw_host_arrived raw_host_polite)
    as (st1 & _ & Hres).
  assert (El : listeners raw_example_route (raw_tab raw_host) [0x1000; 0x1020] = [0x1000; 0x1020]) by (vm_compute; reflexivity).
  rewrite El in Hres. destruct Hres as (t & Ei & Hl & _). exists st1, t. split; [exact Ei|exact Hl].
Defined.
End example.
