(* ===== verification/Udp.v ===== *)
(** * UDP (core/udp.c)

    The control blocks of udp.c: how a port is found and bound, how a datagram is
    matched with a block and passed to the application, and how one is sent. *)

From stdpp Require Import gmultiset.
From S2P Require Import Prelude Def Chksum Ip4Addr Memp Mem Pbuf PbufData PbufHeap PbufSole Ethernet Link Acd Etharp EtharpIo Ip4 Icmp Pcb.

Set Default Proof Using "Type".

Definition UDP_HLEN : Z := 8.
Definition UDP_TTL : Z := 255.
Definition UDP_FLAGS_NOCHKSUM : Z := 0x01.
Definition UDP_FLAGS_CONNECTED : Z := 0x04.
Definition UDP_LOCAL_PORT_RANGE_START : Z := 0xc000.
Definition UDP_LOCAL_PORT_RANGE_END : Z := 0xffff.
Definition UDP_ENSURE_LOCAL_PORT_RANGE (port : Z) : Z :=
  u16 (Z.land port (u16 (Z.lnot UDP_LOCAL_PORT_RANGE_START)) + UDP_LOCAL_PORT_RANGE_START).

(** ** Free ports *)

Definition next_port (v : Z) : Z := if v =? UDP_LOCAL_PORT_RANGE_END then UDP_LOCAL_PORT_RANGE_START else u16 (v + 1).
Definition in_range (v : Z) : Prop := UDP_LOCAL_PORT_RANGE_START <= v <= UDP_LOCAL_PORT_RANGE_END.
(** A block of [l] has the port. *)
Definition port_used (t : gmap Z udp_pcb) (l : list Z) (v : Z) : bool :=
  existsb (fun a => match t !! a with Some x => up_local_port x =? v | None => false end) l.
(** How many ports after [v] the port [w] comes, starting over at the end of the range. *)
Definition ports_after (v w : Z) : Z := (w - v - 1) mod 0x4000.

Lemma next_port_range v : in_range v -> in_range (next_port v).
Proof.
  unfold in_range, next_port, UDP_LOCAL_PORT_RANGE_START, UDP_LOCAL_PORT_RANGE_END. intros H.
  destruct (Z.eqb_spec v 0xffff); [lia|]. rewrite u16_id by (unfold is_u16; lia). lia.
Qed.
Lemma ports_after_next v w : in_range v -> in_range w ->
  ports_after v w = if w =? next_port v then 0 else ports_after (next_port v) w + 1.
Proof.
  unfold in_range, next_port, ports_after, UDP_LOCAL_PORT_RANGE_START, UDP_LOCAL_PORT_RANGE_END. intros Hv Hw.
  destruct (Z.eqb_spec v 0xffff) as [->|Hne]; [|rewrite u16_id by (unfold is_u16; lia)];
    match goal with |- context [w =? ?x] => destruct (Z.eqb_spec w x) end; Z.div_mod_to_equations; lia.
Qed.
Lemma ports_after_lt v w : 0 <= ports_after v w < 0x4000.
Proof. apply Z.mod_pos_bound. lia. Qed.

Section udp.
Context {S R T U : Type} `{!PbufAlloc S} `{!Pool U}.
Abbreviation state := (@host S R T U).
Abbreviation M := (ST state).
Context {Link : LinkDriver}.
Local Abbreviation ugets := (blk_get (A := udp_pcb)).
Local Abbreviation uupd := (blk_upd (A := udp_pcb)).

Definition UDP_STATS_INC (c : udp_counter) : M unit := fun st =>
  Ok (tt, with_udp_stats st (fun x => if decide (x = c) then u16 (udp_stats st c + 1) else udp_stats st x)).
Definition set_udp_port (v : Z) : M unit := fun st => Ok (tt, with_udp_port st v).

(** ** Ports *)

(** [LWIP_RAND] is the port's, where it has one. *)
Definition udp_init (lwip_rand : option Z) : M unit :=
  match lwip_rand with Some r => set_udp_port (UDP_ENSURE_LOCAL_PORT_RANGE r) | None => mret tt end.

(** Whether a block from [pcb] on has the port. *)
Fixpoint port_used_loop (fuel : nat) (pcb port : Z) : M bool :=
  match fuel with
  | O => fun _ => Diverge
  | Datatypes.S fuel' =>
      if pcb =? 0 then mret false
      else x ← ugets pcb; if up_local_port x =? port then mret true else port_used_loop fuel' (up_next x) port
  end.
(** From the label [again] on. *)
Fixpoint new_port_loop (tries : nat) (n : Z) : M Z :=
  match tries with
  | O => fun _ => Diverge
  | Datatypes.S tries' =>
      st ← get;
      _ ← set_udp_port (if udp_port st =? UDP_LOCAL_PORT_RANGE_END then UDP_LOCAL_PORT_RANGE_START else u16 (udp_port st + 1));
      st ← get;
      fuel ← blk_fuel (A := udp_pcb);
      used ← port_used_loop fuel (udp_pcbs st) (udp_port st);
      if (used : bool) then
        if UDP_LOCAL_PORT_RANGE_END - UDP_LOCAL_PORT_RANGE_START <? u16 (n + 1) then mret 0 else new_port_loop tries' (u16 (n + 1))
      else mret (udp_port st)
  end.
Definition udp_new_port : M Z := new_port_loop (Z.to_nat 0x4000) 0.

(** ** Control blocks *)

(** Whether a block from [ipcb] on, other than [pcb], has the port on this address. *)
Fixpoint bind_loop (fuel : nat) (pcb ipcb ipaddr port : Z) : M bool :=
  match fuel with
  | O => fun _ => Diverge
  | Datatypes.S fuel' =>
      if ipcb =? 0 then mret false
      else
        x ← ugets ipcb;
        if negb (pcb =? ipcb) && (up_local_port x =? port) &&
           (ip4_addr_eq (local_ip (up_ip x)) ipaddr || ip4_addr_isany_val ipaddr || ip4_addr_isany_val (local_ip (up_ip x)))
        then mret true
        else bind_loop fuel' pcb (up_next x) ipaddr port
  end.
(** The block is put on the list. *)
Definition udp_activate (pcb : Z) : M unit :=
  st ← get; _ ← uupd pcb (fun x => with_up_next x (udp_pcbs st)); set_first (A := udp_pcb) pcb.

Definition udp_bind (pcb : Z) (ipaddr : option Z) (port : Z) : M Z :=
  let ipaddr := default IPADDR_ANY ipaddr in
  if pcb =? 0 then mret ERR_ARG
  else
    rebind ← blk_member (A := udp_pcb) pcb;
    port ← (if port =? 0 then udp_new_port
            else
              st ← get;
              fuel ← blk_fuel (A := udp_pcb);
              used ← bind_loop fuel pcb (udp_pcbs st) ipaddr port;
              mret (if (used : bool) then 0 else port));
    if port =? 0 then mret ERR_USE
    else
      _ ← uupd pcb (fun x => with_up_ip x (with_local_ip (up_ip x) ipaddr));
      _ ← uupd pcb (fun x => with_up_local_port x port);
      _ ← (if (rebind : bool) then mret tt else udp_activate pcb);
      mret ERR_OK.

Definition udp_bind_netif (pcb n : Z) : M unit :=
  i ← (if negb (n =? 0) then nif ← on_ip (on_low (netif_get n)); mret (netif_get_index nif) else mret NETIF_NO_INDEX);
  uupd pcb (fun x => with_up_ip x (with_netif_idx (up_ip x) i)).

Definition udp_connect (pcb : Z) (ipaddr : option Z) (port : Z) : M Z :=
  match ipaddr with
  | Some a =>
      if pcb =? 0 then mret ERR_ARG
      else
        x ← ugets pcb;
        err ← (if up_local_port x =? 0 then udp_bind pcb (Some (local_ip (up_ip x))) (up_local_port x) else mret ERR_OK);
        if negb (err =? ERR_OK) then mret err
        else
          _ ← uupd pcb (fun x => with_up_ip x (with_remote_ip (up_ip x) a));
          _ ← uupd pcb (fun x => with_up_remote_port x port);
          _ ← uupd pcb (fun x => with_up_flags x (u8 (Z.lor (up_flags x) UDP_FLAGS_CONNECTED)));
          active ← blk_member (A := udp_pcb) pcb;
          _ ← (if (active : bool) then mret tt else udp_activate pcb);
          mret ERR_OK
  | None => mret ERR_ARG
  end.
Definition udp_disconnect (pcb : Z) : M unit :=
  if pcb =? 0 then mret tt
  else
    _ ← uupd pcb (fun x => with_up_ip x (with_remote_ip (up_ip x) IPADDR_ANY));
    _ ← uupd pcb (fun x => with_up_remote_port x 0);
    _ ← uupd pcb (fun x => with_up_ip x (with_netif_idx (up_ip x) NETIF_NO_INDEX));
    uupd pcb (fun x => with_up_flags x (u8 (Z.land (up_flags x) (u8 (Z.land (Z.lnot UDP_FLAGS_CONNECTED) 0xff))))).
Definition udp_recv (pcb recv recv_arg : Z) : M unit :=
  if pcb =? 0 then mret tt else uupd pcb (fun x => with_up_recv x recv recv_arg).

Definition udp_free (a : Z) : M unit := fun st =>
  s ← pool_free a (udp_pool st);
  Ok (tt, with_udp st (delete a (udp_tab st)) (udp_pcbs st) s).
Definition udp_remove (pcb : Z) : M unit :=
  if pcb =? 0 then mret tt else _ ← blk_unlink (A := udp_pcb) pcb; udp_free pcb.
Definition udp_malloc : M Z := fun st =>
  '(a, s) ← pool_malloc (udp_pool st); Ok (a, with_udp st (udp_tab st) (udp_pcbs st) s).
Definition udp_put (a : Z) (x : udp_pcb) : M unit := fun st =>
  Ok (tt, with_udp st (<[a := x]> (udp_tab st)) (udp_pcbs st) (udp_pool st)).
Definition udp_new : M Z :=
  pcb ← udp_malloc;
  if negb (pcb =? 0) then
    _ ← udp_put pcb {| up_ip := zero_pcb UDP_TTL; up_next := 0; up_flags := 0; up_local_port := 0; up_remote_port := 0;
                       up_recv := 0; up_recv_arg := 0 |};
    mret pcb
  else mret pcb.
Definition udp_new_ip_type (type : Z) : M Z := udp_new.
Definition udp_netif_ip_addr_changed (old_addr new_addr : option Z) : M unit := blk_ip_addr_changed (A := udp_pcb) old_addr new_addr.

Lemma udp_get_bind {B} a x (f : udp_pcb -> M B) (st : state) : udp_tab st !! a = Some x -> (ugets a ≫= f) st = f x st.
Proof. exact (blk_get_bind a x f st). Qed.
Lemma udp_upd_bind {B} a x g (f : unit -> M B) (st : state) : udp_tab st !! a = Some x ->
  (uupd a g ≫= f) st = f tt (with_udp st (<[a := g x]> (udp_tab st)) (udp_pcbs st) (udp_pool st)).
Proof. intros H. apply st_bind_ok. exact (blk_upd_ok a x g st H). Qed.

Lemma port_used_loop_spec fuel l a v (st : state) : chain_at up_next (udp_tab st) a l -> (length l < fuel)%nat ->
  port_used_loop fuel a v st = Ok (port_used (udp_tab st) l v, st).
Proof.
  revert a fuel. induction l as [|b l IH]; intros a [|fuel]; try (simpl; lia).
  - by intros -> _.
  - intros (-> & Hb & x & Hx & Hl) Hf. cbn [port_used_loop]. destruct (Z.eqb_spec b 0) as [|_]; [done|].
    rewrite (udp_get_bind _ _ _ _ Hx). unfold port_used. simpl. rewrite Hx. destruct (up_local_port x =? v); [done|].
    by apply IH; [|simpl in Hf; lia].
Qed.

Lemma new_port_loop_spec tries n l (st : state) : on_list (A := udp_pcb) l st -> in_range (udp_port st) ->
  0 <= n -> (0 < tries)%nat -> n + Z.of_nat tries = 0x4000 ->
  exists r w, new_port_loop tries n st = Ok (r, with_udp_port st w) /\ in_range w /\
    (r = 0 \/ r = w /\ port_used (udp_tab st) l w = false) /\
    forall v, in_range v -> ports_after (udp_port st) v < (if r =? 0 then Z.of_nat tries else ports_after (udp_port st) w) ->
      port_used (udp_tab st) l v = true.
Proof.
  intros Hl. revert n st Hl. induction tries as [|tries IH]; intros n st Hl Hr Hn Ht Hs; [lia|].
  assert (Hr' := next_port_range _ Hr). cbn [new_port_loop]. rewrite get_bind.
  rewrite (st_bind_ok _ _ _ tt (with_udp_port st (next_port (udp_port st)))) by done. set (st1 := with_udp_port st _). rewrite get_bind.
  rewrite (st_bind_ok _ _ _ (Datatypes.S (size (udp_tab st))) st1) by done.
  rewrite (st_bind_ok _ _ _ _ _ (port_used_loop_spec (Datatypes.S (size (udp_tab st))) l (udp_pcbs st1) _ st1 Hl ltac:(pose proof (chain_at_length _ _ _ _ Hl) as Hlen; simpl in Hlen; lia))).
  change (udp_tab st1) with (udp_tab st). change (udp_port st1) with (next_port (udp_port st)).
  assert (Hstep : forall v, in_range v -> v <> next_port (udp_port st) -> ports_after (udp_port st) v = ports_after (next_port (udp_port st)) v + 1).
  { intros v Hv Hne. rewrite ports_after_next by done. by rewrite (proj2 (Z.eqb_neq _ _) Hne). }
  destruct (port_used (udp_tab st) l (next_port (udp_port st))) eqn:Eu.
  - rewrite u16_id by (unfold is_u16; lia). unfold UDP_LOCAL_PORT_RANGE_END, UDP_LOCAL_PORT_RANGE_START.
    destruct (Z.ltb_spec (0xffff - 0xc000) (n + 1)) as [Hlast|Hmore].
    + exists 0, (next_port (udp_port st)). split; [done|]. split; [done|]. split; [by left|]. simpl. intros v Hv Hlt.
      destruct (Z.eq_dec v (next_port (udp_port st))) as [->|Hne]; [done|]. rewrite Hstep in Hlt by done.
      pose proof (ports_after_lt (next_port (udp_port st)) v). lia.
    + destruct (IH (n + 1) st1) as (r & w & Er & Hw & Hres & Hall); [done|done|lia|lia|lia|].
      exists r, w. split; [done|]. split; [done|]. split; [done|]. intros v Hv Hlt.
      destruct (Z.eq_dec v (next_port (udp_port st))) as [->|Hne]; [done|]. apply (Hall v Hv). change (udp_port st1) with (next_port (udp_port st)).
      rewrite Hstep in Hlt by done. destruct (r =? 0); [lia|].
      destruct (Z.eq_dec w (next_port (udp_port st))) as [->|Hnw]; [|rewrite Hstep in Hlt by done; lia].
      rewrite (ports_after_next (udp_port st) (next_port _)), Z.eqb_refl in Hlt by done. pose proof (ports_after_lt (next_port (udp_port st)) v). lia.
  - eexists _, _. split; [done|]. split; [done|]. split; [by right|]. intros v Hv Hlt.
    rewrite (ports_after_next (udp_port st) (next_port _)), Z.eqb_refl in Hlt by done. pose proof (ports_after_lt (udp_port st) v).
    destruct (Z.eqb_spec (next_port (udp_port st)) 0) as [E0|]; [|lia]. unfold in_range, UDP_LOCAL_PORT_RANGE_START in Hr'. lia.
Qed.

(** ** The invariant *)

(** The fields have the values of their C types. *)
Definition ip_typed (x : ip_pcb) : Prop :=
  is_u32 (local_ip x) /\ is_u32 (remote_ip x) /\ is_u8 (netif_idx x) /\ is_u8 (so_options x) /\ is_u8 (tos x) /\ is_u8 (ttl x).
Definition udp_typed (x : udp_pcb) : Prop :=
  ip_typed (up_ip x) /\ is_u8 (up_flags x) /\ is_u16 (up_local_port x) /\ is_u16 (up_remote_port x).
(** The block takes datagrams for this address and port too. *)
Definition shares (x : udp_pcb) (ipaddr port : Z) : bool :=
  (up_local_port x =? port) &&
  (ip4_addr_eq (local_ip (up_ip x)) ipaddr || ip4_addr_isany_val ipaddr || ip4_addr_isany_val (local_ip (up_ip x))).

(** [l] is the list: the blocks that are bound.  No two of them share an address and a port. *)
Record udp_inv (l : list Z) (st : state) : Prop := {
  ui_list : on_list (A := udp_pcb) l st;
  ui_pool : pool_ok (dom (udp_tab st)) (udp_pool st);
  ui_null : udp_tab st !! 0 = None;
  ui_typed a x : udp_tab st !! a = Some x -> udp_typed x;
  ui_port : in_range (udp_port st);
  ui_bound a x : udp_tab st !! a = Some x -> a ∈ l <-> up_local_port x <> 0;
  ui_distinct a b x y : udp_tab st !! a = Some x -> udp_tab st !! b = Some y -> a ∈ l -> b ∈ l -> a <> b ->
    shares y (local_ip (up_ip x)) (up_local_port x) = false
}.

Definition clashes (t : gmap Z udp_pcb) (l : list Z) (pcb ipaddr port : Z) : bool :=
  existsb (fun a => negb (pcb =? a) && match t !! a with Some x => shares x ipaddr port | None => false end) l.
Lemma bind_loop_spec fuel l pcb a ipaddr port (st : state) : chain_at up_next (udp_tab st) a l -> (length l < fuel)%nat ->
  bind_loop fuel pcb a ipaddr port st = Ok (clashes (udp_tab st) l pcb ipaddr port, st).
Proof.
  revert a fuel. induction l as [|b l IH]; intros a [|fuel]; try (simpl; lia).
  - by intros -> _.
  - intros (-> & Hb & x & Hx & Hl) Hf. cbn [bind_loop]. destruct (Z.eqb_spec b 0) as [|_]; [done|].
    rewrite (udp_get_bind _ _ _ _ Hx). unfold clashes. simpl. rewrite Hx. unfold shares at 1. rewrite andb_assoc.
    destruct (_ && (_ =? _) && _); [done|]. by apply IH; [|simpl in Hf; lia].
Qed.
Lemma clashes_false t l pcb ipaddr port b y : clashes t l pcb ipaddr port = false -> b ∈ l -> b <> pcb -> t !! b = Some y -> shares y ipaddr port = false.
Proof.
  unfold clashes. intros H Hb Hne Hy. destruct (shares y ipaddr port) eqn:Es; [|done].
  rewrite (proj2 (existsb_exists _ l)) in H; [done|]. exists b. split; [by apply list_elem_of_In|].
  rewrite Hy, Es, (proj2 (Z.eqb_neq pcb b)) by congruence. done.
Qed.
Lemma port_used_false t l v b y : port_used t l v = false -> b ∈ l -> t !! b = Some y -> up_local_port y <> v.
Proof.
  unfold port_used. intros H Hb Hy E. rewrite (proj2 (existsb_exists _ l)) in H; [done|].
  exists b. split; [by apply list_elem_of_In|]. rewrite Hy. by apply Z.eqb_eq.
Qed.
Lemma unused_clashes t l pcb ipaddr v : port_used t l v = false -> clashes t l pcb ipaddr v = false.
Proof.
  unfold port_used, clashes. induction l as [|b l IH]; [done|]. simpl. intros [Hb Hl]%orb_false_iff. rewrite (IH Hl), orb_false_r.
  destruct (t !! b) as [y|]; [|apply andb_false_r]. unfold shares. by rewrite Hb, andb_false_r.
Qed.
Lemma shares_sym x y : shares y (local_ip (up_ip x)) (up_local_port x) = shares x (local_ip (up_ip y)) (up_local_port y).
Proof.
  unfold shares, ip4_addr_eq. rewrite (Z.eqb_sym (up_local_port x)), (Z.eqb_sym (local_ip (up_ip x))).
  by rewrite <-!orb_assoc, (orb_comm (ip4_addr_isany_val (local_ip (up_ip x)))).
Qed.

(** A change that is not to the link or the binding. *)
Lemma udp_inv_update l st a x y : udp_inv l st -> udp_tab st !! a = Some x -> up_next y = up_next x -> udp_typed y ->
  local_ip (up_ip y) = local_ip (up_ip x) -> up_local_port y = up_local_port x ->
  udp_inv l (with_udp st (<[a := y]> (udp_tab st)) (udp_pcbs st) (udp_pool st)).
Proof.
  intros [Hl Hp H0 Ht Hr Hb Hd] Ha En Hty Ei Ep.
  assert (Hold : forall b z, (<[a := y]> (udp_tab st)) !! b = Some z -> exists w, udp_tab st !! b = Some w /\
    up_local_port z = up_local_port w /\ local_ip (up_ip z) = local_ip (up_ip w)).
  { intros b z [[<- <-]|[? ?]]%lookup_insert_Some; eauto. }
  constructor; simpl.
  - unfold on_list. by eapply (chain_at_update (A := udp_pcb)).
  - rewrite dom_insert_lookup_L; [done|by eexists].
  - rewrite lookup_insert_ne; [done|]. congruence.
  - intros b z [[<- <-]|[? ?]]%lookup_insert_Some; eauto.
  - done.
  - intros b z (w & Hw & -> & _)%Hold. eauto.
  - intros b c z1 z2 (w1 & Hw1 & -> & ->)%Hold (w2 & Hw2 & E2 & E2')%Hold Hb1 Hc1 Hne.
    specialize (Hd b c w1 w2 Hw1 Hw2 Hb1 Hc1 Hne). unfold shares in *. by rewrite E2, E2'.
Qed.

Lemma inv_port l st w : udp_inv l st -> in_range w -> udp_inv l (with_udp_port st w).
Proof. by intros [] ?; constructor. Qed.

(** The block bound to an address and a port. *)
Definition bound (x : udp_pcb) (ipaddr port : Z) : udp_pcb := with_up_local_port (with_up_ip x (with_local_ip (up_ip x) ipaddr)) port.
Definition activated (pcb : Z) (l : list Z) : list Z := if decide (pcb ∈ l) then l else pcb :: l.
(** The host with [pcb] bound, and put on the list if it was not there. *)
Definition bind_state (st : state) (l : list Z) (pcb : Z) (x : udp_pcb) (ipaddr port : Z) : state :=
  if decide (pcb ∈ l) then with_udp st (<[pcb := bound x ipaddr port]> (udp_tab st)) (udp_pcbs st) (udp_pool st)
  else with_udp st (<[pcb := with_up_next (bound x ipaddr port) (udp_pcbs st)]> (udp_tab st)) pcb (udp_pool st).

Lemma bind_state_inv l st pcb x ipaddr port : udp_inv l st -> udp_tab st !! pcb = Some x -> is_u32 ipaddr -> is_u16 port -> port <> 0 ->
  clashes (udp_tab st) l pcb ipaddr port = false -> udp_inv (activated pcb l) (bind_state st l pcb x ipaddr port).
Proof.
  intros [Hl Hp H0 Ht Hr Hb Hd] Hx Hi Hv Hv0 Hc.
  assert (Hin : forall b, b ∈ activated pcb l <-> b = pcb \/ b ∈ l).
  { intros b. unfold activated. case_decide; rewrite ?elem_of_cons; [|done]. split; [by right|by intros [->|]]. }
  assert (Htab : exists n, udp_tab (bind_state st l pcb x ipaddr port) = <[pcb := with_up_next (bound x ipaddr port) n]> (udp_tab st)).
  { unfold bind_state. case_decide; [exists (up_next x)|by eexists]. done. }
  destruct Htab as [n Htab].
  assert (Hty : udp_typed (with_up_next (bound x ipaddr port) n)).
  { destruct (Ht _ _ Hx) as ((? & ? & ? & ? & ? & ?) & ? & ? & ?). done. }
  assert (Hlook : forall b z, udp_tab (bind_state st l pcb x ipaddr port) !! b = Some z ->
    b = pcb /\ local_ip (up_ip z) = ipaddr /\ up_local_port z = port /\ udp_typed z \/ b <> pcb /\ udp_tab st !! b = Some z).
  { intros b z. rewrite Htab. intros [[<- <-]|[? ?]]%lookup_insert_Some; [left|by right]. done. }
  assert (Hq : udp_pool (bind_state st l pcb x ipaddr port) = udp_pool st /\ udp_port (bind_state st l pcb x ipaddr port) = udp_port st).
  { unfold bind_state. by case_decide. }
  constructor; rewrite ?(proj1 Hq), ?(proj2 Hq); [| |rewrite Htab| |done| |].
  - unfold on_list, bind_state, activated. case_decide as Hd'; [by eapply (chain_at_update (A := udp_pcb))|]. simpl. split; [done|].
    split; [congruence|]. eexists. rewrite lookup_insert_eq. split; [done|]. by apply (chain_at_insert (A := udp_pcb)).
  - rewrite Htab, dom_insert_lookup_L; [done|by eexists].
  - rewrite lookup_insert_ne; [done|congruence].
  - intros b z [(_ & _ & _ & ?)|[_ ?]]%Hlook; eauto.
  - intros b z Hz. rewrite Hin. destruct (Hlook _ _ Hz) as [(-> & _ & -> & _)|[Hne Hz']]; [by split; [|left]|]. rewrite <-(Hb _ _ Hz'). naive_solver.
  - intros b c z1 z2 Hz1 Hz2 Hb1 Hc1 Hne. rewrite Hin in Hb1, Hc1.
    destruct (Hlook _ _ Hz1) as [(-> & E1 & E1' & _)|[Hn1 Hz1']], (Hlook _ _ Hz2) as [(-> & E2 & E2' & _)|[Hn2 Hz2']]; [done| | |].
    + rewrite E1, E1'. eapply clashes_false; eauto. by destruct Hc1.
    + rewrite shares_sym, E2, E2'. eapply clashes_false; eauto. by destruct Hb1.
    + eapply Hd; eauto; [by destruct Hb1|by destruct Hc1].
Qed.

(** [v] is the first free port after [cur], or 0 if every port of the range is used. *)
Definition first_free (t : gmap Z udp_pcb) (l : list Z) (cur v : Z) : Prop :=
  if v =? 0 then forall u, in_range u -> port_used t l u = true
  else in_range v /\ port_used t l v = false /\ forall u, in_range u -> ports_after cur u < ports_after cur v -> port_used t l u = true.

Lemma udp_new_port_spec l (st : state) : on_list (A := udp_pcb) l st -> in_range (udp_port st) ->
  exists v w, udp_new_port st = Ok (v, with_udp_port st w) /\ in_range w /\ first_free (udp_tab st) l (udp_port st) v /\ (v <> 0 -> w = v).
Proof.
  intros Hl Hr. destruct (new_port_loop_spec (Z.to_nat 0x4000) 0 l st) as (r & w & Er & Hw & Hres & Hall); [done|done|lia|lia|lia|].
  exists r, w. split; [exact Er|]. split; [done|]. unfold first_free. destruct (Z.eqb_spec r 0) as [->|Hne].
  - split; [|done]. intros u Hu. apply Hall; [done|]. pose proof (ports_after_lt (udp_port st) u). lia.
  - destruct Hres as [|[-> Hf]]; [done|]. auto.
Qed.

Lemma udp_activate_ok pcb y (st : state) : udp_tab st !! pcb = Some y ->
  udp_activate pcb st = Ok (tt, with_udp st (<[pcb := with_up_next y (udp_pcbs st)]> (udp_tab st)) pcb (udp_pool st)).
Proof. intros Hy. unfold udp_activate. by rewrite get_bind, (udp_upd_bind _ _ _ _ _ Hy). Qed.

(** The port [udp_bind] settles on, 0 if there is none. *)
Definition bind_port (t : gmap Z udp_pcb) (l : list Z) (cur pcb ipaddr port v : Z) : Prop :=
  if port =? 0 then first_free t l cur v else v = if clashes t l pcb ipaddr port then 0 else port.

Lemma udp_bind_spec l (st : state) pcb x ipaddr port : udp_inv l st -> udp_tab st !! pcb = Some x ->
  exists v w, in_range w /\ bind_port (udp_tab st) l (udp_port st) pcb (default IPADDR_ANY ipaddr) port v /\
    udp_bind pcb ipaddr port st = Ok (if v =? 0 then (ERR_USE, with_udp_port st w)
      else (ERR_OK, bind_state (with_udp_port st w) l pcb x (default IPADDR_ANY ipaddr) v)).
Proof.
  intros H Hx. assert (Hne : pcb <> 0) by (intros ->; by rewrite (ui_null _ _ H) in Hx).
  unfold udp_bind. rewrite (proj2 (Z.eqb_neq _ _) Hne), (st_bind_ok _ _ _ _ _ (blk_member_spec l pcb st (ui_list _ _ H))).
  set (a := default IPADDR_ANY ipaddr).
  assert (Hport : exists v w, in_range w /\ bind_port (udp_tab st) l (udp_port st) pcb a port v /\
    (if port =? 0 then udp_new_port
     else st ← get; fuel ← blk_fuel (A := udp_pcb); used ← bind_loop fuel pcb (udp_pcbs st) a port; mret (if (used : bool) then 0 else port)) st
    = Ok (v, with_udp_port st w)).
  { unfold bind_port. destruct (Z.eqb_spec port 0) as [->|Hp0].
    - destruct (udp_new_port_spec l st (ui_list _ _ H) (ui_port _ _ H)) as (v & w & Ev & Hw & Hf & _). by exists v, w.
    - eexists _, (udp_port st). split; [apply H|]. split; [done|]. rewrite get_bind, (st_bind_ok _ _ _ (Datatypes.S (size (udp_tab st))) st) by done.
      rewrite (st_bind_ok _ _ _ _ _ (bind_loop_spec (Datatypes.S (size (udp_tab st))) l pcb _ a port st (ui_list _ _ H)
        ltac:(pose proof (chain_at_length _ _ _ _ (ui_list _ _ H)) as Hlen; simpl in Hlen; lia))). by destruct st. }
  destruct Hport as (v & w & Hw & Hv & Ev). exists v, w. split; [done|]. split; [done|]. rewrite (st_bind_ok _ _ _ _ _ Ev).
  destruct (v =? 0); [done|]. rewrite (udp_upd_bind _ x) by done.
  rewrite (udp_upd_bind _ (with_up_ip x (with_local_ip (up_ip x) a))) by apply lookup_insert_eq. simpl. rewrite insert_insert_eq.
  unfold bind_state. case_bool_decide as Hd; [by rewrite decide_True|]. rewrite decide_False by done.
  rewrite (st_bind_ok _ _ _ _ _ (udp_activate_ok pcb (bound x a v) _ (lookup_insert_eq _ _ _))).
  simpl. by rewrite insert_insert_eq.
Qed.
Lemma udp_bind_inv l (st : state) pcb x ipaddr port v w : udp_inv l st -> udp_tab st !! pcb = Some x -> in_range w ->
  is_u32 ipaddr -> is_u16 port -> bind_port (udp_tab st) l (udp_port st) pcb ipaddr port v -> v <> 0 ->
  udp_inv (activated pcb l) (bind_state (with_udp_port st w) l pcb x ipaddr v).
Proof.
  intros H Hx Hw Hi Hp Hv Hv0. apply bind_state_inv; try done; [by apply inv_port| |]; unfold bind_port, first_free in Hv.
  - destruct (Z.eqb_spec port 0); [|destruct (clashes (udp_tab st) l pcb ipaddr port); by subst].
    rewrite (proj2 (Z.eqb_neq _ _) Hv0) in Hv. destruct Hv as [Hr _]. unfold in_range, UDP_LOCAL_PORT_RANGE_START, UDP_LOCAL_PORT_RANGE_END in Hr. unfold is_u16. lia.
  - destruct (Z.eqb_spec port 0).
    + rewrite (proj2 (Z.eqb_neq _ _) Hv0) in Hv. apply unused_clashes, Hv.
    + simpl. destruct (clashes (udp_tab st) l pcb ipaddr port) eqn:Ec; by subst.
Qed.

(** The same blocks or fewer, linked in another way. *)
Lemma inv_relink l l' (st : state) t h q : udp_inv l st -> chain_at up_next t h l' -> pool_ok (dom t) q ->
  (forall b z, t !! b = Some z -> exists w n, udp_tab st !! b = Some w /\ z = with_up_next w n /\ (b ∈ l' <-> b ∈ l)) ->
  udp_inv l' (with_udp st t h q).
Proof.
  intros [Hl Hp H0 Ht Hr Hb Hd] Hl' Hq Hs. constructor; simpl; [done|done| | |done| |].
  - destruct (t !! 0) as [z|] eqn:Ez; [|done]. destruct (Hs _ _ Ez) as (w & n & Hw & _). congruence.
  - intros a z (w & n & Hw & -> & _)%Hs. exact (Ht _ _ Hw).
  - intros a z (w & n & Hw & -> & ->)%Hs. exact (Hb _ _ Hw).
  - intros a b z1 z2 (w1 & n1 & Hw1 & -> & E1)%Hs (w2 & n2 & Hw2 & -> & E2)%Hs. rewrite E1, E2. exact (Hd a b w1 w2 Hw1 Hw2).
Qed.

Lemma udp_remove_spec l (st : state) pcb : udp_inv l st -> is_Some (udp_tab st !! pcb) ->
  exists st', udp_remove pcb st = Ok (tt, st') /\ udp_inv (without pcb l) st' /\ udp_tab st' !! pcb = None /\
    dom (udp_tab st') = dom (udp_tab st) ∖ {[pcb]}.
Proof.
  intros H [x Hx]. assert (Hne : pcb <> 0) by (intros ->; by rewrite (ui_null _ _ H) in Hx).
  unfold udp_remove. rewrite (proj2 (Z.eqb_neq _ _) Hne).
  destruct (blk_unlink_spec l pcb st (ui_list _ _ H) Hne) as (t & h & Eu & Hl & Hre). rewrite (st_bind_ok _ _ _ _ _ Eu).
  assert (Hdom := relinked_dom _ _ Hre). simpl in Hdom.
  destruct (pool_free_law (dom (udp_tab st)) (udp_pool st) pcb (ui_pool _ _ H)) as (q & Eq & Hq); [by apply elem_of_dom; eexists|].
  exists (with_udp st (delete pcb t) h q). split; [unfold udp_free; simpl; by rewrite Eq|]. cbn [udp_tab with_udp].
  rewrite dom_delete_L, Hdom, lookup_delete_eq. split; [|done]. refine (inv_relink l _ st _ _ _ H _ _ _).
  - refine (chain_at_delete (X := state) (A := udp_pcb) t h (without pcb l) pcb Hl _). unfold without. rewrite list_elem_of_filter. by intros [? _].
  - by rewrite dom_delete_L, Hdom.
  - intros b z [Hbne Hz]%lookup_delete_Some. specialize (Hre b). simpl in Hre. rewrite Hz in Hre.
    destruct (udp_tab st !! b) as [w|] eqn:Ew; [|done]. injection Hre as Hre. exists w, (up_next z). split; [done|]. split; [by destruct z, w; simplify_eq/=|].
    unfold without. rewrite list_elem_of_filter. naive_solver.
Qed.

Lemma udp_new_spec l (st : state) : udp_inv l st ->
  exists pcb st', udp_new st = Ok (pcb, st') /\ udp_inv l st' /\
    (pcb = 0 /\ (pool_cap (S := U) <= size (udp_tab st))%nat /\ udp_tab st' = udp_tab st \/
     pcb <> 0 /\ udp_tab st !! pcb = None /\ udp_tab st' = <[pcb := {| up_ip := zero_pcb UDP_TTL; up_next := 0; up_flags := 0;
       up_local_port := 0; up_remote_port := 0; up_recv := 0; up_recv_arg := 0 |}]> (udp_tab st)).
Proof.
  intros H. destruct (pool_malloc_law _ _ (ui_pool _ _ H)) as (pcb & q & Em & Hm). rewrite size_dom in Hm.
  unfold udp_new. rewrite (st_bind_ok _ _ _ pcb (with_udp st (udp_tab st) (udp_pcbs st) q)) by (unfold udp_malloc; by rewrite Em).
  destruct H as [Hl Hp H0 Ht Hr Hb Hd]. case_decide as Hfull.
  - destruct Hm as (Hne & Hnew%not_elem_of_dom & Hq). rewrite (proj2 (Z.eqb_neq _ _) Hne). eexists _, _. split; [done|].
    assert (Hnl : pcb ∉ l).
    { intros Hin. destruct (chain_at_dom _ _ _ _ _ Hl Hin) as [? Hx]. simpl in Hx. congruence. }
    split; [|by right]. constructor; simpl; [by apply (chain_at_insert (A := udp_pcb))|by rewrite dom_insert_L|by rewrite lookup_insert_ne| |done| |].
    + intros a z [[<- <-]|[? ?]]%lookup_insert_Some; [|eauto]. done.
    + intros a z [[<- <-]|[? ?]]%lookup_insert_Some; [|eauto]. simpl. naive_solver.
    + intros a b z1 z2 [[<- <-]|[? ?]]%lookup_insert_Some [[<- <-]|[? ?]]%lookup_insert_Some; try done. eauto.
  - destruct Hm as (-> & Hq). eexists _, _. split; [done|]. split; [by constructor|]. left. split; [done|]. split; [lia|done].
Qed.

(** ** The operations keep it *)

Definition connected (x : udp_pcb) (ipaddr port : Z) : udp_pcb :=
  with_up_flags (with_up_remote_port (with_up_ip x (with_remote_ip (up_ip x) ipaddr)) port) (u8 (Z.lor (up_flags x) UDP_FLAGS_CONNECTED)).
Definition set_udp (st : state) (pcb : Z) (x : udp_pcb) : state := with_udp st (<[pcb := x]> (udp_tab st)) (udp_pcbs st) (udp_pool st).

Lemma upd_inv l (st : state) pcb x g : udp_inv l st -> udp_tab st !! pcb = Some x ->
  up_next (g x) = up_next x -> local_ip (up_ip (g x)) = local_ip (up_ip x) -> up_local_port (g x) = up_local_port x ->
  (udp_typed x -> udp_typed (g x)) -> uupd pcb g st = Ok (tt, set_udp st pcb (g x)) /\ udp_inv l (set_udp st pcb (g x)).
Proof. intros H Hx En Ei Ep Ht. split; [exact (blk_upd_ok pcb x g st Hx)|]. eapply udp_inv_update; eauto. apply Ht. by apply H in Hx. Qed.

(** [udp_connect] once the block has a port. *)
Lemma connect_bound l (st : state) pcb x ipaddr port : udp_inv l st -> udp_tab st !! pcb = Some x -> up_local_port x <> 0 ->
  is_u32 ipaddr -> is_u16 port ->
  udp_inv l (set_udp st pcb (connected x ipaddr port)) /\
  (_ ← uupd pcb (fun x => with_up_ip x (with_remote_ip (up_ip x) ipaddr));
   _ ← uupd pcb (fun x => with_up_remote_port x port);
   _ ← uupd pcb (fun x => with_up_flags x (u8 (Z.lor (up_flags x) UDP_FLAGS_CONNECTED)));
   active ← blk_member (A := udp_pcb) pcb;
   _ ← (if (active : bool) then mret tt else udp_activate pcb);
   mret ERR_OK) st = Ok (ERR_OK, set_udp st pcb (connected x ipaddr port)).
Proof.
  intros H Hx Hp Hi Hv.
  assert (Hc : udp_inv l (set_udp st pcb (connected x ipaddr port))).
  { refine (udp_inv_update _ _ _ _ _ H Hx _ _ _ _); try done. destruct (ui_typed _ _ H _ _ Hx) as ((? & ? & ? & ? & ? & ?) & ? & ? & ?).
    split; [done|]. split; [apply u8_range|done]. }
  split; [done|]. rewrite (udp_upd_bind _ _ _ _ _ Hx). do 2 (erewrite udp_upd_bind by apply lookup_insert_eq; simpl; rewrite insert_insert_eq).
  assert (Hin : pcb ∈ l) by by apply (ui_bound _ _ H _ _ Hx).
  lazymatch goal with |- (_ ≫= _) ?s = _ => change s with (set_udp st pcb (connected x ipaddr port)) end.
  rewrite (st_bind_ok _ _ _ _ _ (blk_member_spec l pcb (set_udp st pcb (connected x ipaddr port)) (ui_list _ _ Hc))). by rewrite bool_decide_true.
Qed.

(** A block without a port is bound first, to the first free port of the range. *)
Lemma udp_connect_spec l (st : state) pcb x ipaddr port : udp_inv l st -> udp_tab st !! pcb = Some x -> is_u32 ipaddr -> is_u16 port ->
  exists err l' st', udp_connect pcb (Some ipaddr) port st = Ok (err, st') /\ udp_inv l' st' /\
    (if up_local_port x =? 0 then
       exists v w, in_range w /\ first_free (udp_tab st) l (udp_port st) v /\
         if v =? 0 then err = ERR_USE /\ l' = l /\ st' = with_udp_port st w
         else err = ERR_OK /\ l' = pcb :: l /\ st' = set_udp (bind_state (with_udp_port st w) l pcb x (local_ip (up_ip x)) v) pcb
                (connected (with_up_next (bound x (local_ip (up_ip x)) v) (udp_pcbs st)) ipaddr port)
     else err = ERR_OK /\ l' = l /\ st' = set_udp st pcb (connected x ipaddr port)).
Proof.
  intros H Hx Hi Hv. assert (Hne : pcb <> 0) by (intros ->; by rewrite (ui_null _ _ H) in Hx).
  unfold udp_connect. rewrite (proj2 (Z.eqb_neq _ _) Hne), (udp_get_bind _ _ _ _ Hx). destruct (Z.eqb_spec (up_local_port x) 0) as [E0|Hp].
  - rewrite E0. destruct (udp_bind_spec l st pcb x (Some (local_ip (up_ip x))) 0 H Hx) as (v & w & Hw & Hbp & Eb).
    rewrite (st_bind_ok _ _ _ (if v =? 0 then ERR_USE else ERR_OK) (if v =? 0 then with_udp_port st w else
      bind_state (with_udp_port st w) l pcb x (local_ip (up_ip x)) v)) by (rewrite Eb; by destruct (v =? 0)).
    destruct (Z.eqb_spec v 0) as [->|Hv0].
    + eexists _, _, _. split; [done|]. split; [by apply inv_port|]. by exists 0, w.
    + assert (Hnl : pcb ∉ l) by (rewrite (ui_bound _ _ H _ _ Hx); naive_solver).
      assert (Hty := ui_typed _ _ H _ _ Hx).
      assert (Hb := udp_bind_inv l st pcb x (local_ip (up_ip x)) 0 v w H Hx Hw ltac:(apply Hty) ltac:(done) Hbp Hv0).
      destruct (connect_bound _ _ pcb (with_up_next (bound x (local_ip (up_ip x)) v) (udp_pcbs st)) ipaddr port Hb) as [Hc Ec]; try done.
      { unfold bind_state. rewrite decide_False by done. apply lookup_insert_eq. }
      unfold activated in Hc. rewrite decide_False in Hc by done. eexists _, _, _. split; [exact Ec|]. split; [exact Hc|].
      exists v, w. by rewrite (proj2 (Z.eqb_neq _ _) Hv0).
  - destruct (connect_bound l st pcb x ipaddr port) as [Hc Ec]; try done. eexists _, _, _. split; [exact Ec|]. done.
Qed.

Lemma udp_bind_netif_spec l (st : state) pcb x n : udp_inv l st -> udp_tab st !! pcb = Some x -> (n = 0 \/ is_Some (netifs (low (ipl st)) !! n)) ->
  exists i, udp_bind_netif pcb n st = Ok (tt, set_udp st pcb (with_up_ip x (with_netif_idx (up_ip x) i))) /\
    udp_inv l (set_udp st pcb (with_up_ip x (with_netif_idx (up_ip x) i))) /\
    i = match netifs (low (ipl st)) !! n with Some nif => if n =? 0 then NETIF_NO_INDEX else netif_get_index nif | None => NETIF_NO_INDEX end.
Proof.
  intros H Hx Hn. set (i := match netifs (low (ipl st)) !! n with Some nif => if n =? 0 then NETIF_NO_INDEX else netif_get_index nif | None => NETIF_NO_INDEX end).
  assert (Hi : is_u8 i) by (unfold i; repeat case_match; try done; apply u8_range).
  destruct (upd_inv l st pcb x (fun x => with_up_ip x (with_netif_idx (up_ip x) i)) H Hx) as [Eu Hinv]; try done.
  { by intros ((? & ? & ? & ? & ? & ?) & ? & ? & ?). }
  exists i. split; [|done]. unfold udp_bind_netif. rewrite (st_bind_ok _ _ _ i st); [exact Eu|]. unfold i. destruct (Z.eqb_spec n 0) as [E0|Hne].
  - by destruct (netifs (low (ipl st)) !! n).
  - destruct Hn as [|[nif Hn]]; [done|]. rewrite Hn. simpl.
    by rewrite (host_netif_bind _ _ _ _ Hn).
Qed.
Definition disconnected (x : udp_pcb) : udp_pcb :=
  with_up_flags (with_up_ip (with_up_remote_port x 0) (with_netif_idx (with_remote_ip (up_ip x) IPADDR_ANY) NETIF_NO_INDEX))
    (u8 (Z.land (up_flags x) (u8 (Z.land (Z.lnot UDP_FLAGS_CONNECTED) 0xff)))).
Lemma udp_disconnect_spec l (st : state) pcb x : udp_inv l st -> udp_tab st !! pcb = Some x ->
  udp_disconnect pcb st = Ok (tt, set_udp st pcb (disconnected x)) /\ udp_inv l (set_udp st pcb (disconnected x)).
Proof.
  intros H Hx. assert (Hne : pcb <> 0) by (intros ->; by rewrite (ui_null _ _ H) in Hx).
  destruct (upd_inv l st pcb x disconnected H Hx) as [Eu Hinv]; try done.
  { intros ((? & ? & ? & ? & ? & ?) & ? & ? & ?). split; [done|]. split; [apply u8_range|done]. }
  split; [|done]. unfold udp_disconnect. rewrite (proj2 (Z.eqb_neq _ _) Hne), (udp_upd_bind _ _ _ _ _ Hx).
  do 2 (erewrite udp_upd_bind by apply lookup_insert_eq; simpl; rewrite insert_insert_eq).
  refine (eq_trans (blk_upd_ok pcb _ _ _ (lookup_insert_eq _ _ _)) _). simpl. by rewrite insert_insert_eq.
Qed.

(** ** Sequences of calls *)

Inductive udp_call :=
  | UInit (lwip_rand : option Z) | UNew | UBind (pcb : Z) (ipaddr : option Z) (port : Z) | UBindNetif (pcb n : Z)
  | UConnect (pcb : Z) (ipaddr : option Z) (port : Z) | UDisconnect (pcb : Z) | URecv (pcb recv recv_arg : Z) | URemove (pcb : Z)
  | UAddrChanged (old_addr new_addr : option Z).
Definition udp_do (c : udp_call) : M Z :=
  match c with
  | UInit r => _ ← udp_init r; mret 0
  | UNew => udp_new
  | UBind pcb a port => udp_bind pcb a port
  | UBindNetif pcb n => _ ← udp_bind_netif pcb n; mret 0
  | UConnect pcb a port => udp_connect pcb a port
  | UDisconnect pcb => _ ← udp_disconnect pcb; mret 0
  | URecv pcb f a => _ ← udp_recv pcb f a; mret 0
  | URemove pcb => _ ← udp_remove pcb; mret 0
  | UAddrChanged o n => _ ← udp_netif_ip_addr_changed o n; mret 0
  end.
(** The block is one that [udp_new] returned and is in use, or NULL where the code allows it;
    the other arguments have the types of the parameters.  An interface changes its address to one that no block is bound to. *)
Definition allocated (st : state) (pcb : Z) : Prop := is_Some (udp_tab st !! pcb).
Definition may_call (st : state) (c : udp_call) : Prop :=
  match c with
  | UInit _ | UNew => True
  | UBind pcb a port | UConnect pcb a port => (pcb = 0 \/ allocated st pcb) /\ (forall x, a = Some x -> is_u32 x) /\ is_u16 port
  | UBindNetif pcb n => allocated st pcb /\ (n = 0 \/ is_Some (netifs (low (ipl st)) !! n))
  | UDisconnect pcb | URecv pcb _ _ | URemove pcb => pcb = 0 \/ allocated st pcb
  | UAddrChanged _ n => forall x, n = Some x -> is_u32 x /\ map_Forall (fun _ y => up_local_port y <> 0 -> local_ip (up_ip y) <> x) (udp_tab st)
  end.
Definition udp_step (st st' : state) : Prop := exists c r, may_call st c /\ udp_do c st = Ok (r, st').
Definition udp_start (st : state) : Prop :=
  udp_tab st = ∅ /\ udp_pcbs st = 0 /\ pool_ok ∅ (udp_pool st) /\ in_range (udp_port st).

Lemma ensure_range r : in_range (UDP_ENSURE_LOCAL_PORT_RANGE r).
Proof.
  unfold in_range, UDP_ENSURE_LOCAL_PORT_RANGE, UDP_LOCAL_PORT_RANGE_START, UDP_LOCAL_PORT_RANGE_END.
  change (u16 (Z.lnot 0xc000)) with (Z.ones 14). rewrite Z.land_ones by lia. unfold u16. Z.div_mod_to_equations. lia.
Qed.
(** The blocks that are bound to one address are bound to another instead. *)
Lemma readdress_inv l (st : state) o n t : udp_inv l st -> is_u32 n -> o <> IPADDR_ANY -> n <> IPADDR_ANY ->
  map_Forall (fun _ y => up_local_port y <> 0 -> local_ip (up_ip y) <> n) (udp_tab st) ->
  (forall b, t !! b = (if decide (b ∈ l) then readdress (X := state) (A := udp_pcb) o n else id) <$> udp_tab st !! b) ->
  udp_inv l (with_udp st t (udp_pcbs st) (udp_pool st)).
Proof.
  intros [Hl Hp H0 Ht Hr Hb Hd] Hn Ho Hna Hfree Hs.
  assert (Hold : forall b z, t !! b = Some z -> exists w, udp_tab st !! b = Some w /\ up_next z = up_next w /\ up_local_port z = up_local_port w /\ (udp_typed w -> udp_typed z) /\
    (local_ip (up_ip z) = local_ip (up_ip w) /\ (b ∈ l -> local_ip (up_ip w) <> o) \/ local_ip (up_ip w) = o /\ local_ip (up_ip z) = n)).
  { intros b z. rewrite Hs. destruct (udp_tab st !! b) as [w|]; [|done]. intros [= <-]. exists w. split; [done|].
    case_decide as Hin; [|split; [done|]; split; [done|]; split; [done|]; by left]. unfold readdress, ip4_addr_eq. simpl.
    destruct (Z.eqb_spec (local_ip (up_ip w)) o); [|split; [done|]; split; [done|]; split; [done|]; by left].
    split; [done|]. split; [done|]. split; [|by right]. intros ((_ & ?) & ?). by split; [split|]. }
  constructor; simpl; try done.
  - assert (Hc : forall k a, (forall b, b ∈ k -> b ∈ l) -> chain_at up_next (udp_tab st) a k -> chain_at up_next t a k); [|by apply (Hc l)]. clear -Hs.
    intros k. induction k as [|c k IH]; intros a Hsub; [done|]. intros (-> & Hc & x & Hx & Hk). split; [done|]. split; [done|].
    exists (readdress (X := state) (A := udp_pcb) o n x). split; [rewrite Hs, decide_True, Hx by (apply Hsub; by left); done|].
    replace (up_next (readdress (X := state) (A := udp_pcb) o n x)) with (up_next x) by (unfold readdress; by case_match). apply IH; [|done]. intros b Hin. apply Hsub. by right.
  - replace (dom t) with (dom (udp_tab st)); [done|]. apply set_eq. intros b. rewrite !elem_of_dom, Hs. by destruct (udp_tab st !! b).
  - rewrite Hs, H0. done.
  - intros b z (w & Hw & _ & _ & Hty & _)%Hold. apply Hty. by eapply Ht.
  - intros b z (w & Hw & _ & -> & _)%Hold. eauto.
  - intros b c z1 z2 (w1 & Hw1 & _ & Ep1 & _ & A1)%Hold (w2 & Hw2 & _ & Ep2 & _ & A2)%Hold Hb1 Hc1 Hne.
    specialize (Hd b c w1 w2 Hw1 Hw2 Hb1 Hc1 Hne). assert (N1 := Hfree _ _ Hw1 (proj1 (Hb _ _ Hw1) Hb1)). assert (N2 := Hfree _ _ Hw2 (proj1 (Hb _ _ Hw2) Hc1)).
    unfold shares, ip4_addr_eq, ip4_addr_isany_val, IPADDR_ANY in *. rewrite Ep1, Ep2. destruct (up_local_port w2 =? up_local_port w1); [|done]. simpl in *.
    destruct A1 as [[-> A1]|[A1 ->]], A2 as [[-> A2]|[A2 ->]]; lia.
Qed.
Lemma addr_changed_spec l (st : state) o n : udp_inv l st -> may_call st (UAddrChanged o n) ->
  exists st', udp_netif_ip_addr_changed o n st = Ok (tt, st') /\ udp_inv l st'.
Proof.
  intros H Hm. destruct (blk_ip_addr_changed_spec (A := udp_pcb) l o n st (ui_list _ _ H)) as (t & E & Hs). eexists. split; [exact E|].
  assert (Hid : (forall b, t !! b = (if decide (b ∈ l) then id else id) <$> udp_tab st !! b) -> udp_inv l (with_udp st t (udp_pcbs st) (udp_pool st))).
  { intros Hx. replace t with (udp_tab st); [by destruct H|]. apply map_eq. intros b. rewrite Hx. by case_decide; destruct (udp_tab st !! b). }
  destruct o as [o|]; [|by apply Hid]. destruct n as [n|]; [|by apply Hid]. unfold ip4_addr_isany_val in Hs.
  destruct (Z.eqb_spec o IPADDR_ANY); [by apply Hid|]. destruct (Z.eqb_spec n IPADDR_ANY); [by apply Hid|].
  destruct (Hm n eq_refl) as [Hn Hf]. by apply (readdress_inv l st o n).
Qed.
Lemma udp_call_null c l (st : state) : udp_inv l st ->
  match c with UBind pcb _ _ | UConnect pcb _ _ | UDisconnect pcb | URecv pcb _ _ | URemove pcb => pcb = 0 | _ => False end ->
  exists r, udp_do c st = Ok (r, st).
Proof. intros H. destruct c as [r| |pcb a v|pcb n|pcb [a|] v|pcb|pcb f a|pcb|o n]; try done; intros ->; by eexists. Qed.

Lemma udp_call_block c l (st : state) : udp_inv l st -> may_call st c ->
  match c with UBind pcb _ _ | UConnect pcb _ _ | UDisconnect pcb | URecv pcb _ _ | URemove pcb | UBindNetif pcb _ => allocated st pcb | _ => True end ->
  exists r l' st', udp_do c st = Ok (r, st') /\ udp_inv l' st'.
Proof.
  intros H Hm. destruct c as [r| |pcb a v|pcb n|pcb a v|pcb|pcb f a|pcb|o n]; simpl in *; [intros _|intros _|intros [x Hx]..|intros _].
  - destruct r as [r|]; eexists _, l, _; (split; [done|]); [|done]. apply inv_port; [done|]. apply ensure_range.
  - destruct (udp_new_spec l st H) as (r & st' & E & Hi & _). eauto.
  - destruct Hm as (_ & Hu & Hv). destruct (udp_bind_spec l st pcb x a v H Hx) as (w & u & Hu' & Hp & E). rewrite E.
    destruct (Z.eqb_spec w 0) as [->|Hw]; eexists _, _, _; (split; [done|]); [by apply inv_port|].
    eapply udp_bind_inv; eauto. destruct a; [by apply Hu|done].
  - destruct (udp_bind_netif_spec l st pcb x n H Hx (proj2 Hm)) as (i & E & Hi & _). rewrite (st_bind_ok _ _ _ _ _ E). by eexists _, _, _.
  - destruct Hm as (_ & Hu & Hv). destruct a as [a|]; [|eexists _, _, _; done].
    destruct (udp_connect_spec l st pcb x a v H Hx (Hu _ eq_refl) Hv) as (err & l' & st' & E & Hi & _). eauto.
  - destruct (udp_disconnect_spec l st pcb x H Hx) as [E Hi]. rewrite (st_bind_ok _ _ _ _ _ E). by eexists _, _, _.
  - destruct (upd_inv l st pcb x (fun x => with_up_recv x f a) H Hx) as [Eu Hinv]; try done.
    unfold udp_recv. destruct (pcb =? 0); [by eexists _, _, _|]. rewrite (st_bind_ok _ _ _ _ _ Eu). by eexists _, _, _.
  - destruct (udp_remove_spec l st pcb H ltac:(by eexists)) as (st' & E & Hi & _). rewrite (st_bind_ok _ _ _ _ _ E). by eexists _, _, _.
  - destruct (addr_changed_spec l st o n H Hm) as (st' & E & Hi). rewrite (st_bind_ok _ _ _ _ _ E). by eexists _, _, _.
Qed.
Lemma udp_call_spec c l (st : state) : udp_inv l st -> may_call st c -> exists r l' st', udp_do c st = Ok (r, st') /\ udp_inv l' st'.
Proof.
  intros H Hm. assert (Hnull := udp_call_null c l st H). assert (Hblk := udp_call_block c l st H Hm).
  assert (Hz : (exists r, udp_do c st = Ok (r, st)) -> exists r l' st', udp_do c st = Ok (r, st') /\ udp_inv l' st').
  { intros [r E]. by exists r, l, st. }
  destruct c as [r| |pcb a v|pcb n|pcb a v|pcb|pcb f a|pcb|o n]; simpl in Hm; try (by apply Hblk).
  - destruct Hm as [[E|Ha] _]; auto.
  - apply Hblk, Hm.
  - destruct Hm as [[E|Ha] _]; auto.
  - destruct Hm; auto.
  - destruct Hm; auto.
  - destruct Hm; auto.
Qed.
Lemma udp_reach (st st' : state) : udp_start st -> rtc udp_step st st' -> exists l, udp_inv l st'.
Proof.
  intros (Ht & Hf & Hp & Hr) Hrun.
  assert (H0 : exists l, udp_inv l st).
  { exists []. constructor; rewrite ?Ht; try done. }
  clear Ht Hf Hp Hr. induction Hrun as [st|st1 st2 st3 (c & r & Hm & E) _ IH]; [done|]. apply IH. destruct H0 as [l H].
  destruct (udp_call_spec c l st1 H Hm) as (r' & l' & st' & E' & H'). rewrite E in E'. simplify_eq. eauto.
Qed.

(** ** Properties *)

(** C28. [udp_new_port] always returns, within one round of the range 0xc000 to 0xffff,
    and leaves every control block alone.  It returns the first port after the last
    one it gave that no block on the list has, and 0 if every port of the range is taken. *)
Theorem udp_new_port_correct l (st : state) : on_list (A := udp_pcb) l st -> in_range (udp_port st) ->
  exists v w, udp_new_port st = Ok (v, with_udp_port st w) /\ in_range w /\ (v <> 0 -> w = v) /\
    ((v = 0 /\ forall u, in_range u -> port_used (udp_tab st) l u = true) \/
     (in_range v /\ port_used (udp_tab st) l v = false /\
      forall u, in_range u -> ports_after (udp_port st) u < ports_after (udp_port st) v -> port_used (udp_tab st) l u = true)).
Proof.
  intros Hl Hr. destruct (udp_new_port_spec l st Hl Hr) as (v & w & E & Hw & Hf & Hv). exists v, w. do 3 (split; [done|]).
  unfold first_free in Hf. destruct (Z.eqb_spec v 0) as [->|]; [by left|by right].
Qed.

(** C20. [udp_bind] binds the block to the address and the port, or for port 0 to the
    first free port of the range, and puts it on the list if it was not there; it
    refuses with [ERR_USE], and changes no block, exactly when another block has
    the port on that address or on any, or every port of the range is taken.  In
    both cases no two blocks of the list share an address and a port afterwards. *)
Theorem udp_bind_correct l (st : state) pcb x ipaddr port :
  udp_inv l st -> udp_tab st !! pcb = Some x -> is_u32 (default IPADDR_ANY ipaddr) -> is_u16 port ->
  exists v w, in_range w /\ bind_port (udp_tab st) l (udp_port st) pcb (default IPADDR_ANY ipaddr) port v /\
    if v =? 0 then udp_bind pcb ipaddr port st = Ok (ERR_USE, with_udp_port st w) /\ udp_inv l (with_udp_port st w)
    else udp_bind pcb ipaddr port st = Ok (ERR_OK, bind_state (with_udp_port st w) l pcb x (default IPADDR_ANY ipaddr) v) /\
      udp_inv (activated pcb l) (bind_state (with_udp_port st w) l pcb x (default IPADDR_ANY ipaddr) v).
Proof.
  intros H Hx Hi Hp. destruct (udp_bind_spec l st pcb x ipaddr port H Hx) as (v & w & Hw & Hv & E). exists v, w. do 2 (split; [done|]). rewrite E.
  destruct (Z.eqb_spec v 0); (split; [done|]); [by apply inv_port|by eapply udp_bind_inv].
Qed.

(** C6. Whatever calls of [udp_init], [udp_new], [udp_bind], [udp_bind_netif], [udp_connect], [udp_disconnect], [udp_recv], [udp_remove] and
    [udp_netif_ip_addr_changed] have been made, each with blocks in use, and the last with a new address that no block is bound to, the
    next one returns, and in the state it leaves: the list holds exactly the blocks that
    have a port, each once; and no two of them have the same port on the same address,
    or on any address. *)
Theorem udp_calls_safe (st st' : state) c : udp_start st -> rtc udp_step st st' -> may_call st' c ->
  exists r st'' l, udp_do c st' = Ok (r, st'') /\ on_list (A := udp_pcb) l st'' /\ NoDup l /\
    (forall a x, udp_tab st'' !! a = Some x -> a ∈ l <-> up_local_port x <> 0) /\
    (forall a b x y, udp_tab st'' !! a = Some x -> udp_tab st'' !! b = Some y -> a <> b ->
       up_local_port x <> 0 -> up_local_port y = up_local_port x ->
       local_ip (up_ip y) <> local_ip (up_ip x) /\ local_ip (up_ip x) <> IPADDR_ANY /\ local_ip (up_ip y) <> IPADDR_ANY).
Proof.
  intros H0 Hrun Hm. destruct (udp_reach _ _ H0 Hrun) as [l H]. destruct (udp_call_spec c l st' H Hm) as (r & l' & st'' & E & H').
  exists r, st'', l'. split; [done|]. split; [apply H'|]. split; [exact (chain_at_NoDup _ _ _ _ (ui_list _ _ H'))|]. split; [apply H'|].
  intros a b x y Ha Hb Hne Hp Ep. assert (Hpy : up_local_port y <> 0) by congruence.
  assert (Hd := ui_distinct _ _ H' a b x y Ha Hb ltac:(by eapply ui_bound) ltac:(by eapply ui_bound) Hne).
  unfold shares, ip4_addr_eq, ip4_addr_isany_val in Hd. rewrite Ep, Z.eqb_refl in Hd. simpl in Hd.
  apply orb_false_iff in Hd as [[?%Z.eqb_neq ?%Z.eqb_neq]%orb_false_iff ?%Z.eqb_neq]. done.
Qed.

End udp.

Section example.
#[local] Existing Instance example_PbufAlloc.
#[local] Existing Instance example_BlockPool.
Abbreviation state := (@host (memp_state * Z) memp_state memp_state memp_state).

Definition then_state (st : state) (r : outcome (Z * state)) : state := match r with Ok (_, st') => st' | _ => st end.
Definition result (r : outcome (Z * state)) : option Z := match r with Ok (a, _) => Some a | _ => None end.
Definition udp_host0 : state := example_host (example_ip example_st0).
Lemma udp_host0_start : udp_start udp_host0.
Proof. split; [done|]. split; [done|]. split; [exact example_pool_ok|]. by vm_compute. Qed.

(** A block is allocated and bound to port 53 of 10.0.0.1, another is allocated. *)
Definition udp_host1 : state := then_state udp_host0 (udp_new udp_host0).
Definition udp_host2 : state := then_state udp_host1 (udp_bind 0x1020 (Some 0x0100000a) 53 udp_host1).
Definition udp_host3 : state := then_state udp_host2 (udp_new udp_host2).
Lemma udp_host3_reached : rtc udp_step udp_host0 udp_host3.
Proof.
  eapply rtc_l; [exists UNew, 0x1020; split; [done|vm_compute; reflexivity]|].
  eapply rtc_l; [exists (UBind 0x1020 (Some 0x0100000a) 53), ERR_OK; split; [|vm_compute; reflexivity]|].
  { split; [right; vm_compute; by eexists|]. split; [intros x [= <-]|]; by vm_compute. }
  eapply rtc_l; [exists UNew, 0x1000; split; [done|vm_compute; reflexivity]|]. apply rtc_refl.
Qed.
Lemma udp_host3_list : on_list (A := udp_pcb) [0x1020] udp_host3.
Proof. vm_compute. split; [done|]. split; [done|]. by eexists. Qed.
Lemma udp_host3_inv : exists l, udp_inv l udp_host3.
Proof. exact (udp_reach _ _ udp_host0_start udp_host3_reached). Qed.

Lemma udp_new_port_correct_witness : exists v w, udp_new_port udp_host3 = Ok (v, with_udp_port udp_host3 w) /\ v = 0xc001.
Proof.
  destruct (udp_new_port_correct [0x1020] udp_host3 udp_host3_list ltac:(by vm_compute)) as (v & w & E & _). exists v, w. split; [exact E|].
  assert (E' : result (udp_new_port udp_host3) = Some 0xc001) by (vm_compute; reflexivity). rewrite E in E'. by injection E'.
Defined.

(** The second block cannot have the same port. *)
Lemma udp_bind_correct_witness : exists st', udp_bind 0x1000 None 53 udp_host3 = Ok (ERR_USE, st') /\ exists l, udp_inv l st'.
Proof.
  destruct udp_host3_inv as [l H]. assert (Hx : exists x, udp_tab udp_host3 !! 0x1000 = Some x) by (vm_compute; by eexists). destruct Hx as [x Hx].
  destruct (udp_bind_correct l udp_host3 0x1000 x None 53 H Hx ltac:(by vm_compute) ltac:(by vm_compute)) as (v & w & _ & _ & Hr).
  assert (E' : result (udp_bind 0x1000 None 53 udp_host3) = Some ERR_USE) by (vm_compute; reflexivity).
  destruct (v =? 0); destruct Hr as [E Hi]; rewrite E in *; [|discriminate E']. eexists. split; [reflexivity|]. by exists l.
Defined.

Lemma udp_calls_safe_witness : exists r st'' l, udp_do (UBind 0x1000 (Some 0x0200000a) 53) udp_host3 = Ok (r, st'') /\
  on_list (A := udp_pcb) l st'' /\ NoDup l.
Proof.
  destruct (udp_calls_safe udp_host0 udp_host3 (UBind 0x1000 (Some 0x0200000a) 53) udp_host0_start udp_host3_reached) as (r & st'' & l & E & Hl & Hn & _).
  { split; [right; vm_compute; by eexists|]. split; [intros x [= <-]|]; by vm_compute. }
  exists r, st'', l. split; [exact E|]. split; [exact Hl|exact Hn].
Defined.
End example.
