(* ===== verification/UdpIo.v ===== *)
(** * UDP datagrams (core/udp.c)

    A datagram that has arrived is matched with a control block, checked and passed to
    the application; a datagram to send gets a header with a checksum. *)

From stdpp Require Import gmultiset.
From S2P Require Import Prelude Def Chksum Ip4Addr Memp Mem Pbuf PbufData PbufHeap PbufSole Ethernet Link Acd Etharp EtharpIo Ip4 Icmp Headers Pcb Udp.

Set Default Proof Using "Type".

(** ** Datagrams *)

(** RFC 768; [chk] as it is in memory. *)
Definition udp_header (src dest len chk : Z) : list Z := be16 src ++ be16 dest ++ be16 len ++ le_bytes 2 chk.
(** The checksum of the datagram [m] from [src_ip] to [dst_ip]; 0 would stand for no checksum. *)
Definition udp_chksum (src_ip dst_ip src dest : Z) (m : list Z) : Z :=
  let n := UDP_HLEN + Z.of_nat (length m) in
  let c := 65535 - cksum_ref (pseudo_header src_ip dst_ip IP_PROTO_UDP n ++ udp_header src dest n 0 ++ m) in
  if c =? 0 then 0xffff else c.
Definition udp_datagram (src_ip dst_ip src dest : Z) (m : list Z) : list Z :=
  udp_header src dest (UDP_HLEN + Z.of_nat (length m)) (udp_chksum src_ip dst_ip src dest m) ++ m.
(** What a receiver asks of the checksum of the datagram [d]. *)
Definition udp_verifies (src_ip dst_ip : Z) (d : list Z) : bool :=
  (le_val (slice 6 2 d) =? 0) || (cksum_ref (pseudo_header src_ip dst_ip IP_PROTO_UDP (Z.of_nat (length d)) ++ d) =? 65535).

Lemma udp_header_length src dest len chk : length (udp_header src dest len chk) = 8%nat.
Proof. done. Qed.
Lemma udp_header_bytes src dest len chk : is_u16 src -> is_u16 dest -> is_u16 len -> bytes (udp_header src dest len chk).
Proof. intros. unfold udp_header. bytes_parts. Qed.
Lemma udp_chksum_range src_ip dst_ip src dest m : is_u16 src -> is_u16 dest -> bytes m -> UDP_HLEN + Z.of_nat (length m) < 65536 ->
  0 < udp_chksum src_ip dst_ip src dest m < 65536.
Proof.
  intros Hs Hd Hm Hl. unfold udp_chksum. cbv zeta. set (n := UDP_HLEN + _) in *. assert (Hn : is_u16 n) by (unfold n, is_u16, UDP_HLEN in *; lia).
  destruct (cksum_ref_oc (pseudo_header src_ip dst_ip IP_PROTO_UDP n ++ udp_header src dest n 0 ++ m)) as [_ R].
  { apply bytes_app; [by apply pseudo_header_bytes|]. apply bytes_app; [by apply udp_header_bytes|done]. }
  unfold is_u16 in R. destruct (Z.eqb_spec (65535 - cksum_ref (pseudo_header src_ip dst_ip IP_PROTO_UDP n ++ udp_header src dest n 0 ++ m)) 0); lia.
Qed.

Lemma udp_datagram_verifies src_ip dst_ip src dest m : is_u16 src -> is_u16 dest -> bytes m -> UDP_HLEN + Z.of_nat (length m) < 65536 ->
  udp_verifies src_ip dst_ip (udp_datagram src_ip dst_ip src dest m) = true.
Proof.
  intros Hs Hd Hm Hl. assert (Hr := udp_chksum_range src_ip dst_ip src dest m Hs Hd Hm Hl).
  unfold udp_verifies. apply orb_true_iff. right. apply Z.eqb_eq. unfold udp_datagram in *.
  rewrite length_app, udp_header_length, Nat2Z.inj_add. change (Z.of_nat 8) with UDP_HLEN.
  unfold udp_chksum in *. cbv zeta in *. set (n := UDP_HLEN + _) in *. assert (Hn : is_u16 n) by (unfold n, is_u16, UDP_HLEN in *; lia).
  set (ph := pseudo_header src_ip dst_ip IP_PROTO_UDP n) in *. set (hd := be16 src ++ be16 dest ++ be16 n).
  assert (Eh : forall c, udp_header src dest n c ++ m = hd ++ le_bytes 2 c ++ m) by (intros c; unfold udp_header, hd; by rewrite <-!(assoc_L (++))).
  rewrite Eh in *. assert (Hph : bytes ph) by by apply pseudo_header_bytes. assert (Hhd : bytes hd) by (unfold hd; bytes_parts).
  assert (Hz : bytes (ph ++ hd ++ le_bytes 2 0 ++ m)) by (repeat (apply bytes_app; [done|]); apply bytes_app; [apply le_bytes_bytes|done]).
  destruct (cksum_ref_oc _ Hz) as [E R]. unfold is_u16 in R. rewrite Eh in *. set (c := cksum_ref (ph ++ hd ++ le_bytes 2 0 ++ m)) in *.
  set (v := if 65535 - c =? 0 then 0xffff else 65535 - c) in *. symmetry.
  apply cksum_ref_unique; [repeat (apply bytes_app; [done|]); apply bytes_app; [apply le_bytes_bytes|done]|done|].
  assert (Hev : (length ph mod 2 = 0)%nat) by (unfold ph, pseudo_header; by rewrite !length_app, !length_le_bytes).
  rewrite wsum_app_even in E |- * by done. rewrite (wsum_app_even hd) in E |- * by done.
  rewrite wsum_app_even in E |- * by (by rewrite length_le_bytes). cbn [wsum le_bytes] in *.
  change (0 mod 256 + 256 * ((0 / 256) mod 256) + 0) with 0 in E.
  replace (v mod 256 + 256 * (v / 256 mod 256)) with v by (clear -Hr; words).
  destruct E as (? & ? & [k Hk] & Hiff). unfold v in *. destruct (Z.eqb_spec (65535 - c) 0) as [E0|E0].
  - repeat split; try lia. exists (k - 1). lia.
  - repeat split; try lia. exists k. lia.
Qed.

(** ** Which block a datagram is for *)

(** The datagram came in on [nif] from [src_ip], port [src], to [dest_ip], port [dest]. *)
Record udp_route := { rt_nif : netif; rt_broadcast : bool; rt_src_ip : Z; rt_src : Z; rt_dest_ip : Z; rt_dest : Z }.
(** The block is bound to where the datagram went. *)
Definition takes (r : udp_route) (x : udp_pcb) : bool :=
  (up_local_port x =? rt_dest r) &&
  ((netif_idx (up_ip x) =? NETIF_NO_INDEX) || (netif_idx (up_ip x) =? netif_get_index (rt_nif r))) &&
  (if rt_broadcast r then
     ip4_addr_isany_val (local_ip (up_ip x)) || (rt_dest_ip r =? IPADDR_BROADCAST) ||
     ip4_addr_net_eq (local_ip (up_ip x)) (rt_dest_ip r) (nif_netmask (nif_addrs (rt_nif r)))
   else ip4_addr_isany_val (local_ip (up_ip x)) || ip4_addr_eq (local_ip (up_ip x)) (rt_dest_ip r)).
(** The datagram comes from the peer of the block. *)
Definition from_peer (r : udp_route) (x : udp_pcb) : bool :=
  (up_remote_port x =? rt_src r) && (ip4_addr_isany_val (remote_ip (up_ip x)) || ip4_addr_eq (remote_ip (up_ip x)) (rt_src_ip r)).
Definition unconnected (x : udp_pcb) : bool := Z.land (up_flags x) UDP_FLAGS_CONNECTED =? 0.

Definition block_is (f : udp_pcb -> bool) (t : gmap Z udp_pcb) (a : Z) : bool := match t !! a with Some x => f x | None => false end.
(** Of two blocks the first, unless only the second has the address of the interface a global broadcast came in on. *)
Definition preferred (r : udp_route) (t : gmap Z udp_pcb) (u a : Z) : Z :=
  let own := block_is (fun x => ip4_addr_eq (local_ip (up_ip x)) (nif_ip (nif_addrs (rt_nif r)))) t in
  if u =? 0 then a
  else if rt_broadcast r && (rt_dest_ip r =? IPADDR_BROADCAST) && negb (own u) && own a then a else u.
Definition full_match (r : udp_route) (t : gmap Z udp_pcb) (l : list Z) : option Z :=
  List.find (block_is (fun x => takes r x && from_peer r x) t) l.
Definition best_open (r : udp_route) (t : gmap Z udp_pcb) (u : Z) (l : list Z) : Z :=
  foldl (preferred r t) u (List.filter (block_is (fun x => takes r x && unconnected x) t) l).
(** The block that gets the datagram, 0 if there is none: the first that matches fully, otherwise the best unconnected one. *)
Definition target (r : udp_route) (t : gmap Z udp_pcb) (l : list Z) : Z :=
  match full_match r t l with Some a => a | None => best_open r t 0 l end.

Section udp.
Context {S R T U : Type} `{!PbufAlloc S} `{!FragPool S} `{!Pool U}.
Abbreviation state := (@host S R T U).
Abbreviation M := (ST state).
Context (call_custom_free : Z -> Z -> ST (@pstate S) unit) (garbage : Z -> Z).
Context {Link : LinkDriver}.
Context (ipfrag_free_fn : Z).
Local Abbreviation pfree := (fun p => _ ← on_ip (on_pb (pbuf_free call_custom_free p)); mret tt).
Local Abbreviation uget := (blk_get (A := udp_pcb)).

(** [ip_chksum_pseudo] of a packet. *)
Definition chksum_pseudo (p proto proto_len src dest : Z) : M Z :=
  fuel ← on_ip (on_pb chain_fuel);
  segs ← on_ip (on_pb (read_segments fuel p));
  mret (ip_chksum_pseudo segs proto proto_len src dest).

(** ** Input *)

(** The functions the applications have registered: the function, its argument, the control block,
    the packet, and the address and the port of the sender. *)
Context (udp_recv_fn : Z -> Z -> Z -> Z -> Z -> Z -> M unit).

Definition udp_input_local_match (x : udp_pcb) (inp : Z) (broadcast : bool) : M bool :=
  _ ← sassert (negb (inp =? 0));
  st ← get;
  other ← (if negb (netif_idx (up_ip x) =? NETIF_NO_INDEX) then
             nif ← on_ip (on_low (netif_get (current_input_netif (ip_data (ipl st)))));
             mret (negb (netif_idx (up_ip x) =? netif_get_index nif))
           else mret false);
  let dest := current_iphdr_dest (ip_data (ipl st)) in
  if (other : bool) then mret false
  else if broadcast then
    if ip4_addr_isany_val (local_ip (up_ip x)) || (dest =? IPADDR_BROADCAST) then mret true
    else nif ← on_ip (on_low (netif_get inp)); mret (ip4_addr_net_eq (local_ip (up_ip x)) dest (nif_netmask (nif_addrs nif)))
  else mret (ip4_addr_isany_val (local_ip (up_ip x)) || ip4_addr_eq (local_ip (up_ip x)) dest).

(** The better of the unconnected block [uncon_pcb] found before, 0 if there is none, and [pcb]. *)
Definition udp_prefer (inp : Z) (broadcast : bool) (uncon_pcb pcb : Z) (x : udp_pcb) : M Z :=
  st ← get;
  if uncon_pcb =? 0 then mret pcb
  else if broadcast && (current_iphdr_dest (ip_data (ipl st)) =? IPADDR_BROADCAST) then
    u ← uget uncon_pcb;
    nif ← on_ip (on_low (netif_get inp));
    mret (if negb (ip4_addr_eq (local_ip (up_ip u)) (nif_ip (nif_addrs nif))) && ip4_addr_eq (local_ip (up_ip x)) (nif_ip (nif_addrs nif))
          then pcb else uncon_pcb)
  else mret uncon_pcb.

(** The block that matches fully, 0 if there is none, and the unconnected one. *)
Fixpoint udp_match_loop (fuel : nat) (inp : Z) (broadcast : bool) (src dest pcb prev uncon_pcb : Z) : M (Z * Z) :=
  match fuel with
  | O => fun _ => Diverge
  | Datatypes.S fuel' =>
      if pcb =? 0 then mret (0, uncon_pcb)
      else
        x ← uget pcb;
        m ← (if up_local_port x =? dest then udp_input_local_match x inp broadcast else mret false);
        if (m : bool) then
          uncon_pcb ← (if Z.land (up_flags x) UDP_FLAGS_CONNECTED =? 0 then udp_prefer inp broadcast uncon_pcb pcb x else mret uncon_pcb);
          st ← get;
          if (up_remote_port x =? src) &&
             (ip4_addr_isany_val (remote_ip (up_ip x)) || ip4_addr_eq (remote_ip (up_ip x)) (current_iphdr_src (ip_data (ipl st))))
          then
            _ ← (if negb (prev =? 0) then blk_to_front (A := udp_pcb) pcb prev else UDP_STATS_INC udp_cachehit);
            mret (pcb, uncon_pcb)
          else udp_match_loop fuel' inp broadcast src dest (up_next x) pcb uncon_pcb
        else udp_match_loop fuel' inp broadcast src dest (up_next x) pcb uncon_pcb
  end.

(** The datagram is for the block [pcb], or for none if it is 0, and its checksum is right. *)
Definition udp_deliver (p pcb src : Z) (broadcast : bool) : M unit :=
  failed ← on_ip (on_pb (pbuf_remove_header p UDP_HLEN));
  if (failed : bool) then _ ← sassert false; _ ← UDP_STATS_INC udp_drop; pfree p
  else
    st ← get;
    if negb (pcb =? 0) then
      x ← uget pcb;
      if negb (up_recv x =? 0) then udp_recv_fn (up_recv x) (up_recv_arg x) pcb p (current_iphdr_src (ip_data (ipl st))) src else pfree p
    else
      _ ← (if negb broadcast && negb (ip4_addr_ismulticast (current_iphdr_dest (ip_data (ipl st)))) then
             _ ← on_ip (on_pb (pbuf_header_force p (current_ip_header_tot_len (ip_data (ipl st)) + UDP_HLEN)));
             on_ip (icmp_dest_unreach call_custom_free garbage ipfrag_free_fn p ICMP_DUR_PORT)
           else mret tt);
      _ ← UDP_STATS_INC udp_proterr;
      _ ← UDP_STATS_INC udp_drop;
      pfree p.

Definition udp_input (p inp : Z) : M unit :=
  _ ← sassert (negb (p =? 0));
  _ ← sassert (negb (inp =? 0));
  _ ← UDP_STATS_INC udp_recvd;
  b ← on_ip (on_pb (pb_get p));
  if len b <? UDP_HLEN then
    _ ← UDP_STATS_INC udp_lenerr;
    _ ← UDP_STATS_INC udp_drop;
    pfree p
  else
    let udphdr := payload b in
    st ← get;
    nif ← on_ip (on_low (netif_get (current_netif (ip_data (ipl st)))));
    let broadcast := ip4_addr_isbroadcast (current_iphdr_dest (ip_data (ipl st))) nif in
    src ← on_ip (get16 udphdr 0);
    let src := lwip_htons src in
    dest ← on_ip (get16 udphdr 2);
    let dest := lwip_htons dest in
    fuel ← blk_fuel (A := udp_pcb);
    '(pcb, uncon_pcb) ← udp_match_loop fuel inp broadcast src dest (udp_pcbs st) 0 0;
    let pcb := if pcb =? 0 then uncon_pcb else pcb in
    for_us ← (if negb (pcb =? 0) then mret true
              else nif ← on_ip (on_low (netif_get inp)); mret (ip4_addr_eq (nif_ip (nif_addrs nif)) (current_iphdr_dest (ip_data (ipl st)))));
    if (for_us : bool) then
      chksum ← on_ip (get16 udphdr 6);
      bad ← (if negb (chksum =? 0) then
               sum ← chksum_pseudo p IP_PROTO_UDP (tot_len b) (current_iphdr_src (ip_data (ipl st))) (current_iphdr_dest (ip_data (ipl st)));
               mret (negb (sum =? 0))
             else mret false);
      if (bad : bool) then
        _ ← UDP_STATS_INC udp_chkerr;
        _ ← UDP_STATS_INC udp_drop;
        pfree p
      else udp_deliver p pcb src broadcast
    else pfree p.

(** ** Output *)

(** The header of the datagram in [q]. *)
Definition write_udp_header (q local_port dst_port src_ip dst_ip flags : Z) : M unit :=
  b ← on_ip (on_pb (pb_get q));
  _ ← sassert (UDP_HLEN <=? len b);
  let udphdr := payload b in
  _ ← on_ip (set16 udphdr 0 (lwip_htons local_port));
  _ ← on_ip (set16 udphdr 2 (lwip_htons dst_port));
  _ ← on_ip (set16 udphdr 6 0);
  _ ← on_ip (set16 udphdr 4 (lwip_htons (tot_len b)));
  if Z.land flags UDP_FLAGS_NOCHKSUM =? 0 then
    udpchksum ← chksum_pseudo q IP_PROTO_UDP (tot_len b) src_ip dst_ip;
    on_ip (set16 udphdr 6 (if udpchksum =? 0 then 0xffff else udpchksum))
  else mret tt.

(** NULL is 0 for a block, a packet and an interface, and [None] for an address. *)
Definition udp_sendto_if_src (pcb p : Z) (dst_ip : option Z) (dst_port n : Z) (src_ip : option Z) : M Z :=
  match dst_ip, src_ip with
  | Some dst, Some src =>
      if (pcb =? 0) || (p =? 0) || (n =? 0) then mret ERR_ARG
      else
        x ← uget pcb;
        err ← (if up_local_port x =? 0 then udp_bind pcb (Some (local_ip (up_ip x))) (up_local_port x) else mret ERR_OK);
        if negb (err =? ERR_OK) then mret err
        else
          b ← on_ip (on_pb (pb_get p));
          if u16 (tot_len b + UDP_HLEN) <? tot_len b then mret ERR_MEM
          else
            failed ← on_ip (on_pb (pbuf_add_header p UDP_HLEN));
            q ← (if (failed : bool) then
                   q ← on_ip (on_pb (pbuf_alloc call_custom_free garbage PBUF_IP UDP_HLEN PBUF_RAM));
                   if q =? 0 then mret 0
                   else
                     b ← on_ip (on_pb (pb_get p));
                     _ ← (if negb (tot_len b =? 0) then on_ip (on_pb (pbuf_chain q p)) else mret tt);
                     mret q
                 else mret p);
            if q =? 0 then mret ERR_MEM
            else
              x ← uget pcb;
              _ ← write_udp_header q (up_local_port x) dst_port src dst (up_flags x);
              err ← on_ip (ip4_output_if_src call_custom_free garbage ipfrag_free_fn q (Some src) (Some dst)
                             (ttl (up_ip x)) (tos (up_ip x)) IP_PROTO_UDP n);
              _ ← (if negb (q =? p) then pfree q else mret tt);
              _ ← UDP_STATS_INC udp_xmit;
              mret err
  | _, _ => mret ERR_ARG
  end.

Definition udp_sendto_if (pcb p : Z) (dst_ip : option Z) (dst_port n : Z) : M Z :=
  match dst_ip with
  | Some dst =>
      if (pcb =? 0) || (p =? 0) || (n =? 0) then mret ERR_ARG
      else
        x ← uget pcb;
        nif ← on_ip (on_low (netif_get n));
        if ip4_addr_isany_val (local_ip (up_ip x)) || ip4_addr_ismulticast (local_ip (up_ip x))
        then udp_sendto_if_src pcb p (Some dst) dst_port n (Some (nif_ip (nif_addrs nif)))
        else if negb (ip4_addr_eq (local_ip (up_ip x)) (nif_ip (nif_addrs nif))) then mret ERR_RTE
        else udp_sendto_if_src pcb p (Some dst) dst_port n (Some (local_ip (up_ip x)))
  | None => mret ERR_ARG
  end.

Definition udp_sendto (pcb p : Z) (dst_ip : option Z) (dst_port : Z) : M Z :=
  match dst_ip with
  | Some dst =>
      if (pcb =? 0) || (p =? 0) then mret ERR_ARG
      else
        x ← uget pcb;
        n ← (if negb (netif_idx (up_ip x) =? NETIF_NO_INDEX) then netif_get_by_index (netif_idx (up_ip x))
             else on_ip (ip4_route (Some dst)));
        if n =? 0 then _ ← UDP_STATS_INC udp_rterr; mret ERR_RTE
        else udp_sendto_if pcb p (Some dst) dst_port n
  | None => mret ERR_ARG
  end.
Definition udp_send (pcb p : Z) : M Z :=
  if (pcb =? 0) || (p =? 0) then mret ERR_ARG
  else x ← uget pcb; udp_sendto pcb p (Some (remote_ip (up_ip x))) (up_remote_port x).

(** ** Matching *)

Lemma udp_block_bind {B} a x (f : udp_pcb -> M B) (st : state) : udp_tab st !! a = Some x -> (uget a ≫= f) st = f x st.
Proof. exact (blk_get_bind a x f st). Qed.
(** The state says where the datagram came from. *)
Definition routed (r : udp_route) (inp : Z) (st : state) : Prop :=
  inp <> 0 /\ netifs (low (ipl st)) !! inp = Some (rt_nif r) /\ current_input_netif (ip_data (ipl st)) = inp /\
  current_iphdr_src (ip_data (ipl st)) = rt_src_ip r /\ current_iphdr_dest (ip_data (ipl st)) = rt_dest_ip r.

Lemma local_match_spec r inp x (st : state) : routed r inp st -> up_local_port x = rt_dest r ->
  udp_input_local_match x inp (rt_broadcast r) st = Ok (takes r x, st).
Proof.
  intros (Hi & Hn & Hc & Hs & Hd) Hp. unfold udp_input_local_match, takes. rewrite sassert_bind by (destruct (Z.eqb_spec inp 0); done).
  rewrite get_bind, Hc, Hd, Hp, Z.eqb_refl. cbn [andb].
  rewrite (st_bind_ok _ _ _ (negb ((netif_idx (up_ip x) =? NETIF_NO_INDEX) || (netif_idx (up_ip x) =? netif_get_index (rt_nif r)))) st).
  2: { destruct (netif_idx (up_ip x) =? NETIF_NO_INDEX); [done|]. cbn [negb]. by rewrite (host_netif_bind _ _ _ _ Hn). }
  destruct (_ || (_ =? netif_get_index _)); [|done]. cbn [negb andb]. destruct (rt_broadcast r); [|done].
  destruct (ip4_addr_isany_val _ || _); [done|]. by rewrite (host_netif_bind _ _ _ _ Hn).
Qed.
Lemma prefer_spec r inp u a x (st : state) : routed r inp st -> udp_tab st !! a = Some x -> (u = 0 \/ is_Some (udp_tab st !! u)) ->
  udp_prefer inp (rt_broadcast r) u a x st = Ok (preferred r (udp_tab st) u a, st).
Proof.
  intros (Hi & Hn & Hc & Hs & Hd) Hx Hu. unfold udp_prefer, preferred, block_is. rewrite get_bind, Hd, Hx. destruct (Z.eqb_spec u 0) as [|Hu0]; [done|].
  destruct Hu as [|[y Hy]]; [done|]. rewrite Hy. destruct (rt_broadcast r && _); [|done]. cbn [andb].
  by rewrite (udp_block_bind _ _ _ _ Hy), (host_netif_bind _ _ _ _ Hn).
Qed.

(** A full match ends up in front. *)
Lemma udp_front_spec l1 a l2 (st : state) : on_list (A := udp_pcb) (l1 ++ a :: l2) st ->
  exists t h s, (if negb (List.last l1 0 =? 0) then blk_to_front (A := udp_pcb) a (List.last l1 0) else UDP_STATS_INC udp_cachehit) st
      = Ok (tt, with_udp_stats (with_udp st t h (udp_pool st)) s) /\
    chain_at up_next t h (a :: l1 ++ l2) /\ relinked (X := state) (udp_tab st) t.
Proof.
  intros Hl. destruct l1 as [|b l1 _] using rev_ind.
  - eexists (udp_tab st), (udp_pcbs st), _. split; [done|]. split; [exact Hl|]. apply relinked_refl.
  - rewrite last_last. rewrite <-(assoc_L (++)) in Hl. simpl in Hl.
    assert (Hb : b <> 0) by (by destruct (chain_at_app _ _ _ _ _ Hl) as (_ & ? & _)). rewrite (proj2 (Z.eqb_neq _ _) Hb).
    destruct (blk_to_front_spec l1 b a l2 st Hl) as (t & Et & Hl' & Hr). exists t, a, (udp_stats st). split; [exact Et|].
    rewrite <-(assoc_L (++)). split; [exact Hl'|done].
Qed.

Lemma udp_match_loop_spec r inp l1 l2 a u fuel (st : state) : routed r inp st ->
  on_list (A := udp_pcb) (l1 ++ l2) st -> chain_at up_next (udp_tab st) a l2 -> (length l2 < fuel)%nat -> (u = 0 \/ is_Some (udp_tab st !! u)) ->
  exists v, match full_match r (udp_tab st) l2 with
  | None => udp_match_loop fuel inp (rt_broadcast r) (rt_src r) (rt_dest r) a (List.last l1 0) u st = Ok ((0, v), st) /\
      v = best_open r (udp_tab st) u l2
  | Some c => exists t h s l', udp_match_loop fuel inp (rt_broadcast r) (rt_src r) (rt_dest r) a (List.last l1 0) u st
        = Ok ((c, v), with_udp_stats (with_udp st t h (udp_pool st)) s) /\
      chain_at up_next t h l' /\ relinked (X := state) (udp_tab st) t /\ l' ≡ₚ l1 ++ l2
  end.
Proof.
  intros Hr. revert l1 a u fuel. induction l2 as [|b l2 IH]; intros l1 a u [|fuel] Hl Ha Hf Hu; try (simpl in Hf; lia).
  - exists u. simpl in Ha. subst a. done.
  - pose proof Ha as (-> & Hb & x & Hx & Hl2). cbn [udp_match_loop]. destruct (Z.eqb_spec b 0) as [|_]; [done|].
    rewrite (udp_block_bind _ _ _ _ Hx).
    assert (Hl' : on_list (A := udp_pcb) ((l1 ++ [b]) ++ l2) st) by (by rewrite <-(assoc_L (++))).
    assert (Em : (if up_local_port x =? rt_dest r then udp_input_local_match x inp (rt_broadcast r) else mret false) st = Ok (takes r x, st)).
    { destruct (Z.eqb_spec (up_local_port x) (rt_dest r)) as [Ep|Ep]; [by apply local_match_spec|].
      unfold takes. by rewrite (proj2 (Z.eqb_neq _ _) Ep). }
    rewrite (st_bind_ok _ _ _ _ _ Em).
    assert (Hbl : forall f, block_is f (udp_tab st) b = f x) by (intros f; unfold block_is; by rewrite Hx).
    assert (Efull : full_match r (udp_tab st) (b :: l2) = if takes r x && from_peer r x then Some b else full_match r (udp_tab st) l2).
    { unfold full_match at 1. cbn [List.find]. by rewrite Hbl. }
    assert (Eopen : forall u, best_open r (udp_tab st) u (b :: l2) =
      best_open r (udp_tab st) (if takes r x && unconnected x then preferred r (udp_tab st) u b else u) l2).
    { intros u'. unfold best_open. cbn [List.filter]. rewrite Hbl. by destruct (takes r x && unconnected x). }
    rewrite Efull, Eopen. destruct (takes r x); cbn [andb].
    2: { specialize (IH (l1 ++ [b]) (up_next x) u fuel Hl' Hl2 ltac:(simpl in Hf; lia) Hu). by rewrite last_last, <-(assoc_L (++)) in IH. }
    fold (unconnected x).
    set (u' := if unconnected x then preferred r (udp_tab st) u b else u).
    rewrite (st_bind_ok _ _ _ u' st) by (unfold u'; destruct (unconnected x); [by apply prefer_spec|done]).
    rewrite get_bind. destruct Hr as (Hr1 & Hr2 & Hr3 & Hrs & Hrd). rewrite Hrs. fold (from_peer r x). destruct (from_peer r x).
    + exists u'. destruct (udp_front_spec l1 b l2 st Hl) as (t & h & s & Et & Ht & Hre). exists t, h, s, (b :: l1 ++ l2).
      rewrite (st_bind_ok _ _ _ _ _ Et). split; [done|]. split; [done|]. split; [done|]. apply Permutation_middle.
    + specialize (IH (l1 ++ [b]) (up_next x) u' fuel Hl' Hl2 ltac:(simpl in Hf; lia)).
      rewrite last_last, <-(assoc_L (++)) in IH. apply IH. unfold u'. destruct (unconnected x); [|done]. unfold preferred.
      destruct (u =? 0); [right; by exists x|]. match goal with |- context [if ?c then b else u] => destruct c end; [right; by exists x|done].
Qed.

(** The control blocks are as they were, in another order, and udp.c has counted. *)
Definition tidied (lb : list Z) (st st' : state) : Prop :=
  exists t h i s lb', st' = with_udp_stats (with_ipl (with_udp st t h (udp_pool st)) i) s /\
    chain_at up_next t h lb' /\ relinked (X := state) (udp_tab st) t /\ lb' ≡ₚ lb.
Lemma tidied_refl lb (st : state) : on_list (A := udp_pcb) lb st -> tidied lb st st.
Proof.
  intros H. exists (udp_tab st), (udp_pcbs st), (ipl st), (udp_stats st), lb. split; [by destruct st|]. split; [exact H|]. split; [apply relinked_refl|done].
Qed.
Lemma tidied_keep lb (st st' st'' : state) : tidied lb st st' ->
  (forall i s, with_udp_stats (with_ipl st'' i) s = with_udp_stats (with_ipl st' i) s) -> tidied lb st st''.
Proof.
  intros (t & h & i & s & lb' & -> & Hc) Heq. exists t, h, (ipl st''), (udp_stats st''), lb'. split; [|done].
  specialize (Heq (ipl st'') (udp_stats st'')). etrans; [|exact Heq]. by destruct st''.
Qed.
Lemma tidied_inv lb (st st' : state) : udp_inv lb st -> tidied lb st st' -> exists lb', udp_inv lb' st' /\ lb' ≡ₚ lb.
Proof.
  intros H (t & h & i & s & lb' & -> & Hl & Hr & Hperm). exists lb'. split; [|done].
  assert (H' : udp_inv lb' (with_udp st t h (udp_pool st))).
  { refine (inv_relink lb lb' st t h _ H Hl _ _).
    - rewrite (relinked_dom (X := state) _ _ Hr). apply H.
    - intros a z Hz. specialize (Hr a). simpl in Hr. rewrite Hz in Hr. destruct (udp_tab st !! a) as [w|]; [|done]. injection Hr as Hr.
      exists w, (up_next z). split; [done|]. split; [by destruct z, w; simplify_eq/=|by rewrite Hperm]. }
  by destruct H'.
Qed.

(** Freeing the datagram. *)
Lemma host_freed E p (st : state) : link_ok ({[+ p +]} ⊎ E) (low (ipl st)) -> p ∉ E ->
  exists i, pfree p st = Ok (tt, with_ipl st i) /\ dropped E (ipl st) i.
Proof.
  intros H Hp. destruct (free_steps call_custom_free E p (ipl st) H Hp) as (k & s' & Ef & Hs).
  eexists. split; [by rewrite (host_pb_bind _ _ _ _ _ Ef)|]. done.
Qed.

(** Where the datagram [m] in [p], which came in behind the header [hs], is from and for. *)
Record udp_arrived (E : gmultiset Z) (lb : list Z) (st : state) (r : udp_route) (inp p : Z) (b : pbuf) (l : list (Z * pbuf)) (hs m : list Z) : Prop := {
  ua_blocks : udp_inv lb st;
  ua_packet : arrived E (ipl st) p b l (Z.of_nat (length hs)) hs m;
  ua_hlen : current_ip_header_tot_len (ip_data (ipl st)) = Z.of_nat (length hs);
  ua_total : total ((p, b) :: l) + Z.of_nat (length hs) < 65536;
  ua_routed : routed r inp st;
  ua_netif : exists nif, netifs (low (ipl st)) !! current_netif (ip_data (ipl st)) = Some nif /\ rt_broadcast r = ip4_addr_isbroadcast (rt_dest_ip r) nif;
  ua_interfaces : interfaces_ok (ipl st);
  ua_ip_id : is_u16 (ip_id (ipl st));
  ua_addrs : is_u32 (rt_src_ip r) /\ is_u32 (rt_dest_ip r);
  ua_ports : rt_src r = lwip_htons (le_val (slice 0 2 m)) /\ rt_dest r = lwip_htons (le_val (slice 2 2 m))
}.

Inductive udp_verdict := UDiscard | URefuse | UGive (pcb : Z) (x : udp_pcb).
(** What becomes of a datagram whose first pbuf has [n] bytes. *)
Definition judge (r : udp_route) (t : gmap Z udp_pcb) (lb : list Z) (n : Z) (m : list Z) : udp_verdict :=
  let a := target r t lb in
  if n <? UDP_HLEN then UDiscard
  else if (a =? 0) && negb (ip4_addr_eq (nif_ip (nif_addrs (rt_nif r))) (rt_dest_ip r)) then UDiscard
  else if negb (udp_verifies (rt_src_ip r) (rt_dest_ip r) m) then UDiscard
  else if a =? 0 then URefuse
  else match t !! a with Some x => if up_recv x =? 0 then UDiscard else UGive a x | None => UDiscard end.

Lemma chksum_pseudo_spec {B} E (f : Z -> M B) p b l src dest (st : state) :
  refs_ok E (pm (low (ipl st))) -> packet (pbufs (pm (low (ipl st)))) ((p, b) :: l) ->
  bytes (data (pm (low (ipl st))) ((p, b) :: l)) -> is_u32 src -> is_u32 dest ->
  (chksum_pseudo p IP_PROTO_UDP (total ((p, b) :: l)) src dest ≫= f) st =
  f (65535 - cksum_ref (pseudo_header src dest IP_PROTO_UDP (total ((p, b) :: l)) ++ data (pm (low (ipl st))) ((p, b) :: l))) st.
Proof.
  intros H Hp Hby Hs Hd. rewrite (st_bind_ok _ _ _ (65535 - cksum_ref (pseudo_header src dest IP_PROTO_UDP (total ((p, b) :: l)) ++ data (pm (low (ipl st))) ((p, b) :: l))) st); [done|].
  unfold chksum_pseudo. pose proof (packet_length _ _ Hp) as Hlen.
  rewrite (host_pb_bind _ _ _ (Datatypes.S (size (pbufs (pm (low (ipl st)))))) (pm (low (ipl st)))) by done. rewrite set_pm_self.
  rewrite (host_pb_bind _ _ _ _ _ (read_segments_spec _ _ (Datatypes.S (size (pbufs (pm (low (ipl st)))))) ((p, b) :: l) H Hp ltac:(lia))), set_pm_self.
  unfold mret, st_ret. do 2 f_equal. set (segs := map _ _).
  assert (Es : seg_data segs = data (pm (low (ipl st))) ((p, b) :: l)) by (unfold seg_data, segs, data; by rewrite map_map).
  pose proof (refs_sized _ _ _ _ _ H Hp) as (Hsl & ? & Htot)%sized_cons. pose proof (total_nonneg _ (proj1 Hsl)).
  rewrite inet_chksum_pseudo_correct; [by rewrite Es| |done|unfold is_u16; simpl; lia|done|done].
  rewrite <-Es in Hby. clear -Hby. clearbody segs.
  induction segs as [|x segs IH]; [constructor|]. apply Forall_app in Hby as [? ?]. constructor; [done|by apply IH].
Qed.

(** ** Delivery *)

Definition discarded (E : gmultiset Z) (lb : list Z) (st st' : state) : Prop := tidied lb st st' /\ dropped E (ipl st) (ipl st').
(** The sender was told that no application has the port, unless the datagram was for a group. *)
Definition refused (E : gmultiset Z) (lb : list Z) (r : udp_route) (d : list Z) (st st' : state) : Prop :=
  tidied lb st st' /\ steps E (low (ipl st)) (low (ipl st')) /\ ip_kept (ipl st) (ipl st') /\ is_u16 (ip_id (ipl st')) /\
  if rt_broadcast r || ip4_addr_ismulticast (rt_dest_ip r) then frames (low (ipl st')) = frames (low (ipl st))
  else notified call_custom_free garbage (pm (low (ipl st))) ICMP_DUR (dur_code ICMP_DUR_PORT) d (ipl st) (ipl st').
(** The payload is in the packet [p], whose holder the application is from here on. *)
Definition given (E : gmultiset Z) (lb : list Z) (p : Z) (b : pbuf) (l : list (Z * pbuf)) (m : list Z) (st st' : state) : Prop :=
  tidied lb st st' /\ ip_kept (ipl st) (ipl st') /\ ip_id (ipl st') = ip_id (ipl st) /\
  lends p ({[+ p +]} ⊎ E) (low (ipl st)) (low (ipl st')) /\ frames (low (ipl st')) = frames (low (ipl st)) /\
  packet (pbufs (pm (low (ipl st')))) ((p, shift b UDP_HLEN) :: l) /\
  data (pm (low (ipl st'))) ((p, shift b UDP_HLEN) :: l) = drop (Z.to_nat UDP_HLEN) m.

Lemma deliver_refuse E lb (st st1 : state) r inp p b l hs m :
  udp_arrived E lb st r inp p b l hs m -> UDP_HLEN <= len b -> tidied lb st st1 -> ipl st1 = ipl st ->
  exists st', udp_deliver p 0 (rt_src r) (rt_broadcast r) st1 = Ok (tt, st') /\ refused E lb r (hs ++ m) st st'.
Proof.
  intros [Hinv Ha Hhl Htot (_ & _ & _ & Hsrc & Hdst) _ Hif Hid _ _] Hb Ht Ei. pose proof Ha as [H Hp Hq Hreg _ Hh Hby Hd].
  pose proof Hq as (Hpk & _ & _ & Hso & Hi & _).
  destruct (remove_front _ (low (ipl st)) p b l UDP_HLEN H Hpk Hi) as (Er & L & Hp8 & Hd8); [unfold UDP_HLEN in *; lia|].
  unfold udp_deliver. rewrite (host_pb_bind _ _ _ false (moved_head (pm (low (ipl st))) p b l UDP_HLEN)) by (by rewrite Ei). rewrite get_bind.
  set (st2 := set_pm st1 _). assert (E2 : ipl st2 = with_low (ipl st) (with_pm (low (ipl st)) (moved_head (pm (low (ipl st))) p b l UDP_HLEN))) by (unfold st2; simpl; by rewrite Ei).
  change (negb (0 =? 0)) with false. cbv iota. rewrite E2. change (ip_data (with_low (ipl st) ?x)) with (ip_data (ipl st)). rewrite Hdst, Hhl.
  destruct (negb (rt_broadcast r) && negb (ip4_addr_ismulticast (rt_dest_ip r))) eqn:Ebc.
  - rewrite <-negb_orb, negb_true_iff in Ebc. destruct (unreach_spec call_custom_free garbage ipfrag_free_fn E p b l UDP_HLEN hs ICMP_DUR_PORT (ipl st) Hp H Hif Hid Hpk Hi Hso)
      as (s1 & ip2 & c & s3 & Ef & Es & Efr & Hst & K & Hid2 & Hr); try done; try (unfold UDP_HLEN in *; lia); [by rewrite Hd|].
    erewrite st_bind_ok; [|rewrite (host_pb_bind _ _ _ false s1) by (by rewrite E2); apply on_ip_ok; change (ipl (set_pm st2 s1)) with (with_low (ipl st2) (with_pm (low (ipl st2)) s1)); rewrite E2; exact Es].
    eexists. split; [erewrite !(st_bind_ok (UDP_STATS_INC _)) by done; by rewrite (host_pb_bind _ _ _ c s3)|].
    split; [|rewrite Hd in Hr; rewrite Ebc; by repeat (split; [done|])].
    by eapply tidied_keep.
  - rewrite <-negb_orb, negb_false_iff in Ebc. rewrite mret_bind. destruct (lends_free call_custom_free E p _ _ Hp L) as (c & s3 & Efr & Hst & _).
    eexists. split; [erewrite !(st_bind_ok (UDP_STATS_INC _)) by done; rewrite (host_pb_bind _ _ _ c s3); [done|cbn [ipl with_udp_stats]; by rewrite E2]|].
    split; [by eapply tidied_keep|]. unfold set_pm. cbn [ipl with_udp_stats with_ipl]. rewrite E2. split; [exact Hst|]. split; [done|]. split; [done|]. by rewrite Ebc.
Qed.
Lemma deliver_block E lb (st st1 : state) r inp p b l hs m pcb x :
  udp_arrived E lb st r inp p b l hs m -> UDP_HLEN <= len b -> tidied lb st st1 -> ipl st1 = ipl st -> pcb <> 0 -> udp_tab st !! pcb = Some x ->
  if up_recv x =? 0 then exists st', udp_deliver p pcb (rt_src r) (rt_broadcast r) st1 = Ok (tt, st') /\ discarded E lb st st'
  else exists st', udp_deliver p pcb (rt_src r) (rt_broadcast r) st1 = udp_recv_fn (up_recv x) (up_recv_arg x) pcb p (rt_src_ip r) (rt_src r) st' /\ given E lb p b l m st st'.
Proof.
  intros [Hinv Ha Hhl Htot (_ & _ & _ & Hsrc & Hdst) _ Hif Hid _ _] Hb Ht Ei Hne Hx. pose proof Ha as [H Hp Hq Hreg _ Hh Hby Hd].
  pose proof Hq as (Hpk & _ & _ & Hso & Hi & _).
  destruct (remove_front _ (low (ipl st)) p b l UDP_HLEN H Hpk Hi) as (Er & L & Hp8 & Hd8); [unfold UDP_HLEN in *; lia|].
  unfold udp_deliver. rewrite (host_pb_bind _ _ _ false (moved_head (pm (low (ipl st))) p b l UDP_HLEN)) by (by rewrite Ei). rewrite get_bind.
  set (st2 := set_pm st1 _). assert (E2 : ipl st2 = with_low (ipl st) (with_pm (low (ipl st)) (moved_head (pm (low (ipl st))) p b l UDP_HLEN))) by (unfold st2; simpl; by rewrite Ei).
  assert (Hx2 : exists n, udp_tab st2 !! pcb = Some (with_up_next x n)).
  { destruct Ht as (t & h & i & s & lb' & -> & _ & Hr & _). exact (relinked_lookup (X := state) _ _ _ _ Hr Hx). }
  destruct Hx2 as [n Hx2]. rewrite (proj2 (Z.eqb_neq _ _) Hne). cbn [negb]. rewrite (udp_block_bind _ _ _ _ Hx2). cbn [up_recv up_recv_arg with_up_next].
  assert (Ht2 : tidied lb st st2) by by eapply tidied_keep.
  destruct (up_recv x =? 0); cbn [negb].
  - destruct (lends_free call_custom_free E p _ _ Hp L) as (c & s3 & Efr & Hst & _).
    eexists. split; [rewrite (host_pb_bind _ _ _ c s3); [done|by rewrite E2]|]. split.
    + by eapply tidied_keep.
    + unfold dropped, set_pm. cbn [ipl with_ipl]. by rewrite E2.
  - exists st2. rewrite E2. change (ip_data (with_low (ipl st) ?y)) with (ip_data (ipl st)). rewrite Hsrc. split; [done|].
    split; [done|]. rewrite E2. split; [done|]. split; [done|]. split; [exact L|]. split; [done|]. split; [exact Hp8|]. by rewrite <-Hd.
Qed.

(** The checksum of a datagram that has arrived. *)
Lemma udp_check_spec {B} E lb (st st1 : state) r inp p b l hs m (f : bool -> M B) :
  udp_arrived E lb st r inp p b l hs m -> UDP_HLEN <= len b -> ipl st1 = ipl st ->
  (chksum ← on_ip (get16 (payload b) 6);
   bad ← (if negb (chksum =? 0) then sum ← chksum_pseudo p IP_PROTO_UDP (total ((p, b) :: l)) (rt_src_ip r) (rt_dest_ip r); mret (negb (sum =? 0)) else mret false);
   f bad) st1 = f (negb (udp_verifies (rt_src_ip r) (rt_dest_ip r) m)) st1.
Proof.
  intros [Hinv Ha _ _ _ _ _ _ [Hs Hds] _] Hb Ei. pose proof Ha as [H Hp Hq _ _ _ Hby Hd]. pose proof (proj1 Hq) as Hpk. apply Forall_app in Hby as [_ Hm].
  destruct (packet_region _ _ _ _ _ (link_refs _ _ H) Hpk ltac:(unfold UDP_HLEN in *; lia)) as [Hreg Hlen].
  rewrite (host_get16_bind _ _ (pbuf_bytes (pm (low (ipl st))) b)) by (rewrite ?Ei; done || unfold UDP_HLEN in *; lia).
  rewrite (slice_data _ p b l), Hd by (unfold UDP_HLEN in *; lia). unfold udp_verifies.
  destruct (le_val (slice 6 2 m) =? 0); [done|]. cbn [orb negb].
  rewrite (st_bind_ok _ _ _ (negb (65535 - cksum_ref (pseudo_header (rt_src_ip r) (rt_dest_ip r) IP_PROTO_UDP (total ((p, b) :: l)) ++ m) =? 0)) st1).
  2: { rewrite (chksum_pseudo_spec _ _ p b l _ _ st1 ltac:(rewrite Ei; exact (link_refs _ _ H))); rewrite ?Ei, ?Hd; done. }
  replace (total ((p, b) :: l)) with (Z.of_nat (length m)).
  - f_equal. f_equal. apply eq_true_iff_eq. rewrite !Z.eqb_eq. lia.
  - rewrite <-Hd. pose proof (refs_sized _ _ _ _ _ (link_refs _ _ H) Hpk) as Hsz. apply data_length; [|apply Hsz]. exact (refs_readable _ _ _ (link_refs _ _ H) Hpk).
Qed.

(** The search finds [target]. *)
Lemma udp_search E lb (st : state) r inp p b l hs m s : udp_arrived E lb st r inp p b l hs m ->
  let st1 := with_udp_stats st s in
  exists pcb uncon st2, udp_match_loop (Datatypes.S (size (udp_tab st))) inp (rt_broadcast r) (rt_src r) (rt_dest r) (udp_pcbs st) 0 0 st1 = Ok ((pcb, uncon), st2) /\
    (if pcb =? 0 then uncon else pcb) = target r (udp_tab st) lb /\ tidied lb st st2 /\ ipl st2 = ipl st.
Proof.
  intros [Hinv _ _ _ Hr _ _ _ _ _] st1. assert (Hl := ui_list _ _ Hinv).
  destruct (udp_match_loop_spec r inp [] lb (udp_pcbs st) 0 (Datatypes.S (size (udp_tab st))) st1) as (v & Hv); try done.
  { pose proof (chain_at_length _ _ _ _ Hl) as Hlen. simpl in Hlen. lia. } { by left. }
  change (udp_tab st1) with (udp_tab st) in Hv. unfold target. destruct (full_match r (udp_tab st) lb) as [c|] eqn:Ef.
  - destruct Hv as (t & h & s' & lb' & Em & Hc & Hre & Hpm). eexists c, v, _. split; [exact Em|].
    assert (Hc0 : c <> 0).
    { apply find_some in Ef as [_ Ef]. unfold block_is in Ef. intros ->. by rewrite (ui_null _ _ Hinv) in Ef. }
    rewrite (proj2 (Z.eqb_neq _ _) Hc0). split; [done|]. split; [|done]. exists t, h, (ipl st), s', lb'. done.
  - destruct Hv as (Em & ->). eexists 0, _, st1. split; [exact Em|]. split; [done|]. split; [|done].
    eapply tidied_keep; [by apply tidied_refl|]. done.
Qed.

Lemma host_discard E lb p (st st2 : state) : tidied lb st st2 -> ipl st2 = ipl st -> link_ok ({[+ p +]} ⊎ E) (low (ipl st)) -> p ∉ E ->
  exists st', pfree p st2 = Ok (tt, st') /\ discarded E lb st st'.
Proof.
  intros T2 Ei H Hp. destruct (host_freed E p st2 ltac:(by rewrite Ei) Hp) as (i & Ef & Hdr). exists (with_ipl st2 i). split; [exact Ef|].
  rewrite Ei in Hdr. split; [by eapply tidied_keep|exact Hdr].
Qed.
Lemma host_count_discard E lb p c1 c2 (st st2 : state) : tidied lb st st2 -> ipl st2 = ipl st -> link_ok ({[+ p +]} ⊎ E) (low (ipl st)) -> p ∉ E ->
  exists st', (_ ← UDP_STATS_INC c1; _ ← UDP_STATS_INC c2; pfree p) st2 = Ok (tt, st') /\ discarded E lb st st'.
Proof.
  intros T2 Ei H Hp. rewrite !(st_bind_ok (UDP_STATS_INC _) _ _ tt _ eq_refl). apply host_discard; [by eapply tidied_keep|done..].
Qed.
Lemma best_open_some r t u l : (u = 0 \/ is_Some (t !! u)) -> best_open r t u l <> 0 -> is_Some (t !! best_open r t u l).
Proof.
  unfold best_open. revert u. induction l as [|b l IH]; intros u Hu; simpl; [by destruct Hu|].
  destruct (block_is (fun x => takes r x && unconnected x) t b) eqn:Eb; [|by apply IH]. simpl. apply IH.
  assert (Hb : is_Some (t !! b)) by (unfold block_is in Eb; by destruct (t !! b)).
  unfold preferred. destruct (u =? 0); [by right|]. by match goal with |- context [if ?c then b else u] => destruct c end; [right|].
Qed.
Lemma target_some r t l : target r t l <> 0 -> is_Some (t !! target r t l).
Proof.
  unfold target, full_match. destruct (List.find _ l) as [a|] eqn:Ef; [|by apply best_open_some; left].
  intros _. apply find_some in Ef as [_ Ef]. unfold block_is in Ef. by destruct (t !! a).
Qed.

(** ** Input *)

(** What becomes of a datagram that has arrived. *)
Lemma udp_input_spec E lb (st : state) r inp p b l hs m : udp_arrived E lb st r inp p b l hs m ->
  match judge r (udp_tab st) lb (len b) m with
  | UDiscard => exists st', udp_input p inp st = Ok (tt, st') /\ discarded E lb st st'
  | URefuse => exists st', udp_input p inp st = Ok (tt, st') /\ refused E lb r (hs ++ m) st st'
  | UGive a x => exists st', udp_input p inp st = udp_recv_fn (up_recv x) (up_recv_arg x) a p (rt_src_ip r) (rt_src r) st' /\ given E lb p b l m st st'
  end.
Proof.
  intros Hua. pose proof Hua as [Hinv Ha Hhl Htot (Hi0 & Hnif & Hcin & Hsrc & Hdst) (cnif & Hcn & Hbc) Hif Hid Had [Hps Hpd]].
  pose proof Ha as [H Hp Hq _ _ _ _ Hd]. assert (Hpk := proj1 Hq). assert (Hp0 : p <> 0) by apply Hpk.
  unfold udp_input. rewrite !sassert_bind by (apply negb_true_iff, Z.eqb_neq; done).
  rewrite (st_bind_ok (UDP_STATS_INC _) _ st tt (with_udp_stats st (fun y => if decide (y = udp_recvd) then u16 (udp_stats st udp_recvd + 1) else udp_stats st y))) by done.
  set (cnt := fun y : udp_counter => _). set (st1 := with_udp_stats st cnt). change (ipl st) with (ipl st1) in *.
  assert (T1 : tidied lb st st1) by (eapply tidied_keep; [apply tidied_refl; apply Hinv|done]).
  rewrite (host_pb_get_bind p (link b l)) by apply Hpk. change (len (link b l)) with (len b). unfold judge.
  destruct (Z.ltb_spec (len b) UDP_HLEN) as [Hsh|Hb].
  { by apply host_count_discard. }
  rewrite get_bind, (host_netif_bind _ _ _ _ Hcn). change (payload (link b l)) with (payload b). change (tot_len (link b l)) with (total ((p, b) :: l)).
  destruct (packet_region _ _ _ _ _ (link_refs _ _ H) Hpk ltac:(unfold UDP_HLEN in *; lia)) as [Hreg Hlen].
  do 2 (rewrite (host_get16_bind _ _ (pbuf_bytes (pm (low (ipl st1))) b)) by (done || unfold UDP_HLEN in *; lia);
    rewrite (slice_data _ p b l), Hd by (unfold UDP_HLEN in *; lia)).
  rewrite (st_bind_ok blk_fuel _ st1 (Datatypes.S (size (udp_tab st))) st1) by done. rewrite <-Hps, <-Hpd, Hdst, <-Hbc.
  destruct (udp_search E lb st r inp p b l hs m cnt Hua) as (pcb & uncon & st2 & Em & Etg & T2 & Ei2).
  rewrite (st_bind_ok _ _ _ _ _ Em), Etg. cbv zeta. set (a := target r (udp_tab st) lb) in *. change (ipl st) with (ipl st1) in Ei2.
  rewrite (st_bind_ok _ _ _ (negb ((a =? 0) && negb (ip4_addr_eq (nif_ip (nif_addrs (rt_nif r))) (rt_dest_ip r)))) st2).
  2: { destruct (a =? 0); [|done]. cbn [negb andb]. rewrite (host_netif_bind inp (rt_nif r)) by (by rewrite Ei2). by rewrite negb_involutive. }
  destruct ((a =? 0) && negb _).
  { by apply host_discard. }
  cbn [negb]. rewrite Hsrc, (udp_check_spec E lb st st2 r inp p b l hs m _ Hua Hb Ei2). destruct (udp_verifies _ _ _); cbn [negb].
  2: { by apply host_count_discard. }
  destruct (Z.eqb_spec a 0) as [->|Ha0]; [exact (deliver_refuse E lb st st2 r inp p b l hs m Hua Hb T2 Ei2)|].
  destruct (target_some _ _ _ Ha0) as [x Hx]. fold a in Hx. rewrite Hx.
  pose proof (deliver_block E lb st st2 r inp p b l hs m a x Hua Hb T2 Ei2 Ha0 Hx) as Hdel. destruct (up_recv x =? 0); exact Hdel.
Qed.

(** ** The header of a datagram to send *)

(** The packet [q] has room for a header in front of the payload [m]: whatever is written there, the
    others do not notice. *)
Record room (E : gmultiset Z) (nst : @net S) (s1 : @pstate S) (q : Z) (c : pbuf) (lt : list (Z * pbuf)) (ofs : Z) (bs m : list Z) : Prop := {
  room_pbuf : pbufs s1 !! q = Some c;
  room_payload : payload c = Own q ofs;
  room_own : own s1 !! q = Some bs;
  room_ofs : 0 <= ofs;
  room_len : UDP_HLEN <= len c;
  room_fits : ofs + len c <= Z.of_nat (length bs);
  room_total : tot_len c = UDP_HLEN + Z.of_nat (length m);
  room_u16 : is_u16 (tot_len c);
  room_write hs : length hs = Z.to_nat UDP_HLEN -> let nst' := with_pm nst (headed s1 q ofs bs hs) in
    lends q E nst nst' /\ sendable E nst' q ((q, c) :: lt) /\ data (pm nst') ((q, c) :: lt) = hs ++ m
}.

Lemma host_put16 (st : state) s1 q ofs bs hs o v :
  0 <= ofs -> ofs + Z.of_nat (length hs) <= Z.of_nat (length bs) -> 0 <= o -> o + 2 <= Z.of_nat (length hs) ->
  on_ip (set16 (Own q ofs) o v) (set_pm st (headed s1 q ofs bs hs)) = Ok (tt, set_pm st (headed s1 q ofs bs (splice o (le_bytes 2 v) hs))).
Proof.
  intros. refine (on_ip_ok _ (set_pm st (headed s1 q ofs bs hs)) tt (hstate (ipl st) s1 q ofs bs (splice o (le_bytes 2 v) hs)) _).
  by apply (hstate_set_end (ipl st)).
Qed.

(** The header of the block's datagram, with or without a checksum. *)
Definition sent_header (flags src_ip dst_ip src dest : Z) (m : list Z) : list Z :=
  udp_header src dest (UDP_HLEN + Z.of_nat (length m)) (if Z.land flags UDP_FLAGS_NOCHKSUM =? 0 then udp_chksum src_ip dst_ip src dest m else 0).

Lemma udp_fields src dest n chk hs : length hs = 8%nat -> is_u16 src -> is_u16 dest -> is_u16 n ->
  splice 4 (le_bytes 2 (lwip_htons n)) (splice 6 (le_bytes 2 chk) (splice 2 (le_bytes 2 (lwip_htons dest)) (splice 0 (le_bytes 2 (lwip_htons src)) hs)))
  = udp_header src dest n chk /\ forall v, splice 6 (le_bytes 2 v) (udp_header src dest n chk) = udp_header src dest n v.
Proof.
  intros Hl Hs Hd Hn. rewrite !htons_be16 by done.
  destruct hs as [|h0 [|h1 [|h2 [|h3 [|h4 [|h5 [|h6 [|h7 [|]]]]]]]]]; try done.
Qed.

Lemma write_udp_header_spec E (st : state) s1 q c lt ofs bs m sport dport src dst flags :
  room E (low (ipl st)) s1 q c lt ofs bs m -> bytes m -> is_u16 sport -> is_u16 dport -> is_u32 src -> is_u32 dst ->
  write_udp_header q sport dport src dst flags (set_pm st s1) = Ok (tt, set_pm st (headed s1 q ofs bs (sent_header flags src dst sport dport m))).
Proof.
  intros [Hc Hpl Hbs Ho H8 Hfit Ht Hu Hw] Hm Hsp Hdp Hs Hd. unfold write_udp_header, UDP_HLEN in *.
  rewrite (host_pb_get_bind q c) by done. rewrite sassert_bind by lia. rewrite Hpl, Ht.
  set (n := 8 + Z.of_nat (length m)) in *. assert (Hn : is_u16 n) by by rewrite <-Ht.
  set (h0 := slice ofs 8 bs). assert (Hl0 : length h0 = 8%nat) by (unfold h0; rewrite slice_length; lia).
  rewrite (headed_start s1 q ofs 8 bs) at 1 by (done || lia). fold h0.
  destruct (udp_fields sport dport n 0 h0 Hl0 Hsp Hdp Hn) as [Ef Ep].
  assert (Hlen : forall o v hs, length hs = 8%nat -> 0 <= o <= 6 -> length (splice o (le_bytes 2 v) hs) = 8%nat).
  { intros o v hs Hh Ho'. rewrite splice_length by (rewrite ?length_le_bytes; lia). done. }
  do 4 (erewrite st_bind_ok by (apply host_put16; lia || (rewrite Hlen; [lia|repeat (apply Hlen; [|lia]); done|lia]))). rewrite Ef. clear Ef. unfold sent_header. fold n.
  destruct (Z.land flags UDP_FLAGS_NOCHKSUM =? 0); [|done].
  destruct (Hw (udp_header sport dport n 0) eq_refl) as (L & Hq & Hdat).
  assert (Htt : total ((q, c) :: lt) = n).
  { pose proof (proj1 (proj2 (proj1 Hq))) as Hb. simpl in Hb. rewrite Hc in Hb. injection Hb as Hb. rewrite <-Ht, Hb. done. }
  set (st' := set_pm st (headed s1 q ofs bs (udp_header sport dport n 0))).
  change (with_pm (low (ipl st)) (headed s1 q ofs bs (udp_header sport dport n 0))) with (low (ipl st')) in L, Hq, Hdat.
  assert (Hcs : forall f : Z -> M unit, (chksum_pseudo q IP_PROTO_UDP n src dst ≫= f) st'
    = f (65535 - cksum_ref (pseudo_header src dst IP_PROTO_UDP n ++ udp_header sport dport n 0 ++ m)) st').
  { intros f. pose proof (chksum_pseudo_spec _ f q c lt src dst st' (link_refs _ _ (lend_ok _ _ _ _ L)) (proj1 Hq)) as X.
    rewrite Htt, Hdat in X. apply X; [|done|done]. by apply bytes_app; [apply udp_header_bytes|]. }
  rewrite Hcs. unfold udp_chksum, UDP_HLEN. cbv zeta. fold n.
  rewrite <-(Ep (if _ =? 0 then _ else _)). apply host_put16; simpl; lia.
Qed.

(** ** Sending *)

Lemma prepends_room E (nst : @net S) p l s1 b1 ofs bs : link_ok E nst -> sendable E nst p l ->
  prepends E nst p l s1 UDP_HLEN b1 ofs bs -> room E nst s1 p b1 (tail l) ofs bs (data (pm nst) l).
Proof.
  intros H Hq (Hb1 & Hp1 & Hbs & Hofs & Hlen & Hl1 & Ht1 & Hu1 & _ & _ & Hput).
  assert (Hdl : Z.of_nat (length (data (pm nst) l)) = total l).
  { destruct l as [|[a b] l]; [done|]. pose proof (refs_sized _ _ _ _ _ (link_refs _ _ H) (proj1 Hq)) as Hsz.
    apply data_length; [exact (refs_readable _ _ _ (link_refs _ _ H) (proj1 Hq))|apply Hsz]. }
  split; try done; [rewrite Ht1, Hdl; lia|]. intros hs Hhs nst'.
  destruct (Hput hs) as (L & Hs & Hd); [unfold UDP_HLEN in *; lia|]. split; [exact L|]. split; [exact Hs|].
  fold nst' in Hd. rewrite Hd. apply splice_front. rewrite slice_length; unfold UDP_HLEN in *; lia.
Qed.

(** A block without a port gets one. *)
Lemma ensure_bound lb (st : state) pcb x : udp_inv lb st -> udp_tab st !! pcb = Some x ->
  exists err st1, (if up_local_port x =? 0 then udp_bind pcb (Some (local_ip (up_ip x))) (up_local_port x) else mret ERR_OK) st = Ok (err, st1) /\
    ipl st1 = ipl st /\
    ((err = ERR_USE /\ up_local_port x = 0 /\ first_free (udp_tab st) lb (udp_port st) 0 /\ udp_inv lb st1) \/
     (err = ERR_OK /\ exists x1, udp_tab st1 !! pcb = Some x1 /\ udp_inv (activated pcb lb) st1 /\ up_local_port x1 <> 0 /\
        up_ip x1 = up_ip x /\ up_flags x1 = up_flags x /\ (up_local_port x <> 0 -> st1 = st))).
Proof.
  intros H Hx. assert (Hty := ui_typed _ _ H _ _ Hx). destruct (Z.eqb_spec (up_local_port x) 0) as [E0|Hp].
  - rewrite E0. destruct (udp_bind_spec lb st pcb x (Some (local_ip (up_ip x))) 0 H Hx) as (v & w & Hw & Hv & Eb). rewrite Eb. simpl default in *.
    destruct (Z.eqb_spec v 0) as [->|Hv0]; eexists _, _; (split; [done|]).
    + split; [done|]. left. split; [done|]. split; [done|]. split; [exact Hv|]. by apply inv_port.
    + assert (Hi := udp_bind_inv lb st pcb x (local_ip (up_ip x)) 0 v w H Hx Hw ltac:(apply Hty) ltac:(done) Hv Hv0).
      split; [unfold bind_state; by case_decide|]. right. split; [done|].
      exists (if decide (pcb ∈ lb) then bound x (local_ip (up_ip x)) v else with_up_next (bound x (local_ip (up_ip x)) v) (udp_pcbs st)).
      split; [unfold bind_state; case_decide; apply lookup_insert_eq|]. split; [done|]. split; [by case_decide|].
      split; [case_decide; simpl; by destruct (up_ip x)|]. split; [by case_decide|done].
  - exists ERR_OK, st. split; [done|]. split; [done|]. right. split; [done|]. exists x. split; [done|].
    split; [|done]. unfold activated. rewrite decide_True; [done|]. by apply (ui_bound _ _ H _ _ Hx).
Qed.

Lemma st_bind_assoc {A B C} (m : M A) (f : A -> M B) (g : B -> M C) st : (m ≫= fun a => f a ≫= g) st = ((m ≫= f) ≫= g) st.
Proof. unfold mbind, st_bind. by destruct (m st) as [[a s']| | |]. Qed.
Lemma sent_verifies flags src_ip dst_ip src dest m : is_u16 src -> is_u16 dest -> bytes m -> UDP_HLEN + Z.of_nat (length m) < 65536 ->
  udp_verifies src_ip dst_ip (sent_header flags src_ip dst_ip src dest m ++ m) = true.
Proof.
  intros. unfold sent_header. destruct (Z.land flags UDP_FLAGS_NOCHKSUM =? 0); [by apply udp_datagram_verifies|].
  unfold udp_verifies. apply orb_true_iff. by left.
Qed.
(** The header is written and the datagram given to IP. *)
Lemma send_room E (st : state) s1 c ofs bs p l n nif sport dport src dst flags ttl tos (m := data (pm (low (ipl st))) l) :
  room E (low (ipl st)) s1 p c (tail l) ofs bs m ->
  (forall j, head_room j ((p, c) :: tail l) <-> head_room (j + UDP_HLEN) l) -> needs_copy ((p, c) :: tail l) = needs_copy l ->
  ethernet_netif (low (ipl st)) n -> netifs (low (ipl st)) !! n = Some nif ->
  multiplicity p E = 1%nat -> fits_mtu nif (UDP_HLEN + Z.of_nat (length m) + IP_HLEN) ->
  bytes m -> is_u16 (ip_id (ipl st)) -> is_u32 dst -> is_u32 src -> is_u16 sport -> is_u16 dport -> is_u8 ttl -> is_u8 tos ->
  exists err ip', (_ ← write_udp_header p sport dport src dst flags;
     on_ip (ip4_output_if_src call_custom_free garbage ipfrag_free_fn p (Some src) (Some dst) ttl tos IP_PROTO_UDP n)) (set_pm st s1) = Ok (err, with_ipl st ip') /\
    lends p E (low (ipl st)) (low ip') /\ ip_kept (ipl st) ip' /\
    let d := sent_header flags src dst sport dport m ++ m in
    ((err = ERR_BUF /\ ~ head_room (IP_HLEN + UDP_HLEN) l /\ ip_id ip' = ip_id (ipl st) /\ frames (low ip') = frames (low (ipl st))) \/
     (ip_id ip' = u16 (ip_id (ipl st) + 1) /\
      transmitted call_custom_free garbage (head_room (SIZEOF_ETH_HDR + IP_HLEN + UDP_HLEN) l) (needs_copy l = true) n nif dst (ip_header_of tos (Z.of_nat (length d) + IP_HLEN) (ip_id (ipl st)) 0 ttl IP_PROTO_UDP src dst ++ d) err (low (ipl st)) (low ip'))).
Proof.
  intros Hroom Hfront Hcopy Hn Hnif Hm Hmtu Hby Hid Hd Hs Hsp Hdp Httl Htos.
  rewrite (st_bind_ok _ _ _ _ _ (write_udp_header_spec E st s1 p c (tail l) ofs bs m sport dport src dst flags Hroom Hby Hsp Hdp Hs Hd)).
  set (h := sent_header flags src dst sport dport m). destruct (room_write _ _ _ _ _ _ _ _ _ Hroom h eq_refl) as (L & Hq & Hdat).
  set (ip1 := with_low (ipl st) (with_pm (low (ipl st)) (headed s1 p ofs bs h))). change (with_pm (low (ipl st)) (headed s1 p ofs bs h)) with (low ip1) in L, Hq, Hdat.
  assert (Htot : total ((p, c) :: tail l) = UDP_HLEN + Z.of_nat (length m)).
  { pose proof (proj1 (proj2 (proj1 Hq))) as Hb. change (pbufs (pm (low ip1))) with (pbufs s1) in Hb. rewrite (room_pbuf _ _ _ _ _ _ _ _ _ Hroom) in Hb. injection Hb as Hb.
    rewrite <-(room_total _ _ _ _ _ _ _ _ _ Hroom), Hb. done. }
  destruct (output_if_src_spec call_custom_free garbage ipfrag_free_fn E p ((p, c) :: tail l) n nif (Some src) dst ttl tos IP_PROTO_UDP ip1)
    as (err & ip' & Eo & L2 & K & Hres); try done; [apply L|by rewrite Htot|].
  exists err, ip'. split; [exact (on_ip_ok _ (set_pm st (headed s1 p ofs bs h)) err ip' Eo)|]. split; [by eapply lends_trans|]. split; [done|].
  intros d. destruct Hres as [(-> & Hno & El & Eid)|(Eid & _ & Htr)]; [left|right].
  - split; [done|]. split; [by rewrite <-Hfront|]. split; [done|]. by rewrite El.
  - split; [done|]. rewrite Hdat, Htot in Htr. fold d in Htr. replace (Z.of_nat (length d)) with (UDP_HLEN + Z.of_nat (length m)) by (unfold d, h, sent_header; rewrite length_app, udp_header_length; unfold UDP_HLEN; lia).
    rewrite <-Hcopy. refine (transmitted_start _ _ _ _ n nif dst _ err (low (ipl st)) (low ip1) (low ip') eq_refl eq_refl _).
    by eapply transmitted_iff; [apply Hfront| |exact Htr].
Qed.

(** ** Properties *)

End udp.

Section example.
#[local] Existing Instance example_PbufAlloc.
#[local] Existing Instance example_FragPool.
#[local] Existing Instance example_BlockPool.
Abbreviation state := (@host (memp_state * Z) memp_state memp_state memp_state).

(** Three bytes, with room for the headers of UDP, IP and Ethernet. *)
Definition example_pm3 : @pstate (memp_state * Z) :=
  after (pbuf_alloc no_custom (fun a => u8 a) PBUF_TRANSPORT 3 PBUF_RAM example_st0).
Lemma example_refs3 : refs_ok ({[+ 0x10000 +]} ⊎ ∅) example_pm3.
Proof.
  destruct (pbuf_alloc_ram_heap no_custom (fun a => u8 a) ∅ PBUF_TRANSPORT 3 example_st0 example_refs ltac:(done)) as (p & st' & E & H).
  assert (E' : pbuf_alloc no_custom (fun a => u8 a) PBUF_TRANSPORT 3 PBUF_RAM example_st0 = Ok (0x10000, example_pm3)) by (vm_compute; reflexivity).
  rewrite E' in E. injection E as <- <-. by destruct H as [[? _]|(b & H & _)].
Qed.
Lemma example_sendable3 : sendable ({[+ 0x10000 +]} ⊎ ∅) (low (example_ip example_pm3)) 0x10000 [(0x10000, ram_pbuf 0x10000 54 3)].
Proof.
  split; [vm_compute; by repeat split|]. split; [done|]. split; [done|]. split; [by apply Forall_singleton|].
  split; [by vm_compute|]. split; [apply example_private|]. by vm_compute.
Qed.
(** The application of port 53 sends three bytes to port 1000 of 10.0.0.2: its hardware address is asked for, and the datagram waits. *)
Definition udp_sender : state := with_ipl udp_host3 (example_ip example_pm3).
End example.
