(* ===== verification/Ip4In.v ===== *)
(** * IPv4: input (core/ipv4/ip4.c)

    [ip4_input] checks a datagram, decides whether it is for this host, reassembles
    it if it is a fragment and hands it to the protocol above: to the raw sockets first,
    then to UDP, TCP or ICMP.  A datagram of another protocol is answered with an ICMP
    error. *)

From stdpp Require Import gmultiset.
From S2P Require Import Prelude Def Chksum Ip4Addr Memp Mem Pbuf PbufData PbufHeap PbufSole Ethernet Link Acd Etharp EtharpIo Ip4 Icmp Reass ReassOk ReassQueue ReassIn Reassembly ReassSpec Headers Pcb Raw Udp UdpIo.

Set Default Proof Using "Type".

Definition LWIP_IANA_PORT_DHCP_CLIENT : Z := 68.

Definition ip4_input_accept (dest : Z) (nif : netif) : bool :=
  netif_is_up nif && negb (ip4_addr_isany_val (nif_ip (nif_addrs nif))) &&
  (ip4_addr_eq dest (nif_ip (nif_addrs nif)) || ip4_addr_isbroadcast dest nif).

Definition ip_data_addrs (x : ip_globals) (src dest : Z) : ip_globals :=
  {| current_netif := current_netif x; current_input_netif := current_input_netif x;
     current_ip4_header := current_ip4_header x; current_ip_header_tot_len := current_ip_header_tot_len x;
     current_iphdr_src := src; current_iphdr_dest := dest |}.
Definition ip_data_none : ip_globals :=
  {| current_netif := 0; current_input_netif := 0; current_ip4_header := NULL; current_ip_header_tot_len := 0;
     current_iphdr_src := IPADDR_ANY; current_iphdr_dest := IPADDR_ANY |}.

(** ** What is to happen to a datagram *)

Definition h_version (d : list Z) : Z := Z.shiftr (le_val (slice 0 1 d)) 4.
Definition h_proto (d : list Z) : Z := le_val (slice 9 1 d).
(** The header of the datagram [d], whose first pbuf has [k] bytes. *)
Definition header_ok (k : Z) (d : list Z) : bool :=
  (h_version d =? 4) && (h_hlen d <=? Z.min k (h_len d)) && (h_len d <=? Z.of_nat (length d)) && (IP_HLEN <=? h_hlen d) &&
  (cksum_ref (slice 0 (h_hlen d) d) =? 65535).

Definition netif_has (f : netif -> bool) (ns : gmap Z netif) (n : Z) : bool := match ns !! n with Some nif => f nif | None => false end.
Definition configured (nif : netif) : bool := netif_is_up nif && negb (ip4_addr_isany_val (nif_ip (nif_addrs nif))).
(** The interface whose address [dest] is, with [inp] before the others, or 0. *)
Definition for_host (ns : gmap Z netif) (ln : list Z) (inp dest : Z) : Z :=
  if ip4_addr_ismulticast dest then if netif_has configured ns inp then inp else 0
  else if netif_has (ip4_input_accept dest) ns inp then inp
  else if ip4_addr_isloopback dest then 0
  else default 0 (List.find (fun n => negb (n =? inp) && netif_has (ip4_input_accept dest) ns n) ln).
Definition dhcp_client (d : list Z) : bool :=
  (h_proto d =? IP_PROTO_UDP) && (le_val (slice (h_hlen d + 2) 2 d) =? PP_HTONS LWIP_IANA_PORT_DHCP_CLIENT).
(** RFC 1122: no host has such an address. *)
Definition bad_source (nif : netif) (src : Z) : bool :=
  negb (ip4_addr_isany_val src) && (ip4_addr_isbroadcast src nif || ip4_addr_ismulticast src).

Inductive ip_verdict := IpDrop | IpWhole (n : Z) | IpFragment (n : Z).
Definition ip_judge (ns : gmap Z netif) (ln : list Z) (inp k : Z) (d : list Z) : ip_verdict :=
  let n := for_host ns ln inp (h_dest d) in
  let dhcp := (n =? 0) && dhcp_client d in
  let n := if dhcp then inp else n in
  if negb (header_ok k d) then IpDrop
  else if negb dhcp && netif_has (fun nif => bad_source nif (h_src d)) ns inp then IpDrop
  else if n =? 0 then IpDrop
  else if Z.land (le_val (slice 6 2 d)) (PP_HTONS (Z.lor IP_OFFMASK IP_MF)) =? 0 then IpWhole n
  else IpFragment n.

Section input.
Context {S R T U : Type} `{!PbufAlloc S} `{!FragPool S} `{!Pool R} `{!Pool T} `{!Pool U}.
Abbreviation state := (@host S R T U).
Abbreviation M := (ST state).
Context (call_custom_free : Z -> Z -> ST (@pstate S) unit) (garbage : Z -> Z).
Context {Link : LinkDriver}.
Context (ipfrag_free_fn : Z).
Context (raw_recv_fn : Z -> Z -> Z -> Z -> Z -> M Z) (udp_recv_fn : Z -> Z -> Z -> Z -> Z -> Z -> M unit).
(** core/tcp_in.c *)
Context (tcp_input : Z -> Z -> M unit).

Local Abbreviation pfree := (fun p => _ ← on_ip (on_pb (pbuf_free call_custom_free p)); mret tt).
Local Abbreviation count := (fun c => on_ip (IP_STATS_INC c)).

(** [NETIF_FOREACH], without [inp]. *)
Fixpoint accept_loop (fuel : nat) (dest n inp : Z) : M Z :=
  match fuel with
  | O => fun _ => Diverge
  | Datatypes.S fuel' =>
      if n =? 0 then mret 0
      else
        nif ← on_ip (on_low (netif_get n));
        if n =? inp then accept_loop fuel' dest (nif_next nif) inp
        else if ip4_input_accept dest nif then mret n
        else accept_loop fuel' dest (nif_next nif) inp
  end.

(** The interface the datagram is for, 0 if there is none. *)
Definition input_netif (dest inp : Z) : M Z :=
  nif ← on_ip (on_low (netif_get inp));
  if ip4_addr_ismulticast dest then
    mret (if netif_is_up nif && negb (ip4_addr_isany_val (nif_ip (nif_addrs nif))) then inp else 0)
  else if ip4_input_accept dest nif then mret inp
  else if negb (ip4_addr_isloopback dest) then
    st ← get; accept_loop (Datatypes.S (size (netifs (low (ipl st))))) dest (netif_list (low (ipl st))) inp
  else mret 0.

Definition set_ip_data (x : ip_globals) : M unit := fun st => Ok (tt, with_ipl st (with_ip_data (ipl st) x)).

(** The protocol above gets the datagram. *)
Definition ip4_upper (p inp n iphdr_hlen proto : Z) (raw_status : raw_input_state) : M unit :=
  if proto =? IP_PROTO_UDP then udp_input call_custom_free garbage ipfrag_free_fn udp_recv_fn p inp
  else if proto =? IP_PROTO_TCP then tcp_input p inp
  else if proto =? IP_PROTO_ICMP then on_ip (icmp_input call_custom_free garbage ipfrag_free_fn p inp)
  else
    _ ← match raw_status with
        | RAW_INPUT_DELIVERED => mret tt
        | _ =>
            nif ← on_ip (on_low (netif_get n));
            st ← get;
            let dest := current_iphdr_dest (ip_data (ipl st)) in
            _ ← (if negb (ip4_addr_isbroadcast dest nif) && negb (ip4_addr_ismulticast dest) then
                   _ ← on_ip (on_pb (pbuf_header_force p iphdr_hlen));
                   on_ip (icmp_dest_unreach call_custom_free garbage ipfrag_free_fn p ICMP_DUR_PROTO)
                 else mret tt);
            _ ← count ip_proterr;
            count ip_drop
        end;
    pfree p.

(** The raw sockets come first. *)
Definition ip4_deliver (p inp n : Z) (iphdr : ptr) (iphdr_hlen : Z) : M unit :=
  st ← get;
  hl ← on_ip (IPH_HL_BYTES iphdr);
  _ ← set_ip_data {| current_netif := n; current_input_netif := inp; current_ip4_header := iphdr;
                     current_ip_header_tot_len := hl; current_iphdr_src := current_iphdr_src (ip_data (ipl st));
                     current_iphdr_dest := current_iphdr_dest (ip_data (ipl st)) |};
  raw_status ← raw_input raw_recv_fn p inp;
  _ ← match raw_status with
      | RAW_INPUT_EATEN => mret tt
      | _ =>
          _ ← on_ip (on_pb (pbuf_remove_header p iphdr_hlen));
          proto ← on_ip (IPH_PROTO iphdr);
          ip4_upper p inp n iphdr_hlen proto raw_status
      end;
  set_ip_data ip_data_none.

(** A datagram for no address of this host is let in if it is for the DHCP client. *)
Definition link_layer_addressed (n inp : Z) (iphdr : ptr) (iphdr_hlen : Z) : M (Z * bool) :=
  if n =? 0 then
    proto ← on_ip (IPH_PROTO iphdr);
    if proto =? IP_PROTO_UDP then
      port ← on_ip (get16 (ptr_add iphdr iphdr_hlen) 2);
      mret (if port =? PP_HTONS LWIP_IANA_PORT_DHCP_CLIENT then (inp, false) else (n, true))
    else mret (n, true)
  else mret (n, true).

(** The datagram is for the interface [n], if that is not 0. *)
Definition ip4_input_routed (p inp n : Z) (check_ip_src : bool) (src : Z) (iphdr : ptr) (iphdr_hlen : Z) : M unit :=
  inif ← on_ip (on_low (netif_get inp));
  if check_ip_src && negb (ip4_addr_isany_val src) && (ip4_addr_isbroadcast src inif || ip4_addr_ismulticast src)
  then _ ← pfree p; count ip_drop
  else if n =? 0 then _ ← count ip_drop; pfree p
  else
    off ← on_ip (IPH_OFFSET iphdr);
    if negb (Z.land off (PP_HTONS (Z.lor IP_OFFMASK IP_MF)) =? 0) then
      p ← on_ip (ip4_reass call_custom_free garbage ipfrag_free_fn p);
      if p =? 0 then mret tt
      else b ← on_ip (on_pb (pb_get p)); ip4_deliver p inp n (payload b) iphdr_hlen
    else ip4_deliver p inp n iphdr iphdr_hlen.

(** The datagram has passed the checks of its header. *)
Definition ip4_input_checked (p inp : Z) (iphdr : ptr) (iphdr_hlen : Z) : M unit :=
  dest ← on_ip (IPH_DEST iphdr);
  src ← on_ip (IPH_SRC iphdr);
  st ← get;
  _ ← set_ip_data (ip_data_addrs (ip_data (ipl st)) src dest);
  n ← input_netif dest inp;
  '(n, check_ip_src) ← link_layer_addressed n inp iphdr iphdr_hlen;
  ip4_input_routed p inp n check_ip_src src iphdr iphdr_hlen.

Definition ip4_input (p inp : Z) : M unit :=
  _ ← count ip_recv;
  b ← on_ip (on_pb (pb_get p));
  let iphdr := payload b in
  v ← on_ip (IPH_V iphdr);
  if negb (v =? 4) then _ ← pfree p; _ ← count ip_err; count ip_drop
  else
    iphdr_hlen ← on_ip (IPH_HL_BYTES iphdr);
    iphdr_len ← on_ip (IPH_LEN iphdr);
    let iphdr_len := lwip_htons iphdr_len in
    _ ← (if iphdr_len <? tot_len b then on_ip (on_pb (pbuf_realloc call_custom_free p iphdr_len)) else mret tt);
    b ← on_ip (on_pb (pb_get p));
    if (len b <? iphdr_hlen) || (tot_len b <? iphdr_len) || (iphdr_hlen <? IP_HLEN) then
      _ ← pfree p;
      _ ← count ip_lenerr;
      count ip_drop
    else
      sum ← on_ip (chksum_mem iphdr iphdr_hlen);
      if negb (sum =? 0) then
        _ ← pfree p;
        _ ← count ip_chkerr;
        count ip_drop
      else ip4_input_checked p inp iphdr iphdr_hlen.

(** ** States that differ in the heap, the counters and [ip_data] *)

Definition at_ip (st : state) (s : @pstate S) (c : ip_counter -> Z) (x : ip_globals) : state :=
  with_ipl st (with_ip_data (with_ip_stats (with_low (ipl st) (with_pm (low (ipl st)) s)) c) x).
Definition bump (c : ip_counter) (cs : ip_counter -> Z) : ip_counter -> Z := fun y => if decide (y = c) then u16 (cs c + 1) else cs y.
Lemma at_ip_start (st : state) : st = at_ip st (pm (low (ipl st))) (ip_stats (ipl st)) (ip_data (ipl st)).
Proof. by destruct st as [[[] ? ? ? ? ? ? ? ?] ? ? ? ? ? ? ? ?]. Qed.
Lemma at_count {B} k (f : unit -> M B) (st : state) s c x : (count k ≫= f) (at_ip st s c x) = f tt (at_ip st s (bump k c) x).
Proof. done. Qed.
Lemma at_count_end k (st : state) s c x : count k (at_ip st s c x) = Ok (tt, at_ip st s (bump k c) x).
Proof. done. Qed.
Lemma at_data {B} y (f : unit -> M B) (st : state) s c x : (set_ip_data y ≫= f) (at_ip st s c x) = f tt (at_ip st s c y).
Proof. done. Qed.
Lemma at_pb {A B} (m : ST (@pstate S) A) (f : A -> M B) (st : state) s c x a s' : m s = Ok (a, s') ->
  (on_ip (on_pb m) ≫= f) (at_ip st s c x) = f a (at_ip st s' c x).
Proof. intros E. by rewrite (host_pb_bind m f (at_ip st s c x) a s' E). Qed.
Lemma on_ip_read {A B} (m : ST (@ipnet S R) A) (f : A -> M B) (st : state) a :
  (forall C (g : A -> ST (@ipnet S R) C), (m ≫= g) (ipl st) = g a (ipl st)) -> (on_ip m ≫= f) st = f a st.
Proof. intros H. by rewrite (on_ip_run m f st a (ipl st) H), with_ipl_self. Qed.

(** The fields of the header in memory. *)
Lemma host_header_reads {B} (st : state) y hs (k : Z -> M B) : region (pm (low (ipl st))) y hs -> 20 <= Z.of_nat (length hs) ->
  (on_ip (IPH_V y) ≫= k) st = k (h_version hs) st /\ (on_ip (IPH_HL_BYTES y) ≫= k) st = k (h_hlen hs) st /\
  (on_ip (IPH_LEN y) ≫= k) st = k (le_val (slice 2 2 hs)) st /\ (on_ip (IPH_OFFSET y) ≫= k) st = k (le_val (slice 6 2 hs)) st /\
  (on_ip (IPH_PROTO y) ≫= k) st = k (h_proto hs) st /\
  (on_ip (IPH_SRC y) ≫= k) st = k (h_src hs) st /\ (on_ip (IPH_DEST y) ≫= k) st = k (h_dest hs) st.
Proof.
  intros Hr Hl. split_and!; apply on_ip_read; intros C g.
  - erewrite st_bind_ok; [done|]. unfold IPH_V. by rewrite (get8_bind _ _ hs) by (done || lia).
  - erewrite st_bind_ok; [done|]. unfold IPH_HL_BYTES. by rewrite (get8_bind _ _ hs) by (done || lia).
  - by apply (get16_bind _ _ hs); [done|lia..].
  - by apply (get16_bind _ _ hs); [done|lia..].
  - by apply (get8_bind _ _ hs); [done|lia..].
  - by apply (get32_bind _ _ hs); [done|lia..].
  - by apply (get32_bind _ _ hs); [done|lia..].
Qed.

(** ** The interface *)

Lemma accept_loop_spec ln fuel dest n inp (st : state) : chain_at nif_next (netifs (low (ipl st))) n ln -> (length ln < fuel)%nat ->
  accept_loop fuel dest n inp st =
  Ok (default 0 (List.find (fun n => negb (n =? inp) && netif_has (ip4_input_accept dest) (netifs (low (ipl st))) n) ln), st).
Proof.
  revert fuel n. induction ln as [|a ln IH]; intros [|fuel] n Hc Hf; try (simpl in Hf; lia).
  - simpl in Hc. by subst n.
  - destruct Hc as (-> & Ha & nif & Hn & Hc). cbn [accept_loop List.find]. rewrite (proj2 (Z.eqb_neq _ _) Ha), (host_netif_bind _ _ _ _ Hn).
    unfold netif_has at 1. rewrite Hn. simpl in Hf.
    destruct (a =? inp); [by apply IH; [|lia]|]. cbn [negb andb]. destruct (ip4_input_accept dest nif); [done|by apply IH; [|lia]].
Qed.
Lemma input_netif_spec ln dest inp nif (st : state) : chain_at nif_next (netifs (low (ipl st))) (netif_list (low (ipl st))) ln ->
  netifs (low (ipl st)) !! inp = Some nif -> input_netif dest inp st = Ok (for_host (netifs (low (ipl st))) ln inp dest, st).
Proof.
  intros Hc Hn. unfold input_netif, for_host. rewrite (host_netif_bind _ _ _ _ Hn). unfold netif_has at 1 2. rewrite Hn. fold (configured nif).
  destruct (ip4_addr_ismulticast dest); [done|]. destruct (ip4_input_accept dest nif); [done|]. destruct (ip4_addr_isloopback dest); [done|].
  cbn [negb]. rewrite get_bind. apply accept_loop_spec; [done|]. pose proof (chain_at_length _ _ _ _ Hc). lia.
Qed.

(** ** The checks *)

(** The packet [p] with the datagram [d] and perhaps padding as the driver of [inp] hands it in, which holds it until here.  Its first
    pbuf has the 20 bytes of a header; only if the datagram passes the checks, is of UDP and for no interface, it must have the ports as well,
    which [ip4_input] then reads without looking at the length. *)
Record on_wire (E : gmultiset Z) (st : state) (inp p : Z) (b : pbuf) (l : list (Z * pbuf)) (d : list Z) : Prop := {
  ow_link : link_ok ({[+ p +]} ⊎ E) (low (ipl st));
  ow_held : p ∉ E;
  ow_private : p ∉ queued (arp_table (low (ipl st)));
  ow_sole : sole ({[+ p +]} ⊎ E ⊎ queued (arp_table (low (ipl st)))) (pbufs (pm (low (ipl st)))) ((p, b) :: l);
  ow_solid : solid ((p, b) :: l);
  ow_len : IP_HLEN <= len b;
  ow_data : data (pm (low (ipl st))) ((p, b) :: l) = d;
  ow_bytes : bytes d;
  ow_interfaces : interfaces_ok (ipl st);
  ow_netif : is_Some (netifs (low (ipl st)) !! inp);
  ow_id : is_u16 (ip_id (ipl st));
  ow_ports ln : chain_at nif_next (netifs (low (ipl st))) (netif_list (low (ipl st))) ln -> header_ok (len b) d = true ->
    for_host (netifs (low (ipl st))) ln inp (h_dest d) = 0 -> h_proto d = IP_PROTO_UDP -> h_hlen d + 4 <= Z.min (len b) (h_len d)
}.

(** Nothing but the heap, where the packet is gone, the counters and [ip_data] has changed. *)
Definition ip_dropped (E : gmultiset Z) (st st' : state) : Prop :=
  exists s c x, st' = at_ip st s c x /\ steps E (low (ipl st)) (with_pm (low (ipl st)) s).

Lemma at_free E p (st : state) s : p ∉ E -> lends p ({[+ p +]} ⊎ E) (low (ipl st)) (with_pm (low (ipl st)) s) ->
  exists s', steps E (low (ipl st)) (with_pm (low (ipl st)) s') /\
    (forall c x, pfree p (at_ip st s c x) = Ok (tt, at_ip st s' c x)) /\
    forall B (f : unit -> M B) c x, (pfree p ≫= f) (at_ip st s c x) = f tt (at_ip st s' c x).
Proof.
  intros Hp L. destruct (lends_free call_custom_free E p _ _ Hp L) as (k & s' & Ef & Hs & _). exists s'. split; [exact Hs|].
  assert (Hf : forall c x, pfree p (at_ip st s c x) = Ok (tt, at_ip st s' c x)) by (intros c x; by rewrite (at_pb _ _ _ _ _ _ _ _ Ef)).
  split; [done|]. intros B f c x. by rewrite (st_bind_ok _ _ _ _ _ (Hf c x)).
Qed.

(** The header in the first pbuf. *)
Lemma trimmed_header E nst s p b l n b' l' d : trimmed call_custom_free E nst s p b l n b' l' -> link_ok E nst -> data (pm nst) ((p, b) :: l) = d -> 0 < len b' ->
  region s (payload b) (pbuf_bytes s b') /\ Z.of_nat (length (pbuf_bytes s b')) = len b' /\
  forall o k, 0 <= o -> 0 <= k -> o + k <= len b' -> slice o k (pbuf_bytes s b') = slice o k d.
Proof.
  intros [L Hs Hd Ht Hl Hpl Hct Hso _ _ _ _] H E0 Hb. destruct (packet_region _ s p b' l' (link_refs _ _ (lend_ok _ _ _ _ L)) (proj1 Hs) Hb) as [Hreg Hlen].
  rewrite Hpl in Hreg. split; [done|]. split; [lia|]. intros o k Ho Hk Hok. rewrite (slice_data _ p b' l') by lia. rewrite Hd, E0.
  unfold slice. rewrite skipn_firstn_comm, take_take. f_equal. lia.
Qed.
Lemma fields_agree hs d : (forall o k, 0 <= o -> 0 <= k -> o + k <= 20 -> slice o k hs = slice o k d) ->
  h_version hs = h_version d /\ h_hlen hs = h_hlen d /\ le_val (slice 2 2 hs) = le_val (slice 2 2 d) /\ le_val (slice 6 2 hs) = le_val (slice 6 2 d) /\
  h_proto hs = h_proto d /\ h_src hs = h_src d /\ h_dest hs = h_dest d.
Proof. intros H. unfold h_version, h_hlen, h_proto, h_src, h_dest. by rewrite !H by lia. Qed.

(** The packet is trimmed to the length the header says. *)
Lemma fit_spec E (st : state) inp p b l d c : on_wire E st inp p b l d ->
  exists s b' l', trimmed call_custom_free ({[+ p +]} ⊎ E) (low (ipl st)) s p b l (h_len d) b' l' /\
    (if h_len d <? total ((p, b) :: l) then on_ip (on_pb (pbuf_realloc call_custom_free p (h_len d))) else mret tt)
      (at_ip st (pm (low (ipl st))) c (ip_data (ipl st))) = Ok (tt, at_ip st s c (ip_data (ipl st))).
Proof.
  clear udp_recv_fn tcp_input raw_recv_fn garbage. intros [H Hp Hpr Hs Hso Hl Hd Hb _ _ _ _]. pose proof (h_len_range d Hb) as Hn. unfold is_u16 in Hn. destruct (Z.ltb_spec (h_len d) (total ((p, b) :: l))).
  - destruct (trim_spec call_custom_free _ (low (ipl st)) p b l (h_len d) H Hs) as (s & b' & l' & Er & Ht); [multiset_solver|lia|].
    exists s, b', l'. split; [done|]. pose proof (at_pb _ mret st _ c (ip_data (ipl st)) _ _ Er) as X.
    unfold mbind, st_bind in X. by destruct (on_ip _ _) as [[[] ?]| | |].
  - eexists _, b, l. split; [by apply trim_none|done].
Qed.

Lemma ip4_input_checks E (st : state) inp p b l d : on_wire E st inp p b l d ->
  if header_ok (len b) d
  then exists s b' l' c, trimmed call_custom_free ({[+ p +]} ⊎ E) (low (ipl st)) s p b l (h_len d) b' l' /\
    ip4_input p inp st = ip4_input_checked p inp (payload b) (h_hlen d) (at_ip st s c (ip_data (ipl st)))
  else exists st', ip4_input p inp st = Ok (tt, st') /\ ip_dropped E st st'.
Proof.
  intros Hw. pose proof Hw as [H Hp Hpr Hs Hso Hl Hd Hb _ _ _ _]. unfold IP_HLEN in Hl.
  pose proof (refs_sized _ _ _ _ _ (link_refs _ _ H) (proj1 Hs)) as Hz. pose proof Hz as (Hsl & Hb0 & Htot)%sized_cons.
  assert (Hdl : Z.of_nat (length d) = total ((p, b) :: l)).
  { rewrite <-Hd. apply data_length; [exact (refs_readable _ _ _ (link_refs _ _ H) (proj1 Hs))|apply Hz]. }
  replace (ip4_input p inp st) with (ip4_input p inp (at_ip st (pm (low (ipl st))) (ip_stats (ipl st)) (ip_data (ipl st)))) by (by rewrite <-at_ip_start).
  unfold ip4_input. rewrite at_count. set (c0 := bump _ _).
  rewrite (host_pb_get_bind p (link b l)) by apply Hs. change (payload (link b l)) with (payload b). change (tot_len (link b l)) with (total ((p, b) :: l)).
  destruct (packet_region _ _ _ _ _ (link_refs _ _ H) (proj1 Hs) ltac:(lia)) as [Hreg Hlen].
  destruct (fields_agree (pbuf_bytes (pm (low (ipl st))) b) d) as (Ev & Eh & El & _).
  { intros o k Ho Hk Hok. rewrite (slice_data _ p b l), Hd by lia. done. }
  assert (HR := fun B (k : Z -> M B) => host_header_reads (at_ip st (pm (low (ipl st))) c0 (ip_data (ipl st))) (payload b) _ k Hreg ltac:(lia)).
  rewrite (proj1 (HR _ _)), Ev. unfold header_ok. destruct (h_version d =? 4); cbn [negb andb].
  2: { destruct (at_free E p st (pm (low (ipl st))) Hp) as (s' & Hst & _ & Hf); [apply (trim_none call_custom_free _ _ p b l (total ((p, b) :: l))); done|].
       eexists. rewrite Hf, at_count, at_count_end. split; [done|]. by eexists _, _, _. }
  rewrite (proj1 (proj2 (HR _ _))), Eh, (proj1 (proj2 (proj2 (HR _ _)))), El. cbv zeta. fold (h_len d).
  destruct (fit_spec E st inp p b l d c0 Hw) as (s & b' & l' & Ht & Ef). rewrite (st_bind_ok _ _ _ _ _ Ef). pose proof Ht as [L Hs' Hd' Ht' Hl' Hpl' _ _ _ _ _ _].
  rewrite (host_pb_get_bind p (link b' l')) by apply Hs'. change (len (link b' l')) with (len b'). change (tot_len (link b' l')) with (total ((p, b') :: l')).
  destruct (at_free E p st s Hp L) as (s' & Hst & _ & Hf).
  replace ((len b' <? h_hlen d) || (total ((p, b') :: l') <? h_len d) || (h_hlen d <? IP_HLEN)) with
    (negb ((h_hlen d <=? Z.min (len b) (h_len d)) && (h_len d <=? Z.of_nat (length d)) && (IP_HLEN <=? h_hlen d))).
  2: { rewrite Ht', Hl', Hdl. clear. generalize (total ((p, b) :: l)) (h_len d) (len b) (h_hlen d). intros. lia. }
  destruct (_ && (IP_HLEN <=? h_hlen d)) eqn:Eok; cbn [negb andb].
  2: { eexists. rewrite Hf, at_count, at_count_end. split; [done|]. by eexists _, _, _. }
  apply andb_true_iff in Eok as [[E1%Z.leb_le E2%Z.leb_le]%andb_true_iff E3%Z.leb_le]. unfold IP_HLEN in E3.
  destruct (trimmed_header _ _ _ _ _ _ _ _ _ d Ht H Hd ltac:(lia)) as (Hreg' & Hlen' & Hsl').
  rewrite (on_ip_read _ _ _ (inet_chksum (ptr_addr (payload b)) (slice 0 (h_hlen d) (pbuf_bytes s b')))).
  2: { intros C g. apply chksum_mem_bind; [exact Hreg'|lia]. }
  rewrite Hsl', inet_chksum_ref by (lia || (unfold slice; by apply Forall_take, Forall_drop)).
  replace (65535 - cksum_ref (slice 0 (h_hlen d) d) =? 0) with (cksum_ref (slice 0 (h_hlen d) d) =? 65535) by (apply eq_true_iff_eq; rewrite !Z.eqb_eq; lia).
  destruct (_ =? 65535); cbn [negb].
  - exists s, b', l', c0. by split.
  - eexists. rewrite Hf, at_count, at_count_end. split; [done|]. by eexists _, _, _.
Qed.

(** ** The decision *)

Lemma link_layer_spec {B} (st : state) n inp y hs (f : Z * bool -> M B) : region (pm (low (ipl st))) y hs -> 20 <= Z.of_nat (length hs) ->
  20 <= h_hlen hs -> (n = 0 -> h_proto hs = IP_PROTO_UDP -> h_hlen hs + 4 <= Z.of_nat (length hs)) ->
  (link_layer_addressed n inp y (h_hlen hs) ≫= f) st =
  f (if (n =? 0) && dhcp_client hs then (inp, false) else (n, true)) st.
Proof.
  intros Hr Hl Hh Hp. rewrite (st_bind_ok _ _ _ (if (n =? 0) && dhcp_client hs then (inp, false) else (n, true)) st); [done|].
  unfold link_layer_addressed, dhcp_client. destruct (Z.eqb_spec n 0) as [E0|]; [|done]. specialize (Hp E0). cbn [andb].
  rewrite (proj1 (proj2 (proj2 (proj2 (proj2 (host_header_reads st y hs _ Hr Hl)))))). destruct (Z.eqb_spec (h_proto hs) IP_PROTO_UDP) as [E|]; [|done].
  specialize (Hp E). cbn [andb]. rewrite (on_ip_read _ _ st (le_val (slice (h_hlen hs + 2) 2 hs))); [by destruct (_ =? PP_HTONS _)|]. intros C g.
  rewrite <-(get16_bind (ipl st) y hs (h_hlen hs + 2) g Hr) by lia. unfold get16, read16. by rewrite ptr_add_add.
Qed.

Definition ip_ready (E : gmultiset Z) (st st1 : state) (p : Z) (b : pbuf) (l : list (Z * pbuf)) (d : list Z) (b' : pbuf) (l' : list (Z * pbuf)) : Prop :=
  exists s c, st1 = at_ip st s c (ip_data_addrs (ip_data (ipl st)) (h_src d) (h_dest d)) /\
    trimmed call_custom_free ({[+ p +]} ⊎ E) (low (ipl st)) s p b l (h_len d) b' l'.

(** The outcomes of [ip_judge], with the rest of [ip4_input] as [run]. *)
Definition ip_outcome (E : gmultiset Z) (st : state) (inp p : Z) (b : pbuf) (l : list (Z * pbuf)) (d : list Z) (v : ip_verdict) (run : outcome (unit * state)) : Prop :=
  match v with
  | IpDrop => exists st', run = Ok (tt, st') /\ ip_dropped E st st'
  | IpWhole n => exists st1 b' l', ip_ready E st st1 p b l d b' l' /\ run = ip4_deliver p inp n (payload b) (h_hlen d) st1
  | IpFragment n => exists st1 b' l', ip_ready E st st1 p b l d b' l' /\
      run = (p ← on_ip (ip4_reass call_custom_free garbage ipfrag_free_fn p);
        if p =? 0 then mret tt else b ← on_ip (on_pb (pb_get p)); ip4_deliver p inp n (payload b) (h_hlen d)) st1
  end.

Lemma routed_spec E (st : state) inp inif p b l d n chk s c b' l' hs : p ∉ E -> trimmed call_custom_free ({[+ p +]} ⊎ E) (low (ipl st)) s p b l (h_len d) b' l' ->
  netifs (low (ipl st)) !! inp = Some inif -> region s (payload b) hs -> 20 <= Z.of_nat (length hs) -> le_val (slice 6 2 hs) = le_val (slice 6 2 d) ->
  ip_outcome E st inp p b l d
    (if chk && bad_source inif (h_src d) then IpDrop else if n =? 0 then IpDrop
     else if Z.land (le_val (slice 6 2 d)) (PP_HTONS (Z.lor IP_OFFMASK IP_MF)) =? 0 then IpWhole n else IpFragment n)
    (ip4_input_routed p inp n chk (h_src d) (payload b) (h_hlen d) (at_ip st s c (ip_data_addrs (ip_data (ipl st)) (h_src d) (h_dest d)))).
Proof.
  intros Hp Ht Hin Hreg Hl Eo. unfold ip4_input_routed. rewrite (host_netif_bind inp inif) by done.
  rewrite <-andb_assoc. fold (bad_source inif (h_src d)). destruct (at_free E p st s Hp (trim_lends _ _ _ _ _ _ _ _ _ _ Ht)) as (s' & Hst & Hf0 & Hf).
  destruct (chk && _); [eexists; rewrite Hf, at_count_end; split; [done|]; by eexists _, _, _|].
  destruct (n =? 0); [eexists; rewrite at_count, Hf0; split; [done|]; by eexists _, _, _|]. set (x := ip_data_addrs _ _ _).
  rewrite (proj1 (proj2 (proj2 (proj2 (host_header_reads (at_ip st s c x) (payload b) hs _ Hreg Hl))))), Eo.
  destruct (Z.land _ _ =? 0); cbn [negb]; eexists _, b', l'; (split; [by exists s, c|done]).
Qed.

Lemma ip4_input_judged E ln (st : state) inp p b l d : on_wire E st inp p b l d ->
  chain_at nif_next (netifs (low (ipl st))) (netif_list (low (ipl st))) ln ->
  ip_outcome E st inp p b l d (ip_judge (netifs (low (ipl st))) ln inp (len b) d) (ip4_input p inp st).
Proof.
  intros Hw Hch. pose proof (ip4_input_checks E st inp p b l d Hw) as Hc. pose proof Hw as [H Hp _ _ _ Hl Hd Hb _ [inif Hin] _ Hpo].
  unfold ip_judge. destruct (header_ok (len b) d) eqn:Eok0; [|exact Hc]. cbn [negb]. pose proof Eok0 as Eok.
  destruct Hc as (s & b' & l' & c & Ht & Ei). rewrite Ei. clear Ei. assert (Hl' := trim_len _ _ _ _ _ _ _ _ _ _ Ht).
  unfold header_ok in Eok. rewrite !andb_true_iff in Eok. destruct Eok as [[[[_ E1%Z.leb_le] E2%Z.leb_le] E3%Z.leb_le] _]. unfold IP_HLEN in *.
  destruct (trimmed_header _ _ _ _ _ _ _ _ _ d Ht H Hd ltac:(lia)) as (Hreg & Hlen & Hsl). set (hs := pbuf_bytes s b') in *.
  destruct (fields_agree hs d) as (_ & Eh & _ & Eo & Epr & Es & Ed); [intros; apply Hsl; lia|].
  assert (HR := fun B (k : Z -> M B) x => host_header_reads (at_ip st s c x) (payload b) hs k Hreg ltac:(lia)).
  unfold ip4_input_checked. rewrite (proj2 (proj2 (proj2 (proj2 (proj2 (proj2 (HR _ _ _))))))), (proj1 (proj2 (proj2 (proj2 (proj2 (proj2 (HR _ _ _))))))), Es, Ed, get_bind, at_data.
  change (ip_data (ipl (at_ip st s c (ip_data (ipl st))))) with (ip_data (ipl st)). set (x := ip_data_addrs _ _ _).
  rewrite (st_bind_ok _ _ _ _ _ (input_netif_spec ln (h_dest d) inp inif (at_ip st s c x) Hch Hin)).
  change (netifs (low (ipl (at_ip st s c x)))) with (netifs (low (ipl st))). set (n := for_host _ _ _ _).
  specialize (Hpo ln Hch eq_refl). fold n in Hpo.
  rewrite <-Eh, (link_layer_spec (at_ip st s c x) n inp (payload b) hs) by (done || lia || (rewrite Epr, Eh; intros E0 Eu; specialize (Hpo E0 Eu); lia)).
  assert (Edh : (n =? 0) && dhcp_client hs = (n =? 0) && dhcp_client d).
  { unfold dhcp_client. rewrite Epr, Eh. destruct (Z.eqb_spec n 0) as [E0|]; [|done].
    destruct (Z.eqb_spec (h_proto d) IP_PROTO_UDP) as [Eu|]; [|done]. specialize (Hpo E0 Eu). by rewrite Hsl by lia. }
  rewrite Edh, Eh.
  unfold netif_has. rewrite Hin.
  destruct ((n =? 0) && dhcp_client d); cbn [negb].
  - exact (routed_spec E st inp inif p b l d inp false s c b' l' hs Hp Ht Hin Hreg ltac:(lia) Eo).
  - exact (routed_spec E st inp inif p b l d n true s c b' l' hs Hp Ht Hin Hreg ltac:(lia) Eo).
Qed.

(** ** Delivery *)

(** No raw socket is for the protocol. *)
Definition raw_quiet (lr : list Z) (proto : Z) (st : state) : Prop :=
  on_list (A := raw_pcb) lr st /\ forall a x, raw_tab st !! a = Some x -> rp_protocol x <> proto.

Lemma raw_quiet_none lr p inp b hs nif inif (st : state) : raw_quiet lr (h_proto hs) st ->
  netifs (low (ipl st)) !! current_netif (ip_data (ipl st)) = Some nif -> netifs (low (ipl st)) !! current_input_netif (ip_data (ipl st)) = Some inif ->
  pbufs (pm (low (ipl st))) !! p = Some b -> region (pm (low (ipl st))) (payload b) hs -> 20 <= Z.of_nat (length hs) ->
  raw_input raw_recv_fn p inp st = Ok (RAW_INPUT_NONE, st).
Proof.
  intros [Hl Hq] Hn Hi Hb Hreg Hlen. set (dest := current_iphdr_dest (ip_data (ipl st))).
  set (r := {| rr_proto := h_proto hs; rr_broadcast := ip4_addr_isbroadcast dest nif; rr_src := current_iphdr_src (ip_data (ipl st));
               rr_dest := dest; rr_index := netif_get_index inif |}).
  assert (Hsil : forall a x, raw_tab st !! a = Some x -> listening r x = false).
  { intros a x Hx. unfold listening. simpl. by rewrite (proj2 (Z.eqb_neq _ _) (Hq a x Hx)). }
  destruct (raw_input_spec raw_recv_fn lr st r p b hs inp (fun _ => false)) as (st1 & Hh & Hres).
  - split; try done; [|by exists nif]. split; [done|]. split; [done|]. by exists inif.
  - intros a x st' _ Hx Hli. by rewrite (Hsil _ _ Hx) in Hli.
  - assert (El : forall l, listeners r (raw_tab st) l = []).
    { induction l as [|a l IH]; [done|]. simpl. destruct (raw_tab st !! a) as [x|] eqn:Hx; [rewrite (Hsil _ _ Hx)|]; exact IH. }
    rewrite El in *. simpl in *. inversion Hh; subst. exact Hres.
Qed.

(** [ip_data] while the protocol above has the datagram. *)
Definition upper_data (inp n : Z) (iphdr : ptr) (d : list Z) : ip_globals :=
  {| current_netif := n; current_input_netif := inp; current_ip4_header := iphdr; current_ip_header_tot_len := h_hlen d;
     current_iphdr_src := h_src d; current_iphdr_dest := h_dest d |}.
Definition ip_hdr_of (d : list Z) : list Z := take (Z.to_nat (h_hlen d)) d.
Definition ip_payload (d : list Z) : list Z := drop (Z.to_nat (h_hlen d)) (take (Z.to_nat (h_len d)) d).

(** The packets once the padding of the datagram [d] in [p] is gone. *)
Definition cut_off (p : Z) (d : list Z) (st : state) : @pstate S := unpadded call_custom_free p (h_len d) (pm (low (ipl st))).

(** The protocol above finds the datagram behind its header. *)
Record at_upper (E : gmultiset Z) (st st2 : state) (inp n p : Z) (b : pbuf) (l : list (Z * pbuf)) (d : list Z) (b2 : pbuf) (l2 : list (Z * pbuf)) : Prop := {
  up_state : exists s c, st2 = at_ip st s c (upper_data inp n (payload b) d) /\ lends p ({[+ p +]} ⊎ E) (low (ipl st)) (with_pm (low (ipl st)) s);
  up_arrived : arrived E (ipl st2) p b2 l2 (h_hlen d) (ip_hdr_of d) (ip_payload d);
  up_header : payload b = ptr_add (payload b2) (- h_hlen d);
  up_total : total ((p, b2) :: l2) = h_len d - h_hlen d;
  up_copy : needs_copy ((p, b2) :: l2) = true -> needs_copy ((p, b) :: l) = true;
  up_alloc : alloc (pm (low (ipl st2))) = alloc (cut_off p d st)
}.

Lemma header_ok_facts k d : header_ok k d = true -> 20 <= h_hlen d <= Z.min k (h_len d) /\ h_len d <= Z.of_nat (length d) /\ h_hlen d <= 60.
Proof.
  unfold header_ok. rewrite !andb_true_iff, !Z.leb_le. intros [[[[_ H1] H2] H3] _]. unfold IP_HLEN in H3. split; [lia|]. split; [done|].
  unfold h_hlen, u8 in *. change 15 with (Z.ones 4). rewrite Z.land_ones by lia. pose proof (Z.mod_pos_bound (le_val (slice 0 1 d)) (2 ^ 4) ltac:(lia)).
  rewrite Z.mod_small; lia.
Qed.

Lemma removed_arrived E (st : state) inp p b l d s b' l' c x : on_wire E st inp p b l d -> header_ok (len b) d = true ->
  trimmed call_custom_free ({[+ p +]} ⊎ E) (low (ipl st)) s p b l (h_len d) b' l' -> h_hlen d < Z.min (len b) (h_len d) ->
  let s2 := moved_head s p b' l' (h_hlen d) in
  pbuf_remove_header p (h_hlen d) s = Ok (false, s2) /\ lends p ({[+ p +]} ⊎ E) (low (ipl st)) (with_pm (low (ipl st)) s2) /\
  arrived E (ipl (at_ip st s2 c x)) p (shift b' (h_hlen d)) l' (h_hlen d) (ip_hdr_of d) (ip_payload d).
Proof.
  clear udp_recv_fn tcp_input raw_recv_fn garbage. intros [H Hp Hpr _ Hso Hl Hd Hb _ _ _ _] Hok Ht Hlt s2. destruct (header_ok_facts _ _ Hok) as ([Hh1 Hh2] & Hle & Hh3).
  pose proof Ht as [L Hs' Hd' Ht' Hl' Hpl' _ Hso' _ _ _ _]. specialize (Hso' Hso ltac:(lia)).
  destruct (trimmed_header _ _ _ _ _ _ _ _ _ d Ht H Hd ltac:(lia)) as (Hreg & Hlen & Hsl).
  assert (Hi := sole_head _ _ _ _ _ Hs'). assert (Hk := lend_ok _ _ _ _ L).
  destruct (remove_front _ _ p b' l' (h_hlen d) Hk (proj1 Hs') Hi ltac:(lia)) as (Er & L2 & Hp2 & Hd2). fold s2 in Er, L2, Hp2, Hd2.
  split; [exact Er|]. assert (L3 : lends p ({[+ p +]} ⊎ E) (low (ipl st)) (with_pm (low (ipl st)) s2)) by (eapply lends_trans; [exact L|exact L2]).
  split; [exact L3|]. split.
  - apply L3.
  - done.
  - split; [exact Hp2|]. split; [done|]. split; [done|]. split.
    { apply Forall_cons in Hso' as [_ ?]. constructor; [simpl; lia|done]. }
    split; [|split; [split; [multiset_solver|exact Hpr]|rewrite multiplicity_own by done; lia]].
    pose proof (proj2 (proj2 (moved_head_calm s p b' l' (h_hlen d) (proj1 Hs') Hi)) p (proj1 (proj1 Hs'))) as Hle'. fold s2 in Hle'.
    pose proof (indeg_nonneg (pbufs s2) p). simpl in *. lia.
  - cbn [payload shift with_extent]. rewrite ptr_add_add, Z.add_opp_diag_r, ptr_add_0, Hpl'.
    assert (Et : take (Z.to_nat (h_hlen d)) (pbuf_bytes s b') = ip_hdr_of d).
    { specialize (Hsl 0 (h_hlen d) ltac:(lia) ltac:(lia) ltac:(lia)). unfold slice in Hsl. by rewrite !drop_0 in Hsl. }
    rewrite <-Et. apply region_prefix; [lia|exact Hreg].
  - unfold ip_hdr_of. rewrite length_take. lia.
  - lia.
  - unfold ip_hdr_of, ip_payload. apply bytes_app; [by apply Forall_take|by apply Forall_drop, Forall_take].
  - etrans; [exact Hd2|]. cbn [pm with_pm]. by rewrite Hd', Hd.
Qed.

Lemma deliver_whole E lr (st st1 : state) inp n nif p b l d b' l' : on_wire E st inp p b l d -> header_ok (len b) d = true ->
  ip_ready E st st1 p b l d b' l' -> netifs (low (ipl st)) !! n = Some nif -> raw_quiet lr (h_proto d) st -> h_hlen d < Z.min (len b) (h_len d) ->
  exists st2, at_upper E st st2 inp n p b l d (shift b' (h_hlen d)) l' /\
    ip4_deliver p inp n (payload b) (h_hlen d) st1 = (ip4_upper p inp n (h_hlen d) (h_proto d) RAW_INPUT_NONE ≫= fun _ => set_ip_data ip_data_none) st2.
Proof.
  intros Hw Hok (s & c & -> & Ht) Hn Hq Hlt. pose proof Hw as [H _ _ _ _ Hl Hd _ _ [inif Hin] _ _].
  destruct (header_ok_facts _ _ Hok) as ([Hh1 Hh2] & Hle & Hh3). pose proof Ht as [_ Hs' _ Ht' Hl' Hpl' _ _ _ _ _ _].
  destruct (trimmed_header _ _ _ _ _ _ _ _ _ d Ht H Hd ltac:(lia)) as (Hreg & Hlen & Hsl).
  destruct (fields_agree (pbuf_bytes s b') d) as (_ & Eh & _ & _ & Epr & _); [intros; apply Hsl; lia|]. set (hs := pbuf_bytes s b') in *.
  destruct (removed_arrived E st inp p b l d s b' l' c (upper_data inp n (payload b) d) Hw Hok Ht Hlt) as (Er & L & Ha).
  eexists. split; [split; [by eexists _, c|exact Ha|cbn [payload shift with_extent]; by rewrite ptr_add_add, Z.add_opp_diag_r, ptr_add_0| |exact (trim_copy _ _ _ _ _ _ _ _ _ _ Ht)|]|].
  2: { unfold cut_off. by rewrite <-(trim_state _ _ _ _ _ _ _ _ _ _ Ht). }
  { pose proof (refs_sized _ _ _ _ _ (link_refs _ _ H) (proj1 (ow_sole _ _ _ _ _ _ _ Hw))) as Hz. rewrite <-Hd in Hle.
    rewrite (data_length _ _ (refs_readable _ _ _ (link_refs _ _ H) (proj1 (ow_sole _ _ _ _ _ _ _ Hw))) (proj1 Hz)), Hd in Hle. simpl in *. lia. }
  assert (HR := fun B (k : Z -> M B) s0 x (Hr : region s0 (payload b) hs) => host_header_reads (at_ip st s0 c x) (payload b) hs k Hr ltac:(lia)).
  unfold ip4_deliver. rewrite get_bind, (proj1 (proj2 (HR _ _ _ _ Hreg))), Eh, at_data.
  lazymatch goal with |- context [at_ip st s c ?x] => change x with (upper_data inp n (payload b) d) end.
  erewrite st_bind_ok by (apply (raw_quiet_none lr p inp (link b' l') hs nif inif); [by rewrite Epr|done|done|apply Hs'|simpl; by rewrite Hpl'|lia]).
  cbv iota. rewrite <-st_bind_assoc, (at_pb _ _ _ _ _ _ _ _ Er), <-st_bind_assoc.
  by rewrite (proj1 (proj2 (proj2 (proj2 (proj2 (HR _ _ (moved_head s p b' l' (h_hlen d)) _ Hreg)))))), Epr.
Qed.

Lemma for_host_known (ns : gmap Z netif) ln inp dest : for_host ns ln inp dest <> 0 -> is_Some (ns !! for_host ns ln inp dest).
Proof.
  unfold for_host. assert (Hh : forall f n, netif_has f ns n = true -> is_Some (ns !! n)) by (intros f n; unfold netif_has; by destruct (ns !! n)).
  destruct (ip4_addr_ismulticast dest).
  { destruct (netif_has configured ns inp) eqn:En; intros Hne; [by apply (Hh _ _ En)|done]. }
  destruct (netif_has _ ns inp) eqn:En; intros Hne; [by apply (Hh _ _ En)|]. destruct (ip4_addr_isloopback dest); [done|].
  destruct (List.find _ ln) as [n|] eqn:Ef; [|done]. apply find_some in Ef as [_ Ef]. apply andb_true_iff in Ef as [_ Ef]. by apply (Hh _ _ Ef).
Qed.
Lemma judge_known (ns : gmap Z netif) ln inp k d : is_Some (ns !! inp) ->
  match ip_judge ns ln inp k d with IpDrop => True | IpWhole n | IpFragment n => header_ok k d = true /\ is_Some (ns !! n) end.
Proof.
  intros Hi. unfold ip_judge. destruct (header_ok k d); [|done]. cbn [negb]. destruct (_ && netif_has _ ns inp); [done|].
  set (n := if _ && dhcp_client d then _ else _). assert (Hn : n <> 0 -> is_Some (ns !! n)).
  { unfold n. destruct (_ && dhcp_client d); [done|]. by apply for_host_known. }
  destruct (Z.eqb_spec n 0) as [|Hne]; [done|]. destruct (Z.land _ _ =? 0); by split; [|apply Hn].
Qed.

Lemma ip4_input_upper E ln lr (st : state) inp n p b l d : on_wire E st inp p b l d ->
  chain_at nif_next (netifs (low (ipl st))) (netif_list (low (ipl st))) ln -> ip_judge (netifs (low (ipl st))) ln inp (len b) d = IpWhole n ->
  raw_quiet lr (h_proto d) st -> h_hlen d < Z.min (len b) (h_len d) ->
  exists st2 b2 l2 nif, netifs (low (ipl st)) !! n = Some nif /\ at_upper E st st2 inp n p b l d b2 l2 /\
    len b2 = Z.min (len b) (h_len d) - h_hlen d /\ contiguous b2 = contiguous b /\
    ip4_input p inp st = (ip4_upper p inp n (h_hlen d) (h_proto d) RAW_INPUT_NONE ≫= fun _ => set_ip_data ip_data_none) st2.
Proof.
  intros Hw Hch Ej Hq Hlt. pose proof (ip4_input_judged E ln st inp p b l d Hw Hch) as Ho.
  pose proof (judge_known (netifs (low (ipl st))) ln inp (len b) d (ow_netif _ _ _ _ _ _ _ Hw)) as Hk. rewrite Ej in Ho, Hk.
  destruct Hk as [Hok [nif Hn]]. destruct Ho as (st1 & b' & l' & Hr & Ei).
  destruct (deliver_whole E lr st st1 inp n nif p b l d b' l' Hw Hok Hr Hn Hq Hlt) as (st2 & Hu & Ed). destruct Hr as (s & c & _ & [_ _ _ _ Hl' _ Hct _ _ _ _ _]).
  exists st2, (shift b' (h_hlen d)), l', nif. split; [done|]. split; [exact Hu|]. split; [simpl; lia|]. split; [exact Hct|]. by rewrite Ei.
Qed.

(** ** Results *)

(** The packet is gone, the layers below are in order, and nothing is left of it in [ip_data]. *)
Definition ip_done (E : gmultiset Z) (st st' : state) : Prop :=
  steps E (low (ipl st)) (low (ipl st')) /\ ip_kept (with_ip_data (ipl st) ip_data_none) (ipl st').
Definition cleared (st : state) : state := with_ipl st (with_ip_data (ipl st) ip_data_none).

Lemma upper_ok (m : M unit) (st st' : state) : m st = Ok (tt, st') -> (m ≫= fun _ => set_ip_data ip_data_none) st = Ok (tt, cleared st').
Proof. intros Em. by rewrite (st_bind_ok _ _ _ _ _ Em). Qed.
Lemma upper_done E (st st2 st3 : state) inp n p b l d b2 l2 : p ∉ E -> at_upper E st st2 inp n p b l d b2 l2 ->
  steps E (low (ipl st2)) (low (ipl st3)) -> ip_kept (ipl st2) (ipl st3) -> ip_done E st (cleared st3).
Proof.
  intros Hp [(s & c & -> & L) _ _ _ _ _] Hst (K1 & _ & K3 & K4 & K5 & K6). split; [exact (lent_steps _ _ _ _ _ Hp L Hst)|].
  split; [exact K1|]. split; [done|]. split; [exact K3|]. split; [exact K4|]. split; [exact K5|exact K6].
Qed.
Abbreviation notified := (notified call_custom_free garbage).
Lemma upper_notified E (st st2 st3 : state) inp n p b l d b2 l2 type code q : at_upper E st st2 inp n p b l d b2 l2 ->
  notified (pm (low (ipl st2))) type code q (ipl st2) (ipl st3) -> notified (cut_off p d st) type code q (ipl st) (ipl (cleared st3)).
Proof.
  intros [(s & c & -> & L) _ _ _ _ Hal] [[Hm Hf]|Hr]; [left; split; [by eapply no_memory_alloc|done]|right].
  refine (responds_start _ _ _ _ _ _ _ (ipl (at_ip st s c (upper_data inp n (payload b) d))) _ _ _ _ _ _ _ _); try done.
Qed.
Abbreviation transmitted := (transmitted call_custom_free garbage).
Lemma upper_transmitted E (st st2 st3 : state) inp n p b l d b2 l2 room copy n' nif ip bs err : at_upper E st st2 inp n p b l d b2 l2 ->
  transmitted room copy n' nif ip bs err (low (ipl st2)) (low (ipl st3)) -> transmitted room copy n' nif ip bs err (low (ipl st)) (low (ipl (cleared st3))).
Proof.
  intros [(s & c & -> & L) _ _ _ _ _] Ht. refine (transmitted_start _ _ _ _ _ _ _ _ _ _ (low (ipl (at_ip st s c (upper_data inp n (payload b) d)))) _ _ _ Ht); done.
Qed.
(** A header and what is behind it are the datagram without padding. *)
Lemma ip_parts d : h_hlen d <= h_len d -> 0 <= h_hlen d -> ip_hdr_of d ++ ip_payload d = take (Z.to_nat (h_len d)) d.
Proof.
  intros H1 H2. unfold ip_hdr_of, ip_payload. rewrite <-(take_drop (Z.to_nat (h_hlen d)) (take (Z.to_nat (h_len d)) d)) at 2. f_equal.
  rewrite take_take. f_equal. lia.
Qed.

(** The datagram in terms of udp.c. *)
Definition ip_udp_route (inif nif : netif) (d : list Z) : udp_route :=
  {| rt_nif := inif; rt_broadcast := ip4_addr_isbroadcast (h_dest d) nif; rt_src_ip := h_src d; rt_src := lwip_htons (le_val (slice 0 2 (ip_payload d)));
     rt_dest_ip := h_dest d; rt_dest := lwip_htons (le_val (slice 2 2 (ip_payload d))) |}.
Lemma h_addrs_range d : bytes d -> is_u32 (h_src d) /\ is_u32 (h_dest d).
Proof.
  intros Hb. pose proof (le_val_slice 12 4 d ltac:(lia) Hb). pose proof (le_val_slice 16 4 d ltac:(lia) Hb). unfold h_src, h_dest, is_u32. lia.
Qed.
Lemma upper_udp E lb (st st2 : state) inp inif n nif p b l d b2 l2 : on_wire E st inp p b l d -> udp_inv lb st -> at_upper E st st2 inp n p b l d b2 l2 ->
  netifs (low (ipl st)) !! inp = Some inif -> netifs (low (ipl st)) !! n = Some nif -> 0 <= h_hlen d ->
  udp_arrived E lb st2 (ip_udp_route inif nif d) inp p b2 l2 (ip_hdr_of d) (ip_payload d).
Proof.
  intros Hw Hinv [(s & c & -> & L) Ha Hh Ht _ _] Hi Hn H0. assert (Hl := arr_length _ _ _ _ _ _ _ _ Ha).
  assert (Hi0 : inp <> 0) by exact (interfaces_nonzero _ _ _ (ow_interfaces _ _ _ _ _ _ _ Hw) Hi).
  destruct (h_addrs_range d (ow_bytes _ _ _ _ _ _ _ Hw)) as [? ?]. pose proof (h_len_range d (ow_bytes _ _ _ _ _ _ _ Hw)) as Hu. unfold is_u16 in Hu.
  apply Build_udp_arrived; try done.
  - by destruct Hinv.
  - by rewrite Hl.
  - rewrite Ht, Hl. lia.
  - by exists nif.
  - apply (ow_interfaces _ _ _ _ _ _ _ Hw).
  - apply (ow_id _ _ _ _ _ _ _ Hw).
Qed.

Lemma tidied_ip lb (st : state) i st' : tidied lb (with_ipl st i) st' -> tidied lb st st'.
Proof. intros (t & h & j & s & lb' & -> & H). by exists t, h, j, s, lb'. Qed.
Lemma tidied_cleared lb (st st' : state) : tidied lb st st' -> tidied lb st (cleared st').
Proof. intros H. by eapply tidied_keep. Qed.
Lemma source_take d k : 16 <= k -> source (take (Z.to_nat k) d) = h_src d.
Proof. intros Hk. unfold source, h_src, slice. rewrite skipn_firstn_comm, take_take. do 2 f_equal. lia. Qed.

(** What the application that is bound to the port gets. *)
Definition udp_handed (E : gmultiset Z) (lb : list Z) (inp n p : Z) (b : pbuf) (d : list Z) (st st' : state) : Prop :=
  tidied lb st st' /\ ip_data (ipl st') = upper_data inp n (payload b) d /\
  lends p ({[+ p +]} ⊎ E) (low (ipl st)) (low (ipl st')) /\ frames (low (ipl st')) = frames (low (ipl st)) /\
  exists b' l', packet (pbufs (pm (low (ipl st')))) ((p, b') :: l') /\ data (pm (low (ipl st'))) ((p, b') :: l') = drop (Z.to_nat UDP_HLEN) (ip_payload d).

(** ** Properties *)

(** C11. A datagram that is not IPv4, whose lengths contradict each other or the packet, whose header
    checksum is wrong, that comes from a broadcast or group address, or that is for no interface of this host (the DHCP client
    excepted) is dropped: the packet is freed, nothing is sent, and nothing but the heap, the counters
    and the addresses in [ip_data] changes.  The first pbuf of the packet has at least the 20 bytes of a header and, if a UDP datagram with a good header is for no
    interface, the ports: [ip4_input] reads them without a look at the lengths. *)
Theorem ip4_input_drops E ln (st : state) inp p b l d : on_wire E st inp p b l d ->
  chain_at nif_next (netifs (low (ipl st))) (netif_list (low (ipl st))) ln -> ip_judge (netifs (low (ipl st))) ln inp (len b) d = IpDrop ->
  exists s c x, ip4_input p inp st = Ok (tt, at_ip st s c x) /\ steps E (low (ipl st)) (with_pm (low (ipl st)) s).
Proof.
  intros Hw Hch Ej. pose proof (ip4_input_judged E ln st inp p b l d Hw Hch) as Ho. rewrite Ej in Ho.
  destruct Ho as (st' & Ei & s & c & x & -> & Hst). by exists s, c, x.
Qed.

(** C2. A whole UDP datagram for this host with something behind the header of IP in its first pbuf, when no raw socket is for UDP,
    goes without its padding to the first block that is bound to where
    it was sent and connected to its sender, otherwise to the best block that is bound there and not connected; that application
    gets the packet, moved behind both headers, and holds it from then on.  Without such a block the sender is told that
    the port is unreachable by an error that quotes the datagram and goes where [ip4_route] leads, unless the datagram was sent to a group, there is no route, or [pbuf_alloc] has no
    memory for the error.  A datagram that is too short, whose checksum is
    wrong or that is for another interface is dropped.  The blocks stay the same, with the one that matched
    fully in front, and nothing leaks. *)
Theorem ip4_input_udp E ln lr lb (st : state) inp inif n nif p b l d (r := ip_udp_route inif nif d) : on_wire E st inp p b l d ->
  chain_at nif_next (netifs (low (ipl st))) (netif_list (low (ipl st))) ln -> ip_judge (netifs (low (ipl st))) ln inp (len b) d = IpWhole n ->
  h_proto d = IP_PROTO_UDP -> raw_quiet lr IP_PROTO_UDP st -> udp_inv lb st -> h_hlen d < Z.min (len b) (h_len d) ->
  netifs (low (ipl st)) !! inp = Some inif -> netifs (low (ipl st)) !! n = Some nif ->
  match judge r (udp_tab st) lb (Z.min (len b) (h_len d) - h_hlen d) (ip_payload d) with
  | UDiscard => exists st', ip4_input p inp st = Ok (tt, st') /\ tidied lb st st' /\ ip_done E st st' /\ frames (low (ipl st')) = frames (low (ipl st))
  | URefuse => exists st', ip4_input p inp st = Ok (tt, st') /\ tidied lb st st' /\ ip_done E st st' /\
      if ip4_addr_isbroadcast (h_dest d) nif || ip4_addr_ismulticast (h_dest d) then frames (low (ipl st')) = frames (low (ipl st))
      else notified (cut_off p d st) ICMP_DUR (dur_code ICMP_DUR_PORT) (take (Z.to_nat (h_len d)) d) (ipl st) (ipl st')
  | UGive a x => exists st', ip4_input p inp st =
        (udp_recv_fn (up_recv x) (up_recv_arg x) a p (h_src d) (rt_src r) ≫= fun _ => set_ip_data ip_data_none) st' /\
      udp_handed E lb inp n p b d st st'
  end.
Proof.
  intros Hw Hch Ej Epr Hq Hinv Hlt Hi Hn. assert (Hp := ow_held _ _ _ _ _ _ _ Hw).
  destruct (ip4_input_upper E ln lr st inp n p b l d Hw Hch Ej ltac:(by rewrite Epr) Hlt) as (st2 & b2 & l2 & nif' & Hn' & Hu & Hl2 & _ & Ei).
  assert (nif' = nif) as -> by congruence. clear Hn'. pose proof (judge_known _ ln inp (len b) d (ow_netif _ _ _ _ _ _ _ Hw)) as Hk. rewrite Ej in Hk.
  destruct (header_ok_facts _ _ (proj1 Hk)) as ([H20 _] & _). rewrite Ei, Epr. change (ip4_upper p inp n (h_hlen d) IP_PROTO_UDP RAW_INPUT_NONE)
    with (udp_input call_custom_free garbage ipfrag_free_fn udp_recv_fn p inp).
  assert (Ha := upper_udp E lb st st2 inp inif n nif p b l d b2 l2 Hw Hinv Hu Hi Hn ltac:(lia)).
  pose proof (udp_input_spec call_custom_free garbage ipfrag_free_fn udp_recv_fn E lb st2 r inp p b2 l2 _ _ Ha) as Hs. rewrite Hl2 in Hs.
  pose proof Hu as [(s & c & E2 & L) _ _ _ _ _]. assert (Et : udp_tab st2 = udp_tab st) by (by rewrite E2).
  assert (Htid : forall st', tidied lb st2 st' -> tidied lb st (cleared st')) by (intros st' H; rewrite E2 in H; by apply tidied_cleared, (tidied_ip _ _ _ _ H)).
  assert (Efr : frames (low (ipl st2)) = frames (low (ipl st))) by (by rewrite E2). rewrite Et in Hs. destruct (judge _ _ _ _ _) as [| |a x].
  - destruct Hs as (st3 & Eu & T3 & (Hst & K & _ & Hf)). eexists. split; [exact (upper_ok _ _ _ Eu)|]. split; [by apply Htid|].
    split; [by eapply upper_done|]. change (frames (low (ipl st3)) = frames (low (ipl st))). by rewrite Hf.
  - destruct Hs as (st3 & Eu & T3 & Hst & K & _ & Hf). eexists. split; [exact (upper_ok _ _ _ Eu)|]. split; [by apply Htid|].
    split; [by eapply upper_done|]. rewrite ip_parts in Hf by lia. unfold r in Hf. cbn [rt_broadcast rt_dest_ip ip_udp_route] in Hf.
    destruct (_ || _); [by rewrite <-Efr, <-Hf|]. by eapply upper_notified.
  - destruct Hs as (st3 & Eu & T3 & K & _ & L3 & Hf & Hpk & Hd). exists st3. split; [unfold mbind, st_bind; by rewrite Eu|].
    rewrite E2 in T3. split; [exact (tidied_ip _ _ _ _ T3)|]. split; [destruct K as (_ & -> & _); by rewrite E2|].
    split; [eapply lends_trans; [exact L|]; by rewrite E2 in L3|]. split; [by rewrite Hf|]. by eexists _, _.
Qed.

Lemma moved_head_0 (s : @pstate S) p b l : packet (pbufs s) ((p, b) :: l) -> moved_head s p b l 0 = s.
Proof. intros Hp. unfold moved_head. rewrite shift_0, insert_id by apply Hp. by destruct s. Qed.

Lemma count2_free k1 k2 p (st : state) k s3 : pbuf_free call_custom_free p (pm (low (ipl st))) = Ok (k, s3) ->
  exists c, (_ ← (_ ← count k1; count k2); pfree p) st = Ok (tt, with_ipl st (with_ip_stats (with_low (ipl st) (with_pm (low (ipl st)) s3)) c)).
Proof.
  intros Ef. rewrite (at_ip_start st), <-st_bind_assoc, !at_count, (at_pb _ _ _ _ _ _ _ _ Ef). eexists. unfold at_ip. simpl. by destruct st as [[[] ? ? ? ? ? ? ? ?] ? ? ? ? ? ? ? ?].
Qed.
(** A datagram of another protocol. *)
Lemma unknown_spec E (st st2 : state) inp n nif p b l d b2 l2 proto : on_wire E st inp p b l d -> at_upper E st st2 inp n p b l d b2 l2 ->
  netifs (low (ipl st)) !! n = Some nif -> 20 <= h_hlen d <= h_len d -> proto <> IP_PROTO_UDP -> proto <> IP_PROTO_TCP -> proto <> IP_PROTO_ICMP ->
  exists i, ip4_upper p inp n (h_hlen d) proto RAW_INPUT_NONE st2 = Ok (tt, with_ipl st2 i) /\ steps E (low (ipl st2)) (low i) /\ ip_kept (ipl st2) i /\
    if ip4_addr_isbroadcast (h_dest d) nif || ip4_addr_ismulticast (h_dest d) then frames (low i) = frames (low (ipl st2))
    else notified (pm (low (ipl st2))) ICMP_DUR (dur_code ICMP_DUR_PROTO) (take (Z.to_nat (h_len d)) d) (ipl st2) i.
Proof.
  intros Hw Hu Hn Hhl Hu1 Hu2 Hu3. pose proof Hu as [(s & c & E2 & L) Ha Hh Ht _ _]. pose proof Ha as [H Hp Hsd Hreg Hl _ Hby Hd].
  destruct Hsd as (Hpk & _ & _ & Hso & Hi & _). unfold ip4_upper.
  rewrite (proj2 (Z.eqb_neq _ _) Hu1), (proj2 (Z.eqb_neq _ _) Hu2), (proj2 (Z.eqb_neq _ _) Hu3).
  rewrite <-st_bind_assoc, (host_netif_bind n nif) by (by rewrite E2). rewrite <-st_bind_assoc, get_bind. cbv zeta.
  assert (Ed : current_iphdr_dest (ip_data (ipl st2)) = h_dest d) by (by rewrite E2). rewrite Ed, <-!st_bind_assoc.
  rewrite <-negb_orb. destruct (ip4_addr_isbroadcast (h_dest d) nif || ip4_addr_ismulticast (h_dest d)); cbn [negb]. all: swap 1 2.
  - pose proof (h_len_range d (ow_bytes _ _ _ _ _ _ _ Hw)) as Hu16. unfold is_u16 in Hu16.
    destruct (unreach_spec call_custom_free garbage ipfrag_free_fn E p b2 l2 0 (ip_hdr_of d) ICMP_DUR_PROTO (ipl st2) Hp H) as (s1 & i2 & k & s3 & Ef & Eu & Efr & Hst & K & _ & Hr);
      rewrite ?Hl, ?Ht, ?Hd; try done; try lia.
    { rewrite E2. apply (ow_interfaces _ _ _ _ _ _ _ Hw). } { rewrite E2. apply (ow_id _ _ _ _ _ _ _ Hw). }
    { apply Forall_cons in Hso as [Hb2 _]. simpl in Hb2. lia. }
    rewrite (moved_head_0 _ _ _ _ Hpk), Hl, Z.add_0_r in Ef. rewrite <-st_bind_assoc, (host_pb_bind _ _ _ _ _ Ef). cbv beta.
    rewrite (on_ip_bind _ _ (set_pm st2 s1) _ _ Eu).
    destruct (count2_free ip_proterr ip_drop p (with_ipl (set_pm st2 s1) i2) k s3 Efr) as [cn Ec]. rewrite Ec. eexists. split; [done|].
    split; [exact Hst|]. split; [exact K|]. rewrite Hd, ip_parts in Hr by lia. exact Hr.
  - rewrite mret_bind. destruct (free_steps call_custom_free E p (ipl st2) H Hp) as (k & s3 & Efr & Hst).
    destruct (count2_free ip_proterr ip_drop p st2 k s3 Efr) as [cn Ec]. rewrite Ec. eexists. split; [done|]. by split; [exact Hst|].
Qed.


(** The driver has left room in front of the packet for the header of the link. *)
Definition link_room (p : Z) (b : pbuf) (n : Z) : Prop :=
  contiguous b = true /\ n + PBUF_LINK_HLEN < 65536 /\ exists o, payload b = Own p o /\ PBUF_LINK_HLEN <= o.
Lemma link_room_head E (st st2 : state) inp n p b l d b2 l2 : at_upper E st st2 inp n p b l d b2 l2 -> contiguous b2 = contiguous b ->
  link_room p b (h_len d) -> head_room (SIZEOF_ETH_HDR + h_hlen d) ((p, b2) :: l2).
Proof.
  intros [_ _ Hh Ht _ _] Hc (Hcb & Hlt & o & Ho & Hle). unfold PBUF_LINK_HLEN, SIZEOF_ETH_HDR in *. split; [by rewrite Hc|]. split; [rewrite Ht; lia|].
  exists (o + h_hlen d). split; [|lia]. rewrite Hh in Ho. destruct (payload b2) as [|q o'|]; simpl in Ho; try done.
  injection Ho as -> Ho. f_equal. lia.
Qed.
Lemma hdr_cons d : bytes d -> 20 <= h_hlen d -> h_hlen d <= Z.of_nat (length d) ->
  exists v hs, ip_hdr_of d = v :: hs /\ Z.land v 0x0f * 4 = h_hlen d.
Proof.
  intros Hb H20 Hl. destruct d as [|v d]; [simpl in Hl; lia|]. unfold ip_hdr_of. destruct (Z.to_nat (h_hlen (v :: d))) as [|k] eqn:Ek; [lia|].
  exists v, (take k d). split; [done|]. apply Forall_cons in Hb as [Hv _]. unfold h_hlen. change (le_val (slice 0 1 (v :: d))) with (v + 256 * 0).
  replace (v + 256 * 0) with v by lia. change 15 with (Z.ones 4). rewrite Z.land_ones by lia. pose proof (Z.mod_pos_bound v (2 ^ 4) ltac:(lia)). unfold u8. rewrite (Z.mod_small (_ * 4)); lia.
Qed.


(** C21. A whole datagram for this host of a protocol that nobody handles is freed.  Its sender is told that the protocol is
    unreachable by an error that quotes the header and the first bytes behind it and goes where [ip4_route] leads, unless it was sent to a group, there is no
    route, or [pbuf_alloc] has no memory for the error.  No raw socket is for the protocol, and there is something behind the header of IP in the first pbuf. *)
Theorem ip4_input_unknown E ln lr (st : state) inp n nif p b l d : on_wire E st inp p b l d ->
  chain_at nif_next (netifs (low (ipl st))) (netif_list (low (ipl st))) ln -> ip_judge (netifs (low (ipl st))) ln inp (len b) d = IpWhole n ->
  h_proto d ∉ [IP_PROTO_UDP; IP_PROTO_TCP; IP_PROTO_ICMP] -> raw_quiet lr (h_proto d) st -> h_hlen d < Z.min (len b) (h_len d) ->
  netifs (low (ipl st)) !! n = Some nif ->
  exists i, ip4_input p inp st = Ok (tt, with_ipl st i) /\ ip_done E st (with_ipl st i) /\
    if ip4_addr_isbroadcast (h_dest d) nif || ip4_addr_ismulticast (h_dest d) then frames (low i) = frames (low (ipl st))
    else notified (cut_off p d st) ICMP_DUR (dur_code ICMP_DUR_PROTO) (take (Z.to_nat (h_len d)) d) (ipl st) i.
Proof.
  intros Hw Hch Ej Hpr Hq Hlt Hn. rewrite !not_elem_of_cons in Hpr. destruct Hpr as (Hu1 & Hu2 & Hu3 & _).
  destruct (ip4_input_upper E ln lr st inp n p b l d Hw Hch Ej Hq Hlt) as (st2 & b2 & l2 & nif' & Hn' & Hu & Hl2 & Hc2 & Ei).
  assert (nif' = nif) as -> by congruence. pose proof (judge_known _ ln inp (len b) d (ow_netif _ _ _ _ _ _ _ Hw)) as Hk. rewrite Ej in Hk.
  destruct (header_ok_facts _ _ (proj1 Hk)) as ([H20 Hhl] & _).
  destruct (unknown_spec E st st2 inp n nif p b l d b2 l2 (h_proto d) Hw Hu Hn ltac:(lia) Hu1 Hu2 Hu3) as (i & Eu & Hst & K & Hr).
  pose proof Hu as [(s & c & E2 & L) _ _ _ _ _]. exists (with_ip_data i ip_data_none). split; [rewrite Ei, (upper_ok _ _ _ Eu); by rewrite E2|].
  split; [exact (upper_done E st st2 (with_ipl st i) inp n p b l d b2 l2 (ow_held _ _ _ _ _ _ _ Hw) Hu Hst K)|].
  assert (Efr : frames (low (ipl st2)) = frames (low (ipl st))) by (by rewrite E2).
  destruct (_ || _); [by rewrite <-Efr, <-Hr|]. exact (upper_notified E st st2 (with_ipl st i) inp n p b l d b2 l2 _ _ _ Hu Hr).
Qed.

(** ** Fragments *)

(** A fragment that is not the last one, or does not start at 0. *)
Lemma fragment_later v : is_u16 v -> Z.land v (PP_HTONS (Z.lor IP_OFFMASK IP_MF)) <> 0 -> Z.land v (PP_HTONS IP_MF) = 0 ->
  0 < u16 (Z.land (lwip_htons v) IP_OFFMASK * 8).
Proof.
  intros Hv. assert (Ha : forallb (fun hi => forallb (fun lo => let v := lo + 256 * hi in
    (Z.land v (PP_HTONS (Z.lor IP_OFFMASK IP_MF)) =? 0) || negb (Z.land v (PP_HTONS IP_MF) =? 0) ||
    (0 <? u16 (Z.land (lwip_htons v) IP_OFFMASK * 8))) (seqZ 0 256)) (seqZ 0 256) = true) by (vm_compute; reflexivity).
  unfold is_u16 in Hv. pose proof (Z.div_mod v 256 ltac:(lia)) as Hdm. pose proof (Z.mod_pos_bound v 256 ltac:(lia)).
  assert (0 <= v / 256 < 256) by (split; [apply Z.div_pos; lia|apply Z.div_lt_upper_bound; lia]).
  rewrite forallb_forall in Ha. specialize (Ha (v / 256)). rewrite <-list_elem_of_In, elem_of_seqZ in Ha. specialize (Ha ltac:(lia)).
  rewrite forallb_forall in Ha. specialize (Ha (v mod 256)). rewrite <-list_elem_of_In, elem_of_seqZ in Ha. specialize (Ha ltac:(lia)).
  cbv zeta in Ha. replace (v mod 256 + 256 * (v / 256)) with v in Ha by lia. lia.
Qed.
Lemma reass_trimmed E (st : state) ds p b l n s b' l' c x : reass_ok ({[+ p +]} ⊎ E) (ipl st) ds ->
  trimmed call_custom_free ({[+ p +]} ⊎ (held (all_frags ds) ⊎ E)) (low (ipl st)) s p b l n b' l' ->
  reass_ok ({[+ p +]} ⊎ E) (ipl (at_ip st s c x)) ds.
Proof.
  clear udp_recv_fn tcp_input raw_recv_fn garbage. intros [Hinv Hne] Ht. assert (Em : {[+ p +]} ⊎ (held (all_frags ds) ⊎ E) = held (all_frags ds) ⊎ ({[+ p +]} ⊎ E)) by multiset_solver.
  rewrite Em in Ht. split; [|done]. pose proof (trim_lends _ _ _ _ _ _ _ _ _ _ Ht) as [L1 L2 _ _ _ _].
  assert (Hinv' : reass_inv ({[+ p +]} ⊎ E) (with_low (ipl st) (with_pm (low (ipl st)) s)) ds).
  { eapply inv_low; [exact Hinv|exact L1| |apply Hinv|done|done|done|apply Hinv].
    pose proof (r_frags _ _ _ Hinv) as Hfr. rewrite Forall_forall in Hfr |- *. intros d Hin. specialize (Hfr d Hin).
    eapply frags_mild; [apply (link_refs _ _ (r_link _ _ _ Hinv))|done|done| |apply calm_mild; exact L2].
    intros f Hf. assert (Ha := dgram_frags _ _ _ Hin Hf). destruct (frags_elem _ _ _ _ Hfr Hf) as [nx Hfo].
    assert (Hm := once_multiplicity _ _ _ (r_once _ _ _ Hinv) Ha). split; [done|]. split; [apply Hfo|]. split; [apply held_private; [done|apply Hfo]|].
    intros Efp. apply (proj2 (r_once _ _ _ Hinv) f Ha). rewrite Efp. multiset_solver. }
  destruct Hinv' as [Hl Hf Ho [Q1 Q2 Q3 Q4 Q5] Hwf Hk Hc Hi Hd]. by split.
Qed.

Lemma total_small k l : Forall (fun x => len x.2 <= k) l -> total l <= k * Z.of_nat (length l).
Proof. induction 1 as [|[a b] l Hb _ IH]; simpl in *; lia. Qed.
Lemma sole_part E E' (h : gmap Z pbuf) l : sole (E ⊎ E') h l -> sole E h l.
Proof. intros (Hp & Hi & Hm). split; [done|]. split; [done|]. intros x Hx. specialize (Hm x Hx). rewrite multiplicity_disj_union in Hm. lia. Qed.

(** A fragment as [ip4_reass] gets it. *)
Lemma fragment_arrives E (st : state) ds inp p b l d s b' l' c x : on_wire (held (all_frags ds) ⊎ E) st inp p b l d -> header_ok (len b) d = true ->
  trimmed call_custom_free ({[+ p +]} ⊎ (held (all_frags ds) ⊎ E)) (low (ipl st)) s p b l (h_len d) b' l' -> reass_ok ({[+ p +]} ⊎ E) (ipl st) ds ->
  Z.land (le_val (slice 6 2 d)) (PP_HTONS (Z.lor IP_OFFMASK IP_MF)) <> 0 -> contiguous b = true -> 0 < p < 2 ^ 64 ->
  Forall (fun x => len x.2 <= PBUF_MAX) ((p, b) :: l) ->
  arrives E (ipl (at_ip st s c x)) ds p b' l' (take 20 d) (drop 20 (take (Z.to_nat (h_len d)) d)).
Proof.
  clear udp_recv_fn tcp_input raw_recv_fn garbage. intros Hw Hok Ht Hr Hfr Hct Hpa Hsm. pose proof Hw as [H Hp Hpr _ Hso Hl Hd Hb _ _ _ _]. destruct (header_ok_facts _ _ Hok) as ([H20 Hhl] & Hle & _).
  assert (Em : {[+ p +]} ⊎ (held (all_frags ds) ⊎ E) = held (all_frags ds) ⊎ ({[+ p +]} ⊎ E)) by multiset_solver.
  pose proof Ht as [L Hs' Hd' Ht' Hl' Hpl' Hct' Hso' Hcn Hsm' _].
  assert (Hp' : p ∉ E) by multiset_solver. assert (Hdl : length (take (Z.to_nat (h_len d)) d) = Z.to_nat (h_len d)) by (rewrite length_take; lia).
  assert (Ed : take 20 d ++ drop 20 (take (Z.to_nat (h_len d)) d) = take (Z.to_nat (h_len d)) d).
  { rewrite <-(take_drop 20 (take (Z.to_nat (h_len d)) d)) at 2. f_equal. rewrite take_take. f_equal. lia. }
  assert (Hf20 : forall o k, 0 <= o -> 0 <= k -> o + k <= 20 -> slice o k (take 20 d) = slice o k d).
  { intros. unfold slice. rewrite skipn_firstn_comm, take_take. f_equal. lia. }
  split; [done|by eapply reass_trimmed| | | |].
  - split; [rewrite <-Em; by eapply sole_part|apply Hso'; [done|lia]|congruence|lia| |rewrite length_take; lia| | |exact Hpr|exact Hpa].
    + rewrite Ed. rewrite Hd in Hd'. exact Hd'.
    + rewrite Ed. by apply Forall_take.
    + rewrite <-Em, multiplicity_own; done.
  - unfold h_len at 1. rewrite Hf20 by lia. fold (h_len d). rewrite length_drop, Hdl. lia.
  - unfold h_last, h_start. rewrite Hf20 by lia. intros Hlast%Z.eqb_eq. apply fragment_later; [|done|done].
    pose proof (le_val_slice 6 2 d ltac:(lia) Hb). unfold is_u16. lia.
  - rewrite length_drop, Hdl. pose proof (total_small _ _ (Hsm' _ Hsm)) as Htt. rewrite Ht' in Htt.
    pose proof (refs_sized _ _ _ _ _ (link_refs _ _ H) (proj1 (ow_sole _ _ _ _ _ _ _ Hw))) as Hz.
    pose proof (data_length _ _ (refs_readable _ _ _ (link_refs _ _ H) (proj1 (ow_sole _ _ _ _ _ _ _ Hw))) (proj1 Hz)) as Hdd. rewrite Hd in Hdd. lia.
Qed.

Lemma trimmed_leaves E G nst s p b l n b' l' : p ∉ E -> trimmed call_custom_free ({[+ p +]} ⊎ (G ⊎ E)) nst s p b l n b' l' -> leaves E nst (with_pm nst s).
Proof.
  intros Hp Ht. destruct (trim_lends _ _ _ _ _ _ _ _ _ _ Ht) as [_ Lc _ _ _ _]. split; try done.
  eapply mild_weaken; [apply calm_mild; exact Lc|]. intros q [Hq Hqq]. split; [|by intros ->].
  split; [|done]. apply gmultiset_elem_of_disj_union. right. apply gmultiset_elem_of_disj_union. by right.
Qed.
Lemma judge_fragment (ns : gmap Z netif) ln inp k d n : ip_judge ns ln inp k d = IpFragment n ->
  Z.land (le_val (slice 6 2 d)) (PP_HTONS (Z.lor IP_OFFMASK IP_MF)) <> 0.
Proof.
  unfold ip_judge. destruct (negb (header_ok k d)); [done|]. destruct (_ && netif_has _ ns inp); [done|]. set (n' := if _ && dhcp_client d then _ else _).
  destruct (n' =? 0); [done|]. destruct (Z.eqb_spec (Z.land (le_val (slice 6 2 d)) (PP_HTONS (Z.lor IP_OFFMASK IP_MF))) 0); [done|]. done.
Qed.

(** C10. A fragment for this host without options, in pbufs of at most [PBUF_MAX] bytes whose first one has its data behind it, without its padding, is added to its datagram, if there is room for it, as the abstract account of
    reassembly says; the other datagrams stay as they are, and the packets others hold are not touched.  While the
    datagram is incomplete that is all; the fragment that completes it makes [ip4_input] deliver the whole
    datagram, whose packet nobody else refers to. *)
Theorem ip4_input_fragment E ln (st : state) ds inp n p b l d (hdr := take 20 d) (dp := drop 20 (take (Z.to_nat (h_len d)) d)) :
  on_wire (held (all_frags ds) ⊎ E) st inp p b l d ->
  chain_at nif_next (netifs (low (ipl st))) (netif_list (low (ipl st))) ln -> ip_judge (netifs (low (ipl st))) ln inp (len b) d = IpFragment n ->
  reass_ok ({[+ p +]} ⊎ E) (ipl st) ds -> contiguous b = true -> 0 < p < 2 ^ 64 -> Forall (fun x => len x.2 <= PBUF_MAX) ((p, b) :: l) -> h_hlen d = 20 ->
  ip_reass_pbufcount (ipl st) + Z.of_nat (length ((p, b) :: l)) <= IP_REASS_MAX_PBUFS ->
  is_Some (List.find (same_key hdr) ds) \/ (length ds < pool_cap (S := R))%nat ->
  exists q st' ds', view hdr ds' = (accept hdr dp (view hdr ds)).1 /\ (forall h, hkey h <> hkey hdr -> view h ds' = view h ds) /\
    ReassSpec.handed E (accept hdr dp (view hdr ds)).2 q (ipl st') ds' /\ leaves E (low (ipl st)) (low (ipl st')) /\
    match (accept hdr dp (view hdr ds)).2 with
    | None => ip4_input p inp st = Ok (tt, st')
    | Some _ => exists b', pbufs (pm (low (ipl st'))) !! q = Some b' /\ ip4_input p inp st = ip4_deliver q inp n (payload b') 20 st'
    end.
Proof.
  intros Hw Hch Ej Hr Hct Hpa Hsm H20 Hcnt Hroom. pose proof (ip4_input_judged _ ln st inp p b l d Hw Hch) as Ho.
  pose proof (judge_known _ ln inp (len b) d (ow_netif _ _ _ _ _ _ _ Hw)) as Hk.
  assert (Hfr := judge_fragment _ _ _ _ _ _ Ej).
  rewrite Ej in Ho, Hk. destruct Ho as (st1 & b' & l' & (s & c & -> & Ht) & Ei). rewrite Ei. clear Ei. set (x := ip_data_addrs _ _ _) in *.
  pose proof (fragment_arrives E st ds inp p b l d s b' l' c x Hw (proj1 Hk) Ht Hr Hfr Hct Hpa Hsm) as Ha.
  assert (Hp : p ∉ E) by (pose proof (ow_held _ _ _ _ _ _ _ Hw); multiset_solver).
  destruct (reass_refines call_custom_free garbage ipfrag_free_fn E _ ds p b' l' hdr dp Ha) as (q & i & ds' & Er & (L & _) & H1 & H2 & H3).
  { unfold hdr, h_hlen. replace (slice 0 1 (take 20 d)) with (slice 0 1 d); [done|]. unfold slice. by rewrite !drop_0, take_take. }
  { pose proof (trim_count _ _ _ _ _ _ _ _ _ _ Ht). simpl in *. lia. } { done. }
  exists q, (with_ipl (at_ip st s c x) i), ds'. split; [done|]. split; [done|]. split; [exact H3|].
  split; [eapply leaves_trans; [by eapply trimmed_leaves|exact L]|]. rewrite (on_ip_bind _ _ _ _ _ Er), H20.
  destruct (accept hdr dp (view hdr ds)).2 as [w|]; [|by destruct H3 as [-> _]].
  destruct H3 as (Hq & _ & b2 & m & Hs & _). exists (link b2 m). assert (Hb : pbufs (pm (low i)) !! q = Some (link b2 m)) by apply Hs. split; [exact Hb|].
  rewrite (proj2 (Z.eqb_neq _ _) Hq). by rewrite (host_pb_get_bind q (link b2 m)).
Qed.
End input.

Section example.
#[local] Existing Instance example_PbufAlloc.
#[local] Existing Instance example_FragPool.
#[local] Existing Instance example_ReassPool.
Abbreviation state := (@host (memp_state * Z) memp_state memp_state memp_state).
Definition no_raw (recv arg pcb p src : Z) : ST state Z := mret 0.
Definition no_udp (recv arg pcb p src sport : Z) : ST state unit := mret tt.
Definition no_tcp (p inp : Z) : ST state unit := mret tt.
Abbreviation input := (ip4_input (Link := example_driver) no_custom zeros 0 no_raw no_udp no_tcp 0x10000 0x300).

(** The datagram [d] has arrived at 10.0.0.1, whose control blocks are those of [h]. *)
Definition wire_host (h : state) (d : list Z) : state := with_ipl h (example_ip (example_frame d)).
Definition wire_pbuf (d : list Z) : pbuf := ram_pbuf 0x10000 0 (Z.of_nat (length d)).
Lemma wire_on (h : state) d : let s := example_frame d in 20 <= Z.of_nat (length d) < 65536 ->
  pbuf_alloc no_custom (memory_of d) PBUF_RAW (Z.of_nat (length d)) PBUF_RAM example_st0 = Ok (0x10000, s) ->
  pbufs s !! 0x10000 = Some (link (wire_pbuf d) []) -> indeg (PbufSole.without [0x10000] (pbufs s)) 0x10000 = 0 ->
  data s [(0x10000, wire_pbuf d)] = d -> bytes d ->
  (h_proto d = IP_PROTO_UDP -> h_hlen d + 4 <= Z.min (Z.of_nat (length d)) (h_len d)) ->
  on_wire (Link := example_driver) ∅ (wire_host h d) 0x300 0x10000 (wire_pbuf d) [] d.
Proof.
  intros s Hl Ea Hb Hi Hd Hby Hports.
  assert (Hq : queued (arp_table (low (ipl (wire_host h d)))) = ∅) by (by vm_compute).
  split; [apply example_link_ok, example_frame_refs; [unfold is_u16; lia|done]|apply gmultiset_not_elem_of_empty| | |apply Forall_singleton; simpl; lia|simpl; unfold IP_HLEN; lia|exact Hd
    |done|apply example_interfaces|by exists example_nif|done|done].
  - rewrite Hq. apply gmultiset_not_elem_of_empty.
  - rewrite Hq. split; [split; [done|]; split; [exact Hb|done]|]. split; [|intros x Hx; by apply elem_of_nil in Hx].
    intros x Hx%list_elem_of_singleton. subst x. exact Hi.
Qed.
Lemma wire_netifs (h : state) d : chain_at nif_next (netifs (low (ipl (wire_host h d)))) (netif_list (low (ipl (wire_host h d)))) [0x300].
Proof. split; [done|]. split; [done|]. by exists example_nif. Qed.
Ltac solve_wire :=
  apply wire_on; [vm_compute; split; congruence|vm_compute; reflexivity|vm_compute; reflexivity|by vm_compute|vm_compute; reflexivity
    |apply bytes_eval; vm_compute; reflexivity|vm_compute; congruence].

(** The ping of 10.0.0.2 with 18 bytes of padding. *)
Definition ping_frame : list Z := echo_hdr ++ echo_msg ++ replicate 18 0.
Lemma ping_on_wire : on_wire (Link := example_driver) ∅ (wire_host udp_host3 ping_frame) 0x300 0x10000 (wire_pbuf ping_frame) [] ping_frame.
Proof. solve_wire. Qed.
Lemma wire_quiet (h : state) d proto : raw_tab h = ∅ -> raw_pcbs h = 0 -> raw_quiet [] proto (wire_host h d).
Proof.
  intros Et Ep. split; [unfold on_list; simpl; by rewrite Ep|]. intros a x Hx. change (raw_tab (wire_host h d)) with (raw_tab h) in Hx. by rewrite Et in Hx.
Qed.
Lemma udp_host3_quiet : raw_tab udp_host3 = ∅ /\ raw_pcbs udp_host3 = 0.
Proof. vm_compute. by split. Qed.

(** How many frames there are in the end. *)
Definition sent_after (r : outcome (unit * state)) : nat := match r with Ok (_, st) => length (frames (low (ipl st))) | _ => 0 end.

(** A ping to 10.0.0.9. *)
Definition stray_frame : list Z := ip_header_of 0 28 1 0 64 1 0x0200000a 0x0900000a ++ echo_msg.
Lemma stray_on_wire : on_wire (Link := example_driver) ∅ (wire_host udp_host3 stray_frame) 0x300 0x10000 (wire_pbuf stray_frame) [] stray_frame.
Proof. solve_wire. Qed.
Lemma ip4_input_drops_witness : exists s c x, input (wire_host udp_host3 stray_frame) = Ok (tt, at_ip (wire_host udp_host3 stray_frame) s c x) /\
  link_ok (Link := example_driver) ∅ (with_pm (low (ipl (wire_host udp_host3 stray_frame))) s).
Proof.
  destruct (ip4_input_drops (Link := example_driver) no_custom zeros 0 no_raw no_udp no_tcp ∅ [0x300] (wire_host udp_host3 stray_frame) 0x300
    0x10000 (wire_pbuf stray_frame) [] stray_frame stray_on_wire (wire_netifs _ _)) as (s & c & x & Ei & Hst).
  - vm_compute. reflexivity.
  - exists s, c, x. split; [exact Ei|]. exact (fol_ok _ _ _ (proj1 Hst)).
Defined.

(** A datagram of protocol 99.  10.0.0.2 is told that nobody handles it. *)
Definition odd_frame : list Z := ip_header_of 0 28 1 0 64 99 0x0200000a 0x0100000a ++ echo_msg.
Lemma odd_on_wire : on_wire (Link := example_driver) ∅ (wire_host udp_host3 odd_frame) 0x300 0x10000 (wire_pbuf odd_frame) [] odd_frame.
Proof. solve_wire. Qed.
Lemma ip4_input_unknown_witness : exists i, input (wire_host udp_host3 odd_frame) = Ok (tt, with_ipl (wire_host udp_host3 odd_frame) i) /\
  waits (low i) 0x300 0x0200000a (ip_header_of 0 56 7 0 ICMP_TTL IP_PROTO_ICMP 0x0100000a 0x0200000a ++ icmp_error ICMP_DUR 2 odd_frame).
Proof.
  destruct (ip4_input_unknown (Link := example_driver) no_custom zeros 0 no_raw no_udp no_tcp ∅ [0x300] [] (wire_host udp_host3 odd_frame) 0x300 0x300 example_nif
    0x10000 (wire_pbuf odd_frame) [] odd_frame odd_on_wire (wire_netifs _ _)) as (i & Ei & _ & Hres).
  - vm_compute. reflexivity.
  - rewrite !not_elem_of_cons. split; [by vm_compute|]. split; [by vm_compute|]. split; [by vm_compute|]. apply not_elem_of_nil.
  - apply wire_quiet; apply udp_host3_quiet.
  - vm_compute. reflexivity.
  - done.
  - exists i. split; [exact Ei|]. change (_ || _) with false in Hres. destruct Hres as [[_ Hf]|Hr].
    + assert (Hs : sent_after (input (wire_host udp_host3 odd_frame)) = 1%nat) by (by vm_compute). rewrite Ei in Hs. simpl in Hs. by rewrite Hf in Hs.
    + assert (Eq : quote (take (Z.to_nat (h_len odd_frame)) odd_frame) = odd_frame) by (vm_compute; reflexivity). rewrite Eq in Hr.
      exact (proj2 (example_responds _ _ _ _ _ _ Hr)).
Defined.

(** The application of port 53 wants to be told; 10.0.0.2 sends it four bytes. *)
Definition udp_host4 : state := match udp_recv 0x1020 7 8 udp_host3 with Ok (_, st) => st | _ => udp_host3 end.
Lemma udp_host4_inv : udp_inv [0x1020] udp_host4.
Proof.
  assert (Hr : rtc udp_step udp_host0 udp_host4).
  { eapply rtc_r; [exact udp_host3_reached|]. exists (URecv 0x1020 7 8), 0. split; [right; vm_compute; by eexists|vm_compute; reflexivity]. }
  destruct (udp_reach _ _ udp_host0_start Hr) as [l H]. assert (Hl : on_list (A := udp_pcb) [0x1020] udp_host4).
  { vm_compute. split; [done|]. split; [done|]. by eexists. }
  assert (El : l = [0x1020]) by exact (chain_at_det _ _ _ _ _ (ui_list _ _ H) Hl). by subst l.
Qed.
Definition udp_frame : list Z := ip_header_of 0 32 1 0 64 17 0x0200000a 0x0100000a ++ udp_datagram 0x0200000a 0x0100000a 1000 53 [1; 2; 3; 4].
Lemma udp_on_wire : on_wire (Link := example_driver) ∅ (wire_host udp_host4 udp_frame) 0x300 0x10000 (wire_pbuf udp_frame) [] udp_frame.
Proof. solve_wire. Qed.
Lemma ip4_input_udp_witness : exists st', input (wire_host udp_host4 udp_frame) =
    (no_udp 7 8 0x1020 0x10000 0x0200000a 1000 ≫= fun _ => set_ip_data ip_data_none) st' /\
  exists b l, packet (pbufs (pm (low (ipl st')))) ((0x10000, b) :: l) /\ data (pm (low (ipl st'))) ((0x10000, b) :: l) = [1; 2; 3; 4].
Proof.
  assert (Hi : udp_inv [0x1020] (wire_host udp_host4 udp_frame)) by (by destruct udp_host4_inv).
  pose proof (ip4_input_udp (Link := example_driver) no_custom zeros 0 no_raw no_udp no_tcp ∅ [0x300] [] [0x1020] (wire_host udp_host4 udp_frame) 0x300 example_nif 0x300 example_nif
    0x10000 (wire_pbuf udp_frame) [] udp_frame udp_on_wire (wire_netifs _ _) ltac:(vm_compute; reflexivity) ltac:(by vm_compute)
    ltac:(apply wire_quiet; vm_compute; reflexivity) Hi ltac:(vm_compute; reflexivity) eq_refl eq_refl) as X.
  assert (Ej : exists x, up_recv x = 7 /\ up_recv_arg x = 8 /\ judge (ip_udp_route example_nif example_nif udp_frame) (udp_tab (wire_host udp_host4 udp_frame)) [0x1020]
    (Z.min (len (wire_pbuf udp_frame)) (h_len udp_frame) - h_hlen udp_frame) (ip_payload udp_frame) = UGive 0x1020 x) by (eexists; vm_compute; by repeat split).
  destruct Ej as (x & E7 & E8 & Ej). rewrite Ej in X. destruct X as (st' & Ei & _ & _ & _ & _ & b & l & Hp & Hd). rewrite E7, E8 in Ei.
  exists st'. split; [exact Ei|]. exists b, l. split; [exact Hp|]. rewrite Hd. vm_compute. reflexivity.
Defined.

(** The first fragment of a datagram. *)
Definition fragment_frame : list Z := frag1_hdr ++ frag1_data.
Lemma fragment_on_wire : on_wire (Link := example_driver) (held (all_frags []) ⊎ ∅) (wire_host udp_host3 fragment_frame) 0x300 0x10000 (wire_pbuf fragment_frame) [] fragment_frame.
Proof. change (held (all_frags [])) with (∅ : gmultiset Z). rewrite (left_id_L ∅ (⊎)). solve_wire. Qed.
Lemma ip4_input_fragment_witness : exists st' ds', input (wire_host udp_host3 fragment_frame) = Ok (tt, st') /\
  reass_ok (Link := example_driver) ∅ (ipl st') ds' /\ pt_pieces <$> view frag1_hdr ds' = Some [(0, frag1_data)].
Proof.
  destruct (ip4_input_fragment (Link := example_driver) no_custom zeros 0 no_raw no_udp no_tcp ∅ [0x300] (wire_host udp_host3 fragment_frame) [] 0x300 0x300
    0x10000 (wire_pbuf fragment_frame) [] fragment_frame fragment_on_wire (wire_netifs _ _)) as (q & st' & ds' & Hv & _ & Hh & _ & Hres).
  - vm_compute. reflexivity.
  - exact (ar_ok _ _ _ _ _ _ _ _ frag_arrives).
  - vm_compute. reflexivity.
  - vm_compute. by split.
  - apply Forall_singleton. vm_compute. discriminate.
  - vm_compute. reflexivity.
  - vm_compute. discriminate.
  - right. vm_compute. lia.
  - assert (Ea : accept (take 20 fragment_frame) (drop 20 (take (Z.to_nat (h_len fragment_frame)) fragment_frame)) (view (take 20 fragment_frame) [])
      = (Some (extended frag1_hdr (0, frag1_data) (fresh frag1_hdr)), None)) by (vm_compute; reflexivity).
    rewrite Ea in Hv, Hh, Hres. destruct Hh as [_ Hok]. exists st', ds'. split; [exact Hres|]. split; [exact Hok|].
    change (take 20 fragment_frame) with frag1_hdr in Hv. rewrite Hv. reflexivity.
Defined.
End example.
