(* ===== verification/Rust.v ===== *)
(** * Rust code of the kernel: arithmetic, memory and locks

    What the modules of src/kernel/utilities share: [usize] arithmetic, blocks of memory got
    from [malloc], copies between byte arrays, and the spinlock of
    utilities/spinlock.rs as its sequential clients see it.  An
    operation whose result does not fit its type panics, as it does in a
    build with overflow checks; where a theorem shows that an operation returns,
    builds without them therefore compute the same. *)

From S2P Require Import Prelude Mem.

Set Default Proof Using "Type".

(** ** [usize] *)

Definition usize_MAX : Z := 18446744073709551615.
Definition is_usize (z : Z) : Prop := 0 <= z <= usize_MAX.

Definition uadd (a b : Z) : outcome Z := if a + b <=? usize_MAX then Ok (a + b) else Panic.
Definition usub (a b : Z) : outcome Z := if b <=? a then Ok (a - b) else Panic.
Definition umul (a b : Z) : outcome Z := if a * b <=? usize_MAX then Ok (a * b) else Panic.
Definition udiv (a b : Z) : outcome Z := if b =? 0 then Panic else Ok (a / b).
Definition urem (a b : Z) : outcome Z := if b =? 0 then Panic else Ok (a mod b).

Lemma uadd_ok a b : a + b <= usize_MAX -> uadd a b = Ok (a + b).
Proof. unfold uadd. intros. by replace (_ <=? _) with true by lia. Qed.
Lemma usub_ok a b : b <= a -> usub a b = Ok (a - b).
Proof. unfold usub. intros. by replace (_ <=? _) with true by lia. Qed.
Lemma umul_ok a b : a * b <= usize_MAX -> umul a b = Ok (a * b).
Proof. unfold umul. intros. by replace (_ <=? _) with true by lia. Qed.
Lemma udiv_ok a b : b <> 0 -> udiv a b = Ok (a / b).
Proof. unfold udiv. intros. by replace (_ =? _) with false by lia. Qed.
Lemma urem_ok a b : b <> 0 -> urem a b = Ok (a mod b).
Proof. unfold urem. intros. by replace (_ =? _) with false by lia. Qed.

(** ** [i32] *)

Definition is_i32 (z : Z) : bool := (-2147483648 <=? z) && (z <=? 2147483647).
Definition iadd (a b : Z) : outcome Z := if is_i32 (a + b) then Ok (a + b) else Panic.
Definition isub (a b : Z) : outcome Z := if is_i32 (a - b) then Ok (a - b) else Panic.

Lemma iadd_ok a b : is_i32 (a + b) = true -> iadd a b = Ok (a + b).
Proof. unfold iadd. by intros ->. Qed.
Lemma isub_ok a b : is_i32 (a - b) = true -> isub a b = Ok (a - b).
Proof. unfold isub. by intros ->. Qed.

Lemma lift_bind {S A B} (m : outcome A) (f : A -> ST S B) s a : m = Ok a -> (lift m ≫= f) s = f a s.
Proof. by intros ->. Qed.

(** ** Copying bytes *)

(** [memcpy(dst + d, src + s, n)] between two arrays. *)
Definition memcpy (dst : list Z) (d : Z) (src : list Z) (s n : Z) : outcome (list Z) :=
  if (0 <=? d) && (0 <=? s) && (0 <=? n) && (d + n <=? Z.of_nat (length dst)) && (s + n <=? Z.of_nat (length src))
  then Ok (take (Z.to_nat d) dst ++ take (Z.to_nat n) (drop (Z.to_nat s) src) ++ drop (Z.to_nat (d + n)) dst)
  else Fault.

Lemma memcpy_ok dst d src s n :
  0 <= d -> 0 <= s -> 0 <= n -> d + n <= Z.of_nat (length dst) -> s + n <= Z.of_nat (length src) ->
  exists dst', memcpy dst d src s n = Ok dst' /\ length dst' = length dst /\
    forall i, dst' !! i = if decide (Z.to_nat d <= i < Z.to_nat (d + n))%nat
                          then src !! (Z.to_nat s + (i - Z.to_nat d))%nat else dst !! i.
Proof.
  intros. unfold memcpy. replace (_ && _) with true by lia. eexists. split; [done|]. split.
  { rewrite !length_app, !length_take, !length_drop. lia. }
  intros i. case_decide.
  - rewrite lookup_app_r, length_take, lookup_app_l by (rewrite ?length_take, ?length_drop; lia).
    rewrite lookup_take_lt, lookup_drop by lia. f_equal. lia.
  - destruct (decide (i < Z.to_nat d)%nat).
    + rewrite lookup_app_l by (rewrite length_take; lia). by rewrite lookup_take_lt by lia.
    + rewrite !lookup_app_r by (rewrite ?length_take, ?length_drop; lia).
      rewrite !length_take, !length_drop, lookup_drop. f_equal. lia.
Qed.

(** ** Blocks of memory *)

(** The blocks of type [B] a module has allocated, by address, and the heap. *)
Record memory (B H : Type) := mkMemory { blocks : gmap Z B; heap : H }.
Arguments mkMemory {B H} _ _.
Arguments blocks {B H} _.
Arguments heap {B H} _.

Section memory.
Context {B H : Type} `{!Heap H}.

Definition with_block (m : memory B H) (p : Z) (b : B) : memory B H := mkMemory (<[p := b]> (blocks m)) (heap m).

(** [malloc] of a block with contents [init p]. *)
Definition kmalloc (init : Z -> B) (size : Z) : ST (memory B H) Z := fun m =>
  let '(p, h) := malloc size (heap m) in
  if p =? 0 then Ok (0, mkMemory (blocks m) h) else Ok (p, mkMemory (<[p := init p]> (blocks m)) h).

(** [free]: releasing a block that is not allocated is a fault. *)
Definition kfree (p : Z) : ST (memory B H) unit := fun m =>
  if p =? 0 then Ok (tt, m)
  else match blocks m !! p with
       | Some _ => Ok (tt, mkMemory (delete p (blocks m)) (free p (heap m)))
       | None => Fault
       end.

(** Dereferencing a pointer, and assigning through it. *)
Definition kload (p : Z) : ST (memory B H) B := fun m =>
  match blocks m !! p with Some b => Ok (b, m) | None => Fault end.
Definition kstore (p : Z) (f : B -> B) : ST (memory B H) unit := fun m =>
  match blocks m !! p with Some b => Ok (tt, with_block m p (f b)) | None => Fault end.

(** The blocks are allocated; others may have blocks of their own. *)
Definition memory_ok (m : memory B H) : Prop :=
  blocks m !! 0 = None /\ exists A, heap_ok A (heap m) /\ forall p, is_Some (blocks m !! p) -> p ∈ A.

Lemma kload_ok m p b : blocks m !! p = Some b -> kload p m = Ok (b, m).
Proof. unfold kload. by intros ->. Qed.
Lemma kstore_ok m p b f : blocks m !! p = Some b -> kstore p f m = Ok (tt, with_block m p (f b)).
Proof. unfold kstore. by intros ->. Qed.

Lemma kmalloc_block init size m : memory_ok m ->
  exists p m', kmalloc init size m = Ok (p, m') /\ memory_ok m' /\
    ((p = 0 /\ blocks m' = blocks m) \/ (0 < p /\ blocks m !! p = None /\ blocks m' = <[p := init p]> (blocks m))).
Proof.
  intros (H0 & A & HA & Hin). unfold kmalloc. pose proof (malloc_law A (heap m) size HA) as Hl.
  destruct (malloc size (heap m)) as [p h]. destruct Hl as [[-> Hok]|(Hp & _ & Hnew & Hok)].
  - exists 0, (mkMemory (blocks m) h). split; [done|]. split; [by split; [|exists A]|by left].
  - replace (p =? 0) with false by lia. eexists p, _. split; [done|].
    assert (blocks m !! p = None) by (destruct (blocks m !! p) eqn:Hb; [by destruct Hnew; apply Hin|done]).
    split; [|by right]. split; simpl; [by rewrite lookup_insert_ne by lia|]. eexists. split; [done|].
    intros q. rewrite lookup_insert_is_Some. intros [<-|[_ Hq]]; [set_solver|]. set_solver.
Qed.

Lemma kfree_ok p b m : memory_ok m -> blocks m !! p = Some b ->
  exists m', kfree p m = Ok (tt, m') /\ memory_ok m' /\ blocks m' = delete p (blocks m).
Proof.
  intros (H0 & A & HA & Hin) Hb. unfold kfree. destruct (Z.eqb_spec p 0) as [->|_]; [congruence|].
  rewrite Hb. eexists. split; [done|]. split; [|done]. split; simpl.
  { rewrite lookup_delete_None. by right. }
  exists (A ∖ {[p]}). split; [apply free_law; [done|]; by apply Hin; exists b|].
  intros q. rewrite lookup_delete_is_Some. intros [? ?%Hin]. set_solver.
Qed.

Lemma memory_ok_store m p b : memory_ok m -> is_Some (blocks m !! p) -> memory_ok (with_block m p b).
Proof.
  intros (H0 & A & HA & Hin) Hp. split; simpl.
  - destruct (decide (p = 0)) as [->|]; [by rewrite H0 in Hp; destruct Hp|by rewrite lookup_insert_ne].
  - exists A. split; [done|]. intros q. rewrite lookup_insert_is_Some. intros [<-|[_ ?]]; by apply Hin.
Qed.

End memory.

(** ** The spinlock, without other threads

    [acquire] of a lock that is held spins for ever when nobody else runs. *)
Definition spinlockAcquire (flag : bool) : outcome bool := if flag then Diverge else Ok true.
Definition spinlockRelease (flag : bool) : outcome bool := Ok false.
