(* ===== verification/Circular.v ===== *)
(** * Circular buffers (utilities/data_structures/circular.rs)

    [Circular] is protected by a lock: its operations are modelled as functions on the
    structure and the memory, and refine a bounded queue of bytes.  [CircularInt]
    is written by an interrupt handler without a lock while tasks read it: reader and writer are
    state machines that interleave at every access to shared memory, and every
    run delivers the bytes written, in order, each once. *)

From S2P Require Import Prelude Mem Rust.

Set Default Proof Using "Type".

(** ** Macros *)

Definition MIN (a b : Z) : Z := if a <? b then a else b.
Definition CIRC_READABLE (write read size : Z) : outcome Z :=
  if read <=? write then usub write read else d ← usub read write; usub size d.
Definition CIRC_WRITABLE (write read size : Z) : outcome Z :=
  r ← CIRC_READABLE write read size; d ← usub size r; usub d 1.

(** ** The locked buffer *)

Record Circular := {
  buff : Z;
  buffSize : Z;
  readPtr : Z;
  writePtr : Z;
  LOCK_CIRC : bool
}.

Definition with_readPtr (c : Circular) (r : Z) : Circular :=
  {| buff := buff c; buffSize := buffSize c; readPtr := r; writePtr := writePtr c; LOCK_CIRC := LOCK_CIRC c |}.
Definition with_writePtr (c : Circular) (w : Z) : Circular :=
  {| buff := buff c; buffSize := buffSize c; readPtr := readPtr c; writePtr := w; LOCK_CIRC := LOCK_CIRC c |}.
Definition with_LOCK_CIRC (c : Circular) (b : bool) : Circular :=
  {| buff := buff c; buffSize := buffSize c; readPtr := readPtr c; writePtr := writePtr c; LOCK_CIRC := b |}.

Section circular.
Context {H : Type} `{!Heap H}.
(** What a new block contains. *)
Context (fresh : Z -> Z -> list Z).

(** The structure at [circ] and the blocks of bytes. *)
Definition cstate : Type := Circular * memory (list Z) H.
Local Abbreviation C := (ST cstate).

Definition circ_get : C Circular := fun s => Ok (s.1, s).
Definition circ_put (c : Circular) : C unit := fun s => Ok (tt, (c, s.2)).
Definition on_memory {A} (m : ST (memory (list Z) H) A) : C A := fun s =>
  '(a, m') ← m s.2; Ok (a, (s.1, m')).
Definition lock_circ : C unit := c ← circ_get; b ← lift (spinlockAcquire (LOCK_CIRC c)); circ_put (with_LOCK_CIRC c b).
Definition unlock_circ : C unit := c ← circ_get; b ← lift (spinlockRelease (LOCK_CIRC c)); circ_put (with_LOCK_CIRC c b).

Definition CircularAllocate (size : Z) : C unit :=
  p ← on_memory (kmalloc (fresh size) size);
  circ_put {| buff := p; buffSize := size; readPtr := 0; writePtr := 0; LOCK_CIRC := false |}.

(** [out] is the caller's array at [buff]; it is returned as the call leaves it. *)
Definition CircularRead (out : list Z) (length : Z) : C (Z * list Z) :=
  _ ← sassert (negb (length =? 0));
  _ ← lock_circ;
  c ← circ_get;
  let write := writePtr c in
  let read := readPtr c in
  if write =? read then _ ← unlock_circ; mret (0, out)
  else
    readable ← lift (CIRC_READABLE write read (buffSize c));
    let toCopy := MIN readable length in
    room ← lift (usub (buffSize c) read);
    let first := MIN toCopy room in
    src ← on_memory (kload (buff c));
    out ← lift (memcpy out 0 src read first);
    second ← lift (usub toCopy first);
    out ← lift (if negb (second =? 0) then memcpy out first src 0 second else Ok out);
    sum ← lift (uadd read toCopy);
    r ← lift (urem sum (buffSize c));
    _ ← circ_put (with_readPtr c r);
    _ ← sassert (0 <? toCopy);
    _ ← unlock_circ;
    mret (toCopy, out).

Definition CircularReadPoll : C Z :=
  _ ← lock_circ;
  c ← circ_get;
  ret ← lift (CIRC_READABLE (writePtr c) (readPtr c) (buffSize c));
  _ ← unlock_circ;
  mret ret.

Definition CircularWritePoll : C Z :=
  _ ← lock_circ;
  c ← circ_get;
  ret ← lift (CIRC_WRITABLE (writePtr c) (readPtr c) (buffSize c));
  _ ← unlock_circ;
  mret ret.

Definition CircularWrite (src : list Z) (length : Z) : C Z :=
  _ ← sassert (negb (length =? 0));
  _ ← lock_circ;
  c ← circ_get;
  let write := writePtr c in
  let read := readPtr c in
  writable ← lift (CIRC_WRITABLE write read (buffSize c));
  if writable <? length then _ ← unlock_circ; mret 0
  else
    room ← lift (usub (buffSize c) write);
    let first := MIN length room in
    dst ← on_memory (kload (buff c));
    dst ← lift (memcpy dst write src 0 first);
    second ← lift (usub length first);
    dst ← lift (if negb (second =? 0) then memcpy dst 0 src first second else Ok dst);
    _ ← on_memory (kstore (buff c) (fun _ => dst));
    sum ← lift (uadd write length);
    w ← lift (urem sum (buffSize c));
    _ ← circ_put (with_writePtr c w);
    _ ← unlock_circ;
    mret length.

Definition CircularFree : C unit :=
  _ ← lock_circ;
  c ← circ_get;
  on_memory (kfree (buff c)).

End circular.

(** ** The buffer written by interrupts

    [shared] is the structure and the bytes of its buffer. *)
Record shared := {
  ci_buff : list Z;
  ci_size : Z;
  ci_readPtr : Z;
  ci_writePtr : Z;
  LOCK_READ : bool
}.

Definition set_buff (s : shared) (b : list Z) : shared :=
  {| ci_buff := b; ci_size := ci_size s; ci_readPtr := ci_readPtr s; ci_writePtr := ci_writePtr s; LOCK_READ := LOCK_READ s |}.
Definition set_read (s : shared) (r : Z) : shared :=
  {| ci_buff := ci_buff s; ci_size := ci_size s; ci_readPtr := r; ci_writePtr := ci_writePtr s; LOCK_READ := LOCK_READ s |}.
Definition set_write (s : shared) (w : Z) : shared :=
  {| ci_buff := ci_buff s; ci_size := ci_size s; ci_readPtr := ci_readPtr s; ci_writePtr := w; LOCK_READ := LOCK_READ s |}.
Definition set_lock (s : shared) (b : bool) : shared :=
  {| ci_buff := ci_buff s; ci_size := ci_size s; ci_readPtr := ci_readPtr s; ci_writePtr := ci_writePtr s; LOCK_READ := b |}.

(** A task in [CircularIntRead(circ, out, length)] or [CircularIntReadPoll(circ)]: where it
    is and its local variables.  [R_lock] is the entry of the function, and every other
    constructor the point before one access to shared memory. *)
Inductive reader :=
| R_idle
| R_lock (out : list Z) (length : Z)
| R_write (out : list Z) (length : Z)
| R_read (out : list Z) (length write : Z)
| R_copy (out : list Z) (toCopy i read : Z)
| R_publish (out : list Z) (toCopy read : Z)
| R_release (out : list Z) (ret : Z)
| R_done (out : list Z) (ret : Z)
| P_lock
| P_write
| P_read (write : Z)
| P_release (ret : Z)
| P_done (ret : Z).

(** One step of a reader; a task that finds the lock taken tries again. *)
Definition reader_step (r : reader) (s : shared) : outcome (reader * shared) :=
  match r with
  | R_idle => Ok (R_idle, s)
  | R_lock out length =>
      _ ← assert_that (negb (length =? 0));
      if LOCK_READ s then Ok (r, s) else Ok (R_write out length, set_lock s true)
  | R_write out length => Ok (R_read out length (ci_writePtr s), s)
  | R_read out length write =>
      let read := ci_readPtr s in
      if write =? read then Ok (R_release out 0, s)
      else
        readable ← CIRC_READABLE write read (ci_size s);
        Ok (R_copy out (MIN readable length) 0 read, s)
  | R_copy out toCopy i read =>
      if i <? toCopy then
        b ← load (ci_buff s) (Z.to_nat read);
        out ← store out (Z.to_nat i) b;
        sum ← uadd read 1;
        read ← urem sum (ci_size s);
        Ok (R_copy out toCopy (i + 1) read, s)
      else
        _ ← assert_that (0 <? toCopy);
        Ok (R_publish out toCopy read, s)
  | R_publish out toCopy read => Ok (R_release out toCopy, set_read s read)
  | R_release out ret => Ok (R_done out ret, set_lock s false)
  | R_done out ret => Ok (R_idle, s)
  | P_lock => if LOCK_READ s then Ok (r, s) else Ok (P_write, set_lock s true)
  | P_write => Ok (P_read (ci_writePtr s), s)
  | P_read write =>
      ret ← CIRC_READABLE write (ci_readPtr s) (ci_size s);
      Ok (P_release ret, s)
  | P_release ret => Ok (P_done ret, set_lock s false)
  | P_done ret => Ok (R_idle, s)
  end.

(** The interrupt handler in [CircularIntWrite(circ, src, length)]. *)
Inductive writer :=
| W_idle
| W_start (src : list Z) (length : Z)
| W_read (src : list Z) (length write : Z)
| W_copy (src : list Z) (length i write : Z)
| W_publish (src : list Z) (length write : Z)
| W_done (ret : Z).

Definition writer_step (checkInterrupts : bool) (w : writer) (s : shared) : outcome (writer * shared) :=
  match w with
  | W_idle => Ok (W_idle, s)
  | W_start src length =>
      _ ← assert_that (negb checkInterrupts);
      _ ← assert_that (negb (length =? 0));
      Ok (W_read src length (ci_writePtr s), s)
  | W_read src length write =>
      writable ← CIRC_WRITABLE write (ci_readPtr s) (ci_size s);
      if writable <? length then Ok (W_done 0, s) else Ok (W_copy src length 0 write, s)
  | W_copy src length i write =>
      if i <? length then
        b ← load src (Z.to_nat i);
        buff ← store (ci_buff s) (Z.to_nat write) b;
        sum ← uadd write 1;
        write ← urem sum (ci_size s);
        Ok (W_copy src length (i + 1) write, set_buff s buff)
      else Ok (W_publish src length write, s)
  | W_publish src length write => Ok (W_done length, set_write s write)
  | W_done ret => Ok (W_idle, s)
  end.

(** [CircularIntAllocate], with the block [malloc] returned. *)
Definition CircularIntAllocate (block : list Z) (size : Z) : shared :=
  {| ci_buff := block; ci_size := size; ci_readPtr := 0; ci_writePtr := 0; LOCK_READ := false |}.

(** ** The bytes in a ring *)

(** The [size] cells hold the queue [q] from index [r] on, wrapping around; [w] is
    the index behind it.  One cell always stays unused. *)
Record ring (size : Z) (cells : list Z) (r w : Z) (q : list Z) : Prop := {
  ring_size : Z.of_nat (length cells) = size;
  ring_small : 2 * size <= usize_MAX;
  ring_r : 0 <= r < size;
  ring_w : w = (r + Z.of_nat (length q)) mod size;
  ring_len : Z.of_nat (length q) < size;
  ring_cell : forall i x, q !! i = Some x -> cells !! Z.to_nat ((r + Z.of_nat i) mod size) = Some x
}.

Lemma wrap size r i : 0 <= r < size -> 0 <= i < size ->
  (r + i) mod size = if r + i <? size then r + i else r + i - size.
Proof.
  intros. destruct (Z.ltb_spec (r + i) size).
  - apply Z.mod_small. lia.
  - symmetry. apply Zmod_unique with 1; lia.
Qed.

(** Distinct offsets within the size are distinct cells. *)
Lemma wrap_ne size r i j : 0 <= r < size -> 0 <= i < size -> 0 <= j < size -> i <> j ->
  Z.to_nat ((r + i) mod size) <> Z.to_nat ((r + j) mod size).
Proof. intros. rewrite !wrap by done. destruct (_ <? _) eqn:?; destruct (r + j <? size) eqn:?; lia. Qed.

Lemma wrap_lt size r : 0 < size -> (Z.to_nat (r mod size) < Z.to_nat size)%nat.
Proof. intros Hs. pose proof (Z.mod_pos_bound r size Hs). lia. Qed.

Lemma ring_w_range size cells r w q : ring size cells r w q -> 0 <= w < size.
Proof. intros []. subst w. apply Z.mod_pos_bound. lia. Qed.

Lemma ring_readable size cells r w q : ring size cells r w q ->
  CIRC_READABLE w r size = Ok (Z.of_nat (length q)).
Proof.
  intros []. unfold CIRC_READABLE. rewrite wrap in ring_w0 by lia.
  destruct (_ <? _) eqn:? in ring_w0; destruct (Z.leb_spec r w).
  1, 3: rewrite ?usub_ok by lia; (f_equal; lia) || lia.
  - lia.
  - rewrite usub_ok by lia. unfold mbind, outcome_bind. rewrite usub_ok by lia. f_equal. lia.
Qed.

Lemma ring_writable size cells r w q : ring size cells r w q ->
  CIRC_WRITABLE w r size = Ok (size - 1 - Z.of_nat (length q)).
Proof.
  intros Hr. unfold CIRC_WRITABLE. rewrite (ring_readable _ _ _ _ _ Hr). destruct Hr.
  unfold mbind, outcome_bind. rewrite usub_ok by lia. rewrite usub_ok by lia. f_equal. lia.
Qed.

(** The pointers are equal exactly when the queue is empty. *)
Lemma ring_empty size cells r w q : ring size cells r w q -> (w =? r) = true <-> q = [].
Proof.
  intros []. rewrite wrap in ring_w0 by lia. destruct (_ <? _) eqn:? in ring_w0;
  (destruct q; simpl in *; split; intros; [done|lia| |done]; lia).
Qed.

Lemma ring_nil size cells : Z.of_nat (length cells) = size -> 0 < size -> 2 * size <= usize_MAX ->
  ring size cells 0 0 [].
Proof. intros. by split. Qed.

(** Taking bytes from the front. *)
Lemma ring_drop size cells r w q n : ring size cells r w q -> (n <= length q)%nat ->
  ring size cells ((r + Z.of_nat n) mod size) w (drop n q).
Proof.
  intros [] Hn. split; rewrite ?length_drop; try done.
  - apply Z.mod_pos_bound. lia.
  - rewrite Z.add_mod_idemp_l by lia. rewrite ring_w0. f_equal. lia.
  - lia.
  - intros i x. rewrite lookup_drop. intros Hx%ring_cell0. rewrite Z.add_mod_idemp_l by lia.
    rewrite <-Hx. do 3 f_equal. lia.
Qed.

(** Bytes stored behind the queue, once the index moves, extend it. *)
Lemma ring_app size cells cells' r w q l : ring size cells r w q ->
  Z.of_nat (length q + length l) < size -> length cells' = length cells ->
  (forall i, (i < length q)%nat -> cells' !! Z.to_nat ((r + Z.of_nat i) mod size) = cells !! Z.to_nat ((r + Z.of_nat i) mod size)) ->
  (forall i x, l !! i = Some x -> cells' !! Z.to_nat ((w + Z.of_nat i) mod size) = Some x) ->
  ring size cells' r ((w + Z.of_nat (length l)) mod size) (q ++ l).
Proof.
  intros [] Hlen Hcells Hold Hnew. split; rewrite ?length_app; try done; try lia.
  - rewrite ring_w0, Z.add_mod_idemp_l by lia. f_equal. lia.
  - intros i x Hx. destruct (decide (i < length q)%nat).
    + rewrite Hold by done. apply ring_cell0. by rewrite lookup_app_l in Hx by lia.
    + rewrite lookup_app_r in Hx by lia. apply Hnew in Hx. rewrite ring_w0, Z.add_mod_idemp_l in Hx by lia.
      rewrite <-Hx. do 3 f_equal. lia.
Qed.

(** Cells that are not in the queue may change. *)
Lemma ring_store size cells r w q k x : ring size cells r w q -> Z.of_nat (length q) <= k < size ->
  ring size (<[Z.to_nat ((r + k) mod size) := x]> cells) r w q.
Proof.
  intros [] Hk. split; rewrite ?length_insert; try done. intros i y Hy.
  pose proof (lookup_lt_Some _ _ _ Hy). rewrite list_lookup_insert_ne by (apply wrap_ne; lia). by apply ring_cell0.
Qed.

(** ** The locked buffer is a bounded queue *)

Section circular_proofs.
Context {H : Type} `{!Heap H}.
Local Abbreviation cst := (cstate (H := H)).

(** The buffer of [size] cells holds [q] and nobody has the lock. *)
Definition circ_ok (size : Z) (s : cst) (q : list Z) : Prop :=
  memory_ok s.2 /\ LOCK_CIRC s.1 = false /\ buffSize s.1 = size /\
  exists cells, blocks s.2 !! buff s.1 = Some cells /\ ring size cells (readPtr s.1) (writePtr s.1) q.

Lemma lock_circ_ok c (m : memory (list Z) H) : LOCK_CIRC c = false -> lock_circ (c, m) = Ok (tt, (with_LOCK_CIRC c true, m)).
Proof. destruct c. simpl. by intros ->. Qed.

Lemma on_memory_ok {A} (f : ST (memory (list Z) H) A) c m a m' : f m = Ok (a, m') -> on_memory f (c, m) = Ok (a, (c, m')).
Proof. unfold on_memory. simpl. by intros ->. Qed.

(** Copying [k] bytes out of the ring in two pieces. *)
Lemma ring_copy_out size cells r w q out k : ring size cells r w q -> 0 < k <= Z.of_nat (length q) -> k <= Z.of_nat (length out) ->
  let first := MIN k (size - r) in
  exists out1, memcpy out 0 cells r first = Ok out1 /\
    (if negb (k - first =? 0) then memcpy out1 first cells 0 (k - first) else Ok out1) =
      Ok (take (Z.to_nat k) q ++ drop (Z.to_nat k) out).
Proof.
  intros Hr Hk Hout first. destruct Hr.
  destruct (memcpy_ok out 0 cells r first) as (out1 & E1 & Hl1 & Hi1); try lia; try (unfold first, MIN; destruct (_ <? _) eqn:?; lia).
  exists out1. split; [done|].
  assert (Hcase : forall out2, length out2 = length out ->
    (forall i, out2 !! i = if decide (i < Z.to_nat k)%nat then cells !! Z.to_nat ((r + Z.of_nat i) mod size) else out !! i) ->
    out2 = take (Z.to_nat k) q ++ drop (Z.to_nat k) out).
  { intros out2 Hl2 Hi2. apply list_eq. intros i. rewrite Hi2. case_decide.
    - rewrite lookup_app_l, lookup_take_lt by (rewrite ?length_take; lia).
      destruct (q !! i) eqn:Hq; [by apply ring_cell0|]. apply lookup_ge_None in Hq. lia.
    - rewrite lookup_app_r, lookup_drop by (rewrite length_take; lia). f_equal. rewrite length_take. lia. }
  destruct (Z.eqb_spec (k - first) 0) as [Hz|Hnz]; simpl.
  - f_equal. apply Hcase; [done|]. intros i. rewrite Hi1. unfold first, MIN in *.
    destruct (k <? size - r) eqn:?; repeat case_decide; try lia; try done; rewrite wrap by lia;
      replace (_ <? _) with true by lia; f_equal; lia.
  - assert (first = size - r /\ first < k) as [Hf ?] by (unfold first, MIN in *; destruct (_ <? _) eqn:?; lia).
    destruct (memcpy_ok out1 first cells 0 (k - first)) as (out2 & E2 & Hl2 & Hi2); try lia.
    rewrite E2. f_equal. apply Hcase; [lia|]. intros i. rewrite Hi2, Hi1.
    repeat case_decide; try lia; try done; rewrite wrap by lia.
    + replace (_ <? _) with false by lia. f_equal. lia.
    + replace (_ <? _) with true by lia. f_equal. lia.
Qed.

Lemma CircularRead_spec size s q out n : circ_ok size s q -> 0 < n <= Z.of_nat (length out) ->
  let k := Z.min n (Z.of_nat (length q)) in
  exists s', CircularRead out n s = Ok ((k, take (Z.to_nat k) q ++ drop (Z.to_nat k) out), s') /\
    circ_ok size s' (drop (Z.to_nat k) q).
Proof.
  destruct s as [c m]. intros (Hm & Hlock & Hsz & cells & Hb & Hr) Hn k. simpl in *.
  unfold CircularRead. rewrite sassert_bind by lia. rewrite (st_bind_ok _ _ _ _ _ (lock_circ_ok c m Hlock)).
  rewrite (st_bind_ok circ_get _ _ (with_LOCK_CIRC c true) (with_LOCK_CIRC c true, m)) by done.
  cbn [with_LOCK_CIRC writePtr readPtr buffSize buff].
  pose proof (ring_empty _ _ _ _ _ Hr) as Hempty. destruct (writePtr c =? readPtr c).
  { assert (q = []) as -> by tauto. replace k with 0 by (unfold k; cbn [length]; lia).
    eexists. split; [done|]. split; [done|]. split; [done|]. split; [done|]. by exists cells. }
  assert (q <> []) as Hne by naive_solver. clear Hempty.
  assert (0 < Z.of_nat (length q)) by (destruct q; [done|simpl; lia]). subst size.
  rewrite (lift_bind _ _ _ _ (ring_readable _ _ _ _ _ Hr)). cbn zeta.
  replace (MIN (Z.of_nat (length q)) n) with k by (subst k; unfold MIN; destruct (_ <? _) eqn:?; lia).
  pose proof Hr as []. rewrite (lift_bind _ _ _ _ (usub_ok (buffSize c) (readPtr c) ltac:(lia))).
  rewrite (st_bind_ok _ _ _ _ _ (on_memory_ok _ _ _ _ _ (kload_ok _ _ _ Hb))).
  destruct (ring_copy_out _ _ _ _ _ out k Hr) as (out1 & E1 & E2); [lia|lia|].
  rewrite (lift_bind _ _ _ _ E1).
  rewrite (lift_bind _ _ _ _ (usub_ok k (MIN k (buffSize c - readPtr c)) ltac:(unfold MIN; destruct (_ <? _) eqn:?; lia))).
  rewrite (lift_bind _ _ _ _ E2). rewrite (lift_bind _ _ _ _ (uadd_ok (readPtr c) k ltac:(lia))).
  rewrite (lift_bind _ _ _ _ (urem_ok (readPtr c + k) (buffSize c) ltac:(lia))).
  rewrite (st_bind_ok (circ_put _) _ _ tt _ eq_refl). rewrite sassert_bind by lia.
  eexists. split; [reflexivity|]. split; [done|]. split; [done|]. split; [done|]. exists cells. split; [done|].
  apply (ring_drop _ _ _ _ _ (Z.to_nat k)) in Hr; [|lia]. by rewrite Z2Nat.id in Hr by lia.
Qed.

(** Copying [l] into the ring in two pieces. *)
Lemma ring_copy_in size cells r w q src n : ring size cells r w q -> 0 < n -> Z.of_nat (length q) + n < size ->
  n <= Z.of_nat (length src) ->
  let first := MIN n (size - w) in
  exists cells1 cells2, memcpy cells w src 0 first = Ok cells1 /\
    (if negb (n - first =? 0) then memcpy cells1 0 src first (n - first) else Ok cells1) = Ok cells2 /\
    ring size cells2 r ((w + n) mod size) (q ++ take (Z.to_nat n) src).
Proof.
  intros Hr Hn Hq Hsrc first. pose proof (ring_w_range _ _ _ _ _ Hr). pose proof (ring_size _ _ _ _ _ Hr).
  destruct (memcpy_ok cells w src 0 first) as (cells1 & E1 & Hl1 & Hi1); try lia; try (unfold first, MIN; destruct (_ <? _) eqn:?; lia).
  exists cells1.
  assert (Hcase : forall cells2, length cells2 = length cells ->
    (forall i, 0 <= i < n -> cells2 !! Z.to_nat ((w + i) mod size) = src !! Z.to_nat i) ->
    (forall i, n <= i < size -> cells2 !! Z.to_nat ((w + i) mod size) = cells !! Z.to_nat ((w + i) mod size)) ->
    ring size cells2 r ((w + n) mod size) (q ++ take (Z.to_nat n) src)).
  { intros cells2 Hl2 Hnew Hold. replace n with (Z.of_nat (length (take (Z.to_nat n) src))) at 1 by (rewrite length_take; lia).
    eapply ring_app; [done|rewrite length_take; lia|done|..].
    - intros i Hi. destruct Hr. specialize (Hold (size - Z.of_nat (length q) + Z.of_nat i) ltac:(lia)).
      replace ((r + Z.of_nat i) mod size) with ((w + (size - Z.of_nat (length q) + Z.of_nat i)) mod size); [done|].
      rewrite ring_w0, Z.add_mod_idemp_l by lia.
      replace (r + Z.of_nat (length q) + (size - Z.of_nat (length q) + Z.of_nat i)) with (r + Z.of_nat i + 1 * size) by lia.
      by rewrite Z.mod_add by lia.
    - intros i x Hx. pose proof (lookup_lt_Some _ _ _ Hx) as Hlt. rewrite length_take in Hlt.
      rewrite lookup_take_lt in Hx by lia. rewrite Hnew by lia. by rewrite Nat2Z.id. }
  destruct (Z.eqb_spec (n - first) 0) as [Hz|Hnz]; simpl.
  - exists cells1. split; [done|]. split; [done|]. apply Hcase; [done|..]; intros i Hi; rewrite Hi1, wrap by lia;
      (unfold first, MIN in *; destruct (n <? size - w) eqn:?; destruct (w + i <? size) eqn:?; case_decide; try lia; try done; f_equal; lia).
  - assert (first = size - w /\ first < n) as [Hf ?] by (unfold first, MIN in *; destruct (_ <? _) eqn:?; lia).
    destruct (memcpy_ok cells1 0 src first (n - first)) as (cells2 & E2 & Hl2 & Hi2); try lia.
    exists cells2. split; [done|]. split; [done|]. apply Hcase; [lia|..]; intros i Hi; rewrite Hi2, Hi1, wrap by lia;
      (destruct (w + i <? size) eqn:?; repeat case_decide; try lia; try done; f_equal; lia).
Qed.

Lemma CircularWrite_spec size s q src n : circ_ok size s q -> 0 < n <= Z.of_nat (length src) ->
  exists s', circ_ok size s' (if size - 1 - Z.of_nat (length q) <? n then q else q ++ take (Z.to_nat n) src) /\
    CircularWrite src n s = Ok (if size - 1 - Z.of_nat (length q) <? n then 0 else n, s').
Proof.
  destruct s as [c m]. intros (Hm & Hlock & Hsz & cells & Hb & Hr) Hn. simpl in *. subst size.
  unfold CircularWrite. rewrite sassert_bind by lia. rewrite (st_bind_ok _ _ _ _ _ (lock_circ_ok c m Hlock)).
  rewrite (st_bind_ok circ_get _ _ (with_LOCK_CIRC c true) (with_LOCK_CIRC c true, m)) by done.
  cbn [with_LOCK_CIRC writePtr readPtr buffSize buff].
  rewrite (lift_bind _ _ _ _ (ring_writable _ _ _ _ _ Hr)).
  destruct (Z.ltb_spec (buffSize c - 1 - Z.of_nat (length q)) n).
  { eexists. split; [|reflexivity]. split; [done|]. split; [done|]. split; [done|]. by exists cells. }
  pose proof (ring_w_range _ _ _ _ _ Hr). pose proof (ring_small _ _ _ _ _ Hr). pose proof (ring_len _ _ _ _ _ Hr).
  rewrite (lift_bind _ _ _ _ (usub_ok (buffSize c) (writePtr c) ltac:(lia))).
  rewrite (st_bind_ok _ _ _ _ _ (on_memory_ok _ _ _ _ _ (kload_ok _ _ _ Hb))). cbn zeta.
  destruct (ring_copy_in _ _ _ _ _ src n Hr) as (cells1 & cells2 & E1 & E2 & Hr'); [lia..|].
  rewrite (lift_bind _ _ _ _ E1).
  rewrite (lift_bind _ _ _ _ (usub_ok n (MIN n (buffSize c - writePtr c)) ltac:(unfold MIN; destruct (_ <? _) eqn:?; lia))).
  rewrite (lift_bind _ _ _ _ E2).
  rewrite (st_bind_ok _ _ _ _ _ (on_memory_ok _ _ _ _ _ (kstore_ok _ _ _ (fun _ => cells2) Hb))).
  rewrite (lift_bind _ _ _ _ (uadd_ok (writePtr c) n ltac:(lia))).
  rewrite (lift_bind _ _ _ _ (urem_ok (writePtr c + n) (buffSize c) ltac:(lia))).
  eexists. split; [|reflexivity]. split; [by apply memory_ok_store|]. split; [done|]. split; [done|].
  exists cells2. split; [|done]. simpl. by rewrite lookup_insert_eq.
Qed.

Lemma CircularPoll_spec size s q : circ_ok size s q ->
  CircularReadPoll s = Ok (Z.of_nat (length q), s) /\ CircularWritePoll s = Ok (size - 1 - Z.of_nat (length q), s).
Proof.
  destruct s as [c m]. intros (Hm & Hlock & Hsz & cells & Hb & Hr). simpl in *. subst size.
  assert (Hc : with_LOCK_CIRC (with_LOCK_CIRC c true) false = c) by (destruct c; unfold with_LOCK_CIRC; simpl in *; by subst).
  unfold CircularReadPoll, CircularWritePoll. rewrite !(st_bind_ok _ _ _ _ _ (lock_circ_ok c m Hlock)).
  rewrite !(st_bind_ok circ_get _ _ (with_LOCK_CIRC c true) (with_LOCK_CIRC c true, m)) by done.
  cbn [with_LOCK_CIRC writePtr readPtr buffSize buff].
  rewrite (lift_bind _ _ _ _ (ring_writable _ _ _ _ _ Hr)), (lift_bind _ _ _ _ (ring_readable _ _ _ _ _ Hr)).
  split; unfold mbind, st_bind, unlock_circ; simpl; by rewrite Hc.
Qed.

(** A new buffer is empty, unless [malloc] failed. *)
Lemma CircularAllocate_spec fresh size c (m : memory (list Z) H) : memory_ok m -> 0 < size -> 2 * size <= usize_MAX ->
  (forall p, Z.of_nat (length (fresh size p)) = size) ->
  exists s', CircularAllocate fresh size (c, m) = Ok (tt, s') /\ (buff s'.1 <> 0 -> circ_ok size s' []).
Proof.
  intros Hm Hs Hs2 Hfresh. unfold CircularAllocate.
  destruct (kmalloc_block (fresh size) size m Hm) as (p & m' & E & Hm' & Hp).
  rewrite (st_bind_ok _ _ _ _ _ (on_memory_ok _ _ _ _ _ E)). eexists. split; [reflexivity|]. simpl.
  intros Hp0. destruct Hp as [[-> _]|(_ & _ & Hbl)]; [done|]. split; [done|]. split; [done|]. split; [done|].
  exists (fresh size p). simpl. split; [rewrite Hbl; by rewrite lookup_insert_eq|]. by apply ring_nil.
Qed.

(** *** Sequences of calls *)

Inductive circ_call :=
| c_read (out : list Z) (n : Z)
| c_write (src : list Z) (n : Z)
| c_read_poll
| c_write_poll.

(** What a call returns and leaves in the caller's array. *)
Definition circ_run (x : circ_call) : ST cst (Z * list Z) :=
  match x with
  | c_read out n => CircularRead out n
  | c_write src n => r ← CircularWrite src n; mret (r, src)
  | c_read_poll => r ← CircularReadPoll; mret (r, [])
  | c_write_poll => r ← CircularWritePoll; mret (r, [])
  end.

(** The same call on a queue of at most [size - 1] bytes: a read takes what is there, a
    write is done completely or not at all. *)
Definition queue_run (size : Z) (x : circ_call) (q : list Z) : (Z * list Z) * list Z :=
  match x with
  | c_read out n =>
      let k := Z.min n (Z.of_nat (length q)) in
      ((k, take (Z.to_nat k) q ++ drop (Z.to_nat k) out), drop (Z.to_nat k) q)
  | c_write src n =>
      if size - 1 - Z.of_nat (length q) <? n then ((0, src), q) else ((n, src), q ++ take (Z.to_nat n) src)
  | c_read_poll => ((Z.of_nat (length q), []), q)
  | c_write_poll => ((size - 1 - Z.of_nat (length q), []), q)
  end.

(** The caller's array has the bytes of the call. *)
Definition circ_call_ok (x : circ_call) : Prop :=
  match x with c_read b n | c_write b n => 0 < n <= Z.of_nat (length b) | _ => True end.

Fixpoint circ_runs (xs : list circ_call) : ST cst (list (Z * list Z)) :=
  match xs with
  | [] => mret []
  | x :: xs => r ← circ_run x; rs ← circ_runs xs; mret (r :: rs)
  end.
Fixpoint queue_runs (size : Z) (xs : list circ_call) (q : list Z) : list (Z * list Z) * list Z :=
  match xs with
  | [] => ([], q)
  | x :: xs => let (r, q) := queue_run size x q in let (rs, q) := queue_runs size xs q in (r :: rs, q)
  end.

Lemma circ_run_spec size x s q : circ_ok size s q -> circ_call_ok x ->
  exists s', circ_run x s = Ok ((queue_run size x q).1, s') /\ circ_ok size s' (queue_run size x q).2.
Proof.
  intros Hs Hx. destruct x as [out n|src n| |]; simpl in *.
  - by apply CircularRead_spec.
  - destruct (CircularWrite_spec _ _ _ _ _ Hs Hx) as (s' & Hs' & E). exists s'.
    rewrite (st_bind_ok _ _ _ _ _ E). by destruct (_ <? _).
  - exists s. by rewrite (st_bind_ok _ _ _ _ _ (proj1 (CircularPoll_spec _ _ _ Hs))).
  - exists s. by rewrite (st_bind_ok _ _ _ _ _ (proj2 (CircularPoll_spec _ _ _ Hs))).
Qed.

(** C30. The locked circular buffer refines a bounded queue of bytes.  From a
    state in which the buffer of [size] cells holds [q], any sequence of calls of
    [CircularRead], [CircularWrite] and the two polls returns: no assertion fails, no access
    is out of bounds, no index computation overflows and no lock is left taken.  The results and
    the bytes delivered are those of a queue with [size - 1] places, and the buffer
    holds that queue in the end. *)
Theorem circular_refines_queue size xs s q : circ_ok size s q -> Forall circ_call_ok xs ->
  exists s', circ_runs xs s = Ok ((queue_runs size xs q).1, s') /\ circ_ok size s' (queue_runs size xs q).2.
Proof.
  revert s q. induction xs as [|x xs IH]; intros s q Hs Hxs; simpl.
  { by exists s. }
  apply Forall_cons in Hxs as [Hx Hxs]. destruct (circ_run_spec _ _ _ _ Hs Hx) as (s1 & E1 & Hs1).
  destruct (queue_run size x q) as [r q1]. destruct (IH _ _ Hs1 Hxs) as (s2 & E2 & Hs2). exists s2.
  rewrite (st_bind_ok _ _ _ _ _ E1), (st_bind_ok _ _ _ _ _ E2). simpl in *.
  by destruct (queue_runs size xs q1).
Qed.

End circular_proofs.

(** ** Readers and the interrupt handler together *)

(** The tasks that may read, the handler, and what has been accepted from the handler and
    delivered to the tasks so far. *)
Record system := {
  sh : shared;
  readers : list reader;
  irq : writer;
  accepted : list Z;
  delivered : list Z
}.

(** What a step delivers to a task or accepts from the handler: the bytes count when the
    index is published. *)
Definition delivers (r : reader) : list Z :=
  match r with R_publish out toCopy _ => take (Z.to_nat toCopy) out | _ => [] end.
Definition accepts (w : writer) : list Z :=
  match w with W_publish src length _ => take (Z.to_nat length) src | _ => [] end.

(** Tasks call with an array of at least [n] bytes, the handler runs with interrupts
    disabled; every step of a task or of the handler may come next. *)
Inductive ci_step : system -> system -> Prop :=
| ci_call_read y t out n :
    readers y !! t = Some R_idle -> 0 < n <= Z.of_nat (length out) ->
    ci_step y {| sh := sh y; readers := <[t := R_lock out n]> (readers y); irq := irq y;
                 accepted := accepted y; delivered := delivered y |}
| ci_call_poll y t :
    readers y !! t = Some R_idle ->
    ci_step y {| sh := sh y; readers := <[t := P_lock]> (readers y); irq := irq y;
                 accepted := accepted y; delivered := delivered y |}
| ci_call_write y src n :
    irq y = W_idle -> 0 < n <= Z.of_nat (length src) ->
    ci_step y {| sh := sh y; readers := readers y; irq := W_start src n;
                 accepted := accepted y; delivered := delivered y |}
| ci_reader y t r r' s' :
    readers y !! t = Some r -> reader_step r (sh y) = Ok (r', s') ->
    ci_step y {| sh := s'; readers := <[t := r']> (readers y); irq := irq y;
                 accepted := accepted y; delivered := delivered y ++ delivers r |}
| ci_writer y w' s' :
    writer_step false (irq y) (sh y) = Ok (w', s') ->
    ci_step y {| sh := s'; readers := readers y; irq := w';
                 accepted := accepted y ++ accepts (irq y); delivered := delivered y |}.

(** The states that can be reached from a new buffer with [n] tasks. *)
Inductive ci_reach (block : list Z) (size : Z) (n : nat) : system -> Prop :=
| ci_init : ci_reach block size n
    {| sh := CircularIntAllocate block size; readers := replicate n R_idle; irq := W_idle; accepted := []; delivered := [] |}
| ci_next y y' : ci_reach block size n y -> ci_step y y' -> ci_reach block size n y'.

(** A task that has the lock. *)
Definition holding (r : reader) : bool :=
  match r with
  | R_write _ _ | R_read _ _ _ | R_copy _ _ _ _ | R_publish _ _ _ | R_release _ _
  | P_write | P_read _ | P_release _ => true
  | _ => false
  end.

(** What a task relies on, when the queue is [q] and the shared read index is [rd]. *)
Definition reader_ok (size rd : Z) (q : list Z) (r : reader) : Prop :=
  match r with
  | R_lock out n | R_write out n => 0 < n <= Z.of_nat (length out)
  | R_read out n w => 0 < n <= Z.of_nat (length out) /\ exists k, (k <= length q)%nat /\ w = (rd + Z.of_nat k) mod size
  | R_copy out toCopy i read =>
      0 <= i <= toCopy /\ 0 < toCopy <= Z.of_nat (length q) /\ toCopy <= Z.of_nat (length out) /\
      read = (rd + i) mod size /\ take (Z.to_nat i) out = take (Z.to_nat i) q
  | R_publish out toCopy read =>
      0 < toCopy <= Z.of_nat (length q) /\ read = (rd + toCopy) mod size /\
      take (Z.to_nat toCopy) out = take (Z.to_nat toCopy) q
  | P_read w => exists k, (k <= length q)%nat /\ w = (rd + Z.of_nat k) mod size
  | _ => True
  end.

(** What the handler relies on. *)
Definition writer_ok (size : Z) (s : shared) (q : list Z) (w : writer) : Prop :=
  match w with
  | W_start src n => 0 < n <= Z.of_nat (length src)
  | W_read src n wr => 0 < n <= Z.of_nat (length src) /\ wr = ci_writePtr s
  | W_copy src n i wr =>
      0 <= i <= n /\ 0 < n <= Z.of_nat (length src) /\ Z.of_nat (length q) + n < size /\ wr = (ci_writePtr s + i) mod size /\
      forall j, 0 <= j < i -> ci_buff s !! Z.to_nat ((ci_writePtr s + j) mod size) = src !! Z.to_nat j
  | W_publish src n wr =>
      0 < n <= Z.of_nat (length src) /\ Z.of_nat (length q) + n < size /\ wr = (ci_writePtr s + n) mod size /\
      forall j, 0 <= j < n -> ci_buff s !! Z.to_nat ((ci_writePtr s + j) mod size) = src !! Z.to_nat j
  | _ => True
  end.

Record ci_ok (size : Z) (y : system) (q : list Z) : Prop := {
  ci_stream : accepted y = delivered y ++ q;
  ci_sized : ci_size (sh y) = size;
  ci_ring : ring size (ci_buff (sh y)) (ci_readPtr (sh y)) (ci_writePtr (sh y)) q;
  ci_held : forall t r, readers y !! t = Some r -> holding r = true -> LOCK_READ (sh y) = true;
  ci_excl : forall t1 t2 r1 r2, readers y !! t1 = Some r1 -> readers y !! t2 = Some r2 ->
    holding r1 = true -> holding r2 = true -> t1 = t2;
  ci_owner : LOCK_READ (sh y) = true -> exists t r, readers y !! t = Some r /\ holding r = true;
  ci_readers : forall t r, readers y !! t = Some r -> reader_ok size (ci_readPtr (sh y)) q r;
  ci_irq : writer_ok size (sh y) q (irq y)
}.

(** The part of the ring a task has seen. *)
Lemma ring_take size cells r w q k : ring size cells r w q -> (k <= length q)%nat ->
  ring size cells r ((r + Z.of_nat k) mod size) (take k q).
Proof.
  intros [] Hk. split; rewrite ?length_take, ?Nat.min_l by lia; try done; [lia|].
  intros i x Hx. apply ring_cell0. rewrite <-(take_drop k q). by apply lookup_app_l_Some.
Qed.

(** What tasks without the lock rely on does not depend on the queue; the queue of the
    one that has it only grows. *)
Lemma reader_ok_idle size rd rd' q q' r : holding r = false -> reader_ok size rd q r -> reader_ok size rd' q' r.
Proof. by destruct r. Qed.
Lemma reader_ok_app size rd q l r : reader_ok size rd q r -> reader_ok size rd (q ++ l) r.
Proof.
  destruct r; simpl; rewrite ?length_app; try done.
  - intros (? & k & ? & ->). split; [done|]. exists k. split; [lia|done].
  - intros (? & ? & ? & ? & ->). repeat split; try done; try lia. by rewrite take_app_le by lia.
  - intros (? & ? & ->). repeat split; try done; try lia. by rewrite take_app_le by lia.
  - intros (k & ? & ->). exists k. split; [lia|done].
Qed.

(** The effect of a step of a task: it takes what it delivers from the front of the queue,
    and has the lock exactly between its acquisition and its release. *)
Definition reads (size : Z) (s : shared) (q : list Z) (r r' : reader) (s' : shared) : Prop :=
  ci_size s' = size /\ ci_buff s' = ci_buff s /\ ci_writePtr s' = ci_writePtr s /\
  let n := length (delivers r) in
  delivers r = take n q /\ (n <= length q)%nat /\
  ci_readPtr s' = (ci_readPtr s + Z.of_nat n) mod size /\ reader_ok size (ci_readPtr s') (drop n q) r' /\
  (n <> O -> holding r = true) /\
  if holding r then LOCK_READ s' = holding r' else
    (holding r' = true -> LOCK_READ s = false) /\ LOCK_READ s' = LOCK_READ s || holding r'.

Lemma reads_quiet size s q r r' b : ci_size s = size -> 0 <= ci_readPtr s < size ->
  delivers r = [] -> reader_ok size (ci_readPtr s) q r' ->
  (if holding r then b = holding r' else (holding r' = true -> LOCK_READ s = false) /\ b = LOCK_READ s || holding r') ->
  reads size s q r r' (set_lock s b).
Proof.
  intros Hsz Hrd Hd Hok Hl. unfold reads. rewrite Hd. simpl. rewrite Z.add_0_r, Z.mod_small by done.
  repeat split; try done; lia.
Qed.

Lemma set_lock_id s : set_lock s (LOCK_READ s) = s.
Proof. by destruct s. Qed.

(** The copying step. *)
Lemma copy_progress size s q out toCopy i read : ci_size s = size ->
  ring size (ci_buff s) (ci_readPtr s) (ci_writePtr s) q -> i < toCopy ->
  reader_ok size (ci_readPtr s) q (R_copy out toCopy i read) ->
  exists out' read', reader_step (R_copy out toCopy i read) s = Ok (R_copy out' toCopy (i + 1) read', s) /\
    reader_ok size (ci_readPtr s) q (R_copy out' toCopy (i + 1) read').
Proof.
  intros Hsz Hr Hi (Hi' & Hlen & Hout & -> & Ht). pose proof Hr as [].
  destruct (q !! Z.to_nat i) as [b|] eqn:Hb; [|apply lookup_ge_None in Hb; lia].
  pose proof (ring_cell0 _ _ Hb) as Hcell. rewrite Z2Nat.id in Hcell by lia. simpl. replace (i <? toCopy) with true by lia.
  pose proof (Z.mod_pos_bound (ci_readPtr s + i) size ltac:(lia)).
  unfold load. rewrite Hcell. unfold mbind, outcome_bind. rewrite store_ok by lia. rewrite uadd_ok by lia.
  rewrite Hsz, urem_ok by lia. do 2 eexists. split; [done|]. simpl. rewrite length_insert.
  split; [lia|]. split; [lia|]. split; [lia|]. split; [rewrite Z.add_mod_idemp_l by lia; f_equal; lia|].
  replace (Z.to_nat (i + 1)) with (Datatypes.S (Z.to_nat i)) by lia.
  erewrite (take_S_r q), take_S_r by (first [done|by apply list_lookup_insert_eq; lia]).
  by rewrite take_insert_ge, Ht by lia.
Qed.

(** Every step of a task returns. *)
Lemma reader_progress size s q r : ci_size s = size ->
  ring size (ci_buff s) (ci_readPtr s) (ci_writePtr s) q -> reader_ok size (ci_readPtr s) q r ->
  (holding r = true -> LOCK_READ s = true) ->
  exists r' s', reader_step r s = Ok (r', s') /\ reads size s q r r' s'.
Proof.
  intros Hsz Hr Hok Hheld. pose proof (ring_r _ _ _ _ _ Hr) as Hrd.
  assert (Hq : forall r', delivers r = [] -> reader_ok size (ci_readPtr s) q r' -> holding r' = holding r -> reads size s q r r' s).
  { intros r' Hd Ho Hh. rewrite <-(set_lock_id s) at 2. apply reads_quiet; try done. rewrite Hh.
    destruct (holding r); [auto|]. split; [done|]. by rewrite orb_false_r. }
  assert (Hread : forall k, (k <= length q)%nat -> CIRC_READABLE ((ci_readPtr s + Z.of_nat k) mod size) (ci_readPtr s) (ci_size s) = Ok (Z.of_nat k)).
  { intros k Hk. rewrite Hsz. rewrite (ring_readable _ _ _ _ _ (ring_take _ _ _ _ _ _ Hr Hk)), length_take. do 2 f_equal. lia. }
  destruct r as [|out n|out n|out n w|out toCopy i rd|out toCopy rd|out ret|out ret| | |w|ret|ret]; simpl reader_step.
  - by eexists _, _; split; [|apply Hq].
  - simpl in Hok. replace (n =? 0) with false by lia. simpl. destruct (LOCK_READ s) eqn:El; eexists _, _; (split; [done|]).
    + by apply Hq.
    + apply reads_quiet; try done. simpl. by rewrite El.
  - eexists _, _. split; [done|]. apply Hq; [done| |done]. simpl. split; [done|]. exists (length q).
    split; [lia|]. by apply ring_w in Hr.
  - destruct Hok as (Hn & k & Hk & ->). destruct (Z.eqb_spec ((ci_readPtr s + Z.of_nat k) mod size) (ci_readPtr s)) as [He|He].
    { eexists _, _. split; [done|]. by apply Hq. }
    rewrite Hread by done. simpl. eexists _, _. split; [done|]. apply Hq; [done| |done]. simpl.
    assert (k <> O) by (intros ->; destruct He; rewrite Z.add_0_r; by apply Z.mod_small).
    unfold MIN. destruct (_ <? _) eqn:?; (repeat split; [lia..|rewrite Z.add_0_r; symmetry; by apply Z.mod_small]).
  - destruct (Z.ltb_spec i toCopy) as [Hi|Hi].
    + destruct (copy_progress _ _ _ _ _ _ _ Hsz Hr Hi Hok) as (out' & rd' & E & Hok'). simpl in E.
      replace (i <? toCopy) with true in E by lia. rewrite E. eexists _, _. split; [done|]. by apply Hq.
    + destruct Hok as (? & ? & ? & ? & ?). replace (0 <? toCopy) with true by lia. eexists _, _. split; [done|].
      apply Hq; [done| |done]. assert (i = toCopy) as -> by lia. done.
  - destruct Hok as (Hc & Hrd' & Ht). eexists _, _. split; [done|]. unfold reads. simpl. rewrite Ht, length_take, Nat.min_l by lia.
    rewrite Z2Nat.id by lia. repeat split; try done; try lia. by apply Hheld.
  - eexists _, _. split; [done|]. by apply reads_quiet.
  - by eexists _, _; split; [|apply Hq].
  - destruct (LOCK_READ s) eqn:El; eexists _, _; (split; [done|]); [by apply Hq|].
    apply reads_quiet; try done. simpl. by rewrite El.
  - eexists _, _. split; [done|]. apply Hq; [done| |done]. exists (length q). split; [lia|]. by apply ring_w in Hr.
  - destruct Hok as (k & Hk & ->). rewrite Hread by done. eexists _, _. split; [done|]. by apply Hq.
  - eexists _, _. split; [done|]. by apply reads_quiet.
  - by eexists _, _; split; [|apply Hq].
Qed.

(** The effect of a step of the handler: it adds what it accepts behind the queue. *)
Definition writes (size : Z) (s : shared) (q : list Z) (w w' : writer) (s' : shared) : Prop :=
  ci_size s' = size /\ LOCK_READ s' = LOCK_READ s /\ ci_readPtr s' = ci_readPtr s /\
  ring size (ci_buff s') (ci_readPtr s') (ci_writePtr s') (q ++ accepts w) /\ writer_ok size s' (q ++ accepts w) w'.

Lemma store_progress size s q src n i w : ci_size s = size ->
  ring size (ci_buff s) (ci_readPtr s) (ci_writePtr s) q -> i < n -> writer_ok size s q (W_copy src n i w) ->
  exists w' s', writer_step false (W_copy src n i w) s = Ok (w', s') /\ writes size s q (W_copy src n i w) w' s'.
Proof.
  intros Hsz Hr Hi (Hi' & Hn & Hq & -> & Hc). pose proof Hr as []. pose proof (ring_w_range _ _ _ _ _ Hr).
  pose proof (Z.mod_pos_bound (ci_writePtr s + i) size ltac:(lia)). simpl. replace (i <? n) with true by lia.
  destruct (src !! Z.to_nat i) as [b|] eqn:Hb; [|apply lookup_ge_None in Hb; lia]. unfold load. rewrite Hb.
  unfold mbind, outcome_bind. rewrite store_ok by lia. rewrite uadd_ok, Hsz, urem_ok by lia.
  eexists _, _. split; [done|]. unfold writes. simpl. rewrite app_nil_r. split; [done|]. split; [done|]. split; [done|]. split.
  { replace ((ci_writePtr s + i) mod size) with ((ci_readPtr s + (Z.of_nat (length q) + i)) mod size)
      by (rewrite ring_w0, Z.add_mod_idemp_l by lia; f_equal; lia).
    apply ring_store; [done|lia]. }
  split; [lia|]. split; [done|]. split; [done|]. split; [rewrite Z.add_mod_idemp_l by lia; f_equal; lia|].
  intros j Hj. destruct (decide (j = i)) as [->|]; [by rewrite list_lookup_insert_eq by lia|].
  rewrite list_lookup_insert_ne by (apply wrap_ne; lia). apply Hc. lia.
Qed.

(** Every step of the handler returns. *)
Lemma writer_progress size s q w : ci_size s = size ->
  ring size (ci_buff s) (ci_readPtr s) (ci_writePtr s) q -> writer_ok size s q w ->
  exists w' s', writer_step false w s = Ok (w', s') /\ writes size s q w w' s'.
Proof.
  intros Hsz Hr Hok.
  assert (Hq : forall w', accepts w = [] -> writer_ok size s q w' -> writes size s q w w' s).
  { intros w' Ha Ho. unfold writes. by rewrite Ha, app_nil_r. }
  destruct w as [|src n|src n wr|src n i wr|src n wr|ret]; simpl writer_step.
  - by eexists _, _; split; [|apply Hq].
  - simpl in Hok. replace (n =? 0) with false by lia. eexists _, _. split; [done|]. by apply Hq.
  - destruct Hok as [Hn ->]. rewrite Hsz, (ring_writable _ _ _ _ _ Hr). simpl.
    destruct (Z.ltb_spec (size - 1 - Z.of_nat (length q)) n); eexists _, _; (split; [done|]); apply Hq; try done.
    pose proof (ring_w_range _ _ _ _ _ Hr). simpl. rewrite Z.add_0_r, Z.mod_small by lia. repeat split; (lia || (intros; lia)).
  - destruct (Z.ltb_spec i n) as [Hi|Hi].
    + destruct (store_progress _ _ _ _ _ _ _ Hsz Hr Hi Hok) as (w' & s' & E & Hw). simpl in E.
      replace (i <? n) with true in E by lia. rewrite E. by exists w', s'.
    + destruct Hok as (? & ? & ? & ? & ?). eexists _, _. split; [done|]. apply Hq; [done|].
      assert (i = n) as -> by lia. done.
  - destruct Hok as (Hn & Hl & -> & Hc). eexists _, _. split; [done|]. unfold writes. simpl.
    split; [done|]. split; [done|]. split; [done|]. split; [|done].
    replace n with (Z.of_nat (length (take (Z.to_nat n) src))) at 1 by (rewrite length_take; lia).
    eapply ring_app; [done|rewrite length_take; lia|done|done|]. intros i x Hx.
    pose proof (lookup_lt_Some _ _ _ Hx) as Hlt. rewrite length_take in Hlt. rewrite Hc, Nat2Z.id by lia.
    by rewrite lookup_take_lt in Hx by lia.
  - by eexists _, _; split; [|apply Hq].
Qed.

(** A task's entry into a call changes nothing shared. *)
Lemma ci_ok_call size y q t r : ci_ok size y q -> readers y !! t = Some R_idle -> holding r = false ->
  reader_ok size (ci_readPtr (sh y)) q r ->
  ci_ok size {| sh := sh y; readers := <[t := r]> (readers y); irq := irq y; accepted := accepted y; delivered := delivered y |} q.
Proof.
  intros [] Ht Hh Hok.
  assert (Hback : forall t' r', <[t := r]> (readers y) !! t' = Some r' -> holding r' = true -> readers y !! t' = Some r').
  { intros t' r' [(-> & <- & _)|[_ ?]]%list_lookup_insert_Some; [by rewrite Hh|done]. }
  split; simpl; try done.
  - eauto.
  - intros t1 t2 r1 r2 H1 H2 Hh1 Hh2. by apply (ci_excl0 t1 t2 r1 r2); auto.
  - intros (t' & r' & Hr' & Hh')%ci_owner0. exists t', r'. split; [|done]. rewrite list_lookup_insert_ne; [done|].
    intros <-. rewrite Ht in Hr'. by injection Hr' as <-.
  - intros t' r' [(-> & <- & _)|[_ ?]]%list_lookup_insert_Some; [done|]. by eapply ci_readers0.
Qed.

Lemma ci_ok_reader size y q t r r' s' : ci_ok size y q -> readers y !! t = Some r -> reads size (sh y) q r r' s' ->
  ci_ok size {| sh := s'; readers := <[t := r']> (readers y); irq := irq y;
                accepted := accepted y; delivered := delivered y ++ delivers r |} (drop (length (delivers r)) q).
Proof.
  intros [] Ht (Hsz & Hb & Hw & Hd & Hn & Hrd & Hok & Hpub & Hlock). set (n := length (delivers r)) in *.
  assert (Hlt : (t < length (readers y))%nat) by by eapply lookup_lt_Some.
  assert (Hother : forall t2 r2, readers y !! t2 = Some r2 -> t2 <> t -> holding r2 = true -> holding r = false).
  { intros t2 r2 H2 Hne Hh. destruct (holding r) eqn:E; [|done]. by destruct Hne; apply (ci_excl0 t2 t r2 r). }
  assert (Hback : forall t2 r2, <[t := r']> (readers y) !! t2 = Some r2 ->
    (t2 = t /\ r2 = r') \/ (t2 <> t /\ readers y !! t2 = Some r2)).
  { intros t2 r2. rewrite list_lookup_insert_Some. naive_solver. }
  split; simpl; try done.
  - by rewrite ci_stream0, <-app_assoc, Hd, take_drop.
  - rewrite Hb, Hw, Hrd. by apply ring_drop.
  - intros t2 r2 H2 Hh. apply Hback in H2 as [[-> ->]|[Hne H2]].
    + destruct (holding r); [congruence|]. destruct Hlock as [_ ->]. rewrite Hh. apply orb_true_r.
    + rewrite (Hother _ _ H2 Hne Hh) in Hlock. destruct Hlock as [_ ->]. by rewrite (ci_held0 _ _ H2 Hh).
  - assert (Hx : forall t2 r2, readers y !! t2 = Some r2 -> t2 <> t -> holding r2 = true -> holding r' = true -> False).
    { intros t2 r2 H2 Hne Hh Hh'. rewrite (Hother _ _ H2 Hne Hh) in Hlock. destruct Hlock as [Hl _].
      rewrite (ci_held0 _ _ H2 Hh) in Hl. by specialize (Hl Hh'). }
    intros t1 t2 r1 r2 [[-> ->]|[Hn1 H1]]%Hback [[-> ->]|[Hn2 H2]]%Hback Hh1 Hh2; [done|..|by eapply ci_excl0].
    + by destruct (Hx t2 r2).
    + by destruct (Hx t1 r1).
  - intros HL. destruct (holding r') eqn:Hh'; [exists t, r'; by rewrite list_lookup_insert_eq|].
    destruct (holding r) eqn:Hh; [congruence|]. destruct Hlock as [_ Hlock]. rewrite orb_false_r in Hlock.
    destruct ci_owner0 as (t0 & r0 & H0 & Hh0); [congruence|]. exists t0, r0. split; [|done].
    rewrite list_lookup_insert_ne; [done|]. intros <-. congruence.
  - intros t2 r2 [[-> ->]|[Hne H2]]%Hback; [done|]. specialize (ci_readers0 _ _ H2).
    destruct (holding r2) eqn:Hh2; [|by eapply reader_ok_idle].
    assert (n = O) as Hn0. { destruct (decide (n = O)) as [|Hnz]; [done|]. rewrite (Hother _ _ H2 Hne Hh2) in Hpub. naive_solver. }
    rewrite Hrd, Hn0, drop_0, Z.add_0_r, Z.mod_small by by eapply ring_r. done.
  - destruct (irq y); simpl in *; rewrite ?Hw, ?Hb, ?length_drop; try done; intuition lia.
Qed.

Lemma ci_ok_step size y y' q : ci_ok size y q -> ci_step y y' -> exists q', ci_ok size y' q'.
Proof.
  intros Hok Hstep. pose proof Hok as []. destruct Hstep as [y t out n Ht Hn|y t Ht|y src n Hw Hn|y t r r' s' Ht E|y w' s' E].
  - exists q. by apply ci_ok_call.
  - exists q. by apply ci_ok_call.
  - exists q. by split.
  - destruct (reader_progress size (sh y) q r) as (r1 & s1 & E1 & Hreads); eauto.
    rewrite E in E1. injection E1 as <- <-. eexists. by eapply ci_ok_reader.
  - destruct (writer_progress size (sh y) q (irq y)) as (w1 & s1 & E1 & Hsz & Hl & Hrd & Hring & Hwok); eauto.
    rewrite E in E1. injection E1 as <- <-. exists (q ++ accepts (irq y)). split; simpl; try done.
    + by rewrite ci_stream0, app_assoc.
    + rewrite Hl. eauto.
    + rewrite Hl. eauto.
    + intros t r Ht. rewrite Hrd. eapply reader_ok_app, ci_readers0. done.
Qed.

Lemma ci_reach_ok block size n y : Z.of_nat (length block) = size -> 0 < size -> 2 * size <= usize_MAX ->
  ci_reach block size n y -> exists q, ci_ok size y q.
Proof.
  intros Hb Hs Hs2. induction 1 as [|y y' _ [q Hq] Hstep]; [|by eapply ci_ok_step].
  exists []. split; simpl; try done.
  - intros t r Hr. by apply lookup_replicate in Hr as [-> _].
  - intros t1 t2 r1 r2 Hr. by apply lookup_replicate in Hr as [-> _].
  - intros t r Hr. by apply lookup_replicate in Hr as [-> _].
Qed.

(** C8. The circular buffer between an interrupt handler and any number of reading
    tasks loses, repeats, reorders and invents nothing.  In every state that can be reached from a
    new buffer of [size] bytes, however the steps of the tasks and of the handler (which uses no
    lock) are interleaved: the bytes delivered to the tasks so far, in the order in which they were
    published, are a prefix of the bytes accepted from the handler, and at most
    [size - 1] bytes are on their way; at most one task is between the
    acquisition and the release of [LOCK_READ], and one is there when the lock is taken; the next
    step of every task and of the handler returns, without a failed
    assertion, an overflow or an access outside the buffers. *)
Theorem circular_int_fifo block size n y : Z.of_nat (length block) = size -> 0 < size -> 2 * size <= usize_MAX ->
  ci_reach block size n y ->
  (exists q, accepted y = delivered y ++ q /\ Z.of_nat (length q) < size) /\
  (forall t1 t2 r1 r2, readers y !! t1 = Some r1 -> readers y !! t2 = Some r2 ->
     holding r1 = true -> holding r2 = true -> t1 = t2) /\
  (LOCK_READ (sh y) = true <-> exists t r, readers y !! t = Some r /\ holding r = true) /\
  (forall t r, readers y !! t = Some r -> exists r' s', reader_step r (sh y) = Ok (r', s')) /\
  (exists w' s', writer_step false (irq y) (sh y) = Ok (w', s')).
Proof.
  intros Hb Hs Hs2 Hy. destruct (ci_reach_ok _ _ _ _ Hb Hs Hs2 Hy) as [q []].
  split; [exists q; split; [done|by eapply ring_len]|]. split; [done|]. split; [split; [done|naive_solver]|]. split.
  - intros t r Ht. destruct (reader_progress size (sh y) q r) as (r' & s' & E & _); eauto.
  - destruct (writer_progress size (sh y) q (irq y)) as (w' & s' & E & _); eauto.
Qed.

(** *** Running the system

    A schedule says who moves next; running it reaches a state. *)
Inductive move :=
| m_read (t : nat) (out : list Z) (n : Z)
| m_write (src : list Z) (n : Z)
| m_task (t : nat)
| m_irq.

Definition ci_move (x : move) (y : system) : option system :=
  match x with
  | m_read t out n =>
      match readers y !! t with
      | Some R_idle =>
          if (0 <? n) && (n <=? Z.of_nat (length out)) then
            Some {| sh := sh y; readers := <[t := R_lock out n]> (readers y); irq := irq y;
                    accepted := accepted y; delivered := delivered y |}
          else None
      | _ => None
      end
  | m_write src n =>
      match irq y with
      | W_idle =>
          if (0 <? n) && (n <=? Z.of_nat (length src)) then
            Some {| sh := sh y; readers := readers y; irq := W_start src n; accepted := accepted y; delivered := delivered y |}
          else None
      | _ => None
      end
  | m_task t =>
      r ← readers y !! t;
      match reader_step r (sh y) with
      | Ok (r', s') => Some {| sh := s'; readers := <[t := r']> (readers y); irq := irq y;
                               accepted := accepted y; delivered := delivered y ++ delivers r |}
      | _ => None
      end
  | m_irq =>
      match writer_step false (irq y) (sh y) with
      | Ok (w', s') => Some {| sh := s'; readers := readers y; irq := w';
                               accepted := accepted y ++ accepts (irq y); delivered := delivered y |}
      | _ => None
      end
  end.

Lemma ci_move_step x y y' : ci_move x y = Some y' -> ci_step y y'.
Proof.
  destruct x as [t out n|src n|t|]; simpl.
  - destruct (readers y !! t) as [[]|] eqn:Ht; try done. destruct (_ && _) eqn:?; [|done]. intros [= <-]. constructor; [done|lia].
  - destruct (irq y) eqn:Hw; try done. destruct (_ && _) eqn:?; [|done]. intros [= <-]. constructor; [done|lia].
  - destruct (readers y !! t) as [r|] eqn:Ht; simpl; [|done]. destruct (reader_step r (sh y)) as [[r' s']| | |] eqn:E; try done.
    intros [= <-]. by constructor.
  - destruct (writer_step false (irq y) (sh y)) as [[w' s']| | |] eqn:E; try done. intros [= <-]. by constructor.
Qed.

Fixpoint ci_moves (xs : list move) (y : system) : option system :=
  match xs with [] => Some y | x :: xs => y ← ci_move x y; ci_moves xs y end.

Lemma ci_moves_reach block size n xs y y' : ci_reach block size n y -> ci_moves xs y = Some y' -> ci_reach block size n y'.
Proof.
  revert y. induction xs as [|x xs IH]; intros y Hy; simpl; [by intros [= <-]|].
  destruct (ci_move x y) as [y1|] eqn:E; simpl; [|done]. apply IH. by eapply ci_next, ci_move_step.
Qed.

(** ** Examples *)

#[local] Existing Instance example_Heap.

Definition example_circ : cstate (H := Z) :=
  ({| buff := 0x10000; buffSize := 4; readPtr := 0; writePtr := 0; LOCK_CIRC := false |},
   mkMemory {[0x10000 := [0; 0; 0; 0]]} 0x10004).
Definition example_circ_calls : list circ_call :=
  [c_write [1; 2; 3] 3; c_write [4] 1; c_read [0; 0] 2; c_write [4; 5] 2; c_read [0; 0; 0; 0; 9] 5; c_write_poll].

Lemma circular_refines_queue_witness :
  exists s', circ_runs example_circ_calls example_circ =
    Ok ([(3, [1; 2; 3]); (0, [4]); (2, [1; 2]); (2, [4; 5]); (3, [3; 4; 5; 0; 9]); (3, [])], s') /\ circ_ok 4 s' [].
Proof.
  assert (Hok : circ_ok 4 example_circ []).
  { split; [split; [done|]|split; [done|split; [done|]]].
    - exists {[0x10000]}. split; [split; [done|set_solver by lia]|]. intros p [x Hx]. cbn [example_circ snd blocks] in Hx. apply lookup_singleton_Some in Hx as [<- _]. set_solver.
    - exists [0; 0; 0; 0]. split; [done|by apply ring_nil]. }
  apply (circular_refines_queue 4 example_circ_calls example_circ [] Hok).
  repeat constructor; simpl; lia.
Defined.

(** The handler is interrupted, as seen from another processor, between its two stores; the
    task then finds nothing to read, and the bytes on its second try. *)
Definition example_moves : list move :=
  [m_write [7; 8] 2; m_irq; m_irq; m_irq; m_read 1 [0; 0; 0] 3; m_task 1; m_task 1; m_task 1; m_irq; m_task 1; m_irq; m_irq;
   m_task 1; m_read 1 [0; 0; 0] 3; m_task 1; m_task 1; m_task 1; m_task 1; m_task 1; m_task 1; m_task 1].

Lemma circular_int_fifo_witness :
  exists y, ci_reach [0; 0; 0] 3 2 y /\ accepted y = [7; 8] /\ delivered y = [7; 8] /\
    (LOCK_READ (sh y) = true <-> exists t r, readers y !! t = Some r /\ holding r = true).
Proof.
  destruct (ci_moves example_moves
    {| sh := CircularIntAllocate [0; 0; 0] 3; readers := replicate 2 R_idle; irq := W_idle; accepted := []; delivered := [] |})
    as [y|] eqn:E; [|by vm_compute in E].
  assert (Hy : ci_reach [0; 0; 0] 3 2 y) by (eapply ci_moves_reach; [constructor|exact E]).
  exists y. split; [done|]. vm_compute in E. injection E as <-. split; [done|]. split; [done|].
  eapply (circular_int_fifo [0; 0; 0] 3 2); [done|done|done|exact Hy].
Defined.
