(* ===== verification/Avl.v ===== *)
(** * The AVL tree (utilities/data_structures/avl_tree.rs)

    A map from keys to values as a balanced tree of allocated nodes linked by pointers.  The
    operations run on the memory of the nodes.  [holds] relates a pointer in a memory to a
    tree, on which the same operations are pure functions; these keep the tree
    ordered and balanced and implement the operations of finite maps. *)

From S2P Require Import Prelude Mem Rust.
From stdpp Require Import sorting.
#[local] Open Scope Z_scope.

Set Default Proof Using "Type".

(** ** The code *)

Record AvlHeader := { key : Z; value : Z; height : Z; left : Z; right : Z }.

Definition with_key (n : AvlHeader) (x : Z) : AvlHeader :=
  {| key := x; value := value n; height := height n; left := left n; right := right n |}.
Definition with_value (n : AvlHeader) (x : Z) : AvlHeader :=
  {| key := key n; value := x; height := height n; left := left n; right := right n |}.
Definition with_height (n : AvlHeader) (x : Z) : AvlHeader :=
  {| key := key n; value := value n; height := x; left := left n; right := right n |}.
Definition with_left (n : AvlHeader) (x : Z) : AvlHeader :=
  {| key := key n; value := value n; height := height n; left := x; right := right n |}.
Definition with_right (n : AvlHeader) (x : Z) : AvlHeader :=
  {| key := key n; value := value n; height := height n; left := left n; right := x |}.

Section avl.
Context {H : Type} `{!Heap H}.

Local Abbreviation amem := (memory AvlHeader H).
Local Abbreviation V := (ST amem).

Definition SIZEOF_AVL_HEADER : Z := 40.

Definition calc_height (node : Z) : V Z :=
  if node =? 0 then mret 0 else n ← kload node; mret (height n).

Definition calc_balance (node : Z) : V Z :=
  if node =? 0 then mret 0
  else
    n ← kload node; l ← calc_height (left n);
    n ← kload node; r ← calc_height (right n);
    lift (isub l r).

(** The height of a node is set to one more than the greater of its children's. *)
Definition set_height (node : Z) : V unit :=
  n ← kload node; l ← calc_height (left n);
  n ← kload node; r ← calc_height (right n);
  h ← lift (iadd (Z.max l r) 1);
  kstore node (fun n => with_height n h).

(** [calloc] is [malloc] of memory that is zero. *)
Definition avl_allocate_node (k : Z) : V Z :=
  node ← kmalloc (fun _ => {| key := 0; value := 0; height := 0; left := 0; right := 0 |}) SIZEOF_AVL_HEADER;
  _ ← sassert (negb (node =? 0));
  _ ← kstore node (fun n => with_key n k);
  _ ← kstore node (fun n => with_height n 1);
  mret node.

Definition avl_rotate_right (y : Z) : V Z :=
  ny ← kload y; let x := left ny in
  nx ← kload x; let t2 := right nx in
  _ ← kstore x (fun n => with_right n y);
  _ ← kstore y (fun n => with_left n t2);
  _ ← set_height y;
  _ ← set_height x;
  mret x.

Definition avl_rotate_left (x : Z) : V Z :=
  nx ← kload x; let y := right nx in
  ny ← kload y; let t2 := left ny in
  _ ← kstore y (fun n => with_left n x);
  _ ← kstore x (fun n => with_right n t2);
  _ ← set_height x;
  _ ← set_height y;
  mret y.

Fixpoint avl_min_key_node (fuel : nat) (browse : Z) : V Z :=
  match fuel with
  | O => fun _ => Diverge
  | Datatypes.S fuel' =>
      if browse =? 0 then mret browse
      else
        n ← kload browse;
        if left n =? 0 then mret browse else avl_min_key_node fuel' (left n)
  end.

(** The key of the node a field of [node] points to. *)
Definition key_at (node : Z) : V Z := n ← kload node; mret (key n).

(** The end of an insertion: the new height of [node] and the rotations. *)
Definition allocate_balance (node k : Z) : V Z :=
  _ ← set_height node;
  balance ← calc_balance node;
  n ← kload node;
  below_left ← (if 1 <? balance then kl ← key_at (left n); mret (k <? kl) else mret false);
  if (below_left : bool) then avl_rotate_right node
  else
    above_right ← (if balance <? -1 then kr ← key_at (right n); mret (kr <? k) else mret false);
    if (above_right : bool) then avl_rotate_left node
    else
      above_left ← (if 1 <? balance then kl ← key_at (left n); mret (kl <? k) else mret false);
      if (above_left : bool) then
        l ← avl_rotate_left (left n);
        _ ← kstore node (fun n => with_left n l);
        avl_rotate_right node
      else
        below_right ← (if balance <? -1 then kr ← key_at (right n); mret (k <? kr) else mret false);
        if (below_right : bool) then
          r ← avl_rotate_right (right n);
          _ ← kstore node (fun n => with_right n r);
          avl_rotate_left node
        else mret node.

(** Returns the node that takes the place of [node], and [*target]. *)
Fixpoint avl_allocate_l (fuel : nat) (node k target : Z) : V (Z * Z) :=
  match fuel with
  | O => fun _ => Diverge
  | Datatypes.S fuel' =>
      if node =? 0 then
        actual ← avl_allocate_node k;
        _ ← sassert (target =? 0);
        mret (actual, actual)
      else
        n ← kload node;
        target ← (if k <? key n then
                    '(l, target) ← avl_allocate_l fuel' (left n) k target;
                    _ ← kstore node (fun n => with_left n l);
                    mret target
                  else if key n <? k then
                    '(r, target) ← avl_allocate_l fuel' (right n) k target;
                    _ ← kstore node (fun n => with_right n r);
                    mret target
                  else fun _ => Panic);
        root ← allocate_balance node k;
        mret (root, target)
  end.

(** The end of a removal. *)
Definition unregister_balance (root : Z) : V Z :=
  _ ← set_height root;
  balance ← calc_balance root;
  n ← kload root;
  left_left ← (if 1 <? balance then b ← calc_balance (left n); mret (0 <=? b) else mret false);
  if (left_left : bool) then avl_rotate_right root
  else
    left_right ← (if 1 <? balance then b ← calc_balance (left n); mret (b <? 0) else mret false);
    if (left_right : bool) then
      l ← avl_rotate_left (left n);
      _ ← kstore root (fun n => with_left n l);
      avl_rotate_right root
    else
      right_right ← (if balance <? -1 then b ← calc_balance (right n); mret (b <=? 0) else mret false);
      if (right_right : bool) then avl_rotate_left root
      else
        right_left ← (if balance <? -1 then b ← calc_balance (right n); mret (0 <? b) else mret false);
        if (right_left : bool) then
          r ← avl_rotate_right (right n);
          _ ← kstore root (fun n => with_right n r);
          avl_rotate_left root
        else mret root.

(** The removal of the node [root] itself, whose contents are [n]; [rec] removes a key from a subtree. *)
Definition unregister_node (fuel : nat) (rec : Z -> Z -> Z -> V (Z * Z)) (root : Z) (n : AvlHeader) (target : Z) : V (Z * Z) :=
  if (left n =? 0) || (right n =? 0) then
    let temp := if negb (left n =? 0) then left n else right n in
    if temp =? 0 then
      let target := value n in
      _ ← kfree root;
      mret (0, target)
    else
      t ← kload temp;
      let target := value t in
      _ ← kstore root (fun _ => t);
      _ ← kfree temp;
      root ← unregister_balance root;
      mret (root, target)
  else
    temp ← avl_min_key_node fuel (right n);
    t ← kload temp;
    _ ← kstore root (fun n => with_key n (key t));
    _ ← kstore root (fun n => with_value n (value t));
    '(r, target) ← rec (right n) (key t) target;
    _ ← kstore root (fun n => with_right n r);
    root ← unregister_balance root;
    mret (root, target).

Fixpoint avl_unregister_l (fuel : nat) (root k target : Z) : V (Z * Z) :=
  match fuel with
  | O => fun _ => Diverge
  | Datatypes.S fuel' =>
      if root =? 0 then mret (root, target)
      else
        n ← kload root;
        if k <? key n then
          '(l, target) ← avl_unregister_l fuel' (left n) k target;
          _ ← kstore root (fun n => with_left n l);
          root ← unregister_balance root;
          mret (root, target)
        else if key n <? k then
          '(r, target) ← avl_unregister_l fuel' (right n) k target;
          _ ← kstore root (fun n => with_right n r);
          root ← unregister_balance root;
          mret (root, target)
        else unregister_node fuel' (avl_unregister_l fuel') root n target
  end.

(** More steps than a path in the memory can have. *)
Definition avl_fuel : V nat := fun m => Ok (Datatypes.S (size (blocks m)), m).

(** [*root_ptr] is passed and returned. *)
Definition avl_allocate (root_ptr k v : Z) : V (Z * Z) :=
  fuel ← avl_fuel;
  '(root, target) ← avl_allocate_l fuel root_ptr k 0;
  _ ← sassert (negb (target =? 0));
  _ ← kstore target (fun n => with_value n v);
  mret (target, root).

Definition avl_unregister (root_ptr k : Z) : V (bool * Z) :=
  fuel ← avl_fuel;
  '(root, target) ← avl_unregister_l fuel root_ptr k 0;
  mret (negb (target =? 0), root).

Fixpoint avl_lookup_l (fuel : nat) (root k : Z) : V Z :=
  match fuel with
  | O => fun _ => Diverge
  | Datatypes.S fuel' =>
      if root =? 0 then mret 0
      else
        n ← kload root;
        if key n <? k then avl_lookup_l fuel' (right n) k
        else if k <? key n then avl_lookup_l fuel' (left n) k
        else mret (value n)
  end.
Definition avl_lookup (root k : Z) : V Z := fuel ← avl_fuel; avl_lookup_l fuel root k.

End avl.

(** ** Trees *)

(** A tree with the addresses of its nodes. *)
Inductive tree :=
| Leaf
| Node (p k v : Z) (l r : tree).

Definition root (t : tree) : Z := match t with Leaf => 0 | Node p _ _ _ _ => p end.
Definition root_key (t : tree) : Z := match t with Leaf => 0 | Node _ k _ _ _ => k end.
Fixpoint theight (t : tree) : Z :=
  match t with Leaf => 0 | Node _ _ _ l r => Z.max (theight l) (theight r) + 1 end.
Definition tbalance (t : tree) : Z := match t with Leaf => 0 | Node _ _ _ l r => theight l - theight r end.
(** The nodes in order: address, key and value. *)
Fixpoint nodes (t : tree) : list (Z * (Z * Z)) :=
  match t with Leaf => [] | Node p k v l r => nodes l ++ (p, (k, v)) :: nodes r end.
Definition addrs (t : tree) : list Z := (nodes t).*1.
Definition elems (t : tree) : list (Z * Z) := (nodes t).*2.

(** The map a tree represents, and the order and the balance that make it work. *)
Definition tmap (t : tree) : gmap Z Z := list_to_map (elems t).
Definition bst (t : tree) : Prop := StronglySorted Z.lt (elems t).*1.
Fixpoint avl (t : tree) : Prop :=
  match t with Leaf => True | Node _ _ _ l r => -1 <= theight l - theight r <= 1 /\ avl l /\ avl r end.

(** The operations on trees. *)
Definition rot_right (t : tree) : tree :=
  match t with
  | Node y ky vy (Node x kx vx a b) c => Node x kx vx a (Node y ky vy b c)
  | _ => t
  end.
Definition rot_left (t : tree) : tree :=
  match t with
  | Node x kx vx a (Node y ky vy b c) => Node y ky vy (Node x kx vx a b) c
  | _ => t
  end.

Definition ins_balance (k : Z) (t : tree) : tree :=
  match t with
  | Leaf => Leaf
  | Node p kp vp l r =>
      let b := tbalance t in
      if (1 <? b) && (k <? root_key l) then rot_right t
      else if (b <? -1) && (root_key r <? k) then rot_left t
      else if (1 <? b) && (root_key l <? k) then rot_right (Node p kp vp (rot_left l) r)
      else if (b <? -1) && (k <? root_key r) then rot_left (Node p kp vp l (rot_right r))
      else t
  end.

Fixpoint t_insert (k p : Z) (t : tree) : tree :=
  match t with
  | Leaf => Node p k 0 Leaf Leaf
  | Node q kq vq l r =>
      ins_balance k (if k <? kq then Node q kq vq (t_insert k p l) r else Node q kq vq l (t_insert k p r))
  end.

Definition del_balance (t : tree) : tree :=
  match t with
  | Leaf => Leaf
  | Node p kp vp l r =>
      let b := tbalance t in
      if (1 <? b) && (0 <=? tbalance l) then rot_right t
      else if (1 <? b) && (tbalance l <? 0) then rot_right (Node p kp vp (rot_left l) r)
      else if (b <? -1) && (tbalance r <=? 0) then rot_left t
      else if (b <? -1) && (0 <? tbalance r) then rot_left (Node p kp vp l (rot_right r))
      else t
  end.

(** The leftmost node: its address, key and value. *)
Fixpoint t_min (t : tree) : Z * (Z * Z) :=
  match t with
  | Leaf => (0, (0, 0))
  | Node p k v Leaf _ => (p, (k, v))
  | Node _ _ _ l _ => t_min l
  end.

(** The tree without [k] and the value [avl_unregister_l] leaves in its target; the fuel is
    the height. *)
Fixpoint t_delete (fuel : nat) (k : Z) (t : tree) (target : Z) : tree * Z :=
  match fuel, t with
  | O, _ | _, Leaf => (t, target)
  | Datatypes.S fuel', Node p kp vp l r =>
      if k <? kp then let (l', target) := t_delete fuel' k l target in (del_balance (Node p kp vp l' r), target)
      else if kp <? k then let (r', target) := t_delete fuel' k r target in (del_balance (Node p kp vp l r'), target)
      else
        match l, r with
        | Leaf, Leaf => (Leaf, vp)
        | Node _ k' v' a b, Leaf | Leaf, Node _ k' v' a b => (del_balance (Node p k' v' a b), v')
        | _, _ =>
            let '(_, (k', v')) := t_min r in
            let (r', target) := t_delete fuel' k' r target in (del_balance (Node p k' v' l r'), target)
        end
  end.

(** *** Heights *)

Lemma theight_nonneg t : 0 <= theight t.
Proof. induction t; simpl; lia. Qed.

Lemma theight_size t : theight t <= Z.of_nat (length (nodes t)).
Proof. induction t; simpl; rewrite ?length_app; simpl; lia. Qed.

(** A balanced tree of height [h] has at least [2^(h/2) - 1] nodes. *)
Lemma avl_size t : avl t -> forall n : nat, 2 * Z.of_nat n <= theight t -> 2 ^ Z.of_nat n <= Z.of_nat (length (nodes t)) + 1.
Proof.
  induction t as [|p k v l IHl r IHr]; simpl.
  { intros _ n Hn. assert (n = O) as -> by lia. done. }
  intros (Hb & Hl & Hr) [|n] Hn; [simpl; lia|]. rewrite length_app. simpl length.
  specialize (IHl Hl n ltac:(lia)). specialize (IHr Hr n ltac:(lia)).
  rewrite Nat2Z.inj_succ, Z.pow_succ_r by lia. lia.
Qed.

(** With fewer than [2^64] nodes no path is longer than 129. *)
Lemma avl_height t : avl t -> Z.of_nat (length (nodes t)) <= usize_MAX -> theight t <= 129.
Proof.
  intros Ht Hn. destruct (Z.leb_spec (theight t) 129); [done|].
  pose proof (avl_size t Ht 65 ltac:(lia)) as Hs. change (2 ^ Z.of_nat 65) with 36893488147419103232 in Hs.
  unfold usize_MAX in Hn. lia.
Qed.

(** *** The order *)

Lemma sorted_mid l1 x l2 : StronglySorted Z.lt (l1 ++ x :: l2) <->
  StronglySorted Z.lt l1 /\ StronglySorted Z.lt l2 /\ Forall (fun y => y < x) l1 /\ Forall (fun y => x < y) l2.
Proof.
  induction l1 as [|y l1 IH]; simpl.
  { split; [intros [? ?]%StronglySorted_inv; repeat constructor; done|]. intros (_ & ? & _ & ?). by constructor. }
  split.
  - intros [Hs Hf]%StronglySorted_inv. apply IH in Hs as (? & ? & ? & ?). apply Forall_app in Hf as [? Hf].
    apply Forall_cons in Hf as [? _]. repeat split; try done; by constructor.
  - intros ([Hs Hf]%StronglySorted_inv & H2 & [Hy H1]%Forall_cons & H3). constructor; [by apply IH|].
    apply Forall_app. split; [done|]. constructor; [done|]. eapply Forall_impl; [done|]. simpl. lia.
Qed.

Lemma elems_node p k v l r : elems (Node p k v l r) = elems l ++ (k, v) :: elems r.
Proof. unfold elems. simpl. by rewrite fmap_app. Qed.
Lemma addrs_node p k v l r : addrs (Node p k v l r) = addrs l ++ p :: addrs r.
Proof. unfold addrs. simpl. by rewrite fmap_app. Qed.

Lemma bst_node p k v l r : bst (Node p k v l r) <->
  bst l /\ bst r /\ Forall (fun y => y < k) (elems l).*1 /\ Forall (fun y => k < y) (elems r).*1.
Proof. unfold bst. rewrite elems_node, fmap_app. apply sorted_mid. Qed.

(** Rotations keep the nodes in order. *)
Lemma nodes_rot_right t : nodes (rot_right t) = nodes t.
Proof. destruct t as [|? ? ? [] ?]; simpl; try done. by rewrite <-!app_assoc. Qed.
Lemma nodes_rot_left t : nodes (rot_left t) = nodes t.
Proof. destruct t as [|? ? ? ? []]; simpl; try done. by rewrite <-!app_assoc. Qed.
Lemma nodes_ins_balance k t : nodes (ins_balance k t) = nodes t.
Proof.
  destruct t; [done|]. unfold ins_balance. repeat case_match; rewrite ?nodes_rot_right, ?nodes_rot_left; try done;
    simpl; by rewrite ?nodes_rot_right, ?nodes_rot_left.
Qed.
Lemma nodes_del_balance t : nodes (del_balance t) = nodes t.
Proof.
  destruct t; [done|]. unfold del_balance. repeat case_match; rewrite ?nodes_rot_right, ?nodes_rot_left; try done;
    simpl; by rewrite ?nodes_rot_right, ?nodes_rot_left.
Qed.

(** Insertion adds one node, between the smaller and the greater keys. *)
Lemma nodes_insert k p t : bst t -> k ∉ (elems t).*1 ->
  exists l1 l2, nodes t = l1 ++ l2 /\ nodes (t_insert k p t) = l1 ++ (p, (k, 0)) :: l2 /\
    Forall (fun y => y < k) l1.*2.*1 /\ Forall (fun y => k < y) l2.*2.*1.
Proof.
  induction t as [|q kq vq l IHl r IHr]; simpl.
  { exists [], []. repeat constructor. }
  rewrite bst_node, elems_node, fmap_app, not_elem_of_app, fmap_cons, not_elem_of_cons.
  intros (Hl & Hr & Hlk & Hrk) (Hkl & Hk & Hkr). simpl in Hk. rewrite nodes_ins_balance. destruct (Z.ltb_spec k kq).
  - destruct (IHl Hl Hkl) as (l1 & l2 & E & E' & H1 & H2). exists l1, (l2 ++ (q, (kq, vq)) :: nodes r). simpl.
    rewrite E, E', <-!app_assoc. repeat split; try done. rewrite !fmap_app. apply Forall_app. split; [done|].
    constructor; [simpl; lia|]. eapply Forall_impl; [done|]. simpl. lia.
  - destruct (IHr Hr Hkr) as (l1 & l2 & E & E' & H1 & H2). exists (nodes l ++ (q, (kq, vq)) :: l1), l2. simpl.
    rewrite E, E', <-!app_assoc. repeat split; try done. rewrite !fmap_app. apply Forall_app. split.
    + eapply Forall_impl; [done|]. simpl. lia.
    + constructor; [simpl; lia|done].
Qed.

(** *** The balance *)

Lemma ins_balance_id k t : -1 <= tbalance t <= 1 -> ins_balance k t = t.
Proof.
  intros Hb. destruct t; [done|]. unfold ins_balance. replace (1 <? _) with false by lia. by replace (_ <? -1) with false by lia.
Qed.
Lemma del_balance_id t : -1 <= tbalance t <= 1 -> del_balance t = t.
Proof.
  intros Hb. destruct t; [done|]. unfold del_balance. replace (1 <? _) with false by lia. by replace (_ <? -1) with false by lia.
Qed.

(** A single and a double rotation of a tree whose left side is too high. *)
Lemma avl_rot_right p k v l r : avl l -> avl r -> theight l = theight r + 2 -> 0 <= tbalance l ->
  avl (rot_right (Node p k v l r)) /\ theight r + 2 <= theight (rot_right (Node p k v l r)) <= theight r + 3 /\
  (0 < tbalance l -> theight (rot_right (Node p k v l r)) = theight r + 2).
Proof.
  intros Hl Hr Hh Hb. pose proof (theight_nonneg r). destruct l as [|x kx vx a b]; simpl in *; [lia|]. intuition lia.
Qed.
Lemma avl_rot_left_right p k v l r : avl l -> avl r -> theight l = theight r + 2 -> tbalance l < 0 ->
  avl (rot_right (Node p k v (rot_left l) r)) /\ theight (rot_right (Node p k v (rot_left l) r)) = theight r + 2.
Proof.
  intros Hl Hr Hh Hb. pose proof (theight_nonneg r). destruct l as [|x kx vx a b]; simpl in *; [lia|].
  pose proof (theight_nonneg a). destruct b as [|y ky vy c d]; simpl in *; [lia|].
  pose proof (theight_nonneg c). pose proof (theight_nonneg d). intuition lia.
Qed.
Lemma avl_rot_left p k v l r : avl l -> avl r -> theight r = theight l + 2 -> tbalance r <= 0 ->
  avl (rot_left (Node p k v l r)) /\ theight l + 2 <= theight (rot_left (Node p k v l r)) <= theight l + 3 /\
  (tbalance r < 0 -> theight (rot_left (Node p k v l r)) = theight l + 2).
Proof.
  intros Hl Hr Hh Hb. pose proof (theight_nonneg l). destruct r as [|x kx vx a b]; simpl in *; [lia|]. intuition lia.
Qed.
Lemma avl_rot_right_left p k v l r : avl l -> avl r -> theight r = theight l + 2 -> 0 < tbalance r ->
  avl (rot_left (Node p k v l (rot_right r))) /\ theight (rot_left (Node p k v l (rot_right r))) = theight l + 2.
Proof.
  intros Hl Hr Hh Hb. pose proof (theight_nonneg l). destruct r as [|x kx vx a b]; simpl in *; [lia|].
  pose proof (theight_nonneg b). destruct a as [|y ky vy c d]; simpl in *; [lia|].
  pose proof (theight_nonneg c). pose proof (theight_nonneg d). intuition lia.
Qed.

(** The subtree that an insertion made higher is higher on the side of the key. *)
Definition leans (k : Z) (t : tree) : Prop :=
  match t with
  | Leaf => False
  | Node _ kt _ _ _ => kt <> k /\ (k < kt -> tbalance t = 1) /\ (kt < k -> tbalance t = -1)
  end.

Lemma avl_ins_left k p kp vp l r : avl l -> avl r -> theight l = theight r + 2 -> leans k l ->
  avl (ins_balance k (Node p kp vp l r)) /\ theight (ins_balance k (Node p kp vp l r)) = theight r + 2.
Proof.
  intros Hl Hr Hh Hk. destruct l as [|x kx vx a b] eqn:El; [done|]. rewrite <-El in *. unfold ins_balance.
  replace (1 <? _) with true by (simpl; lia). replace (_ <? -1) with false by (simpl; lia). simpl andb.
  replace (root_key l) with kx by by subst. rewrite El in Hk. destruct Hk as (Hne & H1 & H2). rewrite <-El in H1, H2.
  destruct (Z.ltb_spec k kx).
  - destruct (avl_rot_right p kp vp l r) as (? & _ & E); auto; [rewrite H1; lia|]. split; [done|]. apply E. rewrite H1; lia.
  - replace (kx <? k) with true by lia. apply avl_rot_left_right; auto. rewrite H2; lia.
Qed.
Lemma avl_ins_right k p kp vp l r : avl l -> avl r -> theight r = theight l + 2 -> leans k r ->
  avl (ins_balance k (Node p kp vp l r)) /\ theight (ins_balance k (Node p kp vp l r)) = theight l + 2.
Proof.
  intros Hl Hr Hh Hk. destruct r as [|x kx vx a b] eqn:El; [done|]. rewrite <-El in *. unfold ins_balance.
  replace (1 <? _) with false by (simpl; lia). replace (_ <? -1) with true by (simpl; lia). simpl andb.
  replace (root_key r) with kx by by subst. rewrite El in Hk. destruct Hk as (Hne & H1 & H2). rewrite <-El in H1, H2.
  destruct (Z.ltb_spec kx k).
  - destruct (avl_rot_left p kp vp l r) as (? & _ & E); auto; [rewrite H2; lia|]. split; [done|]. apply E. rewrite H2; lia.
  - replace (k <? kx) with true by lia. apply avl_rot_right_left; auto. rewrite H1; lia.
Qed.

Lemma avl_insert k p t : avl t -> bst t -> k ∉ (elems t).*1 ->
  avl (t_insert k p t) /\ theight t <= theight (t_insert k p t) <= theight t + 1 /\
  (theight (t_insert k p t) = theight t + 1 -> t = Leaf \/ leans k (t_insert k p t)).
Proof.
  induction t as [|q kq vq l IHl r IHr]; intros Ha Hb Hk.
  { simpl. repeat split; try lia. by left. }
  rewrite bst_node in Hb. rewrite elems_node, fmap_app, not_elem_of_app, fmap_cons, not_elem_of_cons in Hk.
  destruct Hb as (Hl & Hr & _), Hk as (Hkl & Hne & Hkr), Ha as (Hbal & Hal & Har). simpl in Hne.
  pose proof (theight_nonneg l). pose proof (theight_nonneg r). cbn [t_insert theight]. destruct (Z.ltb_spec k kq).
  - destruct (IHl Hal Hl Hkl) as (Hl' & Hh & Hhigh). set (l' := t_insert k p l) in *.
    destruct (decide (theight l' = theight r + 2)) as [E|].
    + destruct (avl_ins_left k q kq vq l' r) as [? Eh]; auto.
      { destruct Hhigh as [->|]; [lia| |done]. simpl in *. lia. }
      rewrite Eh. split; [done|]. split; [lia|]. intros; lia.
    + rewrite ins_balance_id by (simpl; lia). simpl. split; [auto with lia|]. split; [lia|]. intros. right. lia.
  - destruct (IHr Har Hr Hkr) as (Hr' & Hh & Hhigh). set (r' := t_insert k p r) in *.
    destruct (decide (theight r' = theight l + 2)) as [E|].
    + destruct (avl_ins_right k q kq vq l r') as [? Eh]; auto.
      { destruct Hhigh as [->|]; [lia| |done]. simpl in *. lia. }
      rewrite Eh. split; [done|]. split; [lia|]. intros; lia.
    + rewrite ins_balance_id by (simpl; lia). simpl. split; [auto with lia|]. split; [lia|]. intros. right. lia.
Qed.

(** Rebalancing after a removal below. *)
Lemma avl_del_balance p k v l r : avl l -> avl r -> -2 <= theight l - theight r <= 2 ->
  avl (del_balance (Node p k v l r)) /\
  Z.max (theight l) (theight r) <= theight (del_balance (Node p k v l r)) <= Z.max (theight l) (theight r) + 1 /\
  (-1 <= theight l - theight r <= 1 -> theight (del_balance (Node p k v l r)) = Z.max (theight l) (theight r) + 1).
Proof.
  intros Hl Hr Hb. destruct (decide (-1 <= theight l - theight r <= 1)).
  { rewrite del_balance_id by done. simpl. auto with lia. }
  unfold del_balance. cbn [tbalance]. destruct (Z.ltb_spec 1 (theight l - theight r)); simpl andb.
  - destruct (Z.leb_spec 0 (tbalance l)).
    + destruct (avl_rot_right p k v l r) as (? & ? & _); auto; [lia|]. split; [done|]. lia.
    + replace (_ <? 0) with true by lia. destruct (avl_rot_left_right p k v l r) as [? ?]; auto; [lia|]. split; [done|]. lia.
  - replace (_ <? -1) with true by lia. simpl andb. destruct (Z.leb_spec (tbalance r) 0).
    + destruct (avl_rot_left p k v l r) as (? & ? & _); auto; [lia|]. split; [done|]. lia.
    + replace (0 <? _) with true by lia. destruct (avl_rot_right_left p k v l r) as [? ?]; auto; [lia|]. split; [done|]. lia.
Qed.

(** *** Removal *)

Definition without (k : Z) (l : list (Z * Z)) : list (Z * Z) := filter (fun x => x.1 <> k) l.

Lemma without_id k l : k ∉ l.*1 -> without k l = l.
Proof.
  induction l as [|x l IH]; [done|]. rewrite fmap_cons, not_elem_of_cons. intros [Hx Hl]. unfold without.
  rewrite filter_cons_True by auto. f_equal. by apply IH.
Qed.
Lemma without_app k l1 l2 : without k (l1 ++ l2) = without k l1 ++ without k l2.
Proof. apply filter_app. Qed.
Lemma without_same k v l : without k ((k, v) :: l) = without k l.
Proof. unfold without. by rewrite filter_cons_False by (simpl; naive_solver). Qed.
Lemma without_other k k' v l : k' <> k -> without k ((k', v) :: l) = (k', v) :: without k l.
Proof. intros. unfold without. by rewrite filter_cons_True. Qed.

Lemma above_not_in k (l : list Z) : Forall (fun y => k < y) l -> k ∉ l.
Proof. intros Hl Hk. rewrite Forall_forall in Hl. specialize (Hl k Hk). lia. Qed.
Lemma below_not_in k (l : list Z) : Forall (fun y => y < k) l -> k ∉ l.
Proof. intros Hl Hk. rewrite Forall_forall in Hl. specialize (Hl k Hk). lia. Qed.

Lemma t_min_nodes t : t <> Leaf -> exists rest, nodes t = t_min t :: rest.
Proof.
  induction t as [|p k v l IHl r _]; intros Ht; [done|]. destruct l as [|q kq vq a b]; [by eexists|].
  destruct IHl as [rest E]; [done|]. exists (rest ++ (p, (k, v)) :: nodes r). cbn [t_min].
  change (nodes (Node p k v (Node q kq vq a b) r)) with (nodes (Node q kq vq a b) ++ (p, (k, v)) :: nodes r).
  by rewrite E.
Qed.

(** The smallest key's entry comes first. *)
Lemma t_min_elems t p k v : t <> Leaf -> t_min t = (p, (k, v)) -> bst t -> elems t = (k, v) :: without k (elems t).
Proof.
  intros Ht Em Hb. destruct (t_min_nodes t Ht) as [rest E]. unfold bst, elems in *. rewrite E, Em in *. simpl in *.
  rewrite without_same. apply StronglySorted_inv in Hb as [_ Hf]. by rewrite without_id by by apply above_not_in.
Qed.

Record deleted (k target : Z) (t t' : tree) (target' : Z) : Prop := {
  del_elems : elems t' = without k (elems t);
  del_avl : avl t';
  del_height : theight t - 1 <= theight t' <= theight t;
  del_absent : k ∉ (elems t).*1 -> t' = t /\ target' = target;
  del_present : k ∈ (elems t).*1 -> target' ∈ (elems t).*2
}.

Lemma deleted_left k target p kp vp l l' r target' : avl (Node p kp vp l r) -> bst (Node p kp vp l r) -> k < kp ->
  deleted k target l l' target' -> deleted k target (Node p kp vp l r) (del_balance (Node p kp vp l' r)) target'.
Proof.
  rewrite bst_node. intros (Hbal & Hl & Hr) (_ & _ & _ & Hrk) Hk [].
  assert (Hkr : k ∉ (elems r).*1) by (apply above_not_in; eapply Forall_impl; [done|simpl; lia]).
  destruct (avl_del_balance p kp vp l' r) as (Ha & Hh & Hid); [done|done|lia|].
  assert (Hin : k ∈ (elems (Node p kp vp l r)).*1 <-> k ∈ (elems l).*1).
  { rewrite elems_node, fmap_app, elem_of_app, fmap_cons, elem_of_cons. simpl. split; [|tauto]. intros [|[|]]; [done|lia|done]. }
  split.
  - unfold elems. rewrite nodes_del_balance. fold (elems (Node p kp vp l' r)). fold (elems (Node p kp vp l r)).
    rewrite !elems_node, without_app, without_other, del_elems0, (without_id k (elems r)) by (done || lia). done.
  - done.
  - cbn [theight]. lia.
  - rewrite Hin. intros Hn. destruct (del_absent0 Hn) as [-> ->]. split; [|done]. by apply del_balance_id.
  - rewrite Hin. intros Hi. rewrite elems_node, fmap_app, elem_of_app. left. auto.
Qed.

Lemma deleted_right k target p kp vp l r r' target' : avl (Node p kp vp l r) -> bst (Node p kp vp l r) -> kp < k ->
  deleted k target r r' target' -> deleted k target (Node p kp vp l r) (del_balance (Node p kp vp l r')) target'.
Proof.
  rewrite bst_node. intros (Hbal & Hl & Hr) (_ & _ & Hlk & _) Hk [].
  assert (Hkl : k ∉ (elems l).*1) by (apply below_not_in; eapply Forall_impl; [done|simpl; lia]).
  destruct (avl_del_balance p kp vp l r') as (Ha & Hh & Hid); [done|done|lia|].
  assert (Hin : k ∈ (elems (Node p kp vp l r)).*1 <-> k ∈ (elems r).*1).
  { rewrite elems_node, fmap_app, elem_of_app, fmap_cons, elem_of_cons. simpl. split; [|tauto]. intros [|[|]]; [done|lia|done]. }
  split.
  - unfold elems. rewrite nodes_del_balance. fold (elems (Node p kp vp l r')). fold (elems (Node p kp vp l r)).
    rewrite !elems_node, without_app, without_other, del_elems0, (without_id k (elems l)) by (done || lia). done.
  - done.
  - cbn [theight]. lia.
  - rewrite Hin. intros Hn. destruct (del_absent0 Hn) as [-> ->]. split; [|done]. by apply del_balance_id.
  - rewrite Hin. intros Hi. rewrite elems_node, fmap_app, elem_of_app, fmap_cons, elem_of_cons. right. right. auto.
Qed.

(** The node that has the key is replaced by the smallest one above it. *)
Lemma deleted_root k target p vp l r r' k' v' q target' : avl (Node p k vp l r) -> bst (Node p k vp l r) ->
  r <> Leaf -> t_min r = (q, (k', v')) -> deleted k' target r r' target' ->
  deleted k target (Node p k vp l r) (del_balance (Node p k' v' l r')) target'.
Proof.
  intros (Hbal & Hl & Hr) Hb Hne Em []. rewrite bst_node in Hb. destruct Hb as (Hbl & Hbr & Hlk & Hrk).
  pose proof (t_min_elems r _ _ _ Hne Em Hbr) as Er.
  destruct (avl_del_balance p k' v' l r') as (Ha & Hh & Hid); [done|done|lia|].
  assert (Hin : k ∈ (elems (Node p k vp l r)).*1).
  { rewrite elems_node, fmap_app, elem_of_app, fmap_cons, elem_of_cons. simpl. auto. }
  split.
  - unfold elems. rewrite nodes_del_balance. fold (elems (Node p k' v' l r')). fold (elems (Node p k vp l r)).
    rewrite !elems_node, without_app, without_same, del_elems0, <-Er.
    by rewrite !without_id by (first [by apply above_not_in|by apply below_not_in]).
  - done.
  - cbn [theight]. lia.
  - done.
  - intros _. rewrite elems_node, fmap_app, elem_of_app, fmap_cons, elem_of_cons. right. right. apply del_present0.
    rewrite Er. simpl. left.
Qed.

Lemma deleted_leaf k target : deleted k target Leaf Leaf target.
Proof. split; simpl; try done. by intros ?%elem_of_nil. Qed.

Lemma height_leaf t : theight t <= 0 -> t = Leaf.
Proof. destruct t as [|? ? ? l r]; [done|]. pose proof (theight_nonneg l). simpl. lia. Qed.

(** A node with one child takes over the contents of the child, which is a leaf of the
    balanced tree. *)
Lemma deleted_single k target p vp q kq vq a b t : avl (Node q kq vq a b) -> theight (Node q kq vq a b) <= 1 ->
  kq <> k -> theight t = 2 -> elems t = [(kq, vq); (k, vp)] \/ elems t = [(k, vp); (kq, vq)] ->
  deleted k target t (del_balance (Node p kq vq a b)) vq.
Proof.
  intros Ha Hh Hne Ht Et. pose proof (theight_nonneg a). pose proof (theight_nonneg b). cbn [theight] in Hh.
  rewrite (height_leaf a), (height_leaf b) by lia. rewrite del_balance_id by done.
  assert (Hin : k ∈ (elems t).*1) by (destruct Et as [-> | ->]; simpl; set_solver).
  split.
  - destruct Et as [-> | ->]; rewrite ?without_same, ?without_other, ?without_same by done; done.
  - done.
  - rewrite Ht. simpl. lia.
  - done.
  - intros _. destruct Et as [-> | ->]; simpl; set_solver.
Qed.

Lemma t_delete_spec fuel k t target : theight t <= Z.of_nat fuel -> avl t -> bst t ->
  deleted k target t (t_delete fuel k t target).1 (t_delete fuel k t target).2.
Proof.
  revert k t target. induction fuel as [|fuel IH]; intros k t target Hf Ha Hb.
  { destruct t as [|? ? ? l r]; [apply deleted_leaf|]. pose proof (theight_nonneg l). simpl in Hf. lia. }
  destruct t as [|p kp vp l r]; [apply deleted_leaf|].
  pose proof Ha as (Hbal & Hal & Har). pose proof Hb as (Hbl & Hbr & _)%bst_node. cbn [theight] in Hf. cbn [t_delete].
  destruct (Z.ltb_spec k kp).
  { specialize (IH k l target ltac:(lia) Hal Hbl). destruct (t_delete fuel k l target). by apply deleted_left. }
  destruct (Z.ltb_spec kp k).
  { specialize (IH k r target ltac:(lia) Har Hbr). destruct (t_delete fuel k r target). by apply deleted_right. }
  assert (kp = k) as -> by lia. destruct r as [|q kq vq c d] eqn:Er, l as [|x kx vx a b] eqn:El.
  - assert (Ee : elems (Node p k vp Leaf Leaf) = [(k, vp)]) by done. split; rewrite ?Ee, ?without_same; simpl; try done; try lia.
    + by intros []%not_elem_of_cons.
    + intros _. left.
  - apply (deleted_single _ _ _ vp x); try done; [simpl in *; lia|..].
    + apply bst_node in Hb as (_ & _ & Hlk & _). rewrite elems_node, fmap_app, Forall_app, fmap_cons, Forall_cons in Hlk. simpl in Hlk. lia.
    + pose proof (theight_nonneg a). pose proof (theight_nonneg b). simpl in *. lia.
    + left. pose proof (theight_nonneg a). pose proof (theight_nonneg b). simpl in Hbal.
      by rewrite (height_leaf a), (height_leaf b) by lia.
  - apply (deleted_single _ _ _ vp q); try done; [simpl in *; lia|..].
    + apply bst_node in Hb as (_ & _ & _ & Hrk). rewrite elems_node, fmap_app, Forall_app, fmap_cons, Forall_cons in Hrk. simpl in Hrk. lia.
    + pose proof (theight_nonneg c). pose proof (theight_nonneg d). simpl in *. lia.
    + right. pose proof (theight_nonneg c). pose proof (theight_nonneg d). simpl in Hbal.
      by rewrite (height_leaf c), (height_leaf d) by lia.
  - rewrite <-Er, <-El in *. destruct (t_min r) as [q' [k' v']] eqn:Em.
    specialize (IH k' r target ltac:(lia) Har Hbr). destruct (t_delete fuel k' r target).
    apply (deleted_root _ _ _ _ _ _ _ _ _ q'); try done. by subst.
Qed.

(** ** Trees in memory *)

Definition hdr (t : tree) : AvlHeader :=
  match t with
  | Leaf => {| key := 0; value := 0; height := 0; left := 0; right := 0 |}
  | Node _ k v l r => {| key := k; value := v; height := theight t; left := root l; right := root r |}
  end.

(** The nodes of [t] are at their addresses, with their children and heights. *)
Fixpoint holds (bl : gmap Z AvlHeader) (t : tree) : Prop :=
  match t with
  | Leaf => True
  | Node p _ _ l r => p <> 0 /\ bl !! p = Some (hdr t) /\ holds bl l /\ holds bl r
  end.

(** The same, except that the height of the topmost node may be out of date. *)
Definition loose (bl : gmap Z AvlHeader) (t : tree) : Prop :=
  match t with
  | Leaf => True
  | Node p _ _ l r => p <> 0 /\ (exists h, bl !! p = Some (with_height (hdr t) h)) /\ holds bl l /\ holds bl r
  end.

Lemma holds_loose bl t : holds bl t -> loose bl t.
Proof. destruct t as [|p k v l r]; [done|]. intros (? & ? & ? & ?). split; [done|]. split; [|done]. by exists (theight (Node p k v l r)). Qed.

Lemma holds_frame bl bl' t : holds bl t -> (forall q, q ∈ addrs t -> bl' !! q = bl !! q) -> holds bl' t.
Proof.
  induction t as [|p k v l IHl r IHr]; [done|]. rewrite addrs_node. intros (Hp & Hb & Hl & Hr) Hq. simpl.
  split; [done|]. split; [|split]; [rewrite Hq; [done|set_solver]|apply IHl; [done|set_solver]|apply IHr; [done|set_solver]].
Qed.

Lemma holds_insert bl t q n : holds bl t -> q ∉ addrs t -> holds (<[q := n]> bl) t.
Proof. intros Ht Hq. eapply holds_frame; [done|]. intros x Hx. rewrite lookup_insert_ne; [done|]. by intros ->. Qed.

Lemma holds_root bl t : holds bl t -> (root t =? 0) = match t with Leaf => true | _ => false end.
Proof. destruct t; [done|]. intros (? & _). simpl. lia. Qed.

Lemma nodup_node p k v l r : NoDup (addrs (Node p k v l r)) <->
  (p ∉ addrs l) /\ (p ∉ addrs r) /\ (forall q, q ∈ addrs l -> q ∉ addrs r) /\ NoDup (addrs l) /\ NoDup (addrs r).
Proof. rewrite addrs_node, NoDup_app, NoDup_cons. set_solver. Qed.

Lemma in_node q p k v l r : q ∈ addrs (Node p k v l r) <-> q ∈ addrs l \/ q = p \/ q ∈ addrs r.
Proof. by rewrite addrs_node, elem_of_app, elem_of_cons. Qed.

(** The nodes of the two trees that take part in a rotation. *)
Lemma rotation_apart y ky vy x kx vx a b c : NoDup (addrs (Node y ky vy (Node x kx vx a b) c)) ->
  x <> y /\ NoDup (addrs (Node y ky vy b c)) /\ (x ∉ addrs (Node y ky vy b c)) /\
  (forall q, q ∈ addrs b \/ q ∈ addrs c -> q <> x /\ q <> y) /\
  (forall q, q ∈ addrs a -> q <> x /\ q <> y /\ (q ∉ addrs (Node y ky vy b c))).
Proof.
  rewrite !nodup_node. setoid_rewrite in_node. intros (H1 & H2 & H3 & (H4 & H5 & H6 & H7 & H8) & H9).
  repeat split; auto; try (intros ->; naive_solver); naive_solver.
Qed.
Lemma rotation_apart' x kx vx a y ky vy b c : NoDup (addrs (Node x kx vx a (Node y ky vy b c))) ->
  x <> y /\ NoDup (addrs (Node x kx vx a b)) /\ (y ∉ addrs (Node x kx vx a b)) /\
  (forall q, q ∈ addrs a \/ q ∈ addrs b -> q <> x /\ q <> y) /\
  (forall q, q ∈ addrs c -> q <> x /\ q <> y /\ (q ∉ addrs (Node x kx vx a b))).
Proof.
  rewrite !nodup_node. setoid_rewrite in_node. intros (H1 & H2 & H3 & H9 & (H4 & H5 & H6 & H7 & H8)).
  repeat split; auto; try (intros ->; naive_solver); naive_solver.
Qed.

Section avl_memory.
Context {H : Type} `{!Heap H}.
Local Abbreviation amem := (memory AvlHeader H).

(** From the nodes at [A], memory [m'] has made the tree [t'], in the sense of [P]; it has
    released the others and left alone the rest of the memory. *)
Record moved (P : gmap Z AvlHeader -> tree -> Prop) (A : list Z) (m m' : amem) (t' : tree) : Prop := {
  mv_mem : memory_ok m -> memory_ok m';
  mv_holds : P (blocks m') t';
  mv_nodup : NoDup (addrs t');
  mv_sub : forall q, q ∈ addrs t' -> q ∈ A;
  mv_freed : forall q, q ∈ A -> q ∉ addrs t' -> blocks m' !! q = None;
  mv_frame : forall q, q ∉ A -> blocks m' !! q = blocks m !! q
}.

Lemma moved_trans P Q A m m1 m2 t1 t2 : moved P A m m1 t1 -> moved Q (addrs t1) m1 m2 t2 -> moved Q A m m2 t2.
Proof.
  intros [] []. split; auto.
  - intros q Hq Hn. destruct (decide (q ∈ addrs t1)); [auto|]. rewrite mv_frame1 by done. auto.
  - intros q Hq. rewrite mv_frame1; [auto|]. intros ?%mv_sub0. done.
Qed.

Lemma moved_refl (P : gmap Z AvlHeader -> tree -> Prop) m t : P (blocks m) t -> NoDup (addrs t) -> moved P (addrs t) m m t.
Proof. split; auto. done. Qed.

Lemma moved_equiv P A A' m m' t : (forall q, q ∈ A <-> q ∈ A') -> moved P A m m' t -> moved P A' m m' t.
Proof. intros HA []. split; auto; intros q; rewrite <-HA; auto. Qed.

Lemma calc_height_ok (m : amem) t : holds (blocks m) t -> calc_height (root t) m = Ok (theight t, m).
Proof.
  intros Ht. unfold calc_height. rewrite (holds_root _ _ Ht). destruct t as [|p k v l r]; [done|].
  destruct Ht as (_ & Hb & _). by rewrite (st_bind_ok _ _ _ _ _ (kload_ok _ _ _ Hb)).
Qed.

Lemma loose_balance (m : amem) t : loose (blocks m) t -> theight t <= 1000 -> calc_balance (root t) m = Ok (tbalance t, m).
Proof.
  unfold calc_balance. destruct t as [|p k v l r]; [done|]. intros (Hp & (h & Hb) & Hl & Hr) Hh.
  cbn [root]. replace (p =? 0) with false by lia. rewrite (st_bind_ok _ _ _ _ _ (kload_ok _ _ _ Hb)). cbn [with_height left hdr].
  rewrite (st_bind_ok _ _ _ _ _ (calc_height_ok m l Hl)), (st_bind_ok _ _ _ _ _ (kload_ok _ _ _ Hb)). cbn [with_height right hdr].
  rewrite (st_bind_ok _ _ _ _ _ (calc_height_ok m r Hr)). pose proof (theight_nonneg l). pose proof (theight_nonneg r).
  cbn [theight] in Hh. unfold lift. rewrite isub_ok by (unfold is_i32; lia). done.
Qed.
Lemma calc_balance_ok (m : amem) t : holds (blocks m) t -> theight t <= 1000 -> calc_balance (root t) m = Ok (tbalance t, m).
Proof. intros. apply loose_balance; [by apply holds_loose|done]. Qed.

Lemma set_height_ok (m : amem) t : t <> Leaf -> loose (blocks m) t -> NoDup (addrs t) -> theight t <= 1000 ->
  exists m', set_height (root t) m = Ok (tt, m') /\ moved holds (addrs t) m m' t.
Proof.
  destruct t as [|p k v l r]; [done|]. intros _ (Hp & (h & Hb) & Hl & Hr) Hnd Hh.
  unfold set_height. cbn [root]. rewrite (st_bind_ok _ _ _ _ _ (kload_ok _ _ _ Hb)). cbn [with_height left hdr].
  rewrite (st_bind_ok _ _ _ _ _ (calc_height_ok m l Hl)), (st_bind_ok _ _ _ _ _ (kload_ok _ _ _ Hb)). cbn [with_height right hdr].
  rewrite (st_bind_ok _ _ _ _ _ (calc_height_ok m r Hr)). pose proof (theight_nonneg l). pose proof (theight_nonneg r).
  cbn [theight] in Hh. rewrite (lift_bind _ _ _ _ (iadd_ok (Z.max (theight l) (theight r)) 1 ltac:(unfold is_i32; lia))).
  rewrite (kstore_ok _ _ _ _ Hb). eexists. split; [done|]. pose proof Hnd as (? & ? & ? & ? & ?)%nodup_node. split; simpl.
  - intros. by apply memory_ok_store.
  - split; [done|]. split; [by rewrite lookup_insert_eq|]. by split; apply holds_insert.
  - done.
  - done.
  - intros q Hq Hn. done.
  - intros q Hq. rewrite lookup_insert_ne; [done|]. intros <-. apply Hq. rewrite addrs_node. set_solver.
Qed.

(** Putting a changed child into a node. *)
Lemma plug_left A m m' p k v l l' r : loose (blocks m) (Node p k v l r) -> NoDup (addrs (Node p k v l r)) ->
  moved holds A m m' l' -> (p ∉ A) -> (forall q, q ∈ A -> q ∉ addrs r) ->
  exists m2, kstore p (fun n => with_left n (root l')) m' = Ok (tt, m2) /\
    moved loose (A ++ p :: addrs r) m m2 (Node p k v l' r).
Proof.
  intros (Hp & (h & Hb) & Hl & Hr) Hnd [] HpA HAr. apply nodup_node in Hnd as (? & ? & ? & ? & ?).
  assert (Hb' : blocks m' !! p = Some (with_height (hdr (Node p k v l r)) h)) by by rewrite mv_frame0.
  rewrite (kstore_ok _ _ _ _ Hb'). eexists. split; [done|].
  assert (Hr' : holds (blocks m') r) by (eapply holds_frame; [done|]; intros q Hq; apply mv_frame0; intros HA; by destruct (HAr q)).
  split; simpl.
  - intros. apply memory_ok_store; [auto|by rewrite Hb'].
  - split; [done|]. split; [rewrite lookup_insert_eq; by exists h|]. split; apply holds_insert; auto.
  - apply nodup_node. repeat split; auto.
  - rewrite addrs_node. set_solver.
  - intros q. rewrite addrs_node. intros Hq Hn. rewrite lookup_insert_ne by set_solver. apply mv_freed0; set_solver.
  - intros q Hq. rewrite lookup_insert_ne by set_solver. apply mv_frame0. set_solver.
Qed.
Lemma plug_right A m m' p k v l r r' : loose (blocks m) (Node p k v l r) -> NoDup (addrs (Node p k v l r)) ->
  moved holds A m m' r' -> (p ∉ A) -> (forall q, q ∈ A -> q ∉ addrs l) ->
  exists m2, kstore p (fun n => with_right n (root r')) m' = Ok (tt, m2) /\
    moved loose (addrs l ++ p :: A) m m2 (Node p k v l r').
Proof.
  intros (Hp & (h & Hb) & Hl & Hr) Hnd [] HpA HAr. apply nodup_node in Hnd as (? & ? & ? & ? & ?).
  assert (Hb' : blocks m' !! p = Some (with_height (hdr (Node p k v l r)) h)) by by rewrite mv_frame0.
  rewrite (kstore_ok _ _ _ _ Hb'). eexists. split; [done|].
  assert (Hl' : holds (blocks m') l) by (eapply holds_frame; [done|]; intros q Hq; apply mv_frame0; intros HA; by destruct (HAr q)).
  split; simpl.
  - intros. apply memory_ok_store; [auto|by rewrite Hb'].
  - split; [done|]. split; [rewrite lookup_insert_eq; by exists h|]. split; apply holds_insert; auto.
  - apply nodup_node. repeat split; auto. intros q Hq Hq'. by destruct (HAr q); auto.
  - rewrite addrs_node. set_solver.
  - intros q. rewrite addrs_node. intros Hq Hn. rewrite lookup_insert_ne by set_solver. apply mv_freed0; set_solver.
  - intros q Hq. rewrite lookup_insert_ne by set_solver. apply mv_frame0. set_solver.
Qed.

(** A node that has just been given new children, with everything below it in place. *)
Lemma loose_moved A (m m' : amem) t : (memory_ok m -> memory_ok m') -> loose (blocks m') t -> NoDup (addrs t) ->
  (forall q, q ∈ A <-> q ∈ addrs t) -> (forall q, q ∉ A -> blocks m' !! q = blocks m !! q) -> moved loose A m m' t.
Proof. intros ? ? ? HA ?. split; auto; intros q Hq; [by apply HA|]. by rewrite HA in Hq. Qed.

Lemma rotate_right_ok (m : amem) y ky vy x kx vx a b c : let t := Node y ky vy (Node x kx vx a b) c in
  loose (blocks m) t -> NoDup (addrs t) -> theight t <= 900 ->
  exists m', avl_rotate_right y m = Ok (x, m') /\ moved holds (addrs t) m m' (rot_right t).
Proof.
  intros t (Hy & (h & Hby) & (Hx & Hbx & Ha & Hb) & Hc) Hnd Hh. pose proof Hnd as Hnd'.
  apply rotation_apart in Hnd' as (Hxy & Hnd1 & Hx1 & Hbc & Ha1).
  assert (Hout : forall q, q ∉ addrs t -> q <> x /\ q <> y /\ (q ∉ addrs (Node y ky vy b c)))
    by (intros q; unfold t; rewrite !in_node; naive_solver).
  unfold avl_rotate_right. rewrite (st_bind_ok _ _ _ _ _ (kload_ok _ _ _ Hby)). cbn [with_height left hdr root].
  rewrite (st_bind_ok _ _ _ _ _ (kload_ok _ _ _ Hbx)). cbn [right hdr].
  rewrite (st_bind_ok _ _ _ _ _ (kstore_ok _ _ _ _ Hbx)). set (m1 := with_block m x _).
  assert (Hby1 : blocks m1 !! y = Some (with_height (hdr t) h)) by by (simpl; rewrite lookup_insert_ne).
  rewrite (st_bind_ok _ _ _ _ _ (kstore_ok _ _ _ _ Hby1)). set (m2 := with_block m1 y _).
  assert (Hm2 : forall q, q <> x -> q <> y -> blocks m2 !! q = blocks m !! q) by (intros q ? ?; simpl; by rewrite !lookup_insert_ne).
  assert (Hmem : memory_ok m -> memory_ok m2).
  { intros Hm. apply memory_ok_store; [|by rewrite Hby1]. by apply memory_ok_store. }
  destruct (set_height_ok m2 (Node y ky vy b c)) as (m3 & E3 & M3); [done|..].
  { split; [done|]. split; [exists h; simpl; by rewrite lookup_insert_eq|].
    split; (eapply holds_frame; [done|]); intros q Hq; apply Hm2; apply Hbc; auto. }
  { done. }
  { subst t. cbn [theight] in Hh |- *. pose proof (theight_nonneg a). lia. }
  rewrite (st_bind_ok _ _ _ _ _ E3).
  assert (Hx3 : blocks m3 !! x = blocks m2 !! x) by by apply (mv_frame _ _ _ _ _ M3).
  assert (M : moved loose (addrs t) m m3 (rot_right t)).
  { apply loose_moved.
    - intros Hm. by apply (mv_mem _ _ _ _ _ M3), Hmem.
    - split; [done|]. split; [|split; [|by apply M3]].
      + eexists. rewrite Hx3. simpl. by rewrite lookup_insert_ne, lookup_insert_eq by done.
      + eapply holds_frame; [exact Ha|]. intros q Hq. apply Ha1 in Hq as (? & ? & ?). rewrite (mv_frame _ _ _ _ _ M3) by done. by apply Hm2.
    - unfold addrs. by rewrite nodes_rot_right.
    - intros q. unfold addrs. by rewrite nodes_rot_right.
    - intros q (? & ? & ?)%Hout. rewrite (mv_frame _ _ _ _ _ M3) by done. by apply Hm2. }
  destruct (set_height_ok m3 (rot_right t)) as (m4 & E4 & M4); [done|by apply M..| |].
  { subst t. cbn [theight rot_right] in Hh |- *. lia. }
  cbn [root rot_right t] in E4. rewrite (st_bind_ok _ _ _ _ _ E4). exists m4. split; [done|]. by eapply moved_trans.
Qed.

Lemma rotate_left_ok (m : amem) x kx vx a y ky vy b c : let t := Node x kx vx a (Node y ky vy b c) in
  loose (blocks m) t -> NoDup (addrs t) -> theight t <= 900 ->
  exists m', avl_rotate_left x m = Ok (y, m') /\ moved holds (addrs t) m m' (rot_left t).
Proof.
  intros t (Hx & (h & Hbx) & Ha & (Hy & Hby & Hb & Hc)) Hnd Hh. pose proof Hnd as Hnd'.
  apply rotation_apart' in Hnd' as (Hxy & Hnd1 & Hy1 & Hab & Hc1).
  assert (Hout : forall q, q ∉ addrs t -> q <> x /\ q <> y /\ (q ∉ addrs (Node x kx vx a b)))
    by (intros q; unfold t; rewrite !in_node; naive_solver).
  unfold avl_rotate_left. rewrite (st_bind_ok _ _ _ _ _ (kload_ok _ _ _ Hbx)). cbn [with_height right hdr root].
  rewrite (st_bind_ok _ _ _ _ _ (kload_ok _ _ _ Hby)). cbn [left hdr].
  rewrite (st_bind_ok _ _ _ _ _ (kstore_ok _ _ _ _ Hby)). set (m1 := with_block m y _).
  assert (Hbx1 : blocks m1 !! x = Some (with_height (hdr t) h)) by by (simpl; rewrite lookup_insert_ne).
  rewrite (st_bind_ok _ _ _ _ _ (kstore_ok _ _ _ _ Hbx1)). set (m2 := with_block m1 x _).
  assert (Hm2 : forall q, q <> x -> q <> y -> blocks m2 !! q = blocks m !! q) by (intros q ? ?; simpl; by rewrite !lookup_insert_ne).
  assert (Hmem : memory_ok m -> memory_ok m2).
  { intros Hm. apply memory_ok_store; [|by rewrite Hbx1]. by apply memory_ok_store. }
  destruct (set_height_ok m2 (Node x kx vx a b)) as (m3 & E3 & M3); [done|..].
  { split; [done|]. split; [exists h; simpl; by rewrite lookup_insert_eq|].
    split; (eapply holds_frame; [done|]); intros q Hq; apply Hm2; apply Hab; auto. }
  { done. }
  { subst t. cbn [theight] in Hh |- *. pose proof (theight_nonneg c). lia. }
  rewrite (st_bind_ok _ _ _ _ _ E3).
  assert (Hx3 : blocks m3 !! y = blocks m2 !! y) by by apply (mv_frame _ _ _ _ _ M3).
  assert (M : moved loose (addrs t) m m3 (rot_left t)).
  { apply loose_moved.
    - intros Hm. by apply (mv_mem _ _ _ _ _ M3), Hmem.
    - split; [done|]. split; [|split; [by apply M3|]].
      + eexists. rewrite Hx3. simpl. by rewrite lookup_insert_ne, lookup_insert_eq by done.
      + eapply holds_frame; [exact Hc|]. intros q Hq. apply Hc1 in Hq as (? & ? & ?). rewrite (mv_frame _ _ _ _ _ M3) by done. by apply Hm2.
    - unfold addrs. by rewrite nodes_rot_left.
    - intros q. unfold addrs. by rewrite nodes_rot_left.
    - intros q (? & ? & ?)%Hout. rewrite (mv_frame _ _ _ _ _ M3) by done. by apply Hm2. }
  destruct (set_height_ok m3 (rot_left t)) as (m4 & E4 & M4); [done|by apply M..| |].
  { subst t. cbn [theight rot_left] in Hh |- *. lia. }
  cbn [root rot_left t] in E4. rewrite (st_bind_ok _ _ _ _ _ E4). exists m4. split; [done|]. by eapply moved_trans.
Qed.

(** A rotation at a node whose child on that side exists. *)
Lemma rotate_right_node (m : amem) p k v l r : l <> Leaf -> loose (blocks m) (Node p k v l r) ->
  NoDup (addrs (Node p k v l r)) -> theight (Node p k v l r) <= 900 ->
  exists m', avl_rotate_right p m = Ok (root (rot_right (Node p k v l r)), m') /\
    moved holds (addrs (Node p k v l r)) m m' (rot_right (Node p k v l r)).
Proof. destruct l; [done|]. intros _. apply rotate_right_ok. Qed.
Lemma rotate_left_node (m : amem) p k v l r : r <> Leaf -> loose (blocks m) (Node p k v l r) ->
  NoDup (addrs (Node p k v l r)) -> theight (Node p k v l r) <= 900 ->
  exists m', avl_rotate_left p m = Ok (root (rot_left (Node p k v l r)), m') /\
    moved holds (addrs (Node p k v l r)) m m' (rot_left (Node p k v l r)).
Proof. destruct r; [done|]. intros _. apply rotate_left_ok. Qed.

(** The double rotations. *)
Lemma rotate_left_right_ok (m : amem) p k v l r : tbalance l < 0 -> loose (blocks m) (Node p k v l r) ->
  NoDup (addrs (Node p k v l r)) -> theight (Node p k v l r) <= 800 ->
  exists m', (x ← avl_rotate_left (root l); _ ← kstore p (fun n => with_left n x); avl_rotate_right p) m =
      Ok (root (rot_right (Node p k v (rot_left l) r)), m') /\
    moved holds (addrs (Node p k v l r)) m m' (rot_right (Node p k v (rot_left l) r)).
Proof.
  intros Hb Hl Hnd Hh. pose proof Hnd as (Hpl & Hpr & Hlr & Hnl & _)%nodup_node. destruct l as [|x kx vx a b]; [done|].
  assert (b <> Leaf) as Hb0 by (intros ->; pose proof (theight_nonneg a); simpl in Hb; lia).
  pose proof Hl as (_ & _ & Hll & _). pose proof (theight_nonneg r).
  destruct (rotate_left_node m x kx vx a b) as (m1 & E1 & M1); [done|by apply holds_loose|done|cbn [theight] in *; lia|].
  cbn [root]. rewrite (st_bind_ok _ _ _ _ _ E1).
  destruct (plug_left (addrs (Node x kx vx a b)) m m1 p k v (Node x kx vx a b) (rot_left (Node x kx vx a b)) r) as (m2 & E2 & M2); try done.
  rewrite (st_bind_ok _ _ _ _ _ E2).
  destruct (rotate_right_node m2 p k v (rot_left (Node x kx vx a b)) r) as (m3 & E3 & M3); [by destruct b|by apply M2|by apply M2|..].
  { destruct b; [done|]. cbn [rot_left theight] in *. lia. }
  exists m3. split; [done|]. eapply moved_trans; [|done]. by rewrite addrs_node.
Qed.
Lemma rotate_right_left_ok (m : amem) p k v l r : 0 < tbalance r -> loose (blocks m) (Node p k v l r) ->
  NoDup (addrs (Node p k v l r)) -> theight (Node p k v l r) <= 800 ->
  exists m', (x ← avl_rotate_right (root r); _ ← kstore p (fun n => with_right n x); avl_rotate_left p) m =
      Ok (root (rot_left (Node p k v l (rot_right r))), m') /\
    moved holds (addrs (Node p k v l r)) m m' (rot_left (Node p k v l (rot_right r))).
Proof.
  intros Hb Hl Hnd Hh. pose proof Hnd as (Hpl & Hpr & Hlr & _ & Hnr)%nodup_node. destruct r as [|x kx vx a b]; [done|].
  assert (a <> Leaf) as Hb0 by (intros ->; pose proof (theight_nonneg b); simpl in Hb; lia).
  pose proof Hl as (_ & _ & _ & Hll). pose proof (theight_nonneg l).
  destruct (rotate_right_node m x kx vx a b) as (m1 & E1 & M1); [done|by apply holds_loose|done|cbn [theight] in *; lia|].
  cbn [root]. rewrite (st_bind_ok _ _ _ _ _ E1).
  destruct (plug_right (addrs (Node x kx vx a b)) m m1 p k v l (Node x kx vx a b) (rot_right (Node x kx vx a b))) as (m2 & E2 & M2); try done.
  { intros q Hq Hq'. by destruct (Hlr q). }
  rewrite (st_bind_ok _ _ _ _ _ E2).
  destruct (rotate_left_node m2 p k v l (rot_right (Node x kx vx a b))) as (m3 & E3 & M3); [by destruct a|by apply M2|by apply M2|..].
  { destruct a; [done|]. cbn [rot_right theight] in *. lia. }
  exists m3. split; [done|]. eapply moved_trans; [|done]. by rewrite addrs_node.
Qed.

(** Tests of a child that exists when they are made. *)
Lemma test_key (m : amem) (c : bool) t (f : Z -> bool) : holds (blocks m) t -> (c = true -> t <> Leaf) ->
  (if c then k ← key_at (root t); mret (f k) else mret false) m = Ok (c && f (root_key t), m).
Proof.
  intros Ht Hc. destruct c; [|done]. destruct t as [|p k v l r]; [by destruct Hc|]. destruct Ht as (_ & Hb & _).
  unfold key_at. simpl root. unfold mbind, st_bind. by rewrite (kload_ok _ _ _ Hb).
Qed.
Lemma test_balance (m : amem) (c : bool) t (f : Z -> bool) : holds (blocks m) t -> theight t <= 1000 ->
  (if c then b ← calc_balance (root t); mret (f b) else mret false) m = Ok (c && f (tbalance t), m).
Proof. intros Ht Hc. destruct c; [|done]. by rewrite (st_bind_ok _ _ _ _ _ (calc_balance_ok m t Ht Hc)). Qed.

Lemma high_left l r : (1 <? theight l - theight r) = true -> l <> Leaf.
Proof. intros Hb ->. pose proof (theight_nonneg r). simpl in Hb. lia. Qed.
Lemma high_right l r : (theight l - theight r <? -1) = true -> r <> Leaf.
Proof. intros Hb ->. pose proof (theight_nonneg l). simpl in Hb. lia. Qed.

Lemma ins_balance_node k p kp vp l r : let t := Node p kp vp l r in
  ins_balance k t = if (1 <? tbalance t) && (k <? root_key l) then rot_right t
    else if (tbalance t <? -1) && (root_key r <? k) then rot_left t
    else if (1 <? tbalance t) && (root_key l <? k) then rot_right (Node p kp vp (rot_left l) r)
    else if (tbalance t <? -1) && (k <? root_key r) then rot_left (Node p kp vp l (rot_right r)) else t.
Proof. done. Qed.
Lemma del_balance_node p kp vp l r : let t := Node p kp vp l r in
  del_balance t = if (1 <? tbalance t) && (0 <=? tbalance l) then rot_right t
    else if (1 <? tbalance t) && (tbalance l <? 0) then rot_right (Node p kp vp (rot_left l) r)
    else if (tbalance t <? -1) && (tbalance r <=? 0) then rot_left t
    else if (tbalance t <? -1) && (0 <? tbalance r) then rot_left (Node p kp vp l (rot_right r)) else t.
Proof. done. Qed.

Lemma allocate_balance_ok (m : amem) k p kp vp l r : let t := Node p kp vp l r in
  loose (blocks m) t -> NoDup (addrs t) -> theight t <= 800 ->
  (1 < tbalance t -> root_key l < k -> tbalance l < 0) -> (tbalance t < -1 -> k < root_key r -> 0 < tbalance r) ->
  exists m', allocate_balance p k m = Ok (root (ins_balance k t), m') /\ moved holds (addrs t) m m' (ins_balance k t).
Proof.
  intros t Hl Hnd Hh Hrl Hrr. unfold allocate_balance.
  destruct (set_height_ok m t) as (m1 & E1 & M1); [done|done|done|lia|]. cbn [root t] in E1. rewrite (st_bind_ok _ _ _ _ _ E1).
  assert (Ht : holds (blocks m1) t) by apply M1. pose proof Ht as (Hp & Hb & Hhl & Hhr).
  rewrite (st_bind_ok _ _ _ _ _ (calc_balance_ok m1 t Ht ltac:(lia))), (st_bind_ok _ _ _ _ _ (kload_ok _ _ _ Hb)).
  change (left (hdr t)) with (root l). change (right (hdr t)) with (root r).
  assert (Hgoal : forall t' (f : ST amem Z), (exists m', f m1 = Ok (root t', m') /\ moved holds (addrs t) m1 m' t') ->
    exists m', f m1 = Ok (root t', m') /\ moved holds (addrs t) m m' t').
  { intros t' f (m' & E & M). exists m'. split; [done|]. by eapply moved_trans. }
  pose proof (holds_loose _ _ Ht) as Hl1. unfold t in Hgoal |- *. rewrite ins_balance_node. fold t in Hgoal |- *.
  rewrite (st_bind_ok _ _ _ _ _ (test_key m1 (1 <? tbalance t) l (fun kl => k <? kl) Hhl (high_left l r))).
  destruct ((1 <? tbalance t) && (k <? root_key l)) eqn:E; [apply Hgoal, rotate_right_node; try done; [|fold t; lia]; apply (high_left l r); by apply andb_prop in E as [? _]|].
  rewrite (st_bind_ok _ _ _ _ _ (test_key m1 (tbalance t <? -1) r (fun kr => kr <? k) Hhr (high_right l r))).
  destruct ((tbalance t <? -1) && (root_key r <? k)) eqn:E2; [apply Hgoal, rotate_left_node; try done; [|fold t; lia]; apply (high_right l r); by apply andb_prop in E2 as [? _]|].
  rewrite (st_bind_ok _ _ _ _ _ (test_key m1 (1 <? tbalance t) l (fun kl => kl <? k) Hhl (high_left l r))).
  destruct ((1 <? tbalance t) && (root_key l <? k)) eqn:E3; [apply Hgoal, rotate_left_right_ok; try done; apply Hrl; lia|].
  rewrite (st_bind_ok _ _ _ _ _ (test_key m1 (tbalance t <? -1) r (fun kr => k <? kr) Hhr (high_right l r))).
  destruct ((tbalance t <? -1) && (k <? root_key r)) eqn:E4; [apply Hgoal, rotate_right_left_ok; try done; apply Hrr; lia|].
  exists m1. by split.
Qed.

Lemma unregister_balance_ok (m : amem) p kp vp l r : let t := Node p kp vp l r in
  loose (blocks m) t -> NoDup (addrs t) -> theight t <= 800 ->
  exists m', unregister_balance p m = Ok (root (del_balance t), m') /\ moved holds (addrs t) m m' (del_balance t).
Proof.
  intros t Hl Hnd Hh. unfold unregister_balance.
  destruct (set_height_ok m t) as (m1 & E1 & M1); [done|done|done|lia|]. cbn [root t] in E1. rewrite (st_bind_ok _ _ _ _ _ E1).
  assert (Ht : holds (blocks m1) t) by apply M1. pose proof Ht as (Hp & Hb & Hhl & Hhr).
  rewrite (st_bind_ok _ _ _ _ _ (calc_balance_ok m1 t Ht ltac:(lia))), (st_bind_ok _ _ _ _ _ (kload_ok _ _ _ Hb)).
  change (left (hdr t)) with (root l). change (right (hdr t)) with (root r).
  assert (Hgoal : forall t' (f : ST amem Z), (exists m', f m1 = Ok (root t', m') /\ moved holds (addrs t) m1 m' t') ->
    exists m', f m1 = Ok (root t', m') /\ moved holds (addrs t) m m' t').
  { intros t' f (m' & E & M). exists m'. split; [done|]. by eapply moved_trans. }
  pose proof (holds_loose _ _ Ht) as Hl1. unfold t in Hgoal |- *. rewrite del_balance_node. fold t in Hgoal |- *. pose proof (theight_nonneg l). pose proof (theight_nonneg r).
  assert (theight l <= 1000 /\ theight r <= 1000) as [Hlh Hrh] by (unfold t in Hh; cbn [theight] in Hh; lia).
  rewrite (st_bind_ok _ _ _ _ _ (test_balance m1 (1 <? tbalance t) l (fun b => 0 <=? b) Hhl Hlh)).
  destruct ((1 <? tbalance t) && (0 <=? tbalance l)) eqn:E; [apply Hgoal, rotate_right_node; try done; [|fold t; lia]; apply (high_left l r); by apply andb_prop in E as [? _]|].
  rewrite (st_bind_ok _ _ _ _ _ (test_balance m1 (1 <? tbalance t) l (fun b => b <? 0) Hhl Hlh)).
  destruct ((1 <? tbalance t) && (tbalance l <? 0)) eqn:E2; [apply Hgoal, rotate_left_right_ok; try done; lia|].
  rewrite (st_bind_ok _ _ _ _ _ (test_balance m1 (tbalance t <? -1) r (fun b => b <=? 0) Hhr Hrh)).
  destruct ((tbalance t <? -1) && (tbalance r <=? 0)) eqn:E3; [apply Hgoal, rotate_left_node; try done; [|fold t; lia]; apply (high_right l r); by apply andb_prop in E3 as [? _]|].
  rewrite (st_bind_ok _ _ _ _ _ (test_balance m1 (tbalance t <? -1) r (fun b => 0 <? b) Hhr Hrh)).
  destruct ((tbalance t <? -1) && (0 <? tbalance r)) eqn:E4; [apply Hgoal, rotate_right_left_ok; try done; lia|].
  exists m1. by split.
Qed.

Lemma holds_in bl t q : holds bl t -> q ∈ addrs t -> is_Some (bl !! q).
Proof.
  induction t as [|p k v l IHl r IHr]; [by intros _ ?%elem_of_nil|]. intros (_ & Hb & Hl & Hr). rewrite in_node.
  intros [?|[->|?]]; [by apply IHl|by eexists|by apply IHr].
Qed.

(** *** Insertion in memory *)

(** Whether there is memory for one more node. *)
Definition no_memory (m : amem) : bool := (malloc SIZEOF_AVL_HEADER (heap m)).1 =? 0.

Lemma avl_allocate_node_ok k (m : amem) : memory_ok m ->
  if no_memory m then avl_allocate_node k m = Panic
  else exists p m', avl_allocate_node k m = Ok (p, m') /\ 0 < p /\ blocks m !! p = None /\
    moved holds [p] m m' (Node p k 0 Leaf Leaf).
Proof.
  intros Hm. unfold no_memory, avl_allocate_node.
  destruct (kmalloc_block (fun _ => {| key := 0; value := 0; height := 0; left := 0; right := 0 |}) SIZEOF_AVL_HEADER m Hm)
    as (p & m1 & E & Hm1 & Hcase).
  assert (Hp : (malloc SIZEOF_AVL_HEADER (heap m)).1 = p).
  { unfold kmalloc in E. destruct (malloc _ _) as [q h]. destruct (Z.eqb_spec q 0); by injection E as <- _. }
  rewrite Hp, (st_bind_ok _ _ _ _ _ E). destruct Hcase as [[-> _]|(Hp0 & Hnone & Hbl)]; [done|].
  replace (p =? 0) with false by lia. exists p. rewrite sassert_bind by done.
  erewrite st_bind_ok by (apply kstore_ok; rewrite Hbl; apply lookup_insert_eq).
  erewrite st_bind_ok by (apply kstore_ok; simpl; apply lookup_insert_eq).
  eexists. split; [done|]. split; [done|]. split; [done|].
  assert (Hsome : is_Some (blocks m1 !! p)) by (rewrite Hbl, lookup_insert_eq; by eexists). split; simpl.
  - intros _. apply memory_ok_store; [by apply memory_ok_store|]. simpl. rewrite lookup_insert_eq. by eexists.
  - split; [lia|]. by rewrite lookup_insert_eq.
  - apply NoDup_singleton.
  - done.
  - intros q Hq Hn. done.
  - intros q Hq%not_elem_of_cons. rewrite !lookup_insert_ne by naive_solver. rewrite Hbl. by rewrite lookup_insert_ne by naive_solver.
Qed.

(** What the rotations of an insertion rely on. *)
Lemma insert_left_leans k p q kq vq l r : avl (Node q kq vq l r) -> bst l -> k ∉ (elems l).*1 ->
  let t := Node q kq vq (t_insert k p l) r in
  (1 < tbalance t -> root_key (t_insert k p l) < k -> tbalance (t_insert k p l) < 0) /\ ~ tbalance t < -1.
Proof.
  intros (Hbal & Hal & Har) Hb Hk. destruct (avl_insert k p l Hal Hb Hk) as (_ & Hh & Hlean).
  pose proof (theight_nonneg r). cbn [tbalance]. split; [|lia]. intros H1 H2.
  destruct Hlean as [->|Hlean]; [lia|simpl in *; lia|]. destruct (t_insert k p l); [done|]. simpl in *. lia.
Qed.
Lemma insert_right_leans k p q kq vq l r : avl (Node q kq vq l r) -> bst r -> k ∉ (elems r).*1 ->
  let t := Node q kq vq l (t_insert k p r) in
  (tbalance t < -1 -> k < root_key (t_insert k p r) -> 0 < tbalance (t_insert k p r)) /\ ~ 1 < tbalance t.
Proof.
  intros (Hbal & Hal & Har) Hb Hk. destruct (avl_insert k p r Har Hb Hk) as (_ & Hh & Hlean).
  pose proof (theight_nonneg l). cbn [tbalance]. split; [|lia]. intros H1 H2.
  destruct Hlean as [->|Hlean]; [lia|simpl in *; lia|]. destruct (t_insert k p r); [done|]. simpl in *. lia.
Qed.

Lemma avl_allocate_l_ok fuel k t (m : amem) : theight t < Z.of_nat fuel -> theight t <= 700 -> memory_ok m ->
  holds (blocks m) t -> NoDup (addrs t) -> avl t -> bst t -> k ∉ (elems t).*1 ->
  if no_memory m then avl_allocate_l fuel (root t) k 0 m = Panic
  else exists p m', avl_allocate_l fuel (root t) k 0 m = Ok ((root (t_insert k p t), p), m') /\ 0 < p /\
    blocks m !! p = None /\ moved holds (p :: addrs t) m m' (t_insert k p t).
Proof.
  revert t. induction fuel as [|fuel IH]; intros t Hf Hh Hm Ht Hnd Ha Hb Hk; [pose proof (theight_nonneg t); lia|].
  cbn [avl_allocate_l]. rewrite (holds_root _ _ Ht). destruct t as [|q kq vq l r].
  { pose proof (avl_allocate_node_ok k m Hm) as Hn. destruct (no_memory m).
    - unfold mbind, st_bind. by rewrite Hn.
    - destruct Hn as (p & m' & E & Hp & Hnone & M). exists p, m'. by rewrite (st_bind_ok _ _ _ _ _ E). }
  pose proof (holds_loose _ _ Ht) as Hl. pose proof Ht as (Hq & Hbq & Htl & Htr). pose proof Hnd as (Hql & Hqr & Hlr & Hnl & Hnr)%nodup_node.
  pose proof Hb as (Hbl & Hbr & _)%bst_node. pose proof Ha as (_ & Hal & Har).
  rewrite elems_node, fmap_app, not_elem_of_app, fmap_cons, not_elem_of_cons in Hk. destruct Hk as (Hkl & Hne & Hkr).
  cbn [theight] in Hf, Hh. rewrite (st_bind_ok _ _ _ _ _ (kload_ok _ _ _ Hbq)). cbn [hdr key left right]. cbn [t_insert]. simpl in Hne.
  assert (Hfresh : forall p, blocks m !! p = None -> q <> p /\ (p ∉ addrs l) /\ (p ∉ addrs r)).
  { intros p Hp. repeat split; [intros ->; congruence|intros ?%(holds_in _ _ _ Htl)|intros ?%(holds_in _ _ _ Htr)];
      by destruct (blocks m !! p) eqn:?; simplify_eq; destruct H0. }
  destruct (Z.ltb_spec k kq).
  - specialize (IH l ltac:(lia) ltac:(lia) Hm Htl Hnl Hal Hbl Hkl). destruct (no_memory m).
    { unfold mbind, st_bind. by rewrite IH. }
    destruct IH as (p & m1 & E1 & Hp & Hnone & M1). destruct (Hfresh p Hnone) as (Hqp & _ & Hpr). exists p.
    destruct (avl_insert k p l Hal Hbl Hkl) as (_ & Hh' & _). destruct (insert_left_leans k p q kq vq l r Ha Hbl Hkl) as [Hr1 Hr2].
    destruct (plug_left _ _ _ _ _ _ _ _ _ Hl Hnd M1) as (m2 & E2 & M2);
      [by rewrite not_elem_of_cons|by intros x [->|?]%elem_of_cons; auto|].
    destruct (allocate_balance_ok m2 k q kq vq (t_insert k p l) r) as (m3 & E3 & M3); [apply M2|apply M2|cbn [theight]; lia|done|done|].
    exists m3. split; [|split; [done|split; [done|]]].
    + erewrite (st_bind_ok _ _ m p m2); [by rewrite (st_bind_ok _ _ _ _ _ E3)|].
      rewrite (st_bind_ok _ _ _ _ _ E1). by rewrite (st_bind_ok _ _ _ _ _ E2).
    + eapply moved_trans; [|done]. eapply moved_equiv; [|done]. intros x.
      rewrite elem_of_app, !elem_of_cons, in_node. tauto.
  - replace (kq <? k) with true by lia. specialize (IH r ltac:(lia) ltac:(lia) Hm Htr Hnr Har Hbr Hkr). destruct (no_memory m).
    { unfold mbind, st_bind. by rewrite IH. }
    destruct IH as (p & m1 & E1 & Hp & Hnone & M1). destruct (Hfresh p Hnone) as (Hqp & Hpl & _). exists p.
    destruct (avl_insert k p r Har Hbr Hkr) as (_ & Hh' & _). destruct (insert_right_leans k p q kq vq l r Ha Hbr Hkr) as [Hr1 Hr2].
    destruct (plug_right _ _ _ _ _ _ _ _ _ Hl Hnd M1) as (m2 & E2 & M2);
      [by rewrite not_elem_of_cons|intros x [->|Hx]%elem_of_cons; [done|]; intros Hx'; by destruct (Hlr x)|].
    destruct (allocate_balance_ok m2 k q kq vq l (t_insert k p r)) as (m3 & E3 & M3); [apply M2|apply M2|cbn [theight]; lia|done|done|].
    exists m3. split; [|split; [done|split; [done|]]].
    + erewrite (st_bind_ok _ _ m p m2); [by rewrite (st_bind_ok _ _ _ _ _ E3)|].
      rewrite (st_bind_ok _ _ _ _ _ E1). by rewrite (st_bind_ok _ _ _ _ _ E2).
    + eapply moved_trans; [|done]. eapply moved_equiv; [|done]. intros x.
      rewrite elem_of_app, !elem_of_cons, in_node. tauto.
Qed.

(** A key that is there makes the kernel panic. *)
Lemma avl_allocate_l_duplicate fuel k t (m : amem) : theight t < Z.of_nat fuel ->
  holds (blocks m) t -> bst t -> k ∈ (elems t).*1 -> avl_allocate_l fuel (root t) k 0 m = Panic.
Proof.
  revert t. induction fuel as [|fuel IH]; intros t Hf Ht Hb Hk; [pose proof (theight_nonneg t); lia|].
  cbn [avl_allocate_l]. rewrite (holds_root _ _ Ht). destruct t as [|q kq vq l r]; [by apply elem_of_nil in Hk|].
  pose proof Ht as (Hq & Hbq & Htl & Htr). apply bst_node in Hb as (Hbl & Hbr & Hlk & Hrk). cbn [theight] in Hf.
  rewrite elems_node, fmap_app, elem_of_app, fmap_cons, elem_of_cons in Hk. simpl in Hk.
  rewrite (st_bind_ok _ _ _ _ _ (kload_ok _ _ _ Hbq)). cbn [hdr key left right].
  rewrite Forall_forall in Hlk, Hrk. unfold mbind, st_bind. destruct (Z.ltb_spec k kq).
  - rewrite (IH l); [done|lia|done|done|]. destruct Hk as [?|[?|Hk]]; [done|lia|]. apply Hrk in Hk. lia.
  - destruct (Z.ltb_spec kq k); [|done]. rewrite (IH r); [done|lia|done|done|].
    destruct Hk as [Hk|[?|?]]; [|lia|done]. apply Hlk in Hk. lia.
Qed.

(** *** Removal in memory *)

Lemma avl_min_ok fuel t (m : amem) : theight t < Z.of_nat fuel -> holds (blocks m) t -> t <> Leaf ->
  avl_min_key_node fuel (root t) m = Ok ((t_min t).1, m) /\
  exists n, blocks m !! (t_min t).1 = Some n /\ key n = (t_min t).2.1 /\ value n = (t_min t).2.2.
Proof.
  revert t. induction fuel as [|fuel IH]; intros t Hf Ht Hne; [pose proof (theight_nonneg t); lia|].
  cbn [avl_min_key_node]. rewrite (holds_root _ _ Ht). destruct t as [|p k v l r]; [done|].
  destruct Ht as (Hp & Hb & Hl & Hr). cbn [root]. rewrite (st_bind_ok _ _ _ _ _ (kload_ok _ _ _ Hb)). cbn [hdr left].
  rewrite (holds_root _ _ Hl). destruct l as [|q kq vq a b]; [split; [done|]; by eexists|].
  change (t_min (Node p k v (Node q kq vq a b) r)) with (t_min (Node q kq vq a b)). apply IH; [|done|done].
  cbn [theight] in Hf |- *. lia.
Qed.

(** A leaf is released. *)
Lemma free_leaf_ok p k v (m : amem) : memory_ok m -> holds (blocks m) (Node p k v Leaf Leaf) ->
  exists m', kfree p m = Ok (tt, m') /\ moved holds [p] m m' Leaf.
Proof.
  intros Hm (Hp & Hb & _). destruct (kfree_ok p _ m Hm Hb) as (m' & E & Hm' & Hbl). exists m'. split; [done|].
  split; [done|done|constructor|by intros q ?%elem_of_nil|..].
  - intros q ->%list_elem_of_singleton _. rewrite Hbl. apply lookup_delete_eq.
  - intros q Hq%not_elem_of_cons. rewrite Hbl. apply lookup_delete_ne. naive_solver.
Qed.

(** A node takes over the contents of its only child, which is released. *)
Lemma takeover_ok p k v l r q kq vq a b (m : amem) : memory_ok m -> holds (blocks m) (Node p k v l r) ->
  NoDup (addrs (Node p k v l r)) ->
  (l = Node q kq vq a b /\ r = Leaf) \/ (l = Leaf /\ r = Node q kq vq a b) ->
  exists m1 m2, kstore p (fun _ => hdr (Node q kq vq a b)) m = Ok (tt, m1) /\ kfree q m1 = Ok (tt, m2) /\
    moved loose (addrs (Node p k v l r)) m m2 (Node p kq vq a b).
Proof.
  intros Hm (Hp & Hb & Hl & Hr) Hnd Hcase.
  assert (Hc : holds (blocks m) (Node q kq vq a b)) by by destruct Hcase as [[-> ->]|[-> ->]]. clear Hl Hr.
  assert (Hin : forall x, x ∈ addrs (Node p k v l r) <-> x = p \/ x = q \/ x ∈ addrs a \/ x ∈ addrs b).
  { intros x. rewrite in_node. destruct Hcase as [[-> ->]|[-> ->]]; rewrite in_node; pose proof (not_elem_of_nil x); tauto. }
  assert (Hndc : NoDup (addrs (Node q kq vq a b)) /\ p ∉ addrs (Node q kq vq a b)).
  { apply nodup_node in Hnd as (? & ? & _ & ? & ?). by destruct Hcase as [[-> ->]|[-> ->]]. }
  destruct Hndc as [(Hqa & Hqb & Hab & Hna & Hnb)%nodup_node Hpc]. rewrite in_node in Hpc. destruct Hc as (Hq & Hbq & Ha & Hbb).
  rewrite (kstore_ok _ _ _ _ Hb). set (m1 := with_block m p _). exists m1.
  assert (Hbq1 : blocks m1 !! q = Some (hdr (Node q kq vq a b))) by (simpl; rewrite lookup_insert_ne by naive_solver; done).
  destruct (kfree_ok q _ m1 ltac:(by apply memory_ok_store) Hbq1) as (m2 & E2 & Hm2 & Hbl). exists m2. split; [done|]. split; [done|].
  assert (Hsame : forall x, x <> p -> x <> q -> blocks m2 !! x = blocks m !! x).
  { intros x ? ?. rewrite Hbl, lookup_delete_ne by done. simpl. by rewrite lookup_insert_ne. }
  split.
  - done.
  - split; [done|]. split.
    + exists (theight (Node q kq vq a b)). rewrite Hbl, lookup_delete_ne by naive_solver. simpl. by rewrite lookup_insert_eq.
    + split; (eapply holds_frame; [done|]); intros x Hx; apply Hsame; naive_solver.
  - apply nodup_node. naive_solver.
  - intros x. rewrite in_node, Hin. tauto.
  - intros x. rewrite Hin, in_node. intros Hx Hn. assert (x = q) as -> by tauto. rewrite Hbl. apply lookup_delete_eq.
  - intros x. rewrite Hin. intros Hx. apply Hsame; tauto.
Qed.

(** A node gets another key and value. *)
Lemma relabel_ok p k v k' v' l r (m : amem) : holds (blocks m) (Node p k v l r) -> NoDup (addrs (Node p k v l r)) ->
  exists m1 m2, kstore p (fun n => with_key n k') m = Ok (tt, m1) /\ kstore p (fun n => with_value n v') m1 = Ok (tt, m2) /\
    moved loose (addrs (Node p k v l r)) m m2 (Node p k' v' l r).
Proof.
  intros (Hp & Hb & Hl & Hr) Hnd. pose proof Hnd as (? & ? & _)%nodup_node. rewrite (kstore_ok _ _ _ _ Hb). set (m1 := with_block m p _). exists m1.
  assert (Hb1 : blocks m1 !! p = Some (with_key (hdr (Node p k v l r)) k')) by (simpl; by rewrite lookup_insert_eq).
  rewrite (kstore_ok _ _ _ _ Hb1). eexists. split; [done|]. split; [done|]. apply loose_moved.
  - intros Hm. apply memory_ok_store; [by apply memory_ok_store|]. rewrite Hb1. by eexists.
  - split; [done|]. split; [eexists; simpl; by rewrite lookup_insert_eq|]. simpl. split; apply holds_insert; try apply holds_insert; done.
  - by rewrite addrs_node in Hnd |- *.
  - intros q. by rewrite !in_node.
  - intros q Hq. simpl. rewrite in_node in Hq. by rewrite !lookup_insert_ne by naive_solver.
Qed.

(** The end of every removal. *)
Lemma unregister_finish A (m m1 : amem) p k v l r (target : Z) : moved loose A m m1 (Node p k v l r) -> theight (Node p k v l r) <= 800 ->
  exists m', (x ← unregister_balance p; mret (x, target)) m1 = Ok ((root (del_balance (Node p k v l r)), target), m') /\
    moved holds A m m' (del_balance (Node p k v l r)).
Proof.
  intros M1 Hh. destruct (unregister_balance_ok m1 p k v l r) as (m2 & E2 & M2); [apply M1|apply M1|done|].
  rewrite (st_bind_ok _ _ _ _ _ E2). exists m2. split; [done|]. by eapply moved_trans.
Qed.

Lemma unregister_node_ok fuel p k vp l r target (m : amem) : let t := Node p k vp l r in
  theight r < Z.of_nat fuel -> theight t <= 700 -> memory_ok m -> holds (blocks m) t -> NoDup (addrs t) -> avl t -> bst t ->
  (forall k' m', memory_ok m' -> holds (blocks m') r -> exists m2,
     avl_unregister_l fuel (root r) k' target m' = Ok ((root (t_delete fuel k' r target).1, (t_delete fuel k' r target).2), m2) /\
     moved holds (addrs r) m' m2 (t_delete fuel k' r target).1) ->
  let d := t_delete (Datatypes.S fuel) k t target in
  exists m', unregister_node fuel (avl_unregister_l fuel) p (hdr t) target m = Ok ((root d.1, d.2), m') /\ moved holds (addrs t) m m' d.1.
Proof.
  intros t Hf Hh Hm Ht Hnd Ha Hb Hrec d. pose proof Ht as (Hp & Hbp & Htl & Htr).
  pose proof Hnd as (Hpl & Hpr & Hlr & Hnl & Hnr)%nodup_node. pose proof Hb as (_ & Hbr & _)%bst_node. pose proof Ha as (_ & _ & Har).
  unfold unregister_node. cbn [hdr key left right value t]. subst d. cbn [t_delete t]. rewrite Z.ltb_irrefl.
  rewrite (holds_root _ _ Htl), (holds_root _ _ Htr).
  destruct r as [|q kq vq c d], l as [|x kx vx a b]; cbn [orb negb root].
  - destruct (free_leaf_ok p k vp m Hm Ht) as (m1 & E1 & M1). exists m1. by rewrite Z.eqb_refl, (st_bind_ok _ _ _ _ _ E1).
  - replace (x =? 0) with false by (destruct Htl; lia). destruct Htl as (Hx & Hbx & _). rewrite (st_bind_ok _ _ _ _ _ (kload_ok _ _ _ Hbx)).
    destruct (takeover_ok p k vp _ _ x kx vx a b m Hm Ht Hnd ltac:(by left)) as (m1 & m2 & E1 & E2 & M).
    rewrite (st_bind_ok _ _ _ _ _ E1), (st_bind_ok _ _ _ _ _ E2). apply unregister_finish; [done|]. unfold t in Hh. cbn [theight] in *. lia.
  - replace (q =? 0) with false by (destruct Htr; lia). destruct Htr as (Hx & Hbx & _). rewrite (st_bind_ok _ _ _ _ _ (kload_ok _ _ _ Hbx)).
    destruct (takeover_ok p k vp _ _ q kq vq c d m Hm Ht Hnd ltac:(by right)) as (m1 & m2 & E1 & E2 & M).
    rewrite (st_bind_ok _ _ _ _ _ E1), (st_bind_ok _ _ _ _ _ E2). apply unregister_finish; [done|]. unfold t in Hh. cbn [theight] in *. lia.
  - set (l := Node x kx vx a b) in *. set (r := Node q kq vq c d) in *.
    destruct (avl_min_ok fuel r m Hf Htr ltac:(done)) as (E0 & n & Hbn & Hkn & Hvn). change q with (root r).
    rewrite (st_bind_ok _ _ _ _ _ E0), (st_bind_ok _ _ _ _ _ (kload_ok _ _ _ Hbn)). rewrite Hkn, Hvn.
    destruct (t_min r) as [p' [k' v']] eqn:Em. cbn [fst snd].
    destruct (relabel_ok p k vp k' v' l r m Ht Hnd) as (m1 & m2 & E1 & E2 & M).
    rewrite (st_bind_ok _ _ _ _ _ E1), (st_bind_ok _ _ _ _ _ E2).
    pose proof (del_height _ _ _ _ _ (t_delete_spec fuel k' r target ltac:(lia) Har Hbr)) as Hd.
    pose proof (mv_holds _ _ _ _ _ M) as Hl2. destruct (Hrec k' m2) as (m3 & E3 & M3); [by apply M|apply Hl2|].
    destruct (t_delete fuel k' r target) as [r' tg]. cbn [fst snd] in *. rewrite (st_bind_ok _ _ _ _ _ E3).
    destruct (plug_right _ _ _ _ _ _ _ _ _ Hl2 (mv_nodup _ _ _ _ _ M) M3) as (m4 & E4 & M4); [done|intros y Hy Hy'; by destruct (Hlr y)|].
    rewrite (st_bind_ok _ _ _ _ _ E4). apply unregister_finish; [|unfold t in Hh; cbn [theight] in Hh |- *; lia].
    eapply moved_trans; [exact M|]. by rewrite addrs_node.
Qed.

Lemma avl_unregister_l_ok fuel k t target (m : amem) : theight t < Z.of_nat fuel -> theight t <= 700 -> memory_ok m ->
  holds (blocks m) t -> NoDup (addrs t) -> avl t -> bst t ->
  let d := t_delete fuel k t target in
  exists m', avl_unregister_l fuel (root t) k target m = Ok ((root d.1, d.2), m') /\ moved holds (addrs t) m m' d.1.
Proof.
  revert k t target m. induction fuel as [|fuel IH]; intros k t target m Hf Hh Hm Ht Hnd Ha Hb d; [pose proof (theight_nonneg t); lia|].
  cbn [avl_unregister_l]. rewrite (holds_root _ _ Ht). destruct t as [|p kp vp l r].
  { exists m. split; [done|]. by apply moved_refl. }
  pose proof (holds_loose _ _ Ht) as Hl. pose proof Ht as (Hp & Hbp & Htl & Htr). pose proof Hnd as (Hpl & Hpr & Hlr & Hnl & Hnr)%nodup_node.
  pose proof Hb as (Hbl & Hbr & _)%bst_node. pose proof Ha as (_ & Hal & Har). pose proof (theight_nonneg l). pose proof (theight_nonneg r).
  pose proof Hf as Hf'. cbn [theight] in Hf'. pose proof Hh as Hh'. cbn [theight] in Hh'. cbn [root].
  rewrite (st_bind_ok _ _ _ _ _ (kload_ok _ _ _ Hbp)). change (key (hdr (Node p kp vp l r))) with kp. destruct (Z.ltb_spec k kp) as [Hlt|].
  { pose proof (del_height _ _ _ _ _ (t_delete_spec fuel k l target ltac:(lia) Hal Hbl)) as Hd.
    destruct (IH k l target m ltac:(lia) ltac:(lia) Hm Htl Hnl Hal Hbl) as (m1 & E1 & M1).
    subst d. cbn [t_delete]. apply Z.ltb_lt in Hlt as ->. cbn [left hdr]. rewrite (st_bind_ok _ _ _ _ _ E1).
    destruct (t_delete fuel k l target) as [l' tg]. cbn [fst snd] in *.
    destruct (plug_left _ _ _ _ _ _ _ _ _ Hl Hnd M1) as (m2 & E2 & M2); [done|done|].
    rewrite (st_bind_ok _ _ _ _ _ E2). apply unregister_finish; [by rewrite addrs_node|cbn [theight]; lia]. }
  destruct (Z.ltb_spec kp k) as [Hlt|].
  { pose proof (del_height _ _ _ _ _ (t_delete_spec fuel k r target ltac:(lia) Har Hbr)) as Hd.
    destruct (IH k r target m ltac:(lia) ltac:(lia) Hm Htr Hnr Har Hbr) as (m1 & E1 & M1).
    subst d. cbn [t_delete]. replace (k <? kp) with false by lia. apply Z.ltb_lt in Hlt as ->. cbn [right hdr]. rewrite (st_bind_ok _ _ _ _ _ E1).
    destruct (t_delete fuel k r target) as [r' tg]. cbn [fst snd] in *.
    destruct (plug_right _ _ _ _ _ _ _ _ _ Hl Hnd M1) as (m2 & E2 & M2); [done|intros x Hx Hx'; by destruct (Hlr x)|].
    rewrite (st_bind_ok _ _ _ _ _ E2). apply unregister_finish; [by rewrite addrs_node|cbn [theight]; lia]. }
  assert (kp = k) as -> by lia. apply unregister_node_ok; try done; [lia|]. intros k' m' Hm' Hr'. apply IH; auto; lia.
Qed.

(** *** Looking up *)

Lemma lookup_elems k (l1 l2 : list (Z * Z)) kp vp : Forall (fun y => y < kp) l1.*1 -> Forall (fun y => kp < y) l2.*1 ->
  (list_to_map (l1 ++ (kp, vp) :: l2) : gmap Z Z) !! k =
    if kp <? k then (list_to_map l2 : gmap Z Z) !! k else if k <? kp then (list_to_map l1 : gmap Z Z) !! k else Some vp.
Proof.
  intros H1 H2. rewrite list_to_map_app, lookup_union, list_to_map_cons.
  destruct (Z.ltb_spec kp k); [|destruct (Z.ltb_spec k kp)].
  - rewrite lookup_insert_ne by lia. rewrite (not_elem_of_list_to_map_1 l1); [by destruct (_ !! _)|].
    apply below_not_in. eapply Forall_impl; [done|]. simpl. lia.
  - rewrite lookup_insert_ne by lia. rewrite (not_elem_of_list_to_map_1 l2); [by destruct (_ !! _)|].
    apply above_not_in. eapply Forall_impl; [done|]. simpl. lia.
  - assert (k = kp) as -> by lia. rewrite lookup_insert_eq. rewrite (not_elem_of_list_to_map_1 l1); [done|]. by apply below_not_in.
Qed.

Lemma avl_lookup_l_ok fuel k t (m : amem) : theight t < Z.of_nat fuel -> holds (blocks m) t -> bst t ->
  avl_lookup_l fuel (root t) k m = Ok (default 0 (tmap t !! k), m).
Proof.
  revert t. induction fuel as [|fuel IH]; intros t Hf Ht Hb; [pose proof (theight_nonneg t); lia|].
  cbn [avl_lookup_l]. rewrite (holds_root _ _ Ht). destruct t as [|p kp vp l r]; [done|].
  destruct Ht as (Hp & Hbp & Hl & Hr). apply bst_node in Hb as (Hbl & Hbr & Hlk & Hrk). cbn [theight] in Hf.
  rewrite (st_bind_ok _ _ _ _ _ (kload_ok _ _ _ Hbp)). cbn [hdr key left right value].
  unfold tmap. rewrite elems_node, lookup_elems by done. destruct (kp <? k); [apply IH; auto; lia|].
  destruct (k <? kp); [apply IH; auto; lia|done].
Qed.

(** *** The value of a node *)

Fixpoint t_put (p v : Z) (t : tree) : tree :=
  match t with
  | Leaf => Leaf
  | Node q k w l r => Node q k (if q =? p then v else w) (t_put p v l) (t_put p v r)
  end.

Lemma t_put_shape p v t : root (t_put p v t) = root t /\ theight (t_put p v t) = theight t /\ (avl (t_put p v t) <-> avl t).
Proof.
  induction t as [|q k w l (Hl1 & Hl2 & Hl3) r (Hr1 & Hr2 & Hr3)]; [done|]. simpl. rewrite Hl2, Hr2. tauto.
Qed.

Lemma nodes_put p v t : nodes (t_put p v t) = (fun x => (x.1, (x.2.1, if x.1 =? p then v else x.2.2))) <$> nodes t.
Proof. induction t as [|q k w l IHl r IHr]; [done|]. simpl. by rewrite fmap_app, IHl, IHr. Qed.

Lemma holds_put bl t p v n : holds bl t -> bl !! p = Some n -> holds (<[p := with_value n v]> bl) (t_put p v t).
Proof.
  induction t as [|q k w l IHl r IHr]; [done|]. intros (Hq & Hb & Hl & Hr) Hp.
  destruct (t_put_shape p v l) as (El1 & El2 & _), (t_put_shape p v r) as (Er1 & Er2 & _).
  split; [done|]. split; [|by split; [apply IHl|apply IHr]]. cbn [t_put hdr theight]. rewrite El1, El2, Er1, Er2.
  destruct (Z.eqb_spec q p) as [->|Hne]; [rewrite lookup_insert_eq; by simplify_eq|]. by rewrite lookup_insert_ne by done.
Qed.

Lemma holds_nodes bl t q k v : holds bl t -> (q, (k, v)) ∈ nodes t -> exists n, bl !! q = Some n /\ key n = k /\ value n = v.
Proof.
  induction t as [|p kp vp l IHl r IHr]; [by intros _ ?%elem_of_nil|]. intros (_ & Hb & Hl & Hr). simpl.
  rewrite elem_of_app, elem_of_cons. intros [?|[[= -> -> ->]|?]]; [by apply IHl|by eexists|by apply IHr].
Qed.

(** ** The tree implements a map *)

(** At [p] in memory [m] is a tree for the map [f]; [R] is the rest of the memory. *)
Definition avl_ok (R : gmap Z AvlHeader) (p : Z) (m : amem) (f : gmap Z Z) : Prop :=
  memory_ok m /\ exists t, root t = p /\ tmap t = f /\ holds (blocks m) t /\ NoDup (addrs t) /\ avl t /\ bst t /\
    (forall q, q ∈ addrs t -> R !! q = None) /\ (forall q, q ∉ addrs t -> blocks m !! q = R !! q).

Lemma bst_nodup t : bst t -> NoDup (elems t).*1.
Proof.
  unfold bst. generalize (elems t).*1. induction 1 as [|x l Hs IH Hf]; constructor; [|done]. by apply above_not_in.
Qed.

Lemma tmap_in t k : k ∈ (elems t).*1 <-> is_Some (tmap t !! k).
Proof.
  unfold tmap. split.
  - intros Hk. destruct ((list_to_map (elems t) : gmap Z Z) !! k) eqn:E; [by eexists|]. by apply not_elem_of_list_to_map in E.
  - intros Hs. destruct (decide (k ∈ (elems t).*1)) as [|Hn]; [done|]. apply (not_elem_of_list_to_map_1 (M := gmap Z)) in Hn.
    rewrite Hn in Hs. by destruct Hs.
Qed.

Lemma tmap_size t : bst t -> length (nodes t) = size (tmap t).
Proof.
  intros Hb. unfold tmap. rewrite <-(length_fmap snd). change (nodes t).*2 with (elems t).
  pose proof (bst_nodup t Hb) as Hnd. induction (elems t) as [|[k v] l IH]; [done|]. simpl in *.
  apply NoDup_cons in Hnd as [Hk Hnd]. rewrite map_size_insert_None, IH by (done || by apply not_elem_of_list_to_map_1). done.
Qed.

Lemma avl_fuel_enough (m : amem) t : holds (blocks m) t -> NoDup (addrs t) -> theight t < Z.of_nat (Datatypes.S (size (blocks m))).
Proof.
  intros Ht Hnd. pose proof (theight_size t) as Hs.
  assert (Hsub : list_to_set (addrs t) ⊆ (dom (blocks m) : gset Z)).
  { intros q Hq%elem_of_list_to_set. apply elem_of_dom. by eapply holds_in. }
  apply subseteq_size in Hsub. rewrite size_list_to_set, size_dom in Hsub by done. unfold addrs in Hsub. rewrite length_fmap in Hsub. lia.
Qed.

Lemma tmap_without k t t' : elems t' = without k (elems t) -> tmap t' = delete k (tmap t).
Proof.
  unfold tmap. intros ->. induction (elems t) as [|[k' v] l IH]; [simpl; by rewrite delete_empty|].
  destruct (decide (k' = k)) as [->|Hne].
  - rewrite without_same, IH. simpl. apply map_eq. intros i. rewrite !lookup_delete, lookup_insert. by repeat case_decide.
  - rewrite without_other by done. simpl. rewrite IH. by rewrite delete_insert_ne by done.
Qed.

Lemma tmap_insert k v p t : bst t -> k ∉ (elems t).*1 -> p ∉ addrs t ->
  let t' := t_put p v (t_insert k p t) in bst t' /\ tmap t' = <[k := v]> (tmap t) /\ addrs t' ≡ₚ p :: addrs t /\ (p, (k, v)) ∈ nodes t'.
Proof.
  intros Hb Hk Hp t'. destruct (nodes_insert k p t Hb Hk) as (l1 & l2 & E & E' & H1 & H2).
  assert (Hid : forall l, p ∉ l.*1 -> (fun x : Z * (Z * Z) => (x.1, (x.2.1, if x.1 =? p then v else x.2.2))) <$> l = l).
  { induction l as [|[q [kq vq]] l IH]; [done|]. rewrite fmap_cons, not_elem_of_cons. simpl. intros [Hq Hl].
    replace (q =? p) with false by lia. f_equal. by apply IH. }
  assert (En : nodes t' = l1 ++ (p, (k, v)) :: l2).
  { unfold addrs in Hp. rewrite E, fmap_app, not_elem_of_app in Hp. destruct Hp. unfold t'.
    rewrite nodes_put, E', fmap_app, fmap_cons, !Hid by done. simpl. by rewrite Z.eqb_refl. }
  unfold bst, tmap, elems, addrs in *. rewrite E in *. rewrite En. rewrite !fmap_app, !fmap_cons in *. simpl. split; [|split; [|split]].
  - apply sorted_mid. split; [|split; [|done]].
    + by apply StronglySorted_app_1_l in Hb.
    + by apply StronglySorted_app_1_r in Hb.
  - rewrite !list_to_map_app. simpl. rewrite insert_union_r; [done|]. apply not_elem_of_list_to_map_1. by apply below_not_in.
  - by rewrite Permutation_middle.
  - apply elem_of_app. right. left.
Qed.

Lemma avl_allocate_ok R p (m : amem) f k v : avl_ok R p m f -> Z.of_nat (size f) <= usize_MAX ->
  if bool_decide (is_Some (f !! k)) || no_memory m then avl_allocate p k v m = Panic
  else exists q p' m', avl_allocate p k v m = Ok ((q, p'), m') /\ avl_ok R p' m' (<[k := v]> f) /\
    exists n, blocks m' !! q = Some n /\ key n = k /\ value n = v.
Proof.
  intros (Hm & t & <- & <- & Ht & Hnd & Ha & Hb & HR & Hrest) Hsz.
  pose proof (avl_fuel_enough m t Ht Hnd) as Hfuel. rewrite <-tmap_size in Hsz by done. pose proof (avl_height t Ha Hsz) as Hh.
  unfold avl_allocate. rewrite (st_bind_ok avl_fuel _ _ _ m eq_refl).
  case_bool_decide as Hk; cbn [orb].
  { apply tmap_in in Hk. unfold mbind, st_bind. by rewrite avl_allocate_l_duplicate. }
  rewrite <-tmap_in in Hk.
  pose proof (avl_allocate_l_ok _ k t m Hfuel ltac:(lia) Hm Ht Hnd Ha Hb Hk) as Hal.
  destruct (no_memory m); [unfold mbind, st_bind; by rewrite Hal|].
  destruct Hal as (q & m1 & E1 & Hq & Hnone & M). rewrite (st_bind_ok _ _ _ _ _ E1), sassert_bind by lia.
  assert (Hqt : q ∉ addrs t) by (intros [? ?]%(holds_in _ _ _ Ht); congruence).
  destruct (tmap_insert k v q t Hb Hk Hqt) as (Hb' & Em & Hp & Hnode). set (t' := t_insert k q t) in *.
  destruct (t_put_shape q v t') as (Er & Eh & Eavl). pose proof (mv_holds _ _ _ _ _ M) as Ht'.
  assert (Eaddr : addrs (t_put q v t') = addrs t') by (unfold addrs; rewrite nodes_put, <-list_fmap_compose; by apply list_fmap_ext).
  rewrite Eaddr in Hp. assert (Hin : q ∈ addrs t') by (rewrite Hp; left).
  destruct (holds_in _ _ _ Ht' Hin) as [n Hn]. rewrite (st_bind_ok _ _ _ _ _ (kstore_ok _ _ _ _ Hn)).
  pose proof (holds_put _ _ q v n Ht' Hn) as Hput. destruct (holds_nodes _ _ _ _ _ Hput Hnode) as (n' & Hn' & Hkv).
  exists q, (root t'), (with_block m1 q (with_value n v)). split; [done|]. split; [|by exists n'].
  split; [apply memory_ok_store; [by apply M|by rewrite Hn]|]. exists (t_put q v t').
  split; [done|]. split; [done|]. split; [done|]. split; [rewrite Eaddr; apply M|].
  split; [apply Eavl; by apply avl_insert|]. split; [done|]. rewrite Eaddr. split.
  - intros x. rewrite Hp, elem_of_cons. intros [->|Hx]; [|by apply HR]. by rewrite <-Hrest.
  - intros x. rewrite Hp, not_elem_of_cons. intros [Hxq Hx]. simpl. rewrite lookup_insert_ne by done.
    rewrite (mv_frame _ _ _ _ _ M) by by rewrite not_elem_of_cons. by apply Hrest.
Qed.

Lemma avl_unregister_ok R p (m : amem) f k : avl_ok R p m f -> Z.of_nat (size f) <= usize_MAX ->
  exists b p' m', avl_unregister p k m = Ok ((b, p'), m') /\ avl_ok R p' m' (delete k f) /\
    (f !! k = None -> b = false /\ p' = p) /\
    ((forall x v, f !! x = Some v -> v <> 0) -> b = bool_decide (is_Some (f !! k))).
Proof.
  intros (Hm & t & <- & <- & Ht & Hnd & Ha & Hb & HR & Hrest) Hsz.
  pose proof (avl_fuel_enough m t Ht Hnd) as Hfuel. rewrite <-tmap_size in Hsz by done. pose proof (avl_height t Ha Hsz) as Hh.
  unfold avl_unregister. rewrite (st_bind_ok avl_fuel _ _ _ m eq_refl).
  destruct (avl_unregister_l_ok _ k t 0 m Hfuel ltac:(lia) Hm Ht Hnd Ha Hb) as (m' & E & M).
  pose proof (t_delete_spec (Datatypes.S (size (blocks m))) k t 0 ltac:(lia) Ha Hb) as Hd.
  rewrite (st_bind_ok _ _ _ _ _ E). destruct (t_delete _ k t 0) as [t' tg]. cbn [fst snd] in *. destruct Hd.
  do 3 eexists. split; [done|]. split; [|split].
  - split; [by apply M|]. exists t'. split; [done|]. split; [by apply tmap_without|]. split; [apply M|]. split; [apply M|]. split; [done|].
    split; [|split].
    + unfold bst. rewrite del_elems0. unfold without. clear -Hb. unfold bst in Hb.
      induction (elems t) as [|x l IH]; [constructor|]. simpl in Hb. apply StronglySorted_inv in Hb as [Hs Hf].
      rewrite filter_cons. case_decide; [|by apply IH]. simpl. constructor; [by apply IH|].
      rewrite Forall_forall in Hf |- *. intros y (z & -> & [_ Hz]%list_elem_of_filter)%list_elem_of_fmap. apply Hf. by apply list_elem_of_fmap_2.
    + intros q Hq. apply HR. by apply (mv_sub _ _ _ _ _ M).
    + intros q Hq. destruct (decide (q ∈ addrs t)) as [Hin|Hin].
      * rewrite (mv_freed _ _ _ _ _ M) by done. symmetry. by apply HR.
      * rewrite (mv_frame _ _ _ _ _ M) by done. by apply Hrest.
  - intros Hn. assert (k ∉ (elems t).*1) as Hk by (rewrite tmap_in, Hn; by intros []). by destruct (del_absent0 Hk) as [-> ->].
  - intros Hv. case_bool_decide as Hs.
    + apply tmap_in in Hs. apply del_present0 in Hs as ([x v] & -> & Hx)%list_elem_of_fmap. simpl.
      assert (v <> 0); [|lia]. apply (Hv x). apply elem_of_list_to_map_1; [by apply bst_nodup|done].
    + rewrite <-tmap_in in Hs. by destruct (del_absent0 Hs) as [_ ->].
Qed.

(** C7. The AVL tree implements a finite map.  In a memory [m] where [p] points to an
    ordered and balanced tree for the map [f] (of less than [2^64] keys) and [R] is everything
    else: [avl_lookup] returns the value of a key, or 0; [avl_allocate]
    panics if the key is there or there is no memory, and otherwise leaves an ordered and balanced tree
    for the map with the key added, and returns the node with the key and the
    value; [avl_unregister] leaves such a tree for the map without the key.
    Memory outside the tree is untouched, a node that is no longer used is
    released, no pointer is followed outside the nodes and no recursion runs out of
    steps.  The result of [avl_unregister] is [false] for a key that is not
    there, and tells whether it was there if no value in the tree is 0. *)
Theorem avl_tree_refines_map R p (m : amem) f : avl_ok R p m f -> Z.of_nat (size f) <= usize_MAX ->
  (forall k, avl_lookup p k m = Ok (default 0 (f !! k), m)) /\
  (forall k v, if bool_decide (is_Some (f !! k)) || no_memory m then avl_allocate p k v m = Panic
     else exists q p' m', avl_allocate p k v m = Ok ((q, p'), m') /\ avl_ok R p' m' (<[k := v]> f) /\
       exists n, blocks m' !! q = Some n /\ key n = k /\ value n = v) /\
  (forall k, exists b p' m', avl_unregister p k m = Ok ((b, p'), m') /\ avl_ok R p' m' (delete k f) /\
     (f !! k = None -> b = false /\ p' = p) /\
     ((forall x v, f !! x = Some v -> v <> 0) -> b = bool_decide (is_Some (f !! k)))).
Proof.
  intros Hok Hsz. split; [|split].
  - intros k. pose proof Hok as (Hm & t & <- & <- & Ht & Hnd & Ha & Hb & _). unfold avl_lookup.
    rewrite (st_bind_ok avl_fuel _ _ _ m eq_refl). apply avl_lookup_l_ok; [by apply avl_fuel_enough|done|done].
  - intros k v. by apply avl_allocate_ok.
  - intros k. by apply avl_unregister_ok.
Qed.

(** C38. The recursions of the AVL tree are at most 130 calls deep, in every tree of less than
    [2^64] keys: 130 nested calls are enough for [avl_lookup], for
    [avl_unregister_l], and for [avl_allocate_l], which returns unless the key is there or there is no
    memory, and then panics. *)
Theorem avl_depth_bounded R p (m : amem) f k : avl_ok R p m f -> Z.of_nat (size f) <= usize_MAX ->
  avl_lookup_l 130 p k m = Ok (default 0 (f !! k), m) /\
  (exists r, avl_unregister_l 130 p k 0 m = Ok r) /\
  (if bool_decide (is_Some (f !! k)) || no_memory m then avl_allocate_l 130 p k 0 m = Panic
   else exists r, avl_allocate_l 130 p k 0 m = Ok r).
Proof.
  intros (Hm & t & <- & <- & Ht & Hnd & Ha & Hb & _) Hsz.
  rewrite <-tmap_size in Hsz by done. pose proof (avl_height t Ha Hsz) as Hh. split; [|split].
  - by apply avl_lookup_l_ok; [lia|..].
  - destruct (avl_unregister_l_ok 130 k t 0 m ltac:(lia) ltac:(lia) Hm Ht Hnd Ha Hb) as (m1 & E1 & _). by eexists.
  - case_bool_decide as Hk; rewrite <-tmap_in in Hk; cbn [orb].
    + by apply avl_allocate_l_duplicate; [lia|..].
    + pose proof (avl_allocate_l_ok 130 k t m ltac:(lia) ltac:(lia) Hm Ht Hnd Ha Hb Hk) as Hal. destruct (no_memory m); [done|].
      destruct Hal as (q & m1 & E & _). by eexists.
Qed.

End avl_memory.

(** ** Examples *)

#[local] Existing Instance example_Heap.

(** Key 2 above key 1 and key 3; the value of key 3 is 0. *)
Definition example_avl : memory AvlHeader Z := mkMemory
  {[0x10000 := {| key := 2; value := 20; height := 2; left := 0x10028; right := 0x10050 |};
    0x10028 := {| key := 1; value := 10; height := 1; left := 0; right := 0 |};
    0x10050 := {| key := 3; value := 0; height := 1; left := 0; right := 0 |}]} 0x10078.
Definition example_tree : tree := Node 0x10000 2 20 (Node 0x10028 1 10 Leaf Leaf) (Node 0x10050 3 0 Leaf Leaf).

Lemma example_avl_ok : avl_ok ∅ 0x10000 example_avl {[1 := 10; 2 := 20; 3 := 0]}.
Proof.
  assert (Hdom : forall q, is_Some (blocks example_avl !! q) -> q ∈ addrs example_tree).
  { intros q [n Hn]. unfold example_avl in Hn. cbn [blocks] in Hn. change (addrs example_tree) with [0x10028; 0x10000; 0x10050].
    rewrite !lookup_insert_Some, lookup_singleton_Some in Hn. set_solver. }
  split; [split; [done|]|].
  - exists (list_to_set (addrs example_tree)). split; [split; [done|]|].
    + intros p Hp%elem_of_list_to_set. change (addrs example_tree) with [0x10028; 0x10000; 0x10050] in Hp. set_solver by lia.
    + intros p Hp%Hdom. by apply elem_of_list_to_set.
  - exists example_tree. split; [done|]. split; [by vm_compute|]. split; [by vm_compute|].
    split; [change (addrs example_tree) with [0x10028; 0x10000; 0x10050]; by apply (bool_decide_unpack _)|].
    split; [by vm_compute|]. split.
    { unfold bst. change (elems example_tree).*1 with [1; 2; 3]. repeat constructor; lia. }
    split; [done|]. intros q Hq. rewrite lookup_empty. destruct (blocks example_avl !! q) eqn:E; [|done]. destruct Hq. apply Hdom. by rewrite E.
Qed.

Lemma avl_tree_refines_map_witness :
  avl_lookup 0x10000 2 example_avl = Ok (20, example_avl) /\
  exists q p' m', avl_allocate 0x10000 4 40 example_avl = Ok ((q, p'), m') /\ avl_ok ∅ p' m' (<[4 := 40]> {[1 := 10; 2 := 20; 3 := 0]}).
Proof.
  destruct (avl_tree_refines_map ∅ 0x10000 example_avl _ example_avl_ok) as (Hl & Ha & _); [vm_compute; discriminate|].
  split; [by rewrite Hl|]. specialize (Ha 4 40). vm_compute in Ha. destruct Ha as (q & p' & m' & E & Hok & _). by exists q, p', m'.
Defined.

Lemma avl_depth_bounded_witness : avl_lookup_l 130 0x10000 1 example_avl = Ok (10, example_avl).
Proof.
  apply (avl_depth_bounded ∅ 0x10000 example_avl {[1 := 10; 2 := 20; 3 := 0]} 1 example_avl_ok). vm_compute. discriminate.
Defined.

(** [avl_unregister] reports on the wrong node: what it compares with 0 is the value of the
    node whose memory it releases, which for a node with children is another one.  In a tree with keys
    1, 2 and 3 where the value of 3 is 0, the removal of 2, whose value is 20, succeeds
    and [avl_unregister] returns [false]. *)
Theorem avl_unregister_misreports :
  exists p (m : memory AvlHeader Z) f k v, avl_ok ∅ p m f /\ f !! k = Some v /\ v <> 0 /\
    exists p' m', avl_unregister p k m = Ok ((false, p'), m') /\ avl_ok ∅ p' m' (delete k f).
Proof.
  exists 0x10000, example_avl, {[1 := 10; 2 := 20; 3 := 0]}, 2, 20. split; [apply example_avl_ok|]. split; [done|]. split; [done|].
  destruct (avl_unregister_ok ∅ 0x10000 example_avl _ 2 example_avl_ok) as (b & p' & m' & E & Hok & _); [vm_compute; discriminate|].
  exists p', m'. split; [|done]. rewrite E. vm_compute in E. injection E as <- _ _. done.
Qed.
