(* ===== verification/Bitmap.v ===== *)
(** * The block bitmap (utilities/data_structures/bitmap.rs)

    An allocator of blocks of 4096 bytes with one bit per block.  The structure, every
    operation on it, and what makes it an allocator: it hands out the lowest run of free
    blocks that is long enough, and never a block that is in use. *)

From S2P Require Import Prelude Rust.

Set Default Proof Using "Type".

(** ** The code *)

Definition BLOCK_SIZE : Z := 4096.
Definition BLOCKS_PER_BYTE : Z := 8.
Definition INVALID_BLOCK : Z := usize_MAX.

(** [Bitmap] is the array of bytes the pointer designates. *)
Record DS_Bitmap := {
  Bitmap : list Z;
  BitmapSizeInBlocks : Z;
  BitmapSizeInBytes : Z;
  mem_start : Z;
  allocatedSizeInBlocks : Z;
  lastDeepFragmented : Z
}.

Definition with_Bitmap (b : DS_Bitmap) (x : list Z) : DS_Bitmap :=
  {| Bitmap := x; BitmapSizeInBlocks := BitmapSizeInBlocks b; BitmapSizeInBytes := BitmapSizeInBytes b;
     mem_start := mem_start b; allocatedSizeInBlocks := allocatedSizeInBlocks b; lastDeepFragmented := lastDeepFragmented b |}.
Definition with_allocated (b : DS_Bitmap) (x : Z) : DS_Bitmap :=
  {| Bitmap := Bitmap b; BitmapSizeInBlocks := BitmapSizeInBlocks b; BitmapSizeInBytes := BitmapSizeInBytes b;
     mem_start := mem_start b; allocatedSizeInBlocks := x; lastDeepFragmented := lastDeepFragmented b |}.
Definition with_last (b : DS_Bitmap) (x : Z) : DS_Bitmap :=
  {| Bitmap := Bitmap b; BitmapSizeInBlocks := BitmapSizeInBlocks b; BitmapSizeInBytes := BitmapSizeInBytes b;
     mem_start := mem_start b; allocatedSizeInBlocks := allocatedSizeInBlocks b; lastDeepFragmented := x |}.

Definition DivRoundUp (x y : Z) : outcome Z := s ← uadd x y; d ← usub s 1; udiv d y.

Definition ToPtr (b : DS_Bitmap) (block : Z) : outcome Z := o ← umul block BLOCK_SIZE; uadd (mem_start b) o.
Definition ToBlock (b : DS_Bitmap) (ptr : Z) : outcome Z := d ← usub ptr (mem_start b); udiv d BLOCK_SIZE.
Definition ToBlockRoundUp (b : DS_Bitmap) (ptr : Z) : outcome Z := d ← usub ptr (mem_start b); DivRoundUp d BLOCK_SIZE.

Definition BitmapCalculateSize (totalSize : Z) : outcome Z := blocks ← DivRoundUp totalSize BLOCK_SIZE; DivRoundUp blocks 8.

Definition BitmapGet (b : DS_Bitmap) (block : Z) : outcome Z :=
  let addr := block / BLOCKS_PER_BYTE in
  let offset := block mod BLOCKS_PER_BYTE in
  byte ← load (Bitmap b) (Z.to_nat addr);
  Ok (if negb (Z.land byte (Z.shiftl 1 offset) =? 0) then 1 else 0).

Definition BitmapSet (b : DS_Bitmap) (block : Z) (value : bool) : outcome DS_Bitmap :=
  let addr := block / BLOCKS_PER_BYTE in
  let offset := block mod BLOCKS_PER_BYTE in
  byte ← load (Bitmap b) (Z.to_nat addr);
  bm ← store (Bitmap b) (Z.to_nat addr)
         (if value then Z.lor byte (Z.shiftl 1 offset) else Z.land byte (Z.lxor 255 (Z.shiftl 1 offset)));
  Ok (with_Bitmap b bm).

(** [for i in start..start + size], with [n] blocks to go. *)
Fixpoint mark_loop (n : nat) (i : Z) (val : bool) (b : DS_Bitmap) : outcome DS_Bitmap :=
  match n with
  | O => Ok b
  | Datatypes.S n' => b ← BitmapSet b i val; mark_loop n' (i + 1) val b
  end.

Definition MarkBlocks (b : DS_Bitmap) (start size : Z) (val : bool) : outcome DS_Bitmap :=
  let b := if negb val && (start <? lastDeepFragmented b) then with_last b start else b in
  stop ← uadd start size;
  b ← mark_loop (Z.to_nat (stop - start)) start val b;
  if val then a ← uadd (allocatedSizeInBlocks b) size; Ok (with_allocated b a)
  else a ← usub (allocatedSizeInBlocks b) size; Ok (with_allocated b a).

Definition MarkRegion (b : DS_Bitmap) (basePtr sizeBytes isUsed : Z) : outcome DS_Bitmap :=
  '(base, size) ← (if negb (isUsed =? 0)
    then base ← ToBlock b basePtr; size ← DivRoundUp sizeBytes BLOCK_SIZE; Ok (base, size)
    else base ← ToBlockRoundUp b basePtr; size ← udiv sizeBytes BLOCK_SIZE; Ok (base, size));
  MarkBlocks b base size (negb (isUsed =? 0)).

(** [for i in regionStart..BitmapSizeInBlocks], with [n] blocks to go. *)
Fixpoint find_loop_region (n : nat) (i regionStart regionSize blocks : Z) (b : DS_Bitmap) : outcome (Z * DS_Bitmap) :=
  match n with
  | O => Ok (INVALID_BLOCK, b)
  | Datatypes.S n' =>
      used ← BitmapGet b i;
      if negb (used =? 0) then
        regionStart ← uadd i 1;
        find_loop_region n' (i + 1) regionStart 0 blocks b
      else
        b ← (if blocks =? 1 then l ← uadd regionStart 1; Ok (with_last b l) else Ok b);
        regionSize ← uadd regionSize 1;
        if blocks <=? regionSize then Ok (regionStart, b)
        else find_loop_region n' (i + 1) regionStart regionSize blocks b
  end.

Definition FindFreeRegion (b : DS_Bitmap) (blocks : Z) : outcome (Z * DS_Bitmap) :=
  let regionStart := lastDeepFragmented b in
  find_loop_region (Z.to_nat (BitmapSizeInBlocks b - regionStart)) regionStart regionStart 0 blocks b.

(** The null pointer is 0. *)
Definition BitmapAllocate (b : DS_Bitmap) (blocks : Z) : outcome (Z * DS_Bitmap) :=
  if blocks =? 0 then Ok (0, b)
  else
    '(region, b) ← FindFreeRegion b blocks;
    if region =? INVALID_BLOCK then Ok (0, b)
    else
      b ← MarkBlocks b region blocks true;
      p ← ToPtr b region;
      Ok (p, b).

Definition BitmapFree (b : DS_Bitmap) (base blocks : Z) : outcome DS_Bitmap :=
  n ← umul BLOCK_SIZE blocks; MarkRegion b base n 0.

Definition BitmapAllocatePageframe (b : DS_Bitmap) : outcome (Z * DS_Bitmap) :=
  '(region, b) ← FindFreeRegion b 1;
  b ← MarkBlocks b region 1 true;
  o ← umul region BLOCK_SIZE;
  p ← uadd (mem_start b) o;
  Ok (p, b).

Definition BitmapFreePageframe (b : DS_Bitmap) (addr : Z) : outcome DS_Bitmap := MarkRegion b addr BLOCK_SIZE 0.

(** The blocks [BitmapDumpBlocks] prints. *)
Fixpoint dump_loop (n : nat) (i : Z) (b : DS_Bitmap) : outcome (list Z) :=
  match n with
  | O => Ok []
  | Datatypes.S n' => x ← BitmapGet b i; xs ← dump_loop n' (i + 1) b; Ok (x :: xs)
  end.
Definition BitmapDumpBlocks (b : DS_Bitmap) : outcome (list Z) := dump_loop 512 0 b.

(** ** Bits *)

Definition used (bm : list Z) (i : Z) : bool := Z.testbit (nth (Z.to_nat (i / 8)) bm 0) (i mod 8).

Lemma testbit_land byte o : 0 <= o -> (Z.land byte (Z.shiftl 1 o) =? 0) = negb (Z.testbit byte o).
Proof.
  intros Ho. destruct (Z.testbit byte o) eqn:E; simpl.
  - apply Z.eqb_neq. intros H0. apply (f_equal (fun z => Z.testbit z o)) in H0.
    rewrite Z.land_spec, Z.shiftl_spec, Z.sub_diag, E, Z.bits_0 in H0 by done. done.
  - apply Z.eqb_eq. apply Z.bits_inj'. intros n Hn. rewrite Z.land_spec, Z.shiftl_spec, Z.bits_0 by done.
    destruct (decide (n = o)) as [->|]; [by rewrite E|]. rewrite andb_comm. destruct (Z.ltb_spec n o).
    + by rewrite Z.testbit_neg_r by lia.
    + change 1 with (2 ^ 0). by rewrite Z.pow2_bits_false by lia.
Qed.

(** Setting and clearing one bit of a byte. *)
Lemma testbit_set byte o (v : bool) n : is_u8 byte -> 0 <= o < 8 -> 0 <= n < 8 ->
  Z.testbit (if v then Z.lor byte (Z.shiftl 1 o) else Z.land byte (Z.lxor 255 (Z.shiftl 1 o))) n =
    if decide (n = o) then v else Z.testbit byte n.
Proof.
  intros Hb Ho Hn.
  assert (H1 : Z.testbit (Z.shiftl 1 o) n = bool_decide (n = o)).
  { rewrite Z.shiftl_spec by lia. case_bool_decide as E; [subst; by rewrite Z.sub_diag|].
    destruct (Z.ltb_spec n o); [by rewrite Z.testbit_neg_r by lia|]. change 1 with (2 ^ 0). by rewrite Z.pow2_bits_false by lia. }
  destruct v.
  - rewrite Z.lor_spec, H1. case_bool_decide; case_decide; try done; [apply orb_true_r|apply orb_false_r].
  - rewrite Z.land_spec, Z.lxor_spec, H1. change 255 with (Z.ones 8). rewrite Z.ones_spec_low by lia.
    case_bool_decide; case_decide; try done; simpl; [apply andb_false_r|apply andb_true_r].
Qed.

Lemma set_u8 byte o (v : bool) : is_u8 byte -> 0 <= o < 8 ->
  is_u8 (if v then Z.lor byte (Z.shiftl 1 o) else Z.land byte (Z.lxor 255 (Z.shiftl 1 o))).
Proof.
  intros Hb Ho. assert (Hz : forall z, 0 <= z -> (forall n, 8 <= n -> Z.testbit z n = false) -> is_u8 z).
  { intros z Hz Hn. split; [done|]. destruct (Z.ltb_spec z 256); [done|].
    assert (8 <= Z.log2 z) as Hl by (apply (Z.log2_le_mono 256); lia). specialize (Hn _ Hl). rewrite Z.bit_log2 in Hn by lia. done. }
  assert (Hbit : forall n, 8 <= n -> Z.testbit byte n = false).
  { intros n Hn. destruct Hb as [Hb1 Hb2]. destruct (Z.eq_dec byte 0) as [->|]; [apply Z.bits_0|].
    apply Z.bits_above_log2; [done|]. apply Z.log2_lt_pow2; [lia|]. assert (2 ^ 8 <= 2 ^ n) by (apply Z.pow_le_mono_r; lia). lia. }
  destruct Hb as [Hb1 Hb2]. destruct v; apply Hz.
  - apply Z.lor_nonneg. split; [done|]. apply Z.shiftl_nonneg. lia.
  - intros n Hn. rewrite Z.lor_spec, Hbit, Z.shiftl_spec by lia. change 1 with (2 ^ 0). by rewrite Z.pow2_bits_false by lia.
  - apply Z.land_nonneg. by left.
  - intros n Hn. by rewrite Z.land_spec, Hbit.
Qed.

(** How many of the first [n] blocks are in use. *)
Fixpoint count (f : Z -> bool) (n : nat) : Z :=
  match n with O => 0 | Datatypes.S n' => count f n' + if f (Z.of_nat n') then 1 else 0 end.

Lemma count_range f n : 0 <= count f n <= Z.of_nat n.
Proof. induction n as [|n IH]; simpl; [lia|]. destruct (f _); lia. Qed.

(** Changing a whole region changes the count by its length. *)
Lemma count_region f f' start n (v : bool) N : 0 <= start -> 0 <= n ->
  (forall j, 0 <= j -> f' j = if decide (start <= j < start + n) then v else f j) ->
  (forall j, start <= j < start + n -> f j = negb v) ->
  count f' N = count f N + (if v then 1 else -1) * Z.max 0 (Z.min (Z.of_nat N) (start + n) - start).
Proof.
  intros Hs Hn Hf Hr. induction N as [|N IH]; [simpl; destruct v; lia|]. cbn [count]. rewrite IH, Hf by lia. case_decide.
  - rewrite Hr by lia. destruct v; simpl; lia.
  - destruct (f (Z.of_nat N)), v; lia.
Qed.

(** ** The operations on one structure *)

Record bitmap_ok (b : DS_Bitmap) : Prop := {
  bm_bytes : bytes (Bitmap b);
  bm_size : 0 <= BitmapSizeInBlocks b <= 8 * Z.of_nat (length (Bitmap b));
  bm_space : mem_start b + BitmapSizeInBlocks b * BLOCK_SIZE + BLOCK_SIZE <= usize_MAX;
  bm_start : 0 <= mem_start b;
  bm_last : 0 <= lastDeepFragmented b <= BitmapSizeInBlocks b;
  bm_full : forall i, 0 <= i < lastDeepFragmented b -> used (Bitmap b) i = true;
  bm_count : allocatedSizeInBlocks b = count (used (Bitmap b)) (Z.to_nat (BitmapSizeInBlocks b))
}.

Lemma used_index bm i : 0 <= i < 8 * Z.of_nat (length bm) -> exists byte, bm !! Z.to_nat (i / 8) = Some byte /\ used bm i = Z.testbit byte (i mod 8).
Proof.
  intros Hi. assert (Hd : (Z.to_nat (i / 8) < length bm)%nat) by (Z.to_euclidean_division_equations; lia).
  destruct (lookup_lt_is_Some_2 _ _ Hd) as [byte Hb]. exists byte. split; [done|]. unfold used. by rewrite (nth_lookup_Some _ _ _ _ Hb).
Qed.

Lemma BitmapGet_ok b i : 0 <= i < 8 * Z.of_nat (length (Bitmap b)) -> BitmapGet b i = Ok (if used (Bitmap b) i then 1 else 0).
Proof.
  intros Hi. destruct (used_index _ _ Hi) as (byte & Hb & Eu). unfold BitmapGet, BLOCKS_PER_BYTE, load. rewrite Hb, Eu. simpl.
  rewrite testbit_land by (apply Z.mod_pos_bound; lia). by rewrite negb_involutive.
Qed.

(** [b'] is [b] with another array of the same length. *)
Definition rewritten (b b' : DS_Bitmap) (f : Z -> bool) : Prop :=
  exists bm, b' = with_Bitmap b bm /\ bytes bm /\ length bm = length (Bitmap b) /\ forall j, 0 <= j -> used bm j = f j.

Lemma BitmapSet_ok b i v : bytes (Bitmap b) -> 0 <= i < 8 * Z.of_nat (length (Bitmap b)) ->
  exists b', BitmapSet b i v = Ok b' /\ rewritten b b' (fun j => if decide (j = i) then v else used (Bitmap b) j).
Proof.
  intros Hbm Hi. destruct (used_index _ _ Hi) as (byte & Hb & Eu). unfold BitmapSet, BLOCKS_PER_BYTE, load. rewrite Hb.
  pose proof (lookup_lt_Some _ _ _ Hb) as Hlt. pose proof (Z.mod_pos_bound i 8 ltac:(lia)) as Ho.
  assert (is_u8 byte) as Hu by by eapply Forall_lookup_1.
  simpl. rewrite store_ok by done. eexists. split; [done|]. eexists. split; [done|]. split; [|split; [apply length_insert|]].
  { apply Forall_insert; [done|]. by apply set_u8. }
  intros j Hj. unfold used. pose proof (Z.mod_pos_bound j 8 ltac:(lia)) as Hoj.
  destruct (decide (Z.to_nat (j / 8) = Z.to_nat (i / 8))) as [E|E].
  - rewrite E. rewrite (nth_lookup_Some _ _ _ _ (list_lookup_insert_eq _ _ _ Hlt)), (nth_lookup_Some _ _ _ _ Hb).
    rewrite testbit_set by done. assert (j / 8 = i / 8) by (Z.to_euclidean_division_equations; lia).
    do 2 case_decide; try done; Z.to_euclidean_division_equations; lia.
  - case_decide; [by subst|]. f_equal. rewrite !nth_lookup. by rewrite list_lookup_insert_ne by done.
Qed.

Lemma mark_loop_ok n b i v : bytes (Bitmap b) -> 0 <= i -> i + Z.of_nat n <= 8 * Z.of_nat (length (Bitmap b)) ->
  exists b', mark_loop n i v b = Ok b' /\
    rewritten b b' (fun j => if decide (i <= j < i + Z.of_nat n) then v else used (Bitmap b) j).
Proof.
  revert b i. induction n as [|n IH]; intros b i Hb Hi Hn.
  { exists b. split; [done|]. exists (Bitmap b). split; [by destruct b|]. split; [done|]. split; [done|].
    intros j Hj. case_decide; [lia|done]. }
  cbn [mark_loop]. destruct (BitmapSet_ok b i v Hb ltac:(lia)) as (b1 & E1 & bm1 & -> & Hb1 & Hl1 & Hu1). rewrite E1. simpl.
  destruct (IH (with_Bitmap b bm1) (i + 1)) as (b2 & E2 & bm2 & -> & Hb2 & Hl2 & Hu2); simpl in *; [done|lia|lia|].
  eexists. split; [exact E2|]. exists bm2. split; [done|]. split; [done|]. split; [lia|]. intros j Hj. rewrite Hu2, Hu1 by done.
  repeat case_decide; try done; lia.
Qed.

Lemma MarkBlocks_ok b start n v : bitmap_ok b -> 0 <= start -> 0 <= n -> start + n <= BitmapSizeInBlocks b ->
  (forall j, start <= j < start + n -> used (Bitmap b) j = negb v) ->
  exists b', MarkBlocks b start n v = Ok b' /\ bitmap_ok b' /\ BitmapSizeInBlocks b' = BitmapSizeInBlocks b /\ mem_start b' = mem_start b /\
    (forall j, 0 <= j -> used (Bitmap b') j = if decide (start <= j < start + n) then v else used (Bitmap b) j) /\
    lastDeepFragmented b' = if v then lastDeepFragmented b else Z.min start (lastDeepFragmented b).
Proof.
  intros [] Hs Hn Hend Hold. unfold BLOCK_SIZE in *. unfold MarkBlocks. set (b0 := if negb v && (start <? lastDeepFragmented b) then with_last b start else b).
  assert (E0 : Bitmap b0 = Bitmap b /\ BitmapSizeInBlocks b0 = BitmapSizeInBlocks b /\ mem_start b0 = mem_start b /\
    allocatedSizeInBlocks b0 = allocatedSizeInBlocks b /\
    lastDeepFragmented b0 = if v then lastDeepFragmented b else Z.min start (lastDeepFragmented b)).
  { unfold b0. destruct v; simpl; [done|]. destruct (Z.ltb_spec start (lastDeepFragmented b)); simpl; repeat split; lia. }
  destruct E0 as (Eb & Es & Em & Ea & El). clearbody b0. rewrite uadd_ok by lia. simpl. replace (start + n - start) with n by lia.
  destruct (mark_loop_ok (Z.to_nat n) b0 start v) as (b1 & E1 & bm & -> & Hbytes & Hlen & Hu); [by rewrite Eb|done|rewrite Eb; lia|].
  rewrite E1. rewrite Z2Nat.id in Hu by done. simpl. rewrite Eb in *. rewrite Ea.
  pose proof (count_region (used (Bitmap b)) (used bm) start n v (Z.to_nat (BitmapSizeInBlocks b)) Hs Hn Hu Hold) as Hc.
  pose proof (count_range (used (Bitmap b)) (Z.to_nat (BitmapSizeInBlocks b))). pose proof (count_range (used bm) (Z.to_nat (BitmapSizeInBlocks b))).
  rewrite Z.min_r, Z.max_r in Hc by lia.
  destruct v; rewrite ?uadd_ok, ?usub_ok by lia; (eexists; split; [done|]; split; [split|split; [done|split; [done|split; [done|done]]]]);
    simpl; rewrite ?Es, ?Em, ?El, ?Hlen; unfold BLOCK_SIZE; try done; try lia.
  - intros i Hi. rewrite Hu by lia. case_decide; [done|]. apply bm_full0. lia.
  - intros i Hi. rewrite Hu by lia. case_decide; [lia|]. apply bm_full0. lia.
Qed.

(** No [n] blocks from [s] on are free. *)
Definition blocked (b : DS_Bitmap) (s n : Z) : Prop := exists j, s <= j < s + n /\ used (Bitmap b) j = true.
Definition all_free (b : DS_Bitmap) (s n : Z) : Prop := forall j, s <= j < s + n -> used (Bitmap b) j = false.

Lemma find_region_ok n b rs rsz blocks : bitmap_ok b -> 1 <= blocks -> 0 <= rs -> 0 <= rsz < blocks ->
  rs + rsz + Z.of_nat n = BitmapSizeInBlocks b -> all_free b rs rsz -> (forall s, 0 <= s < rs -> blocked b s blocks) ->
  (exists r, find_loop_region n (rs + rsz) rs rsz blocks b = Ok (r, if blocks =? 1 then with_last b (r + 1) else b) /\
     0 <= r /\ r + blocks <= BitmapSizeInBlocks b /\ all_free b r blocks /\ (forall s, 0 <= s < r -> blocked b s blocks)) \/
  (find_loop_region n (rs + rsz) rs rsz blocks b = Ok (INVALID_BLOCK, b) /\
     forall s, 0 <= s -> s + blocks <= BitmapSizeInBlocks b -> blocked b s blocks).
Proof.
  intros Hok Hbl. pose proof Hok as []. unfold BLOCK_SIZE in *. revert rs rsz. induction n as [|n IH]; intros rs rsz Hrs Hrsz Hn Hfree Hblk.
  { right. split; [done|]. intros s Hs Hend. destruct (Z.ltb_spec s rs); [apply Hblk; lia|lia]. }
  cbn [find_loop_region]. rewrite BitmapGet_ok by lia. unfold mbind at 1 5, outcome_bind at 1 5. destruct (used (Bitmap b) (rs + rsz)) eqn:Hu; simpl negb.
  - rewrite uadd_ok by lia. simpl.
    destruct (IH (rs + rsz + 1) 0) as [(r & E & Hr)|(E & Hr)]; [lia|lia|lia|intros j Hj; lia| |..].
    { intros s Hs. destruct (Z.ltb_spec s rs); [apply Hblk; lia|]. exists (rs + rsz). split; [lia|done]. }
    + left. exists r. rewrite Z.add_0_r in E. by rewrite E.
    + right. rewrite Z.add_0_r in E. by rewrite E.
  - assert (Hfree' : all_free b rs (rsz + 1)).
    { intros j Hj. destruct (decide (j = rs + rsz)) as [->|]; [done|]. apply Hfree. lia. }
    destruct (Z.eqb_spec blocks 1) as [->|Hne].
    + rewrite !uadd_ok by lia. assert (rsz = 0) as -> by lia. left. exists rs. simpl. split; [done|]. split; [lia|]. split; [lia|]. by split.
    + simpl. rewrite uadd_ok by lia. simpl. destruct (Z.leb_spec blocks (rsz + 1)).
      * left. exists rs. assert (blocks = rsz + 1) as -> by lia. split; [done|]. split; [lia|]. split; [lia|]. by split.
      * replace (rs + rsz + 1) with (rs + (rsz + 1)) by lia. apply IH; [lia|lia|lia|done|done].
Qed.

(** The lowest free region of [blocks] blocks, if there is one. *)
Lemma FindFreeRegion_ok b blocks : bitmap_ok b -> 1 <= blocks ->
  (exists r, FindFreeRegion b blocks = Ok (r, if blocks =? 1 then with_last b (r + 1) else b) /\
     0 <= r /\ r + blocks <= BitmapSizeInBlocks b /\ all_free b r blocks /\ (forall s, 0 <= s < r -> blocked b s blocks)) \/
  (FindFreeRegion b blocks = Ok (INVALID_BLOCK, b) /\
     forall s, 0 <= s -> s + blocks <= BitmapSizeInBlocks b -> blocked b s blocks).
Proof.
  intros Hok Hbl. pose proof Hok as []. unfold FindFreeRegion.
  pose proof (find_region_ok (Z.to_nat (BitmapSizeInBlocks b - lastDeepFragmented b)) b (lastDeepFragmented b) 0 blocks Hok Hbl) as Hf.
  rewrite Z.add_0_r in Hf. apply Hf; [lia|lia|lia|intros j Hj; lia|].
  intros s Hs. exists s. split; [lia|]. by apply bm_full0.
Qed.

(** Marking the region that was found; for one block, the hint has moved behind it. *)
Lemma mark_found b r n : bitmap_ok b -> 1 <= n -> 0 <= r -> r + n <= BitmapSizeInBlocks b -> all_free b r n ->
  (forall s, 0 <= s < r -> blocked b s n) ->
  exists b', MarkBlocks (if n =? 1 then with_last b (r + 1) else b) r n true = Ok b' /\ bitmap_ok b' /\
    BitmapSizeInBlocks b' = BitmapSizeInBlocks b /\ mem_start b' = mem_start b /\
    (forall j, 0 <= j -> used (Bitmap b') j = if decide (r <= j < r + n) then true else used (Bitmap b) j).
Proof.
  intros Hok Hn Hr Hend Hfree Hblk. destruct (MarkBlocks_ok b r n true Hok Hr ltac:(lia) Hend Hfree) as (b' & E & Hok' & Hs & Hm & Hu & Hl).
  destruct (Z.eqb_spec n 1) as [->|]; [|by exists b'].
  exists (with_last b' (r + 1)). split; [|split; [|by repeat split]].
  - clear -E. unfold MarkBlocks in *. simpl in *. destruct (uadd r 1) as [stop| | |]; try done. simpl in *.
    assert (Hcomm : forall k i c, mark_loop k i true (with_last c (r + 1)) = c' ← mark_loop k i true c; Ok (with_last c' (r + 1))).
    { induction k as [|k IH]; intros i c; [done|]. cbn [mark_loop]. unfold BitmapSet. simpl.
      destruct (load (Bitmap c) _); try done. simpl. destruct (store (Bitmap c) _ _); try done. simpl.
      change (with_Bitmap (with_last c (r + 1)) a0) with (with_last (with_Bitmap c a0) (r + 1)). apply IH. }
    rewrite Hcomm. destruct (mark_loop _ r true b) as [b1| | |]; try done. simpl in *.
    destruct (uadd (allocatedSizeInBlocks b1) 1); try done. simpl in *. by injection E as <-.
  - destruct Hok'. split; simpl; try done; [lia|]. intros i Hi. rewrite Hu by lia. case_decide; [done|].
    destruct (Hblk i ltac:(lia)) as (j & Hj & Huj). by replace i with j by lia.
Qed.

Lemma BitmapAllocate_ok b n : bitmap_ok b -> 1 <= n ->
  (exists r b', BitmapAllocate b n = Ok (mem_start b + r * BLOCK_SIZE, b') /\ bitmap_ok b' /\
     BitmapSizeInBlocks b' = BitmapSizeInBlocks b /\ mem_start b' = mem_start b /\
     0 <= r /\ r + n <= BitmapSizeInBlocks b /\ all_free b r n /\ (forall s, 0 <= s < r -> blocked b s n) /\
     (forall j, 0 <= j -> used (Bitmap b') j = if decide (r <= j < r + n) then true else used (Bitmap b) j)) \/
  (BitmapAllocate b n = Ok (0, b) /\ forall s, 0 <= s -> s + n <= BitmapSizeInBlocks b -> blocked b s n).
Proof.
  intros Hok Hn. pose proof Hok as []. unfold BitmapAllocate. replace (n =? 0) with false by lia.
  destruct (FindFreeRegion_ok b n Hok Hn) as [(r & E & Hr & Hend & Hfree & Hblk)|(E & Hblk)]; rewrite E; simpl.
  - left. destruct (mark_found b r n Hok Hn Hr Hend Hfree Hblk) as (b' & E' & Hok' & Hs & Hm & Hu).
    unfold BLOCK_SIZE in *. replace (r =? INVALID_BLOCK) with false by (unfold INVALID_BLOCK; lia). rewrite E'. simpl.
    unfold ToPtr, BLOCK_SIZE. rewrite umul_ok by lia. simpl. rewrite Hm, uadd_ok by lia. by exists r, b'.
  - right. by split.
Qed.

Lemma BitmapAllocatePageframe_ok b : bitmap_ok b ->
  (exists r b', BitmapAllocatePageframe b = Ok (mem_start b + r * BLOCK_SIZE, b') /\ bitmap_ok b' /\
     BitmapSizeInBlocks b' = BitmapSizeInBlocks b /\ mem_start b' = mem_start b /\
     0 <= r < BitmapSizeInBlocks b /\ all_free b r 1 /\
     (forall j, 0 <= j -> used (Bitmap b') j = if decide (r <= j < r + 1) then true else used (Bitmap b) j)) \/
  (BitmapAllocatePageframe b = Panic /\ forall s, 0 <= s < BitmapSizeInBlocks b -> used (Bitmap b) s = true).
Proof.
  intros Hok. pose proof Hok as []. unfold BitmapAllocatePageframe.
  destruct (FindFreeRegion_ok b 1 Hok ltac:(lia)) as [(r & E & Hr & Hend & Hfree & Hblk)|(E & Hblk)]; rewrite E; simpl.
  - left. destruct (mark_found b r 1 Hok ltac:(lia) Hr Hend Hfree Hblk) as (b' & E' & Hok' & Hs & Hm & Hu). simpl in E'. rewrite E'. simpl.
    unfold BLOCK_SIZE in *. rewrite umul_ok by lia. simpl. rewrite Hm, uadd_ok by lia. exists r, b'. split; [done|]. split; [done|]. split; [done|]. split; [done|]. split; [lia|]. by split.
  - right. split; [done|]. intros s Hs. destruct (Hblk s ltac:(lia) ltac:(lia)) as (j & Hj & Hu). by replace s with j by lia.
Qed.

Lemma BitmapFree_ok b r n : bitmap_ok b -> 0 <= r -> 0 <= n -> r + n <= BitmapSizeInBlocks b ->
  (forall j, r <= j < r + n -> used (Bitmap b) j = true) ->
  exists b', BitmapFree b (mem_start b + r * BLOCK_SIZE) n = Ok b' /\ bitmap_ok b' /\
    BitmapSizeInBlocks b' = BitmapSizeInBlocks b /\ mem_start b' = mem_start b /\
    (forall j, 0 <= j -> used (Bitmap b') j = if decide (r <= j < r + n) then false else used (Bitmap b) j).
Proof.
  intros Hok Hr Hn Hend Hused. destruct (MarkBlocks_ok b r n false Hok Hr Hn Hend Hused) as (b' & E & Hok' & Hs & Hm & Hu & _).
  pose proof Hok as []. unfold BLOCK_SIZE in *. exists b'. split; [|done].
  unfold BitmapFree, MarkRegion, ToBlockRoundUp, DivRoundUp, BLOCK_SIZE. rewrite umul_ok by lia. simpl. rewrite usub_ok by lia. simpl.
  replace (mem_start b + r * 4096 - mem_start b) with (r * 4096) by lia. rewrite uadd_ok by lia. simpl. rewrite usub_ok by lia. simpl.
  replace ((r * 4096 + 4096 - 1) / 4096) with r by (Z.to_euclidean_division_equations; lia).
  replace (4096 * n / 4096) with n by (Z.to_euclidean_division_equations; lia). done.
Qed.

(** C31. [BitmapAllocate] of [n] blocks on a consistent bitmap: if there are [n] free blocks in a
    row, it returns the address of the lowest such region, marks exactly these
    blocks, and the counter and the hint for later searches stay correct; otherwise
    it returns the null pointer and changes nothing.  [BitmapFree] of the region
    gives exactly its blocks back. *)
Theorem bitmap_allocate_correct b n : bitmap_ok b -> 1 <= n ->
  (exists r b', BitmapAllocate b n = Ok (mem_start b + r * BLOCK_SIZE, b') /\ bitmap_ok b' /\
     0 <= r /\ r + n <= BitmapSizeInBlocks b /\ all_free b r n /\ (forall s, 0 <= s < r -> ~ all_free b s n) /\
     (forall j, 0 <= j -> used (Bitmap b') j = if decide (r <= j < r + n) then true else used (Bitmap b) j) /\
     allocatedSizeInBlocks b' = allocatedSizeInBlocks b + n /\
     exists b'', BitmapFree b' (mem_start b + r * BLOCK_SIZE) n = Ok b'' /\ bitmap_ok b'' /\
       forall j, 0 <= j -> used (Bitmap b'') j = used (Bitmap b) j) \/
  (BitmapAllocate b n = Ok (0, b) /\ forall s, 0 <= s -> s + n <= BitmapSizeInBlocks b -> ~ all_free b s n).
Proof.
  intros Hok Hn.
  assert (Hnot : forall s, blocked b s n -> ~ all_free b s n) by (intros s (j & Hj & Hu) Hf; specialize (Hf j Hj); congruence).
  destruct (BitmapAllocate_ok b n Hok Hn) as [(r & b' & E & Hok' & Hs & Hm & Hr & Hend & Hfree & Hblk & Hu)|[E Hblk]]; [left|right; auto].
  exists r, b'. split; [done|]. split; [done|]. split; [done|]. split; [done|]. split; [done|]. split; [auto|]. split; [done|]. split.
  - rewrite (bm_count _ Hok'), (bm_count _ Hok), Hs.
    rewrite (count_region (used (Bitmap b)) (used (Bitmap b')) r n true _ Hr ltac:(lia) Hu Hfree). destruct Hok. lia.
  - destruct (BitmapFree_ok b' r n Hok' Hr ltac:(lia) ltac:(lia)) as (b'' & E'' & Hok'' & _ & _ & Hu'').
    { intros j Hj. rewrite Hu by lia. by rewrite decide_True. }
    rewrite Hm in E''. exists b''. split; [done|]. split; [done|]. intros j Hj. rewrite Hu'', Hu by done.
    case_decide as Hc; [|done]. symmetry. by apply Hfree.
Qed.

(** ** Runs *)

(** The blocks of the regions handed out: pairs of an address and a number of blocks. *)
Definition blocks_of (start : Z) (live : list (Z * Z)) : list Z :=
  live ≫= (fun x => seqZ ((x.1 - start) / BLOCK_SIZE) x.2).

(** Clients allocate regions and single frames, and release what they have. *)
Inductive bm_step : DS_Bitmap * list (Z * Z) -> DS_Bitmap * list (Z * Z) -> Prop :=
| bm_alloc b live n p b' : 1 <= n -> BitmapAllocate b n = Ok (p, b') -> p <> 0 -> bm_step (b, live) (b', (p, n) :: live)
| bm_none b live n b' : 0 <= n -> BitmapAllocate b n = Ok (0, b') -> bm_step (b, live) (b', live)
| bm_frame b live p b' : BitmapAllocatePageframe b = Ok (p, b') -> bm_step (b, live) (b', (p, 1) :: live)
| bm_free b l1 l2 p n b' : BitmapFree b p n = Ok b' -> bm_step (b, l1 ++ (p, n) :: l2) (b', l1 ++ l2)
| bm_free_frame b l1 l2 p b' : BitmapFreePageframe b p = Ok b' -> bm_step (b, l1 ++ (p, 1) :: l2) (b', l1 ++ l2).

(** Regions are blocks of the bitmap, in use, and no block is in two of them. *)
Record live_ok (start size : Z) (b : DS_Bitmap) (live : list (Z * Z)) : Prop := {
  lv_ok : bitmap_ok b;
  lv_start : mem_start b = start;
  lv_size : BitmapSizeInBlocks b = size;
  lv_nodup : NoDup (blocks_of start live);
  lv_used : forall j, j ∈ blocks_of start live -> used (Bitmap b) j = true;
  lv_region : forall p n, (p, n) ∈ live -> exists r, p = start + r * BLOCK_SIZE /\ 0 <= r /\ 1 <= n /\ r + n <= size
}.

Lemma blocks_of_cons start r n live : blocks_of start ((start + r * BLOCK_SIZE, n) :: live) = seqZ r n ++ blocks_of start live.
Proof. unfold blocks_of. simpl. do 2 f_equal. unfold BLOCK_SIZE. Z.to_euclidean_division_equations. lia. Qed.

Lemma live_add start size b b' live r n : live_ok start size b live -> bitmap_ok b' ->
  BitmapSizeInBlocks b' = BitmapSizeInBlocks b -> mem_start b' = mem_start b -> 0 <= r -> 1 <= n -> r + n <= size -> all_free b r n ->
  (forall j, 0 <= j -> used (Bitmap b') j = if decide (r <= j < r + n) then true else used (Bitmap b) j) ->
  live_ok start size b' ((start + r * BLOCK_SIZE, n) :: live).
Proof.
  intros [] Hok' Hs Hm Hr Hn Hend Hfree Hu. split; [done|congruence|congruence|..].
  - rewrite blocks_of_cons. apply NoDup_app. split; [apply NoDup_seqZ|]. split; [|done].
    intros j Hj%elem_of_seqZ Hl%lv_used0. rewrite Hfree in Hl by lia. done.
  - intros j. rewrite blocks_of_cons, elem_of_app. intros [Hj%elem_of_seqZ|Hj].
    + rewrite Hu by lia. rewrite decide_True by lia. done.
    + assert (0 <= j). { apply list_elem_of_bind in Hj as ([p m] & Hj%elem_of_seqZ & Hin). apply lv_region0 in Hin as (r' & -> & ? & _).
        simpl in Hj. unfold BLOCK_SIZE in Hj. Z.to_euclidean_division_equations. lia. }
      rewrite Hu by done. case_decide; [done|]. by apply lv_used0.
  - intros p m [[= -> ->]|Hin]%elem_of_cons; [by exists r|by apply lv_region0].
Qed.

Lemma blocks_of_middle start l1 x l2 : blocks_of start (l1 ++ x :: l2) ≡ₚ blocks_of start [x] ++ blocks_of start (l1 ++ l2).
Proof. unfold blocks_of. simpl. rewrite !bind_app. simpl. rewrite app_nil_r. solve_Permutation. Qed.

Lemma live_remove start size b live1 live2 p n : live_ok start size b (live1 ++ (p, n) :: live2) ->
  exists b', BitmapFree b p n = Ok b' /\ live_ok start size b' (live1 ++ live2).
Proof.
  intros []. destruct (lv_region0 p n) as (r & -> & Hr & Hn & Hend); [apply elem_of_app; right; left|].
  pose proof (blocks_of_middle start live1 (start + r * BLOCK_SIZE, n) live2) as Hperm.
  rewrite (blocks_of_cons start r n []) in Hperm. change (blocks_of start []) with (@nil Z) in Hperm. rewrite app_nil_r in Hperm.
  rewrite Hperm in lv_nodup0. apply NoDup_app in lv_nodup0 as (_ & Hdis & Hnd).
  destruct (BitmapFree_ok b r n lv_ok0 Hr ltac:(lia) ltac:(lia)) as (b' & E & Hok' & Hs & Hm & Hu).
  { intros j Hj. apply lv_used0. rewrite Hperm. apply elem_of_app. left. apply elem_of_seqZ. lia. }
  rewrite lv_start0 in E. exists b'. split; [done|]. split; [done|congruence|congruence|done|..].
  - intros j Hj. assert (Hj0 : used (Bitmap b) j = true) by (apply lv_used0; rewrite Hperm; apply elem_of_app; by right).
    destruct (Z.ltb_spec j 0) as [Hneg|Hpos].
    { apply list_elem_of_bind in Hj as ([p m] & Hj%elem_of_seqZ & Hin). destruct (lv_region0 p m) as (r' & -> & ? & _); [set_solver|].
      simpl in Hj. unfold BLOCK_SIZE in Hj. Z.to_euclidean_division_equations. lia. }
    rewrite Hu by done. case_decide as Hc; [|done]. destruct (Hdis j); [|done]. apply elem_of_seqZ. lia.
  - intros p m Hin. apply lv_region0. set_solver.
Qed.

Lemma live_grow start size b b' live : live_ok start size b live -> bitmap_ok b' ->
  BitmapSizeInBlocks b' = BitmapSizeInBlocks b -> mem_start b' = mem_start b ->
  (forall j, used (Bitmap b) j = true -> 0 <= j -> used (Bitmap b') j = true) -> live_ok start size b' live.
Proof.
  intros [] Hok' Hs Hm Hu. split; try done; try congruence. intros j Hj. apply Hu; [by apply lv_used0|].
  apply list_elem_of_bind in Hj as ([p m] & Hj%elem_of_seqZ & Hin). apply lv_region0 in Hin as (r & -> & ? & _).
  simpl in Hj. unfold BLOCK_SIZE in Hj. Z.to_euclidean_division_equations. lia.
Qed.

Lemma bm_step_ok start size b live b' live' : live_ok start size b live -> bm_step (b, live) (b', live') -> live_ok start size b' live'.
Proof.
  intros Hlv Hstep. pose proof Hlv as []. inversion Hstep as [? ? n p ? Hn E Hp|? ? n ? Hn E|? ? p ? E|? l1 l2 p n ? E|? l1 l2 p ? E]; subst.
  - destruct (BitmapAllocate_ok b n lv_ok0 Hn) as [(r & b1 & E1 & Hok' & Hs & Hm & Hr & Hend & Hfree & _ & Hu)|[E1 _]]; rewrite E1 in E; [|congruence].
    injection E as <- <-. apply (live_add _ _ b); try done; lia.
  - destruct (Z.eq_dec n 0) as [->|]; [by injection E as <-|].
    destruct (BitmapAllocate_ok b n lv_ok0 ltac:(lia)) as [(r & b1 & E1 & Hok' & Hs & Hm & Hr & Hend & Hfree & _ & Hu)|[E1 _]]; rewrite E1 in E.
    + injection E as _ <-. eapply live_grow; try done. intros j Hj Hj0. rewrite Hu by done. by case_decide.
    + by injection E as <-.
  - destruct (BitmapAllocatePageframe_ok b lv_ok0) as [(r & b1 & E1 & Hok' & Hs & Hm & Hr & Hfree & Hu)|[E1 _]]; rewrite E1 in E; [|congruence].
    injection E as <- <-. apply (live_add _ _ b); try done; lia.
  - destruct (live_remove _ _ _ _ _ _ _ Hlv) as (b1 & E1 & Hlv'). rewrite E1 in E. by injection E as <-.
  - destruct (live_remove _ _ _ _ _ _ _ Hlv) as (b1 & E1 & Hlv'). assert (E2 : BitmapFree b p 1 = BitmapFreePageframe b p) by done.
    rewrite <-E2, E1 in E. by injection E as <-.
Qed.

(** C23. The bitmap never gives a block to two owners.  In every run of allocations of regions
    and frames and of releases of what has been allocated, starting from a consistent
    bitmap of [size] blocks at address [start]: the regions that are out are
    disjoint, lie inside the memory managed and are marked as used; the next allocation and the release of any of them return. *)
Theorem bitmap_safe start size b0 b live : bitmap_ok b0 -> mem_start b0 = start -> BitmapSizeInBlocks b0 = size ->
  rtc bm_step (b0, []) (b, live) ->
  (forall l1 x l2 y l3, live = l1 ++ x :: l2 ++ y :: l3 -> x.1 + x.2 * BLOCK_SIZE <= y.1 \/ y.1 + y.2 * BLOCK_SIZE <= x.1) /\
  (forall p n, (p, n) ∈ live -> start <= p /\ p + n * BLOCK_SIZE <= start + size * BLOCK_SIZE /\
     (forall j, p <= start + j * BLOCK_SIZE < p + n * BLOCK_SIZE -> used (Bitmap b) j = true) /\
     exists b', BitmapFree b p n = Ok b' /\ bitmap_ok b') /\
  (forall n, 1 <= n -> exists p b', BitmapAllocate b n = Ok (p, b') /\ bitmap_ok b').
Proof.
  intros Hok Hst Hsz Hrun.
  assert (Hlv : live_ok start size b live).
  { assert (Hgen : forall s s', rtc bm_step s s' -> live_ok start size s.1 s.2 -> live_ok start size s'.1 s'.2).
    { induction 1 as [|[b1 l1] [b2 l2] s3 Hstep _ IH]; [done|]. intros H1. apply IH. by eapply bm_step_ok. }
    apply (Hgen _ _ Hrun). split; try done; [constructor|by intros ? ?%elem_of_nil|by intros ? ? ?%elem_of_nil]. }
  clear Hrun Hok Hst Hsz. pose proof Hlv as []. unfold BLOCK_SIZE in *. split; [|split].
  - intros l1 [p n] l2 [q m] l3 ->. simpl.
    destruct (lv_region0 p n) as (r & -> & Hr & Hn & _); [set_solver|]. destruct (lv_region0 q m) as (s & -> & Hs & Hm & _); [set_solver|].
    destruct (decide (r + n <= s)); [lia|]. destruct (decide (s + m <= r)); [lia|]. exfalso.
    rewrite blocks_of_middle in lv_nodup0. apply NoDup_app in lv_nodup0 as (_ & Hdis & _).
    apply (Hdis (Z.max r s)); unfold blocks_of.
    + simpl. rewrite app_nil_r. apply elem_of_seqZ. unfold BLOCK_SIZE. Z.to_euclidean_division_equations. lia.
    + apply list_elem_of_bind. exists (start + s * 4096, m). split; [|set_solver]. simpl. apply elem_of_seqZ.
      unfold BLOCK_SIZE. Z.to_euclidean_division_equations. lia.
  - intros p n Hin. destruct (lv_region0 p n Hin) as (r & -> & Hr & Hn & Hend). split; [lia|]. split; [lia|]. split.
    + intros j Hj. apply lv_used0. apply list_elem_of_bind. eexists. split; [|done]. simpl. apply elem_of_seqZ.
      unfold BLOCK_SIZE. Z.to_euclidean_division_equations. lia.
    + apply list_elem_of_split in Hin as (l1 & l2 & ->). destruct (live_remove _ _ _ _ _ _ _ Hlv) as (b' & E & []). by exists b'.
  - intros n Hn. destruct (BitmapAllocate_ok b n lv_ok0 Hn) as [(r & b' & E & Hok' & _)|[E _]]; eauto.
Qed.

(** [BitmapAllocatePageframe] does not check that a block was found: on a bitmap with no
    free block, where [BitmapAllocate] returns the null pointer, it computes with
    [INVALID_BLOCK] as a block number and overflows. *)
Theorem pageframe_exhausted b : bitmap_ok b -> (forall s, 0 <= s < BitmapSizeInBlocks b -> used (Bitmap b) s = true) ->
  BitmapAllocate b 1 = Ok (0, b) /\ BitmapAllocatePageframe b = Panic.
Proof.
  intros Hok Hfull. split.
  - destruct (BitmapAllocate_ok b 1 Hok ltac:(lia)) as [(r & b' & _ & _ & _ & _ & Hr & Hend & Hfree & _)|[E _]]; [|done].
    specialize (Hfree r ltac:(lia)). rewrite Hfull in Hfree by lia. done.
  - destruct (BitmapAllocatePageframe_ok b Hok) as [(r & b' & _ & _ & _ & _ & Hr & Hfree & _)|[E _]]; [|done].
    specialize (Hfree r ltac:(lia)). rewrite Hfull in Hfree by lia. done.
Qed.

(** ** Examples *)

(** Eleven blocks at 0x100000; 0, 1 and 4 are in use. *)
Definition example_bitmap : DS_Bitmap :=
  {| Bitmap := [0x13; 0x00]; BitmapSizeInBlocks := 11; BitmapSizeInBytes := 2; mem_start := 0x100000;
     allocatedSizeInBlocks := 3; lastDeepFragmented := 2 |}.

Lemma example_bitmap_ok : bitmap_ok example_bitmap.
Proof.
  split; simpl; try done; [solve_bytes|]. intros i Hi. assert (i = 0 \/ i = 1) as [-> | ->] by lia; done.
Qed.

Lemma bitmap_allocate_correct_witness : exists r b', BitmapAllocate example_bitmap 3 = Ok (mem_start example_bitmap + r * BLOCK_SIZE, b') /\
  r <= 5 /\ all_free example_bitmap r 3 /\ allocatedSizeInBlocks b' = 6.
Proof.
  assert (Hfree : all_free example_bitmap 5 3)
    by (intros j Hj; assert (j = 5 \/ j = 6 \/ j = 7) as [->|[->| ->]] by lia; vm_compute; reflexivity).
  destruct (bitmap_allocate_correct example_bitmap 3 example_bitmap_ok ltac:(lia)) as [(r & b' & E & _ & _ & _ & Hf & Hlow & _ & Hc & _)|[_ H]].
  - exists r, b'. split; [exact E|]. split; [|split; [exact Hf|exact Hc]]. destruct (Z.le_gt_cases r 5) as [Hle|Hgt]; [exact Hle|].
    exfalso. apply (Hlow 5); [lia|exact Hfree].
  - exfalso. apply (H 5); [lia|vm_compute; discriminate|exact Hfree].
Defined.

Lemma bitmap_safe_witness : exists b live, rtc bm_step (example_bitmap, []) (b, live) /\
  live = [(0x102000, 1); (0x105000, 3)] /\ exists b', BitmapFree b 0x105000 3 = Ok b' /\ bitmap_ok b'.
Proof.
  assert (Hrun : exists b, rtc bm_step (example_bitmap, []) (b, [(0x102000, 1); (0x105000, 3)])).
  { eexists. eapply rtc_l; [eapply (bm_alloc _ _ 3); [lia|vm_compute; reflexivity|done]|].
    eapply rtc_l; [eapply bm_frame; vm_compute; reflexivity|]. apply rtc_refl. }
  destruct Hrun as [b Hrun]. exists b, [(0x102000, 1); (0x105000, 3)]. split; [done|]. split; [done|].
  eapply (bitmap_safe 0x100000 11 example_bitmap b _ example_bitmap_ok eq_refl eq_refl Hrun). right. left.
Defined.

Definition example_full : DS_Bitmap :=
  {| Bitmap := [0xff]; BitmapSizeInBlocks := 8; BitmapSizeInBytes := 1; mem_start := 0x100000;
     allocatedSizeInBlocks := 8; lastDeepFragmented := 0 |}.

Lemma pageframe_exhausted_witness : BitmapAllocate example_full 1 = Ok (0, example_full) /\ BitmapAllocatePageframe example_full = Panic.
Proof.
  apply (pageframe_exhausted example_full).
  - split; simpl; try done; [solve_bytes|lia].
  - intros s Hs. simpl in Hs. assert (s = 0 \/ s = 1 \/ s = 2 \/ s = 3 \/ s = 4 \/ s = 5 \/ s = 6 \/ s = 7) as Hc by lia.
    repeat destruct Hc as [->|Hc]; subst; done.
Defined.
