(* ===== verification/LinkedList.v ===== *)
(** * Linked lists (utilities/data_structures/linked_list.rs)

    Singly linked lists of allocated objects whose first field is the link.  The operations run
    on the memory of the objects; [chained] relates a pointer to the addresses of the objects
    behind it, and on these lists the operations append, remove, search and release. *)

From S2P Require Import Prelude Mem Rust.

Set Default Proof Using "Type".

(** ** The code *)

Definition LL_SIGNATURE_1 : Z := 0x4C4C3131.
Definition LL_SIGNATURE_2 : Z := 0x4C4C3232.

(** An object: [LLheader] and the bytes behind it. *)
Record LLobject := { ll_next : Z; ll_body : list Z }.
Definition with_ll_next (o : LLobject) (x : Z) : LLobject := {| ll_next := x; ll_body := ll_body o |}.

Record LLcontrol := { signature1 : Z; signature2 : Z; structSize : Z; firstObject : Z }.
Definition with_firstObject (ll : LLcontrol) (x : Z) : LLcontrol :=
  {| signature1 := signature1 ll; signature2 := signature2 ll; structSize := structSize ll; firstObject := x |}.

Section linked_list.
Context {H : Type} `{!Heap H}.
(** What new memory contains. *)
Context (fresh : Z -> LLobject).

Local Abbreviation lmem := (memory LLobject H).
(** The structure at [ll] and the memory. *)
Definition lstate : Type := LLcontrol * lmem.
Local Abbreviation L := (ST lstate).

Definition ll_get : L LLcontrol := fun s => Ok (s.1, s).
Definition ll_put (c : LLcontrol) : L unit := fun s => Ok (tt, (c, s.2)).
Definition on_objects {A} (f : ST lmem A) : L A := fun s => '(a, m) ← f s.2; Ok (a, (s.1, m)).
Definition set_first (x : Z) : L unit := c ← ll_get; ll_put (with_firstObject c x).
(** More steps than a list in memory can have. *)
Definition ll_fuel : L nat := fun s => Ok (Datatypes.S (size (blocks s.2)), s).

Definition LinkedListNormal (size : Z) : L unit :=
  ll ← ll_get;
  _ ← sassert (signature1 ll =? LL_SIGNATURE_1);
  _ ← sassert (signature2 ll =? LL_SIGNATURE_2);
  sassert (structSize ll =? size).

Fixpoint append_loop (fuel : nat) (curr target : Z) : L unit :=
  match fuel with
  | O => fun _ => Diverge
  | Datatypes.S fuel' =>
      if curr =? 0 then set_first target
      else
        o ← on_objects (kload curr);
        if ll_next o =? 0 then on_objects (kstore curr (fun o => with_ll_next o target))
        else append_loop fuel' (ll_next o) target
  end.

Definition LinkedListAllocate (size : Z) : L Z :=
  _ ← LinkedListNormal size;
  target ← on_objects (kmalloc fresh size);
  _ ← on_objects (kstore target (fun _ => {| ll_next := 0; ll_body := replicate (Z.to_nat (size - 8)) 0 |}));
  ll ← ll_get;
  fuel ← ll_fuel;
  _ ← append_loop fuel (firstObject ll) target;
  _ ← on_objects (kstore target (fun o => with_ll_next o 0));
  mret target.

(** The object whose successor is [LLtarget], or null. *)
Fixpoint before_loop (fuel : nat) (curr LLtarget : Z) : L Z :=
  match fuel with
  | O => fun _ => Diverge
  | Datatypes.S fuel' =>
      if curr =? 0 then mret curr
      else
        o ← on_objects (kload curr);
        if negb (ll_next o =? 0) && (ll_next o =? LLtarget) then mret curr
        else before_loop fuel' (ll_next o) LLtarget
  end.

Definition LinkedListUnregister (size LLtarget : Z) : L bool :=
  _ ← LinkedListNormal size;
  ll ← ll_get;
  let first_copy := firstObject ll in
  fuel ← ll_fuel;
  curr ← before_loop fuel first_copy LLtarget;
  if first_copy =? LLtarget then
    o ← on_objects (kload first_copy);
    _ ← set_first (ll_next o);
    mret true
  else if curr =? 0 then mret false
  else
    o ← on_objects (kload curr);
    let target := ll_next o in
    t ← on_objects (kload target);
    _ ← on_objects (kstore curr (fun o => with_ll_next o (ll_next t)));
    mret true.

Definition LinkedListRemove (size LLtarget : Z) : L bool :=
  _ ← LinkedListNormal size;
  res ← LinkedListUnregister size LLtarget;
  _ ← on_objects (kfree LLtarget);
  mret res.

Definition LinkedListPushFrontUnsafe (LLtarget : Z) : L unit :=
  ll ← ll_get;
  if firstObject ll =? 0 then
    _ ← set_first LLtarget;
    o ← on_objects (kload LLtarget);
    sassert (ll_next o =? 0)
  else
    let next := firstObject ll in
    _ ← set_first LLtarget;
    on_objects (kstore LLtarget (fun o => with_ll_next o next)).

Fixpoint destroy_loop (fuel : nat) (browse : Z) : L unit :=
  match fuel with
  | O => fun _ => Diverge
  | Datatypes.S fuel' =>
      if browse =? 0 then mret tt
      else
        o ← on_objects (kload browse);
        let next := ll_next o in
        _ ← on_objects (kfree browse);
        destroy_loop fuel' next
  end.

Definition LinkedListDestroy (size : Z) : L unit :=
  _ ← LinkedListNormal size;
  ll ← ll_get;
  fuel ← ll_fuel;
  _ ← destroy_loop fuel (firstObject ll);
  set_first 0.

Definition LinkedListInit (size : Z) : L unit :=
  ll ← ll_get;
  _ ← sassert (negb (signature1 ll =? LL_SIGNATURE_1));
  _ ← sassert (negb (signature2 ll =? LL_SIGNATURE_2));
  ll_put {| signature1 := LL_SIGNATURE_1; signature2 := LL_SIGNATURE_2; structSize := size; firstObject := 0 |}.

(** [callback] gets the object's address and may do to the memory what it likes. *)
Fixpoint traverse_loop (fuel : nat) (callback : Z -> ST lmem unit) (browse : Z) : L unit :=
  match fuel with
  | O => fun _ => Diverge
  | Datatypes.S fuel' =>
      if browse =? 0 then mret tt
      else
        _ ← on_objects (callback browse);
        o ← on_objects (kload browse);
        traverse_loop fuel' callback (ll_next o)
  end.
Definition LinkedListTraverse (callback : Z -> ST lmem unit) : L unit :=
  ll ← ll_get; fuel ← ll_fuel; traverse_loop fuel callback (firstObject ll).

Fixpoint search_loop (fuel : nat) (isCorrect : Z -> ST lmem bool) (browse : Z) : L Z :=
  match fuel with
  | O => fun _ => Diverge
  | Datatypes.S fuel' =>
      if browse =? 0 then mret browse
      else
        c ← on_objects (isCorrect browse);
        if (c : bool) then mret browse
        else
          o ← on_objects (kload browse);
          search_loop fuel' isCorrect (ll_next o)
  end.
Definition LinkedListSearch (isCorrect : Z -> ST lmem bool) : L Z :=
  ll ← ll_get; fuel ← ll_fuel; search_loop fuel isCorrect (firstObject ll).

Definition LinkedListSearchPtrCb (target data : Z) : ST lmem bool := mret (data =? target).
Definition LinkedListSearchPtr (targetPtr : Z) : L Z := LinkedListSearch (LinkedListSearchPtrCb targetPtr).
Definition LinkedListSearchFirstCb (data : Z) : ST lmem bool := mret true.
Definition LinkedListSearchFirst : L Z := LinkedListSearch LinkedListSearchFirstCb.

End linked_list.

(** ** Lists in memory *)

(** The address of the first object. *)
Definition first_of (l : list (Z * list Z)) : Z := match l with [] => 0 | x :: _ => x.1 end.

(** The objects of [l], addresses and contents, are linked in this order. *)
Fixpoint chained (bl : gmap Z LLobject) (l : list (Z * list Z)) : Prop :=
  match l with
  | [] => True
  | x :: l' => x.1 <> 0 /\ bl !! x.1 = Some {| ll_next := first_of l'; ll_body := x.2 |} /\ chained bl l'
  end.

Lemma chained_frame bl bl' l : chained bl l -> (forall q, q ∈ l.*1 -> bl' !! q = bl !! q) -> chained bl' l.
Proof.
  induction l as [|x l IH]; [done|]. simpl. intros (Hx & Hb & Hl) Hq. split; [done|]. split; [rewrite Hq; [done|left]|].
  apply IH; [done|]. intros q ?. apply Hq. by right.
Qed.
Lemma chained_in bl l q : chained bl l -> q ∈ l.*1 -> q <> 0 /\ is_Some (bl !! q).
Proof.
  induction l as [|x l IH]; [by intros _ ?%elem_of_nil|]. simpl. intros (Hx & Hb & Hl) [->|Hq]%elem_of_cons; [|by apply IH].
  split; [done|by eexists].
Qed.
Lemma chained_first bl l : chained bl l -> (first_of l =? 0) = match l with [] => true | _ => false end.
Proof. destruct l; [done|]. intros (? & _). simpl. lia. Qed.

(** Cutting a chain in two and linking two pieces by one assignment. *)
Lemma chained_relink bl l1 x l2 l2' : chained bl (l1 ++ x :: l2) -> NoDup (l1 ++ x :: l2).*1 -> (x.1 ∉ l2'.*1) ->
  chained bl l2' -> chained (<[x.1 := {| ll_next := first_of l2'; ll_body := x.2 |}]> bl) (l1 ++ x :: l2').
Proof.
  induction l1 as [|y l1 IH]; simpl.
  - intros (Hx & Hb & Hl) _ Hn Hl'. split; [done|]. split; [apply lookup_insert_eq|]. eapply chained_frame; [done|].
    intros q Hq. rewrite lookup_insert_ne; [done|]. by intros <-.
  - intros (Hy & Hb & Hl) [Hyn Hnd]%NoDup_cons Hn Hl'. split; [done|]. rewrite lookup_insert_ne.
    + split; [|by apply IH]. rewrite Hb. do 2 f_equal. by destruct l1.
    + intros E. apply Hyn. rewrite <-E, fmap_app, elem_of_app. right. left.
Qed.

Section list_memory.
Context {H : Type} `{!Heap H}.
Local Abbreviation lst := (lstate (H := H)).

(** The list with control structure and memory [s] has the objects [l]; [R] is the rest of
    the memory. *)
Record ll_ok (sz : Z) (R : gmap Z LLobject) (s : lst) (l : list (Z * list Z)) : Prop := {
  ll_mem : memory_ok s.2;
  ll_sig1 : signature1 s.1 = LL_SIGNATURE_1;
  ll_sig2 : signature2 s.1 = LL_SIGNATURE_2;
  ll_size : structSize s.1 = sz;
  ll_first : firstObject s.1 = first_of l;
  ll_nodup : NoDup l.*1;
  ll_chain : chained (blocks s.2) l;
  ll_own : forall q, q ∈ l.*1 -> R !! q = None;
  ll_rest : forall q, q ∉ l.*1 -> blocks s.2 !! q = R !! q
}.

Lemma on_objects_ok {A} (f : ST (memory LLobject H) A) c m a m' : f m = Ok (a, m') -> on_objects f (c, m) = Ok (a, (c, m')).
Proof. unfold on_objects. simpl. by intros ->. Qed.

Lemma Normal_ok sz R (s : lst) l : ll_ok sz R s l -> LinkedListNormal sz s = Ok (tt, s).
Proof.
  intros []. unfold LinkedListNormal. rewrite (st_bind_ok ll_get _ _ s.1 s) by done. rewrite sassert_bind by lia.
  rewrite sassert_bind by lia. unfold sassert, lift. by rewrite ll_size0, Z.eqb_refl.
Qed.

Lemma ll_fuel_enough sz R (s : lst) l : ll_ok sz R s l -> (length l < Datatypes.S (size (blocks s.2)))%nat.
Proof.
  intros []. assert (Hsub : list_to_set l.*1 ⊆ (dom (blocks s.2) : gset Z)).
  { intros q Hq%elem_of_list_to_set. apply elem_of_dom. by eapply chained_in. }
  apply subseteq_size in Hsub. rewrite size_list_to_set, size_dom, length_fmap in Hsub by done. lia.
Qed.

(** *** Appending *)

Lemma append_loop_ok fuel c (m : memory LLobject H) l x t : (length (l ++ [x]) < fuel)%nat -> chained (blocks m) (l ++ [x]) ->
  append_loop fuel (first_of (l ++ [x])) t (c, m) = Ok (tt, (c, with_block m x.1 {| ll_next := t; ll_body := x.2 |})).
Proof.
  revert l. induction fuel as [|fuel IH]; intros l Hf Hc; [lia|]. cbn [append_loop]. rewrite (chained_first _ _ Hc).
  destruct l as [|y l]; simpl in Hc |- *; destruct Hc as (Hy & Hb & Hc);
    rewrite (st_bind_ok _ _ _ _ _ (on_objects_ok _ c _ _ _ (kload_ok _ _ _ Hb))); cbn [ll_next].
  - simpl. by rewrite (on_objects_ok _ c _ _ _ (kstore_ok _ _ _ _ Hb)).
  - rewrite (chained_first _ _ Hc). destruct (l ++ [x]) eqn:E; [by destruct l|]. rewrite <-E in *. apply IH; [simpl in Hf; lia|done].
Qed.

Definition no_object_memory (sz : Z) (m : memory LLobject H) : bool := (malloc sz (heap m)).1 =? 0.

(** The end of [LinkedListAllocate], with the object [t] linked behind the others. *)
Lemma append_finish sz R c (m : memory LLobject H) l t body c' m3 : ll_ok sz R (c, m) l -> blocks m !! t = None -> memory_ok m3 ->
  signature1 c' = signature1 c -> signature2 c' = signature2 c -> structSize c' = structSize c ->
  firstObject c' = first_of (l ++ [(t, body)]) -> chained (blocks m3) (l ++ [(t, body)]) ->
  (forall q, q ∉ l.*1 -> q <> t -> blocks m3 !! q = blocks m !! q) ->
  exists s', (_ ← on_objects (kstore t (fun o => with_ll_next o 0)); mret t) (c', m3) = Ok (t, s') /\ ll_ok sz R s' (l ++ [(t, body)]).
Proof.
  intros [] Hnone Hm3 H1 H2 H3 Hf Hc Hfr. simpl in *.
  assert (Htl : t ∉ l.*1) by (intros [_ [? ?]]%(chained_in _ _ _ ll_chain0); congruence).
  assert (Hb3 : blocks m3 !! t = Some {| ll_next := 0; ll_body := body |}).
  { clear -Hc. induction l as [|y l IH]; simpl in Hc; [by destruct Hc as (_ & -> & _)|]. by apply IH, Hc. }
  rewrite (st_bind_ok _ _ _ _ _ (on_objects_ok _ c' _ _ _ (kstore_ok _ _ _ _ Hb3))). eexists. split; [done|].
  split; simpl; try congruence.
  - apply memory_ok_store; [done|by rewrite Hb3].
  - rewrite fmap_app. apply NoDup_app. split; [done|]. split; [|apply NoDup_singleton].
    intros q Hq ->%list_elem_of_singleton. done.
  - eapply chained_frame; [done|]. intros q _. destruct (decide (q = t)) as [->|]; [by rewrite lookup_insert_eq, Hb3|by rewrite lookup_insert_ne].
  - intros q. rewrite fmap_app, elem_of_app. intros [?| ->%list_elem_of_singleton]; [by apply ll_own0|]. by rewrite <-ll_rest0.
  - intros q. rewrite fmap_app, not_elem_of_app. intros [Hq Hqt%not_elem_of_cons]. simpl in Hqt.
    rewrite lookup_insert_ne by naive_solver. rewrite Hfr by naive_solver. by apply ll_rest0.
Qed.

Lemma LinkedListAllocate_ok fresh sz R (s : lst) l : ll_ok sz R s l ->
  if no_object_memory sz s.2 then LinkedListAllocate fresh sz s = Fault
  else exists t s', LinkedListAllocate fresh sz s = Ok (t, s') /\ ll_ok sz R s' (l ++ [(t, replicate (Z.to_nat (sz - 8)) 0)]).
Proof.
  destruct s as [c m]. intros Hok. pose proof Hok as []. simpl in *. unfold LinkedListAllocate.
  rewrite (st_bind_ok _ _ _ _ _ (Normal_ok _ _ _ _ Hok)). destruct (kmalloc_block fresh sz m ll_mem0) as (t & m1 & E & Hm1 & Hcase).
  assert (Ht : (malloc sz (heap m)).1 = t).
  { unfold kmalloc in E. destruct (malloc _ _) as [q h]. destruct (Z.eqb_spec q 0); by injection E as <- _. }
  unfold no_object_memory. rewrite Ht, (st_bind_ok _ _ _ _ _ (on_objects_ok _ c _ _ _ E)).
  destruct Hcase as [[-> Hbl]|(Ht0 & Hnone & Hbl)]; [destruct Hm1 as [H0 _]; simpl; unfold mbind, st_bind, on_objects, kstore; simpl; by rewrite H0|].
  replace (t =? 0) with false by lia. set (z := {| ll_next := 0; ll_body := replicate (Z.to_nat (sz - 8)) 0 |}).
  assert (Hb1 : blocks m1 !! t = Some (fresh t)) by (rewrite Hbl; apply lookup_insert_eq).
  rewrite (st_bind_ok _ _ _ _ _ (on_objects_ok _ c _ _ _ (kstore_ok _ _ _ _ Hb1))). set (m2 := with_block m1 t z).
  assert (Htl : t ∉ l.*1) by (intros [_ [? ?]]%(chained_in _ _ _ ll_chain0); congruence).
  assert (Hb2 : forall q, q <> t -> blocks m2 !! q = blocks m !! q) by (intros q ?; simpl; rewrite Hbl; by rewrite !lookup_insert_ne).
  assert (Hb2t : blocks m2 !! t = Some z) by (simpl; apply lookup_insert_eq).
  assert (Hm2 : memory_ok m2) by (apply memory_ok_store; [done|by rewrite Hb1]).
  assert (Hc2 : chained (blocks m2) l) by (eapply chained_frame; [done|]; intros q Hq; apply Hb2; by intros ->).
  rewrite (st_bind_ok ll_get _ _ c (c, m2)) by done. rewrite (st_bind_ok ll_fuel _ _ _ (c, m2) eq_refl). rewrite ll_first0.
  assert (Htail : chained (blocks m2) [(t, ll_body z)]) by (simpl; split; [lia|done]).
  destruct l as [|x l _] using rev_ind.
  - unfold append_loop at 1. simpl first_of. rewrite Z.eqb_refl. rewrite (st_bind_ok (set_first t) _ _ tt (with_firstObject c t, m2)) by done.
    exists t. eapply append_finish; try done. intros q _ Hq. by apply Hb2.
  - pose proof (ll_fuel_enough _ _ _ _ Hok) as Hfuel. simpl in Hfuel.
    assert (Hsz : (size (blocks m) <= size (blocks m2))%nat).
    { apply map_subseteq_size. apply map_subseteq_spec. intros q o Hq. rewrite Hb2; [done|]. by intros ->; congruence. }
    rewrite (st_bind_ok _ _ _ _ _ (append_loop_ok (Datatypes.S (size (blocks m2))) c m2 l x t ltac:(lia) Hc2)). rewrite fmap_app, elem_of_app in Htl.
    assert (x.1 <> t) by (intros <-; apply Htl; right; left).
    assert (Hin : is_Some (blocks m2 !! x.1)) by (eapply chained_in; [exact Hc2|]; rewrite fmap_app, elem_of_app; right; left).
    exists t. eapply append_finish; try done.
    + by apply memory_ok_store.
    + by destruct l.
    + rewrite <-app_assoc. apply (chained_relink _ _ _ [] [(t, ll_body z)]); try done. simpl. intros ?%list_elem_of_singleton. done.
    + intros q Hq Hqt. simpl. rewrite lookup_insert_ne; [by apply Hb2|]. intros <-. apply Hq. rewrite fmap_app, elem_of_app. right. left.
Qed.

(** *** Removing *)

Lemma split_unique (l1 k1 : list (Z * list Z)) t tb tb' l2 k2 : NoDup (l1 ++ (t, tb) :: l2).*1 ->
  l1 ++ (t, tb) :: l2 = k1 ++ (t, tb') :: k2 -> l1 ++ l2 = k1 ++ k2 /\ tb = tb'.
Proof.
  intros Hnd. revert k1. induction l1 as [|x l1 IH]; intros [|y k1] El; simplify_eq/=; try done.
  - apply NoDup_cons in Hnd as [Hn _]. destruct Hn. rewrite fmap_app, elem_of_app. right. left.
  - apply NoDup_cons in Hnd as [Hn _]. destruct Hn. rewrite fmap_app, elem_of_app. right. left.
  - apply NoDup_cons in Hnd as [_ Hnd]. destruct (IH Hnd k1 H1) as [-> ->]. done.
Qed.


(** The object before [t], or 0. *)
Fixpoint before (l : list (Z * list Z)) (t : Z) : Z :=
  match l with
  | [] => 0
  | x :: l' => if negb (first_of l' =? 0) && (first_of l' =? t) then x.1 else before l' t
  end.

Lemma before_loop_ok fuel (s : lst) l t : (length l < fuel)%nat -> chained (blocks s.2) l ->
  before_loop fuel (first_of l) t s = Ok (before l t, s).
Proof.
  destruct s as [c m]. revert l. induction fuel as [|fuel IH]; intros l Hf Hc; [lia|]. cbn [before_loop]. rewrite (chained_first _ _ Hc).
  destruct l as [|x l]; [done|]. destruct Hc as (Hx & Hb & Hc). simpl first_of.
  rewrite (st_bind_ok _ _ _ _ _ (on_objects_ok _ c _ _ _ (kload_ok _ _ _ Hb))). cbn [ll_next before].
  destruct (negb (first_of l =? 0) && (first_of l =? t)); [done|]. apply IH; [simpl in Hf; lia|done].
Qed.

(** A target behind the first object has one before it. *)
Lemma before_split bl l t : chained bl l -> NoDup l.*1 -> t <> 0 -> t <> first_of l ->
  ((t ∉ l.*1) /\ before l t = 0) \/
  (exists l1 x tb l2, l = l1 ++ x :: (t, tb) :: l2 /\ before l t = x.1).
Proof.
  induction l as [|x l IH]; intros Hc Hnd Ht Hf; [left; split; [apply not_elem_of_nil|done]|].
  destruct Hc as (Hx & Hb & Hc). rewrite fmap_cons in Hnd. apply NoDup_cons in Hnd as [Hxn Hnd]. simpl in Hf. cbn [before].
  destruct (Z.eqb_spec (first_of l) t) as [E|Hne].
  - replace (first_of l =? 0) with false by lia. right. destruct l as [|[t' tb] l]; [simpl in E; lia|]. simpl in E. subst t'.
    by exists [], x, tb, l.
  - rewrite andb_false_r. destruct (IH Hc Hnd Ht ltac:(done)) as [[Hn ->]|(l1 & y & tb & l2 & -> & ->)].
    + left. split; [|done]. rewrite fmap_cons, not_elem_of_cons. done.
    + right. by exists (x :: l1), y, tb, l2.
Qed.

Lemma chained_mid bl l1 x l2 : chained bl (l1 ++ x :: l2) -> chained bl (x :: l2).
Proof. induction l1 as [|y l1 IH]; [done|]. intros (_ & _ & Hc). by apply IH. Qed.

Lemma LinkedListUnregister_ok sz R (s : lst) l t : ll_ok sz R s l -> t <> 0 ->
  ((t ∉ l.*1) /\ LinkedListUnregister sz t s = Ok (false, s)) \/
  (exists l1 tb l2 s', l = l1 ++ (t, tb) :: l2 /\ LinkedListUnregister sz t s = Ok (true, s') /\
     exists o, blocks s'.2 !! t = Some o /\ ll_body o = tb /\ ll_ok sz (<[t := o]> R) s' (l1 ++ l2)).
Proof.
  destruct s as [c m]. intros Hok Ht. pose proof Hok as []. simpl in *. unfold LinkedListUnregister.
  rewrite (st_bind_ok _ _ _ _ _ (Normal_ok _ _ _ _ Hok)), (st_bind_ok ll_get _ _ c (c, m)) by done.
  rewrite (st_bind_ok ll_fuel _ _ _ (c, m) eq_refl). rewrite ll_first0.
  rewrite (st_bind_ok _ _ _ _ _ (before_loop_ok _ (c, m) l t (ll_fuel_enough _ _ _ _ Hok) ll_chain0)).
  destruct (Z.eqb_spec (first_of l) t) as [E|Hne].
  { right. destruct l as [|[t' tb] l]; [simpl in E; lia|]. simpl in E. subst t'. destruct ll_chain0 as (_ & Hb & Hc). simpl first_of.
    rewrite (st_bind_ok _ _ _ _ _ (on_objects_ok _ c _ _ _ (kload_ok _ _ _ Hb))). cbn [ll_next].
    exists [], tb, l. eexists. split; [done|]. split; [reflexivity|]. simpl. eexists. split; [done|]. split; [done|].
    rewrite fmap_cons in ll_nodup0. apply NoDup_cons in ll_nodup0 as [Hn Hnd]. simpl in Hn. split; simpl; try done.
    - intros q Hq. rewrite lookup_insert_ne by (by intros <-). apply ll_own0. by right.
    - intros q Hq. destruct (decide (q = t)) as [->|]; [by rewrite lookup_insert_eq|]. rewrite lookup_insert_ne by done.
      apply ll_rest0. rewrite fmap_cons, not_elem_of_cons. done. }
  destruct (before_split _ _ _ ll_chain0 ll_nodup0 Ht ltac:(done)) as [[Hn ->]|(l1 & x & tb & l2 & -> & ->)]; [left; by rewrite Z.eqb_refl|].
  right. pose proof (chained_mid _ _ _ _ ll_chain0) as (Hx & Hbx & _ & Hbt & Hc2). replace (x.1 =? 0) with false by lia.
  rewrite (st_bind_ok _ _ _ _ _ (on_objects_ok _ c _ _ _ (kload_ok _ _ _ Hbx))). cbn [ll_next].
  rewrite (st_bind_ok _ _ _ _ _ (on_objects_ok _ c _ _ _ (kload_ok _ _ _ Hbt))). cbn [ll_next].
  rewrite (st_bind_ok _ _ _ _ _ (on_objects_ok _ c _ _ _ (kstore_ok _ _ _ _ Hbx))).
  exists (l1 ++ [x]), tb, l2. eexists. split; [by rewrite <-app_assoc|]. split; [reflexivity|]. simpl. rewrite <-app_assoc. simpl.
  pose proof ll_nodup0 as Hnd. rewrite fmap_app, !fmap_cons in Hnd. rewrite NoDup_app, !NoDup_cons, not_elem_of_cons in Hnd. simpl in Hnd.
  destruct Hnd as (Hnd1 & Hdis & (Hxt & Hx2) & Ht2 & Hnd2).
  exists {| ll_next := first_of l2; ll_body := tb |}. split; [by rewrite lookup_insert_ne|]. split; [done|].
  assert (Hperm : forall q, q ∈ (l1 ++ x :: (t, tb) :: l2).*1 <-> q = t \/ q ∈ (l1 ++ x :: l2).*1) by (intros q; rewrite !fmap_app, !fmap_cons; set_solver).
  assert (Htn : t ∉ (l1 ++ x :: l2).*1) by (rewrite fmap_app, fmap_cons; set_solver).
  split; simpl; try done.
  - apply memory_ok_store; [done|by rewrite Hbx].
  - rewrite ll_first0. by destruct l1.
  - rewrite fmap_app, fmap_cons, NoDup_app, NoDup_cons. set_solver.
  - by apply (chained_relink _ _ _ ((t, tb) :: l2)).
  - intros q Hq. rewrite lookup_insert_ne by (by intros <-). apply ll_own0. rewrite Hperm. by right.
  - intros q Hq. destruct (decide (q = t)) as [->|]; [by rewrite lookup_insert_eq, lookup_insert_ne|].
    rewrite (lookup_insert_ne _ t) by done. rewrite lookup_insert_ne by (intros <-; apply Hq; rewrite fmap_app, fmap_cons; set_solver).
    apply ll_rest0. rewrite Hperm. tauto.
Qed.

(** Releasing an object that is not in the list. *)
Lemma free_rest_ok sz R (s : lst) l t o : ll_ok sz R s l -> t ∉ l.*1 -> R !! t = Some o ->
  exists s', on_objects (kfree t) s = Ok (tt, s') /\ ll_ok sz (delete t R) s' l.
Proof.
  destruct s as [c m]. intros [] Hn HR. simpl in *. destruct (kfree_ok t o m) as (m' & E & Hm' & Hbl); [done|by rewrite ll_rest0|].
  rewrite (on_objects_ok _ c _ _ _ E). eexists. split; [done|]. split; simpl; try done.
  - eapply chained_frame; [done|]. intros q Hq. rewrite Hbl, lookup_delete_ne; [done|]. by intros <-.
  - intros q Hq. rewrite lookup_delete_ne by (by intros <-). by apply ll_own0.
  - intros q Hq. rewrite Hbl, !lookup_delete. case_decide; [done|]. by apply ll_rest0.
Qed.

Lemma LinkedListRemove_ok sz R (s : lst) l1 t tb l2 : ll_ok sz R s (l1 ++ (t, tb) :: l2) ->
  exists s', LinkedListRemove sz t s = Ok (true, s') /\ ll_ok sz R s' (l1 ++ l2).
Proof.
  intros Hok. pose proof (ll_nodup _ _ _ _ Hok) as Hnd. unfold LinkedListRemove. rewrite (st_bind_ok _ _ _ _ _ (Normal_ok _ _ _ _ Hok)).
  pose proof (ll_chain _ _ _ _ Hok) as (Ht & _)%chained_mid. simpl in Ht.
  destruct (LinkedListUnregister_ok _ _ _ _ t Hok Ht) as [[Hn _]|(k1 & tb' & k2 & s1 & El & E & o & Hb & _ & Hok1)].
  { destruct Hn. rewrite fmap_app, elem_of_app. right. left. }
  destruct (split_unique l1 k1 t tb tb' l2 k2 Hnd El) as [Ek _].
  rewrite <-Ek in Hok1. assert (Htn : t ∉ (l1 ++ l2).*1).
  { rewrite fmap_app, fmap_cons, NoDup_app, NoDup_cons in Hnd. rewrite fmap_app, elem_of_app. set_solver. }
  destruct (free_rest_ok _ _ _ _ t o Hok1 Htn) as (s2 & E2 & Hok2); [apply lookup_insert_eq|].
  rewrite (st_bind_ok _ _ _ _ _ E), (st_bind_ok _ _ _ _ _ E2). exists s2. split; [done|].
  rewrite delete_insert_id in Hok2; [done|]. apply (ll_own _ _ _ _ Hok). rewrite fmap_app, elem_of_app. right. left.
Qed.

(** *** The other operations *)

Lemma LinkedListPushFront_ok sz R (s : lst) l t o : ll_ok sz R s l -> t <> 0 -> t ∉ l.*1 -> R !! t = Some o -> (l = [] -> ll_next o = 0) ->
  exists s', LinkedListPushFrontUnsafe t s = Ok (tt, s') /\ ll_ok sz (delete t R) s' ((t, ll_body o) :: l).
Proof.
  destruct s as [c m]. intros [] Ht Hn HR Ho. simpl in *. assert (Hb : blocks m !! t = Some o) by by rewrite ll_rest0.
  unfold LinkedListPushFrontUnsafe. rewrite (st_bind_ok ll_get _ _ c (c, m)) by done. rewrite ll_first0, (chained_first _ _ ll_chain0).
  assert (Hend : forall m', memory_ok m' -> blocks m' = <[t := {| ll_next := first_of l; ll_body := ll_body o |}]> (blocks m) ->
    ll_ok sz (delete t R) (with_firstObject c t, m') ((t, ll_body o) :: l)).
  { intros m' Hm' Hbl. split; simpl; try done.
    - by apply NoDup_cons.
    - rewrite Hbl. split; [done|]. split; [apply lookup_insert_eq|]. eapply chained_frame; [done|]. intros q Hq.
      rewrite lookup_insert_ne; [done|]. by intros <-.
    - intros q [->|Hq]%elem_of_cons; [apply lookup_delete_eq|]. rewrite lookup_delete_ne by (by intros <-). by apply ll_own0.
    - intros q Hq%not_elem_of_cons. rewrite Hbl, lookup_insert_ne, lookup_delete_ne by naive_solver. apply ll_rest0. naive_solver. }
  destruct l as [|x l].
  - rewrite (st_bind_ok (set_first t) _ _ tt (with_firstObject c t, m)) by done.
    rewrite (st_bind_ok _ _ _ _ _ (on_objects_ok _ _ _ _ _ (kload_ok _ _ _ Hb))). unfold sassert, lift. rewrite Ho by done. simpl.
    eexists. split; [done|]. apply Hend; [done|]. symmetry. apply insert_id. rewrite Hb. f_equal. destruct o. simpl in *. by rewrite Ho.
  - rewrite (st_bind_ok (set_first t) _ _ tt (with_firstObject c t, m)) by done.
    rewrite (on_objects_ok _ _ _ _ _ (kstore_ok _ _ _ _ Hb)). eexists. split; [done|]. apply Hend; [|done]. apply memory_ok_store; [done|by rewrite Hb].
Qed.

Lemma destroy_loop_ok fuel c (m : memory LLobject H) l R : (length l < fuel)%nat -> memory_ok m -> chained (blocks m) l -> NoDup l.*1 ->
  (forall q, q ∈ l.*1 -> R !! q = None) -> (forall q, q ∉ l.*1 -> blocks m !! q = R !! q) ->
  exists m', destroy_loop fuel (first_of l) (c, m) = Ok (tt, (c, m')) /\ memory_ok m' /\ blocks m' = R.
Proof.
  revert m l. induction fuel as [|fuel IH]; intros m l Hf Hm Hc Hnd Hown Hrest; [lia|]. cbn [destroy_loop]. rewrite (chained_first _ _ Hc).
  destruct l as [|x l].
  { exists m. split; [done|]. split; [done|]. apply map_eq. intros q. apply Hrest. apply not_elem_of_nil. }
  destruct Hc as (Hx & Hb & Hc). rewrite fmap_cons in Hnd. apply NoDup_cons in Hnd as [Hn Hnd]. simpl first_of.
  rewrite (st_bind_ok _ _ _ _ _ (on_objects_ok _ c _ _ _ (kload_ok _ _ _ Hb))). cbn [ll_next].
  destruct (kfree_ok x.1 _ m Hm Hb) as (m1 & E1 & Hm1 & Hbl). rewrite (st_bind_ok _ _ _ _ _ (on_objects_ok _ c _ _ _ E1)).
  apply IH; [simpl in Hf; lia|done| |done|..].
  - eapply chained_frame; [done|]. intros q Hq. rewrite Hbl, lookup_delete_ne; [done|]. by intros <-.
  - intros q Hq. apply Hown. by right.
  - intros q Hq. rewrite Hbl, lookup_delete. case_decide as E; [subst; symmetry; apply Hown; left|].
    apply Hrest. rewrite fmap_cons, not_elem_of_cons. naive_solver.
Qed.

Lemma LinkedListDestroy_ok sz R (s : lst) l : ll_ok sz R s l ->
  exists s', LinkedListDestroy sz s = Ok (tt, s') /\ ll_ok sz R s' [] /\ blocks s'.2 = R.
Proof.
  destruct s as [c m]. intros Hok. pose proof Hok as []. simpl in *. unfold LinkedListDestroy.
  rewrite (st_bind_ok _ _ _ _ _ (Normal_ok _ _ _ _ Hok)), (st_bind_ok ll_get _ _ c (c, m)) by done.
  rewrite (st_bind_ok ll_fuel _ _ _ (c, m) eq_refl), ll_first0.
  destruct (destroy_loop_ok _ c m l R (ll_fuel_enough _ _ _ _ Hok)) as (m' & E & Hm' & Hbl); try done.
  rewrite (st_bind_ok _ _ _ _ _ E). eexists. split; [reflexivity|]. simpl. split; [|done].
  split; simpl; try done; [constructor|by intros q ?%elem_of_nil|]. intros q _. by rewrite Hbl.
Qed.

(** The first object that satisfies a test, or null. *)
Fixpoint first_with (f : Z -> bool) (l : list (Z * list Z)) : Z :=
  match l with [] => 0 | x :: l' => if f x.1 then x.1 else first_with f l' end.

Lemma search_loop_ok fuel (f : Z -> bool) c (m : memory LLobject H) l : (length l < fuel)%nat -> chained (blocks m) l ->
  search_loop fuel (fun x => mret (f x)) (first_of l) (c, m) = Ok (first_with f l, (c, m)).
Proof.
  revert l. induction fuel as [|fuel IH]; intros l Hf Hc; [lia|]. cbn [search_loop]. rewrite (chained_first _ _ Hc).
  destruct l as [|x l]; [done|]. destruct Hc as (Hx & Hb & Hc). simpl first_of. cbn [first_with].
  rewrite (st_bind_ok (on_objects (mret (f x.1))) _ _ (f x.1) (c, m)) by done. destruct (f x.1); [done|].
  rewrite (st_bind_ok _ _ _ _ _ (on_objects_ok _ c _ _ _ (kload_ok _ _ _ Hb))). cbn [ll_next]. apply IH; [simpl in Hf; lia|done].
Qed.

Lemma LinkedListSearch_ok sz R (s : lst) l (f : Z -> bool) : ll_ok sz R s l ->
  LinkedListSearch (fun x => mret (f x)) s = Ok (first_with f l, s).
Proof.
  destruct s as [c m]. intros Hok. pose proof Hok as []. simpl in *. unfold LinkedListSearch.
  rewrite (st_bind_ok ll_get _ _ c (c, m)), (st_bind_ok ll_fuel _ _ _ (c, m) eq_refl), ll_first0 by done.
  apply search_loop_ok; [by eapply (ll_fuel_enough _ _ (c, m))|done].
Qed.

(** C37. The operations on linked lists, on a list with the objects [l] (addresses and contents, in order), in a memory whose rest is [R].
    [LinkedListAllocate] appends a new object filled with zeros, and writes through the null pointer
    if there is no memory; [LinkedListUnregister] takes an object out of the list
    and returns whether it was there; [LinkedListRemove] also releases it;
    [LinkedListPushFrontUnsafe] puts an object in front (into an empty list
    only one without a successor, as it asserts); [LinkedListSearch] returns the first
    object that satisfies the test; [LinkedListDestroy] releases all
    objects.  Other objects keep their place and contents, the rest of the memory is untouched, every
    loop ends, and no pointer is followed outside the objects. *)
Theorem linked_list_correct fresh sz R (s : lst) l : ll_ok sz R s l ->
  (if no_object_memory sz s.2 then LinkedListAllocate fresh sz s = Fault
   else exists t s', LinkedListAllocate fresh sz s = Ok (t, s') /\ ll_ok sz R s' (l ++ [(t, replicate (Z.to_nat (sz - 8)) 0)])) /\
  (forall t, t <> 0 -> t ∉ l.*1 -> LinkedListUnregister sz t s = Ok (false, s)) /\
  (forall l1 t tb l2, l = l1 ++ (t, tb) :: l2 ->
     (exists s' o, LinkedListUnregister sz t s = Ok (true, s') /\ ll_body o = tb /\ ll_ok sz (<[t := o]> R) s' (l1 ++ l2)) /\
     (exists s', LinkedListRemove sz t s = Ok (true, s') /\ ll_ok sz R s' (l1 ++ l2))) /\
  (forall t o, t <> 0 -> t ∉ l.*1 -> R !! t = Some o -> (l = [] -> ll_next o = 0) ->
     exists s', LinkedListPushFrontUnsafe t s = Ok (tt, s') /\ ll_ok sz (delete t R) s' ((t, ll_body o) :: l)) /\
  (forall f : Z -> bool, LinkedListSearch (fun x => mret (f x)) s = Ok (first_with f l, s)) /\
  (exists s', LinkedListDestroy sz s = Ok (tt, s') /\ ll_ok sz R s' [] /\ blocks s'.2 = R).
Proof.
  intros Hok. split; [by apply LinkedListAllocate_ok|]. split; [|split; [|split; [|split]]].
  - intros t Ht Hn. destruct (LinkedListUnregister_ok _ _ _ _ t Hok Ht) as [[_ E]|(l1 & tb & l2 & s' & -> & _)]; [done|].
    destruct Hn. rewrite fmap_app, elem_of_app. right. left.
  - intros l1 t tb l2 ->. split; [|by eapply LinkedListRemove_ok].
    pose proof (ll_chain _ _ _ _ Hok) as (Ht & _)%chained_mid. simpl in Ht. pose proof (ll_nodup _ _ _ _ Hok) as Hnd.
    destruct (LinkedListUnregister_ok _ _ _ _ t Hok Ht) as [[Hn _]|(k1 & tb' & k2 & s1 & El & E & o & _ & Hbody & Hok1)].
    { destruct Hn. rewrite fmap_app, elem_of_app. right. left. }
    destruct (split_unique l1 k1 t tb tb' l2 k2 Hnd El) as [-> ->]. by exists s1, o.
  - intros t o. by apply LinkedListPushFront_ok.
  - intros f. by eapply LinkedListSearch_ok.
  - by eapply LinkedListDestroy_ok.
Qed.

(** [LinkedListRemove] releases its target even when it is not in the list: for an
    object that belongs to somebody else the result is [false], and the object is gone. *)
Theorem linked_list_remove_stray sz R (s : lst) l t o : ll_ok sz R s l -> t <> 0 -> t ∉ l.*1 -> R !! t = Some o ->
  exists s', LinkedListRemove sz t s = Ok (false, s') /\ ll_ok sz (delete t R) s' l /\ blocks s'.2 !! t = None.
Proof.
  intros Hok Ht Hn HR. unfold LinkedListRemove. rewrite (st_bind_ok _ _ _ _ _ (Normal_ok _ _ _ _ Hok)).
  destruct (LinkedListUnregister_ok _ _ _ _ t Hok Ht) as [[_ E]|(l1 & tb & l2 & s' & -> & _)].
  2: { destruct Hn. rewrite fmap_app, elem_of_app. right. left. }
  destruct (free_rest_ok _ _ _ _ t o Hok Hn HR) as (s1 & E1 & Hok1). rewrite (st_bind_ok _ _ _ _ _ E), (st_bind_ok _ _ _ _ _ E1).
  exists s1. split; [done|]. split; [done|]. rewrite (ll_rest _ _ _ _ Hok1) by done. apply lookup_delete_eq.
Qed.

End list_memory.

(** ** Examples *)

#[local] Existing Instance example_Heap.

Definition example_objects : memory LLobject Z := mkMemory
  {[0x10000 := {| ll_next := 0x10010; ll_body := [1] |}; 0x10010 := {| ll_next := 0; ll_body := [2] |};
    0x10020 := {| ll_next := 0; ll_body := [3] |}]} 0x10030.
Definition example_list : lstate (H := Z) :=
  ({| signature1 := LL_SIGNATURE_1; signature2 := LL_SIGNATURE_2; structSize := 9; firstObject := 0x10000 |}, example_objects).
Definition example_others : gmap Z LLobject := {[0x10020 := {| ll_next := 0; ll_body := [3] |}]}.

Lemma example_list_ok : ll_ok 9 example_others example_list [(0x10000, [1]); (0x10010, [2])].
Proof.
  assert (Hl : forall q o, blocks example_objects !! q = Some o -> q = 0x10000 \/ q = 0x10010 \/ q = 0x10020).
  { intros q o Hq. unfold example_objects in Hq. cbn [blocks] in Hq.
    rewrite !lookup_insert_Some, lookup_singleton_Some in Hq. naive_solver. }
  split; try done.
  - split; [done|]. exists {[0x10000; 0x10010; 0x10020]}. split; [split; [done|set_solver by lia]|]. intros q [o Hq%Hl]. set_solver.
  - by apply (bool_decide_unpack (NoDup [0x10000; 0x10010])).
  - intros q. simpl. rewrite !elem_of_cons. intros [->|[->|Hq]]; [by vm_compute..|by apply elem_of_nil in Hq].
  - intros q. simpl. rewrite !not_elem_of_cons. intros (H1 & H2 & _). unfold example_objects, example_others. cbn [blocks].
    by rewrite !lookup_insert_ne by done.
Qed.

Lemma linked_list_correct_witness :
  (exists t s', LinkedListAllocate (fun _ => {| ll_next := 7; ll_body := [7] |}) 9 example_list = Ok (t, s') /\
     ll_ok 9 example_others s' [(0x10000, [1]); (0x10010, [2]); (t, [0])]) /\
  (exists s', LinkedListRemove 9 0x10000 example_list = Ok (true, s') /\ ll_ok 9 example_others s' [(0x10010, [2])]).
Proof.
  destruct (linked_list_correct (fun _ => {| ll_next := 7; ll_body := [7] |}) 9 _ _ _ example_list_ok) as (Ha & _ & Hr & _).
  split; [by vm_compute in Ha|]. by apply (Hr [] 0x10000 [1] [(0x10010, [2])]).
Defined.

Lemma linked_list_remove_stray_witness :
  exists s', LinkedListRemove 9 0x10020 example_list = Ok (false, s') /\ blocks s'.2 !! 0x10020 = None.
Proof.
  destruct (linked_list_remove_stray 9 _ _ _ 0x10020 {| ll_next := 0; ll_body := [3] |} example_list_ok) as (s' & E & _ & Hb);
    [done|simpl; rewrite !not_elem_of_cons; split; [done|split; [done|apply not_elem_of_nil]]|done|]. by exists s'.
Defined.
