(* ===== verification/Spinlock.v ===== *)
(** * Spinlocks, reader-writer locks and semaphores (utilities/spinlock.rs)

    The code is run by any number of tasks.  A task is a state machine with one state per
    access to shared memory; a step of the system is a step of any task.  The theorems hold in every
    state that can be reached. *)

From S2P Require Import Prelude Rust.

Set Default Proof Using "Type".

(** ** Counting tasks *)

Section tally.
Context {T : Type}.

Definition tally (f : T -> Z) (l : list T) : Z := foldr (fun x n => f x + n) 0 l.

Lemma tally_insert f (l : list T) t x y : l !! t = Some x -> tally f (<[t := y]> l) = tally f l - f x + f y.
Proof. revert t. induction l as [|z l IH]; intros [|t] Ht; simplify_eq/=; [lia|]. rewrite IH by done. lia. Qed.

Lemma tally_nonneg f (l : list T) : (forall x, 0 <= f x) -> 0 <= tally f l.
Proof. intros Hf. induction l as [|x l IH]; simpl; [lia|]. specialize (Hf x). lia. Qed.

Lemma tally_member f (l : list T) t x : (forall x, 0 <= f x) -> l !! t = Some x -> f x <= tally f l.
Proof.
  intros Hf. revert t. induction l as [|z l IH]; intros [|t] Ht; simplify_eq/=; pose proof (tally_nonneg f l Hf); [lia|].
  specialize (IH _ Ht). specialize (Hf z). lia.
Qed.

(** Two tasks that both count make at least two. *)
Lemma tally_two f (l : list T) t1 t2 x1 x2 : (forall x, 0 <= f x) -> t1 <> t2 -> l !! t1 = Some x1 -> l !! t2 = Some x2 ->
  f x1 + f x2 <= tally f l.
Proof.
  intros Hf. revert t1 t2. induction l as [|z l IH]; intros [|t1] [|t2] Hne H1 H2; simplify_eq/=.
  - pose proof (tally_member f l t2 x2 Hf H2). lia.
  - pose proof (tally_member f l t1 x1 Hf H1). lia.
  - specialize (IH t1 t2 ltac:(lia) H1 H2). specialize (Hf z). lia.
Qed.

Lemma tally_bound f (l : list T) : (forall x, f x <= 1) -> tally f l <= Z.of_nat (length l).
Proof. intros Hf. induction l as [|x l IH]; simpl; [lia|]. specialize (Hf x). lia. Qed.

Lemma tally_replicate f n (x : T) : f x = 0 -> tally f (replicate n x) = 0.
Proof. intros Hx. induction n; simpl; lia. Qed.

End tally.

Definition bit (b : bool) : Z := if b then 1 else 0.

(** ** [Spinlock] *)

(** [flag.swap(true)]: the new flag, and whether the lock was free. *)
Definition acquire (flag : bool) : bool * bool := (true, negb flag).
Definition release (flag : bool) : bool := false.

(** ** [SpinlockCnt] *)

Record SpinlockCnt := { lock : bool; cnt : Z }.
Definition set_flag (s : SpinlockCnt) (b : bool) : SpinlockCnt := {| lock := b; cnt := cnt s |}.
Definition set_cnt (s : SpinlockCnt) (n : Z) : SpinlockCnt := {| lock := lock s; cnt := n |}.

(** Where a task is.  [rw_reading] and [rw_writing] are between the acquisition and the
    release. *)
Inductive rw_task :=
| rw_idle
| ra_lock | ra_test | ra_inc | ra_unlock | ra_retry
| rw_reading
| rr_lock | rr_test | rr_dec | rr_unlock
| wa_lock | wa_test | wa_set | wa_unlock | wa_retry
| rw_writing
| wr_lock | wr_test | wr_set | wr_unlock.

Definition read_acquire (r : rw_task) (s : SpinlockCnt) : outcome (rw_task * SpinlockCnt) :=
  match r with
  | ra_lock => let (flag, got) := acquire (lock s) in Ok (if got then ra_test else ra_lock, set_flag s flag)
  | ra_test => Ok (if -1 <? cnt s then ra_inc else ra_retry, s)
  | ra_inc => n ← iadd (cnt s) 1; Ok (ra_unlock, set_cnt s n)
  | ra_unlock => Ok (rw_reading, set_flag s (release (lock s)))
  | ra_retry => Ok (ra_lock, set_flag s (release (lock s)))
  | _ => Ok (r, s)
  end.
Definition read_release (r : rw_task) (s : SpinlockCnt) : outcome (rw_task * SpinlockCnt) :=
  match r with
  | rr_lock => let (flag, got) := acquire (lock s) in Ok (if got then rr_test else rr_lock, set_flag s flag)
  | rr_test => if cnt s <? 0 then Panic else Ok (rr_dec, s)
  | rr_dec => n ← isub (cnt s) 1; Ok (rr_unlock, set_cnt s n)
  | rr_unlock => Ok (rw_idle, set_flag s (release (lock s)))
  | _ => Ok (r, s)
  end.
Definition write_acquire (r : rw_task) (s : SpinlockCnt) : outcome (rw_task * SpinlockCnt) :=
  match r with
  | wa_lock => let (flag, got) := acquire (lock s) in Ok (if got then wa_test else wa_lock, set_flag s flag)
  | wa_test => Ok (if cnt s =? 0 then wa_set else wa_retry, s)
  | wa_set => Ok (wa_unlock, set_cnt s (-1))
  | wa_unlock => Ok (rw_writing, set_flag s (release (lock s)))
  | wa_retry => Ok (wa_lock, set_flag s (release (lock s)))
  | _ => Ok (r, s)
  end.
Definition write_release (r : rw_task) (s : SpinlockCnt) : outcome (rw_task * SpinlockCnt) :=
  match r with
  | wr_lock => let (flag, got) := acquire (lock s) in Ok (if got then wr_test else wr_lock, set_flag s flag)
  | wr_test => if negb (cnt s =? -1) then Panic else Ok (wr_set, s)
  | wr_set => Ok (wr_unlock, set_cnt s 0)
  | wr_unlock => Ok (rw_idle, set_flag s (release (lock s)))
  | _ => Ok (r, s)
  end.

Definition rw_step (r : rw_task) : SpinlockCnt -> outcome (rw_task * SpinlockCnt) :=
  match r with
  | ra_lock | ra_test | ra_inc | ra_unlock | ra_retry => read_acquire r
  | rr_lock | rr_test | rr_dec | rr_unlock => read_release r
  | wa_lock | wa_test | wa_set | wa_unlock | wa_retry => write_acquire r
  | wr_lock | wr_test | wr_set | wr_unlock => write_release r
  | _ => fun s => Ok (r, s)
  end.

(** A task enters a function when it may: it releases what it has acquired. *)
Inductive rw_enter : rw_task -> rw_task -> Prop :=
| enter_ra : rw_enter rw_idle ra_lock
| enter_rr : rw_enter rw_reading rr_lock
| enter_wa : rw_enter rw_idle wa_lock
| enter_wr : rw_enter rw_writing wr_lock.

Inductive rw_reach (n : nat) : list rw_task -> SpinlockCnt -> Prop :=
| rw_init : rw_reach n (replicate n rw_idle) {| lock := false; cnt := 0 |}
| rw_call ts s t r r' : rw_reach n ts s -> ts !! t = Some r -> rw_enter r r' -> rw_reach n (<[t := r']> ts) s
| rw_next ts s t r r' s' : rw_reach n ts s -> ts !! t = Some r -> rw_step r s = Ok (r', s') -> rw_reach n (<[t := r']> ts) s'.

(** Tasks that have the inner lock, and those that are counted as readers or as the writer. *)
Definition rw_inside (r : rw_task) : bool :=
  match r with
  | ra_test | ra_inc | ra_unlock | ra_retry | rr_test | rr_dec | rr_unlock
  | wa_test | wa_set | wa_unlock | wa_retry | wr_test | wr_set | wr_unlock => true
  | _ => false
  end.
Definition rw_reader (r : rw_task) : bool :=
  match r with ra_unlock | rw_reading | rr_lock | rr_test | rr_dec => true | _ => false end.
Definition rw_writer (r : rw_task) : bool :=
  match r with wa_unlock | rw_writing | wr_lock | wr_test | wr_set => true | _ => false end.

(** What a task that has tested the counter relies on. *)
Definition rw_knows (s : SpinlockCnt) (r : rw_task) : Prop :=
  match r with ra_inc => 0 <= cnt s | wa_set => cnt s = 0 | _ => True end.

Record rw_ok (ts : list rw_task) (s : SpinlockCnt) : Prop := {
  rw_held : tally (fun r => bit (rw_inside r)) ts = bit (lock s);
  rw_count : (cnt s = tally (fun r => bit (rw_reader r)) ts /\ tally (fun r => bit (rw_writer r)) ts = 0) \/
             (cnt s = -1 /\ tally (fun r => bit (rw_writer r)) ts = 1 /\ tally (fun r => bit (rw_reader r)) ts = 0);
  rw_known : forall t r, ts !! t = Some r -> rw_knows s r
}.

Lemma bit_range b : 0 <= bit b <= 1.
Proof. destruct b; simpl; lia. Qed.

(** The task that steps is the only one inside when it is inside. *)
Lemma rw_alone ts s t r t' r' : rw_ok ts s -> ts !! t = Some r -> rw_inside r = true -> t' <> t -> ts !! t' = Some r' -> rw_inside r' = false.
Proof.
  intros [Hh _ _] Ht Hr Hne Ht'. destruct (rw_inside r') eqn:E; [|done].
  pose proof (tally_two (fun r => bit (rw_inside r)) ts t t' r r' (fun x => proj1 (bit_range _)) ltac:(done) Ht Ht') as H2.
  cbv beta in H2. rewrite Hr, E in H2. pose proof (bit_range (lock s)). simpl in H2. lia.
Qed.

Lemma rw_knows_other s' r : rw_inside r = false -> rw_knows s' r.
Proof. by destruct r. Qed.

(** Updating one task. *)
Lemma rw_ok_update ts s t r r' s' : rw_ok ts s -> ts !! t = Some r ->
  bit (lock s') = bit (lock s) - bit (rw_inside r) + bit (rw_inside r') ->
  rw_knows s' r' -> (rw_inside r = true \/ cnt s' = cnt s) ->
  (let nr := tally (fun r => bit (rw_reader r)) ts - bit (rw_reader r) + bit (rw_reader r') in
   let nw := tally (fun r => bit (rw_writer r)) ts - bit (rw_writer r) + bit (rw_writer r') in
   (cnt s' = nr /\ nw = 0) \/ (cnt s' = -1 /\ nw = 1 /\ nr = 0)) ->
  rw_ok (<[t := r']> ts) s'.
Proof.
  intros Hok Ht Hl Hk Hc Hn. pose proof Hok as []. split.
  - rewrite (tally_insert _ _ _ _ _ Ht). lia.
  - rewrite !(tally_insert _ _ _ _ _ Ht). exact Hn.
  - intros t1 r1. rewrite list_lookup_insert_Some. intros [(<- & <- & _)|[Hne H1]]; [done|].
    destruct Hc as [Hi|Hc]; [apply rw_knows_other, (rw_alone ts s t r t1 r1); auto|]. specialize (rw_known0 _ _ H1).
    destruct r1; simpl in *; try done; lia.
Qed.

Lemma rw_enter_ok ts s t r r' : rw_ok ts s -> ts !! t = Some r -> rw_enter r r' -> rw_ok (<[t := r']> ts) s.
Proof.
  intros Hok Ht He. eapply rw_ok_update; [done|done|..]; pose proof (rw_count _ _ Hok) as Hc; destruct He; simpl; auto; lia.
Qed.

(** No step panics, and every step keeps the invariant. *)
Lemma rw_step_ok ts s t r : rw_ok ts s -> Z.of_nat (length ts) <= 2147483647 -> ts !! t = Some r ->
  exists r' s', rw_step r s = Ok (r', s') /\ rw_ok (<[t := r']> ts) s'.
Proof.
  intros Hok Hn Ht. pose proof (rw_count _ _ Hok) as Hc. pose proof (rw_known _ _ Hok _ _ Ht) as Hk. pose proof (rw_held _ _ Hok) as Hh.
  pose proof (tally_bound (fun r => bit (rw_reader r)) ts (fun x => proj2 (bit_range _))) as Hb.
  pose proof (tally_bound (fun r => bit (rw_reader r)) (<[t := rw_reading]> ts) (fun x => proj2 (bit_range _))) as Hb2.
  rewrite (tally_insert _ _ _ _ _ Ht), length_insert in Hb2.
  pose proof (tally_member (fun r => bit (rw_reader r)) ts t r (fun x => proj1 (bit_range _)) Ht) as Hr.
  pose proof (tally_member (fun r => bit (rw_writer r)) ts t r (fun x => proj1 (bit_range _)) Ht) as Hw.
  pose proof (tally_member (fun r => bit (rw_inside r)) ts t r (fun x => proj1 (bit_range _)) Ht) as Hi.
  assert (Hin : rw_inside r = true -> lock s = true).
  { intros E. cbv beta in Hi. rewrite E, Hh in Hi. by destruct (lock s). }
  assert (Hgoal : forall r' s', bit (lock s') = bit (lock s) - bit (rw_inside r) + bit (rw_inside r') ->
    rw_knows s' r' -> (rw_inside r = true \/ cnt s' = cnt s) ->
    (let nr := tally (fun r => bit (rw_reader r)) ts - bit (rw_reader r) + bit (rw_reader r') in
     let nw := tally (fun r => bit (rw_writer r)) ts - bit (rw_writer r) + bit (rw_writer r') in
     (cnt s' = nr /\ nw = 0) \/ (cnt s' = -1 /\ nw = 1 /\ nr = 0)) ->
    exists r1 s1, Ok (r', s') = Ok (r1, s1) /\ rw_ok (<[t := r1]> ts) s1).
  { intros r' s' ? ? ? ?. exists r', s'. split; [done|]. by eapply rw_ok_update. }
  destruct r; simpl in *; try (rewrite Hin in * by done).
  all: try (apply Hgoal; simpl; auto; lia).
  - destruct (lock s) eqn:El; simpl; apply Hgoal; simpl; rewrite ?El; auto; lia.
  - destruct (Z.ltb_spec (-1) (cnt s)); apply Hgoal; simpl; rewrite ?Hin by done; auto; lia.
  - rewrite iadd_ok by (unfold is_i32; lia). simpl. apply Hgoal; simpl; rewrite ?Hin by done; auto; lia.
  - destruct (lock s) eqn:El; simpl; apply Hgoal; simpl; rewrite ?El; auto; lia.
  - replace (cnt s <? 0) with false by lia. apply Hgoal; simpl; rewrite ?Hin by done; auto; lia.
  - rewrite isub_ok by (unfold is_i32; lia). simpl. apply Hgoal; simpl; rewrite ?Hin by done; auto; lia.
  - destruct (lock s) eqn:El; simpl; apply Hgoal; simpl; rewrite ?El; auto; lia.
  - destruct (Z.eqb_spec (cnt s) 0); apply Hgoal; simpl; rewrite ?Hin by done; auto; lia.
  - apply Hgoal; simpl; [by rewrite Hin|done|by left|]. right. lia.
  - destruct (lock s) eqn:El; simpl; apply Hgoal; simpl; rewrite ?El; auto; lia.
  - replace (cnt s =? -1) with true by lia. apply Hgoal; simpl; rewrite ?Hin by done; auto; lia.
  - apply Hgoal; simpl; [by rewrite Hin|done|by left|]. left. lia.
Qed.

Lemma rw_reach_ok n ts s : Z.of_nat n <= 2147483647 -> rw_reach n ts s -> length ts = n /\ rw_ok ts s.
Proof.
  intros Hn. induction 1 as [|ts s t r r' _ [Hl Hok] Ht He|ts s t r r' s' _ [Hl Hok] Ht E].
  - rewrite length_replicate. split; [done|]. split; rewrite ?tally_replicate by done; [done|by left|].
    intros t r Ht. by apply lookup_replicate in Ht as [-> _].
  - rewrite length_insert. split; [done|]. by eapply rw_enter_ok.
  - rewrite length_insert. split; [done|]. destruct (rw_step_ok ts s t r Hok ltac:(lia) Ht) as (r1 & s1 & E1 & Hok1).
    rewrite E in E1. by injection E1 as <- <-.
Qed.

(** C25. The reader-writer lock excludes.  In every state that up to [2^31 - 1] tasks can reach that acquire
    and release it in any order: while one task has it for writing, no other has it for
    reading or writing; the counter is the number of readers, or -1 while there is
    a writer; the inner lock is held by at most one task, and by one when it is taken;
    and the next step of every task returns, so the checks that end in
    a panic never fail and the counter does not overflow. *)
Theorem rw_lock_exclusive n ts s : Z.of_nat n <= 2147483647 -> rw_reach n ts s ->
  (forall t1 t2 r, ts !! t1 = Some rw_writing -> ts !! t2 = Some r -> t1 <> t2 -> r <> rw_writing /\ r <> rw_reading) /\
  ((cnt s = tally (fun r => bit (rw_reader r)) ts /\ tally (fun r => bit (rw_writer r)) ts = 0) \/
   (cnt s = -1 /\ tally (fun r => bit (rw_writer r)) ts = 1 /\ tally (fun r => bit (rw_reader r)) ts = 0)) /\
  tally (fun r => bit (rw_inside r)) ts = bit (lock s) /\
  (forall t r, ts !! t = Some r -> exists r' s', rw_step r s = Ok (r', s')).
Proof.
  intros Hn Hr. destruct (rw_reach_ok _ _ _ Hn Hr) as [Hl Hok]. pose proof Hok as []. split; [|split; [done|split; [done|]]].
  - intros t1 t2 r H1 H2 Hne.
    pose proof (tally_two (fun r => bit (rw_writer r)) ts t1 t2 _ _ (fun x => proj1 (bit_range _)) Hne H1 H2) as Hw.
    pose proof (tally_member (fun r => bit (rw_reader r)) ts t2 r (fun x => proj1 (bit_range _)) H2) as Hrd.
    split; intros ->; simpl in *; lia.
  - intros t r Ht. destruct (rw_step_ok ts s t r Hok ltac:(lia) Ht) as (r' & s' & E & _). by exists r', s'.
Qed.

(** ** [Semaphore] *)

Record Semaphore := { sem_lock : bool; sem_cnt : Z }.
Definition set_sem_lock (s : Semaphore) (b : bool) : Semaphore := {| sem_lock := b; sem_cnt := sem_cnt s |}.
Definition set_sem_cnt (s : Semaphore) (n : Z) : Semaphore := {| sem_lock := sem_lock s; sem_cnt := n |}.

(** A task in [wait(timeout)], with its local [start], or in [post()]. *)
Inductive sem_task :=
| sem_idle
| sw_start (timeout : Z)
| sw_loop (timeout start : Z)
| sw_lock (timeout start : Z)
| sw_test (timeout start : Z)
| sw_dec
| sw_unlock
| sw_retry (timeout start : Z)
| sw_done (ret : bool)
| sp_lock
| sp_inc
| sp_unlock.

(** One step, at [timerTicks = now]. *)
Definition sem_wait (now : Z) (r : sem_task) (s : Semaphore) : outcome (sem_task * Semaphore) :=
  match r with
  | sw_start timeout => Ok (sw_loop timeout now, s)
  | sw_loop timeout start =>
      if 0 <? timeout then
        deadline ← uadd start timeout;
        if deadline <? now then Ok (sw_done false, s) else Ok (sw_lock timeout start, s)
      else Ok (sw_lock timeout start, s)
  | sw_lock timeout start =>
      let (flag, got) := acquire (sem_lock s) in Ok (if got then sw_test timeout start else r, set_sem_lock s flag)
  | sw_test timeout start => Ok (if 0 <? sem_cnt s then sw_dec else sw_retry timeout start, s)
  | sw_dec => n ← isub (sem_cnt s) 1; Ok (sw_unlock, set_sem_cnt s n)
  | sw_unlock => Ok (sw_done true, set_sem_lock s (release (sem_lock s)))
  | sw_retry timeout start => Ok (sw_loop timeout start, set_sem_lock s (release (sem_lock s)))
  | sw_done _ => Ok (sem_idle, s)
  | _ => Ok (r, s)
  end.
Definition sem_post (r : sem_task) (s : Semaphore) : outcome (sem_task * Semaphore) :=
  match r with
  | sp_lock => let (flag, got) := acquire (sem_lock s) in Ok (if got then sp_inc else r, set_sem_lock s flag)
  | sp_inc => n ← iadd (sem_cnt s) 1; Ok (sp_unlock, set_sem_cnt s n)
  | sp_unlock => Ok (sem_idle, set_sem_lock s (release (sem_lock s)))
  | _ => Ok (r, s)
  end.
Definition sem_step (now : Z) (r : sem_task) : Semaphore -> outcome (sem_task * Semaphore) :=
  match r with sp_lock | sp_inc | sp_unlock => sem_post r | _ => sem_wait now r end.

Inductive sem_enter : sem_task -> Prop :=
| enter_wait timeout : is_u32 timeout -> sem_enter (sw_start timeout)
| enter_post : sem_enter sp_lock.

(** The states that [n] tasks reach from [Semaphore::new(initial)], with the numbers of units that have been
    posted and taken.  [now] is the timer's value when the step is taken. *)
Inductive sem_reach (n : nat) (initial : Z) : list sem_task -> Semaphore -> Z -> Z -> Prop :=
| sem_init : sem_reach n initial (replicate n sem_idle) {| sem_lock := false; sem_cnt := initial |} 0 0
| sem_call ts s posted taken t r : sem_reach n initial ts s posted taken -> ts !! t = Some sem_idle -> sem_enter r ->
    sem_reach n initial (<[t := r]> ts) s posted taken
| sem_next ts s posted taken t r r' s' now : sem_reach n initial ts s posted taken -> ts !! t = Some r ->
    0 <= now <= usize_MAX - 4294967296 -> sem_step now r s = Ok (r', s') ->
    sem_reach n initial (<[t := r']> ts) s'
      (posted + bit (match r with sp_inc => true | _ => false end)) (taken + bit (match r with sw_dec => true | _ => false end)).

Definition sem_inside (r : sem_task) : bool :=
  match r with sw_test _ _ | sw_dec | sw_unlock | sw_retry _ _ | sp_inc | sp_unlock => true | _ => false end.

(** What a task relies on. *)
Definition sem_knows (s : Semaphore) (r : sem_task) : Prop :=
  match r with
  | sw_dec => 0 < sem_cnt s
  | sw_start timeout => is_u32 timeout
  | sw_loop timeout start | sw_lock timeout start | sw_test timeout start | sw_retry timeout start =>
      is_u32 timeout /\ 0 <= start <= usize_MAX - 4294967296
  | _ => True
  end.

Record sem_ok (initial : Z) (ts : list sem_task) (s : Semaphore) (posted taken : Z) : Prop := {
  sem_held : tally (fun r => bit (sem_inside r)) ts = bit (sem_lock s);
  sem_units : sem_cnt s = initial + posted - taken;
  sem_pos : 0 <= sem_cnt s <= 2147483647;
  sem_known : forall t r, ts !! t = Some r -> sem_knows s r
}.

Lemma sem_alone initial ts s posted taken t r t' r' : sem_ok initial ts s posted taken -> ts !! t = Some r -> sem_inside r = true ->
  t' <> t -> ts !! t' = Some r' -> sem_inside r' = false.
Proof.
  intros [Hh _ _ _] Ht Hr Hne Ht'. destruct (sem_inside r') eqn:E; [|done].
  pose proof (tally_two (fun r => bit (sem_inside r)) ts t t' r r' (fun x => proj1 (bit_range _)) ltac:(done) Ht Ht') as H2.
  cbv beta in H2. rewrite Hr, E in H2. pose proof (bit_range (sem_lock s)). simpl in H2. lia.
Qed.

Lemma sem_ok_update initial ts s posted taken t r r' s' posted' taken' : sem_ok initial ts s posted taken -> ts !! t = Some r ->
  bit (sem_lock s') = bit (sem_lock s) - bit (sem_inside r) + bit (sem_inside r') -> sem_knows s' r' ->
  (sem_inside r = true \/ sem_cnt s' = sem_cnt s) -> sem_cnt s' = initial + posted' - taken' -> 0 <= sem_cnt s' <= 2147483647 ->
  sem_ok initial (<[t := r']> ts) s' posted' taken'.
Proof.
  intros Hok Ht Hl Hk Hc Hu Hp. pose proof Hok as []. split; [|done|done|].
  - rewrite (tally_insert _ _ _ _ _ Ht). lia.
  - intros t1 r1. rewrite list_lookup_insert_Some. intros [(<- & <- & _)|[Hne H1]]; [done|]. pose proof (sem_known0 _ _ H1) as Hk1.
    destruct Hc as [Hi|Hc]; [|destruct r1; simpl in *; try done; lia].
    assert (sem_inside r1 = false) as Ho by (eapply sem_alone; [exact Hok|exact Ht|done|by apply not_eq_sym|done]). by destruct r1.
Qed.

(** The step of a task that is not about to overflow the counter. *)
Lemma sem_step_ok initial ts s posted taken t r now : sem_ok initial ts s posted taken -> ts !! t = Some r ->
  0 <= now <= usize_MAX - 4294967296 -> (r = sp_inc -> sem_cnt s < 2147483647) ->
  exists r' s', sem_step now r s = Ok (r', s') /\
    sem_ok initial (<[t := r']> ts) s' (posted + bit (match r with sp_inc => true | _ => false end))
      (taken + bit (match r with sw_dec => true | _ => false end)).
Proof.
  intros Hok Ht Hnow Hinc. pose proof Hok as [Hh Hu Hp _]. pose proof (sem_known _ _ _ _ _ Hok _ _ Ht) as Hk.
  pose proof (tally_member (fun r => bit (sem_inside r)) ts t r (fun x => proj1 (bit_range _)) Ht) as Hi.
  assert (Hin : sem_inside r = true -> bit (sem_lock s) = 1).
  { intros E. cbv beta in Hi. rewrite E, Hh in Hi. pose proof (bit_range (sem_lock s)). simpl in Hi. lia. }
  assert (Hgoal : forall r' s', bit (sem_lock s') = bit (sem_lock s) - bit (sem_inside r) + bit (sem_inside r') ->
    sem_knows s' r' -> (sem_inside r = true \/ sem_cnt s' = sem_cnt s) ->
    sem_cnt s' = sem_cnt s + bit (match r with sp_inc => true | _ => false end) - bit (match r with sw_dec => true | _ => false end) ->
    0 <= sem_cnt s' <= 2147483647 ->
    exists r1 s1, Ok (r', s') = Ok (r1, s1) /\ sem_ok initial (<[t := r1]> ts) s1
      (posted + bit (match r with sp_inc => true | _ => false end)) (taken + bit (match r with sw_dec => true | _ => false end))).
  { intros r' s' ? ? ? Ec ?. exists r', s'. split; [done|]. eapply sem_ok_update; try done. rewrite Ec, Hu. lia. }
  destruct r as [|timeout|timeout start|timeout start|timeout start| | |timeout start|ret| | |]; simpl in *.
  - apply Hgoal; simpl; auto; lia.
  - apply Hgoal; simpl; auto; lia.
  - destruct Hk as [Hto Hst]. unfold is_u32 in Hto. destruct (0 <? timeout).
    + rewrite uadd_ok by lia. simpl. destruct (_ <? now); apply Hgoal; simpl; auto; lia.
    + apply Hgoal; simpl; auto; lia.
  - destruct (sem_lock s) eqn:El; simpl; apply Hgoal; simpl; rewrite ?El; simpl; auto; lia.
  - specialize (Hin eq_refl). destruct (Z.ltb_spec 0 (sem_cnt s)); apply Hgoal; simpl; auto; lia.
  - specialize (Hin eq_refl). rewrite isub_ok by (unfold is_i32; lia). simpl. apply Hgoal; simpl; auto; lia.
  - specialize (Hin eq_refl). apply Hgoal; simpl; auto; lia.
  - specialize (Hin eq_refl). apply Hgoal; simpl; auto; lia.
  - apply Hgoal; simpl; auto; lia.
  - destruct (sem_lock s) eqn:El; simpl; apply Hgoal; simpl; rewrite ?El; simpl; auto; lia.
  - specialize (Hin eq_refl). specialize (Hinc eq_refl). rewrite iadd_ok by (unfold is_i32; lia). simpl. apply Hgoal; simpl; auto; lia.
  - specialize (Hin eq_refl). apply Hgoal; simpl; auto; lia.
Qed.

Lemma sem_reach_ok n initial ts s posted taken : 0 <= initial <= 2147483647 -> sem_reach n initial ts s posted taken ->
  sem_ok initial ts s posted taken.
Proof.
  intros Hinit. induction 1 as [|ts s posted taken t r _ Hok Ht He|ts s posted taken t r r' s' now _ Hok Ht Hnow E].
  - split; simpl; [by rewrite tally_replicate|lia|lia|]. intros t r Ht. by apply lookup_replicate in Ht as [-> _].
  - pose proof Hok as []. eapply sem_ok_update; try done; [destruct He; simpl; lia|destruct He; simpl; auto|by right].
  - assert (Hinc : r = sp_inc -> sem_cnt s < 2147483647).
    { intros ->. simpl in E. unfold iadd in E. destruct (is_i32 (sem_cnt s + 1)) eqn:Ei; [|done]. unfold is_i32 in Ei. lia. }
    destruct (sem_step_ok _ _ _ _ _ t r now Hok Ht Hnow Hinc) as (r1 & s1 & E1 & Hok1). rewrite E in E1. by injection E1 as <- <-.
Qed.

(** The semaphore never gives more than it has.  In every state that tasks reach which
    call [wait] and [post] on a semaphore created with [initial] units: the counter is the initial units and those posted less those taken by
    waits that succeed, and it is never negative; the inner lock is held by at most one task; and the next step of every
    task returns, except for a [post] at the largest counter value.  The timer may show any value
    that is [2^32] or more below the largest of its 64 bits. *)
Theorem semaphore_counts n initial ts s posted taken : 0 <= initial <= 2147483647 -> sem_reach n initial ts s posted taken ->
  0 <= sem_cnt s /\ sem_cnt s = initial + posted - taken /\ taken <= initial + posted /\
  tally (fun r => bit (sem_inside r)) ts = bit (sem_lock s) /\
  (forall t r now, ts !! t = Some r -> 0 <= now <= usize_MAX - 4294967296 -> (r = sp_inc -> sem_cnt s < 2147483647) ->
     exists r' s', sem_step now r s = Ok (r', s')).
Proof.
  intros Hinit Hr. pose proof (sem_reach_ok _ _ _ _ _ _ Hinit Hr) as Hok. pose proof Hok as [].
  split; [lia|]. split; [done|]. split; [lia|]. split; [done|]. intros t r now Ht Hnow Hinc.
  destruct (sem_step_ok _ _ _ _ _ t r now Hok Ht Hnow Hinc) as (r' & s' & E & _). by exists r', s'.
Qed.

(** ** Examples *)

(** Task 0 writes; task 1 has found the counter at -1 and is about to try again. *)
Lemma rw_lock_exclusive_witness : exists ts s, rw_reach 2 ts s /\ ts !! 0%nat = Some rw_writing /\ cnt s = -1 /\
  exists r' s', rw_step ra_retry s = Ok (r', s').
Proof.
  pose proof (rw_init 2) as Hr. eapply (rw_call 2 _ _ 0 _ wa_lock) in Hr; [|done|constructor].
  do 4 (eapply (rw_next 2 _ _ 0) in Hr; [|reflexivity|reflexivity]; simpl in Hr).
  eapply (rw_call 2 _ _ 1 _ ra_lock) in Hr; [|done|constructor]. do 2 (eapply (rw_next 2 _ _ 1) in Hr; [|reflexivity|reflexivity]; simpl in Hr).
  exists [rw_writing; ra_retry], {| lock := true; cnt := -1 |}. split; [done|]. split; [done|]. split; [done|].
  by apply (rw_lock_exclusive 2 _ _ ltac:(lia) Hr) with (t := 1%nat).
Defined.

Lemma semaphore_counts_witness : exists ts s, sem_reach 1 1 ts s 0 1 /\ ts !! 0%nat = Some sw_unlock /\ sem_cnt s = 0 /\ 1 <= 1 + 0.
Proof.
  pose proof (sem_init 1 1) as Hr. eapply (sem_call 1 1 _ _ _ _ 0 (sw_start 5)) in Hr; [|done|by constructor].
  do 5 (eapply (sem_next 1 1 _ _ _ _ 0 _ _ _ 7) in Hr; [|reflexivity|unfold usize_MAX; lia|reflexivity]; simpl in Hr).
  exists [sw_unlock], {| sem_lock := true; sem_cnt := 0 |}. split; [done|]. split; [done|]. split; [done|].
  apply (semaphore_counts 1 1 _ _ 0 1 ltac:(lia) Hr).
Defined.
